(* ===== verification/_CoqProject ===== *)
-Q . S2P
Prelude.v
RbModel.v
RbTree.v
RbRepr.v
RbRotate.v
RbInsert.v
RbWalk.v
RbErase.v
RbDelete.v
RbSpec.v
Linked.v
Strings.v
StringTests.v
Console.v
Printf.v
Init.v
Interrupts.v
Addr.v
Acpi.v
AcpiSpec.v
Machine.v
Cpuset.v
Bitmap.v
Boot.v
Smp.v
Apic.v
ApicSpec.v
Smbios.v
SmbiosSpec.v
Percpu.v
Modes.v
Pit.v
Ps2.v
Pmm.v
PmmInv.v
PmmAlloc.v
PmmFree.v
PmmSpec.v
PmmInit.v
PmmTheorems.v
PmmStart.v
Mmap.v
MmapSpec.v
Multiboot.v
Vmm.v
VmmSpec.v
VmmTheorems.v
CowSpec.v
Slob.v
SlobSpec.v
Heap.v
InodeCache.v
InodeCacheSpec.v
Initrd.v
InitrdSpec.v
Sync.v
Tlb.v
Area.v
Sched.v
Faults.v
Lapic.v
Context.v
TaskMemory.v
ContextSpec.v
Entry.v
SchedInv.v
RunQueue.v
Execve.v
LapicSpec.v
Panic.v
PanicSmp.v
Dump.v
Schedule.v
SchedStart.v
StartMemory.v
SchedTheorems.v
