(* ===== verification/Prelude.v ===== *)
(** * ByteOS: a verification development

    ByteOS is a small multiprocessor kernel for x86-64, written in C with some
    assembly.  This development models its components as executable functions
    over explicit state and proves that they do what their callers rely on.

    ** The program and the files

    The boot code (kernel/boot.asm) checks the machine, builds the first page
    tables and enters long mode; kmain brings up the parts one by one and
    starts the other processors (kernel/smp).
    Physical memory starts as regions found at boot (kernel/mm/mmap.c), which
    the buddy allocator (kernel/mm/pmm.c) takes over in zones; the page tables
    (vmm.c), copy-on-write (cow.c) and the heap (slob.c) take page frames from
    it.  The scheduler (kernel/proc) keeps runnable tasks in one red-black
    tree (libk/ds/rbtree.c) per CPU and switches contexts and address spaces.
    Interrupts enter through generated stubs (kernel/cpu), are routed by the
    controllers the firmware tables describe (kernel/drivers/acpi, apic), and
    invalidate translations on other CPUs (kernel/mm/tlb.c, smp/ipi.c).  The
    boot archive is mounted as the root of the file system (kernel/fs), and
    the console (libk/kprintf.c, kernel/drivers/vga_tmode, serial) prints.

    - Prelude.v: outcomes, the state and error monad, its program logic, loops
      with fuel, machine-width integers, lemmas on lists and maps.
    - RbModel.v, RbTree.v, RbRepr.v, RbRotate.v, RbInsert.v, RbWalk.v,
      RbErase.v, RbDelete.v, RbSpec.v: libk/ds/rbtree.c and its header.
    - Strings.v, Console.v, Printf.v: libk/string.c, the text console and the
      serial port, libk/kprintf.c against an interface of character devices.
      StringTests.v: the unit tests of libk/tests/tstring.c, run on Strings.v.
    - Linked.v: include/ds/linked.h and generic.h on a memory of words.
      Machine.v: the wrappers of include/asm.h, atomic.h and sync.h.
    - Panic.v: the macros of include/libk.h, libk/abort.c, ssp.c and ubsan.c on
      one CPU.  PanicSmp.v: a panic among CPUs that print and interrupt each
      other.  Dump.v: the functions that print page tables, memory regions and
      firmware tables.
    - Interrupts.v: kernel/cpu/idt.c, isr_stubs.asm, isr.c, exceptions.c and
      interrupts.c.
      Faults.v: the page fault handler, from the exception to the page tables.
    - Boot.v: kernel/boot.asm and the same steps of smp/trampoline.asm, with
      the processor's translation of addresses.  Modes.v: the changes of mode
      in both files, from real mode and from protected mode to 64-bit code,
      and the loader's header.  Entry.v: kernel/cpu/entry.asm, simd.asm, crt,
      the calls of kmain.c and the idle task.
    - Smp.v: the start of the other processors (kernel/smp/smp.c, the end of
      trampoline.asm, [wait_for_schedulers]), as steps of many CPUs.
      Percpu.v: kernel/cpu/percpu.c and flush.asm, the descriptor tables and
      task state segments on bytes of memory.
    - Addr.v, Cpuset.v: include/addr.h, util.h, limits.h; kernel/smp/cpuset.c.
    - Bitmap.v: include/ds/bitmap.h and libk/ds/bitmap.c.
    - Acpi.v, AcpiSpec.v, Apic.v, ApicSpec.v: the firmware tables, the MADT
      and the I/O APICs of kernel/drivers/acpi and kernel/drivers/apic.
      Smbios.v, SmbiosSpec.v: kernel/drivers/smbios.
    - Pit.v, Ps2.v: kernel/drivers/pit and kernel/drivers/ps2, on devices that
      are interfaces with the documented behaviour as laws.
    - Pmm.v, PmmInv.v, PmmAlloc.v, PmmFree.v, PmmSpec.v, PmmInit.v,
      PmmTheorems.v, PmmStart.v: kernel/mm/pmm.c.  Mmap.v, MmapSpec.v: kernel/mm/mmap.c.
      Multiboot.v: its reading of the boot loader's information.
    - Vmm.v, VmmSpec.v, VmmTheorems.v, CowSpec.v: kernel/mm/vmm.c, mmu.c and
      cow.c over the frames of the buddy allocator.
    - Slob.v, SlobSpec.v: kernel/mm/slob.c.  Heap.v: the heap as an interface
      that SlobSpec.v discharges and the file system uses.
    - InodeCache.v, InodeCacheSpec.v, Initrd.v, InitrdSpec.v: kernel/fs.  The
      cache is proved against an interface of file systems that the initrd
      discharges.
    - Sync.v: include/sync.h and kernel/smp/spin.asm, as steps of many CPUs.
      Tlb.v: kernel/mm/tlb.c and the handler of smp/ipi.c, likewise.
    - Area.v: kernel/mm/area.c.
    - Sched.v, SchedInv.v, RunQueue.v, Schedule.v, SchedTheorems.v:
      kernel/proc/runq.c, sched.c, parts of task.c and mmu.c, and what
      switch_to.asm does to tasks and address spaces.  SchedStart.v,
      StartMemory.v: the start of the schedulers, with the run queues and idle
      tasks it allocates, and a memory on which it runs.
    - Init.v: the user program of proc/init.c and the call it prints with.
    - Lapic.v, LapicSpec.v: kernel/drivers/apic/lapic.c, as the accesses it
      makes to the device.
    - Context.v, TaskMemory.v, ContextSpec.v: kernel/syscall/syscall.asm,
      [syscall_fork], [task_fork], fork.asm and switch_to.asm, instruction by
      instruction on a machine with registers, a stack in memory and model
      specific registers.  TaskMemory.v joins the heap and the page tables to
      the memory management that [task_fork] calls.  Execve.v: [task_execve],
      composed of the heap, the page tables, the areas and the machine.

    ** How code becomes definitions

    A C function is a function of the same name in the monad [M S], where [S]
    is a record of the globals and of the objects it reaches through
    pointers.  Objects live in maps from addresses, so aliasing is as in the
    source; reading where there is no object is [Fault], a failed assertion
    or [panic] is [Panic].  Integers are [Z] with every conversion and
    overflow written out ([u8] to [u64], [i8] to [i64]).  Assertions of debug
    builds depend on the class [BuildConfig], and theorems hold for both
    kinds of build unless they say otherwise.  Code run by several CPUs is a
    step relation at the grain of its accesses to shared memory.

    ** What the theorems show

    Statements about sequential code use [wp], which says that the code
    returns: it is total correctness, with no panic and no fault.
    - Red-black trees: insertion, removal and iteration implement the list of
      nodes in order, keep the balance invariant and touch nothing else.
    - Scheduler: the queues refine ordered lists; [schedule] keeps the
      invariant of the whole system and runs a task of least virtual runtime;
      the start of the schedulers establishes the invariant on every CPU, and
      the first CPU through enters [init_kernel].
    - Memory: the allocators keep free and allocated blocks a partition of
      what they were given, and the start of the page allocator sets it up;
      mapping and unmapping change the translation of one address only, for
      every address but those of the tables that boot.asm shares;
      copy-on-write counts the mappings of every frame and gives writers
      private copies; regions and areas stay sorted and apart.
    - Concurrency: locks exclude and are handed over in order; a shootdown
      ends with no stale translation left and its handlers never touch a dead
      stack frame; a panic that has turned its interrupts off prints its text
      whole and asks the others to stop.  Both depend on the table of
      handlers: with the handlers of smp/ipi.c installed a shootdown can
      always finish and the others stop, with the table the kernel sets up a
      shootdown waits for ever and the others go on.
    - File system: the cache refines a map from device and number to inodes
      with reference counts; mounting, the search of the archive and the error
      paths are exact.
    - Boot: the first page tables map the kernel with no page both writable
      and executable, and every failed check ends in its message; the memory
      map is the loader's; the processors that are started get stacks of
      their own, wait for each other and have their own descriptor tables;
      the trampoline and the boot code get to the kernel in 64-bit mode with
      paging and protection on, and the entry gets through [kmain] to the
      scheduler on an aligned stack, with interrupts off until they are due.
    - Devices and firmware: tables are found and read back from their
      encodings; redirection entries, gates and stubs are as intended; the
      keyboard controller is brought up; waits last as long as asked, with the
      exception shown; accesses to the local APIC have their width; the
      formatter and the terminal print what the format says.
    - Contexts: a system call, fork included, returns to its caller with the
      registers the convention keeps; a forked task starts where its parent
      called fork; a task that is switched away comes back as
      it left; a program that is started runs in an address space of its own
      with its code read-only and its stack not executable; a write to a
      shared page is resolved from the fault to the return, which finds the
      registers as they were; the processes of
      the first program print their characters in order.
    - Some theorems show where the code does not do what it means to.

    ** Fuel

    [loop n] gives a loop [n] rounds and is [Diverge] after that, so [wp]
    includes that the fuel suffices.  Walks of linked structures get one more
    round than the map of their objects has entries; loops over a range get
    the length of the range; rebalancing a tree gets the number of its nodes.
    Recursion of the source that is bounded by an order is a [Fixpoint] on it.
    The search of an archive directory has no bound in the source: its fuel
    is an argument and the theorem says how much is enough.  Polling a device
    has none either: its fuel is the argument [polls], and the device's laws
    say that it answers within so many reads.

    ** Not modelled

    - linker.ld: the addresses it assigns are parameters, with the order of
      the sections as hypotheses where a theorem needs it.  The copy of the
      trampoline to low memory is a hypothesis on the memory of Modes.v.
    - Waiting for the PIT is one event of Lapic.v, since the timer counts
      meanwhile; Smp.v leaves the waits out, so that its steps come in every
      order the waits allow and more.
    - Context.v takes the functions behind the system calls write, exit and
      sched_yield as parameters that keep the calling convention; their bodies
      are in Init.v and Sched.v, on the state of the printer and of the
      scheduler.  Entry.v takes the functions it calls likewise.
    - Code that nothing calls: [ps2kbd_cmd], [ipi_sched_hint], [_fini], blocks
      under [#if 0] and the parts of multiboot2.h that are not read.
    - The call of [task_exit] after a kernel thread's function returns, and
      [init_kernel], which is [vfs_init] followed by [task_execve], both
      modelled on states of their own.
    - Shootdowns inside [vmm_map_page]: the theorems on mapping are for builds
      and numbers of CPUs that make none; Tlb.v has the protocol.
    - The steps of two CPUs on their way to the barrier of the schedulers are
      interleaved in Smp.v, but not in SchedStart.v.
    - Messages of klog outside Panic.v and Dump.v, and weak memory ordering:
      atomic operations are sequentially consistent steps, as their memory
      order argument asks but for one relaxed load in pit.c. *)

From stdpp Require Import base option list gmap.
From Stdlib Require Import ZArith Lia.
Local Open Scope Z_scope.

(** ** Outcomes of C code

    A run of kernel code either returns, stops the machine through [panic] or
    a failed [kassert], touches memory that holds no object (a NULL or wild
    pointer, an index out of an array's range), or runs out of the fuel given
    to one of its loops. *)

Inductive outcome (A : Type) : Type :=
| Ok (x : A)
| Panic
| Fault
| Diverge.
Arguments Ok {A} _.
Arguments Panic {A}.
Arguments Fault {A}.
Arguments Diverge {A}.

(** ** The state and error monad the handlers are written in *)

Definition M (S A : Type) : Type := S → outcome (A * S).

#[global] Instance M_ret {S} : MRet (M S) := λ A x s, Ok (x, s).

#[global] Instance M_bind {S} : MBind (M S) := λ A B f m s,
  match m s with
  | Ok (x, s') => f x s'
  | Panic => Panic
  | Fault => Fault
  | Diverge => Diverge
  end.

Definition panic {S A} : M S A := λ _, Panic.
Definition fault {S A} : M S A := λ _, Fault.
Definition diverge {S A} : M S A := λ _, Diverge.
Definition get {S} : M S S := λ s, Ok (s, s).
Definition put {S} (s : S) : M S unit := λ _, Ok (tt, s).
Definition modify {S} (f : S → S) : M S unit := λ s, Ok (tt, f s).

(** [kassert] of include/libk.h: panic when the condition fails. *)
Definition kassert {S} (b : bool) : M S unit :=
  if b then mret tt else panic.

(** The build configuration: [DEBUG] is set by the Makefile unless [DEBUG=0]. *)
Class BuildConfig := { DEBUG : bool }.

Definition debug_build : BuildConfig := {| DEBUG := true |}.
Definition release_build : BuildConfig := {| DEBUG := false |}.

(** [kassert_dbg] of include/libk.h: an assertion of debug builds only. *)
Definition kassert_dbg {S} `{BuildConfig} (b : bool) : M S unit :=
  if DEBUG then kassert b else mret tt.

(** [&&] and [||]: the second operand is evaluated only when it matters. *)
Definition andM {S} (m1 m2 : M S bool) : M S bool :=
  b ← m1; if b : bool then m2 else mret false.
Definition orM {S} (m1 m2 : M S bool) : M S bool :=
  b ← m1; if b : bool then mret true else m2.

(** Loops: [body] returns [inl] to go round again and [inr] to leave. *)
Fixpoint loop {S A B} (fuel : nat) (body : B → M S (B + A)) (b : B) : M S A :=
  match fuel with
  | O => diverge
  | Datatypes.S fuel =>
      r ← body b;
      match r with
      | inl b' => loop fuel body b'
      | inr a => mret a
      end
  end.

(** ** Total correctness

    [wp m s Q]: started in [s], [m] returns (it neither panics, faults nor
    runs out of fuel) and its result and final state satisfy [Q]. *)

Definition wp {S A} (m : M S A) (s : S) (Q : A → S → Prop) : Prop :=
  match m s with Ok (x, s') => Q x s' | _ => False end.

Section wp.
Context {S : Type}.
Implicit Types s : S.

Lemma wp_ok {A} (m : M S A) s Q :
  wp m s Q ↔ ∃ x s', m s = Ok (x, s') ∧ Q x s'.
Proof.
  unfold wp. destruct (m s) as [[x s']| | |].
  1: split; [by eauto | by intros (? & ? & [= <- <-] & ?)].
  all: split; [done | by intros (? & ? & ? & _)].
Qed.

Lemma bind_ok {A B} (m : M S A) (f : A → M S B) s y s' :
  (m ≫= f) s = Ok (y, s') → ∃ x s1, m s = Ok (x, s1) ∧ f x s1 = Ok (y, s').
Proof. unfold mbind, M_bind. destruct (m s) as [[x s1]| | |]; [by eauto|done..]. Qed.

Lemma wp_ok_elim {A} (m : M S A) s x s' (Q : A → S → Prop) : m s = Ok (x, s') → wp m s Q → Q x s'.
Proof. unfold wp. by intros ->. Qed.

Lemma wp_ret {A} (x : A) s (Q : A → S → Prop) : Q x s → wp (mret x) s Q.
Proof. done. Qed.

Lemma wp_bind {A B} (m : M S A) (f : A → M S B) s Q :
  wp m s (λ x s', wp (f x) s' Q) → wp (m ≫= f) s Q.
Proof.
  unfold wp, mbind, M_bind. destruct (m s) as [[x s']| | |]; done.
Qed.

Lemma wp_bind_inv {A B} (m : M S A) (f : A → M S B) s Q :
  wp (m ≫= f) s Q → wp m s (λ x s', wp (f x) s' Q).
Proof.
  unfold wp, mbind, M_bind. destruct (m s) as [[x s']| | |]; done.
Qed.

Lemma wp_mono {A} (m : M S A) s (P Q : A → S → Prop) :
  wp m s P → (∀ x s', P x s' → Q x s') → wp m s Q.
Proof. unfold wp. destruct (m s) as [[x s']| | |]; eauto. Qed.

Lemma wp_seq {A B} (m : M S A) (f : A → M S B) s P Q :
  wp m s P → (∀ x s', P x s' → wp (f x) s' Q) → wp (m ≫= f) s Q.
Proof. intros Hm Hf. apply wp_bind. eapply wp_mono; eauto. Qed.

Lemma wp_bind_assoc {A B C} (m : M S A) (f : A → M S B) (g : B → M S C) s Q :
  wp ((m ≫= f) ≫= g) s Q → wp (m ≫= λ x, f x ≫= g) s Q.
Proof. unfold wp, mbind, M_bind. by destruct (m s) as [[x s']| | |]. Qed.

(** Code that returns, followed by code that panics. *)
Lemma wp_panic {A B} (m : M S A) (f : A → M S B) s :
  wp m s (λ x s', f x s' = Panic) → (m ≫= f) s = Panic.
Proof. unfold wp, mbind, M_bind. by destruct (m s) as [[x s']| | |]. Qed.

Lemma wp_get s (Q : S → S → Prop) : Q s s → wp get s Q.
Proof. done. Qed.

Lemma wp_put s s' (Q : unit → S → Prop) : Q tt s' → wp (put s') s Q.
Proof. done. Qed.

Lemma wp_modify f s (Q : unit → S → Prop) : Q tt (f s) → wp (modify f) s Q.
Proof. done. Qed.

Lemma wp_kassert b s (Q : unit → S → Prop) : b = true → Q tt s → wp (kassert b) s Q.
Proof. intros ->. done. Qed.

Lemma wp_kassert_dbg `{BuildConfig} b s (Q : unit → S → Prop) :
  b = true → Q tt s → wp (kassert_dbg b) s Q.
Proof. intros ->. unfold kassert_dbg. by destruct DEBUG. Qed.

(** The loop rule: the invariant carries a variant [n] that each further
    round decreases, and the fuel exceeds it at the start. *)
Lemma wp_loop {A B} (I : nat → B → S → Prop) (body : B → M S (B + A)) Q fuel :
  (∀ n b s, I n b s →
     wp (body b) s (λ r s',
       match r with
       | inl b' => ∃ n', (n' < n)%nat ∧ I n' b' s'
       | inr a => Q a s'
       end)) →
  ∀ n b s, I n b s → (n < fuel)%nat → wp (loop fuel body b) s Q.
Proof.
  intros Hbody. induction fuel as [|fuel IH]; intros n b s HI Hlt; [lia|].
  simpl. eapply wp_seq; [by apply Hbody|].
  intros [b'|a] s' Hr; [|done].
  destruct Hr as (n' & Hn' & HI'). eapply IH; [done|lia].
Qed.
End wp.

(** ** Typing of state

    [typed I R m]: from a state in [I], if [m] returns, its result is in [R]
    and the state is in [I] again. *)

Definition typed {S A} (I : S → Prop) (R : A → Prop) (m : M S A) : Prop :=
  ∀ s x s', I s → m s = Ok (x, s') → I s' ∧ R x.

Section typed.
Context {S : Type} (I : S → Prop).

Lemma typed_ret {A} (R : A → Prop) x : R x → typed I R (mret x).
Proof. by intros Hx s y s' Hs [= <- <-]. Qed.

Lemma typed_bind {A B} (R : A → Prop) (T : B → Prop) (m : M S A) f :
  typed I R m → (∀ x, R x → typed I T (f x)) → typed I T (m ≫= f).
Proof. intros Hm Hf s y s' Hs (x & s1 & H1 & H2)%bind_ok. destruct (Hm _ _ _ Hs H1). by eapply Hf. Qed.

Lemma typed_get_bind {B} (T : B → Prop) (f : S → M S B) :
  (∀ s, I s → typed I T (f s)) → typed I T (get ≫= f).
Proof. intros Hf. eapply (typed_bind I); [by intros s x s' Hs [= <- <-]|done]. Qed.

Lemma typed_modify f : (∀ s, I s → I (f s)) → typed I (λ _, True) (modify f).
Proof. intros Hf s x s' Hs [= <- <-]. auto. Qed.

Lemma typed_weaken {A} (R T : A → Prop) (m : M S A) : typed I R m → (∀ x, R x → T x) → typed I T m.
Proof. intros Hm HT s x s' Hs H1. destruct (Hm _ _ _ Hs H1). auto. Qed.

Lemma typed_panic {A} (R : A → Prop) : typed I R panic.
Proof. by intros ????. Qed.
Lemma typed_fault {A} (R : A → Prop) : typed I R fault.
Proof. by intros ????. Qed.
Lemma typed_kassert b : typed I (λ _, True) (kassert b).
Proof. destruct b; [by apply typed_ret|apply typed_panic]. Qed.
Lemma typed_kassert_dbg `{BuildConfig} b : typed I (λ _, True) (kassert_dbg b).
Proof. unfold kassert_dbg. destruct DEBUG; [apply typed_kassert|by apply typed_ret]. Qed.
Lemma typed_if {A} (R : A → Prop) (b : bool) (m m' : M S A) :
  typed I R m → typed I R m' → typed I R (if b then m else m').
Proof. by destruct b. Qed.
End typed.

Create HintDb typing discriminated.
#[export] Hint Resolve typed_panic typed_fault typed_kassert typed_kassert_dbg : typing.

(** The typing rules, applied from the head of the code; what the hints do not
    solve is left. *)
Ltac typing := repeat lazymatch goal with
  | |- typed _ _ (get ≫= _) => apply typed_get_bind; intros ? ?
  | |- typed _ _ (_ ≫= _) => eapply typed_bind; [solve [eauto with typing]|intros ? ?]
  | |- typed _ _ (if _ then _ else _) => apply typed_if
  | |- typed _ _ (mret _) => apply typed_ret
  | |- _ => solve [eauto with typing]
  end.

(** ** Components of a larger state *)

(** Run [m] on the part of the state that [sub] selects and [upd] stores back. *)
Definition zoom {S T A} (sub : S → T) (upd : T → S → S) (m : M T A) : M S A := λ s,
  match m (sub s) with
  | Ok (x, t) => Ok (x, upd t s)
  | Panic => Panic
  | Fault => Fault
  | Diverge => Diverge
  end.

Lemma wp_zoom {S T A} (sub : S → T) upd (m : M T A) s (Q : A → S → Prop) :
  wp m (sub s) (λ x t, Q x (upd t s)) → wp (zoom sub upd m) s Q.
Proof. unfold wp, zoom. by destruct (m (sub s)) as [[x t]| | |]. Qed.

(** [p->field] for objects kept in a table: NULL or an address that holds no
    object of the type faults. *)
Definition deref {S V} (tbl : S → gmap Z V) (p : Z) : M S V := λ s,
  if p =? 0 then Fault
  else match tbl s !! p with Some v => Ok (v, s) | None => Fault end.

Definition store {S V} (tbl : S → gmap Z V) (upd : (gmap Z V → gmap Z V) → S → S)
    (p : Z) (f : V → V) : M S unit :=
  v ← deref tbl p; modify (upd <[p := f v]>).

Lemma wp_deref {S V} (tbl : S → gmap Z V) p v s (Q : V → S → Prop) :
  tbl s !! p = Some v → p ≠ 0 → Q v s → wp (deref tbl p) s Q.
Proof.
  intros Hp Hne HQ. unfold wp, deref. destruct (Z.eqb_spec p 0); [done|]. by rewrite Hp.
Qed.

Lemma wp_store {S V} (tbl : S → gmap Z V) upd p f v s (Q : unit → S → Prop) :
  tbl s !! p = Some v → p ≠ 0 → Q tt (upd <[p := f v]> s) → wp (store tbl upd p f) s Q.
Proof.
  intros Hp Hne HQ. unfold store. apply wp_bind. eapply wp_deref; [done..|]. by apply wp_modify.
Qed.

(** ** Lists *)

(** An element of a list without duplicates splits it in one way. *)
Lemma NoDup_split_eq {A} (x : A) l1 l2 l1' l2' :
  NoDup (l1 ++ x :: l2) → l1 ++ x :: l2 = l1' ++ x :: l2' → l1 = l1' ∧ l2 = l2'.
Proof.
  revert l1'. induction l1 as [|y l1 IH]; intros [|y' l1']; simpl.
  - by intros _ [= ->].
  - intros [Hx _]%NoDup_cons [= -> ->]. destruct Hx. set_solver.
  - intros [Hy _]%NoDup_cons [= -> E]. destruct Hy. set_solver.
  - intros [_ Hnd]%NoDup_cons [= -> E]. by destruct (IH _ Hnd E) as [-> ->].
Qed.

(** The number of elements that satisfy [f]. *)
Fixpoint tally {A} (f : A → bool) (l : list A) : Z :=
  match l with [] => 0 | x :: l => Z.b2z (f x) + tally f l end.

Section tally.
Context {A : Type}.
Implicit Types (f g : A → bool) (l : list A).

Lemma tally_nonneg f l : 0 ≤ tally f l.
Proof. induction l as [|c l IH]; simpl; [lia|]. destruct (f c); simpl; lia. Qed.

Lemma tally_insert f l i c c' :
  l !! i = Some c → tally f (<[i := c']> l) = tally f l - Z.b2z (f c) + Z.b2z (f c').
Proof.
  revert i. induction l as [|x l IH]; intros [|i]; simpl; intros Hi; [done..|simplify_eq; lia|].
  rewrite (IH _ Hi). lia.
Qed.

Lemma tally_at f l i c : l !! i = Some c → Z.b2z (f c) ≤ tally f l.
Proof.
  revert i. induction l as [|x l IH]; intros [|i]; simpl; intros Hi; [done..| |].
  - simplify_eq. pose proof (tally_nonneg f l). lia.
  - specialize (IH _ Hi). destruct (f x); simpl; lia.
Qed.

Lemma tally_two f l i j c d :
  i ≠ j → l !! i = Some c → l !! j = Some d → f c = true → f d = true → 2 ≤ tally f l.
Proof.
  revert i j. induction l as [|x l IH]; intros [|i] [|j] Hne Hi Hj Hc Hd; simpl in *; try done; simplify_eq.
  - rewrite Hc. pose proof (tally_at f l j d Hj) as H. rewrite Hd in H. simpl in *. lia.
  - rewrite Hd. pose proof (tally_at f l i c Hi) as H. rewrite Hc in H. simpl in *. lia.
  - assert (2 ≤ tally f l) by (eapply (IH i j); congruence || done). destruct (f x); simpl; lia.
Qed.

Lemma tally_bound f l : tally f l ≤ Z.of_nat (length l).
Proof. induction l as [|c l IH]; simpl length; simpl; [done|]. destruct (f c); simpl; lia. Qed.

Lemma tally_zero f l : Forall (λ c, f c = false) l → tally f l = 0.
Proof. induction 1 as [|c l Hc _ IH]; simpl; [done|]. by rewrite Hc, IH. Qed.

Lemma tally_le f g l : (∀ c, f c = true → g c = true) → tally f l ≤ tally g l.
Proof.
  intros Hfg. induction l as [|c l IH]; simpl; [done|]. specialize (Hfg c).
  destruct (f c), (g c); simpl; lia || by discriminate Hfg.
Qed.

Lemma tally_negb f l : tally f l + tally (negb ∘ f) l = Z.of_nat (length l).
Proof. induction l as [|c l IH]; cbn [tally length compose]; [done|]. destruct (f c); simpl negb; simpl Z.b2z; lia. Qed.

(** Two elements that are not counted. *)
Lemma tally_two_out f l i j c d :
  i ≠ j → l !! i = Some c → l !! j = Some d → f c = false → f d = false → tally f l + 2 ≤ Z.of_nat (length l).
Proof.
  intros Hne Hi Hj Hc Hd. rewrite <-(tally_negb f l). apply Z.add_le_mono_l.
  apply (tally_two _ l i j c d); [done..|by cbn; rewrite Hc|by cbn; rewrite Hd].
Qed.

Lemma tally_alter f (h : A → A) l (i : nat) : (∀ c, l !! i = Some c → f (h c) = f c) → tally f (alter h i l) = tally f l.
Proof.
  revert i. induction l as [|x l IH]; intros [|i] Hh; [done..| |].
  - simpl. by rewrite (Hh x eq_refl).
  - change (alter h (S i) (x :: l)) with (x :: alter h i l). simpl. by rewrite (IH i Hh).
Qed.

Lemma tally_pos f l : 0 < tally f l → ∃ i c, l !! i = Some c ∧ f c = true.
Proof.
  induction l as [|x l IH]; simpl; [lia|]. destruct (f x) eqn:E; intros H.
  - by exists O, x.
  - destruct IH as (i & c & ? & ?); [by simpl in H|]. by exists (S i), c.
Qed.
End tally.

(** Step through a monadic program: open binds and returns. *)
Ltac wp_step :=
  match goal with
  | |- wp (mbind _ _) _ _ => apply wp_bind
  | |- wp (mret _) _ _ => apply wp_ret
  | |- wp get _ _ => apply wp_get
  | |- wp (put _) _ _ => apply wp_put
  | |- wp (modify _) _ _ => apply wp_modify
  end.
Ltac wp_steps := repeat (wp_step; cbn beta).

(** ** Machine integers

    A [w]-bit unsigned integer is a [Z] kept in range by reduction modulo
    [2^w]; conversions to the signed types are written out. *)

Definition uwrap (w z : Z) : Z := z mod 2 ^ w.
Definition swrap (w z : Z) : Z :=
  let u := z mod 2 ^ w in if u <? 2 ^ (w - 1) then u else u - 2 ^ w.

Abbreviation u8 := (uwrap 8).
Abbreviation u16 := (uwrap 16).
Abbreviation u32 := (uwrap 32).
Abbreviation u64 := (uwrap 64).
Abbreviation i8 := (swrap 8).
Abbreviation i32 := (swrap 32).
Abbreviation i64 := (swrap 64).

Definition in_u (w z : Z) : Prop := 0 ≤ z < 2 ^ w.

Lemma uwrap_range w z : 0 ≤ w → in_u w (uwrap w z).
Proof.
  intros. unfold uwrap, in_u. apply Z.mod_pos_bound.
  apply Z.pow_pos_nonneg; lia.
Qed.

Lemma uwrap_id w z : in_u w z → uwrap w z = z.
Proof. intros. unfold uwrap. by apply Z.mod_small. Qed.

Lemma uwrap_add_small w a b : in_u w (a + b) → uwrap w (a + b) = a + b.
Proof. apply uwrap_id. Qed.

(** A 64-bit value is put together again from its halves. *)
Lemma u64_halves v : in_u 64 v → Z.lor (u32 v) (Z.shiftl (u32 (Z.shiftr v 32)) 32) = v.
Proof.
  intros Hv. apply Z.bits_inj'. intros i Hi. rewrite Z.lor_spec, Z.shiftl_spec by done. unfold uwrap.
  destruct (Z.lt_ge_cases i 32).
  - rewrite Z.mod_pow2_bits_low, (Z.testbit_neg_r _ (i - 32)) by lia. apply orb_false_r.
  - rewrite Z.mod_pow2_bits_high by lia. destruct (Z.lt_ge_cases i 64).
    + rewrite Z.mod_pow2_bits_low, Z.shiftr_spec by lia. simpl. f_equal. lia.
    + rewrite Z.mod_pow2_bits_high by lia. rewrite <-(Z.mod_small v (2 ^ 64)) by exact Hv. by rewrite Z.mod_pow2_bits_high by lia.
Qed.

(** A change of the low half of a 64-bit value. *)
Definition low32 (f : Z → Z) (v : Z) : Z := Z.shiftl (Z.shiftr v 32) 32 + u32 (f (u32 v)).

Lemma low32_parts f v : 0 ≤ v → u32 (low32 f v) = u32 (f (u32 v)) ∧ Z.shiftr (low32 f v) 32 = Z.shiftr v 32.
Proof.
  intros Hv. unfold low32. rewrite Z.shiftl_mul_pow2, !Z.shiftr_div_pow2 by lia. unfold uwrap.
  pose proof (Z.mod_pos_bound (f (v mod 2 ^ 32)) (2 ^ 32) ltac:(lia)) as Hb.
  split.
  - rewrite Z.add_comm, Z.mod_add, Z.mod_mod by lia. done.
  - rewrite Z.div_add_l, (Z.div_small _ _ Hb) by lia. lia.
Qed.

Lemma low32_inc_dec v : in_u 64 v → low32 (λ v, v - 1) (low32 (λ v, v + 1) v) = v.
Proof.
  intros [Hv _]. destruct (low32_parts (λ v, v + 1) v Hv) as [H1 H2].
  unfold low32 at 1. rewrite H1, H2. unfold uwrap.
  rewrite Zminus_mod_idemp_l, Z.add_simpl_r, Z.mod_mod by lia.
  rewrite Z.shiftl_mul_pow2, Z.shiftr_div_pow2 by lia. pose proof (Z.div_mod v (2 ^ 32)). lia.
Qed.

Lemma low32_range f v : in_u 64 v → in_u 64 (low32 f v).
Proof.
  intros [H0 H1]. unfold low32. rewrite Z.shiftl_mul_pow2, Z.shiftr_div_pow2 by lia.
  pose proof (uwrap_range 32 (f (u32 v)) ltac:(lia)) as [Hr0 Hr1]. unfold in_u.
  assert (0 ≤ v / 2 ^ 32 < 2 ^ 32).
  { split; [apply Z.div_pos; lia|]. apply Z.div_lt_upper_bound; lia. }
  lia.
Qed.

(** NULL, for every pointer type. *)
Abbreviation NULL := 0 (only parsing).

(** A number below the lowest bit of another. *)
Lemma lor_low q n r : 0 ≤ n → 0 ≤ r < 2 ^ n → Z.lor (q * 2 ^ n) r = q * 2 ^ n + r.
Proof.
  intros Hn Hr. assert (Z.land (q * 2 ^ n) r = 0) as E.
  { apply Z.bits_inj'. intros i Hi. rewrite Z.land_spec, Z.bits_0. destruct (Z.lt_ge_cases i n).
    - by rewrite Z.mul_pow2_bits_low by lia.
    - rewrite <-(Z.mod_small r (2 ^ n)) by lia. by rewrite Z.mod_pow2_bits_high, andb_false_r by lia. }
  by rewrite <-Z.lxor_lor, Z.add_nocarry_lxor.
Qed.

(** Bits 12 to 51: the address in an entry of a page table. *)
Lemma land_frame_mask x : 0 ≤ x → Z.land x 0x000FFFFFFFFFF000 = (x / 4096) mod 2 ^ 40 * 4096.
Proof.
  intros Hx. change 0x000FFFFFFFFFF000 with (Z.shiftl (Z.ones 40) 12). change 4096 with (2 ^ 12).
  apply Z.bits_inj'. intros i Hi. rewrite Z.land_spec, Z.shiftl_spec, Z.mul_pow2_bits by lia.
  destruct (decide (i < 12)).
  - rewrite !(Z.testbit_neg_r _ (i - 12)) by lia. apply andb_false_r.
  - destruct (decide (i - 12 < 40)).
    + rewrite Z.ones_spec_low, andb_true_r, Z.mod_pow2_bits_low, Z.div_pow2_bits by lia. f_equal. lia.
    + rewrite Z.ones_spec_high, andb_false_r, Z.mod_pow2_bits_high by lia. done.
Qed.

Lemma land_pow2_testbit z n : 0 ≤ n → negb (Z.land z (2 ^ n) =? 0) = Z.testbit z n.
Proof.
  intros Hn. destruct (Z.testbit z n) eqn:Hb.
  - apply negb_true_iff, Z.eqb_neq. intros E. apply (f_equal (λ x, Z.testbit x n)) in E.
    by rewrite Z.land_spec, Hb, Z.pow2_bits_true, Z.bits_0 in E by lia.
  - apply negb_false_iff, Z.eqb_eq. apply Z.bits_inj'. intros i Hi.
    rewrite Z.land_spec, Z.bits_0. destruct (decide (i = n)) as [->|]; [by rewrite Hb|].
    by rewrite Z.pow2_bits_false, andb_false_r by lia.
Qed.
