(* ===== verification/RbModel.v ===== *)
(** * Red-black trees: the abstract side

    Ghost trees whose nodes are the addresses of the [struct rb_node]s, the
    contexts that focus on one subtree, the red-black invariant, and the facts
    about them the proofs of libk/ds/rbtree.c share.  Nothing here mentions
    the heap. *)

From stdpp Require Import base list.
From Stdlib Require Import ZArith Lia.
From S2P Require Import Prelude.
Local Open Scope Z_scope.

Inductive color := Red | Black.

#[global] Instance color_eq_dec : EqDecision color.
Proof. solve_decision. Defined.

Inductive tree :=
| Leaf
| Node (a : Z) (c : color) (l r : tree).

#[global] Instance tree_eq_dec : EqDecision tree.
Proof. solve_decision. Defined.

Definition root (t : tree) : Z :=
  match t with Leaf => NULL | Node a _ _ _ => a end.

(** A NULL pointer counts as black ([rb_color] of include/ds/rbtree.h). *)
Definition tcolor (t : tree) : color :=
  match t with Leaf => Black | Node _ c _ _ => c end.

(** The inorder list of addresses: what the tree stands for. *)
Fixpoint inorder (t : tree) : list Z :=
  match t with
  | Leaf => []
  | Node a _ l r => inorder l ++ a :: inorder r
  end.

(** One frame of a context: the node above the hole, its colour and the
    subtree on the other side. *)
Inductive frame :=
| FL (a : Z) (c : color) (r : tree)   (* the hole is the left child *)
| FR (a : Z) (c : color) (l : tree).  (* the hole is the right child *)

(** Innermost frame first. *)
Abbreviation ctx := (list frame).

Definition fill (f : frame) (t : tree) : tree :=
  match f with
  | FL a c r => Node a c t r
  | FR a c l => Node a c l t
  end.

Fixpoint plug (k : ctx) (t : tree) : tree :=
  match k with
  | [] => t
  | f :: k => plug k (fill f t)
  end.

Definition faddr (f : frame) : Z := match f with FL a _ _ | FR a _ _ => a end.
Definition fcolor (f : frame) : color := match f with FL _ c _ | FR _ c _ => c end.
Definition fother (f : frame) : tree := match f with FL _ _ t | FR _ _ t => t end.

(** The parent pointer of whatever is in the hole. *)
Definition cparent (k : ctx) : Z :=
  match k with [] => NULL | f :: _ => faddr f end.

(** Addresses before and after the hole, in inorder. *)
Fixpoint cbefore (k : ctx) : list Z :=
  match k with
  | [] => []
  | FL _ _ _ :: k => cbefore k
  | FR a _ l :: k => cbefore k ++ inorder l ++ [a]
  end.
Fixpoint cafter (k : ctx) : list Z :=
  match k with
  | [] => []
  | FL a _ r :: k => a :: inorder r ++ cafter k
  | FR _ _ _ :: k => cafter k
  end.

Lemma inorder_plug k t : inorder (plug k t) = cbefore k ++ inorder t ++ cafter k.
Proof.
  revert t. induction k as [|[a c r|a c l] k IH]; intros t; simpl.
  - by rewrite app_nil_r.
  - rewrite IH. simpl. by rewrite <-!(assoc_L (++)).
  - rewrite IH. simpl. by rewrite <-!(assoc_L (++)).
Qed.

Lemma plug_app k1 k2 t : plug (k1 ++ k2) t = plug k2 (plug k1 t).
Proof. revert t. induction k1; intros t; simpl; auto. Qed.

(** Replacing the hole by a tree with the same inorder list changes nothing
    that can be seen from outside. *)
Lemma inorder_plug_eq k t t' :
  inorder t = inorder t' → inorder (plug k t) = inorder (plug k t').
Proof. rewrite !inorder_plug. by intros ->. Qed.

Lemma elem_inorder_plug k t a : a ∈ inorder t → a ∈ inorder (plug k t).
Proof. rewrite inorder_plug, !elem_of_app. auto. Qed.

(** Every address of a tree is the root of some focused subtree. *)
Lemma inorder_focus t a :
  a ∈ inorder t → ∃ k c l r, t = plug k (Node a c l r).
Proof.
  induction t as [|b c l IHl r IHr]; simpl; intros Hin.
  { by apply elem_of_nil in Hin. }
  apply elem_of_app in Hin as [Hin|Hin].
  - destruct (IHl Hin) as (k & c' & l' & r' & ->).
    exists (k ++ [FL b c r]), c', l', r'. by rewrite plug_app.
  - apply elem_of_cons in Hin as [->|Hin]; [by exists [], c, l, r|].
    destruct (IHr Hin) as (k & c' & l' & r' & ->).
    exists (k ++ [FR b c l]), c', l', r'. by rewrite plug_app.
Qed.

(** ** The red-black invariant *)

(** [rbt t c n]: [t] has root colour [c] and black height [n], no red node
    has a red child and all paths down have the same number of blacks. *)
Inductive rbt : tree → color → nat → Prop :=
| rbt_leaf : rbt Leaf Black 0
| rbt_red a l r n :
    rbt l Black n → rbt r Black n → rbt (Node a Red l r) Red n
| rbt_black a l r cl cr n :
    rbt l cl n → rbt r cr n → rbt (Node a Black l r) Black (S n).

(** [rbc k b n]: a context whose hole takes a tree of black height [n], black
    at the root unless [b] allows red; the root of the whole tree is black. *)
Inductive rbc : ctx → bool → nat → Prop :=
| rbc_top n : rbc [] false n
| rbc_red f k n :
    fcolor f = Red → rbt (fother f) Black n → rbc k true n → rbc (f :: k) false n
| rbc_black f k n c b :
    fcolor f = Black → rbt (fother f) c n → rbc k b (S n) → rbc (f :: k) true n.

Definition rb (t : tree) : Prop := ∃ n, rbt t Black n.

Create HintDb rb.
#[export] Hint Constructors rbt rbc : rb.

Lemma rbt_tcolor t c n : rbt t c n → tcolor t = c.
Proof. by destruct 1. Qed.

Lemma rbt_colors_agree t c c' n n' : rbt t c n → rbt t c' n' → c = c'.
Proof. intros H1%rbt_tcolor H2%rbt_tcolor. congruence. Qed.

(** The colour a hole admits. *)
Definition admits (b : bool) (c : color) : Prop := c = Black ∨ b = true.

Lemma rbt_fill f t c n :
  rbt t c n →
  match fcolor f with
  | Red => rbt (fother f) Black n → c = Black → rbt (fill f t) Red n
  | Black => ∀ c', rbt (fother f) c' n → rbt (fill f t) Black (S n)
  end.
Proof. destruct f as [a [] o|a [] o]; simpl; intros; subst; eauto with rb. Qed.

(** Plugging a fitting tree gives a red-black tree ... *)
Lemma rbc_plug k b n t c : rbc k b n → rbt t c n → admits b c → rb (plug k t).
Proof.
  intros Hk. revert t c. induction Hk as [n|f k n Hf Ho Hk IH|f k n c' b Hf Ho Hk IH];
    intros t c Ht Hc; simpl.
  - destruct Hc as [->|]; [by exists n|done].
  - destruct Hc as [->|]; [|done].
    pose proof (rbt_fill f _ _ _ Ht) as H. rewrite Hf in H.
    eapply IH; [by apply H|by right].
  - pose proof (rbt_fill f _ _ _ Ht) as H. rewrite Hf in H.
    eapply IH; [by eapply H|by left].
Qed.

(** ... and a red-black tree splits at every focus. *)
Lemma rb_focus k t : rb (plug k t) → ∃ b c n, rbc k b n ∧ rbt t c n ∧ admits b c.
Proof.
  revert t. induction k as [|f k IH]; intros t Ht; simpl in *.
  - destruct Ht as [n Hn]. exists false, Black, n. split_and!; [constructor|done|by left].
  - destruct (IH _ Ht) as (b & c & n & Hk & Hf & Hb).
    destruct f as [a fc o|a fc o]; simpl in Hf; inversion Hf; subst.
    + destruct Hb as [?| ->]; [done|]. exists false, Black, n.
      split_and!; [by apply rbc_red|done|by left].
    + eexists true, _, _. split_and!; [by eapply rbc_black|done|by right].
    + destruct Hb as [?| ->]; [done|]. exists false, Black, n.
      split_and!; [by apply rbc_red|done|by left].
    + eexists true, _, _. split_and!; [by eapply rbc_black|done|by right].
Qed.

(** ** Leftmost and rightmost nodes *)

Fixpoint leftmost (t : tree) : Z :=
  match t with
  | Leaf => NULL
  | Node a _ Leaf _ => a
  | Node _ _ l _ => leftmost l
  end.

Lemma leftmost_hd t : leftmost t = default NULL (head (inorder t)).
Proof.
  induction t as [|a c l IHl r _]; simpl; [done|].
  destruct l as [|b cl ll lr]; [done|].
  rewrite IHl. simpl. by destruct (inorder ll).
Qed.

(** The number of nodes bounds the length of every path. *)
Fixpoint tsize (t : tree) : nat :=
  match t with Leaf => O | Node _ _ l r => S (tsize l + tsize r) end.

Lemma tsize_inorder t : tsize t = length (inorder t).
Proof.
  induction t as [|a c l IHl r IHr]; simpl; [done|].
  rewrite length_app. simpl. lia.
Qed.

Lemma length_ctx_plug k t : (length k ≤ length (inorder (plug k t)))%nat.
Proof.
  revert t. induction k as [|f k IH]; intros t; simpl; [lia|].
  rewrite <-tsize_inorder.
  assert (tsize (plug k (fill f t)) = tsize (plug k t) + S (tsize (fother f)))%nat as ->.
  { clear IH. rewrite !tsize_inorder, !inorder_plug, !length_app.
    pose proof (tsize_inorder (fother f)).
    destruct f; simpl in *; rewrite !length_app; simpl; lia. }
  specialize (IH t). rewrite <-tsize_inorder in IH. lia.
Qed.
