(* ===== verification/RbTree.v ===== *)
(** * Red-black trees: the code

    include/ds/rbtree.h and libk/ds/rbtree.c over an explicit heap of
    [struct rb_node]s.  The parent pointer and the colour share the word
    [parent_color], as in the source; addresses are even and non-zero.  The
    representation predicate [repr] ties a heap to a ghost tree of [RbModel],
    and the lemmas at the end give each accessor and rotation its effect on
    the ghost tree. *)

From stdpp Require Import base list gmap.
From Stdlib Require Import ZArith Lia.
From S2P Require Import Prelude RbModel.
Local Open Scope Z_scope.

(** ** Data *)

Record rb_node := mk_node {
  parent_color : Z;   (* uintptr_t: parent address, colour in bit 0 *)
  left : Z;
  right : Z;
}.

Record rbtree := mk_tree {
  tree_root : Z;
  most_left : Z;
}.

(** The memory holding the nodes and one tree. *)
Record rbstate := mk_rbstate {
  nodes : gmap Z rb_node;
  tr : rbtree;
}.

Definition set_left (v : Z) (n : rb_node) := mk_node (parent_color n) v (right n).
Definition set_right (v : Z) (n : rb_node) := mk_node (parent_color n) (left n) v.
Definition set_pc (v : Z) (n : rb_node) := mk_node v (left n) (right n).

Definition upd_nodes (f : gmap Z rb_node → gmap Z rb_node) (s : rbstate) :=
  mk_rbstate (f (nodes s)) (tr s).
Definition upd_root (p : Z) (s : rbstate) :=
  mk_rbstate (nodes s) (mk_tree p (most_left (tr s))).
Definition upd_most_left (p : Z) (s : rbstate) :=
  mk_rbstate (nodes s) (mk_tree (tree_root (tr s)) p).

(** Reading and writing through a [struct rb_node *]. *)
Definition rd (p : Z) : M rbstate rb_node := λ s,
  if p =? NULL then Fault
  else match nodes s !! p with Some n => Ok (n, s) | None => Fault end.

Definition wr (p : Z) (f : rb_node → rb_node) : M rbstate unit :=
  n ← rd p; modify (upd_nodes <[p := f n]>).

Definition get_root : M rbstate Z := s ← get; mret (tree_root (tr s)).
Definition get_most_left : M rbstate Z := s ← get; mret (most_left (tr s)).

(** Enough rounds for a walk along any path of the tree. *)
Definition walk_fuel : M rbstate nat := s ← get; mret (2 + size (nodes s))%nat.

(** ** include/ds/rbtree.h *)

Definition RB_RED : Z := 0.
Definition RB_BLACK : Z := 1.

(** [~1], an [int], widened to [uintptr_t]. *)
Definition RB_PARENT_MASK : Z := 2 ^ 64 - 2.
Definition RB_COLOR_MASK : Z := 1.

Definition rb_mask_parent (p : Z) : Z := Z.land p RB_PARENT_MASK.
Definition rb_mask_color (p : Z) : Z := Z.land p RB_COLOR_MASK.

Definition rb_parent (node : Z) : M rbstate Z :=
  n ← rd node; mret (rb_mask_parent (parent_color n)).

Definition rb_color (node : Z) : M rbstate Z :=
  if node =? NULL then mret RB_BLACK
  else n ← rd node; mret (rb_mask_color (parent_color n)).

Definition rb_is_red (node : Z) : M rbstate bool :=
  c ← rb_color node; mret (c =? RB_RED).
Definition rb_is_black (node : Z) : M rbstate bool :=
  c ← rb_color node; mret (c =? RB_BLACK).

Definition rb_first_cached : M rbstate Z := get_most_left.

Definition rb_grandparent (node : Z) : M rbstate Z :=
  parent ← rb_parent node;
  if parent =? NULL then mret NULL else rb_parent parent.

Definition rb_sibling (node : Z) : M rbstate Z :=
  parent ← rb_parent node;
  if parent =? NULL then mret NULL
  else p ← rd parent;
       if node =? left p then mret (right p) else mret (left p).

Definition rb_uncle (node : Z) : M rbstate Z :=
  parent ← rb_parent node;
  grandparent ← rb_grandparent node;
  if grandparent =? NULL then mret NULL else rb_sibling parent.

Definition rb_set_color (node : Z) (color : Z) : M rbstate unit :=
  if color =? 1 then wr node (λ n, set_pc (Z.lor (parent_color n) 1) n)
  else if color =? 0 then wr node (λ n, set_pc (Z.land (parent_color n) (2 ^ 64 - 2)) n)
  else mret tt.

Definition rb_set_parent (node parent : Z) : M rbstate unit :=
  color ← rb_color node;
  wr node (set_pc (Z.lor parent color)).

(** [struct rb_node **link]: the three places a link can live. *)
Inductive rb_link := LinkRoot | LinkLeft (p : Z) | LinkRight (p : Z).

Definition link_get (lk : rb_link) : M rbstate Z :=
  match lk with
  | LinkRoot => get_root
  | LinkLeft p => n ← rd p; mret (left n)
  | LinkRight p => n ← rd p; mret (right n)
  end.

Definition link_set (lk : rb_link) (v : Z) : M rbstate unit :=
  match lk with
  | LinkRoot => modify (upd_root v)
  | LinkLeft p => wr p (set_left v)
  | LinkRight p => wr p (set_right v)
  end.

Definition rb_link_node (node parent : Z) (link : rb_link) : M rbstate unit :=
  rb_set_parent node parent;;
  rb_set_color node RB_RED;;
  wr node (set_right NULL);;
  wr node (set_left NULL);;
  link_set link node.

(** [while (node->left) node = node->left;] *)
Definition walk_left (node : Z) : M rbstate Z :=
  fuel ← walk_fuel;
  loop fuel (λ node, n ← rd node;
    if left n =? NULL then mret (inr node) else mret (inl (left n))) node.

Definition rb_first_uncached : M rbstate Z :=
  node ← get_root;
  if node =? NULL then mret NULL else walk_left node.

Definition rb_next (node : Z) : M rbstate Z :=
  if node =? NULL then mret NULL
  else
    n ← rd node;
    if negb (right n =? NULL) then walk_left (right n)
    else
      fuel ← walk_fuel;
      loop fuel (λ node,
        parent ← rb_parent node;
        if parent =? NULL then mret (inr parent)
        else p ← rd parent;
             if node =? right p then mret (inl parent) else mret (inr parent)) node.

(** ** libk/ds/rbtree.c: rotations *)

Definition rotate_right (node : Z) : M rbstate unit :=
  let x := node in
  nx ← rd x;
  let y := left nx in
  ny ← rd y;
  wr x (set_left (right ny));;
  ny ← rd y;
  (if negb (right ny =? NULL) then rb_set_parent (right ny) x else mret tt);;
  p ← rb_parent x;
  rb_set_parent y p;;
  p ← rb_parent x;
  (if p =? NULL then modify (upd_root y)
   else
     xp ← rb_parent x;
     nxp ← rd xp;
     if x =? left nxp then wr xp (set_left y) else wr xp (set_right y));;
  wr y (set_right x);;
  rb_set_parent x y.

Definition rotate_left (node : Z) : M rbstate unit :=
  let x := node in
  nx ← rd x;
  let y := right nx in
  ny ← rd y;
  wr x (set_right (left ny));;
  ny ← rd y;
  (if negb (left ny =? NULL) then rb_set_parent (left ny) x else mret tt);;
  p ← rb_parent x;
  rb_set_parent y p;;
  p ← rb_parent x;
  (if p =? NULL then modify (upd_root y)
   else
     xp ← rb_parent x;
     nxp ← rd xp;
     if x =? left nxp then wr xp (set_left y) else wr xp (set_right y));;
  wr y (set_left x);;
  rb_set_parent x y.

(** ** libk/ds/rbtree.c: insertion *)

Definition insert_case1 (node : Z) : M rbstate unit :=
  rb_set_color node RB_BLACK;;
  modify (upd_root node).

Definition insert_case2 (node : Z) : M rbstate unit := mret tt.

Definition insert_case3 (node : Z) : M rbstate Z :=
  p ← rb_parent node; rb_set_color p RB_BLACK;;
  u ← rb_uncle node; rb_set_color u RB_BLACK;;
  g ← rb_grandparent node; rb_set_color g RB_RED;;
  rb_grandparent node.

(** First half of [insert_case4]: an inner grandchild is rotated outwards. *)
Definition insert_case4_inner (node : Z) : M rbstate Z :=
  parent ← rb_parent node;
  grandparent ← rb_grandparent node;
  g ← rd grandparent;
  inner_left ← (if negb (left g =? NULL)
                then gl ← rd (left g); mret (node =? right gl) else mret false);
  if inner_left : bool then
    rotate_left parent;; n ← rd node; mret (left n)
  else
    g ← rd grandparent;
    inner_right ← (if negb (right g =? NULL)
                   then gr ← rd (right g); mret (node =? left gr)
                   else mret false);
    if inner_right : bool then
      rotate_right parent;; n ← rd node; mret (right n)
    else mret node.

(** Second half: the grandparent is rotated down and recoloured. *)
Definition insert_case4_outer (node : Z) : M rbstate unit :=
  parent ← rb_parent node;
  grandparent ← rb_grandparent node;
  p ← rd parent;
  (if node =? left p then rotate_right grandparent else rotate_left grandparent);;
  rb_set_color parent RB_BLACK;;
  rb_set_color grandparent RB_RED.

Definition insert_case4 (node : Z) : M rbstate unit :=
  node ← insert_case4_inner node;
  insert_case4_outer node.

Definition insert_round (node : Z) : M rbstate (Z + unit) :=
  parent ← rb_parent node;
  if parent =? NULL then insert_case1 node;; mret (inr tt)
  else
    pc ← rb_color parent;
    if pc =? RB_BLACK then insert_case2 node;; mret (inr tt)
    else
      u ← rb_uncle node;
      uc ← rb_color u;
      if uc =? RB_RED then n ← insert_case3 node; mret (inl n)
      else insert_case4 node;; mret (inr tt).

Definition rb_insert (node : Z) (is_most_left : bool) : M rbstate unit :=
  if node =? NULL then mret tt
  else
    let original := node in
    fuel ← walk_fuel;
    loop fuel insert_round node;;
    if is_most_left then
      o ← rd original;
      if left o =? NULL then modify (upd_most_left original) else mret tt
    else mret tt.

(** ** libk/ds/rbtree.c: removal *)

Definition rb_swap (x y : Z) : M rbstate unit :=
  nx ← rd x;
  let left_ := left nx in
  let right_ := right nx in
  parent ← rb_parent x;
  rb_set_parent y parent;;
  (if negb (parent =? NULL) then
     np ← rd parent;
     if left np =? x then wr parent (set_left y) else wr parent (set_right y)
   else
     r ← get_root;
     if r =? x then modify (upd_root y) else mret tt);;
  wr y (set_right right_);;
  (if negb (right_ =? NULL) then rb_set_parent right_ y else mret tt);;
  wr x (set_right NULL);;
  wr y (set_left left_);;
  (if negb (left_ =? NULL) then rb_set_parent left_ y else mret tt);;
  wr x (set_left NULL);;
  c ← rb_color x;
  rb_set_color y c;;
  rb_set_parent x NULL.

Definition rb_replace (victim target : Z) : M rbstate unit :=
  v ← rd victim;
  wr target (λ _, v);;
  t ← rd target;
  (if negb (left t =? NULL) then rb_set_parent (left t) target else mret tt);;
  t ← rd target;
  (if negb (right t =? NULL) then rb_set_parent (right t) target else mret tt);;
  r ← get_root;
  if victim =? r then modify (upd_root target) else mret tt.

Definition erase_parent_link (node replacement : Z) : M rbstate unit :=
  parent ← rb_parent node;
  if parent =? NULL then modify (upd_root replacement)
  else
    p ← rd parent;
    if left p =? node then wr parent (set_left replacement)
    else if right p =? node then wr parent (set_right replacement)
    else mret tt.

(** [x == NULL || rb_is_black(x)] *)
Definition null_or_black (x : Z) : M rbstate bool :=
  if x =? NULL then mret true else rb_is_black x.

(** [is_left ? xp->right : xp->left] *)
Definition other_child (is_left : bool) (xp : Z) : M rbstate Z :=
  n ← rd xp; mret (if is_left then right n else left n).

(** The variables [x], [xp] and [is_left] of [erase_rebalance]. *)
Abbreviation erase_vars := (Z * Z * bool)%type.

(** Case 1: a red sibling is rotated above the parent. *)
Definition erase_case1 (is_left : bool) (xp w : Z) : M rbstate Z :=
  w_red ← (if negb (w =? NULL) then rb_is_red w else mret false);
  if w_red : bool then
    rb_set_color w RB_BLACK;;
    rb_set_color xp RB_RED;;
    (if is_left then rotate_left xp else rotate_right xp);;
    other_child is_left xp
  else mret w.

(** Cases 3a and 3b: the red child of the sibling is on the near side. *)
Definition erase_case3 (is_left : bool) (xp w wleft wright : Z) : M rbstate Z :=
  near_left ← (if is_left then null_or_black wright else mret false);
  near_right ← (if near_left then mret false
                else if negb is_left then null_or_black wleft else mret false);
  if near_left : bool then
    rb_set_color w RB_RED;;
    (if negb (wleft =? NULL) then rb_set_color wleft RB_BLACK else mret tt);;
    rotate_right w;;
    n ← rd xp; mret (right n)
  else if near_right : bool then
    rb_set_color w RB_RED;;
    (if negb (wright =? NULL) then rb_set_color wright RB_BLACK else mret tt);;
    rotate_left w;;
    n ← rd xp; mret (left n)
  else mret w.

(** Case 4: the red child of the sibling is on the far side. *)
Definition erase_case4 (is_left : bool) (xp w : Z) : M rbstate unit :=
  nw ← rd w;
  let wleft := left nw in
  let wright := right nw in
  c ← rb_color xp;
  rb_set_color w c;;
  rb_set_color xp RB_BLACK;;
  if is_left && negb (wright =? NULL) then
    rb_set_color wright RB_BLACK;; rotate_left xp
  else if negb is_left && negb (wleft =? NULL) then
    rb_set_color wleft RB_BLACK;; rotate_right xp
  else mret tt.

(** The loop's condition: [x != tree->root && (x == NULL || rb_is_black(x))]. *)
Definition erase_continue (x : Z) : M rbstate bool :=
  r ← get_root;
  if x =? r then mret false else null_or_black x.

(** The rest of a round once the sibling is black: case 2, or cases 3 and 4. *)
Definition erase_case234 (is_left : bool) (xp w : Z) : M rbstate erase_vars :=
  wleft ← (if negb (w =? NULL) then n ← rd w; mret (left n) else mret NULL);
  wright ← (if negb (w =? NULL) then n ← rd w; mret (right n) else mret NULL);
  both_black ← andM (null_or_black wleft) (null_or_black wright);
  if both_black : bool then
    (* Case 2 *)
    (if negb (w =? NULL) then rb_set_color w RB_RED else mret tt);;
    let x := xp in
    xp ← rb_parent x;
    is_left ← (if negb (xp =? NULL) then n ← rd xp; mret (x =? left n) else mret false);
    mret (x, xp, is_left)
  else
    w ← erase_case3 is_left xp w wleft wright;
    erase_case4 is_left xp w;;
    x ← get_root;
    mret (x, xp, is_left).

(** One round of the [while] loop of [erase_rebalance]. *)
Definition erase_round (v : erase_vars) : M rbstate (erase_vars + Z) :=
  let '(x, xp, is_left) := v in
  go ← erase_continue x;
  if go : bool then
    w ← other_child is_left xp;
    w ← erase_case1 is_left xp w;
    v ← erase_case234 is_left xp w;
    mret (inl v)
  else mret (inr x).

Definition erase_rebalance (node parent : Z) (node_is_left : bool) : M rbstate unit :=
  fuel ← walk_fuel;
  x ← loop fuel erase_round (node, parent, node_is_left);
  if negb (x =? NULL) then rb_set_color x RB_BLACK else mret tt.

(** [for (max = node->left; max->right != NULL; max = max->right)] *)
Definition walk_right (node : Z) : M rbstate Z :=
  fuel ← walk_fuel;
  loop fuel (λ node, n ← rd node;
    if right n =? NULL then mret (inr node) else mret (inl (right n))) node.

(** The node that leaves the tree's shape: [node] itself, or its predecessor
    when it has two children. *)
Definition erase_victim (node : Z) : M rbstate Z :=
  nn ← rd node;
  if negb (left nn =? NULL) && negb (right nn =? NULL)
  then walk_right (left nn) else mret node.

(** The only child of [y] takes its place. *)
Definition erase_splice (y : Z) : M rbstate erase_vars :=
  ny ← rd y;
  let x := if negb (left ny =? NULL) then left ny else right ny in
  xp ← (if negb (x =? NULL) then
          p ← rb_parent y; rb_set_parent x p;; rb_parent x
        else rb_parent y);
  yp ← rb_parent y;
  if yp =? NULL then modify (upd_root x);; mret (x, NULL, false)
  else
    np ← rd yp;
    if y =? left np then wr yp (set_left x);; mret (x, xp, true)
    else wr yp (set_right x);; mret (x, xp, false).

Definition rb_erase (node : Z) : M rbstate unit :=
  if node =? NULL then mret tt
  else
    ml ← get_most_left;
    (if node =? ml then nx ← rb_next node; modify (upd_most_left nx) else mret tt);;
    y ← erase_victim node;
    '(x, xp, is_left) ← erase_splice y;
    y_color ← rb_color y;
    xp ← (if negb (y =? node) then
            rb_swap node y;; mret (if xp =? node then y else xp)
          else mret xp);
    (if y_color =? RB_BLACK then erase_rebalance x xp is_left else mret tt);;
    wr node (set_left NULL);;
    wr node (set_right NULL);;
    rb_set_parent node NULL.
