(* ===== verification/RbRepr.v ===== *)
(** * Red-black trees: heaps that represent ghost trees

    [repr s T]: the memory of [s] holds the ghost tree [T], parent pointers and
    colours included, and the tree's root pointer is its root.  One lemma per
    accessor and rotation of [RbTree] describes its effect on [T] at an
    arbitrary focus. *)

From stdpp Require Import base list gmap.
From Stdlib Require Import ZArith Lia Bool.
From S2P Require Import Prelude RbModel RbTree.
Local Open Scope Z_scope.

(** ** The packed parent word *)

Definition cz (c : color) : Z := match c with Red => RB_RED | Black => RB_BLACK end.
Definition pack (pp : Z) (c : color) : Z := Z.lor pp (cz c).

(** Addresses a [struct rb_node] can have. *)
Definition valid (a : Z) : Prop := 0 < a < 2 ^ 64 ∧ Z.testbit a 0 = false.

(** Parent pointers: NULL or a node. *)
Definition valid_ptr (a : Z) : Prop := a = 0 ∨ valid a.

Lemma valid_ptr_bits a :
  valid_ptr a → Z.land a RB_PARENT_MASK = a ∧ Z.land a 1 = 0.
Proof.
  intros Ha.
  assert (0 ≤ a < 2 ^ 64 ∧ Z.testbit a 0 = false) as [Hr Hb].
  { destruct Ha as [->|[]]; [split; [lia|done]|split; [lia|done]]. }
  assert (Z.land a 1 = 0) as H1.
  { apply Z.bits_inj'. intros i Hi. rewrite Z.land_spec, Z.bits_0.
    destruct (decide (i = 0)) as [->|]; [by rewrite Hb|].
    change 1 with (2 ^ 0). by rewrite Z.pow2_bits_false, andb_false_r by lia. }
  split; [|done].
  change RB_PARENT_MASK with (Z.ldiff (Z.ones 64) 1).
  apply Z.bits_inj'. intros i Hi.
  rewrite Z.land_spec, Z.ldiff_spec.
  destruct (decide (i = 0)) as [->|]; [by rewrite Hb|].
  change 1 with (2 ^ 0). rewrite (Z.pow2_bits_false 0 i) by lia. simpl.
  rewrite andb_true_r.
  destruct (decide (i < 64)).
  - by rewrite Z.ones_spec_low, andb_true_r by lia.
  - rewrite Z.ones_spec_high, andb_false_r by lia.
    symmetry. rewrite <-(Z.mod_small a (2 ^ 64)) by lia.
    apply Z.mod_pow2_bits_high; lia.
Qed.

Lemma cz_bits c : Z.land (cz c) RB_PARENT_MASK = 0 ∧ Z.land (cz c) 1 = cz c.
Proof. by destruct c. Qed.

Lemma mask_parent_pack pp c : valid_ptr pp → rb_mask_parent (pack pp c) = pp.
Proof.
  intros [H _]%valid_ptr_bits. unfold rb_mask_parent, pack.
  rewrite Z.land_lor_distr_l, H, (proj1 (cz_bits c)). apply Z.lor_0_r.
Qed.

Lemma mask_color_pack pp c : valid_ptr pp → rb_mask_color (pack pp c) = cz c.
Proof.
  intros [_ H]%valid_ptr_bits. unfold rb_mask_color, RB_COLOR_MASK, pack.
  by rewrite Z.land_lor_distr_l, H, (proj2 (cz_bits c)).
Qed.

Lemma pack_set_black pp c : valid_ptr pp → Z.lor (pack pp c) 1 = pack pp Black.
Proof. intros _. unfold pack. rewrite <-Z.lor_assoc. f_equal. by destruct c. Qed.

Lemma pack_set_red pp c :
  valid_ptr pp → Z.land (pack pp c) (2 ^ 64 - 2) = pack pp Red.
Proof.
  intros H. change (2 ^ 64 - 2) with RB_PARENT_MASK.
  pose proof (mask_parent_pack pp c H) as E. unfold rb_mask_parent in E.
  rewrite E. unfold pack. simpl. by rewrite Z.lor_0_r.
Qed.


(** ** Representation *)

Fixpoint rep (h : gmap Z rb_node) (pp : Z) (t : tree) : Prop :=
  match t with
  | Leaf => True
  | Node a c l r =>
      h !! a = Some (mk_node (pack pp c) (root l) (root r)) ∧ rep h a l ∧ rep h a r
  end.

(** The node a frame stands for, with parent [pp] and [ch] in the hole. *)
Definition fnode (f : frame) (pp ch : Z) : rb_node :=
  match f with
  | FL _ c r => mk_node (pack pp c) ch (root r)
  | FR _ c l => mk_node (pack pp c) (root l) ch
  end.

Fixpoint repc (h : gmap Z rb_node) (k : ctx) (ch : Z) : Prop :=
  match k with
  | [] => True
  | f :: k =>
      h !! faddr f = Some (fnode f (cparent k) ch) ∧
      rep h (faddr f) (fother f) ∧ repc h k (faddr f)
  end.

Lemma rep_plug h k t :
  rep h NULL (plug k t) ↔ rep h (cparent k) t ∧ repc h k (root t).
Proof.
  revert t. induction k as [|f k IH]; intros t; simpl; [tauto|].
  rewrite IH. destruct f; simpl; tauto.
Qed.

(** Addresses of a context. *)
Definition caddrs (k : ctx) : list Z := cbefore k ++ cafter k.

Lemma caddrs_cons f k a :
  a ∈ caddrs (f :: k) ↔ a = faddr f ∨ a ∈ inorder (fother f) ∨ a ∈ caddrs k.
Proof.
  unfold caddrs. destruct f; simpl; rewrite ?elem_of_app, ?elem_of_cons, ?elem_of_app,
    ?elem_of_nil; tauto.
Qed.

Lemma elem_plug k t a : a ∈ inorder (plug k t) ↔ a ∈ inorder t ∨ a ∈ caddrs k.
Proof. unfold caddrs. rewrite inorder_plug, !elem_of_app. tauto. Qed.

(** Heaps that agree on the addresses of a tree or context represent the
    same one. *)
Lemma rep_frame h h' pp t :
  (∀ a, a ∈ inorder t → h' !! a = h !! a) → rep h pp t → rep h' pp t.
Proof.
  revert pp. induction t as [|a c l IHl r IHr]; intros pp Heq; simpl; [done|].
  simpl in Heq. setoid_rewrite elem_of_app in Heq. setoid_rewrite elem_of_cons in Heq.
  intros (Ha & Hl & Hr). rewrite (Heq a) by auto. eauto 10.
Qed.

Lemma repc_frame h h' k ch :
  (∀ a, a ∈ caddrs k → h' !! a = h !! a) → repc h k ch → repc h' k ch.
Proof.
  revert ch. induction k as [|f k IH]; intros ch Heq; simpl; [done|].
  setoid_rewrite caddrs_cons in Heq.
  intros (Ha & Hf & Hk). rewrite (Heq (faddr f)) by auto.
  split_and!; [done| |by apply IH; auto].
  eapply rep_frame; [|done]. auto.
Qed.

Lemma rep_insert_ne h a n pp t : a ∉ inorder t → rep h pp t → rep (<[a:=n]> h) pp t.
Proof.
  intros Ha. apply rep_frame. intros b Hb. apply lookup_insert_ne. by intros ->.
Qed.

Lemma repc_insert_ne h a n k ch : a ∉ caddrs k → repc h k ch → repc (<[a:=n]> h) k ch.
Proof.
  intros Ha. apply repc_frame. intros b Hb. apply lookup_insert_ne. by intros ->.
Qed.

(** The tree [T] is in memory. *)
Record repr (s : rbstate) (T : tree) : Prop := {
  repr_rep : rep (nodes s) NULL T;
  repr_nodup : NoDup (inorder T);
  repr_valid : Forall valid (inorder T);
  repr_root : tree_root (tr s) = root T;
}.

(** Only nodes in [D] and the root pointer changed. *)
Definition touches (D : list Z) (s s' : rbstate) : Prop :=
  (∀ a, a ∉ D → nodes s' !! a = nodes s !! a) ∧
  most_left (tr s') = most_left (tr s).

Lemma touches_refl D s : touches D s s.
Proof. done. Qed.

Lemma touches_trans D s1 s2 s3 : touches D s1 s2 → touches D s2 s3 → touches D s1 s3.
Proof.
  intros [H1 H1'] [H2 H2']. split; [|congruence].
  intros a Ha. by rewrite H2, H1.
Qed.

Lemma touches_mono D D' s s' : D ⊆ D' → touches D s s' → touches D' s s'.
Proof. intros Hsub [H1 H2]. split; [|done]. intros a Ha. apply H1. set_solver. Qed.

(** ** Distinct addresses *)

Lemma caddrs_perm f k : caddrs (f :: k) ≡ₚ faddr f :: inorder (fother f) ++ caddrs k.
Proof.
  unfold caddrs. destruct f as [a c r|a c l]; simpl; solve_Permutation.
Qed.

Lemma plug_perm k t : inorder (plug k t) ≡ₚ inorder t ++ caddrs k.
Proof.
  rewrite inorder_plug. unfold caddrs. rewrite !(assoc_L (++)).
  by rewrite (Permutation_app_comm (cbefore k)).
Qed.

Lemma NoDup_plug k t :
  NoDup (inorder (plug k t)) →
  NoDup (inorder t) ∧ NoDup (caddrs k) ∧ (∀ a, a ∈ inorder t → a ∉ caddrs k).
Proof. rewrite plug_perm, NoDup_app. tauto. Qed.

Lemma NoDup_caddrs f k :
  NoDup (caddrs (f :: k)) →
  (faddr f ∉ inorder (fother f)) ∧ (faddr f ∉ caddrs k) ∧
  NoDup (inorder (fother f)) ∧ NoDup (caddrs k) ∧
  (∀ a, a ∈ inorder (fother f) → a ∉ caddrs k).
Proof. rewrite caddrs_perm, NoDup_cons, NoDup_app, not_elem_of_app. tauto. Qed.

Lemma NoDup_node a c l r :
  NoDup (inorder (Node a c l r)) →
  (a ∉ inorder l) ∧ (a ∉ inorder r) ∧ NoDup (inorder l) ∧ NoDup (inorder r) ∧
  (∀ b, b ∈ inorder l → b ∉ inorder r).
Proof.
  simpl. rewrite NoDup_app, NoDup_cons. setoid_rewrite not_elem_of_cons.
  intros (Hl & H & Ha & Hr). split_and!; try done.
  - intros Hin. by destruct (H a Hin).
  - intros b Hb. by destruct (H b Hb).
Qed.

(** Break [NoDup] facts about trees and contexts into disequalities. *)
Ltac split_nodup :=
  repeat match goal with
  | H : NoDup (inorder (plug _ _)) |- _ =>
      apply NoDup_plug in H as (? & ? & ?)
  | H : NoDup (inorder (Node _ _ _ _)) |- _ =>
      apply NoDup_node in H as (? & ? & ? & ? & ?)
  | H : NoDup (caddrs (_ :: _)) |- _ =>
      apply NoDup_caddrs in H as (? & ? & ? & ? & ?)
  end.

(** ** Reading and writing *)

Lemma wp_rd s p n (Q : rb_node → rbstate → Prop) :
  nodes s !! p = Some n → p ≠ NULL → Q n s → wp (rd p) s Q.
Proof.
  intros Hp Hne HQ. unfold wp, rd.
  destruct (Z.eqb_spec p NULL); [done|]. by rewrite Hp.
Qed.

Lemma wp_wr s p n f (Q : unit → rbstate → Prop) :
  nodes s !! p = Some n → p ≠ NULL → Q tt (upd_nodes <[p := f n]> s) → wp (wr p f) s Q.
Proof.
  intros Hp Hne HQ. unfold wr. apply wp_bind. eapply wp_rd; [done..|].
  by apply wp_modify.
Qed.

Lemma wp_rb_parent_raw s p n (Q : Z → rbstate → Prop) :
  nodes s !! p = Some n → p ≠ NULL → Q (rb_mask_parent (parent_color n)) s →
  wp (rb_parent p) s Q.
Proof.
  intros. unfold rb_parent. apply wp_bind. eapply wp_rd; [done..|]. by apply wp_ret.
Qed.

Lemma wp_rb_set_parent_raw s p n v (Q : unit → rbstate → Prop) :
  nodes s !! p = Some n → p ≠ NULL →
  Q tt (upd_nodes <[p := set_pc (Z.lor v (rb_mask_color (parent_color n))) n]> s) →
  wp (rb_set_parent p v) s Q.
Proof.
  intros Hp Hne HQ. unfold rb_set_parent, rb_color. apply wp_bind.
  destruct (Z.eqb_spec p NULL); [done|]. apply wp_bind.
  eapply wp_rd; [done..|]. apply wp_ret. by eapply wp_wr.
Qed.

(** ** Effects on the ghost tree *)

(** What a focus at a node says about the heap. *)
Lemma repr_node s k a c l r :
  repr s (plug k (Node a c l r)) →
  nodes s !! a = Some (mk_node (pack (cparent k) c) (root l) (root r)) ∧
  valid a ∧ valid_ptr (cparent k).
Proof.
  intros [Hrep _ Hval _]. apply rep_plug in Hrep as [[Ha _] _].
  rewrite Forall_forall in Hval. split_and!; [done| |].
  - apply Hval, elem_inorder_plug. simpl. rewrite elem_of_app, elem_of_cons. auto.
  - destruct k as [|f k]; [by left|]. right. apply Hval, elem_plug. right.
    apply caddrs_cons. by left.
Qed.

Lemma valid_ne a : valid a → a ≠ NULL.
Proof. intros [[] _]. lia. Qed.

(** A memory reached from [s0] by changes to the nodes in [D], holding a tree
    whose inorder list is [D]. *)
Record holds (s0 : rbstate) (D : list Z) (s : rbstate) (T : tree) : Prop := {
  holds_repr : repr s T;
  holds_inorder : inorder T = D;
  holds_touches : touches D s0 s;
}.

Lemma holds_start s T : repr s T → holds s (inorder T) s T.
Proof. by split. Qed.

(** The heap is large enough for the walks along the tree. *)
Lemma rep_dom h pp t a : rep h pp t → a ∈ inorder t → is_Some (h !! a).
Proof.
  revert pp. induction t as [|b c l IHl r IHr]; intros pp; simpl.
  { by rewrite elem_of_nil. }
  intros (Hb & Hl & Hr). rewrite elem_of_app, elem_of_cons.
  intros [?|[->|?]]; [by eapply IHl|by rewrite Hb|by eapply IHr].
Qed.

Lemma repr_size s T : repr s T → (length (inorder T) ≤ size (nodes s))%nat.
Proof.
  intros [Hrep Hnd _ _]. rewrite <-(size_dom (nodes s)).
  rewrite <-(size_list_to_set (C:=gset Z)) by done.
  apply subseteq_size. intros a. rewrite elem_of_list_to_set, elem_of_dom.
  by eapply rep_dom.
Qed.

Lemma holds_size s0 D s k t : holds s0 D s (plug k t) → (length k < 2 + size (nodes s))%nat.
Proof.
  intros [H _ _]. pose proof (repr_size _ _ H). pose proof (length_ctx_plug k t). lia.
Qed.

Section accessors.
Context (s0 : rbstate) (D : list Z).
Implicit Types (s : rbstate) (k : ctx) (T : tree).

Lemma wp_rd_node s k a c l r (Q : rb_node → rbstate → Prop) :
  holds s0 D s (plug k (Node a c l r)) →
  Q (mk_node (pack (cparent k) c) (root l) (root r)) s →
  wp (rd a) s Q.
Proof.
  intros [(Ha & Hv & _)%repr_node _ _] HQ. eapply wp_rd; [done|by apply valid_ne|done].
Qed.

Lemma wp_rb_parent s k a c l r (Q : Z → rbstate → Prop) :
  holds s0 D s (plug k (Node a c l r)) → Q (cparent k) s → wp (rb_parent a) s Q.
Proof.
  intros [(Ha & Hv & Hp)%repr_node _ _] HQ.
  eapply wp_rb_parent_raw; [done|by apply valid_ne|].
  simpl. by rewrite mask_parent_pack.
Qed.

Lemma wp_rb_color s k t (Q : Z → rbstate → Prop) :
  holds s0 D s (plug k t) → Q (cz (tcolor t)) s → wp (rb_color (root t)) s Q.
Proof.
  intros H HQ. unfold rb_color. destruct t as [|a c l r]; simpl; [done|].
  destruct H as [(Ha & Hv & Hp)%repr_node _ _].
  destruct (Z.eqb_spec a NULL); [by destruct (valid_ne a)|].
  apply wp_bind. eapply wp_rd; [done..|]. apply wp_ret. simpl.
  by rewrite mask_color_pack.
Qed.

Lemma wp_null_or_black s k t (Q : bool → rbstate → Prop) :
  holds s0 D s (plug k t) →
  Q (bool_decide (tcolor t = Black)) s → wp (null_or_black (root t)) s Q.
Proof.
  intros H HQ. unfold null_or_black, rb_is_black.
  destruct t as [|a c l r]; [done|].
  destruct (Z.eqb_spec (root (Node a c l r)) NULL).
  { destruct H as [(_ & Hv & _)%repr_node _ _]. by destruct (valid_ne a Hv). }
  apply wp_bind. eapply wp_rb_color; [done|]. apply wp_ret.
  simpl in *. by destruct c.
Qed.

(** A write that keeps the shape at the focus and the inorder list. *)
Lemma holds_upd s k a c c' l r :
  holds s0 D s (plug k (Node a c l r)) →
  holds s0 D (upd_nodes <[a := mk_node (pack (cparent k) c') (root l) (root r)]> s)
    (plug k (Node a c' l r)).
Proof.
  intros [[Hrep Hnd Hval Hroot] HD [Ht1 Ht2]].
  assert (inorder (plug k (Node a c' l r)) = inorder (plug k (Node a c l r))) as Hin
    by by apply inorder_plug_eq.
  split; [split|..]; simpl.
  - apply rep_plug in Hrep as [(Ha & Hl & Hr) Hk]. split_nodup.
    apply rep_plug. simpl. split_and!; [apply lookup_insert_eq| | |].
    + by apply rep_insert_ne.
    + by apply rep_insert_ne.
    + apply repc_insert_ne; [|done]. set_solver.
  - by rewrite Hin.
  - by rewrite Hin.
  - rewrite Hroot. clear. destruct k as [|f k] using rev_ind; [done|].
    rewrite !plug_app. by destruct f.
  - by rewrite Hin.
  - split; [|done]. intros b Hb. simpl. rewrite lookup_insert_ne; [by apply Ht1|].
    intros <-. apply Hb. rewrite <-HD. apply elem_inorder_plug. set_solver.
Qed.

Lemma wp_rb_set_color s k a c c' l r (Q : unit → rbstate → Prop) :
  holds s0 D s (plug k (Node a c l r)) →
  (∀ s', holds s0 D s' (plug k (Node a c' l r)) → Q tt s') →
  wp (rb_set_color a (cz c')) s Q.
Proof.
  intros H HQ. pose proof H as [(Ha & Hv & Hp)%repr_node _ _].
  unfold rb_set_color. destruct c'; simpl.
  - eapply wp_wr; [done|by apply valid_ne|]. apply HQ.
    unfold set_pc. simpl. rewrite pack_set_red by done. by eapply holds_upd.
  - eapply wp_wr; [done|by apply valid_ne|]. apply HQ.
    unfold set_pc. simpl. rewrite (pack_set_black _ c) by done. by eapply holds_upd.
Qed.

End accessors.
