(* ===== verification/RbRotate.v ===== *)
(** * Red-black trees: rotations

    The two rotations of libk/ds/rbtree.c at an arbitrary focus of the tree.
    The proof goes through the two blocks they are made of: giving a child a
    new parent, and redirecting the parent's link. *)

From stdpp Require Import base list gmap.
From Stdlib Require Import ZArith Lia.
From S2P Require Import Prelude RbModel RbTree RbRepr.
Local Open Scope Z_scope.

(** ** Building blocks *)

(** The root pointer once [y] hangs under context [k]. *)
Definition new_root (k : ctx) (y old : Z) : Z :=
  match k with [] => y | _ => old end.

Lemma new_root_plug k t t' :
  new_root k (root t') (root (plug k t)) = root (plug k t').
Proof.
  destruct k as [|f k]; [done|]. simpl. clear.
  destruct k as [|g k] using rev_ind; [by destruct f|].
  rewrite !plug_app. by destruct g.
Qed.

(** [if (b != NULL) rb_set_parent(b, x);] *)
Lemma wp_reparent s y x b (Q : unit → rbstate → Prop) :
  rep (nodes s) y b → valid_ptr y → Forall valid (inorder b) → NoDup (inorder b) →
  (∀ s', rep (nodes s') x b →
         (∀ a, a ∉ inorder b → nodes s' !! a = nodes s !! a) →
         tr s' = tr s → Q tt s') →
  wp (if negb (root b =? NULL) then rb_set_parent (root b) x else mret tt) s Q.
Proof.
  intros Hrep Hy Hval Hnd HQ. destruct b as [|b c l r]; simpl in *.
  { apply wp_ret. by apply HQ. }
  destruct Hrep as (Hb & Hl & Hr).
  assert (valid b) as Hvb. { rewrite Forall_forall in Hval. apply Hval. set_solver. }
  destruct (Z.eqb_spec b NULL); [by destruct (valid_ne b)|]. simpl.
  change (NoDup (inorder (Node b c l r))) in Hnd. split_nodup.
  eapply wp_rb_set_parent_raw; [done..|]. simpl.
  rewrite mask_color_pack by done. apply HQ; simpl.
  - split_and!; [apply lookup_insert_eq|by apply rep_insert_ne|by apply rep_insert_ne].
  - intros a Ha. apply lookup_insert_ne. set_solver.
  - done.
Qed.

(** Storing [y] in the link above a focus. *)
Lemma wp_wr_hole s f k x y g (Q : unit → rbstate → Prop) :
  repc (nodes s) (f :: k) x → Forall valid (caddrs (f :: k)) → NoDup (caddrs (f :: k)) →
  g (fnode f (cparent k) x) = fnode f (cparent k) y →
  (∀ s', repc (nodes s') (f :: k) y →
         (∀ a, a ∉ caddrs (f :: k) → nodes s' !! a = nodes s !! a) →
         tr s' = tr s → Q tt s') →
  wp (wr (faddr f) g) s Q.
Proof.
  intros (Hf & Ho & Hk) Hval Hnd Hg HQ. split_nodup. rewrite Forall_forall in Hval.
  eapply wp_wr; [done|apply valid_ne, Hval, caddrs_cons; by left|].
  rewrite Hg. apply HQ; simpl.
  - split_and!; [apply lookup_insert_eq|by apply rep_insert_ne|by apply repc_insert_ne].
  - intros a Ha. apply lookup_insert_ne. rewrite caddrs_cons in Ha. naive_solver.
  - done.
Qed.

(** A node outside a context is not one of its subtrees' roots. *)
Lemma hole_ne_other x f k : valid x → x ∉ caddrs (f :: k) → x ≠ root (fother f).
Proof.
  rewrite caddrs_cons. intros Hv Hx. destruct (fother f); simpl in *; [by apply valid_ne|set_solver].
Qed.

(** Redirecting the link of [x]'s parent, or the root pointer, to [y]. *)
Definition relink (x y p : Z) : M rbstate unit :=
  if p =? NULL then modify (upd_root y)
  else
    xp ← rb_parent x;
    nxp ← rd xp;
    if x =? left nxp then wr xp (set_left y) else wr xp (set_right y).

Lemma wp_relink s k x y n (Q : unit → rbstate → Prop) :
  nodes s !! x = Some n → valid x → rb_mask_parent (parent_color n) = cparent k →
  repc (nodes s) k x → Forall valid (caddrs k) → NoDup (caddrs k) → x ∉ caddrs k →
  (∀ s', repc (nodes s') k y →
         (∀ a, a ∉ caddrs k → nodes s' !! a = nodes s !! a) →
         tr s' = mk_tree (new_root k y (tree_root (tr s))) (most_left (tr s)) →
         Q tt s') →
  wp (relink x y (cparent k)) s Q.
Proof.
  intros Hx Hvx Hpc Hk Hval Hnd Hxk HQ. unfold relink.
  destruct k as [|f k]; cbn [cparent] in *.
  { apply wp_modify, HQ; done. }
  assert (valid (faddr f)) as Hvf.
  { rewrite Forall_forall in Hval. apply Hval, caddrs_cons. auto. }
  destruct (Z.eqb_spec (faddr f) NULL); [by destruct (valid_ne _ Hvf)|].
  apply wp_bind. eapply wp_rb_parent_raw; [done|by apply valid_ne|]. rewrite Hpc.
  apply wp_bind. eapply wp_rd; [by destruct Hk|done|].
  assert (∀ g, g (fnode f (cparent k) x) = fnode f (cparent k) y →
    wp (wr (faddr f) g) s Q) as Hwr.
  { intros g Hg. eapply wp_wr_hole; [done..|]. intros s' ? ? Htr. apply HQ; [done..|].
    rewrite Htr. by destruct (tr s). }
  pose proof (hole_ne_other _ _ _ Hvx Hxk) as Hne.
  destruct f as [a c r|a c l]; simpl in *.
  - rewrite Z.eqb_refl. by apply Hwr.
  - destruct (Z.eqb_spec x (root l)); [done|]. by apply Hwr.
Qed.

(** ** Rotations *)

Section rotations.
Context (s0 : rbstate) (D : list Z).

(** A memory that agrees with [s] away from [D] and represents [T']. *)
Lemma holds_rebuild s s' k t t' :
  holds s0 D s (plug k t) →
  inorder t' = inorder t →
  rep (nodes s') (cparent k) t' → repc (nodes s') k (root t') →
  tr s' = mk_tree (new_root k (root t') (tree_root (tr s))) (most_left (tr s)) →
  (∀ a, a ∉ inorder (plug k t) → nodes s' !! a = nodes s !! a) →
  holds s0 D s' (plug k t').
Proof.
  intros [[Hrep Hnd Hval Hroot] HD Ht] Hin Hrt Hrk Htr Hout.
  assert (inorder (plug k t') = inorder (plug k t)) as Heq by by apply inorder_plug_eq.
  split; [split|..].
  - by apply rep_plug.
  - by rewrite Heq.
  - by rewrite Heq.
  - rewrite Htr, Hroot. apply new_root_plug.
  - by rewrite Heq.
  - eapply touches_trans; [done|]. split; [|by rewrite Htr].
    intros a Ha. apply Hout. by rewrite HD.
Qed.

(** What a focus on a subtree provides. *)
Lemma holds_focus s k t :
  holds s0 D s (plug k t) →
  rep (nodes s) (cparent k) t ∧ repc (nodes s) k (root t) ∧
  NoDup (inorder t) ∧ NoDup (caddrs k) ∧ (∀ a, a ∈ inorder t → a ∉ caddrs k) ∧
  Forall valid (inorder t) ∧ Forall valid (caddrs k) ∧ valid_ptr (cparent k).
Proof.
  intros [[Hrep Hnd Hval Hroot] _ _]. apply rep_plug in Hrep as [Ht Hk].
  apply NoDup_plug in Hnd as (? & ? & ?).
  rewrite plug_perm, Forall_app in Hval. destruct Hval as [Hv1 Hv2].
  split_and!; try done.
  destruct k as [|f k]; [by left|right]. rewrite Forall_forall in Hv2.
  apply Hv2, caddrs_cons. by left.
Qed.

(** The common end of both rotations: the inner subtree [b] moves from [y] to
    [x], and [y] takes the place of [x]; [g] stores [x] in [y]'s inner link. *)
Definition rotate_tail (x y : Z) (b : tree) (g : rb_node → rb_node) : M rbstate unit :=
  (if negb (root b =? NULL) then rb_set_parent (root b) x else mret tt);;
  p ← rb_parent x;
  rb_set_parent y p;;
  p ← rb_parent x;
  relink x y p;;
  wr y g;;
  rb_set_parent x y.

Lemma wp_rotate_tail s k x y b g cx cy xl xr yl yr (Q : unit → rbstate → Prop) :
  nodes s !! x = Some (mk_node (pack (cparent k) cx) xl xr) →
  nodes s !! y = Some (mk_node (pack x cy) yl yr) →
  rep (nodes s) y b → repc (nodes s) k x →
  valid x → valid y → valid_ptr (cparent k) →
  Forall valid (inorder b) → Forall valid (caddrs k) →
  NoDup (inorder b) → NoDup (caddrs k) →
  x ≠ y → x ∉ inorder b → y ∉ inorder b →
  (∀ z, z = x ∨ z = y ∨ z ∈ inorder b → z ∉ caddrs k) →
  (∀ s', nodes s' !! x = Some (mk_node (pack y cx) xl xr) →
         nodes s' !! y = Some (g (mk_node (pack (cparent k) cy) yl yr)) →
         rep (nodes s') x b → repc (nodes s') k y →
         tr s' = mk_tree (new_root k y (tree_root (tr s))) (most_left (tr s)) →
         (∀ z, z ≠ x → z ≠ y → z ∉ inorder b → z ∉ caddrs k →
            nodes s' !! z = nodes s !! z) → Q tt s') →
  wp (rotate_tail x y b g) s Q.
Proof.
  intros Hx Hy Hb Hk Hvx Hvy Hpk Hvb Hvk Hndb Hndk Hxy Hxb Hyb Hdk HQ.
  unfold rotate_tail. apply wp_bind.
  apply (wp_reparent _ y x b); [done|by right|done|done|].
  intros s2 Hb2 Hout2 Htr2.
  apply wp_bind. eapply wp_rb_parent_raw; [by rewrite Hout2|by apply valid_ne|]. simpl.
  rewrite mask_parent_pack by done.
  apply wp_bind. eapply wp_rb_set_parent_raw; [by rewrite Hout2|by apply valid_ne|]. simpl.
  rewrite mask_color_pack by by right.
  apply wp_bind. eapply wp_rb_parent_raw;
    [simpl; by rewrite lookup_insert_ne, Hout2|by apply valid_ne|].
  simpl. rewrite mask_parent_pack by done.
  apply wp_bind. eapply wp_relink;
    [simpl; by rewrite lookup_insert_ne, Hout2|done|simpl; by apply mask_parent_pack| |done..|by apply Hdk; auto|].
  { simpl. apply repc_insert_ne; [by apply Hdk; auto|].
    eapply repc_frame; [|done]. intros z Hz. apply Hout2. intros ?. apply (Hdk z); auto. }
  intros s4 Hk4 Hout4 Htr4. simpl in Hout4, Htr4.
  apply wp_bind. eapply wp_wr;
    [rewrite Hout4 by (apply Hdk; auto); apply lookup_insert_eq|by apply valid_ne|].
  eapply wp_rb_set_parent_raw;
    [simpl; rewrite lookup_insert_ne, Hout4, lookup_insert_ne, Hout2
       by (auto || (apply Hdk; auto)); done|by apply valid_ne|].
  simpl. rewrite mask_color_pack by done. apply HQ; simpl.
  - apply lookup_insert_eq.
  - by rewrite lookup_insert_ne, lookup_insert_eq by done.
  - do 2 (apply rep_insert_ne; [done|]). eapply rep_frame; [|done].
    intros z Hz. rewrite Hout4 by (apply Hdk; auto).
    apply lookup_insert_ne. by intros <-.
  - by do 2 (apply repc_insert_ne; [by apply Hdk; auto|]).
  - by rewrite Htr4, Htr2.
  - intros z ? ? ? ?. by rewrite !lookup_insert_ne, Hout4, lookup_insert_ne, Hout2 by done.
Qed.

(** Distinctness of the addresses in a rotation's focus. *)
Lemma rotation_distinct (x y : Z) (la lb lc kk : list Z) :
  NoDup (x :: y :: la ++ lb ++ lc) →
  (∀ z, z ∈ x :: y :: la ++ lb ++ lc → z ∉ kk) →
  (x ≠ y ∧ x ∉ lb ∧ y ∉ lb ∧ NoDup lb) ∧
  (∀ z, z = x ∨ z = y ∨ z ∈ lb → z ∉ kk) ∧
  (∀ z, z ∈ la ∨ z ∈ lc → z ≠ x ∧ z ≠ y ∧ z ∉ lb ∧ z ∉ kk).
Proof.
  rewrite !NoDup_cons, !NoDup_app.
  setoid_rewrite elem_of_cons. setoid_rewrite elem_of_cons. setoid_rewrite elem_of_app.
  setoid_rewrite elem_of_app. intros (Hx & Hy & Ha & Hab & Hb & Hbc & Hc) Hk.
  split_and!; try tauto; [naive_solver|].
  intros z Hz. split_and!; [by intros ->; tauto|by intros ->; tauto|naive_solver|].
  apply Hk. tauto.
Qed.

Lemma wp_rotate_right s k x cx y cy a b c (Q : unit → rbstate → Prop) :
  holds s0 D s (plug k (Node x cx (Node y cy a b) c)) →
  (∀ s', holds s0 D s' (plug k (Node y cy a (Node x cx b c))) → Q tt s') →
  wp (rotate_right x) s Q.
Proof.
  intros H HQ.
  pose proof (holds_focus _ _ _ H) as (Ht & Hk & Hnt & Hnk & Hdis & Hvt & Hvk & Hpk).
  destruct Ht as (Hx & (Hy & Ha & Hb) & Hc). simpl in Hx, Hy.
  assert (inorder (Node x cx (Node y cy a b) c) ≡ₚ x :: y :: inorder a ++ inorder b ++ inorder c)
    as Hperm by (simpl; solve_Permutation).
  rewrite Hperm in Hnt, Hvt. setoid_rewrite Hperm in Hdis.
  destruct (rotation_distinct _ _ _ _ _ _ Hnt Hdis) as ((Hxy & Hxb & Hyb & Hndb) & Hdk & Hside).
  rewrite !Forall_cons, !Forall_app in Hvt. destruct Hvt as (Hvx & Hvy & _ & Hvb & _).
  unfold rotate_right.
  apply wp_bind. eapply wp_rd; [done|by apply valid_ne|].
  apply wp_bind. eapply wp_rd; [done|by apply valid_ne|].
  apply wp_bind. eapply wp_wr; [done|by apply valid_ne|].
  apply wp_bind. eapply wp_rd; [simpl; by rewrite lookup_insert_ne by done|by apply valid_ne|].
  fold (relink x y). change (wp (rotate_tail x y b (set_right x)) (upd_nodes
    <[x := mk_node (pack (cparent k) cx) (root b) (root c)]> s) Q).
  eapply (wp_rotate_tail _ k); try done; simpl.
  - apply lookup_insert_eq.
  - by rewrite lookup_insert_ne by done.
  - by apply rep_insert_ne.
  - apply repc_insert_ne; [by apply Hdk; auto|done].
  - intros s' Hx' Hy' Hb' Hk' Htr' Hout. apply HQ.
    eapply holds_rebuild; [done|..]; simpl; [by rewrite <-(assoc_L (++))| |done|done|].
    + split_and!; try done; (eapply rep_frame; [|done]); intros z Hz;
        (edestruct (Hside z) as (? & ? & ? & ?); [by auto|]);
        by rewrite Hout, lookup_insert_ne by done.
    + intros z. rewrite elem_plug, Hperm, !elem_of_cons, !elem_of_app. intros Hz.
      rewrite Hout, lookup_insert_ne; first [done|naive_solver].
Qed.

Lemma wp_rotate_left s k x cx y cy a b c (Q : unit → rbstate → Prop) :
  holds s0 D s (plug k (Node x cx a (Node y cy b c))) →
  (∀ s', holds s0 D s' (plug k (Node y cy (Node x cx a b) c)) → Q tt s') →
  wp (rotate_left x) s Q.
Proof.
  intros H HQ.
  pose proof (holds_focus _ _ _ H) as (Ht & Hk & Hnt & Hnk & Hdis & Hvt & Hvk & Hpk).
  destruct Ht as (Hx & Ha & Hy & Hb & Hc). simpl in Hx, Hy.
  assert (inorder (Node x cx a (Node y cy b c)) ≡ₚ x :: y :: inorder a ++ inorder b ++ inorder c)
    as Hperm by (simpl; solve_Permutation).
  rewrite Hperm in Hnt, Hvt. setoid_rewrite Hperm in Hdis.
  destruct (rotation_distinct _ _ _ _ _ _ Hnt Hdis) as ((Hxy & Hxb & Hyb & Hndb) & Hdk & Hside).
  rewrite !Forall_cons, !Forall_app in Hvt. destruct Hvt as (Hvx & Hvy & _ & Hvb & _).
  unfold rotate_left.
  apply wp_bind. eapply wp_rd; [done|by apply valid_ne|].
  apply wp_bind. eapply wp_rd; [done|by apply valid_ne|].
  apply wp_bind. eapply wp_wr; [done|by apply valid_ne|].
  apply wp_bind. eapply wp_rd; [simpl; by rewrite lookup_insert_ne by done|by apply valid_ne|].
  fold (relink x y). change (wp (rotate_tail x y b (set_left x)) (upd_nodes
    <[x := mk_node (pack (cparent k) cx) (root a) (root b)]> s) Q).
  eapply (wp_rotate_tail _ k); try done; simpl.
  - apply lookup_insert_eq.
  - by rewrite lookup_insert_ne by done.
  - by apply rep_insert_ne.
  - apply repc_insert_ne; [by apply Hdk; auto|done].
  - intros s' Hx' Hy' Hb' Hk' Htr' Hout. apply HQ.
    eapply holds_rebuild; [done|..]; simpl; [by rewrite <-(assoc_L (++))| |done|done|].
    + split_and!; try done; (eapply rep_frame; [|done]); intros z Hz;
        (edestruct (Hside z) as (? & ? & ? & ?); [by auto|]);
        by rewrite Hout, lookup_insert_ne by done.
    + intros z. rewrite elem_plug, Hperm, !elem_of_cons, !elem_of_app. intros Hz.
      rewrite Hout, lookup_insert_ne; first [done|naive_solver].
Qed.

End rotations.
