(* ===== verification/RbInsert.v ===== *)
(** * Red-black trees: insertion

    [rb_insert] of libk/ds/rbtree.c restores the red-black invariant after
    [rb_link_node] has hung a red leaf into a search tree, keeps the inorder
    list, touches no node outside the tree, and updates the cached leftmost
    node. *)

From stdpp Require Import base list gmap.
From Stdlib Require Import ZArith Lia Bool.
From S2P Require Import Prelude RbModel RbTree RbRepr RbRotate.
Local Open Scope Z_scope.

Definition is_FL (f : frame) : bool := match f with FL _ _ _ => true | FR _ _ _ => false end.

(** ** Reading around a focus *)

Section around.
Context (s0 : rbstate) (D : list Z).
Implicit Types (s : rbstate) (k : ctx) (t : tree).

Lemma holds_cparent_cons s f k t :
  holds s0 D s (plug (f :: k) t) → valid (faddr f).
Proof.
  intros H. destruct f; destruct H as [(_ & H & _)%repr_node _ _]; done.
Qed.

Lemma wp_rd_frame s f k t (Q : rb_node → rbstate → Prop) :
  holds s0 D s (plug (f :: k) t) → Q (fnode f (cparent k) (root t)) s →
  wp (rd (faddr f)) s Q.
Proof. intros H HQ. destruct f; (eapply wp_rd_node; [exact H|done]). Qed.

Lemma wp_parent_frame s f k t (Q : Z → rbstate → Prop) :
  holds s0 D s (plug (f :: k) t) → Q (cparent k) s → wp (rb_parent (faddr f)) s Q.
Proof. intros H HQ. destruct f; (eapply wp_rb_parent; [exact H|done]). Qed.

Lemma wp_color_frame s f k t (Q : Z → rbstate → Prop) :
  holds s0 D s (plug (f :: k) t) → Q (cz (fcolor f)) s → wp (rb_color (faddr f)) s Q.
Proof.
  intros H HQ. destruct f as [a c o|a c o].
  - by apply (wp_rb_color s0 D s k (Node a c t o)).
  - by apply (wp_rb_color s0 D s k (Node a c o t)).
Qed.

(** A frame with another colour. *)
Definition recolor (c : color) (f : frame) : frame :=
  match f with FL a _ o => FL a c o | FR a _ o => FR a c o end.

Lemma wp_set_color_frame s f k t c (Q : unit → rbstate → Prop) :
  holds s0 D s (plug (f :: k) t) →
  (∀ s', holds s0 D s' (plug (recolor c f :: k) t) → Q tt s') →
  wp (rb_set_color (faddr f) (cz c)) s Q.
Proof. intros H HQ. destruct f; (eapply wp_rb_set_color; [exact H|exact HQ]). Qed.

(** The sibling of the hole, seen as the focus. *)
Definition turn (f : frame) (t : tree) : frame :=
  match f with FL a c _ => FR a c t | FR a c _ => FL a c t end.

Lemma plug_turn f k t : plug (f :: k) t = plug (turn f t :: k) (fother f).
Proof. by destruct f. Qed.

Lemma focus_child_eqb s f k a c l r :
  holds s0 D s (plug (f :: k) (Node a c l r)) →
  (a =? left (fnode f (cparent k) a)) = is_FL f.
Proof.
  intros H. destruct f as [b cb o|b cb o]; simpl; [apply Z.eqb_refl|].
  apply Z.eqb_neq. pose proof (holds_focus _ _ _ _ _ H) as (_ & _ & _ & Hnk & Hdis & Hv & _).
  destruct o as [|o co lo ro]; simpl.
  - rewrite Forall_forall in Hv. apply valid_ne, Hv. set_solver.
  - intros ->. apply (Hdis o); [set_solver|]. apply caddrs_cons. right. left. set_solver.
Qed.

Lemma wp_rb_grandparent s f k a c l r (Q : Z → rbstate → Prop) :
  holds s0 D s (plug (f :: k) (Node a c l r)) → Q (cparent k) s →
  wp (rb_grandparent a) s Q.
Proof.
  intros H HQ. unfold rb_grandparent. apply wp_bind. eapply wp_rb_parent; [done|].
  simpl. destruct (Z.eqb_spec (faddr f) NULL).
  { by destruct (valid_ne _ (holds_cparent_cons _ _ _ _ H)). }
  by eapply wp_parent_frame.
Qed.

Lemma wp_rb_sibling s f k a c l r (Q : Z → rbstate → Prop) :
  holds s0 D s (plug (f :: k) (Node a c l r)) → Q (root (fother f)) s →
  wp (rb_sibling a) s Q.
Proof.
  intros H HQ. unfold rb_sibling. apply wp_bind. eapply wp_rb_parent; [done|].
  simpl. destruct (Z.eqb_spec (faddr f) NULL).
  { by destruct (valid_ne _ (holds_cparent_cons _ _ _ _ H)). }
  apply wp_bind. eapply wp_rd_frame; [done|].
  cbn [root]. rewrite (focus_child_eqb _ _ _ _ _ _ _ H).
  by destruct f.
Qed.

Lemma wp_rb_uncle s f g k a c l r (Q : Z → rbstate → Prop) :
  holds s0 D s (plug (f :: g :: k) (Node a c l r)) → Q (root (fother g)) s →
  wp (rb_uncle a) s Q.
Proof.
  intros H HQ. unfold rb_uncle. apply wp_bind. eapply wp_rb_parent; [done|].
  apply wp_bind. eapply wp_rb_grandparent; [done|]. simpl.
  assert (holds s0 D s (plug (g :: k) (fill f (Node a c l r)))) as H' by done.
  destruct (Z.eqb_spec (faddr g) NULL).
  { by destruct (valid_ne _ (holds_cparent_cons _ _ _ _ H')). }
  destruct f; (eapply wp_rb_sibling; [exact H'|done]).
Qed.

(** ** The cases of an insertion round *)

(** Case 1 stores the root it already is. *)
Lemma holds_upd_root s a c l r :
  holds s0 D s (Node a c l r) → holds s0 D (upd_root a s) (Node a c l r).
Proof.
  intros H. destruct (H) as [[_ _ _ Hr] _ _]. simpl in Hr.
  destruct s as [h [rt ml]]. simpl in *. by subst.
Qed.

Lemma wp_insert_case1 s a c l r (Q : unit → rbstate → Prop) :
  holds s0 D s (Node a c l r) →
  (∀ s', holds s0 D s' (Node a Black l r) → Q tt s') →
  wp (insert_case1 a) s Q.
Proof.
  intros H HQ. unfold insert_case1. apply wp_bind.
  apply (wp_rb_set_color s0 D s [] a c Black l r); [done|].
  intros s' H'. apply wp_modify, HQ. by apply holds_upd_root.
Qed.

(** The node in the focus differs from the root of any other subtree. *)
Lemma focus_ne_root s k t t' a :
  holds s0 D s (plug k t) → a ∈ inorder t →
  (∀ z, z ∈ inorder t' → z ∈ caddrs k) → a ≠ root t'.
Proof.
  intros (_ & _ & _ & _ & Hdis & Hv & _)%holds_focus Ha Hin.
  rewrite Forall_forall in Hv. destruct t' as [|b c l r]; simpl.
  - by apply valid_ne, Hv.
  - intros ->. apply (Hdis b); [done|]. apply Hin. set_solver.
Qed.

(** Case 3 colours parent and uncle black and the grandparent red. *)
Lemma wp_insert_case3 s f g k a c l r u cu ul ur (Q : Z → rbstate → Prop) :
  fother g = Node u cu ul ur →
  holds s0 D s (plug (f :: g :: k) (Node a c l r)) →
  (∀ s' g', g' = recolor Red (turn (turn g Leaf) (Node u Black ul ur)) →
     holds s0 D s' (plug (recolor Black f :: g' :: k) (Node a c l r)) →
     Q (faddr g) s') →
  wp (insert_case3 a) s Q.
Proof.
  intros Hu H HQ. unfold insert_case3.
  apply wp_bind. eapply wp_rb_parent; [done|]. simpl.
  apply wp_bind. apply (wp_set_color_frame s f (g :: k) _ Black _ H). intros s1 H1.
  apply wp_bind. eapply wp_rb_uncle; [done|].
  apply wp_bind. rewrite Hu. simpl root.
  set (p := fill (recolor Black f) (Node a c l r)) in *.
  assert (holds s0 D s1 (plug (turn g p :: k) (Node u cu ul ur))) as H1'.
  { rewrite <-Hu, <-plug_turn. exact H1. }
  apply (wp_rb_set_color s0 D s1 _ u cu Black ul ur _ H1'). intros s2 H2.
  set (g1 := turn (turn g Leaf) (Node u Black ul ur)).
  assert (holds s0 D s2 (plug (recolor Black f :: g1 :: k) (Node a c l r))) as H2'.
  { unfold g1. by destruct g. }
  apply wp_bind. eapply wp_rb_grandparent; [done|]. simpl.
  assert (faddr g1 = faddr g) as Hg1 by by destruct g.
  apply wp_bind.
  apply (wp_set_color_frame s2 g1 k p Red _ H2'). intros s3 H3.
  eapply (wp_rb_grandparent s3 (recolor Black f) (recolor Red g1 :: k)); [exact H3|].
  simpl. assert (faddr (recolor Red g1) = faddr g) as -> by by destruct g.
  by eapply HQ.
Qed.

(** Case 4, second half: the focus is an outer grandchild. *)
Definition outer_tree (f g : frame) (t : tree) : tree :=
  match g with
  | FL gp _ u => Node (faddr f) Black t (Node gp Red (fother f) u)
  | FR gp _ u => Node (faddr f) Black (Node gp Red u (fother f)) t
  end.

Lemma wp_insert_case4_outer s f g k a c l r (Q : unit → rbstate → Prop) :
  is_FL f = is_FL g →
  holds s0 D s (plug (f :: g :: k) (Node a c l r)) →
  (∀ s', holds s0 D s' (plug k (outer_tree f g (Node a c l r))) → Q tt s') →
  wp (insert_case4_outer a) s Q.
Proof.
  intros Hfg H HQ. unfold insert_case4_outer.
  apply wp_bind. eapply wp_rb_parent; [done|].
  apply wp_bind. eapply wp_rb_grandparent; [done|]. simpl.
  apply wp_bind. eapply wp_rd_frame; [exact H|]. cbn [root].
  rewrite (focus_child_eqb _ _ _ _ _ _ _ H). apply wp_bind.
  destruct f as [p cp po|p cp po], g as [gp cg u|gp cg u]; simpl in Hfg; try done; simpl.
  - eapply wp_rotate_right; [exact H|]. intros s1 H1.
    apply wp_bind. eapply (wp_rb_set_color s0 D s1 k p cp Black); [exact H1|]. intros s2 H2.
    eapply (wp_rb_set_color s0 D s2 (FR p Black _ :: k) gp cg Red); [exact H2|exact HQ].
  - eapply wp_rotate_left; [exact H|]. intros s1 H1.
    apply wp_bind. eapply (wp_rb_set_color s0 D s1 k p cp Black); [exact H1|]. intros s2 H2.
    eapply (wp_rb_set_color s0 D s2 (FL p Black _ :: k) gp cg Red); [exact H2|exact HQ].
Qed.

(** The children of the uncle are not the focus. *)
Lemma wp_probe_uncle s f g k a c l r sel (Q : bool → rbstate → Prop) :
  sel = left ∨ sel = right →
  holds s0 D s (plug (f :: g :: k) (Node a c l r)) → Q false s →
  wp (if negb (root (fother g) =? NULL)
      then n ← rd (root (fother g)); mret (a =? sel n) else mret false) s Q.
Proof.
  intros Hsel H HQ. destruct (fother g) as [|u cu ul ur] eqn:Hu; [done|].
  assert (holds s0 D s (plug (turn g (fill f (Node a c l r)) :: k) (Node u cu ul ur))) as H'.
  { rewrite <-Hu, <-plug_turn. exact H. }
  simpl root. destruct (Z.eqb_spec u NULL); [done|]. cbn [negb].
  apply wp_bind. eapply wp_rd_node; [exact H'|]. apply wp_ret.
  assert (∀ z, z ∈ inorder ul ∨ z ∈ inorder ur → z ∈ caddrs (f :: g :: k)) as Hin.
  { intros z Hz. rewrite !caddrs_cons, Hu. simpl. rewrite elem_of_app, elem_of_cons. tauto. }
  destruct (Z.eqb_spec a (sel (mk_node (pack (cparent (turn g (fill f (Node a c l r)) :: k)) cu)
    (root ul) (root ur)))) as [Heq|]; [|done].
  exfalso. destruct Hsel as [->| ->]; simpl in Heq.
  - by eapply (focus_ne_root _ _ _ ul a H); [set_solver|auto|].
  - by eapply (focus_ne_root _ _ _ ur a H); [set_solver|auto|].
Qed.

(** Case 4, first half: afterwards the focus is an outer grandchild. *)
Lemma wp_insert_case4_inner s f g k a c l r (Q : Z → rbstate → Prop) :
  holds s0 D s (plug (f :: g :: k) (Node a c l r)) →
  (is_FL f = is_FL g → Q a s) →
  (is_FL f ≠ is_FL g → ∀ s',
     holds s0 D s' (plug (g :: k)
       match f with
       | FR p cp po => Node a c (Node p cp po l) r
       | FL p cp po => Node a c l (Node p cp r po)
       end) → Q (faddr f) s') →
  wp (insert_case4_inner a) s Q.
Proof.
  intros H HQ1 HQ2. unfold insert_case4_inner.
  assert (holds s0 D s (plug (g :: k) (fill f (Node a c l r)))) as Hg by done.
  pose proof (valid_ne _ (holds_cparent_cons _ _ _ _ H)) as Hf.
  assert (∀ z, z ∈ inorder (fother f) → z ∈ caddrs (f :: g :: k)) as Hin.
  { intros z Hz. rewrite caddrs_cons. auto. }
  pose proof (focus_ne_root _ _ _ (fother f) a H ltac:(set_solver) Hin) as Hne.
  apply wp_bind. eapply wp_rb_parent; [done|].
  apply wp_bind. eapply wp_rb_grandparent; [done|]. simpl cparent.
  apply wp_bind. eapply wp_rd_frame; [exact Hg|]. apply wp_bind.
  destruct g as [gp cg u|gp cg u]; cbn [fnode left right].
  - assert (root (fill f (Node a c l r)) = faddr f) as -> by by destruct f.
    destruct (Z.eqb_spec (faddr f) NULL); [done|]. cbn [negb]. apply wp_bind.
    eapply wp_rd_frame; [exact H|]. apply wp_ret.
    destruct f as [p cp po|p cp po]; cbn [fnode right root fother faddr] in *.
    + destruct (Z.eqb_spec a (root po)); [done|].
      apply wp_bind. eapply (wp_rd_frame s (FL gp cg u)); [exact Hg|]. apply wp_bind.
      eapply (wp_probe_uncle s _ (FL gp cg u)); [by left|exact H|]. by apply HQ1.
    + rewrite Z.eqb_refl. apply wp_bind.
      eapply wp_rotate_left; [exact Hg|]. intros s1 H1.
      apply wp_bind. eapply wp_rd_node; [exact H1|]. apply wp_ret. by apply HQ2.
  - eapply (wp_probe_uncle s _ (FR gp cg u)); [by right|exact H|].
    apply wp_bind. eapply (wp_rd_frame s (FR gp cg u)); [exact Hg|]. cbn [fnode right].
    assert (root (fill f (Node a c l r)) = faddr f) as -> by by destruct f.
    destruct (Z.eqb_spec (faddr f) NULL); [done|]. cbn [negb]. apply wp_bind, wp_bind.
    eapply wp_rd_frame; [exact H|]. apply wp_ret.
    destruct f as [p cp po|p cp po]; cbn [fnode left root fother faddr] in *.
    + rewrite Z.eqb_refl. apply wp_bind.
      eapply wp_rotate_right; [exact Hg|]. intros s1 H1.
      apply wp_bind. eapply wp_rd_node; [exact H1|]. apply wp_ret. by apply HQ2.
    + destruct (Z.eqb_spec a (root po)); [done|]. by apply HQ1.
Qed.

(** The tree case 4 leaves at the grandparent's place. *)
Definition case4_tree (f g : frame) (a : Z) (c : color) (l r : tree) : tree :=
  if eqb (is_FL f) (is_FL g) then outer_tree f g (Node a c l r)
  else match f with
       | FR p cp po => outer_tree (FL a c r) g (Node p cp po l)
       | FL p cp po => outer_tree (FR a c l) g (Node p cp r po)
       end.

Lemma wp_insert_case4 s f g k a c l r (Q : unit → rbstate → Prop) :
  holds s0 D s (plug (f :: g :: k) (Node a c l r)) →
  (∀ s', holds s0 D s' (plug k (case4_tree f g a c l r)) → Q tt s') →
  wp (insert_case4 a) s Q.
Proof.
  intros H HQ. unfold insert_case4. apply wp_bind.
  eapply wp_insert_case4_inner; [done|..].
  - intros Hfg. eapply wp_insert_case4_outer; [done..|].
    unfold case4_tree in HQ. by rewrite Hfg, eqb_reflx in HQ.
  - intros Hfg s1 H1. unfold case4_tree in HQ.
    destruct f as [p cp po|p cp po], g as [gp cg u|gp cg u]; simpl in *; try done.
    + by eapply (wp_insert_case4_outer s1 (FR a c l) (FR gp cg u) k p cp r po).
    + by eapply (wp_insert_case4_outer s1 (FL a c r) (FL gp cg u) k p cp po l).
Qed.

(** ** The loop *)

(** Before each round: the focus is a red node with black children, the rest
    of the tree is red-black, and only the focus may clash with its parent. *)
Definition insert_inv (n : nat) (node : Z) (s : rbstate) : Prop :=
  ∃ k l r h b, holds s0 D s (plug k (Node node Red l r)) ∧
    rbt l Black h ∧ rbt r Black h ∧ rbc k b h ∧ length k = n.

Definition insert_post (s : rbstate) : Prop := ∃ T, holds s0 D s T ∧ rb T.

Lemma outer_tree_rbt f g t h :
  rbt (fother f) Black h → rbt (fother g) Black h → rbt t Red h →
  rbt (outer_tree f g t) Black (S h).
Proof. destruct g; simpl; eauto with rb. Qed.

Lemma case4_tree_rbt f g a l r h :
  fcolor f = Red → rbt (fother f) Black h → rbt (fother g) Black h →
  rbt l Black h → rbt r Black h → rbt (case4_tree f g a Red l r) Black (S h).
Proof.
  intros Hf Ho Hu Hl Hr. unfold case4_tree.
  destruct (eqb _ _); [apply outer_tree_rbt; eauto with rb|].
  destruct f as [p [] po|p [] po]; try done; apply outer_tree_rbt; simpl in *; eauto with rb.
Qed.

(** A context that admits a red focus below a red frame goes on with a black
    frame: the root of a red-black tree is black. *)
Lemma rbc_red_parent f k b h :
  rbc (f :: k) b h → fcolor f = Red →
  ∃ g k' c b', k = g :: k' ∧ fcolor g = Black ∧ rbt (fother f) Black h ∧
    rbt (fother g) c h ∧ rbc k' b' (S h).
Proof.
  intros Hk Hf. inversion Hk as [|? ? ? ? Ho Hk'|]; subst; [|congruence].
  inversion Hk'; subst. naive_solver.
Qed.

Lemma wp_insert_round n node s :
  insert_inv n node s →
  wp (insert_round node) s (λ r s',
    match r with
    | inl node' => ∃ n', (n' < n)%nat ∧ insert_inv n' node' s'
    | inr _ => insert_post s'
    end).
Proof.
  intros (k & l & r & h & b & H & Hl & Hr & Hk & Hn). unfold insert_round.
  apply wp_bind. eapply wp_rb_parent; [done|]. destruct k as [|f k]; simpl cparent.
  { apply wp_bind. eapply wp_insert_case1; [exact H|]. intros s1 H1. apply wp_ret.
    exists (Node node Black l r). split; [done|]. exists (S h). eauto with rb. }
  pose proof (valid_ne _ (holds_cparent_cons _ _ _ _ H)) as Hf.
  destruct (Z.eqb_spec (faddr f) NULL); [done|].
  apply wp_bind. eapply wp_color_frame; [exact H|].
  destruct (fcolor f) eqn:Hfc; simpl; last first.
  { exists (plug (f :: k) (Node node Red l r)). split; [done|].
    eapply (rbc_plug (f :: k) true); [|by econstructor|by right].
    inversion Hk; subst; [congruence|]. by econstructor. }
  destruct (rbc_red_parent _ _ _ _ Hk Hfc) as (g & k' & cu & b' & -> & Hg & Ho & Hu & Hk').
  apply wp_bind. eapply wp_rb_uncle; [exact H|].
  apply wp_bind. eapply (wp_rb_color s0 D s (turn g (fill f (Node node Red l r)) :: k')).
  { rewrite <-plug_turn. exact H. }
  rewrite (rbt_tcolor _ _ _ Hu). destruct cu; simpl.
  - inversion Hu as [|u ul ur ? Hul Hur Heq|]; subst.
    apply wp_bind. eapply wp_insert_case3; [done|exact H|]. intros s1 g' -> H1. apply wp_ret.
    exists (length k'). split; [simpl in *; lia|].
    exists k'.
    assert (rbt (fill (recolor Black f) (Node node Red l r)) Black (S h)) as Hp.
    { destruct f; simpl in *; eauto with rb. }
    assert (rbt (Node u Black ul ur) Black (S h)) as Hu' by eauto with rb.
    destruct g as [gp cg go|gp cg go]; simpl in *.
    + exists (fill (recolor Black f) (Node node Red l r)), (Node u Black ul ur), (S h), b'.
      by split_and!.
    + exists (Node u Black ul ur), (fill (recolor Black f) (Node node Red l r)), (S h), b'.
      by split_and!.
  - apply wp_bind. eapply wp_insert_case4; [exact H|]. intros s1 H1. apply wp_ret.
    eexists. split; [exact H1|]. eapply (rbc_plug _ _ _ _ Black); [done| |by left].
    by apply case4_tree_rbt.
Qed.

End around.

(** ** The whole operation *)

(** The first node of the inorder list has no left child. *)
Lemma head_no_left k a c l r :
  NoDup (inorder (plug k (Node a c l r))) →
  head (inorder (plug k (Node a c l r))) = Some a → l = Leaf.
Proof.
  rewrite inorder_plug. simpl. rewrite !(assoc_L (++)).
  destruct l as [|b cb lb rb]; [done|]. simpl.
  destruct (cbefore k ++ inorder lb ++ b :: inorder rb) as [|z zs] eqn:E.
  - by destruct (cbefore k), (inorder lb).
  - simpl. intros Hnd [= ->]. rewrite NoDup_cons in Hnd. destruct Hnd as [[] _]. set_solver.
Qed.

(** [rb_insert(tree, node, most_left)] after [rb_link_node] has put [node] as a
    red leaf at focus [k] of a red-black tree.  [most_left] may only be passed
    as true for a node that is now first in order. *)
Lemma wp_rb_insert s k node ml :
  repr s (plug k (Node node Red Leaf Leaf)) →
  rb (plug k Leaf) →
  (ml = true → head (inorder (plug k (Node node Red Leaf Leaf))) = Some node) →
  wp (rb_insert node ml) s (λ _ s', ∃ T',
    repr s' T' ∧ rb T' ∧
    inorder T' = inorder (plug k (Node node Red Leaf Leaf)) ∧
    (∀ a, a ∉ inorder T' → nodes s' !! a = nodes s !! a) ∧
    most_left (tr s') = if ml then node else most_left (tr s)).
Proof.
  intros Hrep Hrb Hml. set (T := plug k (Node node Red Leaf Leaf)) in *.
  pose proof (holds_start _ _ Hrep) as H.
  destruct (rb_focus _ _ Hrb) as (b & c & n & Hk & Hleaf & _). inversion Hleaf; subst.
  pose proof (repr_node _ _ _ _ _ _ Hrep) as (_ & Hv & _).
  unfold rb_insert. destruct (Z.eqb_spec node NULL); [by destruct (valid_ne _ Hv)|].
  apply wp_bind. unfold walk_fuel. apply wp_bind, wp_get, wp_ret.
  apply wp_bind. eapply wp_mono.
  { eapply (wp_loop (insert_inv s (inorder T))).
    - intros. by apply wp_insert_round.
    - exists k, Leaf, Leaf, 0%nat, b. split_and!; [exact H|constructor..|done|done].
    - by eapply holds_size. }
  intros _ s' (T' & H' & Hrb'). destruct (H') as [Hrep' Hin' [Hout Hml']].
  assert (∀ s'', tr s'' = mk_tree (tree_root (tr s')) (if ml then node else most_left (tr s)) →
    nodes s'' = nodes s' → ∃ T'',
    repr s'' T'' ∧ rb T'' ∧ inorder T'' = inorder T ∧
    (∀ a, a ∉ inorder T'' → nodes s'' !! a = nodes s !! a) ∧
    most_left (tr s'') = if ml then node else most_left (tr s)) as Hend.
  { intros s'' Htr Hnodes. exists T'. rewrite Htr, Hnodes. split_and!; try done.
    - destruct Hrep'. split; rewrite ?Hnodes, ?Htr; done.
    - by rewrite Hin'. }
  destruct ml; last first.
  { apply wp_ret, Hend; [|done]. rewrite <-Hml'. by destruct (tr s'). }
  assert (node ∈ inorder T') as Hnode.
  { rewrite Hin'. apply elem_inorder_plug. set_solver. }
  destruct (inorder_focus _ _ Hnode) as (k' & c' & l' & r' & ->).
  assert (l' = Leaf) as ->.
  { eapply head_no_left; [apply Hrep'|]. rewrite Hin'. by apply Hml. }
  apply wp_bind. eapply wp_rd_node; [exact H'|]. simpl.
  apply wp_modify. by apply Hend.
Qed.

(** ** Linking a new node *)

(** The place [link] of the C code for the hole of a context. *)
Definition ctx_link (k : ctx) : rb_link :=
  match k with
  | [] => LinkRoot
  | FL a _ _ :: _ => LinkLeft a
  | FR a _ _ :: _ => LinkRight a
  end.

Lemma link_red_word p w :
  valid_ptr p → Z.land (Z.lor p (rb_mask_color w)) (2 ^ 64 - 2) = pack p Red.
Proof.
  intros [Hp _]%valid_ptr_bits. unfold rb_mask_color, RB_COLOR_MASK, pack.
  change (2 ^ 64 - 2) with RB_PARENT_MASK.
  rewrite Z.land_lor_distr_l, Hp, <-Z.land_assoc. simpl.
  by rewrite Z.land_0_r.
Qed.

(** [*link = node] fills the hole of the tree. *)
Lemma wp_link_set s k node (Q : unit → rbstate → Prop) :
  repc (nodes s) k NULL → Forall valid (caddrs k) → NoDup (caddrs k) →
  (∀ s', repc (nodes s') k node →
         (∀ a, a ∉ caddrs k → nodes s' !! a = nodes s !! a) →
         tr s' = mk_tree (new_root k node (tree_root (tr s))) (most_left (tr s)) →
         Q tt s') →
  wp (link_set (ctx_link k) node) s Q.
Proof.
  intros Hk Hval Hnd HQ. destruct k as [|f k].
  { apply wp_modify, HQ; done. }
  assert (∀ g, g (fnode f (cparent k) NULL) = fnode f (cparent k) node →
    wp (wr (faddr f) g) s Q) as Hwr.
  { intros g Hg. eapply wp_wr_hole; [done..|]. intros s' ? ? Htr. apply HQ; [done..|].
    rewrite Htr. by destruct (tr s). }
  by destruct f; apply Hwr.
Qed.

Lemma wp_rb_link_node s k node n0 :
  repr s (plug k Leaf) → nodes s !! node = Some n0 → valid node →
  node ∉ inorder (plug k Leaf) →
  wp (rb_link_node node (cparent k) (ctx_link k)) s (λ _ s',
    repr s' (plug k (Node node Red Leaf Leaf)) ∧
    (∀ a, a ≠ node → a ∉ inorder (plug k Leaf) → nodes s' !! a = nodes s !! a) ∧
    most_left (tr s') = most_left (tr s)).
Proof.
  intros Hrep Hn Hv Hnin.
  pose proof (holds_focus _ _ _ _ _ (holds_start _ _ Hrep)) as (_ & Hk & _ & Hnk & _ & _ & Hvk & Hpk).
  pose proof (valid_ne _ Hv) as Hne. rewrite elem_plug in Hnin.
  unfold rb_link_node, rb_set_color. apply wp_bind. eapply wp_rb_set_parent_raw; [done..|].
  apply wp_bind. eapply wp_wr; [apply lookup_insert_eq|done|].
  apply wp_bind. eapply wp_wr; [apply lookup_insert_eq|done|].
  apply wp_bind. eapply wp_wr; [apply lookup_insert_eq|done|].
  cbn [upd_nodes nodes]. unfold set_pc, set_left, set_right. cbn [parent_color left right].
  rewrite link_red_word by done. eapply wp_link_set; [|done..|]; simpl.
  { do 4 (apply repc_insert_ne; [tauto|]). done. }
  intros s' Hk' Hout Htr. simpl in *.
  assert (nodes s' !! node = Some (mk_node (pack (cparent k) Red) NULL NULL)) as Hnode.
  { rewrite Hout by tauto. apply lookup_insert_eq. }
  split_and!.
  - destruct Hrep as [_ Hnd Hval Hroot]. split.
    + apply rep_plug. simpl. auto.
    + rewrite plug_perm in *. simpl in *. apply NoDup_cons. tauto.
    + rewrite plug_perm in *. simpl in *. by constructor.
    + rewrite Htr, Hroot. simpl. exact (new_root_plug k Leaf (Node node Red Leaf Leaf)).
  - intros a Ha. rewrite elem_plug. intros Hin.
    rewrite Hout by tauto. by rewrite !lookup_insert_ne by done.
  - by rewrite Htr.
Qed.
