(* ===== verification/RbWalk.v ===== *)
(** * Red-black trees: walks

    [rb_first_uncached], [rb_next] of include/ds/rbtree.h and the search for
    the predecessor in [rb_erase], against the inorder list. *)

From stdpp Require Import base list gmap.
From Stdlib Require Import ZArith Lia.
From S2P Require Import Prelude RbModel RbTree RbRepr RbRotate RbInsert.
Local Open Scope Z_scope.

Section walks.
Context (s0 : rbstate) (D : list Z).

Lemma holds_tsize s k t : holds s0 D s (plug k t) → (tsize t < 2 + size (nodes s))%nat.
Proof.
  intros [H _ _]. pose proof (repr_size _ _ H) as Hs. rewrite inorder_plug, !length_app in Hs.
  rewrite tsize_inorder. lia.
Qed.

Lemma wp_walk_left s k t (Q : Z → rbstate → Prop) :
  holds s0 D s (plug k t) → t ≠ Leaf → Q (leftmost t) s → wp (walk_left (root t)) s Q.
Proof.
  intros H Hne HQ. unfold walk_left, walk_fuel. apply wp_bind, wp_bind, wp_get, wp_ret.
  eapply (wp_loop (λ n node s', s' = s ∧ ∃ k' t', holds s0 D s (plug k' t') ∧ t' ≠ Leaf ∧
    node = root t' ∧ leftmost t' = leftmost t ∧ n = tsize t')).
  - intros n node s' (-> & k' & t' & H' & Ht' & -> & Hlm & ->).
    destruct t' as [|a c l r]; [done|]. apply wp_bind. eapply wp_rd_node; [exact H'|].
    cbn [left]. destruct l as [|b cb lb rb]; simpl.
    { simpl in Hlm. apply wp_ret. by rewrite Hlm. }
    assert (holds s0 D s (plug (FL a c r :: k') (Node b cb lb rb))) as H'' by done.
    destruct (Z.eqb_spec b NULL).
    { destruct H'' as [(_ & Hv & _)%repr_node _ _]. by destruct (valid_ne _ Hv). }
    apply wp_ret. exists (tsize (Node b cb lb rb)). simpl. split; [lia|]. split; [done|].
    by exists (FL a c r :: k'), (Node b cb lb rb).
  - split; [done|]. exists k, t. by split_and!.
  - by eapply holds_tsize.
Qed.

(** The last node of a subtree, with the path down to it. *)
Lemma wp_walk_right s k t (Q : Z → rbstate → Prop) :
  holds s0 D s (plug k t) → t ≠ Leaf →
  (∀ j y c l, t = plug j (Node y c l Leaf) → cafter j = [] → Q y s) →
  wp (walk_right (root t)) s Q.
Proof.
  intros H Hne HQ. unfold walk_right, walk_fuel. apply wp_bind, wp_bind, wp_get, wp_ret.
  eapply (wp_loop (λ n node s', s' = s ∧ ∃ j t', t = plug j t' ∧ cafter j = [] ∧ t' ≠ Leaf ∧
    node = root t' ∧ n = tsize t')).
  - intros n node s' (-> & j & t' & Ht & Hj & Ht' & -> & ->).
    destruct t' as [|a c l r]; [done|]. rewrite Ht, <-plug_app in H.
    apply wp_bind. eapply wp_rd_node; [exact H|].
    cbn [right]. destruct r as [|b cb lb rb]; simpl; [by eapply HQ|].
    assert (holds s0 D s (plug (FR a c l :: j ++ k) (Node b cb lb rb))) as H'' by done.
    destruct (Z.eqb_spec b NULL).
    { destruct H'' as [(_ & Hv & _)%repr_node _ _]. by destruct (valid_ne _ Hv). }
    apply wp_ret. exists (tsize (Node b cb lb rb)). simpl. split; [lia|]. split; [done|].
    by exists (FR a c l :: j), (Node b cb lb rb).
  - split; [done|]. by exists [], t.
  - by eapply holds_tsize.
Qed.

(** [rb_next] is the successor in the inorder list. *)
Lemma wp_rb_next s k a c l r (Q : Z → rbstate → Prop) :
  holds s0 D s (plug k (Node a c l r)) →
  Q (default NULL (head (inorder r ++ cafter k))) s →
  wp (rb_next a) s Q.
Proof.
  intros H HQ. unfold rb_next.
  pose proof (holds_repr _ _ _ _ H) as (_ & Hv & _)%repr_node.
  destruct (Z.eqb_spec a NULL); [by destruct (valid_ne _ Hv)|].
  apply wp_bind. eapply wp_rd_node; [done|]. cbn [right].
  destruct r as [|b cb lb rb]; simpl.
  - unfold walk_fuel. apply wp_bind, wp_bind, wp_get, wp_ret.
    eapply (wp_loop (λ n node s', s' = s ∧ ∃ k' c' l' r', holds s0 D s (plug k' (Node node c' l' r')) ∧
      cafter k' = cafter k ∧ n = length k')).
    + intros n' node s' (-> & k' & c' & l' & r' & H' & Hk' & ->).
      apply wp_bind. eapply wp_rb_parent; [done|]. destruct k' as [|f k']; simpl.
      { apply wp_ret. simpl in *. by rewrite <-Hk' in HQ. }
      destruct (Z.eqb_spec (faddr f) NULL).
      { by destruct (valid_ne _ (holds_cparent_cons _ _ _ _ _ _ H')). }
      apply wp_bind. eapply wp_rd_frame; [exact H'|].
      destruct f as [p cp o|p cp o]; simpl in *.
      * assert (node ≠ root o) as Hne.
        { eapply (focus_ne_root _ _ _ (FL p cp o :: k')); [exact H'|set_solver|].
          intros z Hz. apply caddrs_cons. auto. }
        destruct (Z.eqb_spec node (root o)); [done|]. apply wp_ret. by rewrite <-Hk' in HQ.
      * rewrite Z.eqb_refl. apply wp_ret. exists (length k'). split; [lia|]. split; [done|].
        exists k', cp, o, (Node node c' l' r'). by split_and!.
    + split; [done|]. exists k, c, l, Leaf. by split_and!.
    + by eapply holds_size.
  - assert (holds s0 D s (plug (FR a c l :: k) (Node b cb lb rb))) as H' by done.
    destruct (Z.eqb_spec b NULL).
    { destruct H' as [(_ & Hvb & _)%repr_node _ _]. by destruct (valid_ne _ Hvb). }
    cbn [negb]. eapply (wp_walk_left s _ (Node b cb lb rb)); [exact H'|done|].
    rewrite leftmost_hd. simpl in *. rewrite <-(assoc_L (++)) in HQ. by destruct (inorder lb).
Qed.

Lemma wp_rb_first_uncached s T (Q : Z → rbstate → Prop) :
  holds s0 D s T → Q (default NULL (head (inorder T))) s → wp rb_first_uncached s Q.
Proof.
  intros H HQ. unfold rb_first_uncached, get_root. apply wp_bind, wp_bind, wp_get, wp_ret.
  rewrite (repr_root _ _ (holds_repr _ _ _ _ H)). destruct T as [|a c l r]; simpl; [done|].
  destruct (Z.eqb_spec a NULL).
  { destruct H as [(_ & Hv & _)%(repr_node _ []) _ _]. by destruct (valid_ne _ Hv). }
  eapply (wp_walk_left s [] (Node a c l r)); [exact H|done|]. by rewrite leftmost_hd.
Qed.

End walks.
