(* ===== verification/RbErase.v ===== *)
(** * Red-black trees: removal

    [erase_rebalance], [rb_swap] and [rb_erase] of libk/ds/rbtree.c.  The four
    rebalancing cases are stated once for both sides: [d] says whether the
    deficient subtree is the left child, and [mknode d] builds a node from its
    child on that side and the other one. *)

From stdpp Require Import base list gmap.
From Stdlib Require Import ZArith Lia Bool.
From S2P Require Import Prelude RbModel RbTree RbRepr RbRotate RbInsert RbWalk.
Local Open Scope Z_scope.

Definition mknode (d : bool) (a : Z) (c : color) (near far : tree) : tree :=
  if d then Node a c near far else Node a c far near.
Definition mkframe (d : bool) (a : Z) (c : color) (other : tree) : frame :=
  if d then FL a c other else FR a c other.

Lemma plug_mkframe d a c o k t : plug (mkframe d a c o :: k) t = plug k (mknode d a c t o).
Proof. by destruct d. Qed.

Lemma frame_eta f : f = mkframe (is_FL f) (faddr f) (fcolor f) (fother f).
Proof. by destruct f. Qed.

Lemma tree_eta d t : t = Leaf ∨ ∃ a c n f, t = mknode d a c n f.
Proof. destruct t as [|a c l r], d; [by left|by left|right..]; by eexists a, c, _, _. Qed.

Lemma rbt_mknode_red d a n f h :
  rbt n Black h → rbt f Black h → rbt (mknode d a Red n f) Red h.
Proof. destruct d; eauto with rb. Qed.
Lemma rbt_mknode_black d a n f cn cf h :
  rbt n cn h → rbt f cf h → rbt (mknode d a Black n f) Black (S h).
Proof. destruct d; eauto with rb. Qed.
#[local] Hint Resolve rbt_mknode_red rbt_mknode_black : rb.

Lemma rbt_mknode_inv d a c n f cc h :
  rbt (mknode d a c n f) cc h →
  c = cc ∧ match c with
  | Red => rbt n Black h ∧ rbt f Black h
  | Black => ∃ h' cn cf, h = S h' ∧ rbt n cn h' ∧ rbt f cf h'
  end.
Proof. destruct d; inversion 1; subst; split; eauto 10. Qed.

Lemma tcolor_mknode d a c n f : tcolor (mknode d a c n f) = c.
Proof. by destruct d. Qed.
Lemma root_mknode d a c n f : root (mknode d a c n f) = a.
Proof. by destruct d. Qed.

Lemma rbc_mkframe_inv d a c o k b n :
  rbc (mkframe d a c o :: k) b n →
  match c with
  | Red => rbt o Black n ∧ rbc k true n
  | Black => ∃ co b', rbt o co n ∧ rbc k b' (S n)
  end.
Proof. destruct d, c; inversion 1; simplify_eq/=; eauto. Qed.

(** Two black trees can take the places of the hole and its sibling. *)
Lemma rb_refill d a c o k b n d' w x y :
  rbc (mkframe d a c o :: k) b n → rbt x Black n → rbt y Black n →
  rb (plug k (mknode d' w c x y)).
Proof.
  intros Hk%rbc_mkframe_inv Hx Hy. destruct c.
  - destruct Hk as [_ Hk]. eapply rbc_plug; [exact Hk|by apply rbt_mknode_red|by right].
  - destruct Hk as (_ & b' & _ & Hk).
    eapply rbc_plug; [exact Hk|by eapply rbt_mknode_black|by left].
Qed.

Lemma rbc_sibling d a c w cw wn wf k b n :
  rbc (mkframe d a c (mknode d w cw wn wf) :: k) b n → ∃ co, rbt (mknode d w cw wn wf) co n.
Proof. intros Hk%rbc_mkframe_inv. destruct c; naive_solver. Qed.

(** The tree with its root painted black. *)
Definition blacken (t : tree) : tree :=
  match t with Leaf => Leaf | Node a _ l r => Node a Black l r end.

Section rebalance.
Context (s0 : rbstate) (D : list Z).
Implicit Types (s : rbstate) (k : ctx) (t : tree).

(** ** Both sides at once *)

Lemma wp_rotate d s k x cx y cy a b c (Q : unit → rbstate → Prop) :
  holds s0 D s (plug k (mknode d x cx a (mknode d y cy b c))) →
  (∀ s', holds s0 D s' (plug k (mknode d y cy (mknode d x cx a b) c)) → Q tt s') →
  wp (if d then rotate_left x else rotate_right x) s Q.
Proof.
  destruct d; intros H HQ.
  - by eapply wp_rotate_left.
  - by eapply wp_rotate_right.
Qed.

Lemma wp_set_color d s k a c c' n f (Q : unit → rbstate → Prop) :
  holds s0 D s (plug k (mknode d a c n f)) →
  (∀ s', holds s0 D s' (plug k (mknode d a c' n f)) → Q tt s') →
  wp (rb_set_color a (cz c')) s Q.
Proof. destruct d; intros H HQ; by eapply wp_rb_set_color. Qed.

Lemma wp_other_child d s k a c n f (Q : Z → rbstate → Prop) :
  holds s0 D s (plug k (mknode d a c n f)) → Q (root f) s → wp (other_child d a) s Q.
Proof.
  unfold other_child. intros H HQ. apply wp_bind.
  destruct d; (eapply wp_rd_node; [exact H|]); by apply wp_ret.
Qed.

(** The focus moves to the far child, the near child or the sibling. *)
Lemma plug_far d a c n f k : plug k (mknode d a c n f) = plug (mkframe (negb d) a c n :: k) f.
Proof. by destruct d. Qed.
Lemma plug_near d a c n f k : plug k (mknode d a c n f) = plug (mkframe d a c f :: k) n.
Proof. by destruct d. Qed.

Lemma holds_mknode_ne d s k a c n f : holds s0 D s (plug k (mknode d a c n f)) → a ≠ NULL.
Proof.
  destruct d; intros [(_ & Hv & _)%repr_node _ _]; by apply valid_ne.
Qed.

(** ** The cases *)

Lemma wp_erase_case1 d s k a c w cw wn wf t (Q : Z → rbstate → Prop) :
  holds s0 D s (plug k (mknode d a c t (mknode d w cw wn wf))) →
  (cw = Black → Q w s) →
  (cw = Red → ∀ s',
     holds s0 D s' (plug (mkframe d w Black wf :: k) (mknode d a Red t wn)) →
     Q (root wn) s') →
  wp (erase_case1 d a w) s Q.
Proof.
  intros H HQb HQr. unfold erase_case1.
  assert (holds s0 D s (plug (mkframe (negb d) a c t :: k) (mknode d w cw wn wf))) as Hw
    by by rewrite <-plug_far.
  apply wp_bind. destruct (Z.eqb_spec w NULL); [by destruct (holds_mknode_ne _ _ _ _ _ _ _ Hw)|].
  cbn [negb]. unfold rb_is_red. apply wp_bind.
  rewrite <-(root_mknode d w cw wn wf) at 1.
  eapply wp_rb_color; [exact Hw|]. rewrite tcolor_mknode. apply wp_ret.
  destruct cw; simpl; [|by apply HQb]. clear HQb.
  apply wp_bind. eapply (wp_set_color d _ _ _ _ Black); [exact Hw|]. intros s1 H1.
  rewrite <-plug_far in H1.
  apply wp_bind. eapply (wp_set_color d _ _ _ _ Red); [exact H1|]. intros s2 H2.
  apply wp_bind. eapply wp_rotate; [exact H2|]. intros s3 H3. rewrite plug_near in H3.
  eapply wp_other_child; [exact H3|]. by apply HQr.
Qed.

Lemma wp_other_rotate d s k w cw n cn n1 n2 f (Q : unit → rbstate → Prop) :
  holds s0 D s (plug k (mknode d w cw (mknode d n cn n1 n2) f)) →
  (∀ s', holds s0 D s' (plug k (mknode d n cn n1 (mknode d w cw n2 f))) → Q tt s') →
  wp (if d then rotate_right w else rotate_left w) s Q.
Proof.
  intros H HQ. destruct d.
  - eapply wp_rotate_right; [exact H|exact HQ].
  - eapply wp_rotate_left; [exact H|exact HQ].
Qed.

(** The child of the sibling that is the red one moves to the far side. *)
Lemma wp_erase_case3 d s k a c t w wn wf (Q : Z → rbstate → Prop) :
  holds s0 D s (plug k (mknode d a c t (mknode d w Black wn wf))) →
  (tcolor wf = Red → Q w s) →
  (tcolor wf = Black → ∃ n n1 n2, wn = mknode d n Red n1 n2 ∧
     ∀ s', holds s0 D s'
             (plug k (mknode d a c t (mknode d n Black n1 (mknode d w Red n2 wf)))) →
           Q n s') →
  wp (erase_case3 d a w (root (if d then wn else wf)) (root (if d then wf else wn))) s Q.
Proof.
  intros H HQr HQb. unfold erase_case3.
  assert (holds s0 D s (plug (mkframe (negb d) a c t :: k) (mknode d w Black wn wf))) as Hw
    by by rewrite <-plug_far.
  assert (∀ Q' : bool → rbstate → Prop, Q' (bool_decide (tcolor wf = Black)) s →
    wp (null_or_black (root wf)) s Q') as Hfar.
  { intros Q' HQ'. eapply wp_null_or_black; [|exact HQ']. by rewrite plug_far in Hw. }
  destruct (tcolor wf) eqn:Hc.
  { specialize (HQr eq_refl). destruct d; simpl.
    - apply wp_bind, Hfar, wp_bind, wp_ret. simpl. by apply wp_ret.
    - apply wp_bind, wp_ret, wp_bind, Hfar. by apply wp_ret. }
  destruct (HQb eq_refl) as (n & n1 & n2 & -> & HQ). clear HQr HQb.
  assert (wp (rb_set_color w RB_RED;;
      (if negb (root (mknode d n Red n1 n2) =? NULL) then rb_set_color (root (mknode d n Red n1 n2)) RB_BLACK
       else mret tt);;
      (if d then rotate_right w else rotate_left w);; other_child d a) s Q) as Hbody.
  { apply wp_bind. eapply (wp_set_color d _ _ _ _ Red); [exact Hw|]. intros s1 H1.
    rewrite (plug_near d w) in H1. rewrite root_mknode.
    destruct (Z.eqb_spec n NULL); [by destruct (holds_mknode_ne _ _ _ _ _ _ _ H1)|].
    apply wp_bind. eapply (wp_set_color d _ _ _ _ Black); [exact H1|]. intros s2 H2.
    rewrite <-plug_near in H2.
    apply wp_bind. eapply wp_other_rotate; [exact H2|]. intros s3 H3.
    rewrite <-plug_far in H3. eapply wp_other_child; [exact H3|].
    rewrite root_mknode. by apply HQ. }
  destruct d; simpl.
  - apply wp_bind, Hfar, wp_bind, wp_ret. exact Hbody.
  - apply wp_bind, wp_ret, wp_bind, Hfar. exact Hbody.
Qed.

Lemma wp_erase_case4 d s k a c t w cw wn v cv v1 v2 (Q : unit → rbstate → Prop) :
  holds s0 D s (plug k (mknode d a c t (mknode d w cw wn (mknode d v cv v1 v2)))) →
  (∀ s', holds s0 D s'
           (plug k (mknode d w c (mknode d a Black t wn) (mknode d v Black v1 v2))) → Q tt s') →
  wp (erase_case4 d a w) s Q.
Proof.
  intros H HQ. unfold erase_case4.
  assert (∀ (Q' : rb_node → rbstate → Prop),
    (∀ pc, Q' (mk_node pc (root (if d then wn else mknode d v cv v1 v2))
                 (root (if d then mknode d v cv v1 v2 else wn))) s) → wp (rd w) s Q') as Hrd.
  { intros Q' HQ'. pose proof H as H'. rewrite plug_far in H'.
    destruct d; (eapply wp_rd_node; [exact H'|]); apply HQ'. }
  apply wp_bind, Hrd. intros pc. cbn [left right]. clear Hrd.
  apply wp_bind. rewrite <-(root_mknode d a c t (mknode d w cw wn (mknode d v cv v1 v2))).
  eapply wp_rb_color; [exact H|]. rewrite tcolor_mknode, root_mknode.
  pose proof H as H1. rewrite plug_far in H1.
  apply wp_bind. eapply (wp_set_color d _ _ _ _ c); [exact H1|]. intros s1 H2.
  rewrite <-plug_far in H2.
  apply wp_bind. eapply (wp_set_color d _ _ _ _ Black); [exact H2|]. intros s2 H3.
  rewrite plug_far, plug_far in H3. pose proof (holds_mknode_ne _ _ _ _ _ _ _ H3) as Hv.
  assert (wp (rb_set_color v RB_BLACK;; (if d then rotate_left a else rotate_right a)) s2 Q) as Hbody.
  { apply wp_bind. eapply (wp_set_color d _ _ _ _ Black); [exact H3|]. intros s3 H4.
    rewrite <-!plug_far in H4. eapply wp_rotate; [exact H4|]. exact HQ. }
  apply Z.eqb_neq in Hv. destruct d; simpl; rewrite Hv; exact Hbody.
Qed.

(** ** The loop *)

Definition hd_left k : bool := match k with [] => false | f :: _ => is_FL f end.

(** Between rounds either the subtree at [x] is one black short of what its
    context expects, or painting [x] black completes the tree. *)
Inductive erase_inv : nat → erase_vars → rbstate → Prop :=
| erase_running s k t c h b :
    holds s0 D s (plug k t) → rbt t c h → rbc k b (S h) →
    erase_inv (S (length k)) (root t, cparent k, hd_left k) s
| erase_stopped s k t xp il :
    holds s0 D s (plug k t) → (k = [] ∨ tcolor t = Red) → rb (plug k (blacken t)) →
    erase_inv 0 (root t, xp, il) s.

Definition erase_exit (x : Z) s : Prop :=
  ∃ k t, x = root t ∧ holds s0 D s (plug k t) ∧ rb (plug k (blacken t)).

Lemma rbt_blacken t c h : rbt t c h → rbt (blacken t) Black (match c with Red => S h | Black => h end).
Proof. destruct 1; simpl; eauto with rb. Qed.

Lemma root_plug_cons f k t : root (plug (f :: k) t) ∈ caddrs (f :: k).
Proof.
  revert f t. induction k as [|g k IH]; intros f t.
  - apply caddrs_cons. left. by destruct f.
  - apply caddrs_cons. right. right. apply (IH g (fill f t)).
Qed.

Lemma holds_above_ne_root s f k t :
  holds s0 D s (plug (f :: k) t) → root t ≠ root (plug (f :: k) t).
Proof.
  intros H. pose proof (holds_focus _ _ _ _ _ H) as (_ & _ & _ & _ & Hdis & _ & Hv & _).
  pose proof (root_plug_cons f k t) as Hr. rewrite Forall_forall in Hv.
  destruct t as [|a c l r]; simpl root at 1.
  - intros He. apply (valid_ne _ (Hv _ Hr)). by rewrite <-He.
  - intros He. apply (Hdis a); [set_solver|]. by rewrite He.
Qed.

(** The test of the loop: it goes on exactly below the root at a black node. *)
Lemma wp_erase_test s k t (Q : bool → rbstate → Prop) :
  holds s0 D s (plug k t) →
  Q (match k with [] => false | _ => bool_decide (tcolor t = Black) end) s →
  wp (erase_continue (root t)) s Q.
Proof.
  intros H HQ. unfold erase_continue, get_root. apply wp_bind, wp_bind, wp_get, wp_ret.
  rewrite (repr_root _ _ (holds_repr _ _ _ _ H)). destruct k as [|f k].
  - simpl. rewrite Z.eqb_refl. by apply wp_ret.
  - pose proof (holds_above_ne_root _ _ _ _ H) as Hne.
    apply Z.eqb_neq in Hne. rewrite Hne. by eapply wp_null_or_black.
Qed.

(** Case 2 moves the deficiency up to the parent. *)
Lemma wp_climb d s k a c n f (Q : erase_vars → rbstate → Prop) :
  holds s0 D s (plug k (mknode d a c n f)) → Q (a, cparent k, hd_left k) s →
  wp (xp ← rb_parent a;
      is_left ← (if negb (xp =? NULL) then n ← rd xp; mret (a =? left n) else mret false);
      mret (a, xp, is_left)) s Q.
Proof.
  intros H HQ. assert (∃ l r, mknode d a c n f = Node a c l r) as (l & r & E)
    by (destruct d; by eexists _, _). rewrite E in H.
  apply wp_bind. eapply wp_rb_parent; [exact H|]. destruct k as [|g k]; simpl.
  { by apply wp_bind, wp_ret, wp_ret. }
  destruct (Z.eqb_spec (faddr g) NULL).
  { by destruct (valid_ne _ (holds_cparent_cons _ _ _ _ _ _ H)). }
  apply wp_bind, wp_bind. eapply wp_rd_frame; [exact H|]. simpl root.
  rewrite (focus_child_eqb _ _ _ _ _ _ _ _ _ H). by apply wp_ret, wp_ret.
Qed.

Lemma plug_blacken_red k t b n :
  rbc k b (S n) → rbt (blacken t) Black (S n) → rb (plug k (blacken t)).
Proof. intros Hk Ht. eapply rbc_plug; [done..|by left]. Qed.

(** The tests of the sibling's children. *)
Lemma wp_both_black d s k w cw wn wf (Q : bool → rbstate → Prop) :
  holds s0 D s (plug k (mknode d w cw wn wf)) →
  Q (bool_decide (tcolor wn = Black ∧ tcolor wf = Black)) s →
  wp (andM (null_or_black (root (if d then wn else wf)))
           (null_or_black (root (if d then wf else wn)))) s Q.
Proof.
  intros H HQ. unfold andM. apply wp_bind.
  pose proof H as Hn. rewrite plug_near in Hn. pose proof H as Hf. rewrite plug_far in Hf.
  destruct d.
  - eapply wp_null_or_black; [exact Hn|]. destruct (tcolor wn); [by apply wp_ret|].
    eapply wp_null_or_black; [exact Hf|]. by destruct (tcolor wf).
  - eapply wp_null_or_black; [exact Hf|]. destruct (tcolor wf).
    + apply wp_ret. by destruct (tcolor wn).
    + eapply wp_null_or_black; [exact Hn|]. by destruct (tcolor wn).
Qed.

(** The black sibling has a red child: cases 3 and 4 end the loop. *)
Lemma wp_erase_case34 d s k a c t w wn wf b h (Q : erase_vars → rbstate → Prop) :
  holds s0 D s (plug k (mknode d a c t (mknode d w Black wn wf))) →
  rbt t Black h → rbc (mkframe d a c (mknode d w Black wn wf) :: k) b (S h) →
  ¬ (tcolor wn = Black ∧ tcolor wf = Black) →
  (∀ xp il s' T, holds s0 D s' T → rb T → Q (root T, xp, il) s') →
  wp (w ← erase_case3 d a w (root (if d then wn else wf)) (root (if d then wf else wn));
      erase_case4 d a w;; x ← get_root; mret (x, a, d)) s Q.
Proof.
  intros H Ht Hk Hc HQ.
  destruct (rbc_sibling _ _ _ _ _ _ _ _ _ _ Hk) as
    (co & (_ & ? & cn & cf & [= <-] & Hn & Hf)%rbt_mknode_inv).
  assert (∀ s' T, holds s0 D s' T → rb T → wp (x ← get_root; mret (x, a, d)) s' Q) as Hend.
  { intros s' T HT Hrb. apply wp_bind. unfold get_root. apply wp_bind, wp_get, wp_ret, wp_ret.
    rewrite (repr_root _ _ (holds_repr _ _ _ _ HT)). by apply HQ. }
  apply wp_bind. eapply wp_erase_case3; [exact H|..].
  - intros Hwf. destruct (tree_eta d wf) as [->|(v & cv & v1 & v2 & ->)]; [done|].
    rewrite tcolor_mknode in Hwf. subst cv.
    apply rbt_mknode_inv in Hf as (<- & Hv1 & Hv2).
    apply wp_bind. eapply wp_erase_case4; [exact H|]. intros s' H'.
    eapply Hend; [exact H'|]. eapply rb_refill; [exact Hk|..]; by eapply rbt_mknode_black.
  - intros Hwf. destruct (tree_eta d wn) as [->|(v & cv & v1 & v2 & ->)]; [tauto|].
    rewrite tcolor_mknode in Hc. destruct cv; [|tauto].
    apply rbt_mknode_inv in Hn as (<- & Hv1 & Hv2).
    exists v, v1, v2. split; [done|]. intros s1 H1.
    apply wp_bind. eapply wp_erase_case4; [exact H1|]. intros s' H'.
    eapply Hend; [exact H'|]. eapply rb_refill; [exact Hk|..]; by eapply rbt_mknode_black.
Qed.

(** Cases 2 to 4 with a black sibling: the deficiency is gone, or has moved up
    past a black parent. *)
Lemma wp_erase_case234 d s k a c t w wn wf b h (Q : erase_vars → rbstate → Prop) :
  holds s0 D s (plug (mkframe d a c (mknode d w Black wn wf) :: k) t) →
  rbt t Black h → rbc (mkframe d a c (mknode d w Black wn wf) :: k) b (S h) →
  (∀ n v s', (n ≤ match c with Red => 0 | Black => S (length k) end)%nat →
             erase_inv n v s' → Q v s') →
  wp (erase_case234 d a w) s Q.
Proof.
  intros H Ht Hk HQ. rewrite plug_mkframe in H. pose proof H as Hw. rewrite plug_far in Hw.
  pose proof (holds_mknode_ne _ _ _ _ _ _ _ Hw) as Hne%Z.eqb_neq.
  assert (∀ (sel : rb_node → Z) (Q' : Z → rbstate → Prop),
    (∀ pc, Q' (sel (mk_node pc (root (if d then wn else wf)) (root (if d then wf else wn)))) s) →
    wp (n ← rd w; mret (sel n)) s Q') as Hrd.
  { intros sel Q' HQ'. apply wp_bind.
    destruct d; (eapply wp_rd_node; [exact Hw|]); apply wp_ret, HQ'. }
  unfold erase_case234. rewrite Hne. cbn [negb].
  apply wp_bind, (Hrd left). intros pc. apply wp_bind, (Hrd right). intros pc'.
  cbn [left right]. clear Hrd pc pc'.
  apply wp_bind. eapply wp_both_black; [exact Hw|]. case_bool_decide as Hc.
  - destruct Hc as [Hcn Hcf].
    destruct (rbc_sibling _ _ _ _ _ _ _ _ _ _ Hk) as
      (co & (_ & ? & cn & cf & [= <-] & Hn & Hf)%rbt_mknode_inv).
    rewrite (rbt_tcolor _ _ _ Hn) in Hcn. rewrite (rbt_tcolor _ _ _ Hf) in Hcf. subst cn cf.
    apply wp_bind. eapply (wp_set_color d _ _ _ _ Red); [exact Hw|]. intros s' H'.
    rewrite <-plug_far in H'. eapply wp_climb; [exact H'|].
    apply rbc_mkframe_inv in Hk. destruct c.
    + eapply (HQ 0%nat); [lia|].
      rewrite <-(root_mknode d a Red t (mknode d w Red wn wf)) at 1.
      eapply erase_stopped; [exact H'|right; apply tcolor_mknode|].
      destruct Hk as [_ Hk]. eapply plug_blacken_red; [exact Hk|].
      destruct d; simpl; eauto with rb.
    + destruct Hk as (_ & b' & _ & Hk). eapply (HQ (S (length k))); [lia|].
      rewrite <-(root_mknode d a Black t (mknode d w Red wn wf)) at 1.
      eapply erase_running; [exact H'| |exact Hk]. eapply rbt_mknode_black; [exact Ht|].
      by apply rbt_mknode_red.
  - eapply wp_erase_case34; [exact H|exact Ht|exact Hk|done|].
    intros xp il s' T HT [n Hn]. eapply (HQ 0%nat); [lia|].
    eapply (erase_stopped s' []); [exact HT|by left|].
    exists n. by apply (rbt_blacken T Black n).
Qed.

Lemma wp_erase_round n v s :
  erase_inv n v s →
  wp (erase_round v) s (λ r s', match r with
    | inl v' => ∃ n', (n' < n)%nat ∧ erase_inv n' v' s'
    | inr x => erase_exit x s'
    end).
Proof.
  destruct 1 as [s k t c h b H Ht Hk|s k t xp il H Hstop Hrb]; unfold erase_round; apply wp_bind.
  all: eapply wp_erase_test; [exact H|].
  2: { destruct k; [|destruct Hstop as [?| ->]; [done|]]; by apply wp_ret; eexists _, _. }
  destruct k as [|f k].
  { apply wp_ret. exists [], t. split_and!; [done..|]. eexists. by eapply rbt_blacken. }
  rewrite (rbt_tcolor _ _ _ Ht). destruct c; simpl.
  { apply wp_ret. exists (f :: k), t. split_and!; [done..|].
    eapply rbc_plug; [exact Hk|by apply (rbt_blacken t Red)|by left]. }
  rewrite (frame_eta f) in H, Hk. revert H Hk.
  generalize (is_FL f) as d, (faddr f) as a, (fcolor f) as c, (fother f) as o.
  intros d a c o H Hk. rewrite plug_mkframe in H.
  apply wp_bind. eapply wp_other_child; [exact H|].
  pose proof (rbc_mkframe_inv _ _ _ _ _ _ _ Hk) as Hinv.
  destruct (tree_eta d o) as [->|(w & cw & wn & wf & ->)].
  { destruct c; [destruct Hinv as [Hinv _]|destruct Hinv as (? & ? & Hinv & _)]; inversion Hinv. }
  rewrite root_mknode. apply wp_bind. eapply wp_erase_case1; [exact H|..].
  - intros ->. rewrite <-plug_mkframe in H. apply wp_bind.
    eapply wp_erase_case234; [exact H|done|exact Hk|]. intros n v s' Hn Hv. apply wp_ret.
    exists n. split; [destruct c; lia|done].
  - intros -> s1 H1. destruct c.
    { destruct Hinv as [(? & _)%rbt_mknode_inv _]. done. }
    destruct Hinv as (co & b' & (<- & Hwn & Hwf)%rbt_mknode_inv & Hk').
    destruct (tree_eta d wn) as [->|(z & cz & zn & zf & ->)]; [inversion Hwn|].
    pose proof (rbt_mknode_inv _ _ _ _ _ _ _ Hwn) as [-> _].
    rewrite root_mknode. rewrite <-plug_mkframe in H1. apply wp_bind.
    eapply wp_erase_case234; [exact H1|done| |].
    + apply rbc_red; [by destruct d|by destruct d|].
      eapply rbc_black; [by destruct d|destruct d; exact Hwf|exact Hk'].
    + intros n v s' Hn Hv. apply wp_ret. exists n. split; [|done].
      simpl in *. lia.
Qed.

Lemma wp_erase_rebalance s k t c h b (Q : unit → rbstate → Prop) :
  holds s0 D s (plug k t) → rbt t c h → rbc k b (S h) →
  (∀ s' T', holds s0 D s' T' → rb T' → Q tt s') →
  wp (erase_rebalance (root t) (cparent k) (hd_left k)) s Q.
Proof.
  intros H Ht Hk HQ. unfold erase_rebalance, walk_fuel.
  apply wp_bind, wp_bind, wp_get, wp_ret, wp_bind.
  eapply (wp_loop erase_inv); [intros; eapply wp_mono; [by eapply wp_erase_round|]|..].
  - intros [v'|x] s'; [done|]. intros (k' & t' & -> & H' & Hrb).
    destruct t' as [|a' c' l' r']; simpl; [apply wp_ret; by eapply HQ|].
    destruct (Z.eqb_spec a' NULL); [by destruct (holds_mknode_ne true _ _ _ _ _ _ H')|].
    eapply (wp_rb_set_color _ _ _ _ _ _ Black); [exact H'|]. intros s'' H''. by eapply HQ.
  - by eapply erase_running.
  - pose proof (holds_repr _ _ _ _ H) as Hs%repr_size. pose proof (length_ctx_plug k t). lia.
Qed.
End rebalance.
