(* ===== verification/RbDelete.v ===== *)
(** * Red-black trees: unlinking a node

    [rb_swap] and [rb_erase] of libk/ds/rbtree.c: the victim is spliced out of
    the tree's shape, takes the place of the node to remove when that had two
    children, and the tree is rebalanced. *)

From stdpp Require Import base list gmap.
From Stdlib Require Import ZArith Lia Bool.
From S2P Require Import Prelude RbModel RbTree RbRepr RbRotate RbInsert RbWalk RbErase.
Local Open Scope Z_scope.

(** The tree that replaces a node with at most one child. *)
Definition only_child (l r : tree) : tree := match l with Leaf => r | _ => l end.

Lemma inorder_only_child l r : l = Leaf ∨ r = Leaf → inorder (only_child l r) = inorder l ++ inorder r.
Proof. intros [->| ->]; [done|]. rewrite app_nil_r. by destruct l. Qed.

Lemma root_only_child l r :
  Forall valid (inorder l) →
  (if negb (root l =? NULL) then root l else root r) = root (only_child l r).
Proof.
  destruct l as [|a c ll lr]; simpl; [done|]. rewrite Forall_forall. intros Hv.
  destruct (Z.eqb_spec a NULL) as [->|]; [|done].
  destruct (valid_ne 0); [apply Hv; set_solver|done].
Qed.

(** The first half: the child is given the victim's parent. *)
Lemma wp_adopt s y n b p (Q : Z → rbstate → Prop) :
  nodes s !! y = Some n → valid y → rb_mask_parent (parent_color n) = p → valid_ptr p →
  rep (nodes s) y b → Forall valid (inorder b) → NoDup (inorder b) → y ∉ inorder b →
  (∀ s', rep (nodes s') p b → (∀ a, a ∉ inorder b → nodes s' !! a = nodes s !! a) →
         tr s' = tr s → Q p s') →
  wp (if negb (root b =? NULL) then p ← rb_parent y; rb_set_parent (root b) p;; rb_parent (root b)
      else rb_parent y) s Q.
Proof.
  intros Hy Hvy Hp Hvp Hrep Hval Hnd Hyb HQ. pose proof (valid_ne _ Hvy) as Hne.
  assert (wp (if negb (root b =? NULL) then rb_set_parent (root b) p else mret tt) s
    (λ _ s', rep (nodes s') p b ∧ (∀ a, a ∉ inorder b → nodes s' !! a = nodes s !! a) ∧ tr s' = tr s)) as Hre.
  { eapply (wp_reparent s y); [done|by right|done..|]. by intros. }
  destruct (negb (root b =? NULL)) eqn:Hb.
  - apply wp_bind. eapply wp_rb_parent_raw; [done..|]. rewrite Hp.
    apply wp_bind. eapply wp_mono; [exact Hre|]. intros _ s' (Hr & Hf & Ht).
    destruct b as [|b c l r]; [done|]. simpl in *. destruct (Hr) as (Hb' & _).
    eapply wp_rb_parent_raw; [exact Hb'|by destruct (Z.eqb_spec b NULL)|].
    simpl. rewrite mask_parent_pack by done. by apply HQ.
  - eapply wp_rb_parent_raw; [done..|]. rewrite Hp. destruct Hre as (? & ? & ?). by apply HQ.
Qed.

(** Another tree in the hole of a context. *)
Lemma repr_replace s s' k t b ml :
  repr s (plug k t) →
  NoDup (inorder b) → Forall valid (inorder b) → (∀ a, a ∈ inorder b → a ∉ caddrs k) →
  rep (nodes s') (cparent k) b → repc (nodes s') k (root b) →
  tr s' = mk_tree (new_root k (root b) (tree_root (tr s))) ml →
  repr s' (plug k b).
Proof.
  intros H Hnd Hval Hdis Hb Hk Htr.
  pose proof (holds_focus _ _ _ _ _ (holds_start _ _ H)) as (_ & _ & _ & Hnk & _ & _ & Hvk & _).
  split.
  - by apply rep_plug.
  - rewrite plug_perm, NoDup_app. auto.
  - rewrite plug_perm, Forall_app. auto.
  - rewrite Htr, (repr_root _ _ H). simpl. apply new_root_plug.
Qed.

(** The second half: the link to the victim is redirected. *)
Lemma wp_unlink s k y x (Q : erase_vars → rbstate → Prop) :
  repc (nodes s) k y → valid y → y ∉ caddrs k → Forall valid (caddrs k) → NoDup (caddrs k) →
  (∀ s', repc (nodes s') k x → (∀ a, a ∉ caddrs k → nodes s' !! a = nodes s !! a) →
         tr s' = mk_tree (new_root k x (tree_root (tr s))) (most_left (tr s)) →
         Q (x, cparent k, hd_left k) s') →
  wp (if cparent k =? NULL then modify (upd_root x);; mret (x, NULL, false)
      else np ← rd (cparent k);
           if y =? left np then wr (cparent k) (set_left x);; mret (x, cparent k, true)
           else wr (cparent k) (set_right x);; mret (x, cparent k, false)) s Q.
Proof.
  intros Hk Hvy Hyk Hval Hnd HQ. destruct k as [|f k]; cbn [cparent].
  { simpl. apply wp_bind, wp_modify, wp_ret. by apply HQ. }
  assert (faddr f ≠ NULL) as Hf.
  { rewrite Forall_forall in Hval. apply valid_ne, Hval, caddrs_cons. auto. }
  apply Z.eqb_neq in Hf as Hf'. rewrite Hf'.
  apply wp_bind. eapply wp_rd; [by destruct Hk|done|].
  assert (∀ g il, g (fnode f (cparent k) y) = fnode f (cparent k) x → il = is_FL f →
    wp (wr (faddr f) g;; mret (x, faddr f, il)) s Q) as Hwr.
  { intros g il Hg ->. apply wp_bind. eapply wp_wr_hole; [done..|]. intros s' ? ? Htr.
    apply wp_ret, HQ; [done..|]. rewrite Htr. by destruct (tr s). }
  pose proof (hole_ne_other _ _ _ Hvy Hyk) as Hne.
  destruct f as [a c r|a c l]; simpl in *.
  - rewrite Z.eqb_refl. by apply Hwr.
  - destruct (Z.eqb_spec y (root l)); [done|]. by apply Hwr.
Qed.

Lemma wp_erase_splice s k y c l r (Q : erase_vars → rbstate → Prop) :
  repr s (plug k (Node y c l r)) → l = Leaf ∨ r = Leaf →
  (∀ s', repr s' (plug k (only_child l r)) →
         (∀ a, a ∉ inorder (plug k (only_child l r)) → nodes s' !! a = nodes s !! a) →
         most_left (tr s') = most_left (tr s) →
         Q (root (only_child l r), cparent k, hd_left k) s') →
  wp (erase_splice y) s Q.
Proof.
  intros H Hlr HQ. pose proof (repr_node _ _ _ _ _ _ H) as (Hy & Hvy & Hvp).
  pose proof (holds_focus _ _ _ _ _ (holds_start _ _ H)) as
    ((_ & Hl & Hr) & Hk & Hnt & Hnk & Hdis & Hvt & Hvk & _).
  unfold erase_splice. apply wp_bind. eapply wp_rd; [done|by apply valid_ne|].
  cbn [left right parent_color].
  assert (∀ a, a ∈ inorder (only_child l r) → a ∈ inorder (Node y c l r)) as Hsub.
  { intros a. rewrite (inorder_only_child _ _ Hlr). simpl. set_solver. }
  rewrite root_only_child by (simpl in Hvt; by apply Forall_app in Hvt as [? _]).
  assert (y ∉ caddrs k) as Hyk by (apply Hdis; simpl; set_solver).
  split_nodup. set (b := only_child l r) in *.
  assert (rep (nodes s) y b ∧ NoDup (inorder b) ∧ (y ∉ inorder b)) as (Hrb & Hndb & Hyb)
    by (subst b; by destruct l).
  assert (Forall valid (inorder b)) as Hvb.
  { rewrite Forall_forall in Hvt |- *. auto. }
  apply wp_bind. eapply (wp_adopt s y _ b (cparent k)); try done.
  { simpl. by apply mask_parent_pack. }
  intros s1 Hrb1 Hf1 Htr1.
  apply wp_bind. eapply wp_rb_parent_raw; [by rewrite Hf1|by apply valid_ne|].
  simpl parent_color. rewrite mask_parent_pack by done.
  apply wp_unlink; [|done..|].
  { eapply repc_frame; [|exact Hk]. intros a Ha. apply Hf1. intros Hin. by apply (Hdis a); auto. }
  intros s2 Hk2 Hf2 Htr2. apply HQ.
  - eapply repr_replace; [exact H|done..|auto| |done|by rewrite Htr2, Htr1].
    eapply rep_frame; [|exact Hrb1]. auto.
  - intros a. rewrite elem_plug. intros Ha. rewrite Hf2, Hf1; tauto.
  - by rewrite Htr2, Htr1.
Qed.

(** ** [rb_swap] *)

(** [rb_set_parent] then [rb_set_color] on a fresh parent word. *)
Lemma set_color_word p w c :
  valid_ptr p →
  (if cz c =? RB_BLACK then Z.lor (Z.lor p (rb_mask_color w)) 1
   else Z.land (Z.lor p (rb_mask_color w)) (2 ^ 64 - 2)) = pack p c.
Proof.
  intros Hp. destruct c; simpl; [by apply link_red_word|].
  unfold pack, rb_mask_color, RB_COLOR_MASK. rewrite <-Z.lor_assoc. f_equal.
  apply Z.bits_inj'. intros i Hi. rewrite Z.lor_spec, Z.land_spec.
  change (cz Black) with 1. by destruct (Z.testbit w i), (Z.testbit 1 i).
Qed.

Section swap.
Context (k : ctx) (x y : Z) (l r : tree) (s0 : rbstate).
Context (Hnl : NoDup (inorder l)) (Hnr : NoDup (inorder r)) (Hnk : NoDup (caddrs k)).
Context (Hvl : Forall valid (inorder l)) (Hvr : Forall valid (inorder r)) (Hvk : Forall valid (caddrs k)).
Context (Hlr : ∀ a, a ∈ inorder l → a ∉ inorder r) (Hlk : ∀ a, a ∈ inorder l → a ∉ caddrs k).
Context (Hrk : ∀ a, a ∈ inorder r → a ∉ caddrs k).
Context (Hx : x ≠ y ∧ (x ∉ inorder l) ∧ (x ∉ inorder r) ∧ (x ∉ caddrs k)).
Context (Hy : (y ∉ inorder l) ∧ (y ∉ inorder r) ∧ (y ∉ caddrs k)).
Context (Hvx : valid x) (Hvy : valid y).

(** The parts of the heap [rb_swap] works on: both nodes, the children of [x]
    with the parents they point to, and the node the context links to. *)
Record swap_st (s : rbstate) (nx ny : rb_node) (pl pr up : Z) (t : rbtree) : Prop := {
  sw_x : nodes s !! x = Some nx;
  sw_y : nodes s !! y = Some ny;
  sw_l : rep (nodes s) pl l;
  sw_r : rep (nodes s) pr r;
  sw_k : repc (nodes s) k up;
  sw_t : tr s = t;
  sw_f : ∀ a, a ≠ x → a ≠ y → a ∉ inorder l → a ∉ inorder r → a ∉ caddrs k →
         nodes s !! a = nodes s0 !! a;
}.

Lemma sw_set_x s nx ny pl pr up t nx' :
  swap_st s nx ny pl pr up t → swap_st (upd_nodes <[x := nx']> s) nx' ny pl pr up t.
Proof using Hx.
  destruct Hx as (Hxy & ? & ? & ?). intros [??????]. split; simpl; try done.
  - apply lookup_insert_eq.
  - by rewrite lookup_insert_ne.
  - by apply rep_insert_ne.
  - by apply rep_insert_ne.
  - by apply repc_insert_ne.
  - intros a ??. rewrite lookup_insert_ne by done. auto.
Qed.

Lemma sw_set_y s nx ny pl pr up t ny' :
  swap_st s nx ny pl pr up t → swap_st (upd_nodes <[y := ny']> s) nx ny' pl pr up t.
Proof using Hx Hy.
  destruct Hx as (Hxy & _), Hy as (? & ? & ?). intros [??????]. split; simpl; try done.
  - by rewrite lookup_insert_ne.
  - apply lookup_insert_eq.
  - by apply rep_insert_ne.
  - by apply rep_insert_ne.
  - by apply repc_insert_ne.
  - intros a ??. rewrite lookup_insert_ne by done. auto.
Qed.

Lemma sw_change s s' (P : Z → Prop) nx ny pl pr up pl' pr' up' t t' :
  swap_st s nx ny pl pr up t →
  (∀ a, ¬ P a → nodes s' !! a = nodes s !! a) →
  (∀ a, P a → a ∈ inorder l ∨ a ∈ inorder r ∨ a ∈ caddrs k) →
  rep (nodes s') pl' l → rep (nodes s') pr' r → repc (nodes s') k up' → tr s' = t' →
  swap_st s' nx ny pl' pr' up' t'.
Proof using Hx Hy.
  intros [??????] Hf HP ????. split; try done.
  - rewrite Hf; [done|]. intros Hin%HP. tauto.
  - rewrite Hf; [done|]. intros Hin%HP. tauto.
  - intros a ?????. rewrite Hf; [auto|]. intros Hin%HP. tauto.
Qed.

Lemma wp_sw_right s nx ny pl pr up t (Q : unit → rbstate → Prop) :
  swap_st s nx ny pl pr up t → valid_ptr pr →
  (∀ s', swap_st s' nx ny pl y up t → Q tt s') →
  wp (if negb (root r =? NULL) then rb_set_parent (root r) y else mret tt) s Q.
Proof using Hnr Hvr Hlr Hrk Hx Hy.
  intros H Hp HQ. eapply (wp_reparent s pr y r); [apply H|done..|].
  intros s' Hr' Hf' Ht'. apply HQ. eapply (sw_change s s' (λ a, a ∈ inorder r)); [done..|auto| |done| |].
  - eapply rep_frame; [|apply H]. intros a Ha. by apply Hf', Hlr.
  - eapply repc_frame; [|apply H]. intros a Ha. apply Hf'. intros Hin. by apply (Hrk a).
  - rewrite Ht'. apply H.
Qed.

Lemma wp_sw_left s nx ny pl pr up t (Q : unit → rbstate → Prop) :
  swap_st s nx ny pl pr up t → valid_ptr pl →
  (∀ s', swap_st s' nx ny y pr up t → Q tt s') →
  wp (if negb (root l =? NULL) then rb_set_parent (root l) y else mret tt) s Q.
Proof using Hnl Hvl Hlr Hlk Hx Hy.
  intros H Hp HQ. eapply (wp_reparent s pl y l); [apply H|done..|].
  intros s' Hr' Hf' Ht'. apply HQ. eapply (sw_change s s' (λ a, a ∈ inorder l)); [done..|auto|done| | |].
  - eapply rep_frame; [|apply H]. intros a Ha. apply Hf'. intros Hin. by apply (Hlr a).
  - eapply repc_frame; [|apply H]. intros a Ha. apply Hf'. intros Hin. by apply (Hlk a).
  - rewrite Ht'. apply H.
Qed.

(** The link or root pointer to [x] is redirected to [y]. *)
Lemma wp_sw_up s nx ny pl pr t (Q : unit → rbstate → Prop) :
  swap_st s nx ny pl pr x t → (k = [] → tree_root t = x) →
  (∀ s', swap_st s' nx ny pl pr y (mk_tree (new_root k y (tree_root t)) (most_left t)) → Q tt s') →
  wp (if negb (cparent k =? NULL) then
        np ← rd (cparent k);
        if left np =? x then wr (cparent k) (set_left y) else wr (cparent k) (set_right y)
      else r ← get_root; if r =? x then modify (upd_root y) else mret tt) s Q.
Proof using Hnk Hvk Hlk Hrk Hx Hy Hvx.
  intros H Hroot HQ.
  assert (∀ s', repc (nodes s') k y → (∀ a, a ∉ caddrs k → nodes s' !! a = nodes s !! a) →
    tr s' = mk_tree (new_root k y (tree_root t)) (most_left t) → Q tt s') as Hend.
  { intros s' Hk' Hf' Ht'. apply HQ.
    eapply (sw_change s s' (λ a, a ∈ caddrs k)); [done..|auto| | |done|done].
    - eapply rep_frame; [|apply H]. auto.
    - eapply rep_frame; [|apply H]. auto. }
  pose proof (sw_t _ _ _ _ _ _ _ H) as Ht. pose proof (sw_k _ _ _ _ _ _ _ H) as Hk.
  destruct k as [|f k']; cbn [cparent].
  { simpl. unfold get_root. apply wp_bind, wp_bind, wp_get, wp_ret.
    rewrite Ht, (Hroot eq_refl), Z.eqb_refl. apply wp_modify, Hend; [done..|]. by rewrite <-Ht. }
  assert (faddr f ≠ NULL) as Hf.
  { pose proof Hvk as Hv. rewrite Forall_forall in Hv. apply valid_ne, Hv, caddrs_cons. auto. }
  apply Z.eqb_neq in Hf as Hf'. rewrite Hf'. apply wp_bind. eapply wp_rd; [by destruct Hk|done|].
  assert (∀ g, g (fnode f (cparent k') x) = fnode f (cparent k') y →
    wp (wr (faddr f) g) s Q) as Hwr.
  { intros g Hg. eapply wp_wr_hole; [done..|]. intros s' ? ? Htr. apply Hend; [done..|].
    rewrite Htr, Ht. by destruct t. }
  pose proof (hole_ne_other x f k' Hvx ltac:(tauto)) as Hne.
  destruct f as [a c o|a c o]; simpl in *.
  - rewrite Z.eqb_refl. by apply Hwr.
  - destruct (Z.eqb_spec (root o) x); [done|]. by apply Hwr.
Qed.

Lemma wp_sw_wr_x s nx ny pl pr up t f (Q : unit → rbstate → Prop) :
  swap_st s nx ny pl pr up t → (∀ s', swap_st s' (f nx) ny pl pr up t → Q tt s') →
  wp (wr x f) s Q.
Proof using Hx Hvx.
  intros H HQ. eapply wp_wr; [apply H|by apply valid_ne|]. by eapply HQ, sw_set_x.
Qed.

Lemma wp_sw_wr_y s nx ny pl pr up t f (Q : unit → rbstate → Prop) :
  swap_st s nx ny pl pr up t → (∀ s', swap_st s' nx (f ny) pl pr up t → Q tt s') →
  wp (wr y f) s Q.
Proof using Hx Hy Hvy.
  intros H HQ. eapply wp_wr; [apply H|by apply valid_ne|]. by eapply HQ, sw_set_y.
Qed.

(** The whole sequence, from the heap in which [x] is in the tree. *)
Lemma wp_rb_swap_st s c ny t (Q : unit → rbstate → Prop) :
  valid_ptr (cparent k) → (k = [] → tree_root t = x) →
  swap_st s (mk_node (pack (cparent k) c) (root l) (root r)) ny x x x t →
  (∀ s' nx', swap_st s' nx' (mk_node (pack (cparent k) c) (root l) (root r)) y y y
          (mk_tree (new_root k y (tree_root t)) (most_left t)) → Q tt s') →
  wp (rb_swap x y) s Q.
Proof using All.
  intros Hpk Hroot H HQ. pose proof (valid_ne _ Hvx) as Hx0. pose proof (valid_ne _ Hvy) as Hy0.
  assert (valid_ptr x) as Hpx by by right.
  unfold rb_swap. apply wp_bind. eapply wp_rd; [apply H|done|].
  apply wp_bind. eapply wp_rb_parent_raw; [apply H|done|]. cbn [parent_color left right].
  rewrite mask_parent_pack by done.
  apply wp_bind. eapply wp_rb_set_parent_raw; [apply H|done|].
  apply (sw_set_y _ _ _ _ _ _ _
    (set_pc (Z.lor (cparent k) (rb_mask_color (parent_color ny))) ny)) in H.
  apply wp_bind. eapply wp_sw_up; [exact H|done|]. clear s H. intros s H.
  apply wp_bind. eapply wp_sw_wr_y; [exact H|]. clear s H. intros s H.
  apply wp_bind. eapply wp_sw_right; [exact H|done|]. clear s H. intros s H.
  apply wp_bind. eapply wp_sw_wr_x; [exact H|]. clear s H. intros s H.
  apply wp_bind. eapply wp_sw_wr_y; [exact H|]. clear s H. intros s H.
  apply wp_bind. eapply wp_sw_left; [exact H|done|]. clear s H. intros s H.
  apply wp_bind. eapply wp_sw_wr_x; [exact H|]. clear s H. intros s H.
  apply wp_bind. unfold rb_color. apply Z.eqb_neq in Hx0 as ->.
  apply wp_bind. eapply wp_rd; [apply H|by apply valid_ne|]. apply wp_ret.
  unfold set_left, set_right, set_pc in H |- *. cbn [parent_color left right] in H |- *.
  rewrite mask_color_pack by done.
  apply wp_bind. eapply (wp_mono _ _ (λ _ s', swap_st s' _ _ y y y _)).
  { pose proof (set_color_word (cparent k) (parent_color ny) c Hpk) as Hw.
    unfold rb_set_color. destruct c; (eapply wp_sw_wr_y; [exact H|]); intros s' H';
      unfold set_pc in H'; cbn [parent_color left right] in H'; simpl in Hw; rewrite Hw in H'; exact H'. }
  clear s H. intros _ s H. eapply wp_rb_set_parent_raw; [apply H|by apply valid_ne|].
  eapply HQ, sw_set_x, H.
Qed.
End swap.

Lemma elem_node b a c l r : b ∈ inorder (Node a c l r) ↔ b ∈ inorder l ∨ b = a ∨ b ∈ inorder r.
Proof. simpl. by rewrite elem_of_app, elem_of_cons. Qed.

Lemma wp_rb_swap s k x y c l r ny (Q : unit → rbstate → Prop) :
  repr s (plug k (Node x c l r)) → nodes s !! y = Some ny → valid y →
  y ∉ inorder (plug k (Node x c l r)) →
  (∀ s', repr s' (plug k (Node y c l r)) →
         (∀ a, a ≠ x → a ∉ inorder (plug k (Node y c l r)) → nodes s' !! a = nodes s !! a) →
         is_Some (nodes s' !! x) → most_left (tr s') = most_left (tr s) → Q tt s') →
  wp (rb_swap x y) s Q.
Proof.
  intros H Hy Hvy Hyn HQ. pose proof (repr_node _ _ _ _ _ _ H) as (Hx & Hvx & Hpk).
  pose proof (holds_focus _ _ _ _ _ (holds_start _ _ H)) as
    ((_ & Hl & Hr) & Hk & Hnt & Hnk & Hdis & Hvt & Hvk & _).
  pose proof (NoDup_node _ _ _ _ Hnt) as (Hxl & Hxr & Hnl & Hnr & Hlr).
  simpl in Hvt. rewrite Forall_app, Forall_cons in Hvt. destruct Hvt as (Hvl & _ & Hvr).
  rewrite elem_plug, elem_node in Hyn. setoid_rewrite elem_node in Hdis.
  assert (∀ a, a ∈ inorder l → a ∉ caddrs k) as Hlk by (intros; apply Hdis; auto).
  assert (∀ a, a ∈ inorder r → a ∉ caddrs k) as Hrk by (intros; apply Hdis; auto).
  assert (x ∉ caddrs k) as Hxk by (apply Hdis; auto).
  apply (wp_rb_swap_st k x y l r s) with (c := c) (ny := ny) (t := tr s); try done; try tauto.
  - naive_solver.
  - intros ->. apply (repr_root _ _ H).
  - intros s' nx' [? Hy' Hl' Hr' Hk' Ht' Hf']. apply HQ; [..|by eexists|by rewrite Ht'].
    + eapply repr_replace; [exact H|..|exact Ht']; simpl; try done.
      * rewrite NoDup_app, NoDup_cons. setoid_rewrite not_elem_of_cons. naive_solver.
      * rewrite Forall_app, Forall_cons. done.
      * intros a. rewrite elem_of_app, elem_of_cons. naive_solver.
    + intros a Hax. rewrite elem_plug, elem_node. intros Ha.
      apply Hf'; tauto.
Qed.

(** ** [rb_erase] *)

Lemma rbc_relabel j f f' k b n :
  fcolor f = fcolor f' → fother f = fother f' →
  rbc (j ++ f :: k) b n → rbc (j ++ f' :: k) b n.
Proof.
  intros Hc Ho. revert b n. induction j as [|g j IH]; simpl; intros b n; inversion 1; subst.
  - apply rbc_red; congruence.
  - eapply rbc_black; [congruence|rewrite <-Ho; done|done].
  - apply rbc_red; eauto.
  - eapply rbc_black; eauto.
Qed.

(** What is left once a black or red victim is gone. *)
Inductive spliced (c : color) (k : ctx) (t : tree) : Prop :=
| spliced_red b h : c = Red → rbc k b h → rbt t Black h → spliced c k t
| spliced_black b h ct : c = Black → rbc k b (S h) → rbt t ct h → spliced c k t.

Lemma spliced_relabel c j f f' k t :
  fcolor f = fcolor f' → fother f = fother f' →
  spliced c (j ++ f :: k) t → spliced c (j ++ f' :: k) t.
Proof.
  intros Hc Ho [b h -> Hk Ht|b h ct -> Hk Ht].
  - eapply spliced_red; [done|by eapply rbc_relabel|done].
  - eapply spliced_black; [done|by eapply rbc_relabel|done].
Qed.

Lemma rb_spliced k y c l r :
  rb (plug k (Node y c l r)) → l = Leaf ∨ r = Leaf → spliced c k (only_child l r).
Proof.
  intros (b & cc & n & Hk & Ht & _)%rb_focus Hlr. inversion Ht; subst.
  - eapply spliced_red; [done..|]. by destruct l.
  - destruct l; (eapply spliced_black; [done..|]); done.
Qed.

(** The end of [rb_erase]: rebalancing, and clearing the removed node. *)
Definition erase_finish (node y_color x xp : Z) (is_left : bool) : M rbstate unit :=
  (if y_color =? RB_BLACK then erase_rebalance x xp is_left else mret tt);;
  wr node (set_left NULL);;
  wr node (set_right NULL);;
  rb_set_parent node NULL.

(** A node that is in no tree. *)
Definition cleared (s : rbstate) (node : Z) : Prop :=
  ∃ n, nodes s !! node = Some n ∧ rb_mask_parent (parent_color n) = NULL ∧
       left n = NULL ∧ right n = NULL.

Definition erase_post (s : rbstate) (node : Z) (D : list Z) (s' : rbstate) : Prop :=
  ∃ T', repr s' T' ∧ rb T' ∧ inorder T' = D ∧ cleared s' node ∧
    (∀ a, a ≠ node → a ∉ D → nodes s' !! a = nodes s !! a) ∧
    most_left (tr s') = most_left (tr s).

Lemma repr_outside s s' T :
  repr s T → (∀ a, a ∈ inorder T → nodes s' !! a = nodes s !! a) →
  tree_root (tr s') = tree_root (tr s) → repr s' T.
Proof.
  intros [] Hf Hr. split; try done; [|by rewrite Hr]. by eapply rep_frame.
Qed.

Lemma wp_clear s node n (Q : unit → rbstate → Prop) :
  nodes s !! node = Some n → node ≠ NULL →
  (∀ s', (∀ a, a ≠ node → nodes s' !! a = nodes s !! a) → tr s' = tr s → cleared s' node → Q tt s') →
  wp (wr node (set_left NULL);; wr node (set_right NULL);; rb_set_parent node NULL) s Q.
Proof.
  intros Hn Hne HQ. apply wp_bind. eapply wp_wr; [done..|].
  apply wp_bind. eapply wp_wr; [apply lookup_insert_eq|done|].
  eapply wp_rb_set_parent_raw; [apply lookup_insert_eq|done|]. apply HQ; simpl; [|done|].
  - intros a Ha. by rewrite !lookup_insert_ne.
  - eexists. split; [apply lookup_insert_eq|]. split; [|done].
    cbn [parent_color set_pc set_left set_right]. rewrite Z.lor_0_l.
    unfold rb_mask_parent, rb_mask_color, RB_COLOR_MASK. rewrite <-Z.land_assoc. change (Z.land 1 RB_PARENT_MASK) with 0. apply Z.land_0_r.
Qed.

(** From the spliced tree to the end. *)
Lemma wp_erase_finish s node c k t n (Q : unit → rbstate → Prop) :
  repr s (plug k t) → spliced c k t →
  nodes s !! node = Some n → node ≠ NULL → node ∉ inorder (plug k t) →
  (∀ s', erase_post s node (inorder (plug k t)) s' → Q tt s') →
  wp (erase_finish node (cz c) (root t) (cparent k) (hd_left k)) s Q.
Proof.
  intros H Hsp Hn Hne Hnin HQ. unfold erase_finish.
  assert (wp (if cz c =? RB_BLACK then erase_rebalance (root t) (cparent k) (hd_left k) else mret tt) s
    (λ _ s', ∃ T', holds s (inorder (plug k t)) s' T' ∧ rb T')) as Hre.
  { destruct Hsp as [b h -> Hk Ht|b h ct -> Hk Ht]; simpl.
    - apply wp_ret. exists (plug k t). split; [by apply holds_start|].
      eapply rbc_plug; [done..|by left].
    - eapply wp_erase_rebalance; [by apply holds_start|done..|]. intros. eauto. }
  apply wp_bind. eapply wp_mono; [exact Hre|]. intros _ s1 (T' & [H1 Hin [Hf1 Hm1]] & Hrb).
  eapply wp_clear; [by rewrite Hf1|done|]. intros s2 Hf2 Htr Hcl. apply HQ.
  exists T'. split_and!; try done.
  - eapply repr_outside; [exact H1| |by rewrite Htr]. intros a Ha. apply Hf2. intros ->.
    apply Hnin. by rewrite <-Hin.
  - intros a ? ?. by rewrite Hf2, Hf1.
  - by rewrite Htr.
Qed.

(** The removal proper, after the cached leftmost node has been updated. *)
Definition erase_body (node : Z) : M rbstate unit :=
  y ← erase_victim node;
  '(x, xp, is_left) ← erase_splice y;
  y_color ← rb_color y;
  xp ← (if negb (y =? node) then
          rb_swap node y;; mret (if xp =? node then y else xp)
        else mret xp);
  erase_finish node y_color x xp is_left.

Lemma wp_rb_color_raw s p c pp l r (Q : Z → rbstate → Prop) :
  nodes s !! p = Some (mk_node (pack pp c) l r) → valid p → valid_ptr pp →
  Q (cz c) s → wp (rb_color p) s Q.
Proof.
  intros Hp Hv Hpp HQ. unfold rb_color. destruct (Z.eqb_spec p NULL); [by destruct (valid_ne p)|].
  apply wp_bind. eapply wp_rd; [done..|]. apply wp_ret. simpl. by rewrite mask_color_pack.
Qed.

(** A node with at most one child is its own victim. *)
Lemma wp_erase_one s k node c l r (Q : unit → rbstate → Prop) :
  repr s (plug k (Node node c l r)) → rb (plug k (Node node c l r)) → l = Leaf ∨ r = Leaf →
  (∀ s', erase_post s node (inorder (plug k (only_child l r))) s' → Q tt s') →
  wp ('(x, xp, is_left) ← erase_splice node;
      y_color ← rb_color node;
      erase_finish node y_color x xp is_left) s Q.
Proof.
  intros H Hrb Hlr HQ. pose proof (repr_node _ _ _ _ _ _ H) as (Hx & Hvx & Hpk).
  pose proof (valid_ne _ Hvx) as Hne.
  assert (node ∉ inorder (plug k (only_child l r))) as Hnin.
  { pose proof (repr_nodup _ _ H) as Hnd. apply NoDup_plug in Hnd as (Hnd & _ & Hdis).
    apply NoDup_node in Hnd as (? & ? & _). rewrite elem_plug, inorder_only_child, elem_of_app by done.
    intros [[?|?]|Hk]; [done..|]. apply (Hdis node); [|done]. apply elem_node. auto. }
  apply wp_bind. eapply wp_erase_splice; [exact H|done|]. intros s1 H1 Hf1 Hm1.
  apply wp_bind. eapply wp_rb_color_raw; [by rewrite Hf1|done..|].
  eapply wp_erase_finish; [exact H1|by eapply rb_spliced|by rewrite Hf1|done..|].
  intros s' (T' & ? & ? & ? & ? & Hf & Hm). apply HQ. exists T'. split_and!; try done.
  - intros a ? Ha. by rewrite Hf, Hf1.
  - by rewrite Hm.
Qed.

Lemma cparent_swap j f f' k :
  NoDup (caddrs (j ++ f :: k)) →
  (if cparent (j ++ f :: k) =? faddr f then faddr f' else cparent (j ++ f :: k))
  = cparent (j ++ f' :: k).
Proof.
  destruct j as [|g j]; simpl; [by rewrite Z.eqb_refl|]. intros (_ & Hg & _)%NoDup_caddrs.
  destruct (Z.eqb_spec (faddr g) (faddr f)) as [E|]; [|done]. destruct Hg. rewrite E. clear E.
  induction j as [|h j IH]; simpl; apply caddrs_cons; auto.
Qed.

(** A node with two children gives its place to its predecessor. *)
Lemma wp_erase_two s k node c r j y cy ly (Q : unit → rbstate → Prop) :
  repr s (plug k (Node node c (plug j (Node y cy ly Leaf)) r)) →
  rb (plug k (Node node c (plug j (Node y cy ly Leaf)) r)) →
  (∀ s', erase_post s node (inorder (plug k (Node y c (plug j ly) r))) s' → Q tt s') →
  wp ('(x, xp, is_left) ← erase_splice y;
      y_color ← rb_color y;
      xp ← (rb_swap node y;; mret (if xp =? node then y else xp));
      erase_finish node y_color x xp is_left) s Q.
Proof.
  intros H Hrb HQ.
  assert (∀ z t, plug k (Node z c (plug j t) r) = plug (j ++ FL z c r :: k) t) as Hpl.
  { intros. by rewrite plug_app. }
  rewrite Hpl in H, Hrb. pose proof (repr_node _ _ _ _ _ _ H) as (Hy & Hvy & Hpk).
  assert (only_child ly Leaf = ly) as Hoc by by destruct ly.
  pose proof (rb_spliced _ _ _ _ _ Hrb ltac:(by right)) as Hsp. rewrite Hoc in Hsp.
  pose proof (repr_nodup _ _ H) as Hnd. apply NoDup_plug in Hnd as (Hnd & Hndk & Hdis).
  apply NoDup_node in Hnd as (Hyly & _). setoid_rewrite elem_node in Hdis.
  apply wp_bind. eapply wp_erase_splice; [exact H|by right|]. rewrite Hoc.
  intros s1 H1 Hf1 Hm1.
  assert (y ∉ inorder (plug (j ++ FL node c r :: k) ly)) as Hyn.
  { rewrite elem_plug. intros [?|?]; [done|]. by apply (Hdis y); auto. }
  apply wp_bind. eapply wp_rb_color_raw; [by rewrite Hf1|done..|].
  rewrite <-Hpl in H1, Hyn. pose proof (repr_node _ _ _ _ _ _ H1) as (_ & Hvn & _).
  apply wp_bind, wp_bind. eapply wp_rb_swap; [exact H1| |done|done|].
  { rewrite Hf1; [done|]. by rewrite <-Hpl. }
  intros s2 H2 Hf2 [n Hn] Hm2. apply wp_ret.
  pose proof (cparent_swap j (FL node c r) (FL y c r) k Hndk) as Hsw.
  cbn [faddr] in Hsw. rewrite Hsw. clear Hsw.
  replace (hd_left (j ++ FL node c r :: k)) with (hd_left (j ++ FL y c r :: k)) by by destruct j.
  assert (node ∉ inorder (plug k (Node y c (plug j ly) r))) as Hnn.
  { pose proof (repr_nodup _ _ H1) as Hd1. apply NoDup_plug in Hd1 as (Hd1 & _ & Hd2).
    apply NoDup_node in Hd1 as (? & ? & _). rewrite elem_plug, elem_node in Hyn |- *.
    specialize (Hd2 node). rewrite elem_node in Hd2. naive_solver. }
  eapply wp_erase_finish; [rewrite <-Hpl; exact H2| |exact Hn|by apply valid_ne|by rewrite <-Hpl|].
  { by eapply spliced_relabel; [..|exact Hsp]. }
  rewrite <-Hpl. intros s' (T' & ? & ? & ? & ? & Hf & Hm). apply HQ. exists T'. split_and!; try done.
  - intros a ? Ha. rewrite Hf, Hf2, Hf1; try done. rewrite <-Hpl.
    rewrite elem_plug, elem_node in Ha |- *. tauto.
  - by rewrite Hm, Hm2.
Qed.

(** The predecessor of a node with two children. *)
Lemma wp_erase_victim s k node c l r (Q : Z → rbstate → Prop) :
  repr s (plug k (Node node c l r)) →
  (l = Leaf ∨ r = Leaf → Q node s) →
  (∀ j y cy ly, l = plug j (Node y cy ly Leaf) → cafter j = [] → y ≠ node → Q y s) →
  wp (erase_victim node) s Q.
Proof.
  intros H HQ1 HQ2. pose proof (holds_start _ _ H) as Hh.
  unfold erase_victim. apply wp_bind. eapply wp_rd_node; [exact Hh|]. cbn [left right].
  destruct (decide (l = Leaf)) as [->|Hl]; [by apply wp_ret, HQ1; left|].
  destruct (decide (r = Leaf)) as [->|Hr]; [rewrite andb_false_r; by apply wp_ret, HQ1; right|].
  assert (root l ≠ NULL ∧ root r ≠ NULL) as [El%Z.eqb_neq Er%Z.eqb_neq].
  { destruct l as [|la lc ll lr], r as [|ra rc rl rr]; try done.
    split; [eapply (holds_mknode_ne _ _ true s (FL node c (Node ra rc rl rr) :: k) la lc ll lr)
           |eapply (holds_mknode_ne _ _ true s (FR node c (Node la lc ll lr) :: k) ra rc rl rr)]; exact Hh. }
  rewrite El, Er. cbn [negb andb].
  eapply (wp_walk_right _ _ s (FL node c r :: k)); [exact Hh|done|].
  intros j y cy ly -> Hj. eapply HQ2; [done..|]. intros ->.
  pose proof (repr_nodup _ _ H) as Hnd. apply NoDup_plug in Hnd as (Hnd & _ & _).
  apply NoDup_node in Hnd as ([] & _). apply elem_plug. left. apply elem_node. auto.
Qed.

Lemma wp_erase_body s k node c l r (Q : unit → rbstate → Prop) :
  repr s (plug k (Node node c l r)) → rb (plug k (Node node c l r)) →
  (∀ s', erase_post s node (cbefore k ++ (inorder l ++ inorder r) ++ cafter k) s' → Q tt s') →
  wp (erase_body node) s Q.
Proof.
  intros H Hrb HQ. unfold erase_body. apply wp_bind. eapply wp_erase_victim; [exact H|..].
  - intros Hlr. rewrite Z.eqb_refl. cbn [negb].
    eapply wp_erase_one; [exact H|done..|]. intros s'. rewrite inorder_plug, inorder_only_child by done.
    apply HQ.
  - intros j y cy ly -> Hj Hne%Z.eqb_neq. rewrite Hne. cbn [negb].
    eapply wp_erase_two; [exact H|done|]. intros s'. rewrite inorder_plug. simpl.
    rewrite !inorder_plug, Hj, !app_nil_r in *. simpl in HQ.
    rewrite <-!(assoc_L (++)) in *. apply HQ.
Qed.

Lemma wp_rb_erase s k node c l r :
  repr s (plug k (Node node c l r)) → rb (plug k (Node node c l r)) →
  wp (rb_erase node) s (λ _ s', ∃ T',
    repr s' T' ∧ rb T' ∧ inorder T' = cbefore k ++ (inorder l ++ inorder r) ++ cafter k ∧
    cleared s' node ∧
    (∀ a, a ∉ inorder (plug k (Node node c l r)) → nodes s' !! a = nodes s !! a) ∧
    most_left (tr s') = if node =? most_left (tr s) then default NULL (head (inorder r ++ cafter k))
                        else most_left (tr s)).
Proof.
  intros H Hrb. pose proof (repr_node _ _ _ _ _ _ H) as (_ & Hv%valid_ne%Z.eqb_neq & _).
  unfold rb_erase. rewrite Hv. unfold get_most_left. apply wp_bind, wp_bind, wp_get, wp_ret.
  set (v := if node =? most_left (tr s) then default NULL (head (inorder r ++ cafter k))
            else most_left (tr s)).
  apply wp_bind. apply (wp_mono _ _ (λ _ s1, nodes s1 = nodes s ∧
    tree_root (tr s1) = tree_root (tr s) ∧ most_left (tr s1) = v)).
  { destruct (Z.eqb_spec node (most_left (tr s))) as [E|].
    - apply wp_bind. eapply wp_rb_next; [by apply holds_start|]. by apply wp_modify.
    - by apply wp_ret. }
  intros _ s1 (Hn1 & Hr1 & Hm1).
  eapply wp_erase_body; [eapply repr_outside; [exact H|by intros; rewrite Hn1|done]|done|].
  intros s' (T' & HT & HrbT & Hin & Hcl & Hf & Hm). exists T'. split_and!; try done.
  - intros a Ha. rewrite inorder_plug in Ha. simpl in Ha. rewrite Hf, Hn1; [done|..]; set_solver.
  - by rewrite Hm.
Qed.
