(* ===== verification/RbSpec.v ===== *)
(** * Red-black trees: the contract

    [rbtree_is s D] says that the memory of [s] holds a red-black tree whose
    nodes are, in order, the addresses [D], with the leftmost one cached.  The
    operations of libk/ds/rbtree.c and include/ds/rbtree.h are correct with
    respect to this list, which is all their callers need to know. *)

From stdpp Require Import base list gmap.
From Stdlib Require Import ZArith Lia Bool.
From S2P Require Import Prelude RbModel RbTree RbRepr RbRotate RbInsert RbWalk RbErase RbDelete.
Local Open Scope Z_scope.

Record tree_is (s : rbstate) (T : tree) : Prop := {
  is_repr : repr s T;
  is_rb : rb T;
  is_left : most_left (tr s) = default NULL (head (inorder T));
}.

Definition rbtree_is (s : rbstate) (D : list Z) : Prop := ∃ T, tree_is s T ∧ inorder T = D.

(** ** Deciding the contract on concrete memories *)

Fixpoint rep_b (h : gmap Z rb_node) (pp : Z) (t : tree) : bool :=
  match t with
  | Leaf => true
  | Node a c l r =>
      match h !! a with
      | Some n => (parent_color n =? pack pp c) && (left n =? root l) && (right n =? root r)
      | None => false
      end && rep_b h a l && rep_b h a r
  end.

(** The black height of a well-coloured tree. *)
Fixpoint black_height (t : tree) : option nat :=
  match t with
  | Leaf => Some 0%nat
  | Node _ c l r =>
      match black_height l, black_height r with
      | Some n, Some m =>
          if bool_decide (n = m) then
            match c with
            | Black => Some (S n)
            | Red => if bool_decide (tcolor l = Black ∧ tcolor r = Black) then Some n else None
            end
          else None
      | _, _ => None
      end
  end.

Definition tree_is_b (s : rbstate) (T : tree) : bool :=
  rep_b (nodes s) NULL T && bool_decide (NoDup (inorder T)) &&
  forallb (λ a, (0 <? a) && (a <? 2 ^ 64) && negb (Z.testbit a 0)) (inorder T) &&
  (tree_root (tr s) =? root T) &&
  bool_decide (is_Some (black_height T)) && bool_decide (tcolor T = Black) &&
  (most_left (tr s) =? default NULL (head (inorder T))).

Lemma rep_b_ok h pp t : rep_b h pp t = true → rep h pp t.
Proof.
  revert pp. induction t as [|a c l IHl r IHr]; intros pp; simpl; [done|].
  destruct (h !! a) as [[pc nl nr]|]; simpl; [|done]. rewrite !andb_true_iff, !Z.eqb_eq.
  intros [[[[-> ->] ->] ?] ?]. auto.
Qed.

Lemma black_height_ok t n : black_height t = Some n → rbt t (tcolor t) n.
Proof.
  revert n. induction t as [|a c l IHl r IHr]; intros n; simpl.
  { intros [= <-]. constructor. }
  destruct (black_height l) as [hl|]; [|done]. destruct (black_height r) as [hr|]; [|done].
  case_bool_decide as E; [subst hr|done]. destruct c.
  - case_bool_decide as E; [|done]. destruct E as [El Er]. intros [= <-].
    rewrite El in IHl. rewrite Er in IHr. auto with rb.
  - intros [= <-]. eauto with rb.
Qed.

Lemma tree_is_b_ok s T : tree_is_b s T = true → tree_is s T.
Proof.
  unfold tree_is_b. rewrite !andb_true_iff, !bool_decide_eq_true, !Z.eqb_eq, forallb_forall.
  intros ((((((Hrep & Hnd) & Hv) & Hr) & Hh) & Hc) & Hml). split; [split|..]; try done.
  - by apply rep_b_ok.
  - apply Forall_forall. intros a Ha. apply list_elem_of_In, Hv in Ha.
    rewrite !andb_true_iff, negb_true_iff, !Z.ltb_lt in Ha. unfold valid. tauto.
  - destruct Hh as [n Hn]. exists n. rewrite <-Hc. by apply black_height_ok.
Qed.

(** ** Height *)

Fixpoint theight (t : tree) : nat :=
  match t with Leaf => O | Node _ _ l r => S (Nat.max (theight l) (theight r)) end.

Lemma rbt_height t c n :
  rbt t c n → (theight t ≤ 2 * n + match c with Red => 1 | Black => 0 end)%nat.
Proof.
  induction 1 as [|???? _ IHl _ IHr|? l r cl cr ? _ IHl _ IHr]; simpl in *; [lia..|].
  destruct cl, cr; lia.
Qed.

Lemma rbt_size t c n : rbt t c n → 2 ^ Z.of_nat n ≤ Z.of_nat (length (inorder t)) + 1.
Proof.
  induction 1 as [|???? _ IHl _ IHr|? l r ??? _ IHl _ IHr]; [done|..];
    cbn [inorder]; rewrite length_app; cbn [length]; [lia|].
  rewrite Nat2Z.inj_succ, Z.pow_succ_r by lia. lia.
Qed.

(** A red-black tree of [n] nodes is at most [2 log2 (n + 1)] deep. *)
Lemma rb_height_log t :
  rb t → Z.of_nat (theight t) ≤ 2 * Z.log2 (Z.of_nat (length (inorder t)) + 1).
Proof.
  intros [n Hn]. pose proof (rbt_height _ _ _ Hn) as Hh. simpl in Hh. pose proof (rbt_size _ _ _ Hn) as Hs.
  apply Z.log2_le_mono in Hs. rewrite Z.log2_pow2 in Hs by lia. lia.
Qed.

Lemma ctx_depth k t : (length k + theight t ≤ theight (plug k t))%nat.
Proof.
  revert t. induction k as [|f k IH]; intros t; simpl; [lia|].
  pose proof (IH (fill f t)). destruct f; simpl in *; lia.
Qed.

(** ** The operations *)

Section spec.
Implicit Types (s : rbstate) (k : ctx).

(** [rb_link_node] followed by [rb_insert] at the hole of [k]; the flag tells
    whether the new node comes first. *)
Lemma wp_link_insert s k node n0 (ml : bool) :
  tree_is s (plug k Leaf) → nodes s !! node = Some n0 → valid node →
  node ∉ inorder (plug k Leaf) → (ml = true ↔ cbefore k = []) →
  wp (rb_link_node node (cparent k) (ctx_link k);; rb_insert node ml) s (λ _ s', ∃ T',
    tree_is s' T' ∧ inorder T' = cbefore k ++ node :: cafter k ∧
    (∀ a, a ∉ inorder T' → nodes s' !! a = nodes s !! a)).
Proof.
  intros [Hrep Hrb Hml] Hn Hv Hnin Hflag. apply wp_bind.
  eapply wp_mono; [by eapply wp_rb_link_node|]. intros _ s1 (H1 & Hf1 & Hm1).
  eapply wp_mono; [eapply wp_rb_insert; [exact H1|done|]|].
  - intros Ht. rewrite inorder_plug. by rewrite (proj1 Hflag Ht).
  - intros _ s' (T' & H' & Hrb' & Hin' & Hf' & Hm'). rewrite inorder_plug in Hin'. simpl in Hin'.
    exists T'. split_and!; [split; try done|done|].
    + rewrite Hm', Hin'. destruct ml; [by rewrite (proj1 Hflag)|].
      rewrite Hm1, Hml, inorder_plug. simpl.
      destruct (cbefore k) as [|z zs]; [|done]. naive_solver.
    + intros a Ha. rewrite Hin', elem_of_app, elem_of_cons in Ha.
      rewrite Hf' by (rewrite Hin', elem_of_app, elem_of_cons; tauto).
      apply Hf1; rewrite ?elem_plug; unfold caddrs; rewrite ?elem_of_app; simpl;
        rewrite ?elem_of_nil; tauto.
Qed.

(** A node of the list, as a focus. *)
Lemma tree_split T pre node post :
  NoDup (inorder T) → inorder T = pre ++ node :: post →
  ∃ k c l r, T = plug k (Node node c l r) ∧
    pre = cbefore k ++ inorder l ∧ post = inorder r ++ cafter k.
Proof.
  intros Hnd HD. destruct (inorder_focus T node) as (k & c & l & r & ->); [rewrite HD; set_solver|].
  exists k, c, l, r. split; [done|]. rewrite HD in Hnd. symmetry in HD. revert HD.
  rewrite inorder_plug. simpl. rewrite <-!(assoc_L (++)), (assoc_L (++)). simpl.
  by apply NoDup_split_eq.
Qed.

Lemma wp_erase s pre node post :
  rbtree_is s (pre ++ node :: post) →
  wp (rb_erase node) s (λ _ s', rbtree_is s' (pre ++ post) ∧ cleared s' node ∧
    (∀ a, a ∉ pre ++ node :: post → nodes s' !! a = nodes s !! a)).
Proof.
  intros (T & [Hrep Hrb Hml] & HD). pose proof (repr_nodup _ _ Hrep) as Hnd.
  destruct (tree_split _ _ _ _ Hnd HD) as (k & c & l & r & -> & Hpre & Hpost).
  eapply wp_mono; [by eapply wp_rb_erase|].
  intros _ s' (T' & H' & Hrb' & Hin' & Hcl & Hf & Hm). split_and!; [|done|by rewrite <-HD].
  rewrite <-!(assoc_L (++)), (assoc_L (++)), <-Hpre, <-Hpost in Hin'. rewrite <-Hpost in Hm.
  exists T'. split; [split; try done|done]. rewrite Hm, Hin', Hml, HD.
  destruct pre as [|z pre]; simpl; [by rewrite Z.eqb_refl|].
  destruct (Z.eqb_spec node z) as [->|]; [|done].
  rewrite HD in Hnd. apply NoDup_cons in Hnd as [[] _]. set_solver.
Qed.

Lemma wp_next s pre node post (Q : Z → rbstate → Prop) :
  rbtree_is s (pre ++ node :: post) → Q (default NULL (head post)) s → wp (rb_next node) s Q.
Proof.
  intros (T & [Hrep Hrb Hml] & HD) HQ.
  destruct (tree_split _ _ _ _ (repr_nodup _ _ Hrep) HD) as (k & c & l & r & -> & Hpre & Hpost).
  eapply wp_rb_next; [by apply holds_start|]. by rewrite <-Hpost.
Qed.

(** Nodes outside the list do not matter. *)
Lemma rbtree_is_frame s s' D :
  rbtree_is s D → (∀ a, a ∈ D → nodes s' !! a = nodes s !! a) → tr s' = tr s → rbtree_is s' D.
Proof.
  intros (T & [Hrep Hrb Hml] & <-) Hf Ht. exists T. split; [split; try done|done].
  - eapply repr_outside; [done..|by rewrite Ht].
  - by rewrite Ht.
Qed.

Lemma rbtree_is_nodup s D : rbtree_is s D → NoDup D ∧ Forall valid D.
Proof. intros (T & [[] _ _] & <-). done. Qed.

Lemma rbtree_is_nil s : rbtree_is s [] ↔ tr s = mk_tree NULL NULL.
Proof.
  split.
  - intros (T & [[_ _ _ Hr] _ Hm] & HT). rewrite HT in Hm. destruct T as [|a c l r].
    + destruct (tr s). simpl in *. by subst.
    + simpl in HT. by destruct (inorder l).
  - intros Ht. exists Leaf. repeat split; rewrite ?Ht; try done; [constructor..|]. by exists 0%nat; constructor.
Qed.
End spec.

(** ** Correctness of the operations *)

(** C1: linking a new node at an empty place of a red-black tree and calling
    [rb_insert] with the flag that tells whether it comes first always returns;
    the memory then holds a red-black tree with the node at that place of the
    order, the leftmost node cached, and no other object changed. *)
Theorem rb_insert_correct (s : rbstate) (k : ctx) (node : Z) (n0 : rb_node) (ml : bool) :
  tree_is s (plug k Leaf) → nodes s !! node = Some n0 → valid node →
  node ∉ inorder (plug k Leaf) → (ml = true ↔ cbefore k = []) →
  ∃ s', (rb_link_node node (cparent k) (ctx_link k);; rb_insert node ml) s = Ok (tt, s') ∧
    rbtree_is s' (cbefore k ++ node :: cafter k) ∧
    (∀ a, a ∉ cbefore k ++ node :: cafter k → nodes s' !! a = nodes s !! a).
Proof.
  intros H Hn Hv Hnin Hml. pose proof (wp_link_insert s k node n0 ml H Hn Hv Hnin Hml) as Hwp.
  apply wp_ok in Hwp as ([] & s' & Hrun & T' & HT & Hin & Hf). exists s'. split; [done|].
  rewrite <-Hin. split; [by exists T'|done].
Qed.

(** Three nodes; the first two are in a tree. *)
Definition demo : rbstate :=
  mk_rbstate (<[16 := mk_node 1 0 32]> (<[32 := mk_node 16 0 0]> (<[48 := mk_node 0 0 0]> ∅)))
    (mk_tree 16 16).

Lemma rb_insert_correct_witness :
  ∃ s', (rb_link_node 48 32 (LinkRight 32);; rb_insert 48 false) demo = Ok (tt, s') ∧
    rbtree_is s' [16; 32; 48].
Proof.
  destruct (rb_insert_correct demo [FR 32 Red Leaf; FR 16 Black Leaf] 48 (mk_node 0 0 0) false)
    as (s' & Hrun & Hs & _).
  - apply tree_is_b_ok. vm_compute. reflexivity.
  - reflexivity.
  - split; [lia|reflexivity].
  - simpl. rewrite !not_elem_of_cons. split; [lia|]. split; [lia|apply not_elem_of_nil].
  - split; intros Hx; discriminate Hx.
  - exists s'. split; [exact Hrun|exact Hs].
Defined.

(** C2: [rb_erase] of a node that is in the tree always returns; the memory
    then holds a red-black tree with exactly the other nodes in the same
    order, the cached leftmost node is again the first, the removed node's
    links are cleared, and no object outside the tree changed. *)
Theorem rb_erase_correct (s : rbstate) (pre post : list Z) (node : Z) :
  rbtree_is s (pre ++ node :: post) →
  ∃ s', rb_erase node s = Ok (tt, s') ∧ rbtree_is s' (pre ++ post) ∧ cleared s' node ∧
    (∀ a, a ∉ pre ++ node :: post → nodes s' !! a = nodes s !! a).
Proof.
  intros H. apply wp_erase, wp_ok in H as ([] & s' & Hrun & ? & ? & ?). exists s'. auto.
Qed.

Lemma rb_erase_correct_witness :
  ∃ s', rb_erase 16 demo = Ok (tt, s') ∧ rbtree_is s' [32].
Proof.
  destruct (rb_erase_correct demo [] [32] 16) as (s' & Hrun & Hs & _).
  - exists (Node 16 Black Leaf (Node 32 Red Leaf Leaf)).
    split; [apply tree_is_b_ok; vm_compute; reflexivity|reflexivity].
  - exists s'. split; [exact Hrun|exact Hs].
Defined.

(** Iteration: [rb_next] of a node is the one after it in order (NULL
    after the last), and both ways to find the first node agree with the
    head of the order. *)
Theorem rb_iteration_correct (s : rbstate) (pre post : list Z) (node : Z) :
  rbtree_is s (pre ++ node :: post) →
  rb_next node s = Ok (default NULL (head post), s) ∧
  rb_first_cached s = Ok (default NULL (head (pre ++ node :: post)), s) ∧
  rb_first_uncached s = rb_first_cached s.
Proof.
  intros H. split; [|assert (rb_first_cached s = Ok (default NULL (head (pre ++ node :: post)), s)) as Hc].
  - assert (wp (rb_next node) s (λ x s', x = default NULL (head post) ∧ s' = s)) as Hwp
      by by eapply wp_next.
    by apply wp_ok in Hwp as (? & ? & Hrun & -> & ->).
  - destruct H as (T & [_ _ Hm] & HD). rewrite HD in Hm. rewrite <-Hm. done.
  - split; [done|]. rewrite Hc. destruct H as (T & [Hrep _ _] & <-).
    assert (wp rb_first_uncached s (λ x s', x = default NULL (head (inorder T)) ∧ s' = s)) as Hwp
      by (eapply wp_rb_first_uncached; [by apply holds_start|done]).
    by apply wp_ok in Hwp as (? & ? & Hrun & -> & ->).
Qed.

Lemma rb_iteration_correct_witness : rb_next 16 demo = Ok (32, demo).
Proof.
  apply (rb_iteration_correct demo [] [32] 16).
  exists (Node 16 Black Leaf (Node 32 Red Leaf Leaf)).
  split; [apply tree_is_b_ok; vm_compute; reflexivity|reflexivity].
Defined.

(** Balance: in a tree of [n] nodes no place to link a node, and so no
    walk from the root, is deeper than [2 log2 (n + 1)]. *)
Theorem rb_depth_bound (s : rbstate) (k : ctx) (t : tree) :
  tree_is s (plug k t) →
  Z.of_nat (length k) ≤ 2 * Z.log2 (Z.of_nat (length (inorder (plug k t))) + 1).
Proof.
  intros [_ Hrb _]. pose proof (rb_height_log _ Hrb). pose proof (ctx_depth k t). lia.
Qed.

Lemma rb_depth_bound_witness :
  Z.of_nat (length [FR 16 Black Leaf]) ≤ 2 * Z.log2 (2 + 1).
Proof.
  apply (rb_depth_bound demo [FR 16 Black Leaf] (Node 32 Red Leaf Leaf)).
  apply tree_is_b_ok. vm_compute. reflexivity.
Defined.

(** [rb_replace] copies the victim's links to the target and repoints the
    children, but never the link of the parent: after replacing a node that
    is not the root the tree still reaches the victim. *)
Theorem rb_replace_keeps_parent_link :
  ∃ s', rb_replace 32 48 demo = Ok (tt, s') ∧
    rb_next 16 s' = Ok (32, s') ∧ ¬ rbtree_is s' [16; 48].
Proof.
  destruct (rb_replace 32 48 demo) as [[[] s']| | |] eqn:E; vm_compute in E; try discriminate E.
  injection E as <-. eexists. split; [reflexivity|]. split; [vm_compute; reflexivity|].
  intros (T & [[Hrep _ _ Hroot] _ _] & HD). destruct T as [|a c l r]; [discriminate HD|].
  simpl in Hroot. subst a. destruct Hrep as (Ha & _ & _). vm_compute in Ha.
  injection Ha as _ Hl Hr. destruct r as [|b cb lb rb]; [discriminate Hr|]. simpl in Hr. subst b.
  simpl in HD. assert (32 ∈ inorder l ++ 16 :: inorder lb ++ 32 :: inorder rb) as Hin by set_solver.
  rewrite HD in Hin. set_solver.
Qed.
