(* ===== verification/Linked.v ===== *)
(** * Intrusive lists

    include/ds/linked.h and include/ds/generic.h on a memory of 64-bit words.
    A macro that takes [member] is a function of the offset [off] of the node
    in its structure; structures are named by their addresses.  The structures
    of the allocators keep their links in records (Pmm.v, Slob.v, Area.v);
    here the macros are followed down to the words. *)

From stdpp Require Import base list gmap.
From Stdlib Require Import ZArith Lia Bool.
From S2P Require Import Prelude.
Local Open Scope Z_scope.

Abbreviation mem := (gmap Z Z).
Abbreviation W := (M mem).

Definition ld (p : Z) : W Z := deref (λ m : mem, m) p.
Definition st (p v : Z) : W unit := store (λ m : mem, m) (λ f m, f m) p (λ _, v).

(** [next] is the first word of both kinds of node, [prev] the second of the
    doubly linked one. *)
Definition next_of (node : Z) : Z := node.
Definition prev_of (node : Z) : Z := u64 (node + 8).

(** [container_of(ptr, type, member)] *)
Definition container_of (ptr off : Z) : Z := if ptr =? NULL then NULL else u64 (ptr - off).
Definition slist_entry := container_of.
Definition dlist_entry := container_of.
(** [&(ptr)->member] *)
Definition member (ptr off : Z) : Z := u64 (ptr + off).

Section linked.
Context (off : Z).

Definition slist_get_next (ptr : Z) : W Z :=
  next ← ld (next_of (member ptr off));
  mret (if next =? NULL then NULL else slist_entry next off).

Definition dlist_get_next (ptr : Z) : W Z :=
  next ← ld (next_of (member ptr off));
  mret (if next =? NULL then NULL else dlist_entry next off).

Definition dlist_get_prev (ptr : Z) : W Z :=
  prev ← ld (prev_of (member ptr off));
  mret (if prev =? NULL then NULL else dlist_entry prev off).

Definition slist_set_next (ptr next_entry : Z) : W unit :=
  let head := member ptr off in
  let next := if next_entry =? NULL then NULL else member next_entry off in
  st (next_of head) next.

Definition dlist_set_next (ptr next_entry : Z) : W unit :=
  let head := member ptr off in
  let next := if next_entry =? NULL then NULL else member next_entry off in
  st (next_of head) next;;
  if negb (next =? NULL) then st (prev_of next) head else mret tt.

Definition dlist_set_prev (ptr prev_entry : Z) : W unit :=
  let head := member ptr off in
  let prev := if prev_entry =? NULL then NULL else member prev_entry off in
  st (prev_of head) prev;;
  if negb (prev =? NULL) then st (next_of prev) head else mret tt.

(** The loops, with a body that goes on or leaves with a result. *)
Definition slist_foreach {A} (fuel : nat) (body : Z → W (option A)) (start : Z) : W (option A) :=
  loop fuel (λ cur, if negb (cur =? NULL)
                    then r ← body cur;
                         match r with
                         | Some x => mret (inr (Some x))
                         | None => n ← slist_get_next cur; mret (inl n)
                         end
                    else mret (inr None)) start.
Definition dlist_foreach {A} (fuel : nat) (body : Z → W (option A)) (start : Z) : W (option A) :=
  loop fuel (λ cur, if negb (cur =? NULL)
                    then r ← body cur;
                         match r with
                         | Some x => mret (inr (Some x))
                         | None => n ← dlist_get_next cur; mret (inl n)
                         end
                    else mret (inr None)) start.

(** The loop both append functions start with: the last node that is not
    NULL, or the start. *)
Definition find_last (head : Z) : W Z :=
  m ← get;
  loop (S (size m)) (λ '(prev, head),
    if negb (head =? NULL) then n ← ld (next_of head); mret (inl (head, n)) else mret (inr prev)) (head, head).

(** [__slist_append] and [__dlist_append] *)
Definition slist_append_node (head node : Z) : W unit :=
  prev ← find_last head; st (next_of prev) node.
Definition dlist_append_node (head node : Z) : W unit :=
  prev ← find_last head;
  st (next_of prev) node;;
  if negb (node =? NULL) then st (prev_of node) prev else mret tt.

Definition slist_append (head node : Z) : W unit := slist_append_node (member head off) (member node off).
Definition dlist_append (head node : Z) : W unit := dlist_append_node (member head off) (member node off).

Definition dlist_remove (head : Z) : W unit :=
  let head := member head off in
  prev ← ld (prev_of head);
  next ← ld (next_of head);
  st (next_of prev) next.
End linked.

(** ** Lists in memory *)

Lemma wp_ld_word m p v (Q : Z → mem → Prop) : m !! p = Some v → p ≠ NULL → Q v m → wp (ld p) m Q.
Proof. intros. by eapply wp_deref. Qed.
Lemma wp_st_word m p v w (Q : unit → mem → Prop) : m !! p = Some v → p ≠ NULL → Q tt (<[p := w]> m) → wp (st p w) m Q.
Proof. intros. by eapply wp_store. Qed.

(** The nodes [N] linked from [h] on by their first words. *)
Fixpoint chain (m : mem) (h : Z) (N : list Z) : Prop :=
  match N with
  | [] => h = NULL
  | n :: N => h = n ∧ n ≠ NULL ∧ ∃ nx, m !! n = Some nx ∧ chain m nx N
  end.

(** And by their second words backwards, from the node [p] before them. *)
Fixpoint dchain (m : mem) (p h : Z) (N : list Z) : Prop :=
  match N with
  | [] => h = NULL
  | n :: N => h = n ∧ n ≠ NULL ∧ prev_of n ≠ NULL ∧ m !! prev_of n = Some p ∧ ∃ nx, m !! n = Some nx ∧ dchain m n nx N
  end.

Lemma dchain_chain m p h N : dchain m p h N → chain m h N.
Proof. revert p h. induction N as [|n N IH]; simpl; [done|]. naive_solver. Qed.

Lemma chain_size m h N : chain m h N → NoDup N → (length N ≤ size m)%nat.
Proof.
  intros Hc Hnd. rewrite <-(size_dom m), <-(size_list_to_set (C := gset Z) _ Hnd). apply subseteq_size.
  intros n. rewrite elem_of_list_to_set, elem_of_dom. revert h Hc. induction N as [|x N IH]; intros h Hc Hn.
  - by apply not_elem_of_nil in Hn.
  - apply NoDup_cons in Hnd as [_ Hnd]. destruct Hc as (-> & _ & nx & Hx & Hc).
    apply elem_of_cons in Hn as [->|Hn]; [by exists nx|by eapply IH].
Qed.

Lemma chain_frame m m' h N : chain m h N → (∀ n, n ∈ N → m' !! n = m !! n) → chain m' h N.
Proof.
  revert h. induction N as [|n N IH]; simpl; [done|]. intros h (-> & Hn & nx & Hx & Hc) Hf.
  split_and!; [done..|]. exists nx. split; [rewrite Hf by left; done|]. apply IH; [done|]. intros; apply Hf; by right.
Qed.

Lemma chain_insert m h N p v : chain m h N → p ∉ N → chain (<[p := v]> m) h N.
Proof. intros Hc Hp. eapply chain_frame; [done|]. intros n Hn. apply lookup_insert_ne. by intros ->. Qed.

Lemma dchain_insert m p h N a v : dchain m p h N → a ∉ N → a ∉ prev_of <$> N → dchain (<[a := v]> m) p h N.
Proof.
  revert p h. induction N as [|n N IH]; simpl; [done|]. intros p h (-> & Hn & Hpn & Hp & nx & Hx & Hc) Ha Hb.
  apply not_elem_of_cons in Ha as [Ha Ha'], Hb as [Hb Hb'].
  split_and!; [done..|by rewrite lookup_insert_ne|]. exists nx. split; [by rewrite lookup_insert_ne|by apply IH].
Qed.

(** Linking the last node of one list to the first of another. *)
Lemma chain_link m h N n h' N' :
  chain m h (N ++ [n]) → chain m h' N' → NoDup (N ++ [n]) → n ∉ N' →
  chain (<[n := h']> m) h (N ++ [n] ++ N').
Proof.
  revert h. induction N as [|x N IH]; simpl; intros h.
  - intros (-> & Hn & _) Hc _ Hni. split_and!; [done..|]. exists h'. split; [by rewrite lookup_insert_eq|by apply chain_insert].
  - intros (-> & Hx & nx & Enx & Hc) Hc' [Hxn Hnd]%NoDup_cons Hni. split_and!; [done..|]. exists nx.
    split; [|by apply IH]. rewrite lookup_insert_ne; [done|]. intros <-. apply Hxn, elem_of_app. right. by left.
Qed.

Lemma chain_last m h N n : chain m h (N ++ [n]) → n ≠ NULL ∧ m !! n = Some NULL.
Proof.
  revert h. induction N as [|x N IH]; simpl; intros h.
  - intros (-> & Hn & nx & Hx & ->). done.
  - intros (_ & _ & nx & _ & Hc). by eapply IH.
Qed.

Lemma wp_find_last m h N n (Q : Z → mem → Prop) :
  chain m h (N ++ [n]) → NoDup (N ++ [n]) → Q n m → wp (find_last h) m Q.
Proof.
  intros Hc Hnd HQ. unfold find_last. apply wp_bind, wp_get. pose proof (chain_size _ _ _ Hc Hnd) as Hsz.
  apply (wp_loop (λ k '(p, x) m', m' = m ∧ ∃ N1 N2, N ++ [n] = N1 ++ N2 ∧ chain m x N2 ∧ k = length N2 ∧
           (N2 = [] → p = n))) with (n := length (N ++ [n])); [|split; [done|]; exists [], (N ++ [n])|lia].
  2: { split_and!; [done..|]. by destruct N. }
  intros k [p x] m' (-> & N1 & N2 & E & Hx & -> & Hp). destruct N2 as [|y N2]; simpl in Hx.
  - subst x. simpl. apply wp_ret. by rewrite (Hp eq_refl).
  - destruct Hx as (-> & Hy & nx & Hnx & Hc2). rewrite (proj2 (Z.eqb_neq _ _) Hy). simpl.
    apply wp_bind. eapply wp_ld_word; [done..|]. apply wp_ret. exists (length N2). split; [lia|].
    split; [done|]. exists (N1 ++ [y]), N2. split_and!; [by rewrite <-(assoc_L (++))|done..|].
    intros ->. by apply app_inj_tail in E as [_ ->].
Qed.

(** Doubly linked nodes: all their words are apart. *)
Definition words (N : list Z) : list Z := N ++ (prev_of <$> N).

Lemma dchain_link m p h N n q x N' :
  dchain m p h (N ++ [n]) → dchain m q x (x :: N') → NoDup (words (N ++ [n] ++ x :: N')) →
  dchain (<[prev_of x := n]> (<[n := x]> m)) p h (N ++ [n] ++ x :: N').
Proof.
  intros Hc Hc' Hnd. unfold words in Hnd. rewrite !fmap_app, !fmap_cons, fmap_nil in Hnd.
  revert p h Hc. induction N as [|y N IH]; simpl in *; intros p h.
  - intros (-> & Hn & Hpn & Hp & _). destruct Hc' as (_ & Hx & Hpx & _ & nx & Hnx & Hc').
    apply NoDup_cons in Hnd as [Hn1 Hnd]. apply NoDup_cons in Hnd as [Hx1 Hnd].
    apply NoDup_app in Hnd as (_ & Hd & Hnd). apply NoDup_cons in Hnd as [Hpn1 Hnd]. apply NoDup_cons in Hnd as [Hpx1 _].
    assert (n ≠ x ∧ n ∉ N' ∧ n ≠ prev_of n ∧ n ≠ prev_of x ∧ n ∉ prev_of <$> N') as (? & ? & ? & ? & ?) by set_solver.
    assert (x ≠ prev_of x ∧ x ≠ prev_of n) as [? ?] by set_solver.
    assert (prev_of n ≠ prev_of x) by set_solver.
    assert (prev_of x ∉ N') by (intros ?; by eapply Hd; [|right; left]).
    split_and!; [done..|by rewrite !lookup_insert_ne by done|]. exists x. split; [by rewrite lookup_insert_ne, lookup_insert_eq|].
    split_and!; [done..|by rewrite lookup_insert_eq|]. exists nx. split; [by rewrite !lookup_insert_ne by done|].
    apply dchain_insert; [by apply dchain_insert|done..].
  - intros (-> & Hy & Hpy & Hp & nx & Hnx & Hc). apply NoDup_cons in Hnd as [Hy1 Hnd].
    assert (y ≠ n ∧ y ≠ prev_of x) as [? ?] by set_solver.
    assert (prev_of y ≠ n ∧ prev_of y ≠ prev_of x ∧ NoDup ((N ++ n :: x :: N') ++ (prev_of <$> N) ++ prev_of n :: prev_of x :: (prev_of <$> N')))
      as (? & ? & Hnd').
    { apply NoDup_app in Hnd as (HN & Hd & Hnd). apply NoDup_cons in Hnd as [Hpy1 Hnd]. split_and!; [set_solver..|].
      apply NoDup_app. split_and!; [done|intros z Hz ?; apply (Hd z Hz); by right|done]. }
    split_and!; [done..|by rewrite !lookup_insert_ne by done|]. exists nx. split; [by rewrite !lookup_insert_ne by done|].
    by apply IH.
Qed.

(** The words of a node in the middle of a list. *)
Lemma dchain_middle m p h N a b N' :
  dchain m p h (N ++ a :: b :: N') →
  m !! a = Some b ∧ a ≠ NULL ∧ b ≠ NULL ∧ prev_of b ≠ NULL ∧ m !! prev_of b = Some a ∧
  ∃ nx, m !! b = Some nx ∧ dchain m b nx N'.
Proof.
  revert p h. induction N as [|y N IH]; simpl; intros p h.
  - intros (-> & Ha & _ & _ & nx & Hx & -> & Hb & Hpb & Hp & nx' & Hx' & Hc). split_and!; eauto.
  - intros (_ & _ & _ & _ & nx & _ & Hc). by eapply IH.
Qed.

Lemma chain_cut m h N a b N' nx :
  chain m h (N ++ a :: b :: N') → NoDup (N ++ a :: b :: N') → m !! b = Some nx → chain m nx N' →
  chain (<[a := nx]> m) h (N ++ a :: N').
Proof.
  revert h. induction N as [|y N IH]; simpl; intros h.
  - intros (-> & Ha & _) [Hna _]%NoDup_cons Hb Hc. split_and!; [done..|]. exists nx.
    split; [by rewrite lookup_insert_eq|]. apply chain_insert; [done|]. set_solver.
  - intros (-> & Hy & ny & Hny & Hc) [Hyn Hnd]%NoDup_cons Hb Hc'. split_and!; [done..|]. exists ny.
    split; [|by apply IH]. rewrite lookup_insert_ne; [done|]. set_solver.
Qed.

(** ** Theorems *)

Section theorems.
Context (off : Z).

(** The structures [L], each with room for its node. *)
Definition fits (p : Z) : Prop := 0 < p ∧ 0 ≤ off ∧ p + off + 16 < 2 ^ 64.
Definition nodes (L : list Z) : list Z := (λ p, member p off) <$> L.

Lemma member_fits p : fits p → member p off = p + off ∧ p + off ≠ NULL ∧ container_of (p + off) off = p.
Proof using Type.
  intros (Hp & Ho & Hb). unfold member, container_of. rewrite !uwrap_id by (unfold in_u; lia).
  destruct (Z.eqb_spec (p + off) NULL) as [E|]; lia.
Qed.

(** The node of a structure, or NULL. *)
Definition node_of (p : Z) : Z := if p =? NULL then NULL else member p off.

Lemma entry_of m x L : chain m x (nodes L) → Forall fits L → (if x =? NULL then NULL else container_of x off) = hd NULL L.
Proof using Type.
  destruct L as [|p L]; simpl; [by intros ->|]. intros (-> & Hn & _) [Hp _]%Forall_cons.
  destruct (member_fits p Hp) as (E & _ & Ec). rewrite (proj2 (Z.eqb_neq _ _) Hn). by rewrite E.
Qed.

(** One round of both loops: the link read at [p]. *)
Lemma wp_next_node m p L (Q : Z → mem → Prop) :
  chain m (member p off) (nodes (p :: L)) → Forall fits (p :: L) → Q (hd NULL L) m →
  wp (slist_get_next off p) m Q ∧ wp (dlist_get_next off p) m Q.
Proof using Type.
  intros (_ & Hn & nx & Hx & Hc) [Hp HL]%Forall_cons HQ. fold (nodes L) in Hc.
  split; (apply wp_bind; eapply wp_ld_word; [done..|]; apply wp_ret; unfold slist_entry, dlist_entry; by rewrite (entry_of m nx L)).
Qed.

Lemma foreach_rounds {A} (fe : nat → (Z → W (option A)) → Z → W (option A)) (gn : Z → W Z)
    (f : Z → option A) m L fuel :
  (∀ fuel body start, fe fuel body start =
     loop fuel (λ cur, if negb (cur =? NULL)
                       then r ← body cur; match r with Some x => mret (inr (Some x)) | None => n ← gn cur; mret (inl n) end
                       else mret (inr None)) start) →
  (∀ p L (Q : Z → mem → Prop), chain m (member p off) (nodes (p :: L)) → Forall fits (p :: L) → Q (hd NULL L) m →
     wp (gn p) m Q) →
  chain m (node_of (hd NULL L)) (nodes L) → Forall fits L → (length L < fuel)%nat →
  wp (fe fuel (λ p, mret (f p)) (hd NULL L)) m (λ r m', m' = m ∧ r = head (omap f L)).
Proof using Type.
  intros -> Hgn Hc HL Hf. apply (wp_loop (λ k cur m', m' = m ∧ ∃ L', cur = hd NULL L' ∧ k = length L' ∧ Forall fits L' ∧
    chain m (node_of cur) (nodes L') ∧ head (omap f L') = head (omap f L))) with (n := length L); [|by eauto 10|done].
  intros k cur m' (-> & [|p L'] & -> & -> & HL' & Hc' & E).
  - simpl. apply wp_ret. by rewrite <-E.
  - apply Forall_cons in HL' as [Hp HL']. pose proof Hp as (Hp0 & _). simpl hd in *. unfold node_of in Hc'.
    rewrite (proj2 (Z.eqb_neq p NULL)) in * by lia. simpl. wp_steps. destruct (f p) as [x|] eqn:Ef; simpl in E; rewrite Ef in E.
    + apply wp_ret. by rewrite <-E.
    + apply wp_bind. eapply Hgn; [done|by constructor|]. apply wp_ret. exists (length L'). split; [lia|]. split; [done|].
      exists L'. split_and!; [done..| |done]. destruct Hc' as (_ & _ & nx & _ & Hc'). fold (nodes L') in Hc'.
      destruct L' as [|q L']; [done|]. apply Forall_cons in HL' as [(Hq & _) _]. simpl.
      unfold node_of. rewrite (proj2 (Z.eqb_neq q NULL)) by lia. simpl in Hc'. by destruct Hc' as (-> & ?).
Qed.

(** A loop over a list gives what its body gives for the first structure it
    does not pass over, in the order of the links, and ends. *)
Theorem foreach_correct {A} (f : Z → option A) m L fuel :
  chain m (node_of (hd NULL L)) (nodes L) → Forall fits L → (length L < fuel)%nat →
  wp (slist_foreach off fuel (λ p, mret (f p)) (hd NULL L)) m (λ r m', m' = m ∧ r = head (omap f L)) ∧
  wp (dlist_foreach off fuel (λ p, mret (f p)) (hd NULL L)) m (λ r m', m' = m ∧ r = head (omap f L)).
Proof using Type.
  intros Hc HL Hf. split.
  - apply (foreach_rounds _ (slist_get_next off)); [done| |done..]. intros. by eapply wp_next_node.
  - apply (foreach_rounds _ (dlist_get_next off)); [done| |done..]. intros. by eapply wp_next_node.
Qed.

(** Appending a list to another that is not empty. *)
Theorem slist_append_correct m L p L' node :
  chain m (member (hd p L) off) (nodes (L ++ [p])) → chain m (member node off) (nodes (node :: L')) →
  NoDup (nodes (L ++ [p] ++ node :: L')) →
  wp (slist_append off (hd p L) node) m (λ _ m',
    chain m' (member (hd p L) off) (nodes (L ++ [p] ++ node :: L')) ∧
    ∀ a, a ≠ member p off → m' !! a = m !! a).
Proof using Type.
  intros Hc Hc' Hnd. unfold nodes in *. rewrite !fmap_app, !fmap_cons, fmap_nil in *.
  rewrite (assoc_L (++)) in Hnd. apply NoDup_app in Hnd as (Hnd & Hdis & _).
  destruct (chain_last _ _ _ _ Hc) as [Hn Hl].
  unfold slist_append, slist_append_node. apply wp_bind. eapply wp_find_last; [done..|].
  eapply wp_st_word; [done..|]. split.
  - apply chain_link; [done..|]. apply Hdis, elem_of_app. right. by left.
  - intros a Ha. by rewrite lookup_insert_ne.
Qed.

(** The same for doubly linked lists, with the links backwards. *)
Theorem dlist_append_correct m q q' L p L' node :
  dchain m q (member (hd p L) off) (nodes (L ++ [p])) → dchain m q' (member node off) (nodes (node :: L')) →
  NoDup (words (nodes (L ++ [p] ++ node :: L'))) →
  wp (dlist_append off (hd p L) node) m (λ _ m',
    dchain m' q (member (hd p L) off) (nodes (L ++ [p] ++ node :: L')) ∧
    ∀ a, a ≠ member p off → a ≠ prev_of (member node off) → m' !! a = m !! a).
Proof using Type.
  intros Hc Hc' Hnd. unfold nodes in *. rewrite !fmap_app, !fmap_cons, fmap_nil in *.
  assert (NoDup ((λ p, member p off) <$> L ++ [p]) ∧ member p off ≠ prev_of (member node off)) as [Hnd1 Hne].
  { unfold words in Hnd. rewrite (assoc_L (++)) in Hnd. rewrite <-(assoc_L (++)) in Hnd. apply NoDup_app in Hnd as (H1 & H2 & _).
    rewrite fmap_app. split; [done|]. intros E. eapply (H2 (member p off)); [apply elem_of_app; right; by left|].
    rewrite E, !fmap_app, !fmap_cons. set_solver. }
  rewrite fmap_app in Hnd1. destruct (chain_last _ _ _ _ (dchain_chain _ _ _ _ Hc)) as [Hn Hl].
  pose proof Hc' as (_ & Hx & Hpx & Hpq & _).
  unfold dlist_append, dlist_append_node. apply wp_bind. eapply wp_find_last; [by eapply dchain_chain|done|].
  apply wp_bind. eapply wp_st_word; [done..|]. rewrite (proj2 (Z.eqb_neq _ _) Hx). simpl.
  eapply wp_st_word; [by rewrite lookup_insert_ne|done|]. split.
  - by eapply dchain_link.
  - intros a Ha Hb. by rewrite !lookup_insert_ne.
Qed.

(** Removing an element leaves the others linked forwards. *)
Theorem dlist_remove_forward m q h L a b L' :
  dchain m q h (nodes (L ++ a :: b :: L')) → NoDup (nodes (L ++ a :: b :: L')) →
  wp (dlist_remove off b) m (λ _ m', chain m' h (nodes (L ++ a :: L'))).
Proof using Type.
  unfold nodes. rewrite !fmap_app, !fmap_cons. intros Hc Hnd.
  destruct (dchain_middle _ _ _ _ _ _ _ Hc) as (Ha & Ha0 & Hb0 & Hpb & Hp & nx & Hb & Hc').
  unfold dlist_remove. apply wp_bind. eapply wp_ld_word; [done..|]. apply wp_bind. eapply wp_ld_word; [done..|].
  eapply wp_st_word; [done..|]. eapply chain_cut; [by eapply dchain_chain|done|done|by eapply dchain_chain].
Qed.
End theorems.

(** But the one after it still points back at it, and the first element of a
    list cannot be removed: its [prev] is NULL.  Appending to an empty list
    faults too. *)
Theorem dlist_remove_stale :
  let m : mem := list_to_map [(16, 32); (24, 0); (32, 48); (40, 16); (48, 0); (56, 32)] in
  (match dlist_remove 0 32 m with
   | Ok (_, m') => dlist_get_next 0 16 m' = Ok (48, m') ∧ dlist_get_prev 0 48 m' = Ok (32, m')
   | _ => False
   end) ∧
  dlist_remove 0 16 m = Fault ∧ slist_append 0 NULL 16 m = Fault.
Proof. by vm_compute. Qed.
