(* ===== verification/Strings.v ===== *)
(** * Byte strings in memory

    libk/string.c: the six functions on a memory of bytes, a map from
    addresses to values below 256.  Reading or writing an address that holds
    no byte is a fault.  A counted loop recurses on the number of rounds left;
    [strlen], which has no count, gets one round per byte of memory, which
    [strlen_spec] shows to be enough for every terminated string. *)

From stdpp Require Import base list gmap fin_maps.
From Stdlib Require Import ZArith Lia.
From S2P Require Import Prelude.
Local Open Scope Z_scope.

Abbreviation bmem := (gmap Z Z).
Abbreviation B := (M bmem).

Definition ld (a : Z) : B Z := λ m,
  match m !! a with Some x => Ok (x, m) | None => Fault end.

Definition st (a v : Z) : B unit := λ m,
  match m !! a with Some _ => Ok (tt, <[a := v]> m) | None => Fault end.

(** ** The code *)

Fixpoint memcmp_from (rounds : nat) (a b : Z) : B Z :=
  match rounds with
  | O => mret 0
  | S rounds =>
      x ← ld a; y ← ld b;
      if x <? y then mret (-1)
      else if y <? x then mret 1
      else memcmp_from rounds (a + 1) (b + 1)
  end.

Definition memcmp (s1 s2 n : Z) : B Z := memcmp_from (Z.to_nat n) s1 s2.

(** [for (i = 0; i < n; i++) dst[i] = src[i]] *)
Fixpoint copy_up (rounds : nat) (dst src : Z) : B unit :=
  match rounds with
  | O => mret tt
  | S rounds => x ← ld src; st dst x;; copy_up rounds (dst + 1) (src + 1)
  end.

(** [for (i = n; i > 0; i--) dst[i - 1] = src[i - 1]] *)
Fixpoint copy_down (rounds : nat) (dst src : Z) : B unit :=
  match rounds with
  | O => mret tt
  | S rounds =>
      x ← ld (src + Z.of_nat rounds); st (dst + Z.of_nat rounds) x;; copy_down rounds dst src
  end.

Definition memcpy (s1 s2 n : Z) : B Z := copy_up (Z.to_nat n) s1 s2;; mret s1.

Definition memmove (s1 s2 n : Z) : B Z :=
  (if s1 <? s2 then copy_up (Z.to_nat n) s1 s2 else copy_down (Z.to_nat n) s1 s2);; mret s1.

Fixpoint fill_from (rounds : nat) (p c : Z) : B unit :=
  match rounds with
  | O => mret tt
  | S rounds => st p c;; fill_from rounds (p + 1) c
  end.

Definition memset (s c n : Z) : B Z := fill_from (Z.to_nat n) s (u8 c);; mret s.

Fixpoint memchr_from (rounds : nat) (p c : Z) : B Z :=
  match rounds with
  | O => mret NULL
  | S rounds => x ← ld p; if x =? c then mret p else memchr_from rounds (p + 1) c
  end.

Definition memchr (s c n : Z) : B Z := memchr_from (Z.to_nat n) s (u8 c).

Definition strlen (s : Z) : B Z :=
  m ← get;
  loop (S (size m))
    (λ '(s, len), x ← ld s; if x =? 0 then mret (inr len) else mret (inl (s + 1, len + 1)))
    (s, 0).

(** ** Strings in memory *)

(** The bytes [l] lie at [a]. *)
Definition bytes (m : bmem) (a : Z) (l : list Z) : Prop :=
  ∀ (i : nat) x, l !! i = Some x → m !! (a + Z.of_nat i) = Some x.

Definition within (a n x : Z) : Prop := a ≤ x < a + n.

Lemma wp_ld a x m (Q : Z → bmem → Prop) : m !! a = Some x → Q x m → wp (ld a) m Q.
Proof. unfold wp, ld. by intros ->. Qed.

Lemma wp_st a v x m (Q : unit → bmem → Prop) :
  m !! a = Some x → Q tt (<[a := v]> m) → wp (st a v) m Q.
Proof. unfold wp, st. by intros ->. Qed.

Lemma bytes_cons m a x l : bytes m a (x :: l) ↔ m !! a = Some x ∧ bytes m (a + 1) l.
Proof.
  split.
  - intros H. split; [specialize (H O x eq_refl); by rewrite Z.add_0_r in H|].
    intros i y Hi. specialize (H (S i) y Hi). by replace (a + 1 + Z.of_nat i) with (a + Z.of_nat (S i)) by lia.
  - intros [H0 H] [|i] y Hi; simpl in Hi; [simplify_eq; by rewrite Z.add_0_r|].
    replace (a + Z.of_nat (S i)) with (a + 1 + Z.of_nat i) by lia. by apply H.
Qed.

Lemma bytes_nil m a : bytes m a [].
Proof. by intros i x. Qed.

Lemma bytes_snoc m a l x :
  bytes m a (l ++ [x]) ↔ bytes m a l ∧ m !! (a + Z.of_nat (length l)) = Some x.
Proof.
  revert a. induction l as [|y l IH]; intros a; simpl app.
  - rewrite bytes_cons. simpl. rewrite Z.add_0_r. naive_solver auto using bytes_nil.
  - rewrite !bytes_cons, IH. simpl length.
    replace (a + 1 + Z.of_nat (length l)) with (a + Z.of_nat (S (length l))) by lia. tauto.
Qed.

(** Memory that agrees where the string is holds it too. *)
Lemma bytes_ext m m' a l :
  bytes m a l → (∀ x, within a (Z.of_nat (length l)) x → m' !! x = m !! x) → bytes m' a l.
Proof.
  intros H He i x Hi. rewrite He; [by apply H|]. apply lookup_lt_Some in Hi. unfold within. lia.
Qed.

Lemma bytes_insert m a l x v :
  bytes m a l → ¬ within a (Z.of_nat (length l)) x → bytes (<[x := v]> m) a l.
Proof.
  intros H Hx. eapply bytes_ext; [done|]. intros y Hy. rewrite lookup_insert_ne; [done|].
  intros ->. done.
Qed.

Lemma bytes_size m a l : bytes m a l → (length l ≤ size m)%nat.
Proof.
  revert m a. induction l as [|x l IH]; intros m a; simpl; [lia|].
  intros [Hx Hl]%bytes_cons. rewrite <-(insert_delete_id m a x Hx).
  rewrite map_size_insert_None by apply lookup_delete_eq.
  apply le_n_S, (IH _ (a + 1)). eapply bytes_ext; [done|].
  intros y Hy. unfold within in Hy. apply lookup_delete_ne. lia.
Qed.

(** ** Copies *)

(** What a copy of [l] to [dst] leaves: the bytes there and the rest alone. *)
Definition copied (dst : Z) (l : list Z) (m m' : bmem) : Prop :=
  bytes m' dst l ∧ ∀ x, ¬ within dst (Z.of_nat (length l)) x → m' !! x = m !! x.

(** Upwards: right when the destination does not start inside the source. *)
Lemma wp_copy_up l l0 dst src m :
  bytes m src l → bytes m dst l0 → length l0 = length l →
  (dst < src ∨ src + Z.of_nat (length l) ≤ dst) →
  wp (copy_up (length l) dst src) m (λ _ m', copied dst l m m').
Proof.
  revert l0 dst src m. induction l as [|x l IH]; intros l0 dst src m Hs Hd Hlen Hov; simpl.
  { split; [apply bytes_nil|done]. }
  destruct l0 as [|x0 l0]; [done|]. simpl in Hlen, Hov.
  apply bytes_cons in Hs as [Hx Hs]. apply bytes_cons in Hd as [Hx0 Hd].
  apply wp_bind, (wp_ld _ x); [done|]. apply wp_bind, (wp_st _ _ x0); [done|].
  eapply wp_mono.
  { apply (IH l0); [| |lia|lia].
    - apply bytes_insert; [done|]. unfold within. lia.
    - apply bytes_insert; [done|]. unfold within. lia. }
  intros _ m' [Hb Hf]. split.
  - apply bytes_cons. split; [|done]. rewrite Hf; [apply lookup_insert_eq|]. unfold within. lia.
  - intros y Hy. unfold within in *. simpl in Hy. rewrite Hf by lia. apply lookup_insert_ne. lia.
Qed.

(** Downwards: right when the source does not start inside the destination. *)
Lemma wp_copy_down l l0 dst src m :
  bytes m src l → bytes m dst l0 → length l0 = length l → src ≤ dst →
  wp (copy_down (length l) dst src) m (λ _ m', copied dst l m m').
Proof.
  revert l0 m. induction l as [|x l IH] using rev_ind; intros l0 m Hs Hd Hlen Hov; simpl.
  { split; [apply bytes_nil|done]. }
  destruct l0 as [|x0 l0 _] using rev_ind; [rewrite length_app in Hlen; simpl in Hlen; lia|].
  rewrite !length_app in Hlen. simpl in Hlen. rewrite length_app, Nat.add_1_r. simpl.
  apply bytes_snoc in Hs as [Hs Hx]. apply bytes_snoc in Hd as [Hd Hx0].
  replace (length l0) with (length l) in Hx0 by lia.
  apply wp_bind, (wp_ld _ x); [done|]. apply wp_bind, (wp_st _ _ x0); [done|].
  eapply wp_mono.
  { apply (IH l0); [| |lia|done].
    - apply bytes_insert; [done|]. unfold within. lia.
    - apply bytes_insert; [done|]. unfold within. lia. }
  intros _ m' [Hb Hf]. split.
  - apply bytes_snoc. split; [done|]. rewrite Hf; [apply lookup_insert_eq|]. unfold within. lia.
  - intros y Hy. unfold within in *. rewrite length_app in Hy. simpl in Hy.
    rewrite Hf by lia. apply lookup_insert_ne. lia.
Qed.

(** Memmove copies the source's bytes to the destination and changes
    nothing else, however the two overlap, and returns the destination. *)
Theorem memmove_correct m dst src l l0 :
  bytes m src l → bytes m dst l0 → length l0 = length l →
  wp (memmove dst src (Z.of_nat (length l))) m (λ r m', r = dst ∧ copied dst l m m').
Proof.
  intros Hs Hd Hlen. unfold memmove. rewrite Nat2Z.id.
  destruct (Z.ltb_spec dst src); eapply wp_seq.
  - apply (wp_copy_up l l0); eauto.
  - intros ? m' Hc. by apply wp_ret.
  - apply (wp_copy_down l l0); eauto; lia.
  - intros ? m' Hc. by apply wp_ret.
Qed.

Lemma wp_memcpy m dst src l l0 :
  bytes m src l → bytes m dst l0 → length l0 = length l →
  (dst + Z.of_nat (length l) ≤ src ∨ src + Z.of_nat (length l) ≤ dst) →
  wp (memcpy dst src (Z.of_nat (length l))) m (λ r m', r = dst ∧ copied dst l m m').
Proof.
  intros Hs Hd Hlen Hov. unfold memcpy. rewrite Nat2Z.id.
  destruct l as [|x l].
  { apply wp_ret. split; [done|]. split; [apply bytes_nil|done]. }
  eapply wp_seq; [apply (wp_copy_up _ l0); eauto; simpl in *; lia|].
  intros ? m' Hc. by apply wp_ret.
Qed.

Lemma wp_fill c l0 p m :
  bytes m p l0 →
  wp (fill_from (length l0) p c) m (λ _ m', copied p (replicate (length l0) c) m m').
Proof.
  revert p m. induction l0 as [|x0 l0 IH]; intros p m Hd; simpl.
  { split; [apply bytes_nil|done]. }
  apply bytes_cons in Hd as [Hx0 Hd]. apply wp_bind, (wp_st _ _ x0); [done|].
  eapply wp_mono; [apply IH, bytes_insert; [done|unfold within; lia]|].
  intros _ m' [Hb Hf]. rewrite length_replicate in Hf. split.
  - apply bytes_cons. split; [|done]. rewrite Hf; [apply lookup_insert_eq|]. unfold within. lia.
  - intros y Hy. unfold within in *. simpl in Hy. rewrite length_replicate in Hy.
    rewrite Hf by lia. apply lookup_insert_ne. lia.
Qed.

Lemma wp_memset m p c l0 :
  bytes m p l0 →
  wp (memset p c (Z.of_nat (length l0))) m
     (λ r m', r = p ∧ copied p (replicate (length l0) (u8 c)) m m').
Proof.
  intros Hd. unfold memset. rewrite Nat2Z.id. eapply wp_seq; [by apply wp_fill|].
  intros ? m' Hc. by apply wp_ret.
Qed.

(** ** Scans *)

(** The sign of the first difference. *)
Fixpoint lex (l1 l2 : list Z) : Z :=
  match l1, l2 with
  | x :: l1, y :: l2 => if x <? y then -1 else if y <? x then 1 else lex l1 l2
  | _, _ => 0
  end.

Lemma lex_eq l1 l2 : length l1 = length l2 → lex l1 l2 = 0 ↔ l1 = l2.
Proof.
  revert l2. induction l1 as [|x l1 IH]; intros [|y l2] Hlen; simpl; try done.
  injection Hlen as Hlen. destruct (Z.ltb_spec x y), (Z.ltb_spec y x); try lia.
  - split; [done|]. intros [= ->]. lia.
  - split; [done|]. intros [= ->]. lia.
  - rewrite (IH _ Hlen). assert (x = y) as -> by lia. naive_solver.
Qed.

Lemma wp_memcmp m a b l1 l2 (Q : Z → bmem → Prop) :
  bytes m a l1 → bytes m b l2 → length l1 = length l2 → Q (lex l1 l2) m →
  wp (memcmp a b (Z.of_nat (length l1))) m Q.
Proof.
  unfold memcmp. rewrite Nat2Z.id.
  revert a b l2. induction l1 as [|x l1 IH]; intros a b [|y l2] Ha Hb Hlen HQ; simpl in *; try done.
  apply bytes_cons in Ha as [Hx Ha]. apply bytes_cons in Hb as [Hy Hb].
  apply wp_bind, (wp_ld _ x); [done|]. apply wp_bind, (wp_ld _ y); [done|].
  destruct (x <? y); [done|]. destruct (y <? x); [done|]. apply (IH _ _ l2); auto.
Qed.

Lemma wp_memchr m p c l (Q : Z → bmem → Prop) :
  bytes m p l →
  (∀ l1 l2, l = l1 ++ u8 c :: l2 → u8 c ∉ l1 → Q (p + Z.of_nat (length l1)) m) →
  (u8 c ∉ l → Q NULL m) →
  wp (memchr p c (Z.of_nat (length l))) m Q.
Proof.
  unfold memchr. rewrite Nat2Z.id.
  revert p Q. induction l as [|x l IH]; intros p Q Hp Hin Hout; simpl.
  { apply wp_ret, Hout. apply not_elem_of_nil. }
  apply bytes_cons in Hp as [Hx Hp]. apply wp_bind, (wp_ld _ x); [done|].
  destruct (Z.eqb_spec x (u8 c)) as [->|Hne].
  { apply wp_ret. rewrite <-(Z.add_0_r p). apply (Hin [] l); [done|apply not_elem_of_nil]. }
  apply IH; [done| |].
  - intros l1 l2 -> Hl1. replace (p + 1 + Z.of_nat (length l1)) with (p + Z.of_nat (length (x :: l1)))
      by (simpl length; lia).
    apply (Hin _ l2); [done|]. rewrite not_elem_of_cons. auto.
  - intros Hl. apply Hout. rewrite not_elem_of_cons. auto.
Qed.

(** A terminated string. *)
Definition cstring (m : bmem) (a : Z) (l : list Z) : Prop := bytes m a (l ++ [0]) ∧ 0 ∉ l.

Lemma wp_strlen m s l (Q : Z → bmem → Prop) :
  cstring m s l → Q (Z.of_nat (length l)) m → wp (strlen s) m Q.
Proof.
  intros [Hb H0] HQ. unfold strlen. apply wp_bind, wp_get.
  apply (wp_loop (λ k b m', m' = m ∧ ∃ l1 l2, l = l1 ++ l2 ∧ k = length l2 ∧
            b = (s + Z.of_nat (length l1), Z.of_nat (length l1)))) with (n := length l).
  - intros k b m' (-> & l1 & l2 & -> & -> & ->). apply wp_bind.
    rewrite <-(assoc_L (++)) in Hb.
    assert (Hl1 : (l1 ++ l2 ++ [0]) !! length l1 = (l2 ++ [0]) !! O).
    { rewrite lookup_app_r by lia. by rewrite Nat.sub_diag. }
    destruct l2 as [|x l2]; simpl in Hl1.
    + apply (wp_ld _ 0); [by apply Hb|]. rewrite app_nil_r in HQ. done.
    + apply (wp_ld _ x); [by apply Hb|].
      destruct (Z.eqb_spec x 0) as [->|_].
      { destruct H0. apply elem_of_app. right. by left. }
      apply wp_ret. exists (length l2). split; [simpl; lia|]. split; [done|].
      exists (l1 ++ [x]), l2. rewrite <-(assoc_L (++)), length_app. split; [done|]. split; [done|].
      simpl. f_equal; lia.
  - split; [done|]. exists [], l. rewrite Z.add_0_r. done.
  - apply bytes_size in Hb. rewrite length_app in Hb. simpl in Hb. lia.
Qed.

(** The three scans agree with their definitions on lists: memcmp gives
    the sign of the first difference of two strings of the same length, 0
    exactly when they are equal; memchr finds the first occurrence of a byte
    or gives NULL; strlen gives the number of bytes before the terminator.
    None of them writes. *)
Theorem scans_correct m a b l1 l2 c :
  cstring m a l1 → bytes m b l2 → length l1 = length l2 →
  wp (memcmp a b (Z.of_nat (length l1))) m
     (λ r m', m' = m ∧ r = lex l1 l2 ∧ (r = 0 ↔ l1 = l2)) ∧
  wp (memchr a c (Z.of_nat (length l1))) m
     (λ r m', m' = m ∧ (r = NULL ∧ u8 c ∉ l1 ∨
        ∃ p q, l1 = p ++ u8 c :: q ∧ u8 c ∉ p ∧ r = a + Z.of_nat (length p))) ∧
  wp (strlen a) m (λ r m', m' = m ∧ r = Z.of_nat (length l1)).
Proof.
  intros Ha Hb Hlen. assert (bytes m a l1) as Ha1.
  { intros i x Hi. apply (proj1 Ha). by apply lookup_app_l_Some. }
  split; [|split].
  - apply (wp_memcmp _ _ _ _ l2); auto. by rewrite lex_eq.
  - apply wp_memchr; [done| |]; [|by auto]. intros p q -> Hp. split; [done|]. right. by exists p, q.
  - by apply (wp_strlen _ _ l1).
Qed.

Module StringsDemo.
(** The string 1, 2, 3 and its terminator at 100. *)
Definition m : bmem := <[100 := 1]> (<[101 := 2]> (<[102 := 3]> (<[103 := 0]> ∅))).

Lemma at_100 : bytes m 100 [1; 2; 3; 0].
Proof. repeat (apply bytes_cons; split; [done|]). apply bytes_nil. Qed.

Lemma prefix_100 : bytes m 100 [1; 2; 3].
Proof. exact (proj1 (proj1 (bytes_snoc _ _ [1; 2; 3] _) at_100)). Qed.

Lemma at_101 : bytes m 101 [2; 3; 0].
Proof. exact (proj2 (proj1 (bytes_cons _ _ _ _) at_100)). Qed.

Lemma terminated : cstring m 100 [1; 2; 3].
Proof. split; [exact at_100|]. rewrite !not_elem_of_cons. split_and!; try done. apply not_elem_of_nil. Qed.
End StringsDemo.

Lemma memmove_correct_witness :
  wp (memmove 101 100 3) StringsDemo.m (λ r m', r = 101 ∧ copied 101 [1; 2; 3] StringsDemo.m m').
Proof.
  apply (memmove_correct _ 101 100 [1; 2; 3] [2; 3; 0]);
    [apply StringsDemo.prefix_100|apply StringsDemo.at_101|done].
Defined.

Lemma scans_correct_witness :
  wp (strlen 100) StringsDemo.m (λ r m', m' = StringsDemo.m ∧ r = 3).
Proof.
  apply (scans_correct _ 100 101 [1; 2; 3] [2; 3; 0] 2 StringsDemo.terminated StringsDemo.at_101 eq_refl).
Defined.
