(* ===== verification/StringTests.v ===== *)
(** * The unit tests of the string functions

    libk/tests/tstring.c, one definition per [subdesc]: its cases in order,
    each the buffers the case declares, the call it makes and the comparison
    it asserts.  A case whose call faults does not pass.  The functions tested
    are those of Strings, and the theorem runs them. *)

From stdpp Require Import base list gmap.
From Stdlib Require Import ZArith.
From S2P Require Import Prelude Strings.
Local Open Scope Z_scope.

(** ** The harness *)

(** [char name[] = { ... };] at an address of the stack. *)
Fixpoint declare (a : Z) (l : list Z) (m : bmem) : bmem :=
  match l with [] => m | x :: l => declare (a + 1) l (<[a := x]> m) end.

(** The bytes of [asserteq_buf(p, expected, n)]; both buffers are read. *)
Definition asserteq_buf (p : Z) (expected : list Z) (n : Z) : B bool :=
  l ← mapM (λ i, ld (p + Z.of_nat i)) (seq 0 (Z.to_nat n));
  mret (bool_decide (l = take (Z.to_nat n) expected)).

Definition asserteq (x y : Z) : B bool := mret (x =? y).
Definition assertneq (x y : Z) : B bool := mret (negb (x =? y)).

Definition it (m : bmem) (case : B bool) : bool :=
  match case m with Ok (b, _) => b | _ => false end.

Definition to_ten : list Z := [1; 2; 3; 4; 5; 6; 7; 8; 9; 10].
Definition to_fifteen : list Z := to_ten ++ [11; 12; 13; 14; 15].
Definition zeros : list Z := replicate 10 0.

(** Where the two buffers of a case lie. *)
Definition buf1 : Z := 0x1000.
Definition buf2 : Z := 0x2000.
Definition two (l1 l2 : list Z) : bmem := declare buf1 l1 (declare buf2 l2 ∅).

(** ** The tests *)

Definition test_memcpy : list bool :=
  [it (two zeros to_ten) (memcpy buf1 buf2 10;; asserteq_buf buf1 to_ten 10)].

Definition test_memset : list bool :=
  [it (declare buf1 zeros ∅) (memset buf1 1 10;; asserteq_buf buf1 (replicate 10 1) 10)].

(** The first case calls [memcpy]. *)
Definition test_memmove : list bool :=
  [it (two zeros to_ten) (memcpy buf1 buf2 10;; asserteq_buf buf1 to_ten 10);
   it (declare buf1 to_fifteen ∅)
     (memmove buf1 (buf1 + 4) 10;; asserteq_buf buf1 [5; 6; 7; 8; 9; 10; 11; 12; 13; 14] 10);
   it (declare buf1 to_fifteen ∅) (memmove (buf1 + 4) buf1 10;; asserteq_buf (buf1 + 4) to_ten 10)].

Definition test_memcmp : list bool :=
  [it (two to_ten to_ten) (r ← memcmp buf1 buf2 10; asserteq r 0);
   it (two to_ten [1; 2; 4; 4; 5; 6; 7; 8; 9; 10]) (r ← memcmp buf1 buf2 10; assertneq r 0)].

Definition test_memchr : list bool :=
  [it (declare buf1 to_ten ∅) (r ← memchr buf1 3 10; asserteq r (buf1 + 2));
   it (declare buf1 to_ten ∅) (r ← memchr buf1 11 10; asserteq r NULL);
   it (declare buf1 to_ten ∅) (r ← memchr buf1 (256 + 3) 10; asserteq r (buf1 + 2))].

(** The string literal has its terminator. *)
Definition test_strlen : list bool :=
  [it (declare buf1 [48; 49; 50; 51; 52; 53; 54; 55; 56; 57; 0] ∅) (r ← strlen buf1; asserteq r 10);
   it (declare buf1 [0] ∅) (r ← strlen buf1; asserteq r 0)].

Definition describe_string : list bool :=
  test_memcpy ++ test_memset ++ test_memmove ++ test_memcmp ++ test_memchr ++ test_strlen.

(** ** Theorems *)

(** The twelve cases pass on the model of the functions, as they do on the code. *)
Theorem string_tests_pass : describe_string = replicate 12 true.
Proof. vm_compute. reflexivity. Qed.
