(* ===== verification/Console.v ===== *)
(** * The console: escape sequences, VGA text mode, serial port

    kernel/drivers/vga_tmode/cansid.c, vga_tmode.c and drivers/serial/serial.c.
    The screen is a list of 80 x 25 cells; writes to I/O ports are recorded,
    the last one first.  The UART's status register is outside the program:
    [uart n] is what the n-th read of it gives. *)

From stdpp Require Import base list.
From Stdlib Require Import ZArith Lia Bool.
From S2P Require Import Prelude.
Local Open Scope Z_scope.

(** ** cansid.c *)

Inductive cansid_mode :=
| CANSID_ESC | CANSID_BRACKET | CANSID_PARSE | CANSID_BGCOLOR | CANSID_FGCOLOR
| CANSID_EQUALS | CANSID_ENDVAL.

Record cansid_state := mk_cansid { state : cansid_mode; style : Z; next_style : Z }.
Record color_char := mk_cc { cc_style : Z; ascii : Z }.

Definition ESC : Z := 0x1B.

Definition cansid_init : cansid_state := mk_cansid CANSID_ESC 0x0F 0x0F.

(** Callers pass a colour below 8. *)
Definition cansid_convert_color (color : Z) : Z :=
  default 0 ([0; 4; 2; 6; 1; 5; 3; 7] !! Z.to_nat color).

(** A character that does not belong to a sequence ends it: it is printed and
    the style under construction is dropped. *)
Definition cansid_abandon (s : cansid_state) (x : Z) : color_char * cansid_state :=
  (mk_cc (style s) (u8 x), mk_cansid CANSID_ESC (style s) (style s)).

Definition cansid_process (s : cansid_state) (x : Z) : color_char * cansid_state :=
  let none := mk_cc (style s) 0 in
  let goto m := (none, mk_cansid m (style s) (next_style s)) in
  let next m ns := (none, mk_cansid m (style s) (u8 ns)) in
  match state s with
  | CANSID_ESC =>
      if x =? ESC then goto CANSID_BRACKET else (mk_cc (style s) (u8 x), s)
  | CANSID_BRACKET =>
      if x =? 91 (* '[' *) then goto CANSID_PARSE
      else (mk_cc (style s) (u8 x), mk_cansid CANSID_ESC (style s) (next_style s))
  | CANSID_PARSE =>
      if x =? 51 (* '3' *) then goto CANSID_FGCOLOR
      else if x =? 52 (* '4' *) then goto CANSID_BGCOLOR
      else if x =? 48 (* '0' *) then next CANSID_ENDVAL 0x0F
      else if x =? 49 (* '1' *) then next CANSID_ENDVAL (Z.lor (next_style s) (Z.shiftl 1 3))
      else if x =? 61 (* '=' *) then goto CANSID_EQUALS
      else cansid_abandon s x
  | CANSID_BGCOLOR =>
      if (48 <=? x) && (x <=? 55) then
        next CANSID_ENDVAL (Z.lor (Z.land (next_style s) 0x1F) (Z.shiftl (cansid_convert_color (x - 48)) 4))
      else cansid_abandon s x
  | CANSID_FGCOLOR =>
      if (48 <=? x) && (x <=? 55) then
        next CANSID_ENDVAL (Z.lor (Z.land (next_style s) 0xF8) (cansid_convert_color (x - 48)))
      else cansid_abandon s x
  | CANSID_EQUALS =>
      if x =? 49 then next CANSID_ENDVAL (Z.land (next_style s) (Z.lnot (Z.shiftl 1 3)))
      else cansid_abandon s x
  | CANSID_ENDVAL =>
      if x =? 59 (* ';' *) then goto CANSID_PARSE
      else if x =? 109 (* 'm' *) then (none, mk_cansid CANSID_ESC (next_style s) (next_style s))
      else cansid_abandon s x
  end.

(** ** The console's state *)

Record console := mk_console {
  vgabuf : list Z;
  x_pos : nat;
  y_pos : nat;
  cansid : cansid_state;
  ports : list (Z * Z);
  polls : nat
}.

Definition VGAWIDTH : nat := 80.
Definition VGAHEIGHT : nat := 25.

Definition upd_buf b s := mk_console b (x_pos s) (y_pos s) (cansid s) (ports s) (polls s).
Definition upd_cansid c s := mk_console (vgabuf s) (x_pos s) (y_pos s) c (ports s) (polls s).
Definition upd_pos x y s := mk_console (vgabuf s) x y (cansid s) (ports s) (polls s).
Definition upd_ports f s := mk_console (vgabuf s) (x_pos s) (y_pos s) (cansid s) (f (ports s)) (polls s).
Definition upd_polls n s := mk_console (vgabuf s) (x_pos s) (y_pos s) (cansid s) (ports s) n.

Abbreviation T := (M console).

Definition outb (port v : Z) : T unit := modify (upd_ports (cons (port, u8 v))).

(** ** vga_tmode.c *)

Definition vga_tmode_setcursor (x y : nat) : T unit :=
  modify (upd_pos x y);;
  let position := u16 (Z.of_nat y * 80 + Z.of_nat x) in
  outb 0x3D4 0x0F;;
  outb 0x3D5 (Z.land position 0xFF);;
  outb 0x3D4 0x0E;;
  outb 0x3D5 (Z.land (Z.shiftr position 8) 0xFF).

(** [memcpy] of row [i] onto the row above it. *)
Definition copy_row (buf : list Z) (i : nat) : list Z :=
  take ((i - 1) * VGAWIDTH) buf ++ take VGAWIDTH (drop (i * VGAWIDTH) buf) ++ drop (i * VGAWIDTH) buf.

Definition blank : Z := Z.lor (Z.shiftl 0x0F 8) 32.

(** Rows 2 to 24 move up, row 0 stays, the bottom row is cleared. *)
Definition scroll (buf : list Z) : list Z :=
  let up := fold_left copy_row (seq 2 (VGAHEIGHT - 2)) buf in
  take (VGAWIDTH * (VGAHEIGHT - 1)) up ++ replicate VGAWIDTH blank.

Definition vga_tmode_newline : T unit :=
  s ← get;
  (if (y_pos s =? VGAHEIGHT - 1)%nat then
     modify (λ s, upd_buf (scroll (vgabuf s)) s);; modify (upd_pos 0 (y_pos s))
   else modify (upd_pos 0 (S (y_pos s))));;
  s ← get; vga_tmode_setcursor (x_pos s) (y_pos s).

(** The character is a [char]: from 128 on it is negative. *)
Definition vga_tmode_write_char (c st : Z) (x y : nat) : T unit :=
  s ← get;
  if (y * 80 + x <? length (vgabuf s))%nat
  then modify (upd_buf (<[(y * 80 + x)%nat := u16 (Z.lor (Z.shiftl st 8) (i8 c))]> (vgabuf s)))
  else fault.

(** [vga_tmode_raw_putchar] and [vga_tmode_putchar] call each other for tabs;
    [fuel] bounds the depth. *)
Fixpoint raw_putchar (fuel : nat) (c st : Z) : T unit :=
  match fuel with
  | O => diverge
  | S fuel =>
      let putchar c :=
        s ← get;
        let '(ch, cs) := cansid_process (cansid s) c in
        modify (upd_cansid cs);; raw_putchar fuel (ascii ch) (cc_style ch) in
      (if i8 c =? 0 then mret tt
       else if i8 c =? 10 then vga_tmode_newline
       else if i8 c =? 9 then putchar 32;; putchar 32;; putchar 32;; putchar 32
       else
         s ← get;
         vga_tmode_write_char c st (x_pos s) (y_pos s);;
         if (x_pos s =? VGAWIDTH - 1)%nat then vga_tmode_newline
         else modify (upd_pos (S (x_pos s)) (y_pos s)));;
      s ← get; vga_tmode_setcursor (x_pos s) (y_pos s)
  end.

(** A space never starts another tab: two levels are enough. *)
Definition vga_tmode_raw_putchar : Z → Z → T unit := raw_putchar 2.

Definition vga_tmode_putchar (c : Z) : T unit :=
  s ← get;
  let '(ch, cs) := cansid_process (cansid s) c in
  modify (upd_cansid cs);; vga_tmode_raw_putchar (ascii ch) (cc_style ch).

Fixpoint vga_tmode_puts (l : list Z) : T unit :=
  match l with [] => mret tt | c :: l => vga_tmode_putchar c;; vga_tmode_puts l end.

(** ** serial.c *)

Definition COM1_PORT : Z := 0x3F8.
Definition COM2_PORT : Z := 0x2F8.

Section Serial.
Context (uart : nat → Z) (patience : nat).

Definition inb_status : T Z :=
  s ← get; modify (upd_polls (S (polls s)));; mret (u8 (uart (polls s))).

Definition serial_transmit_empty : T Z := v ← inb_status; mret (Z.land v 0x20).

(** The wait loop gets one round more than [patience]. *)
Definition serial_wait : T unit :=
  loop (S patience) (λ _, v ← serial_transmit_empty; mret (if v =? 0 then inl tt else inr tt)) tt.

Definition serial_write_com (com data : Z) : T unit :=
  if com =? 1 then serial_wait;; outb COM1_PORT data
  else if com =? 2 then serial_wait;; outb COM2_PORT data
  else mret tt.

Definition serial_setup (port : Z) : T unit :=
  outb (port + 1) 0x00;;
  outb (port + 3) 0x80;;
  outb (port + 0) 0x03;;
  outb (port + 1) 0x00;;
  outb (port + 3) 0x02;;
  outb (port + 2) 0xC7;;
  outb (port + 4) 0x0B.

Fixpoint serial_puts (l : list Z) : T unit :=
  match l with [] => mret tt | c :: l => serial_write_com 1 c;; serial_puts l end.

Definition serial_init : T unit :=
  serial_setup COM1_PORT;; serial_setup COM2_PORT;;
  serial_puts (replicate 35 45 (* '-' *) ++ [10]).

(** [kprintf_write_char] of libk/kprintf.c *)
Definition kprintf_write_char (c : Z) : T unit :=
  serial_write_com 1 c;; vga_tmode_putchar c.

(** The title bar: a style, the name in the middle, the default style. *)
Definition title : list Z :=
  [ESC; 91; 61; 49; 59; 51; 48; 59; 52; 55; 109] ++ replicate 37 32 ++ [66; 121; 116; 101; 79; 83].
Definition title_end : list Z := replicate 37 32 ++ [ESC; 91; 48; 109].

Definition vga_tmode_init : T unit :=
  modify (upd_cansid cansid_init);; serial_init;;
  vga_tmode_puts title;; vga_tmode_puts title_end.
End Serial.

(** ** The screen *)

Record console_ok (s : console) : Prop := {
  ok_buf : length (vgabuf s) = (VGAWIDTH * VGAHEIGHT)%nat;
  ok_x : (x_pos s < VGAWIDTH)%nat;
  ok_y : (y_pos s < VGAHEIGHT)%nat
}.

(** Scrolling as a whole: the title row, all rows but the first below it, and
    a blank row. *)
Definition scrolled (buf : list Z) : list Z :=
  take VGAWIDTH buf ++ drop (2 * VGAWIDTH) buf ++ replicate VGAWIDTH blank.

Lemma copy_row_at (a b c d : list Z) i :
  length a = (i * VGAWIDTH)%nat → length b = VGAWIDTH → length c = VGAWIDTH →
  copy_row (a ++ b ++ c ++ d) (S i) = a ++ c ++ c ++ d.
Proof.
  intros Ha Hb Hc. unfold copy_row.
  replace (S i - 1)%nat with i by lia. rewrite <-Ha, take_app_length.
  replace (S i * VGAWIDTH)%nat with (length a + VGAWIDTH)%nat by (rewrite Ha; lia).
  rewrite drop_app_add.
  assert (drop VGAWIDTH (b ++ c ++ d) = c ++ d) as -> by (rewrite <-Hb; apply drop_app_length).
  assert (take VGAWIDTH (c ++ d) = c) as -> by (rewrite <-Hc; apply take_app_length). done.
Qed.

(** Moving up the [n] rows [d] below row [k]. *)
Lemma copy_rows (n k : nat) (a b d : list Z) :
  length a = (k * VGAWIDTH)%nat → length b = VGAWIDTH → length d = (n * VGAWIDTH)%nat →
  ∃ z, length z = VGAWIDTH ∧ fold_left copy_row (seq (S k) n) (a ++ b ++ d) = a ++ d ++ z.
Proof.
  revert k a b d. induction n as [|n IH]; intros k a b d Ha Hb Hd; simpl seq; simpl fold_left.
  { apply nil_length_inv in Hd as ->. exists b. by rewrite app_nil_r. }
  assert (length (take VGAWIDTH d) = VGAWIDTH) as Ht by (rewrite length_take; lia).
  assert (length (drop VGAWIDTH d) = (n * VGAWIDTH)%nat) as Hdr by (rewrite length_drop; lia).
  rewrite <-(take_drop VGAWIDTH d). set (c := take VGAWIDTH d) in *. set (d' := drop VGAWIDTH d) in *.
  rewrite copy_row_at by done.
  destruct (IH (S k) (a ++ c) c d') as (z & Hz & E); [rewrite length_app; lia|done..|].
  exists z. split; [done|]. rewrite <-!(assoc_L (++)) in E. by rewrite <-(assoc_L (++)).
Qed.

Lemma scroll_scrolled buf :
  length buf = (VGAWIDTH * VGAHEIGHT)%nat → scroll buf = scrolled buf.
Proof.
  intros Hlen. unfold scroll, scrolled.
  change VGAHEIGHT with 25%nat in *. change (25 - 2)%nat with 23%nat. change (25 - 1)%nat with 24%nat.
  assert (buf = take VGAWIDTH buf ++ take VGAWIDTH (drop VGAWIDTH buf) ++ drop (2 * VGAWIDTH) buf) as E.
  { replace (2 * VGAWIDTH)%nat with (VGAWIDTH + VGAWIDTH)%nat by lia.
    by rewrite <-drop_drop, !take_drop. }
  assert (length (take VGAWIDTH buf) = VGAWIDTH) as H1 by (rewrite length_take; lia).
  destruct (copy_rows 23 1 (take VGAWIDTH buf) (take VGAWIDTH (drop VGAWIDTH buf)) (drop (2 * VGAWIDTH) buf))
    as (z & Hz & Ez).
  { lia. } { rewrite length_take, length_drop. lia. } { rewrite length_drop. lia. }
  rewrite <-E in Ez. rewrite Ez, !(assoc_L (++)). f_equal. rewrite take_app_le, take_ge; [done|..];
    rewrite length_app, length_drop; lia.
Qed.

Lemma length_scrolled buf :
  length buf = (VGAWIDTH * VGAHEIGHT)%nat → length (scrolled buf) = (VGAWIDTH * VGAHEIGHT)%nat.
Proof.
  intros Hlen. unfold scrolled. rewrite !length_app, length_take, length_drop, length_replicate.
  change VGAHEIGHT with 25%nat in *. lia.
Qed.

(** ** What one character does *)

(** The screen, without the record of port writes. *)
Definition screen (s : console) : list Z * nat * nat := (vgabuf s, x_pos s, y_pos s).

Definition newline (v : list Z * nat * nat) : list Z * nat * nat :=
  let '(buf, x, y) := v in
  if (y =? VGAHEIGHT - 1)%nat then (scrolled buf, O, y) else (buf, O, S y).

(** Put a cell at the cursor and move on. *)
Definition put_cell (cell : Z) (v : list Z * nat * nat) : list Z * nat * nat :=
  let '(buf, x, y) := v in
  let buf := <[(y * 80 + x)%nat := cell]> buf in
  if (x =? VGAWIDTH - 1)%nat then newline (buf, x, y) else (buf, S x, y).

Definition cell (c st : Z) : Z := u16 (Z.lor (Z.shiftl st 8) (i8 c)).

(** A character of text, after escape sequences have been taken out. *)
Definition show (c st : Z) (v : list Z * nat * nat) : list Z * nat * nat :=
  if i8 c =? 0 then v else if i8 c =? 10 then newline v else put_cell (cell c st) v.

Definition view_ok (v : list Z * nat * nat) : Prop :=
  let '(buf, x, y) := v in
  length buf = (VGAWIDTH * VGAHEIGHT)%nat ∧ (x < VGAWIDTH)%nat ∧ (y < VGAHEIGHT)%nat.

Lemma view_ok_newline v : view_ok v → view_ok (newline v).
Proof.
  destruct v as [[buf x] y]. intros (Hb & Hx & Hy). unfold newline.
  destruct (Nat.eqb_spec y (VGAHEIGHT - 1)); simpl.
  - split; [by apply length_scrolled|]. split; [unfold VGAWIDTH; lia|done].
  - split; [done|]. split; [unfold VGAWIDTH; lia|lia].
Qed.

Lemma view_ok_put_cell k v : view_ok v → view_ok (put_cell k v).
Proof.
  destruct v as [[buf x] y]. intros (Hb & Hx & Hy). unfold put_cell.
  destruct (Nat.eqb_spec x (VGAWIDTH - 1)).
  - apply view_ok_newline. simpl. by rewrite length_insert.
  - simpl. rewrite length_insert. split; [done|]. split; [lia|done].
Qed.

(** The bytes sent to a port, in order. *)
Definition sent (port : Z) (s : console) : list Z :=
  reverse (filter (λ e, e.1 = port) (ports s)).*2.

(** What an operation may do besides changing the screen: write to ports
    other than [COM1_PORT]. *)
Definition shows (v : list Z * nat * nat) (cs : cansid_state) (s s' : console) : Prop :=
  screen s' = v ∧ cansid s' = cs ∧ polls s' = polls s ∧ sent COM1_PORT s' = sent COM1_PORT s.

Lemma shows_trans v v' cs cs' s s' s'' :
  shows v cs s s' → shows v' cs' s' s'' → shows v' cs' s s''.
Proof. unfold shows. intuition congruence. Qed.

(** Changes of the screen before an operation do not show in its record. *)
Lemma shows_from v cs s s0 s' :
  shows v cs s0 s' → polls s0 = polls s → ports s0 = ports s → shows v cs s s'.
Proof. unfold shows, sent. intros (? & ? & ? & ?) ? E. rewrite E in *. intuition congruence. Qed.

Lemma sent_cons port e s :
  sent port (upd_ports (cons e) s) = sent port s ++ (if decide (e.1 = port) then [e.2] else []).
Proof.
  unfold sent. simpl. destruct (decide (e.1 = port)).
  - rewrite filter_cons_True by done. by rewrite fmap_cons, reverse_cons.
  - rewrite filter_cons_False by done. by rewrite app_nil_r.
Qed.

Lemma wp_setcursor x y s (Q : unit → console → Prop) :
  (∀ s', shows (vgabuf s, x, y) (cansid s) s s' → Q tt s') → wp (vga_tmode_setcursor x y) s Q.
Proof.
  intros HQ. unfold vga_tmode_setcursor, outb. wp_steps. apply HQ.
  split; [done|]. split; [done|]. split; [done|].
  rewrite !sent_cons. simpl. by rewrite !app_nil_r.
Qed.

(** The cursor is put where it is: nothing changes on the screen. *)
Lemma wp_refresh s (Q : unit → console → Prop) :
  (∀ s', shows (screen s) (cansid s) s s' → Q tt s') →
  wp (s ← get; vga_tmode_setcursor (x_pos s) (y_pos s)) s Q.
Proof. intros HQ. wp_steps. by apply wp_setcursor. Qed.

Lemma wp_newline s (Q : unit → console → Prop) :
  view_ok (screen s) →
  (∀ s', shows (newline (screen s)) (cansid s) s s' → Q tt s') → wp vga_tmode_newline s Q.
Proof.
  intros (Hb & _ & _) HQ. unfold vga_tmode_newline. apply wp_bind, wp_get. cbn beta. apply wp_bind.
  unfold newline, screen in HQ. pose proof (scroll_scrolled _ Hb) as Es. revert Es.
  generalize scroll. intros f Es.
  destruct (y_pos s =? VGAHEIGHT - 1)%nat; wp_steps; apply wp_setcursor; intros s' Hs'; apply HQ;
    (eapply shows_from; [|done..]); simpl in Hs'; [rewrite <-Es|]; exact Hs'.
Qed.

Lemma wp_write_char c st s (Q : unit → console → Prop) :
  view_ok (screen s) →
  Q tt (upd_buf (<[(y_pos s * 80 + x_pos s)%nat := cell c st]> (vgabuf s)) s) →
  wp (vga_tmode_write_char c st (x_pos s) (y_pos s)) s Q.
Proof.
  intros (Hb & Hx & Hy) HQ. unfold vga_tmode_write_char. wp_steps.
  destruct (Nat.ltb_spec (y_pos s * 80 + x_pos s) (length (vgabuf s))) as [_|Hge]; [by wp_steps|].
  unfold VGAWIDTH, VGAHEIGHT in *. lia.
Qed.

(** Any character but a tab. *)
Lemma wp_raw_putchar fuel c st s (Q : unit → console → Prop) :
  view_ok (screen s) → i8 c ≠ 9 →
  (∀ s', shows (show c st (screen s)) (cansid s) s s' → Q tt s') →
  wp (raw_putchar (S fuel) c st) s Q.
Proof.
  intros Hok Hc HQ. cbn [raw_putchar]. unfold show in HQ. apply wp_bind.
  destruct (i8 c =? 0). { wp_steps. by apply wp_setcursor. }
  destruct (i8 c =? 10).
  { apply wp_newline; [done|]. intros s1 H1. apply wp_refresh. intros s2 H2.
    apply HQ. eapply shows_trans; [done|]. by rewrite <-(proj1 H1), <-(proj1 (proj2 H1)). }
  destruct (Z.eqb_spec (i8 c) 9); [done|].
  apply wp_bind, wp_get. cbn beta. apply wp_bind, wp_write_char; [done|].
  unfold put_cell, screen in HQ. destruct (Nat.eqb_spec (x_pos s) (VGAWIDTH - 1)) as [Hx|Hx].
  - apply wp_newline; [destruct Hok as (? & ? & ?); simpl; by rewrite length_insert|].
    intros s1 H1. apply wp_refresh. intros s2 H2. apply HQ. destruct H1 as (E1 & E2 & E3 & E4).
    rewrite E1, E2 in H2. unfold shows in *. simpl in *. destruct H2 as (? & ? & ? & ?).
    split_and!; try congruence. unfold sent in *. simpl in *. congruence.
  - wp_steps. apply wp_setcursor. intros s2 H2. apply HQ. by eapply shows_from.
Qed.

(** A character that is printed leaves the parser outside any sequence, in
    the style the character has. *)
Lemma cansid_printed cs x :
  ascii (cansid_process cs x).1 ≠ 0 →
  state (cansid_process cs x).2 = CANSID_ESC ∧
  style (cansid_process cs x).2 = cc_style (cansid_process cs x).1.
Proof. unfold cansid_process, cansid_abandon. destruct cs as [[] st ns]; simpl; repeat case_match; by simpl. Qed.

Lemma cansid_space cs : state cs = CANSID_ESC → cansid_process cs 32 = (mk_cc (style cs) 32, cs).
Proof. destruct cs as [m st ns]. simpl. by intros ->. Qed.

(** What the screen shows for a character of text: a tab is four spaces. *)
Definition display (ch : color_char) (v : list Z * nat * nat) : list Z * nat * nat :=
  let sp := show 32 (cc_style ch) in
  if i8 (ascii ch) =? 9 then sp (sp (sp (sp v))) else show (ascii ch) (cc_style ch) v.

Lemma view_ok_show c st v : view_ok v → view_ok (show c st v).
Proof. unfold show. intros. repeat case_match; auto using view_ok_newline, view_ok_put_cell. Qed.

Lemma view_ok_display ch v : view_ok v → view_ok (display ch v).
Proof. unfold display. intros. case_match; auto 10 using view_ok_show. Qed.

(** One of the spaces of a tab. *)
Lemma wp_tab_space fuel s (Q : unit → console → Prop) :
  view_ok (screen s) → state (cansid s) = CANSID_ESC →
  (∀ s', shows (show 32 (style (cansid s)) (screen s)) (cansid s) s s' → Q tt s') →
  wp (s ← get;
      let '(ch, cs) := cansid_process (cansid s) 32 in
      modify (upd_cansid cs);; raw_putchar (S fuel) (ascii ch) (cc_style ch)) s Q.
Proof.
  intros Hok Hesc HQ. apply wp_bind, wp_get. rewrite (cansid_space _ Hesc).
  apply wp_bind, wp_modify. apply wp_raw_putchar; [done|done|]. intros s' Hs'.
  apply HQ. eapply shows_from; [exact Hs'|done..].
Qed.

(** The four spaces one after the other. *)
Lemma wp_tab fuel st s (Q : unit → console → Prop) :
  view_ok (screen s) → state (cansid s) = CANSID_ESC → style (cansid s) = st →
  (∀ s', shows (display (mk_cc st 9) (screen s)) (cansid s) s s' → Q tt s') →
  wp (raw_putchar (S (S fuel)) 9 st) s Q.
Proof.
  intros Hok Hesc <- HQ. cbn [raw_putchar]. change (i8 9 =? 0) with false. change (i8 9 =? 10) with false.
  change (i8 9 =? 9) with true. cbv iota. apply wp_bind.
  apply wp_bind, wp_tab_space; [done..|]. intros s1 (E1 & C1 & P1 & S1).
  apply wp_bind, wp_tab_space; [rewrite E1; by apply view_ok_show|by rewrite C1|]. intros s2 (E2 & C2 & P2 & S2).
  apply wp_bind, wp_tab_space; [rewrite E2, E1; by auto using view_ok_show|by rewrite C2, C1|].
  intros s3 (E3 & C3 & P3 & S3).
  apply wp_tab_space; [rewrite E3, E2, E1; by auto 10 using view_ok_show|by rewrite C3, C2, C1|].
  intros s4 (E4 & C4 & P4 & S4). apply wp_refresh. intros s5 (E5 & C5 & P5 & S5). apply HQ.
  rewrite C1, E1 in E2. rewrite C2, C1, E2 in E3. rewrite C3, C2, C1, E3 in E4.
  split; [rewrite E5, E4; reflexivity|]. split; [congruence|]. split; congruence.
Qed.

Lemma ascii_range cs x : 0 ≤ ascii (cansid_process cs x).1 < 256.
Proof.
  pose proof (uwrap_range 8 x ltac:(lia)) as H. unfold in_u in H.
  unfold cansid_process, cansid_abandon. destruct cs as [[] st ns]; simpl; repeat case_match; simpl; lia.
Qed.

Lemma i8_tab x : 0 ≤ x < 256 → i8 x = 9 → x = 9.
Proof. intros Hx. unfold swrap. rewrite Z.mod_small by lia. simpl. case_match; lia. Qed.

Lemma wp_putchar c s (Q : unit → console → Prop) :
  view_ok (screen s) →
  (∀ s', shows (display (cansid_process (cansid s) c).1 (screen s)) (cansid_process (cansid s) c).2 s s' →
         Q tt s') →
  wp (vga_tmode_putchar c) s Q.
Proof.
  intros Hok HQ. unfold vga_tmode_putchar, vga_tmode_raw_putchar.
  pose proof (ascii_range (cansid s) c) as Hr. pose proof (cansid_printed (cansid s) c) as Hp.
  apply wp_bind, wp_get. destruct (cansid_process (cansid s) c) as [[st a] cs]. simpl in Hr, Hp, HQ.
  apply wp_bind, wp_modify. cbn [ascii cc_style]. destruct (Z.eqb_spec (i8 a) 9) as [H9|H9].
  - apply i8_tab in H9 as ->; [|done]. destruct Hp as [Hesc Hst]; [done|].
    apply wp_tab; [done..|]. intros s' Hs'. apply HQ. by eapply shows_from.
  - apply wp_raw_putchar; [done..|]. intros s' Hs'. apply HQ. unfold display. simpl.
    destruct (Z.eqb_spec (i8 a) 9); [done|]. by eapply shows_from.
Qed.

(** ** The title row *)

(** Below the title, nothing touches it. *)
Definition title_kept (v v' : list Z * nat * nat) : Prop :=
  (1 ≤ v.2)%nat → (1 ≤ v'.2)%nat ∧ take VGAWIDTH v'.1.1 = take VGAWIDTH v.1.1.

Lemma title_kept_trans v v' v'' : title_kept v v' → title_kept v' v'' → title_kept v v''.
Proof. unfold title_kept. intuition congruence. Qed.

Lemma title_kept_newline v : view_ok v → title_kept v (newline v).
Proof.
  destruct v as [[buf x] y]. intros (Hb & _ & _). unfold title_kept, newline. cbn [fst snd].
  destruct (Nat.eqb_spec y (VGAHEIGHT - 1)); cbn [fst snd]; intros Hy; [|split; [lia|done]].
  split; [done|]. unfold scrolled. rewrite take_app_le, take_ge; [done|..];
    rewrite length_take; unfold VGAHEIGHT in *; lia.
Qed.

Lemma title_kept_put k v : view_ok v → title_kept v (put_cell k v).
Proof.
  destruct v as [[buf x] y]. intros (Hb & Hx & Hy). unfold put_cell.
  assert (title_kept (buf, x, y) (<[(y * 80 + x)%nat := k]> buf, x, y)) as H1.
  { intros Hy1. cbn [fst snd] in *. split; [done|]. apply take_insert_ge. unfold VGAWIDTH. lia. }
  case_match; [|intros Hy1; by apply H1].
  eapply title_kept_trans; [exact H1|]. apply title_kept_newline. simpl. by rewrite length_insert.
Qed.

Lemma title_kept_show c st v : view_ok v → title_kept v (show c st v).
Proof.
  unfold show. intros. repeat case_match; auto using title_kept_newline, title_kept_put.
  by intros ?.
Qed.

Lemma title_kept_display ch v : view_ok v → title_kept v (display ch v).
Proof.
  intros Hv. unfold display. case_match; [|by apply title_kept_show].
  repeat (eapply title_kept_trans; [|apply title_kept_show; by auto 10 using view_ok_show]).
  by intros ?.
Qed.

(** ** Escape sequences *)

(** The parameters of a "select graphic rendition" sequence that cansid.c
    knows, with their text. *)
Inductive sgr := Reset | Bright | Dim | Fg (c : Z) | Bg (c : Z).

Definition sgr_ok (p : sgr) : Prop := match p with Fg c | Bg c => 0 ≤ c < 8 | _ => True end.

Definition sgr_text (p : sgr) : list Z :=
  match p with
  | Reset => [48] | Bright => [49] | Dim => [61; 49]
  | Fg c => [51; 48 + c] | Bg c => [52; 48 + c]
  end.

Fixpoint sgr_params (p : sgr) (ps : list sgr) : list Z :=
  match ps with [] => sgr_text p | q :: ps => sgr_text p ++ 59 :: sgr_params q ps end.

(** ESC [ p ; ... ; p m *)
Definition sgr_sequence (p : sgr) (ps : list sgr) : list Z := [ESC; 91] ++ sgr_params p ps ++ [109].

(** A style byte: background, brightness and foreground. *)
Definition bg (st : Z) : Z := st / 16.
Definition bright (st : Z) : Z := st / 8 mod 2.
Definition fg (st : Z) : Z := st mod 8.
Definition pack (b i f : Z) : Z := 16 * b + 8 * i + f.

(** What a parameter does to the style.  The background colour keeps the
    lowest bit of the old one, since the mask is 0x1F. *)
Definition render (p : sgr) (st : Z) : Z :=
  match p with
  | Reset => pack 0 1 7
  | Bright => pack (bg st) 1 (fg st)
  | Dim => pack (bg st) 0 (fg st)
  | Fg c => pack (bg st) (bright st) (cansid_convert_color c)
  | Bg c => pack (Z.lor (Z.land (bg st) 1) (cansid_convert_color c)) (bright st) (fg st)
  end.

(** The characters printed for a text and the parser's state after it. *)
Fixpoint process_all (cs : cansid_state) (l : list Z) : list color_char * cansid_state :=
  match l with
  | [] => ([], cs)
  | x :: l =>
      let '(ch, cs) := cansid_process cs x in
      let '(out, cs) := process_all cs l in
      (if ascii ch =? 0 then out else ch :: out, cs)
  end.

Lemma process_all_app cs l1 l2 :
  process_all cs (l1 ++ l2) =
    let '(o1, cs1) := process_all cs l1 in
    let '(o2, cs2) := process_all cs1 l2 in (o1 ++ o2, cs2).
Proof.
  revert cs. induction l1 as [|x l1 IH]; intros cs; simpl.
  { by destruct (process_all cs l2). }
  destruct (cansid_process cs x) as [ch cs1]. rewrite IH.
  destruct (process_all cs1 l1) as [o1 cs2], (process_all cs2 l2) as [o2 cs3]. by case_match.
Qed.

(** Every byte and every colour, by evaluation. *)
Lemma all_styles (P : Z → Z → bool) st c :
  forallb (λ st, forallb (P st) (seqZ 0 8)) (seqZ 0 256) = true →
  0 ≤ st < 256 → 0 ≤ c < 8 → P st c = true.
Proof.
  rewrite forallb_forall. intros H Hst Hc. specialize (H st). rewrite forallb_forall in H.
  apply H; apply list_elem_of_In, elem_of_seqZ; lia.
Qed.

Lemma style_arith st c :
  0 ≤ st < 256 → 0 ≤ c < 8 →
  u8 (Z.lor st (Z.shiftl 1 3)) = render Bright st ∧
  u8 (Z.land st (Z.lnot (Z.shiftl 1 3))) = render Dim st ∧
  u8 (Z.lor (Z.land st 0xF8) (cansid_convert_color c)) = render (Fg c) st ∧
  u8 (Z.lor (Z.land st 0x1F) (Z.shiftl (cansid_convert_color c) 4)) = render (Bg c) st.
Proof.
  intros Hst Hc.
  pose proof (all_styles (λ st c,
    (u8 (Z.lor st (Z.shiftl 1 3)) =? render Bright st) &&
    (u8 (Z.land st (Z.lnot (Z.shiftl 1 3))) =? render Dim st) &&
    (u8 (Z.lor (Z.land st 0xF8) (cansid_convert_color c)) =? render (Fg c) st) &&
    (u8 (Z.lor (Z.land st 0x1F) (Z.shiftl (cansid_convert_color c) 4)) =? render (Bg c) st))
    st c ltac:(by vm_compute) Hst Hc) as H.
  rewrite !andb_true_iff, !Z.eqb_eq in H. tauto.
Qed.

Lemma render_range p st : 0 ≤ st < 256 → sgr_ok p → 0 ≤ render p st < 256.
Proof.
  intros Hst Hp. destruct p as [| | |c|c]; simpl in Hp; [by vm_compute| | | |].
  - rewrite <-(proj1 (style_arith st 0 Hst ltac:(lia))). apply uwrap_range. lia.
  - rewrite <-(proj1 (proj2 (style_arith st 0 Hst ltac:(lia)))). apply uwrap_range. lia.
  - rewrite <-(proj1 (proj2 (proj2 (style_arith st c Hst Hp)))). apply uwrap_range. lia.
  - rewrite <-(proj2 (proj2 (proj2 (style_arith st c Hst Hp)))). apply uwrap_range. lia.
Qed.

Lemma process_digit st ns c :
  0 ≤ c < 8 →
  cansid_process (mk_cansid CANSID_FGCOLOR st ns) (48 + c) =
    (mk_cc st 0, mk_cansid CANSID_ENDVAL st (u8 (Z.lor (Z.land ns 0xF8) (cansid_convert_color c)))) ∧
  cansid_process (mk_cansid CANSID_BGCOLOR st ns) (48 + c) =
    (mk_cc st 0, mk_cansid CANSID_ENDVAL st
       (u8 (Z.lor (Z.land ns 0x1F) (Z.shiftl (cansid_convert_color c) 4)))).
Proof.
  intros Hc. unfold cansid_process. cbn [state style next_style].
  assert ((48 <=? 48 + c) && (48 + c <=? 55) = true) as -> by (rewrite andb_true_iff, !Z.leb_le; lia).
  by replace (48 + c - 48) with c by lia.
Qed.

Lemma process_param st ns p :
  0 ≤ ns < 256 → sgr_ok p →
  process_all (mk_cansid CANSID_PARSE st ns) (sgr_text p)
    = ([], mk_cansid CANSID_ENDVAL st (render p ns)).
Proof.
  intros Hns Hp. destruct p as [| | |c|c]; simpl in Hp.
  - done.
  - by rewrite <-(proj1 (style_arith ns 0 Hns ltac:(lia))).
  - by rewrite <-(proj1 (proj2 (style_arith ns 0 Hns ltac:(lia)))).
  - rewrite <-(proj1 (proj2 (proj2 (style_arith ns c Hns Hp)))). cbn [sgr_text process_all].
    change (cansid_process (mk_cansid CANSID_PARSE st ns) 51) with (mk_cc st 0, mk_cansid CANSID_FGCOLOR st ns).
    cbv beta iota. by rewrite (proj1 (process_digit st ns c Hp)).
  - rewrite <-(proj2 (proj2 (proj2 (style_arith ns c Hns Hp)))). cbn [sgr_text process_all].
    change (cansid_process (mk_cansid CANSID_PARSE st ns) 52) with (mk_cc st 0, mk_cansid CANSID_BGCOLOR st ns).
    cbv beta iota. by rewrite (proj2 (process_digit st ns c Hp)).
Qed.

Lemma process_params st ns p ps :
  0 ≤ ns < 256 → sgr_ok p → Forall sgr_ok ps →
  process_all (mk_cansid CANSID_PARSE st ns) (sgr_params p ps)
    = ([], mk_cansid CANSID_ENDVAL st (fold_left (λ st p, render p st) (p :: ps) ns)).
Proof.
  revert ns p. induction ps as [|q ps IH]; intros ns p Hns Hp Hps; simpl sgr_params.
  { by apply process_param. }
  apply Forall_cons in Hps as [Hq Hps].
  rewrite process_all_app, process_param by done. simpl.
  rewrite IH by auto using render_range. done.
Qed.

(** ** The UART *)

(** The transmitter empties within [patience] further reads of its status. *)
Definition uart_drains (uart : nat → Z) (patience : nat) : Prop :=
  ∀ n, ∃ k, (k ≤ patience)%nat ∧ Z.land (u8 (uart (n + k)%nat)) 0x20 ≠ 0.

Definition waited (n : nat) (s : console) : console := upd_polls n s.

Lemma wp_serial_wait uart patience s (Q : unit → console → Prop) :
  uart_drains uart patience →
  (∀ n, Q tt (waited n s)) → wp (serial_wait uart patience) s Q.
Proof.
  intros Hu HQ. unfold serial_wait. destruct (Hu (polls s)) as (k & Hk & Hready).
  apply (wp_loop (λ r (_ : unit) s', ∃ j, s' = waited (polls s + j) s ∧ (j + r = k)%nat)) with (n := k).
  - intros r _ s' (j & -> & Hj). unfold serial_transmit_empty, inb_status. wp_steps. simpl.
    destruct (Z.eqb_spec (Z.land (u8 (uart (polls s + j)%nat)) 0x20) 0) as [E|_]; [|apply HQ].
    destruct r as [|r]; [replace j with k in E by lia; done|].
    exists r. split; [lia|]. exists (S j). split; [|lia]. unfold waited, upd_polls. simpl. f_equal; lia.
  - exists O. split; [|done]. unfold waited. rewrite Nat.add_0_r. by destruct s.
  - lia.
Qed.

Lemma wp_kprintf_write_char uart patience s c (Q : unit → console → Prop) :
  uart_drains uart patience → console_ok s →
  (∀ s', console_ok s' → sent COM1_PORT s' = sent COM1_PORT s ++ [u8 c] →
         screen s' = display (cansid_process (cansid s) c).1 (screen s) →
         cansid s' = (cansid_process (cansid s) c).2 → Q tt s') →
  wp (kprintf_write_char uart patience c) s Q.
Proof.
  intros Hu [Hb Hx Hy] HQ. unfold kprintf_write_char, serial_write_com. simpl.
  apply wp_bind, wp_bind, wp_serial_wait; [done|]. intros n. unfold outb. wp_steps.
  apply wp_putchar; [done|]. intros s' (E & Ec & _ & Es).
  assert (view_ok (screen s')) as Hok'.
  { rewrite E. by apply view_ok_display. }
  apply HQ; [destruct Hok' as (? & ? & ?); by split| |done|done]. by rewrite Es, sent_cons.
Qed.

(** ** Theorems *)

(** Printing any character on a screen of 80 x 25 cells with the cursor
    inside it returns, keeps the cursor inside, and shows what the escape
    parser lets through: nothing, a new line, four spaces for a tab, or one
    cell at the cursor.  At the end of the last line the rows below the title
    scroll by one.  Once the cursor is below the title row, the row stays. *)
Theorem vga_tmode_putchar_correct s c :
  console_ok s →
  wp (vga_tmode_putchar c) s (λ _ s',
    console_ok s' ∧
    screen s' = display (cansid_process (cansid s) c).1 (screen s) ∧
    cansid s' = (cansid_process (cansid s) c).2 ∧
    title_kept (screen s) (screen s')).
Proof.
  intros [Hb Hx Hy]. assert (view_ok (screen s)) as Hok by done.
  apply wp_putchar; [done|]. intros s' (E & Ec & _ & _).
  pose proof (view_ok_display (cansid_process (cansid s) c).1 _ Hok) as Hok'. rewrite <-E in Hok'.
  split; [destruct Hok' as (? & ? & ?); by split|]. split; [done|]. split; [done|].
  rewrite E. by apply title_kept_display.
Qed.

(** The text of a graphic rendition sequence, written out from any list
    of the parameters cansid.c knows, is read back as those parameters: it
    prints nothing, leaves the parser outside a sequence, and the style is
    the old one with the parameters applied in order. *)
Theorem cansid_sequence_roundtrip st p ps :
  0 ≤ st < 256 → sgr_ok p → Forall sgr_ok ps →
  process_all (mk_cansid CANSID_ESC st st) (sgr_sequence p ps) =
    let st' := fold_left (λ st p, render p st) (p :: ps) st in
    ([], mk_cansid CANSID_ESC st' st').
Proof.
  intros Hst Hp Hps. unfold sgr_sequence. rewrite process_all_app. simpl process_all at 1. cbv iota.
  rewrite process_all_app, process_params by done. done.
Qed.

Module ConsoleDemo.
Definition fresh : console :=
  mk_console (replicate 2000 blank) 0 24 cansid_init [] 0.

Lemma fresh_ok : console_ok fresh.
Proof. split; vm_compute; [done|lia|lia]. Qed.

Lemma always_ready : uart_drains (λ _, 0x60) 0.
Proof. intros n. exists O. by split. Qed.
End ConsoleDemo.

Lemma vga_tmode_putchar_correct_witness :
  wp (vga_tmode_putchar 10) ConsoleDemo.fresh (λ _ s', console_ok s').
Proof.
  eapply wp_mono; [exact (vga_tmode_putchar_correct ConsoleDemo.fresh 10 ConsoleDemo.fresh_ok)|].
  by intros ? ? [? _].
Defined.

Lemma cansid_sequence_roundtrip_witness :
  process_all cansid_init [ESC; 91; 49; 59; 52; 49; 59; 51; 55; 109] = ([], mk_cansid CANSID_ESC 0x4F 0x4F).
Proof.
  apply (cansid_sequence_roundtrip 0x0F Bright [Bg 1; Fg 7]); [lia|done|].
  repeat constructor; lia.
Defined.

(** The background mask keeps a bit of the colour before: white, then black,
    leaves blue. *)
Lemma bgcolor_keeps_low_bit :
  process_all cansid_init (sgr_sequence (Bg 7) [Bg 0]) = ([], mk_cansid CANSID_ESC 0x1F 0x1F).
Proof. by vm_compute. Qed.
