(* ===== verification/Printf.v ===== *)
(** * Formatted output

    libk/kprintf.c over any device that takes characters.  [CharSink] is what
    the formatter needs of the device and [CharSinkLaws] what the device
    promises; the console of Console.v is an instance.

    A variadic argument is a 64-bit slot or a string; taking one of the wrong
    kind, or more than there are, is a fault.  A format string is the list of
    its characters before the terminator. *)

From stdpp Require Import base list.
From Stdlib Require Import ZArith Lia Bool.
From S2P Require Import Prelude Console.
Local Open Scope Z_scope.

Class CharSink (S : Type) := { putc : Z → M S unit }.

(** [sink_text] is all that was written, in order. *)
Class CharSinkLaws (S : Type) `{CharSink S} := {
  sink_ok : S → Prop;
  sink_text : S → list Z;
  putc_ok c s (Q : unit → S → Prop) :
    sink_ok s →
    (∀ s', sink_ok s' → sink_text s' = sink_text s ++ [u8 c] → Q tt s') →
    wp (putc c) s Q
}.

#[export] Instance console_sink uart patience : CharSink console :=
  {| putc := kprintf_write_char uart patience |}.

Inductive arg := Num (v : Z) | Str (s : option (list Z)).

Definition ATOI_BUFLEN : nat := 256.

Section Printf.
Context {BC : BuildConfig} {S : Type} {CS : CharSink S}.

(** [kprintf_write_str] *)
Fixpoint kprintf_write_str (l : list Z) : M S unit :=
  match l with [] => mret tt | c :: l => putc c;; kprintf_write_str l end.

Definition hex_digits : list Z := [48; 49; 50; 51; 52; 53; 54; 55; 56; 57; 65; 66; 67; 68; 69; 70].

Definition digit_to_char (digit : Z) : M S Z :=
  kassert_dbg (digit <? 16);;
  match hex_digits !! Z.to_nat digit with Some c => mret c | None => fault end.

Definition to_hex_char (x : Z) : Z := if x <? 10 then x + 48 else x - 10 + 65.

(** The loop that fills the buffer from its end: [room] bytes are left before
    its start. *)
Fixpoint fill_digits (room : nat) (n base : Z) (buf : list Z) : M S (list Z) :=
  if n =? 0 then mret buf
  else match room with
       | O => fault
       | Datatypes.S room =>
           c ← digit_to_char (u32 (Z.rem n base)); fill_digits room (Z.quot n base) base (c :: buf)
       end.

(** The last byte is the terminator, the digits start before it.  [-n] of the
    least number overflows. *)
Definition atoi_print (num : Z) (sign : bool) (base : Z) : M S Z :=
  (if base =? 16 then putc 48;; putc 120 else mret tt);;
  if num =? 0 then putc 48;; mret 1
  else if sign then
    let n := i64 num in
    (if n <? 0 then putc 45 else mret tt);;
    (if n =? - 2 ^ 63 then fault else mret tt);;
    ds ← fill_digits (ATOI_BUFLEN - 1) (Z.abs n) base [];
    kprintf_write_str ds;;
    mret (Z.of_nat (length ds) + if n <? 0 then 1 else 0)
  else
    ds ← fill_digits (ATOI_BUFLEN - 1) num base [];
    kprintf_write_str ds;; mret (Z.of_nat (length ds)).

(** The loop of [%p]: sixteen digits, the last one first. *)
Fixpoint pointer_digits (rounds : nat) (ptr : Z) (buf : list Z) : list Z :=
  match rounds with
  | O => buf
  | Datatypes.S rounds => pointer_digits rounds (Z.shiftr ptr 4) (to_hex_char (Z.land ptr 0xF) :: buf)
  end.

Definition va_num (args : list arg) : M S (Z * list arg) :=
  match args with Num v :: args => mret (v, args) | _ => fault end.
Definition va_str (args : list arg) : M S (option (list Z) * list arg) :=
  match args with Str s :: args => mret (s, args) | _ => fault end.

Definition null_text : list Z := [40; 110; 117; 108; 108; 41].

(** The conversion letters after [l], [ll] or [z]; another letter prints
    nothing and takes no argument. *)
Definition long_conversion (f : Z) (args : list arg) : M S (Z * list arg) :=
  if (f =? 100) || (f =? 105) then '(v, args) ← va_num args; k ← atoi_print (u64 v) true 10; mret (k, args)
  else if f =? 117 then '(v, args) ← va_num args; k ← atoi_print (u64 v) false 10; mret (k, args)
  else if f =? 120 then '(v, args) ← va_num args; k ← atoi_print (u64 v) false 16; mret (k, args)
  else mret (0, args).

(** The conversions of one letter. *)
Definition conversion (d : Z) (args : list arg) : M S (Z * list arg) :=
  if d =? 37 then putc 37;; mret (1, args)
  else if d =? 99 then '(v, args) ← va_num args; putc (i8 v);; mret (1, args)
  else if d =? 115 then
    '(s, args) ← va_str args;
    let s := default null_text s in
    kprintf_write_str s;; mret (Z.of_nat (length s), args)
  else if d =? 112 then
    '(v, args) ← va_num args;
    putc 48;; putc 120;; kprintf_write_str (pointer_digits 16 (u64 v) []);; mret (18, args)
  else if (d =? 105) || (d =? 100) then
    '(v, args) ← va_num args; k ← atoi_print (u64 (i32 v)) true 10; mret (k, args)
  else if d =? 117 then '(v, args) ← va_num args; k ← atoi_print (u32 v) false 10; mret (k, args)
  else if d =? 120 then '(v, args) ← va_num args; k ← atoi_print (u32 v) false 16; mret (k, args)
  else panic.

(** [__kvprintf].  A format that ends inside a long conversion moves the
    pointer past its terminator. *)
Fixpoint kvprintf (fmt : list Z) (args : list arg) (nwritten : Z) : M S Z :=
  match fmt with
  | [] => mret (i32 nwritten)
  | c :: fmt =>
      if c =? 37 then
        match fmt with
        | [] => panic
        | d :: fmt =>
            if (d =? 108) || (d =? 122) then
              match fmt with
              | [] => fault
              | e :: fmt =>
                  if (d =? 108) && (e =? 108) then
                    match fmt with
                    | [] => fault
                    | f :: fmt => '(k, args) ← long_conversion f args; kvprintf fmt args (u64 (nwritten + k + 1))
                    end
                  else '(k, args) ← long_conversion e args; kvprintf fmt args (u64 (nwritten + k + 1))
              end
            else '(k, args) ← conversion d args; kvprintf fmt args (u64 (nwritten + k + 1))
        end
      else putc c;; kvprintf fmt args nwritten
  end.
End Printf.

(** ** The entry points: the lock and the interrupt flag *)

Record printer (S : Type) := mk_printer { sink : S; kprintf_lock : Z; irq_on : bool }.
Arguments mk_printer {S} _ _ _.
Arguments sink {S} _.
Arguments kprintf_lock {S} _.
Arguments irq_on {S} _.

Section Entry.
Context {BC : BuildConfig} {S : Type} {CS : CharSink S}.

Definition on_sink {A} (m : M S A) : M (printer S) A :=
  zoom sink (λ v p, mk_printer v (kprintf_lock p) (irq_on p)) m.
Definition set_lock (v : Z) (p : printer S) := mk_printer (sink p) v (irq_on p).
Definition set_irq (b : bool) (p : printer S) := mk_printer (sink p) (kprintf_lock p) b.

Definition kprintf_nolock (fmt : list Z) (args : list arg) : M (printer S) Z :=
  p ← get;
  let locked := kprintf_lock p =? 0 in
  modify (set_lock 1);;
  nwritten ← on_sink (kvprintf fmt args 0);
  (if locked then modify (set_lock 0) else mret tt);;
  mret nwritten.

(** On one CPU, waiting for a lock that is held does not end. *)
Definition kprintf (fmt : list Z) (args : list arg) : M (printer S) Z :=
  p ← get;
  modify (set_irq false);;
  (if kprintf_lock p =? 0 then modify (set_lock 1) else diverge);;
  nwritten ← on_sink (kvprintf fmt args 0);
  modify (set_lock 0);; modify (set_irq (irq_on p));;
  mret nwritten.
End Entry.

(** ** Numerals *)

Definition digit_of (c : Z) : Z := if c <? 58 then c - 48 else c - 55.
Definition value (base : Z) (ds : list Z) : Z := fold_left (λ v c, v * base + digit_of c) ds 0.

(** A character of [hex_digits] for a digit below [base]. *)
Definition is_digit (base c : Z) : Prop := 0 ≤ digit_of c < base ∧ hex_digits !! Z.to_nat (digit_of c) = Some c.

(** The numeral of [n]: no leading zero, except that 0 is "0". *)
Definition numeral (base n : Z) (ds : list Z) : Prop :=
  value base ds = n ∧ Forall (is_digit base) ds ∧ (ds = [48] ∨ head ds ≠ Some 48 ∧ ds ≠ []).

(** A fixed number of digits. *)
Definition padded (base n : Z) (len : nat) (ds : list Z) : Prop :=
  value base ds = n ∧ Forall (is_digit base) ds ∧ length ds = len.

Lemma value_snoc base ds c : value base (ds ++ [c]) = value base ds * base + digit_of c.
Proof. unfold value. by rewrite fold_left_app. Qed.

Lemma hex_digit d : 0 ≤ d < 16 → ∃ c, hex_digits !! Z.to_nat d = Some c ∧ digit_of c = d.
Proof.
  intros Hd.
  assert (forallb (λ d, match hex_digits !! Z.to_nat d with Some c => digit_of c =? d | None => false end)
            (seqZ 0 16) = true) as H by by vm_compute.
  rewrite forallb_forall in H. specialize (H d ltac:(apply list_elem_of_In, elem_of_seqZ; lia)).
  case_match; [|done]. apply Z.eqb_eq in H. eauto.
Qed.

Lemma to_hex_char_digit d : 0 ≤ d < 16 → is_digit 16 (to_hex_char d) ∧ digit_of (to_hex_char d) = d.
Proof.
  intros Hd.
  assert (forallb (λ d, bool_decide (hex_digits !! Z.to_nat d = Some (to_hex_char d)) && (digit_of (to_hex_char d) =? d))
            (seqZ 0 16) = true) as H by by vm_compute.
  rewrite forallb_forall in H. specialize (H d ltac:(apply list_elem_of_In, elem_of_seqZ; lia)).
  apply andb_true_iff in H as [H1 H2]. apply bool_decide_eq_true in H1. apply Z.eqb_eq in H2.
  split; [|done]. unfold is_digit. rewrite H2. by split.
Qed.

(** Two numerals of one number are the same text. *)
Lemma is_digit_inj base c d : is_digit base c → is_digit base d → digit_of c = digit_of d → c = d.
Proof. intros [_ Hc] [_ Hd] E. rewrite E in Hc. congruence. Qed.

Lemma value_nonneg base ds : 0 < base → Forall (is_digit base) ds → 0 ≤ value base ds.
Proof.
  intros Hb. induction ds as [|c ds IH] using rev_ind; [done|].
  intros [Hds [[Hc _] _]%Forall_cons]%Forall_app. rewrite value_snoc. specialize (IH Hds). nia.
Qed.

(** ** Writing *)

Section Writing.
Context {BC : BuildConfig} {S : Type} {CS : CharSink S} {CL : CharSinkLaws S}.
Implicit Types s : S.

(** Continue after the text [l] has been written. *)
Definition wrote (l : list Z) (s s' : S) : Prop := sink_ok s' ∧ sink_text s' = sink_text s ++ l.

Lemma wrote_trans l1 l2 s s' s'' : wrote l1 s s' → wrote l2 s' s'' → wrote (l1 ++ l2) s s''.
Proof. intros [_ E1] [Hok E2]. split; [done|]. by rewrite E2, E1, (assoc_L (++)). Qed.

Lemma wrote_nil s : sink_ok s → wrote [] s s.
Proof. intros. split; [done|]. by rewrite app_nil_r. Qed.

Definition is_char (c : Z) : Prop := 0 ≤ c < 256.

Lemma wp_putc c s (Q : unit → S → Prop) :
  sink_ok s → (∀ s', wrote [u8 c] s s' → Q tt s') → wp (putc c) s Q.
Proof. intros Hs HQ. apply putc_ok; [done|]. intros s' ? ?. by apply HQ. Qed.

Lemma wp_write_str l s (Q : unit → S → Prop) :
  sink_ok s → Forall is_char l → (∀ s', wrote l s s' → Q tt s') → wp (kprintf_write_str l) s Q.
Proof.
  revert s. induction l as [|c l IH]; intros s Hs Hl HQ; simpl.
  { apply wp_ret, HQ. by apply wrote_nil. }
  apply Forall_cons in Hl as [Hc Hl]. apply wp_bind, wp_putc; [done|]. intros s1 H1.
  rewrite uwrap_id in H1 by exact Hc.
  apply IH; [apply H1|done|]. intros s2 H2. apply HQ. exact (wrote_trans [c] l _ _ _ H1 H2).
Qed.

Lemma hex_digits_char : Forall is_char hex_digits.
Proof. unfold hex_digits, is_char. repeat constructor; lia. Qed.

Lemma is_digit_char base c : is_digit base c → is_char c.
Proof. intros [_ Hc]. by eapply (Forall_lookup_1 _ _ _ _ hex_digits_char). Qed.

Lemma wp_digit d s (Q : Z → S → Prop) :
  0 ≤ d < 16 → (∀ c, hex_digits !! Z.to_nat d = Some c → digit_of c = d → Q c s) →
  wp (digit_to_char d) s Q.
Proof.
  intros Hd HQ. unfold digit_to_char. apply wp_bind, wp_kassert_dbg; [apply Z.ltb_lt; lia|].
  destruct (hex_digit d Hd) as (c & Hc & Ed). rewrite Hc. apply wp_ret. by apply HQ.
Qed.

Lemma wp_fill_digits room n base buf s (Q : list Z → S → Prop) :
  (base = 10 ∨ base = 16) → 0 ≤ n < base ^ Z.of_nat room →
  (∀ ds, value base ds = n → Forall (is_digit base) ds → (n = 0 → ds = []) →
         (n ≠ 0 → head ds ≠ Some 48 ∧ ds ≠ []) → Q (ds ++ buf) s) →
  wp (fill_digits room n base buf) s Q.
Proof.
  intros Hb. revert n buf Q. induction room as [|room IH]; intros n buf Q Hn HQ; simpl.
  { destruct (Z.eqb_spec n 0) as [->|]; [|simpl in Hn; lia]. apply wp_ret, (HQ []); done. }
  destruct (Z.eqb_spec n 0) as [->|Hn0]. { apply wp_ret, (HQ []); done. }
  rewrite Z.rem_mod_nonneg, Z.quot_div_nonneg by lia.
  pose proof (Z.mod_pos_bound n base ltac:(lia)) as Hm. pose proof (Z.div_mod n base ltac:(lia)) as Hdm.
  rewrite uwrap_id by (unfold in_u; lia).
  apply wp_bind, wp_digit; [lia|]. intros c Hc Ec. apply IH.
  { split; [apply Z.div_pos; lia|]. apply Z.div_lt_upper_bound; [lia|].
    rewrite Nat2Z.inj_succ, Z.pow_succ_r in Hn by lia. lia. }
  intros ds Hv Hds H0 H1. change (c :: buf) with ([c] ++ buf). rewrite (assoc_L (++)). apply HQ.
  - rewrite value_snoc, Hv, Ec. lia.
  - apply Forall_app. split; [done|]. apply Forall_cons. split; [|done]. split; rewrite Ec; [lia|done].
  - done.
  - intros _. destruct (decide (n / base = 0)) as [E|E].
    + rewrite (H0 E). simpl. split; [|done]. intros [= ->]. change (digit_of 48) with 0 in Ec. lia.
    + destruct (H1 E) as [Hh Hne]. destruct ds as [|x ds]; [done|]. simpl in *. by split.
Qed.

(** The text of a number: the prefix of hexadecimal, the sign, the numeral. *)
Definition int_text (sign : bool) (base num : Z) (t : list Z) : Prop :=
  ∃ ds, t = (if base =? 16 then [48; 120] else []) ++ (if sign && (i64 num <? 0) then [45] else []) ++ ds ∧
        numeral base (if sign then Z.abs (i64 num) else num) ds.

Lemma numeral_zero base : base = 10 ∨ base = 16 → numeral base 0 [48].
Proof.
  intros Hb. split; [done|]. split; [|by left]. apply Forall_cons. split; [|done].
  split; [|done]. change (digit_of 48) with 0. lia.
Qed.

Lemma wp_buffer n base s (Q : list Z → S → Prop) :
  (base = 10 ∨ base = 16) → 0 < n < 2 ^ 64 →
  (∀ ds, numeral base n ds → Forall is_char ds → Q ds s) →
  wp (fill_digits (ATOI_BUFLEN - 1) n base []) s Q.
Proof.
  intros Hb Hn HQ. apply wp_fill_digits; [done| |].
  { split; [lia|]. apply Z.lt_le_trans with (2 ^ 64); [lia|]. destruct Hb as [-> | ->]; by vm_compute. }
  intros ds Hv Hds _ H1. rewrite app_nil_r. destruct H1 as [Hh Hne]; [lia|]. apply HQ.
  - split; [done|]. split; [done|]. by right.
  - eapply Forall_impl; [done|]. by apply is_digit_char.
Qed.

Lemma i64_range z : - 2 ^ 63 ≤ i64 z < 2 ^ 63.
Proof.
  unfold swrap. pose proof (Z.mod_pos_bound z (2 ^ 64) ltac:(lia)).
  destruct (Z.ltb_spec (z mod 2 ^ 64) (2 ^ (64 - 1))); simpl in *; lia.
Qed.

Lemma i64_nonzero num : in_u 64 num → num ≠ 0 → i64 num ≠ 0.
Proof.
  unfold in_u, swrap. intros Hn H0. rewrite Z.mod_small by lia. case_match; simpl in *; lia.
Qed.

(** The prefix of hexadecimal. *)
Lemma wp_prefix base s (Q : unit → S → Prop) :
  sink_ok s → (∀ s', wrote (if base =? 16 then [48; 120] else []) s s' → Q tt s') →
  wp (if base =? 16 then putc 48;; putc 120 else mret tt) s Q.
Proof.
  intros Hs HQ. destruct (base =? 16); [|by apply wp_ret, HQ, wrote_nil].
  apply wp_bind, wp_putc; [done|]. intros s1 W1. apply wp_putc; [apply W1|]. intros s2 W2.
  apply HQ. exact (wrote_trans [48] [120] _ _ _ W1 W2).
Qed.

Lemma wp_atoi_print num sign base s (Q : Z → S → Prop) :
  (base = 10 ∨ base = 16) → in_u 64 num → (sign = true → i64 num ≠ - 2 ^ 63) → sink_ok s →
  (∀ k t s', int_text sign base num t → wrote t s s' → Q k s') →
  wp (atoi_print num sign base) s Q.
Proof.
  intros Hb Hnum Hmin Hs HQ. unfold atoi_print. apply wp_bind, wp_prefix; [done|]. intros s1 W1.
  destruct (Z.eqb_spec num 0) as [->|Hn0].
  { apply wp_bind, wp_putc; [apply W1|]. intros s2 W2. apply wp_ret.
    refine (HQ _ _ _ _ (wrote_trans _ _ _ _ _ W1 W2)). exists [48].
    split; [by destruct sign|]. destruct sign; by apply numeral_zero. }
  destruct sign.
  - apply wp_bind. pose proof (i64_range num) as Hr. pose proof (i64_nonzero num Hnum Hn0) as Hnz.
    assert (∃ w, w = (if i64 num <? 0 then [45] else [])) as [w Ew] by eauto.
    apply (wp_mono _ _ (λ _ s', wrote w s1 s')).
    { rewrite Ew. destruct (i64 num <? 0); [|apply wp_ret, wrote_nil, W1].
      apply wp_putc; [apply W1|]. by intros s2 W2. }
    intros _ s2 W2. apply wp_bind. destruct (Z.eqb_spec (i64 num) (- 2 ^ 63)); [by destruct Hmin|].
    apply wp_ret. apply wp_bind, wp_buffer; [done|lia|]. intros ds Hds Hch.
    apply wp_bind, wp_write_str; [apply W2|done|]. intros s3 W3. apply wp_ret.
    refine (HQ _ _ _ _ (wrote_trans _ _ _ _ _ W1 (wrote_trans _ _ _ _ _ W2 W3))).
    exists ds. by rewrite Ew.
  - apply wp_bind, wp_buffer; [done|unfold in_u in Hnum; lia|]. intros ds Hds Hch.
    apply wp_bind, wp_write_str; [apply W1|done|]. intros s3 W3. apply wp_ret.
    refine (HQ _ _ _ _ (wrote_trans _ _ _ _ _ W1 W3)). by exists ds.
Qed.

Lemma pointer_digits_spec rounds ptr buf :
  0 ≤ ptr < 16 ^ Z.of_nat rounds →
  ∃ ds, pointer_digits rounds ptr buf = ds ++ buf ∧ padded 16 ptr rounds ds.
Proof.
  revert ptr buf. induction rounds as [|rounds IH]; intros ptr buf Hp; simpl.
  { exists []. split; [done|]. split; [simpl in *; unfold value; simpl; lia|done]. }
  rewrite Nat2Z.inj_succ, Z.pow_succ_r in Hp by lia.
  rewrite Z.shiftr_div_pow2 by lia. change 0xF with (Z.ones 4). rewrite Z.land_ones by lia.
  change (2 ^ 4) with 16. pose proof (Z.mod_pos_bound ptr 16 ltac:(lia)) as Hm.
  pose proof (Z.div_mod ptr 16 ltac:(lia)) as Hdm.
  destruct (to_hex_char_digit (ptr mod 16) Hm) as [Hd Ed].
  destruct (IH (ptr / 16) (to_hex_char (ptr mod 16) :: buf)) as (ds & -> & Hv & Hds & Hl).
  { split; [apply Z.div_pos; lia|]. apply Z.div_lt_upper_bound; lia. }
  exists (ds ++ [to_hex_char (ptr mod 16)]). split; [by rewrite <-(assoc_L (++))|]. split; [|split].
  - rewrite value_snoc, Hv, Ed. lia.
  - apply Forall_app. by rewrite Forall_cons, Forall_nil.
  - rewrite length_app. simpl. lia.
Qed.
End Writing.

(** ** Formats *)

(** How long an integer conversion is: none, [l], [ll] or [z]. *)
Inductive width := W32 | WL | WLL | WZ.

(** A piece of a format with the argument it takes. *)
Inductive piece :=
| PLit (c : Z) | PPercent | PChr (v : Z) | PStr (s : option (list Z)) | PPtr (v : Z)
| PInt (w : width) (v : Z) | PUns (w : width) (v : Z) | PHex (w : width) (v : Z).

#[global] Instance width_eq_dec : EqDecision width.
Proof. solve_decision. Defined.

Definition width_fmt (w : width) : list Z :=
  match w with W32 => [] | WL => [108] | WLL => [108; 108] | WZ => [122] end.

Definition piece_fmt (p : piece) : list Z :=
  match p with
  | PLit c => [c] | PPercent => [37; 37] | PChr _ => [37; 99] | PStr _ => [37; 115] | PPtr _ => [37; 112]
  | PInt w _ => 37 :: width_fmt w ++ [100]
  | PUns w _ => 37 :: width_fmt w ++ [117]
  | PHex w _ => 37 :: width_fmt w ++ [120]
  end.

Definition piece_args (p : piece) : list arg :=
  match p with
  | PLit _ | PPercent => []
  | PStr s => [Str s]
  | PChr v | PPtr v | PInt _ v | PUns _ v | PHex _ v => [Num v]
  end.

(** The number an integer conversion prints. *)
Definition signed_num (w : width) (v : Z) : Z := match w with W32 => u64 (i32 v) | _ => u64 v end.
Definition unsigned_num (w : width) (v : Z) : Z := match w with W32 => u32 v | _ => u64 v end.

Definition piece_ok (p : piece) : Prop :=
  match p with
  | PLit c => is_char c ∧ c ≠ 37
  | PStr s => Forall is_char (default null_text s)
  | PInt w v => i64 (signed_num w v) ≠ - 2 ^ 63
  | _ => True
  end.

Definition piece_text (p : piece) (t : list Z) : Prop :=
  match p with
  | PLit c => t = [c]
  | PPercent => t = [37]
  | PChr v => t = [u8 v]
  | PStr s => t = default null_text s
  | PPtr v => ∃ ds, t = [48; 120] ++ ds ∧ padded 16 (u64 v) 16 ds
  | PInt w v => int_text true 10 (signed_num w v) t
  | PUns w v => int_text false 10 (unsigned_num w v) t
  | PHex w v => int_text false 16 (unsigned_num w v) t
  end.

(** The text of a format: that of its pieces, one after the other. *)
Fixpoint format_text (ps : list piece) (t : list Z) : Prop :=
  match ps with
  | [] => t = []
  | p :: ps => ∃ t1 t2, t = t1 ++ t2 ∧ piece_text p t1 ∧ format_text ps t2
  end.

#[local] Arguments pointer_digits : simpl never.
#[local] Arguments kprintf_write_str : simpl never.

Section Formats.
Context {BC : BuildConfig} {S : Type} {CS : CharSink S} {CL : CharSinkLaws S}.
Implicit Types s : S.

Lemma u8_i8 v : u8 (i8 v) = u8 v.
Proof.
  unfold uwrap, swrap. cbv zeta. case_match; [by apply Z.mod_mod|].
  replace (v mod 2 ^ 8 - 2 ^ 8) with (v mod 2 ^ 8 + (-1) * 2 ^ 8) by lia.
  rewrite Z.mod_add by lia. by apply Z.mod_mod.
Qed.

Lemma signed_num_range w v : in_u 64 (signed_num w v).
Proof. destruct w; by apply uwrap_range. Qed.
Lemma unsigned_num_range w v : in_u 64 (unsigned_num w v).
Proof.
  destruct w; try by apply uwrap_range. pose proof (uwrap_range 32 v ltac:(lia)) as Hr.
  unfold in_u in *. simpl in *. lia.
Qed.

(** After a number has been printed. *)
Lemma wp_number num sign base args s (Q : Z * list arg → S → Prop) :
  (base = 10 ∨ base = 16) → in_u 64 num → (sign = true → i64 num ≠ - 2 ^ 63) → sink_ok s →
  (∀ k t s', int_text sign base num t → wrote t s s' → Q (k, args) s') →
  wp (k ← atoi_print num sign base; mret (k, args)) s Q.
Proof. intros. apply wp_bind, wp_atoi_print; [done..|]. intros. apply wp_ret. eauto. Qed.

(** What a conversion does with the argument it takes. *)
Definition converts (p : piece) (m : M S (Z * list arg)) (rest : list arg) (s : S) : Prop :=
  wp m s (λ r s', r.2 = rest ∧ ∃ t, piece_text p t ∧ wrote t s s').

Lemma wp_conversion p d rest s :
  sink_ok s → piece_ok p → piece_fmt p = [37; d] →
  converts p (conversion d (piece_args p ++ rest)) rest s.
Proof.
  intros Hs Hp Hf. unfold converts.
  destruct p as [c| |v|o|v|w v|w v|w v]; try destruct w; simplify_eq/=;
    unfold conversion, va_num, va_str; simpl; wp_steps.
  - apply wp_putc; [done|]. intros s' W. apply wp_ret. split; [done|]. by exists [37].
  - apply wp_putc; [done|]. intros s' W. apply wp_ret. split; [done|]. exists [u8 v]. split; [done|].
    by rewrite u8_i8 in W.
  - apply wp_write_str; [done..|]. intros s' W. apply wp_ret. eauto.
  - destruct (pointer_digits_spec 16 (u64 v) []) as (ds & Eds & Hds).
    { pose proof (uwrap_range 64 v ltac:(lia)). unfold in_u in *. simpl in *. lia. }
    rewrite Eds, app_nil_r.
    apply wp_putc; [done|]. intros s1 W1. apply wp_bind, wp_putc; [apply W1|]. intros s2 W2.
    apply wp_bind, wp_write_str; [apply W2| |].
    { eapply Forall_impl; [apply Hds|]. by apply is_digit_char. }
    intros s3 W3. apply wp_ret. split; [done|]. exists ([48; 120] ++ ds). split; [by exists ds|].
    exact (wrote_trans [48] _ _ _ _ W1 (wrote_trans [120] _ _ _ _ W2 W3)).
  - apply wp_atoi_print; [by left|by apply uwrap_range|done..|]. intros k t s' Ht W. apply wp_ret. eauto.
  - apply wp_atoi_print; [by left|exact (unsigned_num_range W32 v)|done..|]. intros k t s' Ht W. apply wp_ret. eauto.
  - apply wp_atoi_print; [by right|exact (unsigned_num_range W32 v)|done..|]. intros k t s' Ht W. apply wp_ret. eauto.
Qed.

Lemma wp_long_conversion p w f rest s :
  sink_ok s → piece_ok p → w ≠ W32 → piece_fmt p = 37 :: width_fmt w ++ [f] →
  (∃ v, p = PInt w v ∧ f = 100 ∨ p = PUns w v ∧ f = 117 ∨ p = PHex w v ∧ f = 120) →
  converts p (long_conversion f (piece_args p ++ rest)) rest s.
Proof.
  intros Hs Hp Hw Hf (v & Hcase). unfold converts, long_conversion, va_num.
  assert (signed_num w v = u64 v ∧ unsigned_num w v = u64 v) as [E1 E2] by (by destruct w).
  destruct Hcase as [[-> ->]|[[-> ->]|[-> ->]]]; simpl in Hp |- *; rewrite ?E1, ?E2 in *; wp_steps;
    (apply wp_atoi_print; [by auto|by apply uwrap_range|done|done|]);
    intros k t s' Ht W; apply wp_ret; eauto.
Qed.

(** The fixpoint at a conversion of one letter, and at a long one. *)
Lemma kvprintf_short d fmt args n :
  d ≠ 108 → d ≠ 122 →
  kvprintf (37 :: d :: fmt) args n =
    ('(k, args) ← conversion d args; kvprintf fmt args (u64 (n + k + 1))).
Proof. intros Hl Hz. simpl. by rewrite (proj2 (Z.eqb_neq _ _) Hl), (proj2 (Z.eqb_neq _ _) Hz). Qed.

Lemma kvprintf_long w f fmt args n :
  w ≠ W32 → f ≠ 108 →
  kvprintf (37 :: width_fmt w ++ f :: fmt) args n =
    ('(k, args) ← long_conversion f args; kvprintf fmt args (u64 (n + k + 1))).
Proof.
  intros Hw Hf. destruct w; [done|simpl..]; [|done|done].
  by rewrite (proj2 (Z.eqb_neq _ _) Hf).
Qed.

(** One piece, whatever follows. *)
Lemma wp_piece p fmt rest n s (Q : Z → S → Prop) :
  sink_ok s → piece_ok p →
  (∀ n' t s', piece_text p t → wrote t s s' → wp (kvprintf fmt rest n') s' Q) →
  wp (kvprintf (piece_fmt p ++ fmt) (piece_args p ++ rest) n) s Q.
Proof.
  intros Hs Hp HQ.
  assert (∀ (m : M S (Z * list arg)), converts p m rest s →
            wp ('(k, args) ← m; kvprintf fmt args (u64 (n + k + 1))) s Q) as Hconv.
  { intros m Hm. eapply wp_seq; [exact Hm|]. intros [k args] s' (Ha & t & Ht & W). simpl in Ha. subst args.
    by eapply HQ. }
  destruct p as [c| |v|o|v|w v|w v|w v].
  1: { destruct Hp as [Hc H37]. simpl. rewrite (proj2 (Z.eqb_neq _ _) H37).
       apply wp_bind, wp_putc; [done|]. intros s' W. rewrite uwrap_id in W by exact Hc. by eapply HQ. }
  1-4: (cbn [piece_fmt app]; rewrite kvprintf_short by done;
        apply Hconv; (apply wp_conversion; done)).
  all: destruct (decide (w = W32)) as [->|Hw];
    [cbn [piece_fmt width_fmt app]; rewrite kvprintf_short by done; apply Hconv; (apply wp_conversion; done)|].
  all: cbn [piece_fmt]; rewrite <-app_comm_cons, <-(assoc_L (++)); simpl app at 2;
    rewrite kvprintf_long by done; apply Hconv; (eapply wp_long_conversion; eauto 10).
Qed.

Lemma wp_kvprintf ps n s (Q : Z → S → Prop) :
  sink_ok s → Forall piece_ok ps →
  (∀ k t s', format_text ps t → wrote t s s' → Q k s') →
  wp (kvprintf (concat (piece_fmt <$> ps)) (concat (piece_args <$> ps)) n) s Q.
Proof.
  revert n s Q. induction ps as [|p ps IH]; intros n s Q Hs Hps HQ.
  { apply wp_ret. by eapply HQ, wrote_nil. }
  apply Forall_cons in Hps as [Hp Hps]. rewrite !fmap_cons. simpl concat.
  apply wp_piece; [done..|]. intros n' t s' Ht W. apply IH; [apply W|done|].
  intros k t' s'' Ht' W'. eapply HQ; [|exact (wrote_trans _ _ _ _ _ W W')]. by exists t, t'.
Qed.

(** [kprintf] with the lock free. *)
Lemma wp_kprintf ps (p : printer S) (Q : Z → printer S → Prop) :
  sink_ok (sink p) → kprintf_lock p = 0 → Forall piece_ok ps →
  (∀ k t s', format_text ps t → wrote t (sink p) s' → Q k (mk_printer s' 0 (irq_on p))) →
  wp (kprintf (concat (piece_fmt <$> ps)) (concat (piece_args <$> ps))) p Q.
Proof.
  intros Hs Hl Hps HQ. unfold kprintf, on_sink. apply wp_bind, wp_get. rewrite Hl.
  change (0 =? 0) with true. cbv iota. wp_steps. apply (wp_zoom sink).
  apply wp_kvprintf; [done..|]. intros k t s' Ht W. wp_steps. by eapply HQ.
Qed.
End Formats.

(** ** Numerals are unique *)

Lemma value_pos base ds :
  1 < base → Forall (is_digit base) ds → head ds ≠ Some 48 → ds ≠ [] → 0 < value base ds.
Proof.
  intros Hb. induction ds as [|c ds IH] using rev_ind; [done|]. intros Hds Hh _.
  apply Forall_app in Hds as [Hds [[Hc Ec] _]%Forall_cons]. rewrite value_snoc.
  destruct ds as [|x ds].
  - unfold value. simpl in *. destruct (decide (digit_of c = 0)) as [E|]; [|lia].
    rewrite E in Ec. simpl in Ec. congruence.
  - assert (0 < value base (x :: ds)) by (apply IH; [done|by simpl in *|done]). nia.
Qed.

Definition leads (ds : list Z) : Prop := ds = [] ∨ head ds ≠ Some 48.

Lemma leads_snoc ds c : leads (ds ++ [c]) → leads ds.
Proof. destruct ds; [by left|]. intros [|]; [done|by right]. Qed.

Lemma value_inj base ds ds' :
  1 < base → Forall (is_digit base) ds → Forall (is_digit base) ds' → leads ds → leads ds' →
  value base ds = value base ds' → ds = ds'.
Proof.
  intros Hb. revert ds'. induction ds as [|c ds IH] using rev_ind; intros ds' Hd Hd' Hh Hh' E.
  { destruct Hh' as [|Hh']; [done|]. destruct (decide (ds' = [])) as [|Hne]; [done|].
    pose proof (value_pos base ds' Hb Hd' Hh' Hne). unfold value at 1 in E. simpl in E. lia. }
  destruct ds' as [|d ds' _] using rev_ind.
  { destruct Hh as [|Hh]; [by destruct ds|].
    assert (ds ++ [c] ≠ []) as Hne by (by destruct ds).
    pose proof (value_pos base _ Hb Hd Hh Hne). unfold value at 2 in E. simpl in E. lia. }
  apply leads_snoc in Hh, Hh'. rewrite !value_snoc in E.
  apply Forall_app in Hd as [Hd [Hc _]%Forall_cons]. apply Forall_app in Hd' as [Hd' [Hx _]%Forall_cons].
  assert (value base ds = value base ds' ∧ digit_of c = digit_of d) as [Ev Ed].
  { destruct Hc as [Hc _], Hx as [Hx _].
    assert (value base ds = value base ds') by nia. split; [done|]. nia. }
  rewrite (is_digit_inj base c d) by done. by rewrite (IH ds').
Qed.

(** Two numerals of one number are the same text. *)
Lemma numeral_unique base n ds ds' : 1 < base → numeral base n ds → numeral base n ds' → ds = ds'.
Proof.
  intros Hb (Hv & Hds & Hs) (Hv' & Hds' & Hs').
  assert (∀ l, value base l = 0 → Forall (is_digit base) l → head l ≠ Some 48 ∧ l ≠ [] → False) as Hz.
  { intros l Hl Hd [Hh Hne]. pose proof (value_pos base l Hb Hd Hh Hne). lia. }
  destruct Hs as [->|Hs], Hs' as [->|Hs']; [done| | |].
  - destruct (Hz ds'); [by subst n; rewrite Hv'|done..].
  - destruct (Hz ds); [by rewrite Hv, <-Hv'|done..].
  - apply (value_inj base); [done..| | |congruence]; right; naive_solver.
Qed.

(** ** The console as a sink *)

#[export] Instance console_laws uart patience (Hu : uart_drains uart patience) :
  @CharSinkLaws console (console_sink uart patience).
Proof.
  refine {| sink_ok := console_ok; sink_text := sent COM1_PORT |}.
  intros c s Q Hs HQ. apply wp_kprintf_write_char; [done..|]. intros s' Hok Ht _ _. by apply HQ.
Defined.

(** A sink that is just the text, for evaluation. *)
#[export] Instance log_sink : CharSink (list Z) := {| putc := λ c, modify (λ l, l ++ [u8 c]) |}.
#[export] Instance log_laws : CharSinkLaws (list Z).
Proof.
  refine {| sink_ok := λ _, True; sink_text := λ l, l |}. intros c s Q _ HQ. by apply wp_modify, HQ.
Defined.

(** ** Theorems *)

(** C39: kprintf with the console's lock free prints exactly the text its
    format and arguments stand for: literal characters as they are, strings
    (with "(null)" for NULL), numbers as their unique numerals, pointers as
    sixteen digits.  It returns, sends the text to the first serial port,
    keeps the cursor on the screen, and leaves the lock free and the
    interrupt flag as it was. *)
Theorem kprintf_correct {BC : BuildConfig} uart patience (p : printer console) ps :
  uart_drains uart patience → console_ok (sink p) → kprintf_lock p = 0 → Forall piece_ok ps →
  wp (kprintf (CS := console_sink uart patience) (concat (piece_fmt <$> ps)) (concat (piece_args <$> ps))) p
     (λ _ p', console_ok (sink p') ∧ kprintf_lock p' = 0 ∧ irq_on p' = irq_on p ∧
       ∃ t, format_text ps t ∧ sent COM1_PORT (sink p') = sent COM1_PORT (sink p) ++ t).
Proof.
  intros Hu Hp Hl Hps. apply (@wp_kprintf _ _ _ (console_laws uart patience Hu)); [done..|].
  intros k t s' Ht [Hok Et]. split; [exact Hok|]. split; [done|]. split; [done|]. by exists t.
Qed.

(** Atoi_print writes the one numeral of its number, with the prefix of
    hexadecimal and the sign of negative numbers: reading the text back gives
    the number, and no other text of that form does.  The buffer of 256 bytes
    is never overrun. *)
Theorem atoi_print_roundtrip {BC : BuildConfig} {S : Type} {CS : CharSink S} {CL : CharSinkLaws S}
    (s : S) num sign base :
  (base = 10 ∨ base = 16) → in_u 64 num → (sign = true → i64 num ≠ - 2 ^ 63) → sink_ok s →
  wp (atoi_print num sign base) s (λ _ s', ∃ t,
    wrote t s s' ∧ int_text sign base num t ∧ (∀ t', int_text sign base num t' → t' = t)).
Proof.
  intros Hb Hn Hm Hs. apply wp_atoi_print; [done..|]. intros k t s' Ht W. exists t.
  split; [done|]. split; [done|]. intros t' (ds' & -> & Hd'). destruct Ht as (ds & -> & Hd).
  rewrite (numeral_unique base _ ds' ds) by (done || lia). done.
Qed.

(** The number kprintf returns is not the number of characters written:
    literal characters are not counted and a conversion is counted once too
    often. *)
Theorem kvprintf_miscounts :
  kvprintf (BC := debug_build) [97; 98; 99] [] 0 [] = Ok (0, [97; 98; 99]) ∧
  kvprintf (BC := debug_build) [37; 117] [Num 7] 0 [] = Ok (2, [55]).
Proof. by vm_compute. Qed.

Lemma kprintf_correct_witness :
  wp (kprintf (BC := debug_build) (CS := console_sink (λ _, 0x60) 0) [120; 61; 37; 108; 100] [Num (-42)])
     (mk_printer ConsoleDemo.fresh 0 true) (λ _ p', irq_on p' = true).
Proof.
  eapply wp_mono; [refine (kprintf_correct (BC := debug_build) (λ _, 0x60) 0 (mk_printer ConsoleDemo.fresh 0 true)
    [PLit 120; PLit 61; PInt WL (-42)] ConsoleDemo.always_ready ConsoleDemo.fresh_ok eq_refl _)|].
  - rewrite !Forall_cons, Forall_nil. split; [split; [unfold is_char; lia|done]|].
    split; [split; [unfold is_char; lia|done]|]. split; [by vm_compute|done].
  - by intros ? ? (_ & _ & -> & _).
Defined.

Lemma atoi_print_roundtrip_witness :
  wp (atoi_print (BC := debug_build) 255 false 16) [] (λ _ s', ∃ t, wrote t [] s').
Proof.
  eapply wp_mono; [refine (atoi_print_roundtrip (BC := debug_build) [] 255 false 16 _ _ _ _);
    [by right|unfold in_u; lia|done|done]|].
  intros ? ? (t & ? & _). by exists t.
Defined.
