(* ===== verification/Init.v ===== *)
(** * The first user process

    proc/init.c's [init_user] and the call it prints with, defs.c's
    [syscall_write].  A process is the place it has reached in [init_user] and
    its [x]; it makes system calls, and any process may make the next one.
    [fork] copies the caller, and returns zero in the copy and the thread id
    of the copy, not zero, in the caller.  The increment of [x], an [int], is
    undefined past its largest value.  The theorem says what is on the console
    after any interleaving of the processes. *)

From stdpp Require Import base list.
From Stdlib Require Import ZArith Lia.
From S2P Require Import Prelude Printf.
Local Open Scope Z_scope.

(** ** The code *)

Definition INT_MAX : Z := 2 ^ 31 - 1.

Section SyscallWrite.
Context {BC : BuildConfig} {S : Type} {CS : CharSink S}.

(** [kprintf("%c", c)]: a [char] is passed as an [int]. *)
Definition syscall_write (c : Z) : M (printer S) Z :=
  kprintf [37; 99] [Num (i8 c)];; mret 0.
End SyscallWrite.

(** The first character and the number of characters of each branch. *)
Definition branches : list (Z * Z) :=
  [(65, 26); (97, 26); (48, 10); (65, 26); (97, 26); (48, 10); (65, 26); (97, 26)].

(** At the fork of the first of the branches left, with none left in the last
    loop, or in the loop of a branch. *)
Inductive place := Forking (rest : list (Z * Z)) | Writing (first count : Z).

Record proc := mk_proc { at_ : place; x : Z }.

Inductive request := Fork | Write (c : Z) | Spin | Undefined.

Definition init_user : proc := mk_proc (Forking branches) 0.

(** The next system call: its number and first argument. *)
Definition init_request (p : proc) : request :=
  match at_ p with
  | Forking [] => Spin
  | Forking (_ :: _) => Fork
  | Writing first count => if x p =? INT_MAX then Undefined else Write (u64 (first + Z.rem (x p) count))
  end.

(** What the process does with the result. *)
Definition init_resume (rv : Z) (p : proc) : proc :=
  match at_ p with
  | Forking [] => p
  | Forking ((first, count) :: rest) =>
      if rv =? 0 then mk_proc (Writing first count) (x p) else mk_proc (Forking rest) (x p)
  | Writing first count => mk_proc (at_ p) (x p + 1)
  end.

Section System.
Context {BC : BuildConfig} {S : Type} {CS : CharSink S}.

(** The processes in the order of their creation, the console and the calls
    of [write], each with the process that made it. *)
Record system := mk_system { procs : list proc; console : printer S; calls : list (nat * Z) }.

Inductive step : system → system → Prop :=
| step_fork s i p tid :
    procs s !! i = Some p → init_request p = Fork → tid ≠ 0 →
    step s (mk_system (<[i := init_resume tid p]> (procs s) ++ [init_resume 0 p]) (console s) (calls s))
| step_write s i p c rv pr :
    procs s !! i = Some p → init_request p = Write c → syscall_write c (console s) = Ok (rv, pr) →
    step s (mk_system (<[i := init_resume rv p]> (procs s)) pr (calls s ++ [(i, c)])).

Inductive steps : system → system → Prop :=
| steps_refl s : steps s s
| steps_snoc s1 s2 s3 : steps s1 s2 → step s2 s3 → steps s1 s3.
End System.
Arguments system S : clear implicits.

(** ** Specification *)

(** The characters a process wrote. *)
Definition written (i : nat) (l : list (nat * Z)) : list Z := snd <$> filter (λ e, e.1 = i) l.

(** The first [n] characters of a branch: its characters over and over. *)
Definition cycle (first count : Z) (n : nat) : list Z := (λ k, first + Z.of_nat k mod count) <$> seq 0 n.

Definition child_ok {S} (s : system S) (j : nat) (b : Z * Z) : Prop :=
  ∃ n : nat, procs s !! (1 + j)%nat = Some (mk_proc (Writing b.1 b.2) (Z.of_nat n)) ∧ Z.of_nat n ≤ INT_MAX ∧
    written (1 + j) (calls s) = cycle b.1 b.2 n.

Record init_ok {S} `{CharSinkLaws S} (t0 : list Z) (k : nat) (s : system S) : Prop := {
  io_branches : (k ≤ length branches)%nat;
  io_length : length (procs s) = (1 + k)%nat;
  io_parent : procs s !! 0%nat = Some (mk_proc (Forking (drop k branches)) 0);
  io_children j b : (j < k)%nat → branches !! j = Some b → child_ok s j b;
  io_calls : Forall (λ e, 1 ≤ e.1 ≤ k)%nat (calls s);
  io_sink : sink_ok (sink (console s));
  io_lock : kprintf_lock (console s) = 0;
  io_text : sink_text (sink (console s)) = t0 ++ (calls s).*2;
}.

(** ** Lemmas *)

Section Proofs.
Context {BC : BuildConfig} {S : Type} {CS : CharSink S} {CL : CharSinkLaws S}.

(** The call prints the low byte of its argument and returns zero. *)
Lemma wp_syscall_write c (p : printer S) (Q : Z → printer S → Prop) :
  sink_ok (sink p) → kprintf_lock p = 0 →
  (∀ s', wrote [u8 c] (sink p) s' → Q 0 (mk_printer s' 0 (irq_on p))) →
  wp (syscall_write c) p Q.
Proof.
  intros Hs Hl HQ. unfold syscall_write. apply wp_bind.
  apply (wp_kprintf [PChr (i8 c)] p); [done..|by repeat constructor|].
  intros k t s' (t1 & t2 & -> & -> & ->) W. wp_steps. apply HQ. by rewrite u8_i8, app_nil_r in W.
Qed.

Lemma written_snoc i l j c : written i (l ++ [(j, c)]) = written i l ++ (if decide (j = i) then [c] else []).
Proof. unfold written. rewrite filter_app, fmap_app, filter_cons. simpl. by case_decide. Qed.

Lemma written_nil i l : Forall (λ e, e.1 ≠ i) l → written i l = [].
Proof. induction 1 as [|e l He _ IH]; [done|]. unfold written in *. by rewrite filter_cons_False. Qed.

Lemma cycle_S f m n : cycle f m (1 + n) = cycle f m n ++ [f + Z.of_nat n mod m].
Proof. unfold cycle. rewrite (comm_L Nat.add), seq_app, fmap_app. done. Qed.

Lemma branch_byte j b n : branches !! j = Some b → 0 < b.2 ∧ u64 (b.1 + n mod b.2) = b.1 + n mod b.2 ∧
  u8 (b.1 + n mod b.2) = b.1 + n mod b.2.
Proof.
  intros Hb. assert (0 < b.2 ∧ 0 ≤ b.1 ∧ b.1 + b.2 ≤ 128) as (Hm & H0 & H1).
  { apply (Forall_lookup_1 (λ b, 0 < b.2 ∧ 0 ≤ b.1 ∧ b.1 + b.2 ≤ 128) branches j b); [|done].
    repeat constructor; simpl; lia. }
  pose proof (Z.mod_pos_bound n b.2 Hm). split; [done|]. split; apply Z.mod_small; lia.
Qed.

(** A process that asks to fork is the first one, one that asks to write a child. *)
Lemma requests t0 k (s : system S) i p :
  init_ok t0 k s → procs s !! i = Some p →
  (i = 0%nat ∧ p = mk_proc (Forking (drop k branches)) 0) ∨
  (∃ j b, i = (1 + j)%nat ∧ (j < k)%nat ∧ branches !! j = Some b ∧ at_ p = Writing b.1 b.2).
Proof.
  intros I Hp. pose proof (lookup_lt_Some _ _ _ Hp) as Hi. rewrite (io_length _ _ _ I) in Hi.
  destruct i as [|j]; [left; pose proof (io_parent _ _ _ I); by simplify_eq|right].
  destruct (lookup_lt_is_Some_2 branches j) as [b Hb]; [pose proof (io_branches _ _ _ I); lia|].
  destruct (io_children _ _ _ I j b) as (n & Hn & _ & _); [lia|done|].
  exists j, b. simplify_eq/=. repeat split; [lia|done].
Qed.

Lemma fork_ok t0 k s p tid :
  init_ok t0 k s → procs s !! 0%nat = Some p → init_request p = Fork → tid ≠ 0 →
  init_ok t0 (1 + k) (mk_system (<[0%nat := init_resume tid p]> (procs s) ++ [init_resume 0 p]) (console s) (calls s)).
Proof.
  intros I Hp Hr Ht. pose proof (io_parent _ _ _ I) as H0. simplify_eq. pose proof (io_length _ _ _ I) as Hl.
  destruct (drop k branches) as [|[f m] rest] eqn:Hd; [done|]. clear Hr.
  assert (Hk : branches !! k = Some (f, m)) by (rewrite <-(Nat.add_0_r k), <-lookup_drop, Hd; done).
  pose proof (lookup_lt_Some _ _ _ Hk) as Hlt. simpl in Hlt.
  assert (Hrest : drop (1 + k) branches = rest) by (rewrite (comm_L Nat.add), <-drop_drop, Hd; done).
  unfold init_resume. simpl at_. cbv iota. rewrite (proj2 (Z.eqb_neq tid 0) Ht).
  split; simpl; try apply I.
  - lia.
  - rewrite length_app, length_insert, Hl. simpl. lia.
  - rewrite lookup_app_l by (rewrite length_insert; lia). rewrite list_lookup_insert_eq by lia. by rewrite <-Hrest.
  - intros j b Hj Hb. destruct (decide (j = k)) as [->|Hjk].
    + exists 0%nat. simplify_eq. simpl. rewrite lookup_app_r by (rewrite length_insert; lia).
      rewrite length_insert, Hl. simpl. rewrite Nat.sub_diag. split; [done|]. split; [unfold INT_MAX; lia|].
      apply written_nil. eapply Forall_impl; [apply (io_calls _ _ _ I)|]. simpl. lia.
    + destruct (io_children _ _ _ I j b) as (n & Hn & Hm & Hw); [lia|done|]. exists n. simpl.
      rewrite lookup_app_l by (rewrite length_insert; lia). by rewrite list_lookup_insert_ne by lia.
  - eapply Forall_impl; [apply (io_calls _ _ _ I)|]. simpl. lia.
Qed.

Lemma write_ok t0 k s j b p c rv pr :
  init_ok t0 k s → (j < k)%nat → branches !! j = Some b → procs s !! (1 + j)%nat = Some p →
  init_request p = Write c → syscall_write c (console s) = Ok (rv, pr) →
  init_ok t0 k (mk_system (<[(1 + j)%nat := init_resume rv p]> (procs s)) pr (calls s ++ [((1 + j)%nat, c)])).
Proof.
  intros I Hj Hb Hp Hr Hw. destruct (io_children _ _ _ I j b) as (n & Hn & Hm & Hc); [done..|].
  rewrite Hn in Hp. simplify_eq. unfold init_request in Hr. simpl in Hr.
  destruct (Z.eqb_spec (Z.of_nat n) INT_MAX) as [|Hne]; [done|].
  destruct (branch_byte j b (Z.of_nat n) Hb) as (Hpos & E64 & E8).
  rewrite Z.rem_mod_nonneg in Hr by lia. injection Hr as <-. rewrite E64 in *.
  assert (rv = 0 ∧ kprintf_lock pr = 0 ∧ wrote [b.1 + Z.of_nat n mod b.2] (sink (console s)) (sink pr)) as (-> & Hl & Ho & Et).
  { apply (wp_ok_elim _ _ _ _ (λ rv pr, rv = 0 ∧ kprintf_lock pr = 0 ∧ wrote _ (sink (console s)) (sink pr)) Hw).
    apply wp_syscall_write; [apply I..|]. intros s' W. by rewrite E8 in W. }
  unfold init_resume. simpl at_. simpl x. cbv iota.
  pose proof (lookup_lt_Some _ _ _ Hn) as Hlen. split; simpl; try apply I; try done.
  - rewrite length_insert. apply I.
  - rewrite list_lookup_insert_ne by done. apply I.
  - intros j' b' Hj' Hb'. destruct (decide (j' = j)) as [->|Hjj].
    + simplify_eq. exists (1 + n)%nat. simpl procs. simpl calls. rewrite list_lookup_insert_eq by done.
      split; [do 2 f_equal; lia|]. split; [lia|]. by rewrite written_snoc, decide_True, Hc, <-cycle_S.
    + destruct (io_children _ _ _ I j' b') as (n' & Hn' & Hm' & Hc'); [done..|]. exists n'. simpl procs. simpl calls.
      rewrite list_lookup_insert_ne by lia. rewrite written_snoc, decide_False, app_nil_r by lia. done.
  - apply Forall_app. split; [apply I|]. apply Forall_singleton. simpl. lia.
  - rewrite fmap_app, (assoc_L (++)), <-(io_text _ _ _ I). done.
Qed.

(** Every step keeps the invariant. *)
Lemma step_ok t0 k (s s' : system S) : init_ok t0 k s → step s s' → ∃ k', init_ok t0 k' s'.
Proof.
  intros I Hs. destruct Hs as [s i p tid Hp Hr Ht|s i p c rv pr Hp Hr Hw];
    (destruct (requests t0 k s i p I Hp) as [[-> ->]|(j & b & -> & Hj & Hb & Ha)]).
  - exists (1 + k)%nat. by apply fork_ok.
  - unfold init_request in Hr. rewrite Ha in Hr. by case_match.
  - unfold init_request in Hr. simpl in Hr. by case_match.
  - exists k. by eapply write_ok.
Qed.

Definition started (pr : printer S) : system S := mk_system [init_user] pr [].

Lemma steps_ok pr (s : system S) :
  sink_ok (sink pr) → kprintf_lock pr = 0 → steps (started pr) s → ∃ k, init_ok (sink_text (sink pr)) k s.
Proof.
  intros Hs Hl H. remember (started pr) as s0 eqn:E. induction H as [s0|s1 s2 s3 _ IH Hstep]; subst.
  - exists 0%nat. split; simpl; [lia|done|done|lia|done|done|done|by rewrite app_nil_r].
  - destruct (IH eq_refl) as [k I]. by eapply step_ok.
Qed.

(** A child that has not written its last character can write the next one. *)
Lemma child_progress t0 k (s : system S) j b :
  init_ok t0 k s → (j < k)%nat → branches !! j = Some b →
  Z.of_nat (length (written (1 + j) (calls s))) < INT_MAX →
  ∃ s', step s s' ∧ written (1 + j) (calls s') = cycle b.1 b.2 (1 + length (written (1 + j) (calls s))).
Proof.
  intros I Hj Hb Hlt. destruct (io_children _ _ _ I j b) as (n & Hn & _ & Hc); [done..|].
  rewrite Hc in *. unfold cycle in Hlt |- * at 2. rewrite length_fmap, length_seq in *.
  destruct (branch_byte j b (Z.of_nat n) Hb) as (Hpos & E64 & _).
  destruct (proj1 (wp_ok (syscall_write (b.1 + Z.of_nat n mod b.2)) (console s) (λ _ _, True))) as (rv & pr & Hw & _).
  { by apply wp_syscall_write; [apply I..|]. }
  eexists. split.
  - eapply step_write; [exact Hn| |exact Hw]. unfold init_request. simpl.
    rewrite (proj2 (Z.eqb_neq _ _)) by lia. by rewrite Z.rem_mod_nonneg, E64 by lia.
  - simpl calls. by rewrite written_snoc, decide_True, Hc, cycle_S.
Qed.
End Proofs.

(** ** Theorem *)

(** C40: From [init_user], whatever process runs next at every step, there are
    at most nine processes; the text on the console grows by the characters of
    the calls of write in their order; all of them come from children, and the
    child of a branch has written its letters or digits over and over, in
    order, without a gap.  A child that has made fewer than 2^31 - 1 calls can
    always make its next one; after that many the increment of x is undefined. *)
Theorem init_output_correct {BC : BuildConfig} {S : Type} {CS : CharSink S} {CL : CharSinkLaws S} (pr : printer S) s :
  sink_ok (sink pr) → kprintf_lock pr = 0 → steps (started pr) s →
  (length (procs s) ≤ 9)%nat ∧
  sink_text (sink (console s)) = sink_text (sink pr) ++ (calls s).*2 ∧
  Forall (λ e, 1 ≤ e.1 < length (procs s))%nat (calls s) ∧
  ∀ j b p, branches !! j = Some b → procs s !! (1 + j)%nat = Some p →
    let n := length (written (1 + j) (calls s)) in
    written (1 + j) (calls s) = cycle b.1 b.2 n ∧ Z.of_nat n ≤ INT_MAX ∧
    (Z.of_nat n < INT_MAX → ∃ s', step s s' ∧ written (1 + j) (calls s') = cycle b.1 b.2 (1 + n)) ∧
    (Z.of_nat n = INT_MAX → init_request p = Undefined).
Proof.
  intros Hs Hl H. destruct (steps_ok pr s Hs Hl H) as [k I].
  pose proof (io_branches _ _ _ I) as Hk. simpl in Hk. pose proof (io_length _ _ _ I) as Hlen.
  split; [lia|]. split; [apply I|].
  split; [eapply Forall_impl; [apply I|]; simpl; lia|].
  intros j b p Hb Hp. pose proof (lookup_lt_Some _ _ _ Hp) as Hj.
  destruct (io_children _ _ _ I j b) as (m & Hm & Hmax & Hw); [lia|done|].
  assert (Hn : length (written (1 + j) (calls s)) = m) by (rewrite Hw; unfold cycle; by rewrite length_fmap, length_seq).
  cbv zeta. split; [by rewrite Hn|]. split; [lia|]. split.
  - intros Hlt. apply (child_progress (sink_text (sink pr)) k); [done|lia|done..].
  - intros E. rewrite Hm in Hp. simplify_eq. unfold init_request. simpl. by rewrite (proj2 (Z.eqb_eq _ _)).
Qed.

(** Two forks, then the second child writes and the first one does. *)
Module InitDemo.
Definition pr : printer (list Z) := mk_printer [] 0 true.
Definition parent (k : nat) : proc := mk_proc (Forking (drop k branches)) 0.
Definition child (j : nat) (n : Z) : proc := mk_proc (Writing (branches !!! j).1 (branches !!! j).2) n.
Definition after (ps : list proc) (l : list (nat * Z)) : system (list Z) := mk_system ps (mk_printer l.*2 0 true) l.
Definition last : system (list Z) := after [parent 2; child 0 1; child 1 1] [(2%nat, 97); (1%nat, 65)].

Lemma runs : steps (BC := debug_build) (started pr) last.
Proof.
  apply (steps_snoc _ (after [parent 2; child 0 0; child 1 1] [(2%nat, 97)])).
  1: apply (steps_snoc _ (after [parent 2; child 0 0; child 1 0] [])).
  1: apply (steps_snoc _ (after [parent 1; child 0 0] [])).
  1: apply (steps_snoc _ (started pr)); [apply steps_refl|].
  - by apply (step_fork (started pr) 0 init_user 2).
  - by apply (step_fork (after [parent 1; child 0 0] []) 0 (parent 1) 3).
  - by apply (step_write (after [parent 2; child 0 0; child 1 0] []) 2 (child 1 0) 97 0 (mk_printer [97] 0 true)).
  - by apply (step_write (after [parent 2; child 0 0; child 1 1] [(2%nat, 97)]) 1 (child 0 0) 65 0 (mk_printer [97; 65] 0 true)).
Qed.
End InitDemo.

Lemma init_output_correct_witness :
  sink_text (sink (console InitDemo.last)) = [97; 65] ∧ (length (procs InitDemo.last) ≤ 9)%nat.
Proof.
  pose proof (init_output_correct (BC := debug_build) (S := list Z) InitDemo.pr InitDemo.last I eq_refl InitDemo.runs) as H.
  split; [apply H|apply H].
Defined.
