(* ===== verification/Interrupts.v ===== *)
(** * Interrupts: descriptors, stubs and dispatch

    kernel/cpu/idt.c, isr_stubs.asm, isr.c and exceptions.c: the table of 256
    gates, what each stub pushes before it calls [isr_global_handler], the
    table of handlers and the dispatcher.  The address of a stub is chosen by
    the linker: [isr_stub v] is that of vector [v]. *)

From stdpp Require Import base list.
From Stdlib Require Import ZArith Lia Bool.
From S2P Require Import Prelude.
Local Open Scope Z_scope.

(** ** include/interrupts.h *)

Definition IST_NONE : Z := 0.
Definition IST_NMI : Z := 1.
Definition IST_DOUBLE_FAULT : Z := 2.

Definition IRQ_APIC_SPURIOUS : Z := 0xFF.
Definition IRQ_APIC_BASE : Z := 0x30.
Definition IRQ_LINT_BASE : Z := IRQ_APIC_SPURIOUS - 3.
Definition IRQ_LINT_TIMER : Z := IRQ_LINT_BASE + 2.
Definition IRQ_NMI : Z := IRQ_LINT_BASE - 1.
Definition IRQ_IPI_TOP : Z := IRQ_NMI - 1.
Definition IRQ_IPI_ABORT : Z := IRQ_IPI_TOP - 0.
Definition IRQ_IPI_TLB_SHOOTDOWN : Z := IRQ_IPI_TOP - 1.
Definition IRQ_IPI_SCHED_HINT : Z := IRQ_IPI_TOP - 2.

Record idt_entry := mk_gate {
  offset_low : Z; selector : Z; ist_index : Z; type_attr : Z; offset_mid : Z; offset_high : Z; idt_zero : Z
}.

Definition no_gate : idt_entry := mk_gate 0 0 0 0 0 0 0.

Record isr_ctx := mk_ctx {
  c_r11 : Z; c_r10 : Z; c_r9 : Z; c_r8 : Z; c_rax : Z; c_rcx : Z; c_rdx : Z; c_rsi : Z; c_rdi : Z;
  info : Z;
  c_rip : Z; c_cs : Z; c_rflags : Z; c_rsp : Z; c_ss : Z
}.

(** ** idt.c *)

Definition idt_set_gate (index entry ist ty : Z) (idt64 : list idt_entry) : list idt_entry :=
  let p := entry in
  <[Z.to_nat index := mk_gate (u16 (Z.land p 0xFFFF)) 0x08 ist ty
                        (u16 (Z.shiftr (Z.land p 0xFFFF0000) 16))
                        (u32 (Z.shiftr (Z.land p 0xFFFFFFFF00000000) 32)) 0]> idt64.

Section Idt.
Context (isr_stub : Z → Z).

Definition IDT_INSTALL_CLI (index ist : Z) := idt_set_gate index (isr_stub index) ist 0x8E.
Definition IDT_INSTALL_STI (index ist : Z) := idt_set_gate index (isr_stub index) ist 0x8F.

(** A run of installations, in order. *)
Definition install (f : Z → list idt_entry → list idt_entry) (from n : Z) (idt : list idt_entry) :=
  fold_left (λ idt v, f v idt) (seqZ from n) idt.

(** Vectors 0 to 31 *)
Definition idt_exceptions (idt : list idt_entry) : list idt_entry :=
  install (λ v, IDT_INSTALL_CLI v (if v =? 2 then IST_NMI else if v =? 8 then IST_DOUBLE_FAULT else IST_NONE))
    0 32 idt.

(** Vectors 32 to 143, and 144 to 255 with its one interrupt gate *)
Definition idt_irqs_low (idt : list idt_entry) : list idt_entry :=
  install (λ v, IDT_INSTALL_STI v IST_NONE) 32 112 idt.
Definition idt_irqs_high (idt : list idt_entry) : list idt_entry :=
  install (λ v, if v =? 252 then IDT_INSTALL_CLI v IST_NMI else IDT_INSTALL_STI v IST_NONE) 144 112 idt.

Definition idt_init (idt : list idt_entry) : list idt_entry :=
  idt_irqs_high (idt_irqs_low (idt_exceptions idt)).
End Idt.

(** ** isr_stubs.asm *)

Inductive stub := StubErr | StubNoErr | StubIrq | StubNop | StubIpi.

Definition exception_stub (v : Z) : stub :=
  if bool_decide (v ∈ [8; 10; 11; 12; 13; 14; 17; 30]) then StubErr else StubNoErr.

(** The vectors of the old controllers do nothing; the others up to 143, and
    those from 144 on, where the messages of other CPUs and the local APIC's
    own interrupts are. *)
Definition interrupt_stub_low (v : Z) : stub := if v <? 48 then StubNop else StubIrq.
Definition interrupt_stub_high (v : Z) : stub :=
  if v <? 248 then StubIrq
  else if v <? 251 then StubIpi
  else if v =? 251 then StubNoErr
  else if v <? 255 then StubIrq
  else StubNop.

Definition stub_of (v : Z) : stub :=
  if v <? 32 then exception_stub v else if v <? 144 then interrupt_stub_low v else interrupt_stub_high v.

(** [idt64.pointer] and [idt_load]: base and limit of the table of 256 gates of
    16 bytes. *)
Definition idt64_pointer (idt64 : Z) : Z * Z := (idt64, 256 * 16 - 1).
Definition idt_load (idt64 : Z) : Z * Z := idt64_pointer idt64.

(** [mov dword [rsp + 4], v] *)
Definition set_high (v w : Z) : Z := w mod 2 ^ 32 + v * 2 ^ 32.

(** The stack when the stub is entered ([frame] as the CPU pushed it, with
    the error code on top for the vectors that have one), and when it jumps
    to [isr_common]; [None] for the stubs that return at once. *)
Definition stub_push (v : Z) (stack : list Z) : option (list Z) :=
  match stub_of v, stack with
  | StubErr, w :: stack => Some (set_high v w :: stack)
  | StubErr, [] => None
  | StubNoErr, _ => Some (set_high v 0 :: stack)
  | StubIrq, _ | StubIpi, _ => Some (v :: stack)
  | StubNop, _ => None
  end.

Record regs := mk_regs {
  r_rdi : Z; r_rsi : Z; r_rdx : Z; r_rcx : Z; r_rax : Z; r_r8 : Z; r_r9 : Z; r_r10 : Z; r_r11 : Z
}.

(** The pushes of [isr_common] and the context the handler gets. *)
Definition isr_save (r : regs) (stack : list Z) : list Z :=
  r_r11 r :: r_r10 r :: r_r9 r :: r_r8 r :: r_rax r :: r_rcx r :: r_rdx r :: r_rsi r :: r_rdi r :: stack.

Definition ctx_at (stack : list Z) : option isr_ctx :=
  match stack with
  | r11 :: r10 :: r9 :: r8 :: rax :: rcx :: rdx :: rsi :: rdi :: w :: rip :: cs :: fl :: rsp :: ss :: _ =>
      Some (mk_ctx r11 r10 r9 r8 rax rcx rdx rsi rdi w rip cs fl rsp ss)
  | _ => None
  end.

(** The pops, [add rsp, 8], and what [iretq] finds. *)
Definition isr_restore (stack : list Z) : option (regs * list Z) :=
  match stack with
  | r11 :: r10 :: r9 :: r8 :: rax :: rcx :: rdx :: rsi :: rdi :: _ :: stack =>
      Some (mk_regs rdi rsi rdx rcx rax r8 r9 r10 r11, stack)
  | _ => None
  end.

(** ** isr.c and exceptions.c *)

Inductive isr_type := ISR_IRQ | ISR_EXCEPTION | ISR_IPI | ISR_NOP.

(** The handlers the kernel installs; [OtherHandler] is any other. *)
Inductive handler := PageFaultHandler | ExceptionHandler | OtherHandler (a : Z).

Record isr_info := mk_info { itype : isr_type; ihandler : option handler }.

(** All bytes zero *)
Definition no_info : isr_info := mk_info ISR_IRQ None.

Definition isr_set_info (vec : Z) (i : isr_info) (table : list isr_info) : list isr_info :=
  <[Z.to_nat vec := i]> table.

Definition INT_PAGE_FAULT : Z := 14.

Definition exceptions_init (table : list isr_info) : list isr_info :=
  let table := fold_left (λ t i,
    isr_set_info i (mk_info ISR_EXCEPTION
      (Some (if i =? INT_PAGE_FAULT then ExceptionHandler else PageFaultHandler))) t) (seqZ 0 32) table in
  isr_set_info IRQ_NMI (mk_info ISR_EXCEPTION (Some ExceptionHandler)) table.

(** The calls of [isr_set_info] in the kernel: those of [exceptions_init], the
    timer's in lapic.c and the keyboard's at its vector [kvec]. *)
Definition startup_table (timer kbd kvec : Z) : list isr_info :=
  isr_set_info kvec (mk_info ISR_IRQ (Some (OtherHandler kbd)))
    (isr_set_info IRQ_LINT_TIMER (mk_info ISR_IRQ (Some (OtherHandler timer))) (exceptions_init (replicate 256 no_info))).

(** Whether the vector leads to the handler at address [h]. *)
Definition installed (table : list isr_info) (vec h : Z) : bool :=
  match table !! Z.to_nat vec with
  | Some (mk_info _ (Some (OtherHandler a))) => a =? h
  | _ => false
  end.

(** ** The dispatcher *)

(** [rest] is what the handlers work on. *)
Record icpu (X : Type) := mk_icpu {
  isr_table : list isr_info;
  int_depth : Z;
  reschedule : bool;
  rest : X
}.
Arguments mk_icpu {X} _ _ _ _.
Arguments isr_table {X} _.
Arguments int_depth {X} _.
Arguments reschedule {X} _.
Arguments rest {X} _.

Definition upd_depth {X} v (s : icpu X) := mk_icpu (isr_table s) v (reschedule s) (rest s).
Definition upd_rest {X} (v : X) (s : icpu X) := mk_icpu (isr_table s) (int_depth s) (reschedule s) v.

Section Dispatch.
Context {X : Type} (run : handler → isr_ctx → M (icpu X) unit) (lapic_eoi : Z → M (icpu X) unit)
        (sched_yield_preempt : M (icpu X) unit).

(** [info->...]: the entry is read when it is used. *)
Definition rd_info (int_no : Z) : M (icpu X) isr_info :=
  s ← get; match isr_table s !! Z.to_nat int_no with Some i => mret i | None => fault end.

Definition isr_global_handler (c : isr_ctx) : M (icpu X) unit :=
  let int_no := Z.land (info c) 0xFF in
  i ← rd_info int_no;
  (match itype i with
   | ISR_IRQ => modify (λ s, upd_depth (u32 (int_depth s + 1)) s);; lapic_eoi int_no
   | _ => mret tt
   end);;
  i ← rd_info int_no;
  (match ihandler i with Some h => run h c | None => mret tt end);;
  i ← rd_info int_no;
  depth ← (match itype i with
           | ISR_IRQ => s ← get; modify (upd_depth (u32 (int_depth s - 1)));; mret (u32 (int_depth s - 1))
           | _ => mret 0
           end);
  s ← get;
  if (depth =? 0) && reschedule s then sched_yield_preempt else mret tt.
End Dispatch.

(** [isr_init]: the bytes for the two interrupt controllers, which move to
    vectors 0x20 and 0x28 and are then masked, and an empty table. *)
Definition isr_init : list (Z * Z) * list isr_info :=
  ([(0x20, 0x11); (0xA0, 0x11); (0x21, 0x20); (0xA1, 0x28); (0x21, 0x04); (0xA1, 0x02);
    (0x21, 0x01); (0xA1, 0x01); (0x21, 0x00); (0xA1, 0x00); (0xA1, 0xFF); (0x21, 0xFF)],
   replicate 256 no_info).

(** [interrupts_init]: the gates, the bytes for the old controllers, the table
    of handlers and what [lidt] loads. *)
Definition interrupts_init (isr_stub : Z → Z) (idt64 : Z) (idt : list idt_entry) :
    list idt_entry * list (Z * Z) * list isr_info * (Z * Z) :=
  let idt := idt_init isr_stub idt in
  let '(out, table) := isr_init in
  let table := exceptions_init table in
  (idt, out, table, idt_load idt64).

(** ** Tables filled in order *)

Section Fill.
Context {A : Type} (g : Z → A).

Lemma fill_lookup (l : list Z) (t : list A) (i : Z) :
  Forall (λ v, 0 ≤ v) l → 0 ≤ i < Z.of_nat (length t) →
  fold_left (λ t v, <[Z.to_nat v := g v]> t) l t !! Z.to_nat i =
    if decide (i ∈ l) then Some (g i) else t !! Z.to_nat i.
Proof.
  intros Hl Hi. induction l as [|v l IH] using rev_ind; [done|].
  apply Forall_app in Hl as [Hl [Hv _]%Forall_cons]. specialize (IH Hl). rewrite fold_left_app. simpl.
  assert (length (fold_left (λ t v, <[Z.to_nat v := g v]> t) l t) = length t) as Hlen.
  { clear. revert t. induction l as [|v l IH]; intros t; simpl; [done|]. by rewrite IH, length_insert. }
  destruct (decide (v = i)) as [->|Hne].
  - rewrite list_lookup_insert_eq by lia. rewrite decide_True; [done|]. apply elem_of_app. right. left.
  - rewrite list_lookup_insert_ne by lia. rewrite IH. apply decide_ext. rewrite elem_of_app, list_elem_of_singleton.
    naive_solver.
Qed.

Lemma length_fill (l : list Z) (t : list A) :
  length (fold_left (λ t v, <[Z.to_nat v := g v]> t) l t) = length t.
Proof. revert t. induction l as [|v l IH]; intros t; simpl; [done|]. by rewrite IH, length_insert. Qed.
End Fill.

Lemma seqZ_nonneg a n : 0 ≤ a → Forall (λ v, 0 ≤ v) (seqZ a n).
Proof. intros Ha. apply Forall_forall. intros v Hv%elem_of_seqZ. lia. Qed.

(** ** Gates *)

Definition gate_target (e : idt_entry) : Z := offset_low e + offset_mid e * 2 ^ 16 + offset_high e * 2 ^ 32.

Definition gate (isr_stub : Z → Z) (v : Z) (ist ty : Z) : idt_entry :=
  mk_gate (u16 (Z.land (isr_stub v) 0xFFFF)) 0x08 ist ty
    (u16 (Z.shiftr (Z.land (isr_stub v) 0xFFFF0000) 16))
    (u32 (Z.shiftr (Z.land (isr_stub v) 0xFFFFFFFF00000000) 32)) 0.

(** The three parts of an address put together again. *)
Lemma gate_target_ok isr_stub v ist ty : in_u 64 (isr_stub v) → gate_target (gate isr_stub v ist ty) = isr_stub v.
Proof.
  unfold in_u, gate_target, gate. simpl. generalize (isr_stub v). intros p Hp.
  change 0xFFFF with (Z.ones 16) at 1. rewrite Z.land_ones by lia.
  rewrite !Z.shiftr_land. change (Z.shiftr 0xFFFF0000 16) with (Z.ones 16).
  change (Z.shiftr 0xFFFFFFFF00000000 32) with (Z.ones 32).
  rewrite !Z.land_ones, !Z.shiftr_div_pow2 by lia. unfold uwrap.
  rewrite !Z.mod_mod by lia.
  rewrite (Z.mod_small (p / 2 ^ 32)) by (split; [apply Z.div_pos; lia|apply Z.div_lt_upper_bound; lia]).
  pose proof (Z.div_mod p (2 ^ 16) ltac:(lia)) as E1.
  pose proof (Z.div_mod (p / 2 ^ 16) (2 ^ 16) ltac:(lia)) as E2.
  rewrite Z.div_div in E2 by lia. change (2 ^ 16 * 2 ^ 16) with (2 ^ 32) in E2. lia.
Qed.

Definition gate_ist (v : Z) : Z :=
  if (v =? 2) || (v =? 252) then IST_NMI else if v =? 8 then IST_DOUBLE_FAULT else IST_NONE.
Definition gate_type (v : Z) : Z := if (v <? 32) || (v =? 252) then 0x8E else 0x8F.

Lemma install_fill f g from n idt :
  (∀ v t, f v t = <[Z.to_nat v := g v]> t) →
  install f from n idt = fold_left (λ t v, <[Z.to_nat v := g v]> t) (seqZ from n) idt.
Proof.
  intros Hf. unfold install. revert idt. induction (seqZ from n) as [|x l IH]; intros idt; simpl; [done|].
  by rewrite Hf, IH.
Qed.

Lemma install_lookup f g from n idt v :
  (∀ v t, f v t = <[Z.to_nat v := g v]> t) → 0 ≤ from → 0 ≤ v < Z.of_nat (length idt) →
  install f from n idt !! Z.to_nat v =
    (if decide (from ≤ v < from + n) then Some (g v) else idt !! Z.to_nat v) ∧
  length (install f from n idt) = length idt.
Proof.
  intros Hf H0 Hv. rewrite (install_fill _ _ _ _ _ Hf). split; [|apply length_fill].
  rewrite fill_lookup by (done || by apply seqZ_nonneg). apply decide_ext. apply elem_of_seqZ.
Qed.

Lemma idt_init_lookup isr_stub idt v :
  length idt = 256%nat → 0 ≤ v < 256 →
  idt_init isr_stub idt !! Z.to_nat v = Some (gate isr_stub v (gate_ist v) (gate_type v)).
Proof.
  intros Hlen Hv. unfold idt_init.
  set (g1 v := gate isr_stub v (if v =? 2 then IST_NMI else if v =? 8 then IST_DOUBLE_FAULT else IST_NONE) 0x8E).
  set (g2 v := gate isr_stub v IST_NONE 0x8F).
  set (g3 v := if v =? 252 then gate isr_stub v IST_NMI 0x8E else g2 v).
  assert (length (idt_exceptions isr_stub idt) = 256%nat) as L1.
  { unfold idt_exceptions. by rewrite (install_fill _ g1), length_fill. }
  assert (length (idt_irqs_low isr_stub (idt_exceptions isr_stub idt)) = 256%nat) as L2.
  { unfold idt_irqs_low. by rewrite (install_fill _ g2), length_fill. }
  unfold idt_irqs_high. destruct (install_lookup (λ v, if v =? 252 then IDT_INSTALL_CLI isr_stub v IST_NMI
    else IDT_INSTALL_STI isr_stub v IST_NONE) g3 144 112 (idt_irqs_low isr_stub (idt_exceptions isr_stub idt)) v) as [-> _];
    [intros x t; unfold g3; by destruct (x =? 252)|lia|lia|].
  unfold idt_irqs_low at 1. destruct (install_lookup (λ v, IDT_INSTALL_STI isr_stub v IST_NONE) g2 32 112
    (idt_exceptions isr_stub idt) v) as [-> _]; [done|lia|lia|].
  unfold idt_exceptions at 1. destruct (install_lookup (λ v, IDT_INSTALL_CLI isr_stub v
    (if v =? 2 then IST_NMI else if v =? 8 then IST_DOUBLE_FAULT else IST_NONE)) g1 0 32 idt v) as [-> _]; [done|lia|lia|].
  unfold gate_ist, gate_type, g1, g3, g2.
  repeat case_decide; try lia; f_equal;
    repeat match goal with
    | |- context [?a =? ?b] => destruct (Z.eqb_spec a b); try lia
    | |- context [?a <? ?b] => destruct (Z.ltb_spec a b); try lia
    end; done.
Qed.

Lemma exceptions_init_lookup v :
  0 ≤ v < 256 →
  exceptions_init (replicate 256 no_info) !! Z.to_nat v =
    Some (if v =? IRQ_NMI then mk_info ISR_EXCEPTION (Some ExceptionHandler)
          else if v <? 32 then mk_info ISR_EXCEPTION (Some (if v =? INT_PAGE_FAULT then ExceptionHandler else PageFaultHandler))
          else no_info).
Proof.
  intros Hv. unfold exceptions_init, isr_set_info.
  set (g i := mk_info ISR_EXCEPTION (Some (if i =? INT_PAGE_FAULT then ExceptionHandler else PageFaultHandler))).
  change (λ t i, <[Z.to_nat i := _]> t) with (λ (t : list isr_info) i, <[Z.to_nat i := g i]> t).
  destruct (Z.eqb_spec v IRQ_NMI) as [->|Hne].
  - apply list_lookup_insert_eq. rewrite length_fill, length_replicate. by vm_compute; lia.
  - rewrite list_lookup_insert_ne by (unfold IRQ_NMI, IRQ_LINT_BASE, IRQ_APIC_SPURIOUS in *; lia).
    rewrite (fill_lookup g) by (try apply seqZ_nonneg; rewrite ?length_replicate; lia).
    destruct (Z.ltb_spec v 32); [rewrite decide_True by (apply elem_of_seqZ; lia); done|].
    rewrite decide_False by (rewrite elem_of_seqZ; lia). by apply lookup_replicate_2; lia.
Qed.

(** No handler is ever set for the requests between processors. *)
Lemma startup_ipi timer kbd kvec v h :
  0 ≤ kvec → v ∈ [IRQ_IPI_ABORT; IRQ_IPI_TLB_SHOOTDOWN; IRQ_IPI_SCHED_HINT] → kvec ≠ v →
  startup_table timer kbd kvec !! Z.to_nat v = Some no_info ∧ installed (startup_table timer kbd kvec) v h = false.
Proof.
  intros Hk Hv Hne. assert (startup_table timer kbd kvec !! Z.to_nat v = Some no_info) as E.
  { unfold startup_table, isr_set_info.
    assert (v = 250 ∨ v = 249 ∨ v = 248) as Hc.
    { rewrite !elem_of_cons, elem_of_nil in Hv. destruct Hv as [->|[->|[->|[]]]]; vm_compute; auto. }
    rewrite !list_lookup_insert_ne by (unfold IRQ_LINT_TIMER, IRQ_LINT_BASE, IRQ_APIC_SPURIOUS; lia).
    rewrite exceptions_init_lookup by lia. by destruct Hc as [->|[->| ->]]. }
  split; [done|]. unfold installed. by rewrite E.
Qed.

(** ** Theorems *)

(** After idt_init every one of the 256 gates leads to the stub of its own
    vector through the kernel's code segment, the address being recovered
    from its three parts; exceptions and vector 252 have interrupt gates, the
    others trap gates, and the stack switch is that of [gate_ist]. *)
Theorem idt_init_correct isr_stub idt v :
  length idt = 256%nat → 0 ≤ v < 256 → in_u 64 (isr_stub v) →
  ∃ e, idt_init isr_stub idt !! Z.to_nat v = Some e ∧
    gate_target e = isr_stub v ∧ selector e = 0x08 ∧ ist_index e = gate_ist v ∧ type_attr e = gate_type v.
Proof.
  intros Hlen Hv Hu. eexists. split; [by apply idt_init_lookup|]. split; [by apply gate_target_ok|done].
Qed.

(** After interrupts_init the processor's table register covers exactly the 256
    gates, every exception's gate leads to its stub, and its entry in the table
    of handlers has a handler of the kind for exceptions; no other vector but
    that of the local APIC's NMI has one yet. *)
Theorem interrupts_init_ready isr_stub idt64 idt v :
  length idt = 256%nat → 0 ≤ v < 256 → in_u 64 (isr_stub v) →
  let '(idt', _, table, (base, limit)) := interrupts_init isr_stub idt64 idt in
  base = idt64 ∧ limit + 1 = 16 * Z.of_nat (length idt) ∧
  (∃ e, idt' !! Z.to_nat v = Some e ∧ gate_target e = isr_stub v) ∧
  ∃ i, table !! Z.to_nat v = Some i ∧
    if (v <? 32) || (v =? IRQ_NMI) then itype i = ISR_EXCEPTION ∧ ihandler i ≠ None else i = no_info.
Proof.
  intros Hlen Hv Hu. unfold interrupts_init, isr_init. cbv zeta. rewrite Hlen. split_and!; [done..| |].
  - eexists. split; [by apply idt_init_lookup|by apply gate_target_ok].
  - eexists. split; [by apply exceptions_init_lookup|]. destruct (v =? IRQ_NMI); [by rewrite orb_true_r|]. by destruct (v <? 32).
Qed.

(** An interrupt is transparent to the code it interrupts.  Whatever the
    vector, the stub and isr_common build a context that holds the
    interrupted registers and frame where the handler's structure expects
    them, and the way out restores all nine registers and leaves the
    processor's frame on top of the stack, with the error code (if the
    processor pushed one) and the info word gone. *)
Theorem isr_common_roundtrip v err r rip cs fl rsp ss stack stk :
  0 ≤ v < 256 →
  let frame := rip :: cs :: fl :: rsp :: ss :: stack in
  stub_push v (match stub_of v with StubErr => err :: frame | _ => frame end) = Some stk →
  isr_restore (isr_save r stk) = Some (r, frame) ∧
  ∃ c, ctx_at (isr_save r stk) = Some c ∧
    c_rdi c = r_rdi r ∧ c_rsi c = r_rsi r ∧ c_rdx c = r_rdx r ∧ c_rcx c = r_rcx r ∧ c_rax c = r_rax r ∧
    c_r8 c = r_r8 r ∧ c_r9 c = r_r9 r ∧ c_r10 c = r_r10 r ∧ c_r11 c = r_r11 r ∧
    c_rip c = rip ∧ c_cs c = cs ∧ c_rflags c = fl ∧ c_rsp c = rsp ∧ c_ss c = ss ∧
    info c = match stub_of v with
             | StubErr => set_high v err
             | StubNoErr => set_high v 0
             | _ => v
             end.
Proof.
  intros Hv frame Hs. unfold stub_push in Hs. destruct r.
  destruct (stub_of v); simplify_eq; (split; [done|eexists; split; [reflexivity|done]]).
Qed.

Section Balance.
Context {X : Type} (run : handler → isr_ctx → M (icpu X) unit) (lapic_eoi : Z → M (icpu X) unit).

(** The operation returns and leaves the table and the depth as they were. *)
Definition keeps (m : M (icpu X) unit) : Prop :=
  ∀ s, wp m s (λ _ s', isr_table s' = isr_table s ∧ int_depth s' = int_depth s).

Lemma wp_rd_info n i s (Q : isr_info → icpu X → Prop) :
  isr_table s !! Z.to_nat n = Some i → Q i s → wp (rd_info n) s Q.
Proof. intros Hi HQ. unfold rd_info. wp_steps. rewrite Hi. by wp_steps. Qed.

(** Up to the decision whether to yield. *)
Lemma wp_dispatch yield c s i (Q : unit → icpu X → Prop) :
  (∀ n, keeps (lapic_eoi n)) → (∀ h c, keeps (run h c)) →
  isr_table s !! Z.to_nat (Z.land (info c) 0xFF) = Some i → 0 ≤ int_depth s < 2 ^ 32 - 1 →
  (∀ s', isr_table s' = isr_table s → int_depth s' = int_depth s →
     wp (if ((match itype i with ISR_IRQ => int_depth s | _ => 0 end) =? 0) && reschedule s'
         then yield else mret tt) s' Q) →
  wp (isr_global_handler run lapic_eoi yield c) s Q.
Proof.
  intros He Hr Hi Hd HQ. unfold isr_global_handler. set (n := Z.land (info c) 0xFF) in *.
  apply wp_bind, (wp_rd_info _ i); [done|].
  set (d := match itype i with ISR_IRQ => int_depth s + 1 | _ => int_depth s end).
  apply wp_bind, (wp_mono _ _ (λ _ s1, isr_table s1 = isr_table s ∧ int_depth s1 = d)).
  { unfold d. destruct (itype i); [|by apply wp_ret..].
    apply wp_bind, wp_modify. eapply wp_mono; [apply He|]. intros _ s1 [-> ->]. simpl.
    rewrite uwrap_id by (unfold in_u; lia). done. }
  intros _ s1 [T1 D1]. apply wp_bind, (wp_rd_info _ i); [by rewrite T1|].
  apply wp_bind, (wp_mono _ _ (λ _ s2, isr_table s2 = isr_table s ∧ int_depth s2 = d)).
  { destruct (ihandler i) as [h|]; [|by apply wp_ret]. eapply wp_mono; [apply Hr|].
    intros _ s2 [-> ->]. done. }
  intros _ s2 [T2 D2]. apply wp_bind, (wp_rd_info _ i); [by rewrite T2|]. apply wp_bind. unfold d in D2.
  destruct (itype i); wp_steps; [|by apply HQ..].
  rewrite D2. replace (int_depth s + 1 - 1) with (int_depth s) by lia.
  rewrite uwrap_id by (unfold in_u; lia). by apply HQ.
Qed.

(** A hardware interrupt leaves the interrupt depth as it found it,
    provided the handler and the acknowledgement do, and when it arrived
    inside another one it never enters the scheduler: the dispatcher returns
    also with a scheduler that panics. *)
Theorem isr_irq_nested_no_yield c s h :
  (∀ n, keeps (lapic_eoi n)) → (∀ h c, keeps (run h c)) →
  isr_table s !! Z.to_nat (Z.land (info c) 0xFF) = Some (mk_info ISR_IRQ h) → 0 < int_depth s < 2 ^ 32 - 1 →
  wp (isr_global_handler run lapic_eoi panic c) s (λ _ s',
    isr_table s' = isr_table s ∧ int_depth s' = int_depth s).
Proof.
  intros He Hr Hi Hd. eapply wp_dispatch; [done..|lia|]. intros s' T D. simpl.
  destruct (Z.eqb_spec (int_depth s) 0); [lia|]. by apply wp_ret.
Qed.

(** Any other interrupt (an exception such as a page fault, or an IPI)
    taken inside an IRQ handler does enter the scheduler when rescheduling is
    due, although the depth is not 0. *)
Theorem isr_exception_nested_yields yield c s i :
  (∀ h c s, wp (run h c) s (λ _ s', s' = s)) →
  isr_table s !! Z.to_nat (Z.land (info c) 0xFF) = Some i → itype i ≠ ISR_IRQ →
  0 < int_depth s → reschedule s = true →
  isr_global_handler run lapic_eoi yield c s = yield s.
Proof.
  intros Hr Hi Ht Hd Hs. destruct i as [ty oh]. simpl in Ht.
  unfold isr_global_handler, rd_info, mbind, M_bind, get, mret, M_ret. rewrite Hi.
  destruct ty; [done|..]; simpl; rewrite Hi; simpl;
    (destruct oh as [h|];
     [specialize (Hr h c s); unfold wp in Hr; destruct (run h c s) as [[[] s1]| | |]; [subst s1|done..]|];
     rewrite Hi; simpl; by rewrite Hs).
Qed.
End Balance.

(** An exception is dispatched by the low byte of its error code, not by
    its vector, since the vector is in the upper half of the info word: every
    exception without an error code, the NMI included, reaches the entry of
    vector 0, and with it page_fault_handler. *)
Theorem exceptions_dispatch_by_error_code v :
  stub_of v = StubNoErr →
  exceptions_init (replicate 256 no_info) !! Z.to_nat (Z.land (set_high v 0) 0xFF) =
    Some (mk_info ISR_EXCEPTION (Some PageFaultHandler)).
Proof.
  intros _. assert (Z.land (set_high v 0) 0xFF = 0) as ->; [|by rewrite exceptions_init_lookup].
  unfold set_high. change 0xFF with (Z.ones 8). rewrite Z.land_ones by lia.
  rewrite Z.mod_0_l by lia. replace (0 + v * 2 ^ 32) with (v * 2 ^ 24 * 2 ^ 8) by lia. apply Z.mod_mul. lia.
Qed.

(** ** Instances *)

Lemma idt_init_correct_witness :
  ∃ e, idt_init (λ v, 0xFFFFFFFF80100000 + 16 * v) (replicate 256 no_gate) !! Z.to_nat 14 = Some e ∧
       gate_target e = 0xFFFFFFFF801000E0.
Proof.
  destruct (idt_init_correct (λ v, 0xFFFFFFFF80100000 + 16 * v) (replicate 256 no_gate) 14)
    as (e & He & Ht & _); [done|lia|unfold in_u; lia|].
  exists e. split; [exact He|exact Ht].
Defined.

Lemma isr_common_roundtrip_witness :
  isr_restore (isr_save (mk_regs 1 2 3 4 5 6 7 8 9) [set_high 14 2; 10; 8; 0x202; 20; 16]) =
    Some (mk_regs 1 2 3 4 5 6 7 8 9, [10; 8; 0x202; 20; 16]).
Proof.
  apply (isr_common_roundtrip 14 2 (mk_regs 1 2 3 4 5 6 7 8 9) 10 8 0x202 20 16 [] [set_high 14 2; 10; 8; 0x202; 20; 16]).
  - lia.
  - reflexivity.
Defined.

Definition demo_ctx (w : Z) : isr_ctx := mk_ctx 0 0 0 0 0 0 0 0 0 w 0 0 0 0 0.

Lemma isr_irq_nested_no_yield_witness :
  wp (isr_global_handler (λ _ _, mret tt) (λ _, mret tt) panic (demo_ctx 0x30))
     (mk_icpu (replicate 256 no_info) 1 true tt) (λ _ s', int_depth s' = 1).
Proof.
  eapply wp_mono; [apply (isr_irq_nested_no_yield (λ _ _, mret tt) (λ _, mret tt) (demo_ctx 0x30)
    (mk_icpu (replicate 256 no_info) 1 true tt) None)|]; try done.
  by intros ? ? [_ ->].
Defined.

Lemma isr_exception_nested_yields_witness :
  isr_global_handler (λ _ _, mret tt) (λ _, mret tt) panic (demo_ctx (set_high 14 2))
    (mk_icpu (exceptions_init (replicate 256 no_info)) 1 true tt) = Panic.
Proof.
  apply (isr_exception_nested_yields (λ _ _, mret tt) (λ _, mret tt) panic (demo_ctx (set_high 14 2))
    (mk_icpu (exceptions_init (replicate 256 no_info)) 1 true tt) (mk_info ISR_EXCEPTION (Some PageFaultHandler)));
    [done|exact (exceptions_init_lookup 2 ltac:(lia))|done|done|done].
Defined.

Lemma exceptions_dispatch_by_error_code_witness :
  exceptions_init (replicate 256 no_info) !! Z.to_nat (Z.land (set_high 6 0) 0xFF) =
    Some (mk_info ISR_EXCEPTION (Some PageFaultHandler)).
Proof. apply (exceptions_dispatch_by_error_code 6). by vm_compute. Defined.
