(* ===== verification/Addr.v ===== *)
(** * Addresses and arithmetic macros

    include/limits.h, include/util.h and include/addr.h: alignment macros on
    64-bit values, the physical, logical and kernel-text views of memory, and
    the [struct page] array. *)

From stdpp Require Import base numbers list.
From Stdlib Require Import ZArith Lia Bool Btauto.
From S2P Require Import Prelude.
Local Open Scope Z_scope.

(** ** include/limits.h *)

Definition MAX_ORDER : Z := 12.
Definition NAME_MAX : Z := 32.
Definition PAGE_SIZE : Z := 0x1000.
Definition KERNEL_TEXT_BASE : Z := 0xFFFFFFFF80000000.
Definition KERNEL_PHYS_MAP_END : Z := 0x1000000.
Definition KERNEL_LOGICAL_BASE : Z := 0xFFFF800000000000.

(** ** include/util.h, on [uint64_t] operands *)

Definition MIN (x y : Z) : Z := if x >? y then y else x.
Definition MAX (x y : Z) : Z := if x >? y then x else y.
Definition ALIGNUP (val align : Z) : Z :=
  Z.land (u64 (val + u64 (align - 1))) (u64 (- align)).
Definition ALIGNDOWN (val align : Z) : Z :=
  Z.land val (u64 (Z.lnot (u64 (align - 1)))).
Definition DIV_ROUND_UP (val div : Z) : Z := u64 (u64 (val + div) - 1) / div.
Definition ISALIGN_POW2 (val align : Z) : bool := Z.land val (u64 (align - 1)) =? 0.

(** ** include/addr.h *)

Definition virt_to_phys (v : Z) : Z := if v =? NULL then NULL else u64 (v - KERNEL_LOGICAL_BASE).
Definition phys_to_virt (p : Z) : Z := if p =? NULL then NULL else u64 (p + KERNEL_LOGICAL_BASE).
Definition kern_to_phys (k : Z) : Z := if k =? NULL then NULL else u64 (k - KERNEL_TEXT_BASE).
Definition phys_to_kern (p : Z) : Z := if p =? NULL then NULL else u64 (p + KERNEL_TEXT_BASE).

(** [struct page *const page_data] of kernel/mm/pmm.c, and [sizeof(struct page)]:
    two list pointers, the order padded to 4 bytes with the reference count, and
    the lock. *)
Definition KERNEL_PAGE_DATA : Z := KERNEL_TEXT_BASE + KERNEL_PHYS_MAP_END.
Definition page_data : Z := KERNEL_PAGE_DATA.
Definition SIZEOF_PAGE : Z := 40.

Definition phys_to_page (p : Z) : Z :=
  if p =? NULL then NULL else u64 (page_data + SIZEOF_PAGE * (p / PAGE_SIZE)).

(** Pointer subtraction divides the signed byte distance. *)
Definition page_to_phys (p : Z) : Z :=
  if p =? NULL then NULL else u64 (u64 (Z.quot (i64 (p - page_data)) SIZEOF_PAGE) * PAGE_SIZE).

Definition virt_to_page (v : Z) : Z := phys_to_page (virt_to_phys v).
Definition page_to_virt (p : Z) : Z := phys_to_virt (page_to_phys p).

(** ** Alignment *)

Section align.
Context (k : Z) (Hk : 0 ≤ k < 64).

Lemma mask_bits i : 0 ≤ i < 64 → Z.testbit (u64 (- 2 ^ k)) i = (k <=? i).
Proof using Hk.
  intros Hi. unfold uwrap. rewrite Z.mod_pow2_bits_low by lia.
  rewrite <-(Z.mul_1_r (2 ^ k)), <-Z.mul_opp_r, Z.mul_comm, Z.mul_pow2_bits by lia.
  destruct (Z.leb_spec k i); [by apply Z.bits_m1; lia|]. by apply Z.testbit_neg_r; lia.
Qed.

Lemma land_align_mask v : in_u 64 v → Z.land v (u64 (- 2 ^ k)) = 2 ^ k * (v / 2 ^ k).
Proof using Hk.
  intros Hv. apply Z.bits_inj'. intros i Hi. rewrite Z.land_spec.
  rewrite (Z.mul_comm (2 ^ k)), Z.mul_pow2_bits by lia.
  destruct (decide (i < 64)).
  - rewrite mask_bits by lia. destruct (Z.leb_spec k i).
    + rewrite andb_true_r, Z.div_pow2_bits by lia. f_equal. lia.
    + rewrite andb_false_r. symmetry. apply Z.testbit_neg_r. lia.
  - unfold uwrap at 1. rewrite Z.mod_pow2_bits_high, andb_false_r by lia.
    rewrite Z.div_pow2_bits by lia. replace (i - k + k) with i by lia.
    symmetry. destruct Hv. rewrite <-(Z.mod_small v (2 ^ 64)) by lia.
    apply Z.mod_pow2_bits_high. lia.
Qed.

Lemma lnot_align_mask : u64 (Z.lnot (u64 (2 ^ k - 1))) = u64 (- 2 ^ k).
Proof using Hk.
  assert (2 ^ k ≤ 2 ^ 63) by (apply Z.pow_le_mono_r; lia).
  assert (0 < 2 ^ k) by (apply Z.pow_pos_nonneg; lia).
  rewrite (uwrap_id 64 (2 ^ k - 1)) by (unfold in_u; lia).
  f_equal. unfold Z.lnot. lia.
Qed.

Lemma ALIGNDOWN_spec v : in_u 64 v → ALIGNDOWN v (2 ^ k) = 2 ^ k * (v / 2 ^ k).
Proof using Hk. intros. unfold ALIGNDOWN. rewrite lnot_align_mask. by apply land_align_mask. Qed.

Lemma ALIGNUP_spec v :
  0 ≤ v → v + 2 ^ k - 1 < 2 ^ 64 → ALIGNUP v (2 ^ k) = 2 ^ k * ((v + 2 ^ k - 1) / 2 ^ k).
Proof using Hk.
  intros Hv0 Hv. unfold ALIGNUP. assert (0 < 2 ^ k) by (apply Z.pow_pos_nonneg; lia).
  rewrite (uwrap_id 64 (2 ^ k - 1)) by (unfold in_u; lia).
  rewrite (uwrap_id 64 (v + (2 ^ k - 1))) by (unfold in_u; lia).
  rewrite land_align_mask by (unfold in_u; lia). do 2 f_equal. lia.
Qed.

Lemma ISALIGN_POW2_spec v : 0 ≤ v → ISALIGN_POW2 v (2 ^ k) = (v mod 2 ^ k =? 0).
Proof using Hk.
  intros Hv. unfold ISALIGN_POW2. assert (0 < 2 ^ k) by (apply Z.pow_pos_nonneg; lia).
  assert (2 ^ k ≤ 2 ^ 63) by (apply Z.pow_le_mono_r; lia).
  rewrite (uwrap_id 64 (2 ^ k - 1)) by (unfold in_u; lia).
  replace (2 ^ k - 1) with (Z.ones k) by (rewrite Z.ones_equiv; lia).
  by rewrite Z.land_ones by lia.
Qed.
End align.

(** ** Conversions *)

Lemma phys_to_virt_ok p :
  0 < p < 2 ^ 47 → phys_to_virt p = p + KERNEL_LOGICAL_BASE.
Proof.
  intros Hp. unfold phys_to_virt. destruct (Z.eqb_spec p 0); [lia|].
  apply uwrap_id. unfold in_u, KERNEL_LOGICAL_BASE in *. lia.
Qed.

Lemma virt_to_phys_ok p :
  0 < p < 2 ^ 47 → virt_to_phys (p + KERNEL_LOGICAL_BASE) = p.
Proof.
  intros Hp. unfold virt_to_phys, KERNEL_LOGICAL_BASE in *.
  destruct (Z.eqb_spec (p + 0xFFFF800000000000) 0); [lia|].
  replace (p + 0xFFFF800000000000 - 0xFFFF800000000000) with p by lia.
  apply uwrap_id. unfold in_u. lia.
Qed.

(** The frame number of a [struct page]. *)
Definition pfn_page (pfn : Z) : Z := page_data + SIZEOF_PAGE * pfn.

(** Frames whose [struct page] lies in the array's 2 GiB window. *)
Definition pfn_ok (pfn : Z) : Prop := 0 ≤ pfn < 0x30CCCCC.

Lemma page_to_phys_pfn pfn : pfn_ok pfn → page_to_phys (pfn_page pfn) = pfn * PAGE_SIZE.
Proof.
  unfold pfn_ok. intros Hp. unfold page_to_phys, pfn_page, page_data, KERNEL_PAGE_DATA,
    KERNEL_TEXT_BASE, KERNEL_PHYS_MAP_END, SIZEOF_PAGE, PAGE_SIZE.
  destruct (Z.eqb_spec (0xFFFFFFFF80000000 + 0x1000000 + 40 * pfn) 0); [lia|].
  replace (0xFFFFFFFF80000000 + 0x1000000 + 40 * pfn - (0xFFFFFFFF80000000 + 0x1000000))
    with (40 * pfn) by lia.
  unfold swrap. rewrite Z.mod_small by lia. change (2 ^ (64 - 1)) with 0x8000000000000000.
  destruct (Z.ltb_spec (40 * pfn) 0x8000000000000000); [|lia].
  rewrite (Z.mul_comm 40), Z.quot_mul by lia. rewrite (uwrap_id 64 pfn), uwrap_id by (unfold in_u; lia). done.
Qed.

Lemma phys_to_page_pfn pfn off :
  pfn_ok pfn → 0 < pfn → 0 ≤ off < PAGE_SIZE → phys_to_page (pfn * PAGE_SIZE + off) = pfn_page pfn.
Proof.
  unfold pfn_ok. intros Hp Hpos Hoff. unfold phys_to_page, pfn_page, PAGE_SIZE in *.
  destruct (Z.eqb_spec (pfn * 0x1000 + off) 0); [lia|].
  rewrite Z.div_add_l, (Z.div_small off) by lia. rewrite Z.add_0_r. apply uwrap_id.
  unfold in_u, page_data, KERNEL_PAGE_DATA, KERNEL_TEXT_BASE, KERNEL_PHYS_MAP_END, SIZEOF_PAGE. lia.
Qed.

(** The address conversions are mutually inverse on the memory the kernel
    maps: page to physical to page, physical to logical and back, and page to
    logical address and back. *)
Theorem addr_round_trips (pfn off : Z) :
  pfn_ok pfn → 0 < pfn → 0 ≤ off < PAGE_SIZE →
  phys_to_page (page_to_phys (pfn_page pfn) + off) = pfn_page pfn ∧
  virt_to_phys (phys_to_virt (pfn * PAGE_SIZE + off)) = pfn * PAGE_SIZE + off ∧
  virt_to_page (page_to_virt (pfn_page pfn)) = pfn_page pfn ∧
  (pfn * PAGE_SIZE + off < 2 ^ 31 →
   kern_to_phys (phys_to_kern (pfn * PAGE_SIZE + off)) = pfn * PAGE_SIZE + off).
Proof.
  intros Hp Hpos Hoff.
  assert (0 < pfn * PAGE_SIZE + off < 2 ^ 47 ∧ 0 < pfn * PAGE_SIZE < 2 ^ 47) as [Hr Hr']
    by (unfold pfn_ok, PAGE_SIZE in *; lia).
  split_and!.
  - rewrite page_to_phys_pfn by done. by apply phys_to_page_pfn.
  - rewrite phys_to_virt_ok, virt_to_phys_ok by lia. done.
  - unfold virt_to_page, page_to_virt. rewrite page_to_phys_pfn by done.
    rewrite phys_to_virt_ok, virt_to_phys_ok by lia.
    rewrite <-(Z.add_0_r (pfn * PAGE_SIZE)). apply phys_to_page_pfn; unfold PAGE_SIZE; done || lia.
  - intros Hk. unfold kern_to_phys, phys_to_kern, KERNEL_TEXT_BASE.
    revert Hr Hk. generalize (pfn * PAGE_SIZE + off) as p. intros p Hp' Hk.
    destruct (Z.eqb_spec p 0); [lia|]. rewrite (uwrap_id 64 (p + _)) by (unfold in_u; lia).
    destruct (Z.eqb_spec (p + 0xFFFFFFFF80000000) 0); [lia|].
    rewrite uwrap_id; unfold in_u; lia.
Qed.

Lemma addr_round_trips_witness : virt_to_page (page_to_virt (pfn_page 7)) = pfn_page 7.
Proof. apply (addr_round_trips 7 0); unfold pfn_ok, PAGE_SIZE; lia. Defined.

(** [ALIGNUP] and [ALIGNDOWN] on a power of two give the nearest multiple
    above and below, [ISALIGN_POW2] recognises multiples; none of them wraps
    as long as rounding up stays below 2^64. *)
Theorem align_spec (k v : Z) :
  0 ≤ k < 64 → 0 ≤ v → v + 2 ^ k - 1 < 2 ^ 64 →
  (ALIGNUP v (2 ^ k)) mod 2 ^ k = 0 ∧ v ≤ ALIGNUP v (2 ^ k) < v + 2 ^ k ∧
  (ALIGNDOWN v (2 ^ k)) mod 2 ^ k = 0 ∧ v - 2 ^ k < ALIGNDOWN v (2 ^ k) ≤ v ∧
  ISALIGN_POW2 (ALIGNUP v (2 ^ k)) (2 ^ k) = true ∧
  (ISALIGN_POW2 v (2 ^ k) = true → ALIGNUP v (2 ^ k) = v ∧ ALIGNDOWN v (2 ^ k) = v).
Proof.
  intros Hk Hv Hm. assert (0 < 2 ^ k) by (apply Z.pow_pos_nonneg; lia).
  assert (in_u 64 v) by (unfold in_u; lia).
  rewrite ALIGNUP_spec, ALIGNDOWN_spec by done.
  pose proof (Z.div_mod (v + 2 ^ k - 1) (2 ^ k) ltac:(lia)) as E.
  pose proof (Z.mod_pos_bound (v + 2 ^ k - 1) (2 ^ k) ltac:(lia)).
  pose proof (Z.div_mod v (2 ^ k) ltac:(lia)) as E'.
  pose proof (Z.mod_pos_bound v (2 ^ k) ltac:(lia)).
  rewrite ISALIGN_POW2_spec by (done || lia).
  rewrite !(Z.mul_comm (2 ^ k)), !Z.mod_mul by lia. split_and!; try done; try lia.
  rewrite ISALIGN_POW2_spec, Z.eqb_eq by (done || lia). intros Hz. split; [|lia].
  rewrite Hz in E'. replace (v + 2 ^ k - 1) with ((v / 2 ^ k) * 2 ^ k + (2 ^ k - 1)) by lia.
  rewrite Z.div_add_l, (Z.div_small (2 ^ k - 1)) by lia. lia.
Qed.

Lemma align_spec_witness : ALIGNUP 4097 (2 ^ 12) mod 2 ^ 12 = 0.
Proof. apply (align_spec 12 4097); lia. Defined.
