(* ===== verification/Acpi.v ===== *)
(** * ACPI tables

    kernel/drivers/acpi/acpi.c and the table formats of
    include/drivers/acpi.h.  Firmware memory is bytes, and only the pages that
    have been mapped can be read: [reads] runs a reader of byte memory on the
    mapped part.  [vmm_map_page] makes the page of an address readable, as
    Vmm.v shows it to do; the messages to the console are left out. *)

From stdpp Require Import base list gmap fin_maps.
From Stdlib Require Import ZArith Lia Bool.
From S2P Require Import Prelude Addr Strings.
Local Open Scope Z_scope.

(** ** Little-endian numbers in memory *)

Definition ld16 (a : Z) : B Z := x ← ld a; y ← ld (a + 1); mret (x + 256 * y).
Definition ld32 (a : Z) : B Z := x ← ld16 a; y ← ld16 (a + 2); mret (x + 65536 * y).
Definition ld64 (a : Z) : B Z := x ← ld32 a; y ← ld32 (a + 4); mret (x + 4294967296 * y).

(** The value of a list of bytes. *)
Fixpoint le (l : list Z) : Z := match l with [] => 0 | x :: l => x + 256 * le l end.

(** ** Mapped memory *)

Record acpi := mk_acpi { amem : bmem; apages : gset Z }.

Definition page_of (a : Z) : Z := ALIGNDOWN a PAGE_SIZE.

(** The memory the processor can read. *)
Definition view (s : acpi) : bmem := filter (λ x, page_of x.1 ∈ apages s) (amem s).

Definition reads {A} (m : B A) : M acpi A := λ s,
  match m (view s) with
  | Ok (x, _) => Ok (x, s)
  | Panic => Panic
  | Fault => Fault
  | Diverge => Diverge
  end.

(** [vmm_map_page(&kernel_mmu, virt_to_phys(v), v, ...)] *)
Definition map_page (v : Z) : M acpi unit := modify (λ s, mk_acpi (amem s) ({[page_of v]} ∪ apages s)).

(** ** The code *)

Definition RSDP_SEARCH_START : Z := 0xE0000.
Definition RSDP_SEARCH_END : Z := 0xFFFFF.
Definition SIZEOF_RSDP : Z := 36.
Definition SIZEOF_HEADER : Z := 36.

(** Offsets in [struct rsdp] and [struct acpi_header]. *)
Definition rsdp_revision (p : Z) : B Z := ld (p + 15).
Definition rsdp_rsdt (p : Z) : B Z := ld32 (p + 16).
Definition rsdp_xsdt (p : Z) : B Z := ld64 (p + 24).
Definition hd_length (p : Z) : B Z := ld32 (p + 4).

Fixpoint sum_from (rounds : nat) (p sum : Z) : B Z :=
  match rounds with
  | O => mret sum
  | S rounds => x ← ld p; sum_from rounds (p + 1) (u8 (sum + x))
  end.

Definition calc_checksum (p len : Z) : B Z := sum_from (Z.to_nat len) p 0.

Section Code.
(** The address of the string "RSD PTR ". *)
Variable rsd_ptr : Z.

Definition rsdp_round (phys : Z) : B (Z + Z) :=
  if phys <? RSDP_SEARCH_END then
    let virt := phys_to_virt phys in
    c ← memcmp rsd_ptr virt 8;
    if c =? 0 then
      rev ← rsdp_revision virt;
      if rev =? 0 then
        sum ← calc_checksum virt (SIZEOF_RSDP - 16);
        mret (if negb (sum =? 0) then inl (phys + 16) else inr virt)
      else if rev =? 2 then
        sum ← calc_checksum virt SIZEOF_RSDP;
        mret (if negb (sum =? 0) then inl (phys + 16) else inr virt)
      else mret (inl (phys + 16))
    else mret (inl (phys + 16))
  else mret (inr NULL).

(** The range has 8192 places. *)
Definition find_rsdp : B Z := loop (Z.to_nat 8193) rsdp_round RSDP_SEARCH_START.

Fixpoint map_rest (rounds : nat) (hd i len : Z) : M acpi unit :=
  match rounds with
  | O => diverge
  | S rounds =>
      if i <? len then map_page (u64 (hd + i));; map_rest rounds hd (u64 (i + PAGE_SIZE)) len
      else mret tt
  end.

(** A length is below 2^32, so 2^20 further pages are enough. *)
Definition map_table (hd : Z) : M acpi unit :=
  map_page hd;;
  map_page (u64 (hd + SIZEOF_HEADER));;
  len ← reads (hd_length hd);
  map_rest (S (Z.to_nat (len / PAGE_SIZE + 1))) hd (SIZEOF_HEADER + PAGE_SIZE) len.

Definition table_checksum (hd : Z) : B bool :=
  len ← hd_length hd; sum ← calc_checksum hd len; mret (sum =? 0).

(** The root table of either version: [w] is the size of an entry. *)
Definition root_entries (w root : Z) : B Z :=
  len ← hd_length root; mret (u64 (len - SIZEOF_HEADER) / w).

Definition root_entry (w root i : Z) : B Z :=
  p ← (if w =? 4 then ld32 (root + SIZEOF_HEADER + w * i) else ld64 (root + SIZEOF_HEADER + w * i));
  mret (phys_to_virt p).

Fixpoint dump_entries (rounds : nat) (w root i : Z) : M acpi unit :=
  match rounds with
  | O => mret tt
  | S rounds =>
      hd ← reads (root_entry w root i);
      map_table hd;;
      dump_entries rounds w root (i + 1)
  end.

Definition dump_root (w root : Z) : M acpi unit :=
  map_table root;;
  ok ← reads (table_checksum root);
  if negb ok then panic
  else n ← reads (root_entries w root); dump_entries (Z.to_nat n) w root 0.

Definition acpi_dump_tables (acpi_rsdp : Z) : M acpi unit :=
  rev ← reads (rsdp_revision acpi_rsdp);
  if rev =? 0 then r ← reads (rsdp_rsdt acpi_rsdp); dump_root 4 (phys_to_virt r)
  else if rev =? 2 then r ← reads (rsdp_xsdt acpi_rsdp); dump_root 8 (phys_to_virt r)
  else mret tt.

Fixpoint find_entries (rounds : nat) (w root i signature : Z) : B Z :=
  match rounds with
  | O => mret NULL
  | S rounds =>
      hd ← root_entry w root i;
      c ← memcmp hd signature 4;
      ok ← (if c =? 0 then table_checksum hd else mret false);
      if ok : bool then mret hd else find_entries rounds w root (i + 1) signature
  end.

Definition find_root (w root signature : Z) : B Z :=
  n ← root_entries w root; find_entries (Z.to_nat n) w root 0 signature.

Definition acpi_find_table (acpi_rsdp signature : Z) : B Z :=
  rev ← rsdp_revision acpi_rsdp;
  if rev =? 0 then r ← rsdp_rsdt acpi_rsdp; find_root 4 (phys_to_virt r) signature
  else if rev =? 2 then r ← rsdp_xsdt acpi_rsdp; find_root 8 (phys_to_virt r) signature
  else mret NULL.

Definition acpi_init : M acpi Z :=
  acpi_rsdp ← reads find_rsdp;
  if acpi_rsdp =? NULL then panic
  else acpi_dump_tables acpi_rsdp;; mret acpi_rsdp.
End Code.
