(* ===== verification/AcpiSpec.v ===== *)
(** * ACPI tables: specification

    Checksums, the search for the root pointer, the search for a table in the
    root table of either version, and the pages [map_table] makes readable. *)

From stdpp Require Import base list gmap fin_maps.
From Stdlib Require Import ZArith Lia Bool.
From S2P Require Import Prelude Addr Strings Acpi.
Local Open Scope Z_scope.

(** ** Readers of memory *)

Definition total (l : list Z) : Z := foldr Z.add 0 l.

Lemma wp_sum_from m l p sum (Q : Z → bmem → Prop) :
  bytes m p l → Q ((sum + total l) mod 256) m → wp (sum_from (length l) p (u8 sum)) m Q.
Proof.
  revert p sum. induction l as [|x l IH]; intros p sum Hb HQ; simpl in *.
  - apply wp_ret. by rewrite Z.add_0_r in HQ.
  - apply bytes_cons in Hb as [Hx Hb]. apply wp_bind, (wp_ld _ x); [done|].
    replace (u8 (u8 sum + x)) with (u8 (sum + x)) by (unfold uwrap; by rewrite Zplus_mod_idemp_l).
    apply IH; [done|]. by rewrite <-Z.add_assoc.
Qed.

Lemma wp_checksum m l p len (Q : Z → bmem → Prop) :
  bytes m p l → len = Z.of_nat (length l) → Q (total l mod 256) m → wp (calc_checksum p len) m Q.
Proof. intros Hb -> HQ. unfold calc_checksum. rewrite Nat2Z.id. by apply (wp_sum_from m l p 0). Qed.

Lemma bytes_app m a l1 l2 :
  bytes m a (l1 ++ l2) ↔ bytes m a l1 ∧ bytes m (a + Z.of_nat (length l1)) l2.
Proof.
  revert a. induction l1 as [|x l1 IH]; intros a.
  - simpl app. simpl length. rewrite Z.add_0_r. split; [intros ?; split; [apply bytes_nil|done]|by intros []].
  - simpl app. rewrite !bytes_cons, IH. replace (a + Z.of_nat (length (x :: l1))) with (a + 1 + Z.of_nat (length l1)) by (simpl length; lia).
    tauto.
Qed.

Lemma le_app l1 l2 : le (l1 ++ l2) = le l1 + 256 ^ Z.of_nat (length l1) * le l2.
Proof.
  induction l1 as [|x l1 IH]; [simpl; lia|]. simpl app. simpl le. rewrite IH. simpl length.
  rewrite Nat2Z.inj_succ, Z.pow_succ_r by lia. lia.
Qed.

Lemma wp_ld16 m a x y (Q : Z → bmem → Prop) : bytes m a [x; y] → Q (le [x; y]) m → wp (ld16 a) m Q.
Proof.
  rewrite !bytes_cons. intros (Hx & Hy & _) HQ. unfold ld16. apply wp_bind, (wp_ld _ x); [done|].
  apply wp_bind, (wp_ld _ y); [done|]. apply wp_ret. simpl in HQ. by rewrite Z.mul_0_r, Z.add_0_r in HQ.
Qed.

Lemma wp_ld32 m a l (Q : Z → bmem → Prop) : bytes m a l → length l = 4%nat → Q (le l) m → wp (ld32 a) m Q.
Proof.
  intros Hb Hl HQ. destruct l as [|x [|y [|z [|w [|]]]]]; try done.
  apply (bytes_app m a [x; y] [z; w]) in Hb as [H1 H2]. unfold ld32. apply wp_bind, (wp_ld16 m a x y); [done|].
  apply wp_bind, (wp_ld16 m (a + 2) z w); [done|]. apply wp_ret.
  change [x; y; z; w] with ([x; y] ++ [z; w]) in HQ. rewrite le_app in HQ. exact HQ.
Qed.

Lemma wp_ld64 m a l (Q : Z → bmem → Prop) : bytes m a l → length l = 8%nat → Q (le l) m → wp (ld64 a) m Q.
Proof.
  intros Hb Hl HQ. rewrite <-(take_drop 4 l) in Hb, HQ. apply bytes_app in Hb as [H1 H2].
  assert (length (take 4 l) = 4%nat) as L1 by (rewrite length_take; lia). rewrite L1 in H2.
  unfold ld64. apply wp_bind, (wp_ld32 m a (take 4 l)); [done..|].
  apply wp_bind, (wp_ld32 m (a + 4) (drop 4 l)); [done|rewrite length_drop; lia|]. apply wp_ret.
  rewrite le_app, L1 in HQ. exact HQ.
Qed.

Lemma wp_reads {A} (m : B A) s (Q : A → acpi → Prop) : wp m (view s) (λ x _, Q x s) → wp (reads m) s Q.
Proof. unfold wp, reads. by destruct (m (view s)) as [[x ?]| | |]. Qed.

(** ** The root pointer *)

Definition rsd_signature : list Z := [82; 83; 68; 32; 80; 84; 82; 32].

(** [n] bytes from [a] of a memory given as a function. *)
Definition slice (f : Z → Z) (a n : Z) : list Z := f <$> seqZ a n.

(** The signature is there and the checksum of its version is right. *)
Definition rsdp_ok (f : Z → Z) (a : Z) : Prop :=
  slice f a 8 = rsd_signature ∧
  (f (a + 15) = 0 ∧ total (slice f a 20) mod 256 = 0 ∨ f (a + 15) = 2 ∧ total (slice f a 36) mod 256 = 0).

#[global] Instance rsdp_ok_dec f a : Decision (rsdp_ok f a).
Proof. apply _. Defined.

Lemma length_slice f a n : length (slice f a n) = Z.to_nat n.
Proof. unfold slice. by rewrite length_fmap, length_seqZ. Qed.

Lemma bytes_slice m f a n :
  (∀ x, a ≤ x < a + n → m !! x = Some (f x)) → bytes m a (slice f a n).
Proof.
  intros Hm i x. unfold slice. rewrite list_lookup_fmap, fmap_Some. intros (y & Hy & ->).
  apply lookup_seqZ in Hy as [-> Hi]. apply Hm. lia.
Qed.

Definition place (k : Z) : Z := KERNEL_LOGICAL_BASE + RSDP_SEARCH_START + 16 * k.

Lemma phys_place k : 0 ≤ k ≤ 8192 → phys_to_virt (RSDP_SEARCH_START + 16 * k) = place k.
Proof.
  intros Hk. unfold phys_to_virt, place, RSDP_SEARCH_START, KERNEL_LOGICAL_BASE.
  destruct (Z.eqb_spec (917504 + 16 * k) 0); [lia|]. rewrite uwrap_id; [lia|]. unfold in_u. lia.
Qed.

Section Rsdp.
Variables (rsd_ptr : Z) (m : bmem) (f : Z → Z).
Hypothesis Hsig : bytes m rsd_ptr rsd_signature.
Hypothesis Hmem : ∀ x, place 0 ≤ x < place 8192 + 36 → m !! x = Some (f x).

Lemma wp_rsdp_round k (Q : Z + Z → bmem → Prop) :
  0 ≤ k < 8192 →
  Q (if decide (rsdp_ok f (place k)) then inr (place k) else inl (RSDP_SEARCH_START + 16 * (k + 1))) m →
  wp (rsdp_round rsd_ptr (RSDP_SEARCH_START + 16 * k)) m Q.
Proof.
  intros Hk HQ. unfold rsdp_round. rewrite phys_place by lia.
  destruct (Z.ltb_spec (RSDP_SEARCH_START + 16 * k) RSDP_SEARCH_END) as [_|Hge]; [|unfold RSDP_SEARCH_START, RSDP_SEARCH_END in Hge; lia].
  assert (∀ n, n ≤ 36 → bytes m (place k) (slice f (place k) n)) as Hb.
  { intros n Hn. apply bytes_slice. intros x Hx. apply Hmem. unfold place in *. lia. }
  replace (RSDP_SEARCH_START + 16 * k + 16) with (RSDP_SEARCH_START + 16 * (k + 1)) by lia.
  apply wp_bind, (wp_memcmp m rsd_ptr (place k) rsd_signature (slice f (place k) 8)); [done|by apply Hb|by rewrite length_slice|].
  assert (length rsd_signature = length (slice f (place k) 8)) as Hlen by (by rewrite length_slice).
  destruct (Z.eqb_spec (lex rsd_signature (slice f (place k) 8)) 0) as [E|E].
  2: { apply wp_ret. rewrite decide_False in HQ; [done|]. intros [E' _]. apply E. apply lex_eq; [by rewrite E'|done]. }
  apply lex_eq in E; [|done].
  apply wp_bind. unfold rsdp_revision. apply (wp_ld _ (f (place k + 15))); [apply Hmem; unfold place; lia|].
  unfold rsdp_ok in HQ. destruct (Z.eqb_spec (f (place k + 15)) 0) as [H0|H0].
  - apply wp_bind, (wp_checksum m (slice f (place k) 20)); [by apply Hb|by rewrite length_slice|]. apply wp_ret.
    destruct (Z.eqb_spec (total (slice f (place k) 20) mod 256) 0) as [Hs|Hs]; [rewrite decide_True in HQ|rewrite decide_False in HQ]; auto.
    intros [_ [[_ ?]|[? _]]]; [done|congruence].
  - destruct (Z.eqb_spec (f (place k + 15)) 2) as [H2|H2].
    + apply wp_bind, (wp_checksum m (slice f (place k) 36)); [by apply Hb|by rewrite length_slice|]. apply wp_ret.
      destruct (Z.eqb_spec (total (slice f (place k) 36) mod 256) 0) as [Hs|Hs]; [rewrite decide_True in HQ|rewrite decide_False in HQ]; auto.
      intros [_ [[? _]|[_ ?]]]; [congruence|done].
    + apply wp_ret. rewrite decide_False in HQ; [done|]. by intros [_ [[? _]|[? _]]].
Qed.

(** Find_rsdp returns the first place of the BIOS area, in steps of sixteen
    bytes, that has the signature of the root pointer and the right checksum
    for its version, or NULL when there is none. *)
Theorem find_rsdp_correct :
  wp (find_rsdp rsd_ptr) m (λ r m', m' = m ∧
    (r = NULL ∧ (∀ k, 0 ≤ k < 8192 → ¬ rsdp_ok f (place k)) ∨
     ∃ k, 0 ≤ k < 8192 ∧ r = place k ∧ rsdp_ok f (place k) ∧ ∀ j, 0 ≤ j < k → ¬ rsdp_ok f (place j))).
Proof.
  unfold find_rsdp.
  apply (wp_loop (λ n phys m', m' = m ∧ ∃ k, 0 ≤ k ≤ 8192 ∧ n = Z.to_nat (8192 - k) ∧ phys = RSDP_SEARCH_START + 16 * k ∧
    ∀ j, 0 ≤ j < k → ¬ rsdp_ok f (place j))) with (n := Z.to_nat 8192).
  - intros n phys ? (-> & k & Hk & -> & -> & Hno). destruct (decide (k = 8192)) as [->|Hne].
    + unfold rsdp_round. destruct (Z.ltb_spec (RSDP_SEARCH_START + 16 * 8192) RSDP_SEARCH_END) as [Hlt|_].
      * unfold RSDP_SEARCH_START, RSDP_SEARCH_END in Hlt. lia.
      * apply wp_ret. split; [done|]. left. done.
    + apply wp_rsdp_round; [lia|]. destruct (decide (rsdp_ok f (place k))) as [Hy|Hn].
      * split; [done|]. right. exists k. split_and!; [lia|lia|done|done|done].
      * exists (Z.to_nat (8192 - (k + 1))). split; [lia|]. split; [done|]. exists (k + 1). split_and!; [lia|lia|done|done|].
        intros j Hj. destruct (decide (j = k)) as [->|]; [done|]. apply Hno. lia.
  - split; [done|]. exists 0. split_and!; [lia|lia|done|done|]. lia.
  - lia.
Qed.
End Rsdp.

(** ** Finding a table *)

(** A table: where it is and its bytes, whose length its header has. *)
Abbreviation table := (Z * list Z)%type.

Definition table_ok (m : bmem) (t : table) : Prop :=
  bytes m t.1 t.2 ∧ SIZEOF_HEADER ≤ Z.of_nat (length t.2) ∧ le (take 4 (drop 4 t.2)) = Z.of_nat (length t.2).

(** The signature is right and the bytes add up to zero. *)
Definition matches (sig : list Z) (t : table) : Prop := take 4 t.2 = sig ∧ total t.2 mod 256 = 0.

#[global] Instance matches_dec sig t : Decision (matches sig t).
Proof. apply _. Defined.

Fixpoint first_match (sig : list Z) (ts : list table) : Z :=
  match ts with
  | [] => NULL
  | t :: ts => if decide (matches sig t) then t.1 else first_match sig ts
  end.

(** The root table at [root] with entries of [w] bytes lists the tables [ts]. *)
Record root_ok (m : bmem) (w root : Z) (ts : list table) : Prop := {
  ro_width : w = 4 ∨ w = 8;
  ro_length : ∃ l, bytes m (root + 4) l ∧ length l = 4%nat ∧ le l = SIZEOF_HEADER + w * Z.of_nat (length ts);
  ro_range : SIZEOF_HEADER + w * Z.of_nat (length ts) < 2 ^ 32;
  ro_entries : ∀ i t, ts !! i = Some t → ∃ e,
    bytes m (root + SIZEOF_HEADER + w * Z.of_nat i) e ∧ Z.of_nat (length e) = w ∧ phys_to_virt (le e) = t.1
}.

Lemma bytes_sub m a l i n :
  bytes m a l → (i + n ≤ length l)%nat → bytes m (a + Z.of_nat i) (take n (drop i l)).
Proof.
  intros Hb Hl. rewrite <-(take_drop i l), <-(take_drop n (drop i l)) in Hb.
  apply bytes_app in Hb as [_ [Hb _]%bytes_app]. by rewrite length_take_le in Hb by lia.
Qed.

Lemma wp_hd_length m t (Q : Z → bmem → Prop) :
  table_ok m t → Q (Z.of_nat (length t.2)) m → wp (hd_length t.1) m Q.
Proof.
  intros (Hb & Hl & Hle) HQ. unfold hd_length, SIZEOF_HEADER in *.
  apply (wp_ld32 m _ (take 4 (drop 4 t.2))).
  - apply (bytes_sub m t.1 t.2 4 4); [done|lia].
  - rewrite length_take, length_drop. lia.
  - by rewrite Hle.
Qed.

Lemma wp_table_checksum m t (Q : bool → bmem → Prop) :
  table_ok m t → Q (total t.2 mod 256 =? 0) m → wp (table_checksum t.1) m Q.
Proof.
  intros Ht HQ. unfold table_checksum. apply wp_bind, (wp_hd_length m t); [done|].
  apply wp_bind, (wp_checksum m t.2); [apply Ht|done|]. by apply wp_ret.
Qed.

Lemma wp_root_entry m w root ts i t (Q : Z → bmem → Prop) :
  root_ok m w root ts → ts !! i = Some t → Q t.1 m → wp (root_entry w root (Z.of_nat i)) m Q.
Proof.
  intros [Hw _ _ He] Hi HQ. destruct (He i t Hi) as (e & Hb & Hl & Hp). unfold root_entry.
  apply wp_bind. destruct Hw as [->| ->]; simpl.
  - apply (wp_ld32 m _ e); [done|lia|]. apply wp_ret. by rewrite Hp.
  - apply (wp_ld64 m _ e); [done|lia|]. apply wp_ret. by rewrite Hp.
Qed.

Lemma wp_find_entries m w root ts sigp sig done rest (Q : Z → bmem → Prop) :
  root_ok m w root ts → Forall (table_ok m) ts → bytes m sigp sig → length sig = 4%nat →
  ts = done ++ rest → Q (first_match sig rest) m →
  wp (find_entries (length rest) w root (Z.of_nat (length done)) sigp) m Q.
Proof.
  intros Hr Hts Hs Hsl. revert done. induction rest as [|t rest IH]; intros done E HQ; simpl; [by apply wp_ret|].
  assert (ts !! length done = Some t) as Ht by (rewrite E; by apply list_lookup_middle).
  pose proof (Forall_lookup_1 _ _ _ _ Hts Ht) as Htok. pose proof Htok as (Hb & Hl & _). unfold SIZEOF_HEADER in Hl.
  apply wp_bind, (wp_root_entry m w root ts (length done) t); [done..|].
  assert (length (take 4 t.2) = 4%nat) as L4 by (rewrite length_take; lia).
  apply wp_bind. rewrite <-(Z2Nat.id 4) by lia. change (Z.to_nat 4) with 4%nat. rewrite <-L4 at 1.
  apply (wp_memcmp m t.1 sigp (take 4 t.2) sig); [|done|lia|].
  { rewrite <-(Z.add_0_r t.1). apply (bytes_sub m t.1 t.2 0 4); [done|lia]. }
  change (first_match sig (t :: rest)) with (if decide (matches sig t) then t.1 else first_match sig rest) in HQ.
  assert (∀ b : bool, (b = true ↔ matches sig t) →
    wp (if b then mret t.1 else find_entries (length rest) w root (Z.of_nat (length done) + 1) sigp) m Q) as Hend.
  { intros b Hbm. destruct b.
    - rewrite decide_True in HQ by (by apply Hbm). by apply wp_ret.
    - rewrite decide_False in HQ by (intros ?%Hbm; done).
      replace (Z.of_nat (length done) + 1) with (Z.of_nat (length (done ++ [t]))) by (rewrite length_app; simpl; lia).
      apply IH; [by rewrite <-(assoc_L (++))|done]. }
  destruct (Z.eqb_spec (lex (take 4 t.2) sig) 0) as [E0|E0].
  - apply wp_bind, wp_table_checksum; [done|]. apply Hend. rewrite Z.eqb_eq. unfold matches.
    apply lex_eq in E0; [|lia]. tauto.
  - apply wp_bind, wp_ret. apply (Hend false). split; [done|]. intros [E1 _]. destruct E0. apply lex_eq; [lia|done].
Qed.

Lemma wp_find_root m w root ts sigp sig (Q : Z → bmem → Prop) :
  root_ok m w root ts → Forall (table_ok m) ts → bytes m sigp sig → length sig = 4%nat →
  Q (first_match sig ts) m → wp (find_root w root sigp) m Q.
Proof.
  intros Hr Hts Hs Hsl HQ. unfold find_root, root_entries. pose proof Hr as [Hw (l & Hb & Hl & Hle) Hrange _].
  apply wp_bind, wp_bind. unfold hd_length. apply (wp_ld32 m _ l); [done..|]. apply wp_ret. rewrite Hle.
  rewrite uwrap_id by (unfold in_u, SIZEOF_HEADER in *; lia).
  replace (SIZEOF_HEADER + w * Z.of_nat (length ts) - SIZEOF_HEADER) with (Z.of_nat (length ts) * w) by lia.
  rewrite Z.div_mul by lia. rewrite Nat2Z.id. change 0 with (Z.of_nat (length (@nil table))).
  by apply (wp_find_entries m w root ts sigp sig [] ts).
Qed.

(** Acpi_find_table returns the first table the root table lists, of 32-bit
    entries in version 1 and of 64-bit entries in version 2, that has the
    signature and whose bytes add up to zero; NULL when there is none. *)
Theorem acpi_find_table_correct m p rev r w root ts sigp sig :
  m !! (p + 15) = Some rev →
  (rev = 0 ∧ w = 4 ∧ bytes m (p + 16) r ∧ length r = 4%nat ∨ rev = 2 ∧ w = 8 ∧ bytes m (p + 24) r ∧ length r = 8%nat) →
  phys_to_virt (le r) = root → root_ok m w root ts → Forall (table_ok m) ts →
  bytes m sigp sig → length sig = 4%nat →
  wp (acpi_find_table p sigp) m (λ t m', m' = m ∧ t = first_match sig ts).
Proof.
  intros Hrev Hv <- Hr Hts Hs Hsl. unfold acpi_find_table, rsdp_revision. apply wp_bind, (wp_ld _ rev); [done|].
  destruct Hv as [(-> & -> & Hb & Hl)|(-> & -> & Hb & Hl)]; simpl.
  - apply wp_bind. unfold rsdp_rsdt. apply (wp_ld32 m _ r); [done..|]. by eapply wp_find_root.
  - apply wp_bind. unfold rsdp_xsdt. apply (wp_ld64 m _ r); [done..|]. by eapply wp_find_root.
Qed.

(** ** Mapping a table *)

(** The offsets whose pages [map_table] maps. *)
Definition mapped_offset (len i : Z) : Prop :=
  i = 0 ∨ ∃ k, 0 ≤ k ∧ i = SIZEOF_HEADER + k * PAGE_SIZE ∧ (k = 0 ∨ i < len).

Lemma wp_map_rest rounds hd i len s (Q : unit → acpi → Prop) :
  0 ≤ i → 0 ≤ hd → hd + len + PAGE_SIZE < 2 ^ 64 → len - i ≤ (Z.of_nat rounds - 1) * PAGE_SIZE → (0 < rounds)%nat → len < 2 ^ 32 → i < 2 ^ 33 →
  (∀ s', amem s' = amem s →
     (∀ x, x ∈ apages s' ↔ x ∈ apages s ∨ ∃ k, 0 ≤ k ∧ i + k * PAGE_SIZE < len ∧ x = page_of (hd + (i + k * PAGE_SIZE))) → Q tt s') →
  wp (map_rest rounds hd i len) s Q.
Proof.
  intros Hi0 Hhd Hhl Hr Hr0 Hlen Hi HQ. revert i s Hi0 Hi Hr HQ. induction rounds as [|rounds IH]; [lia|].
  intros i s Hi0 Hi Hr HQ. simpl. destruct (Z.ltb_spec i len) as [Hlt|Hge].
  - unfold PAGE_SIZE in *. apply wp_bind, wp_modify. rewrite !uwrap_id by (unfold in_u; lia).
    destruct (decide (rounds = 0%nat)) as [->|Hne].
    + simpl. exfalso. lia.
    + apply IH; [lia|lia|lia|lia|].
      intros s' Hm Hp. apply HQ; [done|]. intros x. rewrite Hp. simpl. rewrite elem_of_union, elem_of_singleton. split.
      * intros [[->|?]|(k & Hk & Hlt' & ->)]; [right; exists 0; rewrite Z.mul_0_l, Z.add_0_r; split_and!; [lia|lia|done]|by left|].
        right. exists (k + 1). split_and!; [lia|lia|]. f_equal. lia.
      * intros [?|(k & Hk & Hlt' & ->)]; [by left; right|]. destruct (decide (k = 0)) as [->|].
        -- left. left. f_equal. lia.
        -- right. exists (k - 1). split_and!; [lia|lia|]. f_equal. lia.
  - apply wp_ret. apply HQ; [done|]. intros x. split; [by left|]. intros [?|(k & Hk & Hlt & _)]; [done|].
    unfold PAGE_SIZE in *. lia.
Qed.

(** Map_table makes the pages of the table's start, of the end of its
    header and of every page size further, up to its length, readable, and no
    others. *)
Theorem map_table_pages s hd l :
  0 ≤ hd → hd + 2 ^ 33 < 2 ^ 64 → length l = 4%nat → 0 ≤ le l < 2 ^ 32 →
  (∀ s', apages s' = {[page_of (hd + SIZEOF_HEADER)]} ∪ ({[page_of hd]} ∪ apages s) → amem s' = amem s → bytes (view s') (hd + 4) l) →
  wp (map_table hd) s (λ _ s', amem s' = amem s ∧
    ∀ x, x ∈ apages s' ↔ x ∈ apages s ∨ ∃ i, mapped_offset (le l) i ∧ x = page_of (hd + i)).
Proof.
  intros Hhd H64 Hl Hle Hread. unfold map_table. apply wp_bind, wp_modify, wp_bind, wp_modify.
  rewrite uwrap_id by (unfold in_u, SIZEOF_HEADER; lia). apply wp_bind, wp_reads, (wp_ld32 _ _ l); [by apply Hread|done|].
  pose proof (Z.div_mod (le l) 4096 ltac:(lia)) as Hdm. pose proof (Z.mod_pos_bound (le l) 4096 ltac:(lia)) as Hmb.
  pose proof (Z.div_pos (le l) 4096 ltac:(lia) ltac:(lia)) as Hdp.
  apply wp_map_rest; unfold PAGE_SIZE, SIZEOF_HEADER in *; [lia..|].
  intros s' Hm Hp. split; [done|]. intros x. rewrite Hp. simpl. rewrite !elem_of_union, !elem_of_singleton.
  unfold mapped_offset, SIZEOF_HEADER, PAGE_SIZE. split.
  - intros [[->|[->|?]]|(k & Hk & Hlt & ->)]; [right..|by left|right].
    + exists 36. split; [|done]. right. exists 0. split_and!; [lia|lia|by left].
    + exists 0. split; [by left|by rewrite Z.add_0_r].
    + exists (36 + (k + 1) * 4096). split; [|f_equal; lia]. right. exists (k + 1). split_and!; [lia|lia|right; lia].
  - intros [?|(i & [->|(k & Hk & -> & Hor)] & ->)]; [by left; right; right|left; right; left; by rewrite Z.add_0_r|].
    destruct Hor as [->|Hlt]; [left; left; f_equal; lia|]. destruct (decide (k = 0)) as [->|]; [left; left; f_equal; lia|].
    right. exists (k - 1). split_and!; [lia|lia|f_equal; lia].
Qed.

(** ** Firmware of a small machine *)

Fixpoint bytes_b (m : bmem) (a : Z) (l : list Z) : bool :=
  match l with [] => true | x :: l => bool_decide (m !! a = Some x) && bytes_b m (a + 1) l end.

Lemma bytes_b_sound m a l : bytes_b m a l = true → bytes m a l.
Proof.
  revert a. induction l as [|x l IH]; intros a; simpl; [intros _; apply bytes_nil|].
  intros [Hx Hl]%andb_true_iff. apply bool_decide_eq_true in Hx. apply bytes_cons. auto.
Qed.

Lemma bytes_view s a l :
  bytes (amem s) a l → (∀ i, 0 ≤ i < Z.of_nat (length l) → page_of (a + i) ∈ apages s) → bytes (view s) a l.
Proof.
  intros Hb Hp i x Hx. unfold view. apply map_lookup_filter_Some. split; [by apply Hb|]. simpl.
  apply Hp. pose proof (lookup_lt_Some _ _ _ Hx). lia.
Qed.

Module AcpiDemo.
Definition at_ (a : Z) (l : list Z) : list (Z * Z) := zip (seqZ a (Z.of_nat (length l))) l.

(** A root pointer of version 1 at the fourth place, zeros elsewhere. *)
Definition rsdp : list Z := rsd_signature ++ [225; 0; 0; 0; 0; 0; 0; 0; 0; 0; 0; 0].
Definition bios (x : Z) : Z :=
  if (place 3 <=? x) && (x <? place 3 + 20) then default 0 (rsdp !! Z.to_nat (x - place 3)) else 0.
Definition bios_size : Z := 131072 + 36.
Definition bios_mem : bmem :=
  list_to_map (at_ 16 rsd_signature ++ ((λ x, (x, bios x)) <$> seqZ (place 0) bios_size)).

Lemma bios_lookup x : place 0 ≤ x < place 8192 + 36 → bios_mem !! x = Some (bios x).
Proof.
  intros Hx. unfold bios_mem. rewrite list_to_map_app. rewrite lookup_union_r.
  - apply elem_of_list_to_map_1.
    + rewrite <-list_fmap_compose. rewrite (list_fmap_ext _ id); [rewrite list_fmap_id; apply NoDup_seqZ|done].
    + apply list_elem_of_fmap. exists x. split; [done|]. apply elem_of_seqZ. unfold bios_size, place in *. lia.
  - apply not_elem_of_list_to_map. intros ([y z] & -> & Hp%elem_of_zip_l%elem_of_seqZ)%list_elem_of_fmap.
    unfold place, KERNEL_LOGICAL_BASE, RSDP_SEARCH_START in Hx. simpl in Hx, Hp. lia.
Qed.

Lemma bios_sig : bytes bios_mem 16 rsd_signature.
Proof.
  intros i x Hi. unfold bios_mem. rewrite list_to_map_app. apply lookup_union_Some_l.
  revert i x Hi. change (bytes (list_to_map (at_ 16 rsd_signature)) 16 rsd_signature). apply bytes_b_sound. reflexivity.
Qed.

(** A root table at physical address 0x1000 that lists one table, with
    signature "APIC", at 0x1FC0; the root pointer is at 1000. *)
Definition header (sig : list Z) (len ck : Z) : list Z := sig ++ [len; 0; 0; 0; 0; ck] ++ replicate 26 0.
Definition apic_sig : list Z := [65; 80; 73; 67].
Definition apic : list Z := header apic_sig 136 91 ++ replicate 100 0.
Definition root : list Z := header [82; 83; 68; 84] 40 0 ++ [192; 31; 0; 0].
Definition mem : bmem := list_to_map
  (at_ 100 apic_sig ++ at_ 1000 (replicate 16 0 ++ [0; 16; 0; 0]) ++
   at_ (KERNEL_LOGICAL_BASE + 0x1000) root ++ at_ (KERNEL_LOGICAL_BASE + 0x1FC0) apic).
Definition hd : Z := KERNEL_LOGICAL_BASE + 0x1FC0.

Lemma root_listed : root_ok mem 4 (KERNEL_LOGICAL_BASE + 0x1000) [(hd, apic)].
Proof.
  split; [by left| |done|].
  - exists [40; 0; 0; 0]. split; [by apply bytes_b_sound|done].
  - intros [|i] t Ht; [|done]. injection Ht as <-. exists [192; 31; 0; 0]. split; [by apply bytes_b_sound|done].
Qed.

Lemma apic_table : table_ok mem (hd, apic).
Proof. split; [by apply bytes_b_sound|done]. Qed.
End AcpiDemo.

Lemma find_rsdp_correct_witness :
  wp (find_rsdp 16) AcpiDemo.bios_mem (λ r m', m' = AcpiDemo.bios_mem).
Proof.
  eapply wp_mono; [apply (find_rsdp_correct 16 AcpiDemo.bios_mem AcpiDemo.bios AcpiDemo.bios_sig AcpiDemo.bios_lookup)|].
  by intros r m' [-> _].
Defined.

Lemma acpi_find_table_correct_witness :
  wp (acpi_find_table 1000 100) AcpiDemo.mem (λ t _, t = AcpiDemo.hd).
Proof.
  eapply wp_mono; [apply (acpi_find_table_correct AcpiDemo.mem 1000 0 [0; 16; 0; 0] 4 (KERNEL_LOGICAL_BASE + 0x1000)
    [(AcpiDemo.hd, AcpiDemo.apic)] 100 AcpiDemo.apic_sig)|by intros t m' [_ ->]].
  - done.
  - left. split_and!; [done|done|by apply bytes_b_sound|done].
  - done.
  - apply AcpiDemo.root_listed.
  - constructor; [apply AcpiDemo.apic_table|done].
  - by apply bytes_b_sound.
  - done.
Defined.

Lemma map_table_pages_witness :
  wp (map_table AcpiDemo.hd) (mk_acpi AcpiDemo.mem ∅) (λ _ s', amem s' = AcpiDemo.mem).
Proof.
  eapply wp_mono; [apply (map_table_pages (mk_acpi AcpiDemo.mem ∅) AcpiDemo.hd [136; 0; 0; 0])|by intros ? s' [-> _]].
  - done.
  - done.
  - done.
  - done.
  - intros s' Hp Hm. apply bytes_view; [rewrite Hm; by apply bytes_b_sound|]. intros i Hi. rewrite Hp.
    apply elem_of_union. right. apply elem_of_union. left. apply elem_of_singleton. simpl in Hi.
    assert (i = 0 ∨ i = 1 ∨ i = 2 ∨ i = 3) as [->|[->|[->| ->]]] by lia; done.
Defined.

(** The second page of a table that begins near the end of a page is not
    mapped when the header does not reach it: reading the table faults. *)
Theorem map_table_misses_tail :
  (map_table AcpiDemo.hd;; reads (table_checksum AcpiDemo.hd)) (mk_acpi AcpiDemo.mem ∅) = Fault ∧
  total AcpiDemo.apic mod 256 = 0.
Proof. split; vm_compute; reflexivity. Qed.
