(* ===== verification/Machine.v ===== *)
(** * Instructions and atomic operations

    include/asm.h, one definition per function, on the registers of a CPU that
    the instructions act on; the operations of include/atomic.h on a counter
    in memory; and the macros of include/sync.h that save the interrupt flag.
    The devices behind the ports and the model specific registers a CPU has
    are parameters. *)

From stdpp Require Import base list gmap.
From Stdlib Require Import ZArith Lia Bool.
From S2P Require Import Prelude Addr.
Local Open Scope Z_scope.

(** [tlb] holds the pages with a cached translation, with their global bits;
    [gs_preempt] is the 64-bit word at [gs:0x18]. *)
Record regs := mk_regs {
  rflags : Z;
  cr3 : Z;
  msrs : gmap Z Z;
  tlb : gmap Z bool;
  ports : list (Z * Z);          (* what was written, the latest first *)
  gs_preempt : Z
}.

Section asm.
Context (dev : list (Z * Z) → Z → Z).

Abbreviation R := (M regs).

Definition upd_rflags v s := mk_regs v (cr3 s) (msrs s) (tlb s) (ports s) (gs_preempt s).
Definition upd_msrs f s := mk_regs (rflags s) (cr3 s) (f (msrs s)) (tlb s) (ports s) (gs_preempt s).
Definition upd_tlb f s := mk_regs (rflags s) (cr3 s) (msrs s) (f (tlb s)) (ports s) (gs_preempt s).
Definition upd_ports f s := mk_regs (rflags s) (cr3 s) (msrs s) (tlb s) (f (ports s)) (gs_preempt s).
Definition upd_gs f s := mk_regs (rflags s) (cr3 s) (msrs s) (tlb s) (ports s) (f (gs_preempt s)).
Definition upd_cr3 v s := mk_regs (rflags s) v (msrs s) (tlb s) (ports s) (gs_preempt s).

(** [rdmsr] and [wrmsr] take the number in ECX and the value in EDX:EAX; a
    register the CPU does not have is a fault. *)
Definition rdmsr (ecx : Z) : R (Z * Z) :=
  s ← get; match msrs s !! ecx with Some v => mret (u32 v, u32 (Z.shiftr v 32)) | None => fault end.
Definition wrmsr (ecx eax edx : Z) : R unit :=
  s ← get;
  match msrs s !! ecx with
  | Some _ => modify (upd_msrs <[ecx := Z.lor (Z.shiftl edx 32) eax]>)
  | None => fault
  end.

Definition msr_read (msr : Z) : R Z :=
  '(low, high) ← rdmsr (u32 msr);
  mret (Z.lor (Z.shiftl high 32) low).

Definition msr_write (msr value : Z) : R unit :=
  let low := u32 (Z.land value 0xFFFFFFFF) in
  let high := u32 (Z.shiftr value 32) in
  wrmsr (u32 msr) low high.

Definition invlpg (addr : Z) : R unit := modify (upd_tlb (delete (addr / PAGE_SIZE))).

Definition outb (port val : Z) : R unit := modify (upd_ports (cons (u16 port, u8 val))).
Definition inb (port : Z) : R Z := s ← get; mret (u8 (dev (ports s) (u16 port))).

Definition RFLAGS_IF : Z := 9.

Definition cli : R unit := s ← get; modify (upd_rflags (Z.clearbit (rflags s) RFLAGS_IF)).
Definition sti : R unit := s ← get; modify (upd_rflags (Z.setbit (rflags s) RFLAGS_IF)).
Definition irq_enable : R unit := sti.
Definition irq_disable : R unit := cli.

(** Instructions that change no register of the model: a barrier for the
    compiler, a hint and a breakpoint of the emulator. *)
Definition barrier : R unit := mret tt.
Definition pause : R unit := mret tt.
Definition bochs_magic : R unit := mret tt.

(** Writing the register drops the translations that are not global. *)
Definition read_cr3 : R Z := s ← get; mret (cr3 s).
Definition write_cr3 (v : Z) : R unit :=
  modify (upd_cr3 (u64 v));; modify (upd_tlb (filter (λ kv, kv.2 = true))).

(** [pushfq] and [popfq] at privilege level 0: the arithmetic and control flags
    are loaded, RF is cleared, and the virtual-8086 and reserved bits stay. *)
Definition POPF_MASK : Z := 0x247FD5.
Definition RF : Z := 0x10000.
Definition read_rflags : R Z := s ← get; mret (rflags s).
Definition write_rflags (v : Z) : R unit :=
  s ← get;
  modify (upd_rflags (Z.lor (Z.land v POPF_MASK) (Z.land (rflags s) (Z.lnot (Z.lor POPF_MASK RF))))).

Definition preempt_inc : R unit := modify (upd_gs (low32 (λ v, v + 1))).
Definition preempt_dec : R unit := modify (upd_gs (low32 (λ v, v - 1))).
End asm.

(** ** include/atomic.h *)

Section atomic.

(** The counter itself is the state: [__atomic_add_fetch] and the like read and
    write it in one step, and the steps of all CPUs are in one order. *)
Abbreviation A := (M Z).

Definition atomic_read32 : A Z := get.
Definition atomic_inc_read32 : A Z := v ← get; put (u32 (v + 1));; mret (u32 (v + 1)).
Definition atomic_dec_read32 : A Z := v ← get; put (u32 (v - 1));; mret (u32 (v - 1)).
Definition atomic_write32 (val : Z) : A unit := put (u32 val).

Definition atomic_read64 : A Z := get.
Definition atomic_inc_read64 : A Z := v ← get; put (u64 (v + 1));; mret (u64 (v + 1)).
Definition atomic_dec_read64 : A Z := v ← get; put (u64 (v - 1));; mret (u64 (v - 1)).
(** The parameter is a [uint32_t]. *)
Definition atomic_write64 (val : Z) : A unit := put (u64 (u32 val)).

Definition kref_inc : A unit := atomic_inc_read32;; mret tt.
Definition kref_dec : A unit := atomic_dec_read32;; mret tt.
Definition kref_inc_read : A Z := atomic_inc_read32.
Definition kref_dec_read : A Z := atomic_dec_read32.
Definition kref_read : A Z := atomic_read32.
End atomic.

(** ** The macros of include/sync.h *)

(** A CPU and the lock word it shares. *)
Record locked_cpu := mk_lcpu { lc_regs : regs; lc_lock : Z }.
Definition on_regs {X} (m : M regs X) : M locked_cpu X := zoom lc_regs (λ r s, mk_lcpu r (lc_lock s)) m.
Definition spin_init : M locked_cpu unit := modify (λ s, mk_lcpu (lc_regs s) 0).

(** kernel/smp/spin.asm from one CPU: nobody releases a held lock. *)
Definition spin_lock : M locked_cpu unit :=
  on_regs preempt_inc;;
  s ← get; if lc_lock s =? 0 then modify (λ s, mk_lcpu (lc_regs s) 1) else diverge.
Definition spin_unlock : M locked_cpu unit :=
  modify (λ s, mk_lcpu (lc_regs s) 0);; on_regs preempt_dec.

Definition spin_lock_irqsave : M locked_cpu Z :=
  rflags ← on_regs read_rflags;
  on_regs cli;;
  spin_lock;;
  mret rflags.
Definition spin_unlock_irqsave (rflags : Z) : M locked_cpu unit :=
  spin_unlock;; on_regs (write_rflags rflags).

(** ** Interrupt flag and model specific registers *)

Definition irqs_on (s : locked_cpu) : bool := Z.testbit (rflags (lc_regs s)) RFLAGS_IF.

Lemma write_rflags_if v s : Z.testbit (rflags s) RFLAGS_IF = false →
  wp (write_rflags v) s (λ _ s', s' = upd_rflags (rflags s') s ∧ Z.testbit (rflags s') RFLAGS_IF = Z.testbit v RFLAGS_IF).
Proof.
  intros Hs. unfold write_rflags. wp_steps. split; [done|]. unfold RFLAGS_IF in *. simpl rflags.
  rewrite Z.lor_spec, !Z.land_spec, Hs. change (Z.testbit POPF_MASK 9) with true. by rewrite andb_true_r, andb_false_l, orb_false_r.
Qed.

(** What the code between the macros may do: it leaves the interrupts off and
    gives back every lock it took. *)
Record same_section (s s' : locked_cpu) : Prop := {
  ss_irq : irqs_on s' = false;
  ss_preempt : gs_preempt (lc_regs s') = gs_preempt (lc_regs s)
}.

(** A lock taken with [spin_lock_irqsave] is held with interrupts off, and
    giving it back with the saved flags leaves the interrupt flag and the
    count of locks as they were before, whether interrupts were on or off. *)
Theorem irqsave_correct s :
  lc_lock s = 0 → in_u 64 (gs_preempt (lc_regs s)) →
  wp spin_lock_irqsave s (λ r s1, irqs_on s1 = false ∧ lc_lock s1 = 1 ∧
    ∀ s2, same_section s1 s2 → wp (spin_unlock_irqsave r) s2 (λ _ s3,
      irqs_on s3 = irqs_on s ∧ lc_lock s3 = 0 ∧ gs_preempt (lc_regs s3) = gs_preempt (lc_regs s))).
Proof.
  intros Hl Hg. unfold spin_lock_irqsave, spin_lock, on_regs, cli, read_rflags, preempt_inc. wp_steps.
  apply (wp_zoom lc_regs). wp_steps. apply (wp_zoom lc_regs). wp_steps. simpl. rewrite Hl.
  change (0 =? 0) with true. cbv iota. wp_steps. split_and!.
  - apply Z.clearbit_eq.
  - done.
  - intros s2 [Hi Hp]. simpl in Hp. unfold spin_unlock_irqsave, spin_unlock, on_regs, preempt_dec. wp_steps.
    apply (wp_zoom lc_regs). wp_steps. apply (wp_zoom lc_regs).
    eapply wp_mono; [apply write_rflags_if; exact Hi|]. intros _ r' [-> Hr']. unfold irqs_on. simpl in *.
    split_and!; [done..|]. by rewrite Hp, low32_inc_dec.
Qed.

(** A model specific register reads back what was written. *)
Theorem msr_roundtrip msr v s :
  is_Some (msrs s !! u32 msr) → in_u 64 v →
  wp (msr_write msr v;; msr_read msr) s (λ x s', x = v ∧ s' = upd_msrs <[u32 msr := v]> s).
Proof.
  intros [w Hw] Hv. unfold msr_write, msr_read, wrmsr, rdmsr. wp_steps. rewrite Hw. wp_steps. simpl.
  rewrite lookup_insert_eq.
  assert (Z.lor (Z.shiftl (u32 (Z.shiftr v 32)) 32) (u32 (Z.land v 0xFFFFFFFF)) = v) as ->.
  { change 0xFFFFFFFF with (Z.ones 32). rewrite Z.land_ones by lia. fold (u32 v). rewrite (uwrap_id 32 (u32 v)) by by apply uwrap_range.
    by rewrite Z.lor_comm, u64_halves. }
  wp_steps. split; [|done]. by rewrite Z.lor_comm, u64_halves.
Qed.

(** ** Reference counts *)

(** The calls of all CPUs on one counter, in the order they take effect, and
    the values they return. *)
Inductive kref_op := KInc | KDec.
Definition kref_call (o : kref_op) : M Z Z := match o with KInc => kref_inc_read | KDec => kref_dec_read end.
Fixpoint kref_run (ops : list kref_op) : M Z (list Z) :=
  match ops with
  | [] => mret []
  | o :: ops => v ← kref_call o; vs ← kref_run ops; mret (v :: vs)
  end.

Definition delta (o : kref_op) : Z := match o with KInc => 1 | KDec => -1 end.

(** The number of references after each call, from [n] on. *)
Fixpoint counts (n : Z) (ops : list kref_op) : list Z :=
  match ops with [] => [] | o :: ops => (n + delta o) :: counts (n + delta o) ops end.

(** Whoever calls holds a reference, and there are never too many. *)
Fixpoint all_hold (n : Z) (ops : list kref_op) : Prop :=
  match ops with [] => True | o :: ops => 0 < n ∧ n + 1 < 2 ^ 32 ∧ all_hold (n + delta o) ops end.

Lemma kref_run_counts ops n : all_hold n ops → in_u 32 n →
  wp (kref_run ops) n (λ vs v, vs = counts n ops ∧ v = n + foldr (λ o t, delta o + t) 0 ops).
Proof.
  revert n. induction ops as [|o ops IH]; intros n Hh Hn; simpl.
  { apply wp_ret. split; [done|]. lia. }
  destruct Hh as (H0 & H1 & Hh). assert (in_u 32 (n + delta o)) as Hn' by (unfold in_u in *; destruct o; simpl; lia).
  assert (wp (kref_call o) n (λ v v', v = n + delta o ∧ v' = n + delta o)) as Hcall.
  { destruct o; simpl in *; unfold kref_inc_read, kref_dec_read, atomic_inc_read32, atomic_dec_read32; wp_steps;
      by rewrite uwrap_id. }
  eapply wp_seq; [exact Hcall|]. intros v v' [-> ->]. eapply wp_seq; [by apply IH|].
  intros vs v' [-> ->]. apply wp_ret. split; [done|]. lia.
Qed.

Lemma counts_zero n ops i : all_hold n ops → counts n ops !! i = Some 0 → S i = length ops ∧ n + foldr (λ o t, delta o + t) 0 ops = 0.
Proof.
  revert n i. induction ops as [|o ops IH]; intros n i Hh Hi; [done|]. destruct Hh as (H0 & H1 & Hh). destruct i as [|i]; simpl in *.
  - injection Hi as E. destruct ops as [|o' ops]; [split; [done|]; simpl; lia|]. simpl in Hh. lia.
  - destruct (IH _ _ Hh Hi) as [? ?]. split; [lia|]. lia.
Qed.

(** The object behind a count that starts at [n] references is released once:
    when each caller holds a reference, exactly the call that gives back the
    last one returns zero, and no call comes after it. *)
Theorem kref_released_once n ops :
  all_hold n ops → in_u 32 n → 0 < n →
  wp (kref_run ops) n (λ vs v,
    (v = 0 ↔ last vs = Some 0) ∧ ∀ i, vs !! i = Some 0 → S i = length vs).
Proof.
  intros Hh Hn H0. eapply wp_mono; [by apply kref_run_counts|]. intros vs v [-> ->].
  assert (∀ n ops, length (counts n ops) = length ops) as Hlen.
  { clear. intros n ops. revert n. induction ops; intros n; simpl; [done|]. by rewrite IHops. }
  assert (∀ n ops, ops ≠ [] → last (counts n ops) = Some (n + foldr (λ o t, delta o + t) 0 ops)) as Hlast.
  { clear. intros n ops. revert n. induction ops as [|o [|o' ops] IH]; intros n Hne; [done| |].
    - simpl. f_equal. lia.
    - simpl counts in *. rewrite last_cons_cons, IH by done. simpl. f_equal. lia. }
  split.
  - destruct (decide (ops = [])) as [->|Hne]; [simpl; split; [lia|done]|]. rewrite Hlast by done.
    split; [by intros ->|by intros [= ->]].
  - intros i Hi. rewrite Hlen. by eapply counts_zero.
Qed.

(** [atomic_write64] keeps only the low half of its argument. *)
Theorem atomic_write64_truncates v old : atomic_write64 v old = Ok (tt, v mod 2 ^ 32).
Proof.
  unfold atomic_write64, put. do 2 f_equal. apply (uwrap_id 64). unfold uwrap, in_u.
  pose proof (Z.mod_pos_bound v (2 ^ 32) ltac:(lia)). lia.
Qed.
