(* ===== verification/Cpuset.v ===== *)
(** * CPU sets

    kernel/smp/cpuset.c: a [cpuset_t] is a [uint32_t] whose bit 0 is the "pinned"
    flag and whose bit [id + 1] stands for CPU [id].  The operations run on the
    word the [cpuset_t *] argument points to. *)

From stdpp Require Import base numbers list.
From Stdlib Require Import ZArith Lia Bool.
From S2P Require Import Prelude.
Local Open Scope Z_scope.

Definition MAX_CORES : Z := 20.

Definition cpuset_init : M Z unit := put 0.
Definition cpuset_clear : M Z unit := put 0.
Definition cpuset_pin : M Z unit := modify (λ cpus, Z.lor cpus 1).
Definition cpuset_unpin : M Z unit := modify (λ cpus, Z.land cpus (u32 (Z.lnot 1))).

(** [return *cpus | 1;] converted to [bool]. *)
Definition cpuset_is_pinned : M Z bool :=
  cpus ← get; mret (negb (Z.lor cpus 1 =? 0)).

Definition cpuset_copy (src : Z) : M Z unit := put src.

(** [1 << ++id] for a [uint8_t id]: shifting an [int] by its sign bit or beyond
    is undefined. *)
Definition id_bit (id : Z) : M Z Z :=
  let n := u8 (id + 1) in
  if n <? 31 then mret (Z.shiftl 1 n) else fault.

Section cpuset.
Context `{BuildConfig}.

Definition cpuset_query_id (id : Z) : M Z bool :=
  kassert_dbg (id <? MAX_CORES);;
  bit ← id_bit id;
  cpus ← get;
  mret (negb (Z.land cpus bit =? 0)).

Definition cpuset_set_id (id : Z) (val : bool) : M Z unit :=
  kassert_dbg (id <? MAX_CORES);;
  bit ← id_bit id;
  if val then modify (λ cpus, Z.lor cpus bit)
  else modify (λ cpus, Z.land cpus (u32 (Z.lnot bit))).

(** The members the [VERBOSE] dump prints: [sizeof(cpuset_t) * 4] ids are tried. *)
Definition cpuset_dump : M Z (list Z) :=
  (fix go (n : nat) (i : Z) : M Z (list Z) :=
     match n with
     | O => mret []
     | S n => b ← cpuset_query_id i;
              rest ← go n (i + 1);
              mret (if b : bool then i :: rest else rest)
     end) 16%nat 0.
End cpuset.

(** ** Members *)

Definition member (cpus id : Z) : bool := Z.testbit cpus (id + 1).

Lemma id_bit_ok id s : 0 ≤ id < MAX_CORES → id_bit id s = Ok (2 ^ (id + 1), s).
Proof.
  unfold MAX_CORES, id_bit. intros Hid. unfold uwrap. rewrite Z.mod_small by lia.
  destruct (Z.ltb_spec (id + 1) 31); [|lia]. by rewrite Z.shiftl_1_l.
Qed.

Lemma u32_lnot_testbit z i : 0 ≤ i < 32 → Z.testbit (u32 (Z.lnot z)) i = negb (Z.testbit z i).
Proof. intros. unfold uwrap. rewrite Z.mod_pow2_bits_low, Z.lnot_spec by lia. done. Qed.

Lemma u32_range_bits z i : in_u 32 z → 32 ≤ i → Z.testbit z i = false.
Proof.
  intros [H0 Hz] Hi. rewrite <-(Z.mod_small z (2 ^ 32)) by lia.
  apply Z.mod_pow2_bits_high. lia.
Qed.

(** A word whose high bits are clear is in range. *)
Lemma in_u_bits w z : 0 ≤ w → 0 ≤ z → (∀ i, w ≤ i → Z.testbit z i = false) → in_u w z.
Proof.
  intros Hw Hz Hb. unfold in_u. assert (z = z mod 2 ^ w) as ->.
  { apply Z.bits_inj'. intros i Hi. destruct (decide (i < w)).
    - by rewrite Z.mod_pow2_bits_low by lia.
    - rewrite Z.mod_pow2_bits_high by lia. apply Hb. lia. }
  apply Z.mod_pos_bound. apply Z.pow_pos_nonneg; lia.
Qed.

Section theorems.
Context `{BuildConfig}.

Lemma wp_cpuset_query cpus id :
  0 ≤ id < MAX_CORES → cpuset_query_id id cpus = Ok (member cpus id, cpus).
Proof.
  intros Hid. unfold cpuset_query_id, kassert_dbg, kassert. unfold mbind, M_bind.
  destruct (Z.ltb_spec id MAX_CORES); [|lia]. destruct DEBUG; simpl.
  all: rewrite id_bit_ok by done; simpl; by rewrite land_pow2_testbit by lia.
Qed.

Lemma wp_cpuset_set cpus id val :
  0 ≤ id < MAX_CORES →
  cpuset_set_id id val cpus =
    Ok (tt, if val then Z.lor cpus (2 ^ (id + 1)) else Z.land cpus (u32 (Z.lnot (2 ^ (id + 1))))).
Proof.
  intros Hid. unfold cpuset_set_id, kassert_dbg, kassert. unfold mbind, M_bind.
  destruct (Z.ltb_spec id MAX_CORES); [|lia]. destruct DEBUG; simpl.
  all: rewrite id_bit_ok by done; by destruct val.
Qed.

Lemma set_id_testbit cpus id val i :
  0 ≤ id < MAX_CORES → 0 ≤ i → in_u 32 cpus →
  Z.testbit (if val : bool then Z.lor cpus (2 ^ (id + 1)) else Z.land cpus (u32 (Z.lnot (2 ^ (id + 1))))) i
  = if decide (i = id + 1) then val else Z.testbit cpus i.
Proof.
  unfold MAX_CORES. intros Hid Hi Hc. destruct val.
  - rewrite Z.lor_spec, Z.pow2_bits_eqb by lia. destruct (decide (i = id + 1)) as [->|].
    + by rewrite Z.eqb_refl, orb_true_r.
    + destruct (Z.eqb_spec (id + 1) i); [lia|]. by rewrite orb_false_r.
  - rewrite Z.land_spec. destruct (decide (i < 32)).
    + rewrite u32_lnot_testbit, Z.pow2_bits_eqb by lia. destruct (decide (i = id + 1)) as [->|].
      * by rewrite Z.eqb_refl, andb_false_r.
      * destruct (Z.eqb_spec (id + 1) i); [lia|]. by rewrite andb_true_r.
    + rewrite (u32_range_bits cpus) by (done || lia). simpl.
      destruct (decide (i = id + 1)); [lia|done].
Qed.

(** [cpuset_set_id] changes the membership of exactly one CPU, leaves the
    pinned flag alone, keeps the word in 32 bits, and [cpuset_query_id] reads
    back what was set. *)
Theorem cpuset_set_query (cpus id id' : Z) (val : bool) :
  0 ≤ id < MAX_CORES → 0 ≤ id' < MAX_CORES → in_u 32 cpus →
  ∃ cpus', cpuset_set_id id val cpus = Ok (tt, cpus') ∧ in_u 32 cpus' ∧
    cpuset_query_id id' cpus' = Ok (if id' =? id then val else member cpus id', cpus') ∧
    Z.testbit cpus' 0 = Z.testbit cpus 0.
Proof.
  intros Hid Hid' Hc. rewrite wp_cpuset_set by done. eexists. split; [reflexivity|].
  set (cpus' := if val then _ else _).
  assert (∀ i, 0 ≤ i → Z.testbit cpus' i = if decide (i = id + 1) then val else Z.testbit cpus i) as Hb
    by (intros; by apply set_id_testbit).
  split_and!.
  - apply in_u_bits; [lia| |].
    + subst cpus'. destruct Hc. destruct val; [apply Z.lor_nonneg|apply Z.land_nonneg]; split_and?; lia || left; lia.
    + intros i Hi. rewrite Hb by lia. destruct (decide (i = id + 1)).
      * unfold MAX_CORES in *. lia.
      * by apply u32_range_bits.
  - rewrite wp_cpuset_query by done. unfold member. rewrite Hb by lia.
    destruct (decide (id' + 1 = id + 1)), (Z.eqb_spec id' id); done || lia.
  - rewrite Hb by lia. destruct (decide (0 = id + 1)); [lia|done].
Qed.
End theorems.

Lemma cpuset_set_query_witness :
  ∃ cpus', cpuset_set_id (H := debug_build) 3 true 1 = Ok (tt, cpus') ∧
    cpuset_query_id (H := debug_build) 3 cpus' = Ok (true, cpus').
Proof.
  destruct (cpuset_set_query (H := debug_build) 1 3 3 true) as (c & H1 & _ & H2 & _);
    [unfold MAX_CORES; lia|unfold MAX_CORES; lia|unfold in_u; lia|].
  exists c. split; [exact H1|exact H2].
Defined.

(** [cpuset_is_pinned] answers true for every set, also after
    [cpuset_unpin]: it ors the flag into the word instead of testing it. *)
Theorem cpuset_is_pinned_always (cpus : Z) :
  (cpuset_unpin;; cpuset_is_pinned) cpus = Ok (true, Z.land cpus (u32 (Z.lnot 1))).
Proof.
  unfold cpuset_unpin, cpuset_is_pinned, mbind, M_bind, modify, get, mret, M_ret. simpl.
  repeat f_equal. apply negb_true_iff, Z.eqb_neq. intros [_ E]%Z.lor_eq_0_iff. lia.
Qed.
