(* ===== verification/Bitmap.v ===== *)
(** * Bitmaps

    include/ds/bitmap.h and libk/ds/bitmap.c: bits in an array of bytes, and
    the search for a run of clear bits.  An access outside the array faults. *)

From stdpp Require Import base list.
From Stdlib Require Import ZArith Lia Bool.
From S2P Require Import Prelude Cpuset.
Local Open Scope Z_scope.

Abbreviation BM := (M (list Z)).

Definition rd_byte (i : Z) : BM Z := λ s, match s !! Z.to_nat i with Some b => Ok (b, s) | None => Fault end.
Definition wr_byte (i v : Z) : BM unit := rd_byte i;; modify <[Z.to_nat i := u8 v]>.

Definition bit_of (which : Z) : Z := Z.shiftl 1 (Z.land which 7).

Definition bitmap_test (which : Z) : BM Z := b ← rd_byte (Z.shiftr which 3); mret (Z.land b (bit_of which)).

Definition bitmap_set (which : Z) : BM unit :=
  b ← rd_byte (Z.shiftr which 3); wr_byte (Z.shiftr which 3) (Z.lor b (bit_of which)).

Definition bitmap_clear (which : Z) : BM unit :=
  b ← rd_byte (Z.shiftr which 3); wr_byte (Z.shiftr which 3) (Z.land b (Z.lnot (bit_of which))).

Definition bitmap_toggle (which : Z) : BM unit :=
  b ← rd_byte (Z.shiftr which 3); wr_byte (Z.shiftr which 3) (Z.lxor b (bit_of which)).

Definition bitmap_write (which state : Z) : BM unit :=
  b ← rd_byte (Z.shiftr which 3);
  wr_byte (Z.shiftr which 3) (Z.lxor b (Z.land (Z.lxor (- state) b) (bit_of which))).

(** The loop, [i] bits of [size] done; the result is an [int]. *)
Fixpoint hole_from (rounds : nat) (i temp hole_size : Z) : BM Z :=
  match rounds with
  | O => mret (-1)
  | S rounds =>
      if temp =? hole_size then mret (i32 (u64 (i - temp)))
      else
        b ← bitmap_test i;
        hole_from rounds (i + 1) (if b =? 0 then temp + 1 else 0) hole_size
  end.

Definition bitmap_find_hole (size hole_size : Z) : BM Z := hole_from (Z.to_nat size) 0 0 hole_size.

(** ** The bits of a map *)

Definition bit (l : list Z) (n : Z) : bool := Z.testbit (default 0 (l !! Z.to_nat (n / 8))) (n mod 8).

Lemma index_eq which : 0 ≤ which → Z.shiftr which 3 = which / 8 ∧ bit_of which = 2 ^ (which mod 8).
Proof.
  intros Hw. split; [by rewrite Z.shiftr_div_pow2|]. unfold bit_of. change 7 with (Z.ones 3). rewrite Z.land_ones by lia. apply Z.shiftl_1_l.
Qed.

Definition inside_map (l : list Z) (n : Z) : Prop := 0 ≤ n < 8 * Z.of_nat (length l).

Lemma byte_at l n : inside_map l n → ∃ b, l !! Z.to_nat (n / 8) = Some b.
Proof.
  intros Hn. apply lookup_lt_is_Some_2. unfold inside_map in Hn. pose proof (Z.div_lt_upper_bound n 8 (Z.of_nat (length l))).
  pose proof (Z.div_pos n 8). lia.
Qed.

Lemma wp_bitmap_test l n (Q : Z → list Z → Prop) :
  inside_map l n → (∀ v, (v =? 0) = negb (bit l n) → Q v l) → wp (bitmap_test n) l Q.
Proof.
  intros Hn HQ. destruct (byte_at l n Hn) as [b Hb]. destruct Hn as [H0 _]. destruct (index_eq n H0) as [E1 E2].
  unfold bitmap_test. rewrite E1, E2. apply wp_bind. unfold wp, rd_byte. rewrite Hb. apply HQ. unfold bit. rewrite Hb. simpl.
  rewrite <-(land_pow2_testbit b (n mod 8)) by (apply Z.mod_pos_bound; lia). by rewrite negb_involutive.
Qed.

(** Changing one byte in one bit changes one bit of the map. *)
Lemma bit_insert l n b v f m :
  inside_map l n → l !! Z.to_nat (n / 8) = Some b → 0 ≤ m →
  (∀ i, 0 ≤ i < 8 → Z.testbit v i = if decide (i = n mod 8) then f else Z.testbit b i) →
  bit (<[Z.to_nat (n / 8) := u8 v]> l) m = if decide (m = n) then f else bit l m.
Proof.
  intros Hn Hb Hm Hv. unfold bit. pose proof (Z.mod_pos_bound m 8 ltac:(lia)) as Hmm. pose proof (Z.div_mod m 8 ltac:(lia)).
  pose proof (Z.div_mod n 8 ltac:(lia)). assert (0 ≤ m / 8) by (apply Z.div_pos; lia). destruct Hn as [Hn0 _]. assert (0 ≤ n / 8) by (apply Z.div_pos; lia).
  destruct (decide (m / 8 = n / 8)) as [E|E].
  - rewrite E, list_lookup_insert_eq by (by eapply lookup_lt_Some). rewrite Hb. simpl. unfold uwrap. rewrite Z.mod_pow2_bits_low, Hv by lia.
    destruct (decide (m mod 8 = n mod 8)), (decide (m = n)); try done; exfalso; [|subst; done]. lia.
  - rewrite list_lookup_insert_ne by lia. destruct (decide (m = n)) as [->|]; [done|done].
Qed.

Lemma wp_change l n b g (Q : unit → list Z → Prop) :
  inside_map l n → l !! Z.to_nat (n / 8) = Some b → Q tt (<[Z.to_nat (n / 8) := u8 (g b (2 ^ (n mod 8)))]> l) →
  wp (b ← rd_byte (Z.shiftr n 3); wr_byte (Z.shiftr n 3) (g b (bit_of n))) l Q.
Proof.
  intros [H0 _] Hb HQ. destruct (index_eq n H0) as [-> ->]. apply wp_bind. unfold wp at 1, rd_byte at 1. rewrite Hb.
  unfold wr_byte. apply wp_bind. unfold wp at 1, rd_byte. rewrite Hb. by apply wp_modify.
Qed.

(** Setting, clearing, toggling and writing a bit of a map change that bit
    as intended and no other. *)
Theorem bitmap_ops_correct l n (state : bool) :
  inside_map l n →
  let only v l' := ∀ m, 0 ≤ m → bit l' m = if decide (m = n) then v else bit l m in
  wp (bitmap_set n) l (λ _ l', only true l') ∧
  wp (bitmap_clear n) l (λ _ l', only false l') ∧
  wp (bitmap_toggle n) l (λ _ l', only (negb (bit l n)) l') ∧
  wp (bitmap_write n (Z.b2z state)) l (λ _ l', only state l').
Proof.
  intros Hn only. destruct (byte_at l n Hn) as [b Hb]. pose proof (Z.mod_pos_bound n 8 ltac:(lia)).
  assert (bit l n = Z.testbit b (n mod 8)) as Eb by (unfold bit; by rewrite Hb).
  assert (∀ i, 0 ≤ i → Z.testbit (2 ^ (n mod 8)) i = bool_decide (i = n mod 8)) as Hp.
  { intros i Hi. rewrite Z.pow2_bits_eqb by lia. destruct (Z.eqb_spec (n mod 8) i), (bool_decide_reflect (i = n mod 8)); congruence. }
  assert (∀ g v, (∀ i, 0 ≤ i < 8 → Z.testbit (g b (2 ^ (n mod 8))) i = if decide (i = n mod 8) then v else Z.testbit b i) →
    wp (b ← rd_byte (Z.shiftr n 3); wr_byte (Z.shiftr n 3) (g b (bit_of n))) l (λ _ l', only v l')) as Hg.
  { intros g v Hv. apply (wp_change l n b); [done..|]. intros m Hm. by apply (bit_insert l n b). }
  split_and!.
  - apply (Hg Z.lor). intros i Hi. rewrite Z.lor_spec, Hp by lia. case_bool_decide; [by rewrite orb_true_r, decide_True|by rewrite orb_false_r, decide_False].
  - apply (Hg (λ x y, Z.land x (Z.lnot y))). intros i Hi. rewrite Z.land_spec, Z.lnot_spec, Hp by lia.
    case_bool_decide; [by rewrite andb_false_r, decide_True|by rewrite andb_true_r, decide_False].
  - rewrite Eb. apply (Hg Z.lxor). intros i Hi. rewrite Z.lxor_spec, Hp by lia.
    case_bool_decide; [subst i; by rewrite xorb_true_r, decide_True|by rewrite xorb_false_r, decide_False].
  - apply (Hg (λ x y, Z.lxor x (Z.land (Z.lxor (- Z.b2z state) x) y))). intros i Hi. rewrite Z.lxor_spec, Z.land_spec, Z.lxor_spec, Hp by lia.
    assert (Z.testbit (- Z.b2z state) i = state) as -> by (destruct state; [apply Z.bits_m1; lia|apply Z.bits_0]).
    case_bool_decide; [rewrite decide_True by done|rewrite decide_False, andb_false_r by done; by destruct (Z.testbit b i)].
    by destruct state, (Z.testbit b i).
Qed.

(** ** Holes *)

Definition hole (l : list Z) (i h : Z) : Prop := ∀ j, i ≤ j < i + h → bit l j = false.

Lemma wp_hole_from l size h rounds i temp :
  size ≤ 8 * Z.of_nat (length l) → size < 2 ^ 31 → i + Z.of_nat rounds = size →
  0 ≤ temp ≤ h → temp ≤ i → hole l (i - temp) temp → (∀ k, 0 ≤ k < i - temp → ¬ hole l k h) →
  wp (hole_from rounds i temp h) l (λ r l', l' = l ∧
    ((r = -1 ∧ ∀ k, 0 ≤ k → k + h < size → ¬ hole l k h) ∨
     (0 ≤ r ∧ r + h < size ∧ hole l r h ∧ ∀ k, 0 ≤ k < r → ¬ hole l k h))).
Proof.
  intros Hlen Hsize. revert i temp. induction rounds as [|rounds IH]; intros i temp Hi Ht Hti Hh Hno; simpl hole_from.
  - apply wp_ret. split; [done|]. left. split; [done|]. intros k Hk Hkh. apply Hno. lia.
  - destruct (Z.eqb_spec temp h) as [->|Hne].
    + apply wp_ret. split; [done|]. right. assert (i32 (u64 (i - h)) = i - h) as ->.
      { rewrite uwrap_id by (unfold in_u; lia). unfold swrap. rewrite Z.mod_small by lia. destruct (Z.ltb_spec (i - h) (2 ^ (32 - 1))); lia. }
      split_and!; [lia|lia|done|done].
    + apply wp_bind, wp_bitmap_test; [unfold inside_map; lia|]. intros v Hv. rewrite Hv. destruct (bit l i) eqn:E; simpl negb; cbv iota.
      * apply IH; [lia|lia|lia|intros j Hj; lia|]. intros k Hk Hkh. destruct (Z.lt_ge_cases k (i - temp)); [by apply (Hno k); [lia|]|].
        specialize (Hkh i ltac:(lia)). congruence.
      * apply IH; [lia|lia|lia| |].
        -- intros j Hj. destruct (decide (j = i)) as [->|]; [done|]. apply Hh. lia.
        -- intros k Hk. apply Hno. lia.
Qed.

(** bitmap_find_hole returns the first run of clear bits of the given
    length that ends before the last bit of the map, or -1 when there is
    none. *)
Theorem bitmap_find_hole_correct l size h :
  0 ≤ size ≤ 8 * Z.of_nat (length l) → size < 2 ^ 31 → 0 ≤ h →
  wp (bitmap_find_hole size h) l (λ r l', l' = l ∧
    ((r = -1 ∧ ∀ k, 0 ≤ k → k + h < size → ¬ hole l k h) ∨
     (0 ≤ r ∧ r + h < size ∧ hole l r h ∧ ∀ k, 0 ≤ k < r → ¬ hole l k h))).
Proof.
  intros Hs Hs' Hh. unfold bitmap_find_hole. apply (wp_hole_from l size); [lia|done|lia|lia|lia|intros j Hj; lia|]. intros k Hk. lia.
Qed.

(** A map of eight clear bits has a hole of eight bits, which is not found. *)
Theorem bitmap_find_hole_misses_last : hole [0] 0 8 ∧ bitmap_find_hole 8 8 [0] = Ok (-1, [0]).
Proof.
  split; [|by vm_compute]. intros j Hj. unfold bit. rewrite Z.div_small by lia. simpl. apply Z.bits_0.
Qed.

Lemma bitmap_ops_correct_witness : wp (bitmap_set 9) [1; 1] (λ _ l', bit l' 9 = true ∧ bit l' 8 = true).
Proof.
  destruct (bitmap_ops_correct [1; 1] 9 true) as [H _]; [unfold inside_map; simpl; lia|]. eapply wp_mono; [exact H|].
  intros ? l' Hl. by rewrite !Hl by lia.
Defined.

Lemma bitmap_find_hole_correct_witness : wp (bitmap_find_hole 16 4) [3; 0] (λ r l', l' = [3; 0]).
Proof. eapply wp_mono; [apply (bitmap_find_hole_correct [3; 0] 16 4); simpl; lia|]. by intros r l' [-> _]. Defined.
