(* ===== verification/Boot.v ===== *)
(** * The first page tables

    kernel/boot.asm from the entry by the boot loader to long mode: the checks
    and their error codes, the page tables, the control registers, and the
    removal of the temporary mapping once the kernel runs at its own
    addresses.  Memory is a map from the addresses of 32-bit words to their
    values; the processor's translation of addresses is [walk].  The labels of
    the linker script and the start of .bss are parameters. *)

From stdpp Require Import base list gmap.
From Stdlib Require Import ZArith Lia Bool.
From S2P Require Import Prelude Addr.
Local Open Scope Z_scope.

(** The processor: memory, the text screen, what went to the ports, and the
    control registers. *)
Record machine := mk_machine {
  words : gmap Z Z;
  screen : list Z;               (* 2000 cells of 16 bits *)
  ports : list (Z * Z);
  cr0 : Z;
  cr3 : Z;
  cr4 : Z;
  efer : Z
}.
Definition upd_words f s := mk_machine (f (words s)) (screen s) (ports s) (cr0 s) (cr3 s) (cr4 s) (efer s).
Definition upd_screen f s := mk_machine (words s) (f (screen s)) (ports s) (cr0 s) (cr3 s) (cr4 s) (efer s).
Definition upd_ports f s := mk_machine (words s) (screen s) (f (ports s)) (cr0 s) (cr3 s) (cr4 s) (efer s).
Definition upd_cr0 v s := mk_machine (words s) (screen s) (ports s) v (cr3 s) (cr4 s) (efer s).
Definition upd_cr3 v s := mk_machine (words s) (screen s) (ports s) (cr0 s) v (cr4 s) (efer s).
Definition upd_cr4 v s := mk_machine (words s) (screen s) (ports s) (cr0 s) (cr3 s) v (efer s).
Definition upd_efer v s := mk_machine (words s) (screen s) (ports s) (cr0 s) (cr3 s) (cr4 s) v.

Definition ldw (a : Z) : M (gmap Z Z) Z := λ m, match m !! a with Some v => Ok (v, m) | None => Fault end.
Definition stw (a v : Z) : M (gmap Z Z) unit := λ m, match m !! a with Some _ => Ok (tt, <[a := u32 v]> m) | None => Fault end.
Definition on_words {A} (m : M (gmap Z Z) A) : M machine A := zoom words (λ w, upd_words (λ _, w)) m.

(** ** Translation of addresses *)

(** The physical address, and what the entries on the way allow. *)
Record access := mk_access { phys : Z; writable : bool; user : bool; no_exec : bool }.

Definition entry_at (w : gmap Z Z) (tab idx : Z) : option Z :=
  match w !! (tab + 8 * idx), w !! (tab + 8 * idx + 4) with Some lo, Some hi => Some (Z.lor lo (Z.shiftl hi 32)) | _, _ => None end.

Definition address_of (e : Z) : Z := Z.land e 0x000FFFFFFFFFF000.
Definition index (va shift : Z) : Z := Z.land (Z.shiftr va shift) 511.

(** One level for each shift.  Bit 7 of an entry of the second or third level
    makes it map a large page, in the first it is reserved. *)
Fixpoint descend (w : gmap Z Z) (shifts : list Z) (tab va : Z) (wr us nx : bool) : option access :=
  match shifts with
  | [] => None
  | s :: rest =>
      match entry_at w tab (index va s) with
      | None => None
      | Some e =>
          let wr := wr && Z.testbit e 1 in
          let us := us && Z.testbit e 2 in
          let nx := nx || Z.testbit e 63 in
          if negb (Z.testbit e 0) then None
          else if match rest with [] => true | _ => Z.testbit e 7 end then
            if s =? 39 then None
            else Some (mk_access (address_of e / 2 ^ s * 2 ^ s + va mod 2 ^ s) wr us nx)
          else descend w rest (address_of e) va wr us nx
      end
  end.

(** The bits of an address above bit 47 are as bit 47. *)
Definition canonical (va : Z) : bool := (Z.shiftr va 47 =? 0) || (Z.shiftr va 47 =? 0x1FFFF).

Definition walk (w : gmap Z Z) (root va : Z) : option access :=
  if canonical va then descend w [39; 30; 21; 12] root va true true false else None.

(** ** The code *)

Section boot.
(** The start of .bss and the labels of the linker script, as physical
    addresses. *)
Context (bss text_begin text_end rodata_begin rodata_end kernel_end : Z).

Definition p4_table : Z := bss.
Definition p3_table : Z := bss + PAGE_SIZE.
Definition lower_p3_table : Z := bss + 2 * PAGE_SIZE.
Definition p2_table : Z := bss + 3 * PAGE_SIZE.
Definition p1_table (i : Z) : Z := bss + (4 + i) * PAGE_SIZE.
Definition p3_table_temp : Z := bss + 12 * PAGE_SIZE.

Definition map_page (tab idx addr : Z) : M (gmap Z Z) unit :=
  let eax := Z.lor (u32 addr) 3 in
  stw (tab + idx * 8) eax;;
  hi ← ldw (tab + 4 + idx * 8);
  stw (tab + 4 + idx * 8) (Z.land hi (Z.land (Z.lnot (Z.shiftl 1 31)) 0xFFFFFFFF)).

(** The result in [al]. *)
Definition within_labels (edx first last : Z) : Z :=
  let al := if first <=? edx then 1 else 0 in
  let dl := if edx <? last then 1 else 0 in
  Z.land al dl.

Definition map_p1_round (ecx : Z) : M (gmap Z Z) unit :=
  let edi := u32 (4096 * ecx) in
  let esi := 0 in
  let '(edi, esi) :=
    if negb (within_labels edi text_begin text_end =? 0) then
      (Z.land edi (u32 (Z.lnot (Z.shiftl 1 1))), Z.land esi (Z.land (Z.lnot (Z.shiftl 1 31)) 0xFFFFFFFF))
    else if negb (within_labels edi rodata_begin rodata_end =? 0) then
      (Z.land edi (u32 (Z.lnot (Z.shiftl 1 1))), Z.lor esi (Z.shiftl 1 31))
    else (Z.lor edi (Z.shiftl 1 1), Z.lor esi (Z.shiftl 1 31)) in
  let edi := Z.lor edi 0x101 in
  let edi := Z.land edi (u32 (Z.lnot (Z.shiftl 1 2))) in
  stw (p1_table 0 + ecx * 8) edi;;
  stw (p1_table 0 + 4 + ecx * 8) esi.

Definition map_p1_tables : M (gmap Z Z) unit :=
  loop 4096 (λ ecx, map_p1_round ecx;; mret (if ecx + 1 =? 512 * 8 then inr tt else inl (ecx + 1))) 0.

Definition setup_paging : M (gmap Z Z) unit :=
  map_page p4_table 511 p3_table;;
  map_page p3_table 510 p2_table;;
  map_page p2_table 0 (p1_table 0);;
  map_page p2_table 1 (p1_table 1);;
  map_page p2_table 2 (p1_table 2);;
  map_page p2_table 3 (p1_table 3);;
  map_page p2_table 4 (p1_table 4);;
  map_page p2_table 5 (p1_table 5);;
  map_page p2_table 6 (p1_table 6);;
  map_page p2_table 7 (p1_table 7);;
  map_page p4_table 256 lower_p3_table;;
  map_page lower_p3_table 0 p2_table;;
  map_page p4_table 0 p3_table_temp;;
  map_page p3_table_temp 0 p2_table;;
  map_p1_tables.

Definition VGABUF : Z := 0xB8000.

Definition cls : M machine unit :=
  loop 2001 (λ ecx, if ecx =? 0 then mret (inr tt)
                    else modify (upd_screen <[Z.to_nat (ecx - 1) := 0x0F20]>);; mret (inl (ecx - 1))) 2000.

Definition outb (port val : Z) : M machine unit := modify (upd_ports (λ l, l ++ [(port, val)])).

Definition cursor : M machine unit :=
  outb 0x3D4 0x09;; outb 0x3D5 0x0F;; outb 0x3D4 0x0B;; outb 0x3D5 0x0F;; outb 0x3D4 0x0A;; outb 0x3D5 0x0E;;
  outb 0x3D4 0x0F;; outb 0x3D5 80;; outb 0x3D4 0x0E;; outb 0x3D5 0x00.

(** Two cells at once, and the low byte of one. *)
Definition put2 (i : nat) (v : Z) : M machine unit :=
  modify (upd_screen (λ l, <[S i := u16 (Z.shiftr v 16)]> (<[i := u16 v]> l))).
Definition putb (i : nat) (v : Z) : M machine unit :=
  modify (upd_screen (alter (λ c, Z.lor (Z.land c 0xFF00) v) i)).

(** Halted with a message. *)
Definition error (al : Z) : M machine (option Z) :=
  put2 0 0x4F524F45;; put2 2 0x4F4F4F52;; put2 4 0x4F3A4F52;; put2 6 0x4F204F20;; putb 7 al;; mret (Some al).

Definition no_multiboot : M machine (option Z) := error 48.
Definition no_cpuid : M machine (option Z) := error 49.
Definition no_long_mode : M machine (option Z) := error 50.
Definition kernel_too_big : M machine (option Z) := error 51.

Definition enable_sse : M machine unit :=
  s ← get;
  modify (upd_cr0 (Z.lor (Z.land (cr0 s) 0xFFFB) 2));;
  s ← get;
  modify (upd_cr4 (Z.lor (cr4 s) (Z.shiftl 3 9))).

Definition enable_paging : M machine unit :=
  modify (upd_cr3 p4_table);;
  s ← get; modify (upd_cr4 (Z.lor (cr4 s) (Z.lor (Z.shiftl 1 5) (Z.shiftl 1 7))));;
  s ← get; modify (upd_efer (Z.lor (efer s) (Z.lor (Z.shiftl 1 8) (Z.shiftl 1 11))));;
  s ← get; modify (upd_cr0 (Z.lor (cr0 s) (Z.lor (Z.shiftl 1 31) (Z.shiftl 1 16)))).

(** trampoline.asm: the same for another processor, in 16-bit mode. *)
Definition trampoline_paging : M machine unit :=
  s ← get; modify (upd_cr4 (Z.lor (cr4 s) (Z.lor (Z.shiftl 1 5) (Z.shiftl 1 7))));;
  modify (upd_cr3 p4_table);;
  s ← get; modify (upd_efer (Z.lor (efer s) (Z.lor (Z.shiftl 1 8) (Z.shiftl 1 11))));;
  modify (upd_cr0 (Z.lor (Z.lor (Z.shiftl 1 0) (Z.shiftl 1 31)) (Z.shiftl 1 16))).

(** What the processor offers: [cpuid] at all, the highest extended function,
    and EDX of function 0x80000001. *)
Record features := mk_features { has_cpuid : bool; max_extended : Z; extended_edx : Z }.
Context (f : features).

(** The code of the error, or [None] when long mode is entered; [eax] and
    [ebx] are the loader's. *)
Definition _start (eax ebx : Z) : M machine (option Z) :=
  cls;;
  if negb (eax =? 0x36D76289) then no_multiboot
  else if negb (Z.land ebx (8 - 1) =? 0) then no_multiboot
  else
    cursor;;
    if negb (has_cpuid f) then no_cpuid
    else if max_extended f <? 0x80000001 then no_long_mode
    else if Z.land (extended_edx f) (Z.shiftl 1 29) =? 0 then no_long_mode
    else
      enable_sse;;
      on_words setup_paging;;
      if KERNEL_PHYS_MAP_END <? i32 kernel_end then kernel_too_big
      else enable_paging;; mret None.

(** A 64-bit store through the page tables. *)
Definition stq (va v : Z) : M machine unit :=
  s ← get;
  match walk (words s) (cr3 s) va with
  | Some a => if writable a
              then on_words (stw (phys a) (u32 v);; stw (phys a + 4) (u32 (Z.shiftr v 32)))
              else fault
  | None => fault
  end.

Definition higher_half : M machine unit :=
  stq (p4_table + KERNEL_TEXT_BASE) 0;;
  stq (p3_table_temp + KERNEL_TEXT_BASE) 0;;
  s ← get; modify (upd_cr3 (cr3 s)).
End boot.

(** ** What the tables contain *)

(** Table [t] of the thirteen in .bss: [f t i] is entry [i] as two words. *)
Definition holds (bss : Z) (w : gmap Z Z) (f : Z → Z → Z * Z) : Prop :=
  ∀ t i, 0 ≤ t < 13 → 0 ≤ i < 512 →
    w !! (bss + t * PAGE_SIZE + 8 * i) = Some (fst (f t i)) ∧ w !! (bss + t * PAGE_SIZE + 8 * i + 4) = Some (snd (f t i)).

Definition set_entry (t i : Z) (e : Z * Z) (f : Z → Z → Z * Z) : Z → Z → Z * Z :=
  λ t' i', if (t' =? t) && (i' =? i) then e else f t' i'.

(** An entry: a frame, its low bits and whether execution is forbidden. *)
Definition nx_word (nx : bool) : Z := if nx then 2 ^ 31 else 0.

Lemma entry_facts q fl nx :
  0 ≤ q < 2 ^ 20 → 0 ≤ fl < 4096 →
  let e := Z.lor (q * 4096 + fl) (Z.shiftl (nx_word nx) 32) in
  address_of e = q * 4096 ∧ (∀ n, 0 ≤ n < 12 → Z.testbit e n = Z.testbit fl n) ∧ Z.testbit e 63 = nx.
Proof.
  intros Hq Hfl e. assert (e = nx_word nx * 2 ^ 32 + (q * 4096 + fl)) as E.
  { unfold e. rewrite Z.lor_comm, Z.shiftl_mul_pow2 by done. apply lor_low; lia. }
  split_and!.
  - unfold address_of. rewrite land_frame_mask by (rewrite E; destruct nx; cbn [nx_word]; lia). f_equal.
    replace (e / 4096) with (nx_word nx * 2 ^ 20 + q) by (apply (Z.div_unique _ _ _ fl); rewrite ?E; destruct nx; cbn [nx_word]; lia).
    symmetry. apply (Z.mod_unique _ _ (if nx then 2 ^ 11 else 0)); destruct nx; cbn [nx_word]; lia.
  - intros n Hn. rewrite <-(Z.mod_pow2_bits_low e 12 n) by lia. f_equal.
    symmetry. apply (Z.mod_unique _ _ (nx_word nx * 2 ^ 20 + q)); rewrite ?E; lia.
  - rewrite Z.testbit_eqb by done. replace (e / 2 ^ 63) with (if nx then 1 else 0); [by destruct nx|].
    apply (Z.div_unique _ _ _ (q * 4096 + fl)); rewrite ?E; destruct nx; cbn [nx_word]; lia.
Qed.

Section tables.
Context (bss text_begin text_end rodata_begin rodata_end kernel_end : Z).

Lemma holds_ext w f g : (∀ t i, 0 ≤ t < 13 → 0 ≤ i < 512 → f t i = g t i) → holds bss w f → holds bss w g.
Proof. intros E H t i Ht Hi. rewrite <-E by done. by apply H. Qed.

(** Two words of one entry. *)
Lemma holds_set w f t i lo hi :
  holds bss w f → 0 ≤ t < 13 → 0 ≤ i < 512 → let a := bss + t * PAGE_SIZE + 8 * i in
  holds bss (<[a + 4 := hi]> (<[a := lo]> w)) (set_entry t i (lo, hi) f).
Proof.
  intros H Ht Hi a t' i' Ht' Hi'. unfold set_entry. destruct (H t' i' Ht' Hi') as [E1' E2']. unfold a, PAGE_SIZE in *.
  destruct (Z.eqb_spec t' t) as [->|]; [destruct (Z.eqb_spec i' i) as [->|]|]; cbn [andb fst snd].
  - split; [rewrite lookup_insert_ne by lia; apply lookup_insert_eq|apply lookup_insert_eq].
  - split; rewrite !lookup_insert_ne by lia; done.
  - split; rewrite !lookup_insert_ne by lia; done.
Qed.

Lemma wp_stw a v x w (Q : unit → gmap Z Z → Prop) : w !! a = Some x → in_u 32 v → Q tt (<[a := v]> w) → wp (stw a v) w Q.
Proof. intros E Hv HQ. unfold wp, stw. rewrite E. by rewrite uwrap_id. Qed.

Lemma wp_ldw a x w (Q : Z → gmap Z Z → Prop) : w !! a = Some x → Q x w → wp (ldw a) w Q.
Proof. intros E HQ. unfold wp, ldw. by rewrite E. Qed.

Inductive section := Text | Rodata | Data.
Definition section_of (pa : Z) : section :=
  if (text_begin <=? pa) && (pa <? text_end) then Text
  else if (rodata_begin <=? pa) && (pa <? rodata_end) then Rodata else Data.

Definition page_flags (x : section) : Z := match x with Data => 0x103 | _ => 0x101 end.
Definition page_nx (x : section) : bool := match x with Text => false | _ => true end.

(** The entry of physical page [k], and one that refers to table [t]. *)
Definition page_words (k : Z) : Z * Z := (k * 4096 + page_flags (section_of (4096 * k)), nx_word (page_nx (section_of (4096 * k)))).
Definition link (t : Z) : Z * Z := (bss + t * PAGE_SIZE + 3, 0).

(** [tmp] and [low]: with the two entries of the temporary mapping at
    address 0. *)
Definition boot_tables (tmp low : bool) (t i : Z) : Z * Z :=
  if t =? 0 then if i =? 511 then link 1 else if i =? 256 then link 2 else if (i =? 0) && tmp then link 12 else (0, 0)
  else if t =? 1 then if i =? 510 then link 3 else (0, 0)
  else if t =? 2 then if i =? 0 then link 3 else (0, 0)
  else if t =? 3 then if i <? 8 then link (4 + i) else (0, 0)
  else if t =? 12 then if (i =? 0) && low then link 3 else (0, 0)
  else page_words ((t - 4) * 512 + i).

(** .bss is page-aligned and in the low 4 GiB. *)
Hypothesis bss_aligned : (4096 | bss).
Hypothesis bss_low : 0 < bss ∧ bss + 13 * PAGE_SIZE ≤ 2 ^ 32.

Lemma wp_map_page w f tab t i addr t' (Q : unit → gmap Z Z → Prop) :
  holds bss w f → tab = bss + t * PAGE_SIZE → addr = bss + t' * PAGE_SIZE → 0 ≤ t < 13 → 0 ≤ t' < 13 → 0 ≤ i < 512 → snd (f t i) = 0 →
  (∀ w', holds bss w' (set_entry t i (link t') f) → Q tt w') → wp (map_page tab i addr) w Q.
Proof.
  intros H -> -> Ht Ht' Hi H0 HQ. destruct bss_aligned as [q Eq]. unfold map_page.
  assert (Z.lor (u32 (bss + t' * PAGE_SIZE)) 3 = bss + t' * PAGE_SIZE + 3) as ->.
  { rewrite uwrap_id by (unfold in_u, PAGE_SIZE in *; lia). rewrite Eq. unfold PAGE_SIZE.
    replace (q * 4096 + t' * 4096) with ((q + t') * 2 ^ 12) by lia. by apply lor_low. }
  replace (bss + t * PAGE_SIZE + i * 8) with (bss + t * PAGE_SIZE + 8 * i) by lia.
  replace (bss + t * PAGE_SIZE + 4 + i * 8) with (bss + t * PAGE_SIZE + 8 * i + 4) by lia.
  destruct (H t i Ht Hi) as [E1 E2]. rewrite H0 in E2. apply wp_bind, (wp_stw _ _ _ _ _ E1); [unfold in_u, PAGE_SIZE in *; lia|].
  apply wp_bind, (wp_ldw _ 0); [rewrite lookup_insert_ne by lia; done|]. apply (wp_stw _ _ 0); [rewrite lookup_insert_ne by lia; done|done|].
  by apply HQ, holds_set.
Qed.

(** The words of one page. *)
Lemma round_words k :
  0 ≤ k < 4096 →
  let edi := u32 (4096 * k) in
  (let '(edi, esi) :=
     if negb (within_labels edi text_begin text_end =? 0) then
       (Z.land edi (u32 (Z.lnot (Z.shiftl 1 1))), Z.land 0 (Z.land (Z.lnot (Z.shiftl 1 31)) 0xFFFFFFFF))
     else if negb (within_labels edi rodata_begin rodata_end =? 0) then
       (Z.land edi (u32 (Z.lnot (Z.shiftl 1 1))), Z.lor 0 (Z.shiftl 1 31))
     else (Z.lor edi (Z.shiftl 1 1), Z.lor 0 (Z.shiftl 1 31)) in
   (Z.land (Z.lor edi 0x101) (u32 (Z.lnot (Z.shiftl 1 2))), esi)) = page_words k.
Proof.
  intros Hk edi. assert (edi = 4096 * k) as -> by (apply uwrap_id; unfold in_u; lia).
  assert (∀ x a b, negb (within_labels x a b =? 0) = (a <=? x) && (x <? b)) as Hw.
  { intros x a b. unfold within_labels. by destruct (a <=? x), (x <? b). }
  rewrite !Hw. unfold page_words, section_of.
  assert (forallb (λ k, (Z.land (Z.lor (Z.land (4096 * k) (u32 (Z.lnot (Z.shiftl 1 1)))) 0x101) (u32 (Z.lnot (Z.shiftl 1 2))) =? k * 4096 + 0x101) &&
                        (Z.land (Z.lor (Z.lor (4096 * k) (Z.shiftl 1 1)) 0x101) (u32 (Z.lnot (Z.shiftl 1 2))) =? k * 4096 + 0x103)) (seqZ 0 4096) = true) as Hall by by vm_compute.
  rewrite forallb_forall in Hall. specialize (Hall k). rewrite andb_true_iff, !Z.eqb_eq in Hall. destruct Hall as [H1 H2].
  { apply list_elem_of_In, elem_of_seqZ. lia. }
  destruct ((text_begin <=? 4096 * k) && (4096 * k <? text_end)); [by rewrite H1|].
  destruct ((rodata_begin <=? 4096 * k) && (4096 * k <? rodata_end)); [by rewrite H1|by rewrite H2].
Qed.

Lemma wp_map_p1_round w f k (Q : unit → gmap Z Z → Prop) :
  holds bss w f → 0 ≤ k < 4096 → (∀ w', holds bss w' (set_entry (4 + k / 512) (k mod 512) (page_words k) f) → Q tt w') →
  wp (map_p1_round bss text_begin text_end rodata_begin rodata_end k) w Q.
Proof.
  intros H Hk HQ. pose proof (round_words k Hk) as E. cbv zeta in E. unfold map_p1_round. cbv zeta. destruct (if negb _ then _ else _) as [edi esi].
  destruct (page_words k) as [lo hi] eqn:Ep. injection E as -> ->. 
  pose proof (Z.div_mod k 512 ltac:(done)) as Ek. pose proof (Z.mod_pos_bound k 512 ltac:(done)). 
  assert (0 ≤ k / 512 < 8) by (split; [by apply Z.div_pos; lia|by apply Z.div_lt_upper_bound; lia]).
  replace (p1_table bss 0 + k * 8) with (bss + (4 + k / 512) * PAGE_SIZE + 8 * (k mod 512)) by (unfold p1_table, PAGE_SIZE; lia).
  replace (p1_table bss 0 + 4 + k * 8) with (bss + (4 + k / 512) * PAGE_SIZE + 8 * (k mod 512) + 4) by (unfold p1_table, PAGE_SIZE; lia).
  destruct (H (4 + k / 512) (k mod 512)) as [E1 E2]; [lia..|].
  assert (in_u 32 lo ∧ in_u 32 hi) as [Hlo Hhi].
  { unfold page_words in Ep. injection Ep as <- <-. unfold in_u, page_flags, page_nx, nx_word. destruct (section_of _); lia. }
  apply wp_bind, (wp_stw _ _ _ _ _ E1); [done|]. apply (wp_stw _ _ (f (4 + k / 512) (k mod 512)).2); [rewrite lookup_insert_ne by lia; done|done|].
  apply HQ, holds_set; [done|lia..].
Qed.

(** The first [k] pages have their entries. *)
Definition upto (k : Z) (f : Z → Z → Z * Z) : Z → Z → Z * Z :=
  λ t i, if (4 <=? t) && (t <? 12) && ((t - 4) * 512 + i <? k) then page_words ((t - 4) * 512 + i) else f t i.

Lemma upto_step k f t i :
  0 ≤ k < 4096 → 0 ≤ t < 13 → 0 ≤ i < 512 → set_entry (4 + k / 512) (k mod 512) (page_words k) (upto k f) t i = upto (k + 1) f t i.
Proof.
  intros Hk Ht Hi. unfold set_entry, upto. pose proof (Z.div_mod k 512 ltac:(done)) as Ek. pose proof (Z.mod_pos_bound k 512 ltac:(done)).
  assert (0 ≤ k / 512 < 8) by (split; [by apply Z.div_pos; lia|by apply Z.div_lt_upper_bound; lia]).
  destruct (Z.eqb_spec t (4 + k / 512)), (Z.eqb_spec i (k mod 512)), (Z.leb_spec 4 t), (Z.ltb_spec t 12), (Z.ltb_spec ((t - 4) * 512 + i) k), (Z.ltb_spec ((t - 4) * 512 + i) (k + 1)); cbn [andb]; try lia; try done.
  f_equal. lia.
Qed.

Lemma wp_map_p1_tables w f (Q : unit → gmap Z Z → Prop) :
  holds bss w f → (∀ w', holds bss w' (upto 4096 f) → Q tt w') → wp (map_p1_tables bss text_begin text_end rodata_begin rodata_end) w Q.
Proof.
  intros H HQ. unfold map_p1_tables.
  apply (wp_loop (λ n ecx w', 0 ≤ ecx < 4096 ∧ n = Z.to_nat (4095 - ecx) ∧ holds bss w' (upto ecx f))) with (n := Z.to_nat 4095).
  - intros n k w' (Hk & -> & Hw). apply wp_bind, (wp_map_p1_round w' (upto k f)); [done..|]. intros w1 Hw1. apply wp_ret.
    apply (holds_ext _ _ (upto (k + 1) f)) in Hw1; [|by intros; apply upto_step]. destruct (Z.eqb_spec (k + 1) (512 * 8)) as [E|E].
    + apply HQ. by rewrite E in Hw1.
    + exists (Z.to_nat (4095 - (k + 1))). split; [lia|]. split_and!; [lia|lia|done|done].
  - split_and!; [lia|lia|done|]. eapply holds_ext; [|exact H]. intros t i Ht Hi. unfold upto.
    destruct (Z.leb_spec 4 t), (Z.ltb_spec t 12), (Z.ltb_spec ((t - 4) * 512 + i) 0); cbn [andb]; (lia || done).
  - lia.
Qed.

(** One entry of table [t] set to point to table [t']. *)
Local Ltac link t t' H := apply wp_bind; eapply (wp_map_page _ _ _ t _ _ t' _ H);
    [unfold p4_table, p3_table, lower_p3_table, p2_table, p1_table, p3_table_temp, PAGE_SIZE; lia
    |unfold p4_table, p3_table, lower_p3_table, p2_table, p1_table, p3_table_temp, PAGE_SIZE; lia|lia|lia|lia|reflexivity|clear H; intros ? H].

Lemma wp_setup_paging w (Q : unit → gmap Z Z → Prop) :
  holds bss w (λ _ _, (0, 0)) → (∀ w', holds bss w' (boot_tables true true) → Q tt w') →
  wp (setup_paging bss text_begin text_end rodata_begin rodata_end) w Q.
Proof.
  intros H HQ. unfold setup_paging.
  link 0 1 H. link 1 3 H. link 3 4 H. link 3 5 H. link 3 6 H. link 3 7 H. link 3 8 H. link 3 9 H. link 3 10 H. link 3 11 H.
  link 0 2 H. link 2 3 H. link 0 12 H. link 12 3 H. apply (wp_map_p1_tables _ _ _ H). intros w1 Hw. apply HQ.
  eapply holds_ext; [|exact Hw]. intros t i Ht Hi. unfold upto, boot_tables. destruct (decide (4 ≤ t < 12)) as [Hp|Hp].
  - rewrite (proj2 (Z.leb_le 4 t)), (proj2 (Z.ltb_lt t 12)), (proj2 (Z.ltb_lt _ 4096)) by lia. cbn [andb].
    by repeat (rewrite (proj2 (Z.eqb_neq t _)) by lia).
  - replace ((4 <=? t) && (t <? 12)) with false by (symmetry; apply andb_false_iff; rewrite Z.leb_gt, Z.ltb_ge; lia). cbn [andb]. unfold set_entry.
    assert (t = 0 ∨ t = 1 ∨ t = 2 ∨ t = 3 ∨ t = 12) as Hc by lia. destruct_or! Hc; subst t; cbn [Z.eqb Pos.eqb andb].
    1-3, 5: repeat (case Z.eqb_spec; intros; subst; try done; try lia).
    destruct (Z.ltb_spec i 8).
    + assert (i = 0 ∨ i = 1 ∨ i = 2 ∨ i = 3 ∨ i = 4 ∨ i = 5 ∨ i = 6 ∨ i = 7) as Hc by lia. by destruct_or! Hc; subst.
    + repeat (rewrite (proj2 (Z.eqb_neq i _)) by lia). done.
Qed.

(** ** What the processor makes of them *)

Lemma entry_at_holds w f t i : holds bss w f → 0 ≤ t < 13 → 0 ≤ i < 512 → entry_at w (bss + t * PAGE_SIZE) i = Some (Z.lor (fst (f t i)) (Z.shiftl (snd (f t i)) 32)).
Proof. intros H Ht Hi. unfold entry_at. destruct (H t i Ht Hi) as [-> ->]. done. Qed.

Lemma index_range va sh : 0 ≤ index va sh < 512.
Proof. unfold index. change 511 with (Z.ones 9). rewrite Z.land_ones by done. by apply Z.mod_pos_bound. Qed.

Lemma descend_none w f t sh rest va wr us nx :
  holds bss w f → 0 ≤ t < 13 → f t (index va sh) = (0, 0) → descend w (sh :: rest) (bss + t * PAGE_SIZE) va wr us nx = None.
Proof. intros H Ht E. simpl. by rewrite (entry_at_holds w f), E by (done || apply index_range). Qed.

Lemma descend_link w f t t' sh sh' rest va wr us nx :
  holds bss w f → 0 ≤ t < 13 → 0 ≤ t' < 13 → f t (index va sh) = link t' →
  descend w (sh :: sh' :: rest) (bss + t * PAGE_SIZE) va wr us nx = descend w (sh' :: rest) (bss + t' * PAGE_SIZE) va wr false nx.
Proof.
  intros H Ht Ht' E. destruct bss_aligned as [q Eq]. cbn [descend]. rewrite (entry_at_holds w f), E by (done || apply index_range).
  destruct (entry_facts (q + t') 3 false) as (E1 & E2 & E3); [unfold PAGE_SIZE in *; lia|lia|].
  replace (Z.lor (fst (link t')) (Z.shiftl (snd (link t')) 32)) with (Z.lor ((q + t') * 4096 + 3) (Z.shiftl (nx_word false) 32)).
  - rewrite E1, E3, !E2 by lia. change (Z.testbit 3 0) with true. change (Z.testbit 3 1) with true. change (Z.testbit 3 2) with false. change (Z.testbit 3 7) with false.
    rewrite andb_true_r, andb_false_r, orb_false_r. cbn [negb]. by replace ((q + t') * 4096) with (bss + t' * PAGE_SIZE) by (unfold PAGE_SIZE; lia).
  - unfold link. cbn [fst snd nx_word]. f_equal. unfold PAGE_SIZE. lia.
Qed.

Lemma descend_page w f t k va wr us nx :
  holds bss w f → 0 ≤ t < 13 → 0 ≤ k < 4096 → f t (index va 12) = page_words k →
  descend w [12] (bss + t * PAGE_SIZE) va wr us nx =
    Some (mk_access (k * 4096 + va mod 4096) (wr && match section_of (4096 * k) with Data => true | _ => false end) false (nx || page_nx (section_of (4096 * k)))).
Proof.
  intros H Ht Hk E. cbn [descend]. rewrite (entry_at_holds w f), E by (done || apply index_range). unfold page_words. cbn [fst snd].
  destruct (entry_facts k (page_flags (section_of (4096 * k))) (page_nx (section_of (4096 * k)))) as (E1 & E2 & E3); [lia|by destruct (section_of _)|].
  rewrite E1, E3, !E2 by lia. change (2 ^ 12) with 4096. rewrite Z.div_mul by done. by destruct (section_of (4096 * k)); rewrite ?andb_false_r.
Qed.

Lemma index_add base pa sh : 0 ≤ sh → (2 ^ (sh + 9) | base) → index (base + pa) sh = (pa / 2 ^ sh) mod 512.
Proof.
  intros Hs [m ->]. unfold index. change 511 with (Z.ones 9). rewrite Z.land_ones, Z.shiftr_div_pow2 by done.
  rewrite Z.pow_add_r by lia. replace (m * (2 ^ sh * 2 ^ 9)) with (m * 2 ^ 9 * 2 ^ sh) by lia. rewrite Z.div_add_l by lia.
  change (2 ^ 9) with 512. rewrite Z.add_comm. apply Z.mod_add. done.
Qed.

(** The access to physical address [pa]. *)
Definition boot_access (pa : Z) : access :=
  let x := section_of (4096 * (pa / 4096)) in
  mk_access pa (match x with Data => true | _ => false end) false (page_nx x).

(** Below the table of the first gigabyte. *)
Lemma walk_p2 tmp low w base pa :
  holds bss w (boot_tables tmp low) → (2 ^ 30 | base) → 0 ≤ pa < KERNEL_PHYS_MAP_END →
  descend w [21; 12] (bss + 3 * PAGE_SIZE) (base + pa) true false false = Some (boot_access pa).
Proof.
  unfold KERNEL_PHYS_MAP_END. intros H Hb Hpa. pose proof (Z.div_mod pa (2 ^ 21) ltac:(done)) as D2. pose proof (Z.mod_pos_bound pa (2 ^ 21) ltac:(done)) as R2.
  pose proof (Z.div_mod pa 4096 ltac:(done)) as D1. pose proof (Z.mod_pos_bound pa 4096 ltac:(done)) as R1.
  assert (0 ≤ pa / 2 ^ 21 < 8) as B2 by lia. assert (0 ≤ pa / 4096 < 4096) as B1 by lia.
  assert (index (base + pa) 21 = pa / 2 ^ 21) as I2 by (rewrite index_add by done; apply Z.mod_small; lia).
  assert (index (base + pa) 12 = (pa / 4096) mod 512) as I1.
  { rewrite index_add; [done|done|]. etrans; [|exact Hb]. by exists (2 ^ 9). }
  rewrite (descend_link w (boot_tables tmp low) 3 (4 + pa / 2 ^ 21)) by (done || lia || (rewrite I2; unfold boot_tables; cbn [Z.eqb Pos.eqb]; by rewrite (proj2 (Z.ltb_lt _ 8)) by lia)).
  assert (pa / 2 ^ 21 = (pa / 4096) / 512) as E by (rewrite Z.div_div by done; done).
  pose proof (Z.div_mod (pa / 4096) 512 ltac:(done)) as D. pose proof (Z.mod_pos_bound (pa / 4096) 512 ltac:(done)).
  rewrite (descend_page w (boot_tables tmp low) _ (pa / 4096)); [|done|lia|lia|].
  - unfold boot_access. f_equal. f_equal. destruct Hb as [m ->]. replace (m * 2 ^ 30 + pa) with (pa + m * 2 ^ 18 * 4096) by lia. rewrite Z.mod_add by done. lia.
  - rewrite I1. unfold boot_tables. repeat (rewrite (proj2 (Z.eqb_neq (4 + pa / 2 ^ 21) _)) by lia). f_equal. lia.
Qed.

Lemma walk_kernel tmp low w pa :
  holds bss w (boot_tables tmp low) → 0 ≤ pa < KERNEL_PHYS_MAP_END →
  walk w bss (KERNEL_TEXT_BASE + pa) = Some (boot_access pa) ∧ walk w bss (KERNEL_LOGICAL_BASE + pa) = Some (boot_access pa).
Proof.
  intros H Hpa. pose proof Hpa as Hpa'. unfold KERNEL_PHYS_MAP_END in Hpa'. split.
  - unfold walk. replace (canonical (KERNEL_TEXT_BASE + pa)) with true.
    2: { symmetry. unfold canonical. apply orb_true_iff. right. apply Z.eqb_eq. rewrite Z.shiftr_div_pow2 by done. symmetry.
         apply (Z.div_unique _ _ _ (2 ^ 47 - 2 ^ 31 + pa)); unfold KERNEL_TEXT_BASE; lia. }
    replace bss with (bss + 0 * PAGE_SIZE) at 1 by lia.
    rewrite (descend_link w (boot_tables tmp low) 0 1), (descend_link w (boot_tables tmp low) 1 3); [by apply (walk_p2 tmp low); [|exists (2 ^ 34 - 2)|]|done|lia|lia| |done|lia|lia|].
    + replace (KERNEL_TEXT_BASE + pa) with (2 ^ 64 - 2 ^ 39 + (2 ^ 39 - 2 ^ 31 + pa)) by (unfold KERNEL_TEXT_BASE; lia).
      rewrite index_add by (done || by exists (2 ^ 25 - 1)). replace ((2 ^ 39 - 2 ^ 31 + pa) / 2 ^ 30) with 510 by (apply (Z.div_unique _ _ _ pa); lia). done.
    + replace (KERNEL_TEXT_BASE + pa) with (2 ^ 64 - 2 ^ 48 + (2 ^ 48 - 2 ^ 31 + pa)) by (unfold KERNEL_TEXT_BASE; lia).
      rewrite index_add by (done || by exists (2 ^ 16 - 1)). replace ((2 ^ 48 - 2 ^ 31 + pa) / 2 ^ 39) with 511 by (apply (Z.div_unique _ _ _ (2 ^ 39 - 2 ^ 31 + pa)); lia). done.
  - unfold walk. replace (canonical (KERNEL_LOGICAL_BASE + pa)) with true.
    2: { symmetry. unfold canonical. apply orb_true_iff. right. apply Z.eqb_eq. rewrite Z.shiftr_div_pow2 by done. symmetry.
         apply (Z.div_unique _ _ _ pa); unfold KERNEL_LOGICAL_BASE; lia. }
    replace bss with (bss + 0 * PAGE_SIZE) at 1 by lia.
    rewrite (descend_link w (boot_tables tmp low) 0 2), (descend_link w (boot_tables tmp low) 2 3); [by apply (walk_p2 tmp low); [|exists (2 ^ 34 - 2 ^ 17)|]|done|lia|lia| |done|lia|lia|].
    + rewrite index_add by (done || by exists (2 ^ 25 - 2 ^ 8)). replace (pa / 2 ^ 30) with 0 by (apply (Z.div_unique _ _ _ pa); lia). done.
    + replace (KERNEL_LOGICAL_BASE + pa) with (2 ^ 64 - 2 ^ 48 + (2 ^ 47 + pa)) by (unfold KERNEL_LOGICAL_BASE; lia).
      rewrite index_add by (done || by exists (2 ^ 16 - 1)). replace ((2 ^ 47 + pa) / 2 ^ 39) with 256 by (apply (Z.div_unique _ _ _ pa); lia). done.
Qed.

(** The last levels need the address to be in the first 16 MiB. *)
Lemma walk_p2_only tmp low w va wr us nx a :
  holds bss w (boot_tables tmp low) → descend w [21; 12] (bss + 3 * PAGE_SIZE) va wr us nx = Some a → index va 21 < 8.
Proof.
  intros H E. destruct (Z.lt_ge_cases (index va 21) 8) as [|Hge]; [done|]. rewrite (descend_none w (boot_tables tmp low)) in E; [done|done|lia|].
  unfold boot_tables. cbn [Z.eqb Pos.eqb]. by rewrite (proj2 (Z.ltb_ge _ 8)).
Qed.

Lemma address_parts va :
  0 ≤ va → ∃ x48, va = 2 ^ 48 * x48 + 2 ^ 39 * ((va / 2 ^ 39) mod 512) + 2 ^ 30 * ((va / 2 ^ 30) mod 512) + 2 ^ 21 * ((va / 2 ^ 21) mod 512) + va mod 2 ^ 21.
Proof.
  intros Hva. exists (va / 2 ^ 48). pose proof (Z.div_mod va (2 ^ 21) ltac:(done)) as D.
  pose proof (Z.div_mod (va / 2 ^ 21) 512 ltac:(done)) as D21. rewrite Z.div_div in D21 by done. change (2 ^ 21 * 512) with (2 ^ 30) in D21.
  pose proof (Z.div_mod (va / 2 ^ 30) 512 ltac:(done)) as D30. rewrite Z.div_div in D30 by done. change (2 ^ 30 * 512) with (2 ^ 39) in D30.
  pose proof (Z.div_mod (va / 2 ^ 39) 512 ltac:(done)) as D39. rewrite Z.div_div in D39 by done. change (2 ^ 39 * 512) with (2 ^ 48) in D39. lia.
Qed.

Lemma walk_only low w va a :
  holds bss w (boot_tables false low) → 0 ≤ va < 2 ^ 64 → walk w bss va = Some a →
  ∃ pa, 0 ≤ pa < KERNEL_PHYS_MAP_END ∧ (va = KERNEL_TEXT_BASE + pa ∨ va = KERNEL_LOGICAL_BASE + pa).
Proof.
  intros H Hva. unfold walk. destruct (canonical va) eqn:Hcan; [|done]. intros E.
  assert (∀ sh, 0 ≤ sh → index va sh = (va / 2 ^ sh) mod 512) as Hidx.
  { intros sh Hs. change va with (0 + va) at 1. apply index_add; [done|]. by exists 0. }
  replace bss with (bss + 0 * PAGE_SIZE) in E at 1 by lia.
  assert (∃ t, (t = 1 ∧ index va 39 = 511 ∨ t = 2 ∧ index va 39 = 256) ∧ descend w [30; 21; 12] (bss + t * PAGE_SIZE) va true false false = Some a) as (t & Ht & E3).
  { destruct (Z.eq_dec (index va 39) 511) as [E4|N4].
    - exists 1. split; [by auto|]. rewrite <-E. symmetry. apply (descend_link w (boot_tables false low)); [done|lia|lia|by rewrite E4].
    - destruct (Z.eq_dec (index va 39) 256) as [E4|N4'].
      + exists 2. split; [by auto|]. rewrite <-E. symmetry. apply (descend_link w (boot_tables false low)); [done|lia|lia|by rewrite E4].
      + rewrite (descend_none w (boot_tables false low)) in E; [done|done|lia|]. unfold boot_tables. cbn [Z.eqb].
        rewrite (proj2 (Z.eqb_neq _ 511)), (proj2 (Z.eqb_neq _ 256)), andb_false_r by done. done. }
  assert (descend w [21; 12] (bss + 3 * PAGE_SIZE) va true false false = Some a ∧ (t = 1 ∧ index va 30 = 510 ∨ t = 2 ∧ index va 30 = 0)) as [E2 H3].
  { destruct Ht as [[-> _]|[-> _]].
    - destruct (Z.eq_dec (index va 30) 510) as [E4|N4].
      + split; [|by auto]. rewrite <-E3. symmetry. apply (descend_link w (boot_tables false low)); [done|lia|lia|by rewrite E4].
      + rewrite (descend_none w (boot_tables false low)) in E3; [done|done|lia|]. unfold boot_tables. cbn [Z.eqb Pos.eqb]. by rewrite (proj2 (Z.eqb_neq _ 510)).
    - destruct (Z.eq_dec (index va 30) 0) as [E4|N4].
      + split; [|by auto]. rewrite <-E3. symmetry. apply (descend_link w (boot_tables false low)); [done|lia|lia|by rewrite E4].
      + rewrite (descend_none w (boot_tables false low)) in E3; [done|done|lia|]. unfold boot_tables. cbn [Z.eqb Pos.eqb]. by rewrite (proj2 (Z.eqb_neq _ 0)). }
  pose proof (walk_p2_only _ _ _ _ _ _ _ _ H E2) as H2. pose proof (index_range va 21). rewrite !Hidx in * by done.
  unfold canonical in Hcan. rewrite orb_true_iff, !Z.eqb_eq, !Z.shiftr_div_pow2 in Hcan by done.
  destruct (address_parts va ltac:(lia)) as [x Hx]. pose proof (Z.mod_pos_bound va (2 ^ 21) ltac:(done)) as Hr.
  pose proof (Z.div_mod va (2 ^ 47) ltac:(done)) as D. pose proof (Z.mod_pos_bound va (2 ^ 47) ltac:(done)) as Hr'.
  set (i2 := (va / 2 ^ 21) mod 512) in *. set (r := va mod 2 ^ 21) in *. set (i3 := (va / 2 ^ 30) mod 512) in *. set (i4 := (va / 2 ^ 39) mod 512) in *.
  set (y := va / 2 ^ 47) in *. set (r' := va mod 2 ^ 47) in *. clearbody i2 r i3 i4 y r'. clear -Ht H3 H2 H0 Hx Hr D Hr' Hcan Hva.
  exists (2 ^ 21 * i2 + r). unfold KERNEL_PHYS_MAP_END, KERNEL_TEXT_BASE, KERNEL_LOGICAL_BASE. lia.
Qed.

(** ** The whole path *)

Lemma wp_on_words {A} (m : M (gmap Z Z) A) s (Q : A → machine → Prop) :
  wp m (words s) (λ x w, Q x (upd_words (λ _, w) s)) → wp (on_words m) s Q.
Proof. exact (wp_zoom words (λ w, upd_words (λ _, w)) m s Q). Qed.

(** Clearing entry 0 of table [t] through its kernel address. *)
Lemma wp_clear_entry s tmp low t f' (Q : unit → machine → Prop) :
  holds bss (words s) (boot_tables tmp low) → cr3 s = bss → 0 ≤ t < 13 → bss + 13 * PAGE_SIZE ≤ KERNEL_PHYS_MAP_END →
  section_of (bss + t * PAGE_SIZE) = Data →
  (∀ t' i, 0 ≤ t' < 13 → 0 ≤ i < 512 → set_entry t 0 (0, 0) (boot_tables tmp low) t' i = f' t' i) →
  (∀ w', holds bss w' f' → Q tt (upd_words (λ _, w') s)) → wp (stq (bss + t * PAGE_SIZE + KERNEL_TEXT_BASE) 0) s Q.
Proof.
  intros H Hcr Ht Hend Hsec Hf HQ. destruct bss_aligned as [q Eq]. unfold stq. apply wp_bind, wp_get. rewrite Hcr.
  replace (bss + t * PAGE_SIZE + KERNEL_TEXT_BASE) with (KERNEL_TEXT_BASE + (bss + t * PAGE_SIZE)) by lia.
  destruct (walk_kernel tmp low (words s) (bss + t * PAGE_SIZE) H) as [-> _]; [unfold PAGE_SIZE in *; lia|]. unfold boot_access.
  replace (4096 * ((bss + t * PAGE_SIZE) / 4096)) with (bss + t * PAGE_SIZE).
  2: { rewrite Eq. unfold PAGE_SIZE. replace (q * 4096 + t * 4096) with ((q + t) * 4096) by lia. rewrite Z.div_mul by done. lia. }
  rewrite Hsec. cbn [writable phys]. destruct (H t 0 Ht ltac:(lia)) as [E1 E2]. replace (bss + t * PAGE_SIZE + 8 * 0) with (bss + t * PAGE_SIZE) in * by lia.
  apply wp_on_words, wp_bind, (wp_stw _ _ _ _ _ E1); [done|]. eapply wp_stw; [rewrite lookup_insert_ne by lia; exact E2|done|].
  apply HQ. apply (holds_ext _ (set_entry t 0 (0, 0) (boot_tables tmp low))); [done|].
  pose proof (holds_set (words s) _ t 0 0 0 H Ht ltac:(lia)) as Hs. cbv zeta in Hs. by replace (bss + t * PAGE_SIZE + 8 * 0) with (bss + t * PAGE_SIZE) in Hs by lia.
Qed.

Lemma wp_higher_half s (Q : unit → machine → Prop) :
  holds bss (words s) (boot_tables true true) → cr3 s = bss → bss + 13 * PAGE_SIZE ≤ KERNEL_PHYS_MAP_END → text_end ≤ bss → rodata_end ≤ bss →
  (∀ w', holds bss w' (boot_tables false false) → Q tt (upd_words (λ _, w') s)) → wp (higher_half bss) s Q.
Proof.
  intros H Hcr Hend Htx Hro HQ. unfold higher_half.
  assert (∀ t, 0 ≤ t < 13 → section_of (bss + t * PAGE_SIZE) = Data) as Hsec.
  { intros t Ht. unfold section_of, PAGE_SIZE. rewrite (proj2 (Z.ltb_ge _ text_end)), (proj2 (Z.ltb_ge _ rodata_end)), !andb_false_r by lia. done. }
  apply wp_bind. replace (p4_table bss + KERNEL_TEXT_BASE) with (bss + 0 * PAGE_SIZE + KERNEL_TEXT_BASE) by (unfold p4_table; lia).
  apply (wp_clear_entry s true true 0 (boot_tables false true)); [done|done|lia|done|apply Hsec; lia| |].
  { intros t i Ht Hi. unfold set_entry, boot_tables. by destruct (Z.eqb_spec t 0), (Z.eqb_spec i 0); subst; rewrite ?andb_false_r. }
  intros w1 H1. apply wp_bind. unfold p3_table_temp. apply (wp_clear_entry _ false true 12 (boot_tables false false)); [done|done|lia|done|apply Hsec; lia| |].
  { intros t i Ht Hi. unfold set_entry, boot_tables. by destruct (Z.eqb_spec t 12), (Z.eqb_spec i 0); subst; rewrite ?andb_false_r. }
  intros w2 H2. apply wp_bind, wp_get, wp_modify. specialize (HQ w2 H2). destruct s. exact HQ.
Qed.

Definition blank : Z := 0x0F20.
Definition blank_screen : list Z := replicate 2000 blank.

Lemma wp_cls s (Q : unit → machine → Prop) : length (screen s) = 2000%nat → Q tt (upd_screen (λ _, blank_screen) s) → wp cls s Q.
Proof.
  intros Hl HQ. unfold cls.
  eapply (wp_loop (λ n ecx s', ecx = Z.of_nat n ∧ (n ≤ 2000)%nat ∧ s' = upd_screen (λ _, screen s') s ∧ length (screen s') = 2000%nat ∧
    ∀ i, (n ≤ i < 2000)%nat → screen s' !! i = Some blank)) with (n := 2000%nat); [|split_and!; [done|done|by destruct s|done|lia]|lia].
  intros n ? s' (-> & Hn & Es & Hl' & Hb). destruct (Z.eqb_spec (Z.of_nat n) 0) as [E0|E0].
  - apply wp_ret. rewrite Es. replace (screen s') with blank_screen; [done|]. apply list_eq. intros i. unfold blank_screen.
    destruct (decide (i < 2000)%nat); [rewrite lookup_replicate_2, Hb by lia; done|]. rewrite !lookup_ge_None_2; rewrite ?length_replicate; [done|lia..].
  - apply wp_bind, wp_modify, wp_ret. exists (pred n). split; [lia|]. replace (Z.to_nat (Z.of_nat n - 1)) with (pred n) by lia.
    split_and!; [lia|lia|by rewrite Es; destruct s|cbn; by rewrite length_insert|]. intros i Hi. cbn.
    destruct (decide (i = pred n)) as [->|]; [apply list_lookup_insert_eq; lia|]. rewrite list_lookup_insert_ne by lia. apply Hb. lia.
Qed.

Definition message (c : Z) : list Z := [0x4F45; 0x4F52; 0x4F52; 0x4F4F; 0x4F52; 0x4F3A; 0x4F20; Z.lor 0x4F00 c].

Lemma wp_error s c (Q : option Z → machine → Prop) :
  screen s = blank_screen → Q (Some c) (upd_screen (λ _, message c ++ drop 8 blank_screen) s) → wp (error c) s Q.
Proof.
  intros Hs HQ. unfold error, put2, putb. do 5 (apply wp_bind, wp_modify). apply wp_ret. destruct s as [w l]. cbn in Hs. subst l. exact HQ.
Qed.

Context (f : features).

(** The code of the first check that fails. *)
Definition boot_code (eax ebx : Z) : option Z :=
  if negb (eax =? 0x36D76289) || negb (ebx mod 8 =? 0) then Some 48
  else if negb (has_cpuid f) then Some 49
  else if (max_extended f <? 0x80000001) || negb (Z.testbit (extended_edx f) 29) then Some 50
  else if KERNEL_PHYS_MAP_END <? kernel_end then Some 51 else None.

Definition booted (s s' : machine) (code : option Z) : Prop :=
  match code with
  | Some c => screen s' = message c ++ drop 8 blank_screen
  | None =>
      holds bss (words s') (boot_tables true true) ∧ screen s' = blank_screen ∧ cr3 s' = bss ∧
      cr0 s' = Z.lor (Z.lor (Z.land (cr0 s) 0xFFFB) 2) (Z.lor (Z.shiftl 1 31) (Z.shiftl 1 16)) ∧
      cr4 s' = Z.lor (Z.lor (cr4 s) (Z.shiftl 3 9)) (Z.lor (Z.shiftl 1 5) (Z.shiftl 1 7)) ∧
      efer s' = Z.lor (efer s) (Z.lor (Z.shiftl 1 8) (Z.shiftl 1 11))
  end.

Lemma wp_start s eax ebx :
  length (screen s) = 2000%nat → holds bss (words s) (λ _ _, (0, 0)) → 0 ≤ kernel_end < 2 ^ 31 →
  wp (_start bss text_begin text_end rodata_begin rodata_end kernel_end f eax ebx) s (λ r s', r = boot_code eax ebx ∧ booted s s' r).
Proof.
  intros Hl H Hk. unfold _start, boot_code. apply wp_bind, wp_cls; [done|].
  assert (∀ s' c, screen s' = blank_screen → wp (error c) s' (λ r s', r = Some c ∧ booted s s' r)) as Herr.
  { intros s' c Hs. apply wp_error; [done|]. by split. }
  change (8 - 1) with (Z.ones 3). rewrite Z.land_ones by done. change (2 ^ 3) with 8.
  destruct (eax =? 0x36D76289); cbn [negb orb]; [|by apply Herr]. destruct (ebx mod 8 =? 0); cbn [negb]; [|by apply Herr].
  apply wp_bind. do 9 (apply wp_bind, wp_modify). apply wp_modify.
  destruct (has_cpuid f); cbn [negb]; [|by apply Herr]. destruct (max_extended f <? 0x80000001); cbn [orb]; [by apply Herr|].
  rewrite <-(negb_involutive (_ =? 0)). change (Z.shiftl 1 29) with (2 ^ 29). rewrite land_pow2_testbit by done.
  destruct (Z.testbit (extended_edx f) 29); cbn [negb]; [|by apply Herr].
  apply wp_bind, wp_bind, wp_get, wp_bind, wp_modify, wp_bind, wp_get, wp_modify. apply wp_bind, wp_on_words, wp_setup_paging; [exact H|]. intros w' Hw.
  replace (i32 kernel_end) with kernel_end.
  - destruct (KERNEL_PHYS_MAP_END <? kernel_end); [by apply Herr|]. unfold enable_paging.
    apply wp_bind, wp_bind, wp_modify. do 2 (apply wp_bind, wp_get, wp_bind, wp_modify). apply wp_bind, wp_get, wp_modify, wp_ret. split; [done|]. by split_and!.
  - unfold swrap. cbv zeta. rewrite Z.mod_small by lia. destruct (Z.ltb_spec kernel_end (2 ^ (32 - 1))); lia.
Qed.

(** The boot code stops with the code of the first thing that is wrong on
    an otherwise blank screen, and goes on exactly when nothing is: the
    loader's magic number and the alignment of its information (0), the
    cpuid instruction (1), long mode (2) and the size of the kernel (3). *)
Theorem boot_errors s eax ebx :
  length (screen s) = 2000%nat → holds bss (words s) (λ _ _, (0, 0)) → 0 ≤ kernel_end < 2 ^ 31 →
  wp (_start bss text_begin text_end rodata_begin rodata_end kernel_end f eax ebx) s (λ r s',
    r = boot_code eax ebx ∧ ∀ c, r = Some c → screen s' = message c ++ replicate 1992 blank).
Proof.
  intros Hl H Hk. eapply wp_mono; [by apply wp_start|]. intros r s' [-> Hb]. split; [done|]. intros c Hc. by rewrite Hc in Hb.
Qed.

(** The control registers that matter for the tables. *)
Record paging_on (s : machine) : Prop := {
  po_root : cr3 s = bss;
  po_paging : Z.testbit (cr0 s) 31 = true;
  po_write_protect : Z.testbit (cr0 s) 16 = true;
  po_pae : Z.testbit (cr4 s) 5 = true;
  po_long : Z.testbit (efer s) 8 = true;
  po_no_exec : Z.testbit (efer s) 11 = true
}.

(** The other processors come to the same tables with the same protection,
    whatever their registers were. *)
Theorem trampoline_paging_on s : wp (trampoline_paging bss) s (λ _ s', paging_on s' ∧ words s' = words s ∧ Z.testbit (cr0 s') 0 = true).
Proof.
  unfold trampoline_paging. apply wp_bind, wp_get, wp_bind, wp_modify, wp_bind, wp_modify, wp_bind, wp_get, wp_bind, wp_modify, wp_modify.
  split; [|done]. split; cbn [cr0 cr3 cr4 efer upd_words upd_cr0 upd_cr3 upd_cr4 upd_efer]; try done; rewrite Z.lor_spec; apply orb_true_intro; by right.
Qed.

(** C27: The path from the boot loader to the kernel's own addresses, with
    nothing wrong, turns paging on with write protection and execution
    protection, over tables that map exactly the first 16 MiB of physical
    memory, twice: at KERNEL_TEXT_BASE and at KERNEL_LOGICAL_BASE.  Each page
    has the rights of its section: text can be executed but not written,
    read-only data neither, everything else can be written but not executed.
    No page is for user mode and none is both writable and executable.  The
    temporary mapping at address 0 is gone. *)
Theorem boot_paging_correct s eax ebx :
  length (screen s) = 2000%nat → holds bss (words s) (λ _ _, (0, 0)) → boot_code eax ebx = None →
  bss + 13 * PAGE_SIZE ≤ kernel_end → 0 ≤ kernel_end < 2 ^ 31 → text_end ≤ bss → rodata_end ≤ bss →
  wp (_start bss text_begin text_end rodata_begin rodata_end kernel_end f eax ebx;; higher_half bss) s (λ _ s',
    paging_on s' ∧
    (∀ pa, 0 ≤ pa < KERNEL_PHYS_MAP_END →
       walk (words s') (cr3 s') (KERNEL_TEXT_BASE + pa) = Some (boot_access pa) ∧
       walk (words s') (cr3 s') (KERNEL_LOGICAL_BASE + pa) = Some (boot_access pa)) ∧
    (∀ va a, 0 ≤ va < 2 ^ 64 → walk (words s') (cr3 s') va = Some a →
       ∃ pa, 0 ≤ pa < KERNEL_PHYS_MAP_END ∧ (va = KERNEL_TEXT_BASE + pa ∨ va = KERNEL_LOGICAL_BASE + pa) ∧ a = boot_access pa ∧
             (writable a = true → no_exec a = true))).
Proof.
  intros Hl H Hcode Hend Hk Htx Hro. apply wp_bind. eapply wp_mono; [by apply wp_start|]. intros r s1 [-> Hb]. rewrite Hcode in Hb.
  destruct Hb as (Ht & _ & H3 & H0 & H4 & He). assert (kernel_end ≤ KERNEL_PHYS_MAP_END) as Hfit.
  { unfold boot_code in Hcode. repeat (destruct (_ || _) in Hcode; [done|]). destruct (negb _) in Hcode; [done|].
    destruct (_ || _) in Hcode; [done|]. by destruct (Z.ltb_spec KERNEL_PHYS_MAP_END kernel_end) in Hcode. }
  apply wp_higher_half; [done|done|lia|done|done|]. intros w' Hw. cbn [words cr3 upd_words]. rewrite H3. split_and!.
  - split; cbn [cr0 cr3 cr4 efer upd_words]; [done|rewrite H0|rewrite H0|rewrite H4|rewrite He|rewrite He]; rewrite Z.lor_spec; apply orb_true_intro; by right.
  - intros pa Hpa. by apply (walk_kernel false false).
  - intros va a Hva Ha. destruct (walk_only false w' va a Hw Hva Ha) as (pa & Hpa & Hor). exists pa. split_and!; [lia|lia|done| |].
    + destruct (walk_kernel false false w' pa Hw Hpa) as [E1 E2]. destruct Hor as [->| ->]; congruence.
    + destruct (walk_kernel false false w' pa Hw Hpa) as [E1 E2]. assert (a = boot_access pa) as -> by (destruct Hor as [->| ->]; congruence).
      unfold boot_access. cbn. by destruct (section_of _).
Qed.
End tables.

Module BootDemo.
(** A kernel of 7 MiB at 1 MiB whose tables start at 6 MiB. *)
Definition bss : Z := 0x600000.
Definition all_words : gmap Z Z := list_to_map ((λ i, (bss + 4 * i, 0)) <$> seqZ 0 13312).
Definition s : machine := mk_machine all_words (replicate 2000 0) [] 0x60000011 0 0 0.
Definition cpu : features := mk_features true 0x80000008 (Z.shiftl 1 29).

Lemma zeros : holds bss all_words (λ _ _, (0, 0)).
Proof.
  assert (∀ a, 0 ≤ a < 13312 → all_words !! (bss + 4 * a) = Some 0) as Hall.
  { intros a Ha. apply elem_of_list_to_map_1.
    - rewrite <-list_fmap_compose. apply NoDup_fmap_2_strong; [|apply NoDup_seqZ]. intros x y _ _. cbn. lia.
    - apply list_elem_of_fmap. exists a. split; [done|]. apply elem_of_seqZ. lia. }
  intros t i Ht Hi. unfold PAGE_SIZE. split; [replace (bss + t * 0x1000 + 8 * i) with (bss + 4 * (t * 1024 + 2 * i)) by lia|
    replace (bss + t * 0x1000 + 8 * i + 4) with (bss + 4 * (t * 1024 + 2 * i + 1)) by lia]; apply Hall; lia.
Qed.
Lemma aligned : (4096 | bss).
Proof. by exists 0x600. Qed.
End BootDemo.

Lemma boot_errors_witness :
  wp (_start BootDemo.bss 0x200000 0x500000 0x100000 0x1F0000 0x800000 BootDemo.cpu 0x2BADB002 0x10000) BootDemo.s
     (λ r s', r = Some 48 ∧ ∀ c, r = Some c → screen s' = message c ++ replicate 1992 blank).
Proof.
  apply (boot_errors BootDemo.bss 0x200000 0x500000 0x100000 0x1F0000 0x800000 BootDemo.aligned); [by unfold BootDemo.bss, PAGE_SIZE|reflexivity|exact BootDemo.zeros|lia].
Defined.

Lemma boot_paging_correct_witness :
  wp (_start BootDemo.bss 0x200000 0x500000 0x100000 0x1F0000 0x800000 BootDemo.cpu 0x36D76289 0x10000;; higher_half BootDemo.bss) BootDemo.s
     (λ _ s', walk (words s') (cr3 s') 0xFFFFFFFF80234567 = Some (mk_access 0x234567 false false false)).
Proof.
  eapply wp_mono; [apply (boot_paging_correct BootDemo.bss 0x200000 0x500000 0x100000 0x1F0000 0x800000 BootDemo.aligned)|].
  - by unfold BootDemo.bss, PAGE_SIZE.
  - reflexivity.
  - exact BootDemo.zeros.
  - reflexivity.
  - by unfold BootDemo.bss, PAGE_SIZE.
  - lia.
  - by unfold BootDemo.bss.
  - by unfold BootDemo.bss.
  - intros ? s' (_ & Hw & _). exact (proj1 (Hw 0x234567 ltac:(unfold KERNEL_PHYS_MAP_END; lia))).
Defined.
