(* ===== verification/Smp.v ===== *)
(** * Starting the other processors

    kernel/smp/smp.c and trampoline.asm, and the start of the scheduler in
    kernel/proc/sched.c, as a step relation: a step is one access of the boot
    processor (BSP) or of one of the others (APs) to the shared variables
    [smp_ap_started_flag], [smp_ap_stack], [smp_nr_cpus_ready] and
    [schedulers_waiting], or an interrupt sent to an AP.  Whatever a CPU does
    between two of these accesses on its own data is part of the step before;
    the waits for the timer let the others take any steps.  What an AP does
    while it is off is nothing: an AP that never answers is one that never
    takes a step. *)

From stdpp Require Import base list relations.
From Stdlib Require Import ZArith Lia Bool.
From S2P Require Import Prelude.
Local Open Scope Z_scope.

(** An AP: off, reset by the INIT interrupt, in the copy of the trampoline in
    low memory, with its stack pointer loaded, with the flag incremented (in
    [percpu_init_ap], [idt_load], [lapic_enable], ...), counted as online in
    [smp_ap_kmain], waiting for the other schedulers ([ARead]: with the first
    operand of the comparison read), and running its scheduler. *)
Inductive ap_pc :=
| AOff
| AReset
| ATrampoline
| ALoaded (rsp : Z)
| AFlagged (rsp : Z)
| AOnline (rsp : Z)
| AWaiting (rsp : Z)
| ARead (rsp : Z) (first : Z)
| ASched (rsp : Z).

(** The BSP in [smp_init], in [smp_boot_ap(i)] and in [sched_run_bsp]. *)
Inductive bsp_pc :=
| BCount                 (* atomic_inc_read32(&smp_nr_cpus_ready) *)
| BStack (i : nat)       (* the loop's test; if (smp_ap_stack == NULL) ... *)
| BClear (i : nat)       (* smp_ap_started_flag = 0 *)
| BInit (i : nat)        (* lapic_send_ipi(lapic->id, IPI_INIT) *)
| BSipi1 (i : nat)       (* the first start-up interrupt *)
| BCheck1 (i : nat)      (* if (!smp_ap_started_flag) *)
| BSipi2 (i : nat)       (* the second one *)
| BCheck2 (i : nat)      (* if (!smp_ap_started_flag) again *)
| BDrop (i : nat)        (* smp_ap_stack = NULL *)
| BUnmap                 (* the trampoline is unmapped *)
| BFree                  (* if (smp_ap_stack != NULL) ... *)
| BWaitAll               (* while (smp_nr_cpus() < lapic_list_size) *)
| BJoin                  (* atomic_inc_read32(&schedulers_waiting) *)
| BWaiting
| BRead (first : Z)
| BSched.

(** An entry of [lapic_list] and the CPU it stands for; [gone]: the BSP has
    given it up. *)
Record cpu := mk_cpu { present : Z; gone : bool; pc : ap_pc }.

Record smp := mk_smp {
  bsp : bsp_pc;
  cpus : list cpu;         (* lapic_list; the first is the BSP *)
  started_flag : Z;        (* smp_ap_started_flag *)
  ap_stack : Z;            (* smp_ap_stack *)
  nr_ready : Z;            (* smp_nr_cpus_ready *)
  waiting : Z;             (* schedulers_waiting *)
  trampoline : bool;       (* the trampoline is mapped *)
  pool : list Z            (* the tops of the stacks the page allocator has to give *)
}.

Definition set_bsp v s := mk_smp v (cpus s) (started_flag s) (ap_stack s) (nr_ready s) (waiting s) (trampoline s) (pool s).
Definition set_cpus f s := mk_smp (bsp s) (f (cpus s)) (started_flag s) (ap_stack s) (nr_ready s) (waiting s) (trampoline s) (pool s).
Definition set_flag v s := mk_smp (bsp s) (cpus s) v (ap_stack s) (nr_ready s) (waiting s) (trampoline s) (pool s).
Definition set_stack v s := mk_smp (bsp s) (cpus s) (started_flag s) v (nr_ready s) (waiting s) (trampoline s) (pool s).
Definition set_ready v s := mk_smp (bsp s) (cpus s) (started_flag s) (ap_stack s) v (waiting s) (trampoline s) (pool s).
Definition set_waiting v s := mk_smp (bsp s) (cpus s) (started_flag s) (ap_stack s) (nr_ready s) v (trampoline s) (pool s).
Definition set_trampoline v s := mk_smp (bsp s) (cpus s) (started_flag s) (ap_stack s) (nr_ready s) (waiting s) v (pool s).
Definition set_pool v s := mk_smp (bsp s) (cpus s) (started_flag s) (ap_stack s) (nr_ready s) (waiting s) (trampoline s) v.
Definition set_pc (p : ap_pc) (c : cpu) : cpu := mk_cpu (present c) (gone c) p.

(** The INIT interrupt resets a CPU whatever it does; the start-up interrupt
    starts one that has been reset and is lost on any other. *)
Definition ipi_init (c : cpu) : cpu := set_pc AReset c.
Definition ipi_start_up (c : cpu) : cpu := match pc c with AReset => set_pc ATrampoline c | _ => c end.
Definition cpu_unstarted (c : cpu) : cpu := mk_cpu 0 true (pc c).

(** [list_alter] leaves a list without the entry as it is; the loop's test has
    made sure that it is there. *)
Section code.
(** [late]: an AP can still answer after the BSP has given it up.
    [count_first]: the compiler reads the second operand of
    [atomic_read32(&schedulers_waiting) < smp_nr_cpus()] first. *)
Context (late count_first : bool).

Definition first_operand (s : smp) : Z := if count_first then nr_ready s else waiting s.
Definition still_waiting (first : Z) (s : smp) : bool :=
  if count_first then waiting s <? first else first <? nr_ready s.

Definition smp_boot_ap (p : bsp_pc) (s : smp) : option smp :=
  match p with
  | BStack i =>
      if ap_stack s =? 0 then
        match pool s with
        | [] => None
        | top :: rest => Some (set_bsp (BClear i) (set_stack top (set_pool rest s)))
        end
      else Some (set_bsp (BClear i) s)
  | BClear i => Some (set_bsp (BInit i) (set_flag 0 s))
  | BInit i => Some (set_bsp (BSipi1 i) (set_cpus (alter ipi_init i) s))
  | BSipi1 i => Some (set_bsp (BCheck1 i) (set_cpus (alter ipi_start_up i) s))
  | BCheck1 i => Some (set_bsp (if started_flag s =? 0 then BSipi2 i else BDrop i) s)
  | BSipi2 i => Some (set_bsp (BCheck2 i) (set_cpus (alter ipi_start_up i) s))
  | BCheck2 i =>
      if started_flag s =? 0 then Some (set_bsp (BStack (S i)) (set_cpus (alter cpu_unstarted i) s))
      else Some (set_bsp (BDrop i) s)
  | BDrop i => Some (set_bsp (BStack (S i)) (set_stack 0 s))
  | _ => None
  end.

Definition smp_init (s : smp) : option smp :=
  match bsp s with
  | BCount => Some (set_bsp (BStack 1) (set_trampoline true (set_ready (u32 (nr_ready s + 1)) s)))
  | BStack i => if (i <? length (cpus s))%nat then smp_boot_ap (BStack i) s else Some (set_bsp BUnmap s)
  | BUnmap => Some (set_bsp BFree (set_trampoline false s))
  | BFree => Some (set_bsp BWaitAll (if negb (ap_stack s =? 0) then set_pool (ap_stack s :: pool s) s else s))
  | BWaitAll => Some (set_bsp (if nr_ready s <? Z.of_nat (length (cpus s)) then BWaitAll else BJoin) s)
  | BJoin | BWaiting | BRead _ | BSched => None
  | p => smp_boot_ap p s
  end.

(** [wait_for_schedulers], called by [sched_run_bsp] *)
Definition sched_run_bsp (s : smp) : option smp :=
  match bsp s with
  | BJoin => Some (set_bsp BWaiting (set_waiting (u32 (waiting s + 1)) s))
  | BWaiting => Some (set_bsp (BRead (first_operand s)) s)
  | BRead first => Some (set_bsp (if still_waiting first s then BWaiting else BSched) s)
  | _ => None
  end.

Definition goto (i : nat) (c : cpu) (p : ap_pc) (s : smp) : smp := set_cpus <[i := set_pc p c]> s.

(** The trampoline: running it needs its page. *)
Definition smp_trampoline (i : nat) (c : cpu) (s : smp) : option smp :=
  match pc c with
  | ATrampoline => if trampoline s then Some (goto i c (ALoaded (ap_stack s)) s) else None
  | ALoaded rsp => Some (goto i c (AFlagged rsp) (set_flag (u8 (started_flag s + 1)) s))
  | _ => None
  end.

Definition smp_ap_kmain (i : nat) (c : cpu) (s : smp) : option smp :=
  match pc c with
  | AFlagged rsp => Some (goto i c (AOnline rsp) (set_ready (u32 (nr_ready s + 1)) s))
  | _ => None
  end.

Definition sched_run_ap (i : nat) (c : cpu) (s : smp) : option smp :=
  match pc c with
  | AOnline rsp => Some (goto i c (AWaiting rsp) (set_waiting (u32 (waiting s + 1)) s))
  | AWaiting rsp => Some (goto i c (ARead rsp (first_operand s)) s)
  | ARead rsp first => Some (goto i c (if still_waiting first s then AWaiting rsp else ASched rsp) s)
  | _ => None
  end.

Inductive step (s : smp) : smp → Prop :=
| StepInit s' : smp_init s = Some s' → step s s'
| StepSched s' : sched_run_bsp s = Some s' → step s s'
| StepAp i c s' :
    cpus s !! i = Some c → gone c = false ∨ late = true →
    smp_trampoline i c s = Some s' ∨ smp_ap_kmain i c s = Some s' ∨ sched_run_ap i c s = Some s' → step s s'.

(** When [smp_init] is called: nothing has run but the BSP. *)
Record initial (s : smp) : Prop := {
  in_bsp : bsp s = BCount;
  in_cpus : Forall (λ c, gone c = false ∧ pc c = AOff) (cpus s);
  in_size : 0 < Z.of_nat (length (cpus s)) < 2 ^ 32;
  in_stack : ap_stack s = 0;
  in_ready : nr_ready s = 0;
  in_waiting : waiting s = 0;
  in_pool : NoDup (0 :: pool s)
}.

Definition reachable (s : smp) : Prop := ∃ s0, initial s0 ∧ rtc step s0 s.
End code.

(** ** Executions *)

(** The step of one CPU: [None] is the BSP. *)
Definition next (late count_first : bool) (a : option nat) (s : smp) : option smp :=
  match a with
  | None => match smp_init s with Some s' => Some s' | None => sched_run_bsp count_first s end
  | Some i =>
      match cpus s !! i with
      | Some c =>
          if gone c && negb late then None
          else match smp_trampoline i c s with
               | Some s' => Some s'
               | None => match smp_ap_kmain i c s with Some s' => Some s' | None => sched_run_ap count_first i c s end
               end
      | None => None
      end
  end.

Fixpoint run (late count_first : bool) (l : list (option nat)) (s : smp) : option smp :=
  match l with [] => Some s | a :: l => match next late count_first a s with Some s' => run late count_first l s' | None => None end end.

Lemma next_step late cf a s s' : next late cf a s = Some s' → step late cf s s'.
Proof.
  unfold next. destruct a as [i|].
  - destruct (cpus s !! i) as [c|] eqn:Hi; [|done]. destruct (gone c && negb late) eqn:Hg; [done|]. intros E. apply (StepAp _ _ _ i c s' Hi).
    + destruct (gone c), late; auto.
    + destruct (smp_trampoline i c s); [by left|]. destruct (smp_ap_kmain i c s); auto.
  - destruct (smp_init s) eqn:E; [|by apply StepSched]. intros [= <-]. by apply StepInit.
Qed.

Lemma run_steps late cf l s s' : run late cf l s = Some s' → rtc (step late cf) s s'.
Proof.
  revert s. induction l as [|a l IH]; simpl; intros s E; [injection E as <-; done|].
  destruct (next late cf a s) as [s1|] eqn:En; [|done]. eapply rtc_l; [by eapply next_step|by apply IH].
Qed.

(** ** Control *)

Definition stage (p : ap_pc) : nat :=
  match p with
  | AOff => 0 | AReset => 1 | ATrampoline => 2 | ALoaded _ => 3 | AFlagged _ => 4
  | AOnline _ => 5 | AWaiting _ => 6 | ARead _ _ => 7 | ASched _ => 8
  end.

Definition rsp_of (p : ap_pc) : option Z :=
  match p with
  | AOff | AReset | ATrampoline => None
  | ALoaded r | AFlagged r | AOnline r | AWaiting r | ARead r _ | ASched r => Some r
  end.

(** The AP the BSP is at; [None] after the last. *)
Definition booting (p : bsp_pc) : option nat :=
  match p with
  | BCount => Some 1%nat
  | BStack i | BClear i | BInit i | BSipi1 i | BCheck1 i | BSipi2 i | BCheck2 i | BDrop i => Some i
  | _ => None
  end.

(** The stages CPU [j] can be in while the BSP is at [p]. *)
Definition range (p : bsp_pc) (j : nat) : nat * nat :=
  if decide (j = 0%nat) then (0, 0)%nat else
  match booting p with
  | None => (4, 8)%nat
  | Some i =>
      if decide (j < i)%nat then (4, 8)%nat
      else if decide (i < j)%nat then (0, 0)%nat
      else match p with
           | BSipi1 _ => (1, 1)%nat
           | BCheck1 _ | BSipi2 _ | BCheck2 _ => (2, 8)%nat
           | BDrop _ => (4, 8)%nat
           | _ => (0, 0)%nat
           end
  end.

Definition passed_by (p : bsp_pc) (j : nat) : Prop := match booting p with None => True | Some i => (j < i)%nat end.

Definition mapped_at (p : bsp_pc) : bool := match p with BCount | BFree | BWaitAll | BJoin | BWaiting | BRead _ | BSched => false | _ => true end.

Definition index_ok (p : bsp_pc) (n : nat) : Prop :=
  match p with
  | BStack i => (1 ≤ i ≤ n)%nat
  | BClear i | BInit i | BSipi1 i | BCheck1 i | BSipi2 i | BCheck2 i | BDrop i => (1 ≤ i < n)%nat
  | _ => True
  end.

(** The flag while the BSP looks at it. *)
Definition flag_ok (s : smp) : Prop :=
  match bsp s with
  | BInit _ | BSipi1 _ => started_flag s = 0
  | BCheck1 i | BSipi2 i | BCheck2 i =>
      ∀ c, cpus s !! i = Some c → started_flag s = if decide (4 ≤ stage (pc c))%nat then 1 else 0
  | _ => True
  end.

Record control (s : smp) : Prop := {
  co_size : 0 < Z.of_nat (length (cpus s)) < 2 ^ 32;
  co_index : index_ok (bsp s) (length (cpus s));
  co_live j c : cpus s !! j = Some c → gone c = false → (fst (range (bsp s) j) ≤ stage (pc c) ≤ snd (range (bsp s) j))%nat;
  co_gone j c : cpus s !! j = Some c → gone c = true → passed_by (bsp s) j ∧ (0 < j)%nat ∧ (stage (pc c) < 4)%nat;
  co_flag : flag_ok s;
  co_mapped : bsp s ≠ BCount → trampoline s = mapped_at (bsp s)
}.

Lemma control_initial s : initial s → control s.
Proof.
  intros [Hb Hc Hs _ _ _ _]. rewrite Forall_lookup in Hc. split; [done| | | | |].
  - by rewrite Hb.
  - intros j c Hj Hg. destruct (Hc j c Hj) as [_ ->]. rewrite Hb. unfold range. simpl. by repeat case_decide; simpl; lia.
  - intros j c Hj Hg. destruct (Hc j c Hj). congruence.
  - unfold flag_ok. by rewrite Hb.
  - by rewrite Hb.
Qed.

(** Looking a CPU up after one of them has changed. *)
Lemma lookup_alter_cpu f i j (l : list cpu) c :
  alter f i l !! j = Some c → ∃ c0, l !! j = Some c0 ∧ c = if decide (i = j) then f c0 else c0.
Proof.
  rewrite list_lookup_alter. destruct (decide (i = j)) as [->|Hne]; [|by exists c].
  intros (c0 & -> & ->)%fmap_Some_1. by exists c0.
Qed.

Lemma lookup_goto i j c p (l : list cpu) c' :
  l !! i = Some c → <[i := set_pc p c]> l !! j = Some c' → ∃ c0, l !! j = Some c0 ∧ c' = if decide (i = j) then set_pc p c0 else c0.
Proof.
  intros Hi. destruct (decide (i = j)) as [->|Hne].
  - rewrite list_lookup_insert_eq by by eapply lookup_lt_Some. intros [= <-]. by exists c.
  - rewrite list_lookup_insert_ne by done. by exists c'.
Qed.

Ltac smp_simpl := cbn [bsp cpus started_flag ap_stack nr_ready waiting trampoline pool set_bsp set_cpus set_flag set_stack set_ready set_waiting set_trampoline set_pool goto] in *.

(** A step of the BSP that changes at most the CPU it is at. *)
Lemma control_bsp s s' f i :
  control s → cpus s' = alter f i (cpus s) → (∀ c, gone c = true → f c = c ∨ ¬ passed_by (bsp s) i) →
  index_ok (bsp s') (length (cpus s)) →
  (∀ j c, cpus s !! j = Some c → gone c = false → (fst (range (bsp s) j) ≤ stage (pc c) ≤ snd (range (bsp s) j))%nat →
     let c' := if decide (i = j) then f c else c in
     (gone c' = false → fst (range (bsp s') j) ≤ stage (pc c') ≤ snd (range (bsp s') j))%nat ∧
     (gone c' = true → passed_by (bsp s') j ∧ (0 < j)%nat ∧ (stage (pc c') < 4)%nat)) →
  (∀ j, passed_by (bsp s) j → passed_by (bsp s') j) → flag_ok s' → trampoline s' = mapped_at (bsp s') → control s'.
Proof.
  intros [Hs Hi Hl Hg Hf Ht] Ec Hfg Hi' Hr Hp Hf' Ht'. split; rewrite ?Ec, ?length_alter; [done|done| | |done|done].
  all: intros j c' (c & Hj & ->)%lookup_alter_cpu; destruct (gone c) eqn:Egc.
  1, 3: destruct (Hg j c Hj Egc) as (Hpj & Hj0 & Hst); case_decide as Eij; [subst i; destruct (Hfg c Egc) as [->|[]]; [|done]|]; by rewrite ?Egc; auto.
  all: destruct (Hr j c Hj Egc (Hl j c Hj Egc)) as [H1 H2]; auto.
Qed.

Lemma control_stay s s' :
  control s → cpus s' = cpus s → index_ok (bsp s') (length (cpus s)) →
  (∀ j c, cpus s !! j = Some c → gone c = false → (fst (range (bsp s) j) ≤ stage (pc c) ≤ snd (range (bsp s) j))%nat →
     (fst (range (bsp s') j) ≤ stage (pc c) ≤ snd (range (bsp s') j))%nat) →
  (∀ j, passed_by (bsp s) j → passed_by (bsp s') j) → flag_ok s' → trampoline s' = mapped_at (bsp s') → control s'.
Proof.
  intros [Hs Hi Hl Hg Hf Ht] Ec Hi' Hr Hp Hf' Ht'. split; rewrite ?Ec; [done|done| | |done|done].
  - intros j c Hj Hgc. by apply Hr, Hl.
  - intros j c Hj Hgc. destruct (Hg j c Hj Hgc) as (? & ? & ?). auto.
Qed.

Ltac range_solve := unfold range, passed_by in *; cbn in *; repeat case_decide; cbn in *; try lia; try done.
Ltac stay s Eb Ht := apply (control_stay s); smp_simpl; rewrite ?Eb; cbn; [done|done|done || lia|intros j c Hj Hgc Hr; pose proof (lookup_lt_Some _ _ _ Hj); range_solve|intros; range_solve|try done|try done; by apply Ht].

Lemma booting_live s i c : control s → booting (bsp s) = Some i → cpus s !! i = Some c → gone c = false.
Proof.
  intros Hc Hb Hi. destruct (gone c) eqn:Hg; [|done]. destruct (co_gone s Hc i c Hi Hg) as (Hp & _ & _).
  unfold passed_by in Hp. rewrite Hb in Hp. lia.
Qed.

Lemma start_up_stage c : stage (pc (ipi_start_up c)) = if decide (stage (pc c) = 1%nat) then 2%nat else stage (pc c).
Proof. unfold ipi_start_up. destruct (pc c) eqn:E; cbn; by rewrite ?E. Qed.
Lemma start_up_gone c : gone (ipi_start_up c) = gone c.
Proof. unfold ipi_start_up. by destruct (pc c). Qed.

Lemma control_init s s' : control s → smp_init s = Some s' → control s'.
Proof.
  intros Hc E. pose proof Hc as [Hs Hi Hl Hg Hf Ht]. unfold smp_init in E. unfold flag_ok in *. destruct (bsp s) eqn:Eb; cbn [smp_boot_ap] in E; cbn in Hi, Ht; try done.
  - injection E as <-. stay s Eb Ht. 
  - destruct (Nat.ltb_spec i (length (cpus s))); [|injection E as <-; stay s Eb Ht].
    destruct (ap_stack s =? 0); [destruct (pool s); [done|]|]; injection E as <-; stay s Eb Ht.
  - injection E as <-. stay s Eb Ht.
  - injection E as <-. apply (control_bsp s _ ipi_init i); smp_simpl; rewrite ?Eb; cbn; [done|done|right; lia|lia| | |done|by apply Ht].
    + intros j c Hj Hgc Hr. case_decide; cbn; rewrite ?Hgc; split; range_solve.
    + done.
  - injection E as <-. apply (control_bsp s _ ipi_start_up i); smp_simpl; rewrite ?Eb; cbn; [done|done|right; lia|lia| |done| |by apply Ht].
    + intros j c Hj Hgc Hr. case_decide; rewrite ?start_up_stage, ?start_up_gone, ?Hgc; split; range_solve.
    + intros c' (c & Hj & ->)%lookup_alter_cpu. rewrite (decide_True (P := i = i)) by done. assert (gone c = false) as Hgc by (eapply booting_live; [done|by rewrite Eb|done]).
      specialize (Hl _ _ Hj Hgc). rewrite start_up_stage. range_solve.
  - injection E as <-. destruct (Z.eqb_spec (started_flag s) 0); stay s Eb Ht. destruct (decide (j = i)) as [->|]; [|lia].
    specialize (Hf _ Hj). case_decide; lia.
  - injection E as <-. apply (control_bsp s _ ipi_start_up i); smp_simpl; rewrite ?Eb; cbn; [done|done|right; lia|lia| |done| |by apply Ht].
    + intros j c Hj Hgc Hr. case_decide; rewrite ?start_up_stage, ?start_up_gone, ?Hgc; split; range_solve.
    + intros c' (c & Hj & ->)%lookup_alter_cpu. rewrite (decide_True (P := i = i)) by done. rewrite (Hf c Hj), start_up_stage. by repeat case_decide; lia.
  - destruct (Z.eqb_spec (started_flag s) 0); injection E as <-; [|].
    2: { stay s Eb Ht. destruct (decide (j = i)) as [->|]; [|lia]. specialize (Hf _ Hj). case_decide; lia. }
    apply (control_bsp s _ cpu_unstarted i); smp_simpl; rewrite ?Eb; cbn; [done|done|right; lia|lia| |lia|done|by apply Ht].
    intros j c Hj Hgc Hr. destruct (decide (i = j)) as [<-|]; cbn; rewrite ?Hgc; [|split; range_solve].
    split; [done|]. intros _. specialize (Hf _ Hj). case_decide; [lia|]. lia.
  - injection E as <-. stay s Eb Ht.
  - injection E as <-. stay s Eb Ht.
  - injection E as <-. destruct (negb _); stay s Eb Ht.
  - injection E as <-. destruct (nr_ready s <? _); stay s Eb Ht.
Qed.

Lemma control_sched cf s s' : control s → sched_run_bsp cf s = Some s' → control s'.
Proof.
  intros Hc E. pose proof Hc as [Hs Hi Hl Hg Hf Ht]. unfold sched_run_bsp in E. destruct (bsp s) eqn:Eb; cbn in Hi, Ht; try done; injection E as <-.
  - stay s Eb Ht.
  - stay s Eb Ht.
  - destruct (still_waiting _ _ _); stay s Eb Ht.
Qed.

(** Everything an AP that runs does. *)
Record ap_moved (i : nat) (c : cpu) (p : ap_pc) (s s' : smp) : Prop := {
  mv_cpus : cpus s' = <[i := set_pc p c]> (cpus s);
  mv_bsp : bsp s' = bsp s;
  mv_trampoline : trampoline s' = trampoline s;
  mv_stack : ap_stack s' = ap_stack s;
  mv_pool : pool s' = pool s;
  mv_flag : started_flag s' = if decide (stage (pc c) = 3%nat) then u8 (started_flag s + 1) else started_flag s;
  mv_ready : nr_ready s' = if decide (stage (pc c) = 4%nat) then u32 (nr_ready s + 1) else nr_ready s;
  mv_waiting : waiting s' = if decide (stage (pc c) = 5%nat) then u32 (waiting s + 1) else waiting s;
  mv_stage : stage p = S (stage (pc c)) ∨ stage (pc c) = 7%nat ∧ stage p = 6%nat;
  mv_from : (2 ≤ stage (pc c))%nat;
  mv_rsp : rsp_of p = if decide (stage (pc c) = 2%nat) then Some (ap_stack s) else rsp_of (pc c)
}.

Lemma ap_moves cf i c s s' :
  smp_trampoline i c s = Some s' ∨ smp_ap_kmain i c s = Some s' ∨ sched_run_ap cf i c s = Some s' →
  ∃ p, ap_moved i c p s s' ∧ (∀ r w, p = ARead r w → w = first_operand cf s) ∧
       (∀ r, p = ASched r → ∃ w, pc c = ARead r w ∧ still_waiting cf w s = false).
Proof.
  unfold smp_trampoline, smp_ap_kmain, sched_run_ap. intros [E|[E|E]]; destruct (pc c) as [| | |r|r|r|r|r w|r] eqn:Ep; try done.
  - destruct (trampoline s) eqn:Et; [|done]. injection E as <-. eexists. split; [split; cbn; rewrite ?Ep, ?Et; try done; auto|done].
  - injection E as <-. eexists. split; [split; cbn; rewrite ?Ep; cbn; try done; auto; lia|done].
  - injection E as <-. eexists. split; [split; cbn; rewrite ?Ep; cbn; try done; auto; lia|done].
  - injection E as <-. eexists. split; [split; cbn; rewrite ?Ep; cbn; try done; auto; lia|done].
  - injection E as <-. eexists. split; [split; cbn; rewrite ?Ep; cbn; try done; auto; lia|]. split; [by intros ? ? [= <- <-]|done].
  - destruct (still_waiting cf w s) eqn:Ew; injection E as <-; eexists; (split; [split; cbn; rewrite ?Ep; cbn; try done; auto; lia|]).
    + done.
    + split; [done|]. intros ? [= <-]. by exists w.
Qed.

Lemma stage_le p : (stage p ≤ 8)%nat.
Proof. destruct p; cbn; lia. Qed.

Lemma moved_lookup i c p s s' j c' :
  cpus s !! i = Some c → ap_moved i c p s s' → cpus s' !! j = Some c' →
  ∃ c0, cpus s !! j = Some c0 ∧ c' = if decide (i = j) then set_pc p c0 else c0.
Proof. intros Hi Hm. rewrite (mv_cpus _ _ _ _ _ Hm). by apply lookup_goto. Qed.

Lemma control_ap i c p s s' : control s → cpus s !! i = Some c → gone c = false → ap_moved i c p s s' → control s'.
Proof.
  intros Hc Hic Hgc Hm. pose proof Hc as [Hs Hi Hl Hg Hf Ht]. pose proof Hm as [E1 E2 E3 _ _ E4 _ _ Hst Hfr _].
  pose proof (Hl i c Hic Hgc) as Hr. pose proof (stage_le p) as Hle.
  split; rewrite ?E2, ?E3; [by rewrite E1, length_insert|by rewrite E1, length_insert| | | |done].
  - intros j c' (c0 & Hj & ->)%(moved_lookup _ _ _ _ _ _ _ Hic Hm) Hg0. destruct (decide (i = j)) as [<-|]; [|by apply Hl].
    assert (c0 = c) as -> by congruence. cbn. unfold range in *. repeat case_match; cbn in *; lia.
  - intros j c' (c0 & Hj & ->)%(moved_lookup _ _ _ _ _ _ _ Hic Hm) Hg0. destruct (decide (i = j)) as [<-|]; [|by apply Hg].
    assert (c0 = c) as -> by congruence. cbn in Hg0. congruence.
  - unfold flag_ok in *. rewrite E2, E4. unfold range in Hr.
    destruct (bsp s) eqn:Eb; try done; cbn in Hr; [repeat case_decide; cbn in Hr; lia || done..| | |].
    all: intros c' (c0 & Hj & ->)%(moved_lookup _ _ _ _ _ _ _ Hic Hm); rewrite (Hf c0 Hj).
    all: repeat case_decide; cbn in *; try lia; try done; subst; assert (c0 = c) as -> by congruence; try lia.
Qed.

(** ** Counting *)

Definition online (c : cpu) : bool := (5 <=? stage (pc c))%nat.
Definition joined (c : cpu) : bool := (6 <=? stage (pc c))%nat.
Definition bsp_joined (p : bsp_pc) : bool := match p with BWaiting | BRead _ | BSched => true | _ => false end.
Definition bsp_counted (p : bsp_pc) : bool := match p with BCount => false | _ => true end.
Definition bsp_done (p : bsp_pc) : bool := match p with BJoin | BWaiting | BRead _ | BSched => true | _ => false end.

(** The counters hold what they count; a CPU that compares has read a value
    [schedulers_waiting] had; the BSP is past [smp_init] when all are online,
    and a scheduler runs when all have joined. *)
Record counts (s : smp) : Prop := {
  cn_ready : nr_ready s = Z.b2z (bsp_counted (bsp s)) + tally online (cpus s);
  cn_waiting : waiting s = Z.b2z (bsp_joined (bsp s)) + tally joined (cpus s);
  cn_read j c r w : cpus s !! j = Some c → pc c = ARead r w → w ≤ waiting s;
  cn_bsp_read w : bsp s = BRead w → w ≤ waiting s;
  cn_done : bsp_done (bsp s) = true → nr_ready s = Z.of_nat (length (cpus s));
  cn_sched j c r : cpus s !! j = Some c → pc c = ASched r → waiting s = Z.of_nat (length (cpus s));
  cn_bsp_sched : bsp s = BSched → waiting s = Z.of_nat (length (cpus s))
}.

Lemma counts_initial s : initial s → counts s.
Proof.
  intros [Hb Hc Hs _ Hr Hw _]. rewrite Forall_lookup in Hc.
  assert (∀ n, (0 < n)%nat → tally (λ c, (n <=? stage (pc c))%nat) (cpus s) = 0) as Ht.
  { intros n Hn. apply tally_zero, Forall_lookup. intros j c Hj. destruct (Hc j c Hj) as [_ ->]. cbn. apply Nat.leb_gt. lia. }
  split; rewrite ?Hb, ?Hr, ?Hw; try done.
  - symmetry. apply (Ht 5%nat). lia.
  - symmetry. apply (Ht 6%nat). lia.
  - intros j c r w Hj E. destruct (Hc j c Hj) as [_ E']. congruence.
  - intros j c r Hj E. destruct (Hc j c Hj) as [_ E']. congruence.
Qed.

(** The BSP's own entry. *)
Lemma bsp_entry s : control s → ∃ c, cpus s !! 0%nat = Some c ∧ stage (pc c) = 0%nat.
Proof.
  intros [Hs _ Hl Hg _ _]. destruct (cpus s) as [|c l] eqn:E; [cbn in Hs; lia|]. exists c. split; [done|].
  destruct (gone c) eqn:Hgc; [destruct (Hg 0%nat c eq_refl Hgc) as (_ & ? & _); lia|]. specialize (Hl 0%nat c eq_refl Hgc). unfold range in Hl. rewrite decide_True in Hl by done. cbn in Hl. lia.
Qed.

(** With the BSP's entry not counted, one AP that is not counted leaves room. *)
Lemma tally_room s (n : nat) i c :
  control s → cpus s !! i = Some c → (0 < i)%nat → (stage (pc c) < n)%nat → tally (λ c, (n <=? stage (pc c))%nat) (cpus s) + 2 ≤ Z.of_nat (length (cpus s)).
Proof.
  intros Hc Hi Hi0 Hn. destruct (bsp_entry s Hc) as (c0 & H0 & E0).
  apply (tally_two_out _ _ 0%nat i c0 c); [lia|done|done|by apply Nat.leb_gt; lia|by apply Nat.leb_gt].
Qed.

Lemma online_bound s : control s → tally online (cpus s) + 1 ≤ Z.of_nat (length (cpus s)).
Proof.
  intros Hc. destruct (bsp_entry s Hc) as (c0 & H0 & E0). pose proof (tally_negb online (cpus s)) as Ht.
  pose proof (tally_at (negb ∘ online) (cpus s) 0 c0 H0) as Ha. assert ((negb ∘ online) c0 = true) as E1 by (cbn; unfold online; by rewrite E0).
  rewrite E1 in Ha. cbn in Ha. lia.
Qed.

Lemma joined_online s : tally joined (cpus s) ≤ tally online (cpus s).
Proof. apply tally_le. unfold joined, online. intros c. rewrite !Nat.leb_le. lia. Qed.

(** A step of the BSP in [smp_init] changes at most the early stages of a
    CPU. *)
Lemma counts_alter f i s s' :
  counts s → cpus s' = alter f i (cpus s) →
  (∀ c, cpus s !! i = Some c → pc (f c) = pc c ∨ (stage (pc c) < 5)%nat ∧ (stage (pc (f c)) < 5)%nat) →
  bsp_joined (bsp s) = false → bsp_joined (bsp s') = false → waiting s' = waiting s →
  nr_ready s' = nr_ready s + Z.b2z (bsp_counted (bsp s')) - Z.b2z (bsp_counted (bsp s)) →
  (bsp_done (bsp s') = true → nr_ready s' = Z.of_nat (length (cpus s))) → counts s'.
Proof.
  intros [Hr Hw Ha Hb Hd Hs Hbs] Ec Hf J J' Ew Er Hd'.
  assert (∀ n, (5 ≤ n)%nat → tally (λ c, (n <=? stage (pc c))%nat) (cpus s') = tally (λ c, (n <=? stage (pc c))%nat) (cpus s)) as Ht.
  { intros n Hn. rewrite Ec. apply tally_alter. intros c Hi. destruct (Hf c Hi) as [->|[H1 H2]]; [done|].
    destruct (Nat.leb_spec n (stage (pc c))), (Nat.leb_spec n (stage (pc (f c)))); lia || done. }
  assert (∀ j c', cpus s' !! j = Some c' → (5 ≤ stage (pc c'))%nat → ∃ c, cpus s !! j = Some c ∧ pc c' = pc c) as Hpc.
  { intros j c'. rewrite Ec. intros (c & Hj & ->)%lookup_alter_cpu Hst. exists c. split; [done|]. case_decide as Ei; [|done]. subst.
    destruct (Hf c Hj) as [|[_ ?]]; [done|lia]. }
  split; rewrite ?Ew.
  - rewrite Er, Hr. change (tally online ?l) with (tally (λ c, (5 <=? stage (pc c))%nat) l). rewrite (Ht 5%nat) by lia. lia.
  - rewrite Hw, J, J'. change (tally joined ?l) with (tally (λ c, (6 <=? stage (pc c))%nat) l). by rewrite (Ht 6%nat) by lia.
  - intros j c' r w Hj E. destruct (Hpc j c' Hj ltac:(rewrite E; cbn; lia)) as (c & Hj' & E'). eapply Ha; [done|by rewrite <-E'].
  - intros w E. by rewrite E in J'.
  - rewrite Ec, length_alter. done.
  - intros j c' r Hj E. destruct (Hpc j c' Hj ltac:(rewrite E; cbn; lia)) as (c & Hj' & E'). rewrite Ec, length_alter.
    eapply Hs; [done|by rewrite <-E'].
  - intros E. by rewrite E in J'.
Qed.

Lemma counts_stay s s' :
  counts s → cpus s' = cpus s → bsp_joined (bsp s) = false → bsp_joined (bsp s') = false → waiting s' = waiting s →
  nr_ready s' = nr_ready s + Z.b2z (bsp_counted (bsp s')) - Z.b2z (bsp_counted (bsp s)) →
  (bsp_done (bsp s') = true → nr_ready s' = Z.of_nat (length (cpus s))) → counts s'.
Proof.
  intros Hn Ec. apply (counts_alter id 0); [done| |by left]. rewrite Ec. symmetry. by apply list_alter_id.
Qed.

Lemma counts_init s s' : control s → counts s → smp_init s = Some s' → counts s'.
Proof.
  intros Hc Hn E. unfold smp_init in E. destruct (bsp s) eqn:Eb; cbn [smp_boot_ap] in E; try done.
  - injection E as <-. apply (counts_stay s); smp_simpl; rewrite ?Eb; try done. cbn.
    pose proof (cn_ready s Hn) as Er. rewrite Eb in Er. cbn in Er. pose proof (online_bound s Hc). pose proof (co_size s Hc).
    rewrite uwrap_id; [lia|]. pose proof (tally_nonneg online (cpus s)). unfold in_u. lia.
  - destruct (i <? length (cpus s))%nat; [|injection E as <-; apply (counts_stay s); smp_simpl; rewrite ?Eb; try done; cbn; lia].
    destruct (ap_stack s =? 0); [destruct (pool s); [done|]|]; injection E as <-; apply (counts_stay s); smp_simpl; rewrite ?Eb; try done; cbn; lia.
  - injection E as <-. apply (counts_stay s); smp_simpl; rewrite ?Eb; try done; cbn; lia.
  - injection E as <-. apply (counts_alter ipi_init i s); smp_simpl; rewrite ?Eb; try done; cbn; [|lia].
    intros c Hi. right. assert (gone c = false) as Hg by (eapply booting_live; [done|by rewrite Eb|done]).
    pose proof (co_live s Hc i c Hi Hg) as Hr. rewrite Eb in Hr. range_solve.
  - injection E as <-. apply (counts_alter ipi_start_up i s); smp_simpl; rewrite ?Eb; try done; cbn; [|lia].
    intros c Hi. unfold ipi_start_up. destruct (pc c) eqn:Ep; rewrite ?Ep; cbn; auto; right; lia.
  - injection E as <-. apply (counts_stay s); smp_simpl; rewrite ?Eb; try done; destruct (started_flag s =? 0); cbn; try done; lia.
  - injection E as <-. apply (counts_alter ipi_start_up i s); smp_simpl; rewrite ?Eb; try done; cbn; [|lia].
    intros c Hi. unfold ipi_start_up. destruct (pc c) eqn:Ep; rewrite ?Ep; cbn; auto; right; lia.
  - destruct (started_flag s =? 0); injection E as <-.
    + apply (counts_alter cpu_unstarted i s); smp_simpl; rewrite ?Eb; try done; cbn; [by left|lia].
    + apply (counts_stay s); smp_simpl; rewrite ?Eb; try done; cbn; lia.
  - injection E as <-. apply (counts_stay s); smp_simpl; rewrite ?Eb; try done; cbn; lia.
  - injection E as <-. apply (counts_stay s); smp_simpl; rewrite ?Eb; try done; cbn; lia.
  - injection E as <-. destruct (negb _); apply (counts_stay s); smp_simpl; rewrite ?Eb; try done; cbn; lia.
  - injection E as <-. pose proof (cn_ready s Hn) as Er. pose proof (online_bound s Hc). rewrite Eb in Er. cbn in Er.
    destruct (Z.ltb_spec (nr_ready s) (Z.of_nat (length (cpus s)))); apply (counts_stay s); smp_simpl; rewrite ?Eb; try done; cbn; intros; lia.
Qed.

(** The comparison that lets a CPU leave [wait_for_schedulers]: the value read
    first is at least the second, so all have joined. *)
Lemma barrier_value s w :
  control s → counts s → bsp_counted (bsp s) = true → w ≤ waiting s → still_waiting false w s = false → waiting s = Z.of_nat (length (cpus s)) ∧ bsp_joined (bsp s) = true.
Proof.
  intros Hc [Hr Hw _ _ Hd _ _] Ec Hle Hs. rewrite Ec in Hr. unfold still_waiting in Hs. apply Z.ltb_ge in Hs. pose proof (online_bound s Hc).
  pose proof (joined_online s). destruct (bsp_joined (bsp s)) eqn:Ej.
  - assert (bsp_done (bsp s) = true) as Ed by by destruct (bsp s). specialize (Hd Ed).
    cbn in *. lia.
  - cbn in *. lia.
Qed.

Lemma counts_sched s s' : control s → counts s → sched_run_bsp false s = Some s' → counts s'.
Proof.
  intros Hc Hn E. pose proof Hn as [Hr Hw Ha Hb Hd Hs Hbs]. pose proof (online_bound s Hc). pose proof (joined_online s).
  pose proof (tally_nonneg joined (cpus s)). pose proof (co_size s Hc).
  unfold sched_run_bsp in E. destruct (bsp s) as [| | | | | | | | | | | | | |w|] eqn:Eb; try done; injection E as <-; cbn in *.
  - assert (u32 (waiting s + 1) = waiting s + 1) as Ew by (apply uwrap_id; unfold in_u; lia).
    split; smp_simpl; rewrite ?Ew; cbn; try done; [lia| |].
    + intros j c r w Hj E. specialize (Ha j c r w Hj E). lia.
    + intros j c r Hj E. specialize (Hs j c r Hj E). lia.
  - split; smp_simpl; try done. intros w [= <-]. done.
  - destruct (w <? nr_ready s) eqn:Es; split; smp_simpl; try done. intros _.
    eapply barrier_value; [done|done|by rewrite Eb|by apply Hb|done].
Qed.

Lemma running_counted s i c : control s → cpus s !! i = Some c → (0 < stage (pc c))%nat → bsp_counted (bsp s) = true ∧ (0 < i)%nat.
Proof.
  intros Hc Hi Hst. destruct (gone c) eqn:Hg.
  - destruct (co_gone s Hc i c Hi Hg) as (Hp & H0 & _). split; [|done]. unfold passed_by in Hp. destruct (bsp s); cbn in *; (lia || done).
  - pose proof (co_live s Hc i c Hi Hg) as Hr. unfold range in Hr. case_decide; [cbn in Hr; lia|]. split; [|lia].
    destruct (bsp s); cbn in *; try done. repeat case_decide; cbn in *; lia.
Qed.

(** A counter of the CPUs past stage [k] that is incremented on leaving it. *)
Lemma moved_counter (k : nat) i c p s s' (b : bool) v v' :
  control s → cpus s !! i = Some c → ap_moved i c p s s' → (k < 6)%nat →
  v = Z.b2z b + tally (λ c, (S k <=? stage (pc c))%nat) (cpus s) →
  v' = (if decide (stage (pc c) = k) then u32 (v + 1) else v) →
  v ≤ v' ∧ v' = Z.b2z b + tally (λ c, (S k <=? stage (pc c))%nat) (cpus s').
Proof.
  intros Hc Hi Hm Hk Hv Hv'. pose proof (mv_stage _ _ _ _ _ Hm) as Hst. pose proof (mv_from _ _ _ _ _ Hm) as Hfr.
  rewrite (mv_cpus _ _ _ _ _ Hm), (tally_insert _ _ _ c) by done. cbn [pc set_pc]. rewrite Hv'. case_decide as Ek.
  - destruct (running_counted s i c Hc Hi) as [_ Hi0]; [lia|]. pose proof (tally_room s (S k) i c Hc Hi Hi0 ltac:(lia)) as Hroom.
    pose proof (co_size s Hc). pose proof (tally_nonneg (λ c, (S k <=? stage (pc c))%nat) (cpus s)).
    rewrite uwrap_id by (unfold in_u; destruct b; cbn [Z.b2z] in *; lia). destruct Hst as [->|[? ?]]; [|lia]. rewrite Ek, Nat.leb_refl.
    replace (S k <=? k)%nat with false by (symmetry; apply Nat.leb_gt; lia). cbn [Z.b2z]. lia.
  - destruct (Nat.leb_spec (S k) (stage (pc c))), (Nat.leb_spec (S k) (stage p)); cbn [Z.b2z]; lia.
Qed.

Lemma counts_ap i c p s s' :
  control s → control s' → counts s → cpus s !! i = Some c → ap_moved i c p s s' →
  (∀ r w, p = ARead r w → w ≤ waiting s) → (∀ r, p = ASched r → waiting s = Z.of_nat (length (cpus s))) → counts s'.
Proof.
  intros Hc Hc' [Hr Hw Ha Hb Hd Hs Hbs] Hi Hm Hrd Hsc. pose proof Hm as [E1 E2 _ _ _ _ E3 E4 Hst Hfr _].
  destruct (moved_counter 4 i c p s s' _ _ _ Hc Hi Hm ltac:(lia) Hr E3) as [Mr Er].
  destruct (moved_counter 5 i c p s s' _ _ _ Hc Hi Hm ltac:(lia) Hw E4) as [Mw Ew].
  assert (length (cpus s') = length (cpus s)) as El by by rewrite E1, length_insert.
  change (tally _ (cpus s')) with (tally online (cpus s')) in Er. change (tally _ (cpus s')) with (tally joined (cpus s')) in Ew.
  pose proof (online_bound s' Hc') as B. pose proof (joined_online s').
  assert (nr_ready s' ≤ Z.of_nat (length (cpus s)) ∧ waiting s' ≤ Z.of_nat (length (cpus s))) as [Br Bw].
  { rewrite Er, Ew. destruct (bsp_counted _), (bsp_joined _); cbn [Z.b2z]; lia. }
  split; rewrite ?E2, ?El; [done|done| | | | |].
  - intros j c' r w (c0 & Hj & ->)%(moved_lookup _ _ _ _ _ _ _ Hi Hm) E. case_decide; [specialize (Hrd r w E); lia|]. specialize (Ha j c0 r w Hj E). lia.
  - intros w E. specialize (Hb w E). lia.
  - intros E. specialize (Hd E). lia.
  - intros j c' r (c0 & Hj & ->)%(moved_lookup _ _ _ _ _ _ _ Hi Hm) E. case_decide; [specialize (Hsc r E); lia|]. specialize (Hs j c0 r Hj E). lia.
  - intros E. specialize (Hbs E). lia.
Qed.

(** ** Stacks *)

(** Is the AP that the BSP is at allowed to have [smp_ap_stack]? *)
Definition lent (p : bsp_pc) (i : nat) : Prop :=
  match p with BCheck1 k | BSipi2 k | BCheck2 k | BDrop k => i = k | _ => False end.

Definition stack_set (p : bsp_pc) : bool :=
  match p with BClear _ | BInit _ | BSipi1 _ | BCheck1 _ | BSipi2 _ | BCheck2 _ | BDrop _ => true | _ => false end.

(** The stack of an AP that has not been given up. *)
Definition owns (s : smp) (i : nat) (r : Z) : Prop := ∃ c, cpus s !! i = Some c ∧ gone c = false ∧ rsp_of (pc c) = Some r.

Record stacks (s : smp) : Prop := {
  sk_pool : NoDup (0 :: pool s);
  sk_next : match bsp s with BWaitAll | BJoin | BWaiting | BRead _ | BSched => True | _ => ap_stack s ∉ pool s end;
  sk_set : stack_set (bsp s) = true → ap_stack s ≠ 0;
  sk_own i r : owns s i r → r ≠ 0 ∧ r ∉ pool s ∧ (r = ap_stack s → lent (bsp s) i);
  sk_lent i r : owns s i r → lent (bsp s) i → r = ap_stack s;
  sk_excl i j r : owns s i r → owns s j r → i = j
}.

Lemma stacks_initial s : initial s → stacks s.
Proof.
  intros [Hb Hc _ Hs _ _ Hp]. rewrite Forall_lookup in Hc.
  assert (∀ i r, ¬ owns s i r) as Ho. { intros i r (c & Hi & _ & E). destruct (Hc i c Hi) as [_ E']. by rewrite E' in E. }
  split; [done|rewrite Hb, Hs; by apply NoDup_cons in Hp as [? _]|by rewrite Hb|..].
  - by intros i r []%Ho.
  - by intros i r []%Ho.
  - by intros i j r []%Ho.
Qed.

(** A step of the BSP gives nobody a stack. *)
Lemma stacks_bsp s s' :
  stacks s → (∀ i r, owns s' i r → owns s i r) → NoDup (0 :: pool s') →
  (match bsp s' with BWaitAll | BJoin | BWaiting | BRead _ | BSched => True | _ => ap_stack s' ∉ pool s' end) →
  (stack_set (bsp s') = true → ap_stack s' ≠ 0) →
  (∀ i r, owns s' i r → r ∉ pool s → (r = ap_stack s → lent (bsp s) i) → r ∉ pool s' ∧ (r = ap_stack s' → r ≠ 0 → lent (bsp s') i)) →
  (∀ i r, owns s' i r → lent (bsp s') i → (lent (bsp s) i → r = ap_stack s) → r = ap_stack s') → stacks s'.
Proof.
  intros [Hp Hn Hset Ho Hle Hex] Hown Hp' Hn' Hset' Ho' Hle'. split; [done|done|done| | |].
  - intros i r Hr. destruct (Ho i r (Hown i r Hr)) as (H1 & H2 & H3). destruct (Ho' i r Hr H2 H3) as [H4 H5]. auto.
  - intros i r Hr Hl. apply (Hle' i r Hr Hl). intros Hl'. apply (Hle i r); [by apply Hown|done].
  - intros i j r Hi Hj. eapply Hex; by apply Hown.
Qed.

Lemma owns_alter s s' f i :
  cpus s' = alter f i (cpus s) → (∀ c r, gone (f c) = false → rsp_of (pc (f c)) = Some r → gone c = false ∧ rsp_of (pc c) = Some r) →
  ∀ j r, owns s' j r → owns s j r.
Proof.
  intros Ec Hf j r (c' & Hj & Hg & Hr). rewrite Ec in Hj. apply lookup_alter_cpu in Hj as (c & Hj & ->). exists c. split; [done|].
  case_decide; [by apply Hf|done].
Qed.

Lemma owns_same s s' : cpus s' = cpus s → ∀ j r, owns s' j r → owns s j r.
Proof. intros Ec j r. unfold owns. by rewrite Ec. Qed.

Lemma owns_start_up s s' i : cpus s' = alter ipi_start_up i (cpus s) → ∀ j r, owns s' j r → owns s j r.
Proof.
  intros Ec. apply (owns_alter s _ ipi_start_up i); [done|]. intros c r. unfold ipi_start_up. destruct (pc c) eqn:Ep; by cbn; rewrite ?Ep.
Qed.

Lemma rsp_stage p r : rsp_of p = Some r → (3 ≤ stage p)%nat.
Proof. destruct p; cbn; intros; (done || lia). Qed.

Ltac stacks_case s Eb := apply (stacks_bsp s); smp_simpl; rewrite ?Eb; cbn in *; try done; try (by eapply owns_same); try (by intros; auto).

Lemma stacks_init s s' : control s → stacks s → smp_init s = Some s' → stacks s'.
Proof.
  intros Hc Hk E. pose proof Hk as [Hp Hn Hset Ho Hle Hex]. unfold smp_init in E. destruct (bsp s) eqn:Eb; cbn [smp_boot_ap] in E; try done.
  - injection E as <-. stacks_case s Eb. 
  - destruct (i <? length (cpus s))%nat; [|injection E as <-; by stacks_case s Eb].
    destruct (Z.eqb_spec (ap_stack s) 0) as [E0|E0]; [|injection E as <-; by stacks_case s Eb].
    destruct (pool s) as [|top rest] eqn:Ep; [done|]. injection E as <-. stacks_case s Eb.
    + apply NoDup_cons in Hp as [[_ Hp0]%not_elem_of_cons [_ Hp]%NoDup_cons]. by apply NoDup_cons.
    + by apply NoDup_cons in Hp as [_ [? _]%NoDup_cons].
    + intros _ ->. apply NoDup_cons in Hp as [[Hp0 _]%not_elem_of_cons _]. done.
    + intros j r _ Hr _. rewrite Ep in Hr. by apply not_elem_of_cons in Hr as [Hr1 Hr2].
  - injection E as <-. by stacks_case s Eb.
  - injection E as <-. stacks_case s Eb. apply (owns_alter s _ ipi_init i); [done|by cbn].
  - injection E as <-. stacks_case s Eb. + by apply (owns_start_up s _ i).
    + intros j r (c' & Hj & Hg & Hr) -> _. apply lookup_alter_cpu in Hj as (c & Hj & ->). rewrite decide_True in Hg, Hr by done.
      rewrite start_up_gone in Hg. pose proof (co_live s Hc i c Hj Hg) as Hl. apply rsp_stage in Hr. rewrite start_up_stage in Hr. rewrite Eb in Hl. range_solve.
  - injection E as <-. by destruct (started_flag s =? 0); stacks_case s Eb.
  - injection E as <-. stacks_case s Eb. by apply (owns_start_up s _ i).
  - destruct (started_flag s =? 0); injection E as <-; stacks_case s Eb.
    + apply (owns_alter s _ cpu_unstarted i); [done|by cbn].
    + intros j r (c' & Hj & Hg & _) Hp' Hl. split; [done|]. intros Er _. specialize (Hl Er). subst j.
      apply lookup_alter_cpu in Hj as (c & _ & ->). by rewrite decide_True in Hg by done.
  - injection E as <-. stacks_case s Eb. by apply NoDup_cons in Hp as [? _].
  - injection E as <-. by stacks_case s Eb.
  - injection E as <-. destruct (Z.eqb_spec (ap_stack s) 0); stacks_case s Eb.
    + apply NoDup_cons in Hp as [Hp0 Hp]. apply NoDup_cons. split; [by apply not_elem_of_cons|]. by apply NoDup_cons.
    + intros j r _ Hr Hl. split; [|by intros Er; destruct (Hl Er)]. apply not_elem_of_cons. split; [|done]. intros Er. by destruct (Hl Er).
  - injection E as <-. by destruct (nr_ready s <? _); stacks_case s Eb.
Qed.

Lemma stacks_sched cf s s' : stacks s → sched_run_bsp cf s = Some s' → stacks s'.
Proof.
  intros Hk E. pose proof Hk as [Hp Hn Hset Ho Hle Hex]. unfold sched_run_bsp in E. destruct (bsp s) eqn:Eb; try done; injection E as <-.
  - by stacks_case s Eb.
  - by stacks_case s Eb.
  - unfold still_waiting. destruct (if cf then _ else _); by stacks_case s Eb.
Qed.

Lemma booting_lent s i c : control s → cpus s !! i = Some c → gone c = false → (2 ≤ stage (pc c) < 4)%nat →
  lent (bsp s) i ∧ stack_set (bsp s) = true ∧ trampoline s = true.
Proof.
  intros Hc Hi Hg Hst. pose proof (co_live s Hc i c Hi Hg) as Hr. pose proof (co_mapped s Hc) as Hm. unfold range in Hr.
  destruct (bsp s); cbn in *; repeat case_decide; cbn in *; try lia; (split_and!; [lia|done|by apply Hm]).
Qed.

Lemma owns_moved i c p s s' j r :
  cpus s !! i = Some c → gone c = false → ap_moved i c p s s' → owns s' j r → owns s j r ∨ j = i ∧ stage (pc c) = 2%nat ∧ r = ap_stack s.
Proof.
  intros Hi Hg Hm (c' & (c0 & Hj & ->)%(moved_lookup _ _ _ _ _ _ _ Hi Hm) & Hg' & Hr). destruct (decide (i = j)) as [<-|]; [|left; by exists c0].
  assert (c0 = c) as -> by congruence. cbn in Hr. rewrite (mv_rsp _ _ _ _ _ Hm) in Hr. case_decide; [right; split_and!; congruence|]. left. by exists c.
Qed.

Lemma stacks_ap i c p s s' : control s → stacks s → cpus s !! i = Some c → gone c = false → ap_moved i c p s s' → stacks s'.
Proof.
  intros Hc [Hp Hn Hset Ho Hle Hex] Hi Hg Hm. pose proof Hm as [_ E1 _ E2 E3 _ _ _ _ _ _].
  assert (stage (pc c) = 2%nat → lent (bsp s) i ∧ ap_stack s ≠ 0 ∧ ap_stack s ∉ pool s) as Hnew.
  { intros H2. destruct (booting_lent s i c Hc Hi Hg ltac:(lia)) as (Hl & Hs & _). split_and!; [done|by apply Hset|].
    by destruct (bsp s). }
  split; rewrite ?E1, ?E2, ?E3; [done|done|done| | |].
  - intros j r [Hj|(-> & H2 & ->)]%(owns_moved i c p s s' j r Hi Hg Hm); [by apply Ho|]. destruct (Hnew H2) as (? & ? & ?). by split_and!.
  - intros j r [Hj|(-> & H2 & ->)]%(owns_moved i c p s s' j r Hi Hg Hm); [by apply (Hle j)|done].
  - assert (∀ k r, owns s k r → r = ap_stack s → stage (pc c) = 2%nat → k = i) as Hone.
    { intros k r Hk Er H2. destruct (Hnew H2) as (Hl & _). destruct (Ho k r Hk) as (_ & _ & Hlk). specialize (Hlk Er). by destruct (bsp s); cbn in *; subst. }
    intros j k r Hj Hk. destruct (owns_moved i c p s s' j r Hi Hg Hm Hj) as [Hj'|(-> & H2 & Er)], (owns_moved i c p s s' k r Hi Hg Hm Hk) as [Hk'|(-> & H2' & Er')].
    + by eapply Hex.
    + by eapply Hone.
    + symmetry. by eapply Hone.
    + done.
Qed.

(** ** The properties *)

Lemma smp_invariant s : reachable false false s → control s ∧ counts s ∧ stacks s.
Proof.
  intros (s0 & H0 & Hs). assert (control s0 ∧ counts s0 ∧ stacks s0) as Hinv.
  { split_and!; [by apply control_initial|by apply counts_initial|by apply stacks_initial]. }
  clear H0. induction Hs as [s|s1 s2 s3 Hst _ IH]; [done|]. apply IH. clear IH. destruct Hinv as (Hc & Hn & Hk).
  destruct Hst as [s' E|s' E|i c s' Hi Hg E].
  - split_and!; [by eapply control_init|by eapply counts_init|by eapply stacks_init].
  - split_and!; [by eapply control_sched|by eapply counts_sched|by eapply stacks_sched].
  - destruct Hg as [Hg|]; [|done].
    assert (∀ r w, pc c = ARead r w → still_waiting false w s1 = false → waiting s1 = Z.of_nat (length (cpus s1))) as Hb.
    { intros r w Ep Hw. eapply barrier_value; [done|done| |by eapply (cn_read s1 Hn)|done].
      by destruct (running_counted s1 i c Hc Hi ltac:(rewrite Ep; cbn; lia)). }
    destruct (ap_moves _ _ _ _ _ E) as (p & Hm & Hrd & Hsc). pose proof (control_ap _ _ _ _ _ Hc Hi Hg Hm) as Hc'.
    split_and!; [done| |by apply (stacks_ap i c p s1)]. apply (counts_ap i c p s1); [done..| |].
    + intros r w Ep. by rewrite (Hrd r w Ep).
    + intros r Ep. destruct (Hsc r Ep) as (w & Ew & Hw). by eapply Hb.
Qed.

(** C24: While the other processors are started, however their steps and those
    of the boot processor interleave, no two of them run on the same stack,
    and the stack of none is free for the page allocator to give out again.
    One that still runs the trampoline in low memory finds it mapped.  An AP
    the boot processor has given up is taken to stay off. *)
Theorem smp_boot_safe s :
  reachable false false s →
  (∀ i j r, owns s i r → owns s j r → i = j) ∧ (∀ i r, owns s i r → r ≠ 0 ∧ r ∉ pool s) ∧
  (∀ i c, cpus s !! i = Some c → gone c = false → pc c = ATrampoline → trampoline s = true).
Proof.
  intros (Hc & _ & Hk)%smp_invariant. split_and!.
  - intros i j r. apply (sk_excl s Hk).
  - intros i r Ho. by destruct (sk_own s Hk i r Ho) as (? & ? & _).
  - intros i c Hi Hg Ep. by apply (booting_lent s i c Hc Hi Hg); rewrite Ep; cbn; lia.
Qed.

(** C25: The barrier of wait_for_schedulers: no CPU gets to its scheduler
    before every CPU of the list has got to the barrier.  This is the case
    when the compiler reads the number of waiting CPUs before the number of
    CPUs that are ready, an order that C leaves open (with the other one the
    barrier fails, barrier_needs_read_order), and when an AP that the boot
    processor has given up stays off. *)
Theorem wait_for_schedulers_barrier s :
  reachable false false s → (bsp s = BSched ∨ ∃ j c r, cpus s !! j = Some c ∧ pc c = ASched r) →
  bsp_joined (bsp s) = true ∧ ∀ j c, cpus s !! j = Some c → (0 < j)%nat → joined c = true ∧ gone c = false.
Proof.
  intros (Hc & Hn & _)%smp_invariant Hs.
  assert (waiting s = Z.of_nat (length (cpus s))) as Ew by (destruct Hs as [Hs|(j & c & r & Hj & Ep)]; [by apply cn_bsp_sched|by eapply cn_sched]).
  pose proof (cn_waiting s Hn) as Hw. rewrite Ew in Hw. pose proof (online_bound s Hc). pose proof (joined_online s). split.
  - destruct (bsp_joined (bsp s)); [done|]. cbn in Hw. lia.
  - intros j c Hj Hj0. assert (joined c = true) as Hjn.
    { destruct (Nat.leb_spec 6 (stage (pc c))) as [|Hlt]; [by apply Nat.leb_le|].
      pose proof (tally_room s 6 j c Hc Hj Hj0 Hlt) as Hroom. change (λ c, (6 <=? stage (pc c))%nat) with joined in Hroom. destruct (bsp_joined _); cbn in Hw; lia. }
    split; [done|]. destruct (gone c) eqn:Hg; [|done]. destruct (co_gone s Hc j c Hj Hg) as (_ & _ & Hlt). unfold joined in Hjn. apply Nat.leb_le in Hjn. lia.
Qed.

(** A CPU that does not start stops the boot: once the boot processor has
    given one up, smp_init waits for it for ever, in every execution. *)
Theorem smp_init_waits_for_ever s i c :
  reachable false false s → cpus s !! i = Some c → gone c = true → bsp_done (bsp s) = false.
Proof.
  intros (Hc & Hn & _)%smp_invariant Hi Hg. destruct (bsp_done (bsp s)) eqn:Ed; [|done]. exfalso.
  destruct (co_gone s Hc i c Hi Hg) as (_ & Hi0 & Hst). pose proof (tally_room s 5 i c Hc Hi Hi0 ltac:(lia)) as Hroom.
  pose proof (cn_done s Hn Ed) as Hd. rewrite (cn_ready s Hn) in Hd. change (λ c, (5 <=? stage (pc c))%nat) with online in Hroom. destruct (bsp_counted _); cbn in Hd; lia.
Qed.

Module SmpDemo.
(** A machine with three processors, and its stacks. *)
Definition ap : cpu := mk_cpu 1 false AOff.
Definition s0 : smp := mk_smp BCount [ap; ap; ap] 0 0 0 0 false [0x5000; 0x9000; 0xD000].

Lemma initial_s0 : initial s0.
Proof.
  split; try done; [by repeat constructor|].
  by apply (bool_decide_eq_true_1 (NoDup [0; 0x5000; 0x9000; 0xD000])).
Qed.

Definition B : option nat := None.
(** The BSP starts AP 1 and AP 2, which take their stacks in time. *)
Definition both : list (option nat) :=
  [B; B; B; B; B; Some 1; Some 1; B; B; B; B; B; B; Some 2; Some 2; B; B]%nat.
(** Both come online, all three join and AP 1 leaves the barrier. *)
Definition all : list (option nat) :=
  (both ++ [Some 1; Some 1; Some 2; Some 2; B; B; B; B; B; Some 1; Some 1])%nat.
(** AP 1 does not answer. *)
Definition lost : list (option nat) := [B; B; B; B; B; B; B; B].
(** AP 1 answers while AP 2 is started. *)
Definition belated : list (option nat) := (lost ++ [B; B; B; B; Some 1; Some 2])%nat.
(** AP 1 reads the number of CPUs before AP 2 is counted. *)
Definition early : list (option nat) :=
  [B; B; B; B; B; Some 1; Some 1; B; B; Some 1; Some 1; Some 1; B; B; B; B; Some 2; Some 2; Some 2; Some 2; Some 1]%nat.

Definition after (late cf : bool) (l : list (option nat)) : smp := default s0 (run late cf l s0).

Lemma after_reachable late cf l : (match run late cf l s0 with Some _ => true | None => false end) = true → reachable late cf (after late cf l).
Proof.
  unfold after. destruct (run late cf l s0) as [s|] eqn:E; [|done]. intros _. exists s0. split; [exact initial_s0|by eapply run_steps].
Qed.

Ltac ran := apply after_reachable; vm_compute; reflexivity.
Lemma both_ran : reachable false false (after false false both).
Proof. ran. Qed.
Lemma both_owns : owns (after false false both) 1 0x5000 ∧ owns (after false false both) 2 0x9000.
Proof. split; eexists; (split; [vm_compute; reflexivity|done]). Qed.
Lemma all_ran : reachable false false (after false false all).
Proof. ran. Qed.
Lemma all_sched : ∃ c, cpus (after false false all) !! 1%nat = Some c ∧ pc c = ASched 0x5000.
Proof. eexists. split; [vm_compute; reflexivity|done]. Qed.
Lemma lost_ran : reachable false false (after false false lost).
Proof. ran. Qed.
Lemma lost_gone : ∃ c, cpus (after false false lost) !! 1%nat = Some c ∧ gone c = true.
Proof. eexists. split; [vm_compute; reflexivity|done]. Qed.
Lemma belated_ran : reachable true false (after true false belated).
Proof. ran. Qed.
Lemma early_ran : reachable false true (after false true early).
Proof. ran. Qed.
End SmpDemo.

Lemma smp_boot_safe_witness :
  let s := SmpDemo.after false false SmpDemo.both in
  owns s 1 0x5000 ∧ owns s 2 0x9000 ∧ 0x5000 ∉ pool s ∧ ∀ i j r, owns s i r → owns s j r → i = j.
Proof.
  destruct SmpDemo.both_owns as [H1 H2]. destruct (smp_boot_safe _ SmpDemo.both_ran) as (Hex & Hpool & _).
  split; [exact H1|]. split; [exact H2|]. split; [exact (proj2 (Hpool 1%nat _ H1))|exact Hex].
Defined.

Lemma wait_for_schedulers_barrier_witness :
  let s := SmpDemo.after false false SmpDemo.all in
  (∃ c, cpus s !! 1%nat = Some c ∧ pc c = ASched 0x5000) ∧ bsp_joined (bsp s) = true ∧
  ∀ j c, cpus s !! j = Some c → (0 < j)%nat → joined c = true ∧ gone c = false.
Proof.
  split; [exact SmpDemo.all_sched|]. apply (wait_for_schedulers_barrier _ SmpDemo.all_ran). right.
  destruct SmpDemo.all_sched as (c & Hc & Ec). exists 1%nat, c, 0x5000. exact (conj Hc Ec).
Defined.

Lemma smp_init_waits_for_ever_witness :
  let s := SmpDemo.after false false SmpDemo.lost in (∃ c, cpus s !! 1%nat = Some c ∧ gone c = true) ∧ bsp_done (bsp s) = false.
Proof.
  split; [exact SmpDemo.lost_gone|]. destruct SmpDemo.lost_gone as (c & Hc & Hg). exact (smp_init_waits_for_ever _ 1 c SmpDemo.lost_ran Hc Hg).
Defined.

(** An AP that answers after it has been given up runs on the stack of the
    next one. *)
Theorem late_ap_shares_stack :
  ∃ s c1 c2 r, reachable true false s ∧ cpus s !! 1%nat = Some c1 ∧ cpus s !! 2%nat = Some c2 ∧ rsp_of (pc c1) = Some r ∧ rsp_of (pc c2) = Some r.
Proof.
  eexists (SmpDemo.after true false SmpDemo.belated), _, _, 0x5000. split; [exact SmpDemo.belated_ran|].
  split; [vm_compute; reflexivity|]. split; [vm_compute; reflexivity|done].
Qed.

(** The barrier depends on the order in which the two operands of the
    comparison are read: with the number of CPUs first, an AP runs its
    scheduler while the boot processor still starts others. *)
Theorem barrier_needs_read_order :
  ∃ s c r, reachable false true s ∧ cpus s !! 1%nat = Some c ∧ pc c = ASched r ∧ bsp_done (bsp s) = false.
Proof.
  eexists (SmpDemo.after false true SmpDemo.early), _, 0x5000. split; [exact SmpDemo.early_ran|].
  split; [vm_compute; reflexivity|]. split; vm_compute; reflexivity.
Qed.
