(* ===== verification/Apic.v ===== *)
(** * Interrupt controllers

    kernel/drivers/apic/apic.c (the MADT) and ioapic.c, with the formats of
    include/drivers/acpi.h and the limits of include/drivers/apic.h.  The
    lists of I/O APICs, overrides and NMIs hold addresses of MADT entries,
    whose fields are read from memory each time.  An I/O APIC is the device
    behind its two memory-mapped registers: the first selects one of its
    internal registers, the other accesses it.  [vmm_map_page] is recorded;
    the messages to the console are left out. *)

From stdpp Require Import base list gmap fin_maps.
From Stdlib Require Import ZArith Lia Bool.
From S2P Require Import Prelude Addr Strings Cpuset Interrupts Acpi.
Local Open Scope Z_scope.

Definition MAX_LAPICS : Z := MAX_CORES.
Definition MAX_IOAPICS : Z := 16.
Definition MAX_NMIS : Z := 2 * MAX_LAPICS.
Definition MAX_OVERRIDES : Z := 48.

Definition MADT_LAPIC : Z := 0.
Definition MADT_IOAPIC : Z := 1.
Definition MADT_OVERRIDE : Z := 2.
Definition MADT_NMI : Z := 4.
Definition MADT_LAPIC_ADDR : Z := 5.

Record lapic_info := mk_lapic { l_id : Z; l_acpi_id : Z; l_present : bool }.

(** An I/O APIC: the selected register and the register contents. *)
Record ioapic := mk_ioapic { io_sel : Z; io_reg : gmap Z Z }.

(** The lists have as many elements as their [_list_size] says. *)
Record apic_st := mk_apic_st {
  pmem : bmem;
  lapic_list : list lapic_info;
  ioapic_list : list Z;
  override_list : list Z;
  nmi_list : list Z;
  lapic_base : Z;
  mapped : list Z;
  devices : gmap Z ioapic;
  ioapic_lock : Z
}.

Definition upd_lapics v s := mk_apic_st (pmem s) v (ioapic_list s) (override_list s) (nmi_list s) (lapic_base s) (mapped s) (devices s) (ioapic_lock s).
Definition upd_ioapics v s := mk_apic_st (pmem s) (lapic_list s) v (override_list s) (nmi_list s) (lapic_base s) (mapped s) (devices s) (ioapic_lock s).
Definition upd_overrides v s := mk_apic_st (pmem s) (lapic_list s) (ioapic_list s) v (nmi_list s) (lapic_base s) (mapped s) (devices s) (ioapic_lock s).
Definition upd_nmis v s := mk_apic_st (pmem s) (lapic_list s) (ioapic_list s) (override_list s) v (lapic_base s) (mapped s) (devices s) (ioapic_lock s).
Definition upd_lapic_base v s := mk_apic_st (pmem s) (lapic_list s) (ioapic_list s) (override_list s) (nmi_list s) v (mapped s) (devices s) (ioapic_lock s).
Definition upd_mapped v s := mk_apic_st (pmem s) (lapic_list s) (ioapic_list s) (override_list s) (nmi_list s) (lapic_base s) v (devices s) (ioapic_lock s).
Definition upd_devices f s := mk_apic_st (pmem s) (lapic_list s) (ioapic_list s) (override_list s) (nmi_list s) (lapic_base s) (mapped s) (f (devices s)) (ioapic_lock s).
Definition upd_ioapic_lock v s := mk_apic_st (pmem s) (lapic_list s) (ioapic_list s) (override_list s) (nmi_list s) (lapic_base s) (mapped s) (devices s) v.

Abbreviation AP := (M apic_st).

(** A read of memory, which does not change it. *)
Definition rd {A} (m : B A) : AP A := λ s,
  match m (pmem s) with
  | Ok (x, _) => Ok (x, s)
  | Panic => Panic
  | Fault => Fault
  | Diverge => Diverge
  end.

(** ** The MADT *)

(** Fields of the entries. *)
Definition e_type (hd : Z) : B Z := ld hd.
Definition e_length (hd : Z) : B Z := ld (hd + 1).
Definition lapic_acpi_id (e : Z) : B Z := ld (e + 2).
Definition lapic_apic_id (e : Z) : B Z := ld (e + 3).
Definition lapic_flags (e : Z) : B Z := ld32 (e + 4).
Definition ioapic_phys_addr (e : Z) : B Z := ld32 (e + 4).
Definition ioapic_gsi_base (e : Z) : B Z := ld32 (e + 8).
Definition override_source (e : Z) : B Z := ld (e + 3).
Definition override_gsi (e : Z) : B Z := ld32 (e + 4).
Definition override_flags (e : Z) : B Z := ld16 (e + 8).
Definition lapic_addr_addr (e : Z) : B Z := ld64 (e + 4).

(** [vmm_map_page(&kernel_mmu, phys, ...)] of a device page. *)
Definition map_device (phys : Z) : AP unit := s ← get; put (upd_mapped (mapped s ++ [phys]) s).

Definition add_lapic (entry : Z) : AP unit :=
  s ← get;
  if Z.of_nat (length (lapic_list s)) >=? MAX_LAPICS then mret tt
  else
    flags ← rd (lapic_flags entry);
    id ← rd (lapic_apic_id entry);
    acpi ← rd (lapic_acpi_id entry);
    put (upd_lapics (lapic_list s ++ [mk_lapic id acpi (negb (flags =? 0))]) s).

Definition add_ioapic (entry : Z) : AP unit :=
  s ← get;
  if Z.of_nat (length (ioapic_list s)) >=? MAX_IOAPICS then mret tt
  else
    phys ← rd (ioapic_phys_addr entry);
    map_device phys;;
    s ← get; put (upd_ioapics (ioapic_list s ++ [entry]) s).

Definition add_override (entry : Z) : AP unit :=
  s ← get;
  if Z.of_nat (length (override_list s)) >=? MAX_OVERRIDES then mret tt
  else put (upd_overrides (override_list s ++ [entry]) s).

Definition add_nmi (entry : Z) : AP unit :=
  s ← get;
  if Z.of_nat (length (nmi_list s)) >=? MAX_NMIS then mret tt
  else put (upd_nmis (nmi_list s ++ [entry]) s).

(** One entry; the local APIC base found so far is passed along. *)
Definition madt_entry (hd base : Z) : AP Z :=
  t ← rd (e_type hd);
  if t =? MADT_LAPIC then add_lapic hd;; mret base
  else if t =? MADT_IOAPIC then add_ioapic hd;; mret base
  else if t =? MADT_OVERRIDE then add_override hd;; mret base
  else if t =? MADT_NMI then add_nmi hd;; mret base
  else if t =? MADT_LAPIC_ADDR then a ← rd (lapic_addr_addr hd); mret (phys_to_virt a)
  else mret base.

Definition madt_round (end_ : Z) (c : Z * Z) : AP (Z * Z + Z) :=
  let '(hd, base) := c in
  if hd <? end_ then
    base ← madt_entry hd base;
    len ← rd (e_length hd);
    mret (inl (u64 (hd + len), base))
  else mret (inr base).

(** Entries are not empty, so there are no more of them than bytes. *)
Definition parse_madt (madt : Z) : AP unit :=
  addr ← rd (ld32 (madt + SIZEOF_HEADER));
  len ← rd (hd_length madt);
  base ← loop (S (Z.to_nat len)) (madt_round (u64 (madt + len))) (madt + 44, phys_to_virt addr);
  modify (upd_lapic_base base);;
  map_device (virt_to_phys base).

Definition apic_init (acpi_rsdp apic_sig : Z) : AP unit :=
  madt ← rd (acpi_find_table acpi_rsdp apic_sig);
  if madt =? NULL then panic else parse_madt madt.

(** ** The I/O APIC *)

Definition APIC_REG_ID : Z := 0.
Definition APIC_REG_VER : Z := 1.
Definition APIC_REG_REDTBL : Z := 16.
Definition APIC_IRQ_MASK : Z := 0x10000.

Definition select (reg : Z) (d : ioapic) : ioapic := mk_ioapic (Z.land reg 0xFF) (io_reg d).

Definition ioapic_read (base reg : Z) : AP Z :=
  store devices upd_devices base (select (u8 reg));;
  d ← deref devices base; mret (default 0 (io_reg d !! io_sel d)).

Definition ioapic_write (base reg data : Z) : AP unit :=
  store devices upd_devices base (select (u8 reg));;
  store devices upd_devices base (λ d, mk_ioapic (io_sel d) (<[io_sel d := u32 data]> (io_reg d))).

Definition nth_ptr (l : list Z) (i : nat) : AP Z := match l !! i with Some p => mret p | None => fault end.

Definition get_max_redirs (ioapic_id : nat) : AP Z :=
  s ← get; e ← nth_ptr (ioapic_list s) ioapic_id;
  phys ← rd (ioapic_phys_addr e);
  v ← ioapic_read (phys_to_virt phys) APIC_REG_VER;
  mret (Z.shiftr (Z.land v 0xFF0000) 16).

Fixpoint gsi_scan (rounds : nat) (i : nat) (gsi : Z) : AP Z :=
  match rounds with
  | O => panic
  | S rounds =>
      max_redirs ← get_max_redirs i;
      s ← get; e ← nth_ptr (ioapic_list s) i;
      base ← rd (ioapic_gsi_base e);
      if (base <=? gsi) && (gsi <? u32 (base + max_redirs)) then mret e
      else gsi_scan rounds (S i) gsi
  end.

Definition gsi_to_ioapic (gsi : Z) : AP Z := s ← get; gsi_scan (length (ioapic_list s)) 0 gsi.

Definition ioapic_redtbl_read (base irq_line : Z) : AP Z :=
  let ioredtbl := irq_line * 2 + APIC_REG_REDTBL in
  lo ← ioapic_read base ioredtbl;
  hi ← ioapic_read base (ioredtbl + 1);
  mret (Z.lor lo (Z.shiftl hi 32)).

Definition ioapic_redtbl_write (base irq_line value : Z) : AP unit :=
  let ioredtbl := irq_line * 2 + APIC_REG_REDTBL in
  ioapic_write base (ioredtbl + 0) (u32 value);;
  ioapic_write base (ioredtbl + 1) (u32 (Z.shiftr value 32)).

Definition redirection_entry (gsi flags target_apic_id : Z) : Z :=
  let r := u32 (gsi + IRQ_APIC_BASE) in
  let r := if negb (Z.land flags 2 =? 0) then Z.lor r (Z.shiftl 1 13) else r in
  let r := if negb (Z.land flags 8 =? 0) then Z.lor r (Z.shiftl 1 15) else r in
  Z.lor r (Z.shiftl target_apic_id 56).

Definition ioapic_redirect (gsi source flags target_apic : Z) : AP unit :=
  s ← get;
  match lapic_list s !! Z.to_nat target_apic with
  | None => fault
  | Some l =>
      e ← gsi_to_ioapic gsi;
      phys ← rd (ioapic_phys_addr e);
      base ← rd (ioapic_gsi_base e);
      ioapic_redtbl_write (phys_to_virt phys) (u8 (gsi - base)) (redirection_entry gsi flags (l_id l))
  end.

(** On one CPU, waiting for the lock while it is held does not end. *)
Definition lock_ioapic : AP unit :=
  s ← get; if ioapic_lock s =? 0 then modify (upd_ioapic_lock 1) else diverge.
Definition unlock_ioapic : AP unit := modify (upd_ioapic_lock 0).

(** The part [ioapic_mask] and [ioapic_unmask] share. *)
Definition ioapic_change (gsi : Z) (f : Z → Z) : AP unit :=
  lock_ioapic;;
  e ← gsi_to_ioapic gsi;
  phys ← rd (ioapic_phys_addr e);
  base ← rd (ioapic_gsi_base e);
  let irq_line := u8 (gsi - base) in
  prev ← ioapic_redtbl_read (phys_to_virt phys) irq_line;
  ioapic_redtbl_write (phys_to_virt phys) irq_line (f prev);;
  unlock_ioapic.

Definition ioapic_mask (gsi : Z) : AP unit := ioapic_change gsi (λ prev, Z.lor prev APIC_IRQ_MASK).
Definition ioapic_unmask (gsi : Z) : AP unit := ioapic_change gsi (λ prev, Z.land prev (u64 (Z.lnot APIC_IRQ_MASK))).

Section Isa.
Context {BC : BuildConfig}.

Fixpoint isa_scan (l : list Z) (isa : Z) : B Z :=
  match l with
  | [] => mret isa
  | e :: l => s ← override_source e; if s =? isa then g ← override_gsi e; mret (u8 g) else isa_scan l isa
  end.

Definition ioapic_isa_to_gsi (isa : Z) : AP Z :=
  kassert_dbg (isa <? 16);; s ← get; rd (isa_scan (override_list s) isa).

Fixpoint gsi_find (l : list Z) (gsi : Z) : B Z :=
  match l with
  | [] => mret gsi
  | e :: l => g ← override_gsi e; if g =? gsi then override_source e else gsi_find l gsi
  end.

Definition ioapic_gsi_to_isa (gsi : Z) : AP Z := s ← get; rd (gsi_find (override_list s) gsi).
End Isa.

(** The sixteen lines of the legacy controller, then the overrides. *)
Fixpoint init_legacy (rounds : nat) (i : Z) : AP unit :=
  match rounds with
  | O => mret tt
  | S rounds => ioapic_redirect i i 0 0;; ioapic_mask i;; init_legacy rounds (i + 1)
  end.

Fixpoint init_overrides (l : list Z) : AP unit :=
  match l with
  | [] => mret tt
  | e :: l =>
      g ← rd (override_gsi e); src ← rd (override_source e); fl ← rd (override_flags e);
      ioapic_redirect g src fl 0;;
      ioapic_mask g;;
      init_overrides l
  end.

Definition ioapic_init : AP unit := init_legacy 16 0;; s ← get; init_overrides (override_list s).
