(* ===== verification/ApicSpec.v ===== *)
(** * Interrupt controllers: specification

    The MADT as a list of entries with its encoding in bytes, which
    [parse_madt] reads back; the redirection entries [ioapic_redirect],
    [ioapic_mask] and [ioapic_unmask] leave in the device; the translation
    between ISA lines and global interrupts. *)

From stdpp Require Import base list gmap fin_maps.
From Stdlib Require Import ZArith Lia Bool.
From S2P Require Import Prelude Addr Strings Cpuset Interrupts Acpi AcpiSpec Apic.
Local Open Scope Z_scope.

(** ** The table *)

(** [n] bytes of a number, the least significant first. *)
Fixpoint le_bytes (n : nat) (v : Z) : list Z :=
  match n with O => [] | S n => v mod 256 :: le_bytes n (v / 256) end.

Lemma length_le_bytes n v : length (le_bytes n v) = n.
Proof. revert v. induction n as [|n IH]; intros v; simpl; [done|]. by rewrite IH. Qed.

Lemma le_le_bytes n v : 0 ≤ v < 256 ^ Z.of_nat n → le (le_bytes n v) = v.
Proof.
  revert v. induction n as [|n IH]; intros v Hv; [simpl in *; lia|].
  rewrite Nat2Z.inj_succ, Z.pow_succ_r in Hv by lia. simpl. rewrite IH.
  - pose proof (Z.div_mod v 256 ltac:(lia)). lia.
  - split; [apply Z.div_pos; lia|]. apply Z.div_lt_upper_bound; lia.
Qed.

Inductive entry :=
| ELapic (acpi apic flags : Z)
| EIoapic (apic phys gsi_base : Z)
| EOverride (bus source gsi flags : Z)
| ENmi (acpi flags lint : Z)
| EAddr (addr : Z)
| EOther (type : Z) (body : list Z).

Definition encode (e : entry) : list Z :=
  match e with
  | ELapic acpi apic flags => [MADT_LAPIC; 8; acpi; apic] ++ le_bytes 4 flags
  | EIoapic apic phys gsi => [MADT_IOAPIC; 12; apic; 0] ++ le_bytes 4 phys ++ le_bytes 4 gsi
  | EOverride bus source gsi flags => [MADT_OVERRIDE; 10; bus; source] ++ le_bytes 4 gsi ++ le_bytes 2 flags
  | ENmi acpi flags lint => [MADT_NMI; 6; acpi] ++ le_bytes 2 flags ++ [lint]
  | EAddr addr => [MADT_LAPIC_ADDR; 12; 0; 0] ++ le_bytes 8 addr
  | EOther type body => type :: Z.of_nat (2 + length body) :: body
  end.

Definition entry_ok (e : entry) : Prop :=
  match e with
  | ELapic _ _ flags => in_u 32 flags
  | EIoapic _ phys gsi => in_u 32 phys ∧ in_u 32 gsi
  | EOverride _ _ gsi flags => in_u 32 gsi ∧ in_u 16 flags
  | ENmi _ flags _ => in_u 16 flags
  | EAddr addr => in_u 64 addr
  | EOther type _ => type ∉ [MADT_LAPIC; MADT_IOAPIC; MADT_OVERRIDE; MADT_NMI; MADT_LAPIC_ADDR]
  end.

(** The entries with their addresses. *)
Fixpoint laid_out (a : Z) (es : list entry) : list (Z * entry) :=
  match es with [] => [] | e :: es => (a, e) :: laid_out (a + Z.of_nat (length (encode e))) es end.

Definition lapic_of (x : Z * entry) : option lapic_info :=
  match x.2 with ELapic acpi apic flags => Some (mk_lapic apic acpi (negb (flags =? 0))) | _ => None end.
Definition ioapic_of (x : Z * entry) : option Z := match x.2 with EIoapic _ _ _ => Some x.1 | _ => None end.
Definition override_of (x : Z * entry) : option Z := match x.2 with EOverride _ _ _ _ => Some x.1 | _ => None end.
Definition nmi_of (x : Z * entry) : option Z := match x.2 with ENmi _ _ _ => Some x.1 | _ => None end.
(** The last address entry wins. *)
Definition base_of (addr : Z) (l : list (Z * entry)) : Z :=
  foldl (λ b x, match x.2 with EAddr a => phys_to_virt a | _ => b end) (phys_to_virt addr) l.

(** The state after the entries [l]: each list holds the first entries of its
    kind, as many as it has room for. *)
Record parsed (s0 s : apic_st) (l : list (Z * entry)) : Prop := {
  pa_mem : pmem s = pmem s0;
  pa_devices : devices s = devices s0;
  pa_lock : ioapic_lock s = ioapic_lock s0;
  pa_lapics : lapic_list s = take (Z.to_nat MAX_LAPICS) (omap lapic_of l);
  pa_ioapics : ioapic_list s = take (Z.to_nat MAX_IOAPICS) (omap ioapic_of l);
  pa_overrides : override_list s = take (Z.to_nat MAX_OVERRIDES) (omap override_of l);
  pa_nmis : nmi_list s = take (Z.to_nat MAX_NMIS) (omap nmi_of l)
}.

Lemma take_full {A} n (l : list A) x : (n ≤ length (take n l))%nat → take n (l ++ [x]) = take n l.
Proof. rewrite length_take. intros Hn. apply take_app_le. lia. Qed.

Lemma take_room {A} n (l : list A) x : (length (take n l) < n)%nat → take n (l ++ [x]) = take n l ++ [x].
Proof.
  rewrite length_take. intros Hn. rewrite (take_ge l) by lia. rewrite take_ge; [done|]. rewrite length_app. simpl. lia.
Qed.

Lemma wp_rd_mem {A} (m : B A) s (Q : A → apic_st → Prop) : wp m (pmem s) (λ x _, Q x s) → wp (rd m) s Q.
Proof. unfold wp, rd. by destruct (m (pmem s)) as [[x ?]| | |]. Qed.

(** A byte of an encoded entry. *)
Lemma bytes_at m a l i x : bytes m a l → l !! i = Some x → m !! (a + Z.of_nat i) = Some x.
Proof. intros Hb Hi. by apply Hb. Qed.

Lemma wp_ld_at m a l (i : nat) x (Q : Z → bmem → Prop) :
  bytes m a l → l !! i = Some x → Q x m → wp (ld (a + Z.of_nat i)) m Q.
Proof. intros Hb Hi HQ. apply (wp_ld _ x); [by eapply bytes_at|done]. Qed.

Lemma wp_ld32_at m a l1 v l2 (Q : Z → bmem → Prop) :
  bytes m a (l1 ++ le_bytes 4 v ++ l2) → in_u 32 v → Q v m → wp (ld32 (a + Z.of_nat (length l1))) m Q.
Proof.
  intros [_ [Hb _]%bytes_app]%bytes_app Hv HQ. apply (wp_ld32 m _ (le_bytes 4 v)); [done|by rewrite length_le_bytes|].
  rewrite le_le_bytes; [done|]. exact Hv.
Qed.

Lemma wp_ld64_at m a l1 v l2 (Q : Z → bmem → Prop) :
  bytes m a (l1 ++ le_bytes 8 v ++ l2) → in_u 64 v → Q v m → wp (ld64 (a + Z.of_nat (length l1))) m Q.
Proof.
  intros [_ [Hb _]%bytes_app]%bytes_app Hv HQ. apply (wp_ld64 m _ (le_bytes 8 v)); [done|by rewrite length_le_bytes|].
  rewrite le_le_bytes; [done|]. exact Hv.
Qed.

(** ** Parsing *)

Lemma omap_snoc {A C} (f : A → option C) l x : omap f (l ++ [x]) = omap f l ++ match f x with Some y => [y] | None => [] end.
Proof. rewrite omap_app. simpl. by destruct (f x). Qed.

Lemma parsed_none s0 s l x :
  parsed s0 s l → lapic_of x = None → ioapic_of x = None → override_of x = None → nmi_of x = None → parsed s0 s (l ++ [x]).
Proof.
  intros [] H1 H2 H3 H4. split; [done..|rewrite omap_snoc| rewrite omap_snoc|rewrite omap_snoc|rewrite omap_snoc];
    rewrite ?H1, ?H2, ?H3, ?H4, app_nil_r; done.
Qed.

Section Parse.
Implicit Types s : apic_st.

Lemma wp_add_lapic s0 s l a acpi apic flags (Q : unit → apic_st → Prop) :
  parsed s0 s l → bytes (pmem s0) a (encode (ELapic acpi apic flags)) → in_u 32 flags →
  (∀ s', parsed s0 s' (l ++ [(a, ELapic acpi apic flags)]) → Q tt s') → wp (add_lapic a) s Q.
Proof.
  intros [Hm Hd Hk Hla Hio Hov Hnm] Hb Hf HQ. unfold add_lapic. apply wp_bind, wp_get.
  destruct (Z.geb_spec (Z.of_nat (length (lapic_list s))) MAX_LAPICS) as [Hfull|Hroom].
  - apply wp_ret. apply HQ. split; [done|done|done| |..]; rewrite omap_snoc; simpl; rewrite ?app_nil_r; try done.
    rewrite take_full; [done|]. rewrite <-Hla. lia.
  - apply wp_bind, wp_rd_mem. rewrite Hm. apply (wp_ld32_at (pmem s0) a [MADT_LAPIC; 8; acpi; apic] flags []); [by rewrite app_nil_r|done|].
    apply wp_bind, wp_rd_mem. rewrite Hm. apply (wp_ld_at _ _ _ 3 apic _ Hb); [done|].
    apply wp_bind, wp_rd_mem. rewrite Hm. apply (wp_ld_at _ _ _ 2 acpi _ Hb); [done|]. apply wp_put. apply HQ.
    split; [done|done|done| |..]; rewrite omap_snoc; simpl; rewrite ?app_nil_r; try done.
    rewrite take_room; [by rewrite Hla|]. rewrite <-Hla. lia.
Qed.

Lemma wp_add_ioapic s0 s l a apic phys gsi (Q : unit → apic_st → Prop) :
  parsed s0 s l → bytes (pmem s0) a (encode (EIoapic apic phys gsi)) → in_u 32 phys →
  (∀ s', parsed s0 s' (l ++ [(a, EIoapic apic phys gsi)]) → Q tt s') → wp (add_ioapic a) s Q.
Proof.
  intros [Hm Hd Hk Hla Hio Hov Hnm] Hb Hf HQ. unfold add_ioapic. apply wp_bind, wp_get.
  destruct (Z.geb_spec (Z.of_nat (length (ioapic_list s))) MAX_IOAPICS) as [Hfull|Hroom].
  - apply wp_ret. apply HQ. split; [done|done|done|..]; rewrite omap_snoc; simpl; rewrite ?app_nil_r; try done.
    rewrite take_full; [done|]. rewrite <-Hio. lia.
  - apply wp_bind, wp_rd_mem. rewrite Hm. apply (wp_ld32_at (pmem s0) a [MADT_IOAPIC; 12; apic; 0] phys (le_bytes 4 gsi)); [done|done|].
    unfold map_device. apply wp_bind, wp_bind, wp_get, wp_put. apply wp_bind, wp_get, wp_put. apply HQ.
    split; [done|done|done|..]; rewrite omap_snoc; simpl; rewrite ?app_nil_r; try done.
    rewrite take_room; [by rewrite Hio|]. rewrite <-Hio. lia.
Qed.

Lemma wp_add_override s0 s l a bus src gsi flags (Q : unit → apic_st → Prop) :
  parsed s0 s l → (∀ s', parsed s0 s' (l ++ [(a, EOverride bus src gsi flags)]) → Q tt s') → wp (add_override a) s Q.
Proof.
  intros [Hm Hd Hk Hla Hio Hov Hnm] HQ. unfold add_override. apply wp_bind, wp_get.
  destruct (Z.geb_spec (Z.of_nat (length (override_list s))) MAX_OVERRIDES) as [Hfull|Hroom].
  - apply wp_ret. apply HQ. split; [done|done|done|..]; rewrite omap_snoc; simpl; rewrite ?app_nil_r; try done.
    rewrite take_full; [done|]. rewrite <-Hov. lia.
  - apply wp_put. apply HQ. split; [done|done|done|..]; rewrite omap_snoc; simpl; rewrite ?app_nil_r; try done.
    rewrite take_room; [by rewrite Hov|]. rewrite <-Hov. lia.
Qed.

Lemma wp_add_nmi s0 s l a acpi flags lint (Q : unit → apic_st → Prop) :
  parsed s0 s l → (∀ s', parsed s0 s' (l ++ [(a, ENmi acpi flags lint)]) → Q tt s') → wp (add_nmi a) s Q.
Proof.
  intros [Hm Hd Hk Hla Hio Hov Hnm] HQ. unfold add_nmi. apply wp_bind, wp_get.
  destruct (Z.geb_spec (Z.of_nat (length (nmi_list s))) MAX_NMIS) as [Hfull|Hroom].
  - apply wp_ret. apply HQ. split; [done|done|done|..]; rewrite omap_snoc; simpl; rewrite ?app_nil_r; try done.
    rewrite take_full; [done|]. rewrite <-Hnm. lia.
  - apply wp_put. apply HQ. split; [done|done|done|..]; rewrite omap_snoc; simpl; rewrite ?app_nil_r; try done.
    rewrite take_room; [by rewrite Hnm|]. rewrite <-Hnm. lia.
Qed.

Lemma wp_madt_entry s0 s addr l a e (Q : Z → apic_st → Prop) :
  parsed s0 s l → bytes (pmem s0) a (encode e) → entry_ok e →
  (∀ s', parsed s0 s' (l ++ [(a, e)]) → Q (base_of addr (l ++ [(a, e)])) s') → wp (madt_entry a (base_of addr l)) s Q.
Proof.
  intros Hp Hb He HQ. unfold base_of in HQ. rewrite foldl_app in HQ. unfold madt_entry. fold (base_of addr l) in HQ.
  pose proof (pa_mem _ _ _ Hp) as Hm. apply wp_bind, wp_rd_mem. unfold e_type. rewrite Hm. rewrite <-(Z.add_0_r a) at 1.
  destruct e as [acpi apic flags|apic phys gsi|bus src gsi flags|acpi flags lint|ad|ty body]; simpl in HQ.
  - eapply (wp_ld_at _ _ _ 0 _ _ Hb); [reflexivity|]. simpl. apply wp_bind. by eapply wp_add_lapic.
  - eapply (wp_ld_at _ _ _ 0 _ _ Hb); [reflexivity|]. simpl. destruct He. apply wp_bind. by eapply wp_add_ioapic.
  - eapply (wp_ld_at _ _ _ 0 _ _ Hb); [reflexivity|]. simpl. apply wp_bind. by eapply wp_add_override.
  - eapply (wp_ld_at _ _ _ 0 _ _ Hb); [reflexivity|]. simpl. apply wp_bind. by eapply wp_add_nmi.
  - eapply (wp_ld_at _ _ _ 0 _ _ Hb); [reflexivity|]. simpl. apply wp_bind, wp_rd_mem. rewrite Hm.
    apply (wp_ld64_at (pmem s0) a [MADT_LAPIC_ADDR; 12; 0; 0] ad []); [by rewrite app_nil_r|done|].
    apply wp_ret. apply HQ. by apply parsed_none.
  - eapply (wp_ld_at _ _ _ 0 _ _ Hb); [reflexivity|]. simpl in He. rewrite !not_elem_of_cons in He. destruct He as (? & ? & ? & ? & ? & _).
    do 5 (match goal with |- context [ty =? ?x] => destruct (Z.eqb_spec ty x); [done|] end).
    apply wp_ret. apply HQ. by apply parsed_none.
Qed.

Lemma wp_e_length m a e (Q : Z → bmem → Prop) :
  bytes m a (encode e) → Q (Z.of_nat (length (encode e))) m → wp (e_length a) m Q.
Proof.
  intros Hb HQ. unfold e_length. change 1 with (Z.of_nat 1). destruct e; (eapply (wp_ld_at _ _ _ 1 _ _ Hb); [reflexivity|]);
    simpl in HQ; rewrite ?length_app, ?length_le_bytes in HQ; simpl in HQ; rewrite ?length_app, ?length_le_bytes in HQ; simpl in HQ; exact HQ.
Qed.
End Parse.

Definition encoded (es : list entry) : list Z := concat (encode <$> es).
Arguments encoded : simpl never.

Lemma encoded_cons e es : encoded (e :: es) = encode e ++ encoded es.
Proof. done. Qed.

Lemma encoded_app d r : encoded (d ++ r) = encoded d ++ encoded r.
Proof. unfold encoded. by rewrite fmap_app, concat_app. Qed.

Lemma laid_out_app a d r :
  laid_out a (d ++ r) = laid_out a d ++ laid_out (a + Z.of_nat (length (encoded d))) r.
Proof.
  revert a. induction d as [|e d IH]; intros a; simpl; [by rewrite Z.add_0_r|]. f_equal. rewrite IH. f_equal. f_equal.
  rewrite encoded_cons, length_app. lia.
Qed.

Lemma encode_nonempty e : (2 ≤ length (encode e))%nat.
Proof. destruct e; simpl; rewrite ?length_app, ?length_le_bytes; simpl; lia. Qed.

Lemma entries_bytes es : (length es ≤ length (encoded es))%nat.
Proof. induction es as [|e es IH]; [simpl; lia|]. rewrite encoded_cons, length_app. simpl length. pose proof (encode_nonempty e). lia. Qed.

(** C37: parse_madt reads back a table of any entries: it returns, each list
    has the first entries of its kind in order, as many as there is room
    for, and the local APIC base is that of the last address entry, or the
    one in the table's header when there is none. *)
Theorem parse_madt_roundtrip s madt addr len es :
  lapic_list s = [] → ioapic_list s = [] → override_list s = [] → nmi_list s = [] →
  Forall entry_ok es → in_u 32 addr → in_u 32 len → len = 44 + Z.of_nat (length (encoded es)) →
  0 ≤ madt → madt + len < 2 ^ 64 →
  bytes (pmem s) (madt + 4) (le_bytes 4 len) → bytes (pmem s) (madt + 36) (le_bytes 4 addr) →
  bytes (pmem s) (madt + 44) (encoded es) →
  wp (parse_madt madt) s (λ _ s',
    parsed s s' (laid_out (madt + 44) es) ∧ lapic_base s' = base_of addr (laid_out (madt + 44) es)).
Proof.
  intros H1 H2 H3 H4 Hok Hadr Hlen Elen Hm0 Hm64 Hbl Hba Hbe. unfold parse_madt. unfold SIZEOF_HEADER.
  apply wp_bind, wp_rd_mem, (wp_ld32 _ _ (le_bytes 4 addr)); [done|by rewrite length_le_bytes|]. rewrite le_le_bytes by exact Hadr.
  apply wp_bind, wp_rd_mem. unfold hd_length. apply (wp_ld32 _ _ (le_bytes 4 len)); [done|by rewrite length_le_bytes|].
  rewrite le_le_bytes by exact Hlen. rewrite uwrap_id by (unfold in_u in *; lia). apply wp_bind.
  apply (wp_loop (λ n '(hd, base) s', ∃ d r, es = d ++ r ∧ n = length r ∧ hd = madt + 44 + Z.of_nat (length (encoded d)) ∧
    base = base_of addr (laid_out (madt + 44) d) ∧ parsed s s' (laid_out (madt + 44) d))) with (n := length es).
  - intros n [hd base] s' (d & r & E & -> & -> & -> & Hp). unfold madt_round.
    assert (length (encoded es) = length (encoded d) + length (encoded r))%nat as El.
    { by rewrite E, encoded_app, length_app. }
    destruct r as [|e r].
    { destruct (Z.ltb_spec (madt + 44 + Z.of_nat (length (encoded d))) (madt + len)) as [Hlt|_]; [change (length (encoded [])) with O in El; lia|].
      apply wp_ret. rewrite app_nil_r in E. subst d. unfold map_device. apply wp_bind, wp_modify, wp_bind, wp_get, wp_put.
      split; [|done]. by destruct Hp. }
    rewrite encoded_cons, length_app in El. pose proof (encode_nonempty e).
    destruct (Z.ltb_spec (madt + 44 + Z.of_nat (length (encoded d))) (madt + len)) as [_|Hge]; [|lia].
    assert (bytes (pmem s) (madt + 44 + Z.of_nat (length (encoded d))) (encode e)) as Hbe'.
    { rewrite E, encoded_app, encoded_cons in Hbe. apply bytes_app in Hbe as [_ Hbe]. by apply bytes_app in Hbe as [? _]. }
    apply wp_bind. eapply wp_madt_entry; [exact Hp|done| |].
    { rewrite E in Hok. by apply Forall_app in Hok as [_ [? _]%Forall_cons]. }
    intros s2 Hp2. apply wp_bind, wp_rd_mem. rewrite (pa_mem _ _ _ Hp2). eapply wp_e_length; [exact Hbe'|]. apply wp_ret.
    exists (length r). split; [simpl; lia|]. exists (d ++ [e]), r. rewrite <-(assoc_L (++)), laid_out_app, encoded_app, encoded_cons, length_app. change (encoded []) with (@nil Z).
    rewrite app_nil_r. simpl laid_out. split_and!; [done|done| |done|done]. rewrite uwrap_id by (unfold in_u in *; lia). lia.
  - exists [], es. change (encoded []) with (@nil Z). rewrite Z.add_0_r. by split_and!.
  - pose proof (entries_bytes es). unfold in_u in *. lia.
Qed.

(** An entry of length zero keeps the parser in place: it never returns. *)
Theorem madt_zero_length_stuck s hd end_ base n t :
  pmem s !! hd = Some t → t ∉ [MADT_LAPIC; MADT_IOAPIC; MADT_OVERRIDE; MADT_NMI; MADT_LAPIC_ADDR] →
  pmem s !! (hd + 1) = Some 0 → 0 ≤ hd → hd < end_ → end_ < 2 ^ 64 →
  loop n (madt_round end_) (hd, base) s = Diverge.
Proof.
  intros Ht Hty Hl H0 Hlt H64. induction n as [|n IH]; [done|]. cbn [loop].
  assert (madt_round end_ (hd, base) s = Ok (inl (hd, base), s)) as E.
  { rewrite !not_elem_of_cons in Hty. destruct Hty as (? & ? & ? & ? & ? & _). unfold madt_round.
    destruct (Z.ltb_spec hd end_); [|lia]. unfold madt_entry, e_type, e_length, rd, ld, mbind, M_bind. rewrite Ht.
    do 5 (match goal with |- context [t =? ?x] => destruct (Z.eqb_spec t x); [done|] end).
    simpl. rewrite Hl, Z.add_0_r, uwrap_id by (unfold in_u; lia). done. }
  unfold mbind, M_bind. by rewrite E.
Qed.

(** ** The redirection table *)

(** The entry of a line, in two registers. *)
Definition redir (regs : gmap Z Z) (line : Z) : Z :=
  Z.lor (default 0 (regs !! (line * 2 + 16))) (Z.shiftl (default 0 (regs !! (line * 2 + 17))) 32).

Definition set_redir (line v : Z) (regs : gmap Z Z) : gmap Z Z :=
  <[line * 2 + 17 := u32 (Z.shiftr v 32)]> (<[line * 2 + 16 := u32 v]> regs).

Lemma redir_set_eq regs line v : in_u 64 v → redir (set_redir line v regs) line = v.
Proof.
  intros Hv. unfold redir, set_redir. rewrite (lookup_insert_ne _ (line * 2 + 17)), !lookup_insert_eq by lia.
  by apply u64_halves.
Qed.

Lemma redir_set_ne regs line v l : l ≠ line → redir (set_redir line v regs) l = redir regs l.
Proof. intros Hl. unfold redir, set_redir. rewrite !lookup_insert_ne by lia. done. Qed.

(** States that differ in the selected registers only. *)
Definition same_regs (s s' : apic_st) : Prop :=
  ∃ sel, s' = upd_devices sel s ∧ (∀ b, io_reg <$> sel (devices s) !! b = io_reg <$> devices s !! b).

(** An I/O APIC of the list: its entry, its address, its first interrupt. *)
Record known := mk_known { k_entry : Z; k_phys : Z; k_gsi : Z }.

Definition known_ok (s : apic_st) (k : known) (regs : gmap Z Z) : Prop :=
  bytes (pmem s) (k_entry k + 4) (le_bytes 4 (k_phys k)) ∧ bytes (pmem s) (k_entry k + 8) (le_bytes 4 (k_gsi k)) ∧
  in_u 32 (k_phys k) ∧ in_u 32 (k_gsi k) ∧ phys_to_virt (k_phys k) ≠ 0 ∧
  io_reg <$> devices s !! phys_to_virt (k_phys k) = Some regs.

(** The number of the last line, from the version register. *)
Definition max_line (regs : gmap Z Z) : Z := Z.shiftr (Z.land (default 0 (regs !! 1)) 0xFF0000) 16.
Definition serves (k : known) (regs : gmap Z Z) (gsi : Z) : Prop := k_gsi k ≤ gsi < u32 (k_gsi k + max_line regs).

Section Ioapic.
Implicit Types s : apic_st.

Lemma same_regs_refl s : same_regs s s.
Proof. exists (λ m, m). split; [by destruct s|done]. Qed.

Lemma same_regs_trans s1 s2 s3 : same_regs s1 s2 → same_regs s2 s3 → same_regs s1 s3.
Proof.
  intros (f & -> & Hf) (g & -> & Hg). exists (λ m, g (f m)). split; [done|]. intros b. rewrite Hg. apply Hf.
Qed.

Lemma same_regs_known s s' k regs : same_regs s s' → known_ok s k regs → known_ok s' k regs.
Proof.
  intros (f & -> & Hf) (H1 & H2 & H3 & H4 & H5 & H6). split_and!; [done..|]. simpl. by rewrite Hf.
Qed.

Lemma wp_ioapic_read s base reg regs (Q : Z → apic_st → Prop) :
  base ≠ 0 → io_reg <$> devices s !! base = Some regs → 0 ≤ reg < 256 →
  (∀ s', same_regs s s' → Q (default 0 (regs !! reg)) s') → wp (ioapic_read base reg) s Q.
Proof.
  intros Hb0 Hd Hreg HQ. apply fmap_Some in Hd as (d & Hd & ->). unfold ioapic_read.
  rewrite (uwrap_id 8 reg) by exact Hreg. apply wp_bind, (wp_store _ _ _ _ d); [done..|].
  apply wp_bind, (wp_deref _ _ (select reg d)); [apply lookup_insert_eq|done|]. apply wp_ret. simpl.
  change 0xFF with (Z.ones 8). rewrite Z.land_ones, Z.mod_small by lia. apply HQ. eexists. split; [done|].
  intros b. destruct (decide (base = b)) as [<-|]; [by rewrite lookup_insert_eq, Hd|by rewrite lookup_insert_ne].
Qed.

(** The state with the registers of one device replaced. *)
Definition wrote (s : apic_st) (base : Z) (regs : gmap Z Z) (s' : apic_st) : Prop :=
  ∃ f, s' = upd_devices f s ∧ io_reg <$> f (devices s) !! base = Some regs ∧
    ∀ b, b ≠ base → io_reg <$> f (devices s) !! b = io_reg <$> devices s !! b.

Lemma regs_wrote_trans s1 s2 s3 base r1 r2 : wrote s1 base r1 s2 → wrote s2 base r2 s3 → wrote s1 base r2 s3.
Proof.
  intros (f & -> & _ & Hf) (g & -> & Hg & Hg'). exists (λ m, g (f m)). split_and!; [done|done|]. intros b Hb. rewrite Hg' by done. by apply Hf.
Qed.

Lemma same_regs_wrote s1 s2 s3 base r : same_regs s1 s2 → wrote s2 base r s3 → wrote s1 base r s3.
Proof.
  intros (f & -> & Hf) (g & -> & Hg & Hg'). exists (λ m, g (f m)). split_and!; [done|done|]. intros b Hb. rewrite Hg' by done. by apply Hf.
Qed.

Lemma wp_ioapic_write s base reg data regs (Q : unit → apic_st → Prop) :
  base ≠ 0 → io_reg <$> devices s !! base = Some regs → 0 ≤ reg < 256 →
  (∀ s', wrote s base (<[reg := u32 data]> regs) s' → Q tt s') → wp (ioapic_write base reg data) s Q.
Proof.
  intros Hb0 Hd Hreg HQ. apply fmap_Some in Hd as (d & Hd & ->). unfold ioapic_write.
  rewrite (uwrap_id 8 reg) by exact Hreg. apply wp_bind, (wp_store _ _ _ _ d); [done..|].
  apply (wp_store _ _ _ _ (select reg d)); [apply lookup_insert_eq|done|]. apply HQ.
  eexists (λ m, <[base := _]> (<[base := _]> m)). split_and!; [reflexivity| |].
  - rewrite lookup_insert_eq. simpl. change 0xFF with (Z.ones 8). by rewrite Z.land_ones, Z.mod_small by lia.
  - intros b Hb. by rewrite !lookup_insert_ne.
Qed.

Lemma wp_redtbl_read s base line regs (Q : Z → apic_st → Prop) :
  base ≠ 0 → io_reg <$> devices s !! base = Some regs → 0 ≤ line < 120 →
  (∀ s', same_regs s s' → Q (redir regs line) s') → wp (ioapic_redtbl_read base line) s Q.
Proof.
  intros Hb0 Hd Hl HQ. unfold ioapic_redtbl_read, APIC_REG_REDTBL. apply wp_bind.
  apply (wp_ioapic_read s base (line * 2 + 16) regs); [done|done|lia|]. intros s1 R1.
  apply wp_bind. replace (line * 2 + 16 + 1) with (line * 2 + 17) by lia.
  apply (wp_ioapic_read s1 base (line * 2 + 17) regs); [done| |lia|].
  { destruct R1 as (f & -> & Hf). simpl. by rewrite Hf. }
  intros s2 R2. apply wp_ret. apply HQ. by eapply same_regs_trans.
Qed.

Lemma wp_redtbl_write s base line v regs (Q : unit → apic_st → Prop) :
  base ≠ 0 → io_reg <$> devices s !! base = Some regs → 0 ≤ line < 120 →
  (∀ s', wrote s base (set_redir line v regs) s' → Q tt s') → wp (ioapic_redtbl_write base line v) s Q.
Proof.
  intros Hb0 Hd Hl HQ. unfold ioapic_redtbl_write, APIC_REG_REDTBL. apply wp_bind. rewrite Z.add_0_r.
  assert (∀ x, u32 (u32 x) = u32 x) as Hu by (intros x; unfold uwrap; by rewrite Zmod_mod).
  apply (wp_ioapic_write s base (line * 2 + 16) _ regs); [done|done|lia|]. intros s1 W1.
  replace (line * 2 + 16 + 1) with (line * 2 + 17) by lia.
  eapply (wp_ioapic_write s1 base (line * 2 + 17)); [done| |lia|].
  { destruct W1 as (f & -> & Hf & _). simpl. exact Hf. }
  intros s2 W2. apply HQ. rewrite !Hu in *. by eapply regs_wrote_trans.
Qed.

(** The search returns the first I/O APIC whose range has the interrupt. *)
Lemma wp_gsi_scan s ks k rs done_ rest gsi (Q : Z → apic_st → Prop) :
  Forall2 (known_ok s) ks rs → ioapic_list s = k_entry <$> ks → ks = done_ ++ rest →
  (∃ pre post regs, rest = pre ++ k :: post ∧ rs !! (length done_ + length pre)%nat = Some regs ∧ serves k regs gsi ∧
     ∀ i k' regs', pre !! i = Some k' → rs !! (length done_ + i)%nat = Some regs' → ¬ serves k' regs' gsi) →
  (∀ s', same_regs s s' → Q (k_entry k) s') → wp (gsi_scan (length rest) (length done_) gsi) s Q.
Proof.
  revert s done_. induction rest as [|k0 rest IH]; intros s done_ Hk Hl E (pre & post & regs & Er & Hrs & Hsv & Hno) HQ; [by destruct pre|].
  assert (ks !! length done_ = Some k0) as Hk0 by (rewrite E; by apply list_lookup_middle).
  destruct (Forall2_lookup_l _ _ _ _ _ Hk Hk0) as (regs0 & Hr0 & Hok0). pose proof Hok0 as (Hb1 & Hb2 & Hp & Hg & Hv & Hd).
  assert (∀ s, ioapic_list s = k_entry <$> ks → ioapic_list s !! length done_ = Some (k_entry k0)) as Hnth.
  { intros s' ->. by rewrite list_lookup_fmap, Hk0. }
  simpl. apply wp_bind. unfold get_max_redirs. apply wp_bind, wp_get. unfold nth_ptr at 1. rewrite (Hnth s Hl).
  apply wp_bind, wp_ret. apply wp_bind, wp_rd_mem. unfold ioapic_phys_addr.
  apply (wp_ld32 _ _ (le_bytes 4 (k_phys k0))); [done|by rewrite length_le_bytes|]. rewrite le_le_bytes by exact Hp.
  apply wp_bind, (wp_ioapic_read s _ APIC_REG_VER regs0); [done|done|done|]. intros s1 R1. apply wp_ret.
  pose proof R1 as (f & Es1 & _). apply wp_bind, wp_get. unfold nth_ptr at 1. rewrite Hnth by (by subst s1).
  apply wp_bind, wp_ret. apply wp_bind, wp_rd_mem. unfold ioapic_gsi_base.
  apply (wp_ld32 _ _ (le_bytes 4 (k_gsi k0))); [by subst s1|by rewrite length_le_bytes|]. rewrite le_le_bytes by exact Hg.
  change (Z.shiftr (Z.land (default 0 (regs0 !! APIC_REG_VER)) 0xFF0000) 16) with (max_line regs0).
  destruct pre as [|k1 pre]; simpl in Er; injection Er as E0 Er.
  - subst k0. simpl in Hrs. rewrite Nat.add_0_r, Hr0 in Hrs. injection Hrs as <-. destruct Hsv as [Hs1 Hs2].
    rewrite (proj2 (Z.leb_le _ _) Hs1), (proj2 (Z.ltb_lt _ _) Hs2). simpl. apply wp_ret. by apply HQ.
  - subst k1. assert ((k_gsi k0 <=? gsi) && (gsi <? u32 (k_gsi k0 + max_line regs0)) = false) as ->.
    { apply not_true_is_false. rewrite andb_true_iff, Z.leb_le, Z.ltb_lt. intros Hc.
      eapply (Hno 0%nat); [done|by rewrite Nat.add_0_r|done]. }
    replace (S (length done_)) with (length (done_ ++ [k0])) by (rewrite length_app; simpl; lia).
    apply IH; [|by subst s1|by rewrite <-(assoc_L (++))| |].
    + eapply Forall2_impl; [exact Hk|]. intros k' r' ?. by eapply same_regs_known.
    + exists pre, post, regs. rewrite length_app. simpl. split_and!; [done| |done|].
      * rewrite <-Hrs. f_equal. simpl. lia.
      * intros i k' r' Hi Hr'. eapply (Hno (S i)); [done|]. rewrite <-Hr'. f_equal. lia.
    + intros s' R'. apply HQ. by eapply same_regs_trans.
Qed.

(** The list of I/O APICs with the registers of each, and the first of them
    that serves the interrupt, at a line whose registers have 8-bit numbers. *)
Inductive served (s : apic_st) (gsi : Z) (k : known) (regs : gmap Z Z) : Prop :=
| Served (ks : list known) (rs : list (gmap Z Z)) (n : nat) :
    ioapic_list s = k_entry <$> ks → Forall2 (known_ok s) ks rs →
    ks !! n = Some k → rs !! n = Some regs → serves k regs gsi →
    (∀ i k' regs', (i < n)%nat → ks !! i = Some k' → rs !! i = Some regs' → ¬ serves k' regs' gsi) →
    gsi - k_gsi k < 120 → served s gsi k regs.

Lemma served_known s gsi k regs : served s gsi k regs → known_ok s k regs.
Proof. intros [ks rs n E Hk Hn Hr _ _ _]. by eapply Forall2_lookup_lr. Qed.

Lemma served_line s gsi k regs : served s gsi k regs → u8 (gsi - k_gsi k) = gsi - k_gsi k ∧ 0 ≤ gsi - k_gsi k < 120.
Proof. intros [? ? ? ? ? ? ? [? _] ? ?]. split; [|lia]. apply uwrap_id. unfold in_u. lia. Qed.

Lemma wp_gsi_to_ioapic s gsi k regs (Q : Z → apic_st → Prop) :
  served s gsi k regs → (∀ s', same_regs s s' → Q (k_entry k) s') → wp (gsi_to_ioapic gsi) s Q.
Proof.
  intros [ks rs n E Hk Hn Hr Hs Hf _] HQ. unfold gsi_to_ioapic. apply wp_bind, wp_get. rewrite E, length_fmap.
  apply (wp_gsi_scan s ks k rs [] ks); [done..| |done]. pose proof (lookup_lt_Some _ _ _ Hn) as Hlt.
  exists (take n ks), (drop (S n) ks), regs. rewrite length_take, Nat.min_l by lia.
  split_and!; [by rewrite take_drop_middle|done|done|]. intros i k' r' Hi Hr'. apply lookup_take_Some in Hi as [? ?]. by eapply (Hf i).
Qed.

(** Finding the device and the line of an interrupt. *)
Lemma wp_locate s gsi k regs {A} (f : Z → Z → AP A) (Q : A → apic_st → Prop) :
  served s gsi k regs →
  (∀ s', same_regs s s' → wp (f (phys_to_virt (k_phys k)) (gsi - k_gsi k)) s' Q) →
  wp (e ← gsi_to_ioapic gsi; phys ← rd (ioapic_phys_addr e); base ← rd (ioapic_gsi_base e); f (phys_to_virt phys) (u8 (gsi - base))) s Q.
Proof.
  intros Hsv HQ. apply wp_bind, (wp_gsi_to_ioapic _ _ k regs); [done|]. intros s1 R1. specialize (HQ _ R1).
  destruct (served_line _ _ _ _ Hsv) as [El _]. destruct (served_known _ _ _ _ Hsv) as (Hb1 & Hb2 & Hp & Hg & _).
  destruct R1 as (g & -> & _). apply wp_bind, wp_rd_mem. unfold ioapic_phys_addr.
  apply (wp_ld32 _ _ (le_bytes 4 (k_phys k))); [done|by rewrite length_le_bytes|]. rewrite le_le_bytes by exact Hp.
  apply wp_bind, wp_rd_mem. unfold ioapic_gsi_base.
  apply (wp_ld32 _ _ (le_bytes 4 (k_gsi k))); [done|by rewrite length_le_bytes|]. rewrite le_le_bytes by exact Hg. by rewrite El.
Qed.

Lemma served_lock s gsi k regs v : served s gsi k regs → served (upd_ioapic_lock v s) gsi k regs.
Proof. intros [ks rs n E Hk Hn Hr Hs Hf Hl]. by apply (Served _ _ _ _ ks rs n). Qed.

Lemma wrote_lock s base regs s' :
  ioapic_lock s = 0 → wrote (upd_ioapic_lock 1 s) base regs s' → wrote s base regs (upd_ioapic_lock 0 s').
Proof.
  intros Hl (f & -> & H1 & H2). exists f. split_and!; [|done|done]. destruct s. simpl in *. by subst.
Qed.

Lemma wp_ioapic_change s gsi k regs f :
  served s gsi k regs → ioapic_lock s = 0 →
  wp (ioapic_change gsi f) s (λ _, wrote s (phys_to_virt (k_phys k)) (set_redir (gsi - k_gsi k) (f (redir regs (gsi - k_gsi k))) regs)).
Proof.
  intros Hsv Hl. destruct (served_line _ _ _ _ Hsv) as [_ Hline]. unfold ioapic_change, lock_ioapic. apply wp_bind, wp_bind, wp_get.
  rewrite Hl. simpl. apply wp_modify. set (s1 := upd_ioapic_lock 1 s).
  apply (wp_locate s1 gsi k regs (λ b l, prev ← ioapic_redtbl_read b l; ioapic_redtbl_write b l (f prev);; unlock_ioapic)).
  { by apply served_lock. }
  intros s2 R2. destruct (served_known _ _ _ _ Hsv) as (_ & _ & _ & _ & H0 & Hd).
  pose proof R2 as (g & Es2 & Hg). apply wp_bind, (wp_redtbl_read s2 _ _ regs); [done|by subst s2; simpl; rewrite Hg|done|].
  intros s3 R3. pose proof R3 as (g3 & Es3 & Hg3). apply wp_bind, (wp_redtbl_write s3 _ _ _ regs); [done| |done|].
  { subst s3. simpl. rewrite Hg3. subst s2. simpl. by rewrite Hg. }
  intros s4 W4. apply wp_modify. apply (wrote_lock _ _ _ _ Hl). fold s1. eapply same_regs_wrote; [exact R2|]. by eapply same_regs_wrote.
Qed.
End Ioapic.

Definition regs_ok (regs : gmap Z Z) : Prop := map_Forall (λ _ v, in_u 32 v) regs.

Lemma reg_in regs r : regs_ok regs → in_u 32 (default 0 (regs !! r)).
Proof. intros Hr. destruct (regs !! r) as [v|] eqn:E; [by apply (Hr r)|done]. Qed.

(** A number has 64 bits when the bits above are clear. *)
Lemma in_u64_bits v : (∀ i, 64 ≤ i → Z.testbit v i = false) → in_u 64 v.
Proof.
  intros Hv. unfold in_u. assert (v mod 2 ^ 64 = v) as <-; [|by apply Z.mod_pos_bound].
  apply Z.bits_inj'. intros i Hi. destruct (Z.lt_ge_cases i 64); [by rewrite Z.mod_pow2_bits_low by lia|].
  rewrite Z.mod_pow2_bits_high by lia. by rewrite Hv.
Qed.

Lemma bits_in_u w v i : 0 ≤ w ≤ i → in_u w v → Z.testbit v i = false.
Proof. intros Hi Hv. rewrite <-(Z.mod_small v (2 ^ w)) by exact Hv. by apply Z.mod_pow2_bits_high. Qed.

Lemma redir_in regs l : regs_ok regs → in_u 64 (redir regs l).
Proof.
  intros Hr. apply in_u64_bits. intros i Hi. unfold redir.
  rewrite Z.lor_spec, Z.shiftl_spec, !(bits_in_u 32) by (try lia; by apply reg_in). done.
Qed.

Lemma setbit_in v : in_u 64 v → in_u 64 (Z.setbit v 16).
Proof.
  intros Hv. apply in_u64_bits. intros i Hi. rewrite Z.setbit_eqb, (bits_in_u 64) by (try lia; done).
  by destruct (Z.eqb_spec 16 i); [lia|].
Qed.

Lemma clearbit_eq v : in_u 64 v → Z.land v (u64 (Z.lnot APIC_IRQ_MASK)) = Z.clearbit v 16.
Proof.
  intros Hv. apply Z.bits_inj'. intros i Hi. rewrite Z.land_spec, Z.clearbit_eqb by done. unfold uwrap.
  destruct (Z.lt_ge_cases i 64).
  - rewrite Z.mod_pow2_bits_low, Z.lnot_spec by lia. change APIC_IRQ_MASK with (2 ^ 16). by rewrite Z.pow2_bits_eqb by lia.
  - by rewrite (bits_in_u 64 v) by (try lia; done).
Qed.

Lemma clearbit_in v : in_u 64 v → in_u 64 (Z.clearbit v 16).
Proof. intros Hv. apply in_u64_bits. intros i Hi. by rewrite Z.clearbit_eqb, (bits_in_u 64) by (try lia; done). Qed.

(** [s'] is [s] but for the entry of one line of one device, which is [v]. *)
Definition line_set (s : apic_st) (k : known) (regs : gmap Z Z) (line v : Z) (s' : apic_st) : Prop :=
  ∃ regs', wrote s (phys_to_virt (k_phys k)) regs' s' ∧ redir regs' line = v ∧ ∀ l, l ≠ line → redir regs' l = redir regs l.

Lemma wrote_line s k regs line v s' :
  in_u 64 v → wrote s (phys_to_virt (k_phys k)) (set_redir line v regs) s' → line_set s k regs line v s'.
Proof. intros Hv Hw. eexists. split; [exact Hw|]. split; [by apply redir_set_eq|]. intros l Hl. by apply redir_set_ne. Qed.

Lemma wp_ioapic_unmask s gsi k regs :
  served s gsi k regs → regs_ok regs → ioapic_lock s = 0 →
  wp (ioapic_unmask gsi) s (λ _, line_set s k regs (gsi - k_gsi k) (Z.clearbit (redir regs (gsi - k_gsi k)) 16)).
Proof.
  intros Hsv Hr Hl. pose proof (redir_in regs (gsi - k_gsi k) Hr) as Hin.
  eapply wp_mono; [by apply (wp_ioapic_change s gsi k regs)|]. intros ? s' Hw.
  apply wrote_line; [by apply clearbit_in|]. rewrite <-(clearbit_eq _ Hin). exact Hw.
Qed.

(** ioapic_mask sets bit 16 of the redirection entry of the interrupt's
    line in the I/O APIC that serves it, and ioapic_unmask clears it.
    Neither changes another bit of the entry, another line, another device
    or anything else of the state, and the lock is free afterwards. *)
Theorem ioapic_mask_correct s gsi k regs :
  served s gsi k regs → regs_ok regs → ioapic_lock s = 0 →
  let line := gsi - k_gsi k in
  wp (ioapic_mask gsi) s (λ _, line_set s k regs line (Z.setbit (redir regs line) 16)) ∧
  wp (ioapic_unmask gsi) s (λ _, line_set s k regs line (Z.clearbit (redir regs line) 16)).
Proof.
  intros Hsv Hr Hl line. pose proof (redir_in regs line Hr) as Hin. split.
  - eapply wp_mono; [by apply (wp_ioapic_change s gsi k regs)|]. intros ? s' Hw.
    apply wrote_line; [by apply setbit_in|]. exact Hw.
  - by apply wp_ioapic_unmask.
Qed.

(** The bits of the entry [ioapic_redirect] writes. *)
Lemma redirection_entry_bits gsi flags id i :
  0 ≤ gsi → gsi + IRQ_APIC_BASE < 256 → 0 ≤ i →
  Z.testbit (redirection_entry gsi flags id) i =
    Z.testbit (gsi + IRQ_APIC_BASE) i || (i =? 13) && Z.testbit flags 1 || (i =? 15) && Z.testbit flags 3 || Z.testbit id (i - 56).
Proof.
  intros H0 Hg Hi. unfold redirection_entry. rewrite uwrap_id by (unfold in_u, IRQ_APIC_BASE in *; lia).
  pose proof (land_pow2_testbit flags 1 ltac:(lia)) as E1. pose proof (land_pow2_testbit flags 3 ltac:(lia)) as E3.
  change (2 ^ 1) with 2 in E1. change (2 ^ 3) with 8 in E3. rewrite E1, E3, Z.lor_spec, Z.shiftl_spec by lia. f_equal.
  assert (∀ n, 0 ≤ n → Z.testbit (Z.shiftl 1 n) i = (i =? n)) as Hb.
  { intros n Hn. rewrite Z.shiftl_1_l, Z.pow2_bits_eqb by done. apply Z.eqb_sym. }
  destruct (Z.testbit flags 1), (Z.testbit flags 3); rewrite ?Z.lor_spec, ?Hb, ?andb_true_r, ?andb_false_r, ?orb_false_r by lia; done.
Qed.

Record entry_fields (r gsi flags id : Z) : Prop := {
  ef_vector : Z.land r 255 = gsi + IRQ_APIC_BASE;
  ef_polarity : Z.testbit r 13 = Z.testbit flags 1;
  ef_trigger : Z.testbit r 15 = Z.testbit flags 3;
  ef_mask : Z.testbit r 16 = false;
  ef_target : Z.shiftr r 56 = id;
  ef_width : in_u 64 r
}.

Lemma redirection_entry_fields gsi flags id :
  0 ≤ gsi → gsi + IRQ_APIC_BASE < 256 → in_u 8 id → entry_fields (redirection_entry gsi flags id) gsi flags id.
Proof.
  intros H0 Hg Hid. assert (in_u 8 (gsi + IRQ_APIC_BASE)) as Hv by (unfold in_u, IRQ_APIC_BASE in *; lia).
  assert (∀ i, i < 56 → Z.testbit id (i - 56) = false) as Hlo by (intros; apply Z.testbit_neg_r; lia).
  split.
  - change 255 with (Z.ones 8). apply Z.bits_inj'. intros i Hi. rewrite Z.land_spec, redirection_entry_bits by done.
    destruct (Z.lt_ge_cases i 8).
    + rewrite Z.ones_spec_low, Hlo by lia. destruct (Z.eqb_spec i 13), (Z.eqb_spec i 15); try lia. by rewrite !orb_false_r, andb_true_r.
    + rewrite Z.ones_spec_high, (bits_in_u 8) by (try lia; done). by rewrite andb_false_r.
  - rewrite redirection_entry_bits, (bits_in_u 8), Hlo by (try lia; done). simpl. by rewrite !orb_false_r.
  - rewrite redirection_entry_bits, (bits_in_u 8), Hlo by (try lia; done). simpl. by rewrite !orb_false_r.
  - by rewrite redirection_entry_bits, (bits_in_u 8), Hlo by (try lia; done).
  - apply Z.bits_inj'. intros i Hi. rewrite Z.shiftr_spec, redirection_entry_bits, (bits_in_u 8) by (try lia; done).
    destruct (Z.eqb_spec (i + 56) 13), (Z.eqb_spec (i + 56) 15); try lia. simpl. f_equal. lia.
  - apply in_u64_bits. intros i Hi. rewrite redirection_entry_bits, (bits_in_u 8 (gsi + _)), (bits_in_u 8 id) by (try lia; done).
    destruct (Z.eqb_spec i 13), (Z.eqb_spec i 15); [lia..|done].
Qed.

(** Ioapic_redirect writes, for an interrupt whose vector has 8 bits, one
    redirection entry: the vector, the polarity and the trigger mode the
    flags ask for, unmasked, to the CPU of the given local APIC. Everything
    else stays as it was. *)
Theorem ioapic_redirect_correct s gsi source flags target l k regs :
  served s gsi k regs → lapic_list s !! Z.to_nat target = Some l → in_u 8 (l_id l) → 0 ≤ gsi → gsi + IRQ_APIC_BASE < 256 →
  wp (ioapic_redirect gsi source flags target) s (λ _ s', ∃ r,
    entry_fields r gsi flags (l_id l) ∧ line_set s k regs (gsi - k_gsi k) r s').
Proof.
  intros Hsv Hl Hid H0 Hg. destruct (served_line _ _ _ _ Hsv) as [_ Hline]. unfold ioapic_redirect. apply wp_bind, wp_get. rewrite Hl.
  apply (wp_locate s gsi k regs (λ b line, ioapic_redtbl_write b line (redirection_entry gsi flags (l_id l)))); [done|].
  intros s1 R1. destruct (served_known _ _ _ _ Hsv) as (_ & _ & _ & _ & Hn0 & Hd).
  pose proof (redirection_entry_fields gsi flags (l_id l) H0 Hg Hid) as Hf.
  apply (wp_redtbl_write s1 _ _ _ regs); [done| |done|].
  { destruct R1 as (f & -> & Hf'). simpl. by rewrite Hf'. }
  intros s2 W2. exists (redirection_entry gsi flags (l_id l)). split; [done|].
  apply wrote_line; [apply Hf|]. by eapply same_regs_wrote.
Qed.

(** ** ISA lines and global interrupts *)

(** The overrides in memory: where each is, its source and its interrupt. *)
Record override := mk_override { o_entry : Z; o_source : Z; o_gsi : Z }.

Definition override_ok (m : bmem) (o : override) : Prop :=
  m !! (o_entry o + 3) = Some (o_source o) ∧ bytes m (o_entry o + 4) (le_bytes 4 (o_gsi o)) ∧ in_u 8 (o_gsi o).

Definition to_gsi (os : list override) (isa : Z) : Z :=
  match list_find (λ o, o_source o = isa) os with Some (_, o) => o_gsi o | None => isa end.
Definition to_isa (os : list override) (gsi : Z) : Z :=
  match list_find (λ o, o_gsi o = gsi) os with Some (_, o) => o_source o | None => gsi end.

Lemma wp_override_gsi m o (Q : Z → bmem → Prop) : override_ok m o → Q (o_gsi o) m → wp (override_gsi (o_entry o)) m Q.
Proof.
  intros (_ & Hb & Hg) HQ. unfold override_gsi. apply (wp_ld32 _ _ (le_bytes 4 (o_gsi o))); [done|by rewrite length_le_bytes|].
  rewrite le_le_bytes; [done|]. unfold in_u in Hg. lia.
Qed.

Lemma wp_isa_scan m os isa (Q : Z → bmem → Prop) :
  Forall (override_ok m) os → Q (to_gsi os isa) m → wp (isa_scan (o_entry <$> os) isa) m Q.
Proof.
  unfold to_gsi. induction os as [|o os IH]; intros Hos HQ; [by apply wp_ret|]. apply Forall_cons in Hos as [Ho Hos].
  simpl in *. apply wp_bind, (wp_ld _ (o_source o)); [apply Ho|].
  destruct (Z.eqb_spec (o_source o) isa) as [E|E]; [rewrite decide_True in HQ by done|rewrite decide_False in HQ by done].
  - apply wp_bind, wp_override_gsi; [done|]. apply wp_ret. rewrite uwrap_id by apply Ho. exact HQ.
  - apply IH; [done|]. by destruct (list_find _ os) as [[]|].
Qed.

Lemma wp_gsi_find m os gsi (Q : Z → bmem → Prop) :
  Forall (override_ok m) os → Q (to_isa os gsi) m → wp (gsi_find (o_entry <$> os) gsi) m Q.
Proof.
  unfold to_isa. induction os as [|o os IH]; intros Hos HQ; [by apply wp_ret|]. apply Forall_cons in Hos as [Ho Hos].
  simpl in *. apply wp_bind, wp_override_gsi; [done|].
  destruct (Z.eqb_spec (o_gsi o) gsi) as [E|E]; [rewrite decide_True in HQ by done|rewrite decide_False in HQ by done].
  - apply (wp_ld _ (o_source o)); [apply Ho|done].
  - apply IH; [done|]. by destruct (list_find _ os) as [[]|].
Qed.

(** The translations are inverse where no interrupt has two sources. *)
Lemma to_isa_to_gsi os isa :
  NoDup (o_gsi <$> os) → isa ∈ (o_source <$> os) ∨ isa ∉ (o_gsi <$> os) → to_isa os (to_gsi os isa) = isa.
Proof.
  intros Hnd Hor. unfold to_gsi. destruct (list_find _ os) as [[i o]|] eqn:E.
  - apply list_find_Some in E as (Hi & Ho & _). unfold to_isa. destruct (list_find _ os) as [[j o']|] eqn:E'.
    + apply list_find_Some in E' as (Hj & Ho' & _). assert (i = j) as <-; [|congruence].
      eapply (NoDup_lookup (o_gsi <$> os)); [done|by rewrite list_lookup_fmap, Hi|by rewrite list_lookup_fmap, Hj; simpl; rewrite Ho'].
    + apply list_find_None in E'. rewrite Forall_lookup in E'. by destruct (E' i o Hi).
  - apply list_find_None in E. rewrite Forall_forall in E. destruct Hor as [(o & -> & Ho)%list_elem_of_fmap|Hn]; [by destruct (E o)|].
    unfold to_isa. destruct (list_find _ os) as [[j o]|] eqn:E'; [|done]. apply list_find_Some in E' as (Hj & Ho & _).
    destruct Hn. apply list_elem_of_fmap. exists o. split; [done|]. by eapply list_elem_of_lookup_2.
Qed.

(** Ioapic_gsi_to_isa undoes ioapic_isa_to_gsi: for an ISA line that an
    override redirects, or whose number no override uses, where no two
    overrides name the same interrupt, the two return the line again and
    change nothing. *)
Theorem ioapic_isa_roundtrip `{BuildConfig} s os isa :
  override_list s = o_entry <$> os → Forall (override_ok (pmem s)) os → NoDup (o_gsi <$> os) →
  0 ≤ isa < 16 → isa ∈ (o_source <$> os) ∨ isa ∉ (o_gsi <$> os) →
  wp (gsi ← ioapic_isa_to_gsi isa; ioapic_gsi_to_isa gsi) s (λ r s', r = isa ∧ s' = s).
Proof.
  intros E Hos Hnd Hisa Hor. apply wp_bind. unfold ioapic_isa_to_gsi. apply wp_bind, wp_kassert_dbg; [apply Z.ltb_lt; lia|].
  apply wp_bind, wp_get, wp_rd_mem. rewrite E. apply wp_isa_scan; [done|]. unfold ioapic_gsi_to_isa. apply wp_bind, wp_get, wp_rd_mem. rewrite E.
  apply wp_gsi_find; [done|]. split; [|done]. by apply to_isa_to_gsi.
Qed.

(** ** A machine *)

Module ApicDemo.
(** A table at address 4096 with one CPU, one I/O APIC of 24 lines at
    0xFEC00000, the timer on interrupt 2 and a line marked level-triggered. *)
Definition table : list entry :=
  [ELapic 0 0 1; EIoapic 1 0xFEC00000 0; EOverride 0 0 2 0; EOther 9 [0; 0]; EOverride 0 9 9 13; ENmi 255 0 1; EAddr 0xFEE00000].
Definition madt : Z := 4096.
Definition len : Z := 44 + Z.of_nat (length (encoded table)).
Definition at_ (a : Z) (l : list Z) : list (Z * Z) := zip (seqZ a (Z.of_nat (length l))) l.
Definition mem : bmem := list_to_map
  (at_ (madt + 4) (le_bytes 4 len) ++ at_ (madt + 36) (le_bytes 4 0xFEE00000) ++ at_ (madt + 44) (encoded table)).
Definition regs : gmap Z Z := {[ 1 := 0x170011; 18 := 0x31; 19 := 0 ]}.
Definition io : known := mk_known (madt + 52) 0xFEC00000 0.
Definition devs : gmap Z ioapic := {[ phys_to_virt 0xFEC00000 := mk_ioapic 0 regs ]}.
Definition start : apic_st := mk_apic_st mem [] [] [] [] 0 [] devs 0.
Definition overrides : list override := [mk_override (madt + 64) 0 2; mk_override (madt + 78) 9 9].
Definition up : apic_st := mk_apic_st mem [mk_lapic 0 0 true] [madt + 52] [madt + 64; madt + 78] [madt + 88] 0 [] devs 0.

Lemma table_ok : Forall entry_ok table.
Proof.
  unfold table. rewrite !Forall_cons, Forall_nil. split_and!; [done| | | | |done|done|done]; simpl; [by split|by split| |by split].
  rewrite !elem_of_cons, elem_of_nil. unfold MADT_LAPIC, MADT_IOAPIC, MADT_OVERRIDE, MADT_NMI, MADT_LAPIC_ADDR. lia.
Qed.

Lemma up_served : served up 1 io regs.
Proof.
  apply (Served _ _ _ _ [io] [regs] 0); [done| |done|done|by split|intros; lia|done].
  constructor; [|done]. split_and!; try done; by apply bytes_b_sound.
Qed.

Lemma regs_in : regs_ok regs.
Proof.
  intros r v Hv. unfold regs in Hv.
  repeat (apply lookup_insert_Some in Hv as [[_ <-]|[_ Hv]]; [done|]). by apply lookup_singleton_Some in Hv as [_ <-].
Qed.

Lemma up_overrides : Forall (override_ok (pmem up)) overrides.
Proof. repeat (constructor; [split_and!; [done|by apply bytes_b_sound|done]|]). constructor. Qed.
End ApicDemo.

Lemma parse_madt_roundtrip_witness :
  wp (parse_madt ApicDemo.madt) ApicDemo.start (λ _ s',
    lapic_list s' = [mk_lapic 0 0 true] ∧ ioapic_list s' = [4148] ∧ override_list s' = [4160; 4174] ∧ nmi_list s' = [4184] ∧
    lapic_base s' = phys_to_virt 0xFEE00000).
Proof.
  eapply wp_mono; [apply (parse_madt_roundtrip ApicDemo.start ApicDemo.madt 0xFEE00000 ApicDemo.len ApicDemo.table)|].
  1-4: reflexivity.
  2-3: by split.
  2: reflexivity.
  2-3: done.
  2-4: apply bytes_b_sound; vm_compute; reflexivity.
  - exact ApicDemo.table_ok.
  - intros ? s' [[_ _ _ H1 H2 H3 H4] H5]. split_and!; [rewrite H1|rewrite H2|rewrite H3|rewrite H4|rewrite H5]; reflexivity.
Defined.

Lemma ioapic_mask_correct_witness :
  wp (ioapic_mask 1) ApicDemo.up (λ _ s', line_set ApicDemo.up ApicDemo.io ApicDemo.regs 1 0x10031 s').
Proof.
  destruct (ioapic_mask_correct ApicDemo.up 1 ApicDemo.io ApicDemo.regs ApicDemo.up_served ApicDemo.regs_in eq_refl) as [H _].
  eapply wp_mono; [exact H|]. intros ? s' Hs. exact Hs.
Defined.

Lemma ioapic_redirect_correct_witness :
  wp (ioapic_redirect 1 1 8 0) ApicDemo.up (λ _ s', ∃ r, entry_fields r 1 8 0 ∧ line_set ApicDemo.up ApicDemo.io ApicDemo.regs 1 r s').
Proof.
  eapply wp_mono; [apply (ioapic_redirect_correct ApicDemo.up 1 1 8 0 (mk_lapic 0 0 true) ApicDemo.io ApicDemo.regs ApicDemo.up_served)|].
  1-4: done.
  intros ? s' Hs. exact Hs.
Defined.

Lemma ioapic_isa_roundtrip_witness :
  wp (gsi ← ioapic_isa_to_gsi (BC := debug_build) 0; ioapic_gsi_to_isa gsi) ApicDemo.up (λ r s', r = 0 ∧ s' = ApicDemo.up).
Proof.
  apply (ioapic_isa_roundtrip (H := debug_build) ApicDemo.up ApicDemo.overrides 0); [done|exact ApicDemo.up_overrides| |done|left; by left].
  by apply (bool_decide_eq_true_1 (NoDup [2; 9])).
Defined.
