(* ===== verification/Smbios.v ===== *)
(** * SMBIOS tables

    kernel/drivers/smbios/smbios.c: the search for the entry point of either
    version in the BIOS area, and the walk over the structures that verbose
    builds make.  Memory is bytes; a field of a packed structure is a read at
    its offset.  What the walk prints is the value of the model: one record
    for every processor structure. *)

From stdpp Require Import base list gmap fin_maps.
From Stdlib Require Import ZArith Lia Bool.
From S2P Require Import Prelude Addr Strings Acpi AcpiSpec ApicSpec.
Local Open Scope Z_scope.

Definition SMBIOS_PHYS_START : Z := 0xF0000.
Definition SMBIOS_PHYS_END : Z := 0xFFFFF.
Definition SMBIOS_TYPE_PROCESSOR : Z := 4.
Definition SMBIOS_TYPE_END : Z := 127.

(** ** Fields *)

Definition e2_ep_length (p : Z) : B Z := ld (p + 5).
Definition e2_ver_major (p : Z) : B Z := ld (p + 6).
Definition e2_ver_minor (p : Z) : B Z := ld (p + 7).
Definition e2_ep_revision (p : Z) : B Z := ld (p + 10).
Definition e2_formatted_area (p : Z) : Z := p + 11.
Definition e2_intermediate_anchor (p : Z) : Z := p + 16.
Definition e2_struct_table_addr (p : Z) : B Z := ld32 (p + 24).
Definition e2_nstructs (p : Z) : B Z := ld16 (p + 28).
Definition SIZEOF_ENTRY2 : Z := 31.

Definition e3_ep_length (p : Z) : B Z := ld (p + 6).
Definition e3_ver_major (p : Z) : B Z := ld (p + 7).
Definition e3_ver_minor (p : Z) : B Z := ld (p + 8).
Definition e3_reserved (p : Z) : B Z := ld (p + 11).
Definition e3_struct_table_addr (p : Z) : B Z := ld64 (p + 16).

Definition sm_type (p : Z) : B Z := ld p.
Definition sm_length (p : Z) : B Z := ld (p + 1).
Definition processor_family (p : Z) : B Z := ld (p + 6).
Definition processor_manufacturer (p : Z) : B Z := ld (p + 7).
Definition external_clock (p : Z) : B Z := ld16 (p + 18).
Definition max_speed (p : Z) : B Z := ld16 (p + 20).
Definition current_speed (p : Z) : B Z := ld16 (p + 22).

Record smbios_info := mk_smbios { sm_entry : Z; sm_major : Z; sm_minor : Z }.

(** What is printed of a processor; the manufacturer is a pointer. *)
Record proc_info := mk_proc { p_max : Z; p_current : Z; p_clock : Z; p_family : Z; p_manufacturer : Z }.

(** ** The code *)

Section Code.
(** The addresses of the two anchors and of five zero bytes, and whether the
    build is verbose. *)
Context {BC : BuildConfig} (VERBOSE : bool) (SMBIOS3_ANCHOR SMBIOS2_ANCHOR zeros5 : Z).

Definition calc_checksum (entry len : Z) : B bool := sum ← sum_from (Z.to_nat len) entry 0; mret (sum =? 0).

Definition check_entry3 (addr eps : Z) : B (Z + smbios_info) :=
  len ← e3_ep_length eps; ok ← calc_checksum eps len;
  if negb ok then mret (inl (addr + 16))
  else
    (if DEBUG then r ← e3_reserved eps; kassert (r =? 0) else mret tt);;
    major ← e3_ver_major eps; minor ← e3_ver_minor eps;
    mret (inr (mk_smbios eps major minor)).

Definition check_entry2 (addr eps : Z) : B (Z + smbios_info) :=
  len ← e2_ep_length eps; ok ← calc_checksum eps len;
  if negb ok then mret (inl (addr + 16))
  else
    let ieps_offset := e2_intermediate_anchor 0 in
    ok ← calc_checksum (e2_intermediate_anchor eps) (SIZEOF_ENTRY2 - ieps_offset);
    if negb ok then mret (inl (addr + 16))
    else
      (if DEBUG then
         rev ← e2_ep_revision eps;
         if negb (rev =? 0) then mret tt
         else c ← memcmp (e2_formatted_area eps) zeros5 5; kassert (c =? 0)
       else mret tt);;
      major ← e2_ver_major eps; minor ← e2_ver_minor eps;
      mret (inr (mk_smbios eps major minor)).

Definition smbios_round (addr : Z) : B (Z + smbios_info) :=
  if addr <? SMBIOS_PHYS_END then
    let smbios := phys_to_virt addr in
    c ← memcmp smbios SMBIOS3_ANCHOR 5;
    if c =? 0 then check_entry3 addr smbios
    else
      c ← memcmp smbios SMBIOS2_ANCHOR 4;
      if c =? 0 then check_entry2 addr smbios else mret (inl (addr + 16))
  else mret (inr (mk_smbios NULL 0 0)).

(** The range has 4096 places. *)
Definition find_smbios : B smbios_info := loop (Z.to_nat 4097) smbios_round SMBIOS_PHYS_START.

(** [while ( *p++ != '\0');] *)
Definition skip_string (p : Z) : B Z :=
  m ← get;
  loop (S (size m)) (λ p, x ← ld p; mret (if x =? 0 then inr (p + 1) else inl (p + 1))) p.

Fixpoint skip_strings (n : nat) (p : Z) : B Z :=
  match n with O => mret p | S n => p ← skip_string p; skip_strings n p end.

Definition table_get_str (hd index : Z) : B Z :=
  if index =? 0 then mret NULL
  else len ← sm_length hd; skip_strings (Z.to_nat (index - 1)) (hd + len).

(** The index of the second of the two zero bytes a string table ends in. *)
Definition strtab_end (strtab : Z) : B Z :=
  m ← get;
  loop (S (size m)) (λ i,
    x ← ld (strtab + i - 1);
    if negb (x =? 0) then mret (inl (i + 1))
    else y ← ld (strtab + i); mret (if negb (y =? 0) then inl (i + 1) else inr i)) 1.

Definition dump_processor (cur : Z) : B proc_info :=
  ms ← max_speed cur; cs ← current_speed cur; ec ← external_clock cur; pf ← processor_family cur;
  i ← processor_manufacturer cur; s ← table_get_str cur i;
  mret (mk_proc ms cs ec pf s).

Definition table_round (c : Z * Z * list proc_info) : B (Z * Z * list proc_info + Z * list proc_info) :=
  let '(cur, num, out) := c in
  ty ← sm_type cur;
  if ty =? SMBIOS_TYPE_END then mret (inr (num, out))
  else
    out ← (if ty =? SMBIOS_TYPE_PROCESSOR then p ← dump_processor cur; mret (out ++ [p]) else mret out);
    len ← sm_length cur;
    i ← strtab_end (cur + len);
    mret (inl (cur + (len + i + 1), num + 1, out)).

Definition dump_smbios_tables (start nstructs : Z) : B (list proc_info) :=
  if VERBOSE then
    (if DEBUG then
       ty ← sm_type start; kassert ((ty <? 128) && ((ty =? SMBIOS_TYPE_END) || (ty <=? 32)))
     else mret tt);;
    m ← get;
    '(num, out) ← loop (S (size m)) table_round (start, 0, []);
    kassert ((nstructs =? 0) || (num + 1 =? nstructs));;
    mret out
  else mret [].

Definition dump_smbios_info (info : smbios_info) : B (list proc_info) :=
  if sm_major info =? 3 then
    a ← e3_struct_table_addr (sm_entry info); dump_smbios_tables (phys_to_virt a) 0
  else if sm_major info =? 2 then
    a ← e2_struct_table_addr (sm_entry info); n ← e2_nstructs (sm_entry info);
    dump_smbios_tables (phys_to_virt a) n
  else mret [].

Definition smbios_init : B (smbios_info * list proc_info) :=
  info ← find_smbios;
  if negb (sm_major info =? 2) && negb (sm_major info =? 3) then panic
  else out ← dump_smbios_info info; mret (info, out).
End Code.
