(* ===== verification/SmbiosSpec.v ===== *)
(** * SMBIOS tables: specification

    The entry point that [find_smbios] finds, and the walk over a table of
    structures that is laid out as the standard says: a formatted area and a
    set of strings, which ends in two zero bytes. *)

From stdpp Require Import base list gmap fin_maps.
From Stdlib Require Import ZArith Lia Bool.
From S2P Require Import Prelude Addr Strings Acpi AcpiSpec Smbios.
Local Open Scope Z_scope.

(** ** The entry point *)

Definition anchor3 : list Z := [95; 83; 77; 51; 95].
Definition anchor2 : list Z := [95; 83; 77; 95].

Definition valid3 (f : Z → Z) (a : Z) : Prop :=
  slice f a 5 = anchor3 ∧ total (slice f a (f (a + 6))) mod 256 = 0.
Definition valid2 (f : Z → Z) (a : Z) : Prop :=
  slice f a 4 = anchor2 ∧ total (slice f a (f (a + 5))) mod 256 = 0 ∧ total (slice f (a + 16) 15) mod 256 = 0.

#[global] Instance valid3_dec f a : Decision (valid3 f a).
Proof. apply _. Defined.
#[global] Instance valid2_dec f a : Decision (valid2 f a).
Proof. apply _. Defined.

(** The entry point at an address, if there is one. *)
Definition entry_at (f : Z → Z) (a : Z) : option smbios_info :=
  if decide (valid3 f a) then Some (mk_smbios a (f (a + 7)) (f (a + 8)))
  else if decide (valid2 f a) then Some (mk_smbios a (f (a + 6)) (f (a + 7)))
  else None.

(** What debug builds assert of it. *)
Definition entry_sane (f : Z → Z) (a : Z) : Prop :=
  (valid3 f a → f (a + 11) = 0) ∧ (valid2 f a → f (a + 10) = 0 → slice f (a + 11) 5 = replicate 5 0).

Definition sm_place (k : Z) : Z := KERNEL_LOGICAL_BASE + SMBIOS_PHYS_START + 16 * k.

Lemma phys_sm_place k : 0 ≤ k ≤ 4096 → phys_to_virt (SMBIOS_PHYS_START + 16 * k) = sm_place k.
Proof.
  intros Hk. unfold phys_to_virt, sm_place, SMBIOS_PHYS_START, KERNEL_LOGICAL_BASE.
  destruct (Z.eqb_spec (983040 + 16 * k) 0); [lia|]. rewrite uwrap_id; [lia|]. unfold in_u. lia.
Qed.

Lemma wp_sm_checksum m f a n (Q : bool → bmem → Prop) :
  bytes m a (slice f a n) → Q (total (slice f a n) mod 256 =? 0) m → wp (calc_checksum a n) m Q.
Proof.
  intros Hb HQ. unfold calc_checksum. apply wp_bind. rewrite <-(length_slice f a n).
  apply (wp_sum_from m (slice f a n) a 0); [done|]. by apply wp_ret.
Qed.

Section Entry.
Context {BC : BuildConfig} (sm3 sm2 zeros5 : Z) (m : bmem) (f : Z → Z).
Hypothesis H3 : bytes m sm3 anchor3.
Hypothesis H2 : bytes m sm2 anchor2.
Hypothesis H0 : bytes m zeros5 (replicate 5 0).
Hypothesis Hmem : ∀ x, sm_place 0 ≤ x < sm_place 4096 + 256 → m !! x = Some (f x).
Hypothesis Hbyte : ∀ x, 0 ≤ f x < 256.

Lemma sm_bytes k i n : 0 ≤ k < 4096 → 0 ≤ i → 0 ≤ n → i + n ≤ 256 → bytes m (sm_place k + i) (slice f (sm_place k + i) n).
Proof using Hmem. intros Hk Hi Hn Hin. apply bytes_slice. intros x Hx. apply Hmem. unfold sm_place in *. lia. Qed.

Lemma sm_byte k i : 0 ≤ k < 4096 → 0 ≤ i < 256 → m !! (sm_place k + i) = Some (f (sm_place k + i)).
Proof using Hmem. intros Hk Hi. apply Hmem. unfold sm_place. lia. Qed.

Lemma sm_bytes0 k n : 0 ≤ k < 4096 → 0 ≤ n ≤ 256 → bytes m (sm_place k) (slice f (sm_place k) n).
Proof using Hmem. intros Hk Hn. pose proof (sm_bytes k 0 n Hk ltac:(lia) ltac:(lia) ltac:(lia)) as H. by rewrite !Z.add_0_r in H. Qed.

Lemma wp_anchor k q l n (Q : Z → bmem → Prop) :
  0 ≤ k < 4096 → bytes m q l → n = Z.of_nat (length l) → (length l ≤ 5)%nat →
  (∀ c, (c = 0 ↔ slice f (sm_place k) n = l) → Q c m) → wp (memcmp (sm_place k) q n) m Q.
Proof using Hmem.
  intros Hk Hq -> Hl HQ.
  assert (length (slice f (sm_place k) (Z.of_nat (length l))) = length l) as Hlen by (rewrite length_slice; lia).
  rewrite <-Hlen at 1. apply (wp_memcmp m _ _ (slice f (sm_place k) (Z.of_nat (length l))) l); [|done|done|].
  - apply sm_bytes0; [done|lia].
  - apply HQ. by apply lex_eq.
Qed.

Ltac at_byte k i := apply wp_bind, (wp_ld _ (f (sm_place k + i))); [by apply sm_byte|].

Lemma wp_check_entry3 k (Q : Z + smbios_info → bmem → Prop) :
  0 ≤ k < 4096 → slice f (sm_place k) 5 = anchor3 → entry_sane f (sm_place k) →
  Q (match entry_at f (sm_place k) with Some r => inr r | None => inl (SMBIOS_PHYS_START + 16 * (k + 1)) end) m →
  wp (check_entry3 (SMBIOS_PHYS_START + 16 * k) (sm_place k)) m Q.
Proof using Hmem Hbyte.
  intros Hk Ha [Hs _] HQ. unfold check_entry3. unfold e3_ep_length. at_byte k 6. pose proof (Hbyte (sm_place k + 6)).
  apply wp_bind, (wp_sm_checksum m f); [apply sm_bytes0; [done|lia]|]. unfold entry_at in HQ.
  destruct (Z.eqb_spec (total (slice f (sm_place k) (f (sm_place k + 6))) mod 256) 0) as [Hc|Hc]; simpl negb; cbv iota.
  - rewrite decide_True in HQ by done. apply wp_bind.
    assert (wp (if DEBUG then r ← e3_reserved (sm_place k); kassert (r =? 0) else mret tt) m (λ _ m', m' = m)) as Hd.
    { destruct DEBUG; [|done]. unfold e3_reserved. at_byte k 11. apply wp_kassert; [|done]. by rewrite Hs. }
    eapply wp_mono; [exact Hd|]. intros _ ? ->. unfold e3_ver_major, e3_ver_minor. at_byte k 7. at_byte k 8. by apply wp_ret.
  - apply wp_ret. rewrite decide_False in HQ by (by intros [_ ?]).
    rewrite decide_False in HQ; [by replace (SMBIOS_PHYS_START + 16 * k + 16) with (SMBIOS_PHYS_START + 16 * (k + 1)) by lia|].
    intros [Ha2 _]. apply (f_equal (take 4)) in Ha. unfold slice in Ha, Ha2.
    change (seqZ (sm_place k) 5) with (seqZ (sm_place k) (4 + 1)) in Ha. rewrite seqZ_app, fmap_app in Ha by lia.
    rewrite take_app_le in Ha by (rewrite length_fmap, length_seqZ; lia). rewrite Ha2 in Ha. done.
Qed.

Lemma wp_check_entry2 k (Q : Z + smbios_info → bmem → Prop) :
  0 ≤ k < 4096 → slice f (sm_place k) 5 ≠ anchor3 → slice f (sm_place k) 4 = anchor2 → entry_sane f (sm_place k) →
  Q (match entry_at f (sm_place k) with Some r => inr r | None => inl (SMBIOS_PHYS_START + 16 * (k + 1)) end) m →
  wp (check_entry2 zeros5 (SMBIOS_PHYS_START + 16 * k) (sm_place k)) m Q.
Proof using Hmem Hbyte H0.
  intros Hk Hn3 Ha [_ Hs] HQ. unfold check_entry2, e2_ep_length. at_byte k 5. pose proof (Hbyte (sm_place k + 5)).
  unfold entry_at in HQ. rewrite decide_False in HQ by (by intros [? _]).
  apply wp_bind, (wp_sm_checksum m f); [apply sm_bytes0; [done|lia]|].
  replace (SMBIOS_PHYS_START + 16 * k + 16) with (SMBIOS_PHYS_START + 16 * (k + 1)) by lia.
  destruct (Z.eqb_spec (total (slice f (sm_place k) (f (sm_place k + 5))) mod 256) 0) as [Hc|Hc]; simpl negb; cbv iota.
  2: { apply wp_ret. by rewrite decide_False in HQ by (by intros (_ & ? & _)). }
  apply wp_bind. change (SIZEOF_ENTRY2 - e2_intermediate_anchor 0) with 15. unfold e2_intermediate_anchor.
  apply (wp_sm_checksum m f); [apply sm_bytes; [done|lia..]|].
  destruct (Z.eqb_spec (total (slice f (sm_place k + 16) 15) mod 256) 0) as [Hi|Hi]; simpl negb; cbv iota.
  2: { apply wp_ret. by rewrite decide_False in HQ by (by intros (_ & _ & ?)). }
  rewrite decide_True in HQ by done. apply wp_bind.
  assert (wp (if DEBUG then rev ← e2_ep_revision (sm_place k);
      if negb (rev =? 0) then mret tt else c ← memcmp (e2_formatted_area (sm_place k)) zeros5 5; kassert (c =? 0) else mret tt) m (λ _ m', m' = m)) as Hd.
  { destruct DEBUG; [|done]. unfold e2_ep_revision, e2_formatted_area. at_byte k 10.
    destruct (Z.eqb_spec (f (sm_place k + 10)) 0) as [E|]; [|done]. simpl negb. cbv iota. apply wp_bind.
    apply (wp_memcmp m _ _ (slice f (sm_place k + 11) 5) (replicate 5 0)); [apply sm_bytes; [done|lia..]|done|by rewrite length_slice|].
    apply wp_kassert; [|done]. by rewrite Hs. }
  eapply wp_mono; [exact Hd|]. intros _ ? ->. unfold e2_ver_major, e2_ver_minor. at_byte k 6. at_byte k 7. by apply wp_ret.
Qed.

Lemma wp_smbios_round k (Q : Z + smbios_info → bmem → Prop) :
  0 ≤ k < 4096 → entry_sane f (sm_place k) →
  Q (match entry_at f (sm_place k) with Some r => inr r | None => inl (SMBIOS_PHYS_START + 16 * (k + 1)) end) m →
  wp (smbios_round sm3 sm2 zeros5 (SMBIOS_PHYS_START + 16 * k)) m Q.
Proof using All.
  intros Hk Hs HQ. unfold smbios_round.
  destruct (Z.ltb_spec (SMBIOS_PHYS_START + 16 * k) SMBIOS_PHYS_END) as [_|Hge]; [|unfold SMBIOS_PHYS_START, SMBIOS_PHYS_END in Hge; lia].
  rewrite phys_sm_place by lia. apply wp_bind, (wp_anchor k _ anchor3); [done|done|done|done|]. intros c Hc.
  destruct (Z.eqb_spec c 0) as [E|E]; [apply wp_check_entry3; [done|by apply Hc|done|done]|].
  assert (slice f (sm_place k) 5 ≠ anchor3) as Hn3 by (intros ?%Hc; done).
  apply wp_bind, (wp_anchor k _ anchor2); [done|done|done|simpl; lia|]. intros c2 Hc2.
  destruct (Z.eqb_spec c2 0) as [E2|E2]; [apply wp_check_entry2; [done|done|by apply Hc2|done|done]|].
  apply wp_ret. replace (SMBIOS_PHYS_START + 16 * k + 16) with (SMBIOS_PHYS_START + 16 * (k + 1)) by lia.
  unfold entry_at in HQ. rewrite !decide_False in HQ; [done|by intros [?%Hc2 _]|by intros [? _]].
Qed.

(** Find_smbios returns the entry point at the first place of the BIOS
    area, in steps of sixteen bytes, that has the anchor of version 3 with
    the right checksum or that of version 2 with both checksums right, and a
    version 0 when there is none; debug builds do not panic when the entry
    points found are as the standard asks. *)
Theorem find_smbios_correct :
  (∀ k, 0 ≤ k < 4096 → entry_sane f (sm_place k)) →
  wp (find_smbios sm3 sm2 zeros5) m (λ r m', m' = m ∧
    (r = mk_smbios NULL 0 0 ∧ (∀ k, 0 ≤ k < 4096 → entry_at f (sm_place k) = None) ∨
     ∃ k, 0 ≤ k < 4096 ∧ entry_at f (sm_place k) = Some r ∧ ∀ j, 0 ≤ j < k → entry_at f (sm_place j) = None)).
Proof using All.
  intros Hs. unfold find_smbios.
  apply (wp_loop (λ n addr m', m' = m ∧ ∃ k, 0 ≤ k ≤ 4096 ∧ n = Z.to_nat (4096 - k) ∧ addr = SMBIOS_PHYS_START + 16 * k ∧
    ∀ j, 0 ≤ j < k → entry_at f (sm_place j) = None)) with (n := Z.to_nat 4096).
  - intros n addr ? (-> & k & Hk & -> & -> & Hno). destruct (decide (k = 4096)) as [->|Hne].
    + unfold smbios_round. destruct (Z.ltb_spec (SMBIOS_PHYS_START + 16 * 4096) SMBIOS_PHYS_END) as [Hlt|_].
      * unfold SMBIOS_PHYS_START, SMBIOS_PHYS_END in Hlt. lia.
      * apply wp_ret. split; [done|]. by left.
    + apply wp_smbios_round; [lia|apply Hs; lia|]. destruct (entry_at f (sm_place k)) as [r|] eqn:Hr.
      * split; [done|]. right. exists k. split_and!; [lia|lia|done|done].
      * exists (Z.to_nat (4096 - (k + 1))). split; [lia|]. split; [done|]. exists (k + 1). split_and!; [lia|lia|done|done|].
        intros j Hj. destruct (decide (j = k)) as [->|]; [done|]. apply Hno. lia.
  - split; [done|]. exists 0. split_and!; [lia|lia|done|done|lia].
  - lia.
Qed.
End Entry.

(** ** String sets *)

(** A string has at least one byte and no zero byte. *)
Definition string_ok (s : list Z) : Prop := s ≠ [] ∧ Forall (λ x, x ≠ 0) s.

Definition terminated (ss : list (list Z)) : list Z := mjoin ((λ s, s ++ [0]) <$> ss).
Definition string_set (ss : list (list Z)) : list Z := match ss with [] => [0; 0] | _ => terminated ss ++ [0] end.

Lemma terminated_cons s ss : terminated (s :: ss) = s ++ 0 :: terminated ss.
Proof. unfold terminated. simpl. by rewrite <-(assoc_L (++)). Qed.

(** No two zero bytes in a row. *)
Lemma terminated_zeros ss (j : nat) :
  Forall string_ok ss → terminated ss !! j = Some 0 → terminated ss !! S j ≠ Some 0.
Proof.
  revert j. induction ss as [|s ss IH]; intros j Hok; [done|]. apply Forall_cons in Hok as [[Hne Hs] Hok].
  rewrite terminated_cons. destruct (decide (j < length s)%nat) as [Hlt|Hge].
  - rewrite lookup_app_l by done. intros E. by apply (Forall_lookup_1 _ _ _ _ Hs) in E.
  - rewrite !lookup_app_r by lia. replace (S j - length s)%nat with (S (j - length s)) by lia. simpl.
    destruct (j - length s)%nat as [|i]; simpl; [|by apply IH].
    intros _. destruct ss as [|[|x s'] ss]; [done|by apply Forall_cons in Hok as [[? _] _]|].
    apply Forall_cons in Hok as [[_ [Hx _]%Forall_cons] _]. rewrite terminated_cons. simpl. congruence.
Qed.

Lemma terminated_last s ss : terminated (s :: ss) !! (length (terminated (s :: ss)) - 1)%nat = Some 0.
Proof.
  revert s. induction ss as [|s' ss IH]; intros s; rewrite terminated_cons, length_app; simpl length.
  - change (terminated []) with (@nil Z). simpl. rewrite lookup_app_r by lia. by replace (length s + 1 - 1 - length s)%nat with 0%nat by lia.
  - specialize (IH s'). assert (0 < length (terminated (s' :: ss)))%nat.
    { rewrite terminated_cons, length_app. simpl. lia. }
    rewrite lookup_app_r by lia.
    replace (length s + S (length (terminated (s' :: ss))) - 1 - length s)%nat with (S (length (terminated (s' :: ss)) - 1)) by lia.
    exact IH.
Qed.

(** The two zero bytes at the end are the first two in a row. *)
Lemma string_set_end ss :
  Forall string_ok ss →
  ∃ n, length (string_set ss) = S (S n) ∧ string_set ss !! n = Some 0 ∧ string_set ss !! S n = Some 0 ∧
    ∀ j, (j < n)%nat → string_set ss !! j = Some 0 → string_set ss !! S j ≠ Some 0.
Proof.
  intros Hok. destruct ss as [|s ss]; [exists 0%nat; split_and!; [done..|lia]|]. set (l := s :: ss) in *.
  assert (0 < length (terminated l))%nat as Hl by (unfold l; rewrite terminated_cons, length_app; simpl; lia).
  change (string_set l) with (terminated l ++ [0]). exists (length (terminated l) - 1)%nat. split_and!.
  - rewrite length_app. simpl. lia.
  - rewrite lookup_app_l by lia. apply terminated_last.
  - rewrite lookup_app_r by lia. by replace (S (length (terminated l) - 1) - length (terminated l))%nat with 0%nat by lia.
  - intros j Hj. rewrite !lookup_app_l by lia. by apply terminated_zeros.
Qed.

Lemma wp_strtab_end m a ss (Q : Z → bmem → Prop) :
  bytes m a (string_set ss) → Forall string_ok ss →
  Q (Z.of_nat (length (string_set ss)) - 1) m → wp (strtab_end a) m Q.
Proof.
  intros Hb Hok HQ. unfold strtab_end. apply wp_bind, wp_get. pose proof (bytes_size _ _ _ Hb) as Hsz.
  destruct (string_set_end ss Hok) as (n & Hl & Hn & Hn1 & Hno).
  apply (wp_loop (λ k i m', m' = m ∧ ∃ j, (j ≤ n)%nat ∧ k = (n - j)%nat ∧ i = Z.of_nat j + 1)) with (n := n).
  - intros k i ? (-> & j & Hj & -> & ->). destruct (lookup_lt_is_Some_2 (string_set ss) j) as [x Hx]; [lia|].
    apply wp_bind, (wp_ld _ x). { replace (a + (Z.of_nat j + 1) - 1) with (a + Z.of_nat j) by lia. by apply Hb. }
    destruct (decide (j = n)) as [->|Hne].
    + rewrite Hn in Hx. injection Hx as <-. simpl. apply wp_bind, (wp_ld _ 0).
      { replace (a + (Z.of_nat n + 1)) with (a + Z.of_nat (S n)) by lia. by apply Hb. }
      apply wp_ret. simpl. by replace (Z.of_nat n + 1) with (Z.of_nat (length (string_set ss)) - 1) by lia.
    + assert (∃ n', (n' < n - j)%nat ∧ m = m ∧ ∃ j', (j' ≤ n)%nat ∧ n' = (n - j')%nat ∧ Z.of_nat j + 1 + 1 = Z.of_nat j' + 1) as Hnext.
      { exists (n - S j)%nat. split; [lia|]. split; [done|]. exists (S j). split_and!; lia. }
      destruct (Z.eqb_spec x 0) as [->|]; simpl; [|by apply wp_ret].
      destruct (lookup_lt_is_Some_2 (string_set ss) (S j)) as [y Hy]; [lia|].
      apply wp_bind, (wp_ld _ y). { replace (a + (Z.of_nat j + 1)) with (a + Z.of_nat (S j)) by lia. by apply Hb. }
      destruct (Z.eqb_spec y 0) as [->|]; [by apply Hno in Hx; [|lia]|]. by apply wp_ret.
  - split; [done|]. exists 0%nat. split_and!; [lia|lia|lia].
  - lia.
Qed.

(** ** One string of a set *)

Lemma wp_skip_string m a s (Q : Z → bmem → Prop) :
  bytes m a (s ++ [0]) → Forall (λ x, x ≠ 0) s → Q (a + Z.of_nat (length s) + 1) m → wp (skip_string a) m Q.
Proof.
  intros Hb Hs HQ. unfold skip_string. apply wp_bind, wp_get. pose proof (bytes_size _ _ _ Hb) as Hsz.
  rewrite length_app in Hsz. simpl in Hsz.
  apply (wp_loop (λ k p m', m' = m ∧ ∃ j, (j ≤ length s)%nat ∧ k = (length s - j)%nat ∧ p = a + Z.of_nat j)) with (n := length s).
  - intros k p ? (-> & j & Hj & -> & ->). destruct (decide (j = length s)) as [->|Hne].
    + apply wp_bind, (wp_ld _ 0); [apply Hb; by apply list_lookup_middle|]. by apply wp_ret.
    + destruct (lookup_lt_is_Some_2 s j) as [x Hx]; [lia|]. apply wp_bind, (wp_ld _ x); [apply Hb; by apply lookup_app_l_Some|].
      apply (Forall_lookup_1 _ _ _ _ Hs) in Hx. rewrite (proj2 (Z.eqb_neq _ _) Hx). apply wp_ret.
      exists (length s - S j)%nat. split; [lia|]. split; [done|]. exists (S j). split_and!; lia.
  - split; [done|]. exists 0%nat. split_and!; lia.
  - lia.
Qed.

Lemma wp_skip_strings m a ss n s (Q : Z → bmem → Prop) :
  bytes m a (terminated ss) → Forall string_ok ss → ss !! n = Some s →
  (∀ p, bytes m p (s ++ [0]) → Q p m) → wp (skip_strings n a) m Q.
Proof.
  revert a ss. induction n as [|n IH]; intros a ss Hb Hok Hn HQ; (destruct ss as [|s' ss]; [done|]);
    apply Forall_cons in Hok as [[_ Hs'] Hok]; rewrite terminated_cons in Hb;
    change (s' ++ 0 :: terminated ss) with (s' ++ [0] ++ terminated ss) in Hb; rewrite (assoc_L (++)) in Hb;
    apply bytes_app in Hb as [Hb1 Hb2]; simpl.
  - injection Hn as ->. by apply wp_ret, HQ.
  - apply wp_bind, (wp_skip_string _ _ s'); [done..|]. rewrite length_app in Hb2. simpl in Hb2.
    eapply IH; [|exact Hok|exact Hn|done]. by replace (a + Z.of_nat (length s') + 1) with (a + Z.of_nat (length s' + 1)) by lia.
Qed.

(** ** Structures *)

Record sm_struct := mk_struct { fmt : list Z; strs : list (list Z) }.

Definition encode_struct (t : sm_struct) : list Z := fmt t ++ string_set (strs t).
Definition is_processor (t : sm_struct) : Prop := fmt t !! 0%nat = Some SMBIOS_TYPE_PROCESSOR.
Definition field16 (l : list Z) (i : nat) : Z := le (take 2 (drop i l)).

(** A structure other than the last: the formatted area begins with its type
    and its length, and that of a processor has the fields that are printed
    and numbers one of its strings, or none, as the manufacturer. *)
Record struct_ok (t : sm_struct) : Prop := {
  so_length : (4 ≤ length (fmt t))%nat ∧ fmt t !! 1%nat = Some (Z.of_nat (length (fmt t)));
  so_type : fmt t !! 0%nat ≠ Some SMBIOS_TYPE_END;
  so_strings : Forall string_ok (strs t);
  so_processor : is_processor t → (24 <= length (fmt t))%nat ∧
    ∃ k, fmt t !! 7%nat = Some k ∧ 0 ≤ k ≤ Z.of_nat (length (strs t))
}.

(** What is printed of a processor. *)
Record printed (m : bmem) (t : sm_struct) (p : proc_info) : Prop := {
  pr_max : p_max p = field16 (fmt t) 20;
  pr_current : p_current p = field16 (fmt t) 22;
  pr_clock : p_clock p = field16 (fmt t) 18;
  pr_family : fmt t !! 6%nat = Some (p_family p);
  pr_manufacturer : ∀ k, fmt t !! 7%nat = Some k →
    if k =? 0 then p_manufacturer p = NULL
    else ∃ s, strs t !! Z.to_nat (k - 1) = Some s ∧ bytes m (p_manufacturer p) (s ++ [0])
}.

Lemma wp_field16 m a l i (Q : Z → bmem → Prop) :
  bytes m a l → (i + 2 ≤ length l)%nat → Q (field16 l i) m → wp (ld16 (a + Z.of_nat i)) m Q.
Proof.
  intros Hb Hl HQ. pose proof (bytes_sub m a l i 2 Hb Hl) as Hs. unfold field16 in HQ.
  assert (length (take 2 (drop i l)) = 2%nat) as L by (rewrite length_take, length_drop; lia).
  destruct (take 2 (drop i l)) as [|x [|y [|]]]; try done. by apply (wp_ld16 m _ x y).
Qed.

Lemma wp_dump_processor m a t (Q : proc_info → bmem → Prop) :
  bytes m a (encode_struct t) → struct_ok t → is_processor t → (∀ p, printed m t p → Q p m) → wp (dump_processor a) m Q.
Proof.
  intros Hb [[Hl4 Hlen] _ Hss Hproc] Hp HQ. apply bytes_app in Hb as [Hf Hs]. destruct (Hproc Hp) as (Hl & k & Hk & Hkr).
  destruct (lookup_lt_is_Some_2 (fmt t) 6) as [fam Hfam]; [lia|].
  unfold dump_processor, max_speed, current_speed, external_clock, processor_family, processor_manufacturer.
  apply wp_bind, (wp_field16 m a (fmt t) 20); [done|lia|]. apply wp_bind, (wp_field16 m a (fmt t) 22); [done|lia|].
  apply wp_bind, (wp_field16 m a (fmt t) 18); [done|lia|]. apply wp_bind, (wp_ld _ fam); [by apply (Hf 6%nat)|].
  apply wp_bind, (wp_ld _ k); [by apply (Hf 7%nat)|]. apply wp_bind. unfold table_get_str.
  destruct (Z.eqb_spec k 0) as [->|Hk0].
  - apply wp_ret, wp_ret, HQ. split; try done. intros k' Hk'. rewrite Hk in Hk'. by injection Hk' as <-.
  - unfold sm_length. apply wp_bind, (wp_ld _ (Z.of_nat (length (fmt t)))); [by apply (Hf 1%nat)|].
    destruct (lookup_lt_is_Some_2 (strs t) (Z.to_nat (k - 1))) as [s Hst]; [lia|].
    assert (bytes m (a + Z.of_nat (length (fmt t))) (terminated (strs t))) as Ht.
    { unfold string_set in Hs. destruct (strs t); [done|]. by apply bytes_app in Hs as [? _]. }
    eapply wp_skip_strings; [exact Ht|done|done|]. intros p Hpb. apply wp_ret, HQ. split; try done.
    intros k' Hk'. rewrite Hk in Hk'. injection Hk' as <-. rewrite (proj2 (Z.eqb_neq _ _) Hk0). eauto.
Qed.

#[global] Instance is_processor_dec t : Decision (is_processor t).
Proof. apply _. Defined.

Definition encoded_structs (ts : list sm_struct) : list Z := mjoin (encode_struct <$> ts).

Lemma encode_struct_length t : struct_ok t → (0 < length (encode_struct t))%nat.
Proof. intros [[? _] _ _ _]. unfold encode_struct. rewrite length_app. lia. Qed.

Lemma structs_bytes ts : Forall struct_ok ts → (length ts ≤ length (encoded_structs ts))%nat.
Proof.
  induction 1 as [|t ts Ht _ IH]; [done|]. change (encoded_structs (t :: ts)) with (encode_struct t ++ encoded_structs ts). rewrite length_app. simpl.
  pose proof (encode_struct_length t Ht). lia.
Qed.

Lemma wp_table_round m a t num out (Q : Z * Z * list proc_info + Z * list proc_info → bmem → Prop) :
  bytes m a (encode_struct t) → struct_ok t →
  (∀ ps, Forall2 (printed m) (filter is_processor [t]) ps → Q (inl (a + Z.of_nat (length (encode_struct t)), num + 1, out ++ ps)) m) →
  wp (table_round (a, num, out)) m Q.
Proof.
  intros Hb Hok HQ. pose proof Hok as [[Hl4 Hlen] Hty Hss _]. pose proof Hb as [Hf Hs]%bytes_app.
  destruct (lookup_lt_is_Some_2 (fmt t) 0) as [ty Ht]; [lia|]. unfold table_round, sm_type.
  apply wp_bind, (wp_ld _ ty). { rewrite <-(Z.add_0_r a). by apply (Hf 0%nat). }
  destruct (Z.eqb_spec ty SMBIOS_TYPE_END) as [->|_]; [done|].
  assert (∀ ps, Forall2 (printed m) (filter is_processor [t]) ps →
    wp (len ← sm_length a; i ← strtab_end (a + len); mret (inl (a + (len + i + 1), num + 1, out ++ ps))) m Q) as Hend.
  { intros ps Hps. unfold sm_length. apply wp_bind, (wp_ld _ (Z.of_nat (length (fmt t)))); [by apply (Hf 1%nat)|].
    apply wp_bind, (wp_strtab_end m _ (strs t)); [done..|]. apply wp_ret.
    replace (Z.of_nat (length (fmt t)) + (Z.of_nat (length (string_set (strs t))) - 1) + 1) with (Z.of_nat (length (encode_struct t)))
      by (unfold encode_struct; rewrite length_app; lia). by apply HQ. }
  apply wp_bind. destruct (Z.eqb_spec ty SMBIOS_TYPE_PROCESSOR) as [->|Hne].
  - apply wp_bind, (wp_dump_processor m a t); [done..|]. intros p Hp. apply wp_ret. apply Hend.
    rewrite filter_cons_True by done. constructor; [exact Hp|constructor].
  - apply wp_ret. specialize (Hend []). rewrite app_nil_r in Hend. apply Hend.
    rewrite filter_cons_False; [constructor|]. unfold is_processor. rewrite Ht. congruence.
Qed.

Lemma wp_walk_tables m start ts (Q : Z * list proc_info → bmem → Prop) :
  bytes m start (encoded_structs ts ++ [SMBIOS_TYPE_END]) → Forall struct_ok ts →
  (∀ out, Forall2 (printed m) (filter is_processor ts) out → Q (Z.of_nat (length ts), out) m) →
  wp (loop (S (size m)) table_round (start, 0, [])) m Q.
Proof.
  intros Hb Hok HQ. pose proof (bytes_size _ _ _ Hb) as Hsz. rewrite length_app in Hsz. pose proof (structs_bytes ts Hok) as Hts.
  apply (wp_loop (λ k c m', m' = m ∧ ∃ done rest, ts = done ++ rest ∧ k = length rest ∧
    c.1.1 = start + Z.of_nat (length (encoded_structs done)) ∧ c.1.2 = Z.of_nat (length done) ∧
    Forall2 (printed m) (filter is_processor done) c.2)) with (n := length ts).
  - intros k [[cur num] out] ? (-> & done & rest & E & -> & Ec & En & Ho). simpl in Ec, En, Ho. subst cur num.
    rewrite E in Hb. unfold encoded_structs in Hb. rewrite fmap_app, join_app, <-(assoc_L (++)) in Hb.
    apply bytes_app in Hb as [_ Hb]. fold (encoded_structs done) in Hb. destruct rest as [|t rest].
    + simpl in Hb. unfold table_round, sm_type. apply wp_bind, (wp_ld _ SMBIOS_TYPE_END).
      { rewrite <-(Z.add_0_r (start + _)). by apply (Hb 0%nat). }
      simpl. apply wp_ret. rewrite app_nil_r in E. subst ts. by apply HQ.
    + simpl in Hb. rewrite <-(assoc_L (++)) in Hb. apply bytes_app in Hb as [Hb _].
      rewrite E in Hok. apply Forall_app in Hok as [_ [Ht _]%Forall_cons].
      apply (wp_table_round m _ t); [done..|]. intros ps Hps. exists (length rest). split; [simpl; lia|]. split; [done|].
      exists (done ++ [t]), rest. split_and!; [by rewrite <-(assoc_L (++))|done| | |].
      * simpl. unfold encoded_structs. rewrite fmap_app, join_app, length_app. simpl. rewrite app_nil_r. lia.
      * simpl. rewrite length_app. simpl. lia.
      * rewrite filter_app. simpl. by apply Forall2_app.
  - split; [done|]. exists [], ts. split_and!; [done|done|simpl; lia|done|constructor].
  - simpl in Hsz. lia.
Qed.

(** The walk over the structures reads back what is laid out: from the
    bytes of any list of well-formed structures, of which the last has the
    type of the end, a verbose build prints for each processor structure its
    speeds, its clock, its family and the string it names as manufacturer,
    in order; it panics exactly when the entry point gives a number of
    structures that is neither 0 nor theirs. *)
Theorem smbios_tables_roundtrip {BC : BuildConfig} m start ts n :
  bytes m start (encoded_structs ts ++ [SMBIOS_TYPE_END]) → Forall struct_ok ts →
  (∀ t ty, ts !! 0%nat = Some t → fmt t !! 0%nat = Some ty → 0 ≤ ty ≤ 32) →
  if decide (n = 0 ∨ n = Z.of_nat (length ts) + 1) then
    wp (dump_smbios_tables true start n) m (λ out m', m' = m ∧ Forall2 (printed m) (filter is_processor ts) out)
  else dump_smbios_tables true start n m = Panic.
Proof.
  intros Hb Hok Hfirst.
  assert (wp (if DEBUG then ty ← sm_type start; kassert ((ty <? 128) && ((ty =? SMBIOS_TYPE_END) || (ty <=? 32))) else mret tt) m
    (λ _ m', m' = m)) as Hd.
  { destruct DEBUG; [|done]. unfold sm_type. destruct ts as [|t ts].
    - apply wp_bind, (wp_ld _ SMBIOS_TYPE_END); [|done]. rewrite <-(Z.add_0_r start). by apply (Hb 0%nat).
    - apply Forall_cons in Hok as [[[Hl _] _ _ _] _]. destruct (lookup_lt_is_Some_2 (fmt t) 0) as [ty Ht]; [lia|].
      apply wp_bind, (wp_ld _ ty).
      + rewrite <-(Z.add_0_r start). apply (Hb 0%nat). unfold encoded_structs, encode_struct. simpl.
        rewrite <-!(assoc_L (++)). by apply lookup_app_l_Some.
      + apply wp_kassert; [|done]. specialize (Hfirst t ty eq_refl Ht). rewrite (proj2 (Z.ltb_lt ty 128)), (proj2 (Z.leb_le ty 32)) by lia.
        apply orb_true_r. }
  unfold dump_smbios_tables. case_decide as Hn.
  - apply wp_bind. eapply wp_mono; [exact Hd|]. intros _ ? ->. apply wp_bind, wp_get, wp_bind, (wp_walk_tables m start ts); [done..|].
    intros out Hout. apply wp_bind, wp_kassert; [|by apply wp_ret].
    apply orb_true_iff. rewrite !Z.eqb_eq. lia.
  - apply wp_panic. eapply wp_mono; [exact Hd|]. intros _ ? ->. apply wp_panic, wp_get. apply wp_panic, (wp_walk_tables m start ts); [done..|].
    intros out Hout. unfold mbind, M_bind, kassert.
    assert ((n =? 0) || (Z.of_nat (length ts) + 1 =? n) = false) as ->; [|done].
    apply orb_false_iff. rewrite !Z.eqb_neq. lia.
Qed.

(** The two kinds of entry point are told apart by the version they give, not
    by their anchor.  An entry point with the anchor of version 2 that gives
    version 3, as firmware with both has it, is read as one of version 3: the
    address of the structures is taken from the bytes of the intermediate
    anchor. *)
Theorem smbios2_major3_misread {BC : BuildConfig} f m eps minor tail :
  valid2 f eps → f (eps + 6) = 3 → f (eps + 7) = minor → ¬ valid3 f eps →
  bytes m (eps + 16) ([95; 68; 77; 73; 95] ++ tail) → length tail = 3%nat →
  entry_at f eps = Some (mk_smbios eps 3 minor) ∧
  dump_smbios_info true (mk_smbios eps 3 minor) m =
    dump_smbios_tables true (phys_to_virt (le ([95; 68; 77; 73; 95] ++ tail))) 0 m.
Proof.
  intros H2 Hmaj Hmin H3 Hb Hl. split.
  - unfold entry_at. by rewrite decide_False, decide_True, Hmaj, Hmin by done.
  - unfold dump_smbios_info. simpl. unfold mbind, M_bind, e3_struct_table_addr.
    pose proof (wp_ld64 m (eps + 16) ([95; 68; 77; 73; 95] ++ tail) (λ v m', v = le ([95; 68; 77; 73; 95] ++ tail) ∧ m' = m) Hb) as Hw.
    unfold wp in Hw. rewrite length_app, Hl in Hw. specialize (Hw eq_refl (conj eq_refl eq_refl)).
    destruct (ld64 (eps + 16) m) as [[v m']| | |]; [|done..]. by destruct Hw as [-> ->].
Qed.

(** ** Firmware of a small machine *)

Module SmbiosDemo.
(** An entry point of version 3.2 at the fourth place, zeros elsewhere. *)
Definition entry : list Z := anchor3 ++ [48; 24; 3; 2; 0; 1; 0; 0; 1; 0; 0; 0; 32; 0; 0; 0; 0; 0; 0].
Definition bios (x : Z) : Z :=
  if (sm_place 3 <=? x) && (x <? sm_place 3 + 24) then default 0 (entry !! Z.to_nat (x - sm_place 3)) else 0.
Definition consts : list (Z * Z) := AcpiDemo.at_ 16 anchor3 ++ AcpiDemo.at_ 32 anchor2 ++ AcpiDemo.at_ 48 (replicate 5 0).
Definition mem : bmem := list_to_map (consts ++ ((λ x, (x, bios x)) <$> seqZ (sm_place 0) (65536 + 256))).

Lemma sm_lookup x : sm_place 0 ≤ x < sm_place 4096 + 256 → mem !! x = Some (bios x).
Proof.
  intros Hx. unfold mem. rewrite list_to_map_app, lookup_union_r.
  - apply elem_of_list_to_map_1.
    + rewrite <-list_fmap_compose. rewrite (list_fmap_ext _ id); [rewrite list_fmap_id; apply NoDup_seqZ|done].
    + apply list_elem_of_fmap. exists x. split; [done|]. apply elem_of_seqZ. unfold sm_place in *. lia.
  - apply not_elem_of_list_to_map. unfold sm_place, KERNEL_LOGICAL_BASE, SMBIOS_PHYS_START in Hx. intros Hin.
    assert (Forall (λ y, y < 100) consts.*1) as Hall by (by apply (bool_decide_unpack (Forall (λ y, y < 100) consts.*1))).
    rewrite Forall_forall in Hall. specialize (Hall x Hin). simpl in Hall. lia.
Qed.

Lemma consts_bytes a l : bytes_b (list_to_map consts) a l = true → bytes mem a l.
Proof.
  intros Hb%bytes_b_sound i x Hi. unfold mem. rewrite list_to_map_app. apply lookup_union_Some_l. by apply Hb.
Qed.

Lemma bios_byte x : 0 ≤ bios x < 256.
Proof.
  unfold bios. destruct (_ && _); [|lia]. destruct (entry !! Z.to_nat (x - sm_place 3)) as [v|] eqn:Hv; [|simpl; lia].
  assert (Forall (λ v, 0 ≤ v < 256) entry) as Hall by (by apply (bool_decide_unpack (Forall (λ v, 0 ≤ v < 256) entry))).
  by apply (Forall_lookup_1 _ _ _ _ Hall Hv).
Qed.

Lemma bios_at k i : 0 ≤ i < 16 → bios (sm_place k + i) =
  if decide (k = 3) then default 0 (entry !! Z.to_nat i) else if decide (k = 4) then default 0 (entry !! Z.to_nat (16 + i)) else 0.
Proof.
  intros Hi. unfold bios. replace (sm_place k + i - sm_place 3) with (16 * (k - 3) + i) by (unfold sm_place; lia).
  case_decide as H3; [subst; rewrite (proj2 (Z.leb_le _ _)), (proj2 (Z.ltb_lt _ _)) by lia; simpl; f_equal; f_equal; f_equal; lia|].
  case_decide as H4.
  - subst. rewrite (proj2 (Z.leb_le _ _)) by (unfold sm_place; lia). change (16 * (4 - 3) + i) with (16 + i). simpl.
    destruct (Z.ltb_spec (sm_place 4 + i) (sm_place 3 + 24)) as [|Hge]; [done|]. unfold sm_place in Hge.
    rewrite lookup_ge_None_2; [done|]. simpl. lia.
  - destruct (Z.leb_spec (sm_place 3) (sm_place k + i)), (Z.ltb_spec (sm_place k + i) (sm_place 3 + 24)); simpl; try done.
    unfold sm_place in *. lia.
Qed.

Lemma sane k : entry_sane bios (sm_place k).
Proof.
  split.
  - intros _. rewrite bios_at by lia. case_decide; [done|]. by case_decide.
  - intros [Ha _]. exfalso. unfold slice, seqZ in Ha. simpl in Ha. injection Ha as _ _ _ H3.
    assert (bios (sm_place k + 3) = 95) as Hb by (by rewrite <-H3; f_equal; lia).
    rewrite bios_at in Hb by lia. case_decide; [done|]. by case_decide.
Qed.

(** A processor structure with two strings, then the end. *)
Definition proc : sm_struct :=
  mk_struct [4; 26; 0; 0; 1; 3; 198; 2; 0; 0; 0; 0; 0; 0; 0; 0; 0; 0; 100; 0; 184; 11; 208; 7; 65; 1] [[67; 80; 85]; [88]].
Definition tables : bmem := list_to_map (AcpiDemo.at_ 1000 (encoded_structs [proc] ++ [SMBIOS_TYPE_END])).

Lemma proc_ok : struct_ok proc.
Proof.
  split; [split; [simpl; lia|done]|done| |].
  - by apply (bool_decide_unpack (Forall (λ s, s ≠ [] ∧ Forall (λ x, x ≠ 0) s) (strs proc))).
  - intros _. split; [simpl; lia|]. exists 2. split; [done|simpl; lia].
Qed.
End SmbiosDemo.

Lemma find_smbios_correct_witness :
  wp (find_smbios (BC := debug_build) 16 32 48) SmbiosDemo.mem (λ r _, r = mk_smbios (sm_place 3) 3 2).
Proof.
  eapply wp_mono; [apply (find_smbios_correct (BC := debug_build) 16 32 48 SmbiosDemo.mem SmbiosDemo.bios)|].
  - by apply SmbiosDemo.consts_bytes.
  - by apply SmbiosDemo.consts_bytes.
  - by apply SmbiosDemo.consts_bytes.
  - apply SmbiosDemo.sm_lookup.
  - apply SmbiosDemo.bios_byte.
  - intros k _. apply SmbiosDemo.sane.
  - assert (entry_at SmbiosDemo.bios (sm_place 3) = Some (mk_smbios (sm_place 3) 3 2)) as E by (by vm_compute).
    intros r _ (_ & [[_ Hno]|(k & Hk & Hr & Hmin)]).
    + by rewrite Hno in E by lia.
    + assert (¬ 3 < k) by (intros Hlt; by rewrite Hmin in E by lia).
      assert (k = 0 ∨ k = 1 ∨ k = 2 ∨ k = 3) as [->|[->|[->| ->]]] by lia; [by vm_compute in Hr..|]. rewrite E in Hr. by injection Hr.
Defined.

Lemma smbios_tables_roundtrip_witness :
  wp (dump_smbios_tables (BC := debug_build) true 1000 2) SmbiosDemo.tables (λ out _,
    ∃ p, out = [p] ∧ p_max p = 3000 ∧ p_current p = 2000 ∧ bytes SmbiosDemo.tables (p_manufacturer p) [88; 0]).
Proof.
  pose proof (smbios_tables_roundtrip (BC := debug_build) SmbiosDemo.tables 1000 [SmbiosDemo.proc] 2) as H.
  eapply wp_mono; [apply H|].
  - by apply bytes_b_sound.
  - constructor; [apply SmbiosDemo.proc_ok|constructor].
  - intros t ty [= <-] [= <-]. lia.
  - intros out _ [_ Hf]. rewrite filter_cons_True in Hf by done. inversion Hf as [|? p ? ? [Hm Hc _ _ Hs] Hf']; subst. inversion Hf'; subst.
    exists p. split; [done|]. rewrite Hm, Hc. split; [done|]. split; [done|]. destruct (Hs 2 eq_refl) as (s & Es & Hb). by injection Es as <-.
Defined.
