(* ===== verification/Percpu.v ===== *)
(** * The data of a processor

    kernel/cpu/percpu.c, kernel/cpu/flush.asm, [smp_cpu_id_full] of
    kernel/smp/smp.c, the GDT and TSS of kernel/boot.asm and [msr_write] of
    include/asm.h, on byte memory with the registers they load.  The blocks
    [slob_alloc] gives next, with what they contain, are part of the state
    (Slob.v shows how it chooses them). *)

From stdpp Require Import base list gmap.
From Stdlib Require Import ZArith Lia Bool.
From S2P Require Import Prelude Strings Acpi AcpiSpec ApicSpec Interrupts.
Local Open Scope Z_scope.

Record pst := mk_pst {
  mem : bmem;
  heap : list (Z * list Z);      (* the blocks to come *)
  msrs : gmap Z Z;
  gdtr : Z * Z;                  (* base and limit *)
  tr : Z * Z;                    (* selector and base *)
  percpu_table : list Z;
  lapic_ids : list Z;            (* lapic_list[i].id *)
  this_lapic : Z                 (* what lapic_id() returns *)
}.
Definition upd_mem v s := mk_pst v (heap s) (msrs s) (gdtr s) (tr s) (percpu_table s) (lapic_ids s) (this_lapic s).
Definition upd_heap v s := mk_pst (mem s) v (msrs s) (gdtr s) (tr s) (percpu_table s) (lapic_ids s) (this_lapic s).
Definition upd_msrs f s := mk_pst (mem s) (heap s) (f (msrs s)) (gdtr s) (tr s) (percpu_table s) (lapic_ids s) (this_lapic s).
Definition upd_gdtr v s := mk_pst (mem s) (heap s) (msrs s) v (tr s) (percpu_table s) (lapic_ids s) (this_lapic s).
Definition upd_tr v s := mk_pst (mem s) (heap s) (msrs s) (gdtr s) v (percpu_table s) (lapic_ids s) (this_lapic s).
Definition upd_table f s := mk_pst (mem s) (heap s) (msrs s) (gdtr s) (tr s) (f (percpu_table s)) (lapic_ids s) (this_lapic s).

Definition on_mem {A} (m : B A) : M pst A := zoom mem upd_mem m.

(** A new block appears in memory. *)
Definition place (p : Z) (l : list Z) (m : bmem) : bmem := list_to_map (zip (seqZ p (Z.of_nat (length l))) l) ∪ m.

Definition slob_alloc (n : Z) : M pst Z :=
  s ← get;
  match heap s with
  | (p, l) :: rest => if Z.of_nat (length l) =? n then put (upd_heap rest (upd_mem (place p l (mem s)) s));; mret p else fault
  | [] => fault
  end.

(** ** boot.asm *)

Definition le16 (v : Z) : list Z := le_bytes 2 v.
Definition tss_size : Z := 0x68 - 1.

(** A code or data descriptor without base and limit. *)
Definition segment (access granularity : Z) : list Z := [0; 0; 0; 0; 0; access; granularity; 0].

Definition gdt64 : list Z :=
  segment 0 0 ++ segment 154 32 ++ segment 146 0 ++ segment 0 0 ++ segment 242 0 ++ segment 250 32 ++
  (le16 (Z.land tss_size 0xFFFF) ++ le16 0 ++ [0; 137; 0; 0] ++ le_bytes 4 0 ++ le_bytes 4 0).

Definition GDT_TSS : Z := 0x30.

(** The base of a 16-byte system descriptor. *)
Definition system_base (d : list Z) : Z :=
  le [default 0 (d !! 2%nat); default 0 (d !! 3%nat); default 0 (d !! 4%nat); default 0 (d !! 7%nat);
      default 0 (d !! 8%nat); default 0 (d !! 9%nat); default 0 (d !! 10%nat); default 0 (d !! 11%nat)].

Fixpoint ld_all (n : nat) (a : Z) : B (list Z) :=
  match n with O => mret [] | S n => x ← ld a; l ← ld_all n (a + 1); mret (x :: l) end.
Fixpoint st_all (a : Z) (l : list Z) : B unit :=
  match l with [] => mret tt | x :: l => st a x;; st_all (a + 1) l end.

(** [ltr] takes a descriptor inside the table that is of an available TSS,
    and marks it busy. *)
Definition AVAILABLE_TSS : Z := 0x89.
Definition BUSY_TSS : Z := 0x8B.
Definition ltr (sel : Z) : M pst unit :=
  s ← get;
  let '(base, limit) := gdtr s in
  if limit <? sel + 15 then fault
  else
    d ← on_mem (ld_all 16 (base + sel));
    if default 0 (d !! 5%nat) =? AVAILABLE_TSS then
      on_mem (st (base + sel + 5) BUSY_TSS);; modify (upd_tr (sel, system_base d))
    else fault.

Definition flush_gdt_tss (gdt size : Z) : M pst unit := modify (upd_gdtr (gdt, u16 size));; ltr GDT_TSS.

(** The start of [long_mode]: the BSP's TSS goes into the table. *)
Definition long_mode_tss (gdt tss64 : Z) : B unit :=
  let rdi := gdt + 0x30 in
  let rax := u64 tss64 in
  st_all (rdi + 2) (le_bytes 2 (u16 rax));;
  let rax := Z.shiftr rax 16 in
  st (rdi + 4) (u8 rax);;
  let rax := Z.shiftr rax 8 in
  st (rdi + 7) (u8 rax);;
  let rax := Z.shiftr rax 8 in
  st_all (rdi + 8) (le_bytes 4 (u32 rax)).

(** ** asm.h *)

Definition msr_write (msr value : Z) : M pst unit :=
  let low := u32 (Z.land value 0xFFFFFFFF) in
  let high := u32 (Z.shiftr value 32) in
  modify (upd_msrs <[u32 msr := Z.lor low (Z.shiftl high 32)]>).

(** ** percpu.c *)

Section code.
Context {BC : BuildConfig} (gdt64_addr tmp : Z).

Definition kmalloc (n : Z) : M pst Z :=
  p ← slob_alloc n;
  (if DEBUG then on_mem (memset p 0xBB n);; mret tt else mret tt);;
  mret p.

Definition smp_cpu_id_full : M pst Z :=
  s ← get;
  match list_find (λ i, i = this_lapic s) (lapic_ids s) with
  | Some (i, _) => mret (u8 (Z.of_nat i))
  | None => panic
  end.

Definition percpu_set_addr (p : Z) : M pst unit := msr_write 0xC0000101 p.

(** [percpu_table[i] = p] *)
Definition set_percpu (i p : Z) : M pst unit :=
  s ← get; if i <? Z.of_nat (length (percpu_table s)) then put (upd_table <[Z.to_nat i := p]> s) else fault.

Definition GDT_SIZE : Z := 0x40.
Definition TSS_SIZE : Z := 0x68.

Definition load_gdt_tss : M pst Z :=
  gdt ← kmalloc GDT_SIZE;
  on_mem (memcpy gdt gdt64_addr GDT_SIZE);;
  tss ← kmalloc TSS_SIZE;
  on_mem (memset tss 0 TSS_SIZE);;
  let tmp := le_bytes 8 tss in
  let t i := default 0 (tmp !! i) in
  let gdt_tss_desc := gdt + 0x30 in
  on_mem (st (gdt_tss_desc + 2) (t 0%nat);; st (gdt_tss_desc + 3) (t 1%nat);; st (gdt_tss_desc + 4) (t 2%nat);;
          st (gdt_tss_desc + 5) 0x89;;
          st (gdt_tss_desc + 7) (t 3%nat);; st (gdt_tss_desc + 8) (t 4%nat);; st (gdt_tss_desc + 9) (t 5%nat);;
          st (gdt_tss_desc + 10) (t 6%nat);; st (gdt_tss_desc + 11) (t 7%nat));;
  flush_gdt_tss gdt (GDT_SIZE - 1);;
  mret tss.

(** [struct percpu] *)
Definition SIZEOF_PERCPU : Z := 48.
Definition current_task (cpu : Z) : Z := cpu.
Definition rsp_scratch (cpu : Z) : Z := cpu + 8.
Definition tss (cpu : Z) : Z := cpu + 16.
Definition preempt_count (cpu : Z) : Z := cpu + 24.
Definition int_depth (cpu : Z) : Z := cpu + 32.
Definition reschedule (cpu : Z) : Z := cpu + 36.
Definition id (cpu : Z) : Z := cpu + 37.
Definition st64 (a v : Z) : B unit := st_all a (le_bytes 8 v).

(** [&tmp] is on the stack. *)
Definition percpu_init_ap : M pst unit :=
  percpu_set_addr tmp;;
  cpu ← kmalloc SIZEOF_PERCPU;
  i ← smp_cpu_id_full;
  on_mem (st (id cpu) i);;
  on_mem (st64 (current_task cpu) 0);;
  on_mem (st64 (rsp_scratch cpu) 0);;
  on_mem (st64 (preempt_count cpu) 0);;
  t ← load_gdt_tss;
  on_mem (st64 (tss cpu) t);;
  i ← on_mem (ld (id cpu));
  set_percpu i cpu;;
  percpu_set_addr cpu.

(** [bsp_percpu] is an object of its own. *)
Definition percpu_init_bsp (bsp_percpu : Z) : M pst unit :=
  set_percpu 0 bsp_percpu;;
  percpu_set_addr bsp_percpu.
End code.

(** ** Blocks of memory *)

(** Write a list of [n] elements out. *)
Tactic Notation "spell" integer(n) hyp(l) "with" hyp(Hl) := do n (destruct l as [|? l]; [discriminate Hl|]); destruct l; [|discriminate Hl].

Definition free_block (m : bmem) (a n : Z) : Prop := ∀ x, within a n x → m !! x = None.
Definition apart (a n b k : Z) : Prop := a + n ≤ b ∨ b + k ≤ a.

Lemma copied_trans a l1 l2 m m1 m2 : length l1 = length l2 → copied a l1 m m1 → copied a l2 m1 m2 → copied a l2 m m2.
Proof. intros El [_ F1] [B2 F2]. split; [done|]. intros x Hx. rewrite F2 by done. apply F1. by rewrite El. Qed.

Lemma copied_bytes a l m m' b k : copied a l m m' → bytes m b k → apart a (Z.of_nat (length l)) b (Z.of_nat (length k)) → bytes m' b k.
Proof. intros [_ F] Hb Ha. eapply bytes_ext; [done|]. intros x Hx. apply F. unfold apart, within in *. lia. Qed.

Lemma copied_free a l m m' b n : copied a l m m' → free_block m b n → apart a (Z.of_nat (length l)) b n → free_block m' b n.
Proof. intros [_ F] Hb Ha x Hx. rewrite F; [by apply Hb|]. unfold apart, within in *. lia. Qed.

Lemma free_apart m a n b k : free_block m a n → bytes m b k → 0 ≤ n → apart a n b (Z.of_nat (length k)) ∨ n = 0 ∨ k = [].
Proof.
  intros Hf Hb Hn. unfold apart. destruct (decide (a + n ≤ b)) as [|H1]; [by auto|]. destruct (decide (b + Z.of_nat (length k) ≤ a)) as [|H2]; [by auto|].
  right. destruct (decide (n = 0)) as [|Hn0]; [by left|]. right. destruct k as [|y k]; [done|]. exfalso.
  destruct (lookup_lt_is_Some_2 (y :: k) (Z.to_nat (Z.max a b - b))) as [z Hz]; [simpl length in *; lia|].
  specialize (Hb _ _ Hz). replace (b + Z.of_nat (Z.to_nat (Z.max a b - b))) with (Z.max a b) in Hb by lia.
  rewrite (Hf (Z.max a b)) in Hb; [done|]. unfold within. lia.
Qed.

Lemma copied_insert a l m i v : bytes m a l → (i < length l)%nat → copied a (<[i := v]> l) m (<[a + Z.of_nat i := v]> m).
Proof.
  intros Hb Hi. split.
  - intros j x. destruct (decide (i = j)) as [<-|Hne].
    + rewrite list_lookup_insert_eq by done. intros [= <-]. apply lookup_insert_eq.
    + rewrite list_lookup_insert_ne by done. intros Hj. rewrite lookup_insert_ne by lia. by apply Hb.
  - intros x Hx. rewrite length_insert in Hx. apply lookup_insert_ne. unfold within in Hx. lia.
Qed.

Lemma wp_st_in a l m i v (Q : unit → bmem → Prop) :
  bytes m a l → (i < length l)%nat → (∀ m', copied a (<[i := v]> l) m m' → Q tt m') → wp (st (a + Z.of_nat i) v) m Q.
Proof.
  intros Hb Hi HQ. destruct (lookup_lt_is_Some_2 l i Hi) as [x Hx]. apply (wp_st _ _ x); [by apply Hb|]. by apply HQ, copied_insert.
Qed.

Lemma wp_st_all a l k m i (Q : unit → bmem → Prop) :
  bytes m a l → (i + length k ≤ length l)%nat → (∀ m', copied a (list_inserts i k l) m m' → Q tt m') → wp (st_all (a + Z.of_nat i) k) m Q.
Proof.
  revert m l i. induction k as [|v k IH]; intros m l i Hb Hi HQ; simpl in *.
  - apply wp_ret, HQ. by split.
  - apply wp_bind. eapply wp_st_in; [done|lia|]. intros m1 C1. replace (a + Z.of_nat i + 1) with (a + Z.of_nat (S i)) by lia.
    apply (IH _ (<[i := v]> l)); [apply C1|rewrite length_insert; lia|]. intros m2 C2. apply HQ.
    rewrite list_insert_inserts_lt by lia. eapply copied_trans; [|exact C1|exact C2]. by rewrite length_inserts.
Qed.

Lemma wp_ld_all m a l (Q : list Z → bmem → Prop) : bytes m a l → Q l m → wp (ld_all (length l) a) m Q.
Proof.
  revert a Q. induction l as [|x l IH]; intros a Q Hb HQ; simpl; [by apply wp_ret|]. apply bytes_cons in Hb as [Hx Hb].
  apply wp_bind, (wp_ld _ x); [done|]. by apply wp_bind, IH.
Qed.

Lemma copied_place p l m : free_block m p (Z.of_nat (length l)) → copied p l m (place p l m).
Proof.
  intros Hf. set (k := zip (seqZ p (Z.of_nat (length l))) l).
  assert (length (seqZ p (Z.of_nat (length l))) = length l) as El by (rewrite length_seqZ; lia).
  assert (NoDup k.*1) as Hnd by (unfold k; rewrite fst_zip by lia; apply NoDup_seqZ). split.
  - intros i x Hi. apply lookup_union_Some_l, elem_of_list_to_map_1; [done|]. apply list_elem_of_lookup. exists i.
    unfold k. rewrite lookup_zip_with, lookup_seqZ_lt, Hi; [done|]. apply lookup_lt_Some in Hi. lia.
  - intros x Hx. apply lookup_union_r, not_elem_of_list_to_map_1. unfold k. rewrite fst_zip, elem_of_seqZ by lia. unfold within in Hx. lia.
Qed.

(** ** The operations *)

Lemma wp_on_pmem {A} (m : B A) s (Q : A → pst → Prop) : wp m (mem s) (λ x m', Q x (upd_mem m' s)) → wp (on_mem m) s Q.
Proof. apply wp_zoom. Qed.

Section proofs.
Context {BC : BuildConfig}.

(** What a new block contains. *)
Definition fresh (l : list Z) : list Z := if DEBUG then replicate (length l) 0xBB else l.

Lemma length_fresh l : length (fresh l) = length l.
Proof. unfold fresh. destruct DEBUG; [by rewrite length_replicate|done]. Qed.

Lemma wp_pkmalloc n p l rest s (Q : Z → pst → Prop) :
  heap s = (p, l) :: rest → Z.of_nat (length l) = n → free_block (mem s) p n →
  (∀ m', copied p (fresh l) (mem s) m' → Q p (upd_heap rest (upd_mem m' s))) → wp (kmalloc n) s Q.
Proof.
  intros Eh En Hf HQ. apply wp_bind, wp_bind, wp_get. rewrite Eh, (proj2 (Z.eqb_eq _ _) En). apply wp_bind, wp_put, wp_ret.
  rewrite <-En in Hf. pose proof (copied_place p l (mem s) Hf) as Hc. unfold fresh in HQ. destruct DEBUG; [|by apply wp_bind, wp_ret, wp_ret, HQ].
  apply wp_bind, wp_bind, wp_on_pmem. cbn. rewrite <-En. eapply wp_mono; [apply wp_memset, Hc|].
  intros r m' [_ Hc']. apply wp_ret, wp_ret. apply HQ. eapply copied_trans; [|exact Hc|exact Hc']. by rewrite length_replicate.
Qed.

Lemma wp_cpu_id s i (Q : Z → pst → Prop) :
  lapic_ids s !! i = Some (this_lapic s) → NoDup (lapic_ids s) → (i < 256)%nat → Q (Z.of_nat i) s → wp smp_cpu_id_full s Q.
Proof.
  intros Hi Hnd Hlt HQ. apply wp_bind, wp_get. destruct (list_find _ (lapic_ids s)) as [[j x]|] eqn:E.
  - apply list_find_Some in E as (Hj & -> & _). rewrite (NoDup_lookup _ _ _ _ Hnd Hj Hi) in *. apply wp_ret.
    rewrite uwrap_id; [done|]. unfold in_u. lia.
  - apply list_find_None in E. rewrite Forall_lookup in E. by destruct (E i _ Hi).
Qed.

(** A CPU that is not in the list stops. *)
Lemma cpu_id_unknown s : this_lapic s ∉ lapic_ids s → smp_cpu_id_full s = Panic.
Proof.
  intros Hn. unfold smp_cpu_id_full, mbind, M_bind, get. destruct (list_find _ (lapic_ids s)) as [[j x]|] eqn:E; [|done].
  apply list_find_Some in E as (Hj & -> & _). destruct Hn. by eapply list_elem_of_lookup_2.
Qed.

Lemma wp_msr_write msr v s (Q : unit → pst → Prop) :
  in_u 32 msr → in_u 64 v → Q tt (upd_msrs <[msr := v]> s) → wp (msr_write msr v) s Q.
Proof.
  intros Hm Hv HQ. apply wp_modify. rewrite (uwrap_id 32 msr) by done.
  replace (Z.lor _ _) with v; [done|]. rewrite <-(u64_halves v Hv) at 1. f_equal.
  change 0xFFFFFFFF with (Z.ones 32). rewrite Z.land_ones by done. unfold uwrap. by rewrite Z.mod_mod.
Qed.

(** The GDT of an AP: the BSP's with the base of its own TSS. *)
Definition ap_gdt (g : list Z) (t type : Z) : list Z :=
  let b (i : nat) := default 0 (le_bytes 8 t !! i) in
  take 50 g ++ [b 0; b 1; b 2]%nat ++ [type] ++ take 1 (drop 54 g) ++ [b 3; b 4; b 5; b 6; b 7]%nat ++ drop 60 g.

Lemma ap_gdt_inserts g t :
  length g = 64%nat →
  let b (i : nat) := default 0 (le_bytes 8 t !! i) in
  <[59%nat := b 7%nat]> (<[58%nat := b 6%nat]> (<[57%nat := b 5%nat]> (<[56%nat := b 4%nat]> (<[55%nat := b 3%nat]> (<[53%nat := 0x89]> (<[52%nat := b 2%nat]> (<[51%nat := b 1%nat]> (<[50%nat := b 0%nat]> g)))))))) = ap_gdt g t 0x89.
Proof. intros Hg. spell 64 g with Hg; reflexivity. Qed.

Lemma ap_gdt_busy g t : length g = 64%nat → <[53%nat := BUSY_TSS]> (ap_gdt g t 0x89) = ap_gdt g t BUSY_TSS.
Proof. intros Hg. spell 64 g with Hg; reflexivity. Qed.

Lemma length_ap_gdt g t y : length g = 64%nat → length (ap_gdt g t y) = 64%nat.
Proof. intros Hg. spell 64 g with Hg; reflexivity. Qed.

(** The CPU finds the TSS where it is. *)
Lemma ap_gdt_base g t y : length g = 64%nat → in_u 64 t → system_base (drop 48 (ap_gdt g t y)) = t ∧ drop 48 (ap_gdt g t y) !! 5%nat = Some y.
Proof.
  intros Hg Ht. rewrite <-(le_le_bytes 8 t) at 2 by exact Ht. spell 64 g with Hg; by split.
Qed.

Lemma wp_ltr s gdt g t (Q : unit → pst → Prop) :
  gdtr s = (gdt, 0x3F) → length g = 64%nat → in_u 64 t → bytes (mem s) gdt (ap_gdt g t 0x89) →
  (∀ m', copied gdt (ap_gdt g t BUSY_TSS) (mem s) m' → Q tt (upd_tr (GDT_TSS, t) (upd_mem m' s))) → wp (ltr GDT_TSS) s Q.
Proof.
  intros Eg Hg Ht Hb HQ. apply wp_bind, wp_get. rewrite Eg. change (0x3F <? GDT_TSS + 15) with false. cbv iota.
  pose proof (length_ap_gdt g t 0x89 Hg) as El. destruct (ap_gdt_base g t 0x89 Hg Ht) as [Hbase Htype].
  assert (bytes (mem s) (gdt + GDT_TSS) (drop 48 (ap_gdt g t 0x89))) as Hd.
  { intros i x Hi. rewrite lookup_drop in Hi. replace (gdt + GDT_TSS + Z.of_nat i) with (gdt + Z.of_nat (48 + i)) by (unfold GDT_TSS; lia). by apply Hb. }
  replace 16%nat with (length (drop 48 (ap_gdt g t 0x89))) by (rewrite length_drop, El; done).
  apply wp_bind, wp_on_pmem, wp_ld_all; [done|]. rewrite Htype. cbn [default Z.eqb]. change (_ =? AVAILABLE_TSS) with true. cbv iota.
  apply wp_bind, wp_on_pmem. cbn [mem upd_mem]. replace (gdt + GDT_TSS + 5) with (gdt + Z.of_nat 53) by (unfold GDT_TSS; lia).
  eapply wp_st_in; [exact Hb|rewrite El; lia|]. rewrite ap_gdt_busy by done. intros m' Hc. apply wp_modify. rewrite Hbase.
  by destruct s; apply HQ.
Qed.

(** Memory after [load_gdt_tss]: two blocks have contents, the rest is as it
    was. *)
Record gdt_tss_at (g : list Z) (gdt t : Z) (m m' : bmem) : Prop := {
  gt_gdt : bytes m' gdt (ap_gdt g t BUSY_TSS);
  gt_tss : bytes m' t (replicate 104 0);
  gt_rest x : ¬ within gdt 64 x → ¬ within t 104 x → m' !! x = m !! x
}.

(** One more store of a block, by the fact [Hst] about such stores. *)
Local Ltac next_st Hst k C L := apply wp_bind, (Hst k%nat _ _ _ _ C L); [lia|clear C L; intros ? C L].

(** The nine stores into the descriptor. *)
Lemma wp_descriptor m gdt g t (Q : unit → bmem → Prop) :
  bytes m gdt g → length g = 64%nat → (∀ m', copied gdt (ap_gdt g t 0x89) m m' → Q tt m') →
  let b (i : nat) := default 0 (le_bytes 8 t !! i) in let d := gdt + 0x30 in
  wp (st (d + 2) (b 0%nat);; st (d + 3) (b 1%nat);; st (d + 4) (b 2%nat);; st (d + 5) 0x89;; st (d + 7) (b 3%nat);;
      st (d + 8) (b 4%nat);; st (d + 9) (b 5%nat);; st (d + 10) (b 6%nat);; st (d + 11) (b 7%nat)) m Q.
Proof.
  intros Hb Hg HQ b d.
  assert (∀ k l m0 v (R : unit → bmem → Prop), copied gdt l m m0 → length l = 64%nat → (2 ≤ k < 16)%nat →
    (∀ m1, copied gdt (<[(48 + k)%nat := v]> l) m m1 → length (<[(48 + k)%nat := v]> l) = 64%nat → R tt m1) → wp (st (d + Z.of_nat k) v) m0 R) as Hst.
  { intros k l m0 v R Hc Hl Hk HR. replace (d + Z.of_nat k) with (gdt + Z.of_nat (48 + k)) by lia.
    eapply wp_st_in; [apply Hc|lia|]. intros m1 Hc1. apply HR; [|by rewrite length_insert]. eapply copied_trans; [|exact Hc|exact Hc1]. by rewrite length_insert. }
  assert (copied gdt g m m) as C0 by by split. assert (length g = 64%nat) as L0 by done.
  next_st Hst 2%nat C0 L0. next_st Hst 3%nat C0 L0. next_st Hst 4%nat C0 L0. next_st Hst 5%nat C0 L0. next_st Hst 7%nat C0 L0.
  next_st Hst 8%nat C0 L0. next_st Hst 9%nat C0 L0. next_st Hst 10%nat C0 L0. apply (Hst 11%nat _ _ _ _ C0 L0); [lia|].
  intros m' C _. apply HQ. rewrite <-ap_gdt_inserts by done. exact C.
Qed.

Lemma wp_load_gdt_tss addr s g gdt lg t lt rest (Q : Z → pst → Prop) :
  heap s = (gdt, lg) :: (t, lt) :: rest → length lg = 64%nat → length lt = 104%nat →
  free_block (mem s) gdt 64 → free_block (mem s) t 104 → apart gdt 64 t 104 → in_u 64 t →
  bytes (mem s) addr g → length g = 64%nat →
  (∀ m', gdt_tss_at g gdt t (mem s) m' → Q t (upd_tr (GDT_TSS, t) (upd_gdtr (gdt, 0x3F) (upd_heap rest (upd_mem m' s))))) →
  wp (load_gdt_tss addr) s Q.
Proof.
  intros Eh Llg Llt Fg Ft Hap Ht Hb Hg HQ. unfold load_gdt_tss. apply wp_bind, (wp_pkmalloc _ gdt lg ((t, lt) :: rest)); [done|unfold GDT_SIZE; lia|done|].
  intros m1 C1. pose proof (length_fresh lg) as Lf1. rewrite Llg in Lf1.
  destruct (free_apart _ _ _ _ _ Fg Hb) as [A1|[?|?]]; [lia| |lia|by subst]. rewrite Hg in A1.
  apply wp_bind, wp_on_pmem. cbn [mem upd_mem upd_heap]. unfold GDT_SIZE. replace 0x40 with (Z.of_nat (length g)) by lia.
  eapply wp_mono; [apply (wp_memcpy m1 gdt addr g (fresh lg))|].
  { eapply copied_bytes; [exact C1|exact Hb|]. by rewrite Lf1, Hg. }
  { apply C1. }
  { lia. }
  { rewrite Hg. unfold apart in A1. lia. }
  intros ? m2 [_ C2]. assert (copied gdt g (mem s) m2) as C02 by (eapply copied_trans; [|exact C1|exact C2]; lia).
  apply wp_bind, (wp_pkmalloc _ t lt rest); [done|unfold TSS_SIZE; lia| |].
  { cbn [mem upd_mem upd_heap]. eapply copied_free; [exact C02|done|]. by rewrite Hg. }
  cbn [mem upd_mem upd_heap]. intros m3 C3. pose proof (length_fresh lt) as Lf3. rewrite Llt in Lf3.
  apply wp_bind, wp_on_pmem. cbn [mem upd_mem upd_heap]. unfold TSS_SIZE. replace 0x68 with (Z.of_nat (length (fresh lt))) by lia.
  eapply wp_mono; [apply wp_memset, C3|]. intros ? m4 [_ C4]. rewrite Lf3 in C4.
  assert (copied t (replicate 104 0) m2 m4) as C24 by (eapply copied_trans; [|exact C3|exact C4]; by rewrite length_replicate).
  apply wp_bind, wp_on_pmem. cbn [mem upd_mem upd_heap]. apply (wp_descriptor m4 gdt g t); [|done|].
  { eapply copied_bytes; [exact C24|apply C02|]. rewrite length_replicate, Hg. unfold apart in *. lia. }
  intros m5 C5. apply wp_bind, wp_bind, wp_modify. replace (u16 (Z.of_nat (length g) - 1)) with 0x3F by by rewrite Hg.
  apply (wp_ltr _ gdt g t); [done|done|done|apply C5|]. cbn [mem upd_mem upd_heap upd_gdtr]. intros m6 C6. apply wp_ret.
  apply (HQ m6). pose proof (length_ap_gdt g t 0x89 Hg) as L5. pose proof (length_ap_gdt g t BUSY_TSS Hg) as L6.
  assert (copied gdt (ap_gdt g t BUSY_TSS) m4 m6) as C46 by (eapply copied_trans; [|exact C5|exact C6]; lia). split.
  - apply C6.
  - eapply copied_bytes; [exact C46|apply C24|]. rewrite L6, length_replicate. done.
  - intros y Hx1 Hx2. rewrite (proj2 C46), (proj2 C24), (proj2 C02); [done|..]; rewrite ?L6, ?Hg, ?length_replicate; done.
Qed.

(** [struct percpu] as [percpu_init_ap] leaves it in a block that contained
    [l]: it sets neither the interrupt depth, the reschedule flag, the APIC id
    nor the run queue. *)
Definition percpu_bytes (l : list Z) (i t : Z) : list Z :=
  replicate 16 0 ++ le_bytes 8 t ++ replicate 8 0 ++ take 5 (drop 32 l) ++ [i] ++ drop 38 l.

Lemma percpu_inserts l i t :
  length l = 48%nat →
  list_inserts 16 (le_bytes 8 t) (list_inserts 24 (le_bytes 8 0) (list_inserts 8 (le_bytes 8 0) (list_inserts 0 (le_bytes 8 0) (<[37%nat := i]> l)))) =
  percpu_bytes l i t.
Proof. intros Hl. spell 48 l with Hl; reflexivity. Qed.

Lemma wp_st64_in s a l (k : nat) v (Q : unit → pst → Prop) :
  bytes (mem s) a l → (k + 8 ≤ length l)%nat → (∀ m', copied a (list_inserts k (le_bytes 8 v) l) (mem s) m' → Q tt (upd_mem m' s)) →
  wp (on_mem (st64 (a + Z.of_nat k) v)) s Q.
Proof. intros Hb Hk HQ. apply wp_on_pmem. eapply wp_st_all; [done|by rewrite length_le_bytes|]. intros m' Hc. by apply HQ. Qed.

Lemma percpu_id l i t : length l = 48%nat → percpu_bytes l i t !! 37%nat = Some i.
Proof. intros Hl. spell 48 l with Hl; reflexivity. Qed.

Lemma length_percpu l i t : length l = 48%nat → length (percpu_bytes l i t) = 48%nat.
Proof. intros Hl. spell 48 l with Hl; reflexivity. Qed.

(** The four fields set before the TSS is there. *)
Lemma wp_percpu_fields s cpu l i {A} (k : M pst A) (Q : A → pst → Prop) :
  bytes (mem s) cpu l → length l = 48%nat →
  (∀ m', copied cpu (list_inserts 24 (le_bytes 8 0) (list_inserts 8 (le_bytes 8 0) (list_inserts 0 (le_bytes 8 0) (<[37%nat := i]> l)))) (mem s) m' →
     wp k (upd_mem m' s) Q) →
  wp (on_mem (st (id cpu) i);; on_mem (st64 (current_task cpu) 0);; on_mem (st64 (rsp_scratch cpu) 0);; on_mem (st64 (preempt_count cpu) 0);; k) s Q.
Proof.
  intros Hb Hl HQ. apply wp_bind, wp_on_pmem. change (id cpu) with (cpu + Z.of_nat 37). eapply wp_st_in; [exact Hb|lia|]. intros m2 C2.
  apply wp_bind. replace (current_task cpu) with (cpu + Z.of_nat 0) by (unfold current_task; lia).
  eapply wp_st64_in; [apply C2|rewrite length_insert; lia|]. intros m3 C3.
  apply wp_bind. change (rsp_scratch cpu) with (cpu + Z.of_nat 8).
  eapply wp_st64_in; [apply C3|rewrite length_inserts, length_insert; lia|]. intros m4 C4.
  apply wp_bind. change (preempt_count cpu) with (cpu + Z.of_nat 24).
  eapply wp_st64_in; [apply C4|rewrite !length_inserts, length_insert; lia|]. intros m5 C5. apply (HQ m5).
  eapply copied_trans; [|exact C2|]; [by rewrite !length_inserts|]. eapply copied_trans; [|exact C3|]; [by rewrite !length_inserts|].
  eapply copied_trans; [|exact C4|exact C5]. by rewrite !length_inserts.
Qed.

Definition GS_BASE : Z := 0xC0000101.

Record ap_ready (g lc : list Z) (i : nat) (cpu gdt t : Z) (s s' : pst) : Prop := {
  ar_percpu : bytes (mem s') cpu (percpu_bytes (fresh lc) (Z.of_nat i) t);
  ar_gdt : bytes (mem s') gdt (ap_gdt g t BUSY_TSS);
  ar_tss : bytes (mem s') t (replicate 104 0);
  ar_rest x y : mem s !! x = Some y → mem s' !! x = Some y;
  ar_gs : msrs s' = <[GS_BASE := cpu]> (msrs s);
  ar_gdtr : gdtr s' = (gdt, 0x3F);
  ar_tr : tr s' = (GDT_TSS, t);
  ar_table : percpu_table s' = <[i := cpu]> (percpu_table s)
}.

(** C29: percpu_init_ap gives a processor that the table of local APICs lists
    at position [i] its own data.  The GS base is its struct percpu, which is
    entry [i] of percpu_table and no other; the task, the saved stack pointer
    and the preemption count are 0, the id is [i], and the TSS pointer is that
    of a cleared TSS.  The GDT register has a copy of the kernel's table with
    the base of this TSS, and the task register has loaded it.  Nothing that
    was in memory changes. *)
Theorem percpu_init_ap_correct addr tmp s g i cpu lc gdt lg t lt rest :
  heap s = (cpu, lc) :: (gdt, lg) :: (t, lt) :: rest →
  length lc = 48%nat → length lg = 64%nat → length lt = 104%nat →
  free_block (mem s) cpu 48 → free_block (mem s) gdt 64 → free_block (mem s) t 104 →
  apart cpu 48 gdt 64 → apart cpu 48 t 104 → apart gdt 64 t 104 → in_u 64 cpu → in_u 64 t → in_u 64 tmp →
  bytes (mem s) addr g → length g = 64%nat →
  lapic_ids s !! i = Some (this_lapic s) → NoDup (lapic_ids s) → (i < 256)%nat → (i < length (percpu_table s))%nat →
  wp (percpu_init_ap addr tmp) s (λ _, ap_ready g lc i cpu gdt t s).
Proof.
  intros Eh Llc Llg Llt Fc Fg Ft Acg Act Agt Uc Ut Utmp Hb Hg Hi Hnd Hi256 Htab. unfold percpu_init_ap.
  apply wp_bind, wp_msr_write; [done..|]. apply wp_bind, (wp_pkmalloc _ cpu lc ((gdt, lg) :: (t, lt) :: rest)); [done|unfold SIZEOF_PERCPU; lia|done|].
  cbn [mem upd_mem upd_heap upd_msrs]. intros m1 C1. pose proof (length_fresh lc) as Lf. rewrite Llc in Lf.
  apply wp_bind, (wp_cpu_id _ i); [done..|]. apply (wp_percpu_fields _ cpu (fresh lc)); [apply C1|done|]. cbn [mem upd_mem upd_heap upd_msrs].
  intros m5 C5. set (l5 := list_inserts 24 _ _) in *. assert (length l5 = 48%nat) as L5 by (unfold l5; by rewrite !length_inserts, length_insert).
  assert (copied cpu l5 (mem s) m5) as C05 by (eapply copied_trans; [|exact C1|exact C5]; lia).
  clear C1 C5. destruct (free_apart _ _ _ _ _ Fc Hb) as [A1|[?|?]]; [lia| |lia|by subst]. rewrite Hg in A1.
  apply wp_bind, (wp_load_gdt_tss _ _ g gdt lg t lt rest); cbn [mem upd_mem upd_heap upd_msrs]; [done..| | |done|done| |done|].
  { eapply copied_free; [exact C05|done|by rewrite L5]. }
  { eapply copied_free; [exact C05|done|by rewrite L5]. }
  { eapply copied_bytes; [exact C05|done|by rewrite L5, Hg]. }
  intros m6 [G1 G2 G3]. assert (bytes m6 cpu l5) as B6.
  { eapply bytes_ext; [apply C05|]. intros x Hx. rewrite L5 in Hx. apply G3; unfold within, apart in *; lia. }
  apply wp_bind. change (tss cpu) with (cpu + Z.of_nat 16). eapply wp_st64_in; [exact B6|lia|]. cbn [mem upd_mem upd_heap upd_msrs upd_tr upd_gdtr].
  intros m7 C7. unfold l5 in C7. rewrite percpu_inserts in C7 by done. set (l7 := percpu_bytes (fresh lc) (Z.of_nat i) t) in *.
  pose proof (length_percpu (fresh lc) (Z.of_nat i) t Lf) as L7. fold l7 in L7.
  apply wp_bind, wp_on_pmem. apply (wp_ld _ (Z.of_nat i)); [apply (proj1 C7 37%nat), percpu_id, Lf|].
  apply wp_bind, wp_bind, wp_get. cbn [mem upd_mem upd_heap upd_msrs upd_tr upd_gdtr percpu_table].
  rewrite (proj2 (Z.ltb_lt _ _)) by lia. apply wp_put, wp_msr_write; [done..|]. rewrite Nat2Z.id. split; cbn.
  - apply C7.
  - eapply copied_bytes; [exact C7|exact G1|]. rewrite L7, (length_ap_gdt _ _ _ Hg). done.
  - eapply copied_bytes; [exact C7|exact G2|]. by rewrite L7.
  - intros x y Hx. rewrite (proj2 C7), G3, (proj2 C05); [done|..]; rewrite ?L5, ?L7; intros Hw; [rewrite Fc in Hx|rewrite Fg in Hx|rewrite Ft in Hx|rewrite Fc in Hx]; done.
  - by rewrite insert_insert_eq.
  - done.
  - done.
  - done.
Qed.
End proofs.

(** Bytes of a number shifted by whole bytes. *)
Lemma le_bytes_nth n v (i : nat) : (i < n)%nat → le_bytes n v !! i = Some (u8 (Z.shiftr v (8 * Z.of_nat i))).
Proof.
  revert v i. induction n as [|n IH]; intros v [|i] Hi; [lia..|done|]. simpl. rewrite IH by lia. f_equal. f_equal.
  change (v / 256) with (v / 2 ^ 8). rewrite <-Z.shiftr_div_pow2, Z.shiftr_shiftr by lia. f_equal. lia.
Qed.

Lemma byte_of_wrap w v k : 0 ≤ k → k + 8 ≤ w → u8 (Z.shiftr (uwrap w v) k) = u8 (Z.shiftr v k).
Proof.
  intros Hk Hw. apply Z.bits_inj'. intros i Hi. unfold uwrap. destruct (Z.lt_ge_cases i 8).
  - rewrite !(Z.mod_pow2_bits_low _ 8), !Z.shiftr_spec, Z.mod_pow2_bits_low by lia. done.
  - by rewrite !(Z.mod_pow2_bits_high _ 8) by lia.
Qed.

Lemma le_bytes_wrap n v k : 0 ≤ k → le_bytes n (uwrap (8 * Z.of_nat n) (Z.shiftr v k)) = (λ i : nat, u8 (Z.shiftr v (k + 8 * Z.of_nat i))) <$> seq 0 n.
Proof.
  intros Hk. apply list_eq. intros i. destruct (decide (i < n)%nat) as [Hi|Hi].
  - rewrite le_bytes_nth, list_lookup_fmap, lookup_seq_lt by done. simpl. f_equal. rewrite byte_of_wrap by lia. by rewrite Z.shiftr_shiftr by lia.
  - rewrite !lookup_ge_None_2; [done|rewrite length_fmap, length_seq; lia|rewrite length_le_bytes; lia].
Qed.

Lemma long_mode_bytes g t :
  length g = 64%nat → g !! 53%nat = Some 0x89 →
  list_inserts 56 (le_bytes 4 (u32 (Z.shiftr (Z.shiftr (Z.shiftr t 16) 8) 8)))
    (<[55%nat := u8 (Z.shiftr (Z.shiftr t 16) 8)]> (<[52%nat := u8 (Z.shiftr t 16)]> (list_inserts 50 (le_bytes 2 (u16 t)) g))) = ap_gdt g t 0x89.
Proof.
  intros Hg Hty. replace (Z.shiftr (Z.shiftr t 16) 8) with (Z.shiftr t 24) by by rewrite Z.shiftr_shiftr.
  replace (Z.shiftr (Z.shiftr t 24) 8) with (Z.shiftr t 32) by by rewrite Z.shiftr_shiftr.
  pose proof (le_bytes_wrap 4 t 32 ltac:(done)) as E4. change (8 * Z.of_nat 4) with 32 in E4. rewrite E4.
  replace (u16 t) with (u16 (Z.shiftr t 0)) by by rewrite Z.shiftr_0_r.
  pose proof (le_bytes_wrap 2 t 0 ltac:(done)) as E2. change (8 * Z.of_nat 2) with 16 in E2. rewrite E2.
  unfold ap_gdt. rewrite !le_bytes_nth by lia. cbn [default]. spell 64 g with Hg. injection Hty as ->. reflexivity.
Qed.

(** The boot code's way to write the TSS into the GDT, in assembly with
    shifts, and that of load_gdt_tss, in C with the bytes of the pointer,
    leave the same table, for every address and every table whose TSS
    descriptor is marked available. *)
Theorem long_mode_tss_same m gdt g t :
  bytes m gdt g → length g = 64%nat → g !! 53%nat = Some 0x89 → in_u 64 t →
  wp (long_mode_tss gdt t) m (λ _ m', copied gdt (ap_gdt g t 0x89) m m').
Proof.
  intros Hb Hg Hty Ht. unfold long_mode_tss. rewrite (uwrap_id 64 t) by done.
  replace (gdt + 0x30 + 2) with (gdt + Z.of_nat 50) by lia. apply wp_bind. eapply wp_st_all; [exact Hb|rewrite length_le_bytes; lia|]. intros m1 C1.
  replace (gdt + 0x30 + 4) with (gdt + Z.of_nat 52) by lia. apply wp_bind. eapply wp_st_in; [apply C1|rewrite length_inserts; lia|]. intros m2 C2.
  replace (gdt + 0x30 + 7) with (gdt + Z.of_nat 55) by lia. apply wp_bind. eapply wp_st_in; [apply C2|rewrite length_insert, length_inserts; lia|]. intros m3 C3.
  replace (gdt + 0x30 + 8) with (gdt + Z.of_nat 56) by lia.
  eapply wp_st_all; [apply C3|rewrite !length_insert, length_inserts, length_le_bytes; lia|]. intros m4 C4.
  rewrite <-long_mode_bytes by done. eapply copied_trans; [|exact C1|]; [by rewrite !length_inserts, !length_insert, !length_inserts|].
  eapply copied_trans; [|exact C2|]; [by rewrite !length_inserts, !length_insert, !length_inserts|].
  eapply copied_trans; [|exact C3|exact C4]. by rewrite !length_inserts, !length_insert, !length_inserts.
Qed.

(** In a debug build, where [kmalloc] fills what it returns, the interrupt
    depth of an AP starts at 0xBBBBBBBB.  It never comes back to 0, so that no
    interrupt lets the scheduler run ([isr_irq_nested_no_yield]). *)
Theorem ap_depth_uninitialised g lc i cpu gdt t s s' :
  ap_ready (BC := debug_build) g lc i cpu gdt t s s' → length lc = 48%nat →
  wp (ld32 (int_depth cpu)) (mem s') (λ v _, v = 0xBBBBBBBB).
Proof.
  intros [Hb _ _ _ _ _ _ _] Hl. apply (wp_ld32 _ _ (replicate 4 0xBB)); [|done|done].
  intros j x Hj. replace (int_depth cpu + Z.of_nat j) with (cpu + Z.of_nat (32 + j)) by (unfold int_depth; lia). apply Hb.
  pose proof (lookup_lt_Some _ _ _ Hj) as Hlt. rewrite length_replicate in Hlt. apply lookup_replicate in Hj as [-> _].
  unfold fresh. change (@DEBUG debug_build) with true. cbv iota. rewrite Hl. clear -Hlt. do 4 (destruct j as [|j]; [reflexivity|]). lia.
Qed.

Module PercpuDemo.
(** Three processors; the one with local APIC 2 starts. *)
Definition m0 : bmem := place 0x1000 gdt64 ∅.
Definition s : pst := mk_pst m0 [(0x2000, replicate 48 7); (0x3000, replicate 64 7); (0x4000, replicate 104 7)] ∅ (0, 0) (0, 0) (replicate 16 0) [0; 2; 5] 2.

Lemma placed : copied 0x1000 gdt64 ∅ m0.
Proof. apply copied_place. by intros x _. Qed.
Lemma free_above a n : 0x2000 ≤ a → free_block m0 a n.
Proof. intros Ha x Hx. rewrite (proj2 placed); [done|]. unfold within in *. cbn. lia. Qed.
Lemma ids : NoDup [0; 2; 5].
Proof. by apply (bool_decide_eq_true_1 (NoDup [0; 2; 5])). Qed.
End PercpuDemo.

Lemma percpu_init_ap_correct_witness :
  wp (percpu_init_ap (BC := debug_build) 0x1000 0x7000) PercpuDemo.s
     (λ _ s', percpu_table s' !! 1%nat = Some 0x2000 ∧ msrs s' !! GS_BASE = Some 0x2000 ∧ tr s' = (0x30, 0x4000)).
Proof.
  eapply wp_mono; [apply (percpu_init_ap_correct (BC := debug_build) 0x1000 0x7000 PercpuDemo.s gdt64 1 0x2000 (replicate 48 7) 0x3000 (replicate 64 7) 0x4000 (replicate 104 7) [])|].
  1-4: reflexivity.
  1-3: apply PercpuDemo.free_above; lia.
  1-3: left; lia.
  1-3: by unfold in_u.
  1: exact (proj1 PercpuDemo.placed).
  1-2: reflexivity.
  1: exact PercpuDemo.ids.
  1-2: cbn; lia.
  intros ? s' [_ _ _ _ Hg _ Ht Htab]. rewrite Hg, Htab. split; [reflexivity|]. split; [reflexivity|exact Ht].
Defined.

Lemma long_mode_tss_same_witness :
  wp (long_mode_tss 0x1000 0xFFFFFFFF80123450) PercpuDemo.m0 (λ _ m', copied 0x1000 (ap_gdt gdt64 0xFFFFFFFF80123450 0x89) PercpuDemo.m0 m').
Proof. apply (long_mode_tss_same _ _ gdt64); [exact (proj1 PercpuDemo.placed)|reflexivity|reflexivity|by unfold in_u]. Defined.
