(* ===== verification/Modes.v ===== *)
(** * From the boot loader's and the trampoline's modes to long mode

    kernel/smp/trampoline.asm and the end of kernel/boot.asm, instruction by
    instruction, on a processor with its mode, control registers, segment and
    descriptor table registers and byte memory; and the data both files
    contain.  While paging is on, addresses go through [xlat], the translation
    of the page tables in CR3 (Boot.v and Vmm.v build them).  The addresses of
    labels are the assembler's and the linker's. *)

From stdpp Require Import base list gmap.
From Stdlib Require Import ZArith Lia Bool.
From S2P Require Import Prelude Addr Strings Acpi AcpiSpec ApicSpec Percpu.
Local Open Scope Z_scope.

(** ** The processor *)

(** How the code segment makes it read instructions. *)
Inductive bits := B16 | B32 | B64.

Record xcpu := mk_xcpu {
  x_mem : bmem;
  x_bits : bits;
  x_cr0 : Z;
  x_cr3 : Z;
  x_cr4 : Z;
  x_efer : Z;
  x_gdtr : Z * Z;                (* base and limit *)
  x_idtr : Z * Z;
  x_cs : Z;
  x_data : Z;                    (* ds, es, fs, gs and ss, always loaded together *)
  x_irq : bool;
  x_df : bool;
  x_rip : Z;
  x_rax : Z;
  x_rsp : Z
}.
Definition xset_mem v s := mk_xcpu v (x_bits s) (x_cr0 s) (x_cr3 s) (x_cr4 s) (x_efer s) (x_gdtr s) (x_idtr s) (x_cs s) (x_data s) (x_irq s) (x_df s) (x_rip s) (x_rax s) (x_rsp s).
Definition xset_cr0 v s := mk_xcpu (x_mem s) (x_bits s) v (x_cr3 s) (x_cr4 s) (x_efer s) (x_gdtr s) (x_idtr s) (x_cs s) (x_data s) (x_irq s) (x_df s) (x_rip s) (x_rax s) (x_rsp s).
Definition xset_cr3 v s := mk_xcpu (x_mem s) (x_bits s) (x_cr0 s) v (x_cr4 s) (x_efer s) (x_gdtr s) (x_idtr s) (x_cs s) (x_data s) (x_irq s) (x_df s) (x_rip s) (x_rax s) (x_rsp s).
Definition xset_cr4 v s := mk_xcpu (x_mem s) (x_bits s) (x_cr0 s) (x_cr3 s) v (x_efer s) (x_gdtr s) (x_idtr s) (x_cs s) (x_data s) (x_irq s) (x_df s) (x_rip s) (x_rax s) (x_rsp s).
Definition xset_efer v s := mk_xcpu (x_mem s) (x_bits s) (x_cr0 s) (x_cr3 s) (x_cr4 s) v (x_gdtr s) (x_idtr s) (x_cs s) (x_data s) (x_irq s) (x_df s) (x_rip s) (x_rax s) (x_rsp s).
Definition xset_gdtr v s := mk_xcpu (x_mem s) (x_bits s) (x_cr0 s) (x_cr3 s) (x_cr4 s) (x_efer s) v (x_idtr s) (x_cs s) (x_data s) (x_irq s) (x_df s) (x_rip s) (x_rax s) (x_rsp s).
Definition xset_idtr v s := mk_xcpu (x_mem s) (x_bits s) (x_cr0 s) (x_cr3 s) (x_cr4 s) (x_efer s) (x_gdtr s) v (x_cs s) (x_data s) (x_irq s) (x_df s) (x_rip s) (x_rax s) (x_rsp s).
Definition xset_code b cs ip s := mk_xcpu (x_mem s) b (x_cr0 s) (x_cr3 s) (x_cr4 s) (x_efer s) (x_gdtr s) (x_idtr s) cs (x_data s) (x_irq s) (x_df s) ip (x_rax s) (x_rsp s).
Definition xset_data v s := mk_xcpu (x_mem s) (x_bits s) (x_cr0 s) (x_cr3 s) (x_cr4 s) (x_efer s) (x_gdtr s) (x_idtr s) (x_cs s) v (x_irq s) (x_df s) (x_rip s) (x_rax s) (x_rsp s).
Definition xset_flags i d s := mk_xcpu (x_mem s) (x_bits s) (x_cr0 s) (x_cr3 s) (x_cr4 s) (x_efer s) (x_gdtr s) (x_idtr s) (x_cs s) (x_data s) i d (x_rip s) (x_rax s) (x_rsp s).
Definition xset_rax v s := mk_xcpu (x_mem s) (x_bits s) (x_cr0 s) (x_cr3 s) (x_cr4 s) (x_efer s) (x_gdtr s) (x_idtr s) (x_cs s) (x_data s) (x_irq s) (x_df s) (x_rip s) v (x_rsp s).
Definition xset_rsp v s := mk_xcpu (x_mem s) (x_bits s) (x_cr0 s) (x_cr3 s) (x_cr4 s) (x_efer s) (x_gdtr s) (x_idtr s) (x_cs s) (x_data s) (x_irq s) (x_df s) (x_rip s) (x_rax s) v.

Definition CR0_PE : Z := 0.
Definition CR0_WP : Z := 16.
Definition CR0_PG : Z := 31.
Definition CR4_PAE : Z := 5.
Definition CR4_PGE : Z := 7.
Definition EFER_LME : Z := 8.
Definition EFER_LMA : Z := 10.
Definition EFER_NXE : Z := 11.

Section processor.
Context (xlat : Z → option Z).

Abbreviation X := (M xcpu).

Definition on_xmem {A} (m : B A) : X A := zoom x_mem xset_mem m.

(** Paging translates an address; in real mode the segment is added to it, and
    otherwise segments start at zero. *)
Definition paddr (s : xcpu) (va : Z) : option Z :=
  if Z.testbit (x_cr0 s) CR0_PG then xlat va
  else if Z.testbit (x_cr0 s) CR0_PE then Some va else Some (16 * x_data s + va).

(** One byte at a time, each at its own physical address. *)
Definition translate (va : Z) : X Z :=
  s ← get; match paddr s va with Some pa => mret pa | None => fault end.
Definition xld (va : Z) : X Z := pa ← translate va; on_xmem (ld pa).
Definition xst (va v : Z) : X unit := pa ← translate va; on_xmem (st pa v).
Fixpoint xld_all (n : nat) (va : Z) : X (list Z) :=
  match n with O => mret [] | S n => x ← xld va; l ← xld_all n (va + 1); mret (x :: l) end.
Fixpoint xst_all (va : Z) (l : list Z) : X unit :=
  match l with [] => mret tt | x :: l => xst va x;; xst_all (va + 1) l end.

Definition mov16 (va v : Z) : X unit := xst_all va (le_bytes 2 (u16 v)).
Definition mov32 (va v : Z) : X unit := xst_all va (le_bytes 4 (u32 v)).
Definition mov64 (va v : Z) : X unit := xst_all va (le_bytes 8 (u64 v)).

(** [lgdt] and [lidt] take a limit of 16 bits and a base of 24, 32 or 64. *)
Definition base_bytes (b : bits) : nat := match b with B16 => 3 | B32 => 4 | B64 => 8 end.
Definition table_register (va : Z) : X (Z * Z) :=
  s ← get;
  limit ← xld_all 2 va;
  base ← xld_all (base_bytes (x_bits s)) (va + 2);
  mret (le base, le limit).
Definition lgdt (va : Z) : X unit := r ← table_register va; modify (xset_gdtr r).
Definition lidt (va : Z) : X unit := r ← table_register va; modify (xset_idtr r).

(** Turning paging on needs protected mode, and with LME set also PAE; the
    processor is then in IA-32e mode. *)
Definition mov_cr0 (v : Z) : X unit :=
  s ← get;
  if Z.testbit v CR0_PG && negb (Z.testbit v CR0_PE) then fault
  else if Z.testbit v CR0_PG && negb (Z.testbit (x_cr0 s) CR0_PG) && Z.testbit (x_efer s) EFER_LME then
    if Z.testbit (x_cr4 s) CR4_PAE then modify (xset_cr0 v);; modify (xset_efer (Z.setbit (x_efer s) EFER_LMA)) else fault
  else modify (xset_cr0 v).

(** A far jump loads a present code segment of the table; in IA-32e mode its L
    bit, which excludes D, makes the code 64-bit. *)
Definition far_jmp (sel off : Z) : X unit :=
  s ← get;
  if Z.testbit (x_cr0 s) CR0_PE then
    let '(base, limit) := x_gdtr s in
    if (sel <? 8) || (limit <? sel + 7) then fault
    else
      d ← xld_all 8 (base + sel);
      let access := default 0 (d !! 5%nat) in
      let flags := default 0 (d !! 6%nat) in
      if negb (Z.land access 0x98 =? 0x98) then fault
      else
        let long := Z.testbit (x_efer s) EFER_LMA && Z.testbit flags 5 in
        if long && Z.testbit flags 6 then fault
        else modify (xset_code (if long then B64 else if Z.testbit flags 6 then B32 else B16) sel off)
  else modify (xset_code B16 sel off).

(** The pointer of [jmp far dword] is an offset of 32 bits and a selector. *)
Definition far_jmp_mem (va : Z) : X unit :=
  off ← xld_all 4 va; sel ← xld_all 2 (va + 4); far_jmp (le sel) (le off).

Definition jmp_rax : X unit := s ← get; modify (xset_code (x_bits s) (x_cs s) (x_rax s)).

(** ** trampoline.asm *)

Definition LOAD_ADDR : Z := 0x1000.
Definition TMP_DATA_OFFSET : Z := 0xA00.

(** A descriptor with all limit bits set. *)
Definition flat_segment (access : Z) : list Z := le_bytes 2 0xFFFF ++ le_bytes 2 0 ++ [0; access; 175; 0].

Definition tmp_gdt : Z := LOAD_ADDR + TMP_DATA_OFFSET.
Definition tmp_gdt_bytes : list Z := le_bytes 8 0 ++ flat_segment 154 ++ flat_segment 146.
Definition tmp_gdt_end : Z := tmp_gdt + Z.of_nat (length tmp_gdt_bytes).
(** [align 16], which fills with [nop]. *)
Definition tmp_pad : list Z := replicate 8 0x90.
Definition tmp_gdt_ptr : Z := tmp_gdt_end + Z.of_nat (length tmp_pad).
Definition tmp_gdt_ptr_bytes : list Z := le_bytes 2 (tmp_gdt_end - tmp_gdt - 1) ++ le_bytes 8 tmp_gdt.
Definition tmp_idt_ptr_null : Z := tmp_gdt_ptr + Z.of_nat (length tmp_gdt_ptr_bytes).
Definition tmp_idt_ptr_bytes : list Z := le_bytes 2 0 ++ le_bytes 8 0.
Definition trampoline_data : list Z := tmp_gdt_bytes ++ tmp_pad ++ tmp_gdt_ptr_bytes ++ tmp_idt_ptr_bytes.

Definition gdt_size : Z := Z.of_nat (length gdt64) - 1.

(** Physical addresses of the labels in the copy, the kernel's addresses of
    the GDT and of [.fix_rip], and the first page table. *)
Context (fix_cs_16 trampoline_64 far_ptr fix_cs_64 : Z) (gdt64_addr fix_rip p4_table : Z).

Definition smp_trampoline_16 : X unit :=
  s ← get; modify (xset_flags false (x_df s));;
  lidt tmp_idt_ptr_null;;
  far_jmp 0x0 fix_cs_16;;
  s ← get; modify (xset_rax (Z.ldiff (x_rax s) 0xFFFF));; s ← get; modify (xset_data (u16 (x_rax s)));;
  s ← get; modify (xset_flags (x_irq s) false);;
  lgdt tmp_gdt_ptr;;
  s ← get; modify (xset_cr4 (Z.lor (x_cr4 s) (Z.lor (Z.shiftl 1 5) (Z.shiftl 1 7))));;
  modify (xset_cr3 (u32 p4_table));;
  s ← get; modify (xset_efer (Z.lor (x_efer s) (Z.lor (Z.shiftl 1 8) (Z.shiftl 1 11))));;
  mov_cr0 (Z.lor (Z.lor (Z.shiftl 1 0) (Z.shiftl 1 31)) (Z.shiftl 1 16));;
  far_jmp 0x08 trampoline_64.

Definition smp_trampoline_64 : X unit :=
  modify (xset_rax tmp_gdt_ptr);;
  mov16 tmp_gdt_ptr gdt_size;;
  mov64 (tmp_gdt_ptr + 2) gdt64_addr;;
  lgdt tmp_gdt_ptr;;
  mov16 tmp_gdt_ptr (tmp_gdt_end - tmp_gdt - 1);;
  mov64 (tmp_gdt_ptr + 2) tmp_gdt;;
  far_jmp_mem far_ptr;;
  modify (xset_rax fix_rip);;
  jmp_rax.

(** ** The end of boot.asm *)

(** After [enable_paging]: the table's pointer is built on the stack, first
    with the physical address of the GDT. *)
Definition boot_jump (long_mode : Z) : X unit :=
  s ← get; modify (xset_rsp (u32 (x_rsp s - 10)));;
  s ← get; let esp := x_rsp s in
  mov16 esp gdt_size;;
  mov32 (esp + 2) (gdt64_addr - KERNEL_TEXT_BASE);;
  mov32 (esp + 6) 0;;
  lgdt esp;;
  far_jmp 0x08 long_mode.

(** In 64-bit mode, after the TSS is in the table ([long_mode_tss]): again with
    the kernel's addresses. *)
Definition boot_high (higher_half : Z) : X unit :=
  s ← get; modify (xset_rsp (u64 (x_rsp s + KERNEL_TEXT_BASE)));;
  s ← get; let rsp := x_rsp s in
  mov64 (rsp + 2) gdt64_addr;;
  lgdt rsp;;
  modify (xset_rax higher_half);; jmp_rax.

(** The end of [higher_half], after the temporary mapping is gone. *)
Definition boot_enter (long_mode_entry : Z) : X unit :=
  s ← get; modify (xset_rsp (u64 (x_rsp s + 10)));;
  s ← get; modify (xset_rax (x_cr3 s));; modify (xset_cr3 (x_cr3 s));;
  modify (xset_rax long_mode_entry);; jmp_rax.
End processor.

(** ** The data of boot.asm *)

(** The header the boot loader looks for: magic number, architecture, length
    and checksum, the request to align modules, and the end. *)
Definition mb_tag (type flags : Z) : list Z := le_bytes 2 type ++ le_bytes 2 flags ++ le_bytes 4 8.
Definition header_tags : list Z := mb_tag 6 0 ++ mb_tag 0 0.
Definition header_length : Z := 16 + Z.of_nat (length header_tags).
Definition multiboot_header : list Z :=
  le_bytes 4 0xE85250D6 ++ le_bytes 4 0 ++ le_bytes 4 header_length ++
  le_bytes 4 (0x100000000 - (0xE85250D6 + 0 + header_length)) ++ header_tags.

(** The stacks of .bss, from the end of the first page tables on: 16 KiB for
    the boot processor, then a page for each entry of the interrupt stack
    table; a stack starts at its upper end. *)
Definition stack_bottom (stack_top : Z) : Z := stack_top + PAGE_SIZE * 4.
Definition ist_stack_1 (stack_top : Z) : Z := stack_bottom stack_top + PAGE_SIZE.
Definition ist_stack_2 (stack_top : Z) : Z := ist_stack_1 stack_top + PAGE_SIZE.

(** The first task state segment. *)
Definition tss64 (stack_top : Z) : list Z :=
  le_bytes 4 0 ++ le_bytes 8 0 ++ le_bytes 8 0 ++ le_bytes 8 0 ++ le_bytes 8 0 ++
  le_bytes 8 (ist_stack_1 stack_top) ++ le_bytes 8 (ist_stack_2 stack_top) ++
  le_bytes 8 0 ++ le_bytes 8 0 ++ le_bytes 8 0 ++ le_bytes 8 0 ++ le_bytes 8 0 ++ le_bytes 8 0 ++ le_bytes 2 0 ++ le_bytes 2 0.

(** Fields of a state that was written out. *)
Ltac xs := cbv beta iota delta [x_mem x_bits x_cr0 x_cr3 x_cr4 x_efer x_gdtr x_idtr x_cs x_data x_irq x_df x_rip x_rax x_rsp
  xset_mem xset_cr0 xset_cr3 xset_cr4 xset_efer xset_gdtr xset_idtr xset_code xset_data xset_flags xset_rax xset_rsp] in *.

(** ** Memory through the translation *)

Section memory.
Context (xlat : Z → option Z).

Definition maps (s : xcpu) (va pa n : Z) : Prop := ∀ i, 0 ≤ i < n → paddr xlat s (va + i) = Some (pa + i).

Lemma maps_sub s va pa n k j : maps s va pa n → 0 ≤ k → k + j ≤ n → maps s (va + k) (pa + k) j.
Proof. intros H Hk Hj i Hi. rewrite <-!Z.add_assoc. apply H. lia. Qed.

Lemma wp_xld_all s va pa l (Q : list Z → xcpu → Prop) :
  maps s va pa (Z.of_nat (length l)) → bytes (x_mem s) pa l → Q l s → wp (xld_all xlat (length l) va) s Q.
Proof.
  revert va pa Q. induction l as [|x l IH]; intros va pa Q Hm Hb HQ; simpl; [by apply wp_ret|].
  apply bytes_cons in Hb as [Hx Hb]. unfold xld, translate, on_xmem. wp_steps.
  pose proof (Hm 0 ltac:(simpl; lia)) as E. rewrite !Z.add_0_r in E. rewrite E. wp_steps.
  apply (wp_zoom x_mem), (wp_ld _ x); [done|]. replace (xset_mem (x_mem s) s) with s by by destruct s.
  apply wp_bind, (IH (va + 1) (pa + 1)); [|done|by apply wp_ret].
  eapply maps_sub; [done|lia|simpl length; lia].
Qed.

Lemma wp_xst_all s va pa l l0 (Q : unit → xcpu → Prop) :
  (∀ m, maps (xset_mem m s) va pa (Z.of_nat (length l))) → bytes (x_mem s) pa l0 → length l0 = length l →
  (∀ m', copied pa l (x_mem s) m' → Q tt (xset_mem m' s)) → wp (xst_all xlat va l) s Q.
Proof.
  revert s va pa l0. induction l as [|x l IH]; intros s va pa l0 Hm Hb Hl HQ; simpl.
  { apply wp_ret. replace s with (xset_mem (x_mem s) s) by by destruct s. apply HQ. split; [apply bytes_nil|done]. }
  destruct l0 as [|x0 l0]; [done|]. apply bytes_cons in Hb as [Hx Hb]. unfold xst, translate, on_xmem. wp_steps.
  pose proof (Hm (x_mem s) 0 ltac:(simpl; lia)) as E. rewrite !Z.add_0_r in E. replace (xset_mem (x_mem s) s) with s in E by by destruct s.
  rewrite E. wp_steps. apply (wp_zoom x_mem), (wp_st _ _ x0); [done|].
  apply (IH _ (va + 1) (pa + 1) l0).
  - intros m. replace (xset_mem m (xset_mem _ s)) with (xset_mem m s) by done. eapply maps_sub; [apply Hm|lia|simpl length; lia].
  - simpl. apply bytes_insert; [done|]. unfold within. lia.
  - by injection Hl.
  - intros m' [Hb' Hf]. replace (xset_mem m' (xset_mem _ s)) with (xset_mem m' s) by done. apply HQ. split.
    + apply bytes_cons. split; [|done]. rewrite Hf by (unfold within; lia). simpl. apply lookup_insert_eq.
    + intros y Hy. simpl length in Hy. unfold within in *. rewrite Hf by lia. simpl. apply lookup_insert_ne. lia.
Qed.

(** Putting back what was there before. *)
Lemma copied_back a l0 l m m1 m2 : bytes m a l0 → length l0 = length l → copied a l m m1 → copied a l0 m1 m2 → m2 = m.
Proof.
  intros Hb Hl [_ F1] [B2 F2]. apply map_eq. intros x. destruct (decide (within a (Z.of_nat (length l0)) x)) as [Hx|Hx].
  - destruct (lookup_lt_is_Some_2 l0 (Z.to_nat (x - a))) as [y Hy]; [unfold within in Hx; lia|].
    replace x with (a + Z.of_nat (Z.to_nat (x - a))) by (unfold within in Hx; lia). by rewrite (B2 _ _ Hy), (Hb _ _ Hy).
  - rewrite F2 by done. apply F1. by rewrite <-Hl.
Qed.
End memory.

(** ** The trampoline *)

Section trampoline.
Context (xlat : Z → option Z) (fix_cs_16 trampoline_64 far_ptr fix_cs_64 gdt64_addr fix_rip p4_table gdt64_phys : Z).

(** The copy is mapped at its own addresses, and the kernel's GDT at its. *)
Hypothesis low_page : ∀ a, LOAD_ADDR ≤ a < LOAD_ADDR + PAGE_SIZE → xlat a = Some a.
Hypothesis gdt_mapped : ∀ i, 0 ≤ i < 64 → xlat (gdt64_addr + i) = Some (gdt64_phys + i).
Hypothesis far_ptr_in : LOAD_ADDR ≤ far_ptr ∧ far_ptr + 6 ≤ tmp_gdt.
Hypothesis fix_cs_range : in_u 32 fix_cs_64.
Hypothesis gdt_range : in_u 64 gdt64_addr.
Hypothesis gdt_elsewhere : gdt64_phys + 64 ≤ LOAD_ADDR ∨ LOAD_ADDR + PAGE_SIZE ≤ gdt64_phys.

(** What the copy and the kernel hold. *)
Record trampoline_in (m : bmem) : Prop := {
  ti_data : bytes m tmp_gdt trampoline_data;
  ti_far : bytes m far_ptr (le_bytes 4 fix_cs_64 ++ le_bytes 2 0x08);
  ti_gdt : bytes m gdt64_phys gdt64
}.

Lemma data_parts m :
  bytes m tmp_gdt trampoline_data →
  bytes m (tmp_gdt + 8) (flat_segment 154) ∧ bytes m tmp_gdt_ptr tmp_gdt_ptr_bytes ∧ bytes m tmp_idt_ptr_null tmp_idt_ptr_bytes.
Proof using Type.
  unfold trampoline_data, tmp_gdt_bytes. rewrite !bytes_app. intros ((_ & H1 & _) & _ & H2 & H3). split_and!; [exact H1|exact H2|exact H3].
Qed.

Lemma gdt_ptr_split : tmp_gdt_ptr_bytes = (le_bytes 2 23 ++ le_bytes 3 tmp_gdt) ++ le_bytes 5 0.
Proof using Type. by vm_compute. Qed.
Lemma idt_ptr_split : tmp_idt_ptr_bytes = (le_bytes 2 0 ++ le_bytes 3 0) ++ le_bytes 5 0.
Proof using Type. by vm_compute. Qed.
Lemma gdt_ptr_value : (le (le_bytes 3 tmp_gdt), le (le_bytes 2 23)) = (tmp_gdt, 23).
Proof using Type. by vm_compute. Qed.
Lemma idt_ptr_value : (le (le_bytes 3 0), le (le_bytes 2 0)) = (0, 0).
Proof using Type. by vm_compute. Qed.

Lemma maps_real s va n :
  Z.testbit (x_cr0 s) CR0_PE = false → Z.testbit (x_cr0 s) CR0_PG = false → x_data s = 0 → maps xlat s va va n.
Proof using Type. intros H1 H2 H3 i Hi. unfold paddr. rewrite H1, H2, H3. done. Qed.

Lemma maps_low s va n :
  Z.testbit (x_cr0 s) CR0_PG = true → LOAD_ADDR ≤ va → va + n ≤ LOAD_ADDR + PAGE_SIZE → maps xlat s va va n.
Proof using low_page. intros H1 H2 H3 i Hi. unfold paddr. rewrite H1. apply low_page. lia. Qed.

(** The pointers of descriptor tables. *)
Lemma wp_table_register s va pa lim base (Q : Z * Z → xcpu → Prop) :
  length lim = 2%nat → length base = base_bytes (x_bits s) → maps xlat s va pa (2 + Z.of_nat (length base)) →
  bytes (x_mem s) pa (lim ++ base) → Q (le base, le lim) s → wp (table_register xlat va) s Q.
Proof using Type.
  intros Hl Hb Hm [B1 B2]%bytes_app HQ. unfold table_register. wp_steps. rewrite Hl in B2.
  rewrite <-Hl at 1. eapply wp_xld_all; [|exact B1|].
  { intros i Hi. apply Hm. lia. }
  rewrite <-Hb. apply wp_bind. eapply wp_xld_all; [|exact B2|by apply wp_ret].
  eapply maps_sub; [done|lia|lia].
Qed.

(** A jump to a present 64-bit code segment. *)
Lemma wp_far_jmp_long s sel off base limit pa d (Q : unit → xcpu → Prop) :
  Z.testbit (x_cr0 s) CR0_PE = true → Z.testbit (x_efer s) EFER_LMA = true →
  x_gdtr s = (base, limit) → 8 ≤ sel → sel + 7 ≤ limit → maps xlat s (base + sel) pa 8 → bytes (x_mem s) pa d →
  length d = 8%nat → d !! 5%nat = Some 154 → (∃ fl, d !! 6%nat = Some fl ∧ Z.testbit fl 5 = true ∧ Z.testbit fl 6 = false) →
  Q tt (xset_code B64 sel off s) → wp (far_jmp xlat sel off) s Q.
Proof using Type.
  intros Hpe Hlma Eg H8 Hlim Hm Hb Hl H5 (fl & H6 & Hf5 & Hf6) HQ. unfold far_jmp. wp_steps. rewrite Hpe, Eg.
  rewrite (proj2 (Z.ltb_ge sel 8)), (proj2 (Z.ltb_ge limit (sel + 7))) by lia. cbn [orb].
  rewrite <-Hl at 1. apply wp_bind. eapply wp_xld_all; [by rewrite Hl|done|]. rewrite H5, H6. cbn [default from_option Datatypes.id].
  change (negb (Z.land 154 0x98 =? 0x98)) with false. cbv iota zeta. rewrite Hlma, Hf5, Hf6. cbn [andb]. by apply wp_modify.
Qed.

Record real_mode (s : xcpu) : Prop := {
  rm_bits : x_bits s = B16;
  rm_pe : Z.testbit (x_cr0 s) CR0_PE = false;
  rm_pg : Z.testbit (x_cr0 s) CR0_PG = false;
  rm_data : x_data s = 0
}.

(** The control registers after the switch. *)
Definition TRAMPOLINE_CR0 : Z := 0x80010001.
Definition tramp_cr4 (s : xcpu) : Z := Z.lor (x_cr4 s) (Z.lor (Z.shiftl 1 5) (Z.shiftl 1 7)).
Definition tramp_efer (s : xcpu) : Z := Z.setbit (Z.lor (x_efer s) (Z.lor (Z.shiftl 1 8) (Z.shiftl 1 11))) EFER_LMA.

Lemma cr0_value : Z.lor (Z.lor (Z.shiftl 1 0) (Z.shiftl 1 31)) (Z.shiftl 1 16) = TRAMPOLINE_CR0.
Proof using Type. by vm_compute. Qed.
Lemma cr0_bits : Z.testbit TRAMPOLINE_CR0 CR0_PG = true ∧ Z.testbit TRAMPOLINE_CR0 CR0_PE = true.
Proof using Type. by vm_compute. Qed.
Lemma lor_testbit a b n : Z.testbit b n = true → Z.testbit (Z.lor a b) n = true.
Proof using Type. intros H. by rewrite Z.lor_spec, H, orb_true_r. Qed.

Lemma wp_trampoline_16 s (Q : unit → xcpu → Prop) :
  real_mode s → trampoline_in (x_mem s) →
  (∀ rax, Q tt (mk_xcpu (x_mem s) B64 TRAMPOLINE_CR0 (u32 p4_table) (tramp_cr4 s) (tramp_efer s) (tmp_gdt, 23) (0, 0)
     8 0 false false trampoline_64 rax (x_rsp s))) →
  wp (smp_trampoline_16 xlat fix_cs_16 trampoline_64 p4_table) s Q.
Proof using low_page.
  intros [Hb Hpe Hpg Hd] Hm HQ. destruct (data_parts _ (ti_data _ Hm)) as (D1 & D2 & D3). destruct cr0_bits as [Bpg Bpe].
  destruct s as [m b c0 c3 c4 ef gd id cs da irq df ip rax sp]. unfold tramp_cr4, tramp_efer in HQ. xs. subst b da.
  unfold smp_trampoline_16, lidt, lgdt. wp_steps. xs.
  apply (wp_table_register _ _ tmp_idt_ptr_null (le_bytes 2 0) (le_bytes 3 0)); [done|done|by apply maps_real|xs|].
  { rewrite idt_ptr_split in D3. by apply bytes_app in D3 as [? _]. }
  rewrite idt_ptr_value. wp_steps. unfold far_jmp at 1. wp_steps. xs. rewrite Hpe. wp_steps. xs.
  assert (u16 (Z.ldiff rax 0xFFFF) = 0) as ->.
  { unfold uwrap. change 0xFFFF with (Z.ones 16). rewrite Z.ldiff_ones_r, Z.shiftl_mul_pow2 by lia. by rewrite Z.mod_mul. }
  apply (wp_table_register _ _ tmp_gdt_ptr (le_bytes 2 23) (le_bytes 3 tmp_gdt)); [done|done|by apply maps_real|xs|].
  { rewrite gdt_ptr_split in D2. by apply bytes_app in D2 as [? _]. }
  rewrite gdt_ptr_value, cr0_value. wp_steps. unfold mov_cr0. wp_steps. xs.
  rewrite Bpg, Bpe, Hpg, lor_testbit, lor_testbit by by vm_compute. cbn [andb negb]. wp_steps. xs.
  apply (wp_far_jmp_long _ _ _ tmp_gdt 23 (tmp_gdt + 8) (flat_segment 154)); xs; try done.
  - by apply Z.setbit_eq.
  - by apply maps_low.
  - by exists 175.
Qed.

(** A store of two fields of a table pointer. *)
Lemma wp_mov_ptr s limit base lim0 base0 {A} (k : M xcpu A) (Q : A → xcpu → Prop) :
  Z.testbit (x_cr0 s) CR0_PG = true → bytes (x_mem s) tmp_gdt_ptr (lim0 ++ base0) → length lim0 = 2%nat → length base0 = 8%nat →
  (∀ m', copied tmp_gdt_ptr (le_bytes 2 (u16 limit) ++ le_bytes 8 (u64 base)) (x_mem s) m' → wp k (xset_mem m' s) Q) →
  wp (mov16 xlat tmp_gdt_ptr limit;; mov64 xlat (tmp_gdt_ptr + 2) base;; k) s Q.
Proof using low_page.
  intros Hpg Hb H2 H8 HQ. apply bytes_app in Hb as [B1 B2]. rewrite H2 in B2. unfold mov16, mov64. apply wp_bind.
  eapply wp_xst_all; [intros m; by apply maps_low|exact B1|by rewrite H2, length_le_bytes|]. intros m1 C1. apply wp_bind.
  assert (bytes m1 (tmp_gdt_ptr + 2) base0) as B2'.
  { eapply copied_bytes; [exact C1|exact B2|]. left. by rewrite length_le_bytes. }
  eapply wp_xst_all; [intros m; by apply maps_low|exact B2'|by rewrite H8, length_le_bytes|]. intros m2 C2.
  change (xset_mem m2 (xset_mem m1 s)) with (xset_mem m2 s). apply HQ. destruct C1 as [B1' F1], C2 as [B2'' F2]. split.
  - apply bytes_app. rewrite length_le_bytes. split; [|exact B2'']. eapply bytes_ext; [exact B1'|].
    intros x Hx. apply F2. rewrite !length_le_bytes in *. unfold within in *. lia.
  - intros x Hx. rewrite length_app, !length_le_bytes in Hx. unfold within in *. rewrite F2 by (rewrite length_le_bytes; unfold within; lia).
    apply F1. rewrite length_le_bytes. unfold within. lia.
Qed.

Lemma gdt_code : take 8 (drop 8 gdt64) = segment 154 32 ∧ gdt64 = take 8 gdt64 ++ segment 154 32 ++ drop 16 gdt64.
Proof using Type. by vm_compute. Qed.

Lemma wp_trampoline_64 s (Q : unit → xcpu → Prop) :
  x_bits s = B64 → x_cr0 s = TRAMPOLINE_CR0 → Z.testbit (x_efer s) EFER_LMA = true → trampoline_in (x_mem s) →
  Q tt (xset_code B64 8 fix_rip (xset_rax fix_rip (xset_gdtr (gdt64_addr, gdt_size) s))) →
  wp (smp_trampoline_64 xlat far_ptr gdt64_addr fix_rip) s Q.
Proof using low_page gdt_mapped far_ptr_in fix_cs_range gdt_range gdt_elsewhere.
  intros Hb64 Hcr0 Hlma Hm HQ. destruct (data_parts _ (ti_data _ Hm)) as (_ & D2 & _). destruct cr0_bits as [Bpg Bpe].
  assert (u16 gdt_size = gdt_size ∧ le (le_bytes 2 gdt_size) = gdt_size) as [E1 E2] by by vm_compute.
  assert (le_bytes 2 (u16 (tmp_gdt_end - tmp_gdt - 1)) ++ le_bytes 8 (u64 tmp_gdt) = tmp_gdt_ptr_bytes) as E3 by by vm_compute.
  destruct s as [m b c0 c3 c4 ef gd id cs da irq df ip rax sp]. xs. subst b c0.
  unfold smp_trampoline_64, lgdt. apply wp_bind, wp_modify. xs. apply (wp_mov_ptr _ _ _ (le_bytes 2 (tmp_gdt_end - tmp_gdt - 1)) (le_bytes 8 tmp_gdt)); try done.
  intros m1 C1. xs. rewrite E1, (uwrap_id 64 gdt64_addr) in C1 by done. apply wp_bind, wp_bind.
  apply (wp_table_register _ _ tmp_gdt_ptr (le_bytes 2 gdt_size) (le_bytes 8 gdt64_addr)); [done|done|by apply maps_low|by apply C1|].
  rewrite E2, le_le_bytes by exact gdt_range. apply wp_modify. xs.
  apply (wp_mov_ptr _ _ _ (le_bytes 2 gdt_size) (le_bytes 8 gdt64_addr)); [done|by apply C1|done|done|].
  intros m2 C2. rewrite E3 in C2. xs.
  assert (m2 = m) as -> by by eapply (copied_back _ tmp_gdt_ptr_bytes); [exact D2| |exact C1|exact C2].
  pose proof (ti_far _ Hm) as Hfar. apply bytes_app in Hfar as [F1 F2].
  unfold far_jmp_mem. apply wp_bind, wp_bind. rewrite <-(length_le_bytes 4 fix_cs_64) at 1.
  eapply wp_xld_all; [apply maps_low; [done|lia|rewrite length_le_bytes; unfold tmp_gdt, TMP_DATA_OFFSET, LOAD_ADDR, PAGE_SIZE in *; lia]|exact F1|].
  apply wp_bind. rewrite <-(length_le_bytes 2 8) at 1.
  eapply wp_xld_all; [apply maps_low; [done|lia|rewrite length_le_bytes; unfold tmp_gdt, TMP_DATA_OFFSET, LOAD_ADDR, PAGE_SIZE in *; lia]|exact F2|].
  rewrite (le_le_bytes 4 fix_cs_64) by exact fix_cs_range. change (le (le_bytes 2 8)) with 8.
  pose proof (ti_gdt _ Hm) as Hg. destruct gdt_code as [_ Eg]. rewrite Eg in Hg. apply bytes_app in Hg as [_ Hg]. apply bytes_app in Hg as [Hg _].
  apply (wp_far_jmp_long _ _ _ gdt64_addr gdt_size (gdt64_phys + 8) (segment 154 32)); xs; try done.
  - intros i Hi. unfold paddr. xs. rewrite Bpg, <-!Z.add_assoc. apply gdt_mapped. lia.
  - by exists 32.
Qed.
End trampoline.

(** ** Theorems *)

(** C26: A processor that starts the trampoline in real mode, with the copied
    page mapped at its own addresses by the kernel's tables, gets to the
    kernel's code in 64-bit mode: paging, write protection, the kernel's page
    tables, global pages and the no-execute bit are on, the kernel's GDT is
    loaded with its 64-bit code segment, interrupts are off and an NMI finds an
    empty IDT.  The copy is left as it was, for the next processor. *)
Theorem trampoline_correct xlat fix_cs_16 trampoline_64 far_ptr fix_cs_64 gdt64_addr fix_rip p4_table gdt64_phys s :
  (∀ a, LOAD_ADDR ≤ a < LOAD_ADDR + PAGE_SIZE → xlat a = Some a) →
  (∀ i, 0 ≤ i < 64 → xlat (gdt64_addr + i) = Some (gdt64_phys + i)) →
  LOAD_ADDR ≤ far_ptr ∧ far_ptr + 6 ≤ tmp_gdt → in_u 32 fix_cs_64 → in_u 64 gdt64_addr →
  gdt64_phys + 64 ≤ LOAD_ADDR ∨ LOAD_ADDR + PAGE_SIZE ≤ gdt64_phys →
  real_mode s → trampoline_in far_ptr fix_cs_64 gdt64_phys (x_mem s) →
  wp (smp_trampoline_16 xlat fix_cs_16 trampoline_64 p4_table;; smp_trampoline_64 xlat far_ptr gdt64_addr fix_rip) s (λ _ s',
    x_bits s' = B64 ∧ x_rip s' = fix_rip ∧ x_cs s' = 8 ∧ x_gdtr s' = (gdt64_addr, 63) ∧ x_idtr s' = (0, 0) ∧
    x_irq s' = false ∧ x_df s' = false ∧ x_data s' = 0 ∧ x_rsp s' = x_rsp s ∧ x_mem s' = x_mem s ∧
    x_cr3 s' = u32 p4_table ∧
    Forall (λ n, Z.testbit (x_cr0 s') n = true) [CR0_PE; CR0_WP; CR0_PG] ∧
    Forall (λ n, Z.testbit (x_cr4 s') n = true) [CR4_PAE; CR4_PGE] ∧
    Forall (λ n, Z.testbit (x_efer s') n = true) [EFER_LME; EFER_LMA; EFER_NXE]).
Proof.
  intros H1 H2 H3 H4 H5 H6 Hr Hm. apply wp_bind. eapply (wp_trampoline_16 xlat _ _ far_ptr fix_cs_64 p4_table gdt64_phys); [done..|].
  intros rax. eapply (wp_trampoline_64 xlat far_ptr fix_cs_64 gdt64_addr fix_rip gdt64_phys); try done.
  - xs. unfold tramp_efer. by apply Z.setbit_eq.
  - xs. unfold tramp_cr4, tramp_efer. split_and!; try done.
    + by repeat constructor.
    + repeat constructor; by apply lor_testbit.
    + repeat constructor; [|by apply Z.setbit_eq|]; rewrite Z.setbit_neq by done; by apply lor_testbit.
Qed.

(** ** The boot processor *)

Section boot.
Context (xlat : Z → option Z) (gdt64_phys : Z).

(** [gdt64] is linked at the kernel's addresses; the loader put it at
    [gdt64_phys].  The temporary mapping and the kernel's one lead to the same
    memory. *)
Abbreviation gdt64_addr := (gdt64_phys + KERNEL_TEXT_BASE).
Definition both_mapped (pa n : Z) : Prop :=
  ∀ i, 0 ≤ i < n → xlat (pa + i) = Some (pa + i) ∧ xlat (pa + KERNEL_TEXT_BASE + i) = Some (pa + i).

Record boot_paged (s : xcpu) : Prop := {
  bp_bits : x_bits s = B32;
  bp_pe : Z.testbit (x_cr0 s) CR0_PE = true;
  bp_pg : Z.testbit (x_cr0 s) CR0_PG = true;
  bp_lma : Z.testbit (x_efer s) EFER_LMA = true;
  bp_gdt : bytes (x_mem s) gdt64_phys gdt64;
  bp_stack : ∃ l, length l = 10%nat ∧ bytes (x_mem s) (x_rsp s - 10) l;
  bp_low : 10 ≤ x_rsp s ∧ x_rsp s < 2 ^ 31;
  bp_apart : gdt64_phys + 64 ≤ x_rsp s - 10 ∨ x_rsp s ≤ gdt64_phys
}.

Lemma maps_both s pa n va :
  both_mapped pa n → Z.testbit (x_cr0 s) CR0_PG = true → va = pa ∨ va = pa + KERNEL_TEXT_BASE → maps xlat s va pa n.
Proof using Type. intros H Hp [-> | ->] i Hi; unfold paddr; rewrite Hp; by apply H. Qed.

Lemma both_sub pa n k j : both_mapped pa n → 0 ≤ k → k + j ≤ n → both_mapped (pa + k) j.
Proof using Type.
  intros H Hk Hj i Hi. destruct (H (k + i) ltac:(lia)) as [H1 H2].
  split; [rewrite <-Z.add_assoc; exact H1|]. replace (pa + k + KERNEL_TEXT_BASE + i) with (pa + KERNEL_TEXT_BASE + (k + i)) by lia.
  replace (pa + k + i) with (pa + (k + i)) by lia. exact H2.
Qed.

(** A store of a whole field inside a block, through either mapping. *)
Lemma wp_copy_field s pa va l i k (Q : unit → xcpu → Prop) :
  both_mapped pa (Z.of_nat (length l)) → Z.testbit (x_cr0 s) CR0_PG = true → bytes (x_mem s) pa l →
  (i + length k ≤ length l)%nat → va = pa + Z.of_nat i ∨ va = pa + Z.of_nat i + KERNEL_TEXT_BASE →
  (∀ m', copied pa (list_inserts i k l) (x_mem s) m' → Q tt (xset_mem m' s)) → wp (xst_all xlat va k) s Q.
Proof using Type.
  intros Hm Hp Hb Hi Hva HQ.
  assert (bytes (x_mem s) (pa + Z.of_nat i) (take (length k) (drop i l))) as Hb'.
  { intros j x Hj. apply lookup_take_Some in Hj as [Hj _]. rewrite lookup_drop in Hj. specialize (Hb _ _ Hj).
    by replace (pa + Z.of_nat i + Z.of_nat j) with (pa + Z.of_nat (i + j)) by lia. }
  eapply wp_xst_all; [|exact Hb'|rewrite length_take, length_drop; lia|].
  { intros m. apply maps_both; [eapply both_sub; [done|lia|lia]|done|done]. }
  intros m' [B F]. apply HQ. split.
  - intros j x Hj. destruct (decide (i ≤ j < i + length k)%nat) as [Hin|Hout].
    + rewrite list_lookup_inserts in Hj by lia. specialize (B _ _ Hj).
      by replace (pa + Z.of_nat j) with (pa + Z.of_nat i + Z.of_nat (j - i)) by lia.
    + rewrite F by (unfold within; lia). apply Hb.
      destruct (decide (j < i)%nat); [by rewrite list_lookup_inserts_lt in Hj by lia|by rewrite list_lookup_inserts_ge in Hj by lia].
  - intros x Hx. rewrite length_inserts in Hx. apply F. unfold within in *. lia.
Qed.

Lemma pointer_32 (l k1 k2 k3 : list Z) :
  length l = 10%nat → length k1 = 2%nat → length k2 = 4%nat → length k3 = 4%nat →
  list_inserts 6 k3 (list_inserts 2 k2 (list_inserts 0 k1 l)) = (k1 ++ k2) ++ k3.
Proof using Type.
  intros Hl H1 H2 H3. spell 10 l with Hl. spell 2 k1 with H1. spell 4 k2 with H2. spell 4 k3 with H3. done.
Qed.
Lemma pointer_64 (k1 k2 k3 k : list Z) :
  length k1 = 2%nat → length k2 = 4%nat → length k3 = 4%nat → length k = 8%nat →
  list_inserts 2 k ((k1 ++ k2) ++ k3) = k1 ++ k.
Proof using Type.
  intros H1 H2 H3 Hk. spell 2 k1 with H1. spell 4 k2 with H2. spell 4 k3 with H3. spell 8 k with Hk. done.
Qed.

(** What stays as it was: everything but the ten bytes below the stack. *)
Definition below_stack (s s' : xcpu) : Prop :=
  ∀ x, ¬ within (x_rsp s - 10) 10 x → x_mem s' !! x = x_mem s !! x.

Hypothesis gdt_low : 0 ≤ gdt64_phys < 2 ^ 31.

Lemma wp_boot_jump s long_mode (Q : unit → xcpu → Prop) :
  boot_paged s → both_mapped (x_rsp s - 10) 10 → both_mapped gdt64_phys 64 →
  (∀ m', copied (x_rsp s - 10) ((le_bytes 2 gdt_size ++ le_bytes 4 gdt64_phys) ++ le_bytes 4 0) (x_mem s) m' →
     Q tt (xset_code B64 8 long_mode (xset_gdtr (gdt64_phys, gdt_size) (xset_rsp (x_rsp s - 10) (xset_mem m' s))))) →
  wp (boot_jump xlat gdt64_addr long_mode) s Q.
Proof using gdt_low.
  intros [Hb Hpe Hpg Hlma Hg (l & Hl & Hst) [Hr1 Hr2] Hap] Ms Mg HQ.
  destruct s as [m b c0 c3 c4 ef gd id cs da irq df ip rax sp]. xs. subst b. unfold boot_jump, lgdt.
  apply wp_bind, wp_get. apply wp_bind, wp_modify. apply wp_bind, wp_get. xs.
  rewrite (uwrap_id 32 (sp - 10)) by (unfold in_u; lia). replace (gdt64_phys + KERNEL_TEXT_BASE - KERNEL_TEXT_BASE) with gdt64_phys by lia.
  unfold mov16, mov32. rewrite (uwrap_id 32 gdt64_phys) by (unfold in_u; lia). change (u16 gdt_size) with gdt_size. change (u32 0) with 0.
  apply wp_bind, (wp_copy_field _ (sp - 10) _ l 0); xs; [by rewrite Hl|done|done|rewrite Hl, length_le_bytes; lia|left; lia|]. intros m1 C1. xs.
  apply wp_bind. eapply (wp_copy_field _ (sp - 10) _ _ 2); xs; [|done|apply C1| |left; lia|].
  { by rewrite length_inserts, Hl. } { rewrite length_inserts, Hl, length_le_bytes; lia. } intros m2 C2. xs.
  apply wp_bind. eapply (wp_copy_field _ (sp - 10) _ _ 6); xs; [|done|apply C2| |left; lia|].
  { by rewrite !length_inserts, Hl. } { rewrite !length_inserts, Hl, length_le_bytes; lia. } intros m3 C3. xs.
  rewrite pointer_32 in C3 by (done || by rewrite length_le_bytes).
  assert (copied (sp - 10) ((le_bytes 2 gdt_size ++ le_bytes 4 gdt64_phys) ++ le_bytes 4 0) m m3) as C.
  { eapply copied_trans; [|eapply copied_trans; [|exact C1|exact C2]|exact C3];
      rewrite !length_inserts, ?Hl; [|done]. by rewrite !length_app, !length_le_bytes. }
  apply wp_bind, wp_bind.
  apply (wp_table_register _ _ _ (sp - 10) (le_bytes 2 gdt_size) (le_bytes 4 gdt64_phys)); [done|done| | |].
  { apply maps_both; [|done|by left]. rewrite length_le_bytes. eapply (both_sub _ _ 0) in Ms; [by rewrite Z.add_0_r in Ms|lia|lia]. }
  { destruct C3 as [B3 _]. by apply bytes_app in B3 as [? _]. }
  rewrite (le_le_bytes 4 gdt64_phys) by (simpl; lia). change (le (le_bytes 2 gdt_size)) with gdt_size. apply wp_modify. xs.
  assert (bytes m3 (gdt64_phys + 8) (segment 154 32)) as Hd.
  { destruct gdt_code as [_ Eg]. assert (bytes m3 gdt64_phys gdt64) as Hg3.
    { eapply copied_bytes; [exact C|done|]. unfold Percpu.apart. rewrite !length_app, !length_le_bytes. change (length gdt64) with 64%nat. lia. }
    rewrite Eg in Hg3. apply bytes_app in Hg3 as [_ Hg3]. by apply bytes_app in Hg3 as [? _]. }
  apply (wp_far_jmp_long _ _ _ _ gdt64_phys gdt_size (gdt64_phys + 8) (segment 154 32)); xs; try done.
  - apply maps_both; [|done|by left]. by eapply both_sub.
  - by exists 32.
  - by apply HQ.
Qed.

(** The rest, in 64-bit mode with the pointer on the stack. *)
Lemma wp_boot_high s higher_half long_mode_entry k1 k2 k3 (Q : unit → xcpu → Prop) :
  x_bits s = B64 → Z.testbit (x_cr0 s) CR0_PG = true → 0 ≤ x_rsp s < 2 ^ 31 - 10 → both_mapped (x_rsp s) 10 →
  bytes (x_mem s) (x_rsp s) ((k1 ++ k2) ++ k3) → k1 = le_bytes 2 gdt_size → length k2 = 4%nat → length k3 = 4%nat →
  (∀ m', copied (x_rsp s) (k1 ++ le_bytes 8 gdt64_addr) (x_mem s) m' →
     Q tt (xset_code B64 (x_cs s) long_mode_entry (xset_rax long_mode_entry (xset_gdtr (gdt64_addr, gdt_size)
             (xset_rsp (x_rsp s + KERNEL_TEXT_BASE + 10) (xset_mem m' s)))))) →
  wp (boot_high xlat gdt64_addr higher_half;; boot_enter long_mode_entry) s Q.
Proof using gdt_low.
  intros Hb Hpg Hr Ms Hk E1 H2 H3 HQ. destruct s as [m b c0 c3 c4 ef gd id cs da irq df ip rax sp]. xs. subst b.
  assert (length k1 = 2%nat) as H1 by by rewrite E1, length_le_bytes. unfold boot_high, boot_enter, lgdt, jmp_rax, mov64.
  apply wp_bind, wp_bind, wp_get. apply wp_bind, wp_modify. apply wp_bind, wp_get. xs.
  rewrite (uwrap_id 64 (sp + _)) by (unfold in_u, KERNEL_TEXT_BASE; lia). rewrite (uwrap_id 64 gdt64_addr) by (unfold in_u, KERNEL_TEXT_BASE; lia).
  apply wp_bind, (wp_copy_field _ sp _ ((k1 ++ k2) ++ k3) 2); xs; [by rewrite !length_app, H1, H2, H3|done|done| |right; lia|].
  { rewrite !length_app, length_le_bytes, H1, H2, H3. lia. }
  rewrite pointer_64 by (done || by rewrite length_le_bytes). intros m1 C1. xs. apply wp_bind, wp_bind.
  apply (wp_table_register _ _ _ sp k1 (le_bytes 8 gdt64_addr)); [done|done| |apply C1|].
  { apply maps_both; [by rewrite length_le_bytes|done|by right]. }
  rewrite (le_le_bytes 8) by (unfold KERNEL_TEXT_BASE; simpl; lia). rewrite E1. change (le (le_bytes 2 gdt_size)) with gdt_size.
  wp_steps. xs. rewrite (uwrap_id 64 (sp + _ + 10)) by (unfold in_u, KERNEL_TEXT_BASE; lia). rewrite E1 in HQ, C1. by apply HQ.
Qed.
End boot.

(** The boot processor gets from 32-bit code under the temporary mapping to
    [long_mode_entry] in 64-bit mode, with the GDT at the kernel's address, the
    stack pointer moved to the kernel's addresses and nothing changed but the
    ten bytes of the pointer it builds. *)
Theorem boot_enters_kernel xlat gdt64_phys long_mode higher_half long_mode_entry s :
  0 ≤ gdt64_phys < 2 ^ 31 → boot_paged gdt64_phys s → both_mapped xlat (x_rsp s - 10) 10 → both_mapped xlat gdt64_phys 64 →
  wp (boot_jump xlat (gdt64_phys + KERNEL_TEXT_BASE) long_mode;;
      boot_high xlat (gdt64_phys + KERNEL_TEXT_BASE) higher_half;; boot_enter long_mode_entry) s (λ _ s',
    x_bits s' = B64 ∧ x_cs s' = 8 ∧ x_rip s' = long_mode_entry ∧ x_gdtr s' = (gdt64_phys + KERNEL_TEXT_BASE, 63) ∧
    x_rsp s' = x_rsp s + KERNEL_TEXT_BASE ∧ x_cr3 s' = x_cr3 s ∧ below_stack s s').
Proof.
  intros Hg Hp Ms Mg. pose proof Hp as [_ _ Hpg _ _ _ Hr _]. apply wp_bind, wp_boot_jump; [done..|]. intros m1 [B1 F1].
  destruct s as [m b c0 c3 c4 ef gd id cs da irq df ip rax sp]. xs.
  eapply wp_boot_high; xs; [done|done|done|lia|done|exact B1|done|by rewrite length_le_bytes|by rewrite length_le_bytes|].
  intros m2 [_ F2]. split_and!; [done..|lia|done|]. intros x Hx. xs.
  rewrite F2, F1; [done|..]; by rewrite !length_app, !length_le_bytes.
Qed.

(** ** The data *)

Definition field (n off : nat) (l : list Z) : Z := le (take n (drop off l)).

(** The tags of a header, each with its size rounded up to eight bytes, up to
    the end tag. *)
Fixpoint header_tag_types (fuel : nat) (l : list Z) : option (list Z) :=
  match fuel with
  | O => None
  | S fuel =>
      let type := field 2 0 l in
      let size := field 4 4 l in
      if (size <? 8) || (Z.of_nat (length l) <? size) then None
      else if type =? 0 then if Z.of_nat (length l) =? 8 then Some [] else None
      else match header_tag_types fuel (drop (Z.to_nat ((size + 7) / 8 * 8)) l) with Some ts => Some (type :: ts) | None => None end
  end.

(** The loader accepts the header: its four words add up to zero, the length is
    that of the header, and its tags are the request to align modules (6) and
    the end. *)
Theorem multiboot_header_valid :
  u32 (field 4 0 multiboot_header + field 4 4 multiboot_header + field 4 8 multiboot_header + field 4 12 multiboot_header) = 0 ∧
  field 4 0 multiboot_header = 0xE85250D6 ∧ field 4 8 multiboot_header = Z.of_nat (length multiboot_header) ∧
  header_tag_types 4 (drop 16 multiboot_header) = Some [6].
Proof. by vm_compute. Qed.

(** The segment has the size of its descriptor's limit, and the processor finds
    the two interrupt stacks at its first two entries. *)
Theorem tss64_correct stack_top :
  0 ≤ stack_top → stack_top + PAGE_SIZE * 6 < 2 ^ 64 →
  Z.of_nat (length (tss64 stack_top)) = tss_size + 1 ∧
  field 8 36 (tss64 stack_top) = ist_stack_1 stack_top ∧ field 8 44 (tss64 stack_top) = ist_stack_2 stack_top ∧
  ist_stack_1 stack_top - PAGE_SIZE = stack_bottom stack_top.
Proof.
  intros H0 H1. unfold ist_stack_2, ist_stack_1, stack_bottom, PAGE_SIZE in *. split; [done|].
  split; [|split; [|lia]].
  - change (field 8 36 (tss64 stack_top)) with (le (le_bytes 8 (stack_top + 4096 * 4 + 4096))). apply le_le_bytes. change (256 ^ Z.of_nat 8) with (2 ^ 64). lia.
  - change (field 8 44 (tss64 stack_top)) with (le (le_bytes 8 (stack_top + 4096 * 4 + 4096 + 4096))). apply le_le_bytes. change (256 ^ Z.of_nat 8) with (2 ^ 64). lia.
Qed.

(** ** Examples *)

Module ModesDemo.
Definition gdt_phys : Z := 0x101000.
Definition xlat (va : Z) : option Z :=
  if va <? 0x200000 then Some va else if KERNEL_TEXT_BASE <=? va then Some (va - KERNEL_TEXT_BASE) else None.
Definition put_at (a : Z) (l : list Z) (m : bmem) : bmem := list_to_map (zip (seqZ a (Z.of_nat (length l))) l) ∪ m.
Definition mem : bmem :=
  put_at tmp_gdt trampoline_data (put_at 0x1100 (le_bytes 4 0x1110 ++ le_bytes 2 8) (put_at gdt_phys gdt64 ∅)).
Definition start : xcpu := mk_xcpu mem B16 0x10 0 0 0 (0, 0) (0, 0) 0x100 0 false false 0 0 0.

Lemma in_place : trampoline_in 0x1100 0x1110 gdt_phys mem.
Proof. split; apply bytes_b_sound; by vm_compute. Qed.
End ModesDemo.

Lemma trampoline_correct_witness :
  wp (smp_trampoline_16 ModesDemo.xlat 0x1010 0x1080 0x200000;; smp_trampoline_64 ModesDemo.xlat 0x1100 (ModesDemo.gdt_phys + KERNEL_TEXT_BASE) 0xFFFFFFFF80102000)
     ModesDemo.start (λ _ s', x_bits s' = B64).
Proof.
  eapply wp_mono; [refine (trampoline_correct ModesDemo.xlat 0x1010 0x1080 0x1100 0x1110 (ModesDemo.gdt_phys + KERNEL_TEXT_BASE)
    0xFFFFFFFF80102000 0x200000 ModesDemo.gdt_phys ModesDemo.start _ _ _ _ _ _ _ ModesDemo.in_place)|].
  - intros a Ha. unfold ModesDemo.xlat, LOAD_ADDR, PAGE_SIZE in *. by rewrite (proj2 (Z.ltb_lt a _)) by lia.
  - intros i Hi. unfold ModesDemo.xlat, ModesDemo.gdt_phys, KERNEL_TEXT_BASE. rewrite (proj2 (Z.ltb_ge _ _)) by lia.
    rewrite (proj2 (Z.leb_le _ _)) by lia. f_equal. lia.
  - by split.
  - by split.
  - by split.
  - by right.
  - by split.
  - by intros ? ? (? & _).
Defined.
