(* ===== verification/Pit.v ===== *)
(** * Ports and the interval timer

    [inb] and [outb] of include/asm.h on a device that is an interface: a
    class gives the answer to a read and the effect of a read or write, and
    the drivers are proved against laws that say what the hardware
    documentation promises.  kernel/drivers/pit/pit.c waits on channel 0 of
    the 8254, one-shot, by polling its output. *)

From stdpp Require Import base list.
From Stdlib Require Import ZArith Lia Bool.
From S2P Require Import Prelude Addr.
Local Open Scope Z_scope.

(** ** include/asm.h *)

Class PortDevice (D : Type) := {
  port_in : Z → D → Z * D;
  port_out : Z → Z → D → D
}.

Section ports.
Context {D : Type} `{PortDevice D}.
Definition inb (port : Z) : M D Z := λ d, let '(v, d') := port_in (u16 port) d in Ok (u8 v, d').
Definition outb (port val : Z) : M D unit := modify (port_out (u16 port) (u8 val)).
End ports.

(** ** pit.c *)

(** The lock and the machine around the kernel. *)
Record pit_st (D : Type) := mk_pit { pit_lock : Z; pit_dev : D }.
Arguments mk_pit {D} _ _.
Arguments pit_lock {D} _.
Arguments pit_dev {D} _.

Section code.
Context {D : Type} `{PortDevice D}.

Definition on_dev {A} (m : M D A) : M (pit_st D) A := zoom pit_dev (λ d s, mk_pit (pit_lock s) d) m.
(** As one CPU sees it: the lock is free, or it waits for ever. *)
Definition lock_pit : M (pit_st D) unit :=
  s ← get; if pit_lock s =? 0 then put (mk_pit 1 (pit_dev s)) else diverge.
Definition unlock_pit : M (pit_st D) unit := modify (λ s, mk_pit 0 (pit_dev s)).

(** [outb(0x43, 0x30)] and the two halves of the count. *)
Definition load_count (count : Z) : M D unit :=
  outb 0x43 0x30;; outb 0x40 (Z.land count 0xFF);; outb 0x40 (Z.shiftr count 8).

(** The inner loop, which has no bound in the source: [polls] is its fuel. *)
Definition wait_output (polls : nat) : M D unit :=
  loop polls (λ _ : unit, outb 0x43 0xE2;; v ← inb 0x40; mret (if Z.land v (Z.shiftl 1 7) =? 0 then inl tt else inr tt)) tt.

(** [total_count & ~0xFFFF], where [~0xFFFF] is negative and sign-extended *)
Definition more (total_count : Z) : bool := negb (Z.land total_count (u64 (Z.lnot 0xFFFF)) =? 0).

Definition pit_round (polls : nat) (total_count : Z) : M D (Z + unit) :=
  let count := u16 (MIN total_count 0xFFFF) in
  load_count count;;
  wait_output polls;;
  let total_count := u64 (total_count - count) in
  mret (if more total_count then inl total_count else inr tt).

(** Every round but the last takes 0xFFFF off a 64-bit number. *)
Definition rounds (total_count : Z) : nat := Z.to_nat (total_count / 0xFFFF + 2).

Definition pit_sleep_ms (polls : nat) (ms : Z) : M (pit_st D) unit :=
  lock_pit;;
  let total_count := u64 (0x4A9 * ms) in
  on_dev (loop (rounds total_count) (pit_round polls) total_count);;
  unlock_pit.

(** The flag is written by another CPU, so that its value is a function of the
    machine's state. *)
Context (flag : D → bool).

Definition wait_output_or_flag (polls : nat) (original : bool) : M D bool :=
  loop polls (λ _ : unit,
    d ← get;
    if negb (eqb (flag d) original) then mret (inr true)
    else outb 0x43 0xE2;; v ← inb 0x40; mret (if Z.land v (Z.shiftl 1 7) =? 0 then inl tt else inr false)) tt.

Definition watch_round (polls : nat) (original : bool) (total_count : Z) : M D (Z + unit) :=
  let count := u16 (MIN total_count 0xFFFF) in
  load_count count;;
  changed ← wait_output_or_flag polls original;
  if changed : bool then mret (inr tt)
  else
    let total_count := u64 (total_count - count) in
    mret (if more total_count then inl total_count else inr tt).

Definition pit_sleep_watch_flag (polls : nat) (ms : Z) (original : bool) : M (pit_st D) unit :=
  lock_pit;;
  let total_count := u64 (0x4A9 * ms) in
  on_dev (loop (rounds total_count) (watch_round polls original) total_count);;
  unlock_pit.
End code.

(** ** The timer *)

(** What the 8254 promises for the commands used: loading a count starts it,
    and the output read back is high when it has run out.  [elapsed] are the
    counts that were loaded, latest first, and [left] the number of polls
    until the output is high. *)
Class Timer (D : Type) `{PortDevice D} (polls : nat) := {
  loaded : D → list Z;
  left : D → nat;
  timer_load d c : 0 ≤ c < 65536 →
    let d' := port_out 0x40 (c / 256) (port_out 0x40 (c mod 256) (port_out 0x43 0x30 d)) in
    loaded d' = c :: loaded d ∧ (left d' < polls)%nat;
  timer_poll d :
    let '(v, d') := port_in 0x40 (port_out 0x43 0xE2 d) in
    loaded d' = loaded d ∧ left d' = pred (left d) ∧ (Z.testbit v 7 = true ↔ left d = 0%nat)
}.

(** The counts for a wait of [total] ticks: whole rounds of 0xFFFF until less
    than 0x10000 are left. *)
Fixpoint counts (fuel : nat) (total : Z) : list Z :=
  match fuel with
  | O => []
  | S fuel => MIN total 0xFFFF :: (if 0xFFFF + 0x10000 <=? total then counts fuel (total - 0xFFFF) else [])
  end.

Section proofs.
Context {D : Type} `{HP : !PortDevice D} (polls : nat) `{HT : !Timer D polls}.

Lemma wp_load_count c d (Q : unit → D → Prop) :
  0 ≤ c < 65536 → (∀ d', loaded d' = c :: loaded d → (left d' < polls)%nat → Q tt d') → wp (load_count c) d Q.
Proof.
  intros Hc HQ. unfold load_count, outb. apply wp_bind, wp_modify, wp_bind, wp_modify, wp_modify.
  change (u16 67) with 67. change (u16 64) with 64. change (u8 48) with 48.
  change 0xFF with (Z.ones 8). rewrite Z.land_ones, Z.shiftr_div_pow2 by lia.
  rewrite (uwrap_id 8 (c mod 2 ^ 8)) by (unfold in_u; apply Z.mod_pos_bound; lia).
  rewrite (uwrap_id 8 (c / 2 ^ 8)) by (unfold in_u; split; [apply Z.div_pos; lia|apply Z.div_lt_upper_bound; lia]).
  destruct (timer_load d c Hc) as [Hl Hr]. by apply HQ.
Qed.

Lemma wp_poll d (Q : Z → D → Prop) :
  (∀ v d', loaded d' = loaded d → left d' = pred (left d) → ((Z.land v (Z.shiftl 1 7) =? 0) = negb (bool_decide (left d = 0%nat))) → Q v d') →
  wp (outb 0x43 0xE2;; inb 0x40) d Q.
Proof.
  intros HQ. apply wp_bind, wp_modify. unfold wp, inb. change (u16 67) with 67. change (u8 226) with 226. change (u16 64) with 64.
  pose proof (timer_poll d) as Hp. destruct (port_in 64 _) as [v d'] eqn:E. destruct Hp as (Hl & Hr & Hv).
  apply HQ; [done|done|]. rewrite Z.shiftl_1_l. rewrite <-(negb_involutive (_ =? 0)), land_pow2_testbit by lia. f_equal.
  unfold uwrap. rewrite Z.mod_pow2_bits_low by lia. apply eq_true_iff_eq. rewrite bool_decide_eq_true. exact Hv.
Qed.

Lemma wp_wait_output d (Q : unit → D → Prop) :
  (left d < polls)%nat → (∀ d', loaded d' = loaded d → Q tt d') → wp (wait_output polls) d Q.
Proof.
  intros Hd HQ. unfold wait_output.
  apply (wp_loop (λ n _ d', n = left d' ∧ loaded d' = loaded d)) with (n := left d); [|done|done].
  intros n [] d' [-> Hl]. apply wp_bind_assoc, wp_bind, wp_poll. intros v d2 Hl2 Hr2 Hv. apply wp_ret. rewrite Hv.
  case_bool_decide as H0; simpl; [apply HQ; congruence|]. exists (left d2). rewrite Hr2. split; [lia|]. split; [done|congruence].
Qed.

Lemma more_spec t : in_u 64 t → more t = (0x10000 <=? t).
Proof.
  intros Ht. unfold more, in_u in *. change (u64 (Z.lnot 0xFFFF)) with (Z.shiftl (Z.ones 48) 16).
  assert (Z.land t (Z.shiftl (Z.ones 48) 16) = t / 2 ^ 16 * 2 ^ 16) as ->.
  { rewrite <-Z.shiftl_mul_pow2, <-Z.shiftr_div_pow2 by lia. apply Z.bits_inj'. intros i Hi.
    rewrite Z.land_spec, !Z.shiftl_spec by lia. destruct (decide (i < 16)).
    { by rewrite !(Z.testbit_neg_r _ (i - 16)), andb_false_r by lia. }
    rewrite Z.shiftr_spec by lia. replace (i - 16 + 16) with i by lia. destruct (decide (i < 64)).
    - by rewrite Z.ones_spec_low, andb_true_r by lia.
    - rewrite Z.ones_spec_high, andb_false_r by lia. symmetry. rewrite <-(Z.mod_small t (2 ^ 64)) by lia. by apply Z.mod_pow2_bits_high; lia. }
  assert (0 ≤ t / 2 ^ 16) by (apply Z.div_pos; lia).
  destruct (Z.leb_spec 0x10000 t) as [Hge|Hlt].
  - assert (1 ≤ t / 2 ^ 16) by (apply Z.div_le_lower_bound; lia). apply negb_true_iff, Z.eqb_neq. lia.
  - rewrite Z.div_small by lia. done.
Qed.

Lemma count_step total : 0 ≤ total → u16 (MIN total 0xFFFF) = MIN total 0xFFFF ∧ 0 ≤ MIN total 0xFFFF < 65536 ∧ MIN total 0xFFFF ≤ total.
Proof.
  intros H0. unfold MIN. destruct (Z.gtb_spec total 0xFFFF).
  - split_and!; [done|lia..].
  - rewrite uwrap_id by (unfold in_u; lia). lia.
Qed.

Lemma div_step t : (t - 0xFFFF) / 0xFFFF = t / 0xFFFF - 1.
Proof. replace (t - 0xFFFF) with (t + -1 * 0xFFFF) by lia. rewrite Z.div_add by lia. lia. Qed.

(** The loop over the rounds. *)
Lemma wp_pit_rounds total d (Q : unit → D → Prop) :
  in_u 64 total → (∀ d', loaded d' = rev (counts (rounds total) total) ++ loaded d → Q tt d') →
  wp (loop (rounds total) (pit_round polls) total) d Q.
Proof.
  intros Ht HQ. assert (∀ n t d, in_u 64 t → (Z.to_nat (t / 0xFFFF) + 1 < n)%nat →
    (∀ d', loaded d' = rev (counts n t) ++ loaded d → Q tt d') → wp (loop n (pit_round polls) t) d Q) as Hgen.
  { clear total d Ht HQ. induction n as [|n IH]; intros t d Ht Hn HQ; [lia|]. unfold in_u in Ht. simpl loop. apply wp_bind. unfold pit_round.
    destruct (count_step t ltac:(lia)) as (-> & Hc & Hle). apply wp_bind, wp_load_count; [done|]. intros d1 Hl1 Hr1.
    apply wp_bind, wp_wait_output; [done|]. intros d2 Hl2. apply wp_ret. rewrite (uwrap_id 64) by (unfold in_u; lia).
    rewrite more_spec by (unfold in_u; lia). simpl counts in HQ.
    assert ((0x10000 <=? t - MIN t 0xFFFF) = (0xFFFF + 0x10000 <=? t)) as ->.
    { unfold MIN. destruct (Z.gtb_spec t 0xFFFF); [|by destruct (Z.leb_spec 0x10000 (t - t)), (Z.leb_spec (0xFFFF + 0x10000) t); lia].
      destruct (Z.leb_spec 0x10000 (t - 0xFFFF)), (Z.leb_spec (0xFFFF + 0x10000) t); lia. }
    destruct (Z.leb_spec (0xFFFF + 0x10000) t) as [Hge|Hlt]; [|apply wp_ret, HQ; simpl; congruence].
    assert (MIN t 0xFFFF = 0xFFFF) as Em by (unfold MIN; destruct (Z.gtb_spec t 0xFFFF); lia). rewrite Em in *.
    assert ((t - 0xFFFF) / 0xFFFF = t / 0xFFFF - 1) as Ed by apply div_step.
    assert (1 ≤ t / 0xFFFF) by (apply Z.div_le_lower_bound; lia).
    apply IH; [unfold in_u; lia|rewrite Ed; lia|]. intros d3 Hl3. apply HQ. simpl rev. rewrite <-(assoc_L (++)). simpl. congruence. }
  apply Hgen; [done| |done]. unfold rounds. unfold in_u in Ht. pose proof (Z.div_pos total 0xFFFF ltac:(lia) ltac:(lia)). lia.
Qed.

(** The ticks of the counts: all of them up to 0xFFFF, and otherwise less
    than 0x10000 too few. *)
Lemma counts_total n total :
  0 ≤ total → (Z.to_nat (total / 0xFFFF) + 1 < n)%nat →
  let waited := foldr Z.add 0 (counts n total) in
  waited ≤ total ∧ total - waited < 0x10000 ∧ (total ≤ 0xFFFF → waited = total).
Proof.
  revert total. induction n as [|n IH]; intros t Ht Hn; [lia|]. simpl. unfold MIN.
  destruct (Z.leb_spec (0xFFFF + 0x10000) t) as [Hge|Hlt].
  - rewrite (proj2 (Z.gtb_lt t 0xFFFF)) by lia.
    assert ((t - 0xFFFF) / 0xFFFF = t / 0xFFFF - 1) as Ed by apply div_step.
    assert (1 ≤ t / 0xFFFF) by (apply Z.div_le_lower_bound; lia).
    destruct (IH (t - 0xFFFF)) as (H1 & H2 & _); [lia|rewrite Ed; lia|]. lia.
  - simpl. destruct (Z.gtb_spec t 0xFFFF); lia.
Qed.

(** The ticks a call has waited for. *)
Definition ticks (d d' : D) (t : Z) : Prop := ∃ cs, loaded d' = rev cs ++ loaded d ∧ foldr Z.add 0 cs = t.

(** pit_sleep_ms returns, with the lock released, after the timer has run
    out on counts that add up to the ticks of the given time, if these fit in
    one count of sixteen bits, and to less than 0x10000 too few otherwise;
    the time is in range for less than 2^53 milliseconds. *)
Theorem pit_sleep_correct s ms :
  pit_lock s = 0 → 0 ≤ ms < 2 ^ 53 →
  wp (pit_sleep_ms polls ms) s (λ _ s', pit_lock s' = 0 ∧ ∃ t, ticks (pit_dev s) (pit_dev s') t ∧
    t ≤ 0x4A9 * ms ∧ 0x4A9 * ms - t < 0x10000 ∧ (0x4A9 * ms ≤ 0xFFFF → t = 0x4A9 * ms)).
Proof.
  intros Hl Hms. unfold pit_sleep_ms, lock_pit. apply wp_bind, wp_bind, wp_get. rewrite Hl. simpl. apply wp_put.
  rewrite (uwrap_id 64 (1193 * ms)) by (unfold in_u; lia). apply wp_bind. apply wp_zoom.
  apply wp_pit_rounds; [unfold in_u; lia|]. intros d' Hd'. apply wp_modify. split; [done|].
  exists (foldr Z.add 0 (counts (rounds (1193 * ms)) (1193 * ms))). split; [by eexists|].
  apply counts_total; [lia|]. unfold rounds. pose proof (Z.div_pos (1193 * ms) 0xFFFF ltac:(lia) ltac:(lia)). lia.
Qed.

Context (flag : D → bool).

Lemma wp_wait_output_or_flag d original (Q : bool → D → Prop) :
  (left d < polls)%nat →
  (∀ b d', loaded d' = loaded d → (b = true → flag d' ≠ original) → Q b d') → wp (wait_output_or_flag flag polls original) d Q.
Proof.
  intros Hd HQ. unfold wait_output_or_flag.
  apply (wp_loop (λ n _ d', n = left d' ∧ loaded d' = loaded d)) with (n := left d); [|done|done].
  intros n [] d' [-> Hl]. apply wp_bind, wp_get. destruct (eqb (flag d') original) eqn:Ef; simpl negb; cbv iota.
  - apply wp_bind_assoc, wp_bind, wp_poll. intros v d2 Hl2 Hr2 Hv. apply wp_ret. rewrite Hv.
    case_bool_decide as H0; simpl; [apply HQ; [congruence|done]|]. exists (left d2). rewrite Hr2. split; [lia|]. split; [done|congruence].
  - apply wp_ret. apply HQ; [done|]. intros _ E. by rewrite E, eqb_reflx in Ef.
Qed.

(** Pit_sleep_watch_flag returns, with the lock released, either with the
    flag changed or after the ticks of the given time, when these fit in one
    count. *)
Theorem pit_watch_correct s ms original :
  pit_lock s = 0 → 0 ≤ 0x4A9 * ms ≤ 0xFFFF →
  wp (pit_sleep_watch_flag flag polls ms original) s (λ _ s', pit_lock s' = 0 ∧
    (flag (pit_dev s') ≠ original ∨ ticks (pit_dev s) (pit_dev s') (0x4A9 * ms))).
Proof.
  intros Hl Hms. unfold pit_sleep_watch_flag, lock_pit. apply wp_bind, wp_bind, wp_get. rewrite Hl. simpl. apply wp_put.
  rewrite (uwrap_id 64 (1193 * ms)) by (unfold in_u; lia). apply wp_bind, wp_zoom. unfold rounds.
  replace (Z.to_nat (1193 * ms / 65535 + 2)) with (S (Z.to_nat (1193 * ms / 65535 + 1))).
  2: { pose proof (Z.div_pos (1193 * ms) 0xFFFF ltac:(lia) ltac:(lia)). lia. }
  simpl loop. apply wp_bind. unfold watch_round. destruct (count_step (1193 * ms) ltac:(lia)) as (-> & Hc & _).
  assert (MIN (1193 * ms) 0xFFFF = 1193 * ms) as Em by (unfold MIN; destruct (Z.gtb_spec (1193 * ms) 0xFFFF); lia). rewrite Em in *.
  apply wp_bind, wp_load_count; [done|]. intros d1 Hl1 Hr1. apply wp_bind, wp_wait_output_or_flag; [done|]. intros b d2 Hl2 Hb.
  destruct b; [apply wp_ret, wp_ret, wp_modify; split; [done|]; left; by apply Hb|]. apply wp_ret.
  rewrite Z.sub_diag. change (more (u64 0)) with false. cbv iota. apply wp_ret, wp_modify. split; [done|]. right.
  exists [1193 * ms]. split; [exact (eq_trans Hl2 Hl1)|]. cbn [foldr]. lia.
Qed.
End proofs.

(** A wait of a hundred milliseconds is cut short: one count of 0xFFFF is
    loaded, for 55 of them. *)
Theorem pit_sleep_cut_short :
  counts (rounds (0x4A9 * 100)) (0x4A9 * 100) = [0xFFFF] ∧ 2 * foldr Z.add 0 [0xFFFF] < 0x4A9 * 110.
Proof. done. Qed.

(** ** A timer *)

Module PitDemo.
(** The counts loaded, the low byte of a count that is being loaded, and the
    polls left of the three that every count takes. *)
Record dev := mk_dev { log : list Z; low : option Z; left_ : nat }.
#[global] Instance ports : PortDevice dev := {|
  port_in _ d := (if decide (left_ d = 0%nat) then 0x80 else 0, mk_dev (log d) (low d) (pred (left_ d)));
  port_out p v d :=
    if p =? 0x40 then
      match low d with None => mk_dev (log d) (Some v) (left_ d) | Some l => mk_dev (l + 256 * v :: log d) None 3 end
    else if v =? 0x30 then mk_dev (log d) None (left_ d) else d
|}.
#[global] Instance timer : Timer dev 4.
Proof.
  refine {| loaded := log; left := left_ |}.
  - intros d c Hc. simpl. split; [|lia]. f_equal. pose proof (Z.div_mod c 256 ltac:(lia)). lia.
  - intros d. simpl. split; [done|]. split; [done|]. case_decide; split; done || (intros; done).
Defined.
End PitDemo.

Lemma pit_sleep_correct_witness :
  wp (pit_sleep_ms 4 30) (mk_pit 0 (PitDemo.mk_dev [] None 0)) (λ _ s', pit_lock s' = 0).
Proof.
  eapply wp_mono; [apply (pit_sleep_correct 4 (mk_pit 0 (PitDemo.mk_dev [] None 0)) 30); [done|lia]|]. by intros ? s' [? _].
Defined.

Lemma pit_watch_correct_witness :
  wp (pit_sleep_watch_flag (λ _, false) 4 10 false) (mk_pit 0 (PitDemo.mk_dev [] None 0)) (λ _ s', pit_lock s' = 0).
Proof.
  eapply wp_mono; [apply (pit_watch_correct 4 (λ _, false) (mk_pit 0 (PitDemo.mk_dev [] None 0)) 10 false); [done|lia]|].
  by intros ? s' [? _].
Defined.
