(* ===== verification/Ps2.v ===== *)
(** * The keyboard controller

    include/drivers/ps2.h, kernel/drivers/ps2/ps2.c and keyboard.c on the
    ports of Pit.v, with the table of handlers of Interrupts.v and the I/O
    APIC of Apic.v, where the keyboard's interrupt is unmasked.  The loops
    that poll the status register have no bound in the source: [polls] is
    their fuel.  The controller is an interface with the behaviour the 8042
    is documented to have. *)

From stdpp Require Import base list gmap.
From Stdlib Require Import ZArith Lia Bool.
From S2P Require Import Prelude Addr Strings Interrupts Acpi Apic ApicSpec Pit.
Local Open Scope Z_scope.

Definition PS2_STATUS : Z := 0x64.
Definition PS2_COMMAND : Z := 0x64.
Definition PS2_DATA : Z := 0x60.

Definition PS2_INT0 : Z := Z.shiftl 1 0.
Definition PS2_INT1 : Z := Z.shiftl 1 1.
Definition PS2_SYS_FLAG : Z := Z.shiftl 1 2.
Definition PS2_CLOCK0 : Z := Z.shiftl 1 4.
Definition PS2_CLOCK1 : Z := Z.shiftl 1 5.
Definition PS2_TRANSLATE : Z := Z.shiftl 1 6.

(** ** isr.c: masking *)

Section mask.
Context {BC : BuildConfig}.
Definition isr_irq_mask (vec : Z) : AP unit := kassert_dbg (IRQ_APIC_BASE <=? vec);; ioapic_mask (u32 (vec - IRQ_APIC_BASE)).
Definition isr_irq_unmask (vec : Z) : AP unit := kassert_dbg (IRQ_APIC_BASE <=? vec);; ioapic_unmask (u32 (vec - IRQ_APIC_BASE)).
Definition ISA_TO_INTERRUPT (x : Z) : AP Z := g ← ioapic_isa_to_gsi x; mret (g + IRQ_APIC_BASE).
End mask.

(** ** The drivers *)

Record ps2_st (D : Type) := mk_ps2 { p_dev : D; p_table : list isr_info; p_apic : apic_st }.
Arguments mk_ps2 {D} _ _ _.
Arguments p_dev {D} _.
Arguments p_table {D} _.
Arguments p_apic {D} _.

Section code.
Context {D : Type} `{PortDevice D} {BC : BuildConfig} (polls : nat).

Definition ps2_read_data : M D Z :=
  loop polls (λ _ : unit, v ← inb PS2_STATUS; mret (if Z.land v 1 =? 0 then inl tt else inr tt)) tt;;
  inb PS2_DATA.

Definition ps2_read_status : M D Z := inb PS2_STATUS.

(** The wait of the two functions that write. *)
Definition wait_input : M D unit :=
  loop polls (λ _ : unit, v ← inb PS2_STATUS; mret (if negb (Z.land v 2 =? 0) then inl tt else inr tt)) tt.

Definition ps2_write_cmd (data : Z) : M D unit := wait_input;; outb PS2_COMMAND data.
Definition ps2_write_data (data : Z) : M D unit := wait_input;; outb PS2_DATA data.

Definition ps2_read_config : M D Z :=
  ps2_write_cmd 0x20;;
  config_byte ← ps2_read_data;
  kassert_dbg (Z.land config_byte (Z.shiftl 1 7) =? 0);;
  mret config_byte.

Definition ps2_write_config (config_byte : Z) : M D unit := ps2_write_cmd 0x60;; ps2_write_data config_byte.

(** [while ((inb(PS2_STATUS) & 1) != 0) (void)inb(PS2_DATA);] *)
Definition flush_output : M D unit :=
  loop polls (λ _ : unit, v ← inb PS2_STATUS; if negb (Z.land v 1 =? 0) then inb PS2_DATA;; mret (inl tt) else mret (inr tt)) tt.

Definition on_ps2 {A} (m : M D A) : M (ps2_st D) A := zoom p_dev (λ d s, mk_ps2 d (p_table s) (p_apic s)) m.
Definition on_apic {A} (m : AP A) : M (ps2_st D) A := zoom p_apic (λ a s, mk_ps2 (p_dev s) (p_table s) a) m.

(** The address of [ps2kbd_irq_handler]. *)
Context (kbd_handler : Z).

Definition ps2kbd_irq_handler : M D unit := ps2_read_data;; mret tt.

Definition ps2kbd_init : M (ps2_st D) unit :=
  v ← on_apic (ISA_TO_INTERRUPT 1);
  let vec := u8 v in
  modify (λ s, mk_ps2 (p_dev s) (isr_set_info vec (mk_info ISR_IRQ (Some (OtherHandler kbd_handler))) (p_table s)) (p_apic s));;
  on_apic (isr_irq_unmask vec);;
  on_ps2 flush_output.

(** [ps2_init] up to the call of [ps2kbd_init], in the parts its comments
    give it. *)
Definition disable_devices : M D unit := ps2_write_cmd 0xAD;; ps2_write_cmd 0xA7;; flush_output.

Definition configure : M D unit :=
  config_byte ← ps2_read_config;
  kassert (negb (Z.land config_byte PS2_CLOCK1 =? 0));;
  ps2_write_config (u8 (Z.land config_byte (Z.lnot (Z.lor (Z.lor PS2_INT0 PS2_INT1) PS2_TRANSLATE)))).

Definition self_test : M D unit :=
  ps2_write_cmd 0xAA;; r ← ps2_read_data; kassert (r =? 0x55).

Definition second_channel : M D unit :=
  ps2_write_cmd 0xA8;; ps2_write_cmd 0x20;;
  config_byte ← ps2_read_data;
  kassert (Z.land config_byte PS2_CLOCK1 =? 0);;
  ps2_write_cmd 0xA7.

Definition interface_tests : M D unit :=
  ps2_write_cmd 0xAB;; r ← ps2_read_data; kassert (r =? 0);;
  ps2_write_cmd 0xA9;; r ← ps2_read_data; kassert (r =? 0).

Definition enable_devices : M D unit :=
  config_byte ← ps2_read_config;
  ps2_write_config (Z.lor config_byte (Z.lor PS2_INT0 PS2_INT1));;
  ps2_write_cmd 0xAE;; ps2_write_cmd 0xA8.

Definition ps2_init : M (ps2_st D) unit :=
  on_ps2 (disable_devices;; configure;; self_test;; second_channel;; interface_tests;; enable_devices);;
  ps2kbd_init.
End code.

(** ** The controller *)

(** The configuration byte, whether the next data byte is one, the output
    that can be read, the answer still to come, the status reads until the
    last write has been taken and its answer is there, and the bytes the
    keyboard has yet to send. *)
Record ctl := mk_ctl { c_config : Z; c_expect : bool; c_out : list Z; c_answer : list Z; c_busy : nat; c_keys : list Z }.

Definition set_config v c := mk_ctl v (c_expect c) (c_out c) (c_answer c) (c_busy c) (c_keys c).
Definition answer l c := mk_ctl (c_config c) (c_expect c) (c_out c) l (c_busy c) (c_keys c).

(** The effect of a command. *)
Definition command (v : Z) (c : ctl) : ctl :=
  if v =? 0xAD then set_config (Z.setbit (c_config c) 4) c
  else if v =? 0xA7 then set_config (Z.setbit (c_config c) 5) c
  else if v =? 0xAE then set_config (Z.clearbit (c_config c) 4) c
  else if v =? 0xA8 then set_config (Z.clearbit (c_config c) 5) c
  else if v =? 0x20 then answer [c_config c] c
  else if v =? 0x60 then mk_ctl (c_config c) true (c_out c) (c_answer c) (c_busy c) (c_keys c)
  else if v =? 0xAA then answer [0x55] c
  else if (v =? 0xAB) || (v =? 0xA9) then answer [0x00] c
  else c.

(** The effect of a data byte: the configuration, or a byte for a device. *)
Definition data (v : Z) (c : ctl) : ctl :=
  if c_expect c then mk_ctl v false (c_out c) (c_answer c) (c_busy c) (c_keys c) else c.

(** Time passes with a status read: the controller comes nearer to being
    ready, when its answer comes out, and the keyboard sends what it likes
    unless its clock is stopped. *)
Record ticked (c c' : ctl) : Prop := {
  tk_config : c_config c' = c_config c;
  tk_expect : c_expect c' = c_expect c;
  tk_busy : c_busy c' = pred (c_busy c);
  tk_answer : c_answer c' = if decide (c_busy c = 1%nat) then [] else c_answer c;
  tk_out : ∃ sent, c_keys c = sent ++ c_keys c' ∧ (Z.testbit (c_config c) 4 = true → sent = []) ∧
           c_out c' = c_out c ++ (if decide (c_busy c = 1%nat) then c_answer c else []) ++ sent
}.

Definition start (n : nat) (c : ctl) : ctl := mk_ctl (c_config c) (c_expect c) (c_out c) (c_answer c) n (c_keys c).
Definition taken (c : ctl) : ctl := mk_ctl (c_config c) (c_expect c) (tail (c_out c)) (c_answer c) (c_busy c) (c_keys c).

(** A controller with two channels that passes its tests and is never busy
    for [polls] status reads. *)
Class Controller (D : Type) `{PortDevice D} (polls : nat) := {
  ctl_of : D → ctl;
  ctl_status d :
    let '(v, d') := port_in PS2_STATUS d in
    ticked (ctl_of d) (ctl_of d') ∧
    Z.testbit v 0 = bool_decide (c_out (ctl_of d) ≠ []) ∧ Z.testbit v 1 = bool_decide (c_busy (ctl_of d) ≠ 0%nat);
  ctl_read d x l :
    c_out (ctl_of d) = x :: l → let '(v, d') := port_in PS2_DATA d in v = x ∧ ctl_of d' = taken (ctl_of d);
  ctl_command d v :
    c_busy (ctl_of d) = 0%nat → ∃ n, (0 < n < polls)%nat ∧ ctl_of (port_out PS2_COMMAND v d) = start n (command v (ctl_of d));
  ctl_data d v :
    c_busy (ctl_of d) = 0%nat → ∃ n, (0 < n < polls)%nat ∧ ctl_of (port_out PS2_DATA v d) = start n (data v (ctl_of d))
}.

Section proofs.
Context {D : Type} `{!PortDevice D} {polls : nat} `{!Controller D polls} {BC : BuildConfig}.
Implicit Types d : D.

(** Time passes while no answer is outstanding. *)
Record passed (c c' : ctl) : Prop := {
  ps_config : c_config c' = c_config c;
  ps_expect : c_expect c' = c_expect c;
  ps_answer : c_answer c' = [];
  ps_busy : (c_busy c' ≤ c_busy c)%nat;
  ps_bytes : c_out c' ++ c_keys c' = c_out c ++ c_keys c;
  ps_keys : c_keys c' `suffix_of` c_keys c;
  ps_clock : Z.testbit (c_config c) 4 = true → c_keys c' = c_keys c
}.

Lemma passed_refl c : c_answer c = [] → passed c c.
Proof. by split. Qed.

Lemma passed_trans c1 c2 c3 : passed c1 c2 → passed c2 c3 → passed c1 c3.
Proof.
  intros [C1 E1 A1 B1 O1 S1 K1] [C2 E2 A2 B2 O2 S2 K2]. split; [congruence..|lia|by rewrite O2|by etrans|].
  intros Hc. rewrite K2, K1; [done..|]. by rewrite C1.
Qed.

Lemma ticked_passed c c' : c_answer c = [] → ticked c c' → passed c c'.
Proof.
  intros Ha [C E B A (sent & Hk & Hs & Ho)]. split; [done|done|rewrite A; by destruct decide|lia| | |].
  - rewrite Ho, Hk, Ha. destruct decide; by rewrite <-!(assoc_L (++)).
  - rewrite Hk. by apply suffix_app_r.
  - intros Hc. by rewrite Hk, (Hs Hc).
Qed.

Lemma wp_ps2_status d (Q : Z → D → Prop) :
  (∀ v d', ticked (ctl_of d) (ctl_of d') →
     Z.testbit v 0 = bool_decide (c_out (ctl_of d) ≠ []) → Z.testbit v 1 = bool_decide (c_busy (ctl_of d) ≠ 0%nat) → Q v d') →
  wp (inb PS2_STATUS) d Q.
Proof.
  intros HQ. unfold wp, inb. change (u16 PS2_STATUS) with PS2_STATUS. pose proof (ctl_status d) as Hs.
  destruct (port_in PS2_STATUS d) as [v d']. destruct Hs as (Ht & H0 & H1).
  apply HQ; [done|by unfold uwrap; rewrite Z.mod_pow2_bits_low by lia..].
Qed.

Lemma bit0 v : (Z.land v 1 =? 0) = negb (Z.testbit v 0).
Proof. rewrite <-(land_pow2_testbit v 0) by done. by rewrite negb_involutive. Qed.
Lemma bit1 v : negb (Z.land v 2 =? 0) = Z.testbit v 1.
Proof. exact (land_pow2_testbit v 1 ltac:(lia)). Qed.

Lemma wp_take d x l (Q : Z → D → Prop) :
  c_out (ctl_of d) = x :: l → (∀ d', ctl_of d' = taken (ctl_of d) → Q (u8 x) d') → wp (inb PS2_DATA) d Q.
Proof.
  intros E HQ. unfold wp, inb. change (u16 PS2_DATA) with PS2_DATA. pose proof (ctl_read d x l E) as Hr.
  destruct (port_in PS2_DATA d) as [v d']. destruct Hr as [-> Hd]. by apply HQ.
Qed.

(** ** The three loops *)

Lemma wp_wait_input d (Q : unit → D → Prop) :
  c_answer (ctl_of d) = [] → (c_busy (ctl_of d) < polls)%nat →
  (∀ d', passed (ctl_of d) (ctl_of d') → c_busy (ctl_of d') = 0%nat → Q tt d') → wp (wait_input polls) d Q.
Proof.
  intros Ha Hb HQ. unfold wait_input.
  eapply (wp_loop (λ n _ d', passed (ctl_of d) (ctl_of d') ∧ c_busy (ctl_of d') = n)); [|split; [by apply passed_refl|done]|done].
  clear Hb. intros n _ d1 [Hp <-]. apply wp_bind, wp_ps2_status. intros v d' Ht _ Hv. apply wp_ret. rewrite bit1, Hv.
  assert (passed (ctl_of d) (ctl_of d')) as Hp'.
  { eapply passed_trans; [done|]. apply ticked_passed; [by apply (ps_answer _ _ Hp)|done]. }
  pose proof (tk_busy _ _ Ht) as Hb. case_bool_decide.
  - exists (c_busy (ctl_of d')). split; [lia|done].
  - apply HQ; [done|lia].
Qed.

(** [n] bytes have been read. *)
Record drained (n : nat) (c c' : ctl) : Prop := {
  dr_config : c_config c' = c_config c;
  dr_expect : c_expect c' = c_expect c;
  dr_answer : c_answer c' = [];
  dr_busy : (c_busy c' ≤ c_busy c)%nat;
  dr_bytes : c_out c' ++ c_keys c' = drop n (c_out c ++ c_keys c);
  dr_clock : Z.testbit (c_config c) 4 = true → c_keys c' = c_keys c
}.

Lemma drained_passed n c c1 c2 : drained n c c1 → passed c1 c2 → drained n c c2.
Proof.
  intros [C1 E1 A1 B1 O1 K1] [C2 E2 A2 B2 O2 _ K2]. split; [congruence..|lia|by rewrite O2|].
  intros Hc. rewrite K2, K1; [done..|]. by rewrite C1.
Qed.

Lemma drained_taken n c c1 : drained n c c1 → c_out c1 ≠ [] → drained (S n) c (taken c1).
Proof.
  intros [C1 E1 A1 B1 O1 K1] Ho. split; try done. simpl. destruct (c_out c1) as [|x l]; [done|].
  rewrite <-Nat.add_1_r, <-drop_drop, <-O1. done.
Qed.

Lemma wp_flush d (Q : unit → D → Prop) :
  c_answer (ctl_of d) = [] → (length (c_out (ctl_of d) ++ c_keys (ctl_of d)) < polls)%nat →
  (∀ d' n, drained n (ctl_of d) (ctl_of d') → (length (c_out (ctl_of d)) ≤ n)%nat → Q tt d') →
  wp (flush_output polls) d Q.
Proof.
  intros Ha Hlen HQ. unfold flush_output.
  eapply (wp_loop (λ m _ d', ∃ n, drained n (ctl_of d) (ctl_of d') ∧ (length (c_out (ctl_of d)) ≤ n + length (c_out (ctl_of d')))%nat ∧
    (m + n = length (c_out (ctl_of d) ++ c_keys (ctl_of d)))%nat)).
  2: { exists 0%nat. split_and!; [by split|done|by rewrite Nat.add_0_r]. }
  2: done.
  intros m _ d1 (n & Hd & Hle & Hm). apply wp_bind, wp_ps2_status. intros v d2 Ht Hv _. rewrite bit0, negb_involutive, Hv.
  pose proof (ticked_passed _ _ (dr_answer _ _ _ Hd) Ht) as Hp. pose proof (drained_passed _ _ _ _ Hd Hp) as Hd2.
  case_bool_decide as Ho; [|apply wp_ret, (HQ _ n); [done|by rewrite Ho, Nat.add_0_r in Hle]].
  destruct (tk_out _ _ Ht) as (sent & _ & _ & Eo). destruct (c_out (ctl_of d1)) as [|x l] eqn:E1; [done|].
  apply wp_bind, (wp_take _ x (l ++ (if decide (c_busy (ctl_of d1) = 1%nat) then c_answer (ctl_of d1) else []) ++ sent)); [by rewrite Eo|].
  intros d3 E3. apply wp_ret. exists (pred m). pose proof (dr_bytes _ _ _ Hd) as Hb. apply (f_equal length) in Hb.
  rewrite E1, length_drop in Hb. simpl in Hb. split; [lia|]. exists (S n). rewrite E3.
  split; [by apply drained_taken; [|rewrite Eo]|]. simpl in *. rewrite Eo. simpl. rewrite ?length_app in *. simpl in *. lia.
Qed.

(** The keyboard is stopped, nothing is left to read and the controller
    waits for a command. *)
Record stopped (cfg : Z) (keys : list Z) (c : ctl) : Prop := {
  st_config : c_config c = cfg;
  st_clock : Z.testbit cfg 4 = true;
  st_expect : c_expect c = false;
  st_answer : c_answer c = [];
  st_busy : (c_busy c < polls)%nat;
  st_out : c_out c = [];
  st_keys : c_keys c = keys
}.

Lemma passed_out c c' : passed c c' → Z.testbit (c_config c) 4 = true → c_out c' = c_out c.
Proof. intros Hp Hc. pose proof (ps_bytes _ _ Hp) as Hb. rewrite (ps_clock _ _ Hp Hc) in Hb. by apply app_inv_tail in Hb. Qed.

Lemma passed_stopped cfg keys c c' : stopped cfg keys c → passed c c' → stopped cfg keys c'.
Proof.
  intros [C Hc E A B O K] Hp. assert (Z.testbit (c_config c) 4 = true) as Hc' by by rewrite C.
  split; [by rewrite (ps_config _ _ Hp)|done|by rewrite (ps_expect _ _ Hp)|by apply Hp| |by rewrite (passed_out _ _ Hp Hc')|by rewrite (ps_clock _ _ Hp Hc')].
  pose proof (ps_busy _ _ Hp). lia.
Qed.

(** Waiting, then a command to the controller. *)
Lemma wp_write_cmd d v (Q : unit → D → Prop) :
  c_answer (ctl_of d) = [] → (c_busy (ctl_of d) < polls)%nat → in_u 8 v →
  (∀ c d' n, passed (ctl_of d) c → (0 < n < polls)%nat → ctl_of d' = start n (command v c) → Q tt d') → wp (ps2_write_cmd polls v) d Q.
Proof.
  intros Ha Hb Hv HQ. apply wp_bind, wp_wait_input; [done..|]. intros d1 Hp H0. apply wp_modify.
  change (u16 PS2_COMMAND) with PS2_COMMAND. rewrite uwrap_id by done. destruct (ctl_command d1 v H0) as (n & Hn & E). by eapply HQ.
Qed.

Lemma wp_write_data d v (Q : unit → D → Prop) :
  c_answer (ctl_of d) = [] → (c_busy (ctl_of d) < polls)%nat → in_u 8 v →
  (∀ c d' n, passed (ctl_of d) c → (0 < n < polls)%nat → ctl_of d' = start n (data v c) → Q tt d') → wp (ps2_write_data polls v) d Q.
Proof.
  intros Ha Hb Hv HQ. apply wp_bind, wp_wait_input; [done..|]. intros d1 Hp H0. apply wp_modify.
  change (u16 PS2_DATA) with PS2_DATA. rewrite uwrap_id by done. destruct (ctl_data d1 v H0) as (n & Hn & E). by eapply HQ.
Qed.

(** A command that only changes the configuration. *)
Lemma wp_cmd_config d v cfg cfg' keys (Q : unit → D → Prop) :
  stopped cfg keys (ctl_of d) → in_u 8 v → (∀ c, c_config c = cfg → command v c = set_config cfg' c) → Z.testbit cfg' 4 = true →
  (∀ d', stopped cfg' keys (ctl_of d') → Q tt d') → wp (ps2_write_cmd polls v) d Q.
Proof.
  intros Hs Hv Hcmd Hc HQ. apply wp_write_cmd; [apply Hs..|done|]. intros c d' n Hp Hn E.
  destruct (passed_stopped _ _ _ _ Hs Hp) as [C1 H1 E1 A1 B1 O1 K1]. apply HQ. rewrite E, Hcmd by done. split; simpl; try done. lia.
Qed.

(** Waiting for an answer. *)
Lemma wp_read_answer d cfg x keys c n (Q : Z → D → Prop) :
  stopped cfg keys c → (0 < n < polls)%nat → ctl_of d = start n (answer [x] c) → in_u 8 x →
  (∀ d', stopped cfg keys (ctl_of d') → Q x d') → wp (ps2_read_data polls) d Q.
Proof.
  intros Hs Hn E Hx HQ. destruct Hs as [C1 H1 E1 A1 B1 O1 K1].
  apply wp_seq with (P := λ _ d', ctl_of d' = mk_ctl cfg false [x] [] 0 keys).
  - eapply (wp_loop (λ m _ d', ctl_of d' = (if decide (m = 0%nat) then mk_ctl cfg false [x] [] 0 keys else mk_ctl cfg false [] [x] m keys))) with (n := n).
    2: { rewrite decide_False by lia. rewrite E. unfold start, answer. simpl. by rewrite C1, E1, O1, K1. }
    2: lia.
    intros m _ d1 E'. apply wp_bind, wp_ps2_status. intros v d2 [TC TE TB TA (sent & TK & TS & TO)] Hv _. apply wp_ret. rewrite bit0, Hv.
    assert (sent = []) as -> by (apply TS; rewrite E'; by destruct decide).
    destruct (ctl_of d2) as [a2 b2 o2 w2 y2 k2]. simpl in *. rewrite app_nil_r in TO.
    destruct (decide (m = 0%nat)) as [->|Hm]; rewrite E' in *; simpl in *; subst.
    + done.
    + exists (pred m). split; [lia|]. destruct (decide (m = 1%nat)) as [->|]; [done|]. by rewrite decide_False by lia.
  - intros _ d1 E'. eapply (wp_take _ x []); [by rewrite E'|]. intros d2 E2. rewrite uwrap_id by done. apply HQ. rewrite E2, E'. split; simpl; try done. lia.
Qed.

(** A command and its answer. *)
Lemma wp_ask d v x cfg keys {A} (f : Z → M D A) (Q : A → D → Prop) :
  stopped cfg keys (ctl_of d) → in_u 8 v → (∀ c, c_config c = cfg → command v c = answer [x] c) → in_u 8 x →
  (∀ d', stopped cfg keys (ctl_of d') → wp (f x) d' Q) → wp (ps2_write_cmd polls v;; r ← ps2_read_data polls; f r) d Q.
Proof.
  intros Hs Hv Hcmd Hx HQ. apply wp_bind, wp_write_cmd; [apply Hs..|done|]. intros c d' n Hp Hn E.
  pose proof (passed_stopped _ _ _ _ Hs Hp) as Hs'. rewrite (Hcmd c (st_config _ _ _ Hs')) in E. apply wp_bind. by eapply wp_read_answer.
Qed.

Lemma wp_read_config d cfg keys (Q : Z → D → Prop) :
  stopped cfg keys (ctl_of d) → 0 ≤ cfg < 128 → (∀ d', stopped cfg keys (ctl_of d') → Q cfg d') → wp (ps2_read_config polls) d Q.
Proof.
  intros Hs Hc HQ. apply (wp_ask _ _ cfg cfg keys); [done|done|by intros c <-|unfold in_u; lia|]. intros d' Hs'.
  apply wp_bind, wp_kassert_dbg; [|by apply wp_ret, HQ]. change (Z.shiftl 1 7) with (2 ^ 7).
  rewrite <-(negb_involutive (_ =? _)), land_pow2_testbit, (bits_in_u 7) by (unfold in_u; lia). done.
Qed.

Lemma wp_write_config d v cfg keys (Q : unit → D → Prop) :
  stopped cfg keys (ctl_of d) → in_u 8 v → Z.testbit v 4 = true → (∀ d', stopped v keys (ctl_of d') → Q tt d') → wp (ps2_write_config polls v) d Q.
Proof.
  intros Hs Hv H4 HQ. apply wp_bind, wp_write_cmd; [apply Hs..|done|]. intros c d1 n Hp Hn E.
  destruct (passed_stopped _ _ _ _ Hs Hp) as [C1 H1 E1 A1 B1 O1 K1].
  apply wp_write_data; [by rewrite E|rewrite E; simpl; lia|done|]. intros c2 d2 n2 Hp2 Hn2 E2. apply HQ. rewrite E2.
  rewrite E in Hp2. assert (Z.testbit (c_config (start n (command 0x60 c))) 4 = true) as Hc4 by (simpl; by rewrite C1).
  unfold data. rewrite (ps_expect _ _ Hp2). simpl.
  split; simpl; [done|done|done|apply Hp2|lia|by rewrite (passed_out _ _ Hp2 Hc4)|by rewrite (ps_clock _ _ Hp2 Hc4)].
Qed.

(** ** The whole start-up *)

Lemma drained_out n c c' : drained n c c' → Z.testbit (c_config c) 4 = true → (length (c_out c) ≤ n)%nat → c_out c' = [].
Proof.
  intros Hd Hc Hn. pose proof (dr_bytes _ _ _ Hd) as Hb. rewrite (dr_clock _ _ _ Hd Hc) in Hb. apply (f_equal length) in Hb.
  rewrite length_drop, !length_app in Hb. apply nil_length_inv. lia.
Qed.

Lemma wp_disable_devices d (Q : unit → D → Prop) :
  let c := ctl_of d in
  c_expect c = false → c_answer c = [] → (c_busy c < polls)%nat → (length (c_out c ++ c_keys c) < polls)%nat →
  (∀ d' keys, stopped (Z.setbit (Z.setbit (c_config c) 4) 5) keys (ctl_of d') → keys `suffix_of` c_keys c → Q tt d') →
  wp (disable_devices polls) d Q.
Proof.
  intros c He Ha Hb Hl HQ. unfold disable_devices. apply wp_bind, wp_write_cmd; [done..|]. intros c1 d1 n1 P1 Hn1 E1.
  apply wp_bind, wp_write_cmd; [rewrite E1; apply P1|rewrite E1; simpl; lia|done|]. intros c2 d2 n2 P2 Hn2 E2. rewrite E1 in P2.
  assert (Z.testbit (Z.setbit (c_config c) 4) 4 = true) as Hc by by rewrite Z.setbit_eq.
  assert (c_config c2 = Z.setbit (c_config c) 4) as C2 by (rewrite (ps_config _ _ P2); simpl; by rewrite (ps_config _ _ P1)).
  assert (Z.testbit (Z.setbit (Z.setbit (c_config c) 4) 5) 4 = true) as Hc' by by rewrite Z.setbit_neq.
  assert (Z.testbit (c_config (ctl_of d2)) 4 = true) as Hc2 by by rewrite E2; simpl; rewrite C2.
  apply wp_flush.
  { rewrite E2. apply P2. }
  { rewrite E2. simpl. rewrite (ps_bytes _ _ P2). simpl. by rewrite (ps_bytes _ _ P1). }
  intros d3 n Hd Hn. apply (HQ _ (c_keys c2)); [|etrans; [apply P2|apply P1]]. pose proof (dr_busy _ _ _ Hd) as B.
  pose proof (drained_out _ _ _ Hd Hc2 Hn) as O3. pose proof (dr_clock _ _ _ Hd Hc2) as K3. destruct Hd as [C3 X3 A3 _ _ _].
  rewrite E2 in *. simpl in *. split; [by rewrite C3, C2|done| |done|lia|done|done].
  rewrite X3, (ps_expect _ _ P2). simpl. by rewrite (ps_expect _ _ P1).
Qed.

(** The configuration written after the tests. *)
Definition masked (cfg : Z) : Z := u8 (Z.land (Z.setbit (Z.setbit cfg 4) 5) (Z.lnot (Z.lor (Z.lor PS2_INT0 PS2_INT1) PS2_TRANSLATE))).
Definition enabled (cfg : Z) : Z := Z.lor (Z.land cfg 0x0C) 3.

(** What the code needs of each configuration byte it meets, for every byte
    without bit 7. *)
Definition config_facts (cfg : Z) : bool :=
  let c1 := Z.setbit (Z.setbit cfg 4) 5 in let c2 := masked cfg in
  let c3 := Z.clearbit c2 5 in let c4 := Z.setbit c3 5 in
  let c5 := Z.lor c4 (Z.lor PS2_INT0 PS2_INT1) in
  forallb (λ c, (0 <=? c) && (c <? 128) && Z.testbit c 4) [c1; c2; c3; c4; c5] &&
  negb (Z.land c1 PS2_CLOCK1 =? 0) && (Z.land c3 PS2_CLOCK1 =? 0) && (Z.clearbit (Z.clearbit c5 4) 5 =? enabled cfg).

Lemma config_all cfg : 0 ≤ cfg < 128 → config_facts cfg = true.
Proof.
  intros Hc. assert (forallb config_facts (seqZ 0 128) = true) as Hall by by vm_compute.
  rewrite forallb_forall in Hall. apply Hall, list_elem_of_In, elem_of_seqZ. lia.
Qed.

Definition setup : M D unit :=
  disable_devices polls;; configure polls;; self_test polls;; second_channel polls;; interface_tests polls;; enable_devices polls.

(** The controller's part: the keyboard runs and only its bytes are left. *)
Record running (cfg : Z) (keys : list Z) (c : ctl) : Prop := {
  ru_config : c_config c = cfg;
  ru_expect : c_expect c = false;
  ru_answer : c_answer c = [];
  ru_busy : (c_busy c < polls)%nat;
  ru_bytes : c_out c ++ c_keys c `suffix_of` keys
}.

Lemma wp_enable_devices d cfg keys (Q : unit → D → Prop) :
  let c5 := Z.lor cfg (Z.lor PS2_INT0 PS2_INT1) in
  stopped cfg keys (ctl_of d) → 0 ≤ cfg < 128 → in_u 8 c5 → Z.testbit c5 4 = true →
  (∀ d', running (Z.clearbit (Z.clearbit c5 4) 5) keys (ctl_of d') → Q tt d') → wp (enable_devices polls) d Q.
Proof.
  intros c5 Hs Hc H5 H54 HQ. apply wp_bind, (wp_read_config _ cfg keys); [done..|]. intros d1 S1.
  apply wp_bind, (wp_write_config _ _ cfg keys); [done..|]. intros d2 S2.
  apply wp_bind, wp_write_cmd; [apply S2..|done|]. intros c3 d3 n3 P3 Hn3 E3.
  destruct (passed_stopped _ _ _ _ S2 P3) as [C3 _ X3 A3 B3 O3 K3].
  apply wp_write_cmd; [by rewrite E3|rewrite E3; simpl; lia|done|]. intros c4 d4 n4 P4 Hn4 E4. apply HQ. rewrite E4. rewrite E3 in P4.
  split; simpl; [by rewrite (ps_config _ _ P4); simpl; rewrite C3|by rewrite (ps_expect _ _ P4)|apply P4|lia|].
  rewrite (ps_bytes _ _ P4). simpl. by rewrite O3, K3.
Qed.

Lemma wp_setup d cfg (Q : unit → D → Prop) :
  running cfg (c_out (ctl_of d) ++ c_keys (ctl_of d)) (ctl_of d) → (length (c_out (ctl_of d) ++ c_keys (ctl_of d)) < polls)%nat → 0 ≤ cfg < 128 →
  (∀ d', running (enabled cfg) (c_keys (ctl_of d)) (ctl_of d') → Q tt d') → wp setup d Q.
Proof.
  intros [C0 X0 A0 B0 _] Hlen Hcfg HQ. pose proof (config_all cfg Hcfg) as Hf. unfold config_facts in Hf. cbv zeta in Hf.
  set (c1 := Z.setbit (Z.setbit cfg 4) 5) in *. set (c2 := masked cfg) in *. set (c3 := Z.clearbit c2 5) in *. set (c4 := Z.setbit c3 5) in *.
  set (c5 := Z.lor c4 (Z.lor PS2_INT0 PS2_INT1)) in *. cbn [forallb] in Hf. rewrite !andb_true_iff, !Z.leb_le, !Z.ltb_lt, !Z.eqb_eq in Hf.
  destruct Hf as [[[[[R1 T1] [[R2 T2] [[R3 T3] [[R4 T4] [[R5 T5] _]]]]] Hd] Ht] He].
  apply wp_bind, wp_disable_devices; [done..|]. rewrite C0. fold c1. intros d1 keys S1 Hk.
  apply wp_bind, wp_bind, (wp_read_config _ c1 keys); [done..|]. clear d1 S1. intros d1 S1. apply wp_bind, wp_kassert; [done|].
  apply (wp_write_config _ c2 c1 keys); [done|unfold in_u; lia|done|]. clear d1 S1. intros d1 S1.
  apply wp_bind, (wp_ask _ _ 0x55 c2 keys); [done..|]. clear d1 S1. intros d1 S1. apply wp_kassert; [done|].
  apply wp_bind, wp_bind, (wp_cmd_config _ _ c2 c3 keys); [done|done|by intros c <-|done|]. clear d1 S1. intros d1 S1.
  apply (wp_ask _ _ c3 c3 keys); [done|done|by intros c <-|unfold in_u; lia|]. clear d1 S1. intros d1 S1. apply wp_bind, wp_kassert; [by apply Z.eqb_eq|].
  apply (wp_cmd_config _ _ c3 c4 keys); [done|done|by intros c <-|done|]. clear d1 S1. intros d1 S1.
  apply wp_bind, (wp_ask _ _ 0 c4 keys); [done..|]. clear d1 S1. intros d1 S1. apply wp_bind, wp_kassert; [done|].
  apply (wp_ask _ _ 0 c4 keys); [done..|]. clear d1 S1. intros d1 S1. apply wp_kassert; [done|].
  apply (wp_enable_devices _ c4 keys); [done|done|change (in_u 8 c5); unfold in_u; lia|done|]. fold c5. rewrite He. intros d' Hr. apply HQ.
  destruct Hr as [C X A B O]. split; [done..|]. by etrans.
Qed.

(** The keyboard's interrupt. *)
Lemma wp_isa_to_interrupt s os isa (Q : Z → apic_st → Prop) :
  override_list s = o_entry <$> os → Forall (override_ok (pmem s)) os → 0 ≤ isa < 16 →
  Q (to_gsi os isa + IRQ_APIC_BASE) s → wp (ISA_TO_INTERRUPT isa) s Q.
Proof.
  intros E Hos Hi HQ. apply wp_bind. unfold ioapic_isa_to_gsi. apply wp_bind, wp_kassert_dbg; [apply Z.ltb_lt; lia|].
  apply wp_bind, wp_get, wp_rd_mem. rewrite E. by apply wp_isa_scan.
Qed.

Lemma wp_irq_unmask s gsi k regs (Q : unit → apic_st → Prop) :
  served s gsi k regs → regs_ok regs → ioapic_lock s = 0 → 0 ≤ gsi < 2 ^ 32 →
  (∀ s', line_set s k regs (gsi - k_gsi k) (Z.clearbit (redir regs (gsi - k_gsi k)) 16) s' → Q tt s') →
  wp (isr_irq_unmask (gsi + IRQ_APIC_BASE)) s Q.
Proof.
  intros Hsv Hr Hl Hg HQ. apply wp_bind, wp_kassert_dbg; [apply Z.leb_le; lia|].
  replace (u32 (gsi + IRQ_APIC_BASE - IRQ_APIC_BASE)) with gsi.
  - eapply wp_mono; [by apply (wp_ioapic_unmask s gsi k regs)|]. intros [] s'. apply HQ.
  - rewrite uwrap_id; unfold in_u, IRQ_APIC_BASE; lia.
Qed.

(** What [ps2_init] leaves behind. *)
Record keyboard_ready (kbd gsi : Z) (k : known) (regs : gmap Z Z) (s s' : ps2_st D) : Prop := {
  kr_controller : running (enabled (c_config (ctl_of (p_dev s)))) (c_keys (ctl_of (p_dev s))) (ctl_of (p_dev s'));
  kr_handler : p_table s' !! Z.to_nat (gsi + IRQ_APIC_BASE) = Some (mk_info ISR_IRQ (Some (OtherHandler kbd)));
  kr_others i : i ≠ Z.to_nat (gsi + IRQ_APIC_BASE) → p_table s' !! i = p_table s !! i;
  kr_line : line_set (p_apic s) k regs (gsi - k_gsi k) (Z.clearbit (redir regs (gsi - k_gsi k)) 16) (p_apic s')
}.

(** C38: On an 8042 with two channels that passes its tests, with no command in
    progress and bit 7 of its configuration clear, with no device that sends
    on the second channel, whatever bytes are left in its output buffer and
    whatever the keyboard sends meanwhile, ps2_init returns without a failed
    assertion.  The controller then has both
    interrupts on, both clocks running and translation off, and its other
    configuration bits as before; no byte of before is left to be read.  The
    keyboard's handler is installed for the vector of ISA line 1, after the
    overrides of the MADT, no other entry of the table changes, and the line
    is unmasked in its I/O APIC, where nothing else changes. *)
Theorem ps2_init_correct (kbd : Z) (s : ps2_st D) os k regs :
  let c := ctl_of (p_dev s) in let gsi := to_gsi os 1 in
  c_expect c = false → c_answer c = [] → (c_busy c < polls)%nat → 0 ≤ c_config c < 128 →
  (length (c_out c ++ c_keys c) < polls)%nat →
  length (p_table s) = 256%nat →
  override_list (p_apic s) = o_entry <$> os → Forall (override_ok (pmem (p_apic s))) os → 0 ≤ gsi → gsi + IRQ_APIC_BASE < 256 →
  served (p_apic s) gsi k regs → regs_ok regs → ioapic_lock (p_apic s) = 0 →
  wp (ps2_init polls kbd) s (λ _, keyboard_ready kbd gsi k regs s).
Proof.
  intros c gsi He Ha Hb Hc Hl Ht Eo Hos Hg0 Hg Hsv Hr Hlk. apply wp_bind, wp_zoom, (wp_setup _ (c_config c)); [by split|done|done|]. intros d1 R1.
  apply wp_bind, wp_zoom. apply (wp_isa_to_interrupt _ os); [done..|]. fold gsi.
  replace (u8 (gsi + IRQ_APIC_BASE)) with (gsi + IRQ_APIC_BASE) by (rewrite uwrap_id; unfold in_u, IRQ_APIC_BASE in *; lia).
  apply wp_bind, wp_modify. apply wp_bind, wp_zoom. cbn [p_dev p_table p_apic].
  apply (wp_irq_unmask _ gsi k regs); [done..|unfold IRQ_APIC_BASE in Hg; lia|]. intros a' La. apply wp_zoom. cbn [p_dev p_table p_apic].
  apply wp_flush; [apply R1| |].
  - eapply Nat.le_lt_trans; [apply suffix_length, R1|]. fold c. rewrite length_app in Hl. lia.
  - intros d2 n Hd Hn. destruct R1 as [C X A B O]. split; cbn [p_dev p_table p_apic].
    + split; [by rewrite (dr_config _ _ _ Hd)|by rewrite (dr_expect _ _ _ Hd)|apply Hd| |].
      * pose proof (dr_busy _ _ _ Hd). lia.
      * rewrite (dr_bytes _ _ _ Hd). etrans; [apply suffix_drop|done].
    + apply list_lookup_insert_eq. unfold IRQ_APIC_BASE in *. lia.
    + intros i Hi. by apply list_lookup_insert_ne.
    + exact La.
Qed.

(** The keyboard's handler takes the first byte off the output. *)
Lemma wp_kbd_handler d x l (Q : unit → D → Prop) :
  c_out (ctl_of d) = x :: l → (0 < polls)%nat →
  (∀ d' c, ticked (ctl_of d) c → ctl_of d' = taken c → Q tt d') → wp (ps2kbd_irq_handler polls) d Q.
Proof.
  intros E Hp HQ. apply wp_bind, wp_seq with (P := λ _ d', ticked (ctl_of d) (ctl_of d')).
  - eapply (wp_loop (λ n _ d', n = 0%nat ∧ d' = d)); [|done|done]. intros n _ ? [-> ->].
    apply wp_bind, wp_ps2_status. intros v d' Ht Hv _. apply wp_ret. by rewrite bit0, Hv, bool_decide_true by by rewrite E.
  - intros _ d1 Ht. destruct (tk_out _ _ Ht) as (sent & _ & _ & Eo). rewrite E in Eo. eapply wp_take; [exact Eo|]. intros d2 E2. by eapply HQ.
Qed.
End proofs.

(** ** A controller *)

Module Ps2Demo.
Definition bit (n : Z) (b : bool) : Z := if b then Z.shiftl 1 n else 0.

(** Each write is taken after one status read, and a key comes with the next
    one while the keyboard's clock runs. *)
Definition status (c : ctl) : Z * ctl :=
  let v := Z.lor (bit 0 (bool_decide (c_out c ≠ []))) (bit 1 (bool_decide (c_busy c ≠ 0%nat))) in
  let sent := if Z.testbit (c_config c) 4 then [] else take 1 (c_keys c) in
  let keys := if Z.testbit (c_config c) 4 then c_keys c else drop 1 (c_keys c) in
  let now := bool_decide (c_busy c = 1%nat) in
  (v, mk_ctl (c_config c) (c_expect c) (c_out c ++ (if now then c_answer c else []) ++ sent) (if now then [] else c_answer c) (pred (c_busy c)) keys).

#[global] Instance controller : PortDevice ctl := {
  port_in p c := if p =? PS2_STATUS then status c else (hd 0 (c_out c), taken c);
  port_out p v c := start 1 (if p =? PS2_COMMAND then command v c else data v c)
}.

#[global, refine] Instance controller_ok : Controller ctl 8 := { ctl_of := id }.
Proof.
  - intros c. change (port_in PS2_STATUS c) with (status c). unfold status, id. cbv zeta. split_and!.
    + split; cbn [c_config c_expect c_busy c_answer c_out c_keys]; [done|done|done|by repeat case_decide; case_bool_decide|].
      exists (if Z.testbit (c_config c) 4 then [] else take 1 (c_keys c)). split_and!.
      * destruct (Z.testbit _ 4); [done|]. by rewrite take_drop.
      * by intros ->.
      * by repeat case_decide; case_bool_decide.
    + by repeat case_bool_decide.
    + by repeat case_bool_decide.
  - intros c x l E. unfold id in *. simpl. by rewrite E.
  - intros c v _. exists 1%nat. split; [lia|done].
  - intros c v _. exists 1%nat. split; [lia|done].
Defined.

(** Three stale bytes, and a keyboard with two more to send. *)
Definition power_on : ctl := mk_ctl 0x45 false [0x1C; 0x9C; 0xFA] [] 0 [0x1E; 0x9E].
Definition s : ps2_st ctl := mk_ps2 power_on (replicate 256 no_info) ApicDemo.up.

Lemma ps2_init_correct_witness :
  wp (ps2_init (BC := debug_build) 8 0x1234) s (λ _ s', c_config (p_dev s') = 0x07 ∧ p_table s' !! 0x31%nat = Some (mk_info ISR_IRQ (Some (OtherHandler 0x1234)))).
Proof.
  eapply wp_mono; [apply (ps2_init_correct (polls := 8) (BC := debug_build) 0x1234 s ApicDemo.overrides ApicDemo.io ApicDemo.regs)|].
  all: try done.
  - cbn. lia.
  - cbn. lia.
  - exact ApicDemo.up_overrides.
  - exact ApicDemo.up_served.
  - exact ApicDemo.regs_in.
  - intros ? s' [[Hc _ _ _ _] Hh _ _]. exact (conj Hc Hh).
Defined.
End Ps2Demo.
