(* ===== verification/Pmm.v ===== *)
(** * Physical memory: the buddy allocator's code

    kernel/mm/pmm.c with the list macros of include/ds/linked.h it uses.
    [struct page]s are kept by address ([page_data + pfn]), zones by the
    logical address of their header.  The contents of page frames (the debug
    build's poisoning) are not part of this state. *)

From stdpp Require Import base list gmap.
From Stdlib Require Import ZArith Lia Bool.
From S2P Require Import Prelude Addr.
Local Open Scope Z_scope.

(** ** Data *)

(** [struct page]: the list node is its first member, so list pointers are
    addresses of pages. *)
Record page := mk_page {
  pg_next : Z;
  pg_prev : Z;
  pg_order : Z;      (* int8_t *)
  refcount : Z;
  page_lock : Z;
}.

Definition set_next v p := mk_page v (pg_prev p) (pg_order p) (refcount p) (page_lock p).
Definition set_prev v p := mk_page (pg_next p) v (pg_order p) (refcount p) (page_lock p).
Definition set_order v p := mk_page (pg_next p) (pg_prev p) v (refcount p) (page_lock p).
Definition set_refcount v p := mk_page (pg_next p) (pg_prev p) (pg_order p) v (page_lock p).
Definition page_zero : page := mk_page 0 0 0 0 0.

Record zone := mk_zone {
  znext : Z;
  pa_start : Z;
  zlen : Z;
  free_lists : list Z;
}.
(** [sizeof(struct zone)] *)
Definition SIZEOF_ZONE : Z := 8 + 8 + 8 + 8 * MAX_ORDER.

Definition zset_next v z := mk_zone v (pa_start z) (zlen z) (free_lists z).
Definition zset_lists v z := mk_zone (znext z) (pa_start z) (zlen z) v.

Inductive mmap_region_flags := MMAP_NONE | MMAP_NOMAP.
#[global] Instance mmap_region_flags_eq_dec : EqDecision mmap_region_flags.
Proof. solve_decision. Defined.

Record mmap_region := mk_region {
  base : Z;
  len : Z;
  flags : mmap_region_flags;
}.

Record pstate := mk_pstate {
  pages : gmap Z page;
  zones : gmap Z zone;
  zone_list : Z;
  zone_list_lock : Z;
}.

Definition upd_pages f s := mk_pstate (f (pages s)) (zones s) (zone_list s) (zone_list_lock s).
Definition upd_zones f s := mk_pstate (pages s) (f (zones s)) (zone_list s) (zone_list_lock s).
Definition upd_zone_list v s := mk_pstate (pages s) (zones s) v (zone_list_lock s).
Definition upd_zl_lock v s := mk_pstate (pages s) (zones s) (zone_list s) v.

Abbreviation P := (M pstate).

Definition rd_page : Z → P page := deref pages.
Definition wr_page : Z → (page → page) → P unit := store pages upd_pages.
Definition rd_zone : Z → P zone := deref zones.
Definition wr_zone : Z → (zone → zone) → P unit := store zones upd_zones.

(** [zone->free_lists[i]]: an index outside the array is outside the object. *)
Definition rd_list (z i : Z) : P Z :=
  zn ← rd_zone z;
  match (if i <? 0 then None else free_lists zn !! Z.to_nat i) with
  | Some h => mret h
  | None => fault
  end.
Definition wr_list (z i v : Z) : P unit :=
  rd_list z i;;
  wr_zone z (λ zn, zset_lists (<[Z.to_nat i := v]> (free_lists zn)) zn).

(** ** include/ds/linked.h on [struct page] *)

Definition dlist_get_next (p : Z) : P Z := n ← rd_page p; mret (pg_next n).
Definition dlist_get_prev (p : Z) : P Z := n ← rd_page p; mret (pg_prev n).

Definition dlist_set_next (p next_entry : Z) : P unit :=
  wr_page p (set_next next_entry);;
  if next_entry =? NULL then mret tt else wr_page next_entry (set_prev p).

Definition dlist_set_prev (p prev_entry : Z) : P unit :=
  wr_page p (set_prev prev_entry);;
  if prev_entry =? NULL then mret tt else wr_page prev_entry (set_next p).

(** ** kernel/mm/pmm.c *)

Section pmm.
Context `{BuildConfig}.

Definition calc_available_pages (available : mmap_region) : P Z :=
  let effective_start := ALIGNUP (u64 (base available + SIZEOF_ZONE)) PAGE_SIZE in
  let effective_len :=
    u64 (len available - u64 (effective_start - u64 (base available + SIZEOF_ZONE))) in
  kassert_dbg (effective_len <=? len available);;
  mret (effective_len / PAGE_SIZE).

(** The search of [get_max_order] from [rv] down. *)
Fixpoint max_order_from (rv : nat) (start_pfn end_pfn : Z) : Z :=
  match rv with
  | O => 0
  | S r =>
      if u64 (start_pfn + Z.shiftl 1 (Z.of_nat rv)) >? end_pfn then max_order_from r start_pfn end_pfn
      else if ISALIGN_POW2 start_pfn (Z.shiftl 1 (Z.of_nat rv)) then Z.of_nat rv
      else max_order_from r start_pfn end_pfn
  end.

Definition get_max_order (start end_ : Z) : P Z :=
  let rv := max_order_from (Z.to_nat (MAX_ORDER - 1)) (start / PAGE_SIZE) (end_ / PAGE_SIZE) in
  kassert_dbg (rv <? MAX_ORDER);;
  mret rv.

(** One block of [init_zone]'s loop goes to the front of its list. *)
Definition init_insert (z pages_inserted avail_pages : Z) : P Z :=
  zn ← rd_zone z;
  highest_order ← get_max_order (u64 (pa_start zn + u64 (pages_inserted * PAGE_SIZE)))
                                (u64 (pa_start zn + u64 (avail_pages * PAGE_SIZE)));
  let inserted := virt_to_page (phys_to_virt (u64 (pa_start zn + u64 (PAGE_SIZE * pages_inserted)))) in
  wr_page inserted (set_order (i8 highest_order));;
  h ← rd_list z highest_order;
  dlist_set_next inserted h;;
  wr_list z highest_order inserted;;
  kassert_dbg (u64 (page_to_phys inserted + u64 (PAGE_SIZE * Z.shiftl 1 highest_order))
               <=? u64 (pa_start zn + zlen zn));;
  mret (u64 (pages_inserted + Z.shiftl 1 highest_order)).

(** The test of the debug build at the end of [init_zone]: a word behind the
    zone is written and read back.  [readback a v] is what the memory at [a]
    returns after [v] has been written there; the word is in a page frame,
    whose contents are not part of the state. *)
Context (readback : Z → Z → Z).
Definition PROBE : Z := 0x0123456789ABCDEF.
Definition probe_addr (z avail_pages : Z) : Z := u64 (z + avail_pages * PAGE_SIZE + (PAGE_SIZE - 8)).

Definition init_zone (rg : mmap_region) : P Z :=
  let z := phys_to_virt (base rg) in
  avail_pages ← calc_available_pages rg;
  if avail_pages =? 0 then mret NULL
  else
    (* the header is written to the first bytes of the region *)
    modify (upd_zones <[z := mk_zone NULL (ALIGNUP (u64 (base rg + SIZEOF_ZONE)) PAGE_SIZE)
                                 (u64 (avail_pages * PAGE_SIZE)) (replicate (Z.to_nat MAX_ORDER) NULL)]>);;
    pages_inserted ← loop (S (Z.to_nat avail_pages)) (λ pages_inserted,
      if pages_inserted <? avail_pages
      then n ← init_insert z pages_inserted avail_pages; mret (inl n)
      else mret (inr pages_inserted)) 0;
    kassert (pages_inserted =? avail_pages);;
    (if DEBUG then kassert (readback (probe_addr z avail_pages) PROBE =? PROBE) else mret tt);;
    mret z.

Definition page_buddy (p order : Z) : Z :=
  let pgdata_index := u64 (Z.quot (i64 (p - page_data)) SIZEOF_PAGE) in
  let buddy_index := Z.lxor pgdata_index (Z.shiftl 1 order) in
  u64 (page_data + SIZEOF_PAGE * buddy_index).

(** The first loop of [zone_alloc_order]: the next order with a free block. *)
Definition scan_order (z order : Z) : P Z :=
  loop (Z.to_nat (MAX_ORDER + 2)) (λ free_order,
    if free_order <? MAX_ORDER then
      h ← rd_list z free_order;
      if h =? NULL then mret (inl (free_order + 1)) else mret (inr free_order)
    else mret (inr free_order)) (order + 1).

(** One round of the second loop: a block is split in two. *)
Definition split_block (z free_order : Z) : P unit :=
  removed ← rd_list z free_order;
  let buddy := page_buddy removed (free_order - 1) in
  wr_page buddy (set_order (i8 (free_order - 1)));;
  wr_page removed (set_order (i8 (free_order - 1)));;
  h ← rd_list z free_order;
  nx ← dlist_get_next h;
  wr_list z free_order nx;;
  dlist_set_next removed buddy;;
  l ← rd_list z (free_order - 1);
  dlist_set_next buddy l;;
  wr_list z (free_order - 1) removed.

Definition split_down (z order free_order : Z) : P unit :=
  loop (Z.to_nat (MAX_ORDER + 1)) (λ free_order,
    if free_order >? order then split_block z free_order;; mret (inl (free_order - 1))
    else mret (inr tt)) free_order.

(** Taking the head of a list that is not empty. *)
Definition take_head (z order : Z) : P Z :=
  head ← rd_list z order;
  hp ← rd_page head;
  kassert (pg_order hp =? i8 order);;
  nx ← dlist_get_next head;
  wr_list z order nx;;
  dlist_set_next head NULL;;
  dlist_set_prev head NULL;;
  kassert_dbg (negb (head =? NULL));;
  mret head.

Definition zone_alloc_order (z order : Z) : P Z :=
  h ← rd_list z order;
  if h =? NULL then
    free_order ← scan_order z order;
    if free_order =? MAX_ORDER then mret NULL
    else split_down z order free_order;; take_head z order
  else take_head z order.

Definition GFP_NONE : Z := 0.
Definition GFP_CAN_FAIL : Z := Z.shiftl 1 0.

(** [spin_lock(&zone_list_lock)] as one CPU sees it. *)
Definition zl_lock : P unit :=
  s ← get; if zone_list_lock s =? 0 then modify (upd_zl_lock 1) else diverge.
Definition zl_unlock : P unit := modify (upd_zl_lock 0).

(** [slist_foreach(zone, list, zone_list)] with a body that may return early. *)
Definition foreach_zone {A} (body : Z → P (option A)) : P (option A) :=
  s ← get;
  loop (S (size (zones s))) (λ z,
    if z =? NULL then mret (inr None)
    else
      r ← body z;
      match r with
      | Some x => mret (inr (Some x))
      | None => zn ← rd_zone z; mret (inl (znext zn))
      end) (zone_list s).

Definition pmm_alloc_order (order alloc_flags : Z) : P Z :=
  kassert (order <? MAX_ORDER);;
  zl_lock;;
  r ← foreach_zone (λ z, rv ← zone_alloc_order z order; mret (if rv =? NULL then None else Some rv));
  zl_unlock;;
  match r with
  | Some rv => mret rv
  | None => if Z.land alloc_flags GFP_CAN_FAIL =? 0 then panic else mret NULL
  end.

Definition page_to_zone (p : Z) : P Z :=
  let pa := page_to_phys p in
  r ← foreach_zone (λ z, zn ← rd_zone z;
    mret (if (pa_start zn <=? pa) && (pa <? u64 (pa_start zn + zlen zn)) then Some z else None));
  mret (default NULL r).

Definition is_page_free (p z : Z) : P bool :=
  pg ← rd_page p;
  if (pg_next pg =? NULL) && (pg_prev pg =? NULL) then mret false
  else
    zn ← rd_zone z;
    mret (negb (existsb (λ h, h =? p) (free_lists zn))).

(** The test of [__pmm_free_order]. *)
Definition can_merge (buddy order z : Z) : P bool :=
  andM (is_page_free buddy z) (b ← rd_page buddy; mret (pg_order b =? i8 order)).

(** [__pmm_free_order]; the recursion goes up one order at a time. *)
Fixpoint pmm_free_rec (fuel : nat) (p order z : Z) : P unit :=
  match fuel with
  | O => diverge
  | S fuel =>
      let buddy := page_buddy p order in
      let first := MIN buddy p in
      merge ← can_merge buddy order z;
      if merge : bool then
        prev ← dlist_get_prev buddy;
        next ← dlist_get_next buddy;
        (if prev =? NULL then mret tt else dlist_set_next prev next);;
        (if next =? NULL then mret tt else dlist_set_prev next prev);;
        pmm_free_rec fuel first (order + 1) z
      else
        h ← rd_list z order;
        dlist_set_next p h;;
        wr_list z order p;;
        wr_page p (set_order (i8 order))
  end.

(** The orders an [unsigned int] shift of 1 can express. *)
Definition free_fuel : nat := 31.

Definition pmm_free_order (p order : Z) : P unit :=
  kassert_dbg (negb (p =? NULL));;
  kassert_dbg (order <? MAX_ORDER);;
  (if DEBUG then n ← dlist_get_next p; kassert (n =? NULL) else mret tt);;
  (if DEBUG then n ← dlist_get_prev p; kassert (n =? NULL) else mret tt);;
  zl_lock;;
  z ← page_to_zone p;
  if z =? NULL then panic
  else
    pmm_free_rec free_fuel p order z;;
    zl_unlock.

(** ** Initialisation *)

(** [memset(page_data + pfn_start, 0, ...)] *)
Definition zero_pages (pfn_start num : Z) : P unit :=
  foldr (λ i k, wr_page (u64 (page_data + SIZEOF_PAGE * (pfn_start + i))) (λ _, page_zero);; k) (mret tt) (seqZ 0 num).

(** [ensure_mapped] stands for the test with [vmm_has_flags] and the mapping of
    a fresh frame with [mmap_alloc_low] and [vmm_map_page], which act on the
    page tables and the boot memory map. *)
Context (ensure_mapped : Z → P unit).

Definition reserve_page_data_range (start num_pages : Z) : P unit :=
  let pfn_start := start / PAGE_SIZE in
  let pfn_end := u64 (pfn_start + num_pages) in
  loop (S (Z.to_nat num_pages)) (λ pfn,
    if pfn <? pfn_end
    then ensure_mapped (u64 (page_data + SIZEOF_PAGE * pfn));; mret (inl (pfn + 1))
    else mret (inr tt)) pfn_start;;
  zero_pages pfn_start num_pages.

Definition reserve_page_data (available : list mmap_region) : P unit :=
  foldr (λ rg k, n ← calc_available_pages rg;
                 reserve_page_data_range (ALIGNUP (base rg) PAGE_SIZE) n;; k) (mret tt) available.

(** The loop of [pmm_init] over the copied regions; [tail] is the last zone. *)
Fixpoint link_zones (rgs : list mmap_region) (tail : Z) : P unit :=
  match rgs with
  | [] => mret tt
  | rg :: rgs =>
      tmp ← init_zone rg;
      if tmp =? NULL then link_zones rgs tail
      else
        (if tail =? NULL then modify (upd_zone_list tmp) else wr_zone tail (zset_next tmp));;
        link_zones rgs tmp
  end.

Definition pmm_init (available : list mmap_region) : P unit :=
  modify (upd_zl_lock 0);;
  reserve_page_data available;;
  link_zones available NULL.
End pmm.
