(* ===== verification/PmmInv.v ===== *)
(** * Physical memory: blocks, free lists and the partition invariant

    A block is a frame number and an order.  A zone is partitioned into the
    blocks on its free lists and the blocks handed out: the frames of all of
    them together are exactly the frames of the zone, as a permutation, so no
    frame is ever in two blocks. *)

From stdpp Require Import base list gmap.
From Stdlib Require Import ZArith Lia Bool.
From S2P Require Import Prelude Addr Pmm.
Local Open Scope Z_scope.

Abbreviation block := (Z * nat)%type.

(** ** Blocks *)

Definition bsize (o : nat) : Z := 2 ^ Z.of_nat o.
Definition bpages (b : block) : list Z := seqZ b.1 (bsize b.2).
Definition aligned (b : block) : Prop := (bsize b.2 | b.1).

Lemma bsize_pos o : 0 < bsize o.
Proof. apply Z.pow_pos_nonneg; lia. Qed.

Lemma bsize_S o : bsize (S o) = 2 * bsize o.
Proof. unfold bsize. rewrite Nat2Z.inj_succ, Z.pow_succ_r by lia. done. Qed.

Lemma elem_bpages f b : f ∈ bpages b ↔ b.1 ≤ f < b.1 + bsize b.2.
Proof. unfold bpages. rewrite elem_of_seqZ. lia. Qed.

(** A block is its two halves. *)
Lemma bpages_split p o : bpages (p, S o) = bpages (p, o) ++ bpages (p + bsize o, o).
Proof.
  unfold bpages. simpl. rewrite bsize_S. pose proof (bsize_pos o).
  replace (2 * bsize o) with (bsize o + bsize o) by lia.
  by rewrite seqZ_app by lia.
Qed.

Lemma divide_bsize o o' : (o ≤ o')%nat → (bsize o | bsize o').
Proof.
  intros Hle. exists (bsize (o' - o)). unfold bsize. rewrite <-Z.pow_add_r by lia. f_equal. lia.
Qed.

(** Aligned blocks are nested or apart. *)
Lemma aligned_nested p o q o' f :
  aligned (p, o) → aligned (q, o') → (o ≤ o')%nat →
  f ∈ bpages (p, o) → f ∈ bpages (q, o') → ∀ g, g ∈ bpages (p, o) → g ∈ bpages (q, o').
Proof.
  unfold aligned. simpl. intros [a ->] [b ->] Hle Hf Hf' g Hg.
  rewrite elem_bpages in *. simpl in *. destruct (divide_bsize _ _ Hle) as [c Hc].
  pose proof (bsize_pos o). pose proof (bsize_pos o'). rewrite Hc in *.
  assert (0 < c) by nia. assert (b * c ≤ a) by nia. assert (a < b * c + c) by nia. nia.
Qed.

(** ** Buddies *)

Definition buddy (p : Z) (o : nat) : Z := Z.lxor p (bsize o).

Lemma lxor_pow2_divide p k : 0 ≤ k → 0 ≤ p → (2 ^ k | p) →
  (Z.testbit p k = false → Z.lxor p (2 ^ k) = p + 2 ^ k) ∧
  (Z.testbit p k = true → Z.lxor p (2 ^ k) = p - 2 ^ k).
Proof.
  intros Hk Hp Hd. split; intros Hb.
  - symmetry. apply Z.add_nocarry_lxor. apply Z.bits_inj'. intros i Hi. rewrite Z.land_spec, Z.bits_0.
    destruct (decide (i = k)) as [->|]; [by rewrite Hb|]. by rewrite Z.pow2_bits_false, andb_false_r by lia.
  - assert (Z.lxor p (2 ^ k) = Z.ldiff p (2 ^ k)) as ->.
    { apply Z.bits_inj'. intros i Hi. rewrite Z.lxor_spec, Z.ldiff_spec.
      destruct (decide (i = k)) as [->|]; [by rewrite Hb, Z.pow2_bits_true|].
      rewrite Z.pow2_bits_false by lia. by rewrite xorb_false_r, andb_true_r. }
    symmetry. apply Z.sub_nocarry_ldiff. apply Z.bits_inj'. intros i Hi. rewrite Z.ldiff_spec, Z.bits_0.
    destruct (decide (i = k)) as [->|]; [by rewrite Hb, andb_false_r|]. by rewrite Z.pow2_bits_false by lia.
Qed.

(** The buddy of an aligned block is the other half of the next larger one. *)
Lemma buddy_spec p o :
  0 ≤ p → aligned (p, o) →
  aligned (buddy p o, o) ∧ 0 ≤ buddy p o ∧ aligned (Z.min p (buddy p o), S o) ∧
  (buddy p o = p + bsize o ∨ buddy p o = p - bsize o) ∧
  bpages (Z.min p (buddy p o), S o) ≡ₚ bpages (p, o) ++ bpages (buddy p o, o).
Proof.
  intros Hp Hal. unfold aligned in *. simpl in *. pose proof (bsize_pos o) as Hpos.
  destruct (lxor_pow2_divide p (Z.of_nat o) ltac:(lia) Hp Hal) as [H0 H1].
  change (2 ^ Z.of_nat o) with (bsize o) in *. change (Z.lxor p (bsize o)) with (buddy p o) in *.
  destruct Hal as [a Ha]. rewrite bsize_S.
  assert (Z.testbit p (Z.of_nat o) = Z.odd a) as Hbit.
  { rewrite Ha. unfold bsize. rewrite Z.mul_pow2_bits by lia.
    replace (Z.of_nat o - Z.of_nat o) with 0 by lia. apply Z.bit0_odd. }
  rewrite Hbit in H0, H1. destruct (Z.odd a) eqn:Ho.
  - rewrite H1 by done. apply Z.odd_spec in Ho as [c Hc].
    assert (Z.min p (p - bsize o) = p - bsize o) as -> by lia. split_and!.
    + exists (a - 1). lia.
    + assert (0 ≤ a) by nia. assert (p - bsize o = (a - 1) * bsize o) as -> by lia.
      apply Z.mul_nonneg_nonneg; lia.
    + exists c. rewrite Ha, Hc. ring.
    + by right.
    + rewrite bpages_split. replace (p - bsize o + bsize o) with p by lia. apply Permutation_app_comm.
  - rewrite H0 by done. assert (Z.even a = true) as He by (rewrite <-Z.negb_odd, Ho; done).
    apply Z.even_spec in He as [c Hc].
    assert (Z.min p (p + bsize o) = p) as -> by lia. split_and!.
    + exists (a + 1). lia.
    + lia.
    + exists c. rewrite Ha, Hc. ring.
    + by left.
    + by rewrite bpages_split.
Qed.

(** ** Free lists *)

(** The blocks of the lists [F], the first of order [k]. *)
Definition blk (o : nat) (L : list Z) : list block := (λ p, (p, o)) <$> L.
Fixpoint fblocks_from (k : nat) (F : list (list Z)) : list block :=
  match F with
  | [] => []
  | L :: F => blk k L ++ fblocks_from (S k) F
  end.
Definition fblocks (F : list (list Z)) : list block := fblocks_from 0 F.

(** The blocks of every list but the one of order [o]. *)
Definition frest (o : nat) (F : list (list Z)) : list block :=
  fblocks_from 0 (take o F) ++ fblocks_from (S o) (drop (S o) F).

Lemma fblocks_from_app k F1 F2 :
  fblocks_from k (F1 ++ F2) = fblocks_from k F1 ++ fblocks_from (k + length F1) F2.
Proof.
  revert k. induction F1 as [|L F1 IH]; intros k; simpl.
  - by rewrite Nat.add_0_r.
  - rewrite IH, <-(assoc_L (++)). do 3 f_equal. lia.
Qed.

Lemma fblocks_at o L F : F !! o = Some L → fblocks F ≡ₚ blk o L ++ frest o F.
Proof.
  intros HL. unfold fblocks, frest. rewrite <-(take_drop_middle F o L HL) at 1.
  pose proof (lookup_lt_Some _ _ _ HL). rewrite fblocks_from_app, length_take_le by lia. simpl.
  solve_Permutation.
Qed.

Lemma frest_insert o L F : frest o (<[o := L]> F) = frest o F.
Proof. unfold frest. by rewrite take_insert_ge, drop_insert_lt by lia. Qed.

Lemma fblocks_insert o L F : (o < length F)%nat → fblocks (<[o := L]> F) ≡ₚ blk o L ++ frest o F.
Proof.
  intros Ho. rewrite (fblocks_at o L) by by rewrite list_lookup_insert_eq. by rewrite frest_insert.
Qed.

Lemma elem_blk b o L : b ∈ blk o L ↔ b.2 = o ∧ b.1 ∈ L.
Proof.
  unfold blk. rewrite list_elem_of_fmap. destruct b as [p o']. simpl. split.
  - by intros (q & [= -> ->] & Hq).
  - intros [-> Hp]. by exists p.
Qed.

Lemma elem_fblocks_from k F p o :
  (p, o) ∈ fblocks_from k F ↔ (k ≤ o)%nat ∧ ∃ L, F !! (o - k)%nat = Some L ∧ p ∈ L.
Proof.
  revert k. induction F as [|L F IH]; intros k; simpl.
  - rewrite elem_of_nil. split; [done|]. by intros (_ & L & ? & _).
  - rewrite elem_of_app, elem_blk, IH. simpl. split.
    + intros [[-> Hp]|(Hk & L' & HL & Hp)].
      * split; [lia|]. rewrite Nat.sub_diag. by exists L.
      * split; [lia|]. exists L'. split; [|done]. by replace (o - k)%nat with (S (o - S k)) by lia.
    + intros (Hk & L' & HL & Hp). destruct (decide (o = k)) as [->|].
      * rewrite Nat.sub_diag in HL. injection HL as ->. by left.
      * right. split; [lia|]. exists L'. split; [|done].
        by replace (o - k)%nat with (S (o - S k)) in HL by lia.
Qed.

Lemma elem_fblocks F p o : (p, o) ∈ fblocks F ↔ ∃ L, F !! o = Some L ∧ p ∈ L.
Proof.
  unfold fblocks. rewrite elem_fblocks_from, Nat.sub_0_r. split; [tauto|]. intros ?. split; [lia|done].
Qed.

(** All frames of a list of blocks. *)
Definition frames (Bl : list block) : list Z := concat (bpages <$> Bl).

Lemma frames_app B1 B2 : frames (B1 ++ B2) = frames B1 ++ frames B2.
Proof. unfold frames. by rewrite fmap_app, concat_app. Qed.

Lemma frames_cons b Bl : frames (b :: Bl) = bpages b ++ frames Bl.
Proof. done. Qed.

#[global] Instance frames_proper : Proper ((≡ₚ) ==> (≡ₚ)) frames.
Proof. intros B1 B2 HB. unfold frames. by rewrite HB. Qed.

Lemma elem_frames f Bl : f ∈ frames Bl ↔ ∃ b, b ∈ Bl ∧ f ∈ bpages b.
Proof.
  induction Bl as [|b Bl IH]; simpl.
  - split; [by intros ?%elem_of_nil|]. by intros (? & ?%elem_of_nil & _).
  - rewrite frames_cons, elem_of_app, IH. setoid_rewrite elem_of_cons. naive_solver.
Qed.

(** The head of a block is one of its frames. *)
Lemma head_frame b Bl : b ∈ Bl → b.1 ∈ frames Bl.
Proof. intros Hb. apply elem_frames. exists b. split; [done|]. apply elem_bpages. pose proof (bsize_pos b.2). lia. Qed.

(** Two blocks of a partition that share a frame are the same. *)
Lemma frames_disjoint Bl b1 b2 f :
  NoDup (frames Bl) → b1 ∈ Bl → b2 ∈ Bl → f ∈ bpages b1 → f ∈ bpages b2 → b1 = b2.
Proof.
  intros Hnd H1 H2 Hf1 Hf2. apply list_elem_of_lookup in H1 as [i Hi]. apply list_elem_of_lookup in H2 as [j Hj].
  destruct (decide (i = j)) as [->|Hne]; [congruence|exfalso].
  revert i j Hne Hi Hj. induction Bl as [|b Bl IH]; intros i j Hne Hi Hj; [done|].
  rewrite frames_cons, NoDup_app in Hnd. destruct Hnd as (_ & Hd & Hnd).
  destruct i as [|i], j as [|j]; simpl in *; simplify_eq.
  - apply (Hd f Hf1). apply elem_frames. exists b2. split; [by eapply list_elem_of_lookup_2|done].
  - apply (Hd f Hf2). apply elem_frames. exists b1. split; [by eapply list_elem_of_lookup_2|done].
  - eapply IH; [done| |done..]. congruence.
Qed.

(** ** Chains of descriptors *)

Definition ptr (pfn : Z) : Z := pfn_page pfn.
Definition hd_ptr (L : list Z) : Z := match L with [] => NULL | p :: _ => ptr p end.

(** The list [L] of order [o]: links forward, and backward from every page
    but the first, whose backward link is never used. *)
Fixpoint dchain (pg : gmap Z page) (o : nat) (L : list Z) : Prop :=
  match L with
  | [] => True
  | p :: L' =>
      (∃ d, pg !! ptr p = Some d ∧ pg_order d = Z.of_nat o ∧ pg_next d = hd_ptr L') ∧
      match L' with
      | [] => True
      | q :: _ => ∃ d, pg !! ptr q = Some d ∧ pg_prev d = ptr p
      end ∧
      dchain pg o L'
  end.

#[global] Instance ptr_inj : Inj (=) (=) ptr.
Proof. intros x y. unfold ptr, pfn_page, SIZEOF_PAGE. lia. Qed.

Lemma ptr_ne pfn : pfn_ok pfn → ptr pfn ≠ NULL.
Proof.
  unfold pfn_ok, ptr, pfn_page, page_data, KERNEL_PAGE_DATA, KERNEL_TEXT_BASE, KERNEL_PHYS_MAP_END, SIZEOF_PAGE. lia.
Qed.

Lemma dchain_frame pg pg' o L :
  (∀ p, p ∈ L → pg' !! ptr p = pg !! ptr p) → dchain pg o L → dchain pg' o L.
Proof.
  induction L as [|p L IH]; [done|]. intros Hf (H1 & H2 & H3). simpl.
  rewrite (Hf p) by set_solver. split_and!; [done| |apply IH; [set_solver|done]].
  destruct L as [|q L]; [done|]. by rewrite (Hf q) by set_solver.
Qed.

Lemma dchain_lookup pg o L p : dchain pg o L → p ∈ L → ∃ d, pg !! ptr p = Some d ∧ pg_order d = Z.of_nat o.
Proof.
  induction L as [|q L IH]; [by intros _ ?%elem_of_nil|]. intros ((d & Hd & Ho & _) & _ & HL).
  intros [->|Hp]%elem_of_cons; [eauto|auto].
Qed.

(** A chain only depends on the orders, the forward links and the backward
    links of all but its first page. *)
Lemma dchain_ext pg pg' o L :
  dchain pg o L →
  (∀ p d, p ∈ L → pg !! ptr p = Some d →
     ∃ d', pg' !! ptr p = Some d' ∧ pg_order d' = pg_order d ∧ pg_next d' = pg_next d ∧
           (p ∈ tail L → pg_prev d' = pg_prev d)) →
  dchain pg' o L.
Proof.
  induction L as [|p L IH]; [done|]. intros ((d & Hd & Ho & Hn) & H2 & H3) Hf. simpl.
  destruct (Hf p d) as (d' & Hd' & Ho' & Hn' & _); [left|done|].
  split_and!.
  - exists d'. split_and!; [done|congruence|congruence].
  - destruct L as [|q L]; [done|]. destruct H2 as (e & He & Hp).
    destruct (Hf q e) as (e' & He' & _ & _ & Hp'); [right; left|done|].
    exists e'. split; [done|]. rewrite Hp'; [done|left].
  - apply IH; [done|]. intros q e Hq He. destruct (Hf q e) as (e' & ? & ? & ? & Hp'); [by right|done|].
    exists e'. split_and!; [done..|]. intros Hq'. apply Hp'. simpl. done.
Qed.

(** ** What the allocator may change *)

(** Only descriptors of the frames [X] change, and of those neither the
    reference count nor the lock. *)
Definition changed (X : list Z) (pg pg' : gmap Z page) : Prop :=
  (∀ a, (∀ f, f ∈ X → a ≠ ptr f) → pg' !! a = pg !! a) ∧
  (∀ a d, pg !! a = Some d →
     ∃ d', pg' !! a = Some d' ∧ refcount d' = refcount d ∧ page_lock d' = page_lock d).

Lemma changed_refl X pg : changed X pg pg.
Proof. split; naive_solver. Qed.

Lemma changed_trans X pg1 pg2 pg3 : changed X pg1 pg2 → changed X pg2 pg3 → changed X pg1 pg3.
Proof.
  intros [H1 H2] [H3 H4]. split.
  - intros a Ha. by rewrite H3, H1.
  - intros a d Hd.
    destruct (H2 _ _ Hd) as (d2 & Hd2 & <- & <-). eauto.
Qed.

Lemma changed_mono X Y pg pg' : (∀ f, f ∈ X → f ∈ Y) → changed X pg pg' → changed Y pg pg'.
Proof. intros HXY [H1 H2]. split; [|done]. intros a Ha. apply H1. auto. Qed.

Lemma changed_some X pg pg' a : changed X pg pg' → is_Some (pg !! a) → is_Some (pg' !! a).
Proof. intros [_ H] [d Hd]. destruct (H _ _ Hd) as (d' & -> & _). eauto. Qed.

Lemma changed_at X pg pg' f : changed X pg pg' → f ∉ X → pg' !! ptr f = pg !! ptr f.
Proof. intros [H _] Hf. apply H. intros g Hg ?%ptr_inj. congruence. Qed.

(** The writes of the allocator: links and orders of descriptors. *)
Definition harmless (g : page → page) : Prop :=
  ∀ d, refcount (g d) = refcount d ∧ page_lock (g d) = page_lock d.

Lemma changed_alter X f g pg : f ∈ X → harmless g → changed X pg (alter g (ptr f) pg).
Proof.
  intros Hf Hg. split.
  - intros a Ha. rewrite lookup_alter_ne; [done|]. intros <-. by apply (Ha f).
  - intros a d Hd. destruct (decide (a = ptr f)) as [->|].
    + rewrite lookup_alter_eq, Hd. simpl. destruct (Hg d). eauto.
    + rewrite lookup_alter_ne by done. eauto.
Qed.

(** ** The accesses of the code *)

Section access.
Context `{BuildConfig}.
Implicit Types s : pstate.

Lemma wp_rd_page f d s Q : pages s !! ptr f = Some d → pfn_ok f → Q d s → wp (rd_page (ptr f)) s Q.
Proof. intros Hd Hf HQ. eapply wp_deref; [done|by apply ptr_ne|done]. Qed.

Lemma wp_wr_page f g s Q :
  is_Some (pages s !! ptr f) → pfn_ok f → Q tt (upd_pages (alter g (ptr f)) s) → wp (wr_page (ptr f) g) s Q.
Proof.
  intros [d Hd] Hf HQ. eapply wp_store; [done|by apply ptr_ne|].
  replace (upd_pages <[ptr f:=g d]> s) with (upd_pages (alter g (ptr f)) s); [done|].
  unfold upd_pages. f_equal. apply map_eq. intros a. destruct (decide (a = ptr f)) as [->|].
  - by rewrite lookup_alter_eq, lookup_insert_eq, Hd.
  - by rewrite lookup_alter_ne, lookup_insert_ne.
Qed.

(** [dlist_set_next] on the table of descriptors. *)
Definition link_next (p n : Z) (pg : gmap Z page) : gmap Z page :=
  let pg := alter (set_next n) p pg in
  if n =? NULL then pg else alter (set_prev p) n pg.

Definition link_prev (p n : Z) (pg : gmap Z page) : gmap Z page :=
  let pg := alter (set_prev n) p pg in
  if n =? NULL then pg else alter (set_next p) n pg.

(** NULL or the descriptor of a frame. *)
Definition ptr_opt (pg : gmap Z page) (n : Z) : Prop :=
  n = NULL ∨ ∃ f, n = ptr f ∧ pfn_ok f ∧ is_Some (pg !! ptr f).

Lemma is_Some_alter (g : page → page) a b (pg : gmap Z page) : is_Some (pg !! b) → is_Some (alter g a pg !! b).
Proof.
  intros [d Hd]. destruct (decide (a = b)) as [->|]; [rewrite lookup_alter_eq, Hd|rewrite lookup_alter_ne, Hd by done]; eauto.
Qed.

Lemma wp_dlist_set_next f n s Q :
  is_Some (pages s !! ptr f) → pfn_ok f → ptr_opt (pages s) n →
  Q tt (upd_pages (link_next (ptr f) n) s) → wp (dlist_set_next (ptr f) n) s Q.
Proof.
  intros Hf Hok Hn HQ. unfold dlist_set_next. apply wp_bind. apply wp_wr_page; [done..|].
  unfold link_next in HQ. destruct Hn as [->|(q & -> & Hq & Hs)]; [done|].
  destruct (Z.eqb_spec (ptr q) NULL) as [E|_]; [by apply ptr_ne in E|].
  apply wp_wr_page; [by apply is_Some_alter|done|]. done.
Qed.

Lemma wp_dlist_set_prev f n s Q :
  is_Some (pages s !! ptr f) → pfn_ok f → ptr_opt (pages s) n →
  Q tt (upd_pages (link_prev (ptr f) n) s) → wp (dlist_set_prev (ptr f) n) s Q.
Proof.
  intros Hf Hok Hn HQ. unfold dlist_set_prev. apply wp_bind. apply wp_wr_page; [done..|].
  unfold link_prev in HQ. destruct Hn as [->|(q & -> & Hq & Hs)]; [done|].
  destruct (Z.eqb_spec (ptr q) NULL) as [E|_]; [by apply ptr_ne in E|].
  apply wp_wr_page; [by apply is_Some_alter|done|]. done.
Qed.

Lemma wp_rd_list z zn o h s Q :
  zones s !! z = Some zn → z ≠ NULL → free_lists zn !! o = Some h → Q h s → wp (rd_list z (Z.of_nat o)) s Q.
Proof.
  intros Hz Hne Ho HQ. unfold rd_list. apply wp_bind. eapply wp_deref; [done..|].
  destruct (Z.ltb_spec (Z.of_nat o) 0); [lia|]. rewrite Nat2Z.id, Ho. done.
Qed.

Lemma wp_wr_list z zn o v s Q :
  zones s !! z = Some zn → z ≠ NULL → (o < length (free_lists zn))%nat →
  Q tt (upd_zones <[z := zset_lists (<[o := v]> (free_lists zn)) zn]> s) → wp (wr_list z (Z.of_nat o) v) s Q.
Proof.
  intros Hz Hne Ho HQ. apply lookup_lt_is_Some in Ho as [h Hh]. unfold wr_list. apply wp_bind.
  eapply wp_rd_list; [done..|]. eapply wp_store; [done..|]. by rewrite Nat2Z.id.
Qed.
End access.
