(* ===== verification/PmmAlloc.v ===== *)
(** * Physical memory: allocation from a zone

    [zone_alloc_order] hands out an aligned block of free frames, or reports
    that no list at or above the order has one; the rest of the zone stays
    partitioned. *)

From stdpp Require Import base list gmap.
From Stdlib Require Import ZArith Lia Bool.
From S2P Require Import Prelude Addr Pmm PmmInv.
Local Open Scope Z_scope.

(** ** Links *)

Lemma link_next_eq p n pg : n ≠ p → link_next p n pg !! p = set_next n <$> pg !! p.
Proof.
  intros Hn. unfold link_next. destruct (n =? NULL); [by rewrite lookup_alter_eq|].
  by rewrite lookup_alter_ne, lookup_alter_eq.
Qed.

Lemma link_next_target p n pg : n ≠ p → n ≠ NULL → link_next p n pg !! n = set_prev p <$> pg !! n.
Proof.
  intros Hn H0. unfold link_next. destruct (Z.eqb_spec n NULL); [done|].
  by rewrite lookup_alter_eq, lookup_alter_ne.
Qed.

Lemma link_next_ne p n pg a : a ≠ p → a ≠ n → link_next p n pg !! a = pg !! a.
Proof.
  intros Hp Hn. unfold link_next. destruct (n =? NULL); [by rewrite lookup_alter_ne|].
  by rewrite !lookup_alter_ne.
Qed.

Lemma changed_link_next X f n pg :
  f ∈ X → n = NULL ∨ (∃ g, n = ptr g ∧ g ∈ X) → changed X pg (link_next (ptr f) n pg).
Proof.
  intros Hf Hn. unfold link_next. destruct (Z.eqb_spec n NULL) as [->|Hne].
  - by apply changed_alter.
  - destruct Hn as [?|(g & -> & Hg)]; [done|].
    eapply changed_trans; by apply changed_alter.
Qed.

Lemma changed_link_prev X f n pg :
  f ∈ X → n = NULL ∨ (∃ g, n = ptr g ∧ g ∈ X) → changed X pg (link_prev (ptr f) n pg).
Proof.
  intros Hf Hn. unfold link_prev. destruct (Z.eqb_spec n NULL) as [->|Hne].
  - by apply changed_alter.
  - destruct Hn as [?|(g & -> & Hg)]; [done|].
    eapply changed_trans; by apply changed_alter.
Qed.

Lemma hd_ptr_ne L p : p ∉ L → pfn_ok p → hd_ptr L ≠ ptr p.
Proof.
  intros Hp Hok. destruct L as [|q L]; simpl.
  - intros E. by apply (ptr_ne p).
  - intros E%(inj ptr). subst. apply Hp. left.
Qed.

(** Putting a page in front of a list. *)
Lemma dchain_push pg o p L d :
  pg !! ptr p = Some d → pg_order d = Z.of_nat o → p ∉ L → NoDup L → pfn_ok p → Forall pfn_ok L →
  dchain pg o L → dchain (link_next (ptr p) (hd_ptr L) pg) o (p :: L).
Proof.
  intros Hd Ho Hp Hnd Hok HL Hc. pose proof (hd_ptr_ne L p Hp Hok) as Hne. simpl. split_and!.
  - rewrite link_next_eq, Hd by done. simpl. eexists. split; [done|]. done.
  - destruct L as [|q L]; [done|]. simpl in *. destruct Hc as ((e & He & _) & _).
    rewrite link_next_target, He; [|done|apply ptr_ne; by inversion HL]. simpl. eexists. split; [done|]. done.
  - eapply dchain_ext; [done|]. intros q e Hq He.
    assert (ptr q ≠ ptr p) by (intros ->%(inj ptr); done).
    destruct (decide (ptr q = hd_ptr L)) as [E|].
    + rewrite <-E, link_next_target, He; [|done|apply ptr_ne; by eapply Forall_forall in HL].
      simpl. eexists. split_and!; [done..|]. intros Hq'. destruct L as [|x L]; [by apply elem_of_nil in Hq|].
      simpl in *. apply (inj ptr) in E as ->. by apply NoDup_cons in Hnd as [? _].
    + rewrite link_next_ne, He by done. eauto.
Qed.

(** ** The free part of a zone *)

Record free_is (s : pstate) (z nx lo hi : Z) (F : list (list Z)) : Prop := {
  fi_addr : z ≠ NULL;
  fi_hdr : zones s !! z = Some (mk_zone nx (lo * PAGE_SIZE) ((hi - lo) * PAGE_SIZE) (hd_ptr <$> F));
  fi_lo : 0 ≤ lo;
  fi_hi : pfn_ok hi;
  fi_len : length F = 12%nat;
  fi_block : ∀ b, b ∈ fblocks F → aligned b ∧ lo ≤ b.1 ∧ b.1 + bsize b.2 ≤ hi;
  fi_nodup : NoDup (frames (fblocks F));
  fi_chain : ∀ o L, F !! o = Some L → dchain (pages s) o L;
  fi_desc : ∀ f, lo ≤ f < hi → is_Some (pages s !! ptr f)
}.

Lemma NoDup_heads Bl : NoDup (frames Bl) → NoDup Bl.*1.
Proof.
  induction Bl as [|b Bl IH]; [constructor|]. rewrite frames_cons, NoDup_app. intros (_ & Hd & Hnd).
  apply NoDup_cons. split; [|auto]. intros (b' & E & Hb')%list_elem_of_fmap.
  apply (Hd b.1); [apply elem_bpages; pose proof (bsize_pos b.2); lia|].
  rewrite E. by apply head_frame.
Qed.

Lemma blk_fst o L : (blk o L).*1 = L.
Proof. unfold blk. rewrite <-list_fmap_compose. apply list_fmap_id. Qed.

Section free_is.
Context {s : pstate} {z nx lo hi : Z} {F : list (list Z)}.
Hypothesis HF : free_is s z nx lo hi F.

Lemma fi_list_nodup o L : F !! o = Some L → NoDup L.
Proof.
  intros HL. pose proof (NoDup_heads _ (fi_nodup _ _ _ _ _ _ HF)) as Hnd.
  rewrite (fblocks_at o L), fmap_app, blk_fst in Hnd by done. by apply NoDup_app in Hnd as (? & _).
Qed.

Lemma fi_elem o L p : F !! o = Some L → p ∈ L → (p, o) ∈ fblocks F.
Proof. intros. apply elem_fblocks. eauto. Qed.

Lemma fi_elem_ok o L p : F !! o = Some L → p ∈ L → pfn_ok p ∧ lo ≤ p < hi.
Proof.
  intros HL Hp. destruct (fi_block _ _ _ _ _ _ HF _ (fi_elem _ _ _ HL Hp)) as (_ & ? & ?). simpl in *.
  pose proof (bsize_pos o). pose proof (fi_lo _ _ _ _ _ _ HF). pose proof (fi_hi _ _ _ _ _ _ HF).
  unfold pfn_ok in *. lia.
Qed.

Lemma fi_list_ok o L : F !! o = Some L → Forall pfn_ok L.
Proof. intros HL. apply Forall_forall. intros p Hp. by eapply fi_elem_ok. Qed.

(** A frame of a block heads no other block. *)
Lemma fi_head_unique o L p o' f L' :
  F !! o = Some L → p ∈ L → F !! o' = Some L' → f ∈ bpages (p, o) → f ∈ L' → f = p ∧ o' = o.
Proof.
  intros HL Hp HL' Hf Hf'.
  assert ((p, o) = (f, o')) as [= -> ->]; [|done].
  eapply frames_disjoint; [apply HF|by eapply fi_elem|by eapply fi_elem|done|].
  apply elem_bpages. simpl. pose proof (bsize_pos o'). lia.
Qed.

Lemma fi_lookup o : (o < 12)%nat → ∃ L, F !! o = Some L.
Proof. intros Ho. apply lookup_lt_is_Some. rewrite (fi_len _ _ _ _ _ _ HF). done. Qed.

Lemma fi_rd_list o L Q : F !! o = Some L → Q (hd_ptr L) s → wp (rd_list z (Z.of_nat o)) s Q.
Proof.
  intros HL HQ. eapply wp_rd_list; [apply HF|apply HF|simpl; by rewrite list_lookup_fmap, HL|done].
Qed.
End free_is.

(** Going from one set of free lists to another: the header holds the new
    heads, and the new free frames are among the old ones. *)
Lemma free_is_step s s' z nx lo hi F F' R :
  free_is s z nx lo hi F →
  zones s' !! z = Some (mk_zone nx (lo * PAGE_SIZE) ((hi - lo) * PAGE_SIZE) (hd_ptr <$> F')) →
  length F' = 12%nat →
  (∀ b, b ∈ fblocks F' → aligned b) →
  frames (fblocks F) ≡ₚ R ++ frames (fblocks F') →
  (∀ o L, F' !! o = Some L → dchain (pages s') o L) →
  changed (frames (fblocks F)) (pages s) (pages s') →
  free_is s' z nx lo hi F'.
Proof.
  intros HF Hz Hlen Hal Hperm Hch Hc. destruct HF as [? ? ? ? ? Hbl Hnd ? Hd]. split; try done.
  - intros b Hb. split; [by apply Hal|].
    assert (∀ f, f ∈ bpages b → lo ≤ f < hi) as Hin.
    { intros f Hf. assert (f ∈ frames (fblocks F)) as Hf'.
      { rewrite Hperm. apply elem_of_app. right. apply elem_frames. eauto. }
      apply elem_frames in Hf' as (b' & Hb' & Hf'). destruct (Hbl _ Hb') as (_ & ? & ?).
      apply elem_bpages in Hf'. lia. }
    pose proof (bsize_pos b.2).
    assert (lo ≤ b.1 < hi) by (apply Hin, elem_bpages; lia).
    assert (lo ≤ b.1 + bsize b.2 - 1 < hi) by (apply Hin, elem_bpages; lia). lia.
  - rewrite Hperm in Hnd. by apply NoDup_app in Hnd as (_ & _ & ?).
  - intros f Hf. eapply changed_some; [done|auto].
Qed.

(** A chain away from the changed descriptors. *)
Lemma changed_chain X pg pg' o L :
  changed X pg pg' → (∀ p, p ∈ L → p ∉ X) → dchain pg o L → dchain pg' o L.
Proof. intros Hc HX. apply dchain_frame. intros p Hp. eapply changed_at; [done|auto]. Qed.

(** What a step of the allocator on zone [z] may change. *)
Record zstep (z : Z) (X : list Z) (s s' : pstate) : Prop := {
  zs_pages : changed X (pages s) (pages s');
  zs_zones : ∀ z', z' ≠ z → zones s' !! z' = zones s !! z';
  zs_list : zone_list s' = zone_list s;
  zs_lock : zone_list_lock s' = zone_list_lock s
}.

Lemma zstep_refl z X s : zstep z X s s.
Proof. split; [apply changed_refl|done..]. Qed.

Lemma zstep_trans z X s1 s2 s3 : zstep z X s1 s2 → zstep z X s2 s3 → zstep z X s1 s3.
Proof.
  intros [? H1 ? ?] [? H2 ? ?]. split; [by eapply changed_trans| |congruence|congruence].
  intros z' Hz'. by rewrite H2, H1.
Qed.

Lemma zstep_perm z X Y s s' : X ≡ₚ Y → zstep z X s s' → zstep z Y s s'.
Proof. intros HXY [? ? ? ?]. split; try done. eapply changed_mono; [|done]. intros f. by rewrite HXY. Qed.

Section take.
Context `{BuildConfig} {s : pstate} {z nx lo hi : Z} {F : list (list Z)}.
Hypothesis HF : free_is s z nx lo hi F.

Lemma fi_hd_next o p L :
  F !! o = Some (p :: L) →
  ∃ d, pages s !! ptr p = Some d ∧ pg_order d = Z.of_nat o ∧ pg_next d = hd_ptr L.
Proof. intros HL. by destruct (fi_chain _ _ _ _ _ _ HF _ _ HL) as (? & _). Qed.

Lemma i8_small o : (o < 12)%nat → i8 (Z.of_nat o) = Z.of_nat o.
Proof.
  intros Ho. unfold swrap. change (2 ^ 8) with 256. change (2 ^ (8 - 1)) with 128.
  rewrite Z.mod_small by lia. destruct (Z.ltb_spec (Z.of_nat o) 128); lia.
Qed.

Lemma fi_order_lt o L : F !! o = Some L → (o < 12)%nat.
Proof. intros HL%lookup_lt_Some. by rewrite (fi_len _ _ _ _ _ _ HF) in HL. Qed.

(** The descriptor of a block handed out. *)
Definition handed_out (pg : gmap Z page) (p : Z) (o : nat) : Prop :=
  ∃ d, pg !! ptr p = Some d ∧ pg_next d = NULL ∧ pg_prev d = NULL ∧ pg_order d = Z.of_nat o.

Lemma fi_upd_hdr o L pgs :
  (o < 12)%nat →
  zones (upd_pages pgs (upd_zones <[z := zset_lists (<[o := hd_ptr L]> (hd_ptr <$> F))
    (mk_zone nx (lo * PAGE_SIZE) ((hi - lo) * PAGE_SIZE) (hd_ptr <$> F))]> s)) !! z =
  Some (mk_zone nx (lo * PAGE_SIZE) ((hi - lo) * PAGE_SIZE) (hd_ptr <$> <[o := L]> F)).
Proof. intros. simpl. rewrite lookup_insert_eq. unfold zset_lists. simpl. by rewrite list_fmap_insert. Qed.

(** [take_head]: the head of a list that is not empty is handed out. *)
Lemma wp_take_head o p L Q :
  F !! o = Some (p :: L) →
  (∀ s', free_is s' z nx lo hi (<[o := L]> F) →
     frames (fblocks F) ≡ₚ bpages (p, o) ++ frames (fblocks (<[o := L]> F)) →
     zstep z (frames (fblocks F)) s s' →
     handed_out (pages s') p o →
     Q (ptr p) s') →
  wp (take_head z (Z.of_nat o)) s Q.
Proof.
  intros HL HQ. pose proof (fi_order_lt _ _ HL) as Ho. destruct (fi_hd_next _ _ _ HL) as (d & Hd & Hdo & Hdn).
  destruct (fi_elem_ok HF _ _ p HL) as [Hok _]; [left|].
  assert (is_Some (pages s !! ptr p)) as Hsome by eauto.
  pose proof (fi_list_nodup HF _ _ HL) as Hnd. apply NoDup_cons in Hnd as [HpL _].
  assert (frames (fblocks F) ≡ₚ bpages (p, o) ++ frames (fblocks (<[o := L]> F))) as Hperm.
  { rewrite (fblocks_at o (p :: L)) by done. rewrite fblocks_insert by (rewrite (fi_len _ _ _ _ _ _ HF); lia). done. }
  unfold take_head. apply wp_bind, (fi_rd_list HF _ _ _ HL). simpl.
  apply wp_bind. eapply wp_rd_page; [done..|]. apply wp_bind, wp_kassert.
  { rewrite i8_small by lia. apply Z.eqb_eq. done. }
  unfold dlist_get_next. repeat apply wp_bind. eapply wp_rd_page; [done..|]. apply wp_ret. rewrite Hdn.
  apply wp_bind. eapply wp_wr_list; [apply HF|apply HF|simpl; rewrite length_fmap, (fi_len _ _ _ _ _ _ HF); lia|].
  apply wp_bind, wp_dlist_set_next; [done|done|by left|].
  apply wp_bind, wp_dlist_set_prev; [by apply is_Some_alter|done|by left|].
  apply wp_bind, wp_kassert_dbg. { apply negb_true_iff, Z.eqb_neq. by apply ptr_ne. }
  apply wp_ret.
  assert (∀ X, p ∈ X → changed X (pages s) (link_prev (ptr p) NULL (link_next (ptr p) NULL (pages s)))) as Hch.
  { intros X HX. eapply changed_trans; [apply changed_link_next|apply changed_link_prev]; try done; by left. }
  assert (p ∈ frames (fblocks F)) by (apply (head_frame (p, o)); eapply fi_elem; [done|left]).
  eapply HQ; [|done|by split; [apply Hch| |..]; [done|intros; simpl; by rewrite lookup_insert_ne|..]|].
  - eapply free_is_step; [exact HF|by apply fi_upd_hdr|rewrite length_insert; apply HF| |done| |by apply Hch].
    + intros b Hb. eapply (fi_block _ _ _ _ _ _ HF b).
      rewrite fblocks_insert in Hb by (rewrite (fi_len _ _ _ _ _ _ HF); lia).
      rewrite (fblocks_at o (p :: L)) by done. simpl. by right.
    + intros o' L' HL'. eapply (changed_chain [p]); [apply Hch; left| |].
      * intros q Hq ->%list_elem_of_singleton. destruct (decide (o' = o)) as [->|].
        -- rewrite list_lookup_insert_eq in HL' by (rewrite (fi_len _ _ _ _ _ _ HF); lia). by injection HL' as <-.
        -- rewrite list_lookup_insert_ne in HL' by done.
           edestruct (fi_head_unique HF o (p :: L) p o' p L'); [done|left|done| |done|done].
           apply elem_bpages. simpl. pose proof (bsize_pos o). lia.
      * destruct (decide (o' = o)) as [->|].
        -- rewrite list_lookup_insert_eq in HL' by (rewrite (fi_len _ _ _ _ _ _ HF); lia). injection HL' as <-.
           by destruct (fi_chain _ _ _ _ _ _ HF _ _ HL) as (_ & _ & ?).
        -- rewrite list_lookup_insert_ne in HL' by done. by apply (fi_chain _ _ _ _ _ _ HF).
  - unfold handed_out, link_prev, link_next. simpl. rewrite !lookup_alter_eq, Hd. simpl. eexists. split; [done|]. done.
Qed.
End take.

(** ** Splitting *)

Lemma page_buddy_ptr p o :
  pfn_ok p → pfn_ok (buddy p o) → page_buddy (ptr p) (Z.of_nat o) = ptr (buddy p o).
Proof.
  intros Hp Hb. unfold page_buddy. rewrite Z.shiftl_1_l. change (2 ^ Z.of_nat o) with (bsize o).
  unfold ptr, pfn_page in *. replace (page_data + SIZEOF_PAGE * p - page_data) with (SIZEOF_PAGE * p) by lia.
  assert (i64 (SIZEOF_PAGE * p) = SIZEOF_PAGE * p) as ->.
  { unfold swrap, pfn_ok, SIZEOF_PAGE in *. change (2 ^ 64) with 18446744073709551616.
    change (2 ^ (64 - 1)) with 9223372036854775808. rewrite Z.mod_small by lia.
    destruct (Z.ltb_spec (40 * p) 9223372036854775808); lia. }
  rewrite (Z.mul_comm SIZEOF_PAGE p), Z.quot_mul by done. rewrite (uwrap_id 64 p) by (unfold pfn_ok, in_u in *; lia).
  fold (buddy p o). apply uwrap_id.
  unfold in_u, pfn_ok, page_data, KERNEL_PAGE_DATA, KERNEL_TEXT_BASE, KERNEL_PHYS_MAP_END, SIZEOF_PAGE in *. lia.
Qed.

(** The lists after a block of order [S o] has been split. *)
Definition split_lists (F : list (list Z)) (o : nat) (p : Z) (L L' : list Z) : list (list Z) :=
  <[o := p :: buddy p o :: L']> (<[S o := L]> F).

Lemma buddy_lower p o : 0 ≤ p → aligned (p, S o) → buddy p o = p + bsize o.
Proof.
  intros Hp [k Hk]. simpl in Hk. unfold buddy, bsize.
  apply (lxor_pow2_divide p (Z.of_nat o)); [lia|done|exists (2 * k); rewrite Hk, bsize_S; unfold bsize; lia|].
  apply Z.testbit_false; [lia|]. rewrite Hk, bsize_S. unfold bsize.
  replace (k * (2 * 2 ^ Z.of_nat o)) with (k * 2 * 2 ^ Z.of_nat o) by lia.
  rewrite Z.div_mul by lia. by rewrite Z.mod_mul.
Qed.

Lemma split_lists_frames F o p L L' :
  F !! S o = Some (p :: L) → F !! o = Some L' → 0 ≤ p → aligned (p, S o) →
  frames (fblocks (split_lists F o p L L')) ≡ₚ frames (fblocks F).
Proof.
  intros HL HL' Hp Hal. unfold split_lists. pose proof (lookup_lt_Some _ _ _ HL). pose proof (lookup_lt_Some _ _ _ HL').
  rewrite fblocks_insert by by rewrite length_insert. rewrite (fblocks_at (S o) (p :: L) F) by done.
  assert (blk o L' ++ frest o (<[S o := L]> F) ≡ₚ blk (S o) L ++ frest (S o) F) as E.
  { rewrite <-(fblocks_at o L'), <-fblocks_insert; [done|done|]. rewrite list_lookup_insert_ne; [done|lia]. }
  change (blk o (p :: buddy p o :: L')) with ((p, o) :: (buddy p o, o) :: blk o L').
  change (blk (S o) (p :: L)) with ((p, S o) :: blk (S o) L). rewrite <-!app_comm_cons, E, !frames_cons.
  rewrite (bpages_split p o), (buddy_lower p o) by done. by rewrite (assoc_L (++)).
Qed.

Section split.
Context `{BuildConfig} {s : pstate} {z nx lo hi : Z} {F : list (list Z)}.
Hypothesis HF : free_is s z nx lo hi F.

Lemma elem_split_lists o p L L' b :
  F !! S o = Some (p :: L) → F !! o = Some L' →
  b ∈ fblocks (split_lists F o p L L') → b ∈ fblocks F ∨ b = (p, o) ∨ b = (buddy p o, o).
Proof.
  intros HL HL' Hb. destruct b as [q oq]. apply elem_fblocks in Hb as (Lq & Hq & Hin). unfold split_lists in Hq.
  apply list_lookup_insert_Some in Hq as [(<- & <- & _)|[_ Hq]].
  - apply elem_of_cons in Hin as [->|[->|Hin]%elem_of_cons]; [auto..|]. left. apply elem_fblocks. eauto.
  - left. apply elem_fblocks. apply list_lookup_insert_Some in Hq as [(<- & <- & _)|[_ Hq]]; [|eauto].
    exists (p :: L). split; [done|by right].
Qed.

(** What is known of a block about to be split. *)
Lemma fi_split_facts o p L L' :
  F !! S o = Some (p :: L) → F !! o = Some L' →
  aligned (p, S o) ∧ pfn_ok p ∧ pfn_ok (buddy p o) ∧ p ≠ buddy p o ∧
  p ∈ frames (fblocks F) ∧ buddy p o ∈ frames (fblocks F) ∧
  lo ≤ p < hi ∧ lo ≤ buddy p o < hi ∧
  (∀ o2 L2 f, F !! o2 = Some L2 → f ∈ L2 → f ∈ bpages (p, S o) → f = p ∧ o2 = S o) ∧ p ∉ L ∧
  buddy p o ∈ bpages (p, S o) ∧ p ∈ bpages (p, S o).
Proof.
  intros HL HL'. pose proof (fi_elem _ _ p HL ltac:(left)) as Hin.
  destruct (fi_block _ _ _ _ _ _ HF _ Hin) as (Hal & H1 & H2). simpl in H1, H2.
  destruct (fi_elem_ok HF _ _ p HL) as [Hok Hr]; [left|].
  pose proof (buddy_lower p o ltac:(unfold pfn_ok in *; lia) Hal) as Hb.
  pose proof (bsize_pos o). pose proof (bsize_S o). pose proof (fi_hi _ _ _ _ _ _ HF). unfold pfn_ok in *.
  assert (buddy p o ∈ bpages (p, S o)) by (apply elem_bpages; simpl; lia).
  assert (p ∈ bpages (p, S o)) by (apply elem_bpages; simpl; lia).
  split_and!; try done; try lia.
  - apply elem_frames. eauto.
  - apply elem_frames. eauto.
  - intros o2 L2 f HL2 Hf2 Hf. eapply (fi_head_unique HF); [exact HL|left|done..].
  - pose proof (fi_list_nodup HF _ _ HL) as Hnd. by apply NoDup_cons in Hnd as [? _].
Qed.

(** The table of descriptors after the split. *)
Definition split_pages (o : nat) (p : Z) (L' : list Z) (pg : gmap Z page) : gmap Z page :=
  link_next (ptr (buddy p o)) (hd_ptr L') (link_next (ptr p) (ptr (buddy p o))
    (alter (set_order (Z.of_nat o)) (ptr p) (alter (set_order (Z.of_nat o)) (ptr (buddy p o)) pg))).

Lemma split_pages_changed o p L' pg X :
  p ∈ X → buddy p o ∈ X → (∀ q, hd_ptr L' = ptr q → L' ≠ [] → q ∈ X) → changed X pg (split_pages o p L' pg).
Proof.
  intros Hp Hb Hq. unfold split_pages. eapply changed_trans; [|apply changed_link_next; [done|]].
  - eapply changed_trans; [|apply changed_link_next; [done|right; eauto]].
    eapply changed_trans; by apply changed_alter.
  - destruct L' as [|q L']; [by left|]. right. exists q. split; [done|]. by apply Hq.
Qed.

Lemma split_pages_chain o p L L' :
  F !! S o = Some (p :: L) → F !! o = Some L' → dchain (split_pages o p L' (pages s)) o (p :: buddy p o :: L').
Proof.
  intros HL HL'. destruct (fi_split_facts _ _ _ _ HL HL') as (Hal & Hok & Hbok & Hne & _ & _ & Hr & Hbr & Hu & _ & Hbin & Hpin).
  destruct (fi_desc _ _ _ _ _ _ HF _ Hr) as [d Hd]. destruct (fi_desc _ _ _ _ _ _ HF _ Hbr) as [e He].
  assert (p ∉ L') as HpL by (intros Hp'; destruct (Hu o L' p HL' Hp' Hpin); lia).
  assert (buddy p o ∉ L') as HbL by (intros Hp'; destruct (Hu o L' (buddy p o) HL' Hp' Hbin); congruence).
  assert (ptr p ≠ ptr (buddy p o)) as Hpne by (intros ?%(inj ptr); done).
  unfold split_pages. set (pg1 := link_next (ptr p) (ptr (buddy p o)) _).
  assert (pg1 !! ptr p = Some (set_next (ptr (buddy p o)) (set_order (Z.of_nat o) d))) as H1.
  { unfold pg1. rewrite link_next_eq, lookup_alter_eq, lookup_alter_ne, Hd by congruence. done. }
  assert (pg1 !! ptr (buddy p o) = Some (set_prev (ptr p) (set_order (Z.of_nat o) e))) as H2.
  { unfold pg1. rewrite link_next_target, lookup_alter_ne, lookup_alter_eq, He by (congruence || by apply ptr_ne). done. }
  assert (dchain pg1 o L') as Hc.
  { eapply dchain_frame; [|by apply (fi_chain _ _ _ _ _ _ HF)]. intros q Hq. unfold pg1.
    assert (ptr q ≠ ptr p) by (intros ->%(inj ptr); done).
    assert (ptr q ≠ ptr (buddy p o)) by (intros ->%(inj ptr); done).
    rewrite link_next_ne, !lookup_alter_ne by done. done. }
  pose proof (dchain_push pg1 o (buddy p o) L' _ H2 eq_refl HbL (fi_list_nodup HF _ _ HL') Hbok (fi_list_ok HF _ _ HL') Hc) as Hpush.
  pose proof (hd_ptr_ne L' p HpL Hok). pose proof (hd_ptr_ne L' _ HbL Hbok).
  split_and!; [| |exact Hpush].
  - rewrite link_next_ne by congruence. rewrite H1. eexists. split_and!; [done..|]. done.
  - rewrite link_next_eq, H2 by done. eexists. split; [done|]. done.
Qed.

Lemma split_chains o p L L' o2 L2 :
  F !! S o = Some (p :: L) → F !! o = Some L' → split_lists F o p L L' !! o2 = Some L2 →
  dchain (split_pages o p L' (pages s)) o2 L2.
Proof.
  intros HL HL' HL2.
  destruct (fi_split_facts _ _ _ _ HL HL') as (_ & _ & _ & Hne & _ & _ & _ & _ & Hu & HpL & Hbin & Hpin).
  unfold split_lists in HL2.
  apply list_lookup_insert_Some in HL2 as [(<- & <- & _)|[Hne2 HL2]]; [by apply (split_pages_chain o p L L')|].
  assert (∃ L3, F !! o2 = Some L3 ∧ (∀ q, q ∈ L2 → q ∈ L3 ∧ q ≠ p) ∧ dchain (pages s) o2 L2) as (L3 & HL3 & Hsub & Hc3).
  { apply list_lookup_insert_Some in HL2 as [(<- & <- & _)|[Hne3 HL2]].
    - exists (p :: L). split_and!; [done|intros q Hq; split; [by right|congruence]|].
      by destruct (fi_chain _ _ _ _ _ _ HF _ _ HL) as (_ & _ & ?).
    - exists L2. split_and!; [done| |by apply (fi_chain _ _ _ _ _ _ HF)]. intros q Hq. split; [done|]. intros ->.
      by destruct (Hu _ _ _ HL2 Hq Hpin). }
  eapply (changed_chain (p :: buddy p o :: L')); [apply split_pages_changed; [left|right; left|]| |done].
  + intros q Hq ?. destruct L'; [done|]. apply (inj ptr) in Hq as ->. right; right; left.
  + intros q Hq [->|[->|Hq']%elem_of_cons]%elem_of_cons; destruct (Hsub _ Hq) as [Hq3 Hqp]; [done| |].
    * by destruct (Hu _ _ _ HL3 Hq3 Hbin).
    * edestruct (fi_head_unique HF o L' q o2 q L3); [done..| |done|lia].
      apply elem_bpages. simpl. pose proof (bsize_pos o). lia.
Qed.
End split.

Section alloc.
Context `{BuildConfig}.

Lemma wp_split_block s z nx lo hi F o p L L' Q :
  free_is s z nx lo hi F → F !! S o = Some (p :: L) → F !! o = Some L' →
  (∀ s', free_is s' z nx lo hi (split_lists F o p L L') → zstep z (frames (fblocks F)) s s' → Q tt s') →
  wp (split_block z (Z.of_nat (S o))) s Q.
Proof.
  intros HF HL HL' HQ. pose proof (fi_order_lt HF _ _ HL) as Ho. destruct (fi_hd_next HF _ _ _ HL) as (d & Hd & Hdo & Hdn).
  destruct (fi_split_facts HF _ _ _ _ HL HL') as (Hal & Hok & Hbok & Hne & Hpf & Hbf & Hr & Hbr & Hu & HpL & Hbin & Hpin).
  pose proof (fi_desc _ _ _ _ _ _ HF _ Hr) as Hp. pose proof (fi_desc _ _ _ _ _ _ HF _ Hbr) as Hb.
  assert (ptr p ≠ ptr (buddy p o)) as Hpne by (intros ?%(inj ptr); done).
  pose proof (fi_len _ _ _ _ _ _ HF) as Hlen.
  unfold split_block. replace (Z.of_nat (S o) - 1) with (Z.of_nat o) by lia.
  apply wp_bind, (fi_rd_list HF _ _ _ HL). simpl hd_ptr. rewrite page_buddy_ptr, i8_small by (done || lia).
  apply wp_bind, wp_wr_page; [done..|]. apply wp_bind, wp_wr_page; [by apply is_Some_alter|done|].
  apply wp_bind. eapply wp_rd_list; [apply HF|apply HF|simpl; by rewrite list_lookup_fmap, HL|]. simpl hd_ptr.
  unfold dlist_get_next. repeat apply wp_bind.
  eapply wp_rd_page; [simpl; by rewrite lookup_alter_eq, lookup_alter_ne, Hd by done|done|].
  apply wp_ret. simpl pg_next. rewrite Hdn.
  apply wp_bind. eapply wp_wr_list; [apply HF|apply HF|simpl; rewrite length_fmap; lia|].
  apply wp_bind, wp_dlist_set_next; [by do 2 apply is_Some_alter|done|right; exists (buddy p o); split_and!; [done..|by do 2 apply is_Some_alter]|].
  apply wp_bind. eapply wp_rd_list; [apply lookup_insert_eq|apply HF| |].
  { simpl. rewrite list_lookup_insert_ne, list_lookup_fmap, HL' by lia. done. }
  assert (ptr_opt (pages s) (hd_ptr L')) as Hopt.
  { destruct L' as [|q L']; [by left|right]. exists q. destruct (fi_elem_ok HF _ _ q HL') as [? ?]; [left|].
    split_and!; [done..|]. by apply (fi_desc _ _ _ _ _ _ HF). }
  set (pg1 := link_next (ptr p) (ptr (buddy p o)) (alter (set_order (Z.of_nat o)) (ptr p)
                (alter (set_order (Z.of_nat o)) (ptr (buddy p o)) (pages s)))).
  assert (changed [p; buddy p o] (pages s) pg1) as Hc1.
  { eapply changed_trans; [|apply changed_link_next; [left|right; eexists; split; [done|right; left]]].
    eapply changed_trans; apply changed_alter; try done; [right; left|left]. }
  apply wp_bind, wp_dlist_set_next; [by eapply (changed_some _ _ _ _ Hc1)|done| |].
  { destruct Hopt as [->|(q & -> & ? & ?)]; [by left|right]. exists q. split_and!; [done..|]. by eapply (changed_some _ _ _ _ Hc1). }
  eapply wp_wr_list; [apply lookup_insert_eq|apply HF|simpl; rewrite length_insert, length_fmap; lia|].
  assert (changed (frames (fblocks F)) (pages s) (split_pages o p L' (pages s))) as Hch.
  { apply split_pages_changed; [done..|]. intros q Hq Hnil. destruct L' as [|q' L']; [done|]. apply (inj ptr) in Hq as ->.
    apply (head_frame (q, o)), (fi_elem _ _ _ HL'). left. }
  apply HQ; [|split; [exact Hch|intros; simpl; by rewrite !lookup_insert_ne|done|done]].
  eapply (free_is_step _ _ _ _ _ _ _ _ []); [exact HF| |unfold split_lists; by rewrite !length_insert|
    |by rewrite split_lists_frames by (done || unfold pfn_ok in *; lia)| |exact Hch].
  - simpl. rewrite lookup_insert_eq. unfold zset_lists, split_lists. simpl. by rewrite !list_fmap_insert.
  - intros b [Hb'|[->| ->]]%(elem_split_lists _ _ _ _ _ HL HL').
    + by apply (fi_block _ _ _ _ _ _ HF).
    + eapply Z.divide_trans; [apply (divide_bsize o (S o)); lia|apply Hal].
    + apply buddy_spec; [unfold pfn_ok in *; lia|]. eapply Z.divide_trans; [apply (divide_bsize o (S o)); lia|apply Hal].
  - intros o2 L2. by apply (split_chains HF o p L L').
Qed.

(** The first loop stops at the smallest larger order with a block, or at 12. *)
Lemma wp_scan_order s z nx lo hi F o Q :
  free_is s z nx lo hi F → (o < 12)%nat →
  (∀ k, (o < k ≤ 12)%nat → (∀ j, (o < j < k)%nat → F !! j = Some []) →
     (k < 12 → ∃ p L, F !! k = Some (p :: L))%nat → Q (Z.of_nat k) s) →
  wp (scan_order z (Z.of_nat o)) s Q.
Proof.
  intros HF Ho HQ. unfold scan_order.
  apply (wp_loop (λ n b s', s' = s ∧ ∃ k, b = Z.of_nat k ∧ n = (12 - k)%nat ∧ (o < k ≤ 12)%nat ∧
                             ∀ j, (o < j < k)%nat → F !! j = Some [])) with (n := (11 - o)%nat).
  - intros n b s' (-> & k & -> & -> & Hk & Hj). unfold MAX_ORDER. destruct (Z.ltb_spec (Z.of_nat k) 12).
    + destruct (fi_lookup HF k) as [L HL]; [lia|]. apply wp_bind, (fi_rd_list HF _ _ _ HL).
      destruct L as [|p L]; simpl hd_ptr.
      * apply wp_ret. exists (12 - S k)%nat. split; [lia|]. split; [done|]. exists (S k).
        split_and!; [lia|done|lia..|]. intros j Hj'. destruct (decide (j = k)) as [->|]; [done|]. apply Hj. lia.
      * destruct (fi_elem_ok HF _ _ p HL) as [Hok _]; [left|].
        destruct (Z.eqb_spec (ptr p) NULL) as [E|]; [by apply ptr_ne in E|].
        apply wp_ret. apply HQ; [lia|done|eauto].
    + apply wp_ret. apply HQ; [lia|done|lia].
  - split; [done|]. exists (S o). split_and!; [lia..|]. intros j Hj. lia.
  - unfold MAX_ORDER. lia.
Qed.

(** The second loop splits down to the order wanted. *)
Lemma wp_split_down s z nx lo hi F o k p L Q :
  free_is s z nx lo hi F → (o ≤ k)%nat → F !! k = Some (p :: L) →
  (∀ s' F' p' L', free_is s' z nx lo hi F' → F' !! o = Some (p' :: L') →
     frames (fblocks F') ≡ₚ frames (fblocks F) → zstep z (frames (fblocks F)) s s' → Q tt s') →
  wp (split_down z (Z.of_nat o) (Z.of_nat k)) s Q.
Proof.
  intros HF Hok HL HQ. pose proof (fi_order_lt HF _ _ HL) as Hk. unfold split_down.
  apply (wp_loop (λ n b s', ∃ k F' p' L', b = Z.of_nat k ∧ n = k ∧ (o ≤ k)%nat ∧ free_is s' z nx lo hi F' ∧
           F' !! k = Some (p' :: L') ∧ frames (fblocks F') ≡ₚ frames (fblocks F) ∧
           zstep z (frames (fblocks F)) s s')) with (n := k).
  - intros n b s' (k' & F' & p' & L' & -> & -> & Hle & HF' & HL' & Hp & Hz).
    rewrite Z.gtb_ltb. destruct (Z.ltb_spec (Z.of_nat o) (Z.of_nat k')).
    + destruct k' as [|k']; [lia|]. pose proof (fi_order_lt HF' _ _ HL').
      destruct (fi_lookup HF' k') as [Lo HLo]; [lia|].
      apply wp_bind. eapply wp_split_block; [done..|]. intros s2 HF2 Hz2. apply wp_ret.
      exists k'. split; [lia|].
      assert (frames (fblocks (split_lists F' k' p' L' Lo)) ≡ₚ frames (fblocks F')) as E.
      { destruct (fi_split_facts HF' _ _ _ _ HL' HLo) as (? & ? & _). apply split_lists_frames; try done. unfold pfn_ok in *. lia. }
      eexists k', _, p', (buddy p' k' :: Lo). split_and!; [lia|done|lia|exact HF2| |by rewrite E|].
      * unfold split_lists. rewrite list_lookup_insert_eq; [done|]. rewrite length_insert, (fi_len _ _ _ _ _ _ HF'). lia.
      * eapply zstep_trans; [done|]. by eapply zstep_perm.
    + assert (k' = o) as -> by lia. apply wp_ret. by eapply HQ.
  - exists k, F, p, L. split_and!; [done..|apply zstep_refl].
  - unfold MAX_ORDER. lia.
Qed.

(** The outcome of a successful allocation of order [o] from zone [z]. *)
Record allocated (s s' : pstate) (z nx lo hi : Z) (F F' : list (list Z)) (p : Z) (o : nat) : Prop := {
  al_free : free_is s' z nx lo hi F';
  al_frames : frames (fblocks F) ≡ₚ bpages (p, o) ++ frames (fblocks F');
  al_aligned : aligned (p, o);
  al_handed : handed_out (pages s') p o;
  al_ok : pfn_ok p;
  al_step : zstep z (frames (fblocks F)) s s'
}.

Lemma wp_zone_alloc_order s z nx lo hi F o Q :
  free_is s z nx lo hi F → (o < 12)%nat →
  ((∀ j, (o ≤ j < 12)%nat → F !! j = Some []) → Q NULL s) →
  (∀ p F' s', allocated s s' z nx lo hi F F' p o → Q (ptr p) s') →
  wp (zone_alloc_order z (Z.of_nat o)) s Q.
Proof.
  intros HF Ho Hnone Hsome. unfold zone_alloc_order. destruct (fi_lookup HF o Ho) as [Lo HLo].
  assert (∀ s1 F1 p L, free_is s1 z nx lo hi F1 → F1 !! o = Some (p :: L) →
            frames (fblocks F1) ≡ₚ frames (fblocks F) → zstep z (frames (fblocks F)) s s1 →
            wp (take_head z (Z.of_nat o)) s1 Q) as Htake.
  { intros s1 F1 p L HF1 HL1 Hp Hz. eapply (wp_take_head HF1); [done|]. intros s2 HF2 Hp2 Hz2 Hh.
    eapply Hsome. split; [exact HF2|by rewrite <-Hp| |done|exact (proj1 (fi_elem_ok HF1 _ _ p HL1 ltac:(left)))|].
    - eapply (fi_block _ _ _ _ _ _ HF1), (fi_elem _ _ _ HL1). left.
    - eapply zstep_trans; [done|]. by eapply zstep_perm. }
  apply wp_bind, (fi_rd_list HF _ _ _ HLo). destruct Lo as [|p Lo]; simpl hd_ptr.
  - apply wp_bind. eapply wp_scan_order; [done..|]. intros k Hk Hj Hfound. unfold MAX_ORDER.
    destruct (Z.eqb_spec (Z.of_nat k) 12).
    + apply wp_ret, Hnone. intros j Hj'. destruct (decide (j = o)) as [->|]; [done|]. apply Hj. lia.
    + destruct Hfound as (q & L & HL); [lia|]. apply wp_bind. eapply wp_split_down; [done|lia|done|].
      intros. by eapply Htake.
  - destruct (fi_elem_ok HF _ _ p HLo) as [Hok _]; [left|].
    destruct (Z.eqb_spec (ptr p) NULL) as [E|]; [by apply ptr_ne in E|].
    eapply Htake; [done..|apply zstep_refl].
Qed.
End alloc.
