(* ===== verification/PmmFree.v ===== *)
(** * Physical memory: returning blocks to a zone

    [__pmm_free_order] merges the block with its buddy as long as the buddy is
    a free block of the same order that does not head its list, and puts the
    result on a list: the frames of the block become free and nothing else
    changes. *)

From stdpp Require Import base list gmap.
From Stdlib Require Import ZArith Lia Bool.
From S2P Require Import Prelude Addr Pmm PmmInv PmmAlloc.
Local Open Scope Z_scope.

(** ** Removing from the middle of a list *)

Lemma dchain_app pg o L1 L2 : dchain pg o (L1 ++ L2) → dchain pg o L2.
Proof. induction L1 as [|p L1 IH]; [done|]. intros (_ & _ & ?). auto. Qed.

Lemma dchain_mid pg o l1 a b l2 :
  dchain pg o (l1 ++ a :: b :: l2) →
  ∃ d, pg !! ptr b = Some d ∧ pg_order d = Z.of_nat o ∧ pg_next d = hd_ptr l2 ∧ pg_prev d = ptr a.
Proof.
  intros (_ & (e & He & Hp) & (d & Hd & ? & ?) & _)%dchain_app. rewrite He in Hd. injection Hd as ->. eauto.
Qed.

(** Linking [a] to what follows [b] takes [b] out. *)
Lemma dchain_remove pg o l1 a b l2 :
  dchain pg o (l1 ++ a :: b :: l2) → NoDup (l1 ++ a :: b :: l2) → Forall pfn_ok (l1 ++ a :: b :: l2) →
  dchain (link_next (ptr a) (hd_ptr l2) pg) o (l1 ++ a :: l2).
Proof.
  intros Hc Hnd Hok. induction l1 as [|x l1 IH].
  - simpl in *. destruct Hc as ((d & Hd & Ho & _) & _ & (_ & _ & Hc2)).
    apply NoDup_cons in Hnd as [Ha [Hb Hnd]%NoDup_cons].
    assert (pg !! ptr a = Some d ∧ a ∉ l2) as [? ?] by (split; [done|intros ?; apply Ha; by right]).
    apply (dchain_push pg o a l2 d); try done; [by inversion Hok|by do 2 eapply Forall_inv_tail].
  - destruct Hc as (Hx & Hnext & Hc). simpl in Hnd, Hok. apply NoDup_cons in Hnd as [Hxn Hnd].
    assert (a ≠ x ∧ x ∉ l2) as [Hax Hxl].
    { split; [intros ->; apply Hxn; apply elem_of_app; right; left|].
      intros ?. apply Hxn. apply elem_of_app. right. by do 2 right. }
    assert (pfn_ok x) as Hxok by by inversion Hok.
    assert (ptr x ≠ ptr a) by (intros ?%(inj ptr); congruence).
    pose proof (hd_ptr_ne l2 x Hxl Hxok).
    simpl. split_and!; [| |by apply IH; [|done|inversion Hok]].
    + rewrite link_next_ne by done. destruct Hx as (d & Hd & Ho & Hn). exists d. split_and!; [done..|].
      rewrite Hn. by destruct l1.
    + destruct l1 as [|y l1]; simpl in *.
      * destruct Hnext as (e & He & Hp). rewrite link_next_eq, He; [simpl; eauto|].
        apply NoDup_cons in Hnd as [Ha _]. intros E. destruct l2 as [|c l2]; simpl in E.
        -- apply (ptr_ne a); [inversion Hok; by inversion select (Forall _ (a :: _))|done].
        -- apply (inj ptr) in E as ->. apply Ha. right; left.
      * destruct Hnext as (e & He & Hp). apply NoDup_cons in Hnd as [Hy _].
        rewrite link_next_ne, He; [eauto| |].
        -- intros ->%(inj ptr). apply Hy, elem_of_app. right; left.
        -- apply not_eq_sym, hd_ptr_ne; [|by apply Forall_inv_tail, Forall_inv in Hok].
           intros ?. apply Hy, elem_of_app. right. by do 2 right.
Qed.

(** The second link of the merge repeats the first. *)
Lemma link_prev_again p n pg :
  n ≠ p → n ≠ NULL → p ≠ NULL → link_prev n p (link_next p n pg) = link_next p n pg.
Proof.
  intros Hn Hn0 Hp0. unfold link_prev, link_next.
  destruct (Z.eqb_spec n NULL); [done|]. destruct (Z.eqb_spec p NULL); [done|].
  apply map_eq. intros a. destruct (decide (a = p)) as [->|]; [|destruct (decide (a = n)) as [->|]].
  - rewrite lookup_alter_eq, !lookup_alter_ne, lookup_alter_eq by done. by destruct (pg !! p).
  - rewrite lookup_alter_ne, !lookup_alter_eq, lookup_alter_ne by done. by destruct (pg !! n).
  - by rewrite !lookup_alter_ne.
Qed.

(** The order may be written before or after the links. *)
Lemma link_next_order p n v pg :
  n ≠ p → alter (set_order v) p (link_next p n pg) = link_next p n (alter (set_order v) p pg).
Proof.
  intros Hn. unfold link_next. apply map_eq. intros a.
  destruct (n =? NULL); (destruct (decide (a = p)) as [->|]; [|destruct (decide (a = n)) as [->|]]);
    rewrite ?lookup_alter_eq, ?lookup_alter_ne, ?lookup_alter_eq, ?lookup_alter_ne, ?lookup_alter_eq by done;
    try done; by destruct (pg !! p).
Qed.

(** ** A block on its way back *)

(** The descriptors just outside a zone that a buddy computation can reach
    look like no free block of the order asked for. *)
Definition edge_ok (pg : gmap Z page) (lo hi : Z) : Prop :=
  ∀ b o, (o < 12)%nat → aligned (b, o) → 0 ≤ b → b = hi ∨ lo - bsize o ≤ b < lo →
  ∃ d, pg !! ptr b = Some d ∧ (pg_next d = NULL ∧ pg_prev d = NULL ∨ pg_order d ≠ Z.of_nat o).

(** No list of order 11 holds, behind its head, a block of the same group of
    4096 frames: merging with it would need a list of order 12. *)
Definition room_above (F : list (list Z)) (p : Z) : Prop :=
  ∀ L q, F !! 11%nat = Some L → q ∈ tail L → q / 4096 ≠ p / 4096.

Definition null_links (pg : gmap Z page) (b : block) : Prop :=
  ∃ d, pg !! ptr b.1 = Some d ∧ pg_next d = NULL ∧ pg_prev d = NULL.

(** The state of a zone from which the block [(p, o)] has been taken out: it
    is neither on a list nor among the allocated blocks [A]. *)
Record in_flight (s : pstate) (z nx lo hi : Z) (F : list (list Z)) (A : list block) (p : Z) (o : nat) : Prop := {
  if_free : free_is s z nx lo hi F;
  if_part : frames ((p, o) :: fblocks F ++ A) ≡ₚ seqZ lo (hi - lo);
  if_aligned : aligned (p, o);
  if_alloc : ∀ b, b ∈ A → aligned b ∧ null_links (pages s) b;
  if_edge : edge_ok (pages s) lo hi;
  if_order : (o < 12)%nat;
  if_room : room_above F p
}.

Section in_flight.
Context {s : pstate} {z nx lo hi : Z} {F : list (list Z)} {A : list block} {p : Z} {o : nat}.
Hypothesis HI : in_flight s z nx lo hi F A p o.

Lemma if_nodup : NoDup (frames ((p, o) :: fblocks F ++ A)).
Proof. rewrite (if_part _ _ _ _ _ _ _ _ _ HI). apply NoDup_seqZ. Qed.

Lemma if_frame f : f ∈ bpages (p, o) → lo ≤ f < hi.
Proof.
  intros Hf. assert (f ∈ seqZ lo (hi - lo)) as Hs.
  { rewrite <-(if_part _ _ _ _ _ _ _ _ _ HI), frames_cons. apply elem_of_app. by left. }
  apply elem_of_seqZ in Hs. lia.
Qed.

Lemma if_bounds : lo ≤ p ∧ p + bsize o ≤ hi ∧ pfn_ok p.
Proof.
  pose proof (bsize_pos o).
  pose proof (if_frame p ltac:(apply elem_bpages; simpl; lia)).
  pose proof (if_frame (p + bsize o - 1) ltac:(apply elem_bpages; simpl; lia)).
  pose proof (fi_lo _ _ _ _ _ _ (if_free _ _ _ _ _ _ _ _ _ HI)).
  pose proof (fi_hi _ _ _ _ _ _ (if_free _ _ _ _ _ _ _ _ _ HI)). unfold pfn_ok in *. lia.
Qed.

Lemma if_fresh f : f ∈ bpages (p, o) → f ∉ frames (fblocks F).
Proof.
  intros Hin Hf. pose proof if_nodup as Hnd. rewrite frames_cons, frames_app in Hnd.
  apply NoDup_app in Hnd as (_ & Hd & _). apply (Hd f Hin). apply elem_of_app. by left.
Qed.

Lemma if_buddy :
  buddy p o ≠ p ∧ buddy p o ∉ bpages (p, o) ∧ aligned (buddy p o, o) ∧ pfn_ok (buddy p o) ∧
  aligned (Z.min p (buddy p o), S o) ∧
  bpages (Z.min p (buddy p o), S o) ≡ₚ bpages (p, o) ++ bpages (buddy p o, o) ∧
  (lo ≤ buddy p o < hi ∨ buddy p o = hi ∨ lo - bsize o ≤ buddy p o < lo).
Proof.
  pose proof if_bounds as (H1 & H2 & H3). pose proof (bsize_pos o).
  pose proof (fi_hi _ _ _ _ _ _ (if_free _ _ _ _ _ _ _ _ _ HI)).
  assert (0 ≤ p) as Hp0 by (unfold pfn_ok in *; lia).
  destruct (buddy_spec p o Hp0 (if_aligned _ _ _ _ _ _ _ _ _ HI)) as (Ha & Hb0 & Ham & Hd & Hp).
  assert (buddy p o ∉ bpages (p, o)) by (rewrite elem_bpages; simpl; lia).
  assert (buddy p o ≠ p) by lia. assert (pfn_ok (buddy p o)) by (unfold pfn_ok in *; lia).
  do 6 (split; [done|]). lia.
Qed.

(** A buddy inside the zone heads a block of at most the same order. *)
Lemma if_buddy_head :
  lo ≤ buddy p o < hi → ∃ o', (o' ≤ o)%nat ∧ (buddy p o, o') ∈ fblocks F ++ A.
Proof.
  intros Hr. destruct if_buddy as (Hne & Hnin & Hal & _ & Ham & Hmp & _).
  assert (buddy p o ∈ frames ((p, o) :: fblocks F ++ A)) as Hin.
  { rewrite (if_part _ _ _ _ _ _ _ _ _ HI). apply elem_of_seqZ. lia. }
  rewrite frames_cons in Hin. apply elem_of_app in Hin as [?|Hin]; [done|].
  apply elem_frames in Hin as ([q o'] & Hb & Hf).
  assert (aligned (q, o')) as Halq.
  { apply elem_of_app in Hb as [Hb|Hb];
      [by apply (fi_block _ _ _ _ _ _ (if_free _ _ _ _ _ _ _ _ _ HI))|by apply (if_alloc _ _ _ _ _ _ _ _ _ HI)]. }
  pose proof (bsize_pos o). pose proof (bsize_pos o').
  assert (buddy p o ∈ bpages (buddy p o, o)) as Hself by (apply elem_bpages; simpl; lia).
  destruct (decide (o' ≤ o)%nat) as [Hle|Hgt].
  - exists o'. split; [done|]. replace (buddy p o) with q; [done|].
    assert (q ∈ bpages (buddy p o, o)) as Hq.
    { eapply (aligned_nested q o'); [done..|]. apply elem_bpages. simpl. lia. }
    rewrite elem_bpages in Hq, Hf. simpl in *. lia.
  - exfalso. assert (p ∈ bpages (q, o')) as Hp.
    { eapply (aligned_nested (Z.min p (buddy p o)) (S o)); [done|done|lia| |exact Hf|].
      - rewrite Hmp. apply elem_of_app. by right.
      - rewrite Hmp. apply elem_of_app. left. apply elem_bpages. simpl. lia. }
    pose proof if_nodup as Hnd. rewrite frames_cons in Hnd. apply NoDup_app in Hnd as (_ & Hd & _).
    apply (Hd p); [apply elem_bpages; simpl; lia|]. apply elem_frames. eauto.
Qed.

(** What the test of the code finds out about the buddy's descriptor. *)
Lemma if_buddy_desc :
  ∃ d, pages s !! ptr (buddy p o) = Some d ∧
    (pg_next d = NULL ∧ pg_prev d = NULL ∨ pg_order d ≠ Z.of_nat o ∨
     ∃ L, F !! o = Some L ∧ buddy p o ∈ L).
Proof.
  destruct if_buddy as (_ & _ & Hal & Hbok & _ & _ & [Hin|Hout]).
  - destruct (if_buddy_head Hin) as (o' & Hle & [Hb|Hb]%elem_of_app).
    + pose proof Hb as (L & HL & HbL)%elem_fblocks.
      destruct (dchain_lookup _ _ _ _ (fi_chain _ _ _ _ _ _ (if_free _ _ _ _ _ _ _ _ _ HI) _ _ HL) HbL) as (d & Hd & Ho).
      exists d. split; [done|right]. destruct (decide (o' = o)) as [->|]; [eauto|left]. lia.
    + destruct (if_alloc _ _ _ _ _ _ _ _ _ HI _ Hb) as (_ & d & ? & ? & ?). exists d. tauto.
  - destruct (if_edge _ _ _ _ _ _ _ _ _ HI (buddy p o) o) as (d & Hd & Hc); [apply HI|done|unfold pfn_ok in *; lia|done|].
    exists d. tauto.
Qed.
End in_flight.

(** ** The test *)

Lemma hd_ptr_elem L x : x ≠ NULL → hd_ptr L = x → ∃ q L', L = q :: L' ∧ x = ptr q.
Proof. destruct L as [|q L]; simpl; [congruence|]. intros _ <-. eauto. Qed.

(** A page is the head of some list. *)
Lemma existsb_heads (F : list (list Z)) q :
  pfn_ok q → existsb (λ h, h =? ptr q) (hd_ptr <$> F) = true ↔ ∃ o L, F !! o = Some (q :: L).
Proof.
  intros Hq. rewrite existsb_exists. split.
  - intros (h & Hin & E%Z.eqb_eq). apply list_elem_of_In, list_elem_of_fmap in Hin as (L & -> & HL).
    apply list_elem_of_lookup in HL as [o HL]. apply hd_ptr_elem in E as (x & L' & -> & E%(inj ptr)); [|by apply ptr_ne].
    subst. eauto.
  - intros (o & L & HL). exists (ptr q). split; [|apply Z.eqb_refl]. apply list_elem_of_In, list_elem_of_fmap.
    exists (q :: L). split; [done|]. by eapply list_elem_of_lookup_2.
Qed.

Section test.
Context `{BuildConfig} {s : pstate} {z nx lo hi : Z} {F : list (list Z)}.

Lemma fi_rd_zone Q :
  free_is s z nx lo hi F →
  Q (mk_zone nx (lo * PAGE_SIZE) ((hi - lo) * PAGE_SIZE) (hd_ptr <$> F)) s → wp (rd_zone z) s Q.
Proof. intros HF HQ. eapply wp_deref; [apply HF|apply HF|done]. Qed.

(** A block behind the head of its list has a predecessor, and heads none. *)
Lemma tail_split (L : list Z) b : b ∈ tail L → ∃ l1 a l2, L = l1 ++ a :: b :: l2.
Proof.
  destruct L as [|x L]; [by intros ?%elem_of_nil|]. simpl. intros (l1 & l2 & ->)%list_elem_of_split.
  destruct (decide (l1 = [])) as [->|Hne]; [by exists [], x, l2|].
  destruct (exists_last Hne) as (l1' & a & ->). exists (x :: l1'), a, l2. simpl. by rewrite <-(assoc_L (++)).
Qed.

Lemma fi_tail (HF : free_is s z nx lo hi F) o L b :
  F !! o = Some L → b ∈ tail L →
  ∃ l1 a l2, L = l1 ++ a :: b :: l2 ∧ ∀ o' L', F !! o' ≠ Some (b :: L').
Proof.
  intros HL Hb. destruct (tail_split _ _ Hb) as (l1 & a & l2 & E). exists l1, a, l2. split; [done|].
  intros o' L' HL'. pose proof (fi_list_nodup HF _ _ HL) as Hnd.
  destruct (fi_head_unique HF o L b o' b (b :: L')) as [_ ->]; try done; [| |left|].
  - rewrite E. apply elem_of_app. right; right; left.
  - apply elem_bpages. simpl. pose proof (bsize_pos o). lia.
  - rewrite HL in HL'. injection HL' as ->. apply NoDup_cons in Hnd as [Hnd _]. by apply Hnd.
Qed.

(** [is_page_free && order]: true exactly for a block of the order that is on
    its list and does not head it. *)
Lemma wp_can_merge A p o L Q :
  in_flight s z nx lo hi F A p o → F !! o = Some L →
  (buddy p o ∈ tail L → Q true s) → (buddy p o ∉ tail L → Q false s) →
  wp (can_merge (ptr (buddy p o)) (Z.of_nat o) z) s Q.
Proof.
  intros HI HL Ht Hf. pose proof (if_free _ _ _ _ _ _ _ _ _ HI) as HF.
  destruct (if_buddy HI) as (_ & _ & _ & Hbok & _). destruct (if_buddy_desc HI) as (d & Hd & Hcase).
  assert (buddy p o ∈ tail L → pg_prev d ≠ NULL ∧ pg_order d = Z.of_nat o ∧
            ∀ o' L', F !! o' ≠ Some (buddy p o :: L')) as Htail.
  { intros Hin. destruct (fi_tail HF _ _ _ HL Hin) as (l1 & a & l2 & E & Hnh).
    pose proof (fi_chain _ _ _ _ _ _ HF _ _ HL) as Hc. rewrite E in Hc.
    destruct (dchain_mid _ _ _ _ _ _ Hc) as (d' & Hd' & Ho & _ & Hp). rewrite Hd in Hd'. injection Hd' as <-.
    split_and!; [|done|done]. rewrite Hp. apply ptr_ne, (fi_elem_ok HF _ _ a HL).
    rewrite E. apply elem_of_app. right; left. }
  unfold can_merge, andM, is_page_free. repeat apply wp_bind. eapply wp_rd_page; [done..|].
  destruct ((pg_next d =? NULL) && (pg_prev d =? NULL)) eqn:Hnull.
  { apply wp_ret. apply wp_ret, Hf. intros Hin. destruct (Htail Hin) as [Hp _].
    apply andb_true_iff in Hnull as [_ ?%Z.eqb_eq]. done. }
  apply wp_bind, (fi_rd_zone _ HF), wp_ret. simpl.
  destruct (existsb (λ h, h =? ptr (buddy p o)) (hd_ptr <$> F)) eqn:Hex; simpl.
  { apply wp_ret, Hf. intros Hin. destruct (Htail Hin) as (_ & _ & Hnh).
    apply existsb_heads in Hex as (o' & L' & HL'); [|done]. by apply Hnh in HL'. }
  apply wp_bind. eapply wp_rd_page; [done..|]. apply wp_ret. rewrite i8_small by apply HI.
  destruct (Z.eqb_spec (pg_order d) (Z.of_nat o)) as [Eo|Eo].
  - apply Ht. destruct Hcase as [[Hn Hp]|[?|(L2 & HL2 & Hin)]]; [by rewrite Hn, Hp in Hnull|done|].
    rewrite HL in HL2. injection HL2 as <-. destruct L as [|x L]; [by apply elem_of_nil in Hin|].
    apply elem_of_cons in Hin as [E|Hin]; [|done].
    apply not_true_iff_false in Hex. destruct Hex. apply existsb_heads; [done|]. exists o, L. congruence.
  - apply Hf. intros Hin. by destruct (Htail Hin) as (_ & ? & _).
Qed.
End test.

(** ** Framing *)

Lemma null_links_frame X pg pg' b : changed X pg pg' → b.1 ∉ X → null_links pg b → null_links pg' b.
Proof. intros Hc Hb (d & Hd & ?). exists d. by rewrite (changed_at _ _ _ _ Hc Hb). Qed.

Lemma edge_ok_frame X pg pg' lo hi :
  changed X pg pg' → (∀ f, f ∈ X → lo ≤ f < hi) → edge_ok pg lo hi → edge_ok pg' lo hi.
Proof.
  intros Hc HX He b o Ho Hal Hb Hr. destruct (He b o Ho Hal Hb Hr) as (d & Hd & ?). exists d.
  rewrite (changed_at _ _ _ b Hc); [done|]. intros Hin%HX. lia.
Qed.

Lemma free_frames_in s z nx lo hi F f : free_is s z nx lo hi F → f ∈ frames (fblocks F) → lo ≤ f < hi.
Proof.
  intros HF (b & Hb & Hf)%elem_frames. destruct (fi_block _ _ _ _ _ _ HF _ Hb) as (_ & ? & ?).
  apply elem_bpages in Hf. lia.
Qed.

(** Blocks aligned to at most 4096 frames stay in one group. *)
Lemma same_group m k x y :
  (k ≤ 12)%nat → aligned (m, k) → x ∈ bpages (m, k) → y ∈ bpages (m, k) → x / 4096 = y / 4096.
Proof.
  intros Hk [c Hc] Hx Hy. rewrite elem_bpages in Hx, Hy. simpl in *.
  destruct (divide_bsize k 12 Hk) as [e He]. change (bsize 12) with 4096 in He.
  pose proof (bsize_pos k). assert (0 < e) by nia.
  assert (∀ w, m ≤ w < m + bsize k → w / 4096 = c / e) as H4.
  { intros w Hw. rewrite He, (Z.mul_comm e), <-Z.div_div by lia.
    replace (w / bsize k) with c; [done|]. apply Z.div_unique with (w - m); lia. }
  by rewrite !H4.
Qed.

Section merge.
Context {s : pstate} {z nx lo hi : Z} {F : list (list Z)} {A : list block} {p : Z} {o : nat}.
Hypothesis HI : in_flight s z nx lo hi F A p o.
Context {l1 l2 : list Z} {a : Z}.
Hypothesis HL : F !! o = Some (l1 ++ a :: buddy p o :: l2).

Definition merged : list (list Z) := <[o := l1 ++ a :: l2]> F.

Lemma merged_blocks : fblocks F ≡ₚ (buddy p o, o) :: fblocks merged.
Proof using HL.
  unfold merged. rewrite fblocks_insert by by eapply lookup_lt_Some. rewrite (fblocks_at _ _ _ HL).
  unfold blk. rewrite !fmap_app, !fmap_cons. simpl. solve_Permutation.
Qed.

Lemma merged_frames : frames (fblocks F) ≡ₚ bpages (buddy p o, o) ++ frames (fblocks merged).
Proof using HL. by rewrite merged_blocks. Qed.

Lemma merged_elems x : x ∈ l1 ++ a :: l2 → x ∈ l1 ++ a :: buddy p o :: l2.
Proof. rewrite !elem_of_app, !elem_of_cons. tauto. Qed.

Definition unlink_state : pstate := upd_pages (link_next (ptr a) (hd_ptr l2)) s.

Lemma unlink_changed X : a ∈ X → (∀ x, x ∈ l2 → x ∈ X) → changed X (pages s) (pages unlink_state).
Proof.
  intros Ha Hl. apply changed_link_next; [done|]. destruct l2 as [|x l]; [by left|right].
  exists x. split; [done|]. apply Hl. left.
Qed.

Lemma unlink_step : zstep z (frames (fblocks F)) s unlink_state.
Proof using HL.
  split; try done. apply unlink_changed.
  - apply (head_frame (a, o)), (fi_elem _ _ _ HL). apply elem_of_app. right; left.
  - intros x Hx. apply (head_frame (x, o)), (fi_elem _ _ _ HL). apply elem_of_app. by do 3 right.
Qed.

Lemma unlink_free : free_is unlink_state z nx lo hi merged.
Proof using All.
  pose proof (if_free _ _ _ _ _ _ _ _ _ HI) as HF.
  eapply (free_is_step s); [exact HF| |unfold merged; rewrite length_insert; apply HF| |apply merged_frames| |apply unlink_step].
  - simpl. rewrite (fi_hdr _ _ _ _ _ _ HF). do 2 f_equal. unfold merged. rewrite list_fmap_insert.
    rewrite list_insert_id; [done|]. rewrite list_lookup_fmap, HL. simpl. by destruct l1.
  - intros b Hb. apply (fi_block _ _ _ _ _ _ HF). rewrite merged_blocks. by right.
  - intros o' L' HL'. unfold merged in HL'. apply list_lookup_insert_Some in HL' as [(<- & <- & _)|[Hne HL']].
    + apply (dchain_remove _ _ _ _ (buddy p o)); [by apply HF|by apply (fi_list_nodup HF _ _ HL)|by apply (fi_list_ok HF _ _ HL)].
    + eapply (changed_chain (a :: l2)); [apply unlink_changed; [left|by right]| |by apply HF].
      intros q Hq Hin. assert (q ∈ l1 ++ a :: buddy p o :: l2) as Hq'.
      { apply merged_elems. rewrite elem_of_app. by right. }
      destruct (fi_head_unique HF o _ q o' q L' HL Hq' HL'); [|done|done].
      apply elem_bpages. simpl. pose proof (bsize_pos o). lia.
Qed.

(** The merged block, one order up, is in flight. *)
Lemma unlink_in_flight : (S o < 12)%nat → in_flight unlink_state z nx lo hi merged A (Z.min p (buddy p o)) (S o).
Proof using All.
  intros Ho. pose proof (if_free _ _ _ _ _ _ _ _ _ HI) as HF. destruct (if_buddy HI) as (_ & _ & _ & _ & Ham & Hmp & _).
  pose proof (if_nodup HI) as Hnd. rewrite frames_cons, frames_app in Hnd. apply NoDup_app in Hnd as (_ & _ & Hnd).
  apply NoDup_app in Hnd as (_ & Hd & _). split; [apply unlink_free| |done| | |done|].
  - rewrite <-(if_part _ _ _ _ _ _ _ _ _ HI), !frames_cons, Hmp, !frames_app, merged_frames.
    by rewrite <-!(assoc_L (++)).
  - intros b Hb. destruct (if_alloc _ _ _ _ _ _ _ _ _ HI b Hb) as [Hal Hn]. split; [done|].
    eapply null_links_frame; [apply unlink_step| |done]. intros Hin. apply (Hd _ Hin). by apply head_frame.
  - eapply edge_ok_frame; [apply unlink_step| |apply HI]. intros f. by apply free_frames_in with (1 := HF).
  - intros L q HLq Hq. unfold merged in HLq. rewrite list_lookup_insert_ne in HLq by lia.
    pose proof (if_room _ _ _ _ _ _ _ _ _ HI L q HLq Hq) as Hr. intros E. apply Hr. rewrite E.
    apply (same_group (Z.min p (buddy p o)) (S o)); [lia|done| |].
    + apply elem_bpages. simpl. pose proof (bsize_pos (S o)). lia.
    + rewrite Hmp. apply elem_of_app. left. apply elem_bpages. simpl. pose proof (bsize_pos o). lia.
Qed.
End merge.

(** ** The end of the recursion *)

Section insert.
Context {s : pstate} {z nx lo hi : Z} {F : list (list Z)} {p : Z} {o : nat}.
Hypothesis HF : free_is s z nx lo hi F.
Hypothesis Hal : aligned (p, o).
Hypothesis Hbounds : lo ≤ p ∧ p + bsize o ≤ hi ∧ pfn_ok p.
Hypothesis Hfresh : ∀ f, f ∈ bpages (p, o) → f ∉ frames (fblocks F).
Context {L : list Z}.
Hypothesis HL : F !! o = Some L.

Definition freed : list (list Z) := <[o := p :: L]> F.

Definition freed_pages : gmap Z page :=
  alter (set_order (Z.of_nat o)) (ptr p) (link_next (ptr p) (hd_ptr L) (pages s)).

Lemma freed_blocks : fblocks freed ≡ₚ (p, o) :: fblocks F.
Proof using HL.
  unfold freed. rewrite fblocks_insert by by eapply lookup_lt_Some. by rewrite (fblocks_at _ _ _ HL).
Qed.

Lemma if_p_fresh o' L' f : F !! o' = Some L' → f ∈ L' → f ∉ bpages (p, o).
Proof using Hfresh.
  intros HL' Hf Hin. apply (Hfresh f Hin). by apply (head_frame (f, o')), (fi_elem _ _ _ HL').
Qed.

Lemma freed_p_head : p ∈ bpages (p, o).
Proof. apply elem_bpages. simpl. pose proof (bsize_pos o). lia. Qed.

Lemma freed_changed X : p ∈ X → (∀ x, x ∈ L → x ∈ X) → changed X (pages s) freed_pages.
Proof.
  intros Hp HX. eapply changed_trans; [|by apply changed_alter]. apply changed_link_next; [done|].
  destruct L as [|x l]; [by left|right]. exists x. split; [done|]. apply HX. left.
Qed.

Lemma freed_changed_frames : changed (frames (fblocks freed)) (pages s) freed_pages.
Proof using HL.
  apply freed_changed.
  - rewrite freed_blocks. apply (head_frame (p, o)). left.
  - intros x Hx. rewrite freed_blocks, frames_cons. apply elem_of_app. right.
    by apply (head_frame (x, o)), (fi_elem _ _ _ HL).
Qed.

Lemma freed_free s' :
  pages s' = freed_pages →
  zones s' !! z = Some (mk_zone nx (lo * PAGE_SIZE) ((hi - lo) * PAGE_SIZE) (hd_ptr <$> freed)) →
  free_is s' z nx lo hi freed.
Proof using All.
  intros Hpg Hz. destruct Hbounds as (Hlo & Hhi & Hok). pose proof HF as [? ? ? ? Hlen Hbl Hnd Hch Hdesc].
  assert (p ∉ L) as HpL by (intros ?; by apply (if_p_fresh o L p HL), freed_p_head).
  split; try done.
  - unfold freed. by rewrite length_insert.
  - intros b. rewrite freed_blocks. intros [->|Hb]%elem_of_cons; [|by apply Hbl]. done.
  - rewrite freed_blocks, frames_cons. apply NoDup_app. split_and!; [apply NoDup_seqZ|by apply Hfresh|done].
  - intros o' L' HL'. rewrite Hpg. unfold freed in HL'. apply list_lookup_insert_Some in HL' as [(<- & <- & _)|[Hne HL']].
    + unfold freed_pages. rewrite link_next_order by by apply hd_ptr_ne.
      destruct (Hdesc p) as [d Hd]; [pose proof (bsize_pos o); lia|].
      eapply dchain_push; [by rewrite lookup_alter_eq, Hd|done|done|by apply (fi_list_nodup HF _ _ HL)|done|by apply (fi_list_ok HF _ _ HL)|].
      apply (dchain_frame (pages s)); [|by apply Hch]. intros q Hq. rewrite lookup_alter_ne; [done|].
      intros E%(inj ptr). congruence.
    + eapply (changed_chain (p :: L)); [apply freed_changed; [left|by right]| |by apply Hch].
      intros q Hq [->|Hin]%elem_of_cons; [by apply (if_p_fresh o' L' p HL' Hq), freed_p_head|].
      destruct (fi_head_unique HF o L q o' q L' HL Hin HL'); [|done|done].
      apply elem_bpages. simpl. pose proof (bsize_pos o). lia.
  - intros f Hf. rewrite Hpg. eapply changed_some; [apply freed_changed_frames|by apply Hdesc].
Qed.
End insert.

Lemma MIN_ptr b p : MIN (ptr b) (ptr p) = ptr (Z.min p b).
Proof.
  unfold MIN, ptr, pfn_page, SIZEOF_PAGE. rewrite Z.gtb_ltb.
  destruct (Z.ltb_spec (page_data + 40 * p) (page_data + 40 * b)); f_equal; lia.
Qed.

(** ** [__pmm_free_order] *)

Section free.
Context `{BuildConfig}.

Lemma wp_free_insert s z nx lo hi F p o L Q :
  free_is s z nx lo hi F → aligned (p, o) → lo ≤ p ∧ p + bsize o ≤ hi ∧ pfn_ok p →
  (∀ f, f ∈ bpages (p, o) → f ∉ frames (fblocks F)) → F !! o = Some L →
  (∀ s', free_is s' z nx lo hi (freed (F := F) (p := p) (o := o) (L := L)) →
     zstep z (bpages (p, o) ++ frames (fblocks F)) s s' → Q tt s') →
  wp (h ← rd_list z (Z.of_nat o); dlist_set_next (ptr p) h;; wr_list z (Z.of_nat o) (ptr p);;
      wr_page (ptr p) (set_order (i8 (Z.of_nat o)))) s Q.
Proof.
  intros HF Hal Hb Hfresh HL HQ. pose proof (fi_order_lt HF _ _ HL) as Ho.
  pose proof Hb as (Hlo & Hhi & Hok). pose proof (bsize_pos o).
  assert (is_Some (pages s !! ptr p)) as Hp by (apply HF; lia).
  apply wp_bind, (fi_rd_list HF _ _ _ HL). apply wp_bind, wp_dlist_set_next; [done|done| |].
  { destruct L as [|q L]; [by left|right]. exists q. destruct (fi_elem_ok HF _ _ q HL) as [? ?]; [left|].
    split_and!; [done..|]. by apply (fi_desc _ _ _ _ _ _ HF). }
  apply wp_bind. eapply wp_wr_list; [apply HF|apply HF|simpl; rewrite length_fmap, (fi_len _ _ _ _ _ _ HF); lia|].
  apply wp_wr_page; [|done|].
  { eapply (changed_some (p :: L)); [|exact Hp]. apply changed_link_next; [left|].
    destruct L as [|q L]; [by left|right]. exists q. split; [done|]. right; left. }
  rewrite i8_small by done. apply HQ.
  - apply (freed_free HF Hal Hb Hfresh HL); [done|]. simpl. rewrite lookup_insert_eq. unfold zset_lists, freed. simpl.
    by rewrite list_fmap_insert.
  - split; [|intros; simpl; by rewrite lookup_insert_ne|done|done].
    eapply changed_mono; [|apply (freed_changed_frames HL)]. intros f. by rewrite (freed_blocks HL), frames_cons.
Qed.

(** The four statements that take the buddy out of its list. *)
Lemma wp_unlink_block s z nx lo hi F A p o l1 a l2 (rest : P unit) Q :
  in_flight s z nx lo hi F A p o → F !! o = Some (l1 ++ a :: buddy p o :: l2) →
  wp rest (unlink_state (s := s) (l2 := l2) (a := a)) Q →
  wp (prev ← dlist_get_prev (ptr (buddy p o)); next ← dlist_get_next (ptr (buddy p o));
      (if prev =? NULL then mret tt else dlist_set_next prev next);;
      (if next =? NULL then mret tt else dlist_set_prev next prev);; rest) s Q.
Proof.
  intros HI HL Hrest. pose proof (if_free _ _ _ _ _ _ _ _ _ HI) as HF. destruct (if_buddy HI) as (_ & _ & _ & Hbok & _).
  destruct (dchain_mid _ _ _ _ _ _ (fi_chain _ _ _ _ _ _ HF _ _ HL)) as (d & Hd & _ & Hn & Hp).
  assert (∀ x, x ∈ l1 ++ a :: buddy p o :: l2 → pfn_ok x ∧ is_Some (pages s !! ptr x)) as Hok.
  { intros x Hx. destruct (fi_elem_ok HF _ _ x HL Hx) as [? ?]. split; [done|]. by apply (fi_desc _ _ _ _ _ _ HF). }
  destruct (Hok a) as [Haok Ha]; [apply elem_of_app; right; left|].
  unfold dlist_get_prev, dlist_get_next. repeat apply wp_bind. eapply wp_rd_page; [done..|]. apply wp_ret.
  repeat apply wp_bind. eapply wp_rd_page; [done..|]. apply wp_ret. rewrite Hp, Hn.
  destruct (Z.eqb_spec (ptr a) NULL) as [E|_]; [by apply ptr_ne in E|].
  apply wp_bind, wp_dlist_set_next; [done|done| |].
  { destruct l2 as [|c l2]; [by left|right]. exists c. destruct (Hok c); [apply elem_of_app; do 3 right; left|]. done. }
  apply wp_bind. destruct l2 as [|c l2]; [exact Hrest|]. simpl hd_ptr.
  destruct (Hok c) as [Hcok Hc]; [apply elem_of_app; do 3 right; left|].
  destruct (Z.eqb_spec (ptr c) NULL) as [E|_]; [by apply ptr_ne in E|].
  assert (ptr c ≠ ptr a) as Hca.
  { intros ->%(inj ptr). pose proof (fi_list_nodup HF _ _ HL) as Hnd. apply NoDup_app in Hnd as (_ & _ & Hnd).
    apply NoDup_cons in Hnd as [Hnd _]. apply Hnd. right; left. }
  assert (changed [a; c] (pages s) (link_next (ptr a) (ptr c) (pages s))) as Hch.
  { apply changed_link_next; [left|right]. exists c. split; [done|right; left]. }
  apply wp_dlist_set_prev; [by eapply (changed_some _ _ _ _ Hch)|done|right; exists a; split_and!; [done..|by eapply (changed_some _ _ _ _ Hch)]|].
  unfold unlink_state in Hrest. simpl in Hrest. unfold upd_pages. simpl. rewrite link_prev_again; [exact Hrest|done|by apply ptr_ne..].
Qed.

(** The recursion ends, and the block's frames are free. *)
Lemma wp_pmm_free_rec fuel s z nx lo hi F A p o Q :
  in_flight s z nx lo hi F A p o → (12 - o ≤ fuel)%nat →
  (∀ s' F', free_is s' z nx lo hi F' → frames (fblocks F') ≡ₚ bpages (p, o) ++ frames (fblocks F) →
     zstep z (bpages (p, o) ++ frames (fblocks F)) s s' → Q tt s') →
  wp (pmm_free_rec fuel (ptr p) (Z.of_nat o) z) s Q.
Proof.
  revert s F p o. induction fuel as [|fuel IH]; intros s F p o HI Hfuel HQ.
  { pose proof (if_order _ _ _ _ _ _ _ _ _ HI). lia. }
  pose proof (if_free _ _ _ _ _ _ _ _ _ HI) as HF. destruct (if_bounds HI) as (_ & _ & Hok).
  destruct (if_buddy HI) as (_ & _ & _ & Hbok & Ham & Hmp & _).
  destruct (fi_lookup HF o) as [L HL]; [apply HI|].
  simpl. rewrite page_buddy_ptr, MIN_ptr by done. apply wp_bind. eapply wp_can_merge; [done..| |].
  - intros Hin. destruct (fi_tail HF _ _ _ HL Hin) as (l1 & a & l2 & -> & _).
    destruct (decide (o = 11%nat)) as [->|Hne].
    { exfalso. apply (if_room _ _ _ _ _ _ _ _ _ HI _ _ HL Hin).
      eapply same_group; [|exact Ham| |]; [done|rewrite Hmp; apply elem_of_app..].
      - right. apply freed_p_head.
      - left. apply freed_p_head. }
    pose proof (if_order _ _ _ _ _ _ _ _ _ HI). eapply wp_unlink_block; [done..|].
    replace (Z.of_nat o + 1) with (Z.of_nat (S o)) by lia.
    pose proof (merged_frames HL) as Hmf.
    assert (bpages (Z.min p (buddy p o), S o) ++ frames (fblocks (merged (F := F) (o := o) (l1 := l1) (l2 := l2) (a := a)))
              ≡ₚ bpages (p, o) ++ frames (fblocks F)) as E by by rewrite Hmp, Hmf, (assoc_L (++)).
    eapply IH; [apply (unlink_in_flight HI HL); lia|lia|]. intros s' F' HF' Hfr Hz.
    apply (HQ s' F'); [done|by rewrite Hfr, E|]. eapply zstep_trans; [|by eapply zstep_perm].
    destruct (unlink_step (s := s) (z := z) HL) as [? ? ? ?]. split; try done.
    eapply changed_mono; [|done]. intros f Hf. apply elem_of_app. by right.
  - intros _. eapply wp_free_insert; [exact HF|by eapply if_aligned|exact (if_bounds HI)|exact (if_fresh HI)|done|]. intros s' HF' Hz.
    apply (HQ s' _ HF'); [|done]. by rewrite (freed_blocks HL), frames_cons.
Qed.
End free.
