(* ===== verification/PmmSpec.v ===== *)
(** * Physical memory: the allocator's contract

    The zones of the machine with their ghost free lists and allocated blocks,
    the invariant [pmm_ok] that relates them to the state of
    kernel/mm/pmm.c, and what [pmm_alloc_order] and [pmm_free_order] do to
    the abstract pool. *)

From stdpp Require Import base list gmap.
From Stdlib Require Import ZArith Lia Bool.
From S2P Require Import Prelude Addr Pmm PmmInv PmmAlloc PmmFree.
Local Open Scope Z_scope.

(** ** One zone *)

Record zone_is (s : pstate) (z nx lo hi : Z) (F : list (list Z)) (A : list block) : Prop := {
  zo_free : free_is s z nx lo hi F;
  zo_part : frames (fblocks F ++ A) ≡ₚ seqZ lo (hi - lo);
  zo_alloc : ∀ b, b ∈ A → aligned b ∧ (b.2 < 12)%nat ∧ null_links (pages s) b
}.

Lemma zone_frames_in s z nx lo hi F A f :
  zone_is s z nx lo hi F A → f ∈ frames (fblocks F ++ A) → lo ≤ f < hi.
Proof. intros HZ. rewrite (zo_part _ _ _ _ _ _ _ HZ), elem_of_seqZ. lia. Qed.

Lemma zone_nodup s z nx lo hi F A : zone_is s z nx lo hi F A → NoDup (frames (fblocks F) ++ frames A).
Proof. intros HZ. rewrite <-frames_app, (zo_part _ _ _ _ _ _ _ HZ). apply NoDup_seqZ. Qed.

(** A step on another zone changes nothing here. *)
Lemma zone_is_frame s s' z z' X nx lo hi F A :
  zone_is s z nx lo hi F A → zstep z' X s s' → z' ≠ z → (∀ f, f ∈ X → ¬ lo ≤ f < hi) →
  zone_is s' z nx lo hi F A.
Proof.
  intros HZ [Hc Hz _ _] Hne HX. pose proof HZ as [HF Hp HA]. split; [|done|].
  - pose proof HF as [? Hhdr ? ? ? Hbl ? Hch Hd]. split; try done.
    + by rewrite Hz.
    + intros o L HL. eapply changed_chain; [done| |by apply Hch]. intros q Hq HqX.
      apply (HX q HqX). by apply (fi_elem_ok HF o L).
    + intros f Hf. eapply changed_some; [done|by apply Hd].
  - intros b Hb. destruct (HA b Hb) as (? & ? & ?). split_and!; [done..|].
    eapply null_links_frame; [done| |done]. intros Hin. apply (HX _ Hin).
    apply (zone_frames_in _ _ _ _ _ _ _ b.1 HZ). apply head_frame. apply elem_of_app. by right.
Qed.

(** A block taken from the free lists joins the allocated ones. *)
Lemma zone_is_alloc s s' z nx lo hi F F' A p o :
  zone_is s z nx lo hi F A → (o < 12)%nat → allocated s s' z nx lo hi F F' p o →
  zone_is s' z nx lo hi F' ((p, o) :: A).
Proof.
  intros HZ Ho [HF' Hfr Hal (d & Hd & Hn & Hp & _) _ [Hc _ _ _]].
  pose proof (zone_nodup _ _ _ _ _ _ _ HZ) as Hnd. apply NoDup_app in Hnd as (_ & Hdis & _). split; [done| |].
  - rewrite <-(zo_part _ _ _ _ _ _ _ HZ), !frames_app, frames_cons, Hfr.
    rewrite <-(assoc_L (++)). solve_Permutation.
  - intros b [->|Hb]%elem_of_cons.
    + split_and!; [done|done|]. exists d. done.
    + destruct (zo_alloc _ _ _ _ _ _ _ HZ b Hb) as (? & ? & ?). split_and!; [done..|].
      eapply null_links_frame; [done| |done]. intros Hin. apply (Hdis _ Hin). by apply head_frame.
Qed.

(** An allocated block may be given back. *)
Lemma zone_is_in_flight s z nx lo hi F A A' p o :
  zone_is s z nx lo hi F A → A ≡ₚ (p, o) :: A' → edge_ok (pages s) lo hi → room_above F p →
  in_flight s z nx lo hi F A' p o.
Proof.
  intros HZ HA He Hr. destruct (zo_alloc _ _ _ _ _ _ _ HZ (p, o)) as (Hal & Ho & _); [rewrite HA; left|].
  split; try done; [apply HZ| |].
  - rewrite <-(zo_part _ _ _ _ _ _ _ HZ), HA. apply frames_proper. solve_Permutation.
  - intros b Hb. destruct (zo_alloc _ _ _ _ _ _ _ HZ b) as (? & _ & ?); [rewrite HA; by right|]. done.
Qed.

Lemma zone_is_free s s' z nx lo hi F F' A A' p o :
  zone_is s z nx lo hi F A → A ≡ₚ (p, o) :: A' → free_is s' z nx lo hi F' →
  frames (fblocks F') ≡ₚ bpages (p, o) ++ frames (fblocks F) →
  zstep z (bpages (p, o) ++ frames (fblocks F)) s s' →
  zone_is s' z nx lo hi F' A'.
Proof.
  intros HZ HA HF' Hfr [Hc _ _ _]. pose proof (zone_nodup _ _ _ _ _ _ _ HZ) as Hnd.
  rewrite HA, frames_cons, (assoc_L (++)) in Hnd. apply NoDup_app in Hnd as (_ & Hdis & _). split; [done| |].
  - rewrite <-(zo_part _ _ _ _ _ _ _ HZ), HA, !frames_app, frames_cons, Hfr. rewrite <-(assoc_L (++)). solve_Permutation.
  - intros b Hb. destruct (zo_alloc _ _ _ _ _ _ _ HZ b) as (? & ? & ?); [rewrite HA; by right|]. split_and!; [done..|].
    eapply null_links_frame; [done| |done]. intros Hin. apply (Hdis b.1).
    + rewrite elem_of_app in *. tauto.
    + by apply head_frame.
Qed.

(** ** The list of zones *)

Record gzone := mk_gzone {
  gz : Z;
  glo : Z;
  ghi : Z;
  gF : list (list Z);
  gA : list block
}.

Definition zhead (Zs : list gzone) : Z := match Zs with [] => NULL | g :: _ => gz g end.

Fixpoint zones_ok (s : pstate) (Zs : list gzone) : Prop :=
  match Zs with
  | [] => True
  | g :: Zs => zone_is s (gz g) (zhead Zs) (glo g) (ghi g) (gF g) (gA g) ∧ zones_ok s Zs
  end.

Definition zbounds (Zs : list gzone) : list (Z * Z) := (λ g, (glo g, ghi g)) <$> Zs.

(** Zones are apart, with room for at least one frame (the header of the
    upper one) between them. *)
Definition apart (b b' : Z * Z) : Prop := b.2 < b'.1 ∨ b'.2 < b.1.

(** Frames next to a zone and in none have idle descriptors. *)
Definition gaps_idle (pg : gmap Z page) (B : list (Z * Z)) : Prop :=
  ∀ f b, 0 ≤ f → b ∈ B → f = b.2 ∨ b.1 - 2048 ≤ f < b.1 →
  (∀ b', b' ∈ B → ¬ b'.1 ≤ f < b'.2) → null_links pg (f, 0%nat).

Record pmm_ok (s : pstate) (Zs : list gzone) : Prop := {
  po_head : zone_list s = zhead Zs;
  po_lock : zone_list_lock s = 0;
  po_zones : zones_ok s Zs;
  po_nodup : NoDup (gz <$> Zs);
  po_apart : ∀ i j b b', zbounds Zs !! i = Some b → zbounds Zs !! j = Some b' → i ≠ j → apart b b';
  po_gaps : gaps_idle (pages s) (zbounds Zs)
}.

(** The abstract pool. *)
Definition pool_allocs (Zs : list gzone) : list block := concat (gA <$> Zs).
Definition pool_free (Zs : list gzone) : list Z := concat ((λ g, frames (fblocks (gF g))) <$> Zs).

Lemma zones_ok_at s Z1 g Z2 :
  zones_ok s (Z1 ++ g :: Z2) → zone_is s (gz g) (zhead Z2) (glo g) (ghi g) (gF g) (gA g).
Proof. induction Z1 as [|g1 Z1 IH]; simpl; tauto. Qed.

Lemma zones_ok_elem s Zs g :
  zones_ok s Zs → g ∈ Zs → ∃ nx, zone_is s (gz g) nx (glo g) (ghi g) (gF g) (gA g).
Proof. intros Hz (Z1 & Z2 & ->)%list_elem_of_split. eexists. by eapply zones_ok_at. Qed.

(** Replacing one zone by its new state. *)
Lemma zones_ok_update s s' Z1 g g' Z2 X :
  zones_ok s (Z1 ++ g :: Z2) → NoDup (gz <$> Z1 ++ g :: Z2) → gz g' = gz g →
  zstep (gz g) X s s' →
  (∀ h, h ∈ Z1 ++ Z2 → ∀ f, f ∈ X → ¬ glo h ≤ f < ghi h) →
  zone_is s' (gz g') (zhead Z2) (glo g') (ghi g') (gF g') (gA g') →
  zones_ok s' (Z1 ++ g' :: Z2).
Proof.
  intros Hz Hnd Hg Hs HX Hnew. induction Z1 as [|g1 Z1 IH]; simpl in *.
  - split; [done|]. destruct Hz as [_ Hz]. apply NoDup_cons in Hnd as [Hnd _]. clear Hnew.
    revert Hnd Hz HX. induction Z2 as [|g2 Z2 IH]; [done|]. intros Hnd Hz HX. simpl in *. destruct Hz as [Hz2 Hz]. split.
    + eapply zone_is_frame; [done..| |]; [|by apply HX; left].
      intros E. apply Hnd. rewrite E. left.
    + apply IH; [by intros ?; apply Hnd; right|done|]. intros h Hh. apply HX. by right.
  - destruct Hz as [Hz1 Hz]. apply NoDup_cons in Hnd as [Hn Hnd]. split.
    + replace (zhead (Z1 ++ g' :: Z2)) with (zhead (Z1 ++ g :: Z2)) by by destruct Z1.
      eapply zone_is_frame; [done..| |]; [|by apply HX; left].
      intros E. apply Hn. rewrite <-E, fmap_app. apply elem_of_app. right. left.
    + apply IH; [done|done|]. intros h Hh. apply HX. by right.
Qed.

Lemma zones_size s Zs : zones_ok s Zs → NoDup (gz <$> Zs) → (length Zs ≤ size (zones s))%nat.
Proof.
  intros Hz Hnd. rewrite <-(length_fmap gz), <-(size_dom (zones s)), <-(size_list_to_set (C := gset Z) _ Hnd).
  apply subseteq_size. intros z. rewrite elem_of_list_to_set, elem_of_dom.
  intros (g & -> & Hg)%list_elem_of_fmap. destruct (zones_ok_elem _ _ _ Hz Hg) as (nx & HZ).
  rewrite (fi_hdr _ _ _ _ _ _ (zo_free _ _ _ _ _ _ _ HZ)). eauto.
Qed.

Lemma zones_ok_lock v s Zs : zones_ok s Zs → zones_ok (upd_zl_lock v s) Zs.
Proof.
  induction Zs as [|g Zs IH]; [done|]. intros [[[? ? ? ? ? ? ? ? ?] ? ?] H2]. split; [|auto].
  split; [by split|done..].
Qed.

(** The rule for [slist_foreach] over the zones: [R] collects what is known of
    the zones passed. *)
Lemma wp_foreach_zone {B} (body : Z → P (option B)) (R : list gzone → Prop) s Zs Q :
  zone_list s = zhead Zs → zones_ok s Zs → NoDup (gz <$> Zs) →
  (∀ Z1 g Z2, Zs = Z1 ++ g :: Z2 → R Z1 →
     zone_is s (gz g) (zhead Z2) (glo g) (ghi g) (gF g) (gA g) →
     wp (body (gz g)) s (λ r s', match r with Some x => Q (Some x) s' | None => s' = s ∧ R (Z1 ++ [g]) end)) →
  R [] → (R Zs → Q None s) →
  wp (foreach_zone body) s Q.
Proof.
  intros Hl Hz Hnd Hbody H0 Hend.
  unfold foreach_zone. apply wp_bind, wp_get.
  apply (wp_loop (λ n z s', s' = s ∧ ∃ Z1 Z2, Zs = Z1 ++ Z2 ∧ z = zhead Z2 ∧ R Z1 ∧ n = length Z2)) with (n := length Zs).
  - intros n z s' (-> & Z1 & Z2 & E & -> & HR & ->). destruct Z2 as [|g Z2]; simpl zhead.
    { apply wp_ret. apply Hend. by rewrite E, app_nil_r. }
    assert (zone_is s (gz g) (zhead Z2) (glo g) (ghi g) (gF g) (gA g)) as HZ by (apply (zones_ok_at _ Z1); by rewrite <-E).
    pose proof (fi_addr _ _ _ _ _ _ (zo_free _ _ _ _ _ _ _ HZ)). destruct (Z.eqb_spec (gz g) NULL); [done|].
    eapply wp_seq; [by eapply Hbody|]. intros [x|] s' Hr; [by apply wp_ret|]. destruct Hr as [-> HR'].
    apply wp_bind. apply (fi_rd_zone _ (zo_free _ _ _ _ _ _ _ HZ)). apply wp_ret. simpl.
    exists (length Z2). split; [simpl; lia|]. split; [done|]. exists (Z1 ++ [g]), Z2.
    split_and!; [by rewrite <-(assoc_L (++))|done|done|done].
  - split; [done|]. by exists [], Zs.
  - pose proof (zones_size _ _ Hz Hnd). lia.
Qed.

(** ** Consequences of the invariant *)

Section pmm_ok.
Context {s : pstate} {Zs : list gzone}.
Hypothesis Hok : pmm_ok s Zs.

Lemma po_apart_split Z1 g Z2 h :
  Zs = Z1 ++ g :: Z2 → h ∈ Z1 ++ Z2 → apart (glo g, ghi g) (glo h, ghi h).
Proof using Hok.
  intros E Hh. pose proof (po_apart _ _ Hok) as Hap. rewrite E in Hap. unfold zbounds in Hap.
  rewrite fmap_app, fmap_cons in Hap. set (f := λ g : gzone, (glo g, ghi g)) in *.
  apply elem_of_app in Hh as [Hh|Hh]; apply list_elem_of_lookup in Hh as [i Hi];
    (assert (((f <$> Z1) ++ f g :: (f <$> Z2)) !! length Z1 = Some (f g)) as Hg
      by (apply list_lookup_middle; by rewrite length_fmap)).
  - apply (Hap _ i _ (f h) Hg); [|apply lookup_lt_Some in Hi; lia].
    rewrite lookup_app_l by (rewrite length_fmap; by eapply lookup_lt_Some). by rewrite list_lookup_fmap, Hi.
  - apply (Hap _ (length Z1 + S i)%nat _ (f h) Hg); [|lia].
    rewrite lookup_app_r by (rewrite length_fmap; lia). rewrite length_fmap.
    replace (length Z1 + S i - length Z1)%nat with (S i) by lia. simpl. by rewrite list_lookup_fmap, Hi.
Qed.

Lemma po_edge Z1 g Z2 : Zs = Z1 ++ g :: Z2 → glo g < ghi g → edge_ok (pages s) (glo g) (ghi g).
Proof using Hok.
  intros E Hlt b o Ho Hal Hb0 Hb. assert (g ∈ Zs) as Hg by (rewrite E; apply elem_of_app; right; left).
  assert (bsize o ≤ 2048) as Hsz by (change 2048 with (bsize 11); apply Z.pow_le_mono_r; lia).
  pose proof (bsize_pos o). destruct (decide (Exists (λ h, glo h ≤ b < ghi h) Zs)) as [Hex|Hno].
  - apply Exists_exists in Hex as (h & Hh & Hbh).
    assert (apart (glo g, ghi g) (glo h, ghi h)) as Hap.
    { apply (po_apart_split Z1 g Z2 h E). rewrite E, elem_of_app, elem_of_cons in Hh.
      apply elem_of_app. destruct Hh as [?|[->|?]]; [by left|lia|by right]. }
    unfold apart in Hap. simpl in Hap.
    destruct (zones_ok_elem _ _ _ (po_zones _ _ Hok) Hh) as (nx & HZ).
    assert (b ∈ frames (fblocks (gF h) ++ gA h)) as Hin.
    { rewrite (zo_part _ _ _ _ _ _ _ HZ). apply elem_of_seqZ. lia. }
    apply elem_frames in Hin as ([q o'] & Hbl & Hf).
    assert (aligned (q, o')) as Hal'.
    { apply elem_of_app in Hbl as [Hbl|Hbl]; [by apply (fi_block _ _ _ _ _ _ (zo_free _ _ _ _ _ _ _ HZ))|].
      by apply (zo_alloc _ _ _ _ _ _ _ HZ). }
    assert (b ∈ bpages (b, o)) as Hself by (apply elem_bpages; simpl; lia).
    destruct (decide (o ≤ o')%nat) as [Hle|Hgt].
    { exfalso. assert (glo g - 1 ∈ bpages (q, o')) as Hin.
      { eapply (aligned_nested b o); [done..|]. apply elem_bpages. simpl. lia. }
      assert (glo h ≤ glo g - 1 < ghi h); [|lia]. eapply zone_frames_in; [done|]. apply elem_frames. eauto. }
    assert (q = b) as ->.
    { assert (q ∈ bpages (b, o)) as Hq.
      { eapply (aligned_nested q o'); [done|done|lia|done..|]. apply elem_bpages. simpl. pose proof (bsize_pos o'). lia. }
      rewrite elem_bpages in Hq, Hf. simpl in *. lia. }
    apply elem_of_app in Hbl as [Hbl|Hbl].
    + apply elem_fblocks in Hbl as (L & HL & HbL).
      destruct (dchain_lookup _ _ _ _ (fi_chain _ _ _ _ _ _ (zo_free _ _ _ _ _ _ _ HZ) _ _ HL) HbL) as (d & Hd & Hdo).
      exists d. split; [done|]. right. lia.
    + destruct (zo_alloc _ _ _ _ _ _ _ HZ _ Hbl) as (_ & _ & d & Hd & ?). exists d. tauto.
  - destruct (po_gaps _ _ Hok b (glo g, ghi g)) as (d & Hd & ?); [done|by apply (list_elem_of_fmap_2 (λ g, (glo g, ghi g)))| |  |].
    + simpl. lia.
    + intros b' (h & -> & Hh)%list_elem_of_fmap Hr. apply Hno, Exists_exists. eauto.
    + exists d. tauto.
Qed.
End pmm_ok.

(** ** The operations on the pool *)

(** One zone of the pool changed while the lock was held. *)
Lemma pmm_ok_update s s' Z1 g F' A' Z2 X :
  pmm_ok s (Z1 ++ g :: Z2) →
  zstep (gz g) X (upd_zl_lock 1 s) s' → (∀ f, f ∈ X → glo g ≤ f < ghi g) →
  zone_is s' (gz g) (zhead Z2) (glo g) (ghi g) F' A' →
  pmm_ok (upd_zl_lock 0 s') (Z1 ++ mk_gzone (gz g) (glo g) (ghi g) F' A' :: Z2).
Proof.
  intros Hok Hs HX HZ. pose proof Hok as [Hh Hl Hz Hnd Hap Hg]. split; simpl.
  - rewrite (zs_list _ _ _ _ Hs). simpl. rewrite Hh. by destruct Z1.
  - done.
  - apply zones_ok_lock. eapply zones_ok_update; [by apply zones_ok_lock|done|done|done| |done].
    intros h Hh' f Hf. pose proof (po_apart_split Hok Z1 g Z2 h eq_refl Hh') as Hapart.
    unfold apart in Hapart. simpl in Hapart. pose proof (HX f Hf). lia.
  - rewrite fmap_app in *. done.
  - unfold zbounds in *. rewrite fmap_app in *. done.
  - replace (zbounds (Z1 ++ mk_gzone (gz g) (glo g) (ghi g) F' A' :: Z2)) with (zbounds (Z1 ++ g :: Z2))
      by (unfold zbounds; by rewrite !fmap_app).
    intros f b Hf Hb Hr Hno. eapply null_links_frame; [apply Hs| |by eapply Hg].
    intros Hin%HX. apply (Hno (glo g, ghi g)); [|done]. unfold zbounds. rewrite fmap_app. apply elem_of_app. right; left.
Qed.

Lemma pool_allocs_app Z1 Z2 : pool_allocs (Z1 ++ Z2) = pool_allocs Z1 ++ pool_allocs Z2.
Proof. unfold pool_allocs. by rewrite fmap_app, concat_app. Qed.
Lemma pool_free_app Z1 Z2 : pool_free (Z1 ++ Z2) = pool_free Z1 ++ pool_free Z2.
Proof. unfold pool_free. by rewrite fmap_app, concat_app. Qed.
Lemma pool_allocs_cons g Zs : pool_allocs (g :: Zs) = gA g ++ pool_allocs Zs.
Proof. done. Qed.
Lemma pool_free_cons g Zs : pool_free (g :: Zs) = frames (fblocks (gF g)) ++ pool_free Zs.
Proof. done. Qed.

(** No block of order [o] or more is free in any zone. *)
Definition exhausted (Zs : list gzone) (o : nat) : Prop :=
  ∀ g, g ∈ Zs → ∀ j, (o ≤ j < 12)%nat → gF g !! j = Some [].

(** The abstract allocation: a block of free, aligned frames changes sides. *)
Record pool_alloc (Zs Zs' : list gzone) (p : Z) (o : nat) : Prop := {
  pa_free : pool_free Zs ≡ₚ bpages (p, o) ++ pool_free Zs';
  pa_allocs : pool_allocs Zs' ≡ₚ (p, o) :: pool_allocs Zs;
  pa_aligned : aligned (p, o);
  pa_bounds : zbounds Zs' = zbounds Zs
}.

(** The abstract release. *)
Record pool_release (Zs Zs' : list gzone) (p : Z) (o : nat) : Prop := {
  pr_free : pool_free Zs' ≡ₚ bpages (p, o) ++ pool_free Zs;
  pr_allocs : pool_allocs Zs ≡ₚ (p, o) :: pool_allocs Zs';
  pr_bounds : zbounds Zs' = zbounds Zs
}.

(** Reference counts and locks of descriptors are not the allocator's. *)
Definition counts_kept (s s' : pstate) : Prop :=
  ∀ a d, pages s !! a = Some d →
  ∃ d', pages s' !! a = Some d' ∧ refcount d' = refcount d ∧ page_lock d' = page_lock d.

Lemma zstep_counts z X v s s' : zstep z X (upd_zl_lock v s) s' → counts_kept s s'.
Proof. by intros [[_ Hc] _ _ _]. Qed.

Section ops.
Context `{BuildConfig}.

Lemma wp_zl_lock s (Q : unit → pstate → Prop) :
  zone_list_lock s = 0 → Q tt (upd_zl_lock 1 s) → wp zl_lock s Q.
Proof. intros Hl HQ. unfold zl_lock. apply wp_bind, wp_get. rewrite Hl. done. Qed.

Lemma upd_zl_lock_id s : zone_list_lock s = 0 → upd_zl_lock 0 (upd_zl_lock 1 s) = s.
Proof. destruct s. simpl. by intros ->. Qed.

(** The search for a zone that can serve the request. *)
Lemma wp_alloc_search s Zs o Q :
  pmm_ok s Zs → (o < 12)%nat →
  (exhausted Zs o → Q None (upd_zl_lock 1 s)) →
  (∀ p s' Zs', pool_alloc Zs Zs' p o → pmm_ok (upd_zl_lock 0 s') Zs' → handed_out (pages s') p o → pfn_ok p →
     counts_kept s s' → Q (Some (ptr p)) s') →
  wp (foreach_zone (λ z, rv ← zone_alloc_order z (Z.of_nat o); mret (if rv =? NULL then None else Some rv)))
     (upd_zl_lock 1 s) Q.
Proof.
  intros Hok Ho Hnone Hsome. pose proof Hok as [Hh Hl Hz Hnd Hap Hg].
  eapply (wp_foreach_zone _ (λ Z1, exhausted Z1 o)); [done|by apply zones_ok_lock|done| |by intros g ?%elem_of_nil|done].
  intros Z1 g Z2 -> HR HZ. apply wp_bind. eapply wp_zone_alloc_order; [apply HZ|done| |].
  - intros Hempty. apply wp_ret. split; [done|]. intros g' [Hg'|Hg'%list_elem_of_singleton]%elem_of_app; [by apply HR|].
    by subst.
  - intros p F' s' Hal. apply wp_ret. pose proof (al_ok _ _ _ _ _ _ _ _ _ _ Hal) as Hpok.
    destruct (Z.eqb_spec (ptr p) NULL) as [E|_]; [by apply ptr_ne in E|].
    pose proof (zone_is_alloc _ _ _ _ _ _ _ _ _ _ _ HZ Ho Hal) as HZ'.
    eapply Hsome; [|eapply pmm_ok_update; [done|apply Hal| |exact HZ']|apply Hal|done|
      by eapply zstep_counts, al_step].
    + split; [|rewrite !pool_allocs_app, !pool_allocs_cons; simpl; solve_Permutation|by eapply al_aligned|unfold zbounds; by rewrite !fmap_app].
      rewrite !pool_free_app, !pool_free_cons. simpl. rewrite (al_frames _ _ _ _ _ _ _ _ _ _ Hal), <-(assoc_L (++)).
      solve_Permutation.
    + intros f Hf. eapply zone_frames_in; [exact HZ|]. rewrite frames_app. apply elem_of_app. by left.
Qed.

(** The zone of an allocated block. *)
Lemma wp_page_to_zone s Z1 g Z2 p Q :
  zone_list s = zhead (Z1 ++ g :: Z2) → zones_ok s (Z1 ++ g :: Z2) → NoDup (gz <$> Z1 ++ g :: Z2) →
  (∀ h, h ∈ Z1 → ¬ glo h ≤ p < ghi h) → glo g ≤ p < ghi g → pfn_ok p →
  Q (gz g) s → wp (page_to_zone (ptr p)) s Q.
Proof.
  intros Hh Hz Hnd Hbefore Hin Hpok HQ. unfold page_to_zone, ptr. rewrite page_to_phys_pfn by done.
  apply wp_bind. eapply (wp_foreach_zone _ (λ Y, ∃ Y', Z1 = Y ++ Y')); [done..| |by exists Z1|].
  - intros Y1 h Y2 E (Y' & HY) HZ. apply wp_bind. apply (fi_rd_zone _ (zo_free _ _ _ _ _ _ _ HZ)). apply wp_ret. simpl.
    assert (u64 (glo h * PAGE_SIZE + (ghi h - glo h) * PAGE_SIZE) = ghi h * PAGE_SIZE) as ->.
    { pose proof (fi_hi _ _ _ _ _ _ (zo_free _ _ _ _ _ _ _ HZ)). unfold pfn_ok, PAGE_SIZE in *.
      rewrite uwrap_id; [lia|]. unfold in_u. lia. }
    assert (((glo h * PAGE_SIZE <=? p * PAGE_SIZE) && (p * PAGE_SIZE <? ghi h * PAGE_SIZE)) =
            bool_decide (glo h ≤ p < ghi h)) as ->.
    { unfold PAGE_SIZE. apply eq_true_iff_eq. rewrite bool_decide_eq_true, andb_true_iff, Z.leb_le, Z.ltb_lt. lia. }
    rewrite HY, <-(assoc_L (++)) in E. apply app_inv_head in E. destruct Y' as [|y Y']; simpl in E; injection E as E1 E2.
    + subst h. rewrite bool_decide_eq_true_2 by done. by apply wp_ret.
    + subst y. rewrite bool_decide_eq_false_2; [|apply Hbefore; rewrite HY; apply elem_of_app; right; left].
      split; [done|]. exists Y'. by rewrite <-(assoc_L (++)).
  - intros (Y' & E). exfalso. apply (f_equal length) in E. rewrite !length_app in E. simpl in E. lia.
Qed.

(** The debug build's checks of the links of a page to be freed. *)
Lemma wp_debug_next (p : Z) d s (Q : unit → pstate → Prop) :
  pages s !! ptr p = Some d → pfn_ok p → pg_next d = NULL → Q tt s →
  wp (if DEBUG then n ← dlist_get_next (ptr p); kassert (n =? NULL) else mret tt) s Q.
Proof.
  intros Hd Hp Hn HQ. destruct DEBUG; [|done]. unfold dlist_get_next. repeat apply wp_bind.
  eapply wp_rd_page; [done..|]. apply wp_ret. rewrite Hn. by apply wp_kassert.
Qed.

Lemma wp_debug_prev (p : Z) d s (Q : unit → pstate → Prop) :
  pages s !! ptr p = Some d → pfn_ok p → pg_prev d = NULL → Q tt s →
  wp (if DEBUG then n ← dlist_get_prev (ptr p); kassert (n =? NULL) else mret tt) s Q.
Proof.
  intros Hd Hp Hn HQ. destruct DEBUG; [|done]. unfold dlist_get_prev. repeat apply wp_bind.
  eapply wp_rd_page; [done..|]. apply wp_ret. rewrite Hn. by apply wp_kassert.
Qed.

Lemma wp_pmm_free_order s Zs p o Q :
  pmm_ok s Zs → (p, o) ∈ pool_allocs Zs → (∀ g, g ∈ Zs → room_above (gF g) p) →
  (∀ s' Zs', pool_release Zs Zs' p o → pmm_ok s' Zs' → counts_kept s s' → Q tt s') →
  wp (pmm_free_order (ptr p) (Z.of_nat o)) s Q.
Proof.
  intros Hok Hin Hroom HQ. assert (∃ g, g ∈ Zs ∧ (p, o) ∈ gA g) as (g & Hg & Hpg).
  { clear Hok Hroom HQ. induction Zs as [|g Zs IH]; [by apply elem_of_nil in Hin|].
    rewrite pool_allocs_cons in Hin. apply elem_of_app in Hin as [?|(g' & ? & ?)%IH]; [by exists g; split; [left|]|].
    exists g'. split; [by right|done]. }
  apply list_elem_of_split in Hg as (Z1 & Z2 & ->). pose proof Hok as [Hh Hl Hz Hnd _ _].
  pose proof (zones_ok_at _ _ _ _ Hz) as HZ. pose proof (zones_ok_at _ _ _ _ (zones_ok_lock 1 _ _ Hz)) as HZl.
  apply elem_of_Permutation in Hpg as (A' & HA).
  destruct (zo_alloc _ _ _ _ _ _ _ HZ (p, o)) as (Hal & Ho & d & Hd & Hn & Hp); [rewrite HA; left|]. simpl in *.
  assert (glo g ≤ p < ghi g) as Hpr.
  { eapply zone_frames_in; [exact HZ|]. rewrite frames_app, HA, frames_cons, !elem_of_app. right; left. apply freed_p_head. }
  assert (pfn_ok p) as Hpok.
  { destruct (zo_free _ _ _ _ _ _ _ HZ) as [_ _ Hlo Hhi _ _ _ _ _]. unfold pfn_ok in *. lia. }
  assert (in_flight (upd_zl_lock 1 s) (gz g) (zhead Z2) (glo g) (ghi g) (gF g) A' p o) as HI.
  { eapply zone_is_in_flight; [exact HZl|done| |apply Hroom; apply elem_of_app; right; left].
    eapply (po_edge Hok); [done|lia]. }
  unfold pmm_free_order.
  apply wp_bind, wp_kassert_dbg; [by apply negb_true_iff, Z.eqb_neq, ptr_ne|].
  apply wp_bind, wp_kassert_dbg; [apply Z.ltb_lt; unfold MAX_ORDER; lia|].
  apply wp_bind, (wp_debug_next p d); [done..|].
  apply wp_bind, (wp_debug_prev p d); [done..|].
  apply wp_bind, wp_zl_lock; [done|]. apply wp_bind.
  eapply (wp_page_to_zone _ Z1 g Z2); [done|by apply zones_ok_lock|done| |done|done|].
  { intros h Hh'. pose proof (po_apart_split Hok Z1 g Z2 h eq_refl ltac:(apply elem_of_app; by left)) as Hap.
    unfold apart in Hap. simpl in Hap. lia. }
  pose proof (fi_addr _ _ _ _ _ _ (zo_free _ _ _ _ _ _ _ HZ)). destruct (Z.eqb_spec (gz g) NULL); [done|].
  apply wp_bind. eapply wp_pmm_free_rec; [exact HI|unfold free_fuel; lia|].
  intros s' F' HF' Hfr Hs. unfold zl_unlock. apply wp_modify.
  eapply HQ; [|eapply pmm_ok_update; [exact Hok|exact Hs| |exact (zone_is_free _ _ _ _ _ _ _ _ _ _ _ _ HZl HA HF' Hfr Hs)]|
    exact (zstep_counts _ _ _ _ _ Hs)].
  - split; [| |unfold zbounds; by rewrite !fmap_app].
    + rewrite !pool_free_app, !pool_free_cons. simpl. rewrite Hfr, <-(assoc_L (++)). solve_Permutation.
    + rewrite !pool_allocs_app, !pool_allocs_cons. simpl. rewrite HA. solve_Permutation.
  - intros f Hf. eapply zone_frames_in; [exact HZ|]. rewrite frames_app, HA, frames_cons, !elem_of_app.
    apply elem_of_app in Hf. tauto.
Qed.
End ops.

(** No frame is in two places, and allocated blocks are aligned. *)
Lemma pmm_pool_disjoint s Zs :
  pmm_ok s Zs → NoDup (frames (pool_allocs Zs) ++ pool_free Zs) ∧ Forall aligned (pool_allocs Zs).
Proof.
  intros [_ _ Hz _ Hap _]. assert (∀ g f, g ∈ Zs → f ∈ frames (gA g) ++ frames (fblocks (gF g)) → glo g ≤ f < ghi g) as Hin.
  { intros g f Hg Hf. destruct (zones_ok_elem _ _ _ Hz Hg) as (nx & HZ). eapply zone_frames_in; [exact HZ|].
    rewrite frames_app. rewrite elem_of_app in *. tauto. }
  induction Zs as [|g Zs IH]; [split; constructor|]. destruct Hz as [HZ Hz]. destruct IH as [IH1 IH2].
  - done.
  - intros i j b b' Hi Hj Hij. apply (Hap (S i) (S j) b b'); [done|done|lia].
  - intros g' f Hg'. apply Hin. by right.
  - split; [|apply Forall_app; split; [|done]; apply Forall_forall; intros b Hb; by apply (zo_alloc _ _ _ _ _ _ _ HZ)].
    rewrite pool_allocs_cons, pool_free_cons, frames_app.
    assert (frames (gA g) ++ frames (fblocks (gF g)) ++ (frames (pool_allocs Zs) ++ pool_free Zs) ≡ₚ
            (frames (gA g) ++ frames (pool_allocs Zs)) ++ frames (fblocks (gF g)) ++ pool_free Zs) as <- by solve_Permutation.
    rewrite (assoc_L (++)). apply NoDup_app. split_and!; [|intros f Hf Hf'|done].
    + rewrite Permutation_app_comm. by eapply zone_nodup.
    + pose proof (Hin g f ltac:(left) Hf).
      assert (∃ h, h ∈ Zs ∧ f ∈ frames (gA h) ++ frames (fblocks (gF h))) as (h & Hh & Hfh).
      { clear -Hf'. induction Zs as [|h Zs IH]; [by apply elem_of_nil in Hf'|].
        rewrite pool_allocs_cons, pool_free_cons, frames_app, !elem_of_app in Hf'.
        destruct (decide (f ∈ frames (gA h) ++ frames (fblocks (gF h)))) as [Hd|Hd]; [exists h; split; [left|done]|].
        rewrite elem_of_app in Hd. destruct IH as (h' & ? & ?); [rewrite elem_of_app; tauto|]. exists h'. split; [by right|done]. }
      pose proof (Hin h f ltac:(by right) Hfh). apply list_elem_of_lookup in Hh as [i Hi].
      pose proof (Hap O (S i) (glo g, ghi g) (glo h, ghi h) eq_refl) as Ha. simpl in Ha.
      unfold apart in Ha. simpl in Ha. destruct Ha; [unfold zbounds; by rewrite list_lookup_fmap, Hi|done|lia|lia].
Qed.

Lemma pmm_pool_nodup s Zs : pmm_ok s Zs → NoDup (frames (pool_allocs Zs) ++ pool_free Zs).
Proof. intros Hok. by apply pmm_pool_disjoint in Hok as [? _]. Qed.
