(* ===== verification/PmmInit.v ===== *)
(** * Physical memory: initialisation

    [init_zone] cuts the frames of a region into aligned blocks, the largest
    that fit from the bottom up, and puts every one of them on a free list. *)

From stdpp Require Import base list gmap.
From Stdlib Require Import ZArith Lia Bool.
From S2P Require Import Prelude Addr Pmm PmmInv PmmAlloc PmmFree PmmSpec.
Local Open Scope Z_scope.

(** [get_max_order] finds an order whose block is aligned and fits. *)
Lemma max_order_from_spec r start end_ :
  (r < 12)%nat → 0 ≤ start < end_ → end_ < 2 ^ 40 →
  ∃ o, max_order_from r start end_ = Z.of_nat o ∧ (o ≤ r)%nat ∧ aligned (start, o) ∧ start + bsize o ≤ end_.
Proof.
  intros Hr Hs He. induction r as [|r IH].
  - exists O. split_and!; [done|done|exists start; unfold bsize; simpl; lia|unfold bsize; simpl; lia].
  - destruct IH as (o & Eo & Ho & Hal & Hfit); [lia|].
    cbn [max_order_from]. rewrite Z.shiftl_1_l. change (2 ^ Z.of_nat (S r)) with (bsize (S r)).
    assert (bsize (S r) ≤ 2048) by (change 2048 with (bsize 11); apply Z.pow_le_mono_r; lia).
    pose proof (bsize_pos (S r)). rewrite uwrap_id by (unfold in_u; lia).
    rewrite Z.gtb_ltb. destruct (Z.ltb_spec end_ (start + bsize (S r))); [exists o; split_and!; [done|lia|done|done]|].
    unfold bsize at 1. rewrite ISALIGN_POW2_spec by lia. fold (bsize (S r)).
    destruct (Z.eqb_spec (start mod bsize (S r)) 0) as [Hm|]; [|exists o; split_and!; [done|lia|done|done]].
    assert (aligned (start, S r)) by (apply Z.mod_divide; simpl; [lia|done]).
    exists (S r). split_and!; [done|done|done|lia].
Qed.

Section init.
Context `{BuildConfig}.

Lemma zone_page lo k : 0 < lo → 0 ≤ k → pfn_ok (lo + k) →
  virt_to_page (phys_to_virt (u64 (lo * PAGE_SIZE + u64 (PAGE_SIZE * k)))) = ptr (lo + k) ∧
  u64 (lo * PAGE_SIZE + u64 (k * PAGE_SIZE)) = (lo + k) * PAGE_SIZE.
Proof.
  intros Hlo Hk Hok. unfold pfn_ok in Hok. rewrite (Z.mul_comm PAGE_SIZE k).
  rewrite (uwrap_id 64 (k * PAGE_SIZE)) by (unfold in_u, PAGE_SIZE; lia).
  rewrite uwrap_id by (unfold in_u, PAGE_SIZE; lia). split; [|lia].
  replace (lo * PAGE_SIZE + k * PAGE_SIZE) with ((lo + k) * PAGE_SIZE + 0) by lia.
  unfold virt_to_page. rewrite phys_to_virt_ok, virt_to_phys_ok by (unfold PAGE_SIZE; lia).
  apply phys_to_page_pfn; [done|lia|]. unfold PAGE_SIZE. lia.
Qed.

Lemma wp_init_insert s z nx lo hi F i Q :
  free_is s z nx lo hi F → frames (fblocks F) ≡ₚ seqZ lo i → 0 < lo → 0 ≤ i < hi - lo →
  (∀ s' F' o, free_is s' z nx lo hi F' → frames (fblocks F') ≡ₚ seqZ lo (i + bsize o) →
     i + bsize o ≤ hi - lo → zstep z (seqZ lo (hi - lo)) s s' → Q (i + bsize o) s') →
  wp (init_insert z i (hi - lo)) s Q.
Proof.
  intros HF Hfr Hlo Hi HQ. pose proof (fi_hi _ _ _ _ _ _ HF) as Hhi.
  assert (pfn_ok (lo + i)) as Hok by (unfold pfn_ok in *; lia).
  destruct (zone_page lo i) as [Epage Estart]; [lia|lia|done|].
  destruct (zone_page lo (hi - lo)) as [_ Eend]; [lia|lia|by replace (lo + (hi - lo)) with hi by lia|].
  replace (lo + (hi - lo)) with hi in Eend by lia.
  destruct (max_order_from_spec 11 (lo + i) hi) as (o & Eo & Ho & Hal & Hfit); [lia|lia|unfold pfn_ok in *; lia|].
  pose proof (bsize_pos o) as Hpos. destruct (fi_lookup HF o) as [L HL]; [lia|].
  assert (∀ f, f ∈ bpages (lo + i, o) → f ∉ frames (fblocks F)) as Hfresh.
  { intros f Hf. rewrite Hfr, elem_of_seqZ. apply elem_bpages in Hf. simpl in Hf. lia. }
  assert (is_Some (pages s !! ptr (lo + i))) as Hp by (apply (fi_desc _ _ _ _ _ _ HF); lia).
  unfold init_insert. apply wp_bind, (fi_rd_zone _ HF). simpl. unfold get_max_order.
  rewrite Epage, Estart, Eend, !Z.div_mul by done.
  change (Z.to_nat (MAX_ORDER - 1)) with 11%nat. rewrite Eo.
  repeat apply wp_bind. apply wp_kassert_dbg; [apply Z.ltb_lt; unfold MAX_ORDER; lia|]. apply wp_ret.
  rewrite i8_small by lia. apply wp_bind, wp_wr_page; [done|done|].
  apply wp_bind. eapply wp_rd_list; [apply HF|apply HF|simpl; by rewrite list_lookup_fmap, HL|].
  apply wp_bind, wp_dlist_set_next; [by apply is_Some_alter|done| |].
  { destruct L as [|q L]; [by left|right]. exists q. destruct (fi_elem_ok HF _ _ q HL) as [? ?]; [left|].
    split_and!; [done..|]. apply is_Some_alter. by apply (fi_desc _ _ _ _ _ _ HF). }
  apply wp_bind. eapply wp_wr_list; [apply HF|apply HF|simpl; rewrite length_fmap, (fi_len _ _ _ _ _ _ HF); lia|].
  apply wp_bind, wp_kassert_dbg.
  { unfold ptr. rewrite page_to_phys_pfn, Z.shiftl_1_l by done. fold (bsize o). unfold pfn_ok, PAGE_SIZE in *.
    rewrite !uwrap_id; [apply Z.leb_le; lia|unfold in_u..]; rewrite ?uwrap_id by (unfold in_u; lia); lia. }
  apply wp_ret. rewrite Z.shiftl_1_l. fold (bsize o). rewrite uwrap_id by (unfold in_u, pfn_ok in *; lia).
  assert (lo + i ∉ L) as HpL.
  { intros Hin. apply (Hfresh (lo + i)); [apply freed_p_head|]. by apply (head_frame (lo + i, o)), (fi_elem _ _ _ HL). }
  assert (frames (fblocks (<[o := lo + i :: L]> F)) ≡ₚ seqZ lo (i + bsize o)) as Hfr'.
  { rewrite (freed_blocks (p := lo + i) HL : fblocks (<[o := _]> F) ≡ₚ _), frames_cons, Hfr, Permutation_app_comm, seqZ_app by lia. done. }
  assert (lo ≤ lo + i ∧ lo + i + bsize o ≤ hi ∧ pfn_ok (lo + i)) as Hb by (split_and!; [lia|lia|done]).
  eapply HQ; [|exact Hfr'|lia|].
  - apply (freed_free HF Hal Hb Hfresh HL); [|simpl; rewrite lookup_insert_eq; unfold zset_lists, freed; simpl; by rewrite list_fmap_insert].
    unfold freed_pages. rewrite link_next_order by by apply hd_ptr_ne. done.
  - split; [|intros; simpl; by rewrite lookup_insert_ne|done|done].
    eapply changed_mono with (X := frames (fblocks (<[o := lo + i :: L]> F))).
    { intros f. rewrite Hfr', !elem_of_seqZ. lia. }
    pose proof (freed_changed_frames (s := s) HL (p := lo + i)) as Hch. unfold freed_pages in Hch.
    rewrite link_next_order in Hch by by apply hd_ptr_ne. exact Hch.
Qed.

(** The frames of a region: after the header, rounded up, as many as fit in
    the length less the rounding. *)
Definition region_lo (rg : mmap_region) : Z := (base rg + SIZEOF_ZONE + PAGE_SIZE - 1) / PAGE_SIZE.
Definition region_pad (rg : mmap_region) : Z := region_lo rg * PAGE_SIZE - (base rg + SIZEOF_ZONE).
Definition region_hi (rg : mmap_region) : Z := region_lo rg + (len rg - region_pad rg) / PAGE_SIZE.

(** A region of memory that [calc_available_pages] computes without wrapping. *)
Definition region_ok (rg : mmap_region) : Prop :=
  0 < base rg ∧ 0 ≤ len rg ∧ region_pad rg ≤ len rg ∧ pfn_ok (region_hi rg).

Lemma region_facts rg :
  region_ok rg →
  0 < region_lo rg ≤ region_hi rg ∧ 0 ≤ region_pad rg < PAGE_SIZE ∧
  ALIGNUP (u64 (base rg + SIZEOF_ZONE)) PAGE_SIZE = region_lo rg * PAGE_SIZE.
Proof.
  intros (Hb & Hl & Hp & Hh). unfold region_hi in *. unfold region_pad in *.
  pose proof (Z.div_mod (base rg + SIZEOF_ZONE + PAGE_SIZE - 1) PAGE_SIZE ltac:(done)) as Hd.
  pose proof (Z.mod_pos_bound (base rg + SIZEOF_ZONE + PAGE_SIZE - 1) PAGE_SIZE ltac:(done)) as Hm.
  fold (region_lo rg) in Hd. change SIZEOF_ZONE with 120 in *. unfold PAGE_SIZE in *.
  pose proof (Z.div_pos (len rg - (region_lo rg * 4096 - (base rg + 120))) 4096 ltac:(lia) ltac:(lia)).
  unfold pfn_ok in Hh. split_and!; [lia..|].
  rewrite (uwrap_id 64 (base rg + 120)) by (unfold in_u; lia).
  change 4096 with (2 ^ 12) at 1. rewrite ALIGNUP_spec by lia. unfold region_lo. change SIZEOF_ZONE with 120.
  change (2 ^ 12) with 4096. unfold PAGE_SIZE. lia.
Qed.

Lemma wp_calc_available_pages rg s Q :
  region_ok rg → Q (region_hi rg - region_lo rg) s → wp (calc_available_pages rg) s Q.
Proof.
  intros Hr HQ. destruct (region_facts rg Hr) as (Hlo & Hpad & E). destruct Hr as (Hb & Hl & Hp & Hh).
  unfold region_hi in HQ. replace (region_lo rg + _ - region_lo rg) with ((len rg - region_pad rg) / PAGE_SIZE) in HQ by lia.
  assert (base rg + SIZEOF_ZONE ≤ region_lo rg * PAGE_SIZE) by (unfold region_pad in *; lia).
  assert (region_lo rg * PAGE_SIZE < 2 ^ 40 ∧ len rg < 2 ^ 41) as [Hs1 Hs2].
  { unfold pfn_ok in Hh. split; [unfold PAGE_SIZE; lia|]. unfold region_hi in *.
    pose proof (Z.div_mod (len rg - region_pad rg) PAGE_SIZE ltac:(done)).
    pose proof (Z.mod_pos_bound (len rg - region_pad rg) PAGE_SIZE ltac:(done)). unfold PAGE_SIZE in *. lia. }
  unfold calc_available_pages. rewrite E.
  assert (u64 (len rg - u64 (region_lo rg * PAGE_SIZE - u64 (base rg + SIZEOF_ZONE))) = len rg - region_pad rg) as ->.
  { unfold region_pad in *. change SIZEOF_ZONE with 120 in *. rewrite (uwrap_id 64 (base rg + 120)) by (unfold in_u; lia).
    rewrite (uwrap_id 64 (_ - (base rg + 120))) by (unfold in_u; lia). apply uwrap_id. unfold in_u. lia. }
  apply wp_bind, wp_kassert_dbg; [apply Z.leb_le; lia|]. by apply wp_ret.
Qed.

(** The blocks of no list. *)
Lemma fblocks_empty : fblocks (replicate 12 []) = [].
Proof. done. Qed.

(** The memory behind a zone holds what is written to it. *)
Definition probe_ok (readback : Z → Z → Z) (rg : mmap_region) : Prop :=
  DEBUG = true → region_lo rg < region_hi rg → readback (probe_addr (phys_to_virt (base rg)) (region_hi rg - region_lo rg)) PROBE = PROBE.

Lemma wp_init_zone readback rg s Q :
  region_ok rg → probe_ok readback rg → (∀ f, region_lo rg ≤ f < region_hi rg → is_Some (pages s !! ptr f)) →
  (region_lo rg = region_hi rg → Q NULL s) →
  (∀ s' F, region_lo rg < region_hi rg →
     zone_is s' (phys_to_virt (base rg)) NULL (region_lo rg) (region_hi rg) F [] →
     zstep (phys_to_virt (base rg)) (seqZ (region_lo rg) (region_hi rg - region_lo rg)) s s' →
     Q (phys_to_virt (base rg)) s') →
  wp (init_zone readback rg) s Q.
Proof.
  intros Hr Hprobe Hdesc Hnone Hsome. destruct (region_facts rg Hr) as (Hlo & Hpad & E).
  pose proof Hr as (Hb & _ & _ & Hh). unfold pfn_ok in Hh. set (lo := region_lo rg) in *. set (hi := region_hi rg) in *.
  set (z := phys_to_virt (base rg)) in *. unfold init_zone. fold z. apply wp_bind, wp_calc_available_pages; [done|].
  fold lo hi. rewrite E. destruct (Z.eqb_spec (hi - lo) 0) as [H0|H0]; [apply wp_ret, Hnone; lia|].
  assert (z ≠ NULL) as Hz.
  { unfold z. rewrite phys_to_virt_ok; [unfold KERNEL_LOGICAL_BASE; lia|].
    unfold region_pad in *. fold lo in Hpad. unfold SIZEOF_ZONE, MAX_ORDER, PAGE_SIZE in *. lia. }
  apply wp_bind, wp_modify. rewrite (uwrap_id 64 ((hi - lo) * PAGE_SIZE)) by (unfold in_u, PAGE_SIZE; lia).
  set (s1 := upd_zones _ s).
  assert (free_is s1 z NULL lo hi (replicate 12 [])) as HF1.
  { split; try done; [|lia|by intros b ?%elem_of_nil|constructor|].
    - unfold s1. simpl. by rewrite lookup_insert_eq.
    - intros o L HL. apply lookup_replicate in HL as [-> _]. done. }
  assert (zstep z (seqZ lo (hi - lo)) s s1) as Hs1.
  { split; [apply changed_refl|intros; simpl; by rewrite lookup_insert_ne|done|done]. }
  clearbody s1. apply wp_bind.
  apply (wp_loop (λ n i s2, ∃ F, free_is s2 z NULL lo hi F ∧ frames (fblocks F) ≡ₚ seqZ lo i ∧ 0 ≤ i ≤ hi - lo ∧
                    n = Z.to_nat (hi - lo - i) ∧ zstep z (seqZ lo (hi - lo)) s s2)) with (n := Z.to_nat (hi - lo)).
  - intros n i s2 (F & HF & Hfr & Hi & -> & Hs2). destruct (Z.ltb_spec i (hi - lo)).
    + apply wp_bind. eapply wp_init_insert; [done|done|lia|lia|]. intros s3 F3 o HF3 Hfr3 Hi3 Hs3. apply wp_ret.
      pose proof (bsize_pos o). eexists. split; [|exists F3; split_and!; [done|done|lia|lia|done|by eapply zstep_trans]]. lia.
    + assert (i = hi - lo) as -> by lia. apply wp_bind, wp_kassert; [apply Z.eqb_refl|]. apply wp_bind.
      apply (wp_mono _ _ (λ _ s', s' = s2)); [destruct DEBUG eqn:ED; [apply wp_kassert; [apply Z.eqb_eq, Hprobe; [done|unfold lo, hi in *; lia]|done]|done]|].
      intros _ s' ->. apply wp_ret.
      apply (Hsome s2 F); [lia| |done]. split; [done|by rewrite app_nil_r|by intros b ?%elem_of_nil].
  - exists (replicate 12 []). split_and!; [done|rewrite fblocks_empty; done|lia|lia|lia|done].
  - lia.
Qed.
End init.
