(* ===== verification/PmmTheorems.v ===== *)
(** * Physical memory: theorems

    The contract of [pmm_alloc_order], [pmm_free_order] and [init_zone], and
    the places where kernel/mm/pmm.c does not keep it. *)

From stdpp Require Import base list gmap.
From Stdlib Require Import ZArith Lia Bool.
From S2P Require Import Prelude Addr Pmm PmmInv PmmAlloc PmmFree PmmSpec PmmInit.
Local Open Scope Z_scope.

(** ** A small machine *)

Module PmmDemo.

(** Frames 0 to 8 have descriptors; the zone is frames 6 and 7. *)
Definition idle_pages : gmap Z page :=
  list_to_map ((λ f, (ptr f, page_zero)) <$> seqZ 0 9).

Definition zone_at (h1 : Z) : zone :=
  mk_zone NULL (6 * PAGE_SIZE) (2 * PAGE_SIZE) [NULL; h1; NULL; NULL; NULL; NULL; NULL; NULL; NULL; NULL; NULL; NULL].

Definition zaddr : Z := phys_to_virt (5 * PAGE_SIZE).

(** The block of order 1 is free ... *)
Definition free_state : pstate :=
  mk_pstate (<[ptr 6 := mk_page NULL NULL 1 0 0]> idle_pages) {[zaddr := zone_at (ptr 6)]} zaddr 0.
Definition free_zone : gzone := mk_gzone zaddr 6 8 (<[1%nat := [6]]> (replicate 12 [])) [].

(** ... or handed out. *)
Definition used_state : pstate := mk_pstate idle_pages {[zaddr := zone_at NULL]} zaddr 0.
Definition used_zone : gzone := mk_gzone zaddr 6 8 (replicate 12 []) [(6, 1%nat)].

Lemma small_cases f : 0 ≤ f → f = 8 ∨ 6 - 2048 ≤ f < 6 → ¬ (6 ≤ f < 8) → f ∈ [0; 1; 2; 3; 4; 5; 8].
Proof.
  intros H0 H1 H2. rewrite !elem_of_cons. lia.
Qed.

Lemma gaps_idle_small pg :
  Forall (λ f, ∃ d, pg !! ptr f = Some d ∧ pg_next d = NULL ∧ pg_prev d = NULL) [0; 1; 2; 3; 4; 5; 8] →
  gaps_idle pg [(6, 8)].
Proof.
  intros Hall f b Hf ->%list_elem_of_singleton Hr Hno. rewrite Forall_forall in Hall. apply Hall.
  apply small_cases; [done|done|]. apply (Hno (6, 8)). left.
Qed.

Lemma one_zone_ok s g :
  zone_list s = gz g → zone_list_lock s = 0 → zone_is s (gz g) NULL (glo g) (ghi g) (gF g) (gA g) →
  gaps_idle (pages s) [(glo g, ghi g)] → pmm_ok s [g].
Proof.
  intros. split; try done.
  - simpl. apply NoDup_singleton.
  - intros i j b b' Hi Hj Hij. apply lookup_lt_Some in Hi, Hj. simpl in *. lia.
Qed.

Lemma free_state_ok : pmm_ok free_state [free_zone].
Proof.
  apply one_zone_ok; [done|done| |apply gaps_idle_small; repeat constructor; eexists; done]. split; [|done|by intros b ?%elem_of_nil].
  split; try done.
  - intros b Hb. change (fblocks (gF free_zone)) with [(6, 1%nat)] in Hb. apply list_elem_of_singleton in Hb as ->.
    split; [by exists 3|]. done.
  - change (frames (fblocks (gF free_zone))) with [6; 7]. apply (bool_decide_unpack (NoDup [6; 7])). done.
  - intros o L HL. destruct (decide (o = 1%nat)) as [->|].
    + injection HL as <-. split; [|done]. eexists. done.
    + change (gF free_zone) with (<[1%nat := [6]]> (replicate 12 ([] : list Z))) in HL.
      rewrite list_lookup_insert_ne in HL by done. by apply lookup_replicate in HL as [-> _].
  - intros f Hf. assert (f = 6 ∨ f = 7) as [->| ->] by (simpl in Hf; lia); eexists; done.
Qed.

Lemma used_state_ok : pmm_ok used_state [used_zone].
Proof.
  apply one_zone_ok; [done|done| |apply gaps_idle_small; repeat constructor; eexists; done]. split; [|done|].
  - split; try done; [by intros b ?%elem_of_nil|constructor| |].
    + intros o L HL. by apply lookup_replicate in HL as [-> _].
    + intros f Hf. assert (f = 6 ∨ f = 7) as [->| ->] by (simpl in Hf; lia); eexists; done.
  - intros b ->%list_elem_of_singleton. split_and!; [by exists 3|simpl; lia|]. eexists. done.
Qed.

(** A region of one header page and two frames. *)
Definition region : mmap_region := mk_region (5 * PAGE_SIZE) (3 * PAGE_SIZE) MMAP_NONE.
Definition empty_state : pstate := mk_pstate idle_pages ∅ NULL 0.
End PmmDemo.

Section theorems.
Context `{BuildConfig}.

(** C9: [pmm_alloc_order] keeps the invariant of the pool.  It hands out a block
    of the order asked for that was free, is aligned to its size and has clean
    links, moving exactly its frames from the free to the allocated side of
    some zone and touching no reference count; or it finds every list at or
    above the order empty in all zones and then panics or, when the caller
    allows failure, returns NULL with the state unchanged. *)
Theorem pmm_alloc_order_correct s Zs o alloc_flags :
  pmm_ok s Zs → (o < 12)%nat →
  (exhausted Zs o ∧
     pmm_alloc_order (Z.of_nat o) alloc_flags s =
       (if Z.land alloc_flags GFP_CAN_FAIL =? 0 then Panic else Ok (NULL, s))) ∨
  (∃ p s' Zs', pmm_alloc_order (Z.of_nat o) alloc_flags s = Ok (ptr p, s') ∧
     pool_alloc Zs Zs' p o ∧ pmm_ok s' Zs' ∧ handed_out (pages s') p o ∧ counts_kept s s').
Proof.
  intros Hok Ho. pose proof (po_lock _ _ Hok) as Hl.
  assert (wp (kassert (Z.of_nat o <? MAX_ORDER);; zl_lock;;
              foreach_zone (λ z, rv ← zone_alloc_order z (Z.of_nat o); mret (if rv =? NULL then None else Some rv))) s
    (λ r s', match r with
             | None => exhausted Zs o ∧ s' = upd_zl_lock 1 s
             | Some rv => ∃ p Zs', rv = ptr p ∧ pool_alloc Zs Zs' p o ∧ pmm_ok (upd_zl_lock 0 s') Zs' ∧
                            handed_out (pages s') p o ∧ counts_kept s s'
             end)) as Hwp.
  { apply wp_bind, wp_kassert; [apply Z.ltb_lt; unfold MAX_ORDER; lia|]. apply wp_bind, wp_zl_lock; [done|].
    eapply wp_alloc_search; [done|done|done|]. intros p s' Zs' ? ? ? ? ?. by exists p, Zs'. }
  apply wp_ok in Hwp as (r & s' & E & Hr). unfold pmm_alloc_order.
  unfold mbind, M_bind in E |- *. destruct (kassert (Z.of_nat o <? MAX_ORDER) s) as [[? s1]| | |]; [|done..].
  destruct (zl_lock s1) as [[? s2]| | |]; [|done..]. cbn beta in *. rewrite E. destruct r as [rv|].
  - right. destruct Hr as (p & Zs' & -> & ?). exists p, (upd_zl_lock 0 s'), Zs'. done.
  - left. destruct Hr as [Hex ->]. split; [done|]. simpl. destruct (Z.land alloc_flags GFP_CAN_FAIL =? 0); [done|].
    unfold mret, M_ret. by rewrite upd_zl_lock_id.
Qed.

(** C10: [pmm_free_order] of an allocated block returns, keeps the invariant of
    the pool and gives exactly the frames of the block back to the free side,
    whatever chain of merges it goes through, provided that no block of order
    11 it could merge with lies behind the head of its list. *)
Theorem pmm_free_order_correct s Zs p o :
  pmm_ok s Zs → (p, o) ∈ pool_allocs Zs → (∀ g, g ∈ Zs → room_above (gF g) p) →
  wp (pmm_free_order (ptr p) (Z.of_nat o)) s (λ _ s', ∃ Zs',
    pool_release Zs Zs' p o ∧ pmm_ok s' Zs' ∧ counts_kept s s').
Proof. intros Hok Hin Hroom. eapply wp_pmm_free_order; [done..|]. eauto. Qed.

(** [init_zone] on a region of memory whose frames have descriptors returns
    NULL when not a single frame is left after the header, and otherwise
    builds a zone in which every frame from the first page boundary after the
    header on is in exactly one aligned free block.  In the debug build the
    memory behind the zone has to pass the code's own test. *)
Theorem init_zone_correct readback s rg :
  region_ok rg → probe_ok readback rg → (∀ f, region_lo rg ≤ f < region_hi rg → is_Some (pages s !! ptr f)) →
  wp (init_zone readback rg) s (λ z s',
    (region_lo rg = region_hi rg ∧ z = NULL ∧ s' = s) ∨
    (z = phys_to_virt (base rg) ∧ (∃ F, zone_is s' z NULL (region_lo rg) (region_hi rg) F []) ∧
     zstep z (seqZ (region_lo rg) (region_hi rg - region_lo rg)) s s')).
Proof. intros Hr Hp Hd. eapply wp_init_zone; [done|done|done|by left|]. intros s' F Hlt HZ Hs. right. eauto. Qed.
End theorems.

(** At any moment no frame is in two allocated blocks, nor both allocated
    and free, and every allocated block is aligned to its size. *)
Theorem pmm_blocks_disjoint s Zs :
  pmm_ok s Zs → NoDup (frames (pool_allocs Zs) ++ pool_free Zs) ∧ Forall aligned (pool_allocs Zs).
Proof. apply pmm_pool_disjoint. Qed.

(** ** Witnesses *)

Lemma pmm_alloc_order_correct_witness :
  ∃ p s', pmm_alloc_order (H := debug_build) (Z.of_nat 0) GFP_NONE PmmDemo.free_state = Ok (ptr p, s') ∧
          aligned (p, 0%nat).
Proof.
  destruct (pmm_alloc_order_correct (H := debug_build) PmmDemo.free_state [PmmDemo.free_zone] 0 GFP_NONE
              PmmDemo.free_state_ok ltac:(lia)) as [[Hex _]|(p & s' & Zs' & E & Ha & _)].
  - specialize (Hex _ ltac:(left) 1%nat ltac:(lia)). discriminate Hex.
  - exists p, s'. split; [exact E|apply Ha].
Defined.

Lemma pmm_free_order_correct_witness :
  wp (pmm_free_order (H := debug_build) (ptr 6) (Z.of_nat 1)) PmmDemo.used_state
     (λ _ s', ∃ Zs', pool_release [PmmDemo.used_zone] Zs' 6 1 ∧ pmm_ok s' Zs' ∧ counts_kept PmmDemo.used_state s').
Proof.
  apply (pmm_free_order_correct (H := debug_build) PmmDemo.used_state [PmmDemo.used_zone] 6 1).
  - exact PmmDemo.used_state_ok.
  - left.
  - intros g ->%list_elem_of_singleton L q HL Hq. injection HL as <-. by apply elem_of_nil in Hq.
Defined.

Lemma init_zone_correct_witness :
  region_ok PmmDemo.region ∧
  wp (init_zone (H := debug_build) (λ _ v, v) PmmDemo.region) PmmDemo.empty_state (λ z s', (6 = 8 ∧ z = NULL ∧ s' = PmmDemo.empty_state) ∨
    (z = PmmDemo.zaddr ∧ (∃ F, zone_is s' z NULL 6 8 F []) ∧ zstep z (seqZ 6 2) PmmDemo.empty_state s')).
Proof.
  assert (region_ok PmmDemo.region) as Hr by (split_and!; vm_compute; done).
  split; [exact Hr|]. apply (init_zone_correct (H := debug_build) (λ _ v, v) PmmDemo.empty_state PmmDemo.region Hr ltac:(by intros _)).
  intros f Hf. change (6 ≤ f < 8) in Hf. assert (f = 6 ∨ f = 7) as [->| ->] by lia; eexists; reflexivity.
Defined.

Lemma pmm_blocks_disjoint_witness : NoDup (frames (pool_allocs [PmmDemo.used_zone]) ++ pool_free [PmmDemo.used_zone]).
Proof. apply (pmm_blocks_disjoint PmmDemo.used_state [PmmDemo.used_zone] PmmDemo.used_state_ok). Defined.

(** ** Where the code falls short *)

Module TopOrder.
(** A region of a header page and three blocks of order 11, frames 4096 to
    10239, and the descriptors the run below looks at. *)
Definition region : mmap_region := mk_region (4095 * PAGE_SIZE) ((1 + 3 * 2048) * PAGE_SIZE) MMAP_NONE.
Definition start : pstate :=
  mk_pstate (list_to_map ((λ f, (ptr f, page_zero)) <$> [0; 4096; 6144; 8192; 10240])) ∅ NULL 0.

(** All three blocks are allocated, the first and the third are freed. *)
Definition setup `{BuildConfig} : P (Z * Z * Z) :=
  z ← init_zone (λ _ v, v) region; modify (upd_zone_list z);;
  a ← pmm_alloc_order 11 GFP_NONE; b ← pmm_alloc_order 11 GFP_NONE; c ← pmm_alloc_order 11 GFP_NONE;
  pmm_free_order c 11;; pmm_free_order a 11;;
  mret (a, b, c).
Definition ready : pstate :=
  match setup (H := debug_build) start with Ok (_, s) => s | _ => start end.
End TopOrder.

(** There is no bound on the order in [__pmm_free_order].  With the blocks
    4096 and 8192 of order 11 free and 4096 behind the head of its list,
    freeing the block 6144 between them merges it with 4096 and goes on with
    order 12, an index outside [free_lists]. *)
Theorem pmm_free_top_order_out_of_bounds :
  TopOrder.setup (H := debug_build) TopOrder.start = Ok ((ptr 8192, ptr 6144, ptr 4096), TopOrder.ready) ∧
  pmm_free_order (H := debug_build) (ptr 6144) 11 TopOrder.ready = Fault.
Proof. split; vm_compute; reflexivity. Qed.

(** [calc_available_pages] does not subtract the zone header from the
    length: on a region that starts on a page boundary the frames it counts
    stay inside the region exactly when the length leaves a remainder below
    3976 modulo the page size. *)
Theorem calc_available_pages_overrun `{BuildConfig} s rg :
  region_ok rg → base rg mod PAGE_SIZE = 0 →
  wp (calc_available_pages rg) s (λ n _,
    ALIGNUP (u64 (base rg + SIZEOF_ZONE)) PAGE_SIZE + n * PAGE_SIZE ≤ base rg + len rg ↔
    len rg mod PAGE_SIZE < PAGE_SIZE - SIZEOF_ZONE).
Proof.
  intros Hr Ha. destruct (region_facts rg Hr) as (Hlo & Hpad & E). apply wp_calc_available_pages; [done|].
  rewrite E. unfold region_hi. destruct Hr as (Hb & Hl & Hp & _).
  replace (region_lo rg + (len rg - region_pad rg) / PAGE_SIZE - region_lo rg)
    with ((len rg - region_pad rg) / PAGE_SIZE) by lia.
  assert (region_lo rg * PAGE_SIZE = base rg + PAGE_SIZE) as Elo.
  { apply Z.div_exact in Ha; [|done]. unfold region_lo. rewrite Ha. change SIZEOF_ZONE with 120. unfold PAGE_SIZE.
    replace (4096 * (base rg / 4096) + 120 + 4096 - 1) with ((base rg / 4096 + 1) * 4096 + 119) by lia.
    rewrite Z.div_add_l by lia. change (119 / 4096) with 0. lia. }
  assert (region_pad rg = PAGE_SIZE - SIZEOF_ZONE) as Ep by (unfold region_pad; lia).
  rewrite Ep, Elo. change SIZEOF_ZONE with 120 in *. unfold PAGE_SIZE in *.
  pose proof (Z.div_mod (len rg) 4096 ltac:(lia)). pose proof (Z.mod_pos_bound (len rg) 4096 ltac:(lia)).
  pose proof (Z.div_mod (len rg - (4096 - 120)) 4096 ltac:(lia)).
  pose proof (Z.mod_pos_bound (len rg - (4096 - 120)) 4096 ltac:(lia)). lia.
Qed.

Lemma calc_available_pages_overrun_witness :
  wp (calc_available_pages (H := debug_build) (mk_region 0x100000 8191 MMAP_NONE)) PmmDemo.empty_state (λ n _,
    ALIGNUP (u64 (0x100000 + SIZEOF_ZONE)) PAGE_SIZE + n * PAGE_SIZE ≤ 0x100000 + 8191 ↔
    8191 mod PAGE_SIZE < PAGE_SIZE - SIZEOF_ZONE).
Proof.
  apply (calc_available_pages_overrun (H := debug_build) PmmDemo.empty_state (mk_region 0x100000 8191 MMAP_NONE));
    [split_and!; vm_compute; done|reflexivity].
Defined.

(** [reserve_page_data] prepares the descriptors of the frames from the
    region's base on, while the zone's frames start one page later: for a
    region of sixteen pages the descriptor of the zone's last frame, 0x10f, is
    neither mapped nor cleared. *)
Theorem reserve_page_data_misses_last :
  let rg := mk_region 0x100000 0x10000 MMAP_NONE in
  region_lo rg = 0x101 ∧ region_hi rg = 0x110 ∧
  wp (reserve_page_data (H := debug_build) (λ a, modify (upd_pages <[a := page_zero]>)) [rg]) (mk_pstate ∅ ∅ NULL 0) (λ _ s,
    pages s !! ptr 0x100 = Some page_zero ∧ pages s !! ptr 0x10F = None).
Proof. split; [done|]. split; [done|]. vm_compute. done. Qed.
