(* ===== verification/PmmStart.v ===== *)
(** * Physical memory: the start of the allocator

    [pmm_init] prepares the page descriptors of the available regions and
    builds the list of zones.  The theorem gives the first state of the
    invariant that allocating and freeing keep. *)

From stdpp Require Import base list gmap.
From Stdlib Require Import ZArith Lia Bool.
From S2P Require Import Prelude Addr Pmm PmmInv PmmAlloc PmmFree PmmSpec PmmInit PmmTheorems.
Local Open Scope Z_scope.

(** ** The regions *)

Definition bounds_of (rg : mmap_region) : Z * Z := (region_lo rg, region_hi rg).

(** The regions that hold at least one frame. *)
Definition usable (rgs : list mmap_region) : list mmap_region := filter (λ rg, region_lo rg < region_hi rg) rgs.

Definition spread (rgs : list mmap_region) : Prop :=
  ∀ i j r r', usable rgs !! i = Some r → usable rgs !! j = Some r' → i ≠ j → apart (bounds_of r) (bounds_of r').

(** Descriptors stay, unless they are cleared. *)
Record prepared (s s' : pstate) : Prop := {
  pd_zones : zones s' = zones s;
  pd_list : zone_list s' = zone_list s;
  pd_lock : zone_list_lock s' = zone_list_lock s;
  pd_pages a d : pages s !! a = Some d → ∃ d', pages s' !! a = Some d' ∧ (d' = d ∨ d' = page_zero)
}.

Lemma prepared_refl s : prepared s s.
Proof. split; eauto. Qed.

Lemma prepared_trans s1 s2 s3 : prepared s1 s2 → prepared s2 s3 → prepared s1 s3.
Proof.
  intros [? ? ? H1] [? ? ? H2]. split; try congruence. intros a d Hd.
  destruct (H1 a d Hd) as (d1 & Hd1 & E1). destruct (H2 a d1 Hd1) as (d2 & Hd2 & E2). exists d2. split; [done|].
  destruct E1, E2; subst; tauto.
Qed.

Lemma prepared_some s s' a : prepared s s' → is_Some (pages s !! a) → is_Some (pages s' !! a).
Proof. intros Hp [d Hd]. destruct (pd_pages _ _ Hp a d Hd) as (d' & Hd' & _). eauto. Qed.

Lemma prepared_gaps s s' B : prepared s s' → gaps_idle (pages s) B → gaps_idle (pages s') B.
Proof.
  intros Hp Hg f b Hf Hb Hr Hno. destruct (Hg f b Hf Hb Hr Hno) as (d & Hd & Hn & Hv).
  destruct (pd_pages _ _ Hp _ _ Hd) as (d' & Hd' & [->| ->]); eexists; done.
Qed.

(** ** Mapping and clearing the descriptors *)

Section start.
Context `{BuildConfig}.
Context (readback : Z → Z → Z) (ensure_mapped : Z → P unit).

(** Mapping the memory of a descriptor panics, or the descriptor is there
    afterwards and those that were there are as before. *)
Definition maps_descriptor : Prop :=
  ∀ a s, ensure_mapped a s = Panic ∨
    ∃ pg, ensure_mapped a s = Ok (tt, upd_pages (λ _, pg) s) ∧ pages s ⊆ pg ∧ is_Some (pg !! a).

Hypothesis Hmap : maps_descriptor.

(** [m] returns as [Q] says, unless mapping a descriptor panics. *)
Definition unless_panic {A} (m : P A) (s : pstate) (Q : A → pstate → Prop) : Prop :=
  (m s = Panic ∧ ∃ a s1, ensure_mapped a s1 = Panic) ∨ wp m s Q.

Lemma up_wp {A} (m : P A) s Q : wp m s Q → unless_panic m s Q.
Proof using Type. by right. Qed.

Lemma up_bind {A B} (m : P A) (k : A → P B) s Q :
  unless_panic m s (λ a s', unless_panic (k a) s' Q) → unless_panic (m ≫= k) s Q.
Proof using Type.
  intros [[E Hp]|Hm]; [left; split; [|done]; unfold mbind, M_bind; by rewrite E|].
  apply wp_ok in Hm as (a & s' & E & [[E' Hp]|Hk]); [left|right].
  - split; [|done]. unfold mbind, M_bind. by rewrite E.
  - apply wp_bind, wp_ok. eauto.
Qed.

(** What the memory holds where descriptors were set to zero. *)
Definition cleared (l : list Z) (pg pg' : gmap Z page) : Prop :=
  ∀ a, pg' !! a = if decide (a ∈ l) then Some page_zero else pg !! a.

Lemma wp_clear_page l s (Q : unit → pstate → Prop) :
  Forall (λ a, a ≠ NULL ∧ is_Some (pages s !! a)) l →
  (∀ pg, cleared l (pages s) pg → Q tt (upd_pages (λ _, pg) s)) →
  wp (foldr (λ a k, wr_page a (λ _, page_zero);; k) (mret tt) l) s Q.
Proof using Type.
  revert s. induction l as [|a l IH]; intros s Hl HQ; simpl.
  { apply wp_ret. specialize (HQ (pages s)). destruct s. apply HQ. intros b. by rewrite decide_False by apply not_elem_of_nil. }
  apply Forall_cons in Hl as [[Ha [d Hd]] Hl]. apply wp_bind. eapply wp_store; [exact Hd|done|]. apply IH.
  - eapply Forall_impl; [exact Hl|]. intros b [? ?]. split; [done|]. simpl. apply lookup_insert_is_Some'. by right.
  - intros pg Hpg. apply HQ. intros b. rewrite Hpg. simpl. destruct (decide (b ∈ l)) as [Hin|Hout].
    + by rewrite decide_True by by right.
    + destruct (decide (a = b)) as [->|Hne]; [by rewrite lookup_insert_eq, decide_True by left|].
      rewrite lookup_insert_ne, decide_False by (done || by intros [?|?]%elem_of_cons). done.
Qed.

Lemma ptr_address f : pfn_ok f → u64 (page_data + SIZEOF_PAGE * f) = ptr f ∧ ptr f ≠ NULL.
Proof using Type.
  intros Hf. unfold ptr, pfn_page, pfn_ok, page_data, KERNEL_PAGE_DATA, KERNEL_TEXT_BASE, KERNEL_PHYS_MAP_END, SIZEOF_PAGE in *.
  split; [apply uwrap_id; unfold in_u; lia|lia].
Qed.

Lemma wp_zero_pages start n s (Q : unit → pstate → Prop) :
  0 ≤ start → pfn_ok (start + n) → (∀ f, start ≤ f < start + n → is_Some (pages s !! ptr f)) →
  (∀ s', prepared s s' → (∀ f, start ≤ f < start + n → pages s' !! ptr f = Some page_zero) → Q tt s') →
  wp (zero_pages start n) s Q.
Proof using Type.
  intros H0 Hok Hs HQ. set (g := λ i, u64 (page_data + SIZEOF_PAGE * (start + i))).
  assert (∀ i, i ∈ seqZ 0 n → g i = ptr (start + i) ∧ ptr (start + i) ≠ NULL) as Hg.
  { intros i Hi%elem_of_seqZ. apply ptr_address. unfold pfn_ok in *. lia. }
  assert (zero_pages start n = foldr (λ a k, wr_page a (λ _, page_zero);; k) (mret tt) (g <$> seqZ 0 n)) as ->.
  { unfold zero_pages. generalize (seqZ 0 n). intros l. by induction l as [|i l IH]; simpl; [|rewrite IH]. }
  apply wp_clear_page.
  - apply Forall_fmap, Forall_forall. intros i Hi. simpl. destruct (Hg i Hi) as [-> ?]. apply elem_of_seqZ in Hi.
    split; [done|]. apply Hs. lia.
  - intros pg Hpg. apply HQ.
    + split; try done. intros a d Hd. simpl. rewrite Hpg. destruct (decide _); eauto.
    + intros f Hf. simpl. rewrite Hpg, decide_True; [done|]. apply list_elem_of_fmap. exists (f - start).
      assert (f - start ∈ seqZ 0 n) as Hi by (apply elem_of_seqZ; lia). destruct (Hg _ Hi) as [-> _]. split; [f_equal; lia|done].
Qed.

(** The loop that maps, from [pfn] on with [k] frames to go. *)
Lemma up_map_loop k e : ∀ pfn s (Q : unit → pstate → Prop),
  0 ≤ pfn → e = pfn + Z.of_nat k → pfn_ok e →
  (∀ s', prepared s s' → (∀ f, pfn ≤ f < e → is_Some (pages s' !! ptr f)) → Q tt s') →
  unless_panic (loop (S k) (λ pfn,
    if pfn <? e then ensure_mapped (u64 (page_data + SIZEOF_PAGE * pfn));; mret (inl (pfn + 1)) else mret (inr tt)) pfn) s Q.
Proof using Hmap.
  induction k as [|k IH]; intros pfn s Q H0 He Hok HQ.
  - apply up_wp. simpl. apply wp_bind. destruct (Z.ltb_spec pfn e); [lia|]. apply wp_ret, wp_ret, HQ; [apply prepared_refl|lia].
  - change (loop (S (S k)) ?b pfn) with (b pfn ≫= λ r, match r with inl b' => loop (S k) b b' | inr a => mret a end).
    apply up_bind. destruct (Z.ltb_spec pfn e); [|lia]. apply up_bind.
    destruct (ptr_address pfn) as [-> _]; [unfold pfn_ok in *; lia|].
    destruct (Hmap (ptr pfn) s) as [Hp|(pg & E & Hsub & Hin)]; [left; eauto|right].
    apply wp_ok. eexists _, _. split; [exact E|]. apply up_wp, wp_ret. apply IH; [lia|lia|done|]. intros s' Hpr Hd.
    assert (prepared s (upd_pages (λ _, pg) s)) as Hp0.
    { split; try done. intros x d Hx. exists d. split; [|by left]. by eapply lookup_weaken. }
    apply HQ; [by eapply prepared_trans|]. intros f Hf. destruct (decide (f = pfn)) as [->|]; [|apply Hd; lia].
    by eapply prepared_some.
Qed.

Lemma up_reserve_range start n s (Q : unit → pstate → Prop) :
  0 ≤ start → 0 ≤ n → pfn_ok (start / PAGE_SIZE + n) →
  (∀ s', prepared s s' → (∀ f, start / PAGE_SIZE ≤ f < start / PAGE_SIZE + n → pages s' !! ptr f = Some page_zero) → Q tt s') →
  unless_panic (reserve_page_data_range ensure_mapped start n) s Q.
Proof using Hmap.
  intros H0 Hn Hok HQ. unfold reserve_page_data_range. set (a := start / PAGE_SIZE) in *.
  assert (0 ≤ a) as Ha by (apply Z.div_pos; [done|unfold PAGE_SIZE; lia]).
  rewrite (uwrap_id 64 (a + n)) by (unfold pfn_ok, in_u in *; lia). apply up_bind.
  apply up_map_loop; [done|lia|done|]. intros s1 Hp1 Hs1. apply up_wp, wp_zero_pages; [done..|].
  intros s2 Hp2 Hz. apply HQ; [by eapply prepared_trans|done].
Qed.

(** The first frame whose descriptor is cleared is the first of the zone or the
    one before. *)
Lemma reserve_start rg : region_ok rg →
  0 ≤ ALIGNUP (base rg) PAGE_SIZE ∧ region_lo rg - 1 ≤ ALIGNUP (base rg) PAGE_SIZE / PAGE_SIZE ≤ region_lo rg.
Proof using Type.
  intros Hr. destruct (region_facts rg Hr) as (Hlo & Hpad & _). destruct Hr as (Hb & _ & _ & Hh).
  assert (base rg < 2 ^ 40) by (unfold pfn_ok, region_pad, PAGE_SIZE in *; change SIZEOF_ZONE with 120 in *; lia).
  assert (ALIGNUP (base rg) PAGE_SIZE = (base rg + 4096 - 1) / 4096 * 4096) as ->.
  { change PAGE_SIZE with (2 ^ 12). rewrite ALIGNUP_spec by lia. apply Z.mul_comm. }
  unfold PAGE_SIZE. rewrite Z.div_mul by lia.
  unfold region_lo. change SIZEOF_ZONE with 120. unfold PAGE_SIZE.
  pose proof (Z.div_mod (base rg + 4096 - 1) 4096 ltac:(lia)). pose proof (Z.mod_pos_bound (base rg + 4096 - 1) 4096 ltac:(lia)).
  pose proof (Z.div_mod (base rg + 120 + 4096 - 1) 4096 ltac:(lia)). pose proof (Z.mod_pos_bound (base rg + 120 + 4096 - 1) 4096 ltac:(lia)).
  lia.
Qed.

(** Afterwards every frame of a zone has a descriptor. *)
Definition described (rgs : list mmap_region) (s : pstate) : Prop :=
  ∀ rg f, rg ∈ rgs → region_lo rg ≤ f < region_hi rg → is_Some (pages s !! ptr f).

(** The descriptors of a region's frames are those that are reserved, except
    for the last frame's where the region starts on a page boundary: that one
    has to be there before. *)
Definition last_described (s : pstate) (rg : mmap_region) : Prop :=
  ALIGNUP (base rg) PAGE_SIZE / PAGE_SIZE = region_lo rg ∨ is_Some (pages s !! ptr (region_hi rg - 1)).

Lemma up_reserve_page_data rgs s (Q : unit → pstate → Prop) :
  Forall region_ok rgs → (∀ rg, rg ∈ usable rgs → last_described s rg) →
  (∀ s', prepared s s' → described rgs s' → Q tt s') →
  unless_panic (reserve_page_data ensure_mapped rgs) s Q.
Proof using Hmap.
  revert s Q. induction rgs as [|rg rgs IH]; intros s Q Hok Hlast HQ.
  { apply up_wp, wp_ret, HQ; [apply prepared_refl|]. by intros rg f ?%elem_of_nil. }
  apply Forall_cons in Hok as [Hrg Hok]. destruct (reserve_start rg Hrg) as [H0 Hs].
  destruct (region_facts rg Hrg) as (Hlo & _ & _). pose proof Hrg as (_ & _ & _ & Hh).
  unfold reserve_page_data. simpl. apply up_bind, up_wp, wp_calc_available_pages; [done|]. apply up_bind.
  apply up_reserve_range; [done|lia|unfold pfn_ok in *; lia|]. intros s1 Hp1 Hz1. apply IH; [done| |].
  { intros r Hr. destruct (Hlast r) as [?|?]; [unfold usable in *; rewrite filter_cons; case_decide; [by right|done]|by left|].
    right. by eapply prepared_some. }
  intros s2 Hp2 Hd2. apply HQ; [by eapply prepared_trans|]. intros r f Hr Hf.
  apply elem_of_cons in Hr as [->|Hr]; [|by apply (Hd2 r f)].
  eapply prepared_some; [exact Hp2|].
  destruct (decide (f < ALIGNUP (base rg) PAGE_SIZE / PAGE_SIZE + (region_hi rg - region_lo rg))).
  - rewrite Hz1 by lia. eauto.
  - replace f with (region_hi rg - 1) by lia. destruct (Hlast rg) as [?|?]; [unfold usable; rewrite filter_cons_True by lia; left|lia|].
    by eapply prepared_some.
Qed.

(** ** Linking the zones *)

Lemma zone_is_same s s' z nx lo hi F A :
  zone_is s z nx lo hi F A → pages s' = pages s → zones s' !! z = zones s !! z → zone_is s' z nx lo hi F A.
Proof using Type.
  intros [[? Hh ? ? ? ? ? Hc Hd] ? Ha] Hp Hz. rewrite <-Hz in Hh. rewrite <-Hp in Hc, Hd, Ha. by split; [split|..].
Qed.

Lemma zones_ok_same s s' Zs :
  zones_ok s Zs → pages s' = pages s → (∀ g, g ∈ Zs → zones s' !! gz g = zones s !! gz g) → zones_ok s' Zs.
Proof using Type.
  intros Hz Hp Hs. induction Zs as [|g Zs IH]; [done|]. destruct Hz as [H1 H2]. split.
  - eapply zone_is_same; [done..|]. apply Hs. left.
  - apply IH; [done|]. intros h Hh. apply Hs. by right.
Qed.

(** The list with the last zone's link set to a new one. *)
Definition linked (z z' : Z) (s : pstate) (zn : zone) : pstate := upd_zones <[z := zset_next z' zn]> s.

Lemma zones_ok_snoc s Z1 g g' zn :
  zones_ok s (Z1 ++ [g]) → NoDup (gz <$> Z1 ++ [g; g']) → zones s !! gz g = Some zn →
  zone_is s (gz g') NULL (glo g') (ghi g') (gF g') (gA g') →
  zones_ok (linked (gz g) (gz g') s zn) (Z1 ++ [g; g']).
Proof using Type.
  intros Hz Hnd Hzn Hg'. induction Z1 as [|h Z1 IH]; simpl in *.
  - apply NoDup_cons in Hnd as [Hne _]. rewrite list_elem_of_singleton in Hne. destruct Hz as [[HF Hp Ha] _]. split; [|split; [|done]].
    + split; [|done..]. destruct HF as [? Hh ? ? ? ? ? Hc Hd]. rewrite Hzn in Hh. injection Hh as ->. split; try done.
      simpl. by rewrite lookup_insert_eq.
    + eapply zone_is_same; [done|done|]. simpl. by rewrite lookup_insert_ne.
  - destruct Hz as [Hh Hz]. apply NoDup_cons in Hnd as [Hn Hnd]. split; [|by apply IH].
    replace (zhead (Z1 ++ [g; g'])) with (zhead (Z1 ++ [g])) by by destruct Z1.
    eapply zone_is_same; [done|done|]. simpl. rewrite lookup_insert_ne; [done|]. intros E. apply Hn. rewrite <-E, fmap_app.
    apply elem_of_app. right. left.
Qed.

(** The zones built so far; [tail] is the last one. *)
Record building (s : pstate) (Zs : list gzone) (tail : Z) : Prop := {
  bu_head : zone_list s = zhead Zs;
  bu_zones : zones_ok s Zs;
  bu_nodup : NoDup (gz <$> Zs);
  bu_tail : tail = default NULL (gz <$> last Zs)
}.

(** A new zone at the end of the list. *)
Lemma wp_append s Zs tail g (Q : unit → pstate → Prop) :
  building s Zs tail → zone_is s (gz g) NULL (glo g) (ghi g) (gF g) (gA g) → gz g ∉ gz <$> Zs →
  (∀ s', building s' (Zs ++ [g]) (gz g) → pages s' = pages s → zone_list_lock s' = zone_list_lock s → Q tt s') →
  wp (if tail =? NULL then modify (upd_zone_list (gz g)) else wr_zone tail (zset_next (gz g))) s Q.
Proof using Type.
  intros [Hh Hz Hnd ->] Hg Hnew HQ. destruct Zs as [|g0 Z1 _] using rev_ind; simpl.
  - apply wp_modify, HQ; [|done..]. split; [done| |apply NoDup_singleton|done]. split; [|done].
    by eapply zone_is_same.
  - rewrite last_snoc. simpl. pose proof (zones_ok_at _ _ _ _ Hz) as Hg0.
    pose proof (fi_addr _ _ _ _ _ _ (zo_free _ _ _ _ _ _ _ Hg0)) as Ha. destruct (Z.eqb_spec (gz g0) NULL); [done|].
    pose proof (fi_hdr _ _ _ _ _ _ (zo_free _ _ _ _ _ _ _ Hg0)) as Hhdr.
    assert (NoDup (gz <$> Z1 ++ [g0; g])) as Hnd'.
    { change [g0; g] with ([g0] ++ [g]). rewrite (assoc_L (++)), fmap_app. apply NoDup_app. split_and!; [done| |apply NoDup_singleton].
      intros x Hx ->%list_elem_of_singleton. done. }
    eapply wp_store; [exact Hhdr|done|]. apply HQ; [|done..]. rewrite <-(assoc_L (++)). split; [| |done|].
    + simpl. rewrite Hh. by destruct Z1.
    + by apply zones_ok_snoc.
    + by rewrite last_app.
Qed.

(** Regions that are apart have their headers at different addresses. *)
Lemma header_inj r r' :
  region_ok r → region_ok r' → region_lo r < region_hi r → region_lo r' < region_hi r' →
  apart (bounds_of r) (bounds_of r') → phys_to_virt (base r) ≠ phys_to_virt (base r').
Proof using Type.
  assert (∀ q, region_ok q → phys_to_virt (base q) = base q + KERNEL_LOGICAL_BASE) as Hpv.
  { intros q Hq. destruct (region_facts q Hq) as (Hlo & Hpad & _). destruct Hq as (Hb & _ & _ & Hh). apply phys_to_virt_ok.
    unfold pfn_ok, region_pad, PAGE_SIZE in *. change SIZEOF_ZONE with 120 in *. lia. }
  intros Hr Hr' Hu Hu' Ha E. rewrite !Hpv in E by done. assert (base r = base r') as Eb by lia.
  assert (region_lo r = region_lo r') by (unfold region_lo; by rewrite Eb). unfold apart, bounds_of in Ha. simpl in Ha. lia.
Qed.

Lemma spread_cons r rgs : spread (r :: rgs) → spread rgs.
Proof using Type.
  unfold spread, usable. rewrite filter_cons. case_decide; [|done]. intros Hs i j q q' Hi Hj Hne.
  apply (Hs (S i) (S j)); [done..|lia].
Qed.

Lemma spread_head r rgs q :
  spread (r :: rgs) → region_lo r < region_hi r → q ∈ usable rgs → apart (bounds_of r) (bounds_of q).
Proof using Type.
  unfold spread, usable. intros Hs Hr (j & Hj)%list_elem_of_lookup. rewrite filter_cons_True in Hs by done.
  by apply (Hs O (S j)).
Qed.

Definition clear_of (Zs : list gzone) (rgs : list mmap_region) : Prop :=
  ∀ g rg, g ∈ Zs → rg ∈ usable rgs → gz g ≠ phys_to_virt (base rg) ∧ apart (glo g, ghi g) (bounds_of rg).

(** The zones of the regions, all of their frames free. *)
Definition zones_for (rgs : list mmap_region) (Zs : list gzone) : Prop :=
  zbounds Zs = bounds_of <$> usable rgs ∧ Forall (λ g, gA g = []) Zs.

Definition region_frames (rgs : list mmap_region) : list Z :=
  concat ((λ rg, seqZ (region_lo rg) (region_hi rg - region_lo rg)) <$> usable rgs).

Lemma elem_region_frames f rgs : f ∈ region_frames rgs ↔ ∃ rg, rg ∈ usable rgs ∧ region_lo rg ≤ f < region_hi rg.
Proof using Type.
  unfold region_frames. induction (usable rgs) as [|rg l IH]; simpl.
  - split; [by intros ?%elem_of_nil|]. by intros (? & ?%elem_of_nil & _).
  - rewrite elem_of_app, IH, elem_of_seqZ. setoid_rewrite elem_of_cons. split.
    + intros [?|(r & ? & ?)]; [exists rg; split; [by left|lia]|exists r; split; [by right|done]].
    + intros (r & [->|?] & ?); [left; lia|right; by exists r].
Qed.

Lemma zones_ok_frame s s' z X Zs :
  zones_ok s Zs → zstep z X s s' → (∀ g, g ∈ Zs → z ≠ gz g ∧ ∀ f, f ∈ X → ¬ glo g ≤ f < ghi g) → zones_ok s' Zs.
Proof using Type.
  intros Hz Hs Hd. induction Zs as [|g Zs IH]; [done|]. destruct Hz as [H1 H2]. split.
  - destruct (Hd g) as [? ?]; [left|]. by eapply zone_is_frame.
  - apply IH; [done|]. intros h Hh. apply Hd. by right.
Qed.

Lemma region_frames_cons r rgs : region_frames rgs ⊆ region_frames (r :: rgs).
Proof using Type.
  intros f. rewrite !elem_region_frames. intros (q & Hq & Hf). exists q. split; [|done].
  unfold usable in *. rewrite filter_cons. case_decide; [by right|done].
Qed.

Lemma wp_link_zones rgs s Zs tail (Q : unit → pstate → Prop) :
  Forall region_ok rgs → Forall (probe_ok readback) rgs → described rgs s → spread rgs → building s Zs tail → clear_of Zs rgs →
  (∀ s' Zs' tail', building s' (Zs ++ Zs') tail' → zones_for rgs Zs' → zone_list_lock s' = zone_list_lock s →
     changed (region_frames rgs) (pages s) (pages s') → Q tt s') →
  wp (link_zones readback rgs tail) s Q.
Proof using Type.
  revert s Zs tail Q. induction rgs as [|rg rgs IH]; intros s Zs tail Q Hok Hpr Hd Hsp Hb Hcl HQ.
  { apply wp_ret. apply (HQ s [] tail); [by rewrite app_nil_r|done|done|apply changed_refl]. }
  apply Forall_cons in Hok as [Hrg Hok]. apply Forall_cons in Hpr as [Hpg Hpr]. assert (Hd' : described rgs s) by (intros r f Hr; apply Hd; by right).
  simpl. apply wp_bind, wp_init_zone; [done|done|intros f Hf; apply (Hd rg); [left|done]|..].
  - intros E. simpl. apply (IH s Zs); [done|done|done|by eapply spread_cons|done| |].
    + intros g r Hg Hr. apply Hcl; [done|]. unfold usable. rewrite filter_cons_False by lia. done.
    + intros s' Zs' tail' Hb' [Hbo Hfr] Hl Hc. apply (HQ s' Zs' tail'); [done| |done|by eapply changed_mono, Hc; apply region_frames_cons].
      split; [|done]. unfold usable. by rewrite filter_cons_False by lia.
  - intros s1 F Hlt HZ Hs1. set (g := mk_gzone (phys_to_virt (base rg)) (region_lo rg) (region_hi rg) F []).
    assert (rg ∈ usable (rg :: rgs)) as Hin by (unfold usable; rewrite filter_cons_True by lia; left).
    pose proof (fi_addr _ _ _ _ _ _ (zo_free _ _ _ _ _ _ _ HZ)) as Ha.
    destruct (Z.eqb_spec (phys_to_virt (base rg)) NULL); [done|]. apply wp_bind.
    assert (building s1 Zs tail) as Hb1.
    { destruct Hb as [Hh Hz Hnd Ht]. split; [by rewrite (zs_list _ _ _ _ Hs1)| |done..].
      eapply zones_ok_frame; [done|exact Hs1|]. intros h Hh'. destruct (Hcl h rg Hh' Hin) as [Hne Hap]. split; [done|].
      intros f Hf%elem_of_seqZ. unfold apart, bounds_of in Hap. simpl in Hap. lia. }
    apply (wp_append s1 Zs tail g); [done|done| |].
    { intros (h & E & Hh)%list_elem_of_fmap. by destruct (Hcl h rg Hh Hin) as [? _]. }
    intros s2 Hb2 Hp2 Hl2. apply (IH s2 (Zs ++ [g])); [done|done| |by eapply spread_cons|done| |].
    + intros r f Hr Hf. rewrite Hp2. destruct (Hd' r f Hr Hf) as [d Hdd].
      destruct (proj2 (zs_pages _ _ _ _ Hs1) _ _ Hdd) as (d' & -> & _). eauto.
    + intros h r Hh Hr. assert (Hr' : r ∈ usable (rg :: rgs)) by (unfold usable; rewrite filter_cons_True by lia; by right).
      apply elem_of_app in Hh as [Hh|Hh%list_elem_of_singleton]; [by apply Hcl|subst h]. simpl.
      pose proof (spread_head _ _ _ Hsp Hlt Hr) as Hap. split; [|done].
      apply list_elem_of_filter in Hr as [Hru Hr]. rewrite Forall_forall in Hok. apply header_inj; auto.
    + intros s' Zs' tail' Hb' [Hbo Hfr] Hl Hc. apply (HQ s' (g :: Zs') tail').
      * by rewrite <-(assoc_L (++)) in Hb'.
      * split; [|by constructor]. unfold usable. rewrite filter_cons_True by lia. unfold zbounds. rewrite !fmap_cons. by f_equal.
      * rewrite Hl, Hl2. apply Hs1.
      * eapply changed_trans; [|eapply changed_mono, Hc; apply region_frames_cons]. rewrite Hp2.
        eapply changed_mono, Hs1. intros f Hf%elem_of_seqZ. apply elem_region_frames. exists rg. split; [done|lia].
Qed.

Lemma zones_free s Zs rgs : zones_ok s Zs → zones_for rgs Zs → pool_free Zs ≡ₚ region_frames rgs ∧ pool_allocs Zs = [].
Proof using Type.
  unfold zones_for, region_frames. generalize (usable rgs) as l. induction Zs as [|g Zs IH]; intros l Hz [Hb Ha].
  - symmetry in Hb. apply fmap_nil_inv in Hb as ->. done.
  - destruct l as [|rg l]; [done|]. unfold zbounds in Hb. rewrite !fmap_cons in Hb. injection Hb as Hlo Hhi Hb.
    apply Forall_cons in Ha as [Hg Ha]. destruct Hz as [HZ Hz]. destruct (IH l Hz (conj Hb Ha)) as [IH1 IH2].
    rewrite pool_free_cons, pool_allocs_cons, IH1, IH2, Hg, fmap_cons. simpl. split; [|done].
    pose proof (zo_part _ _ _ _ _ _ _ HZ) as Hp. by rewrite Hg, app_nil_r, Hlo, Hhi in Hp; rewrite Hp.
Qed.
End start.

(** ** Theorem *)

(** What [pmm_init] is given: regions that do not touch, memory that passes the
    debug build's test, and the descriptor of the last frame of a region that
    starts on a page boundary, which the code does not prepare. *)
Record map_ready `{BuildConfig} (readback : Z → Z → Z) (s : pstate) (rgs : list mmap_region) : Prop := {
  mr_regions : Forall region_ok rgs;
  mr_apart : spread rgs;
  mr_probe : Forall (probe_ok readback) rgs;
  mr_last rg : rg ∈ usable rgs → last_described s rg
}.


(** Two regions, of three and four pages, over frames with descriptors. *)
Module StartRegions.
Definition rgs : list mmap_region :=
  [mk_region (5 * PAGE_SIZE) (3 * PAGE_SIZE) MMAP_NONE; mk_region (12 * PAGE_SIZE) (4 * PAGE_SIZE) MMAP_NONE].
Definition state : pstate := mk_pstate (list_to_map ((λ f, (ptr f, page_zero)) <$> seqZ 0 17)) ∅ NULL 0.

Lemma page_at f : 0 ≤ f < 17 → pages state !! ptr f = Some page_zero.
Proof.
  intros Hf. assert (Forall (λ f, pages state !! ptr f = Some page_zero) (seqZ 0 17)) as Hall.
  { let l := eval vm_compute in (seqZ 0 17) in change (seqZ 0 17) with l. repeat constructor. }
  rewrite Forall_forall in Hall. apply Hall, elem_of_seqZ. lia.
Qed.

Lemma bounds : bounds_of <$> usable rgs = [(6, 8); (13, 16)].
Proof. vm_compute. done. Qed.

Lemma ready : map_ready (H := debug_build) (λ _ v, v) state rgs.
Proof.
  split.
  - repeat constructor; vm_compute; done.
  - intros i j r r' Hi Hj Hne. assert (Hb : ∀ k q, usable rgs !! k = Some q → [(6, 8); (13, 16)] !! k = Some (bounds_of q)).
    { intros k q Hk. by rewrite <-bounds, list_lookup_fmap, Hk. }
    apply Hb in Hi, Hj. destruct i as [|[|i]], j as [|[|j]]; try done; injection Hi as Hlo Hhi; injection Hj as Hlo' Hhi';
      unfold apart, bounds_of; simpl; lia.
  - by repeat constructor.
  - intros rg Hrg%(list_elem_of_fmap_2 bounds_of). right. rewrite bounds, !elem_of_cons, elem_of_nil in Hrg.
    unfold bounds_of in Hrg. rewrite page_at; [eauto|]. destruct Hrg as [[= _ ->]|[[= _ ->]|[]]]; lia.
Qed.

Lemma idle : gaps_idle (pages state) [(6, 8); (13, 16)].
Proof.
  intros f b Hf Hb Hr _. exists page_zero. split; [|done]. apply page_at.
    rewrite !elem_of_cons, elem_of_nil in Hb. destruct Hb as [->|[->|[]]]; simpl in *; lia.
Qed.

(** A descriptor that is there is left, another is made; memory for them runs
    out at frame 64. *)
Definition mapping : Z → P unit := λ a,
  s ← get;
  if bool_decide (is_Some (pages s !! a)) then mret tt
  else if a <? ptr 64 then modify (upd_pages <[a := page_zero]>) else panic.

Lemma mapping_ok : maps_descriptor mapping.
Proof.
  intros a s. unfold mapping, mbind, M_bind, get. destruct (bool_decide _) eqn:E.
  - right. exists (pages s). apply bool_decide_eq_true in E. split_and!; [by destruct s|done|done].
  - destruct (a <? ptr 64); [right|by left]. apply bool_decide_eq_false in E. exists (<[a := page_zero]> (pages s)).
    split_and!; [done| |by rewrite lookup_insert_eq]. apply insert_subseteq. by apply eq_None_not_Some.
Qed.

(** The regions lie where there is memory for the descriptors. *)
Lemma no_panic : pmm_init (H := debug_build) (λ _ v, v) mapping rgs state ≠ Panic.
Proof.
  assert (match pmm_init (H := debug_build) (λ _ v, v) mapping rgs state with Ok _ => true | _ => false end = true) as E by by vm_compute.
  by destruct (pmm_init _ _ _ _).
Qed.
End StartRegions.

