(* ===== verification/Mmap.v ===== *)
(** * The boot memory map: code

    kernel/mm/mmap.c: the sorted arrays of available and reserved regions, and
    the allocator that serves requests before the buddy allocator runs.  The
    arrays keep their 128 slots, used or not, because [mmap_alloc_low] reads a
    slot again after deleting it. *)

From stdpp Require Import base list.
From Stdlib Require Import ZArith Lia Bool.
From S2P Require Import Prelude Addr Pmm.
Local Open Scope Z_scope.

Definition MMAP_MAX_REGIONS : Z := 128.
Definition MMAP_ALLOC_PA : Z := Z.shiftl 1 0.

Record mmap_type := mk_mtype {
  mcount : Z;                   (* uint32_t *)
  regions : list mmap_region    (* MMAP_MAX_REGIONS slots *)
}.

Record mmap := mk_mmap {
  highest_mapped : Z;
  available : mmap_type;
  reserved : mmap_type
}.

Definition upd_available t m := mk_mmap (highest_mapped m) t (reserved m).
Definition upd_reserved t m := mk_mmap (highest_mapped m) (available m) t.

(** [WITHIN(x, y, len)] *)
Definition WITHIN (x y len : Z) : bool := (x <=? y) && (u64 (x + len) >? y).

(** ** One array of regions *)

Abbreviation MT := (M mmap_type).

Definition rd_region (i : Z) : MT mmap_region :=
  t ← get;
  match (if i <? 0 then None else regions t !! Z.to_nat i) with Some r => mret r | None => fault end.
Definition wr_region (i : Z) (r : mmap_region) : MT unit :=
  rd_region i;;
  modify (λ t, mk_mtype (mcount t) (<[Z.to_nat i := r]> (regions t))).
Definition wr_count (n : Z) : MT unit := modify (λ t, mk_mtype n (regions t)).

(** [memmove(regions + dst, regions + src, n * sizeof ...)] inside the array. *)
Definition memmove_regions (dst src n : Z) : MT unit :=
  t ← get;
  if (0 <=? n) && (0 <=? dst) && (0 <=? src) && (dst + n <=? MMAP_MAX_REGIONS) && (src + n <=? MMAP_MAX_REGIONS)
  then
    let l := regions t in
    put (mk_mtype (mcount t)
           (take (Z.to_nat dst) l ++ take (Z.to_nat n) (drop (Z.to_nat src) l) ++ drop (Z.to_nat (dst + n)) l))
  else fault.

Section mmap.
Context `{BuildConfig}.

Definition mmap_delete_region (i : Z) : MT unit :=
  t ← get;
  kassert_dbg (i <? mcount t);;
  memmove_regions i (i + 1) (mcount t - i - 1);;
  wr_count (u32 (mcount t - 1)).

(** One round of the search of [mmap_insert_region]: [inr true] when the
    function returns, [inr false] when the loop is over. *)
Definition insert_round (addr len_ : Z) (flags_ : mmap_region_flags) (i : Z) : MT (Z + bool) :=
  t ← get;
  if negb (i <? mcount t) then mret (inr false)
  else
    rg ← rd_region i;
    let rg_addr := base rg in
    let rg_len := len rg in
    let overlap_check : MT (Z + bool) :=
      kassert_dbg (negb (WITHIN addr rg_addr len_) && negb (WITHIN rg_addr addr rg_len));;
      mret (inl (i + 1)) in
    if u64 (addr + len_) =? rg_addr then
      wr_region i (mk_region addr (u64 (rg_len + len_)) (flags rg));;
      overlap_check
    else if u64 (addr + len_) <? rg_addr then
      if mcount t =? MMAP_MAX_REGIONS then panic
      else
        memmove_regions (i + 1) i (mcount t - i);;
        wr_region i (mk_region addr len_ flags_);;
        wr_count (u32 (mcount t + 1));;
        mret (inr true)
    else if u64 (rg_addr + rg_len) =? addr then
      wr_region i (mk_region rg_addr (u64 (rg_len + len_)) (flags rg));;
      next_adjacent ← (if i <? mcount t - 1
                       then nx ← rd_region (i + 1); mret (u64 (addr + len_) =? base nx)
                       else mret false);
      (if next_adjacent : bool then
         nx ← rd_region (i + 1);
         cur ← rd_region i;
         wr_region i (mk_region (base cur) (u64 (len cur + len nx)) (flags cur));;
         mmap_delete_region (i + 1)
       else mret tt);;
      mret (inr true)
    else overlap_check.

Definition mmap_insert_region (addr len_ : Z) (flags_ : mmap_region_flags) : MT unit :=
  t ← get;
  kassert (mcount t <=? MMAP_MAX_REGIONS);;
  if len_ =? 0 then mret tt
  else
    returned ← loop (S (Z.to_nat (mcount t))) (insert_round addr len_ flags_) 0;
    if returned : bool then mret tt
    else
      t ← get;
      if mcount t =? MMAP_MAX_REGIONS then panic
      else
        wr_region (mcount t) (mk_region addr len_ flags_);;
        wr_count (u32 (mcount t + 1)).

(** ** Early allocation *)

Abbreviation MM := (M mmap).
Definition on_available {A} (m : MT A) : MM A := zoom available upd_available m.
Definition on_reserved {A} (m : MT A) : MM A := zoom reserved upd_reserved m.

Definition alloc_round (n alloc_flags i : Z) : MM (Z + option mmap_region) :=
  m ← get;
  if negb (i <? mcount (available m)) then mret (inr None)
  else
    rg ← on_available (rd_region i);
    if base rg >=? highest_mapped m then mret (inr None)
    else
      let pa := negb (Z.land alloc_flags MMAP_ALLOC_PA =? 0) in
      let effective_base := if pa then ALIGNUP (base rg) PAGE_SIZE else base rg in
      let effective_len := if pa then u64 (len rg - u64 (effective_base - base rg)) else len rg in
      let available_bytes := MIN (u64 (highest_mapped m - effective_base)) effective_len in
      if n <=? available_bytes then
        let remaining := available_bytes - n in
        let new_base := u64 (effective_base + n) in
        let old_rg := mk_region effective_base n (flags rg) in
        (if pa then
           let padded_base := base rg in
           let padded_len := u64 (effective_base - base rg) in
           on_available (mmap_delete_region i);;
           stale ← on_available (rd_region i);        (* [rg->flags] *)
           on_available (mmap_insert_region padded_base padded_len (flags stale))
         else on_available (mmap_delete_region i));;
        on_reserved (mmap_insert_region (base old_rg) (len old_rg) (flags old_rg));;
        (if 0 <? remaining then
           stale ← on_available (rd_region i);        (* [rg->flags] *)
           on_available (mmap_insert_region new_base remaining (flags stale))
         else mret tt);;
        kassert_dbg ((0 <? base old_rg) && (0 <? len old_rg));;
        mret (inr (Some old_rg))
      else mret (inl (i + 1)).

Definition mmap_alloc_low (n alloc_flags : Z) : MM mmap_region :=
  m ← get;
  r ← loop (S (Z.to_nat (mcount (available m)))) (alloc_round n alloc_flags) 0;
  match r with Some rg => mret rg | None => panic end.

(** ** The map from the boot loader *)

(** [struct multiboot_mmap_entry]; [MULTIBOOT_MEMORY_AVAILABLE] is type 1. *)
Record mmap_entry := mk_entry { me_addr : Z; me_len : Z; me_type : Z }.
Definition MULTIBOOT_MEMORY_AVAILABLE : Z := 1.

Definition init_entry (kern_end : Z) (e : mmap_entry) : MM unit :=
  if me_type e =? MULTIBOOT_MEMORY_AVAILABLE then
    if u64 (me_addr e + me_len e) <? kern_end then
      on_reserved (mmap_insert_region (me_addr e) (me_len e) MMAP_NONE)
    else if me_addr e <? kern_end then
      on_reserved (mmap_insert_region (me_addr e) (u64 (kern_end - me_addr e)) MMAP_NONE);;
      on_available (mmap_insert_region kern_end (u64 (me_len e - u64 (kern_end - me_addr e))) MMAP_NONE)
    else on_available (mmap_insert_region (me_addr e) (me_len e) MMAP_NONE)
  else on_reserved (mmap_insert_region (me_addr e) (me_len e) MMAP_NONE).

(** The loop of [mmap_init] over the entries of the boot loader's tag. *)
Fixpoint mmap_init (kern_end : Z) (entries : list mmap_entry) : MM unit :=
  match entries with
  | [] => modify (λ m, mk_mmap KERNEL_PHYS_MAP_END (available m) (reserved m))
  | e :: entries => init_entry kern_end e;; mmap_init kern_end entries
  end.
End mmap.
