(* ===== verification/MmapSpec.v ===== *)
(** * The boot memory map: proofs

    The used slots of an array of regions as a list, [mmap_insert_region] as
    insertion into that list, and what [mmap_alloc_low] takes from it. *)

From stdpp Require Import base list.
From Stdlib Require Import ZArith Lia Bool.
From S2P Require Import Prelude Addr Pmm Mmap.
Local Open Scope Z_scope.

(** ** Arrays and their used part *)

(** The first [mcount] slots are [v], the unused ones [rest]. *)
Record arr (t : mmap_type) (v rest : list mmap_region) : Prop := {
  arr_regions : regions t = v ++ rest;
  arr_count : mcount t = Z.of_nat (length v);
  arr_len : length (v ++ rest) = 128%nat
}.

Definition rend (r : mmap_region) : Z := base r + len r.

(** Regions are inside the address space, not empty, in order, and neither
    overlap nor touch. *)
Fixpoint sorted_from (b : Z) (v : list mmap_region) : Prop :=
  match v with
  | [] => True
  | r :: v => b < base r ∧ 0 < len r ∧ rend r < 2 ^ 64 ∧ sorted_from (rend r) v
  end.

Definition covers (v : list mmap_region) (x : Z) : Prop := ∃ r, r ∈ v ∧ base r ≤ x < rend r.

Lemma covers_nil x : covers [] x ↔ False.
Proof. split; [|done]. by intros (r & ?%elem_of_nil & _). Qed.
Lemma covers_cons r v x : covers (r :: v) x ↔ base r ≤ x < rend r ∨ covers v x.
Proof. unfold covers. setoid_rewrite elem_of_cons. naive_solver. Qed.
Lemma covers_app v w x : covers (v ++ w) x ↔ covers v x ∨ covers w x.
Proof. unfold covers. setoid_rewrite elem_of_app. naive_solver. Qed.

Lemma sorted_from_weaken b b' v : b' ≤ b → sorted_from b v → sorted_from b' v.
Proof. destruct v as [|r v]; [done|]. simpl. intuition lia. Qed.

Lemma sorted_from_lower b v r : sorted_from b v → r ∈ v → b < base r ∧ 0 < len r ∧ rend r < 2 ^ 64.
Proof.
  revert b. induction v as [|r' v IH]; intros b; [by intros _ ?%elem_of_nil|]. simpl.
  intros (Hb & Hl & He & Hv) [->|Hr]%elem_of_cons; [done|]. destruct (IH _ Hv Hr) as (? & ? & ?). unfold rend in *. lia.
Qed.

Lemma sorted_from_app b v r w :
  sorted_from b (v ++ r :: w) →
  sorted_from b v ∧ b < base r ∧ 0 < len r ∧ rend r < 2 ^ 64 ∧ (∀ q, q ∈ v → rend q < base r) ∧ sorted_from (rend r) w.
Proof.
  revert b. induction v as [|r' v IH]; intros b; simpl.
  - intros (? & ? & ? & ?). split_and!; try done. by intros q ?%elem_of_nil.
  - intros (? & ? & ? & Hs). destruct (IH _ Hs) as (? & ? & ? & ? & Hq & ?). split_and!; try done.
    + unfold rend in *. lia.
    + intros q [->|Hq']%elem_of_cons; [done|auto].
Qed.

(** ** Accesses *)

Lemma memmove_down {A} (v1 v2 rest : list A) r :
  take (length v1) ((v1 ++ r :: v2) ++ rest) ++
  take (length v2) (drop (length v1 + 1) ((v1 ++ r :: v2) ++ rest)) ++
  drop (length v1 + length v2) ((v1 ++ r :: v2) ++ rest) = (v1 ++ v2) ++ drop (length v2) (r :: v2) ++ rest.
Proof.
  rewrite <-(assoc_L (++) v1), take_app_length, !drop_app_add. simpl. rewrite drop_0, take_app_length.
  rewrite <-(assoc_L (++)). do 2 f_equal. rewrite app_comm_cons, drop_app_le by (simpl; lia). done.
Qed.

Lemma memmove_up {A} (v1 w rest : list A) x :
  take (length v1 + 1) ((v1 ++ w) ++ x :: rest) ++
  take (length w) (drop (length v1) ((v1 ++ w) ++ x :: rest)) ++
  drop (length v1 + S (length w)) ((v1 ++ w) ++ x :: rest) =
  v1 ++ take 1 (w ++ x :: rest) ++ w ++ rest.
Proof.
  rewrite <-(assoc_L (++) v1), take_app_add, !drop_app_add, drop_app_length, take_app_length.
  rewrite <-(assoc_L (++)). do 3 f_equal. replace (S (length w)) with (length w + 1)%nat by lia.
  by rewrite (drop_app_add w).
Qed.

Section acc.
Context `{BuildConfig}.

Lemma wp_rd_region t v1 r v2 rest i Q :
  arr t (v1 ++ r :: v2) rest → i = Z.of_nat (length v1) → Q r t → wp (rd_region i) t Q.
Proof.
  intros [Hr _ _] -> HQ. unfold rd_region. apply wp_bind, wp_get.
  destruct (Z.ltb_spec (Z.of_nat (length v1)) 0); [lia|].
  rewrite Hr, Nat2Z.id, <-(assoc_L (++)), <-app_comm_cons, list_lookup_middle by done. done.
Qed.

(** Any slot can be read. *)
Lemma wp_rd_any t v rest i Q :
  arr t v rest → 0 ≤ i < 128 → (∀ r, Q r t) → wp (rd_region i) t Q.
Proof.
  intros [Hr _ Hl] Hi HQ. unfold rd_region. apply wp_bind, wp_get. destruct (Z.ltb_spec i 0); [lia|].
  destruct (lookup_lt_is_Some_2 (regions t) (Z.to_nat i)) as [r ->]; [rewrite Hr; lia|]. apply HQ.
Qed.

Lemma wp_wr_region t v1 r v2 rest i r' Q :
  arr t (v1 ++ r :: v2) rest → i = Z.of_nat (length v1) →
  (∀ t', arr t' (v1 ++ r' :: v2) rest → mcount t' = mcount t → Q tt t') → wp (wr_region i r') t Q.
Proof.
  intros Ha Hi HQ. unfold wr_region. apply wp_bind. eapply wp_rd_region; [done..|]. apply wp_modify, HQ; [|done].
  destruct Ha as [Hr Hc Hl]. subst i. split; simpl.
  - rewrite Hr, Nat2Z.id, <-!(assoc_L (++)). rewrite insert_app_r_alt, Nat.sub_diag by lia. done.
  - by rewrite Hc, !length_app.
  - rewrite !length_app in *. done.
Qed.

Lemma wp_delete t v1 r v2 rest i Q :
  arr t (v1 ++ r :: v2) rest → i = Z.of_nat (length v1) →
  (∀ t' rest', arr t' (v1 ++ v2) rest' → Q tt t') → wp (mmap_delete_region i) t Q.
Proof.
  intros [Hr Hc Hl] -> HQ. rewrite !length_app in Hl. rewrite length_app in Hc. simpl in *. unfold mmap_delete_region. apply wp_bind, wp_get.
  apply wp_bind, wp_kassert_dbg; [apply Z.ltb_lt; lia|]. apply wp_bind. unfold memmove_regions. apply wp_bind, wp_get.
  replace (mcount t - Z.of_nat (length v1) - 1) with (Z.of_nat (length v2)) by lia.
  match goal with |- wp (if ?c then _ else _) _ _ => replace c with true end.
  2:{ symmetry. unfold MMAP_MAX_REGIONS. rewrite !andb_true_iff, !Z.leb_le. lia. }
  apply wp_put. unfold wr_count. apply wp_modify. eapply (HQ _ (drop (length v2) (r :: v2) ++ rest)). split; simpl.
  - rewrite Hr. replace (Z.to_nat (Z.of_nat (length v1) + 1)) with (length v1 + 1)%nat by lia.
    replace (Z.to_nat (Z.of_nat (length v1) + Z.of_nat (length v2))) with (length v1 + length v2)%nat by lia.
    rewrite !Nat2Z.id. apply memmove_down.
  - rewrite uwrap_id by (unfold in_u; lia). rewrite length_app. lia.
  - rewrite !length_app, length_drop. simpl. lia.
Qed.

Lemma wp_shift_insert t v1 r v2 rest i new Q :
  arr t (v1 ++ r :: v2) rest → i = Z.of_nat (length v1) → (length (v1 ++ r :: v2) < 128)%nat →
  (∀ t' rest', arr t' (v1 ++ new :: r :: v2) rest' → Q (inr true) t') →
  wp (memmove_regions (i + 1) i (mcount t - i);; wr_region i new;; wr_count (u32 (mcount t + 1));;
      mret (inr true : Z + bool)) t Q.
Proof.
  intros [Hr Hc Hl] -> Hlt HQ. rewrite !length_app in Hl. rewrite length_app in Hc, Hlt. simpl in *. apply wp_bind. unfold memmove_regions. apply wp_bind, wp_get.
  replace (mcount t - Z.of_nat (length v1)) with (Z.of_nat (S (length v2))) by lia.
  match goal with |- wp (if ?c then _ else _) _ _ => replace c with true end.
  2:{ symmetry. unfold MMAP_MAX_REGIONS. rewrite !andb_true_iff, !Z.leb_le. lia. }
  apply wp_put. destruct rest as [|x rest]; [simpl in Hl; lia|].
  set (t1 := mk_mtype _ _). assert (regions t1 = v1 ++ r :: (r :: v2) ++ rest) as Hr1.
  { unfold t1. simpl regions. rewrite Hr.
    replace (Z.to_nat (Z.of_nat (length v1) + 1)) with (length v1 + 1)%nat by lia.
    replace (Z.to_nat (Z.of_nat (length v1) + 1 + Z.of_nat (S (length v2)))) with (length v1 + (S (length (r :: v2))))%nat by (simpl; lia).
    rewrite !Nat2Z.id. apply (memmove_up v1 (r :: v2)). }
  clearbody t1. apply wp_bind. unfold wr_region. apply wp_bind. unfold rd_region. apply wp_bind, wp_get.
  destruct (Z.ltb_spec (Z.of_nat (length v1)) 0); [lia|].
  rewrite Hr1, Nat2Z.id, list_lookup_middle by done. apply wp_ret. apply wp_modify. apply wp_bind. unfold wr_count. apply wp_modify.
  apply wp_ret. eapply (HQ _ rest). split; simpl.
  - rewrite Hr1. rewrite insert_app_r_alt, Nat.sub_diag by lia. by rewrite <-(assoc_L (++)).
  - rewrite uwrap_id by (unfold in_u; lia). rewrite length_app. simpl. lia.
  - rewrite !length_app. simpl in *. lia.
Qed.
End acc.

(** ** Insertion *)

Fixpoint region_insert (addr n : Z) (fl : mmap_region_flags) (v : list mmap_region) : list mmap_region :=
  match v with
  | [] => [mk_region addr n fl]
  | r :: v' =>
      if addr + n <? base r then mk_region addr n fl :: v
      else if rend r =? addr then
        match v' with
        | nx :: v'' =>
            if addr + n =? base nx then mk_region (base r) (len r + n + len nx) (flags r) :: v''
            else mk_region (base r) (len r + n) (flags r) :: v'
        | [] => [mk_region (base r) (len r + n) (flags r)]
        end
      else r :: region_insert addr n fl v'
  end.

(** A block that may be added: inside the address space, apart from every
    region, and not ending where a region starts, unless it closes the gap to
    the one before. *)
Record insertable (v : list mmap_region) (addr n : Z) : Prop := {
  in_pos : 0 < n;
  in_low : 0 ≤ addr;
  in_high : addr + n < 2 ^ 64;
  in_apart : ∀ r, r ∈ v → addr + n ≤ base r ∨ rend r ≤ addr;
  in_below : ∀ r, r ∈ v → addr + n = base r → ∃ r', r' ∈ v ∧ rend r' = addr
}.

Lemma region_insert_covers addr n fl v b x :
  insertable v addr n → sorted_from b v →
  covers (region_insert addr n fl v) x ↔ covers v x ∨ addr ≤ x < addr + n.
Proof.
  intros Hi. pose proof (in_pos _ _ _ Hi). clear Hi. revert b. induction v as [|r v IH]; intros b Hs; simpl.
  - rewrite covers_cons, covers_nil. unfold rend. simpl. tauto.
  - destruct Hs as (? & ? & ? & Hs). destruct (Z.ltb_spec (addr + n) (base r)).
    { rewrite !covers_cons. unfold rend. simpl. tauto. }
    destruct (Z.eqb_spec (rend r) addr) as [E|].
    + destruct v as [|nx v]; [rewrite !covers_cons, covers_nil; unfold rend in *; simpl; lia|].
      destruct (Z.eqb_spec (addr + n) (base nx)) as [E'|]; rewrite !covers_cons; unfold rend in *; simpl in *.
      * destruct Hs as (? & ? & ?). assert (base r ≤ x < base r + (len r + n + len nx) ↔
          base r ≤ x < base r + len r ∨ base nx ≤ x < base nx + len nx ∨ addr ≤ x < addr + n) by lia. tauto.
      * assert (base r ≤ x < base r + (len r + n) ↔ base r ≤ x < base r + len r ∨ addr ≤ x < addr + n) by lia. tauto.
    + rewrite !covers_cons, (IH _ Hs). tauto.
Qed.

Lemma region_insert_sorted addr n fl v b :
  insertable v addr n → sorted_from b v → b < addr → sorted_from b (region_insert addr n fl v).
Proof.
  intros [Hp Hlo Hhi Hap Hbe] Hs Hb.
  assert (∀ w c, sorted_from c w → c < addr → (∀ r, r ∈ w → addr + n ≤ base r ∨ rend r ≤ addr) →
            (∀ r, r ∈ w → addr + n = base r → ∃ r', r' ∈ w ∧ rend r' = addr) →
            sorted_from c (region_insert addr n fl w)) as Hgen; [|by apply Hgen].
  clear v b Hap Hbe Hs Hb. induction w as [|r w IH]; intros c Hs Hc Hap Hbe.
  { split_and!; unfold rend; simpl; try done; lia. }
  cbn [region_insert]. pose proof Hs as (? & ? & ? & Hs').
  destruct (Z.ltb_spec (addr + n) (base r)); [split_and!; unfold rend; simpl; done || lia|].
  destruct (Z.eqb_spec (rend r) addr) as [E|Hne].
  - destruct w as [|nx w]; [split_and!; unfold rend in *; simpl; done || lia|].
    destruct Hs' as (? & ? & ? & Hs'). destruct (Hap nx ltac:(right; left)) as [?|?]; [|unfold rend in *; lia].
    destruct (Z.eqb_spec (addr + n) (base nx)); (split_and!; unfold rend in *; simpl in *; try lia).
    + replace (base r + (len r + n + len nx)) with (base nx + len nx) by lia. done.
    + split_and!; [lia..|done].
  - assert (rend r < addr) as Hlt.
    { destruct (Hap r ltac:(left)) as [Hle|?]; [|lia]. exfalso.
      destruct (Hbe r ltac:(left)) as (r' & Hr' & E'); [lia|]. apply elem_of_cons in Hr' as [->|Hr']; [done|].
      destruct (sorted_from_lower _ _ _ Hs' Hr') as (? & ? & ?). unfold rend in *. lia. }
    split_and!; [lia..|]. apply IH; [done|done|intros q Hq; apply Hap; by right|].
    intros q Hq Eq. destruct (Hbe q ltac:(by right) Eq) as (r' & [->|Hr']%elem_of_cons & E'); [lia|eauto].
Qed.

Section insert.
Context `{BuildConfig}.

Lemma WITHIN_false x y l : 0 ≤ l → x + l < 2 ^ 64 → 0 ≤ x → (y < x ∨ x + l ≤ y) → WITHIN x y l = false.
Proof.
  intros Hl Hw Hx Hy. unfold WITHIN. rewrite uwrap_id by (unfold in_u; lia). rewrite Z.gtb_ltb.
  destruct (Z.leb_spec x y), (Z.ltb_spec y (x + l)); simpl; done || lia.
Qed.

Lemma wp_mmap_round t v1 r v2 rest addr n fl i Q :
  arr t (v1 ++ r :: v2) rest → i = Z.of_nat (length v1) → (length (v1 ++ r :: v2) < 128)%nat →
  0 < n → 0 ≤ addr → addr + n < 2 ^ 64 → 0 ≤ base r → 0 < len r → rend r < 2 ^ 64 →
  addr + n ≠ base r → addr + n ≤ base r ∨ rend r ≤ addr → (∀ q, q ∈ v2 → 0 ≤ base q ∧ 0 < len q ∧ rend r < base q ∧ rend q < 2 ^ 64) →
  (rend r < addr → Q (inl (i + 1)) t) →
  (∀ t' rest' w, addr ≤ rend r → region_insert addr n fl (r :: v2) = w → arr t' (v1 ++ w) rest' → Q (inr true) t') →
  wp (insert_round addr n fl i) t Q.
Proof.
  intros Ha Hi Hlt Hn H0 Hhi Hb Hl He Hne Hap Hv2 Hpass Hdone. pose proof (arr_count _ _ _ Ha) as Hc.
  rewrite length_app in Hc. simpl in Hc. unfold insert_round. apply wp_bind, wp_get.
  destruct (Z.ltb_spec i (mcount t)); [|lia]. simpl negb. cbn match. apply wp_bind. eapply wp_rd_region; [done..|].
  rewrite (uwrap_id 64 (addr + n)) by (unfold in_u; lia). destruct (Z.eqb_spec (addr + n) (base r)); [done|].
  cbn [region_insert] in Hdone.
  destruct (Z.ltb_spec (addr + n) (base r)) as [Hbelow|Hab].
  { rewrite length_app in Hlt. simpl in Hlt. destruct (Z.eqb_spec (mcount t) MMAP_MAX_REGIONS); [unfold MMAP_MAX_REGIONS in *; lia|].
    eapply wp_shift_insert; [done|done|by rewrite length_app|]. intros t' rest' Ha'. eapply Hdone; [unfold rend; lia|done|done]. }
  rewrite (uwrap_id 64 (base r + len r)) by (unfold in_u, rend in *; lia). fold (rend r).
  destruct (Z.eqb_spec (rend r) addr) as [E|].
  - apply wp_bind. eapply wp_wr_region; [done..|]. intros t1 Ha1 Hc1.
    rewrite (uwrap_id 64 (len r + n)) in Ha1 by (unfold in_u, rend in *; lia). apply wp_bind.
    destruct v2 as [|nx v2].
    { destruct (Z.ltb_spec i (mcount t - 1)); [simpl in *; lia|]. apply wp_ret. apply wp_bind, wp_ret, wp_ret. eapply Hdone; [lia|done|done]. }
    assert (arr t1 ((v1 ++ [mk_region (base r) (len r + n) (flags r)]) ++ nx :: v2) rest) as Ha1' by by rewrite <-(assoc_L (++)).
    assert (i + 1 = Z.of_nat (length (v1 ++ [mk_region (base r) (len r + n) (flags r)]))) as Hi1 by (rewrite length_app; simpl; lia).
    simpl length in *. destruct (Z.ltb_spec i (mcount t - 1)); [|lia]. apply wp_bind. eapply wp_rd_region; [exact Ha1'|exact Hi1|].
    apply wp_ret. destruct (Z.eqb_spec (addr + n) (base nx)) as [E'|].
    + apply wp_bind. apply wp_bind. eapply wp_rd_region; [exact Ha1'|exact Hi1|]. apply wp_bind. eapply wp_rd_region; [exact Ha1|done|].
      destruct (Hv2 nx ltac:(left)) as (? & ? & ? & ?). simpl.
      apply wp_bind. eapply wp_wr_region; [exact Ha1|done|]. intros t2 Ha2 _.
      rewrite uwrap_id in Ha2 by (unfold in_u, rend in *; lia).
      eapply (wp_delete t2 (v1 ++ [mk_region (base r) (len r + n + len nx) (flags r)]) nx v2); [by rewrite <-(assoc_L (++))|rewrite length_app; simpl; lia|].
      intros t3 rest3 Ha3. apply wp_ret. eapply Hdone; [lia|done|]. by rewrite <-(assoc_L (++)) in Ha3.
    + apply wp_bind, wp_ret, wp_ret. eapply Hdone; [lia|done|done].
  - assert (rend r < addr) by lia. apply wp_bind, wp_kassert_dbg; [|apply wp_ret; by apply Hpass].
    unfold rend in *. rewrite !WITHIN_false by lia. done.
Qed.

(** Passing a region that ends below the block. *)
Lemma region_insert_pass addr n fl v1 v2 :
  0 < n → (∀ q, q ∈ v1 → base q ≤ rend q ∧ rend q < addr) →
  region_insert addr n fl (v1 ++ v2) = v1 ++ region_insert addr n fl v2.
Proof.
  intros Hn Hq. induction v1 as [|r v1 IH]; [done|]. simpl. destruct (Hq r ltac:(left)) as [? ?].
  destruct (Z.ltb_spec (addr + n) (base r)); [lia|]. destruct (Z.eqb_spec (rend r) addr); [lia|].
  f_equal. apply IH. intros q Hin. apply Hq. by right.
Qed.

Lemma wp_mmap_insert_region t v rest b addr n fl Q :
  arr t v rest → sorted_from b v → -1 ≤ b → insertable v addr n → (length v < 128)%nat →
  (∀ t' rest', arr t' (region_insert addr n fl v) rest' → Q tt t') →
  wp (mmap_insert_region addr n fl) t Q.
Proof.
  intros Ha Hs Hb [Hn Hlo Hhi Hap Hbe] Hlt HQ. pose proof (arr_count _ _ _ Ha) as Hc. unfold mmap_insert_region.
  apply wp_bind, wp_get. apply wp_bind, wp_kassert; [apply Z.leb_le; unfold MMAP_MAX_REGIONS; lia|].
  destruct (Z.eqb_spec n 0); [lia|]. apply wp_bind.
  apply (wp_loop (λ k i t', t' = t ∧ ∃ v1 v2, v = v1 ++ v2 ∧ i = Z.of_nat (length v1) ∧ k = length v2 ∧
                    ∀ q, q ∈ v1 → rend q < addr)) with (n := length v).
  - intros k i t' (-> & v1 & v2 & -> & -> & -> & Hq).
    assert (∀ q, q ∈ v1 → base q ≤ rend q ∧ rend q < addr) as Hq'.
    { intros q Hin. split; [|auto]. destruct (sorted_from_lower _ _ q Hs) as (_ & ? & _); [apply elem_of_app; by left|]. unfold rend. lia. }
    destruct v2 as [|r v2].
    { unfold insert_round. apply wp_bind, wp_get. rewrite app_nil_r in *. rewrite Hc.
      destruct (Z.ltb_spec (Z.of_nat (length v1)) (Z.of_nat (length v1))); [lia|]. simpl negb. cbn match. apply wp_ret.
      apply wp_bind, wp_get. rewrite Hc. destruct (Z.eqb_spec (Z.of_nat (length v1)) MMAP_MAX_REGIONS); [unfold MMAP_MAX_REGIONS in *; lia|].
      destruct rest as [|x rest]; [pose proof (arr_len _ _ _ Ha) as Hl; rewrite app_nil_r in Hl; lia|].
      apply wp_bind. unfold wr_region. apply wp_bind. eapply wp_rd_any; [done|lia|]. intros _. apply wp_modify. apply wp_modify.
      eapply (HQ _ rest). pose proof (region_insert_pass addr n fl v1 [] Hn Hq') as E. rewrite app_nil_r in E. rewrite E.
      destruct Ha as [Hr _ Hl]. split; simpl.
      - rewrite Hr, Nat2Z.id. rewrite insert_app_r_alt, Nat.sub_diag by lia. by rewrite <-(assoc_L (++)).
      - rewrite length_app, uwrap_id by (unfold in_u; lia). simpl. lia.
      - rewrite !length_app in *. simpl in *. lia. }
    destruct (sorted_from_app _ _ _ _ Hs) as (_ & Hbr & Hlr & Her & Hbefore & Hafter).
    eapply (wp_mmap_round t v1 r v2 rest); try done; try lia.
    + intros E. destruct (Hbe r) as (r' & Hr' & E'); [apply elem_of_app; right; left|done|].
      apply elem_of_app in Hr' as [?%Hq|[->|Hr']%elem_of_cons]; [lia|unfold rend in *; lia|].
      destruct (sorted_from_lower _ _ _ Hafter Hr') as (? & ? & _). unfold rend in *. lia.
    + apply Hap. apply elem_of_app; right; left.
    + intros q Hin. destruct (sorted_from_lower _ _ _ Hafter Hin) as (? & ? & ?). unfold rend in *. lia.
    + intros Hpass. exists (length v2). split; [simpl; lia|]. split; [done|]. exists (v1 ++ [r]), v2.
      split_and!; [by rewrite <-(assoc_L (++))|rewrite length_app; simpl; lia|done|].
      intros q [?|Eq%list_elem_of_singleton]%elem_of_app; [auto|by subst].
    + intros t' rest' w _ <- Ha'. apply wp_ret. eapply HQ. rewrite region_insert_pass by done. exact Ha'.
  - split; [done|]. exists [], v. split_and!; [done..|]. by intros q ?%elem_of_nil.
  - lia.
Qed.
End insert.

(** ** Early allocation *)

(** Where a block taken from region [a] starts, and how many bytes of it are
    mapped there. *)
Definition eff (pa : bool) (a : mmap_region) : Z := if pa then ALIGNUP (base a) PAGE_SIZE else base a.
Definition avail (hm : Z) (pa : bool) (a : mmap_region) : Z := Z.min (hm - eff pa a) (rend a - eff pa a).
Definition fits (hm : Z) (pa : bool) (n : Z) (a : mmap_region) : Prop := base a < hm ∧ n ≤ avail hm pa a.

#[global] Instance fits_dec hm pa n a : Decision (fits hm pa n a).
Proof. unfold fits. apply _. Defined.

(** The map while the kernel boots: both arrays in order with room for one
    more region, available memory apart from and not followed at once by
    reserved memory, and, for page-aligned requests, no region that ends
    before its first page boundary. *)
Record early (m : mmap) (va vr : list mmap_region) (pa : bool) : Prop := {
  ea_avail : ∃ rest, arr (available m) va rest;
  ea_res : ∃ rest, arr (reserved m) vr rest;
  ea_va : sorted_from 0 va;
  ea_vr : sorted_from (-1) vr;
  ea_la : (length va < 128)%nat;
  ea_lr : (length vr < 128)%nat;
  ea_hm : (PAGE_SIZE | highest_mapped m);
  ea_hm_range : 0 < highest_mapped m < 2 ^ 63;
  ea_va_range : ∀ a, a ∈ va → rend a < 2 ^ 63;
  ea_apart : ∀ a r, a ∈ va → r ∈ vr → rend a < base r ∨ rend r ≤ base a;
  ea_pad : pa = true → ∀ a, a ∈ va → ALIGNUP (base a) PAGE_SIZE ≤ rend a
}.

Section early.
Context `{BuildConfig}.
Context {m : mmap} {va vr : list mmap_region} {pa : bool}.
Hypothesis HE : early m va vr pa.

Lemma eff_facts a :
  a ∈ va → base a ≤ eff pa a ≤ rend a ∧ (base a < highest_mapped m → eff pa a ≤ highest_mapped m) ∧
           (pa = true → (PAGE_SIZE | eff pa a)).
Proof.
  intros Ha. destruct (sorted_from_lower _ _ _ (ea_va _ _ _ _ HE) Ha) as (Hb & Hl & _).
  pose proof (ea_va_range _ _ _ _ HE a Ha) as Hr. unfold eff. destruct pa eqn:Epa.
  - pose proof (ea_pad _ _ _ _ HE eq_refl a Ha) as Hp. change PAGE_SIZE with (2 ^ 12) in *.
    unfold rend in *. rewrite ALIGNUP_spec in * by lia. change (2 ^ 12) with 4096 in *.
    pose proof (Z.div_mod (base a + 4096 - 1) 4096 ltac:(lia)). pose proof (Z.mod_pos_bound (base a + 4096 - 1) 4096 ltac:(lia)).
    split_and!; [lia|lia| |by exists ((base a + 4096 - 1) / 4096); lia].
    intros Hhm. destruct (ea_hm _ _ _ _ HE) as [k Hk]. change PAGE_SIZE with 4096 in Hk. nia.
  - split_and!; [lia|unfold rend; lia|lia|done].
Qed.

Lemma region_insert_elem addr n fl v r' :
  (∀ r, r ∈ v → rend r ≠ addr) → r' ∈ region_insert addr n fl v → r' ∈ v ∨ r' = mk_region addr n fl.
Proof.
  induction v as [|r v IH]; simpl; intros Hne Hin.
  - right. by apply list_elem_of_singleton in Hin.
  - destruct (addr + n <? base r); [apply elem_of_cons in Hin as [->|?]; [by right|by left]|].
    destruct (Z.eqb_spec (rend r) addr) as [E|]; [by apply Hne in E; [|left]|].
    apply elem_of_cons in Hin as [->|Hin]; [left; left|].
    destruct IH as [?|?]; [intros q Hq; apply Hne; by right|done|left; by right|by right].
Qed.

Lemma region_insert_length addr n fl v : (length (region_insert addr n fl v) ≤ S (length v))%nat.
Proof.
  induction v as [|r v IH]; simpl; [lia|]. destruct (addr + n <? base r); [simpl; lia|].
  destruct (rend r =? addr); [|simpl; lia]. destruct v as [|nx v]; [simpl; lia|]. destruct (addr + n =? base nx); simpl; lia.
Qed.

Lemma sorted_from_remove b v1 a v2 : sorted_from b (v1 ++ a :: v2) → sorted_from b (v1 ++ v2).
Proof.
  revert b. induction v1 as [|r v1 IH]; intros b; simpl.
  - intros (? & ? & ? & ?). eapply sorted_from_weaken; [|done]. unfold rend. lia.
  - intros (? & ? & ? & ?). auto.
Qed.

(** Regions other than [a] end below it or start above it. *)
Lemma sorted_apart b v1 a v2 q : sorted_from b (v1 ++ a :: v2) → q ∈ v1 ++ v2 → rend q < base a ∨ rend a < base q.
Proof.
  intros Hs Hq. destruct (sorted_from_app _ _ _ _ Hs) as (_ & _ & _ & _ & Hbefore & Hafter).
  apply elem_of_app in Hq as [?|Hq]; [left; auto|right]. by destruct (sorted_from_lower _ _ _ Hafter Hq).
Qed.

(** A piece of region [a], which is no longer in the map, can be put back. *)
Lemma insertable_piece v1 a v2 w addr n :
  va = v1 ++ a :: v2 → (∀ q, q ∈ w → q ∈ v1 ++ v2 ∨ base q ≤ rend q < addr) →
  0 < n → base a ≤ addr → addr + n ≤ rend a → insertable w addr n ∧ (∀ q, q ∈ w → rend q ≠ addr).
Proof using HE.
  intros E Hw Hn Hlo Hhi. pose proof (ea_va _ _ _ _ HE) as Hs. rewrite E in Hs.
  destruct (sorted_from_app _ _ _ _ Hs) as (_ & Hba & _ & Hra & _).
  assert (∀ q, q ∈ w → rend q < addr ∨ addr + n < base q) as Hap.
  { intros q [Hq|[_ ?]]%Hw; [|by left]. destruct (sorted_apart _ _ _ _ _ Hs Hq); [left|right]; unfold rend in *; lia. }
  assert (∀ q, q ∈ w → base q ≤ rend q) as Hlen.
  { intros q [Hq|[? _]]%Hw; [|done]. destruct (sorted_from_lower _ _ q (sorted_from_remove _ _ _ _ Hs) Hq) as (_ & ? & _).
    unfold rend. lia. }
  split; [split; [done|lia|unfold rend in *; lia|intros q Hq; destruct (Hap q Hq); lia|]|].
  - intros q Hq Eq. exfalso. pose proof (Hlen q Hq). destruct (Hap q Hq); lia.
  - intros q Hq Eq. pose proof (Hlen q Hq). destruct (Hap q Hq); lia.
Qed.
End early.

Section alloc_low.
Context `{BuildConfig}.

Lemma wp_on_available {A} (op : M mmap_type A) m (Q : A → mmap → Prop) :
  wp op (available m) (λ x t, Q x (upd_available t m)) → wp (on_available op) m Q.
Proof. apply wp_zoom. Qed.
Lemma wp_on_reserved {A} (op : M mmap_type A) m (Q : A → mmap → Prop) :
  wp op (reserved m) (λ x t, Q x (upd_reserved t m)) → wp (on_reserved op) m Q.
Proof. apply wp_zoom. Qed.

Context {m : mmap} {va vr : list mmap_region} {pa : bool}.
Hypothesis HE : early m va vr pa.

(** The available regions once [a] is out and its padding back in. *)
Record padded (v1 : list mmap_region) (a : mmap_region) (v2 w : list mmap_region) : Prop := {
  pd_sorted : sorted_from 0 w;
  pd_covers : ∀ x, covers w x ↔ covers (v1 ++ v2) x ∨ base a ≤ x < eff pa a;
  pd_elems : ∀ q, q ∈ w → q ∈ v1 ++ v2 ∨ base q ≤ rend q ≤ eff pa a;
  pd_len : (length w ≤ length va)%nat
}.

Lemma wp_padding v1 a v2 rest i (Q : unit → mmap → Prop) :
  va = v1 ++ a :: v2 → arr (available m) va rest → i = Z.of_nat (length v1) →
  (∀ t w rest', padded v1 a v2 w → arr t w rest' → Q tt (upd_available t m)) →
  wp (if pa then
        on_available (mmap_delete_region i);;
        stale ← on_available (rd_region i);
        on_available (mmap_insert_region (base a) (u64 (eff pa a - base a)) (flags stale))
      else on_available (mmap_delete_region i)) m Q.
Proof using HE.
  intros E Ha Hi HQ. pose proof (ea_va _ _ _ _ HE) as Hs. pose proof (ea_la _ _ _ _ HE) as Hl.
  assert (a ∈ va) as Hin by (rewrite E; apply elem_of_app; right; left).
  destruct (eff_facts HE a Hin) as ([He1 He2] & _ & _). pose proof (ea_va_range _ _ _ _ HE a Hin) as Hr.
  rewrite E in Ha, Hs. pose proof (sorted_from_remove _ _ _ _ Hs) as Hs'.
  assert (length (v1 ++ v2) < length va)%nat as Hlen by (rewrite E, !length_app; simpl; lia).
  assert (length v1 < 128)%nat as Hv1 by (rewrite length_app in Hlen; lia).
  assert (padded v1 a v2 (v1 ++ v2) ∨ base a < eff pa a) as Hsame.
  { destruct (decide (base a < eff pa a)); [by right|left]. split; [done| |by left|lia].
    intros x. split; [by left|]. intros [?|?]; [done|lia]. }
  assert (0 < base a) as Hb0 by (by destruct (sorted_from_lower _ _ _ (ea_va _ _ _ _ HE) Hin)).
  destruct pa eqn:Epa.
  - apply wp_bind, wp_on_available. eapply wp_delete; [exact Ha|done|]. intros t1 rest1 Ha1.
    apply wp_bind, wp_on_available. eapply wp_rd_any; [exact Ha1|lia|]. intros st.
    apply wp_on_available. rewrite uwrap_id by (unfold in_u, rend in *; lia).
    destruct (decide (base a < eff true a)) as [Hlt|Hge].
    + destruct (insertable_piece HE v1 a v2 (v1 ++ v2) (base a) (eff true a - base a)) as [Hins Hne]; [done|by left|lia|lia|lia|].
      eapply wp_mmap_insert_region; [exact Ha1|exact Hs'|lia|done|lia|]. intros t2 rest2 Ha2. eapply HQ; [|exact Ha2]. split.
      * eapply region_insert_sorted; [done|done|lia].
      * intros x. rewrite (region_insert_covers _ _ _ _ _ _ Hins Hs'). rewrite Epa.
        replace (base a + (eff true a - base a)) with (eff true a) by lia. done.
      * intros q [?| ->]%region_insert_elem; [by left|right; unfold rend; rewrite Epa; cbn [base len]; lia|done].
      * pose proof (region_insert_length (base a) (eff true a - base a) (flags st) (v1 ++ v2)). lia.
    + destruct Hsame as [Hsame|?]; [|lia]. replace (eff true a - base a) with 0 by lia.
      unfold mmap_insert_region. apply wp_bind, wp_get. apply wp_bind, wp_kassert; [|by apply wp_ret; eapply HQ].
      cbn [available upd_available]. rewrite (arr_count _ _ _ Ha1). apply Z.leb_le. unfold MMAP_MAX_REGIONS. lia.
  - apply wp_on_available. eapply wp_delete; [exact Ha|done|]. intros t1 rest1 Ha1.
    destruct Hsame as [Hsame|Hlt]; [by eapply HQ|]. unfold eff in Hlt. lia.
Qed.

(** What an allocation of [n] bytes from region [a] has done. *)
Record took (n : Z) (a rg : mmap_region) (m' : mmap) : Prop := {
  tk_base : base rg = eff pa a;
  tk_len : len rg = n;
  tk_hm : highest_mapped m' = highest_mapped m;
  tk_avail : ∃ va' rest, arr (available m') va' rest ∧ sorted_from 0 va' ∧
    ∀ x, covers va' x ↔ covers va x ∧ ¬ (base rg ≤ x < rend rg) ∧
                        ¬ (base a ≤ x < rend a ∧ highest_mapped m ≤ x);
  tk_res : ∃ vr' rest, arr (reserved m') vr' rest ∧ sorted_from (-1) vr' ∧
    ∀ x, covers vr' x ↔ covers vr x ∨ base rg ≤ x < rend rg
}.

(** The bytes the code computes for a region. *)
Lemma avail_bytes a :
  a ∈ va → base a < highest_mapped m →
  MIN (u64 (highest_mapped m - eff pa a)) (if pa then u64 (len a - u64 (eff pa a - base a)) else len a) =
  avail (highest_mapped m) pa a.
Proof using HE.
  intros Ha Hb. destruct (eff_facts HE a Ha) as ([He1 He2] & Heh & _). specialize (Heh Hb).
  pose proof (ea_va_range _ _ _ _ HE a Ha) as Hr. pose proof (ea_hm_range _ _ _ _ HE) as Hhm.
  destruct (sorted_from_lower _ _ _ (ea_va _ _ _ _ HE) Ha) as (Hb0 & Hl & _).
  unfold avail, MIN. rewrite (uwrap_id 64 (highest_mapped m - eff pa a)) by (unfold in_u; lia).
  assert ((if pa then u64 (len a - u64 (eff pa a - base a)) else len a) = rend a - eff pa a) as ->.
  { destruct pa; [|unfold rend, eff; lia]. rewrite (uwrap_id 64 (_ - base a)) by (unfold in_u; lia).
    rewrite uwrap_id; unfold in_u, rend in *; lia. }
  rewrite Z.gtb_ltb. destruct (Z.ltb_spec (rend a - eff pa a) (highest_mapped m - eff pa a)); lia.
Qed.

Lemma insertable_reserved a n :
  a ∈ va → 0 < n → n ≤ rend a - eff pa a → insertable vr (eff pa a) n.
Proof using HE.
  intros Ha Hn Hfit. destruct (eff_facts HE a Ha) as ([? ?] & _ & _). pose proof (ea_va_range _ _ _ _ HE a Ha).
  destruct (sorted_from_lower _ _ _ (ea_va _ _ _ _ HE) Ha) as (? & _ & _).
  assert (∀ r, r ∈ vr → eff pa a + n < base r ∨ rend r ≤ eff pa a) as Hap.
  { intros r Hr. destruct (ea_apart _ _ _ _ HE a r Ha Hr); lia. }
  split; [done|lia|lia|intros r Hr; destruct (Hap r Hr); lia|].
  intros r Hr E. exfalso. destruct (sorted_from_lower _ _ _ (ea_vr _ _ _ _ HE) Hr) as (_ & ? & _).
  destruct (Hap r Hr); unfold rend in *; lia.
Qed.

(** Covered bytes once the padding and what remains of [a] are back. *)
Lemma covers_remaining v1 a v2 w n x :
  va = v1 ++ a :: v2 → padded v1 a v2 w → 0 < n → base a < highest_mapped m → n ≤ avail (highest_mapped m) pa a →
  (covers w x ∨ eff pa a + n ≤ x < eff pa a + n + (avail (highest_mapped m) pa a - n)) ↔
  covers va x ∧ ¬ (eff pa a ≤ x < eff pa a + n) ∧ ¬ (base a ≤ x < rend a ∧ highest_mapped m ≤ x).
Proof using HE.
  intros E Hw Hn Hb Hfit. rewrite (pd_covers _ _ _ _ Hw), E, !covers_app, covers_cons.
  assert (a ∈ va) as Hin by (rewrite E; apply elem_of_app; right; left).
  destruct (eff_facts HE a Hin) as ([He1 He2] & Heh & _). specialize (Heh Hb).
  pose proof (ea_va _ _ _ _ HE) as Hs. rewrite E in Hs.
  assert (covers v1 x ∨ covers v2 x → ¬ (base a ≤ x < rend a)) as Hout.
  { rewrite <-covers_app. intros (q & Hq & Hx). destruct (sorted_apart _ _ _ _ _ Hs Hq); lia. }
  unfold avail in *. destruct (decide (base a ≤ x < rend a)) as [Ha|Ha].
  - assert (¬ (covers v1 x ∨ covers v2 x)) by tauto. assert (covers v1 x ↔ False) as -> by tauto.
    assert (covers v2 x ↔ False) as -> by tauto. lia.
  - split.
    + intros [[?|?]|?]; [|lia|lia]. split_and!; [tauto|lia|lia].
    + intros ([?|[?|?]] & _ & _); [tauto|lia|tauto].
Qed.

Lemma wp_remaining v1 a v2 w restw n i m1 (Q : unit → mmap → Prop) :
  va = v1 ++ a :: v2 → i = Z.of_nat (length v1) → padded v1 a v2 w → arr (available m1) w restw →
  0 < n → base a < highest_mapped m → n ≤ avail (highest_mapped m) pa a →
  (∀ t' w' rest', arr t' w' rest' → sorted_from 0 w' →
     (∀ x, covers w' x ↔ covers va x ∧ ¬ (eff pa a ≤ x < eff pa a + n) ∧ ¬ (base a ≤ x < rend a ∧ highest_mapped m ≤ x)) →
     Q tt (upd_available t' m1)) →
  wp (if 0 <? avail (highest_mapped m) pa a - n then
        stale ← on_available (rd_region i);
        on_available (mmap_insert_region (eff pa a + n) (avail (highest_mapped m) pa a - n) (flags stale))
      else mret tt) m1 Q.
Proof using HE.
  intros E Hi Hw Haw Hn Hb Hfit HQ. pose proof (λ x, covers_remaining v1 a v2 w n x E Hw Hn Hb Hfit) as Hcov.
  pose proof (ea_la _ _ _ _ HE) as Hla. pose proof (pd_len _ _ _ _ Hw) as Hlw.
  assert (length v1 < 128)%nat by (rewrite E, length_app in Hla; lia).
  assert (a ∈ va) as Hin by (rewrite E; apply elem_of_app; right; left).
  destruct (eff_facts HE a Hin) as ([He1 He2] & Heh & _).
  destruct (Z.ltb_spec 0 (avail (highest_mapped m) pa a - n)).
  - apply wp_bind, wp_on_available. eapply wp_rd_any; [exact Haw|lia|]. intros st. apply wp_on_available.
    destruct (insertable_piece HE v1 a v2 w (eff pa a + n) (avail (highest_mapped m) pa a - n)) as [Hins Hne];
      [done|intros q Hq; destruct (pd_elems _ _ _ _ Hw q Hq); [by left|right; lia]|lia|lia|unfold avail in *; lia|].
    eapply wp_mmap_insert_region; [exact Haw|apply (pd_sorted _ _ _ _ Hw)|lia|done|lia|]. intros t' rest' Ha'.
    eapply HQ; [exact Ha'|eapply region_insert_sorted; [done|apply (pd_sorted _ _ _ _ Hw)|]|].
    + destruct (sorted_from_lower _ _ _ (ea_va _ _ _ _ HE) Hin) as (? & _ & _). lia.
    + intros x. rewrite (region_insert_covers _ _ _ _ _ _ Hins (pd_sorted _ _ _ _ Hw)). apply Hcov.
  - apply wp_ret. replace m1 with (upd_available (available m1) m1) by by destruct m1.
    eapply HQ; [exact Haw|apply (pd_sorted _ _ _ _ Hw)|]. intros x. rewrite <-Hcov. split; [by left|]. intros [?|?]; [done|lia].
Qed.

Lemma wp_alloc_round_take n fl v1 a v2 i Q :
  va = v1 ++ a :: v2 → i = Z.of_nat (length v1) → pa = negb (Z.land fl MMAP_ALLOC_PA =? 0) →
  0 < n → fits (highest_mapped m) pa n a →
  (∀ m' rg, took n a rg m' → Q (inr (Some rg)) m') →
  wp (alloc_round n fl i) m Q.
Proof using HE.
  intros E Hi Hpa Hn [Hbhm Hfit] HQ. destruct (ea_avail _ _ _ _ HE) as [rest Ha]. destruct (ea_res _ _ _ _ HE) as [restr Har].
  assert (a ∈ va) as Hin by (rewrite E; apply elem_of_app; right; left).
  destruct (eff_facts HE a Hin) as ([He1 He2] & Heh & _). specialize (Heh Hbhm).
  pose proof (ea_va_range _ _ _ _ HE a Hin) as Hr. pose proof (ea_hm_range _ _ _ _ HE) as Hhm.
  destruct (sorted_from_lower _ _ _ (ea_va _ _ _ _ HE) Hin) as (Hb & Hl & _).
  pose proof (ea_va _ _ _ _ HE) as Hs. pose proof Ha as Hcount%arr_count. pose proof (ea_la _ _ _ _ HE) as Hla.
  unfold alloc_round. apply wp_bind, wp_get. rewrite Hcount. rewrite E in Hcount, Hla |- * at 1. rewrite length_app in *. simpl in Hla.
  destruct (Z.ltb_spec i (Z.of_nat (length v1 + length (a :: v2)))); [|simpl in *; lia]. simpl negb. cbn match.
  pose proof Ha as Ha'. rewrite E in Ha'. apply wp_bind, wp_on_available. eapply wp_rd_region; [exact Ha'|done|].
  rewrite Z.geb_leb. destruct (Z.leb_spec (highest_mapped m) (base a)); [lia|]. rewrite <-Hpa.
  fold (eff pa a).
  replace (upd_available (available m) m) with m by by destruct m.
  rewrite (avail_bytes a) by done.
  destruct (Z.leb_spec n (avail (highest_mapped m) pa a)); [|lia]. cbn [base len flags].
  assert (n ≤ rend a - eff pa a ∧ avail (highest_mapped m) pa a ≤ rend a - eff pa a) as [Hn2 Hav] by (unfold avail in *; lia).
  apply wp_bind. eapply wp_padding; [exact E|exact Ha|done|]. intros t w restw Hw Haw.
  apply wp_bind, wp_on_reserved. pose proof (insertable_reserved a n Hin Hn Hn2) as Hir.
  eapply wp_mmap_insert_region; [exact Har|apply (ea_vr _ _ _ _ HE)|lia|exact Hir|apply (ea_lr _ _ _ _ HE)|]. intros tr restr' Har'.
  apply wp_bind. rewrite (uwrap_id 64 (eff pa a + n)) by (unfold in_u; lia).
  eapply wp_remaining; [exact E|done|exact Hw|exact Haw|done|done|done|]. intros t' w' rest' Ha2 Hs2 Hc2.
  apply wp_bind, wp_kassert_dbg; [apply andb_true_iff; split; apply Z.ltb_lt; lia|]. apply wp_ret, HQ. split; try done.
  - exists w', rest'. done.
  - eexists _, restr'. split; [exact Har'|]. split.
    + eapply region_insert_sorted; [exact Hir|apply (ea_vr _ _ _ _ HE)|lia].
    + intros x. apply (region_insert_covers _ _ _ _ _ _ Hir (ea_vr _ _ _ _ HE)).
Qed.

(** A region that does not fit is passed over. *)
Lemma wp_alloc_round_pass n fl v1 a v2 i Q :
  va = v1 ++ a :: v2 → i = Z.of_nat (length v1) → pa = negb (Z.land fl MMAP_ALLOC_PA =? 0) →
  base a < highest_mapped m → ¬ fits (highest_mapped m) pa n a → Q (inl (i + 1)) m →
  wp (alloc_round n fl i) m Q.
Proof using HE.
  intros E Hi Hpa Hb Hnf HQ. destruct (ea_avail _ _ _ _ HE) as [rest Ha].
  assert (a ∈ va) as Hin by (rewrite E; apply elem_of_app; right; left).
  destruct (eff_facts HE a Hin) as ([He1 He2] & Heh & _). specialize (Heh Hb).
  pose proof (ea_va_range _ _ _ _ HE a Hin) as Hr. pose proof (ea_hm_range _ _ _ _ HE) as Hhm.
  destruct (sorted_from_lower _ _ _ (ea_va _ _ _ _ HE) Hin) as (Hb0 & Hl & _).
  pose proof Ha as Hcount%arr_count. unfold alloc_round. apply wp_bind, wp_get. rewrite Hcount. rewrite E in Ha |- * at 1.
  rewrite length_app. simpl length. destruct (Z.ltb_spec i (Z.of_nat (length v1 + S (length v2)))); [|lia]. simpl negb. cbn match.
  apply wp_bind, wp_on_available. eapply wp_rd_region; [exact Ha|done|].
  rewrite Z.geb_leb. destruct (Z.leb_spec (highest_mapped m) (base a)); [lia|]. rewrite <-Hpa. fold (eff pa a).
  replace (upd_available (available m) m) with m by by destruct m.
  assert (avail (highest_mapped m) pa a < n) as Hlt by (unfold fits in Hnf; lia).
  rewrite (avail_bytes a) by done.
  destruct (Z.leb_spec n (avail (highest_mapped m) pa a)); [lia|]. apply wp_ret, HQ.
Qed.
End alloc_low.

(** ** Theorems *)

Module MmapDemo.
Definition free_slot : mmap_region := mk_region 0 0 MMAP_NONE.
Definition array (v : list mmap_region) : mmap_type :=
  mk_mtype (Z.of_nat (length v)) (v ++ replicate (128 - length v) free_slot).
Definition low : mmap_region := mk_region 0x200010 0x4000 MMAP_NONE.
Definition map : mmap := mk_mmap KERNEL_PHYS_MAP_END (array [low]) (array [mk_region 0x100000 0x100010 MMAP_NONE]).

Lemma array_ok v : (length v ≤ 128)%nat → arr (array v) v (replicate (128 - length v) free_slot).
Proof. intros Hv. split; [done|done|]. rewrite length_app, length_replicate. lia. Qed.

Lemma map_early : early map [low] [mk_region 0x100000 0x100010 MMAP_NONE] true.
Proof.
  split; try done; try (eexists; apply array_ok; simpl; lia); try (simpl; lia).
  - by exists 4096.
  - intros a ->%list_elem_of_singleton. done.
  - intros a r ->%list_elem_of_singleton ->%list_elem_of_singleton. right. done.
  - intros _ a ->%list_elem_of_singleton. done.
Qed.
End MmapDemo.

(** C36: [mmap_insert_region] of a block apart from all regions, which does not
    end where a region starts unless it closes the gap to the region before,
    returns, keeps the array in order without touching neighbours, and adds
    exactly the bytes of the block to the memory the array covers. *)
Theorem mmap_insert_region_correct `{BuildConfig} t v rest addr n fl :
  arr t v rest → sorted_from (-1) v → insertable v addr n → (length v < 128)%nat →
  wp (mmap_insert_region addr n fl) t (λ _ t', ∃ v' rest', arr t' v' rest' ∧ sorted_from (-1) v' ∧
    ∀ x, covers v' x ↔ covers v x ∨ addr ≤ x < addr + n).
Proof.
  intros Ha Hs Hi Hl. eapply wp_mmap_insert_region; [done|done|lia|done|done|]. intros t' rest' Ha'.
  eexists _, rest'. split; [exact Ha'|]. split; [|intros x; by eapply region_insert_covers].
  apply region_insert_sorted; [done|done|]. pose proof (in_low _ _ _ Hi). lia.
Qed.

Lemma mmap_insert_region_correct_witness :
  wp (mmap_insert_region (H := debug_build) 0x3000 0x1000 MMAP_NONE)
     (MmapDemo.array [mk_region 0x1000 0x1000 MMAP_NONE]) (λ _ t', ∃ v' rest', arr t' v' rest' ∧ sorted_from (-1) v' ∧
    ∀ x, covers v' x ↔ covers [mk_region 0x1000 0x1000 MMAP_NONE] x ∨ 0x3000 ≤ x < 0x3000 + 0x1000).
Proof.
  eapply (mmap_insert_region_correct (H := debug_build)); [apply MmapDemo.array_ok; simpl; lia|done| |simpl; lia].
  split; [lia|lia|lia| |]; intros r ->%list_elem_of_singleton; [right; done|done].
Defined.

(** [mmap_alloc_low] of [n] bytes when some region fits: it returns a block
    of that size from the first region that fits, page-aligned on request and
    below the highest mapped address; the block leaves the available memory
    and joins the reserved memory, both arrays stay in order, and of the rest
    of the map exactly the bytes of that region above the highest mapped
    address are lost. *)
Theorem mmap_alloc_low_correct `{BuildConfig} m va vr n alloc_flags :
  let pa := negb (Z.land alloc_flags MMAP_ALLOC_PA =? 0) in
  early m va vr pa → 0 < n → (∃ a, a ∈ va ∧ fits (highest_mapped m) pa n a) →
  wp (mmap_alloc_low n alloc_flags) m (λ rg m', ∃ v1 a v2, va = v1 ++ a :: v2 ∧
    fits (highest_mapped m) pa n a ∧ Forall (λ q, ¬ fits (highest_mapped m) pa n q) v1 ∧
    took (m := m) (va := va) (vr := vr) (pa := pa) n a rg m' ∧
    rend rg ≤ highest_mapped m ∧ rend rg ≤ rend a ∧ (pa = true → (PAGE_SIZE | base rg))).
Proof.
  intros pa HE Hn (a0 & Ha0 & Hfit0). destruct (ea_avail _ _ _ _ HE) as [rest Ha]. pose proof Ha as Hcount%arr_count.
  unfold mmap_alloc_low. apply wp_bind, wp_get. apply wp_bind.
  apply (wp_loop (λ k i m', m' = m ∧ ∃ v1 v2, va = v1 ++ v2 ∧ i = Z.of_nat (length v1) ∧ k = length v2 ∧
                    Forall (λ q, ¬ fits (highest_mapped m) pa n q) v1)) with (n := length va).
  - intros k i m' (-> & v1 & v2 & E & -> & -> & Hv1).
    assert (a0 ∈ v2) as Ha0'.
    { rewrite E in Ha0. apply elem_of_app in Ha0 as [Hin|?]; [|done]. rewrite Forall_forall in Hv1. by apply Hv1 in Hin. }
    destruct v2 as [|a v2]; [by apply elem_of_nil in Ha0'|].
    assert (base a < highest_mapped m) as Hb.
    { apply elem_of_cons in Ha0' as [<-|Ha0']; [apply Hfit0|]. pose proof (ea_va _ _ _ _ HE) as Hs. rewrite E in Hs.
      destruct (sorted_from_app _ _ _ _ Hs) as (_ & _ & ? & _ & _ & Hafter).
      destruct (sorted_from_lower _ _ _ Hafter Ha0') as (? & _ & _). destruct Hfit0. unfold rend in *. lia. }
    destruct (decide (fits (highest_mapped m) pa n a)) as [Hf|Hnf].
    + eapply (wp_alloc_round_take HE); [exact E|done|done|done|done|]. intros m' rg Htook. apply wp_ret.
      exists v1, a, v2. split; [done|]. split; [done|]. split; [done|]. split; [done|].
      assert (a ∈ va) as Hin by (rewrite E; apply elem_of_app; right; left).
      destruct (eff_facts HE a Hin) as (_ & _ & Hal). destruct Hf as [_ Hf]. unfold avail in Hf.
      unfold rend at 1 2. rewrite (tk_base _ _ _ _ Htook), (tk_len _ _ _ _ Htook). split_and!; [lia|lia|done].
    + eapply (wp_alloc_round_pass HE); [exact E|done|done|done|done|]. exists (length v2). split; [simpl; lia|].
      split; [done|]. exists (v1 ++ [a]), v2. split_and!; [by rewrite <-(assoc_L (++))|rewrite length_app; simpl; lia|done|].
      apply Forall_app. split; [done|]. by constructor.
  - split; [done|]. exists [], va. done.
  - rewrite Hcount. lia.
Qed.

Lemma mmap_alloc_low_correct_witness :
  wp (mmap_alloc_low (H := debug_build) PAGE_SIZE MMAP_ALLOC_PA) MmapDemo.map (λ rg m', (PAGE_SIZE | base rg)).
Proof.
  eapply wp_mono.
  - apply (mmap_alloc_low_correct (H := debug_build) MmapDemo.map _ _ PAGE_SIZE MMAP_ALLOC_PA MmapDemo.map_early); [done|].
    exists MmapDemo.low. split; [left|]. split; vm_compute; congruence.
  - intros rg m' (v1 & a & v2 & _ & _ & _ & _ & _ & _ & Hp). apply Hp. reflexivity.
Defined.

(** A block inserted directly below a region is merged into it and then
    inserted once more, so that its bytes are in two regions of the array. *)
Theorem mmap_insert_below_duplicates :
  wp (mmap_insert_region (H := debug_build) 0x1000 0x1000 MMAP_NONE)
     (MmapDemo.array [mk_region 0x2000 0x1000 MMAP_NONE]) (λ _ t', mcount t' = 2 ∧
    take 2 (regions t') = [mk_region 0x1000 0x2000 MMAP_NONE; mk_region 0x1000 0x1000 MMAP_NONE]).
Proof. vm_compute. done. Qed.

(** A page-aligned request on a region that ends before its first page
    boundary underflows the effective length: a region of 16 bytes serves a
    whole page, outside the region. *)
Theorem mmap_alloc_low_underflow :
  wp (mmap_alloc_low (H := debug_build) PAGE_SIZE MMAP_ALLOC_PA)
     (mk_mmap KERNEL_PHYS_MAP_END (MmapDemo.array [mk_region 0x1001 0x10 MMAP_NONE]) (MmapDemo.array []))
     (λ rg _, rg = mk_region 0x2000 0x1000 MMAP_NONE).
Proof. vm_compute. done. Qed.
