(* ===== verification/Multiboot.v ===== *)
(** * The boot loader's memory map

    kernel/mm/mmap.c, [mmap_init] on the bytes of the Multiboot information
    (include/multiboot2.h): the search for the memory-map tag, the walk over
    its entries, and what the two arrays of regions hold afterwards. *)

From stdpp Require Import base list gmap fin_maps.
From Stdlib Require Import ZArith Lia Bool.
From S2P Require Import Prelude Addr Strings Acpi AcpiSpec ApicSpec Pmm Mmap MmapSpec.
Local Open Scope Z_scope.

Definition MULTIBOOT_TAG_TYPE_END : Z := 0.
Definition MULTIBOOT_TAG_TYPE_MMAP : Z := 6.

(** ** Code *)

Record boot_info := mk_boot_info { mboot : bmem; mem_map : mmap }.
Definition upd_mboot b s := mk_boot_info b (mem_map s).
Definition upd_mem_map m s := mk_boot_info (mboot s) m.

Abbreviation MB := (M boot_info).
Definition on_mboot {A} (m : B A) : MB A := zoom mboot upd_mboot m.
Definition on_map {A} (m : M mmap A) : MB A := zoom mem_map upd_mem_map m.

(** Fields of [struct multiboot_tag_mmap], and the [tags] and [entries] arrays. *)
Definition info_tags (p : Z) : Z := u64 (p + 8).
Definition tag_type (p : Z) : B Z := ld32 p.
Definition tag_size (p : Z) : B Z := ld32 (u64 (p + 4)).
Definition tag_entry_size (p : Z) : B Z := ld32 (u64 (p + 8)).
Definition tag_entries (p : Z) : Z := u64 (p + 16).

(** [struct multiboot_mmap_entry] *)
Definition ld_entry (p : Z) : B mmap_entry :=
  addr ← ld64 p; n ← ld64 (u64 (p + 8)); ty ← ld32 (u64 (p + 16)); mret (mk_entry addr n ty).

Definition tag_round (p : Z) : B (Z + Z) :=
  ty ← tag_type p;
  if (ty =? MULTIBOOT_TAG_TYPE_END) || (ty =? MULTIBOOT_TAG_TYPE_MMAP) then mret (inr p)
  else n ← tag_size p; mret (inl (ALIGNUP (u64 (p + n)) 8)).

(** A search that ends visits no address twice, so it has no more rounds than
    memory has bytes. *)
Definition find_mmap_tag (mboot : Z) : B Z :=
  m ← get; loop (S (size m)) tag_round (info_tags mboot).

Section code.
Context `{BuildConfig} (kern_end : Z).

Definition entry_round (last entry_size e : Z) : MB (Z + unit) :=
  if e <? last then
    en ← on_mboot (ld_entry e);
    on_map (init_entry kern_end en);;
    mret (inl (u64 (e + entry_size)))
  else mret (inr tt).

(** Neither does a walk over the entries with an entry size that is not 0;
    with an entry size of 0 the code inserts one entry until an array is full. *)
Definition mboot_mmap_init (mboot_info : Z) : MB unit :=
  p ← on_mboot (find_mmap_tag mboot_info);
  ty ← on_mboot (tag_type p);
  if negb (ty =? MULTIBOOT_TAG_TYPE_MMAP) then panic
  else
    entry_size ← on_mboot (tag_entry_size p);
    total_size ← on_mboot (tag_size p);
    s ← get;
    loop (S (size (mboot s) + 128)) (entry_round (u64 (p + total_size)) entry_size) (tag_entries p);;
    on_map (modify (λ m, mk_mmap KERNEL_PHYS_MAP_END (available m) (reserved m))).
End code.

(** ** The format *)

(** A tag that is neither the last one nor the memory map, and the bytes up to
    the next multiple of 8. *)
Record tag := mk_tag { t_type : Z; t_data : list Z; t_pad : list Z }.

Definition tag_length (t : tag) : Z := 8 + Z.of_nat (length (t_data t)).
Definition enc_tag (t : tag) : list Z := le_bytes 4 (t_type t) ++ le_bytes 4 (tag_length t) ++ t_data t ++ t_pad t.

Record tag_ok (t : tag) : Prop := {
  ok_type : in_u 32 (t_type t);
  ok_end : t_type t ≠ MULTIBOOT_TAG_TYPE_END;
  ok_mmap : t_type t ≠ MULTIBOOT_TAG_TYPE_MMAP;
  ok_length : tag_length t < 2 ^ 32;
  ok_pad : (length (t_pad t) < 8)%nat;
  ok_align : (tag_length t + Z.of_nat (length (t_pad t))) mod 8 = 0
}.

(** An entry of the map with the bytes that fill it up to the entry size. *)
Definition enc_entry (e : mmap_entry * list Z) : list Z :=
  le_bytes 8 (me_addr e.1) ++ le_bytes 8 (me_len e.1) ++ le_bytes 4 (me_type e.1) ++ e.2.

Record entry_ok (entry_size : Z) (e : mmap_entry * list Z) : Prop := {
  ok_addr : in_u 64 (me_addr e.1);
  ok_len : in_u 64 (me_len e.1);
  ok_ty : in_u 32 (me_type e.1);
  ok_fill : 20 + Z.of_nat (length e.2) = entry_size
}.

Definition map_length (entry_size : Z) (es : list (mmap_entry * list Z)) : Z := 16 + entry_size * Z.of_nat (length es).
Definition enc_map (entry_size version : Z) (es : list (mmap_entry * list Z)) : list Z :=
  le_bytes 4 MULTIBOOT_TAG_TYPE_MMAP ++ le_bytes 4 (map_length entry_size es) ++
  le_bytes 4 entry_size ++ le_bytes 4 version ++ mjoin (enc_entry <$> es).

(** The information at [a]: other tags, then the tag with the bytes [l]. *)
Record info_at (m : bmem) (a : Z) (ts : list tag) (l : list Z) : Prop := {
  at_align : a mod 8 = 0;
  at_low : 0 ≤ a;
  at_high : a + 8 + Z.of_nat (length (mjoin (enc_tag <$> ts) ++ l)) + 32 < 2 ^ 64;
  at_tags : Forall tag_ok ts;
  at_bytes : bytes m (a + 8) (mjoin (enc_tag <$> ts) ++ l)
}.

(** ** Reading the format *)

Lemma join_fmap_cons {A C} (f : A → list C) x l : mjoin (f <$> x :: l) = f x ++ mjoin (f <$> l).
Proof. done. Qed.

Lemma length_enc_tag t : Z.of_nat (length (enc_tag t)) = tag_length t + Z.of_nat (length (t_pad t)).
Proof. unfold enc_tag, tag_length. rewrite !length_app, !length_le_bytes. lia. Qed.

Lemma length_enc_entry n e : entry_ok n e → Z.of_nat (length (enc_entry e)) = n.
Proof. intros [_ _ _ <-]. unfold enc_entry. rewrite !length_app, !length_le_bytes. lia. Qed.

Lemma enc_tags_align ts : Forall tag_ok ts → Z.of_nat (length (mjoin (enc_tag <$> ts))) mod 8 = 0.
Proof.
  induction 1 as [|t ts [] _ IH]; [done|]. rewrite join_fmap_cons, length_app, Nat2Z.inj_add, length_enc_tag.
  rewrite Z.add_mod, ok_align0, IH by lia. done.
Qed.

Lemma enc_tags_count ts : (length ts ≤ length (mjoin (enc_tag <$> ts)))%nat.
Proof.
  induction ts as [|t ts IH]; [done|]. rewrite join_fmap_cons, length_app, length_cons. pose proof (length_enc_tag t). unfold tag_length in *. lia.
Qed.

Lemma enc_entries_length n es :
  Forall (entry_ok n) es → Z.of_nat (length (mjoin (enc_entry <$> es))) = n * Z.of_nat (length es).
Proof.
  induction 1 as [|e es He _ IH]; [simpl; lia|]. rewrite join_fmap_cons, length_cons, length_app, Nat2Z.inj_add, IH, (length_enc_entry n) by done. lia.
Qed.

(** A padded tag ends at the next multiple of 8. *)
Lemma next_tag p t :
  tag_ok t → 0 ≤ p → p mod 8 = 0 → p + Z.of_nat (length (enc_tag t)) + 8 < 2 ^ 64 →
  ALIGNUP (u64 (p + tag_length t)) 8 = p + Z.of_nat (length (enc_tag t)).
Proof.
  intros [_ _ _ _ Hp Ha] H0 Hal Hh. rewrite length_enc_tag in *.
  assert (8 ≤ tag_length t) by (unfold tag_length; lia).
  rewrite uwrap_id by (unfold in_u; lia). change 8 with (2 ^ 3) at 1. rewrite ALIGNUP_spec by (change (2 ^ 3) with 8; lia).
  change (2 ^ 3) with 8.
  apply Z.mod_divide in Ha as [x Hx]; [|lia]. apply Z.mod_divide in Hal as [y Hy]; [|lia].
  rewrite <-(Z.div_unique (p + tag_length t + 8 - 1) 8 (x + y) (7 - Z.of_nat (length (t_pad t)))); lia.
Qed.

Lemma wp_tag_type m p ty l (Q : Z → bmem → Prop) :
  bytes m p (le_bytes 4 ty ++ l) → in_u 32 ty → Q ty m → wp (tag_type p) m Q.
Proof.
  intros Hb Hty HQ. unfold tag_type. pose proof (wp_ld32_at m p [] ty l Q Hb Hty HQ) as Hw. by rewrite Z.add_0_r in Hw.
Qed.

Lemma wp_tag_size m p ty n l (Q : Z → bmem → Prop) :
  bytes m p (le_bytes 4 ty ++ le_bytes 4 n ++ l) → in_u 32 n → in_u 64 (p + 4) → Q n m → wp (tag_size p) m Q.
Proof.
  intros Hb Hn Hp HQ. unfold tag_size. rewrite uwrap_id by done.
  by apply (wp_ld32_at m p (le_bytes 4 ty) n l Q Hb Hn HQ).
Qed.

Lemma wp_tag_entry_size m p ty n es l (Q : Z → bmem → Prop) :
  bytes m p (le_bytes 4 ty ++ le_bytes 4 n ++ le_bytes 4 es ++ l) → in_u 32 es → in_u 64 (p + 8) → Q es m →
  wp (tag_entry_size p) m Q.
Proof.
  intros Hb Hn Hp HQ. unfold tag_entry_size. rewrite uwrap_id by done. rewrite (assoc_L (++)) in Hb.
  by apply (wp_ld32_at m p (le_bytes 4 ty ++ le_bytes 4 n) es l Q Hb Hn HQ).
Qed.

Lemma wp_ld_entry m p n e l (Q : mmap_entry → bmem → Prop) :
  bytes m p (enc_entry e ++ l) → entry_ok n e → 0 ≤ p → p + 16 < 2 ^ 64 → Q e.1 m → wp (ld_entry p) m Q.
Proof.
  intros Hb [Ha Hl Ht _] H0 Hp HQ. unfold ld_entry. rewrite !uwrap_id by (unfold in_u; lia).
  unfold enc_entry in Hb. rewrite <-!(assoc_L (++)) in Hb. apply wp_bind.
  assert (p = p + Z.of_nat (@length Z [])) as Hp0 by (simpl; lia). rewrite Hp0 at 1.
  eapply (wp_ld64_at m p []); [exact Hb|done|]. apply wp_bind.
  eapply (wp_ld64_at m p (le_bytes 8 (me_addr e.1))); [exact Hb|done|]. apply wp_bind.
  rewrite (assoc_L (++)) in Hb.
  eapply (wp_ld32_at m p (le_bytes 8 (me_addr e.1) ++ le_bytes 8 (me_len e.1))); [exact Hb|done|]. apply wp_ret.
  by destruct e as [[] ?].
Qed.

Lemma wp_find_mmap_tag m a ts ty l (Q : Z → bmem → Prop) :
  info_at m a ts (le_bytes 4 ty ++ l) → ty = MULTIBOOT_TAG_TYPE_END ∨ ty = MULTIBOOT_TAG_TYPE_MMAP →
  Q (a + 8 + Z.of_nat (length (mjoin (enc_tag <$> ts)))) m → wp (find_mmap_tag a) m Q.
Proof.
  intros [Hal H0 Hh Hok Hb] Hty HQ. assert (in_u 32 ty) by (destruct Hty as [-> | ->]; by vm_compute).
  rewrite length_app in Hh. unfold find_mmap_tag, info_tags. apply wp_bind, wp_get. rewrite uwrap_id by (unfold in_u; lia).
  apply (wp_loop (λ n p m', m' = m ∧ ∃ d r, ts = d ++ r ∧ n = length r ∧
           p = a + 8 + Z.of_nat (length (mjoin (enc_tag <$> d))))) with (n := length ts).
  - intros n p m' (-> & d & r & -> & -> & ->). rewrite fmap_app, join_app, <-(assoc_L (++)) in Hb.
    apply bytes_app in Hb as [_ Hb]. set (p := a + 8 + _) in *. unfold tag_round. apply wp_bind. destruct r as [|t r].
    + eapply wp_tag_type; [exact Hb|done|]. rewrite app_nil_r in HQ. destruct Hty as [-> | ->]; by apply wp_ret.
    + apply Forall_app in Hok as [Hd [Ht Hr]%Forall_cons]. rewrite join_fmap_cons in Hb. unfold enc_tag at 1 in Hb.
      rewrite <-!(assoc_L (++)) in Hb. eapply wp_tag_type; [exact Hb|apply Ht|].
      rewrite (proj2 (Z.eqb_neq _ _) (ok_end _ Ht)), (proj2 (Z.eqb_neq _ _) (ok_mmap _ Ht)). simpl orb. cbv iota.
      rewrite fmap_app, join_app, join_fmap_cons, !length_app in Hh.
      pose proof (length_enc_tag t). pose proof (ok_length _ Ht). assert (8 ≤ tag_length t) by (unfold tag_length; lia).
      apply wp_bind. eapply wp_tag_size; [exact Hb|unfold in_u; lia|unfold in_u; lia|]. apply wp_ret.
      rewrite next_tag; [|done|lia| |lia].
      * exists (length r). split; [simpl; lia|]. split; [done|]. exists (d ++ [t]), r. rewrite <-(assoc_L (++)). split_and!; [done|done|].
        rewrite fmap_app, join_app, length_app, join_fmap_cons, app_nil_r. lia.
      * unfold p. rewrite Z.add_mod, (enc_tags_align _ Hd), Z.add_0_r, Z.mod_mod, Z.add_mod, Hal by lia. done.
  - split; [done|]. exists [], ts. split_and!; [done|done|simpl; lia].
  - apply bytes_size in Hb. rewrite length_app in Hb. pose proof (enc_tags_count ts). lia.
Qed.

(** ** Filling the arrays *)

(** What a map says: bytes for the kernel to use, and bytes that are not. *)
Definition in_entry (e : mmap_entry) (x : Z) : Prop := me_addr e ≤ x < me_addr e + me_len e.
Definition usable (kern_end : Z) (e : mmap_entry) (x : Z) : Prop :=
  in_entry e x ∧ me_type e = MULTIBOOT_MEMORY_AVAILABLE ∧ kern_end ≤ x.
Definition withheld (kern_end : Z) (e : mmap_entry) (x : Z) : Prop :=
  in_entry e x ∧ (me_type e ≠ MULTIBOOT_MEMORY_AVAILABLE ∨ x < kern_end).

(** Entries in order, apart from each other and inside the address space. *)
Fixpoint ascending (lo : Z) (es : list mmap_entry) : Prop :=
  match es with
  | [] => True
  | e :: es => lo ≤ me_addr e ∧ 0 < me_len e ∧ me_addr e + me_len e < 2 ^ 64 ∧ ascending (me_addr e + me_len e) es
  end.

Lemma some_cons {A} (P : A → Prop) x l : (∃ y, y ∈ x :: l ∧ P y) ↔ P x ∨ ∃ y, y ∈ l ∧ P y.
Proof. setoid_rewrite elem_of_cons. naive_solver. Qed.

(** At most [n] regions, which end at [lo] and cover the bytes in [P]. *)
Definition holds (t : mmap_type) (n : nat) (lo : Z) (P : Z → Prop) : Prop :=
  ∃ v rest, arr t v rest ∧ sorted_from (-1) v ∧ (length v ≤ n)%nat ∧ (∀ r, r ∈ v → rend r ≤ lo) ∧ ∀ x, covers v x ↔ P x.

Lemma holds_mono t n lo P n' lo' P' :
  holds t n lo P → (n ≤ n')%nat → lo ≤ lo' → (∀ x, P x ↔ P' x) → holds t n' lo' P'.
Proof.
  intros (v & rest & Ha & Hs & Hn & Hr & Hc) ? ? HP. exists v, rest. split_and!; [done|done|lia| |].
  - intros r Hin. specialize (Hr r Hin). lia.
  - intros x. by rewrite Hc.
Qed.

Lemma holds_none t n lo P lo' (P' : Z → Prop) :
  holds t n lo P → lo ≤ lo' → (∀ x, ¬ P' x) → holds t (S n) lo' (λ x, P x ∨ P' x).
Proof. intros Hh Hlo HP. eapply holds_mono; [exact Hh|lia|lia|]. naive_solver. Qed.

Lemma wp_insert_last `{BuildConfig} t n lo P addr k fl :
  holds t n lo P → 0 ≤ lo ≤ addr → 0 ≤ k → addr + k < 2 ^ 64 → (n < 128)%nat →
  wp (mmap_insert_region addr k fl) t (λ _ t', holds t' (S n) (addr + k) (λ x, P x ∨ addr ≤ x < addr + k)).
Proof.
  intros (v & rest & Ha & Hs & Hn & Hr & Hc) Hlo Hk Hhi Hlt. destruct (Z.eq_dec k 0) as [->|Hk0].
  { unfold mmap_insert_region. apply wp_bind, wp_get. rewrite (arr_count _ _ _ Ha).
    apply wp_bind, wp_kassert; [apply Z.leb_le; unfold MMAP_MAX_REGIONS; lia|]. apply wp_ret.
    exists v, rest. split_and!; [done|done|lia| |].
    - intros r Hin. specialize (Hr r Hin). lia.
    - intros x. rewrite Hc. intuition lia. }
  assert (insertable v addr k) as Hi.
  { split; [lia|lia|done| |].
    - intros r Hin. right. specialize (Hr r Hin). lia.
    - intros r Hin He. specialize (Hr r Hin). destruct (sorted_from_lower _ _ r Hs Hin) as (_ & ? & _). unfold rend in Hr. lia. }
  eapply wp_mmap_insert_region; [done|done|lia|done|lia|]. intros t' rest' Ha'.
  assert (∀ x, covers (region_insert addr k fl v) x ↔ P x ∨ addr ≤ x < addr + k) as Hc'.
  { intros x. rewrite region_insert_covers by done. by rewrite Hc. }
  assert (sorted_from (-1) (region_insert addr k fl v)) as Hs' by (apply region_insert_sorted; [done|done|lia]).
  exists (region_insert addr k fl v), rest'. split_and!; [done|done| | |done].
  - pose proof (region_insert_length addr k fl v). lia.
  - intros r Hin. destruct (sorted_from_lower _ _ r Hs' Hin) as (_ & Hp & _).
    assert (covers (region_insert addr k fl v) (rend r - 1)) as Hl by (exists r; split; [done|unfold rend; lia]).
    apply Hc' in Hl as [(q & Hq & Hqr)%Hc|]; [|lia]. specialize (Hr q Hq). lia.
Qed.

Lemma wp_insert_iff `{BuildConfig} t n lo P addr k fl hi (P' : Z → Prop) :
  holds t n lo P → 0 ≤ lo ≤ addr → 0 ≤ k → addr + k ≤ hi < 2 ^ 64 → (n < 128)%nat → (∀ x, addr ≤ x < addr + k ↔ P' x) →
  wp (mmap_insert_region addr k fl) t (λ _ t', holds t' (S n) hi (λ x, P x ∨ P' x)).
Proof.
  intros Hh Hlo Hk Hhi Hn HP. eapply wp_mono; [apply (wp_insert_last t n lo P); [done|lia..]|]. intros ? t' Ht.
  eapply holds_mono; [exact Ht|lia|lia|]. intros y. specialize (HP y). tauto.
Qed.

Section fill.
Context `{BuildConfig} (kern_end : Z).
Hypothesis Hkern : 0 ≤ kern_end < 2 ^ 64.

(** One entry adds its bytes to the two arrays. *)
Lemma wp_init_entry m n lo PA PR e :
  holds (available m) n lo PA → holds (reserved m) n lo PR → 0 ≤ lo → (n < 128)%nat →
  lo ≤ me_addr e → 0 < me_len e → me_addr e + me_len e < 2 ^ 64 →
  wp (init_entry kern_end e) m (λ _ m',
    holds (available m') (S n) (me_addr e + me_len e) (λ x, PA x ∨ usable kern_end e x) ∧
    holds (reserved m') (S n) (me_addr e + me_len e) (λ x, PR x ∨ withheld kern_end e x)).
Proof using Hkern.
  intros HA HR H0 Hn Hlo Hl Hhi. unfold init_entry.
  destruct (Z.eqb_spec (me_type e) MULTIBOOT_MEMORY_AVAILABLE) as [Ht|Ht].
  2: { apply wp_on_reserved. eapply wp_mono; [eapply (wp_insert_iff _ n lo PR) with (hi := me_addr e + me_len e) (P' := withheld kern_end e); [exact HR|lia..|]|].
       - intros x. unfold withheld, in_entry. intuition.
       - intros ? t Hh. split; [eapply holds_none; [done|lia|unfold usable; naive_solver]|exact Hh]. }
  rewrite uwrap_id by (unfold in_u; lia). destruct (Z.ltb_spec (me_addr e + me_len e) kern_end).
  { apply wp_on_reserved. eapply wp_mono; [eapply (wp_insert_iff _ n lo PR) with (hi := me_addr e + me_len e) (P' := withheld kern_end e); [exact HR|lia..|]|].
    - intros x. unfold usable, withheld, in_entry. lia.
    - intros ? t Hh. split; [eapply holds_none; [done|lia|unfold usable, withheld, in_entry; lia]|exact Hh]. }
  destruct (Z.ltb_spec (me_addr e) kern_end).
  - rewrite (uwrap_id 64 (kern_end - me_addr e)), uwrap_id by (unfold in_u; lia).
    apply wp_bind, wp_on_reserved. eapply wp_mono; [eapply (wp_insert_iff _ n lo PR) with (hi := me_addr e + me_len e) (P' := withheld kern_end e); [exact HR|lia..|]|].
    + intros x. unfold usable, withheld, in_entry. lia.
    + intros ? t Hh. apply wp_on_available. eapply wp_mono; [eapply (wp_insert_iff _ n lo PA) with (hi := me_addr e + me_len e) (P' := usable kern_end e); [exact HA|lia..|]|].
      * intros y. unfold usable, withheld, in_entry. lia.
      * intros ? t' Hh'. by split.
  - apply wp_on_available. eapply wp_mono; [eapply (wp_insert_iff _ n lo PA) with (hi := me_addr e + me_len e) (P' := usable kern_end e); [exact HA|lia..|]|].
    + intros x. unfold usable, withheld, in_entry. lia.
    + intros ? t Hh. split; [exact Hh|eapply holds_none; [done|lia|unfold usable, withheld, in_entry; lia]].
Qed.

(** So the list of entries splits memory into the two arrays. *)
Lemma wp_mmap_init es : ∀ m n lo PA PR,
  holds (available m) n lo PA → holds (reserved m) n lo PR → 0 ≤ lo → ascending lo es → (n + length es ≤ 128)%nat →
  wp (mmap_init kern_end es) m (λ _ m', highest_mapped m' = KERNEL_PHYS_MAP_END ∧ ∃ hi,
    holds (available m') 128 hi (λ x, PA x ∨ ∃ e, e ∈ es ∧ usable kern_end e x) ∧
    holds (reserved m') 128 hi (λ x, PR x ∨ ∃ e, e ∈ es ∧ withheld kern_end e x)).
Proof using Hkern.
  induction es as [|e es IH]; intros m n lo PA PR HA HR H0 Has Hn; simpl.
  - apply wp_modify. split; [done|]. exists lo. simpl in *.
    split; (eapply holds_mono; [eassumption|lia|lia|]); intros x; split; [by left| |by left|];
      intros [?|(e & ?%elem_of_nil & _)]; done.
  - simpl in Has, Hn. destruct Has as (? & ? & ? & Has). apply wp_bind.
    eapply wp_mono; [eapply wp_init_entry; [done|done|lia..]|]. intros ? m' [HA' HR'].
    eapply wp_mono; [eapply IH; [exact HA'|exact HR'|lia|done|lia]|]. intros ? m'' (Hm & hi & HA'' & HR'').
    split; [done|]. exists hi.
    split; (eapply holds_mono; [eassumption|lia|lia|]); intros y; cbv beta; rewrite some_cons; tauto.
Qed.
End fill.

(** ** The bytes stand for the list *)

Lemma wp_on_mboot {A} (m : B A) s (Q : A → boot_info → Prop) :
  wp m (mboot s) (λ x b, b = mboot s ∧ Q x s) → wp (on_mboot m) s Q.
Proof. intros Hw. apply wp_zoom. eapply wp_mono; [exact Hw|]. intros x b [-> HQ]. by destruct s. Qed.

Lemma wp_entries `{BuildConfig} kern_end p n es s (Q : unit → mmap → Prop) :
  bytes (mboot s) (p + 16) (mjoin (enc_entry <$> es)) → Forall (entry_ok n) es → 20 ≤ n < 2 ^ 32 →
  0 ≤ p → p + map_length n es + n < 2 ^ 64 → wp (mmap_init kern_end es.*1) (mem_map s) Q →
  wp (loop (S (size (mboot s) + 128)) (entry_round kern_end (u64 (p + map_length n es)) n) (tag_entries p);;
      on_map (modify (λ m, mk_mmap KERNEL_PHYS_MAP_END (available m) (reserved m)))) s
    (λ _ s', mboot s' = mboot s ∧ Q tt (mem_map s')).
Proof.
  intros Hb Hok Hn H0 Hh HQ. unfold map_length, tag_entries in *. rewrite !uwrap_id by (unfold in_u; lia). apply wp_bind.
  apply (wp_loop (λ k q s', mboot s' = mboot s ∧ ∃ d r, es = d ++ r ∧ k = length r ∧ q = p + 16 + n * Z.of_nat (length d) ∧
           wp (mmap_init kern_end r.*1) (mem_map s') Q)) with (n := length es).
  - intros k q s' (Hs & d & r & -> & -> & -> & Hw). unfold entry_round. rewrite length_app in *.
    destruct r as [|e r]; simpl length in *.
    + rewrite (proj2 (Z.ltb_ge _ _)) by lia. apply wp_ret. apply wp_zoom. by split.
    + apply Forall_app in Hok as [Hd [He _]%Forall_cons]. rewrite (proj2 (Z.ltb_lt _ _)) by nia.
      rewrite fmap_app, join_app, join_fmap_cons in Hb. apply bytes_app in Hb as [_ Hb]. rewrite (enc_entries_length n) in Hb by done.
      apply wp_bind, wp_on_mboot. rewrite Hs. eapply wp_ld_entry; [exact Hb|exact He|nia|nia|]. split; [done|].
      simpl in Hw. apply wp_bind_inv in Hw. apply wp_bind, wp_zoom. eapply wp_mono; [exact Hw|]. intros ? m' Hm'. apply wp_ret.
      rewrite uwrap_id by (unfold in_u; nia). exists (length r). split; [lia|]. split; [done|].
      exists (d ++ [e]), r. rewrite <-(assoc_L (++)). split_and!; [done|done| |done]. rewrite length_app. simpl. lia.
  - split; [done|]. exists [], es. split_and!; [done|done|simpl; lia|done].
  - apply bytes_size in Hb. pose proof (enc_entries_length n es Hok). nia.
Qed.

(** [mmap_init] on the bytes does what it does on the list. *)
Lemma mboot_mmap_init_refines `{BuildConfig} kern_end a ts n version es s (Q : unit → mmap → Prop) :
  info_at (mboot s) a ts (enc_map n version es) → Forall (entry_ok n) es → 20 ≤ n < 2 ^ 32 → map_length n es < 2 ^ 32 →
  a + 8 + Z.of_nat (length (mjoin (enc_tag <$> ts))) + map_length n es + n < 2 ^ 64 →
  wp (mmap_init kern_end es.*1) (mem_map s) Q →
  wp (mboot_mmap_init kern_end a) s (λ _ s', mboot s' = mboot s ∧ Q tt (mem_map s')).
Proof.
  intros Hi Hok Hn Hl Hh HQ. pose proof (at_low _ _ _ _ Hi) as H0. unfold mboot_mmap_init. apply wp_bind, wp_on_mboot.
  eapply wp_find_mmap_tag; [exact Hi|by right|]. split; [done|].
  pose proof (at_bytes _ _ _ _ Hi) as Hb. apply bytes_app in Hb as [_ Hb]. set (p := a + 8 + _) in *. unfold enc_map in Hb.
  assert (0 ≤ p) by lia. assert (16 ≤ map_length n es) by (unfold map_length; nia).
  apply wp_bind, wp_on_mboot. eapply wp_tag_type; [exact Hb|by vm_compute|]. split; [done|]. simpl negb. cbv iota.
  apply wp_bind, wp_on_mboot. eapply wp_tag_entry_size; [exact Hb|unfold in_u; lia..|]. split; [done|].
  apply wp_bind, wp_on_mboot. eapply wp_tag_size; [exact Hb|unfold in_u; lia..|]. split; [done|].
  apply wp_bind, wp_get. apply wp_entries; [|done|done|done|done|done].
  rewrite !(assoc_L (++)) in Hb. by apply bytes_app in Hb as [_ Hb].
Qed.

(** ** Theorems *)

(** C35: For Multiboot information that lies in memory as the standard says, with
    any tags before the memory map, any entry size of at least 20 bytes and at
    most 128 entries, which are in ascending order and do not overlap (the
    standard does not ask for this), [mmap_init] ends; the available array covers
    exactly the bytes of available entries from the end of the kernel on, the
    reserved array exactly the other bytes of the map, and both arrays are
    sorted with no regions that overlap or touch. *)
Theorem mboot_mmap_init_correct `{BuildConfig} kern_end a ts n version es s ra rr :
  info_at (mboot s) a ts (enc_map n version es) → Forall (entry_ok n) es → 20 ≤ n < 2 ^ 32 → map_length n es < 2 ^ 32 →
  a + 8 + Z.of_nat (length (mjoin (enc_tag <$> ts))) + map_length n es + n < 2 ^ 64 →
  0 ≤ kern_end < 2 ^ 64 → ascending 0 es.*1 → (length es ≤ 128)%nat →
  arr (available (mem_map s)) [] ra → arr (reserved (mem_map s)) [] rr →
  wp (mboot_mmap_init kern_end a) s (λ _ s', mboot s' = mboot s ∧
    highest_mapped (mem_map s') = KERNEL_PHYS_MAP_END ∧
    ∃ va ra' vr rr', arr (available (mem_map s')) va ra' ∧ arr (reserved (mem_map s')) vr rr' ∧
      sorted_from (-1) va ∧ sorted_from (-1) vr ∧
      (∀ x, covers va x ↔ ∃ e, e ∈ es.*1 ∧ usable kern_end e x) ∧
      (∀ x, covers vr x ↔ ∃ e, e ∈ es.*1 ∧ withheld kern_end e x)).
Proof.
  intros Hi Hok Hn Hl Hh Hk Has Hlen Ha Hr.
  assert (∀ t rest, arr t [] rest → holds t 0 0 (λ _, False)) as Hempty.
  { intros t rest Ht. exists [], rest. split_and!; [done|done|done|by intros ? ?%elem_of_nil|apply covers_nil]. }
  pose proof (wp_mmap_init kern_end Hk es.*1 (mem_map s) 0 0 _ _ (Hempty _ _ Ha) (Hempty _ _ Hr) ltac:(lia) Has
    ltac:(rewrite length_fmap; lia)) as Hw.
  eapply wp_mono; [exact (mboot_mmap_init_refines kern_end a ts n version es s _ Hi Hok Hn Hl Hh Hw)|].
  intros ? s' (Hs & Hm & hi & (va & ra' & Ha' & Hsa & _ & _ & Hca) & (vr & rr' & Hr' & Hsr & _ & _ & Hcr)).
  split_and!; [done|done|].
  exists va, ra', vr, rr'. split_and!; [done..|intros y; rewrite Hca|intros y; rewrite Hcr]; tauto.
Qed.

Module MultibootDemo.
Definition loader : tag := mk_tag 1 [99; 111; 110] [0; 0; 0; 0; 0].
Definition entries : list (mmap_entry * list Z) :=
  [(mk_entry 0 0x9f000 1, [0; 0; 0; 0]); (mk_entry 0xf0000 0x10000 2, [0; 0; 0; 0]);
   (mk_entry 0x100000 0x700000 1, [0; 0; 0; 0])].
Definition info : list Z := enc_tag loader ++ enc_map 24 0 entries.
Definition mem (l : list Z) : bmem := list_to_map (imap (λ i x, (0x2008 + Z.of_nat i, x)) l).
Definition start (l : list Z) : boot_info :=
  mk_boot_info (mem l) (mk_mmap 0 (MmapDemo.array []) (MmapDemo.array [])).

Lemma loader_ok : tag_ok loader.
Proof. split; [done|done|done|done|simpl; lia|done]. Qed.
Lemma entries_ok : Forall (entry_ok 24) entries.
Proof. repeat (constructor; [by split; vm_compute|]). constructor. Qed.
Lemma info_ok : info_at (mem info) 0x2000 [loader] (enc_map 24 0 entries).
Proof. split; [done|done|by vm_compute|constructor; [apply loader_ok|done]|]. apply bytes_b_sound. by vm_compute. Qed.
End MultibootDemo.

Lemma mboot_mmap_init_correct_witness :
  wp (mboot_mmap_init (H := debug_build) 0x300000 0x2000) (MultibootDemo.start MultibootDemo.info)
    (λ _ s', highest_mapped (mem_map s') = KERNEL_PHYS_MAP_END).
Proof.
  eapply wp_mono.
  - eapply (mboot_mmap_init_correct (H := debug_build) 0x300000 0x2000 [MultibootDemo.loader] 24 0 MultibootDemo.entries
             (MultibootDemo.start MultibootDemo.info));
      [exact MultibootDemo.info_ok|exact MultibootDemo.entries_ok|lia|done|done|lia|by vm_compute|simpl; lia|
       apply MmapDemo.array_ok; simpl; lia|apply MmapDemo.array_ok; simpl; lia].
  - by intros ? s' (_ & ? & _).
Defined.

(** Without a memory map before the last tag, [mmap_init] stops the kernel
    with a panic. *)
Theorem mboot_mmap_init_panics `{BuildConfig} kern_end a ts l s :
  info_at (mboot s) a ts (le_bytes 4 MULTIBOOT_TAG_TYPE_END ++ l) → mboot_mmap_init kern_end a s = Panic.
Proof.
  intros Hi. unfold mboot_mmap_init. apply wp_panic, wp_on_mboot.
  eapply wp_find_mmap_tag; [exact Hi|by left|]. split; [done|].
  pose proof (at_bytes _ _ _ _ Hi) as Hb. apply bytes_app in Hb as [_ Hb].
  apply wp_panic, wp_on_mboot. eapply wp_tag_type; [exact Hb|by vm_compute|]. by split.
Qed.

Lemma mboot_mmap_init_panics_witness :
  mboot_mmap_init (H := debug_build) 0x300000 0x2000
    (MultibootDemo.start (enc_tag MultibootDemo.loader ++ le_bytes 4 MULTIBOOT_TAG_TYPE_END ++ le_bytes 4 8)) = Panic.
Proof.
  apply (mboot_mmap_init_panics (H := debug_build) 0x300000 0x2000 [MultibootDemo.loader] (le_bytes 4 8)).
  split; [done|done|by vm_compute|constructor; [apply MultibootDemo.loader_ok|done]|]. apply bytes_b_sound. by vm_compute.
Defined.
