(* ===== verification/Vmm.v ===== *)
(** * Virtual memory: page tables and copy-on-write, code

    kernel/mm/vmm.c, kernel/mm/cow.c, and the page table half of
    kernel/mm/mmu.c, with [pgtab_extract_virt_addr] of include/mm.h.  Page
    tables are kept by physical address; the kernel reaches them through the
    logical map or, for the first one, through its own text mapping.  The
    bytes of a frame are one abstract value, so that copying a frame can be
    told from sharing it. *)

From stdpp Require Import base list gmap.
From Stdlib Require Import ZArith Lia Bool.
From S2P Require Import Prelude Addr Pmm Mmap.
Local Open Scope Z_scope.

(** ** include/mm.h *)

Definition PAGE_PRESENT : Z := Z.shiftl 1 0.
Definition PAGE_WRITABLE : Z := Z.shiftl 1 1.
Definition PAGE_USER_ACCESSIBLE : Z := Z.shiftl 1 2.
Definition PAGE_GLOBAL : Z := Z.shiftl 1 8.
Definition PAGE_COW : Z := Z.shiftl 1 9.
Definition PAGE_EXECUTABLE : Z := Z.shiftl 1 63.
Definition VMM_ALLOC_MMAP : Z := Z.shiftl 1 15.
Definition VMM_UNMAP : Z := Z.shiftl 1 16.
Definition PTE_ADDR_MASK : Z := u64 (Z.lnot 0xFFF0000000000FFF).
Definition not64 (x : Z) : Z := u64 (Z.lnot x).

(** ** State *)

(** The fields of [struct mmu_info] that paging uses. *)
Record mmu_pt := mk_mpt {
  m_p4 : Z;
  m_users : Z;
  readers : Z;
  rd_lock : Z;
  wr_lock : Z
}.
Definition mpt_set_p4 v m := mk_mpt v (m_users m) (readers m) (rd_lock m) (wr_lock m).
Definition mpt_set_users v m := mk_mpt (m_p4 m) v (readers m) (rd_lock m) (wr_lock m).
Definition mpt_set_readers v m := mk_mpt (m_p4 m) (m_users m) v (rd_lock m) (wr_lock m).
Definition mpt_set_rd v m := mk_mpt (m_p4 m) (m_users m) (readers m) v (wr_lock m).
Definition mpt_set_wr v m := mk_mpt (m_p4 m) (m_users m) (readers m) (rd_lock m) v.

(** What has been done to this CPU's TLB. *)
Inductive tlb_event := FlushSingle (va : Z) | FlushAll.

Record vstate := mk_vstate {
  pt : gmap Z (list Z);       (* page tables by physical address *)
  mem : gmap Z Z;             (* contents of frames by physical address *)
  vpm : pstate;               (* the buddy allocator *)
  vmap : mmap;                (* the boot memory map *)
  mpts : gmap Z mmu_pt;
  vcr3 : Z;
  flushed : list tlb_event    (* latest first *)
}.
Definition upd_pt f s := mk_vstate (f (pt s)) (mem s) (vpm s) (vmap s) (mpts s) (vcr3 s) (flushed s).
Definition upd_mem f s := mk_vstate (pt s) (f (mem s)) (vpm s) (vmap s) (mpts s) (vcr3 s) (flushed s).
Definition upd_vpm v s := mk_vstate (pt s) (mem s) v (vmap s) (mpts s) (vcr3 s) (flushed s).
Definition upd_vmap v s := mk_vstate (pt s) (mem s) (vpm s) v (mpts s) (vcr3 s) (flushed s).
Definition upd_mpts f s := mk_vstate (pt s) (mem s) (vpm s) (vmap s) (f (mpts s)) (vcr3 s) (flushed s).
Definition upd_vcr3 v s := mk_vstate (pt s) (mem s) (vpm s) (vmap s) (mpts s) v (flushed s).
Definition upd_flushed f s := mk_vstate (pt s) (mem s) (vpm s) (vmap s) (mpts s) (vcr3 s) (f (flushed s)).

Abbreviation V := (M vstate).
Definition rd_mpt : Z → V mmu_pt := deref mpts.
Definition wr_mpt : Z → (mmu_pt → mmu_pt) → V unit := store mpts upd_mpts.

(** ** Access to page tables *)

(** The frame behind a kernel pointer. *)
Definition tab_phys (v : Z) : Z :=
  if v <? KERNEL_TEXT_BASE then u64 (v - KERNEL_LOGICAL_BASE) else u64 (v - KERNEL_TEXT_BASE).

(** [tab->pages[i]] *)
Definition rd_pte (tab i : Z) : V Z :=
  s ← get;
  if tab =? NULL then fault
  else match pt s !! tab_phys tab with
       | Some l => match l !! Z.to_nat i with Some e => mret e | None => fault end
       | None => fault
       end.
Definition wr_pte (tab i v : Z) : V unit :=
  rd_pte tab i;;
  modify (upd_pt (alter <[Z.to_nat i := v]> (tab_phys tab))).

(** [memset(tab, 0, sizeof(struct page_table))] *)
Definition empty_table : list Z := replicate 512 0.
Arguments empty_table : simpl never.
Definition zero_table (tab : Z) : V unit :=
  modify (upd_pt <[tab_phys tab := empty_table]>).

(** A [pte_t *] is an address in a table. *)
Definition pte_addr (tab i : Z) : Z := u64 (tab + 8 * i).
Definition pte_tab (p : Z) : Z := p - p mod PAGE_SIZE.
Definition pte_index (p : Z) : Z := p mod PAGE_SIZE / 8.
Definition rd_ptep (p : Z) : V Z := if p =? NULL then fault else rd_pte (pte_tab p) (pte_index p).
Definition wr_ptep (p v : Z) : V unit := if p =? NULL then fault else wr_pte (pte_tab p) (pte_index p) v.

Definition pgtab_extract_virt_addr (pgtab index : Z) : V Z :=
  entry ← rd_pte pgtab index;
  mret (if Z.land entry PAGE_PRESENT =? 0 then NULL else phys_to_virt (Z.land entry PTE_ADDR_MASK)).

Definition tlb_flush_single (va : Z) : V unit := modify (upd_flushed (cons (FlushSingle va))).
(** Loading CR3 flushes the TLB. *)
Definition write_cr3 (v : Z) : V unit := modify (upd_vcr3 v);; modify (upd_flushed (cons FlushAll)).
Definition tlb_flush_all : V unit := s ← get; write_cr3 (vcr3 s).

(** ** The page table lock, as one CPU sees it *)

Definition write_spin_lock (mmu : Z) : V unit :=
  m ← rd_mpt mmu; if wr_lock m =? 0 then wr_mpt mmu (mpt_set_wr 1) else diverge.
Definition write_spin_unlock (mmu : Z) : V unit := wr_mpt mmu (mpt_set_wr 0).

Definition lock_rd (mmu : Z) : V unit :=
  m ← rd_mpt mmu; if rd_lock m =? 0 then wr_mpt mmu (mpt_set_rd 1) else diverge.

Definition read_spin_lock (mmu : Z) : V unit :=
  lock_rd mmu;;
  wr_mpt mmu (λ m, mpt_set_readers (u64 (readers m + 1)) m);;
  m ← rd_mpt mmu;
  (if readers m =? 1 then write_spin_lock mmu else mret tt);;
  wr_mpt mmu (mpt_set_rd 0).

Definition read_spin_unlock (mmu : Z) : V unit :=
  lock_rd mmu;;
  wr_mpt mmu (λ m, mpt_set_readers (u64 (readers m - 1)) m);;
  m ← rd_mpt mmu;
  (if readers m =? 0 then write_spin_unlock mmu else mret tt);;
  wr_mpt mmu (mpt_set_rd 0).

(** ** kernel/mm/vmm.c *)

Definition P4_ADDR_SHIFT : Z := 39.
Definition P3_ADDR_SHIFT : Z := 30.
Definition P2_ADDR_SHIFT : Z := 21.
Definition P1_ADDR_SHIFT : Z := 12.

(** [(va & Pn_ADDR_MASK) >> Pn_ADDR_SHIFT] *)
Definition table_index (shift va : Z) : Z := Z.shiftr (Z.land va (Z.shiftl 0x1FF shift)) shift.

Section vmm.
Context `{BuildConfig}.

(** A frame for a page table: from the boot map or from the buddy allocator. *)
Definition pgtab_frame (alloc_flags : Z) : V Z :=
  if negb (Z.land alloc_flags VMM_ALLOC_MMAP =? 0) then
    rg ← zoom vmap upd_vmap (mmap_alloc_low PAGE_SIZE MMAP_ALLOC_PA);
    kassert_dbg (Z.land (base rg) 0xFFF =? 0);;
    mret (base rg)
  else
    p ← zoom vpm upd_vpm (pmm_alloc_order 0 GFP_NONE);
    kassert_dbg (negb (p =? NULL));;
    mret (page_to_phys p).

Definition alloc_pgtab (alloc_flags : Z) : V Z :=
  let flags := Z.lor (Z.lor PAGE_PRESENT PAGE_WRITABLE) (Z.land alloc_flags PAGE_USER_ACCESSIBLE) in
  pgtab_phys ← pgtab_frame alloc_flags;
  mret (Z.lor (Z.land pgtab_phys PTE_ADDR_MASK) flags).

Definition vmm_get_pte (mmu addr : Z) : V Z :=
  m ← rd_mpt mmu;
  p3_table ← pgtab_extract_virt_addr (m_p4 m) (table_index P4_ADDR_SHIFT addr);
  if p3_table =? NULL then mret NULL
  else
    p2_table ← pgtab_extract_virt_addr p3_table (table_index P3_ADDR_SHIFT addr);
    if p2_table =? NULL then mret NULL
    else
      p1_table ← pgtab_extract_virt_addr p2_table (table_index P2_ADDR_SHIFT addr);
      if p1_table =? NULL then mret NULL
      else mret (pte_addr p1_table (table_index P1_ADDR_SHIFT addr)).

Definition vmm_has_flags (mmu addr flags : Z) : V bool :=
  kassert_dbg (negb (addr =? NULL));;
  read_spin_lock mmu;;
  pte ← vmm_get_pte mmu addr;
  if pte =? NULL then read_spin_unlock mmu;; mret false
  else
    e ← rd_ptep pte;
    read_spin_unlock mmu;;
    mret (negb (Z.land e flags =? 0)).

(** The step of [vmm_map_page] from a table to the one below: [None] when
    nothing is mapped there and the page is to be unmapped. *)
Definition next_table (tab index : Z) (unmap : bool) (pgtab_flags : Z) : V (option Z) :=
  t ← pgtab_extract_virt_addr tab index;
  if t =? NULL then
    if unmap then mret None
    else
      e ← alloc_pgtab pgtab_flags;
      wr_pte tab index e;;
      t ← pgtab_extract_virt_addr tab index;
      kassert_dbg (negb (t =? NULL));;
      zero_table t;;
      mret (Some t)
  else mret (Some t).

(** [smp_nr_cpus] and [tlb_shootdown], which needs the other CPUs to run. *)
Context (nr_cpus : Z) (tlb_shootdown : Z → Z → Z → V unit).

(** The entry itself; [flags] has had its executable bit toggled. *)
Definition map_entry (mmu p1_table phys virt : Z) (unmap : bool) (flags : Z) : V unit :=
  let p1_index := table_index P1_ADDR_SHIFT (ALIGNDOWN virt PAGE_SIZE) in
  (if DEBUG then
     if 1 <? nr_cpus then
       e ← rd_pte p1_table p1_index;
       kassert (Z.land e PAGE_GLOBAL =? 0);;
       kassert (Z.land flags PAGE_GLOBAL =? 0);;
       tlb_shootdown mmu virt (u64 (virt + PAGE_SIZE))
     else mret tt
   else mret tt);;
  (if unmap then wr_pte p1_table p1_index 0
   else wr_pte p1_table p1_index
          (Z.lor (Z.lor (Z.land phys PTE_ADDR_MASK) PAGE_PRESENT) (Z.land flags (not64 VMM_ALLOC_MMAP))));;
  tlb_flush_single virt.

Definition vmm_map_page (mmu phys virt flags : Z) : V unit :=
  let va := ALIGNDOWN virt PAGE_SIZE in
  let unmap := negb (Z.land flags VMM_UNMAP =? 0) in
  let lowmem := virt <? KERNEL_LOGICAL_BASE in
  let pgtab_flags := u32 (Z.lor flags (if lowmem then PAGE_USER_ACCESSIBLE else 0)) in
  let flags := Z.lxor flags PAGE_EXECUTABLE in
  write_spin_lock mmu;;
  m ← rd_mpt mmu;
  p3 ← next_table (m_p4 m) (table_index P4_ADDR_SHIFT va) unmap pgtab_flags;
  match p3 with
  | None => write_spin_unlock mmu
  | Some p3_table =>
      p2 ← next_table p3_table (table_index P3_ADDR_SHIFT va) unmap pgtab_flags;
      match p2 with
      | None => write_spin_unlock mmu
      | Some p2_table =>
          p1 ← next_table p2_table (table_index P2_ADDR_SHIFT va) unmap pgtab_flags;
          match p1 with
          | None => write_spin_unlock mmu
          | Some p1_table =>
              map_entry mmu p1_table phys virt unmap flags;;
              write_spin_unlock mmu
          end
      end
  end.

(** [p4_table] and [zero_page] are placed by the linker. *)
Context (kernel_mmu p4_table zero_page : Z).

Definition vmm_init : V unit := wr_mpt kernel_mmu (mpt_set_p4 (phys_to_kern p4_table)).

(** The inner loop of [vmm_map_all]: the pages of one region. *)
Definition map_region (rg : mmap_region) : V unit :=
  let start := ALIGNUP (base rg) PAGE_SIZE in
  let end_ := u64 (base rg + len rg) in
  let last := u64 (end_ - PAGE_SIZE) in
  loop (Z.to_nat (last / PAGE_SIZE) + 2) (λ j,
    if j <=? last then
      vmm_map_page kernel_mmu j (phys_to_virt j) (Z.lor (Z.lor VMM_ALLOC_MMAP PAGE_GLOBAL) PAGE_WRITABLE);;
      modify (λ s, upd_vmap (mk_mmap (MAX j (highest_mapped (vmap s))) (available (vmap s)) (reserved (vmap s))) s);;
      mret (inl (u64 (j + PAGE_SIZE)))
    else mret (inr tt)) start.

(** The map is read again in every round: mapping takes frames from it. *)
Definition vmm_map_all : V unit :=
  loop (Z.to_nat MMAP_MAX_REGIONS + 1) (λ i,
    s ← get;
    if i <? mcount (available (vmap s)) then
      rg ← zoom vmap upd_vmap (on_available (rd_region i));
      map_region rg;;
      mret (inl (i + 1))
    else mret (inr tt)) 0;;
  pte ← vmm_get_pte kernel_mmu zero_page;
  wr_ptep pte 0;;
  wr_mpt kernel_mmu (mpt_set_p4 (phys_to_virt p4_table)).
End vmm.

(** ** kernel/mm/cow.c *)

Definition set_plock v p := mk_page (pg_next p) (pg_prev p) (pg_order p) (refcount p) v.
Definition on_pm {A} (m : P A) : V A := zoom vpm upd_vpm m.

(** include/atomic.h on [page->refcount] *)
Definition kref_inc_read (p : Z) : V Z :=
  on_pm (wr_page p (λ d, set_refcount (u32 (refcount d + 1)) d));;
  d ← on_pm (rd_page p); mret (refcount d).
Definition kref_dec_read (p : Z) : V Z :=
  on_pm (wr_page p (λ d, set_refcount (u32 (refcount d - 1)) d));;
  d ← on_pm (rd_page p); mret (refcount d).

Definition lock_page (p : Z) : V unit :=
  d ← on_pm (rd_page p); if page_lock d =? 0 then on_pm (wr_page p (set_plock 1)) else diverge.
Definition unlock_page (p : Z) : V unit := on_pm (wr_page p (set_plock 0)).

(** [memcpy(phys_to_virt(dest), phys_to_virt(src), PAGE_SIZE)] of two frames. *)
Definition copy_frame (dest src : Z) : V unit :=
  s ← get;
  match mem s !! src with Some c => modify (upd_mem <[dest := c]>) | None => fault end.

Section cow.
Context `{BuildConfig} (kernel_end_phys : Z).

(** [cow_copy_pte]: the value for [*dest]. *)
Definition cow_copy_pte (src : Z) : V Z :=
  e ← rd_ptep src;
  let page := phys_to_page (Z.land e PTE_ADDR_MASK) in
  (if Z.land e PAGE_COW =? 0 then
     wr_ptep src (Z.land e (not64 PAGE_WRITABLE));;
     e ← rd_ptep src;
     wr_ptep src (Z.lor e PAGE_COW);;
     kref_inc_read page;; mret tt
   else kassert_dbg (Z.land e PAGE_WRITABLE =? 0));;
  n ← kref_inc_read page;
  if n =? 0 then panic else rd_ptep src.

Definition cow_handle_write (pte virt : Z) : V bool :=
  if pte =? NULL then mret false
  else
    e ← rd_ptep pte;
    if Z.land e PAGE_COW =? 0 then mret false
    else
      let page := phys_to_page (Z.land e PTE_ADDR_MASK) in
      lock_page page;;
      next_count ← kref_dec_read page;
      (if 0 <? next_count then
         p ← on_pm (pmm_alloc_order 0 GFP_NONE);
         let dest := page_to_phys p in
         e ← rd_ptep pte;
         copy_frame dest (Z.land e PTE_ADDR_MASK);;
         wr_ptep pte (Z.land e (not64 PTE_ADDR_MASK));;
         e ← rd_ptep pte;
         wr_ptep pte (Z.lor e (Z.land dest PTE_ADDR_MASK))
       else mret tt);;
      unlock_page page;;
      e ← rd_ptep pte;
      wr_ptep pte (Z.land e (not64 PAGE_COW));;
      e ← rd_ptep pte;
      wr_ptep pte (Z.lor e PAGE_WRITABLE);;
      tlb_flush_single virt;;
      mret true.

Definition cow_handle_free (pte : Z) : V unit :=
  kassert_dbg (negb (pte =? NULL));;
  e ← rd_ptep pte;
  kassert_dbg (negb (Z.land e PAGE_COW =? 0));;
  let phys := Z.land e PTE_ADDR_MASK in
  if phys <? kernel_end_phys then mret tt
  else
    let page := phys_to_page phys in
    next_count ← kref_dec_read page;
    if next_count =? 0 then on_pm (pmm_free_order page 0) else mret tt.

(** ** kernel/mm/mmu.c: building and tearing down address spaces *)

Fixpoint for_each {A} (l : list A) (f : A → V unit) : V unit :=
  match l with [] => mret tt | x :: l => f x;; for_each l f end.

Definition free_single_page (pte : Z) : V unit :=
  e ← rd_ptep pte;
  let phys := Z.land e PTE_ADDR_MASK in
  (if negb (Z.land e PAGE_COW =? 0) then cow_handle_free pte
   else if kernel_end_phys <? phys then on_pm (pmm_free_order (phys_to_page phys) 0)
   else mret tt);;
  wr_ptep pte 0.

Context (kernel_mmu : Z).

Definition reap_p1 (p1 : Z) : V unit :=
  for_each (seqZ 0 512) (λ i,
    e ← rd_pte p1 i;
    if Z.land e PAGE_PRESENT =? 0 then mret tt else free_single_page (pte_addr p1 i)).

(** One level of the loops: [inner] on each present entry, then the table
    below is freed and the entry cleared. *)
Definition reap_level (tab entries : Z) (inner : Z → V unit) : V unit :=
  for_each (seqZ 0 entries) (λ i,
    below ← pgtab_extract_virt_addr tab i;
    if below =? NULL then mret tt
    else
      inner below;;
      on_pm (pmm_free_order (virt_to_page below) 0);;
      wr_pte tab i 0).

Definition mmu_reap (mmu : Z) : V unit :=
  kassert_dbg (negb (mmu =? kernel_mmu));;
  m ← rd_mpt mmu;
  kassert_dbg (m_users m =? 0);;
  reap_level (m_p4 m) (Z.shiftl 1 7) (λ p3,
    reap_level p3 512 (λ p2,
      reap_level p2 512 reap_p1));;
  k ← rd_mpt kernel_mmu;
  write_cr3 (virt_to_phys (m_p4 k));;
  m ← rd_mpt mmu;
  on_pm (pmm_free_order (virt_to_page (m_p4 m)) 0);;
  wr_mpt mmu (mpt_set_p4 NULL).

(** [copy_kernel_mappings]: all 512 entries. *)
Definition copy_kernel_mappings (p4 : Z) : V unit :=
  k ← rd_mpt kernel_mmu;
  s ← get;
  match pt s !! tab_phys (m_p4 k) with
  | Some l => modify (upd_pt <[tab_phys p4 := l]>)
  | None => fault
  end.

(** [mmu_init], less the clearing of the CPU set. *)
Definition mmu_init (mmu : Z) : V unit :=
  p ← on_pm (pmm_alloc_order 0 GFP_NONE);
  wr_mpt mmu (mpt_set_p4 (page_to_virt p));;
  m ← rd_mpt mmu;
  copy_kernel_mappings (m_p4 m).

Fixpoint clone_pgtab (level : nat) (pgtab : Z) : V Z :=
  match level with
  | O => diverge
  | S below =>
      p ← on_pm (pmm_alloc_order 0 GFP_NONE);
      let rv := page_to_virt p in
      zero_table rv;;
      (if (level =? 4)%nat then copy_kernel_mappings rv else mret tt);;
      for_each (seqZ 0 (if (level =? 4)%nat then Z.shiftl 1 7 else 512)) (λ i,
        e ← rd_pte pgtab i;
        if Z.land e PAGE_PRESENT =? 0 then mret tt
        else if (level =? 1)%nat then
          v ← cow_copy_pte (pte_addr pgtab i);
          wr_pte rv i v
        else
          let flags := Z.land e (not64 PTE_ADDR_MASK) in
          let pgtab_virt := phys_to_virt (Z.land e PTE_ADDR_MASK) in
          kassert_dbg (ISALIGN_POW2 pgtab_virt PAGE_SIZE);;
          t ← clone_pgtab below pgtab_virt;
          wr_pte rv i (Z.lor (virt_to_phys t) flags));;
      mret rv
  end.

Definition mmu_clone_cow (dest mmu : Z) : V unit :=
  (if DEBUG then d ← rd_mpt dest; kassert (m_p4 d =? NULL) else mret tt);;
  write_spin_lock mmu;;
  m ← rd_mpt mmu;
  t ← clone_pgtab 4 (m_p4 m);
  wr_mpt dest (mpt_set_p4 t);;
  write_spin_unlock mmu;;
  tlb_flush_all.
End cow.
