(* ===== verification/VmmSpec.v ===== *)
(** * Virtual memory: page tables, proofs

    The tables of an address space as a tree, the invariant that no table is
    reached along two paths, and the effect of [vmm_map_page] on the
    translation of every address.  The frames for new tables come through an
    interface that the buddy allocator implements. *)

From stdpp Require Import base list gmap.
From Stdlib Require Import ZArith Lia Bool.
From S2P Require Import Prelude Addr Pmm PmmInv PmmAlloc PmmFree PmmSpec Mmap Vmm.
Local Open Scope Z_scope.

(** ** Page table entries *)

Lemma land_mask x : 0 ≤ x → Z.land x PTE_ADDR_MASK = (x / 4096) mod 2 ^ 40 * 4096.
Proof. exact (land_frame_mask x). Qed.

Lemma land_pow2 x k : 0 ≤ k → Z.land x (2 ^ k) = 0 ∨ Z.land x (2 ^ k) = 2 ^ k.
Proof.
  intros Hk. destruct (Z.testbit x k) eqn:E; [right|left]; apply Z.bits_inj'; intros i Hi;
    rewrite Z.land_spec, ?Z.bits_0; destruct (decide (i = k)) as [->|];
    rewrite ?E, ?Z.pow2_bits_true, ?Z.pow2_bits_false, ?andb_false_r by lia; done.
Qed.

(** A frame that an entry can point to. *)
Definition frame_ok (p : Z) : Prop := (4096 | p) ∧ 0 < p < 2 ^ 46.

Lemma mask_frame p fl : frame_ok p → 0 ≤ fl < 4096 →
  Z.land (Z.lor (Z.land p PTE_ADDR_MASK) fl) PTE_ADDR_MASK = p ∧
  Z.land (Z.lor (Z.land p PTE_ADDR_MASK) fl) PAGE_PRESENT = Z.land fl PAGE_PRESENT.
Proof.
  intros [[k ->] Hp] Hfl. rewrite (land_mask (k * 4096)) by lia. rewrite Z.div_mul, (Z.mod_small k) by lia.
  assert (Z.land (k * 4096) fl = 0) as Hz.
  { apply Z.bits_inj'. intros i Hi. rewrite Z.land_spec, Z.bits_0. change 4096 with (2 ^ 12).
    rewrite Z.mul_pow2_bits by lia. destruct (decide (i < 12)); [by rewrite Z.testbit_neg_r by lia|].
    apply andb_false_intro2. rewrite <-(Z.mod_small fl (2 ^ 12)) by lia. apply Z.mod_pow2_bits_high. lia. }
  rewrite <-Z.lxor_lor, <-Z.add_nocarry_lxor by done. split.
  - rewrite land_mask by lia. rewrite Z.div_add_l, (Z.div_small fl), Z.add_0_r by lia. by rewrite Z.mod_small by lia.
  - change PAGE_PRESENT with (Z.ones 1). rewrite !Z.land_ones by lia. change (2 ^ 1) with 2.
    replace (k * 4096 + fl) with (fl + (k * 2048) * 2) by lia. by rewrite Z.mod_add by lia.
Qed.

Lemma tab_phys_virt t : frame_ok t → tab_phys (phys_to_virt t) = t ∧ phys_to_virt t ≠ NULL.
Proof.
  intros [_ Ht]. rewrite phys_to_virt_ok by lia. unfold tab_phys, KERNEL_TEXT_BASE, KERNEL_LOGICAL_BASE.
  destruct (Z.ltb_spec (t + 0xFFFF800000000000) 0xFFFFFFFF80000000); [|lia]. split; [|lia].
  rewrite uwrap_id; unfold in_u; lia.
Qed.

(** ** The tree of tables *)

Definition entry (tabs : gmap Z (list Z)) (t i : Z) : option Z := l ← tabs !! t; l !! Z.to_nat i.
Definition present (e : Z) : bool := negb (Z.land e PAGE_PRESENT =? 0).
Definition paddr (e : Z) : Z := Z.land e PTE_ADDR_MASK.

(** The table reached from [t] along a path of indices. *)
Fixpoint follow (tabs : gmap Z (list Z)) (t : Z) (path : list Z) : option Z :=
  match path with
  | [] => Some t
  | i :: path =>
      match entry tabs t i with
      | Some e => if present e then follow tabs (paddr e) path else None
      | None => None
      end
  end.

Lemma follow_app tabs t p q : follow tabs t (p ++ q) = follow tabs t p ≫= λ t', follow tabs t' q.
Proof.
  revert t. induction p as [|i p IH]; intros t; [done|]. simpl.
  destruct (entry tabs t i) as [e|]; [|done]. destruct (present e); [apply IH|done].
Qed.

Definition idx_ok (i : Z) : Prop := 0 ≤ i < 512.

(** boot.asm enters its [p2_table] twice, for the kernel's text (entry 510 below
    entry 511) and for the first gigabyte of the physical map (entry 0 below
    entry 256), and every address space copies these two entries of the top
    table.  A path is [unshared] when it does not lead through either. *)
Definition unshared (p : list Z) : Prop := ¬ [256; 0] `prefix_of` p ∧ ¬ [511; 510] `prefix_of` p.

#[export] Instance unshared_dec p : Decision (unshared p).
Proof. unfold unshared. apply _. Defined.

Lemma unshared_prefix p q : unshared q → p `prefix_of` q → unshared p.
Proof. intros [H1 H2] Hp. split; intros H; [apply H1|apply H2]; by etrans. Qed.

Lemma unshared_short p : (length p < 2)%nat → unshared p.
Proof. intros Hp. split; intros H%prefix_length; simpl in H; lia. Qed.

(** The tables of an address space: each has 512 entries, none that is reached
    along an unshared path is reached along another one, and none is among the
    free frames [X]. *)
Record tables_ok (tabs : gmap Z (list Z)) (root : Z) (X : Z → Prop) : Prop := {
  to_table : ∀ p t, (length p ≤ 3)%nat → Forall idx_ok p → follow tabs root p = Some t →
    ∃ l, tabs !! t = Some l ∧ length l = 512%nat;
  to_frame : ∀ p t, (0 < length p ≤ 3)%nat → Forall idx_ok p → follow tabs root p = Some t → frame_ok t;
  to_inj : ∀ p q t, unshared p → (length p ≤ 3)%nat → (length q ≤ 3)%nat → Forall idx_ok p → Forall idx_ok q →
    follow tabs root p = Some t → follow tabs root q = Some t → q = p;
  to_used : ∀ p t, (length p ≤ 3)%nat → Forall idx_ok p → follow tabs root p = Some t → ¬ X t
}.

Lemma tables_ok_free tabs root (X X' : Z → Prop) : tables_ok tabs root X → (∀ q, X' q → X q) → tables_ok tabs root X'.
Proof. intros [] HX. split; try done. intros p t Hp Hpi Hf Ht. by eapply to_used0; [..|apply HX]. Qed.

(** The entry that translates an address, 0 when a table is missing. *)
Definition path_of (va : Z) : list Z :=
  [table_index P4_ADDR_SHIFT va; table_index P3_ADDR_SHIFT va; table_index P2_ADDR_SHIFT va].
Definition pte_of (tabs : gmap Z (list Z)) (root va : Z) : Z :=
  match follow tabs root (path_of va) with
  | Some t => default 0 (entry tabs t (table_index P1_ADDR_SHIFT va))
  | None => 0
  end.

(** The page number an address translates through: bits 12 to 47. *)
Definition vpn (va : Z) : Z := (va / 4096) mod 2 ^ 36.

Lemma table_index_div sh va : 0 ≤ sh → 0 ≤ va → table_index sh va = (va / 2 ^ sh) mod 512.
Proof.
  intros Hs Hva. unfold table_index. change 0x1FF with (Z.ones 9). change 512 with (2 ^ 9).
  rewrite <-Z.shiftr_div_pow2, <-Z.land_ones by lia. apply Z.bits_inj'. intros i Hi.
  rewrite Z.shiftr_spec, !Z.land_spec, Z.shiftl_spec, Z.shiftr_spec by lia. f_equal. f_equal. lia.
Qed.

Lemma table_index_ok sh va : 0 ≤ sh → 0 ≤ va → idx_ok (table_index sh va).
Proof. intros. rewrite table_index_div by done. unfold idx_ok. apply Z.mod_pos_bound. lia. Qed.

Lemma path_of_ok va : 0 ≤ va → Forall idx_ok (path_of va).
Proof. intros. repeat constructor; try apply table_index_ok; done. Qed.

Lemma vpn_indices va va' : 0 ≤ va → 0 ≤ va' →
  path_of va = path_of va' → table_index P1_ADDR_SHIFT va = table_index P1_ADDR_SHIFT va' → vpn va = vpn va'.
Proof.
  intros H H' [= H4 H3 H2] H1. unfold P4_ADDR_SHIFT, P3_ADDR_SHIFT, P2_ADDR_SHIFT, P1_ADDR_SHIFT in *.
  rewrite !table_index_div in * by lia. unfold vpn.
  assert (∀ v, 0 ≤ v → (v / 4096) mod 2 ^ 36 =
    (v / 2 ^ 12) mod 512 + 512 * ((v / 2 ^ 21) mod 512) + 512 ^ 2 * ((v / 2 ^ 30) mod 512) + 512 ^ 3 * ((v / 2 ^ 39) mod 512)) as E.
  { intros v Hv. change 4096 with (2 ^ 12). set (q := v / 2 ^ 12).
    replace (v / 2 ^ 21) with (q / 512) by (unfold q; rewrite Z.div_div by lia; done).
    replace (v / 2 ^ 30) with (q / 512 ^ 2) by (unfold q; rewrite Z.div_div by lia; done).
    replace (v / 2 ^ 39) with (q / 512 ^ 3) by (unfold q; rewrite Z.div_div by lia; done).
    change (2 ^ 36) with (512 * (512 * (512 * 512))).
    change (512 ^ 2) with (512 * 512). change (512 ^ 3) with (512 * 512 * 512).
    rewrite !Z.rem_mul_r, !Z.div_div by lia. lia. }
  rewrite !E by done. congruence.
Qed.

(** ** Tables given as values *)

(** The entries of a table that are present, with the frames they point to. *)
Definition children (l : list Z) : list (Z * Z) :=
  concat (imap (λ i e, if present e then [(Z.of_nat i, paddr e)] else []) l).

(** All paths of at most [n] indices, with the tables they lead to. *)
Fixpoint walk (tabs : gmap Z (list Z)) (n : nat) (t : Z) : list (list Z * Z) :=
  ([], t) :: match n with
             | O => []
             | S n => concat ((λ c, (λ r, (c.1 :: r.1, r.2)) <$> walk tabs n c.2) <$> default [] (children <$> tabs !! t))
             end.

Lemma elem_of_children l i e : l !! i = Some e → present e = true → (Z.of_nat i, paddr e) ∈ children l.
Proof.
  intros Hl Hp. unfold children. apply list_elem_of_In, in_concat. eexists. split.
  - apply list_elem_of_In, elem_of_lookup_imap. exists i, e. split; [reflexivity|exact Hl].
  - rewrite Hp. by left.
Qed.

Lemma follow_walk tabs n : ∀ t p x, (length p ≤ n)%nat → Forall idx_ok p → follow tabs t p = Some x → (p, x) ∈ walk tabs n t.
Proof.
  induction n as [|n IH]; intros t [|i p] x Hl Hp Hf; simpl in Hl; try lia; try (injection Hf as ->; left).
  apply Forall_cons in Hp as [Hi Hp]. simpl in Hf. destruct (entry tabs t i) as [e|] eqn:Ee; [|done].
  destruct (present e) eqn:Epr; [|done]. unfold entry in Ee. destruct (tabs !! t) as [l|] eqn:Et; [|done]. simpl in Ee.
  right. rewrite Et. simpl. apply list_elem_of_In, in_concat. exists ((λ r, (i :: r.1, r.2)) <$> walk tabs n (paddr e)). split.
  - apply list_elem_of_In, list_elem_of_fmap. exists (i, paddr e). split; [done|].
    replace i with (Z.of_nat (Z.to_nat i)) by (unfold idx_ok in Hi; lia). by apply elem_of_children.
  - apply list_elem_of_In, list_elem_of_fmap. exists (p, x). split; [done|]. apply IH; [lia|done|done].
Qed.

(** Whether tables are in order: each is a table, and one that is reached along
    an unshared path is reached along no other. *)
Definition tables_check (tabs : gmap Z (list Z)) (root : Z) : bool :=
  let w := walk tabs 3 root in
  forallb (λ r, bool_decide (default 0%nat (length <$> tabs !! r.2) = 512%nat) &&
                (bool_decide (r.1 = []) || bool_decide (r.2 mod 4096 = 0 ∧ 0 < r.2 < 2 ^ 46))) w &&
  forallb (λ r, forallb (λ r', negb (r.2 =? r'.2) || negb (bool_decide (unshared r.1)) || bool_decide (r'.1 = r.1)) w) w.

Lemma tables_by_check tabs root X :
  tables_check tabs root = true → (∀ q, X q → q ∉ (walk tabs 3 root).*2) → tables_ok tabs root X.
Proof.
  unfold tables_check. intros [H1 H2]%andb_prop HX. rewrite forallb_forall in H1, H2. pose proof (follow_walk tabs 3 root) as Hw.
  assert (∀ p t, (p, t) ∈ walk tabs 3 root → (∃ l, tabs !! t = Some l ∧ length l = 512%nat) ∧ (p ≠ [] → frame_ok t)) as Hall.
  { intros p t Hin%list_elem_of_In%H1. simpl in Hin. apply andb_prop in Hin as [Hl%bool_decide_eq_true Hf]. split.
    - destruct (tabs !! t) as [l|]; [by exists l|done].
    - intros Hne. apply orb_prop in Hf as [?%bool_decide_eq_true|[Hm Hr]%bool_decide_eq_true]; [done|]. split; [|done].
      by apply Z.mod_divide. }
  split.
  - intros p t Hp Hpi Hf. by destruct (Hall p t (Hw p t Hp Hpi Hf)).
  - intros p t Hp Hpi Hf. apply (Hall p t (Hw p t ltac:(lia) Hpi Hf)). intros ->. simpl in Hp. lia.
  - intros p q t Hu Hp Hq Hpi Hqi Hfp%Hw%list_elem_of_In Hfq%Hw%list_elem_of_In; [|done..].
    apply H2 in Hfp. rewrite forallb_forall in Hfp. apply Hfp in Hfq. simpl in Hfq. rewrite Z.eqb_refl in Hfq. simpl in Hfq.
    rewrite bool_decide_eq_true_2 in Hfq by done. by apply bool_decide_eq_true in Hfq.
  - intros p t Hp Hpi Hf%Hw HXt; [|done..]. apply (HX t HXt), list_elem_of_fmap. by exists (p, t).
Qed.

Lemma user_unshared va : 0 ≤ va < 2 ^ 47 → unshared (path_of va).
Proof.
  intros Hva. unfold path_of, unshared. set (i := table_index _ _). assert (i < 256).
  { unfold i. rewrite table_index_div by (done || lia). unfold P4_ADDR_SHIFT.
    rewrite Z.mod_small; [apply Z.div_lt_upper_bound; lia|]. split; [apply Z.div_pos; lia|apply Z.div_lt_upper_bound; lia]. }
  split; intros [l E]; simpl in E; injection E as E _; lia.
Qed.

(** ** A new table below an entry that is not present *)

Section new_table.
Context {tabs : gmap Z (list Z)} {root : Z} {X : Z → Prop}.
Hypothesis Hok : tables_ok tabs root X.
Context {p : list Z} {t i n e : Z}.
Hypothesis Hun : unshared p.
Hypothesis Hp : (length p ≤ 2)%nat.
Hypothesis Hpi : Forall idx_ok p.
Hypothesis Ht : follow tabs root p = Some t.
Hypothesis Hi : idx_ok i.
Hypothesis Hnp : ∀ e0, entry tabs t i = Some e0 → present e0 = false.
Hypothesis Hn : X n.
Hypothesis Hnf : frame_ok n.
Hypothesis He : present e = true.
Hypothesis Hen : paddr e = n.

Definition grown : gmap Z (list Z) := <[n := empty_table]> (alter <[Z.to_nat i := e]> t tabs).

Lemma t_not_n : t ≠ n.
Proof using All. intros ->. eapply (to_used _ _ _ Hok); [|done|exact Ht|done]. lia. Qed.

Lemma grown_entry_other x j : x ≠ n → (x ≠ t ∨ (idx_ok j ∧ j ≠ i)) → entry grown x j = entry tabs x j.
Proof using All.
  intros Hx Hor. unfold entry, grown. rewrite lookup_insert_ne by done.
  destruct (decide (x = t)) as [->|]; [|by rewrite lookup_alter_ne].
  destruct Hor as [?|[Hj Hne]]; [done|]. rewrite lookup_alter_eq. destruct (tabs !! t) as [l|]; [|done]. simpl.
  rewrite list_lookup_insert_ne; [done|]. unfold idx_ok in *. lia.
Qed.

Lemma grown_entry_new : entry grown t i = Some e.
Proof using All.
  unfold entry, grown. pose proof t_not_n. rewrite lookup_insert_ne, lookup_alter_eq by done.
  destruct (to_table _ _ _ Hok p t ltac:(lia) Hpi Ht) as (l & Hl & Hlen). rewrite Hl. simpl.
  apply list_lookup_insert_eq. unfold idx_ok in Hi. lia.
Qed.

Lemma grown_entry_zero j : ∀ e0, entry grown n j = Some e0 → e0 = 0.
Proof.
  intros e0. unfold entry, grown. rewrite lookup_insert_eq. simpl. unfold empty_table. by intros [-> _]%lookup_replicate.
Qed.

(** Old paths stay ... *)
Lemma grown_follow_old q x : (length q ≤ 3)%nat → Forall idx_ok q → follow tabs root q = Some x → follow grown root q = Some x.
Proof using All.
  revert x. induction q as [|j q IH] using rev_ind; intros x; [done|].
  rewrite length_app, Forall_app. simpl. intros Hl [Hq Hj] Hf.
  rewrite follow_app in *. destruct (follow tabs root q) as [y|] eqn:Ey; [|done]. simpl in Hf.
  rewrite (IH y ltac:(lia) Hq eq_refl). simpl.
  destruct (entry tabs y j) as [e0|] eqn:Ee; [|done]. destruct (present e0) eqn:Epr; [|done].
  rewrite grown_entry_other; [by rewrite Ee, Epr| |].
  - intros ->. eapply (to_used _ _ _ Hok q n); [lia|done|done|done].
  - destruct (decide (y = t)) as [->|]; [right|by left]. split; [by inversion Hj|]. intros ->.
    rewrite (Hnp _ Ee) in Epr. done.
Qed.

(** ... and the only new one leads to the new table. *)
Lemma grown_follow_new q x :
  (length q ≤ 3)%nat → Forall idx_ok q → follow grown root q = Some x →
  follow tabs root q = Some x ∨ (q = p ++ [i] ∧ x = n).
Proof using All.
  revert x. induction q as [|j q IH] using rev_ind; intros x; [by left|].
  rewrite length_app, Forall_app. simpl. intros Hl [Hq Hj] Hf. assert (idx_ok j) as Hj' by by inversion Hj.
  rewrite follow_app in *. destruct (follow grown root q) as [y|] eqn:Ey; [|done]. simpl in Hf.
  destruct (IH y ltac:(lia) Hq eq_refl) as [Hold|[-> ->]].
  - rewrite Hold. simpl. destruct (decide (y = t ∧ j = i)) as [[-> ->]|Hne].
    + right. rewrite grown_entry_new, He, Hen in Hf. injection Hf as <-. split; [|done]. f_equal.
      eapply (to_inj _ _ _ Hok); [done|lia|lia|done|done|done|done].
    + left. rewrite grown_entry_other in Hf; [done| |].
      * intros ->. eapply (to_used _ _ _ Hok q n); [lia|done|done|done].
      * destruct (decide (y = t)); [right; naive_solver|by left].
  - exfalso. destruct (entry grown n j) as [e0|] eqn:Ee; [|done]. by rewrite (grown_entry_zero _ _ Ee) in Hf.
Qed.

Lemma grown_ok (X' : Z → Prop) : (∀ q, X' q → X q) → ¬ X' n → tables_ok grown root X'.
Proof using All.
  intros Hsub HX'. pose proof t_not_n as Htn.
  assert (∀ x l, tabs !! x = Some l → length l = 512%nat → ∃ l', grown !! x = Some l' ∧ length l' = 512%nat) as Htab.
  { intros x l Hl Hlen. unfold grown. destruct (decide (x = n)) as [->|]; [rewrite lookup_insert_eq; eauto|].
    rewrite lookup_insert_ne by done. destruct (decide (x = t)) as [->|].
    - rewrite lookup_alter_eq, Hl. simpl. eexists. split; [done|]. by rewrite length_insert.
    - rewrite lookup_alter_ne by done. eauto. }
  split.
  - intros q x Hq Hqi Hf. destruct (grown_follow_new q x Hq Hqi Hf) as [Hold|[-> ->]].
    + destruct (to_table _ _ _ Hok q x Hq Hqi Hold) as (l & Hl & Hlen). by eapply Htab.
    + unfold grown. rewrite lookup_insert_eq. eauto.
  - intros q x Hq Hqi Hf. destruct (grown_follow_new q x ltac:(lia) Hqi Hf) as [Hold|[-> ->]]; [|done].
    by eapply (to_frame _ _ _ Hok q).
  - intros q q' x Hqu Hq Hq' Hqi Hqi' Hf Hf'.
    destruct (grown_follow_new q x Hq Hqi Hf) as [Hold|[-> ->]];
      destruct (grown_follow_new q' _ Hq' Hqi' Hf') as [Hold'|[-> E]]; [|subst x| |done].
    + by eapply (to_inj _ _ _ Hok).
    + by destruct (to_used _ _ _ Hok q n).
    + by destruct (to_used _ _ _ Hok q' n).
  - intros q x Hq Hqi Hf. destruct (grown_follow_new q x Hq Hqi Hf) as [Hold|[-> ->]]; [|done].
    intros HX. apply (to_used _ _ _ Hok q x Hq Hqi Hold). auto.
Qed.

(** No translation changes. *)
Lemma grown_pte va : 0 ≤ va → pte_of grown root va = pte_of tabs root va.
Proof using All.
  intros Hva. pose proof (path_of_ok va Hva) as Hpath. unfold pte_of.
  destruct (follow tabs root (path_of va)) as [x|] eqn:Ex.
  - rewrite (grown_follow_old _ x) by done. rewrite grown_entry_other; [done| |].
    + intros ->. by destruct (to_used _ _ _ Hok (path_of va) n).
    + left. intros ->. assert (path_of va = p) as E by (eapply (to_inj _ _ _ Hok); [done|lia|done|done|done|done|done]).
      rewrite <-E in Hp. simpl in Hp. lia.
  - destruct (follow grown root (path_of va)) as [x|] eqn:Ex'; [|done].
    destruct (grown_follow_new (path_of va) x ltac:(simpl; lia) Hpath Ex') as [?|[_ ->]]; [congruence|].
    destruct (entry grown n (table_index P1_ADDR_SHIFT va)) as [e0|] eqn:Ee; [|done]. by apply grown_entry_zero in Ee as ->.
Qed.
End new_table.

(** ** Writing a last-level entry *)

Section set_entry.
Context {tabs : gmap Z (list Z)} {root : Z} {X : Z → Prop}.
Hypothesis Hok : tables_ok tabs root X.
Context {va t v : Z}.
Hypothesis Hva : 0 ≤ va.
Hypothesis Hun : unshared (path_of va).
Hypothesis Ht : follow tabs root (path_of va) = Some t.

Definition written : gmap Z (list Z) := alter <[Z.to_nat (table_index P1_ADDR_SHIFT va) := v]> t tabs.

(** The tables above are not touched. *)
Lemma written_follow q : (length q ≤ 3)%nat → Forall idx_ok q → follow written root q = follow tabs root q.
Proof using All.
  induction q as [|j q IH] using rev_ind; [done|]. rewrite length_app, Forall_app. simpl. intros Hl [Hq Hj].
  rewrite !follow_app, IH by (done || lia). destruct (follow tabs root q) as [y|] eqn:Ey; [|done]. simpl.
  unfold entry at 1, written. rewrite lookup_alter_ne; [done|]. intros <-.
  assert (q = path_of va) as -> by (eapply (to_inj _ _ _ Hok); [done|done|lia|by apply path_of_ok|done|done|done]). simpl in Hl. lia.
Qed.

Lemma written_ok : tables_ok written root X.
Proof using All.
  split.
  - intros q x Hq Hqi. rewrite written_follow by done. intros Hf. destruct (to_table _ _ _ Hok q x Hq Hqi Hf) as (l & Hl & Hlen).
    unfold written. destruct (decide (x = t)) as [->|]; [|rewrite lookup_alter_ne by done; eauto].
    rewrite lookup_alter_eq, Hl. simpl. eexists. split; [done|]. by rewrite length_insert.
  - intros q x Hq Hqi. rewrite written_follow by (done || lia). by apply (to_frame _ _ _ Hok).
  - intros q q' x Hqu Hq Hq' Hqi Hqi'. rewrite !written_follow by done. by apply (to_inj _ _ _ Hok).
  - intros q x Hq Hqi. rewrite written_follow by done. by apply (to_used _ _ _ Hok).
Qed.

Lemma written_pte : pte_of written root va = v.
Proof using All.
  unfold pte_of. rewrite written_follow, Ht by (done || by apply path_of_ok). unfold entry, written. rewrite lookup_alter_eq.
  destruct (to_table _ _ _ Hok (path_of va) t ltac:(simpl; lia) (path_of_ok va Hva) Ht) as (l & -> & Hlen). simpl.
  rewrite list_lookup_insert_eq; [done|]. pose proof (table_index_ok P1_ADDR_SHIFT va ltac:(done) Hva). unfold idx_ok in *. lia.
Qed.

Lemma written_pte_other va' : 0 ≤ va' → vpn va' ≠ vpn va → pte_of written root va' = pte_of tabs root va'.
Proof using All.
  intros Hva' Hne. unfold pte_of. rewrite written_follow by (done || by apply path_of_ok).
  destruct (follow tabs root (path_of va')) as [x|] eqn:Ex; [|done]. f_equal. unfold entry, written.
  destruct (decide (x = t)) as [->|]; [|by rewrite lookup_alter_ne].
  assert (path_of va' = path_of va) as E by (eapply (to_inj _ _ _ Hok); [done|done|done|by apply path_of_ok|by apply path_of_ok|done|done]).
  rewrite lookup_alter_eq. destruct (tabs !! t) as [l|]; [|done]. simpl. rewrite list_lookup_insert_ne; [done|].
  intros Ei. apply Hne. apply vpn_indices; [done|done|done|].
  pose proof (table_index_ok P1_ADDR_SHIFT va ltac:(done) Hva). pose proof (table_index_ok P1_ADDR_SHIFT va' ltac:(done) Hva').
  unfold idx_ok in *. lia.
Qed.
End set_entry.

(** ** Where frames for tables come from *)

(** Everything of the state but the two allocators is the same. *)
Record same_paging (s s' : vstate) : Prop := {
  sp_pt : pt s' = pt s;
  sp_mem : mem s' = mem s;
  sp_mpts : mpts s' = mpts s;
  sp_cr3 : vcr3 s' = vcr3 s;
  sp_flushed : flushed s' = flushed s
}.

(** What paging needs of the allocator that [pgtab_frame] uses under
    [alloc_flags]: [fs_ok s k X] when [X] are free frames, of which at least
    [k] can be taken. *)
Class FrameSource `{BuildConfig} (alloc_flags : Z) := {
  fs_ok : vstate → nat → (Z → Prop) → Prop;
  fs_alloc : ∀ s k X Q, fs_ok s (S k) X →
    (∀ f s' X', fs_ok s' k X' → X f → ¬ X' f → (∀ q, X' q → X q) → frame_ok f → same_paging s s' → Q f s') →
    wp (pgtab_frame alloc_flags) s Q;
  fs_local : ∀ s s' k X, vpm s' = vpm s → vmap s' = vmap s → fs_ok s k X → fs_ok s' k X;
  fs_fewer : ∀ s k X, fs_ok s (S k) X → fs_ok s k X
}.

(** The buddy allocator delivers single frames while it has some. *)
Section pmm_source.
Context `{BuildConfig} (alloc_flags : Z).
Hypothesis Hfl : Z.land alloc_flags VMM_ALLOC_MMAP = 0.

Definition pmm_fs_ok (s : vstate) (k : nat) (X : Z → Prop) : Prop :=
  ∃ Zs, pmm_ok (vpm s) Zs ∧ (k ≤ length (pool_free Zs))%nat ∧ (∀ g, g ∈ Zs → 0 < glo g) ∧
        ∀ q, X q ↔ ∃ f, q = f * 4096 ∧ f ∈ pool_free Zs.

Lemma pool_free_range s Zs f : pmm_ok s Zs → f ∈ pool_free Zs → ∃ g, g ∈ Zs ∧ glo g ≤ f < ghi g ∧ pfn_ok f.
Proof.
  intros [_ _ Hz _ _ _] Hf. induction Zs as [|g Zs IH]; [by apply elem_of_nil in Hf|]. destruct Hz as [HZ Hz].
  rewrite pool_free_cons in Hf. apply elem_of_app in Hf as [Hf|Hf].
  - exists g. assert (glo g ≤ f < ghi g) as Hr.
    { eapply zone_frames_in; [exact HZ|]. rewrite frames_app. apply elem_of_app. by left. }
    split; [left|]. split; [done|]. destruct (zo_free _ _ _ _ _ _ _ HZ) as [_ _ ? Hhi _ _ _ _ _]. unfold pfn_ok in *. lia.
  - destruct (IH Hz Hf) as (h & ? & ?). exists h. split; [by right|done].
Qed.

(** Allocation does not move zones. *)
Lemma pool_alloc_low Zs Zs' p o : pool_alloc Zs Zs' p o → (∀ g, g ∈ Zs → 0 < glo g) → ∀ g, g ∈ Zs' → 0 < glo g.
Proof.
  intros Hpa Hlo h Hh. assert ((glo h, ghi h) ∈ zbounds Zs) as Hb.
  { rewrite <-(pa_bounds _ _ _ _ Hpa). by apply (list_elem_of_fmap_2 (λ g, (glo g, ghi g))). }
  apply list_elem_of_fmap in Hb as (h0 & E & Hh0). injection E as -> _. by apply Hlo.
Qed.

Lemma exhausted_no_frames s Zs : pmm_ok s Zs → exhausted Zs 0 → pool_free Zs = [].
Proof.
  intros [_ _ Hz _ _ _] Hex. induction Zs as [|g Zs IH]; [done|]. destruct Hz as [HZ Hz]. rewrite pool_free_cons.
  rewrite IH; [|done|intros h Hh; apply Hex; by right]. rewrite app_nil_r.
  destruct (frames (fblocks (gF g))) as [|f fs] eqn:E; [done|]. exfalso.
  assert (f ∈ frames (fblocks (gF g))) as Hf by (rewrite E; left).
  apply elem_frames in Hf as ([q o] & Hb & _). pose proof Hb as (L & HL & Hin)%elem_fblocks.
  pose proof (lookup_lt_Some _ _ _ HL) as Hlt. rewrite (fi_len _ _ _ _ _ _ (zo_free _ _ _ _ _ _ _ HZ)) in Hlt.
  rewrite (Hex g ltac:(left) o ltac:(lia)) in HL. injection HL as <-. by apply elem_of_nil in Hin.
Qed.

(** [pmm_alloc_order(0, GFP_NONE)] while some frame is free. *)
Lemma wp_single_frame (v : pstate) Zs Q :
  pmm_ok v Zs → pool_free Zs ≠ [] →
  (∀ p v' Zs', pool_alloc Zs Zs' p 0 → pmm_ok v' Zs' → pfn_ok p → counts_kept v v' →
     p ∈ pool_free Zs → p ∉ pool_free Zs' → pool_free Zs ≡ₚ p :: pool_free Zs' → Q (ptr p) v') →
  wp (pmm_alloc_order 0 GFP_NONE) v Q.
Proof.
  intros Hok Hne HQ. unfold pmm_alloc_order.
  apply wp_bind, wp_kassert; [done|]. apply wp_bind, wp_zl_lock; [apply Hok|].
  apply wp_bind. apply (wp_alloc_search _ Zs 0); [done|lia| |].
  - intros Hex. by rewrite (exhausted_no_frames _ _ Hok Hex) in Hne.
  - intros p s1 Zs1 Hpa Hok1 _ Hpok Hcounts. apply wp_bind. unfold zl_unlock. apply wp_modify. apply wp_ret.
    pose proof (pa_free _ _ _ _ Hpa) as Hfr. change (bpages (p, 0%nat)) with [p] in Hfr.
    assert (NoDup (pool_free Zs)) as Hnd by (pose proof (pmm_pool_nodup _ _ Hok) as Hn; by apply NoDup_app in Hn as (_ & _ & ?)).
    rewrite Hfr in Hnd. apply NoDup_cons in Hnd as [Hpn _].
    eapply HQ; try done. rewrite Hfr. left.
Qed.

Lemma pmm_fs_alloc s k X Q :
  pmm_fs_ok s (S k) X →
  (∀ f s' X', pmm_fs_ok s' k X' → X f → ¬ X' f → (∀ q, X' q → X q) → frame_ok f → same_paging s s' → Q f s') →
  wp (pgtab_frame alloc_flags) s Q.
Proof using Hfl.
  intros (Zs & Hok & Hk & Hlo & HX) HQ. unfold pgtab_frame. rewrite Hfl. simpl negb. cbn match.
  apply wp_bind, wp_zoom. eapply wp_single_frame; [done|by intros E; rewrite E in Hk; simpl in Hk; lia|].
  intros p v' Zs1 Hpa Hok1 Hpok _ Hp Hpn Hfr.
  apply wp_bind, wp_kassert_dbg; [by apply negb_true_iff, Z.eqb_neq, ptr_ne|]. apply wp_ret.
  unfold ptr. rewrite page_to_phys_pfn by done.
  destruct (pool_free_range _ _ _ Hok Hp) as (g & Hg & Hr & _). pose proof (Hlo g Hg).
  apply (HQ _ _ (λ q, ∃ f, q = f * 4096 ∧ f ∈ pool_free Zs1)).
  - exists Zs1. split; [done|]. rewrite Hfr in Hk. simpl in Hk. split; [lia|]. split; [|done].
    by eapply pool_alloc_low.
  - apply HX. by exists p.
  - intros (f & E & Hf). unfold PAGE_SIZE in E. assert (f = p) as -> by lia. done.
  - intros q (f & -> & Hf). apply HX. exists f. split; [done|]. rewrite Hfr. by right.
  - unfold frame_ok, PAGE_SIZE. split; [by exists p|]. unfold pfn_ok in *. lia.
  - by split.
Qed.

#[global] Instance pmm_source : FrameSource alloc_flags.
Proof using Hfl.
  refine {| fs_ok := pmm_fs_ok |}.
  - intros s k X Q. apply pmm_fs_alloc.
  - intros s s' k X Hv _ (Zs & ?). exists Zs. by rewrite Hv.
  - intros s k X (Zs & ? & ? & ?). exists Zs. split_and!; [done|lia|tauto|tauto].
Defined.
End pmm_source.

(** ** The accesses *)

Section walk.
Context `{BuildConfig}.
Implicit Types s : vstate.

Lemma wp_rd_pte tab t i e s Q :
  tab ≠ NULL → tab_phys tab = t → entry (pt s) t i = Some e → Q e s → wp (rd_pte tab i) s Q.
Proof.
  intros Hne <- He HQ. unfold rd_pte. apply wp_bind, wp_get. destruct (Z.eqb_spec tab NULL); [done|].
  unfold entry in He. destruct (pt s !! tab_phys tab) as [l|]; [|done]. simpl in He. rewrite He. done.
Qed.

Lemma wp_wr_pte tab t i v s Q :
  tab ≠ NULL → tab_phys tab = t → is_Some (entry (pt s) t i) →
  Q tt (upd_pt (alter <[Z.to_nat i := v]> t) s) → wp (wr_pte tab i v) s Q.
Proof.
  intros Hne Ht [e He] HQ. unfold wr_pte. apply wp_bind. eapply wp_rd_pte; [done..|]. rewrite Ht. by apply wp_modify.
Qed.

Lemma tables_entry tabs root X p t i :
  tables_ok tabs root X → (length p ≤ 3)%nat → Forall idx_ok p → follow tabs root p = Some t → idx_ok i →
  is_Some (entry tabs t i).
Proof.
  intros Hok Hp Hpi Ht Hi. destruct (to_table _ _ _ Hok p t Hp Hpi Ht) as (l & Hl & Hlen). unfold entry. rewrite Hl. simpl.
  apply lookup_lt_is_Some. unfold idx_ok in Hi. lia.
Qed.

(** [pgtab_extract_virt_addr] along a path. *)
Lemma wp_extract tab t i s root X p Q :
  tables_ok (pt s) root X → (length p ≤ 2)%nat → Forall idx_ok p → follow (pt s) root p = Some t → idx_ok i →
  tab ≠ NULL → tab_phys tab = t →
  (follow (pt s) root (p ++ [i]) = None → (∀ e0, entry (pt s) t i = Some e0 → present e0 = false) → Q NULL s) →
  (∀ t', follow (pt s) root (p ++ [i]) = Some t' → frame_ok t' → Q (phys_to_virt t') s) →
  wp (pgtab_extract_virt_addr tab i) s Q.
Proof.
  intros Hok Hp Hpi Ht Hi Hne Htab Hnone Hsome. destruct (tables_entry _ _ _ p t i Hok ltac:(lia) Hpi Ht Hi) as [e He].
  unfold pgtab_extract_virt_addr. apply wp_bind. eapply wp_rd_pte; [done..|]. apply wp_ret.
  assert (follow (pt s) root (p ++ [i]) = if present e then Some (paddr e) else None) as Hf.
  { rewrite follow_app, Ht. simpl. by rewrite He. }
  unfold present in Hf. destruct (Z.eqb_spec (Z.land e PAGE_PRESENT) 0) as [E|E]; simpl in Hf.
  - apply Hnone; [done|]. intros e0 He0. rewrite He in He0. injection He0 as <-. unfold present. by rewrite E.
  - apply Hsome; [done|]. eapply (to_frame _ _ _ Hok (p ++ [i])); [rewrite length_app; simpl; lia| |done].
    apply Forall_app. split; [done|]. by constructor.
Qed.

Lemma wp_alloc_pgtab fl {FS : FrameSource fl} s k X Q :
  fs_ok (alloc_flags := fl) s (S k) X → 0 ≤ fl →
  (∀ f e s' X', fs_ok (alloc_flags := fl) s' k X' → X f → ¬ X' f → (∀ q, X' q → X q) → frame_ok f → same_paging s s' →
     present e = true → paddr e = f → Q e s') →
  wp (alloc_pgtab fl) s Q.
Proof.
  intros Hfs Hfl HQ. unfold alloc_pgtab. apply wp_bind. eapply (fs_alloc (alloc_flags := fl)); [done|].
  intros f s' X' Hfs' HX HX' Hsub Hf Hsame. apply wp_ret.
  set (w := Z.lor (Z.lor PAGE_PRESENT PAGE_WRITABLE) _). assert (w = 3 ∨ w = 7) as Hw.
  { unfold w. change PAGE_USER_ACCESSIBLE with (2 ^ 2). destruct (land_pow2 fl 2 ltac:(lia)) as [E|E]; rewrite E; [left|right]; reflexivity. }
  destruct (mask_frame f w Hf ltac:(lia)) as [Hm Hpr].
  assert (Z.land w PAGE_PRESENT = 1) as H1 by by destruct Hw as [-> | ->].
  eapply HQ; try done. unfold present. by rewrite Hpr, H1.
Qed.
End walk.

(** ** [vmm_map_page] *)

(** Everything but the tables and the allocators is the same. *)
Record same_rest (s s' : vstate) : Prop := {
  sr_mem : mem s' = mem s;
  sr_mpts : mpts s' = mpts s;
  sr_cr3 : vcr3 s' = vcr3 s;
  sr_flushed : flushed s' = flushed s
}.

Lemma same_rest_trans s1 s2 s3 : same_rest s1 s2 → same_rest s2 s3 → same_rest s1 s3.
Proof. intros [] []. split; congruence. Qed.

(** New tables come from the free frames [X], of which [X'] are left, and the
    only tables in use before that change are those in [old]. *)
Record extended (s s' : vstate) (root : Z) (X X' old : Z → Prop) : Prop := {
  ex_free : ∀ q, X' q → X q;
  ex_changed : ∀ x, pt s' !! x ≠ pt s !! x → X x ∨ old x;
  ex_reached : ∀ q x, (length q ≤ 3)%nat → Forall idx_ok q → follow (pt s') root q = Some x → X x ∨ follow (pt s) root q = Some x
}.

Lemma extended_trans s1 s2 s3 root X1 X2 X3 (old1 old2 old : Z → Prop) :
  extended s1 s2 root X1 X2 old1 → extended s2 s3 root X2 X3 old2 →
  (∀ x, old1 x → X1 x ∨ old x) → (∀ x, old2 x → X1 x ∨ old x) → extended s1 s3 root X1 X3 old.
Proof.
  intros [Hf1 Hc1 Hr1] [Hf2 Hc2 Hr2] H1 H2. split; [by auto| |].
  - intros x Hx. destruct (decide (pt s3 !! x = pt s2 !! x)) as [E|E]; [|destruct (Hc2 x E); auto].
    rewrite E in Hx. destruct (Hc1 x Hx); auto.
  - intros q x Hq Hqi Hx. destruct (Hr2 q x Hq Hqi Hx); auto.
Qed.

Section map.
Context `{BuildConfig} (fl : Z) {FS : FrameSource fl}.
Hypothesis Hfl : 0 ≤ fl.

(** One level down, with a new empty table where there was none. *)
Lemma wp_next_table s tab t i p root X k Q :
  tables_ok (pt s) root X → unshared p → (length p ≤ 2)%nat → Forall idx_ok p → follow (pt s) root p = Some t → idx_ok i →
  tab ≠ NULL → tab_phys tab = t → fs_ok (alloc_flags := fl) s (S k) X →
  (∀ s' t' X', tables_ok (pt s') root X' → fs_ok (alloc_flags := fl) s' k X' →
     follow (pt s') root (p ++ [i]) = Some t' → frame_ok t' →
     (∀ va, 0 ≤ va → pte_of (pt s') root va = pte_of (pt s) root va) → same_rest s s' → extended s s' root X X' (λ x, x = t) →
     Q (Some (phys_to_virt t')) s') →
  wp (next_table tab i false fl) s Q.
Proof.
  intros Hok Hun Hp Hpi Ht Hi Hne Htab Hfs HQ. unfold next_table. apply wp_bind.
  eapply wp_extract; [done..| |].
  - intros Hnone Hnp. cbn match. apply wp_bind. eapply (wp_alloc_pgtab fl); [done|done|].
    intros f e s1 X1 Hfs1 HXf HXf' Hsub Hf [E1 E2 E3 E4 E5] Hpr Hpa.
    destruct (tables_entry _ _ _ p t i Hok ltac:(lia) Hpi Ht Hi) as [e0 He0].
    apply wp_bind. eapply wp_wr_pte; [done|done|rewrite E1; eauto|].
    set (s2 := upd_pt _ s1). assert (t ≠ f) as Htf by (by eapply (t_not_n Hok Hun Hp Hpi Ht Hi Hnp HXf)).
    assert (entry (pt s2) t i = Some e) as He2.
    { unfold s2, entry. simpl. rewrite E1, lookup_alter_eq. destruct (to_table _ _ _ Hok p t ltac:(lia) Hpi Ht) as (l & Hl & Hlen).
      rewrite Hl. simpl. apply list_lookup_insert_eq. unfold idx_ok in Hi. lia. }
    apply wp_bind. unfold pgtab_extract_virt_addr. apply wp_bind. eapply wp_rd_pte; [done|done|exact He2|]. apply wp_ret.
    unfold present in Hpr. destruct (Z.eqb_spec (Z.land e PAGE_PRESENT) 0); [done|]. fold (paddr e). rewrite Hpa.
    destruct (tab_phys_virt f Hf) as [Etf Hnz].
    apply wp_bind, wp_kassert_dbg; [by apply negb_true_iff, Z.eqb_neq|].
    apply wp_bind. unfold zero_table. apply wp_modify. rewrite Etf. apply wp_ret.
    assert (present e = true) as Hpr' by (unfold present; by destruct (Z.eqb_spec (Z.land e PAGE_PRESENT) 0)).
    assert (pt (upd_pt <[f := empty_table]> s2) = grown (tabs := pt s) (t := t) (i := i) (n := f) (e := e)) as Egr.
    { unfold s2, grown. simpl. by rewrite E1. }
    eapply (HQ _ f X1); rewrite ?Egr.
    + by eapply (grown_ok Hok Hun Hp Hpi Ht Hi Hnp HXf Hf Hpr' Hpa).
    + eapply (fs_local (alloc_flags := fl) s1); [done|done|done].
    + rewrite follow_app. rewrite (grown_follow_old Hok Hun Hp Hpi Ht Hi Hnp HXf Hf Hpr' Hpa p t) by (done || lia). simpl.
      rewrite (grown_entry_new Hok Hun Hp Hpi Ht Hi Hnp HXf Hf Hpr' Hpa), Hpr'. simpl. by rewrite Hpa.
    + done.
    + intros va Hva. by apply (grown_pte Hok Hun Hp Hpi Ht Hi Hnp HXf Hf Hpr' Hpa).
    + split; done.
    + split; rewrite ?Egr; [done| |].
      * intros x Hx. unfold grown in Hx. destruct (decide (x = f)) as [->|]; [by left|]. right.
        rewrite lookup_insert_ne in Hx by done. destruct (decide (x = t)) as [->|]; [done|]. by rewrite lookup_alter_ne in Hx.
      * intros q x Hq Hqi Hx. destruct (decide (x = f)) as [->|]; [by left|]. right.
        by eapply (grown_follow_new Hok Hun Hp Hpi Ht Hi Hnp HXf Hf Hpr' Hpa) in Hx as [?|[? ?]].
  - intros t' Hf' Hft. destruct (tab_phys_virt t' Hft) as [_ Hnz].
    destruct (Z.eqb_spec (phys_to_virt t') NULL); [done|]. apply wp_ret.
    eapply HQ; try done; [by eapply (fs_fewer (alloc_flags := fl))|]. split; [done|done|]. by right.
Qed.
End map.

Lemma index_aligndown sh va : 12 ≤ sh → 0 ≤ va < 2 ^ 64 → table_index sh (ALIGNDOWN va PAGE_SIZE) = table_index sh va.
Proof.
  intros Hs Hva. change PAGE_SIZE with (2 ^ 12). rewrite ALIGNDOWN_spec by (lia || done).
  assert (0 ≤ va / 2 ^ 12) by (apply Z.div_pos; lia).
  rewrite !table_index_div by lia. replace sh with (12 + (sh - 12)) by lia. rewrite Z.pow_add_r, <-!Z.div_div by lia.
  by rewrite (Z.mul_comm (2 ^ 12)), Z.div_mul by lia.
Qed.

Lemma path_aligndown va : 0 ≤ va < 2 ^ 64 →
  path_of (ALIGNDOWN va PAGE_SIZE) = path_of va ∧
  table_index P1_ADDR_SHIFT (ALIGNDOWN va PAGE_SIZE) = table_index P1_ADDR_SHIFT va.
Proof.
  intros Hva. unfold path_of, P4_ADDR_SHIFT, P3_ADDR_SHIFT, P2_ADDR_SHIFT, P1_ADDR_SHIFT.
  by rewrite !index_aligndown by lia.
Qed.

(** Reading through the address of an entry. *)
Lemma pte_addr_split t i : frame_ok t → idx_ok i →
  pte_addr (phys_to_virt t) i ≠ NULL ∧ pte_tab (pte_addr (phys_to_virt t) i) = phys_to_virt t ∧
  pte_index (pte_addr (phys_to_virt t) i) = i.
Proof.
  intros [[k ->] Ht] Hi. unfold idx_ok in Hi. unfold pte_addr, pte_tab, pte_index, PAGE_SIZE. rewrite phys_to_virt_ok by lia.
  unfold KERNEL_LOGICAL_BASE. rewrite uwrap_id by (unfold in_u; lia).
  replace (k * 4096 + 0xFFFF800000000000 + 8 * i) with (8 * i + (k + 0xFFFF800000000) * 4096) by lia.
  rewrite Z.mod_add, Z.mod_small by lia. split_and!; [lia|lia|]. rewrite Z.mul_comm. apply Z.div_mul. lia.
Qed.

Section get.
Context `{BuildConfig}.

Lemma wp_vmm_get_pte s mmu m root X va Q :
  mpts s !! mmu = Some m → mmu ≠ NULL → m_p4 m ≠ NULL → tab_phys (m_p4 m) = root → tables_ok (pt s) root X → 0 ≤ va →
  (follow (pt s) root (path_of va) = None → Q NULL s) →
  (∀ t, follow (pt s) root (path_of va) = Some t → frame_ok t →
     Q (pte_addr (phys_to_virt t) (table_index P1_ADDR_SHIFT va)) s) →
  wp (vmm_get_pte mmu va) s Q.
Proof.
  intros Hm Hmmu Hp4 Hroot Hok Hva Hnone Hsome. unfold vmm_get_pte. apply wp_bind. eapply wp_deref; [done..|].
  unfold path_of in *. set (i4 := table_index P4_ADDR_SHIFT va) in *. set (i3 := table_index P3_ADDR_SHIFT va) in *.
  set (i2 := table_index P2_ADDR_SHIFT va) in *.
  assert (idx_ok i4 ∧ idx_ok i3 ∧ idx_ok i2) as (H4 & H3 & H2) by (split_and!; by apply table_index_ok).
  assert (Forall idx_ok [i4] ∧ Forall idx_ok [i4; i3]) as [Hf4 Hf43] by by rewrite !Forall_cons, Forall_nil.
  assert (∀ p q, follow (pt s) root p = None → follow (pt s) root (p ++ q) = None) as Hshort by (intros p q E; by rewrite follow_app, E).
  apply wp_bind. eapply (wp_extract _ root i4 s root X []); [done|simpl; lia|constructor|done|done|done|done| |].
  { intros E _. apply wp_ret, Hnone. by apply (Hshort [i4] [i3; i2]). }
  intros t3 E3 Hf3. destruct (tab_phys_virt t3 Hf3) as [Ht3 Hn3]. destruct (Z.eqb_spec (phys_to_virt t3) NULL); [done|].
  apply wp_bind. eapply (wp_extract _ t3 i3 s root X [i4]); [done|simpl; lia|done|done|done|done|done| |].
  { intros E _. apply wp_ret, Hnone. by apply (Hshort [i4; i3] [i2]). }
  intros t2 E2 Hf2. destruct (tab_phys_virt t2 Hf2) as [Ht2 Hn2]. destruct (Z.eqb_spec (phys_to_virt t2) NULL); [done|].
  apply wp_bind. eapply (wp_extract _ t2 i2 s root X [i4; i3]); [done|simpl; lia|done|done|done|done|done| |].
  { intros E _. by apply wp_ret, Hnone. }
  intros t1 E1 Hf1. destruct (tab_phys_virt t1 Hf1) as [_ Hn1]. destruct (Z.eqb_spec (phys_to_virt t1) NULL); [done|].
  by apply wp_ret, Hsome.
Qed.

(** The entry for an address that has all its tables. *)
Lemma wp_read_translation s mmu m root X va t Q :
  mpts s !! mmu = Some m → mmu ≠ NULL → m_p4 m ≠ NULL → tab_phys (m_p4 m) = root → tables_ok (pt s) root X → 0 ≤ va →
  follow (pt s) root (path_of va) = Some t → Q (pte_of (pt s) root va) s →
  wp (p ← vmm_get_pte mmu va; rd_ptep p) s Q.
Proof.
  intros Hm Hmmu Hp4 Hroot Hok Hva Ht HQ. apply wp_bind. eapply wp_vmm_get_pte; [done..|by rewrite Ht|].
  intros t' E Hf. rewrite Ht in E. injection E as <-.
  pose proof (table_index_ok P1_ADDR_SHIFT va ltac:(done) Hva) as Hi.
  destruct (pte_addr_split t _ Hf Hi) as (Hnz & Etab & Eidx). unfold rd_ptep.
  destruct (Z.eqb_spec (pte_addr (phys_to_virt t) (table_index P1_ADDR_SHIFT va)) NULL); [done|]. rewrite Etab, Eidx.
  destruct (tab_phys_virt t Hf) as [Ephys Hne].
  destruct (tables_entry _ _ _ (path_of va) t _ Hok ltac:(simpl; lia) (path_of_ok va Hva) Ht Hi) as [e He].
  eapply wp_rd_pte; [done|done|done|]. unfold pte_of in HQ. by rewrite Ht, He in HQ.
Qed.
End get.
