(* ===== verification/VmmTheorems.v ===== *)
(** * Virtual memory: theorems

    [vmm_map_page] gives an address the translation asked for and leaves every
    other translation alone; unmapping removes exactly one. *)

From stdpp Require Import base list gmap.
From Stdlib Require Import ZArith Lia Bool.
From S2P Require Import Prelude Addr Pmm PmmInv PmmAlloc PmmFree PmmSpec Mmap Vmm VmmSpec.
Local Open Scope Z_scope.

(** The entry [vmm_map_page] writes. *)
Definition mapped_pte (phys flags : Z) : Z :=
  Z.lor (Z.lor (Z.land phys PTE_ADDR_MASK) PAGE_PRESENT)
        (Z.land (Z.lxor flags PAGE_EXECUTABLE) (not64 VMM_ALLOC_MMAP)).

(** The flags [vmm_map_page] passes on to [alloc_pgtab]. *)
Definition pgtab_flags (virt flags : Z) : Z :=
  u32 (Z.lor flags (if virt <? KERNEL_LOGICAL_BASE then PAGE_USER_ACCESSIBLE else 0)).

Lemma mpt_set_wr_id m : wr_lock m = 0 → mpt_set_wr 0 (mpt_set_wr 1 m) = m.
Proof. destruct m. simpl. by intros ->. Qed.

Section map.
Context `{BuildConfig} (nr_cpus : Z) (tlb_shootdown : Z → Z → Z → M vstate unit).
Hypothesis Hquiet : DEBUG = false ∨ nr_cpus ≤ 1.

Lemma wp_map_entry s mmu root X t phys virt (unmap : bool) flags Q :
  tables_ok (pt s) root X → 0 ≤ virt < 2 ^ 64 → follow (pt s) root (path_of virt) = Some t → frame_ok t →
  Q tt (upd_flushed (cons (FlushSingle virt)) (upd_pt (alter <[Z.to_nat (table_index P1_ADDR_SHIFT virt) :=
     if unmap then 0 else Z.lor (Z.lor (Z.land phys PTE_ADDR_MASK) PAGE_PRESENT) (Z.land flags (not64 VMM_ALLOC_MMAP))]> t) s)) →
  wp (map_entry nr_cpus tlb_shootdown mmu (phys_to_virt t) phys virt unmap flags) s Q.
Proof using Hquiet.
  intros Hok Hv Ht Hf HQ. unfold map_entry. destruct (path_aligndown virt Hv) as [_ ->].
  apply wp_bind. assert (∀ (m : M vstate unit) R, R tt s → wp (if DEBUG then if 1 <? nr_cpus then m else mret tt else mret tt) s R) as Hskip.
  { intros m R HR. destruct DEBUG; [|done]. destruct (Z.ltb_spec 1 nr_cpus); [|done]. destruct Hquiet; [done|lia]. }
  apply Hskip. destruct (tab_phys_virt t Hf) as [Et Hn].
  pose proof (tables_entry _ _ _ (path_of virt) t (table_index P1_ADDR_SHIFT virt) Hok ltac:(simpl; lia)
    (path_of_ok virt ltac:(lia)) Ht (table_index_ok P1_ADDR_SHIFT virt ltac:(done) ltac:(lia))) as He.
  apply wp_bind. unfold tlb_flush_single. destruct unmap; (eapply wp_wr_pte; [done|done|done|]; by apply wp_modify).
Qed.

Context (s : vstate) (mmu : Z) (m : mmu_pt) (root : Z) (X : Z → Prop).
Hypothesis Hm : mpts s !! mmu = Some m.
Hypothesis Hmmu : mmu ≠ NULL.
Hypothesis Hlock : wr_lock m = 0.
Hypothesis Hp4 : m_p4 m ≠ NULL.
Hypothesis Hroot : tab_phys (m_p4 m) = root.
Hypothesis Hok : tables_ok (pt s) root X.

Lemma wp_locked (Q : unit → vstate → Prop) :
  Q tt (upd_mpts <[mmu := mpt_set_wr 1 m]> s) → wp (write_spin_lock mmu) s Q.
Proof using Hm Hmmu Hlock.
  intros HQ. unfold write_spin_lock. apply wp_bind. eapply wp_deref; [done..|]. rewrite Hlock.
  by eapply wp_store.
Qed.

Lemma wp_unlocked s' (Q : unit → vstate → Prop) :
  mpts s' = <[mmu := mpt_set_wr 1 m]> (mpts s) → Q tt (upd_mpts (λ _, mpts s) s') → wp (write_spin_unlock mmu) s' Q.
Proof using Hm Hmmu Hlock.
  intros E HQ. unfold write_spin_unlock. eapply wp_store; [rewrite E; apply lookup_insert_eq|done|].
  replace (upd_mpts <[mmu:=mpt_set_wr 0 (mpt_set_wr 1 m)]> s') with (upd_mpts (λ _, mpts s) s'); [done|].
  unfold upd_mpts. f_equal. rewrite E, insert_insert_eq. symmetry. apply insert_id. rewrite Hm. f_equal.
  symmetry. by apply mpt_set_wr_id.
Qed.

(** The tables on the way to an address. *)
Definition on_path (virt x : Z) : Prop := ∃ p, p `prefix_of` path_of virt ∧ follow (pt s) root p = Some x.

(** What [vmm_map_page] does, for an allocator that has [k] frames more than
    the three it may need. *)
Record page_mapped {fl : Z} `{!FrameSource fl} (phys virt flags : Z) (k : nat) (s' : vstate) (X' : Z → Prop) : Prop := {
  pm_tables : tables_ok (pt s') root X';
  pm_frames : fs_ok (alloc_flags := fl) s' k X';
  pm_mpts : mpts s' = mpts s;
  pm_mem : mem s' = mem s;
  pm_cr3 : vcr3 s' = vcr3 s;
  pm_flushed : flushed s' = FlushSingle virt :: flushed s;
  pm_pte : pte_of (pt s') root virt = mapped_pte phys flags;
  pm_other : ∀ va, 0 ≤ va → vpn va ≠ vpn virt → pte_of (pt s') root va = pte_of (pt s) root va;
  pm_extended : extended s s' root X X' (on_path virt);
  pm_table : ∃ t, follow (pt s') root (path_of virt) = Some t
}.

Lemma wp_vmm_map_page phys virt flags `{!FrameSource (pgtab_flags virt flags)} k (Q : unit → vstate → Prop) :
  fs_ok (alloc_flags := pgtab_flags virt flags) s (3 + k) X → Z.land flags VMM_UNMAP = 0 → 0 ≤ virt < 2 ^ 64 → unshared (path_of virt) →
  (∀ s' X', page_mapped (fl := pgtab_flags virt flags) phys virt flags k s' X' → Q tt s') →
  wp (vmm_map_page nr_cpus tlb_shootdown mmu phys virt flags) s Q.
Proof using All.
  intros Hfs Hunmap Hv Hun HQ. set (fl := pgtab_flags virt flags) in *.
  assert (0 ≤ fl) as Hfl by (apply (uwrap_range 32); lia).
  unfold vmm_map_page. rewrite Hunmap. simpl negb. fold (pgtab_flags virt flags). fold fl.
  destruct (path_aligndown virt Hv) as [Epath Eidx]. unfold path_of in Epath. injection Epath as E4 E3 E2. rewrite E4, E3, E2.
  set (i4 := table_index P4_ADDR_SHIFT virt) in *. set (i3 := table_index P3_ADDR_SHIFT virt) in *. set (i2 := table_index P2_ADDR_SHIFT virt) in *.
  assert (idx_ok i4 ∧ idx_ok i3 ∧ idx_ok i2) as (H4 & H3 & H2) by (split_and!; apply table_index_ok; done || lia).
  assert (Forall idx_ok [i4] ∧ Forall idx_ok [i4; i3]) as [Hf4 Hf43] by by rewrite !Forall_cons, Forall_nil.
  apply wp_bind, wp_locked. set (s0 := upd_mpts _ s).
  apply wp_bind. eapply (wp_deref mpts mmu (mpt_set_wr 1 m)); [apply lookup_insert_eq|done|].
  assert (fs_ok (alloc_flags := fl) s0 (3 + k) X) as Hfs0 by exact (fs_local s s0 (3 + k) X eq_refl eq_refl Hfs).
  apply wp_bind. eapply (wp_next_table fl Hfl s0 (m_p4 m) root i4 [] root X (2 + k)); [exact Hok|apply unshared_short; simpl; lia|simpl; lia|constructor|done|done|done|done|done|].
  intros s1 t3 X1 Hok1 Hfs1 Hf1 Ht3 Hpte1 Hr1 Hx1. destruct (tab_phys_virt t3 Ht3) as [E3p Hn3].
  apply wp_bind. eapply (wp_next_table fl Hfl s1 _ t3 i3 [i4] root X1 (1 + k)); [done|apply unshared_short; simpl; lia|simpl; lia|done|done|done|done|done|done|].
  intros s2 t2 X2 Hok2 Hfs2 Hf2 Ht2 Hpte2 Hr2 Hx2. destruct (tab_phys_virt t2 Ht2) as [E2p Hn2].
  apply wp_bind. eapply (wp_next_table fl Hfl s2 _ t2 i2 [i4; i3] root X2 k); [done|by eapply (unshared_prefix _ _ Hun); exists [i2]|simpl; lia|done|done|done|done|done|done|].
  intros s3 t1 X3 Hok3 Hfs3 Hf3 Ht1 Hpte3 Hr3 Hx3.
  assert (same_rest s0 s3) as Hr by (eapply same_rest_trans; [done|]; by eapply same_rest_trans).
  assert (extended s0 s2 root X X2 (on_path virt)) as Hx02.
  { eapply extended_trans; [exact Hx1|exact Hx2| |].
    - intros x ->. right. exists []. split; [apply prefix_nil|done].
    - intros x ->. destruct (ex_reached _ _ _ _ _ _ Hx1 [i4] t3 ltac:(simpl; lia) Hf4 Hf1); [by left|right].
      exists [i4]. split; [by exists [i3; i2]|done]. }
  assert (extended s0 s3 root X X3 (on_path virt)) as Hx03.
  { eapply extended_trans; [exact Hx02|exact Hx3|by right|].
    intros x ->. destruct (ex_reached _ _ _ _ _ _ Hx02 [i4; i3] t2 ltac:(simpl; lia) Hf43 Hf2); [by left|right].
    exists [i4; i3]. split; [by exists [i2]|done]. }
  change (([i4; i3] ++ [i2])%list) with (path_of virt) in Hf3.
  apply wp_bind. eapply wp_map_entry; [exact Hok3|done|exact Hf3|done|].
  eapply wp_unlocked; [simpl; rewrite (sr_mpts _ _ Hr); done|]. apply (HQ _ X3). set (s' := upd_mpts _ _).
  assert (pt s' = written (tabs := pt s3) (va := virt) (t := t1) (v := mapped_pte phys flags)) as Ept by done.
  assert (0 ≤ virt) as Hv0 by lia.
  split; [rewrite Ept; by eapply (written_ok Hok3 Hv0 Hun Hf3)|exact (fs_local s3 s' k X3 eq_refl eq_refl Hfs3)|done|
          simpl; apply (sr_mem _ _ Hr)|simpl; apply (sr_cr3 _ _ Hr)|simpl; by rewrite (sr_flushed _ _ Hr)|
          rewrite Ept; by apply (written_pte Hok3 Hv0 Hun Hf3)| | |].
  - intros va Hva Hne. rewrite Ept, (written_pte_other Hok3 Hv0 Hun Hf3) by done. by rewrite Hpte3, Hpte2, Hpte1.
  - destruct Hx03 as [Hxf Hxc Hxr]. split; [done| |].
    + intros x Hx. rewrite Ept in Hx. destruct (decide (x = t1)) as [->|Hne].
      * destruct (Hxr (path_of virt) t1 ltac:(simpl; lia) (path_of_ok virt Hv0) Hf3) as [?|Hf]; [by left|]. right. by exists (path_of virt).
      * unfold written in Hx. rewrite lookup_alter_ne in Hx by done. by apply Hxc.
    + intros q x Hq Hqi Hx. rewrite Ept, (written_follow Hok3 Hv0 Hun Hf3) in Hx by done. by apply Hxr.
  - exists t1. by rewrite Ept, (written_follow Hok3 Hv0 Hun Hf3) by (simpl; lia || by apply path_of_ok).
Qed.

(** C11: mapping a page.  From an address space in order, with an allocator that
    has at least three frames, [vmm_map_page] returns; the address then
    translates through exactly the entry asked for, also when read back
    through [vmm_get_pte]; every address of another page translates as
    before; the tables are in order, the lock is released and the TLB entry
    flushed.  The address is one whose tables are not shared: any but those of
    the kernel's text and of the first gigabyte of the physical map, which
    boot.asm maps through the same table.  In the debug build there is one CPU
    ([Hquiet]): with more of them the function calls tlb_shootdown, which is
    not considered here. *)
Theorem vmm_map_page_correct phys virt flags `{!FrameSource (pgtab_flags virt flags)} :
  fs_ok (alloc_flags := pgtab_flags virt flags) s 3 X → Z.land flags VMM_UNMAP = 0 → 0 ≤ virt < 2 ^ 64 → unshared (path_of virt) →
  wp (vmm_map_page nr_cpus tlb_shootdown mmu phys virt flags) s (λ _ s', ∃ X',
    tables_ok (pt s') root X' ∧ fs_ok (alloc_flags := pgtab_flags virt flags) s' 0 X' ∧
    mpts s' = mpts s ∧ mem s' = mem s ∧ flushed s' = FlushSingle virt :: flushed s ∧
    pte_of (pt s') root virt = mapped_pte phys flags ∧
    (∀ va, 0 ≤ va → vpn va ≠ vpn virt → pte_of (pt s') root va = pte_of (pt s) root va) ∧
    wp (p ← vmm_get_pte mmu virt; rd_ptep p) s' (λ e s'', e = mapped_pte phys flags ∧ s'' = s')).
Proof using All.
  intros Hfs Hunmap Hv Hun. eapply wp_vmm_map_page; [exact Hfs|done..|].
  intros s' X' [Hok' Hfs' Hmp Hmem Hcr Hfl Hpte Hoth _ [t Ht]]. exists X'. split_and!; try done.
  eapply (wp_read_translation s' mmu m root X' virt t); [by rewrite Hmp|done|done|done|done|lia|done|done].
Qed.

(** Nothing is allocated on the way to a page that is to be unmapped. *)
Lemma wp_next_table_unmap s1 tab t i p fl (Q : option Z → vstate → Prop) :
  tables_ok (pt s1) root X → (length p ≤ 2)%nat → Forall idx_ok p → follow (pt s1) root p = Some t → idx_ok i →
  tab ≠ NULL → tab_phys tab = t →
  (follow (pt s1) root (p ++ [i]) = None → Q None s1) →
  (∀ t', follow (pt s1) root (p ++ [i]) = Some t' → frame_ok t' → Q (Some (phys_to_virt t')) s1) →
  wp (next_table tab i true fl) s1 Q.
Proof using Type.
  intros Hok1 Hp Hpi Ht Hi Hne Htab Hnone Hsome. unfold next_table. apply wp_bind. eapply wp_extract; [done..| |].
  - intros E _. by apply wp_ret, Hnone.
  - intros t' E Hf. destruct (tab_phys_virt t' Hf) as [_ Hn]. destruct (Z.eqb_spec (phys_to_virt t') NULL); [done|].
    by apply wp_ret, Hsome.
Qed.

(** Unmapping a page leaves the address without a translation, every other
    translation and both allocators as they were. *)
Theorem vmm_unmap_page_correct phys virt flags :
  Z.land flags VMM_UNMAP ≠ 0 → 0 ≤ virt < 2 ^ 64 → unshared (path_of virt) →
  wp (vmm_map_page nr_cpus tlb_shootdown mmu phys virt flags) s (λ _ s',
    tables_ok (pt s') root X ∧ vpm s' = vpm s ∧ vmap s' = vmap s ∧ mpts s' = mpts s ∧ mem s' = mem s ∧
    pte_of (pt s') root virt = 0 ∧
    ∀ va, 0 ≤ va → vpn va ≠ vpn virt → pte_of (pt s') root va = pte_of (pt s) root va).
Proof using All.
  intros Hunmap Hv Hun. unfold vmm_map_page. destruct (Z.eqb_spec (Z.land flags VMM_UNMAP) 0); [done|]. simpl negb.
  destruct (path_aligndown virt Hv) as [Epath Eidx]. unfold path_of in Epath. injection Epath as E4 E3 E2. rewrite E4, E3, E2.
  set (i4 := table_index P4_ADDR_SHIFT virt) in *. set (i3 := table_index P3_ADDR_SHIFT virt) in *. set (i2 := table_index P2_ADDR_SHIFT virt) in *.
  assert (idx_ok i4 ∧ idx_ok i3 ∧ idx_ok i2) as (H4 & H3 & H2) by (split_and!; apply table_index_ok; done || lia).
  assert (Forall idx_ok [i4] ∧ Forall idx_ok [i4; i3]) as [Hf4 Hf43] by by rewrite !Forall_cons, Forall_nil.
  apply wp_bind, wp_locked. set (s0 := upd_mpts _ s).
  apply wp_bind. eapply (wp_deref mpts mmu (mpt_set_wr 1 m)); [apply lookup_insert_eq|done|]. simpl m_p4.
  assert (∀ p q, path_of virt = p ++ q → follow (pt s) root p = None → wp (write_spin_unlock mmu) s0 (λ _ s',
    tables_ok (pt s') root X ∧ vpm s' = vpm s ∧ vmap s' = vmap s ∧ mpts s' = mpts s ∧ mem s' = mem s ∧
    pte_of (pt s') root virt = 0 ∧ ∀ va, 0 ≤ va → vpn va ≠ vpn virt → pte_of (pt s') root va = pte_of (pt s) root va)) as Hearly.
  { intros p q E Hnone. eapply wp_unlocked; [done|]. split_and!; try done. unfold pte_of.
    change (pt (upd_mpts (λ _, mpts s) s0)) with (pt s). by rewrite E, follow_app, Hnone. }
  apply wp_bind. eapply (wp_next_table_unmap s0 (m_p4 m) root i4 []); [exact Hok|simpl; lia|constructor|done|done|done|done| |].
  { intros Hn. by apply (Hearly [i4] [i3; i2]). }
  intros t3 Hf1 Ht3. destruct (tab_phys_virt t3 Ht3) as [E3p Hn3].
  apply wp_bind. eapply (wp_next_table_unmap s0 _ t3 i3 [i4]); [done|simpl; lia|done|done|done|done|done| |].
  { intros Hn. by apply (Hearly [i4; i3] [i2]). }
  intros t2 Hf2 Ht2. destruct (tab_phys_virt t2 Ht2) as [E2p Hn2].
  apply wp_bind. eapply (wp_next_table_unmap s0 _ t2 i2 [i4; i3]); [done|simpl; lia|done|done|done|done|done| |].
  { intros Hn. by apply (Hearly [i4; i3; i2] []). }
  intros t1 Hf3 Ht1. change (([i4; i3] ++ [i2])%list) with (path_of virt) in Hf3. assert (0 ≤ virt) as Hv0 by lia.
  apply wp_bind. eapply wp_map_entry; [exact Hok|done|exact Hf3|done|].
  eapply wp_unlocked; [done|]. split_and!; try done.
  - by apply (written_ok (tabs := pt s) (v := 0) Hok Hv0 Hun Hf3).
  - by apply (written_pte (tabs := pt s) (v := 0) Hok Hv0 Hun Hf3).
  - intros va Hva Hne. by apply (written_pte_other (tabs := pt s) (v := 0) Hok Hv0 Hun Hf3).
Qed.
End map.

(** ** A small machine *)

Module VmmDemo.
(** Frames 0 to 12 have descriptors, frames 8 to 11 are one free block, and
    frames 1, 2, 4, 5 and 6 hold tables as boot.asm sets them up: the one in
    frame 5 is entered for the kernel's text and for the physical map. *)
Definition pages : gmap Z page :=
  <[ptr 8 := mk_page NULL NULL 2 0 0]> (list_to_map ((λ f, (ptr f, page_zero)) <$> seqZ 0 13)).
Definition zaddr : Z := phys_to_virt (7 * PAGE_SIZE).
Definition pool : pstate :=
  mk_pstate pages {[zaddr := mk_zone NULL (8 * PAGE_SIZE) (4 * PAGE_SIZE) (NULL :: NULL :: ptr 8 :: replicate 9 NULL)]} zaddr 0.
Definition pool_zone : gzone := mk_gzone zaddr 8 12 (<[2%nat := [8]]> (replicate 12 [])) [].

Definition with_entries (l : list (nat * Z)) : list Z := foldr (λ '(i, t) tab, <[i := Z.lor t 3]> tab) empty_table l.
Definition tabs : gmap Z (list Z) :=
  <[0x1000 := with_entries [(511%nat, 0x2000); (256%nat, 0x4000)]]>
  (<[0x2000 := with_entries [(510%nat, 0x5000)]]>
  (<[0x4000 := with_entries [(0%nat, 0x5000)]]>
  (<[0x5000 := with_entries [(0%nat, 0x6000)]]>
  {[0x6000 := with_entries [(0%nat, 0x1000)]]}))).

Definition mmu : Z := 0xFFFF800000003000.
Definition mmu_state : mmu_pt := mk_mpt (phys_to_virt 0x1000) 1 0 0 0.
Definition state : vstate :=
  mk_vstate tabs ∅ pool (mk_mmap 0 (mk_mtype 0 []) (mk_mtype 0 [])) {[mmu := mmu_state]} 0 [].

Lemma pool_ok : pmm_ok pool [pool_zone].
Proof.
  split; try done.
  - split; [|done]. split; [|done|by intros b ?%elem_of_nil]. split; try done.
    + intros b Hb. change (fblocks (gF pool_zone)) with [(8, 2%nat)] in Hb. apply list_elem_of_singleton in Hb as ->.
      split; [by exists 2|done].
    + change (frames (fblocks (gF pool_zone))) with [8; 9; 10; 11]. by apply (bool_decide_unpack (NoDup [8; 9; 10; 11])).
    + intros o L HL. destruct (decide (o = 2%nat)) as [->|].
      * injection HL as <-. split; [|done]. eexists. done.
      * change (gF pool_zone) with (<[2%nat := [8]]> (replicate 12 ([] : list Z))) in HL.
        rewrite list_lookup_insert_ne in HL by done. by apply lookup_replicate in HL as [-> _].
    + intros f Hf. change (8 ≤ f < 12) in Hf. assert (f = 8 ∨ f = 9 ∨ f = 10 ∨ f = 11) as [->|[->|[->| ->]]] by lia; eexists; done.
  - apply NoDup_singleton.
  - intros i j b b' Hi Hj Hij. apply lookup_lt_Some in Hi, Hj. simpl in *. lia.
  - intros f b Hf ->%list_elem_of_singleton Hr Hno. simpl in Hr.
    assert (¬ (8 ≤ f < 12)) by (apply (Hno (8, 12)); left).
    assert (f ∈ [0; 1; 2; 3; 4; 5; 6; 7; 12]) as Hin by (rewrite !elem_of_cons; lia).
    assert (Forall (λ f, null_links pages (f, 0%nat)) [0; 1; 2; 3; 4; 5; 6; 7; 12]) as Hall by (repeat constructor; eexists; done).
    rewrite Forall_forall in Hall. by apply Hall.
Qed.

Definition free_frames (q : Z) : Prop := ∃ f, q = f * 4096 ∧ f ∈ pool_free [pool_zone].

Lemma frames_ok `{BuildConfig} : pmm_fs_ok state 3 free_frames.
Proof.
  exists [pool_zone]. split; [apply pool_ok|]. split; [vm_compute; lia|]. split; [|done].
  intros g ->%list_elem_of_singleton. done.
Qed.

Lemma boot_tables (X : Z → Prop) : (∀ q, X q → q ∉ [0x1000; 0x2000; 0x4000; 0x5000; 0x6000]) → tables_ok tabs 0x1000 X.
Proof.
  intros HX. apply tables_by_check; [by vm_compute|]. intros q Hq%HX.
  change ((walk tabs 3 0x1000).*2) with [0x1000; 0x4000; 0x5000; 0x6000; 0x2000; 0x5000; 0x6000].
  intros Hin. apply Hq. rewrite !elem_of_cons, elem_of_nil in *. lia.
Qed.

Lemma tables : tables_ok (pt state) 0x1000 free_frames.
Proof.
  apply boot_tables. intros q (f & -> & Hf). change (pool_free [pool_zone]) with [8; 9; 10; 11] in Hf.
  rewrite !elem_of_cons, elem_of_nil in *. lia.
Qed.

(** The kernel's own tables are shared, as in the program. *)
Lemma shared : follow (pt state) 0x1000 [256; 0] = Some 0x5000 ∧ follow (pt state) 0x1000 [511; 510] = Some 0x5000.
Proof. by vm_compute. Qed.
End VmmDemo.

Lemma vmm_map_page_correct_witness :
  wp (vmm_map_page (H := debug_build) 1 (λ _ _ _, mret tt) VmmDemo.mmu 0x9000 0x400000 PAGE_WRITABLE) VmmDemo.state (λ _ s',
    pte_of (pt s') 0x1000 0x400000 = mapped_pte 0x9000 PAGE_WRITABLE).
Proof.
  eapply wp_mono.
  - unshelve eapply (vmm_map_page_correct (H := debug_build) 1 (λ _ _ _, mret tt) (or_intror _) VmmDemo.state VmmDemo.mmu VmmDemo.mmu_state
      0x1000 VmmDemo.free_frames _ _ _ _ _ VmmDemo.tables 0x9000 0x400000 PAGE_WRITABLE).
    + lia.
    + apply lookup_singleton_eq.
    + discriminate.
    + reflexivity.
    + discriminate.
    + reflexivity.
    + apply (pmm_source (H := debug_build)). reflexivity.
    + apply (VmmDemo.frames_ok (H := debug_build)).
    + reflexivity.
    + lia.
    + apply user_unshared. lia.
  - intros [] s' (X' & _ & _ & _ & _ & _ & E & _). exact E.
Defined.

Lemma vmm_unmap_page_correct_witness :
  wp (vmm_map_page (H := debug_build) 1 (λ _ _ _, mret tt) VmmDemo.mmu 0 0x400000 VMM_UNMAP) VmmDemo.state (λ _ s',
    pte_of (pt s') 0x1000 0x400000 = 0).
Proof.
  eapply wp_mono.
  - unshelve eapply (vmm_unmap_page_correct (H := debug_build) 1 (λ _ _ _, mret tt) (or_intror _) VmmDemo.state VmmDemo.mmu VmmDemo.mmu_state
      0x1000 VmmDemo.free_frames _ _ _ _ _ VmmDemo.tables 0 0x400000 VMM_UNMAP);
      [lia|apply lookup_singleton_eq|discriminate|reflexivity|discriminate|reflexivity|discriminate|lia|apply user_unshared; lia].
  - intros [] s' (_ & _ & _ & _ & _ & E & _). exact E.
Defined.
