(* ===== verification/CowSpec.v ===== *)
(** * Copy-on-write: proofs

    [cow_handle_write] gives the faulting address a private, writable page
    with the contents of the shared one, and [cow_copy_pte] shares a page
    between one more mapping; the reference count of a frame is the number of
    copy-on-write mappings that point to it. *)

From stdpp Require Import base list gmap.
From Stdlib Require Import ZArith Lia Bool.
From S2P Require Import Prelude Addr Pmm PmmInv PmmAlloc PmmFree PmmSpec Mmap Vmm VmmSpec VmmTheorems.
Local Open Scope Z_scope.

(** ** Bits of entries *)

Lemma mask_bit i : 0 ≤ i → Z.testbit PTE_ADDR_MASK i = (12 <=? i) && (i <? 52).
Proof.
  intros Hi. change PTE_ADDR_MASK with (Z.shiftl (Z.ones 40) 12). rewrite Z.shiftl_spec by lia.
  destruct (Z.leb_spec 12 i); [|by rewrite Z.testbit_neg_r by lia]. simpl. destruct (Z.ltb_spec i 52).
  - by rewrite Z.ones_spec_low by lia.
  - by rewrite Z.ones_spec_high by lia.
Qed.

Lemma not64_bit x i : 0 ≤ i → Z.testbit (not64 x) i = (i <? 64) && negb (Z.testbit x i).
Proof.
  intros Hi. unfold not64, uwrap. destruct (Z.ltb_spec i 64).
  - rewrite Z.mod_pow2_bits_low, Z.lnot_spec by lia. done.
  - by rewrite Z.mod_pow2_bits_high by lia.
Qed.

(** Equality of words of flags, bit by bit. *)
Ltac pte_bits :=
  apply Z.bits_inj'; intros ?i ?Hi;
  change PAGE_COW with (2 ^ 9); change PAGE_WRITABLE with (2 ^ 1); change PAGE_PRESENT with (2 ^ 0);
  repeat first [rewrite Z.land_spec | rewrite Z.lor_spec | rewrite not64_bit by lia | rewrite mask_bit by lia
               | rewrite Z.pow2_bits_eqb by lia | rewrite Z.bits_0].

(** The entry after a write: private and writable. *)
Definition privatised (e : Z) : Z := Z.lor (Z.land e (not64 PAGE_COW)) PAGE_WRITABLE.

Lemma privatised_facts e :
  paddr (privatised e) = paddr e ∧ Z.land (privatised e) PAGE_COW = 0 ∧
  Z.land (privatised e) PAGE_WRITABLE = PAGE_WRITABLE ∧ present (privatised e) = present e.
Proof.
  unfold paddr, privatised, present. split_and!.
  - pte_bits. destruct (Z.leb_spec 12 i), (Z.ltb_spec i 52), (Z.ltb_spec i 64), (Z.eqb_spec 9 i), (Z.eqb_spec 1 i);
      simpl; try lia; rewrite ?andb_false_r, ?andb_true_r, ?orb_false_r; done.
  - pte_bits. destruct (Z.ltb_spec i 64), (Z.eqb_spec 9 i), (Z.eqb_spec 1 i);
      simpl; try lia; rewrite ?andb_false_r, ?andb_true_r, ?orb_false_r; done.
  - pte_bits. destruct (Z.eqb_spec 1 i); rewrite ?andb_false_r, ?andb_true_r, ?orb_true_r; done.
  - do 2 f_equal. pte_bits. destruct (Z.ltb_spec i 64), (Z.eqb_spec 9 i), (Z.eqb_spec 1 i), (Z.eqb_spec 0 i);
      simpl; try lia; rewrite ?andb_false_r, ?andb_true_r, ?orb_false_r; done.
Qed.

(** Replacing the frame of an entry. *)
Definition redirected (e f : Z) : Z := Z.lor (Z.land e (not64 PTE_ADDR_MASK)) (Z.land f PTE_ADDR_MASK).

Lemma redirected_facts e f :
  frame_ok f → paddr (redirected e f) = f ∧ present (redirected e f) = present e.
Proof.
  intros Hf. assert (paddr (redirected e f) = paddr f) as E.
  { unfold paddr, redirected. pte_bits. destruct (Z.leb_spec 12 i), (Z.ltb_spec i 52), (Z.ltb_spec i 64); simpl; try lia;
      rewrite ?andb_false_r, ?andb_true_r; done. }
  split.
  - rewrite E. unfold paddr. destruct Hf as [[k ->] ?]. rewrite land_mask, Z.div_mul by lia. by rewrite Z.mod_small by lia.
  - unfold present, redirected. do 2 f_equal. pte_bits. destruct (Z.eqb_spec 0 i) as [<-|]; rewrite ?andb_false_r, ?andb_true_r; [|done].
    destruct (Z.testbit e 0), (Z.testbit f 0); done.
Qed.

(** ** Descriptors whose links do not change *)

(** The allocator's view of the descriptors is the same. *)
Definition links_kept (pg pg' : gmap Z page) : Prop :=
  ∀ a d, pg !! a = Some d →
  ∃ d', pg' !! a = Some d' ∧ pg_next d' = pg_next d ∧ pg_prev d' = pg_prev d ∧ pg_order d' = pg_order d.

Lemma links_kept_alter pg a g :
  (∀ d, pg_next (g d) = pg_next d ∧ pg_prev (g d) = pg_prev d ∧ pg_order (g d) = pg_order d) →
  links_kept pg (alter g a pg).
Proof.
  intros Hg b d Hd. destruct (decide (a = b)) as [->|].
  - rewrite lookup_alter_eq, Hd. simpl. destruct (Hg d) as (? & ? & ?). eauto.
  - rewrite lookup_alter_ne by done. eauto.
Qed.

Lemma null_links_kept pg pg' b : links_kept pg pg' → null_links pg b → null_links pg' b.
Proof. intros Hk (d & Hd & Hn & Hp). destruct (Hk _ _ Hd) as (d' & ? & ? & ? & _). exists d'. split_and!; congruence. Qed.

Lemma zone_is_kept s s' z nx lo hi F A :
  zones s' = zones s → links_kept (pages s) (pages s') → zone_is s z nx lo hi F A → zone_is s' z nx lo hi F A.
Proof.
  intros Hz Hk [[? Hh ? ? ? ? ? Hch Hd] Hp Ha]. split; [|done|].
  - split; try done; [by rewrite Hz| |].
    + intros o L HL. eapply dchain_ext; [by apply Hch|]. intros p d _ Hpd. destruct (Hk _ _ Hpd) as (d' & ? & ? & ? & ?). eauto.
    + intros f Hf. destruct (Hd f Hf) as [d Hfd]. destruct (Hk _ _ Hfd) as (d' & -> & _). eauto.
  - intros b Hb. destruct (Ha b Hb) as (? & ? & ?). split_and!; [done..|]. by eapply null_links_kept.
Qed.

Lemma pmm_ok_kept s s' Zs :
  zones s' = zones s → zone_list s' = zone_list s → zone_list_lock s' = zone_list_lock s →
  links_kept (pages s) (pages s') → pmm_ok s Zs → pmm_ok s' Zs.
Proof.
  intros Hz Hl Hk Hlinks [H1 H2 H3 H4 H5 H6]. split; try done; try congruence.
  - clear -Hz Hlinks H3. induction Zs as [|g Zs IH]; [done|]. destruct H3 as [? ?]. split; [by eapply zone_is_kept|auto].
  - intros f b Hf Hb Hr Hno. eapply null_links_kept; [done|by eapply H6].
Qed.

Lemma pmm_ok_upd_pages f v Zs : links_kept (pages v) (f (pages v)) → pmm_ok v Zs → pmm_ok (upd_pages f v) Zs.
Proof. intros. by apply (pmm_ok_kept v). Qed.

(** ** Accesses through a pointer to an entry *)

Lemma entry_alter tabs t i v e :
  entry tabs t i = Some e → entry (alter <[Z.to_nat i := v]> t tabs) t i = Some v.
Proof.
  unfold entry. rewrite lookup_alter_eq. destruct (tabs !! t) as [l|]; [|done]. simpl. intros Hl.
  apply list_lookup_insert_eq. by eapply lookup_lt_Some.
Qed.

Lemma entry_alter_other tabs t i v t' j :
  idx_ok i → idx_ok j → (t', j) ≠ (t, i) → entry (alter <[Z.to_nat i := v]> t tabs) t' j = entry tabs t' j.
Proof.
  intros Hi Hj Hne. unfold entry. destruct (decide (t' = t)) as [->|]; [|by rewrite lookup_alter_ne].
  rewrite lookup_alter_eq. destruct (tabs !! t) as [l|]; [|done]. simpl. rewrite list_lookup_insert_ne; [done|].
  unfold idx_ok in *. intros E. apply Hne. f_equal. lia.
Qed.

Lemma alter_alter_insert tabs t i (v w : Z) :
  alter <[i := w]> t (alter <[i := v]> t tabs) = alter (<[i := w]> : list Z → list Z) t (tabs : gmap Z (list Z)).
Proof.
  apply map_eq. intros a. destruct (decide (a = t)) as [->|]; [|by rewrite !lookup_alter_ne].
  rewrite !lookup_alter_eq. destruct (tabs !! t) as [l|]; [|done]. simpl. by rewrite list_insert_insert_eq.
Qed.

Lemma alter_entry_id tabs t i e : entry tabs t i = Some e → alter <[Z.to_nat i := e]> t tabs = tabs.
Proof.
  intros He. apply map_eq. intros a. destruct (decide (a = t)) as [->|]; [|by rewrite lookup_alter_ne].
  rewrite lookup_alter_eq. unfold entry in He. destruct (tabs !! t) as [l|]; [|done]. simpl in *. by rewrite list_insert_id.
Qed.

Section ptep.
Context `{BuildConfig} (t i : Z).
Hypothesis Ht : frame_ok t.
Hypothesis Hi : idx_ok i.
Definition ptep : Z := pte_addr (phys_to_virt t) i.

Lemma wp_rd_ptep s e (Q : Z → vstate → Prop) : entry (pt s) t i = Some e → Q e s → wp (rd_ptep ptep) s Q.
Proof using Ht Hi.
  intros He HQ. destruct (pte_addr_split t i Ht Hi) as (Hn & Etab & Eidx). destruct (tab_phys_virt t Ht) as [Ep Hne].
  unfold rd_ptep, ptep. destruct (Z.eqb_spec (pte_addr (phys_to_virt t) i) NULL); [done|]. rewrite Etab, Eidx.
  by eapply wp_rd_pte.
Qed.

Lemma wp_wr_ptep s v (Q : unit → vstate → Prop) :
  is_Some (entry (pt s) t i) → Q tt (upd_pt (alter <[Z.to_nat i := v]> t) s) → wp (wr_ptep ptep v) s Q.
Proof using Ht Hi.
  intros He HQ. destruct (pte_addr_split t i Ht Hi) as (Hn & Etab & Eidx). destruct (tab_phys_virt t Ht) as [Ep Hne].
  unfold wr_ptep, ptep. destruct (Z.eqb_spec (pte_addr (phys_to_virt t) i) NULL); [done|]. rewrite Etab, Eidx.
  by eapply wp_wr_pte.
Qed.

(** Two updates of an entry, the second of what the first has written. *)
Lemma wp_rmw s e v (f : Z → Z) (Q : unit → vstate → Prop) :
  entry (pt s) t i = Some e → Q tt (upd_pt (alter <[Z.to_nat i := f v]> t) s) →
  wp (wr_ptep ptep v;; e' ← rd_ptep ptep; wr_ptep ptep (f e')) s Q.
Proof using Ht Hi.
  intros He HQ. apply wp_bind, wp_wr_ptep; [eauto|]. apply wp_bind. eapply wp_rd_ptep; [by eapply entry_alter|].
  apply wp_wr_ptep; [eexists; by eapply entry_alter|].
  unfold upd_pt in HQ |- *. simpl. by rewrite alter_alter_insert.
Qed.

Lemma wp_rmw_then {B} s e v (f : Z → Z) (rest : M vstate B) (Q : B → vstate → Prop) :
  entry (pt s) t i = Some e → wp rest (upd_pt (alter <[Z.to_nat i := f v]> t) s) Q →
  wp (wr_ptep ptep v;; e' ← rd_ptep ptep; wr_ptep ptep (f e');; rest) s Q.
Proof using Ht Hi.
  intros He HQ. apply wp_bind, wp_wr_ptep; [eauto|]. apply wp_bind. eapply wp_rd_ptep; [by eapply entry_alter|].
  apply wp_bind, wp_wr_ptep; [eexists; by eapply entry_alter|].
  unfold upd_pt in HQ |- *. simpl. by rewrite alter_alter_insert.
Qed.
End ptep.

Lemma wp_on_pm_wr q g s (Q : unit → vstate → Prop) :
  is_Some (pages (vpm s) !! ptr q) → pfn_ok q → Q tt (upd_vpm (upd_pages (alter g (ptr q)) (vpm s)) s) →
  wp (on_pm (wr_page (ptr q) g)) s Q.
Proof. intros Hd Hq HQ. apply wp_zoom. by apply wp_wr_page. Qed.

Lemma wp_on_pm_rd q d s (Q : page → vstate → Prop) :
  pages (vpm s) !! ptr q = Some d → pfn_ok q → Q d s → wp (on_pm (rd_page (ptr q))) s Q.
Proof. intros Hd Hq HQ. apply wp_zoom. eapply wp_rd_page; [done..|]. by destruct s. Qed.

Lemma wp_kref_dec q d s (Q : Z → vstate → Prop) :
  pages (vpm s) !! ptr q = Some d → pfn_ok q →
  Q (u32 (refcount d - 1))
    (upd_vpm (upd_pages (alter (λ d, set_refcount (u32 (refcount d - 1)) d) (ptr q)) (vpm s)) s) →
  wp (kref_dec_read (ptr q)) s Q.
Proof.
  intros Hd Hq HQ. unfold kref_dec_read. apply wp_bind, wp_on_pm_wr; [eauto|done|].
  apply wp_bind. eapply wp_on_pm_rd; [simpl; by rewrite lookup_alter_eq, Hd|done|]. by apply wp_ret.
Qed.

Lemma wp_kref_inc q d s (Q : Z → vstate → Prop) :
  pages (vpm s) !! ptr q = Some d → pfn_ok q →
  Q (u32 (refcount d + 1))
    (upd_vpm (upd_pages (alter (λ d, set_refcount (u32 (refcount d + 1)) d) (ptr q)) (vpm s)) s) →
  wp (kref_inc_read (ptr q)) s Q.
Proof.
  intros Hd Hq HQ. unfold kref_inc_read. apply wp_bind, wp_on_pm_wr; [eauto|done|].
  apply wp_bind. eapply wp_on_pm_rd; [simpl; by rewrite lookup_alter_eq, Hd|done|]. by apply wp_ret.
Qed.

Lemma wp_lock_page q d s (Q : unit → vstate → Prop) :
  pages (vpm s) !! ptr q = Some d → pfn_ok q → page_lock d = 0 →
  Q tt (upd_vpm (upd_pages (alter (set_plock 1) (ptr q)) (vpm s)) s) → wp (lock_page (ptr q)) s Q.
Proof.
  intros Hd Hq Hl HQ. unfold lock_page. apply wp_bind. eapply wp_on_pm_rd; [done..|]. rewrite Hl.
  apply wp_on_pm_wr; eauto.
Qed.

(** The frame of an entry, as the code gets at its descriptor. *)
Lemma entry_page e q : paddr e = q * 4096 → pfn_ok q → 0 < q → phys_to_page (Z.land e PTE_ADDR_MASK) = ptr q.
Proof.
  intros E Hq H0. unfold paddr in E. rewrite E. rewrite <-(Z.add_0_r (q * 4096)). apply phys_to_page_pfn; [done|done|].
  unfold PAGE_SIZE. lia.
Qed.

(** ** A write to a shared page *)

Section write.
Context `{BuildConfig}.

(** A copy-on-write entry at index [i] of table [t]: it points to frame [q],
    whose contents are [c] and whose descriptor counts [n] mappings. *)
Record cow_entry (s : vstate) (t i q c n : Z) (e : Z) : Prop := {
  ce_table : frame_ok t;
  ce_index : idx_ok i;
  ce_entry : entry (pt s) t i = Some e;
  ce_cow : Z.land e PAGE_COW ≠ 0;
  ce_addr : paddr e = q * 4096;
  ce_frame : pfn_ok q ∧ 0 < q;
  ce_mem : mem s !! (q * 4096) = Some c;
  ce_desc : ∃ d, pages (vpm s) !! ptr q = Some d ∧ refcount d = n ∧ page_lock d = 0;
  ce_count : 1 ≤ n < 2 ^ 32
}.

(** Entry [e] has become [e'], private and writable, in state [s']. *)
Record cow_resolved (s : vstate) (Zs : list gzone) (t i q c n e virt : Z) (s' : vstate) (e' : Z) (Zs' : list gzone) : Prop := {
  cr_entry : entry (pt s') t i = Some e';
  cr_present : present e' = present e;
  cr_cow : Z.land e' PAGE_COW = 0;
  cr_writable : Z.land e' PAGE_WRITABLE = PAGE_WRITABLE;
  cr_others : ∀ t' j, idx_ok j → (t', j) ≠ (t, i) → entry (pt s') t' j = entry (pt s) t' j;
  cr_contents : mem s' !! paddr e' = Some c;
  cr_shared : mem s' !! (q * 4096) = Some c;
  cr_frame : if decide (n = 1) then paddr e' = q * 4096 ∧ Zs' = Zs
             else ∃ p, paddr e' = p * 4096 ∧ p ≠ q ∧ pool_alloc Zs Zs' p 0;
  cr_pool : pmm_ok (vpm s') Zs';
  cr_count : ∃ d', pages (vpm s') !! ptr q = Some d' ∧ refcount d' = n - 1 ∧ page_lock d' = 0;
  cr_flushed : flushed s' = FlushSingle virt :: flushed s;
  cr_tables : pt s' = alter <[Z.to_nat i := e']> t (pt s);
  cr_spaces : mpts s' = mpts s
}.

(** The end of [cow_handle_write], common to both cases. *)
Lemma wp_cow_finish s Zs t i q c n e virt s3 Zs3 e3 :
  frame_ok t → idx_ok i → pfn_ok q → pmm_ok (vpm s3) Zs3 → entry (pt s3) t i = Some e3 → present e3 = present e →
  (∀ t' j, idx_ok j → (t', j) ≠ (t, i) → entry (pt s3) t' j = entry (pt s) t' j) →
  mem s3 !! paddr e3 = Some c → mem s3 !! (q * 4096) = Some c →
  (if decide (n = 1) then paddr e3 = q * 4096 ∧ Zs3 = Zs else ∃ p, paddr e3 = p * 4096 ∧ p ≠ q ∧ pool_alloc Zs Zs3 p 0) →
  (∃ d3, pages (vpm s3) !! ptr q = Some d3 ∧ refcount d3 = n - 1) → flushed s3 = flushed s →
  pt s3 = alter <[Z.to_nat i := e3]> t (pt s) → mpts s3 = mpts s →
  wp (unlock_page (ptr q);; e ← rd_ptep (ptep t i); wr_ptep (ptep t i) (Z.land e (not64 PAGE_COW));;
      e ← rd_ptep (ptep t i); wr_ptep (ptep t i) (Z.lor e PAGE_WRITABLE);; tlb_flush_single virt;; mret true) s3
    (λ r s', r = true ∧ ∃ e' Zs', cow_resolved s Zs t i q c n e virt s' e' Zs').
Proof.
  intros Ht Hi Hq Hok3 He3 Hpr Hoth Hm3 Hmq Hcase (d3 & Hd3 & Hr3) Hfl3 Hpt3 Hmp3.
  apply wp_bind. unfold unlock_page. apply wp_on_pm_wr; [eauto|done|]. apply wp_bind. eapply wp_rd_ptep; [done..|].
  eapply (wp_rmw_then t i Ht Hi _ e3 _ (λ x, Z.lor x PAGE_WRITABLE)); [done|]. fold (privatised e3).
  apply wp_bind. unfold tlb_flush_single. apply wp_modify. apply wp_ret. split; [done|]. exists (privatised e3), Zs3.
  destruct (privatised_facts e3) as (Ea & Ec & Ew & Ep). split; simpl; rewrite ?Ea, ?Ep; try done.
  - by eapply entry_alter.
  - intros t' j Hj Hne. rewrite entry_alter_other by done. by apply Hoth.
  - apply (pmm_ok_kept (vpm s3)); [done..| |exact Hok3]. by apply links_kept_alter.
  - rewrite lookup_alter_eq, Hd3. simpl. eexists. split; [done|]. done.
  - by rewrite Hfl3.
  - by rewrite Hpt3, alter_alter_insert.
Qed.

Lemma wp_cow_handle_write s Zs t i q c n e virt :
  cow_entry s t i q c n e → pmm_ok (vpm s) Zs → (∀ g, g ∈ Zs → 0 < glo g) →
  q ∉ pool_free Zs → (1 < n → pool_free Zs ≠ []) →
  wp (cow_handle_write (ptep t i) virt) s (λ r s', r = true ∧ ∃ e' Zs',
    cow_resolved s Zs t i q c n e virt s' e' Zs').
Proof.
  intros [Ht Hi He Hcow Hpa [Hq Hq0] Hmem (d & Hd & Hn & Hl) Hcount] Hok Hlo Hqf Hroom.
  destruct (pte_addr_split t i Ht Hi) as (Hnz & _ & _).
  unfold cow_handle_write. fold (ptep t i) in Hnz. destruct (Z.eqb_spec (ptep t i) NULL); [done|].
  apply wp_bind. eapply wp_rd_ptep; [done..|]. destruct (Z.eqb_spec (Z.land e PAGE_COW) 0); [done|].
  rewrite (entry_page e q Hpa Hq Hq0). apply wp_bind. eapply wp_lock_page; [done..|]. set (s1 := upd_vpm _ s).
  apply wp_bind. eapply wp_kref_dec; [simpl; by rewrite lookup_alter_eq, Hd|done|]. simpl refcount. rewrite Hn.
  set (s2 := upd_vpm _ s1). rewrite (uwrap_id 32 (n - 1)) by (unfold in_u; lia).
  assert (pages (vpm s2) !! ptr q = Some (set_refcount (n - 1) (set_plock 1 d))) as Hd2.
  { simpl. rewrite !lookup_alter_eq, Hd. simpl. rewrite Hn. by rewrite (uwrap_id 32 (n - 1)) by (unfold in_u; lia). }
  assert (pmm_ok (vpm s2) Zs) as Hok2.
  { apply (pmm_ok_kept (vpm s)); [done..| |exact Hok]. simpl. intros a x Hx.
    destruct (links_kept_alter (pages (vpm s)) (ptr q) (set_plock 1) ltac:(done) _ _ Hx) as (x1 & Hx1 & ? & ? & ?).
    destruct (links_kept_alter _ (ptr q) (λ d, set_refcount (u32 (refcount d - 1)) d) ltac:(done) _ _ Hx1) as (x2 & Hx2 & ? & ? & ?).
    exists x2. split_and!; congruence. }
  apply wp_bind. destruct (Z.ltb_spec 0 (n - 1)) as [Hgt|Hle].
  - apply wp_bind. unfold on_pm. apply wp_zoom. eapply wp_single_frame; [exact Hok2|apply Hroom; lia|].
    intros p v' Zs' Hpool Hok' Hpok Hcounts Hp Hpn Hfr. set (s3 := upd_vpm v' s2).
    destruct (pool_free_range _ _ _ Hok2 Hp) as (g & Hg & Hr & _). pose proof (Hlo g Hg).
    assert (page_to_phys (ptr p) = p * PAGE_SIZE) as -> by by apply page_to_phys_pfn.
    assert (frame_ok (p * PAGE_SIZE)) as Hfp by (unfold frame_ok, PAGE_SIZE, pfn_ok in *; split; [by exists p|lia]).
    apply wp_bind. eapply wp_rd_ptep; [done..|]. apply wp_bind. unfold copy_frame. apply wp_bind, wp_get.
    fold (paddr e). rewrite Hpa. change (mem s3) with (mem s). rewrite Hmem. apply wp_modify.
    eapply (wp_rmw t i Ht Hi _ e _ (λ x, Z.lor x (Z.land (p * PAGE_SIZE) PTE_ADDR_MASK))); [done|]. fold (redirected e (p * PAGE_SIZE)).
    destruct (redirected_facts e (p * PAGE_SIZE) Hfp) as [Epa Epr].
    assert (p ≠ q) as Hpq by congruence.
    destruct (Hcounts _ _ Hd2) as (d3 & Hd3 & Hr3 & _).
    eapply (wp_cow_finish s Zs t i q c n e virt _ Zs' (redirected e (p * PAGE_SIZE))); simpl; try done.
    + by eapply entry_alter.
    + intros t' j Hj Hne. by rewrite entry_alter_other.
    + rewrite Epa. apply lookup_insert_eq.
    + rewrite lookup_insert_ne; [done|]. unfold PAGE_SIZE. lia.
    + destruct (decide (n = 1)); [lia|]. exists p. done.
    + exists d3. split; [done|]. rewrite Hr3. done.
  - apply wp_ret. eapply (wp_cow_finish s Zs t i q c n e virt s2 Zs e); try done.
    + by rewrite Hpa.
    + destruct (decide (n = 1)); [done|lia].
    + eexists. split; [exact Hd2|done].
    + simpl. symmetry. by apply alter_entry_id.
Qed.

(** C12: a write fault on a copy-on-write page is resolved: [cow_handle_write]
    returns true and leaves an entry that is present as before, writable and
    no longer copy-on-write.  If it was the last mapping it keeps the frame,
    otherwise the entry points to a frame that was free and now has the same
    contents; the shared frame keeps its contents and loses one reference.
    No other entry of any table changes, the allocator's pool stays sound, the
    page lock is released and the address flushed from the TLB. *)
Theorem cow_handle_write_correct s Zs t i q c n e virt :
  cow_entry s t i q c n e → pmm_ok (vpm s) Zs → (∀ g, g ∈ Zs → 0 < glo g) →
  q ∉ pool_free Zs → (1 < n → pool_free Zs ≠ []) →
  wp (cow_handle_write (ptep t i) virt) s (λ r s', r = true ∧ ∃ e' Zs',
    cow_resolved s Zs t i q c n e virt s' e' Zs').
Proof. apply wp_cow_handle_write. Qed.

(** Entry [e] shared: read-only and copy-on-write. *)
Definition shared_pte (e : Z) : Z := Z.lor (Z.land e (not64 PAGE_WRITABLE)) PAGE_COW.

Lemma shared_facts e :
  paddr (shared_pte e) = paddr e ∧ Z.land (shared_pte e) PAGE_WRITABLE = 0 ∧
  Z.land (shared_pte e) PAGE_COW = PAGE_COW ∧ present (shared_pte e) = present e.
Proof.
  unfold paddr, shared_pte, present. split_and!.
  - pte_bits. destruct (Z.leb_spec 12 i), (Z.ltb_spec i 52), (Z.ltb_spec i 64), (Z.eqb_spec 9 i), (Z.eqb_spec 1 i);
      simpl; try lia; rewrite ?andb_false_r, ?andb_true_r, ?orb_false_r; done.
  - pte_bits. destruct (Z.ltb_spec i 64), (Z.eqb_spec 9 i), (Z.eqb_spec 1 i);
      simpl; try lia; rewrite ?andb_false_r, ?andb_true_r, ?orb_false_r; done.
  - pte_bits. destruct (Z.eqb_spec 9 i); rewrite ?andb_false_r, ?andb_true_r, ?orb_true_r; done.
  - do 2 f_equal. pte_bits. destruct (Z.ltb_spec i 64), (Z.eqb_spec 9 i), (Z.eqb_spec 1 i), (Z.eqb_spec 0 i);
      simpl; try lia; rewrite ?andb_false_r, ?andb_true_r, ?orb_false_r; done.
Qed.

(** [cow_copy_pte] of a mapping makes it read-only and copy-on-write,
    unless it was so already, and returns that entry for the copy: both point
    to the frame the page was in, and the frame's count is raised by one for
    every mapping that has become copy-on-write. *)
Theorem cow_copy_pte_correct s t i q e d :
  frame_ok t → idx_ok i → entry (pt s) t i = Some e → paddr e = q * 4096 → pfn_ok q → 0 < q →
  pages (vpm s) !! ptr q = Some d → 0 ≤ refcount d < 2 ^ 32 - 2 →
  (Z.land e PAGE_COW ≠ 0 → Z.land e PAGE_WRITABLE = 0) →
  wp (cow_copy_pte (ptep t i)) s (λ v s',
    paddr v = q * 4096 ∧ present v = present e ∧ Z.land v PAGE_WRITABLE = 0 ∧ Z.land v PAGE_COW = PAGE_COW ∧
    entry (pt s') t i = Some v ∧ (∀ t' j, idx_ok j → (t', j) ≠ (t, i) → entry (pt s') t' j = entry (pt s) t' j) ∧
    mem s' = mem s ∧
    (∃ d', pages (vpm s') !! ptr q = Some d' ∧
       refcount d' = refcount d + (if decide (Z.land e PAGE_COW = 0) then 2 else 1))).
Proof.
  intros Ht Hi He Hpa Hq Hq0 Hd Hn Hro. unfold cow_copy_pte. apply wp_bind. eapply wp_rd_ptep; [done..|].
  rewrite (entry_page e q Hpa Hq Hq0). destruct (Z.eqb_spec (Z.land e PAGE_COW) 0) as [Ec|Ec].
  - apply wp_bind. eapply (wp_rmw_then t i Ht Hi _ e _ (λ x, Z.lor x PAGE_COW)); [done|]. fold (shared_pte e).
    apply wp_bind. eapply wp_kref_inc; [exact Hd|done|]. apply wp_ret.
    apply wp_bind. eapply wp_kref_inc; [simpl; by rewrite lookup_alter_eq, Hd|done|]. simpl refcount.
    rewrite !(uwrap_id 32) by (unfold in_u; rewrite ?uwrap_id; unfold in_u; lia).
    destruct (Z.eqb_spec (refcount d + 1 + 1) 0); [lia|]. eapply wp_rd_ptep; [done..|by eapply entry_alter|].
    destruct (shared_facts e) as (Ea & Ew & Ec' & Ep). rewrite Ea, Ep. split_and!; try done.
    + by eapply entry_alter.
    + intros t' j Hj Hne. simpl. by rewrite entry_alter_other.
    + simpl. rewrite !lookup_alter_eq, Hd. simpl. eexists. split; [done|]. simpl. destruct (decide _); [|done].
      rewrite !(uwrap_id 32) by (unfold in_u; rewrite ?uwrap_id; unfold in_u; lia). lia.
  - apply wp_bind, wp_kassert_dbg; [apply Z.eqb_eq; auto|].
    apply wp_bind. eapply wp_kref_inc; [exact Hd|done|]. rewrite (uwrap_id 32) by (unfold in_u; lia).
    destruct (Z.eqb_spec (refcount d + 1) 0); [lia|]. eapply wp_rd_ptep; [done..|].
    split_and!; try done; [auto| |].
    + change PAGE_COW with (2 ^ 9) in *. by destruct (land_pow2 e 9 ltac:(lia)).
    + simpl. rewrite lookup_alter_eq, Hd. simpl. eexists. split; [done|]. simpl. destruct (decide _); [done|].
      rewrite uwrap_id by (unfold in_u; lia). done.
Qed.
End write.

(** ** Witnesses *)

Module CowDemo.
(** Frame 3 is shared by two mappings, one of them entry 5 of the table in
    frame 1; frames 8 to 11 are free. *)
Definition shared : Z := 0x3205.
Definition table : list Z := <[5%nat := shared]> empty_table.
Definition state : vstate :=
  mk_vstate {[0x1000 := table]} {[0x3000 := 42]}
    (upd_pages <[ptr 3 := mk_page NULL NULL 0 2 0]> VmmDemo.pool) (vmap VmmDemo.state) ∅ 0 [].

Lemma demo_pool_ok : pmm_ok (vpm state) [VmmDemo.pool_zone].
Proof.
  apply (pmm_ok_upd_pages <[ptr 3 := mk_page NULL NULL 0 2 0]> VmmDemo.pool); [|exact VmmDemo.pool_ok].
  intros a d Hd. destruct (decide (a = ptr 3)) as [->|]; [|rewrite lookup_insert_ne by done; eauto].
  rewrite lookup_insert_eq. eexists. split; [done|]. vm_compute in Hd. injection Hd as <-. done.
Qed.

Lemma entry_ok : cow_entry state 0x1000 5 3 42 2 shared.
Proof.
  split.
  - split; [by exists 1|done].
  - done.
  - vm_compute. reflexivity.
  - discriminate.
  - reflexivity.
  - done.
  - reflexivity.
  - eexists. split; [vm_compute; reflexivity|]. done.
  - lia.
Qed.
End CowDemo.

Lemma cow_handle_write_correct_witness :
  wp (cow_handle_write (H := debug_build) (ptep 0x1000 5) 0x400000) CowDemo.state (λ r s', r = true ∧ ∃ e' Zs',
    cow_resolved CowDemo.state [VmmDemo.pool_zone] 0x1000 5 3 42 2 CowDemo.shared 0x400000 s' e' Zs').
Proof.
  apply (cow_handle_write_correct (H := debug_build) CowDemo.state [VmmDemo.pool_zone] 0x1000 5 3 42 2 CowDemo.shared 0x400000
           CowDemo.entry_ok CowDemo.demo_pool_ok).
  - intros g ->%list_elem_of_singleton. reflexivity.
  - vm_compute. intros Hin. repeat (apply elem_of_cons in Hin as [Hin|Hin]; [discriminate Hin|]). by apply elem_of_nil in Hin.
  - intros _. discriminate.
Defined.

Lemma cow_copy_pte_correct_witness :
  wp (cow_copy_pte (H := debug_build) (ptep 0x1000 5)) CowDemo.state (λ v s', paddr v = 3 * 4096).
Proof.
  eapply wp_mono.
  - apply (cow_copy_pte_correct (H := debug_build) CowDemo.state 0x1000 5 3 CowDemo.shared (mk_page NULL NULL 0 2 0));
      [split; [by exists 1|done]|done|reflexivity|reflexivity|done|done|reflexivity|done|reflexivity].
  - intros v s' [Hv _]. exact Hv.
Defined.
