(* ===== verification/Slob.v ===== *)
(** * The kernel heap

    kernel/mm/slob.c.  Memory is seen in units of sixteen bytes, the size of a
    [struct slob_header]: a unit holds a next pointer and a count, whether it
    is in use as a header or as part of an allocation.  Pages come from the
    buddy allocator of Pmm.v. *)

From stdpp Require Import base list gmap.
From Stdlib Require Import ZArith Lia Bool.
From S2P Require Import Prelude Addr Pmm.
Local Open Scope Z_scope.

Record slob_header := mk_hdr { h_next : Z; h_units : Z }.

Definition UNIT : Z := 16.
Definition BIGALLOC : Z := PAGE_SIZE - UNIT.

Record slob := mk_slob {
  cells : gmap Z slob_header;
  head : Z;
  slob_lock : Z;
  spm : pstate
}.

Definition upd_cells f s := mk_slob (f (cells s)) (head s) (slob_lock s) (spm s).
Definition upd_head v s := mk_slob (cells s) v (slob_lock s) (spm s).
Definition upd_slob_lock v s := mk_slob (cells s) (head s) v (spm s).
Definition upd_spm v s := mk_slob (cells s) (head s) (slob_lock s) v.

Abbreviation L := (M slob).

Definition rd_hdr : Z → L slob_header := deref cells.
Definition wr_hdr : Z → (slob_header → slob_header) → L unit := store cells upd_cells.

Definition set_next (n : Z) (h : slob_header) := mk_hdr n (h_units h).
Definition set_units (u : Z) (h : slob_header) := mk_hdr (h_next h) u.

(** On one CPU, waiting for the lock while it is held does not end. *)
Definition lock_slob : L unit := s ← get; if slob_lock s =? 0 then modify (upd_slob_lock 1) else diverge.
Definition unlock_slob : L unit := modify (upd_slob_lock 0).

(** ** Filling memory *)

(** The low [k] bytes of a word become 0xBB. *)
Definition poison_word (k w : Z) : Z := w - w mod 2 ^ (8 * k) + 0xBB * ((2 ^ (8 * k) - 1) / 255).

(** The first [k] bytes of a unit: the next pointer comes first. *)
Definition poison_unit (k : Z) (h : slob_header) : slob_header :=
  mk_hdr (poison_word (Z.min k 8) (h_next h)) (poison_word (Z.max (k - 8) 0) (h_units h)).

(** [memset(p, 0xBB, n)] for [p] at the start of a unit: [full] whole units
    and the rest. *)
Fixpoint poison_units (full : nat) (p : Z) : L unit :=
  match full with
  | O => mret tt
  | S full => wr_hdr p (poison_unit 16);; poison_units full (p + UNIT)
  end.

Definition memset_bb (p n : Z) : L unit :=
  poison_units (Z.to_nat (n / UNIT)) p;;
  if n mod UNIT =? 0 then mret tt else wr_hdr (p + UNIT * (n / UNIT)) (poison_unit (n mod UNIT)).

Section Slob.
Context `{BuildConfig}.

(** ** Allocation *)

Definition morecore : L unit :=
  page ← zoom spm upd_spm (pmm_alloc_order 0 GFP_NONE);
  let hd := page_to_virt page in
  wr_hdr hd (set_units ((PAGE_SIZE - UNIT) / UNIT));;
  s ← get;
  wr_hdr hd (set_next (head s));;
  modify (upd_head hd).

(** [prev == NULL ? head = v : slist_set_next(prev, list, v)] *)
Definition relink (prev v : Z) : L unit :=
  if prev =? NULL then modify (upd_head v) else wr_hdr prev (set_next v).

(** One round of the search.  An exact match at the head of the list leaves
    [head] where it is. *)
Definition scan_round (units : Z) (c : Z * Z) : L (Z * Z + option Z) :=
  let '(prev, block) := c in
  if block =? NULL then mret (inr None)
  else
    h ← rd_hdr block;
    if h_units h =? units then
      (if prev =? NULL then modify (upd_head block) else wr_hdr prev (set_next (h_next h)));;
      unlock_slob;;
      mret (inr (Some (u64 (block + UNIT))))
    else if units <? h_units h then
      let new_block := u64 (block + UNIT * (units + 1)) in
      wr_hdr new_block (set_units (u64 (h_units h - units - 1)));;
      wr_hdr block (set_units units);;
      b ← rd_hdr block;
      wr_hdr new_block (set_next (h_next b));;
      relink prev new_block;;
      unlock_slob;;
      mret (inr (Some (u64 (block + UNIT))))
    else mret (inl (block, h_next h)).

(** The list has no more blocks than there are units of memory. *)
Definition slob_scan (units : Z) : L (option Z) :=
  s ← get; loop (S (size (cells s))) (scan_round units) (NULL, head s).

(** After [morecore] the search succeeds: two rounds are enough. *)
Definition slob_alloc (bytes alloc_flags : Z) : L Z :=
  let units := DIV_ROUND_UP bytes UNIT in
  if bytes <? BIGALLOC then
    lock_slob;;
    loop 2 (λ _,
      r ← slob_scan units;
      match r with
      | Some p => mret (inr p)
      | None => morecore;; mret (inl tt)
      end) tt
  else panic.

Definition kmalloc (n alloc_flags : Z) : L Z :=
  if DEBUG then p ← slob_alloc n alloc_flags; memset_bb p n;; mret p
  else slob_alloc n alloc_flags.

(** ** Release *)

Definition slob_free (p : Z) : L unit :=
  if ISALIGN_POW2 p PAGE_SIZE then panic
  else
    let header := u64 (p - UNIT) in
    lock_slob;;
    s ← get;
    wr_hdr header (set_next (head s));;
    modify (upd_head header);;
    (if DEBUG then h ← rd_hdr header; memset_bb p (u64 (h_units h * UNIT)) else mret tt);;
    unlock_slob.

Definition kfree (p : Z) : L unit := slob_free p.
End Slob.
