(* ===== verification/SlobSpec.v ===== *)
(** * The kernel heap: specification

    The free list as a list of blocks, a block as its address and its number
    of units, and the invariant that free blocks, allocated blocks and the
    page frames the buddy allocator still has never overlap.  [kmalloc] and
    [kfree] are proved against it, and the case in which [kmalloc] hands out
    a block it keeps on its list. *)

From stdpp Require Import base list gmap sorting.
From Stdlib Require Import ZArith Lia Bool.
From S2P Require Import Prelude Addr Pmm PmmInv PmmSpec Vmm VmmSpec VmmTheorems Slob.
Local Open Scope Z_scope.

Abbreviation sblock := (Z * Z)%type.

(** A block occupies its header and its units. *)
Definition span (b : sblock) : list Z := (λ j, b.1 + UNIT * j) <$> seqZ 0 (b.2 + 1).
Definition spans (bs : list sblock) : list Z := concat (span <$> bs).

Definition base (f : Z) : Z := f * PAGE_SIZE + KERNEL_LOGICAL_BASE.

(** Inside one page of the logical mapping. *)
Definition in_page (b : sblock) : Prop :=
  ∃ f i, pfn_ok f ∧ 0 < f ∧ b.1 = base f + UNIT * i ∧ 0 ≤ i ∧ 0 ≤ b.2 ∧ i + b.2 < 256.

Definition hd_addr (fs : list sblock) (t : Z) : Z := match fs with [] => t | (a, _) :: _ => a end.

(** The blocks [fs] are linked in this order, the last to [t]. *)
Fixpoint seg (cs : gmap Z slob_header) (fs : list sblock) (t : Z) : Prop :=
  match fs with
  | [] => True
  | (a, u) :: fs => cs !! a = Some (mk_hdr (hd_addr fs t) u) ∧ seg cs fs t
  end.

(** An allocated block keeps the count in its header. *)
Definition headed (cs : gmap Z slob_header) (b : sblock) : Prop :=
  ∃ n, cs !! b.1 = Some (mk_hdr n b.2).

Definition unit_of_free (Zs : list gzone) (c : Z) : Prop :=
  ∃ f j, f ∈ pool_free Zs ∧ 0 ≤ j < 256 ∧ c = base f + UNIT * j.

Record slob_inv (s : slob) (fs al : list sblock) (Zs : list gzone) : Prop := {
  si_head : head s = hd_addr fs NULL;
  si_seg : seg (cells s) fs NULL;
  si_al : Forall (headed (cells s)) al;
  si_pages : Forall in_page (fs ++ al);
  si_mem : ∀ c, c ∈ spans (fs ++ al) ∨ unit_of_free Zs c → is_Some (cells s !! c);
  si_nodup : NoDup (spans (fs ++ al));
  si_pm : pmm_ok (spm s) Zs;
  si_low : ∀ g, g ∈ Zs → 0 < glo g;
  si_apart : ∀ c, c ∈ spans (fs ++ al) → ¬ unit_of_free Zs c
}.

(** ** Spans *)

Lemma elem_span b c : c ∈ span b ↔ ∃ j, 0 ≤ j ≤ b.2 ∧ c = b.1 + UNIT * j.
Proof.
  unfold span. rewrite list_elem_of_fmap. setoid_rewrite elem_of_seqZ. split.
  - intros (j & -> & ?). exists j. split; [lia|done].
  - intros (j & ? & ->). exists j. split; [done|lia].
Qed.

Lemma spans_cons b bs : spans (b :: bs) = span b ++ spans bs.
Proof. done. Qed.

Lemma spans_app bs bs' : spans (bs ++ bs') = spans bs ++ spans bs'.
Proof. unfold spans. by rewrite fmap_app, concat_app. Qed.

Lemma elem_spans bs c : c ∈ spans bs ↔ ∃ b, b ∈ bs ∧ c ∈ span b.
Proof.
  induction bs as [|b bs IH].
  - split; [by intros ?%elem_of_nil|]. by intros (? & ?%elem_of_nil & _).
  - rewrite spans_cons, elem_of_app, IH. setoid_rewrite elem_of_cons. naive_solver.
Qed.

Lemma spans_perm bs bs' : bs ≡ₚ bs' → spans bs ≡ₚ spans bs'.
Proof.
  induction 1; rewrite ?spans_cons.
  - done.
  - by f_equiv.
  - by rewrite !(assoc_L (++)), (comm (++) (span y)).
  - by etrans.
Qed.

(** A block is cut in two behind its first [k] units. *)
Lemma span_split a u k :
  0 ≤ k < u → span (a, u) = span (a, k) ++ span (a + UNIT * (k + 1), u - k - 1).
Proof.
  intros Hk. unfold span. simpl.
  replace (u + 1) with ((k + 1) + (u - k - 1 + 1)) by lia.
  rewrite (seqZ_app 0 (k + 1)) by lia. rewrite fmap_app. f_equal.
  replace (0 + (k + 1)) with (k + 1 + 0) by lia. rewrite <-fmap_add_seqZ, <-list_fmap_compose. apply list_fmap_ext. intros i x _. simpl.
  unfold UNIT. lia.
Qed.

Lemma span_head a u : 0 ≤ u → a ∈ span (a, u).
Proof. intros. apply elem_span. exists 0. simpl. split; [lia|]. unfold UNIT. lia. Qed.

Lemma in_page_facts b :
  in_page b → 0 < b.1 ∧ b.1 + UNIT * (b.2 + 1) < 2 ^ 64 ∧ 0 ≤ b.2 < 256.
Proof.
  intros (f & i & Hf & Hf0 & -> & Hi & Hu & Hiu). unfold base, UNIT, PAGE_SIZE, KERNEL_LOGICAL_BASE, pfn_ok in *.
  lia.
Qed.

(** ** Segments *)

Lemma hd_addr_app fs fs' t : hd_addr (fs ++ fs') t = hd_addr fs (hd_addr fs' t).
Proof. by destruct fs as [|[]]. Qed.

Lemma seg_app cs fs fs' t : seg cs (fs ++ fs') t ↔ seg cs fs (hd_addr fs' t) ∧ seg cs fs' t.
Proof.
  induction fs as [|[a u] fs IH]; simpl; [tauto|]. rewrite hd_addr_app, IH. tauto.
Qed.

Lemma seg_ext cs cs' fs t :
  seg cs fs t → (∀ a u, (a, u) ∈ fs → cs' !! a = cs !! a) → seg cs' fs t.
Proof.
  induction fs as [|[a u] fs IH]; simpl; [done|]. intros [Ha Hs] He. split.
  - rewrite (He a u) by left. done.
  - apply IH; [done|]. intros b v Hb. apply (He b v). by right.
Qed.

Lemma seg_elem cs fs t a u : seg cs fs t → (a, u) ∈ fs → ∃ n, cs !! a = Some (mk_hdr n u).
Proof.
  induction fs as [|[b v] fs IH]; [by intros _ ?%elem_of_nil|]. intros [Hb Hs] [[= -> ->]|Hin]%elem_of_cons; eauto.
Qed.

(** ** Changes of memory *)

(** Only units of [X] change, none goes away, the page frames stay. *)
Record touched (X : list Z) (s s' : slob) : Prop := {
  to_same : ∀ c, c ∉ X → cells s' !! c = cells s !! c;
  to_dom : ∀ c, is_Some (cells s !! c) → is_Some (cells s' !! c);
  to_spm : spm s' = spm s
}.

Lemma touched_refl X s : touched X s s.
Proof. done. Qed.

Lemma touched_trans X s s' s'' : touched X s s' → touched X s' s'' → touched X s s''.
Proof.
  intros [H1 D1 P1] [H2 D2 P2]. split; [|auto|congruence]. intros c Hc. by rewrite H2, H1.
Qed.

Lemma touched_mono X Y s s' : touched X s s' → (∀ c, c ∈ X → c ∈ Y) → touched Y s s'.
Proof. intros [H1 D1 P1] Hsub. split; auto. Qed.

Lemma touched_wr X s p h : p ∈ X → touched X s (upd_cells <[p := h]> s).
Proof.
  intros Hp. split; [|simpl|done].
  - intros c Hc. simpl. apply lookup_insert_ne. by intros ->.
  - intros c Hc. destruct (decide (p = c)) as [->|]; [by rewrite lookup_insert_eq|by rewrite lookup_insert_ne].
Qed.

(** The units are dealt differently to the free and the allocated blocks. *)
Lemma slob_inv_change X s s' fs al fs' al' Zs :
  slob_inv s fs al Zs → touched X s s' → spans (fs' ++ al') ≡ₚ spans (fs ++ al) →
  head s' = hd_addr fs' NULL → seg (cells s') fs' NULL → Forall (headed (cells s')) al' →
  Forall in_page (fs' ++ al') → slob_inv s' fs' al' Zs.
Proof.
  intros Hs [_ Hd Hp] Hperm Hh Hseg Hal Hpg. split; try done.
  - intros c [Hc|Hc]; apply Hd, (si_mem _ _ _ _ Hs); [left; by rewrite <-Hperm|by right].
  - rewrite Hperm. apply Hs.
  - rewrite Hp. apply Hs.
  - apply Hs.
  - intros c Hc. apply (si_apart _ _ _ _ Hs). by rewrite <-Hperm.
Qed.

(** Headers are units of their blocks, so those of other blocks stay. *)
Lemma headed_touched X s s' al :
  touched X s s' → Forall (headed (cells s)) al → Forall (λ b, 0 ≤ b.2) al →
  (∀ c, c ∈ X → c ∉ spans al) → Forall (headed (cells s')) al.
Proof.
  intros Ht Hal Hu Hx. apply Forall_forall. intros b Hb.
  destruct (Forall_forall (headed (cells s)) al) as [Hf _]. destruct (Hf Hal b Hb) as [n Hn].
  destruct (Forall_forall (λ b : sblock, 0 ≤ b.2) al) as [Hg _].
  exists n. rewrite (to_same _ _ _ Ht); [done|]. intros Hc. apply (Hx _ Hc), elem_spans.
  exists b. split; [done|]. destruct b as [a u]. apply span_head. exact (Hg Hu (a, u) Hb).
Qed.

Lemma pages_units bs : Forall in_page bs → Forall (λ b, 0 ≤ b.2) bs.
Proof. intros H. eapply Forall_impl; [exact H|]. intros b (_ & _ & ? & _)%in_page_facts. done. Qed.

(** Free and allocated units are different. *)
Lemma inv_disjoint s fs al Zs c : slob_inv s fs al Zs → c ∈ spans fs → c ∉ spans al.
Proof.
  intros Hs Hc. pose proof (si_nodup _ _ _ _ Hs) as Hn. rewrite spans_app in Hn.
  apply NoDup_app in Hn as (_ & Hn & _). by apply Hn.
Qed.

(** Addresses of blocks differ when their units do. *)
Lemma addrs_nodup bs : Forall (λ b, 0 ≤ b.2) bs → NoDup (spans bs) → NoDup bs.*1.
Proof.
  induction bs as [|[a u] bs IH]; intros Hu Hn; [constructor|].
  apply Forall_cons in Hu as [Hu0 Hu]. rewrite spans_cons in Hn. apply NoDup_app in Hn as (_ & Hd & Hn).
  rewrite fmap_cons. apply NoDup_cons. split; [|by apply IH].
  intros ([b v] & Ha & Hb)%list_elem_of_fmap. simpl in Ha. subst b.
  apply (Hd a); [by apply span_head|]. apply elem_spans. exists (a, v). split; [done|].
  apply span_head. destruct (Forall_forall (λ b : sblock, 0 ≤ b.2) bs) as [Hf _]. exact (Hf Hu (a, v) Hb).
Qed.

Lemma addrs_spans bs a : Forall (λ b, 0 ≤ b.2) bs → a ∈ bs.*1 → a ∈ spans bs.
Proof.
  intros Hu ([b v] & -> & Hb)%list_elem_of_fmap. apply elem_spans. exists (b, v). split; [done|].
  apply span_head. destruct (Forall_forall (λ b : sblock, 0 ≤ b.2) bs) as [Hf _]. exact (Hf Hu (b, v) Hb).
Qed.

Lemma wp_rd_hdr p h s (Q : slob_header → slob → Prop) :
  cells s !! p = Some h → p ≠ 0 → Q h s → wp (rd_hdr p) s Q.
Proof. apply wp_deref. Qed.

Lemma wp_wr_hdr p f h s (Q : unit → slob → Prop) :
  cells s !! p = Some h → p ≠ 0 → Q tt (upd_cells <[p := f h]> s) → wp (wr_hdr p f) s Q.
Proof. apply wp_store. Qed.

Definition last_addr (pre : list sblock) : Z := match last pre with Some (a, _) => a | None => NULL end.

(** The link that leads to the hole after [pre] is set to [v]. *)
Lemma wp_slob_relink pre t v s (Q : unit → slob → Prop) :
  seg (cells s) pre t → head s = hd_addr pre t → NoDup pre.*1 → 0 ∉ pre.*1 →
  (∀ s', seg (cells s') pre v → head s' = hd_addr pre v → touched pre.*1 s s' →
         slob_lock s' = slob_lock s → Q tt s') →
  wp (relink (last_addr pre) v) s Q.
Proof.
  intros Hseg Hh Hnd H0 HQ. unfold relink, last_addr.
  destruct pre as [|[a u] pre _] using rev_ind; [by apply wp_modify, HQ|].
  rewrite last_snoc. rewrite fmap_app in Hnd, H0. apply NoDup_app in Hnd as (_ & Hd & _).
  apply seg_app in Hseg as [Hs1 [Ha _]]. simpl in Hs1, Ha.
  assert (a ≠ 0) as Hne by (intros ->; apply H0, elem_of_app; right; left).
  destruct (Z.eqb_spec a 0); [done|]. eapply wp_wr_hdr; [done..|]. apply HQ.
  - apply seg_app. split; [|split; [apply lookup_insert_eq|done]].
    eapply seg_ext; [exact Hs1|]. intros b w Hb. apply lookup_insert_ne. intros ->.
    apply (Hd b); [|left]. apply list_elem_of_fmap. by exists (b, w).
  - simpl. rewrite Hh, !hd_addr_app. done.
  - apply touched_wr. rewrite fmap_app. apply elem_of_app. right. left.
  - done.
Qed.

(** ** One round of the search *)

Section Round.
Context (s : slob) (pre post al : list sblock) (a u : Z) (Zs : list gzone).
Hypothesis Hinv : slob_inv s (pre ++ (a, u) :: post) al Zs.

Lemma round_pages : Forall in_page pre ∧ in_page (a, u) ∧ Forall in_page post ∧ Forall in_page al.
Proof using All.
  pose proof (si_pages _ _ _ _ Hinv) as H. rewrite !Forall_app, Forall_cons in H. tauto.
Qed.

Lemma round_nodup :
  NoDup (spans pre) ∧ (∀ c, c ∈ spans pre → c ∉ span (a, u)) ∧ (∀ c, c ∈ spans pre → c ∉ spans post).
Proof using All.
  pose proof (si_nodup _ _ _ _ Hinv) as H. rewrite !spans_app, spans_cons, <-!(assoc_L (++)) in H.
  apply NoDup_app in H as (H1 & H2 & _). split; [done|].
  split; intros c Hc Hn; apply (H2 c Hc); rewrite !elem_of_app; auto.
Qed.

Lemma round_link : cells s !! a = Some (mk_hdr (hd_addr post NULL) u) ∧ seg (cells s) pre a ∧ seg (cells s) post NULL.
Proof using All. pose proof (si_seg _ _ _ _ Hinv) as H. apply seg_app in H as [H1 [H2 H3]]. done. Qed.

Lemma pre_addrs : NoDup pre.*1 ∧ 0 ∉ pre.*1 ∧ (∀ c, c ∈ pre.*1 → c ∈ spans pre).
Proof using All.
  destruct round_pages as (Hp & _). pose proof (pages_units _ Hp) as Hu. destruct round_nodup as [Hn _].
  split; [by apply addrs_nodup|]. split; [|intros c; by apply addrs_spans].
  intros ([b v] & Hb & Hin)%list_elem_of_fmap. simpl in Hb.
  destruct (Forall_forall in_page pre) as [Hf _]. destruct (in_page_facts _ (Hf Hp _ Hin)). simpl in *. lia.
Qed.

(** Nothing of an allocated block is a unit of a free one. *)
Lemma round_al X s' : touched X s s' → (∀ c, c ∈ X → c ∈ spans (pre ++ (a, u) :: post)) →
  Forall (headed (cells s')) al.
Proof using All.
  intros Ht HX. eapply headed_touched; [exact Ht|apply Hinv|apply pages_units, round_pages|].
  intros c Hc. eapply inv_disjoint; [exact Hinv|auto].
Qed.

(** The rest of the list and the block's header stay when only [pre] changes. *)
Lemma keep_block s' : touched pre.*1 s s' → cells s' !! a = cells s !! a.
Proof using All.
  intros Ht. apply (to_same _ _ _ Ht). intros Hc. destruct pre_addrs as (_ & _ & Hs).
  destruct round_nodup as (_ & Hn & _). apply (Hn a); [by apply Hs|].
  apply span_head. destruct round_pages as (_ & (_ & _ & ? & _)%in_page_facts & _). done.
Qed.

Lemma keep_post s' : touched pre.*1 s s' → seg (cells s') post NULL.
Proof using All.
  intros Ht. destruct round_link as (_ & _ & Hpost). eapply seg_ext; [exact Hpost|].
  intros b v Hb. apply (to_same _ _ _ Ht). intros Hc. destruct pre_addrs as (_ & _ & Hs).
  destruct round_nodup as (_ & _ & Hn). apply (Hn b); [by apply Hs|].
  apply addrs_spans; [apply pages_units, round_pages|]. apply list_elem_of_fmap. by exists (b, v).
Qed.

(** The block fits exactly and is not the first: it is taken off the list. *)
Lemma wp_round_exact (Q : Z * Z + option Z → slob → Prop) :
  pre ≠ [] →
  (∀ s', slob_inv s' (pre ++ post) ((a, u) :: al) Zs → slob_lock s' = 0 → Q (inr (Some (a + UNIT))) s') →
  wp (scan_round u (last_addr pre, a)) s Q.
Proof using All.
  intros Hpre HQ. destruct round_pages as (Hp1 & Hp2 & Hp3 & Hp4). destruct round_link as (Ha & Hs1 & Hs2).
  destruct (in_page_facts _ Hp2) as (H0 & H64 & Hu). simpl in H0, H64, Hu.
  destruct pre_addrs as (Hn & Hz & Hsub). unfold scan_round, unlock_slob.
  destruct (Z.eqb_spec a NULL); [lia|]. apply wp_bind, (wp_rd_hdr _ _ _ _ Ha); [lia|].
  simpl h_units. rewrite Z.eqb_refl. apply wp_bind. simpl h_next.
  assert (last_addr pre ≠ NULL) as Hl.
  { destruct pre as [|[b v] l _] using rev_ind; [done|]. unfold last_addr. rewrite last_snoc. intros ->.
    apply Hz. rewrite fmap_app. apply elem_of_app. right. left. }
  destruct (Z.eqb_spec (last_addr pre) NULL) as [|_]; [done|].
  assert (wr_hdr (last_addr pre) (set_next (hd_addr post NULL)) = relink (last_addr pre) (hd_addr post NULL)) as ->.
  { unfold relink. by destruct (Z.eqb_spec (last_addr pre) NULL). }
  apply (wp_slob_relink pre a); [done| |done|done|].
  { rewrite (si_head _ _ _ _ Hinv), hd_addr_app. done. }
  intros s' Hseg Hh Ht Hlk. wp_steps. rewrite uwrap_id by (unfold in_u, UNIT in *; lia).
  apply HQ; [|done]. eapply (slob_inv_change pre.*1); [exact Hinv|by destruct Ht| | | | |].
  - apply spans_perm. rewrite <-!(assoc_L (++)). f_equiv. simpl. by rewrite <-Permutation_middle.
  - simpl. by rewrite Hh, hd_addr_app.
  - simpl. apply seg_app. split; [done|by apply keep_post].
  - simpl. apply Forall_cons. split; [exists (hd_addr post NULL); simpl; by rewrite (keep_block _ Ht)|].
    apply (round_al pre.*1); [done|]. intros c Hc. rewrite spans_app. apply elem_of_app. left. by apply Hsub.
  - rewrite !Forall_app, Forall_cons. tauto.
Qed.

(** Cutting the block behind its first [k] units: both parts have headers
    with the same link. *)
Lemma wp_cut_block {A} k (rest : L A) (Q : A → slob → Prop) :
  0 ≤ k < u → let nb := a + UNIT * (k + 1) in
  (∀ s', touched (span (a, u)) s s' → head s' = head s →
     cells s' !! a = Some (mk_hdr (hd_addr post NULL) k) →
     cells s' !! nb = Some (mk_hdr (hd_addr post NULL) (u - k - 1)) → wp rest s' Q) →
  wp (wr_hdr nb (set_units (u - k - 1));; wr_hdr a (set_units k);;
      b ← rd_hdr a; wr_hdr nb (set_next (h_next b));; rest) s Q.
Proof using All.
  intros Hk nb HQ. destruct round_pages as (_ & Hp2 & _). destruct round_link as (Ha & _ & _).
  destruct (in_page_facts _ Hp2) as (H0 & _ & Hu). simpl in H0, Hu.
  assert (a < nb) by (unfold nb, UNIT; lia).
  assert (nb ∈ span (a, u)) as Hnb.
  { rewrite (span_split a u k) by lia. apply elem_of_app. right. apply span_head. lia. }
  assert (a ∈ span (a, u)) as Hab by (apply span_head; lia).
  destruct (si_mem _ _ _ _ Hinv nb) as [hb Hhb].
  { left. rewrite !spans_app, spans_cons, !elem_of_app. auto. }
  apply wp_bind, (wp_wr_hdr _ _ _ _ _ Hhb); [lia|].
  apply wp_bind. eapply wp_wr_hdr; [simpl; rewrite lookup_insert_ne by lia; exact Ha|lia|].
  apply wp_bind. eapply wp_rd_hdr; [apply lookup_insert_eq|lia|].
  apply wp_bind. eapply wp_wr_hdr; [simpl; rewrite lookup_insert_ne by lia; apply lookup_insert_eq|lia|].
  apply HQ; [|done| |apply lookup_insert_eq].
  - repeat (eapply touched_trans; [|apply touched_wr; eassumption]). apply touched_refl.
  - simpl. rewrite lookup_insert_ne by lia. apply lookup_insert_eq.
Qed.

(** The block is larger: its first units are taken, the rest stays on the
    list in its place. *)
Lemma inv_after_split k s3 s' :
  0 ≤ k < u → let nb := a + UNIT * (k + 1) in
  touched (span (a, u)) s s3 → cells s3 !! a = Some (mk_hdr (hd_addr post NULL) k) →
  cells s3 !! nb = Some (mk_hdr (hd_addr post NULL) (u - k - 1)) →
  touched pre.*1 s3 s' → seg (cells s') pre nb → head s' = hd_addr pre nb →
  slob_inv s' (pre ++ (nb, u - k - 1) :: post) ((a, k) :: al) Zs.
Proof using All.
  intros Hk nb T3 Ea Enb Ht Hseg Hh. destruct round_pages as (Hp1 & Hp2 & Hp3 & Hp4).
  destruct round_link as (_ & _ & Hs2). destruct pre_addrs as (_ & _ & Hsub). destruct round_nodup as (_ & Hd & Hd').
  assert (span (a, u) = span (a, k) ++ span (nb, u - k - 1)) as Hsp by (by apply span_split).
  assert (∀ c, c ∈ span (a, u) → cells s' !! c = cells s3 !! c) as Hk3.
  { intros c Hc. apply (to_same _ _ _ Ht). intros Hp. by apply (Hd c); [apply Hsub|]. }
  set (X := pre.*1 ++ span (a, u)).
  assert (touched X s s') as TX.
  { eapply touched_trans; [eapply touched_mono; [exact T3|]|eapply touched_mono; [exact Ht|]];
      intros c Hc; apply elem_of_app; auto. }
  assert (NoDup (span (a, u) ++ spans post)) as Hnd.
  { pose proof (si_nodup _ _ _ _ Hinv) as H. rewrite !spans_app, spans_cons in H.
    apply NoDup_app in H as (H & _ & _). by apply NoDup_app in H as (_ & _ & H). }
  apply NoDup_app in Hnd as (_ & Hnd & _).
  eapply (slob_inv_change X); [exact Hinv|done| | | | |].
  - rewrite !spans_app, !spans_cons, Hsp. rewrite <-!(assoc_L (++)). f_equiv.
    rewrite (assoc_L (++) (span (nb, u - k - 1))), (comm (++) (span (nb, u - k - 1) ++ spans post)).
    rewrite <-!(assoc_L (++)). f_equiv. rewrite (comm (++) (spans al)). by rewrite <-!(assoc_L (++)).
  - rewrite Hh, hd_addr_app. done.
  - apply seg_app. split; [done|]. split.
    + rewrite Hk3; [done|]. rewrite Hsp. apply elem_of_app. right. apply span_head. lia.
    + eapply seg_ext; [exact Hs2|]. intros b v Hb. apply (to_same _ _ _ TX).
      assert (b ∈ spans post) as Hbp.
      { apply addrs_spans; [by apply pages_units|]. apply list_elem_of_fmap. by exists (b, v). }
      intros [Hc|Hc]%elem_of_app; [by apply (Hd' b); [apply Hsub|]|]. by apply (Hnd b).
  - apply Forall_cons. split.
    + exists (hd_addr post NULL). simpl. rewrite Hk3; [done|]. apply span_head.
      apply in_page_facts in Hp2. simpl in Hp2. lia.
    + eapply round_al; [exact TX|]. intros c [Hc|Hc]%elem_of_app; rewrite spans_app, ?spans_cons, !elem_of_app; auto.
  - destruct Hp2 as (f & i & Hf & Hf0 & Eb & Hi & Hv & Hiv). simpl in Eb, Hv, Hiv.
    rewrite !Forall_app, !Forall_cons. split; [split; [done|split; [|done]]|split; [|done]].
    + exists f, (i + k + 1). simpl. unfold nb. rewrite Eb. unfold UNIT. split_and!; try done; lia.
    + exists f, i. simpl. split_and!; try done; lia.
Qed.

Lemma wp_round_split k (Q : Z * Z + option Z → slob → Prop) :
  0 ≤ k < u →
  (∀ s', slob_inv s' (pre ++ (a + UNIT * (k + 1), u - k - 1) :: post) ((a, k) :: al) Zs →
         slob_lock s' = 0 → Q (inr (Some (a + UNIT))) s') →
  wp (scan_round k (last_addr pre, a)) s Q.
Proof using All.
  intros Hk HQ. destruct round_pages as (_ & Hp2 & _). destruct round_link as (Ha & Hs1 & _).
  destruct (in_page_facts _ Hp2) as (H0 & H64 & Hu). simpl in H0, H64, Hu.
  unfold scan_round, unlock_slob. destruct (Z.eqb_spec a NULL); [lia|].
  apply wp_bind, (wp_rd_hdr _ _ _ _ Ha); [lia|]. simpl h_units.
  destruct (Z.eqb_spec u k); [lia|]. destruct (Z.ltb_spec k u); [|lia].
  rewrite (uwrap_id 64 (a + UNIT * (k + 1))), (uwrap_id 64 (u - k - 1)), (uwrap_id 64 (a + UNIT))
    by (unfold in_u, UNIT in *; lia).
  apply wp_cut_block; [done|]. intros s3 T3 Hh3 Ea Enb.
  destruct pre_addrs as (Hn & Hz & Hsub). destruct round_nodup as (_ & Hd & _).
  apply wp_bind, (wp_slob_relink pre a); [| |done|done|].
  { eapply seg_ext; [exact Hs1|]. intros b v Hb. apply (to_same _ _ _ T3). apply Hd, Hsub.
    apply list_elem_of_fmap. by exists (b, v). }
  { rewrite Hh3, (si_head _ _ _ _ Hinv), hd_addr_app. done. }
  intros s' Hseg Hh Ht _. wp_steps. apply HQ; [|done].
  eapply (inv_after_split k s3); try done. destruct Ht as [T1 T2 T4]. by split.
Qed.

(** The block is too small: the search goes on behind it. *)
Lemma wp_round_next k (Q : Z * Z + option Z → slob → Prop) :
  u < k → Q (inl (a, hd_addr post NULL)) s → wp (scan_round k (last_addr pre, a)) s Q.
Proof using All.
  intros Hk HQ. destruct round_pages as (_ & Hp2 & _). destruct round_link as (Ha & _ & _).
  destruct (in_page_facts _ Hp2) as (H0 & _ & _). simpl in H0. unfold scan_round.
  destruct (Z.eqb_spec a NULL); [lia|]. apply wp_bind, (wp_rd_hdr _ _ _ _ Ha); [lia|]. simpl.
  destruct (Z.eqb_spec u k); [lia|]. destruct (Z.ltb_spec k u); [lia|]. done.
Qed.
End Round.

(** ** The search *)

(** Different keys of a map are no more than its size. *)
Lemma keys_size {V} (m : gmap Z V) (l : list Z) :
  NoDup l → (∀ x, x ∈ l → is_Some (m !! x)) → (length l ≤ size m)%nat.
Proof.
  revert m. induction l as [|x l IH]; intros m Hn Hl; simpl; [lia|].
  apply NoDup_cons in Hn as [Hx Hn]. destruct (Hl x) as [v Hv]; [left|].
  rewrite <-(insert_delete_id m x v Hv), map_size_insert_None by apply lookup_delete_eq.
  apply le_n_S, IH; [done|]. intros y Hy. rewrite lookup_delete_ne by (by intros ->). apply Hl. by right.
Qed.

Lemma inv_length s fs al Zs : slob_inv s fs al Zs → (length fs ≤ size (cells s))%nat.
Proof.
  intros Hs. pose proof (si_pages _ _ _ _ Hs) as Hp. apply Forall_app in Hp as [Hp _].
  pose proof (si_nodup _ _ _ _ Hs) as Hn. rewrite spans_app in Hn. apply NoDup_app in Hn as (Hn & _ & _).
  rewrite <-(length_fmap fst fs). apply keys_size; [by apply addrs_nodup; [apply pages_units|]|].
  intros x Hx. apply (si_mem _ _ _ _ Hs). left. rewrite spans_app. apply elem_of_app. left.
  apply addrs_spans; [by apply pages_units|done].
Qed.

(** What is on the list after the block [(a, k)] has been taken. *)
Definition took (fs fs' : list sblock) (a k : Z) : Prop := spans fs ≡ₚ span (a, k) ++ spans fs'.

Lemma took_exact pre post a u : took (pre ++ (a, u) :: post) (pre ++ post) a u.
Proof.
  unfold took. rewrite !spans_app, spans_cons, !(assoc_L (++)). by rewrite (comm (++) (spans pre)).
Qed.

Lemma took_split pre post a u k :
  0 ≤ k < u → took (pre ++ (a, u) :: post) (pre ++ (a + UNIT * (k + 1), u - k - 1) :: post) a k.
Proof.
  intros Hk. unfold took. rewrite !spans_app, !spans_cons, (span_split a u k) by done.
  rewrite !(assoc_L (++)). by rewrite (comm (++) (spans pre) (span (a, k))).
Qed.

(** First fit, for a list whose first block does not fit exactly. *)
Lemma wp_scan s fs al Zs k (Q : option Z → slob → Prop) :
  slob_inv s fs al Zs → 0 ≤ k → (∀ a u fs', fs = (a, u) :: fs' → u ≠ k) →
  (Forall (λ b, b.2 < k) fs → Q None s) →
  (∀ a fs' s', took fs fs' a k → slob_inv s' fs' ((a, k) :: al) Zs → slob_lock s' = 0 → Q (Some (a + UNIT)) s') →
  wp (slob_scan k) s Q.
Proof.
  intros Hs Hk Hhd Hnone Hsome. unfold slob_scan. apply wp_bind, wp_get.
  apply (wp_loop (λ n b s', s' = s ∧ ∃ pre rest, fs = pre ++ rest ∧ n = length rest ∧
            b = (last_addr pre, hd_addr rest NULL) ∧ Forall (λ b, b.2 < k) pre)) with (n := length fs).
  - intros n b s' (-> & pre & rest & E & -> & -> & Hpre).
    destruct rest as [|[a u] post].
    { apply wp_ret, Hnone. by rewrite E, app_nil_r. }
    pose proof Hs as Hs'. rewrite E in Hs'. change (hd_addr ((a, u) :: post) NULL) with a.
    destruct (Z.lt_trichotomy u k) as [Hlt|[->|Hgt]].
    + apply (wp_round_next s pre post al a u Zs Hs'); [done|]. exists (length post). split; [simpl; lia|].
      split; [done|]. exists (pre ++ [(a, u)]), post. rewrite <-(assoc_L (++)). split; [done|]. split; [done|].
      split; [unfold last_addr at 1; by rewrite last_snoc|]. apply Forall_app. by rewrite Forall_cons, Forall_nil.
    + apply (wp_round_exact s pre post al a k Zs Hs'); [intros ->; by apply (Hhd a k post)|].
      intros s' Hi Hl. apply (Hsome a (pre ++ post)); [rewrite E; apply took_exact|done..].
    + apply (wp_round_split s pre post al a u Zs Hs'); [lia|].
      intros s' Hi Hl. eapply Hsome; [rewrite E; apply took_split; lia|exact Hi|done].
  - split; [done|]. exists [], fs. split; [done|]. split; [done|]. split; [|constructor].
    unfold last_addr. simpl. by rewrite (si_head _ _ _ _ Hs).
  - apply inv_length in Hs. lia.
Qed.

(** ** New pages *)

Definition page_block (f : Z) : sblock := (base f, 255).

Lemma page_span f c : c ∈ span (page_block f) ↔ ∃ j, 0 ≤ j < 256 ∧ c = base f + UNIT * j.
Proof. rewrite elem_span. simpl. split; intros (j & ? & ->); exists j; (split; [lia|done]). Qed.

Lemma NoDup_span b : NoDup (span b).
Proof. unfold span. apply NoDup_fmap_2; [|apply NoDup_seqZ]. intros x y. unfold UNIT. lia. Qed.

(** Units of different frames are different. *)
Lemma unit_frame f g i j :
  0 ≤ i < 256 → 0 ≤ j < 256 → base f + UNIT * i = base g + UNIT * j → f = g ∧ i = j.
Proof. unfold base, UNIT, PAGE_SIZE. lia. Qed.

(** A free frame becomes a free block of the heap. *)
Lemma inv_more s s' fs al Zs Zs' f :
  slob_inv s fs al Zs → pool_free Zs ≡ₚ f :: pool_free Zs' → f ∉ pool_free Zs' → pfn_ok f → 0 < f →
  pmm_ok (spm s') Zs' → (∀ g, g ∈ Zs' → 0 < glo g) → head s' = base f →
  cells s' = <[base f := mk_hdr (head s) 255]> (cells s) →
  slob_inv s' (page_block f :: fs) al Zs'.
Proof.
  intros Hs Hperm Hnin Hf Hf0 Hok Hlo Hh Hc.
  assert (f ∈ pool_free Zs) as Hin by (rewrite Hperm; left).
  assert (∀ c, unit_of_free Zs' c → unit_of_free Zs c) as Hsub.
  { intros c (g & j & Hg & ? & ?). exists g, j. split; [rewrite Hperm; by right|done]. }
  assert (∀ c, c ∈ span (page_block f) → unit_of_free Zs c) as Hpg.
  { intros c (j & ? & ->)%page_span. by exists f, j. }
  assert (base f ∈ span (page_block f)) as Hbf by (apply span_head; lia).
  assert (base f ∉ spans (fs ++ al)) as Hbn.
  { intros Hb. by apply (si_apart _ _ _ _ Hs _ Hb), Hpg. }
  assert (touched [base f] (upd_spm (spm s') s) s') as Ht.
  { split; [|simpl|done].
    - intros c Hcn. rewrite Hc. apply lookup_insert_ne. intros <-. apply Hcn. left.
    - intros c Hcs. rewrite Hc. destruct (decide (base f = c)) as [<-|];
        [by rewrite lookup_insert_eq|by rewrite lookup_insert_ne]. }
  split; try done.
  - split; [rewrite Hc, lookup_insert_eq; by rewrite <-(si_head _ _ _ _ Hs)|].
    eapply seg_ext; [apply Hs|]. intros a u Ha. apply (to_same _ _ _ Ht). intros ->%list_elem_of_singleton.
    apply Hbn. rewrite spans_app. apply elem_of_app. left. pose proof (si_pages _ _ _ _ Hs) as Hp.
    apply Forall_app in Hp as [Hp _]. apply addrs_spans; [by apply pages_units|].
    apply list_elem_of_fmap. by exists (base f, u).
  - eapply headed_touched; [exact Ht|apply Hs| |].
    + pose proof (si_pages _ _ _ _ Hs) as Hp. apply Forall_app in Hp as [_ Hp]. by apply pages_units.
    + intros c ->%list_elem_of_singleton Hb. apply Hbn. rewrite spans_app. apply elem_of_app. by right.
  - simpl. apply Forall_cons. split; [|apply Hs]. exists f, 0. unfold page_block. simpl. split_and!; try done; lia.
  - intros c Hcc. apply (to_dom _ _ _ Ht). simpl. apply (si_mem _ _ _ _ Hs).
    destruct Hcc as [Hcc|Hcc]; [|right; by apply Hsub].
    simpl in Hcc. rewrite spans_cons in Hcc. apply elem_of_app in Hcc as [Hcc|Hcc]; [right; by apply Hpg|by left].
  - simpl. rewrite spans_cons. apply NoDup_app. split; [apply NoDup_span|]. split; [|apply Hs].
    intros c Hcp Hcs. by apply (si_apart _ _ _ _ Hs _ Hcs), Hpg.
  - intros c Hcc Hu. simpl in Hcc. rewrite spans_cons in Hcc. apply elem_of_app in Hcc as [Hcc|Hcc].
    + apply page_span in Hcc as (j & Hj & ->). destruct Hu as (g & i & Hg & Hi & E).
      apply unit_frame in E as [-> _]; done.
    + by apply (si_apart _ _ _ _ Hs _ Hcc), Hsub.
Qed.

Section Alloc.
Context `{BuildConfig}.

Lemma wp_morecore s fs al Zs (Q : unit → slob → Prop) :
  slob_inv s fs al Zs → pool_free Zs ≠ [] →
  (∀ f Zs' s', pool_free Zs ≡ₚ f :: pool_free Zs' → slob_inv s' (page_block f :: fs) al Zs' →
     slob_lock s' = slob_lock s → Q tt s') →
  wp morecore s Q.
Proof.
  intros Hs Hne HQ. unfold morecore. apply wp_bind, wp_zoom.
  eapply wp_single_frame; [apply Hs|done|]. intros f v' Zs' Hpa Hok Hf _ Hin Hnin Hperm.
  destruct (pool_free_range _ _ _ (si_pm _ _ _ _ Hs) Hin) as (g & Hg & Hr & _).
  pose proof (si_low _ _ _ _ Hs g Hg) as Hlo.
  assert (page_to_virt (ptr f) = base f) as ->.
  { unfold page_to_virt, ptr. rewrite page_to_phys_pfn by done. unfold base, pfn_ok, PAGE_SIZE in *.
    rewrite phys_to_virt_ok by lia. done. }
  assert (0 < base f) as Hb by (unfold base, PAGE_SIZE, KERNEL_LOGICAL_BASE; lia).
  destruct (si_mem _ _ _ _ Hs (base f)) as [h Hh].
  { right. exists f, 0. split; [done|]. split; [lia|]. unfold UNIT. lia. }
  apply wp_bind, (wp_wr_hdr _ _ h); [done|lia|]. apply wp_bind, wp_get.
  apply wp_bind. eapply wp_wr_hdr; [apply lookup_insert_eq|lia|]. apply wp_modify.
  apply (HQ f Zs'); [done| |done].
  eapply (inv_more s); try done; [lia| |simpl; by rewrite insert_insert_eq].
  by eapply pool_alloc_low; [|apply Hs].
Qed.

(** Either the list has a block that fits, or a new page is put before it. *)
Lemma wp_slob_alloc s fs al Zs n fl (Q : Z → slob → Prop) :
  slob_inv s fs al Zs → slob_lock s = 0 → pool_free Zs ≠ [] → 0 ≤ n ≤ 4064 →
  (∀ a u fs', fs = (a, u) :: fs' → u ≠ (n + 15) / 16) →
  (∀ a fs' fs0 Zs' s', (fs0 = fs ∧ Zs' = Zs) ∨ (∃ f, pool_free Zs ≡ₚ f :: pool_free Zs' ∧ fs0 = page_block f :: fs) →
     took fs0 fs' a ((n + 15) / 16) → slob_inv s' fs' ((a, (n + 15) / 16) :: al) Zs' →
     slob_lock s' = 0 → Q (a + UNIT) s') →
  wp (slob_alloc n fl) s Q.
Proof.
  intros Hs Hl Hne Hn Hhd HQ. unfold slob_alloc, DIV_ROUND_UP.
  rewrite (uwrap_id 64 (n + UNIT)), (uwrap_id 64 (n + UNIT - 1)) by (unfold in_u, UNIT; lia).
  replace (n + UNIT - 1) with (n + 15) by (unfold UNIT; lia). change UNIT with 16 at 1.
  set (k := (n + 15) / 16) in *. assert (0 ≤ k ≤ 254) as Hk.
  { unfold k. split; [apply Z.div_pos; lia|]. apply Z.lt_succ_r, Z.div_lt_upper_bound; lia. }
  destruct (Z.ltb_spec n BIGALLOC) as [_|Hb]; [|unfold BIGALLOC, PAGE_SIZE, UNIT in Hb; lia].
  unfold lock_slob. apply wp_bind, wp_bind, wp_get. rewrite Hl. apply wp_modify.
  assert (slob_inv (upd_slob_lock 1 s) fs al Zs) as Hs1 by (by destruct Hs).
  simpl loop. apply wp_bind, wp_bind. eapply (wp_scan _ fs); [done|lia|done| |].
  - intros _. apply wp_bind. eapply wp_morecore; [exact Hs1|done|]. intros f Zs' s2 Hf Hs2 _.
    apply wp_ret. apply wp_bind, wp_bind. eapply (wp_scan _ (page_block f :: fs)); [done|lia| | |].
    + intros a u fs' [= <- <- <-]. lia.
    + intros [Hsmall _]%Forall_cons. simpl in Hsmall. lia.
    + intros a fs' s' Htk Hi Hl'. apply wp_ret, wp_ret. eapply HQ; [right; by exists f|done..].
  - intros a fs' s' Htk Hi Hl'. apply wp_ret, wp_ret. eapply HQ; [by left|done..].
Qed.
End Alloc.

(** ** Writes into blocks *)

Lemma spans_unique bs b b' c :
  NoDup (spans bs) → b ∈ bs → b' ∈ bs → c ∈ span b → c ∈ span b' → b = b'.
Proof.
  induction bs as [|x bs IH]; [by intros _ ?%elem_of_nil|]. rewrite spans_cons.
  intros (_ & Hd & Hn)%NoDup_app [->|Hb]%elem_of_cons [->|Hb']%elem_of_cons Hc Hc'; [done| | |by apply IH].
  - destruct (Hd c Hc). apply elem_spans. eauto.
  - destruct (Hd c Hc'). apply elem_spans. eauto.
Qed.

(** The units of a block behind its header. *)
Definition payload (b : sblock) : list Z := (λ j, b.1 + UNIT * j) <$> seqZ 1 b.2.

Lemma elem_payload b c : c ∈ payload b ↔ ∃ j, 1 ≤ j ≤ b.2 ∧ c = b.1 + UNIT * j.
Proof.
  unfold payload. rewrite list_elem_of_fmap. setoid_rewrite elem_of_seqZ. split.
  - intros (j & -> & ?). exists j. split; [lia|done].
  - intros (j & ? & ->). exists j. split; [done|lia].
Qed.

Lemma payload_span b c : c ∈ payload b → c ∈ span b ∧ c ≠ b.1.
Proof.
  intros (j & Hj & ->)%elem_payload. split; [apply elem_span; exists j; split; [lia|done]|]. unfold UNIT. lia.
Qed.

(** Filling the payload of a block disturbs no header. *)
Lemma inv_payload s s' fs al Zs b :
  slob_inv s fs al Zs → b ∈ fs ++ al → touched (payload b) s s' → head s' = head s → slob_inv s' fs al Zs.
Proof.
  intros Hs Hb Ht Hh.
  assert (∀ a u, (a, u) ∈ fs ++ al → cells s' !! a = cells s !! a) as Hkeep.
  { intros a u Ha. apply (to_same _ _ _ Ht). intros [Hc Hne]%payload_span.
    assert (a ∈ span (a, u)) as Ha'.
    { apply span_head. destruct (Forall_forall in_page (fs ++ al)) as [Hf _].
      destruct (in_page_facts _ (Hf (si_pages _ _ _ _ Hs) _ Ha)) as (_ & _ & ? & _). done. }
    by rewrite (spans_unique _ _ _ _ (si_nodup _ _ _ _ Hs) Hb Ha Hc Ha') in Hne. }
  eapply slob_inv_change; [exact Hs|exact Ht|done| | | |apply Hs].
  - rewrite Hh. apply Hs.
  - eapply seg_ext; [apply Hs|]. intros a u Ha. apply (Hkeep a u), elem_of_app. by left.
  - apply Forall_forall. intros [a u] Ha. destruct (Forall_forall (headed (cells s)) al) as [Hf _].
    destruct (Hf (si_al _ _ _ _ Hs) _ Ha) as [n Hn]. exists n. simpl in *.
    rewrite (Hkeep a u); [done|]. apply elem_of_app. by right.
Qed.

Lemma wp_poison_units m p s (Q : unit → slob → Prop) :
  0 < p → (∀ j, 0 ≤ j < Z.of_nat m → is_Some (cells s !! (p + UNIT * j))) →
  (∀ s', touched ((λ j, p + UNIT * j) <$> seqZ 0 (Z.of_nat m)) s s' → head s' = head s →
         slob_lock s' = slob_lock s → Q tt s') →
  wp (poison_units m p) s Q.
Proof.
  revert p s. induction m as [|m IH]; intros p s Hp Hmem HQ.
  { apply wp_ret, HQ; [apply touched_refl|done..]. }
  cbn [poison_units]. destruct (Hmem 0 ltac:(lia)) as [h Hh]. rewrite Z.mul_0_r, Z.add_0_r in Hh.
  apply wp_bind, (wp_wr_hdr _ _ h); [done|lia|].
  assert (∀ j, 0 ≤ j < Z.of_nat m → p + UNIT + UNIT * j = p + UNIT * (j + 1)) as Hj by (intros; unfold UNIT; lia).
  apply IH; [unfold UNIT; lia| |].
  - intros j Hj'. rewrite Hj by done. simpl. rewrite lookup_insert_ne by (unfold UNIT; lia).
    apply Hmem. lia.
  - intros s' Ht Hh' Hl'. apply HQ; [|done|done]. eapply touched_trans; [apply (touched_wr _ _ p)|].
    + apply list_elem_of_fmap. exists 0. split; [unfold UNIT; lia|]. apply elem_of_seqZ. lia.
    + eapply touched_mono; [exact Ht|]. intros c (j & -> & Hs)%list_elem_of_fmap. apply elem_of_seqZ in Hs.
      apply list_elem_of_fmap. exists (j + 1). rewrite Hj by lia. split; [done|]. apply elem_of_seqZ. lia.
Qed.

(** [memset] of the first [n] bytes of a block's payload. *)
Lemma wp_memset_bb a u n s (Q : unit → slob → Prop) :
  0 < a → 0 ≤ n ≤ UNIT * u → (∀ c, c ∈ payload (a, u) → is_Some (cells s !! c)) →
  (∀ s', touched (payload (a, u)) s s' → head s' = head s → slob_lock s' = slob_lock s → Q tt s') →
  wp (memset_bb (a + UNIT) n) s Q.
Proof.
  intros Ha Hn Hmem HQ. unfold memset_bb.
  assert (0 ≤ n / UNIT ≤ u) as Hq.
  { unfold UNIT in *. split; [apply Z.div_pos; lia|]. apply Z.div_le_upper_bound; lia. }
  assert (n / UNIT < u ∨ n mod UNIT = 0) as Hrest.
  { pose proof (Z.div_mod n UNIT ltac:(done)). pose proof (Z.mod_pos_bound n UNIT ltac:(done)). unfold UNIT in *. lia. }
  assert (∀ j, 0 ≤ j < u → a + UNIT + UNIT * j ∈ payload (a, u)) as Hin.
  { intros j Hj. apply elem_payload. exists (j + 1). simpl. split; [lia|]. unfold UNIT. lia. }
  apply wp_bind, wp_poison_units; [unfold UNIT; lia| |].
  { intros j Hj. apply Hmem, Hin. lia. }
  intros s1 T1 H1 L1. eapply touched_mono in T1.
  2:{ intros c (j & -> & Hs)%list_elem_of_fmap. apply elem_of_seqZ in Hs. apply (Hin j). lia. }
  destruct (Z.eqb_spec (n mod UNIT) 0) as [|Hne]; [by apply wp_ret, HQ|].
  assert (a + UNIT + UNIT * (n / UNIT) ∈ payload (a, u)) as Hlast by (apply Hin; lia).
  destruct (to_dom _ _ _ T1 _ (Hmem _ Hlast)) as [h Hh].
  apply (wp_wr_hdr _ _ h); [done|unfold UNIT in *; lia|]. apply HQ; [|done|done].
  eapply touched_trans; [exact T1|by apply touched_wr].
Qed.

(** An allocated block goes to the front of the free list. *)
Lemma inv_push s s' fs al Zs a u :
  slob_inv s fs ((a, u) :: al) Zs → 0 ≤ u → cells s' = <[a := mk_hdr (head s) u]> (cells s) →
  head s' = a → spm s' = spm s → slob_inv s' ((a, u) :: fs) al Zs.
Proof.
  intros Hs Hu Hc Hh Hp. pose proof (si_pages _ _ _ _ Hs) as Hpg. apply Forall_app in Hpg as [Hp1 [Hp2 Hp3]%Forall_cons].
  assert (a ∈ span (a, u)) as Ha by (by apply span_head).
  assert (touched [a] s s') as Ht.
  { split; [| |done]; intros c Hcc; rewrite Hc.
    - apply lookup_insert_ne. intros ->. apply Hcc. left.
    - destruct (decide (a = c)) as [<-|]; [by rewrite lookup_insert_eq|by rewrite lookup_insert_ne]. }
  pose proof (si_nodup _ _ _ _ Hs) as Hnd. rewrite spans_app, spans_cons in Hnd.
  apply NoDup_app in Hnd as (_ & H1 & (_ & H2 & _)%NoDup_app).
  eapply slob_inv_change; [exact Hs|exact Ht| |done| | |].
  - apply spans_perm. simpl. by rewrite Permutation_middle.
  - split; [rewrite Hc, lookup_insert_eq; by rewrite (si_head _ _ _ _ Hs)|].
    eapply seg_ext; [apply Hs|]. intros b v Hb. apply (to_same _ _ _ Ht). intros ->%list_elem_of_singleton.
    apply (H1 a); [|apply elem_of_app; by left].
    apply addrs_spans; [by apply pages_units|]. apply list_elem_of_fmap. by exists (a, v).
  - eapply headed_touched; [exact Ht| |by apply pages_units|].
    + exact (proj2 (proj1 (Forall_cons _ _ _) (si_al _ _ _ _ Hs))).
    + intros c ->%list_elem_of_singleton. by apply H2.
  - simpl. rewrite Forall_cons, Forall_app. done.
Qed.

(** ** Theorems *)

Section Theorems.
Context `{BuildConfig}.

(** Filling a new block leaves the heap in order. *)
Lemma wp_poison s fs al Zs a n (Q : unit → slob → Prop) :
  slob_inv s fs ((a, (n + 15) / 16) :: al) Zs → slob_lock s = 0 → 0 ≤ n →
  (∀ s', slob_inv s' fs ((a, (n + 15) / 16) :: al) Zs → slob_lock s' = 0 → Q tt s') →
  wp (memset_bb (a + UNIT) n) s Q.
Proof.
  intros Hi Hl Hn HQ. pose proof (si_pages _ _ _ _ Hi) as Hp. apply Forall_app in Hp as [_ [Hp _]%Forall_cons].
  destruct (in_page_facts _ Hp) as (Ha & _ & _). simpl in Ha. set (k := (n + 15) / 16) in *.
  apply (wp_memset_bb a k); [done| | |].
  - unfold k, UNIT. pose proof (Z.div_mod (n + 15) 16 ltac:(lia)). pose proof (Z.mod_pos_bound (n + 15) 16 ltac:(lia)). lia.
  - intros c Hc. apply (si_mem _ _ _ _ Hi). left. rewrite spans_app, spans_cons, !elem_of_app.
    right. left. by apply payload_span.
  - intros s2 T2 H2 L2. apply HQ; [|by rewrite L2]. eapply (inv_payload s); [exact Hi| |exact T2|done].
    apply elem_of_app. right. left.
Qed.

Lemma wp_kmalloc s fs al Zs n fl :
  slob_inv s fs al Zs → slob_lock s = 0 → pool_free Zs ≠ [] → 0 ≤ n ≤ 4064 →
  (∀ a u fs', fs = (a, u) :: fs' → u ≠ (n + 15) / 16) →
  wp (kmalloc n fl) s (λ p s', ∃ a fs' fs0 Zs',
    p = a + UNIT ∧ ((fs0 = fs ∧ Zs' = Zs) ∨ ∃ f, pool_free Zs ≡ₚ f :: pool_free Zs' ∧ fs0 = page_block f :: fs) ∧
    took fs0 fs' a ((n + 15) / 16) ∧
    slob_inv s' fs' ((a, (n + 15) / 16) :: al) Zs' ∧ slob_lock s' = 0).
Proof.
  intros Hs Hl Hne Hn Hhd. unfold kmalloc. destruct DEBUG.
  - apply wp_bind. eapply wp_slob_alloc; [done..|]. intros a fs' fs0 Zs' s' H0 Htk Hi Hl'.
    apply wp_bind. eapply wp_poison; [exact Hi|done|lia|]. intros s2 Hi2 Hl2. apply wp_ret. by exists a, fs', fs0, Zs'.
  - eapply wp_slob_alloc; [done..|]. intros a fs' fs0 Zs' s' H0 Htk Hi Hl'. by exists a, fs', fs0, Zs'.
Qed.

(** A first block that is larger is cut, and no page is needed. *)
Lemma wp_kmalloc_cut s a u post al Zs n fl (Q : Z → slob → Prop) :
  let k := (n + 15) / 16 in
  slob_inv s ((a, u) :: post) al Zs → slob_lock s = 0 → 0 ≤ n ≤ 4064 → k < u →
  (∀ s', slob_inv s' ((a + UNIT * (k + 1), u - k - 1) :: post) ((a, k) :: al) Zs → slob_lock s' = 0 → Q (a + UNIT) s') →
  wp (kmalloc n fl) s Q.
Proof.
  intros k Hs Hl Hn Hu HQ. assert (0 ≤ k) as Hk by (apply Z.div_pos; lia).
  assert (∀ R : Z → slob → Prop, (∀ s', slob_inv s' ((a + UNIT * (k + 1), u - k - 1) :: post) ((a, k) :: al) Zs →
    slob_lock s' = 0 → R (a + UNIT) s') → wp (slob_alloc n fl) s R) as Hw.
  { intros R HR. unfold slob_alloc, DIV_ROUND_UP.
    rewrite (uwrap_id 64 (n + UNIT)), (uwrap_id 64 (n + UNIT - 1)) by (unfold in_u, UNIT; lia).
    replace ((n + UNIT - 1) / UNIT) with k by (unfold k, UNIT; f_equal; lia).
    destruct (Z.ltb_spec n BIGALLOC) as [_|Hb]; [|unfold BIGALLOC, PAGE_SIZE, UNIT in Hb; lia].
    unfold lock_slob. apply wp_bind, wp_bind, wp_get. rewrite Hl. apply wp_modify.
    assert (slob_inv (upd_slob_lock 1 s) ((a, u) :: post) al Zs) as Hs1 by (by destruct Hs).
    simpl loop. apply wp_bind, wp_bind. unfold slob_scan. apply wp_bind, wp_get. rewrite (si_head _ _ _ _ Hs1).
    cbn [loop hd_addr]. apply wp_bind. change NULL with (last_addr []).
    apply (wp_round_split (upd_slob_lock 1 s) [] post al a u Zs Hs1); [lia|]. intros s' Hi Hl'.
    apply wp_ret, wp_ret, wp_ret. by apply HR. }
  unfold kmalloc. destruct DEBUG; [|by apply Hw]. apply wp_bind, Hw. intros s' Hi Hl'.
  apply wp_bind. eapply wp_poison; [exact Hi|done|lia|]. intros s2 Hi2 Hl2. by apply wp_ret, HQ.
Qed.

(** The heap does not see page frames go to others. *)
Lemma slob_inv_pool s fs al Zs pm' Zs' :
  slob_inv s fs al Zs → pmm_ok pm' Zs' → (∀ f, f ∈ pool_free Zs' → f ∈ pool_free Zs) → (∀ g, g ∈ Zs' → 0 < glo g) →
  slob_inv (upd_spm pm' s) fs al Zs'.
Proof.
  intros [] Hok Hsub Hlo. assert (∀ c, unit_of_free Zs' c → unit_of_free Zs c) as Hu.
  { intros c (f & j & Hf & ? & ?). exists f, j. split; [by apply Hsub|done]. }
  split; try done.
  - intros c [Hc|Hc]; apply si_mem0; [by left|right; by apply Hu].
  - intros c Hc Hf. by apply (si_apart0 c Hc), Hu.
Qed.

Lemma wp_kfree s fs al Zs a u :
  slob_inv s fs ((a, u) :: al) Zs → slob_lock s = 0 → 1 ≤ u →
  wp (kfree (a + UNIT)) s (λ _ s', slob_inv s' ((a, u) :: fs) al Zs ∧ slob_lock s' = 0).
Proof.
  intros Hs Hl Hu. pose proof (si_pages _ _ _ _ Hs) as Hp. apply Forall_app in Hp as [Hp1 [Hp2 Hp3]%Forall_cons].
  destruct (in_page_facts _ Hp2) as (Ha & H64 & _). simpl in Ha, H64.
  destruct (proj1 (proj1 (Forall_cons _ _ _) (si_al _ _ _ _ Hs))) as [n Hn]. simpl in Hn.
  unfold kfree, slob_free. change PAGE_SIZE with (2 ^ 12) at 1. rewrite ISALIGN_POW2_spec by (unfold UNIT; lia).
  destruct (Z.eqb_spec ((a + UNIT) mod 2 ^ 12) 0) as [Hal|_].
  { destruct Hp2 as (f & i & _ & _ & E & Hi & _ & Hiu). simpl in E, Hiu. unfold base, PAGE_SIZE, KERNEL_LOGICAL_BASE, UNIT in *.
    apply Z.mod_divide in Hal as [q Hq]; [|done]. lia. }
  unfold lock_slob, unlock_slob. apply wp_bind, wp_bind, wp_get. rewrite Hl. apply wp_modify.
  rewrite (uwrap_id 64 (a + UNIT - UNIT)) by (unfold in_u, UNIT in *; lia).
  replace (a + UNIT - UNIT) with a by lia. apply wp_bind, wp_get.
  apply wp_bind, (wp_wr_hdr _ _ (mk_hdr n u)); [done|lia|]. apply wp_bind, wp_modify. apply wp_bind.
  set (s2 := upd_head a _). assert (slob_inv s2 ((a, u) :: fs) al Zs) as Hs2.
  { eapply (inv_push s); try done. lia. }
  destruct DEBUG; [|wp_steps; split; [by destruct Hs2|done]].
  apply wp_bind, (wp_rd_hdr _ (mk_hdr (head s) u)); [apply lookup_insert_eq|lia|]. simpl h_units.
  rewrite uwrap_id by (unfold in_u, UNIT in *; lia).
  apply (wp_memset_bb a u); [done|unfold UNIT; lia| |].
  { intros c [Hc _]%payload_span. apply (si_mem _ _ _ _ Hs2). left. simpl. rewrite spans_cons. apply elem_of_app. by left. }
  intros s3 T3 H3 L3. wp_steps. split; [|done].
  assert (slob_inv s3 ((a, u) :: fs) al Zs) as Hs3 by (eapply (inv_payload s2); [done|left|done..]).
  by destruct Hs3.
Qed.

(** C30: kmalloc of up to 4064 bytes returns while the buddy allocator has a
    frame, provided the first block of the free list does not fit exactly.
    It hands out the payload of a block of just enough units, all of them
    units of the free list before (or of one page frame that leaves the pool
    and is put on it), and the heap invariant holds afterwards with that block allocated: it overlaps no
    other allocated block, no free block and no free page frame. *)
Theorem kmalloc_correct s fs al Zs n fl :
  slob_inv s fs al Zs → slob_lock s = 0 → pool_free Zs ≠ [] → 0 ≤ n ≤ 4064 →
  (∀ a u fs', fs = (a, u) :: fs' → u ≠ (n + 15) / 16) →
  wp (kmalloc n fl) s (λ p s', ∃ a fs' fs0 Zs',
    p = a + UNIT ∧ ((fs0 = fs ∧ Zs' = Zs) ∨ ∃ f, pool_free Zs ≡ₚ f :: pool_free Zs' ∧ fs0 = page_block f :: fs) ∧
    took fs0 fs' a ((n + 15) / 16) ∧
    slob_inv s' fs' ((a, (n + 15) / 16) :: al) Zs' ∧ slob_lock s' = 0).
Proof. apply wp_kmalloc. Qed.

(** C31: kfree of an allocated block of at least one unit returns and puts the
    block, with the count its header has, in front of the free list; the
    invariant holds afterwards. *)
Theorem kfree_correct s fs al Zs a u :
  slob_inv s fs ((a, u) :: al) Zs → slob_lock s = 0 → 1 ≤ u →
  wp (kfree (a + UNIT)) s (λ _ s', slob_inv s' ((a, u) :: fs) al Zs ∧ slob_lock s' = 0).
Proof. apply wp_kfree. Qed.

(** Kmalloc does not take an exactly fitting block off the list when it is
    the first: the assignment head = block leaves it there.  The next request
    for as many units gets the same address. *)
Theorem slob_alloc_head_twice s n fl h :
  slob_lock s = 0 → 0 < head s < 2 ^ 64 - UNIT → cells s !! head s = Some h →
  0 ≤ n < BIGALLOC → h_units h = (n + 15) / 16 →
  wp (p ← slob_alloc n fl; q ← slob_alloc n fl; mret (p, q)) s
     (λ r s', r = (head s + UNIT, head s + UNIT) ∧ s' = s).
Proof.
  intros Hl Hh Hc Hn Hu.
  assert (slob_alloc n fl s = Ok (head s + UNIT, s)) as E.
  { unfold slob_alloc, DIV_ROUND_UP, lock_slob, slob_scan, unlock_slob, BIGALLOC, PAGE_SIZE, UNIT in *.
    rewrite (uwrap_id 64 (n + 16)), (uwrap_id 64 (n + 16 - 1)) by (unfold in_u; lia).
    replace (n + 16 - 1) with (n + 15) by lia. rewrite <-Hu.
    destruct (Z.ltb_spec n (4096 - 16)) as [_|]; [|lia].
    unfold mbind, M_bind, get, modify. rewrite Hl. simpl. unfold mbind, M_bind, get, modify, scan_round. simpl.
    destruct (Z.eqb_spec (head s) NULL); [lia|]. unfold rd_hdr, deref, mbind, M_bind, unlock_slob, modify. simpl.
    destruct (Z.eqb_spec (head s) 0); [done|]. rewrite Hc, Z.eqb_refl. simpl.
    rewrite uwrap_id by (unfold in_u, UNIT; lia). unfold UNIT. f_equal. f_equal. destruct s. simpl in *. by subst. }
  unfold wp, mbind, M_bind. by rewrite E, E.
Qed.
End Theorems.

(** ** A small heap *)

Module SlobDemo.
(** The heap has one page, frame 3: a block of one unit is allocated at its
    start and the rest is free.  The pool is that of [VmmDemo]. *)
Definition fs : list sblock := [(base 3 + 32, 253)].
Definition al : list sblock := [(base 3, 1)].
Definition blank_cells : gmap Z slob_header :=
  list_to_map ((λ c, (c, mk_hdr 0 0)) <$> spans (page_block <$> [3; 8; 9; 10; 11])).
Definition state : slob :=
  mk_slob (<[base 3 := mk_hdr 0 1]> (<[base 3 + 32 := mk_hdr 0 253]> blank_cells)) (base 3 + 32) 0 VmmDemo.pool.

Lemma blank_some f j : f ∈ [3; 8; 9; 10; 11] → 0 ≤ j < 256 → is_Some (blank_cells !! (base f + UNIT * j)).
Proof.
  intros Hf Hj. destruct (blank_cells !! (base f + UNIT * j)) as [h|] eqn:E; [by exists h|]. exfalso.
  apply not_elem_of_list_to_map in E. apply E. rewrite <-list_fmap_compose. apply list_elem_of_fmap.
  eexists. split; [reflexivity|]. apply elem_spans. exists (page_block f). split; [by apply list_elem_of_fmap_2|].
  apply page_span. by exists j.
Qed.

#[local] Opaque blank_cells.

Lemma heap_units c : c ∈ spans (fs ++ al) → ∃ j, 0 ≤ j < 256 ∧ c = base 3 + UNIT * j.
Proof.
  intros (b & [->|[->|Hb%elem_of_nil]%elem_of_cons]%elem_of_cons & (j & Hj & ->)%elem_span)%elem_spans; simpl in *; [| |done].
  - exists (j + 2). split; [lia|]. unfold UNIT. lia.
  - exists j. split; [lia|done].
Qed.

Lemma heap_inv : slob_inv state fs al [VmmDemo.pool_zone].
Proof.
  assert (pool_free [VmmDemo.pool_zone] = [8; 9; 10; 11]) as Hpool by (by vm_compute).
  assert (base 3 ≠ base 3 + 32) as Hne by lia.
  split.
  - done.
  - split; [|done]. unfold state. simpl cells. rewrite lookup_insert_ne by done. by rewrite lookup_insert_eq.
  - apply Forall_cons. split; [|done]. exists 0. unfold state. simpl cells. by rewrite lookup_insert_eq.
  - apply Forall_cons. split; [|apply Forall_cons; split; [|done]].
    + exists 3, 2. simpl. unfold pfn_ok, UNIT. split_and!; lia.
    + exists 3, 0. simpl. unfold pfn_ok, UNIT. split_and!; lia.
  - intros c Hc. assert (is_Some (blank_cells !! c)) as Hs.
    { destruct Hc as [(j & Hj & ->)%heap_units|(f & j & Hf & Hj & ->)]; apply blank_some; try done.
      - left.
      - rewrite Hpool in Hf. right. done. }
    unfold state. simpl cells. rewrite !lookup_insert_is_Some'. auto.
  - change (fs ++ al) with [(base 3 + 32, 253); (base 3, 1)]. rewrite !spans_cons. change (spans []) with (@nil Z). rewrite app_nil_r.
    apply NoDup_app. split; [apply NoDup_span|]. split; [|apply NoDup_span].
    intros c (i & Hi & ->)%elem_span (j & Hj & E)%elem_span. simpl in *. unfold UNIT in *. lia.
  - apply VmmDemo.pool_ok.
  - by intros g ->%list_elem_of_singleton.
  - intros c (j & Hj & ->)%heap_units (f & i & Hf & Hi & E). apply unit_frame in E as [<- _]; [|done..].
    rewrite Hpool in Hf. rewrite !elem_of_cons in Hf. destruct Hf as [?|[?|[?|[?|?%elem_of_nil]]]]; done.
Qed.
End SlobDemo.

Lemma kmalloc_correct_witness :
  wp (kmalloc (H := debug_build) 100 0) SlobDemo.state (λ p s', slob_lock s' = 0).
Proof.
  eapply wp_mono; [refine (kmalloc_correct (H := debug_build) _ _ _ _ 100 0 SlobDemo.heap_inv eq_refl _ _ _)|].
  - by vm_compute.
  - lia.
  - intros a u fs' [= <- <- <-]. by vm_compute.
  - by intros ? ? (? & ? & ? & ? & _ & _ & _ & _ & ?).
Defined.

Lemma kfree_correct_witness :
  wp (kfree (H := debug_build) (base 3 + UNIT)) SlobDemo.state (λ _ s', slob_lock s' = 0).
Proof.
  eapply wp_mono; [exact (kfree_correct (H := debug_build) _ _ [] _ (base 3) 1 SlobDemo.heap_inv eq_refl ltac:(lia))|].
  by intros ? ? [_ ?].
Defined.

Lemma slob_alloc_head_twice_witness :
  wp (p ← slob_alloc (H := debug_build) 10 0; q ← slob_alloc (H := debug_build) 10 0; mret (p, q))
     (mk_slob {[4096 := mk_hdr 0 1]} 4096 0 VmmDemo.pool)
     (λ r s', r = (4112, 4112) ∧ s' = mk_slob {[4096 := mk_hdr 0 1]} 4096 0 VmmDemo.pool).
Proof.
  apply (slob_alloc_head_twice (H := debug_build) (mk_slob {[4096 := mk_hdr 0 1]} 4096 0 VmmDemo.pool) 10 0 (mk_hdr 0 1));
    try done; simpl; unfold UNIT, BIGALLOC, PAGE_SIZE; lia.
Defined.
