(* ===== verification/Heap.v ===== *)
(** * The heap as other components see it

    The interface between the kernel heap and its clients: [heap_alloc] and
    [heap_free] with the promises of [HeapLaws], which speak of the extents
    (address and size) that are allocated.  The heap of Slob.v is an instance,
    and so is an allocator that only counts upwards, for small examples. *)

From stdpp Require Import base list gmap.
From Stdlib Require Import ZArith Lia.
From S2P Require Import Prelude Addr Pmm PmmInv PmmSpec Slob SlobSpec.
Local Open Scope Z_scope.

Abbreviation extent := (Z * Z)%type.

(** No byte in common. *)
Definition apart (b c : extent) : Prop := b.1 + b.2 ≤ c.1 ∨ c.1 + c.2 ≤ b.1.

Definition KM_NONE : Z := 0.

Class Heap (H : Type) := {
  heap_alloc : Z → M H Z;
  heap_free : Z → M H unit
}.

(** [heap_ok h al]: the heap is in order and [al] are its allocated extents.
    [heap_serves h ns]: the requests [ns], one after the other, are served.
    [heap_region]: where allocations come from. *)
Class HeapLaws (H : Type) `{Heap H} := {
  heap_ok : H → list extent → Prop;
  heap_serves : H → list Z → Prop;
  heap_region : Z → Prop;
  heap_alloc_ok h al n ns :
    heap_ok h al → heap_serves h (n :: ns) → 0 < n ≤ 4064 →
    wp (heap_alloc n) h (λ p h',
      heap_ok h' ((p, n) :: al) ∧ heap_serves h' ns ∧ 0 < p ∧ p + n < 2 ^ 64 ∧
      ∀ x, p ≤ x < p + n → heap_region x);
  heap_free_ok h al p n :
    heap_ok h ((p, n) :: al) → wp (heap_free p) h (λ _ h', heap_ok h' al);
  heap_apart h b al c : heap_ok h (b :: al) → c ∈ al → apart b c;
  heap_perm h al al' : al ≡ₚ al' → heap_ok h al → heap_ok h al'
}.

(** ** The kernel heap *)

Section slob.
Context {BC : BuildConfig}.

#[export] Instance slob_heap : Heap slob :=
  {| heap_alloc n := kmalloc n KM_NONE; heap_free := kfree |}.

(** The extent [e] is the first part of the payload of the block [b]. *)
Definition inside (e : extent) (b : sblock) : Prop := e.1 = b.1 + UNIT ∧ 0 < e.2 ≤ UNIT * b.2.

Definition slob_heap_ok (s : slob) (al : list extent) : Prop :=
  slob_lock s = 0 ∧ ∃ fs bs Zs, slob_inv s fs bs Zs ∧ Forall2 inside al bs.

(** A page frame is left, the first free block does not fit exactly, and the
    requests after this one are served from the state it leaves. *)
Fixpoint slob_serves (s : slob) (ns : list Z) : Prop :=
  match ns with
  | [] => True
  | n :: ns =>
      (∀ Zs, pmm_ok (spm s) Zs → pool_free Zs ≠ []) ∧
      (∀ h, cells s !! head s = Some h → h_units h ≠ (n + 15) / 16) ∧
      ∀ p s', kmalloc n KM_NONE s = Ok (p, s') → slob_serves s' ns
  end.

Definition logical_memory (x : Z) : Prop := KERNEL_LOGICAL_BASE < x < KERNEL_TEXT_BASE.

Lemma slob_inv_perm s fs bs bs' Zs : bs ≡ₚ bs' → slob_inv s fs bs Zs → slob_inv s fs bs' Zs.
Proof.
  intros Hp [? ? Hal Hpg Hm Hnd ? ? Hap].
  assert (spans (fs ++ bs') ≡ₚ spans (fs ++ bs)) as Hs by (apply spans_perm; by rewrite Hp).
  split; try done.
  - by rewrite <-Hp.
  - by rewrite <-Hp.
  - intros c Hc. apply Hm. by rewrite <-Hs.
  - by rewrite Hs.
  - intros c Hc. apply Hap. by rewrite <-Hs.
Qed.

Lemma in_page_unit b : in_page b → ∃ j, b.1 = KERNEL_LOGICAL_BASE + UNIT * j.
Proof.
  intros (f & i & _ & _ & -> & _). exists (256 * f + i). unfold base, PAGE_SIZE, UNIT. lia.
Qed.

Lemma in_page_logical b x :
  in_page b → b.1 < x < b.1 + UNIT * (b.2 + 1) → logical_memory x.
Proof.
  intros (f & i & Hf & Hf0 & E & Hi & Hu & Hiu) Hx. rewrite E in Hx.
  unfold logical_memory, base, UNIT, PAGE_SIZE, KERNEL_LOGICAL_BASE, KERNEL_TEXT_BASE, pfn_ok in *. lia.
Qed.

(** Blocks without a common unit have no common byte. *)
Lemma disjoint_apart b c e d :
  in_page b → in_page c → (∀ x, x ∈ span b → x ∉ span c) → inside e b → inside d c → apart e d.
Proof.
  intros Hb Hc Hd [E1 E2] [D1 D2]. destruct (in_page_unit b Hb) as [i Hi], (in_page_unit c Hc) as [j Hj].
  assert (0 ≤ b.2 ∧ 0 ≤ c.2) as [Hb2 Hc2] by (destruct (in_page_facts b Hb), (in_page_facts c Hc); lia).
  unfold apart. destruct (Z.le_gt_cases (e.1 + e.2) d.1) as [?|H1]; [by left|].
  destruct (Z.le_gt_cases (d.1 + d.2) e.1) as [?|H2]; [by right|]. exfalso. unfold UNIT in *.
  destruct (Z.le_gt_cases i j) as [Hij|Hij].
  - apply (Hd c.1); apply elem_span; [exists (j - i)|exists 0]; unfold UNIT; lia.
  - apply (Hd b.1); apply elem_span; [exists 0|exists (i - j)]; unfold UNIT; lia.
Qed.

Lemma slob_alloc_law s al n ns :
  slob_heap_ok s al → slob_serves s (n :: ns) → 0 < n ≤ 4064 →
  wp (heap_alloc n) s (λ p s',
    slob_heap_ok s' ((p, n) :: al) ∧ slob_serves s' ns ∧ 0 < p ∧ p + n < 2 ^ 64 ∧
    ∀ x, p ≤ x < p + n → logical_memory x).
Proof.
  intros [Hl (fs & bs & Zs & Hs & Hbs)] (Hpool & Hhd & Hns) Hn.
  assert (wp (kmalloc n KM_NONE) s (λ p s', kmalloc n KM_NONE s = Ok (p, s') ∧ ∃ a fs' Zs',
    p = a + UNIT ∧ slob_inv s' fs' ((a, (n + 15) / 16) :: bs) Zs' ∧ slob_lock s' = 0)) as Hw.
  { assert (wp (kmalloc n KM_NONE) s (λ p s', ∃ a fs' Zs',
      p = a + UNIT ∧ slob_inv s' fs' ((a, (n + 15) / 16) :: bs) Zs' ∧ slob_lock s' = 0)) as Hk.
    { eapply wp_mono; [apply (wp_kmalloc s fs bs Zs); [done|done|by apply Hpool, Hs|lia|]|].
      - intros a u fs' ->. apply (Hhd (mk_hdr (hd_addr fs' NULL) u)).
        rewrite (si_head _ _ _ _ Hs). apply (si_seg _ _ _ _ Hs).
      - intros p s' (a & fs' & ? & Zs' & ? & _ & _ & ? & ?). by exists a, fs', Zs'. }
    unfold wp in *. by destruct (kmalloc n KM_NONE s) as [[p s']| | |]. }
  eapply wp_mono; [exact Hw|]. intros p s' (E & a & fs' & Zs' & -> & Hs' & Hl').
  pose proof (si_pages _ _ _ _ Hs') as Hp. apply Forall_app in Hp as [_ [Hp _]%Forall_cons].
  destruct (in_page_facts _ Hp) as (Ha & H64 & _). simpl in Ha, H64.
  pose proof (Z.div_mod (n + 15) 16 ltac:(lia)). pose proof (Z.mod_pos_bound (n + 15) 16 ltac:(lia)).
  split; [split; [done|]|split; [by eapply Hns|unfold UNIT in *; split; [lia|split; [lia|]]]].
  - exists fs', ((a, (n + 15) / 16) :: bs), Zs'. split; [done|]. constructor; [|done].
    split; [done|]. simpl. unfold UNIT. lia.
  - intros x Hx. eapply in_page_logical; [exact Hp|]. simpl. unfold UNIT. lia.
Qed.

#[export] Instance slob_heap_laws : HeapLaws slob.
Proof.
  refine {| heap_ok := slob_heap_ok; heap_serves := slob_serves; heap_region := logical_memory |}.
  - apply slob_alloc_law.
  - intros s al p n [Hl (fs & bs & Zs & Hs & Hbs)]. apply Forall2_cons_inv_l in Hbs as (b & bs' & [E Hb] & Hbs & ->).
    destruct b as [a u]. simpl in E, Hb. subst p. unfold heap_free, slob_heap.
    eapply wp_mono; [apply (wp_kfree s fs bs' Zs a u); [done|done|unfold UNIT in *; lia]|].
    intros _ s' [Hs' Hl']. split; [done|]. by exists ((a, u) :: fs), bs', Zs.
  - intros s e al d [Hl (fs & bs & Zs & Hs & Hbs)] Hd.
    apply Forall2_cons_inv_l in Hbs as (b & bs' & Hb & Hbs & ->).
    apply list_elem_of_lookup in Hd as [i Hi]. destruct (Forall2_lookup_l _ _ _ _ _ Hbs Hi) as (c & Hc & Hdc).
    apply list_elem_of_lookup_2 in Hc.
    pose proof (si_pages _ _ _ _ Hs) as Hp. apply Forall_app in Hp as [_ [Hp1 Hp2]%Forall_cons].
    pose proof (si_nodup _ _ _ _ Hs) as Hnd. rewrite spans_app, spans_cons in Hnd.
    apply NoDup_app in Hnd as (_ & _ & (_ & Hnd & _)%NoDup_app).
    eapply (disjoint_apart b c); try done; [by eapply (proj1 (Forall_forall _ _)) in Hp2|].
    intros x Hx Hxc. apply (Hnd x Hx). apply elem_spans. by exists c.
  - intros s al al' Hp [Hl (fs & bs & Zs & Hs & Hbs)]. split; [done|].
    destruct (Permutation.Permutation_Forall2 Hp Hbs) as (bs' & ? & ?).
    exists fs, bs', Zs. split; [|done]. by eapply slob_inv_perm.
Defined.
End slob.

(** ** Counting upwards *)

Module Bump.
(** The state is the next address to hand out, from 4096 on. *)
#[export] Instance bump_heap : Heap Z :=
  {| heap_alloc n := λ h, Ok (h, h + n); heap_free _ := mret tt |}.

Definition bump_ok (h : Z) (al : list extent) : Prop :=
  4096 ≤ h ∧ Forall (λ e, 0 < e.2 ∧ e.1 + e.2 ≤ h) al ∧ ∀ b al' c, al ≡ₚ b :: al' → c ∈ al' → apart b c.

#[export] Instance bump_laws : HeapLaws Z.
Proof.
  refine {| heap_ok := bump_ok; heap_serves h ns := h + 4064 * Z.of_nat (length ns) < 2 ^ 64; heap_region := λ x, 4096 ≤ x |}.
  - intros h al n ns (Hh & Hal & Hap) Hns Hn. unfold heap_alloc, bump_heap, wp. simpl length in Hns.
    split; [|split; [lia|split; [lia|split; [lia|lia]]]]. split; [lia|split; [|]].
    + constructor; [simpl; lia|]. eapply Forall_impl; [exact Hal|]. simpl. lia.
    + assert (∀ c, c ∈ al → c.1 + c.2 ≤ h) as Hc.
      { intros c Hc. by apply (proj1 (Forall_forall _ _) Hal) in Hc as [_ ?]. }
      intros b al' c Hp Hin. destruct (decide (b = (h, n))) as [->|Hb].
      { apply (Permutation_cons_inv (l := al)) in Hp. right. simpl. apply Hc. by rewrite Hp. }
      assert (b ∈ al) as [i Hb']%elem_of_Permutation.
      { assert (b ∈ (h, n) :: al) as [?|?]%elem_of_cons by (rewrite Hp; left); done. }
      rewrite Hb', Permutation_swap in Hp. apply Permutation_cons_inv in Hp. rewrite <-Hp in Hin.
      apply elem_of_cons in Hin as [->|Hin]; [left; simpl; apply Hc; rewrite Hb'; left|]. by eapply Hap.
  - intros h al p n (Hh & [_ Hal]%Forall_cons & Hap). split; [done|split; [done|]].
    intros b al' c Hp Hin. apply (Hap b ((p, n) :: al')); [|by right]. by rewrite Hp, Permutation_swap.
  - intros h b al c (_ & _ & Hap) Hc. by eapply Hap.
  - intros h al al' Hp (Hh & Hal & Hap). split; [done|]. split; [by rewrite <-Hp|].
    intros b al1 c Hp1. apply Hap. by rewrite Hp.
Defined.
End Bump.
