(* ===== verification/InodeCache.v ===== *)
(** * The inode cache

    kernel/fs/inode_cache.c over the hash lists of include/ds/hash.h and the
    structures of include/fs.h.  A file system is a table of operations
    reached through its superblock; the cache calls them and may rely on
    what InodeCacheSpec.v asks of them.  A node of a list is identified with
    the inode that holds it, as [container_of] does, and NULL stays NULL.
    The messages to the console are left out. *)

From stdpp Require Import base list gmap.
From Stdlib Require Import ZArith Lia.
From S2P Require Import Prelude.
Local Open Scope Z_scope.

(** ** Structures *)

Record inode := mk_inode {
  ino : Z; mode : Z; rc : Z; i_sb : Z; i_ops : Z; mounted : Z; nd_next : Z; nd_prev : Z
}.

Definition set_ino v i := mk_inode v (mode i) (rc i) (i_sb i) (i_ops i) (mounted i) (nd_next i) (nd_prev i).
Definition set_mode v i := mk_inode (ino i) v (rc i) (i_sb i) (i_ops i) (mounted i) (nd_next i) (nd_prev i).
Definition set_rc v i := mk_inode (ino i) (mode i) v (i_sb i) (i_ops i) (mounted i) (nd_next i) (nd_prev i).
Definition set_sb v i := mk_inode (ino i) (mode i) (rc i) v (i_ops i) (mounted i) (nd_next i) (nd_prev i).
Definition set_ops v i := mk_inode (ino i) (mode i) (rc i) (i_sb i) v (mounted i) (nd_next i) (nd_prev i).
Definition set_mounted v i := mk_inode (ino i) (mode i) (rc i) (i_sb i) (i_ops i) v (nd_next i) (nd_prev i).
Definition set_nd_next v i := mk_inode (ino i) (mode i) (rc i) (i_sb i) (i_ops i) (mounted i) v (nd_prev i).
Definition set_nd_prev v i := mk_inode (ino i) (mode i) (rc i) (i_sb i) (i_ops i) (mounted i) (nd_next i) v.

(** After [memset(inode, 0, sizeof *inode)]. *)
Definition zero_inode : inode := mk_inode 0 0 0 0 0 0 0 0.

Record super_block := mk_super { dev : Z; s_root : Z; s_ops : Z }.

Definition I_UNKNOWN : Z := 0.
Definition I_REGULAR : Z := 1.
Definition I_DIRECTORY : Z := 2.
Definition I_SYMLINK : Z := 3.
Definition I_MOUNT : Z := 4.

Definition I_ISDIR (i : inode) : bool := mode i =? I_DIRECTORY.
Definition I_ISMNT (i : inode) : bool := mode i =? I_MOUNT.

(** What follows the superblock in a [struct initrd_fs]. *)
Record initrd_part := mk_rd { root_hdr : Z; rd_root : Z }.

(** The objects of the file system by address, the cache, the bytes of the
    boot archive and the heap.  [rd_hdrs] holds the field in front of the
    inode of each [struct initrd_inode], [rd_parts] the rest of each
    [struct initrd_fs]. *)
Record fstate (H : Type) := mk_fstate {
  inodes : gmap Z inode;
  supers : gmap Z super_block;
  rd_hdrs : gmap Z Z;
  rd_parts : gmap Z initrd_part;
  buckets : list Z;
  cache_lock : Z;
  fmem : gmap Z Z;
  fheap : H
}.
Arguments mk_fstate {H} _ _ _ _ _ _ _ _.
Arguments inodes {H} _.
Arguments supers {H} _.
Arguments rd_hdrs {H} _.
Arguments rd_parts {H} _.
Arguments buckets {H} _.
Arguments cache_lock {H} _.
Arguments fmem {H} _.
Arguments fheap {H} _.

Section state.
Context {H : Type}.
Implicit Types s : fstate H.

Definition upd_inodes f s := mk_fstate (f (inodes s)) (supers s) (rd_hdrs s) (rd_parts s) (buckets s) (cache_lock s) (fmem s) (fheap s).
Definition upd_supers f s := mk_fstate (inodes s) (f (supers s)) (rd_hdrs s) (rd_parts s) (buckets s) (cache_lock s) (fmem s) (fheap s).
Definition upd_rd_hdrs f s := mk_fstate (inodes s) (supers s) (f (rd_hdrs s)) (rd_parts s) (buckets s) (cache_lock s) (fmem s) (fheap s).
Definition upd_rd_parts f s := mk_fstate (inodes s) (supers s) (rd_hdrs s) (f (rd_parts s)) (buckets s) (cache_lock s) (fmem s) (fheap s).
Definition upd_buckets v s := mk_fstate (inodes s) (supers s) (rd_hdrs s) (rd_parts s) v (cache_lock s) (fmem s) (fheap s).
Definition upd_cache_lock v s := mk_fstate (inodes s) (supers s) (rd_hdrs s) (rd_parts s) (buckets s) v (fmem s) (fheap s).
Definition upd_fmem v s := mk_fstate (inodes s) (supers s) (rd_hdrs s) (rd_parts s) (buckets s) (cache_lock s) v (fheap s).
Definition upd_fheap (v : H) s := mk_fstate (inodes s) (supers s) (rd_hdrs s) (rd_parts s) (buckets s) (cache_lock s) (fmem s) v.

Definition rd_inode : Z → M (fstate H) inode := deref inodes.
Definition wr_inode : Z → (inode → inode) → M (fstate H) unit := store inodes upd_inodes.
Definition rd_super : Z → M (fstate H) super_block := deref supers.
Definition wr_super : Z → (super_block → super_block) → M (fstate H) unit := store supers upd_supers.

(** [struct super_operations]: a member that is NULL is [None]. *)
Record super_operations := mk_sops {
  alloc_inode : option (Z → M (fstate H) Z);
  read_inode : option (Z → Z → M (fstate H) Z);
  dealloc_inode : option (Z → M (fstate H) unit)
}.
End state.
Arguments super_operations H : clear implicits.

(** ** Hashing *)

Definition TAB_SHIFT : Z := 8.
Definition TAB_SIZE : Z := Z.shiftl 1 TAB_SHIFT.

(** All intermediate values are 32 bits wide. *)
Definition hash_inode (ino_ dev_ : Z) : Z :=
  let mask := TAB_SIZE - 1 in
  let key := u32 (ino_ + dev_) in
  let key := Z.land (u32 (u32 (Z.lnot key) + u32 (Z.shiftl key 21))) mask in
  let key := Z.lxor key (Z.shiftr key 24) in
  let key := Z.land (u32 (u32 (key + u32 (Z.shiftl key 3)) + u32 (Z.shiftl key 8))) mask in
  let key := Z.lxor key (Z.shiftr key 14) in
  let key := Z.land (u32 (u32 (key + u32 (Z.shiftl key 2)) + u32 (Z.shiftl key 4))) mask in
  let key := Z.lxor key (Z.shiftr key 28) in
  Z.land (u32 (key + u32 (Z.shiftl key 31))) mask.

Section Cache.
Context {H : Type} {BC : BuildConfig}.
(** The operation tables by address. *)
Variable sops : Z → option (super_operations H).
Abbreviation F := (M (fstate H)).

(** ** include/ds/hash.h *)

Definition rd_bucket (h : Z) : F Z := λ s,
  match buckets s !! Z.to_nat h with Some x => Ok (x, s) | None => Fault end.

Definition wr_bucket (h v : Z) : F unit := λ s,
  match buckets s !! Z.to_nat h with
  | Some _ => Ok (tt, upd_buckets (<[Z.to_nat h := v]> (buckets s)) s)
  | None => Fault
  end.

Definition hlist_add (bucket node : Z) : F unit :=
  wr_inode node (set_nd_prev NULL);;
  head ← rd_bucket bucket;
  wr_inode node (set_nd_next head);;
  (if negb (head =? NULL) then wr_inode head (set_nd_prev node) else mret tt);;
  wr_bucket bucket node.

Definition hlist_remove (bucket node : Z) : F unit :=
  n ← rd_inode node;
  (if nd_prev n =? NULL then wr_bucket bucket (nd_next n)
   else wr_inode (nd_prev n) (set_nd_next (nd_next n)));;
  n ← rd_inode node;
  if negb (nd_next n =? NULL) then wr_inode (nd_next n) (set_nd_prev (nd_prev n)) else mret tt.

(** ** The lock and the calls through the superblock *)

(** On one CPU, waiting for a mutex that is held does not end. *)
Definition mutex_lock : F unit :=
  s ← get; if cache_lock s =? 0 then modify (upd_cache_lock 1) else diverge.
Definition mutex_unlock : F unit := modify (upd_cache_lock 0).

(** [sb->ops], [None] when it is NULL. *)
Definition sb_ops (sb : Z) : F (option (super_operations H)) :=
  b ← rd_super sb;
  if s_ops b =? NULL then mret None
  else match sops (s_ops b) with Some o => mret (Some o) | None => fault end.

(** [HASOP(sb, op)] *)
Definition HASOP {A} (sb : Z) (op : super_operations H → option A) : F bool :=
  o ← sb_ops sb; mret (bool_decide (is_Some (o ≫= op))).

(** [kassert_dbg(HASOP(sb, op))] *)
Definition dbg_hasop {A} (sb : Z) (op : super_operations H → option A) : F unit :=
  if DEBUG then has ← HASOP sb op; kassert has else mret tt.

(** The function [sb->ops->op]; a call through NULL faults. *)
Definition callee {A} (sb : Z) (op : super_operations H → option A) : F A :=
  o ← sb_ops sb; match o ≫= op with Some f => mret f | None => fault end.

(** ** Operations *)

(** [cur->ino == ino && cur->sb->dev == sb->dev] *)
Definition cache_match (sb ino_ cur : Z) : F bool :=
  i ← rd_inode cur;
  if ino i =? ino_ then b ← rd_super (i_sb i); b' ← rd_super sb; mret (dev b =? dev b')
  else mret false.

Definition find_round (sb ino_ cur : Z) : F (Z + Z) :=
  if cur =? NULL then mret (inr NULL)
  else
    b ← cache_match sb ino_ cur;
    if b : bool then mret (inr cur) else i ← rd_inode cur; mret (inl (nd_next i)).

(** A list has no more nodes than there are inodes. *)
Definition cache_find (hash sb ino_ : Z) : F Z :=
  head ← rd_bucket hash;
  s ← get; loop (S (size (inodes s))) (find_round sb ino_) head.

(** The branch that allocates the inode and reads it. *)
Definition cache_fill (hash sb ino_ : Z) : F Z :=
  dbg_hasop sb alloc_inode;;
  alloc ← callee sb alloc_inode;
  inode ← alloc sb;
  kassert (negb (inode =? NULL));;
  wr_inode inode (set_ino ino_);;
  has ← HASOP sb read_inode; kassert has;;
  read ← callee sb read_inode;
  rv ← read sb inode;
  if negb (rv =? 0) then
    dbg_hasop sb dealloc_inode;;
    dealloc ← callee sb dealloc_inode;
    dealloc inode;; mret NULL
  else
    (if DEBUG then i ← rd_inode inode; kassert (rc i =? 0) else mret tt);;
    hlist_add hash inode;; mret inode.

Definition inode_get (sb ino_ : Z) : F Z :=
  b ← rd_super sb;
  let hash := hash_inode ino_ (dev b) in
  mutex_lock;;
  inode ← cache_find hash sb ino_;
  inode ← (if inode =? NULL then cache_fill hash sb ino_ else mret inode);
  wr_inode inode (λ i, set_rc (u32 (rc i + 1)) i);;
  mutex_unlock;;
  mret inode.

Definition inode_put (inode : Z) : F unit :=
  i ← rd_inode inode;
  b ← rd_super (i_sb i);
  let hash := hash_inode (ino i) (dev b) in
  mutex_lock;;
  wr_inode inode (λ i, set_rc (u32 (rc i - 1)) i);;
  i ← rd_inode inode;
  (if rc i =? 0 then
     hlist_remove hash inode;;
     dbg_hasop (i_sb i) dealloc_inode;;
     dealloc ← callee (i_sb i) dealloc_inode;
     dealloc inode
   else mret tt);;
  mutex_unlock.
End Cache.
