(* ===== verification/InodeCacheSpec.v ===== *)
(** * The inode cache: specification

    The cache as a finite map from inode number and device to the address of
    the inode and its reference count.  [inode_get] and [inode_put] implement
    lookup, insertion and removal in this map for every file system whose
    operations keep the promises of [SuperLaws]. *)

From stdpp Require Import base list gmap fin_maps.
From Stdlib Require Import ZArith Lia.
From S2P Require Import Prelude InodeCache.
Local Open Scope Z_scope.

(** ** Doubly linked lists *)

Definition first_of (d : Z) (l : list Z) : Z := match l with [] => d | a :: _ => a end.
Fixpoint last_of (d : Z) (l : list Z) : Z := match l with [] => d | a :: l => last_of a l end.

(** [n] maps a node to its next and previous node.  The nodes [l] are linked
    in this order, the first back to [p] and the last on to [nx]. *)
Fixpoint dseg (n : gmap Z (Z * Z)) (p : Z) (l : list Z) (nx : Z) : Prop :=
  match l with
  | [] => True
  | a :: l => n !! a = Some (first_of nx l, p) ∧ dseg n a l nx
  end.

Lemma first_of_app d l1 l2 : first_of d (l1 ++ l2) = first_of (first_of d l2) l1.
Proof. by destruct l1. Qed.

Lemma last_of_snoc d l a : last_of d (l ++ [a]) = a.
Proof. revert d. induction l as [|x l IH]; intros d; [done|apply IH]. Qed.

Lemma dseg_app n p l1 l2 nx :
  dseg n p (l1 ++ l2) nx ↔ dseg n p l1 (first_of nx l2) ∧ dseg n (last_of p l1) l2 nx.
Proof.
  revert p. induction l1 as [|a l1 IH]; intros p; simpl; [tauto|].
  rewrite first_of_app, IH. tauto.
Qed.

Lemma dseg_ext n n' p l nx :
  (∀ a, a ∈ l → n' !! a = n !! a) → dseg n p l nx → dseg n' p l nx.
Proof.
  revert p. induction l as [|a l IH]; intros p He; simpl; [done|]. intros [Ha Hl]. split.
  - rewrite He by left. done.
  - apply IH; [|done]. intros x Hx. apply He. by right.
Qed.

Lemma dseg_elem n p l nx a : dseg n p l nx → a ∈ l → is_Some (n !! a).
Proof.
  revert p. induction l as [|x l IH]; intros p; [by intros _ ?%elem_of_nil|].
  intros [Hx Hl] [->|Ha]%elem_of_cons; eauto.
Qed.

(** The last node of a segment is linked on to another place. *)
Lemma dseg_relink n n' p l a x y :
  dseg n p (l ++ [a]) x → NoDup (l ++ [a]) →
  n' !! a = Some (y, last_of p l) → (∀ b, b ∈ l → n' !! b = n !! b) → dseg n' p (l ++ [a]) y.
Proof.
  intros [Hl [Ha _]]%dseg_app Hnd Ha' He. apply dseg_app. simpl. split; [|done].
  by eapply dseg_ext.
Qed.

(** The first node is linked back to another place. *)
Lemma dseg_back n n' p q a l nx :
  dseg n p (a :: l) nx → n' !! a = Some (first_of nx l, q) → (∀ x, x ∈ l → n' !! x = n !! x) →
  dseg n' q (a :: l) nx.
Proof. intros [_ Hl] Ha He. split; [done|]. by eapply dseg_ext. Qed.

(** A list without duplicates of keys of a map is no longer than the map. *)
Lemma NoDup_keys_size {A} (m : gmap Z A) (l : list Z) :
  NoDup l → (∀ a, a ∈ l → is_Some (m !! a)) → (length l ≤ size m)%nat.
Proof.
  intros Hnd Hl. rewrite <-(size_list_to_set (C := gset Z) l), <-size_dom by done.
  apply subseteq_size. intros a Ha%elem_of_list_to_set. apply elem_of_dom. by apply Hl.
Qed.

(** One of several lists is replaced. *)
Lemma concat_insert {A} (L : list (list A)) b l l' :
  L !! b = Some l → ∃ r, concat L ≡ₚ l ++ r ∧ concat (<[b := l']> L) ≡ₚ l' ++ r.
Proof.
  intros Hb. exists (concat (take b L) ++ concat (drop (S b) L)).
  rewrite insert_take_drop by (by eapply lookup_lt_Some). rewrite <-(take_drop_middle L b l Hb) at 1.
  rewrite !concat_app. simpl. rewrite !(assoc_L (++)).
  split; f_equiv; by rewrite (comm (++)).
Qed.

(** ** The cache as a finite map *)

Section Spec.
Context {H : Type}.
Implicit Types s : fstate H.

Definition links s : gmap Z (Z * Z) := (λ i, (nd_next i, nd_prev i)) <$> inodes s.
Definition idents s : gmap Z (Z * Z * Z) := (λ i, (ino i, rc i, i_sb i)) <$> inodes s.

Definition kinds s : gmap Z (Z * Z) := (λ i, (mode i, i_ops i)) <$> inodes s.

Abbreviation cache := (gmap (Z * Z) (Z * Z)).

(** The inode at [a] is number [k.1] of device [k.2], with count [n]. *)
Definition entry s (a : Z) (k : Z * Z) (n : Z) : Prop :=
  ∃ p sb, idents s !! a = Some (k.1, n, p) ∧ p ≠ 0 ∧ supers s !! p = Some sb ∧ k.2 = dev sb.

Definition slot (k : Z * Z) : nat := Z.to_nat (hash_inode k.1 k.2).

(** [L] are the lists of the buckets. *)
Record cache_inv s (L : list (list Z)) (C : cache) : Prop := {
  ci_len : length L = Z.to_nat TAB_SIZE;
  ci_heads : buckets s = first_of NULL <$> L;
  ci_links : ∀ b l, L !! b = Some l → dseg (links s) NULL l NULL;
  ci_nodup : NoDup (concat L);
  ci_null : NULL ∉ concat L;
  ci_entry : ∀ b l a, L !! b = Some l → a ∈ l → ∃ k n, entry s a k n ∧ C !! k = Some (a, n) ∧ slot k = b;
  ci_cached : ∀ k a n, C !! k = Some (a, n) → entry s a k n ∧ ∃ l, L !! slot k = Some l ∧ a ∈ l
}.

(** The cache holds [C]; an inode in the cache is referenced. *)
Definition cache_repr s (C : cache) : Prop :=
  (∃ L, cache_inv s L C) ∧ ∀ k a n, C !! k = Some (a, n) → 1 ≤ n < 2 ^ 32.

Lemma hash_range n d : 0 ≤ hash_inode n d < TAB_SIZE.
Proof.
  unfold hash_inode. change (TAB_SIZE - 1) with (Z.ones 8). rewrite !Z.land_ones by lia. change TAB_SIZE with (2 ^ 8).
  apply Z.mod_pos_bound. lia.
Qed.

#[local] Opaque hash_inode.

Lemma slot_lookup s L C k : cache_inv s L C → ∃ l, L !! slot k = Some l.
Proof.
  intros HL. apply lookup_lt_is_Some. rewrite (ci_len _ _ _ HL). unfold slot.
  pose proof (hash_range k.1 k.2). lia.
Qed.

Lemma entry_key s a k n k' n' : entry s a k n → entry s a k' n' → k = k' ∧ n = n'.
Proof.
  intros (p & b & E & _ & Hb & Hk) (p' & b' & E' & _ & Hb' & Hk'). rewrite E in E'. injection E' as E1 -> ->.
  rewrite Hb in Hb'. injection Hb' as ->. destruct k, k'. simpl in *. by subst.
Qed.

Lemma elem_concat {A} (L : list (list A)) b l a : L !! b = Some l → a ∈ l → a ∈ concat L.
Proof.
  intros Hb Ha. destruct (concat_insert L b l [] Hb) as (r & -> & _). apply elem_of_app. by left.
Qed.

(** The cached inode of a key. *)
Lemma cached_entry s L C k a n :
  cache_inv s L C → C !! k = Some (a, n) → entry s a k n ∧ a ∈ concat L ∧ a ≠ NULL.
Proof.
  intros HL Hk. destruct (ci_cached _ _ _ HL _ _ _ Hk) as (He & l & Hl & Ha).
  assert (a ∈ concat L) as Hin by (by eapply elem_concat).
  split; [done|split; [done|intros ->; by destruct (ci_null _ _ _ HL)]].
Qed.

(** The list of one bucket changes, from [l] to [l'], and with it the cache
    at the keys of that bucket. *)
Lemma inv_bucket s s' L C C' b l l' :
  cache_inv s L C → L !! b = Some l →
  buckets s' = <[b := first_of NULL l']> (buckets s) → supers s' = supers s →
  dseg (links s') NULL l' NULL → NULL ∉ l' → NoDup (concat (<[b := l']> L)) →
  (∀ x, x ∈ concat L → x ∉ l → links s' !! x = links s !! x ∧ idents s' !! x = idents s !! x) →
  (∀ x, x ∈ l' → ∃ k n, entry s' x k n ∧ C' !! k = Some (x, n) ∧ slot k = b) →
  (∀ k x n, C' !! k = Some (x, n) → slot k = b → entry s' x k n ∧ x ∈ l') →
  (∀ k, slot k ≠ b → C' !! k = C !! k) →
  cache_inv s' (<[b := l']> L) C'.
Proof.
  intros HL Hb Hbk Hsup Hseg H0 Hnd Hfr Hent Hcac Hoth.
  pose proof (lookup_lt_Some _ _ _ Hb) as Hlt.
  assert (∀ b2 l2 x, L !! b2 = Some l2 → b2 ≠ b → x ∈ l2 → x ∈ concat L ∧ x ∉ l) as Hout.
  { intros b2 l2 x H2 Hne Hx. split; [by eapply elem_concat|]. intros Hxl.
    destruct (concat_insert L b l [] Hb) as (r & E1 & E2). pose proof (ci_nodup _ _ _ HL) as Hd. rewrite E1 in Hd.
    apply NoDup_app in Hd as (_ & Hd & _). apply (Hd x Hxl). simpl in E2. rewrite <-E2.
    eapply (elem_concat _ b2); [by rewrite list_lookup_insert_ne|done]. }
  assert (∀ x k n, x ∈ concat L → x ∉ l → entry s x k n → entry s' x k n) as Hkeep.
  { intros x k n Hx Hxl (p & sb & E & ? & ? & ?). exists p, sb. by rewrite (proj2 (Hfr x Hx Hxl)), Hsup. }
  split.
  - rewrite length_insert. apply HL.
  - by rewrite Hbk, (ci_heads _ _ _ HL), list_fmap_insert.
  - intros b2 l2 [(<- & <- & _)|[Hne H2]]%list_lookup_insert_Some; [done|].
    eapply dseg_ext; [|by apply (ci_links _ _ _ HL b2)]. intros x Hx.
    destruct (Hout b2 l2 x H2 (not_eq_sym Hne) Hx) as [? ?]. by apply Hfr.
  - done.
  - intros Hn. destruct (concat_insert L b l l' Hb) as (r & E1 & E2). rewrite E2 in Hn.
    apply elem_of_app in Hn as [?|Hn]; [done|]. apply (ci_null _ _ _ HL). rewrite E1. apply elem_of_app. by right.
  - intros b2 l2 x [(<- & <- & _)|[Hne H2]]%list_lookup_insert_Some Hx; [by apply Hent|].
    destruct (Hout b2 l2 x H2 (not_eq_sym Hne) Hx) as [Hx1 Hx2].
    destruct (ci_entry _ _ _ HL _ _ _ H2 Hx) as (k & n & He & Hk & Hs).
    exists k, n. rewrite Hoth by congruence. auto.
  - intros k x n Hk. destruct (decide (slot k = b)) as [<-|Hne].
    + destruct (Hcac k x n Hk eq_refl). split; [done|]. exists l'. by rewrite list_lookup_insert_eq.
    + rewrite Hoth in Hk by done. destruct (ci_cached _ _ _ HL _ _ _ Hk) as (He & l2 & H2 & Hx).
      destruct (Hout _ _ _ H2 Hne Hx). split; [by apply Hkeep|]. exists l2. by rewrite list_lookup_insert_ne.
Qed.

(** A count changes. *)
Lemma inv_count s s' L C k a n m p :
  cache_inv s L C → C !! k = Some (a, n) → idents s !! a = Some (k.1, n, p) →
  supers s' = supers s → buckets s' = buckets s → links s' = links s →
  idents s' = <[a := (k.1, m, p)]> (idents s) → cache_inv s' L (<[k := (a, m)]> C).
Proof.
  intros HL Hk Hid Hsup Hbk Hlk Hid'. destruct (ci_cached _ _ _ HL _ _ _ Hk) as (He & l & Hl & Ha).
  assert (entry s' a k m) as He'.
  { destruct He as (p' & sb & E & ? & ? & ?). rewrite Hid in E. injection E as <-. exists p, sb.
    by rewrite Hid', lookup_insert_eq, Hsup. }
  assert (∀ x k' n', x ≠ a → entry s x k' n' → entry s' x k' n') as Hoth.
  { intros x k' n' Hne (p' & sb & E & ? & ? & ?). exists p', sb. by rewrite Hid', lookup_insert_ne, Hsup. }
  rewrite <-(list_insert_id L (slot k) l Hl). eapply (inv_bucket s s' L C); try done.
  - rewrite Hbk. symmetry. apply list_insert_id. by rewrite (ci_heads _ _ _ HL), list_lookup_fmap, Hl.
  - rewrite Hlk. by apply (ci_links _ _ _ HL (slot k)).
  - intros Hn. apply (ci_null _ _ _ HL). by eapply elem_concat.
  - rewrite list_insert_id by done. apply HL.
  - intros x _ Hx. rewrite Hlk, Hid', lookup_insert_ne; [done|]. by intros ->.
  - intros x Hx. destruct (ci_entry _ _ _ HL _ _ _ Hl Hx) as (k' & n' & Hx' & Hk' & Hs).
    destruct (decide (x = a)) as [->|Hne].
    + exists k, m. by rewrite lookup_insert_eq.
    + exists k', n'. rewrite lookup_insert_ne; [auto|]. intros <-. congruence.
  - intros k' x n' Hk' Hs. destruct (decide (k = k')) as [<-|Hne].
    + rewrite lookup_insert_eq in Hk'. by injection Hk' as <- <-.
    + rewrite lookup_insert_ne in Hk' by done. destruct (ci_cached _ _ _ HL _ _ _ Hk') as (He2 & l2 & Hl2 & Hx).
      rewrite Hs, Hl in Hl2. injection Hl2 as <-. split; [|done]. apply Hoth; [|done]. intros ->.
      by destruct (entry_key _ _ _ _ _ _ He He2).
  - intros k' Hne. rewrite lookup_insert_ne; [done|]. by intros <-.
Qed.

(** An inode that was not cached comes to the front of its list. *)
Lemma inv_add s s' L C k a n l :
  cache_inv s L C → L !! slot k = Some l → C !! k = None → a ∉ concat L → a ≠ NULL →
  entry s' a k n → supers s' = supers s → buckets s' = <[slot k := a]> (buckets s) →
  dseg (links s') NULL (a :: l) NULL → (∀ x, x ∈ concat L → idents s' !! x = idents s !! x) →
  (∀ x, x ∈ concat L → x ∉ l → links s' !! x = links s !! x) →
  cache_inv s' (<[slot k := a :: l]> L) (<[k := (a, n)]> C).
Proof.
  intros HL Hl Hk Ha H0 He Hsup Hbk Hseg Hid Hlk.
  assert (∀ x k' n', x ∈ concat L → entry s x k' n' → entry s' x k' n') as Hoth.
  { intros x k' n' Hx (p' & sb & E & ? & ? & ?). exists p', sb. by rewrite Hid, Hsup. }
  eapply (inv_bucket s s' L C); try done.
  - rewrite not_elem_of_cons. split; [done|]. intros Hn. apply (ci_null _ _ _ HL). by eapply elem_concat.
  - destruct (concat_insert L (slot k) l (a :: l) Hl) as (r & E1 & E2). rewrite E2. simpl. rewrite <-E1.
    constructor; [done|apply HL].
  - intros x Hx Hxl. split; [by apply Hlk|by apply Hid].
  - intros x [->|Hx]%elem_of_cons.
    + exists k, n. by rewrite lookup_insert_eq.
    + destruct (ci_entry _ _ _ HL _ _ _ Hl Hx) as (k' & n' & Hx' & Hk' & Hs).
      exists k', n'. rewrite lookup_insert_ne by congruence.
      split; [|done]. apply Hoth; [by eapply elem_concat|done].
  - intros k' x n' Hk' Hs. destruct (decide (k = k')) as [<-|Hne].
    + rewrite lookup_insert_eq in Hk'. injection Hk' as <- <-. split; [done|left].
    + rewrite lookup_insert_ne in Hk' by done. destruct (ci_cached _ _ _ HL _ _ _ Hk') as (He2 & l2 & Hl2 & Hx).
      rewrite Hs, Hl in Hl2. injection Hl2 as <-. split; [|by right]. apply Hoth; [by eapply elem_concat|done].
  - intros k' Hne. rewrite lookup_insert_ne; [done|]. by intros <-.
Qed.

(** A cached inode leaves its list. *)
Lemma inv_remove s s' L C k a n l1 l2 :
  cache_inv s L C → L !! slot k = Some (l1 ++ a :: l2) → C !! k = Some (a, n) →
  supers s' = supers s → buckets s' = <[slot k := first_of NULL (l1 ++ l2)]> (buckets s) →
  dseg (links s') NULL (l1 ++ l2) NULL →
  (∀ x, x ∈ concat L → x ≠ a → idents s' !! x = idents s !! x) →
  (∀ x, x ∈ concat L → x ∉ l1 ++ a :: l2 → links s' !! x = links s !! x) →
  cache_inv s' (<[slot k := l1 ++ l2]> L) (delete k C).
Proof.
  intros HL Hl Hk Hsup Hbk Hseg Hid Hlk. destruct (cached_entry _ _ _ _ _ _ HL Hk) as (He & Hin & Ha0).
  destruct (concat_insert L (slot k) _ (l1 ++ l2) Hl) as (r & E1 & E2).
  assert (concat L ≡ₚ a :: l1 ++ l2 ++ r) as E.
  { rewrite E1, <-Permutation_middle. simpl. by rewrite (assoc_L (++)). }
  pose proof (ci_nodup _ _ _ HL) as Hnd. rewrite E in Hnd. apply NoDup_cons in Hnd as [Hna Hnd].
  assert (∀ x, x ∈ l1 ++ l2 → x ∈ concat L ∧ x ≠ a) as Hsub.
  { intros x Hx. rewrite E, elem_of_cons, (assoc_L (++)), elem_of_app. split; [auto|]. intros ->.
    apply Hna. rewrite (assoc_L (++)), elem_of_app. by left. }
  assert (∀ x k' n', x ∈ concat L → x ≠ a → entry s x k' n' → entry s' x k' n') as Hoth.
  { intros x k' n' Hx Hxa (p' & sb & E' & ? & ? & ?). exists p', sb. by rewrite Hid, Hsup. }
  eapply (inv_bucket s s' L C); try done.
  - intros Hn%Hsub. by destruct (ci_null _ _ _ HL), Hn.
  - by rewrite E2, <-(assoc_L (++)).
  - intros x Hx Hxl. split; [by apply Hlk|]. apply Hid; [done|]. intros ->. apply Hxl, elem_of_app. right. left.
  - intros x Hx. destruct (Hsub x Hx) as [Hx1 Hx2].
    assert (x ∈ l1 ++ a :: l2) as Hx3 by (rewrite elem_of_app, elem_of_cons in *; tauto).
    destruct (ci_entry _ _ _ HL _ _ _ Hl Hx3) as (k' & n' & Hx' & Hk' & Hs).
    exists k', n'. rewrite lookup_delete_ne by congruence. auto.
  - intros k' x n' Hk' Hs. apply lookup_delete_Some in Hk' as [Hne Hk'].
    destruct (ci_cached _ _ _ HL _ _ _ Hk') as (He2 & l3 & Hl3 & Hx).
    rewrite Hs, Hl in Hl3. injection Hl3 as <-. assert (x ≠ a) as Hxa.
    { intros ->. by destruct (entry_key _ _ _ _ _ _ He He2). }
    split; [apply Hoth; [by eapply elem_concat|done..]|]. rewrite elem_of_app, elem_of_cons in *. tauto.
  - intros k' Hne. rewrite lookup_delete_ne; [done|]. by intros <-.
Qed.

(** ** Steps of the code *)

(** Only the links of the inodes [X] and the buckets change. *)
Record relinked (X : list Z) s s' : Prop := {
  rl_supers : supers s' = supers s;
  rl_hdrs : rd_hdrs s' = rd_hdrs s;
  rl_parts : rd_parts s' = rd_parts s;
  rl_mem : fmem s' = fmem s;
  rl_heap : fheap s' = fheap s;
  rl_lock : cache_lock s' = cache_lock s;
  rl_idents : idents s' = idents s;
  rl_kinds : kinds s' = kinds s;
  rl_inodes : ∀ x, x ∉ X → inodes s' !! x = inodes s !! x
}.

Lemma relinked_refl X s : relinked X s s.
Proof. done. Qed.

Lemma relinked_trans X s1 s2 s3 : relinked X s1 s2 → relinked X s2 s3 → relinked X s1 s3.
Proof.
  intros [? ? ? ? ? ? ? ? H1] [? ? ? ? ? ? ? ? H2]. split; try congruence. intros x Hx. by rewrite H2, H1.
Qed.

Lemma relinked_buckets X v s : relinked X s (upd_buckets v s).
Proof. done. Qed.

Definition same_ident (f : inode → inode) : Prop :=
  ∀ i, ino (f i) = ino i ∧ rc (f i) = rc i ∧ i_sb (f i) = i_sb i ∧ mode (f i) = mode i ∧ i_ops (f i) = i_ops i.

Lemma relinked_inode X f a i s :
  inodes s !! a = Some i → same_ident f → a ∈ X → relinked X s (upd_inodes <[a := f i]> s).
Proof.
  intros Ha Hf HX. destruct (Hf i) as (H1 & H2 & H3 & H4 & H5). split; try done; simpl.
  - unfold idents. simpl. rewrite fmap_insert, H1, H2, H3. apply insert_id. by rewrite lookup_fmap, Ha.
  - unfold kinds. simpl. rewrite fmap_insert, H4, H5. apply insert_id. by rewrite lookup_fmap, Ha.
  - intros x Hx. apply lookup_insert_ne. by intros ->.
Qed.

Lemma relinked_links X s s' x : relinked X s s' → x ∉ X → links s' !! x = links s !! x.
Proof. intros Hr Hx. unfold links. by rewrite !lookup_fmap, (rl_inodes _ _ _ Hr). Qed.

Lemma links_insert a i s : links (upd_inodes <[a := i]> s) = <[a := (nd_next i, nd_prev i)]> (links s).
Proof. unfold links. simpl. by rewrite fmap_insert. Qed.

Lemma links_inode s a v : links s !! a = Some v → ∃ i, inodes s !! a = Some i ∧ (nd_next i, nd_prev i) = v.
Proof. unfold links. rewrite lookup_fmap, fmap_Some. intros (i & ? & ->). eauto. Qed.

Lemma wp_rd_inode a i s (Q : inode → fstate H → Prop) :
  inodes s !! a = Some i → a ≠ 0 → Q i s → wp (rd_inode a) s Q.
Proof. apply wp_deref. Qed.

Lemma wp_wr_inode a f i s (Q : unit → fstate H → Prop) :
  inodes s !! a = Some i → a ≠ 0 → Q tt (upd_inodes <[a := f i]> s) → wp (wr_inode a f) s Q.
Proof. apply wp_store. Qed.

Lemma wp_rd_super a b s (Q : super_block → fstate H → Prop) :
  supers s !! a = Some b → a ≠ 0 → Q b s → wp (rd_super a) s Q.
Proof. apply wp_deref. Qed.

Lemma wp_wr_super a f b s (Q : unit → fstate H → Prop) :
  supers s !! a = Some b → a ≠ 0 → Q tt (upd_supers <[a := f b]> s) → wp (wr_super a f) s Q.
Proof. apply wp_store. Qed.

Lemma wp_rd_bucket h v s (Q : Z → fstate H → Prop) :
  buckets s !! Z.to_nat h = Some v → Q v s → wp (rd_bucket h) s Q.
Proof. intros Hv HQ. unfold wp, rd_bucket. by rewrite Hv. Qed.

Lemma wp_wr_bucket h v w s (Q : unit → fstate H → Prop) :
  buckets s !! Z.to_nat h = Some w → Q tt (upd_buckets (<[Z.to_nat h := v]> (buckets s)) s) →
  wp (wr_bucket h v) s Q.
Proof. intros Hv HQ. unfold wp, wr_bucket. by rewrite Hv. Qed.

Lemma bucket_head s L C b l : cache_inv s L C → L !! b = Some l → buckets s !! b = Some (first_of NULL l).
Proof. intros HL Hl. by rewrite (ci_heads _ _ _ HL), list_lookup_fmap, Hl. Qed.

(** [hlist_add] links the inode in front of the list. *)
Lemma wp_hlist_add s h l a i (Q : unit → fstate H → Prop) :
  dseg (links s) NULL l NULL → NoDup l → NULL ∉ l → buckets s !! Z.to_nat h = Some (first_of NULL l) →
  inodes s !! a = Some i → a ≠ 0 → a ∉ l →
  (∀ s', relinked (a :: l) s s' → buckets s' = <[Z.to_nat h := a]> (buckets s) →
     dseg (links s') NULL (a :: l) NULL → Q tt s') →
  wp (hlist_add h a) s Q.
Proof.
  intros Hseg Hnd H0 Hb Ha Ha0 Hal HQ. unfold hlist_add.
  apply wp_bind, (wp_wr_inode _ _ i); [done..|]. set (s1 := upd_inodes _ s).
  assert (relinked (a :: l) s s1) as R1 by (apply (relinked_inode _ (set_nd_prev NULL)); [done|done|left]).
  apply wp_bind, (wp_rd_bucket _ (first_of NULL l)); [done|].
  apply wp_bind, (wp_wr_inode _ _ (set_nd_prev NULL i)); [apply lookup_insert_eq|done|]. set (s2 := upd_inodes _ s1).
  assert (relinked (a :: l) s s2) as R2.
  { eapply relinked_trans; [exact R1|]. apply (relinked_inode _ (set_nd_next _)); [apply lookup_insert_eq|done|left]. }
  assert (links s2 = <[a := (first_of NULL l, NULL)]> (links s)) as K2.
  { unfold s2, s1. rewrite !links_insert. apply insert_insert_eq. }
  destruct l as [|x l]; simpl first_of in *.
  - apply wp_bind. simpl. apply wp_ret. eapply wp_wr_bucket; [exact Hb|]. apply HQ.
    + eapply relinked_trans; [exact R2|]. apply relinked_buckets.
    + done.
    + split; [|done]. change (links (upd_buckets _ s2)) with (links s2). by rewrite K2, lookup_insert_eq.
  - apply not_elem_of_cons in H0 as [Hx0 H0], Hal as [Hax Hal]. apply NoDup_cons in Hnd as [Hxl Hnd].
    destruct Hseg as [Hx Hseg]. destruct (links_inode s x _ Hx) as (j & Hj & [= Ej1 Ej2]).
    destruct (Z.eqb_spec x NULL) as [|_]; [congruence|]. simpl negb. cbv iota.
    apply wp_bind, (wp_wr_inode _ _ j); [by unfold s2, s1; simpl; rewrite !lookup_insert_ne|done|]. set (s3 := upd_inodes _ s2).
    eapply wp_wr_bucket; [exact Hb|]. apply HQ.
    + eapply relinked_trans; [exact R2|]. eapply relinked_trans; [|apply relinked_buckets].
      apply (relinked_inode _ (set_nd_prev a)); [by unfold s2, s1; simpl; rewrite !lookup_insert_ne|done|right; left].
    + done.
    + change (links (upd_buckets _ s3)) with (links s3). unfold s3. rewrite links_insert, K2. simpl nd_next. simpl nd_prev.
      rewrite Ej1. simpl. rewrite (lookup_insert_ne _ x a), lookup_insert_eq, lookup_insert_eq by done.
      split; [done|]. split; [done|]. eapply dseg_ext; [|exact Hseg]. intros y Hy.
      rewrite !lookup_insert_ne; [done| |]; by intros ->.
Qed.

(** The first half of [hlist_remove]: the way forward skips the inode. *)
Lemma wp_unlink_next s h l1 a l2 (Q : unit → fstate H → Prop) :
  dseg (links s) NULL (l1 ++ a :: l2) NULL → NoDup (l1 ++ a :: l2) → NULL ∉ l1 ++ a :: l2 →
  buckets s !! Z.to_nat h = Some (first_of NULL (l1 ++ a :: l2)) →
  (∀ s', relinked (l1 ++ l2) s s' → buckets s' = <[Z.to_nat h := first_of NULL (l1 ++ l2)]> (buckets s) →
     dseg (links s') NULL l1 (first_of NULL l2) → (∀ x, x ∉ l1 → links s' !! x = links s !! x) → Q tt s') →
  wp (if last_of NULL l1 =? NULL then wr_bucket h (first_of NULL l2)
      else wr_inode (last_of NULL l1) (set_nd_next (first_of NULL l2))) s Q.
Proof.
  intros Hseg Hnd H0 Hb HQ. destruct l1 as [|z l0 _] using rev_ind.
  - eapply wp_wr_bucket; [exact Hb|]. by apply HQ.
  - rewrite last_of_snoc. apply dseg_app in Hseg as [Hseg _]. simpl first_of in Hseg.
    apply NoDup_app in Hnd as (Hnd & Hd & _). rewrite not_elem_of_app in H0. destruct H0 as [H0 _].
    assert (z ≠ NULL) as Hz. { intros ->. apply H0, elem_of_app. right. left. }
    pose proof Hseg as [_ [Hl _]]%dseg_app. simpl in Hl. destruct (links_inode s z _ Hl) as (j & Hj & [= Ej1 Ej2]).
    destruct (Z.eqb_spec z NULL) as [|_]; [done|]. apply (wp_wr_inode _ _ j); [done..|]. apply HQ.
    + apply (relinked_inode _ (set_nd_next _)); [done|done|]. rewrite !elem_of_app. left. right. left.
    + simpl. symmetry. apply list_insert_id. rewrite Hb. by destruct l0.
    + rewrite links_insert. simpl. rewrite Ej2. eapply dseg_relink; [exact Hseg|done|apply lookup_insert_eq|].
      intros x Hx. apply lookup_insert_ne. intros ->. apply NoDup_app in Hnd as (_ & Hd' & _).
      apply (Hd' x Hx). left.
    + intros x Hx. rewrite links_insert. apply lookup_insert_ne. intros ->. apply Hx, elem_of_app. right. left.
Qed.

Lemma wp_hlist_remove s h l1 a l2 (Q : unit → fstate H → Prop) :
  dseg (links s) NULL (l1 ++ a :: l2) NULL → NoDup (l1 ++ a :: l2) → NULL ∉ l1 ++ a :: l2 →
  buckets s !! Z.to_nat h = Some (first_of NULL (l1 ++ a :: l2)) →
  (∀ s', relinked (l1 ++ l2) s s' → buckets s' = <[Z.to_nat h := first_of NULL (l1 ++ l2)]> (buckets s) →
     dseg (links s') NULL (l1 ++ l2) NULL → Q tt s') →
  wp (hlist_remove h a) s Q.
Proof.
  intros Hseg Hnd H0 Hb HQ. pose proof Hseg as [Hs1 [Hla Hs2]]%dseg_app.
  destruct (links_inode s a _ Hla) as (i & Hi & [= E1 E2]).
  pose proof Hnd as (Hnd1 & Hd & [Hal Hnd2]%NoDup_cons)%NoDup_app.
  assert (a ∉ l1) as Hal1. { intros Hx. apply (Hd a Hx). left. }
  assert (a ≠ 0) as Ha. { intros ->. apply H0, elem_of_app. right. left. }
  unfold hlist_remove. apply wp_bind, (wp_rd_inode _ i); [done..|]. rewrite E1, E2.
  apply wp_bind, (wp_unlink_next s h l1 a l2); [done..|]. intros s1 R1 B1 S1 K1.
  apply wp_bind, (wp_rd_inode _ i); [|done|].
  { rewrite (rl_inodes _ _ _ R1); [done|]. rewrite not_elem_of_app. done. }
  rewrite E1, E2. destruct l2 as [|y l2]; simpl first_of in *.
  - apply wp_ret. apply HQ; [done..|]. by rewrite app_nil_r.
  - apply not_elem_of_app in H0 as [_ H0]. rewrite !not_elem_of_cons in H0. destruct H0 as (_ & Hy0 & _).
    apply NoDup_cons in Hnd2 as [Hyl Hnd2]. assert (y ∉ l1) as Hyl1. { intros Hx. apply (Hd y Hx). right. left. }
    destruct (Z.eqb_spec y NULL) as [|_]; [congruence|]. cbv [negb].
    pose proof Hs2 as [Hly Hs3]. rewrite <-K1 in Hly by done. destruct (links_inode s1 y _ Hly) as (j & Hj & [= F1 F2]).
    apply (wp_wr_inode _ _ j); [done..|]. apply HQ; [|done|].
    + eapply relinked_trans; [exact R1|]. apply (relinked_inode _ (set_nd_prev _)); [done|done|].
      apply elem_of_app. right. left.
    + rewrite links_insert. simpl nd_next. simpl nd_prev. rewrite F1. apply dseg_app. split.
      * eapply dseg_ext; [|exact S1]. intros x Hx. apply lookup_insert_ne. by intros ->.
      * eapply (dseg_back (links s)); [exact Hs2|apply lookup_insert_eq|]. intros x Hx.
        rewrite lookup_insert_ne by (by intros ->). apply K1. intros Hx1. apply (Hd x Hx1). by do 2 right.
Qed.

(** The test of the search compares keys. *)
Lemma wp_cache_match s x k c sb b n (Q : bool → fstate H → Prop) :
  entry s x k c → x ≠ 0 → supers s !! sb = Some b → sb ≠ 0 →
  Q (bool_decide (k = (n, dev b))) s → wp (cache_match sb n x) s Q.
Proof.
  intros (p & b' & Eid & Hp0 & Hb' & Ek2) Hx0 Hsb Hsb0 HQ.
  unfold idents in Eid. rewrite lookup_fmap, fmap_Some in Eid. destruct Eid as (i & Hi & [= Ek1 -> ->]).
  unfold cache_match. apply wp_bind, (wp_rd_inode _ i); [done..|]. destruct k as [k1 k2]. simpl in *. subst.
  destruct (Z.eqb_spec (ino i) n) as [En|En].
  - apply wp_bind, (wp_rd_super _ b'); [done..|]. apply wp_bind, (wp_rd_super _ b); [done..|]. apply wp_ret.
    destruct (Z.eqb_spec (dev b') (dev b)) as [E|Hne].
    + by rewrite bool_decide_true in HQ by congruence.
    + by rewrite bool_decide_false in HQ by congruence.
  - apply wp_ret. by rewrite bool_decide_false in HQ by congruence.
Qed.

Lemma bucket_list s L C k l :
  cache_inv s L C → L !! slot k = Some l →
  dseg (links s) NULL l NULL ∧ NoDup l ∧ NULL ∉ l ∧ ∀ x, x ∈ l → is_Some (inodes s !! x).
Proof.
  intros HL Hl. pose proof (ci_links _ _ _ HL _ _ Hl) as Hseg.
  destruct (concat_insert L (slot k) l [] Hl) as (r & E & _). pose proof (ci_nodup _ _ _ HL) as Hnd. rewrite E in Hnd.
  apply NoDup_app in Hnd as (? & _ & _). split_and!; [done|done| |].
  - intros Hn. apply (ci_null _ _ _ HL). by eapply elem_concat.
  - intros x Hx. destruct (dseg_elem _ _ _ _ _ Hseg Hx) as [v Hv]. destruct (links_inode s x v Hv) as (i & -> & _). done.
Qed.

(** The search returns the cached inode or NULL. *)
Lemma wp_cache_find s L C sb b n (Q : Z → fstate H → Prop) :
  cache_inv s L C → supers s !! sb = Some b → sb ≠ 0 →
  Q (from_option fst NULL (C !! (n, dev b))) s → wp (cache_find (hash_inode n (dev b)) sb n) s Q.
Proof.
  intros HL Hsb Hsb0 HQ. set (k := (n, dev b)) in *. destruct (slot_lookup s L C k HL) as [l Hl].
  unfold cache_find. apply wp_bind, (wp_rd_bucket _ (first_of NULL l)); [exact (bucket_head _ _ _ (slot k) _ HL Hl)|].
  apply wp_bind, wp_get. destruct (bucket_list s L C k l HL Hl) as (Hseg & Hnd & H0 & Hdom).
  eapply (wp_loop (λ r cur s', s' = s ∧ ∃ l1 l2, l = l1 ++ l2 ∧ cur = first_of NULL l2 ∧ r = length l2 ∧
    ∀ x c, C !! k = Some (x, c) → x ∈ l2)).
  - intros r cur s' (-> & l1 & l2 & El & -> & -> & Hin). unfold find_round. destruct l2 as [|x l2]; simpl first_of.
    { simpl. apply wp_ret. destruct (C !! k) as [[x c]|] eqn:E; [|done]. by destruct (not_elem_of_nil x (Hin x c eq_refl)). }
    assert (x ∈ l) as Hx. { rewrite El. apply elem_of_app. right. left. }
    destruct (Z.eqb_spec x NULL) as [->|Hx0]; [done|].
    destruct (ci_entry _ _ _ HL _ _ _ Hl Hx) as (k' & c' & He & Hk' & _).
    apply wp_bind, (wp_cache_match s x k' c' sb b n); [done..|]. fold k. case_bool_decide as Hkk.
    { subst k'. apply wp_ret. by rewrite Hk' in HQ. }
    destruct (Hdom x Hx) as [i Hi]. apply wp_bind, (wp_rd_inode _ i); [done..|]. apply wp_ret.
    exists (length l2). split; [simpl; lia|]. split; [done|]. exists (l1 ++ [x]), l2. rewrite <-(assoc_L (++)).
    split_and!; [done| |done|].
    + rewrite El in Hseg. apply dseg_app in Hseg as [_ [Hx' _]]. unfold links in Hx'. rewrite lookup_fmap, Hi in Hx'.
      by injection Hx'.
    + intros y c Hy. specialize (Hin y c Hy). apply elem_of_cons in Hin as [->|?]; [|done]. destruct Hkk.
      exact (proj1 (entry_key _ _ _ _ _ _ He (proj1 (ci_cached _ _ _ HL _ _ _ Hy)))).
  - split; [done|]. exists [], l. split_and!; [done..|]. intros x c Hx.
    destruct (ci_cached _ _ _ HL _ _ _ Hx) as (_ & l2 & Hl2 & ?). rewrite Hl in Hl2. by injection Hl2 as ->.
  - pose proof (NoDup_keys_size (inodes s) l Hnd Hdom). lia.
Qed.

(** Changes away from the cached inodes do not matter. *)
Lemma inv_frame s s' L C :
  cache_inv s L C → (∀ x, x ∈ concat L → inodes s' !! x = inodes s !! x) →
  buckets s' = buckets s → supers s' = supers s → cache_inv s' L C.
Proof.
  intros HL Hin Hbk Hsup.
  assert (∀ x k n, x ∈ concat L → entry s x k n → entry s' x k n) as Hent.
  { intros x k n Hx (p & b & E & ? & ? & ?). exists p, b. rewrite Hsup. split; [|done].
    unfold idents in *. by rewrite lookup_fmap, Hin, <-lookup_fmap. }
  destruct HL as [Hlen Hhd Hlk Hnd H0 He Hc]. split; try done.
  - by rewrite Hbk.
  - intros b l Hl. eapply dseg_ext; [|by apply (Hlk b)]. intros x Hx. unfold links.
    rewrite !lookup_fmap, Hin; [done|by eapply elem_concat].
  - intros b l x Hl Hx. destruct (He b l x Hl Hx) as (k & n & ? & ? & ?). exists k, n. split; [|done].
    apply Hent; [by eapply elem_concat|done].
  - intros k x n Hk. destruct (Hc k x n Hk) as (? & l & Hl & Hx). split; [|by exists l].
    apply Hent; [by eapply elem_concat|done].
Qed.

Lemma cached_some s L C x : cache_inv s L C → x ∈ concat L → is_Some (inodes s !! x).
Proof.
  intros HL Hx. apply list_elem_of_In, in_concat in Hx as (l & Hl & Hx).
  apply list_elem_of_In, list_elem_of_lookup in Hl as [b Hl]. apply list_elem_of_In in Hx.
  destruct (ci_entry _ _ _ HL _ _ _ Hl Hx) as (k & n & (p & sb & E & _) & _).
  unfold idents in E. rewrite lookup_fmap, fmap_Some in E. destruct E as (i & -> & _). done.
Qed.

(** ** What the cache asks of a file system *)

Definition same_cache s s' : Prop :=
  supers s' = supers s ∧ buckets s' = buckets s ∧ cache_lock s' = cache_lock s ∧ rd_parts s' = rd_parts s.

(** Everything but the contents of the inodes and the cache itself. *)
Definition same_store s s' : Prop :=
  dom (inodes s') = dom (inodes s) ∧ supers s' = supers s ∧ rd_hdrs s' = rd_hdrs s ∧
  rd_parts s' = rd_parts s ∧ fmem s' = fmem s ∧ fheap s' = fheap s.

(** The operations [o] of the file system with superblock [sb].  [sl_inv s ps]:
    the file system is in order and the inodes [ps] are its own.
    [sl_serves s n]: inode [n] exists and there is memory for it;
    [sl_readable s n]: inode [n] exists; [sl_content s n md op]: its mode is
    [md] and its operations are [op]. *)
Class SuperLaws (sb : Z) (o : super_operations H) := {
  sl_inv : fstate H → list Z → Prop;
  sl_serves : fstate H → Z → Prop;
  sl_readable : fstate H → Z → Prop;
  sl_content : fstate H → Z → Z → Z → Prop;
  sl_alloc : ∃ f, alloc_inode o = Some f ∧ ∀ s ps n, sl_inv s ps → sl_serves s n →
    wp (f sb) s (λ a s', a ≠ 0 ∧ inodes s !! a = None ∧
      inodes s' = <[a := set_sb sb zero_inode]> (inodes s) ∧
      same_cache s s' ∧ sl_inv s' (a :: ps) ∧ sl_readable s' n);
  sl_read : ∃ f, read_inode o = Some f ∧ ∀ s ps a i, sl_inv s ps → a ∈ ps →
    inodes s !! a = Some i → i_sb i = sb → sl_readable s (ino i) →
    wp (f sb a) s (λ rv s', rv = 0 ∧
      (∃ md op, inodes s' = <[a := set_mode md (set_ops op i)]> (inodes s) ∧ sl_content s' (ino i) md op) ∧
      same_cache s s' ∧ sl_inv s' ps);
  sl_dealloc : ∃ f, dealloc_inode o = Some f ∧ ∀ s ps a, sl_inv s (a :: ps) →
    wp (f a) s (λ _ s', inodes s' = delete a (inodes s) ∧ same_cache s s' ∧ sl_inv s' ps);
  sl_store s s' ps : same_store s s' → sl_inv s ps → sl_inv s' ps;
  sl_serves_store s s' n : same_store s s' → sl_serves s n → sl_serves s' n;
  sl_readable_store s s' n : same_store s s' → sl_readable s n → sl_readable s' n;
  sl_content_store s s' n md op : same_store s s' → sl_content s n md op → sl_content s' n md op;
  sl_perm s ps ps' : ps ≡ₚ ps' → sl_inv s ps → sl_inv s ps'
}.

Lemma idents_dom s : dom (idents s) = dom (inodes s).
Proof. apply dom_fmap_L. Qed.

Lemma relinked_store X s s' : relinked X s s' → same_store s s'.
Proof. intros []. split; [by rewrite <-!idents_dom; f_equal|done]. Qed.

Lemma same_store_inode s a f i : inodes s !! a = Some i → same_store s (upd_inodes <[a := f i]> s).
Proof.
  intros Ha. split; [|done]. simpl. apply dom_insert_lookup_L. eauto.
Qed.

Lemma same_store_lock s v : same_store s (upd_cache_lock v s).
Proof. done. Qed.
End Spec.

#[local] Opaque hash_inode.

Section Theorems.
Context {H : Type} {BC : BuildConfig}.
Variable sops : Z → option (super_operations H).
(** The superblock and its operations. *)
Variables (sb : Z) (b : super_block) (o : super_operations H).
Hypothesis Hsb0 : sb ≠ 0.
Hypothesis Hops0 : s_ops b ≠ 0.
Hypothesis Hops : sops (s_ops b) = Some o.
Context `{!SuperLaws sb o}.
Implicit Types s : fstate H.

Lemma wp_sb_ops s (Q : option (super_operations H) → fstate H → Prop) :
  supers s !! sb = Some b → Q (Some o) s → wp (sb_ops sops sb) s Q.
Proof.
  intros Hs HQ. unfold sb_ops. apply wp_bind, (wp_rd_super _ b); [done..|].
  destruct (Z.eqb_spec (s_ops b) NULL); [done|]. by rewrite Hops.
Qed.

Lemma wp_HASOP {A} s (op : super_operations H → option A) f (Q : bool → fstate H → Prop) :
  supers s !! sb = Some b → op o = Some f → Q true s → wp (HASOP sops sb op) s Q.
Proof.
  intros Hs Hf HQ. unfold HASOP. apply wp_bind, wp_sb_ops; [done|]. simpl. rewrite Hf. by apply wp_ret.
Qed.

Lemma wp_dbg_hasop {A} s (op : super_operations H → option A) f (Q : unit → fstate H → Prop) :
  supers s !! sb = Some b → op o = Some f → Q tt s → wp (dbg_hasop sops sb op) s Q.
Proof.
  intros Hs Hf HQ. unfold dbg_hasop. destruct DEBUG; [|by apply wp_ret].
  apply wp_bind, (wp_HASOP s op f); [done..|]. by apply wp_kassert.
Qed.

Lemma wp_callee {A} s (op : super_operations H → option A) f (Q : A → fstate H → Prop) :
  supers s !! sb = Some b → op o = Some f → Q f s → wp (callee sops sb op) s Q.
Proof.
  intros Hs Hf HQ. unfold callee. apply wp_bind, wp_sb_ops; [done|]. simpl. rewrite Hf. by apply wp_ret.
Qed.

(** A new inode is put at the front of its list, not yet referenced. *)
Lemma wp_link_new s L C n a i (Q : Z → fstate H → Prop) :
  cache_inv s L C → supers s !! sb = Some b → C !! (n, dev b) = None →
  inodes s !! a = Some i → a ≠ 0 → a ∉ concat L → ino i = n → rc i = 0 → i_sb i = sb →
  (∀ L' s', cache_inv s' L' (<[(n, dev b) := (a, 0)]> C) → relinked (a :: concat L) s s' → Q a s') →
  wp ((if DEBUG then i ← rd_inode a; kassert (rc i =? 0) else mret tt);;
      hlist_add (hash_inode n (dev b)) a;; mret a) s Q.
Proof.
  intros HL Hsb Hk Ha Ha0 HaL Hn Hrc Hisb HQ. set (k := (n, dev b)) in *.
  destruct (slot_lookup s L C k HL) as [l Hl]. destruct (bucket_list s L C k l HL Hl) as (Hseg & Hnd & H0 & _).
  assert (a ∉ l) as Hal. { intros Hx. apply HaL. by eapply elem_concat. }
  eapply (wp_seq _ _ _ (λ _ s', s' = s)).
  { destruct DEBUG; [|by apply wp_ret]. apply wp_bind, (wp_rd_inode _ i); [done..|]. apply wp_kassert; [by rewrite Hrc|done]. }
  intros _ ? ->.
  apply wp_bind, (wp_hlist_add s _ l a i); [done|done|done|exact (bucket_head _ _ _ (slot k) _ HL Hl)|done..|].
  intros s' R B S. apply wp_ret. apply (HQ (<[slot k := a :: l]> L)).
  - eapply (inv_add s); try done.
    + exists sb, b. rewrite (rl_supers _ _ _ R), (rl_idents _ _ _ R). split; [|done].
      unfold idents. rewrite lookup_fmap, Ha. simpl. by rewrite Hn, Hrc, Hisb.
    + by rewrite (rl_supers _ _ _ R).
    + intros x _. by rewrite (rl_idents _ _ _ R).
    + intros x Hx Hxl. eapply relinked_links; [exact R|]. rewrite not_elem_of_cons. split; [|done]. by intros ->.
  - destruct R as [? ? ? ? ? ? ? ? Hin]. split; try done. intros x Hx. apply Hin. rewrite not_elem_of_cons in *.
    destruct Hx as [? Hx]. split; [done|]. intros Hxl. apply Hx. by eapply elem_concat.
Qed.

(** The inode is allocated, read and put into the cache. *)
Lemma wp_cache_fill s L C ps n (Q : Z → fstate H → Prop) :
  cache_inv s L C → supers s !! sb = Some b → C !! (n, dev b) = None → sl_inv s ps → sl_serves s n →
  (∀ a L' s', a ≠ 0 → inodes s !! a = None → cache_inv s' L' (<[(n, dev b) := (a, 0)]> C) →
     supers s' = supers s → cache_lock s' = cache_lock s → rd_parts s' = rd_parts s → sl_inv s' (a :: ps) →
     (∃ i, inodes s' !! a = Some i ∧ sl_content s' n (mode i) (i_ops i)) →
     (∀ x, x ∉ concat L → x ≠ a → inodes s' !! x = inodes s !! x) → Q a s') →
  wp (cache_fill sops (hash_inode n (dev b)) sb n) s Q.
Proof.
  intros HL Hsb Hk Hfs Hsv HQ. unfold cache_fill.
  destruct sl_alloc as (fa & Hfa & Hwa), sl_read as (fr & Hfr & Hwr).
  apply wp_bind, (wp_dbg_hasop s _ fa); [done..|]. apply wp_bind, (wp_callee s _ fa); [done..|].
  eapply wp_seq; [by eapply Hwa|]. intros a s1 (Ha0 & Ha & Hin1 & (Hs1 & Hb1 & Hl1 & Hr1) & Hfs1 & Hrd1). simpl.
  apply wp_bind, wp_kassert; [by destruct (Z.eqb_spec a NULL)|].
  apply wp_bind, (wp_wr_inode _ _ (set_sb sb zero_inode)); [by rewrite Hin1, lookup_insert_eq|done|].
  set (s2 := upd_inodes _ s1). set (i2 := set_ino n (set_sb sb zero_inode)).
  assert (same_store s1 s2) as Hst2 by (apply (same_store_inode s1 a (set_ino n)); by rewrite Hin1, lookup_insert_eq).
  assert (inodes s2 !! a = Some i2) as Hi2 by apply lookup_insert_eq.
  assert (supers s2 = supers s ∧ buckets s2 = buckets s ∧ cache_lock s2 = cache_lock s) as (Hs2 & Hb2 & Hl2) by done.
  apply wp_bind, (wp_HASOP s2 _ fr); [by rewrite Hs2|done|]. apply wp_bind, wp_kassert; [done|].
  apply wp_bind, (wp_callee s2 _ fr); [by rewrite Hs2|done|].
  eapply wp_seq; [apply (Hwr s2 (a :: ps) a i2); [by eapply sl_store|left|done|done|by eapply sl_readable_store]|].
  intros rv s3 (-> & (md & op & Hin3 & Hct) & (Hs3 & Hb3 & Hl3 & Hr3) & Hfs3). change (negb (0 =? 0)) with false. cbv iota.
  set (i3 := set_mode md (set_ops op i2)) in *.
  assert (inodes s3 = <[a := i3]> (inodes s)) as Hin.
  { rewrite Hin3. unfold s2. simpl. by rewrite Hin1, !insert_insert_eq. }
  assert (a ∉ concat L) as HaL. { intros Hx. destruct (cached_some s L C a HL Hx) as [? ?]. congruence. }
  apply (wp_link_new s3 L C n a i3); try done.
  - eapply (inv_frame s); [done| |congruence..]. intros x Hx. rewrite Hin. apply lookup_insert_ne. by intros ->.
  - by rewrite Hs3, Hs2.
  - by rewrite Hin, lookup_insert_eq.
  - intros L' s' HL' R. apply (HQ a L'); try done.
    + rewrite (rl_supers _ _ _ R). congruence.
    + rewrite (rl_lock _ _ _ R). congruence.
    + rewrite (rl_parts _ _ _ R), Hr3. exact Hr1.
    + eapply sl_store; [by eapply relinked_store|done].
    + assert (kinds s' !! a = Some (md, op)) as Hkd.
      { rewrite (rl_kinds _ _ _ R). unfold kinds. by rewrite lookup_fmap, Hin, lookup_insert_eq. }
      unfold kinds in Hkd. rewrite lookup_fmap, fmap_Some in Hkd. destruct Hkd as (i & Hi & [= -> ->]).
      exists i. split; [done|]. eapply sl_content_store; [by eapply relinked_store|done].
    + intros x Hx Hxa. rewrite (rl_inodes _ _ _ R), Hin; [by apply lookup_insert_ne|]. by rewrite not_elem_of_cons.
Qed.

Lemma idents_set_rc s a i v :
  idents (upd_inodes <[a := set_rc v i]> s) = <[a := (ino i, v, i_sb i)]> (idents s).
Proof. unfold idents. simpl. by rewrite fmap_insert. Qed.

Lemma links_set_rc s a i v :
  inodes s !! a = Some i → links (upd_inodes <[a := set_rc v i]> s) = links s.
Proof.
  intros Ha. rewrite links_insert. simpl. apply insert_id. unfold links. by rewrite lookup_fmap, Ha.
Qed.

Lemma entry_inode s a k n :
  entry s a k n → ∃ i b', inodes s !! a = Some i ∧ ino i = k.1 ∧ rc i = n ∧ i_sb i ≠ 0 ∧
    supers s !! i_sb i = Some b' ∧ dev b' = k.2 ∧ idents s !! a = Some (k.1, n, i_sb i).
Proof.
  intros (p & b' & E & ? & ? & ?). pose proof E as E'. unfold idents in E'. rewrite lookup_fmap, fmap_Some in E'.
  destruct E' as (i & Hi & [= ? -> ->]). exists i, b'. split_and!; auto.
Qed.

(** The count of a cached inode changes. *)
Lemma wp_set_count s L C k a n f (Q : unit → fstate H → Prop) :
  cache_inv s L C → C !! k = Some (a, n) →
  (∀ i, inodes s !! a = Some i → ∀ s', s' = upd_inodes <[a := set_rc (f i) i]> s →
     cache_inv s' L (<[k := (a, f i)]> C) → same_store s s' → Q tt s') →
  wp (wr_inode a (λ i, set_rc (f i) i)) s Q.
Proof.
  intros HL Hk HQ. destruct (cached_entry _ _ _ _ _ _ HL Hk) as (He & _ & Ha0).
  destruct (entry_inode _ _ _ _ He) as (i & b' & Hi & Hn & Hrc & _ & _ & _ & Hid).
  apply (wp_wr_inode _ _ i); [done..|]. eapply HQ; [done|done| |].
  - eapply (inv_count s); try done.
    + by apply links_set_rc.
    + by rewrite idents_set_rc, Hn.
  - by apply (same_store_inode s a (λ i, set_rc (f i) i)).
Qed.

(** Inodes outside the cache, apart from [a], stay as they are. *)
Definition uncached_same (C : gmap (Z * Z) (Z * Z)) (a : Z) s s' : Prop :=
  ∀ x, (∀ k c, C !! k ≠ Some (x, c)) → x ≠ a → inodes s' !! x = inodes s !! x.

Lemma concat_cached s L C x : cache_inv s L C → x ∈ concat L → ∃ k c, C !! k = Some (x, c).
Proof.
  intros HL Hx. apply list_elem_of_In, in_concat in Hx as (l & Hl & Hx).
  apply list_elem_of_In, list_elem_of_lookup in Hl as [b' Hl]. apply list_elem_of_In in Hx.
  destruct (ci_entry _ _ _ HL _ _ _ Hl Hx) as (k & n & _ & ? & _). eauto.
Qed.

Lemma repr_insert s (L : list (list Z)) (C : gmap (Z * Z) (Z * Z)) k a n :
  cache_inv s L (<[k := (a, n)]> C) → (∀ k a n, C !! k = Some (a, n) → 1 ≤ n < 2 ^ 32) → 1 ≤ n < 2 ^ 32 →
  cache_repr s (<[k := (a, n)]> C).
Proof.
  intros HL Hc Hn. split; [by exists L|]. intros k' a' n' [[_ [= _ <-]]|[_ Hk]]%lookup_insert_Some; eauto.
Qed.

Lemma wp_mutex_lock s (Q : unit → fstate H → Prop) :
  cache_lock s = 0 → Q tt (upd_cache_lock 1 s) → wp mutex_lock s Q.
Proof. intros Hl HQ. unfold mutex_lock. apply wp_bind, wp_get. by rewrite Hl. Qed.

Lemma wp_inode_get s C ps n :
  cache_repr s C → cache_lock s = 0 → supers s !! sb = Some b → sl_inv s ps →
  (C !! (n, dev b) = None → sl_serves s n) →
  (∀ a c, C !! (n, dev b) = Some (a, c) → c + 1 < 2 ^ 32) →
  wp (inode_get sops sb n) s (λ a s',
    cache_lock s' = 0 ∧ supers s' = supers s ∧ rd_parts s' = rd_parts s ∧ uncached_same C a s s' ∧
    match C !! (n, dev b) with
    | Some (a0, c) => a = a0 ∧ cache_repr s' (<[(n, dev b) := (a, c + 1)]> C) ∧ sl_inv s' ps
    | None => a ≠ NULL ∧ inodes s !! a = None ∧ cache_repr s' (<[(n, dev b) := (a, 1)]> C) ∧ sl_inv s' (a :: ps) ∧
        ∃ i, inodes s' !! a = Some i ∧ sl_content s' n (mode i) (i_ops i)
    end).
Proof.
  intros [[L HL] Hcnt] Hlk Hsb Hfs Hsv Hmax. unfold inode_get. apply wp_bind, (wp_rd_super _ b); [done..|].
  apply wp_bind, wp_mutex_lock; [done|]. set (s1 := upd_cache_lock 1 s).
  assert (cache_inv s1 L C) as HL1 by (by eapply inv_frame).
  apply wp_bind, (wp_cache_find s1 L C); [done..|]. destruct (C !! (n, dev b)) as [[a c]|] eqn:Hk; simpl from_option.
  - destruct (cached_entry _ _ _ _ _ _ HL Hk) as (He & HaL & Ha0). destruct (Z.eqb_spec a NULL) as [|_]; [done|].
    apply wp_bind, wp_ret. apply wp_bind. eapply (wp_set_count s1 L C); [done..|]. intros i Hi s2 Es2 HL2 Hst.
    apply wp_bind, wp_modify, wp_ret. destruct (entry_inode _ _ _ _ He) as (i' & _ & Hi' & _ & Hrc & _).
    change (inodes s1) with (inodes s) in Hi. rewrite Hi' in Hi. injection Hi as <-. pose proof (Hcnt _ _ _ Hk). specialize (Hmax a c eq_refl).
    rewrite Hrc, (uwrap_id 32 (c + 1)) in HL2 by (unfold in_u; lia). split_and!; [done|by subst s2|by subst s2| |done| |].
    + intros x _ Hx. subst s2. by apply lookup_insert_ne.
    + eapply repr_insert; [eapply inv_frame; [exact HL2|done..]|done|lia].
    + eapply (sl_store s1); [exact Hst|]. eapply (sl_store s); done.
  - change (0 =? NULL) with true. cbv iota.
    apply wp_bind, (wp_cache_fill s1 L C ps n); [done|done|done|by eapply (sl_store s)|by eapply (sl_serves_store s); auto|].
    intros a L' s2 Ha0 Ha HL2 Hs2 Hl2 Hp2 Hfs2 (i2 & Hi2 & Hct) Hfr. apply wp_bind.
    eapply (wp_set_count s2); [exact HL2|apply lookup_insert_eq|]. intros i Hi s3 Es3 HL3 Hst.
    destruct (cached_entry _ _ _ _ _ _ HL2 (lookup_insert_eq _ _ _)) as (He & _ & _).
    destruct (entry_inode _ _ _ _ He) as (i' & _ & Hi' & _ & Hrc & _). rewrite Hi' in Hi. injection Hi as <-.
    rewrite Hrc, insert_insert_eq in HL3. change (u32 (0 + 1)) with 1 in HL3.
    apply wp_bind, wp_modify, wp_ret. split_and!; [done|by subst s3|by subst s3| |done|done| | |].
    + intros x Hx Hxa. subst s3. simpl. rewrite lookup_insert_ne by done. apply Hfr; [|done].
      intros (k & c & Hkc)%(concat_cached s1 L C); [by eapply Hx|done].
    + eapply repr_insert; [eapply inv_frame; [exact HL3|done..]|done|lia].
    + eapply (sl_store s2); [exact Hst|done].
    + rewrite Hi2 in Hi'. injection Hi' as <-. eexists. split; [subst s3; apply lookup_insert_eq|].
      simpl. eapply (sl_content_store s2); [exact Hst|done].
Qed.

(** C32: inode_get returns the inode with this number on this device, provided
    the cache has it with fewer than 2^32 - 1 references or else the file
    system has an inode of that number and the memory for it.  When the cache
    has it, it is that inode with one more reference and the cache is
    otherwise unchanged; when it does not, a new inode, at an address that
    held none, is read and enters the cache with one reference.  The lock is
    free again and inodes outside the cache are unchanged.  A number that the
    file system does not have is not covered: the read then fails and NULL is
    referenced with the lock held (inode_get_missing_faults). *)
Theorem inode_get_correct s C ps n :
  cache_repr s C → cache_lock s = 0 → supers s !! sb = Some b → sl_inv s ps →
  (C !! (n, dev b) = None → sl_serves s n) →
  (∀ a c, C !! (n, dev b) = Some (a, c) → c + 1 < 2 ^ 32) →
  wp (inode_get sops sb n) s (λ a s',
    cache_lock s' = 0 ∧ supers s' = supers s ∧ rd_parts s' = rd_parts s ∧ uncached_same C a s s' ∧
    match C !! (n, dev b) with
    | Some (a0, c) => a = a0 ∧ cache_repr s' (<[(n, dev b) := (a, c + 1)]> C) ∧ sl_inv s' ps
    | None => a ≠ NULL ∧ inodes s !! a = None ∧ cache_repr s' (<[(n, dev b) := (a, 1)]> C) ∧ sl_inv s' (a :: ps) ∧
        ∃ i, inodes s' !! a = Some i ∧ sl_content s' n (mode i) (i_ops i)
    end).
Proof. apply wp_inode_get. Qed.

(** The last reference is gone: the inode leaves its list and its file system
    takes it back. *)
Lemma wp_drop_inode s L C ps k a (Q : unit → fstate H → Prop) :
  cache_inv s L C → supers s !! sb = Some b → sl_inv s (a :: ps) → C !! k = Some (a, 0) →
  (∀ L' s', cache_inv s' L' (delete k C) → inodes s' !! a = None → supers s' = supers s → cache_lock s' = cache_lock s →
     sl_inv s' ps → (∀ x, x ∉ concat L → inodes s' !! x = inodes s !! x) → Q tt s') →
  wp (hlist_remove (hash_inode k.1 k.2) a;;
      dbg_hasop sops sb dealloc_inode;;
      dealloc ← callee sops sb dealloc_inode; dealloc a) s Q.
Proof.
  intros HL Hsb Hfs Hk HQ. destruct (ci_cached _ _ _ HL _ _ _ Hk) as (_ & l & Hl & Hal).
  apply list_elem_of_split in Hal as (l1 & l2 & ->).
  destruct (bucket_list s L _ k _ HL Hl) as (Hseg & Hnd & H0 & _). apply wp_bind.
  apply (wp_hlist_remove s _ l1 a l2); [done|done|done|exact (bucket_head _ _ _ (slot k) _ HL Hl)|].
  intros s3 R3 B3 S3. destruct sl_dealloc as (fd & Hfd & Hwd).
  assert (supers s3 = supers s) as Hs3 by (by rewrite (rl_supers _ _ _ R3)).
  apply wp_bind, (wp_dbg_hasop s3 _ fd); [by rewrite Hs3|done|].
  apply wp_bind, (wp_callee s3 _ fd); [by rewrite Hs3|done|].
  eapply wp_mono; [apply (Hwd s3 ps); eapply sl_store; [by eapply relinked_store|done]|].
  intros [] s4 (Hin4 & (Hs4 & Hb4 & Hl4 & _) & Hfs4).
  assert (∀ x, x ∈ l1 ++ l2 → x ∈ concat L) as Hsub.
  { intros x Hx. eapply elem_concat; [exact Hl|]. rewrite elem_of_app, elem_of_cons in *. tauto. }
  assert (a ∉ l1 ++ l2) as Ha.
  { apply NoDup_app in Hnd as (_ & Hd & [? _]%NoDup_cons). rewrite not_elem_of_app. split; [|done]. intros Hx. apply (Hd a Hx). left. }
  apply (HQ (<[slot k := l1 ++ l2]> L)); [|by rewrite Hin4, lookup_delete_eq|congruence| |done|].
  - eapply (inv_remove s); [exact HL|exact Hl|exact Hk|congruence|by rewrite Hb4| | |].
    + eapply dseg_ext; [|exact S3]. intros x Hx. unfold links. rewrite Hin4, !lookup_fmap, lookup_delete_ne; [done|]. by intros ->.
    + intros x _ Hxa. rewrite <-(rl_idents _ _ _ R3). unfold idents. by rewrite Hin4, !lookup_fmap, lookup_delete_ne.
    + intros x _ Hx. assert (x ∉ l1 ++ l2 ∧ x ≠ a) as [Hx1 Hx2] by (rewrite elem_of_app, elem_of_cons in *; tauto).
      rewrite <-(relinked_links _ _ _ _ R3 Hx1). unfold links. by rewrite Hin4, !lookup_fmap, lookup_delete_ne.
  - rewrite Hl4. apply R3.
  - intros x Hx. rewrite Hin4, lookup_delete_ne, (rl_inodes _ _ _ R3); [done| |].
    + intros ?%Hsub. done.
    + intros ->. apply Hx. eapply elem_concat; [exact Hl|]. apply elem_of_app. right. left.
Qed.

(** inode_put of a cached inode takes one reference back.  With the last
    one the inode leaves the cache and is given back to its file system, and
    no inode is left at its address; before that only the count changes. *)
Theorem inode_put_correct s C ps k a c i :
  cache_repr s C → cache_lock s = 0 → supers s !! sb = Some b → sl_inv s ps → a ∈ ps →
  C !! k = Some (a, c) → inodes s !! a = Some i → i_sb i = sb →
  wp (inode_put sops a) s (λ _ s',
    cache_lock s' = 0 ∧ supers s' = supers s ∧ uncached_same C a s s' ∧
    if decide (c = 1)
    then cache_repr s' (delete k C) ∧ inodes s' !! a = None ∧ ∃ ps', ps ≡ₚ a :: ps' ∧ sl_inv s' ps'
    else cache_repr s' (<[k := (a, c - 1)]> C) ∧ sl_inv s' ps).
Proof.
  intros [[L HL] Hcnt] Hlk Hsb Hfs Hps Hk Hi Hisb. destruct (cached_entry _ _ _ _ _ _ HL Hk) as (He & HaL & Ha0).
  destruct (entry_inode _ _ _ _ He) as (i' & b' & Hi' & Hn & Hrc & _ & Hb' & Hdev & _).
  rewrite Hi' in Hi. injection Hi as ->. rewrite Hisb, Hsb in Hb'. injection Hb' as <-.
  unfold inode_put. apply wp_bind, (wp_rd_inode _ i); [done..|]. rewrite Hisb. apply wp_bind, (wp_rd_super _ b); [done..|].
  rewrite Hn, Hdev. apply wp_bind, wp_mutex_lock; [done|]. set (s1 := upd_cache_lock 1 s).
  assert (cache_inv s1 L C) as HL1 by (by eapply inv_frame).
  apply wp_bind. eapply (wp_set_count s1 L C); [done..|]. intros i0 Hi0 s2 Es2 HL2 Hst.
  change (inodes s1) with (inodes s) in Hi0. rewrite Hi' in Hi0. injection Hi0 as <-.
  pose proof (Hcnt _ _ _ Hk) as Hc. rewrite Hrc, (uwrap_id 32 (c - 1)) in HL2 by (unfold in_u; lia).
  rewrite Hrc, (uwrap_id 32 (c - 1)) in Es2 by (unfold in_u; lia).
  apply wp_bind, (wp_rd_inode _ (set_rc (c - 1) i)); [by rewrite Es2; apply lookup_insert_eq|done|].
  assert (sl_inv s2 ps) as Hfs2. { eapply (sl_store s1); [exact Hst|]. by eapply (sl_store s). }
  assert (supers s2 = supers s) as Hs2 by (by subst s2). simpl rc. simpl i_sb. rewrite Hisb.
  destruct (decide (c = 1)) as [->|Hc1].
  - change (1 - 1 =? 0) with true. cbv iota. change (1 - 1) with 0 in *. apply elem_of_Permutation in Hps as [ps' Hps].
    apply wp_bind, (wp_drop_inode s2 L (<[k := (a, 0)]> C) ps' k a);
      [done|by rewrite Hs2|by eapply sl_perm|apply lookup_insert_eq|].
    intros L' s3 HL3 Ha3 Hs3 Hl3 Hfs3 Hfr. rewrite delete_insert_eq in HL3. apply wp_modify.
    split_and!; [done|simpl; congruence| | |done|exists ps'; split; [done|by eapply (sl_store s3)]].
    + intros x Hx Hxa. simpl. rewrite Hfr; [subst s2; by apply lookup_insert_ne|].
      intros (k' & c' & ?)%(concat_cached s L C); [by eapply Hx|done].
    + split; [exists L'; eapply inv_frame; [exact HL3|done..]|]. intros k' a' n' [_ ?]%lookup_delete_Some. eauto.
  - destruct (Z.eqb_spec (c - 1) 0) as [|_]; [lia|]. apply wp_bind, wp_ret, wp_modify.
    split_and!; [done|done| | |by eapply (sl_store s2)].
    + intros x _ Hx. subst s2. by apply lookup_insert_ne.
    + eapply repr_insert; [eapply inv_frame; [exact HL2|done..]|done|lia].
Qed.
End Theorems.
