(* ===== verification/Initrd.v ===== *)
(** * The boot archive and the mount point

    kernel/fs/initrd/{ustar,super,dir,file}.c, include/fs/initrd.h and
    kernel/fs/vfs.c.  The archive is bytes in memory; a [struct initrd_inode]
    is its inode, eight bytes into the object, and the header pointer in
    front; a [struct initrd_fs] begins with its superblock.  Objects enter the
    tables of the state when they are allocated and cleared, and leave them
    when they are freed. *)

From stdpp Require Import base list gmap.
From Stdlib Require Import ZArith Lia.
From S2P Require Import Prelude Addr Strings Heap InodeCache.
Local Open Scope Z_scope.

(** ** The tar format *)

Definition USTAR_BLOCK : Z := 512.

(** Offsets in a [struct ustar_header]; the file name is first. *)
Definition hdr_size (h : Z) : Z := u64 (h + 124).
Definition hdr_type (h : Z) : Z := u64 (h + 156).

Fixpoint oct_from (rounds : nat) (n c : Z) : B Z :=
  match rounds with
  | O => mret n
  | S rounds => d ← ld c; oct_from rounds (u32 (u32 (n * 8) + (d - 48))) (c + 1)
  end.

Definition ustar_oct_to_bin (str len : Z) : B Z := oct_from (Z.to_nat len) 0 str.

Fixpoint nth_from (rounds : nat) (cur : Z) : B Z :=
  match rounds with
  | O => mret cur
  | S rounds =>
      c ← ld cur;
      if c =? 0 then mret NULL
      else
        size ← ustar_oct_to_bin (hdr_size cur) (12 - 1);
        nth_from rounds (ALIGNUP (u64 (cur + size)) USTAR_BLOCK)
  end.

Definition ustar_nth_from_entry (root_hdr n : Z) : B Z := nth_from (Z.to_nat n) root_hdr.

Definition ustar_file_start (hdr : Z) : Z := u64 (hdr + USTAR_BLOCK).

(** ** Errors of util/err_gen.py *)

Definition EINVAL : Z := -1.
Definition ENOTDIR : Z := -2.
Definition ENOTSUP : Z := -3.
Definition EBUSY : Z := -4.
Definition ENOENT : Z := -5.

Definition INITRD_ROOT_INO : Z := 1.

Definition SIZEOF_INODE : Z := 56.
Definition SIZEOF_INITRD_INODE : Z := 64.
Definition SIZEOF_INITRD_FS : Z := 40.

(** [container_of] for the inode of an [initrd_inode]; the superblock of an
    [initrd_fs] is at its start. *)
Definition initrd_inode_container (inode : Z) : Z := if inode =? NULL then NULL else u64 (inode - 8).
Definition initrd_sb_container (super : Z) : Z := super.

(** The addresses of the static objects. *)
Record fs_layout := mk_layout {
  initrd_inode_dir_ops : Z;
  initrd_inode_file_ops : Z;
  initrd_super_ops : Z;
  vfs_root : Z;
  slash : Z
}.

Section Initrd.
Context {H : Type} `{Heap H} {BC : BuildConfig}.
Variable lay : fs_layout.
Abbreviation F := (M (fstate H)).

Definition on_heap {A} (m : M H A) : F A := zoom fheap upd_fheap m.
Definition on_mem {A} (m : B A) : F A := zoom fmem upd_fmem m.

(** ** kernel/fs/initrd/super.c *)

Definition initrd_alloc_inode (super : Z) : F Z :=
  p ← on_heap (heap_alloc SIZEOF_INITRD_INODE);
  if p =? NULL then fault
  else
    let i := u64 (p + 8) in
    modify (upd_rd_hdrs <[p := 0]>);; modify (upd_inodes <[i := zero_inode]>);;
    wr_inode i (set_sb super);;
    mret i.

Definition initrd_dealloc_inode (inode : Z) : F unit :=
  let p := initrd_inode_container inode in
  if negb (p =? NULL) then
    on_heap (heap_free p);;
    modify (upd_rd_hdrs (delete p));; modify (upd_inodes (delete inode))
  else mret tt.

Definition mode_table : list Z := [I_REGULAR; 0; I_SYMLINK; 0; 0; I_DIRECTORY; 0].

Definition rd_part : Z → F initrd_part := deref rd_parts.

Definition initrd_read_inode (sb inode : Z) : F Z :=
  i ← rd_inode inode;
  if ino i <? INITRD_ROOT_INO then mret ENOENT
  else if ino i =? INITRD_ROOT_INO then
    wr_inode inode (set_ops (initrd_inode_dir_ops lay));;
    wr_inode inode (set_mode I_DIRECTORY);;
    wr_inode inode (set_sb sb);;
    mret 0
  else
    let fs := initrd_sb_container sb in
    kassert_dbg (i_sb i =? fs);;
    f ← rd_part fs;
    hdr ← on_mem (ustar_nth_from_entry (root_hdr f) (u32 (ino i - INITRD_ROOT_INO)));
    if hdr =? NULL then mret ENOENT
    else
      t ← on_mem (ld (hdr_type hdr));
      kassert_dbg ((48 <=? i8 t) && (i8 t <=? 54));;
      match (if i8 t <? 48 then None else mode_table !! Z.to_nat (i8 t - 48)) with
      | None => fault
      | Some md =>
          kassert (negb (md =? 0));;
          wr_inode inode (set_mode md);;
          wr_inode inode (set_ops (if md =? I_DIRECTORY then initrd_inode_dir_ops lay else initrd_inode_file_ops lay));;
          mret 0
      end.

Definition initrd_super_table : super_operations H :=
  {| alloc_inode := Some initrd_alloc_inode;
     read_inode := Some initrd_read_inode;
     dealloc_inode := Some initrd_dealloc_inode |}.

(** The tables of superblock operations in the kernel. *)
Definition super_tables (p : Z) : option (super_operations H) :=
  if p =? initrd_super_ops lay then Some initrd_super_table else None.

Definition initrd_get_super : F Z :=
  fs ← on_heap (heap_alloc SIZEOF_INITRD_FS);
  if fs =? NULL then fault
  else
    modify (upd_supers <[fs := mk_super 0 0 0]>);; modify (upd_rd_parts <[fs := mk_rd 0 0]>);;
    inode ← on_heap (heap_alloc SIZEOF_INODE);
    if inode =? NULL then fault
    else
      modify (upd_inodes <[inode := zero_inode]>);;
      wr_super fs (λ b, mk_super 1 (s_root b) (s_ops b));;
      wr_super fs (λ b, mk_super (dev b) inode (s_ops b));;
      wr_super fs (λ b, mk_super (dev b) (s_root b) (initrd_super_ops lay));;
      r ← inode_get super_tables fs INITRD_ROOT_INO;
      store rd_parts upd_rd_parts fs (λ f, mk_rd (root_hdr f) r);;
      mret fs.

(** ** kernel/fs/initrd/dir.c *)

(** One header is compared; [true] on a match. *)
Definition lookup_match (dir_name dir_len name len cur : Z) : F bool :=
  target_len ← on_mem (strlen cur);
  if (target_len <? dir_len) || (u64 (dir_len + len + 1) <? target_len) then mret false
  else
    c ← on_mem (memcmp dir_name cur dir_len);
    if c =? 0 then d ← on_mem (memcmp name (u64 (cur + dir_len)) len); mret (d =? 0)
    else mret false.

Definition lookup_round (dir_name dir_len name len cur : Z) : F (Z + bool) :=
  if cur =? NULL then mret (inr false)
  else
    m ← lookup_match dir_name dir_len name len cur;
    if m : bool then mret (inr true)
    else nx ← on_mem (ustar_nth_from_entry cur 1); mret (inl nx).

(** Returns the error and the value of [*out]; [fuel] bounds the headers
    that are visited. *)
Definition initrd_dir_lookup_inode (fuel : nat) (dir_inode name len out : Z) : F (Z * Z) :=
  (if DEBUG then
     kassert (negb (dir_inode =? NULL));;
     i ← rd_inode dir_inode; kassert (I_ISDIR i && negb (i_sb i =? NULL))
   else mret tt);;
  i ← rd_inode dir_inode;
  f ← rd_part (initrd_sb_container (i_sb i));
  dir_name ← (if dir_inode =? rd_root f then mret (slash lay)
              else deref rd_hdrs (initrd_inode_container dir_inode));
  dir_len ← on_mem (strlen dir_name);
  found ← loop fuel (lookup_round dir_name dir_len name len) (root_hdr f);
  if found : bool then mret (0, out) else mret (0, NULL).

(** ** kernel/fs/vfs.c *)

Abbreviation lookup_fn := (Z → Z → Z → Z → F (Z * Z)).

(** The tables of inode operations: [lookup] of the two file types. *)
Definition inode_tables (fuel : nat) (p : Z) : option (option lookup_fn) :=
  if p =? initrd_inode_dir_ops lay then Some (Some (initrd_dir_lookup_inode fuel))
  else if p =? initrd_inode_file_ops lay then Some None
  else None.

Definition vfs_mount (mount_point dev_ : Z) : F Z :=
  i ← rd_inode mount_point;
  if I_ISMNT i then mret EBUSY
  else
    sb ← (if dev_ =? 1 then initrd_get_super else panic);
    wr_inode mount_point (set_sb sb);;
    b ← rd_super sb;
    wr_inode mount_point (set_mounted (s_root b));;
    wr_inode mount_point (set_mode I_MOUNT);;
    mret 0.

Definition vfs_init : F unit :=
  wr_inode (vfs_root lay) (λ _, zero_inode);;
  e ← vfs_mount (vfs_root lay) 1;
  if negb (e =? 0) then panic else mret tt.

(** Returns the error and the value of [*result]. *)
Definition vfs_lookup (fuel : nat) (dir path len : Z) : F (Z * Z) :=
  i ← rd_inode dir;
  if negb (I_ISDIR i) then mret (ENOTDIR, NULL)
  else if i_ops i =? NULL then mret (ENOTSUP, NULL)
  else
    match inode_tables fuel (i_ops i) with
    | None => fault
    | Some None => mret (ENOTSUP, NULL)
    | Some (Some lookup) => lookup dir path len NULL
    end.
End Initrd.
