(* ===== verification/InitrdSpec.v ===== *)
(** * The boot archive and the mount point: specification

    The octal numbers of the archive, the file system as the inode cache
    needs it ([initrd_laws]), the root mount, the errors of the interface
    and the directory search. *)

From stdpp Require Import base list gmap fin_maps.
From Stdlib Require Import ZArith Lia Bool.
From S2P Require Import Prelude Addr Strings Heap InodeCache InodeCacheSpec Initrd.
Local Open Scope Z_scope.

(** ** Octal numbers *)

(** [n] in [w] octal digits, as characters, the most significant first. *)
Fixpoint octal (w : nat) (n : Z) : list Z :=
  match w with O => [] | S w => octal w (n / 8) ++ [48 + n mod 8] end.

Lemma length_octal w n : length (octal w n) = w.
Proof. revert n. induction w as [|w IH]; intros n; simpl; [done|]. rewrite length_app, IH. simpl. lia. Qed.

Lemma wp_oct_from m l c n (Q : Z → bmem → Prop) :
  bytes m c l → Q (u32 (fold_left (λ n d, n * 8 + (d - 48)) l n)) m →
  wp (oct_from (length l) (u32 n) c) m Q.
Proof.
  revert c n. induction l as [|d l IH]; intros c n Hb HQ; simpl.
  - by apply wp_ret.
  - apply bytes_cons in Hb as [Hd Hb]. apply wp_bind, (wp_ld _ d); [done|].
    replace (u32 (u32 (u32 n * 8) + (d - 48))) with (u32 (n * 8 + (d - 48))); [by apply IH|].
    unfold uwrap. rewrite Zmult_mod_idemp_l, Zplus_mod_idemp_l. done.
Qed.

Lemma fold_octal w n a : 0 ≤ n < 8 ^ Z.of_nat w →
  fold_left (λ n d, n * 8 + (d - 48)) (octal w n) a = a * 8 ^ Z.of_nat w + n.
Proof.
  revert n. induction w as [|w IH]; intros n Hn; [simpl in *; lia|].
  simpl octal. rewrite fold_left_app. rewrite Nat2Z.inj_succ, Z.pow_succ_r in * by lia. rewrite IH.
  - simpl. pose proof (Z.div_mod n 8 ltac:(lia)). lia.
  - split; [apply Z.div_pos; lia|]. apply Z.div_lt_upper_bound; lia.
Qed.

(** Ustar_oct_to_bin reads back the number whose octal digits an archive
    has; a number of more than 32 bits is truncated. *)
Theorem ustar_oct_roundtrip m a w n :
  0 ≤ n < 8 ^ Z.of_nat w → bytes m a (octal w n) →
  wp (ustar_oct_to_bin a (Z.of_nat w)) m (λ r m', m' = m ∧ r = n mod 2 ^ 32).
Proof.
  intros Hn Hb. unfold ustar_oct_to_bin. rewrite Nat2Z.id, <-(length_octal w n) at 1.
  apply (wp_oct_from m (octal w n) a 0); [done|]. rewrite fold_octal by done. done.
Qed.

(** ** The file system under the cache *)

Section Laws.
Context {H : Type} `{HeapLaws H} {BC : BuildConfig}.
Variable lay : fs_layout.
Variable sb : Z.
Implicit Types s : fstate H.

Definition inode_extent (a : Z) : extent := (a - 8, SIZEOF_INITRD_INODE).
Definition in_extent (x : Z) (e : extent) : Prop := e.1 ≤ x < e.1 + e.2.

(** The inodes [ps] are the extents of the heap that belong to the file
    system, [others] the remaining ones; an inode elsewhere lies in one of
    these or outside the heap. *)
Definition initrd_inv s (ps : list Z) : Prop :=
  ∃ others, heap_ok (fheap s) ((inode_extent <$> ps) ++ others) ∧
    Forall (λ a, 8 < a < 2 ^ 64) ps ∧
    ∀ x, x ∈ dom (inodes s) → x ∈ ps ∨ ¬ heap_region x ∨ ∃ e, e ∈ others ∧ in_extent x e.

(** The header of an inode and its type are readable. *)
Definition initrd_readable s (n : Z) : Prop :=
  n = INITRD_ROOT_INO ∨
  ∃ f h t md, INITRD_ROOT_INO < n ∧ sb ≠ 0 ∧ rd_parts s !! sb = Some f ∧
    ustar_nth_from_entry (root_hdr f) (u32 (n - INITRD_ROOT_INO)) (fmem s) = Ok (h, fmem s) ∧ h ≠ 0 ∧
    fmem s !! hdr_type h = Some t ∧ 48 ≤ t ∧ t < 128 ∧ mode_table !! Z.to_nat (t - 48) = Some md ∧ md ≠ 0.

(** The mode and the operations an inode is read with. *)
Definition initrd_content s (n md op : Z) : Prop :=
  if n =? INITRD_ROOT_INO then md = I_DIRECTORY ∧ op = initrd_inode_dir_ops lay
  else ∃ f h t, rd_parts s !! sb = Some f ∧
    ustar_nth_from_entry (root_hdr f) (u32 (n - INITRD_ROOT_INO)) (fmem s) = Ok (h, fmem s) ∧
    fmem s !! hdr_type h = Some t ∧ mode_table !! Z.to_nat (t - 48) = Some md ∧
    op = if md =? I_DIRECTORY then initrd_inode_dir_ops lay else initrd_inode_file_ops lay.

Definition initrd_serves s (n : Z) : Prop :=
  heap_serves (fheap s) [SIZEOF_INITRD_INODE] ∧ initrd_readable s n.

Lemma wp_on_heap {A} (m : M H A) s (Q : A → fstate H → Prop) :
  wp m (fheap s) (λ x h, Q x (upd_fheap h s)) → wp (on_heap m) s Q.
Proof. apply wp_zoom. Qed.

Lemma wp_on_mem {A} (m : B A) s (Q : A → fstate H → Prop) :
  wp m (fmem s) (λ x h, Q x (upd_fmem h s)) → wp (on_mem m) s Q.
Proof. apply wp_zoom. Qed.

Lemma upd_fmem_same s : upd_fmem (fmem s) s = s.
Proof. by destruct s. Qed.

Lemma initrd_alloc_ok s ps n :
  initrd_inv s ps → initrd_serves s n →
  wp (initrd_alloc_inode sb) s (λ a s', a ≠ 0 ∧ inodes s !! a = None ∧
    inodes s' = <[a := set_sb sb zero_inode]> (inodes s) ∧
    same_cache s s' ∧ initrd_inv s' (a :: ps) ∧ initrd_readable s' n).
Proof.
  intros (oth & Hok & Hps & Hdom) [Hsv Hrd]. unfold initrd_alloc_inode. apply wp_bind, wp_on_heap.
  eapply wp_mono; [by eapply (heap_alloc_ok _ _ SIZEOF_INITRD_INODE [])|].
  intros p h (Hok' & _ & Hp & Hp64 & Hreg). destruct (Z.eqb_spec p NULL) as [|_]; [lia|].
  unfold SIZEOF_INITRD_INODE in Hp64, Hreg. rewrite uwrap_id by (unfold in_u; lia).
  assert (inodes s !! (p + 8) = None) as Hfresh.
  { destruct (inodes s !! (p + 8)) as [i|] eqn:E; [|done]. exfalso.
    assert (∀ e, e ∈ (inode_extent <$> ps) ++ oth → ¬ in_extent (p + 8) e) as Hno.
    { intros e He Hx. destruct (heap_apart _ _ _ _ Hok' He); unfold in_extent, SIZEOF_INITRD_INODE in *; simpl in *; lia. }
    destruct (Hdom (p + 8)) as [Hin|[Hn|(e & He & Hx)]].
    - apply elem_of_dom. by rewrite E.
    - apply (Hno (inode_extent (p + 8))); [apply elem_of_app; left; by apply list_elem_of_fmap_2|].
      unfold in_extent, inode_extent, SIZEOF_INITRD_INODE. simpl. lia.
    - apply Hn, Hreg. lia.
    - apply (Hno e); [apply elem_of_app; by right|done]. }
  apply wp_bind, wp_modify, wp_bind, wp_modify, wp_bind.
  apply (wp_wr_inode _ _ zero_inode); [apply lookup_insert_eq|lia|]. apply wp_ret. simpl.
  split_and!; [lia|done|by rewrite insert_insert_eq|done| |done].
  exists oth. simpl. split_and!.
  - unfold inode_extent at 1. replace (p + 8 - 8) with p by lia. exact Hok'.
  - constructor; [lia|done].
  - intros x Hx. rewrite !dom_insert, !elem_of_union, !elem_of_singleton in Hx. rewrite elem_of_cons.
    destruct Hx as [->|[->|Hx]]; [by left; left..|]. destruct (Hdom x Hx) as [?|?]; [left; by right|by right].
Qed.

Lemma initrd_dealloc_ok s ps a :
  initrd_inv s (a :: ps) →
  wp (initrd_dealloc_inode a) s (λ _ s', inodes s' = delete a (inodes s) ∧ same_cache s s' ∧ initrd_inv s' ps).
Proof.
  intros (oth & Hok & [Ha Hps]%Forall_cons & Hdom). unfold initrd_dealloc_inode, initrd_inode_container.
  destruct (Z.eqb_spec a NULL) as [|_]; [lia|]. rewrite uwrap_id by (unfold in_u; lia).
  destruct (Z.eqb_spec (a - 8) NULL) as [|_]; [lia|]. cbv [negb]. apply wp_bind, wp_on_heap.
  eapply wp_mono; [exact (heap_free_ok _ _ _ _ Hok)|]. intros r h Hok'. cbv beta in Hok'. clear r.
  apply wp_bind, wp_modify, wp_modify. split_and!; [done..|]. exists oth. split_and!; [done|done|].
  simpl. intros x. rewrite dom_delete, elem_of_difference, elem_of_singleton. intros [Hx Hxa].
  destruct (Hdom x Hx) as [[->|?]%elem_of_cons|?]; [done|by left|by right].
Qed.

Lemma initrd_read_ok s ps a i :
  initrd_inv s ps → a ∈ ps → inodes s !! a = Some i → i_sb i = sb → initrd_readable s (ino i) →
  wp (initrd_read_inode lay sb a) s (λ rv s', rv = 0 ∧
    (∃ md op, inodes s' = <[a := set_mode md (set_ops op i)]> (inodes s) ∧ initrd_content s' (ino i) md op) ∧
    same_cache s s' ∧ initrd_inv s' ps).
Proof.
  intros Hinv Hps Hi Hisb Hrd.
  assert (a ≠ 0) as Ha0. { destruct Hinv as (_ & _ & Hall & _). apply (proj1 (Forall_forall _ _) Hall) in Hps. lia. }
  assert (∀ v, initrd_inv (upd_inodes <[a := v]> s) ps) as Hinv'.
  { intros v. destruct Hinv as (oth & ? & ? & Hdom). exists oth. split_and!; [done..|]. simpl.
    rewrite dom_insert_lookup_L by eauto. done. }
  unfold initrd_read_inode. apply wp_bind, (wp_rd_inode _ i); [done..|].
  destruct Hrd as [Hn|(f & h & t & md & Hn & Hsb & Hf & Hnth & Hh & Ht & Ht48 & Ht128 & Hmd & Hmd0)].
  - rewrite Hn. change (INITRD_ROOT_INO <? INITRD_ROOT_INO) with false. rewrite Z.eqb_refl.
    apply wp_bind, (wp_wr_inode _ _ i); [done..|]. apply wp_bind, (wp_wr_inode _ _ _ _ _ (lookup_insert_eq _ _ _)); [done|].
    apply wp_bind, (wp_wr_inode _ _ _ _ _ (lookup_insert_eq _ _ _)); [done|]. apply wp_ret.
    split; [done|]. split; [|split; [done|]].
    + exists I_DIRECTORY, (initrd_inode_dir_ops lay). simpl. rewrite !insert_insert_eq. split.
      * f_equal. subst sb. by destruct i.
      * done.
    + unfold upd_inodes. simpl. rewrite !insert_insert_eq. apply Hinv'.
  - destruct (Z.ltb_spec (ino i) INITRD_ROOT_INO) as [|_]; [lia|]. destruct (Z.eqb_spec (ino i) INITRD_ROOT_INO) as [|_]; [lia|].
    unfold initrd_sb_container. apply wp_bind, wp_kassert_dbg; [by rewrite Hisb, Z.eqb_refl|].
    apply wp_bind, (wp_deref _ _ f); [done..|]. apply wp_bind, wp_on_mem. unfold wp at 1. rewrite Hnth, upd_fmem_same.
    destruct (Z.eqb_spec h NULL) as [|_]; [done|]. apply wp_bind, wp_on_mem, (wp_ld _ t); [done|]. rewrite upd_fmem_same.
    assert (i8 t = t) as Et. { unfold swrap. change (2 ^ 8) with 256. rewrite Z.mod_small by lia. destruct (Z.ltb_spec t (2 ^ (8 - 1))); [done|lia]. }
    rewrite Et. pose proof (lookup_lt_Some _ _ _ Hmd) as Hlt. simpl in Hlt.
    apply wp_bind, wp_kassert_dbg; [apply andb_true_intro; split; apply Z.leb_le; lia|].
    destruct (Z.ltb_spec t 48) as [|_]; [lia|]. rewrite Hmd.
    apply wp_bind, wp_kassert; [by destruct (Z.eqb_spec md 0)|].
    apply wp_bind, (wp_wr_inode _ _ i); [done..|]. apply wp_bind, (wp_wr_inode _ _ _ _ _ (lookup_insert_eq _ _ _)); [done|].
    apply wp_ret. split; [done|]. split; [|split; [done|]].
    + eexists md, _. simpl. rewrite insert_insert_eq. split; [done|]. unfold initrd_content.
      destruct (Z.eqb_spec (ino i) INITRD_ROOT_INO); [lia|]. by exists f, h, t.
    + unfold upd_inodes. simpl. rewrite insert_insert_eq. apply Hinv'.
Qed.

(** The archive keeps the promises the inode cache relies on. *)
#[export] Instance initrd_laws : SuperLaws sb (initrd_super_table lay).
Proof.
  refine {| sl_inv := initrd_inv; sl_serves := initrd_serves; sl_readable := initrd_readable; sl_content := initrd_content |}.
  - eexists. split; [done|]. apply initrd_alloc_ok.
  - eexists. split; [done|]. apply initrd_read_ok.
  - eexists. split; [done|]. apply initrd_dealloc_ok.
  - intros s s' ps (Hd & _ & _ & _ & _ & Hh) (oth & ? & ? & Hdom). exists oth. by rewrite Hh, Hd.
  - intros s s' n (_ & _ & _ & Hp & Hm & Hh) [? Hr]. split; [by rewrite Hh|]. unfold initrd_readable in *. by rewrite Hp, Hm.
  - intros s s' n (_ & _ & _ & Hp & Hm & Hh) Hr. unfold initrd_readable in *. by rewrite Hp, Hm.
  - intros s s' n md op (_ & _ & _ & Hp & Hm & _) Hr. unfold initrd_content in *. by rewrite Hp, Hm.
  - intros s ps ps' Hp (oth & Hok & Hall & Hdom). exists oth. split_and!.
    + eapply heap_perm; [|exact Hok]. by rewrite Hp.
    + by rewrite <-Hp.
    + intros x Hx. rewrite <-Hp. auto.
Defined.
End Laws.

(** ** The root mount *)

Section Vfs.
Context {H : Type} `{HeapLaws H} {BC : BuildConfig}.
Variable lay : fs_layout.
Implicit Types s : fstate H.

Lemma empty_cache s : buckets s = replicate (Z.to_nat TAB_SIZE) NULL → cache_repr s ∅.
Proof.
  intros Hb. split; [|done]. exists (replicate (Z.to_nat TAB_SIZE) []).
  assert (concat (replicate (Z.to_nat TAB_SIZE) (@nil Z)) = []) as E.
  { generalize (Z.to_nat TAB_SIZE). intros k. by induction k. }
  split; rewrite ?E.
  - apply length_replicate.
  - by rewrite Hb, fmap_replicate.
  - by intros b l [-> _]%lookup_replicate.
  - constructor.
  - apply not_elem_of_nil.
  - intros b l a [-> _]%lookup_replicate ?%elem_of_nil. done.
  - by intros k a n ?%lookup_empty_Some.
Qed.

(** The state of the file system when the kernel starts. *)
Record boot_state s (al : list extent) : Prop := {
  bs_root : dom (inodes s) = {[vfs_root lay]};
  bs_buckets : buckets s = replicate (Z.to_nat TAB_SIZE) NULL;
  bs_lock : cache_lock s = 0;
  bs_heap : heap_ok (fheap s) al;
  bs_static : vfs_root lay ≠ 0 ∧ ¬ heap_region (vfs_root lay) ∧ initrd_super_ops lay ≠ 0
}.

Lemma wp_initrd_get_super s al (Q : Z → fstate H → Prop) :
  boot_state s al → heap_serves (fheap s) [SIZEOF_INITRD_FS; SIZEOF_INODE; SIZEOF_INITRD_INODE] →
  (∀ fs root d i s', fs ≠ 0 → supers s' !! fs = Some (mk_super 1 root (initrd_super_ops lay)) →
     inodes s' !! root = Some zero_inode → rd_parts s' !! fs = Some (mk_rd NULL d) →
     inodes s' !! d = Some i → mode i = I_DIRECTORY → i_ops i = initrd_inode_dir_ops lay →
     root ≠ 0 → root ≠ vfs_root lay → d ≠ vfs_root lay → d ≠ root →
     cache_repr s' {[ (INITRD_ROOT_INO, 1) := (d, 1) ]} → cache_lock s' = 0 →
     inodes s' !! vfs_root lay = inodes s !! vfs_root lay → Q fs s') →
  wp (initrd_get_super lay) s Q.
Proof.
  intros [Hdom Hbk Hlk Hok (Hv0 & Hvr & Hops0)] Hsv HQ. unfold initrd_get_super. apply wp_bind, wp_on_heap.
  eapply wp_mono; [by eapply heap_alloc_ok|]. intros fs h1 (Hok1 & Hsv1 & Hfs & _ & _).
  destruct (Z.eqb_spec fs NULL) as [|_]; [lia|]. apply wp_bind, wp_modify, wp_bind, wp_modify, wp_bind, wp_on_heap.
  eapply wp_mono; [by eapply heap_alloc_ok|]. intros q h2 (Hok2 & Hsv2 & Hq & Hq64 & Hreg).
  destruct (Z.eqb_spec q NULL) as [|_]; [lia|].
  assert (q ≠ vfs_root lay) as Hqv. { intros ->. apply Hvr, Hreg. unfold SIZEOF_INODE. lia. }
  apply wp_bind, wp_modify. do 3 (apply wp_bind; eapply wp_wr_super; [apply lookup_insert_eq|lia|]). simpl.
  set (b := mk_super 1 q (initrd_super_ops lay)). match goal with |- wp _ ?x _ => set (s3 := x) end.
  assert (inodes s3 = <[q := zero_inode]> (inodes s)) as Hin3 by done.
  assert (supers s3 !! fs = Some b) as Hb3 by apply lookup_insert_eq.
  assert (rd_parts s3 !! fs = Some (mk_rd 0 0)) as Hp3 by apply lookup_insert_eq.
  assert (initrd_inv s3 []) as Hinv3.
  { exists ((q, SIZEOF_INODE) :: (fs, SIZEOF_INITRD_FS) :: al). split_and!; [done|done|]. rewrite Hin3, dom_insert_L, Hdom.
    intros x. rewrite elem_of_union, !elem_of_singleton. intros [->| ->]; right; [right|by left].
    exists (q, SIZEOF_INODE). split; [left|]. unfold in_extent, SIZEOF_INODE. simpl. lia. }
  apply wp_bind. eapply wp_mono.
  { apply (wp_inode_get (super_tables lay) fs b (initrd_super_table lay)) with (C := ∅) (ps := []); [lia|done| |by apply empty_cache|done|done|done| |done].
    - unfold super_tables. by rewrite Z.eqb_refl.
    - intros _. split; [done|by left]. }
  intros d s4 (Hl4 & Hs4 & Hp4 & Hfr4 & Hd0 & Hd & Hc4 & _ & i & Hi & Hct). destruct Hct as [Hmd Hop].
  assert (d ≠ q). { intros ->. by rewrite Hin3, lookup_insert_eq in Hd. }
  assert (d ≠ vfs_root lay).
  { intros ->. rewrite Hin3, lookup_insert_ne in Hd by done. apply not_elem_of_dom in Hd. rewrite Hdom in Hd.
    by rewrite elem_of_singleton in Hd. }
  apply wp_bind, (wp_store _ _ _ _ (mk_rd 0 0)); [by rewrite Hp4|lia|]. apply wp_ret.
  assert (inodes s4 !! q = Some zero_inode) as Hq4.
  { rewrite (Hfr4 q), Hin3; [by rewrite lookup_insert_eq|done|done]. }
  assert (inodes s4 !! vfs_root lay = inodes s !! vfs_root lay) as Hv4.
  { rewrite (Hfr4 (vfs_root lay)), Hin3; [by rewrite lookup_insert_ne|done|done]. }
  eapply (HQ fs q d i); simpl; try done; try lia.
  - by rewrite Hs4.
  - by rewrite lookup_insert_eq.
  - destruct Hc4 as [[L HL] Hn]. split; [|done]. exists L. by eapply inv_frame; [exact HL|..].
Qed.

Lemma lookup_not_dir s fuel a i path len :
  inodes s !! a = Some i → a ≠ 0 → mode i ≠ I_DIRECTORY → vfs_lookup lay fuel a path len s = Ok ((ENOTDIR, NULL), s).
Proof.
  intros Hi Ha Hm. unfold vfs_lookup, mbind, M_bind, I_ISDIR, rd_inode, deref. destruct (Z.eqb_spec a 0); [done|].
  rewrite Hi. by destruct (Z.eqb_spec (mode i) I_DIRECTORY).
Qed.

(** C33: At boot, with memory for the superblock and two inodes, vfs_init
    returns.  The root is then a mount point of device 1, whose superblock and
    root directory are new; the directory is the one inode of the cache, with
    one reference, and the cache is unlocked.  The inode that is mounted is
    not that directory: it is the other new inode, which is still zero, so
    that looking up anything in what is mounted gives ENOTDIR. *)
Theorem vfs_init_correct s al :
  boot_state s al → heap_serves (fheap s) [SIZEOF_INITRD_FS; SIZEOF_INODE; SIZEOF_INITRD_INODE] →
  wp (vfs_init lay) s (λ _ s', ∃ fs root d r i,
    inodes s' !! vfs_root lay = Some r ∧ mode r = I_MOUNT ∧ i_sb r = fs ∧ mounted r = root ∧
    supers s' !! fs = Some (mk_super 1 root (initrd_super_ops lay)) ∧
    rd_parts s' !! fs = Some (mk_rd NULL d) ∧
    inodes s' !! d = Some i ∧ mode i = I_DIRECTORY ∧ i_ops i = initrd_inode_dir_ops lay ∧
    d ≠ root ∧ inodes s' !! root = Some zero_inode ∧
    (∀ fuel path len, vfs_lookup lay fuel root path len s' = Ok ((ENOTDIR, NULL), s')) ∧
    cache_repr s' {[ (INITRD_ROOT_INO, 1) := (d, 1) ]} ∧ cache_lock s' = 0).
Proof.
  intros Hboot Hsv. pose proof Hboot as [Hdom Hbk Hlk Hok (Hv0 & Hvr & Hops0)].
  assert (is_Some (inodes s !! vfs_root lay)) as [r0 Hr0] by (apply elem_of_dom; rewrite Hdom; set_solver).
  unfold vfs_init. apply wp_bind, (wp_wr_inode _ _ r0); [done..|]. set (s1 := upd_inodes _ s).
  assert (boot_state s1 al) as Hboot1.
  { split; try done. unfold s1. simpl. by rewrite dom_insert_lookup_L. }
  apply wp_bind. unfold vfs_mount. apply wp_bind, (wp_rd_inode _ zero_inode); [apply lookup_insert_eq|done|].
  change (I_ISMNT zero_inode) with false. cbv iota. apply wp_bind. change (1 =? 1) with true. cbv iota.
  apply (wp_initrd_get_super s1 al); [done|done|].
  intros fs root d i s2 Hfs0 Hs2 Hroot Hp2 Hi Hmd Hop Hr0' Hrv Hdv Hdr [[L HL] Hcnt] Hl2 Hv2.
  unfold s1 in Hv2. simpl in Hv2. rewrite lookup_insert_eq in Hv2.
  apply wp_bind, (wp_wr_inode _ _ zero_inode); [done..|]. apply wp_bind; eapply wp_rd_super; [exact Hs2|done|].
  do 2 (apply wp_bind; eapply wp_wr_inode; [apply lookup_insert_eq|done|]). apply wp_ret. apply wp_ret.
  eexists fs, root, d, _, i. simpl. rewrite lookup_insert_eq, !lookup_insert_ne by done. split_and!; try done.
  { intros fuel path len. eapply (lookup_not_dir _ _ _ zero_inode); [|done|done]. simpl. by rewrite !lookup_insert_ne. }
  split; [|done]. exists L. eapply inv_frame; [exact HL| |done|done]. intros x Hx. simpl.
  rewrite !lookup_insert_ne; [done|..]; intros <-; destruct (concat_cached _ _ _ _ HL Hx) as (k & c & Hk);
    apply lookup_singleton_Some in Hk as [_ [= ? _]]; done.
Qed.

(** The error paths of the interface: mounting on a mount point is EBUSY,
    on an unknown device a panic; looking up a path in something that is not
    a directory is ENOTDIR, in an inode without the operation ENOTSUP.  None
    of them changes the state, and the result pointer is NULL. *)
Theorem vfs_errors s fuel a i path len dev_ :
  inodes s !! a = Some i → a ≠ 0 →
  (mode i = I_MOUNT → vfs_mount lay a dev_ s = Ok (EBUSY, s)) ∧
  (mode i ≠ I_MOUNT → dev_ ≠ 1 → vfs_mount lay a dev_ s = Panic) ∧
  (mode i ≠ I_DIRECTORY → vfs_lookup lay fuel a path len s = Ok ((ENOTDIR, NULL), s)) ∧
  (mode i = I_DIRECTORY → i_ops i = NULL ∨ i_ops i = initrd_inode_file_ops lay ∧ i_ops i ≠ initrd_inode_dir_ops lay →
     vfs_lookup lay fuel a path len s = Ok ((ENOTSUP, NULL), s)).
Proof.
  intros Hi Ha. assert (rd_inode a s = Ok (i, s)) as Hrd.
  { unfold rd_inode, deref. destruct (Z.eqb_spec a 0); [done|]. by rewrite Hi. }
  unfold vfs_mount, vfs_lookup, mbind, M_bind, I_ISMNT, I_ISDIR. rewrite Hrd. split_and!.
  - intros ->. done.
  - intros Hm Hd. destruct (Z.eqb_spec (mode i) I_MOUNT); [done|]. destruct (Z.eqb_spec dev_ 1); done.
  - intros Hm. destruct (Z.eqb_spec (mode i) I_DIRECTORY); done.
  - intros -> [->|[-> Hne]]; [done|]. rewrite Z.eqb_refl. simpl negb. cbv iota.
    destruct (Z.eqb_spec (initrd_inode_file_ops lay) NULL); [done|]. unfold inode_tables.
    destruct (Z.eqb_spec (initrd_inode_file_ops lay) (initrd_inode_dir_ops lay)); [done|]. by rewrite Z.eqb_refl.
Qed.
End Vfs.

(** ** The directory search *)

Section Lookup.
Context {H : Type} `{Heap H} {BC : BuildConfig}.
Variable lay : fs_layout.
Implicit Types (s : fstate H) (m : bmem).

(** A readable block. *)
Definition block_at m (a : Z) : Prop :=
  0 < a ∧ a + USTAR_BLOCK < 2 ^ 64 ∧ ∀ x, a ≤ x < a + USTAR_BLOCK → is_Some (m !! x).

(** A header: an aligned block with the name, up to 99 characters long, at its
    start and the size in eleven octal digits at offset 124. *)
Record header_at m (a : Z) (nm : list Z) (size : Z) : Prop := {
  ha_block : block_at m a;
  ha_aligned : a mod USTAR_BLOCK = 0;
  ha_name : cstring m a nm ∧ nm ≠ [] ∧ (length nm < 100)%nat;
  ha_size : bytes m (a + 124) (octal 11 size);
  ha_range : 0 < size < 2 ^ 32 ∧ a + size + 2 * USTAR_BLOCK < 2 ^ 64
}.

(** The headers from [a] on, with their names, up to the block at [e] that
    begins with a zero.  The size of a file counts from its header, as the
    kernel has it, and is not zero. *)
Inductive listing m : Z → list (Z * list Z) → Z → Prop :=
| listing_end e : block_at m e → m !! e = Some 0 → listing m e [] e
| listing_cons a nm size l e :
    header_at m a nm size → listing m (a + USTAR_BLOCK * ((size + 511) / USTAR_BLOCK)) l e →
    listing m a ((a, nm) :: l) e.

(** The name of an entry is the path below the directory, up to one more
    character, which may be the slash of a directory. *)
Definition path_match (dn p nm : list Z) : bool :=
  bool_decide (dn ++ p `prefix_of` nm) && (length nm <=? S (length (dn ++ p)))%nat.

Lemma listing_block m a l e : listing m a l e → block_at m a.
Proof. destruct 1 as [|a nm size l e [] _]; done. Qed.

Lemma listing_name m a l e : listing m a l e → cstring m a (from_option snd [] (head l)).
Proof.
  destruct 1 as [e _ Hzero|a nm size l e [_ _ [? _] _ _] _]; [|done].
  split; [|apply not_elem_of_nil]. apply bytes_cons. split; [done|apply bytes_nil].
Qed.

(** The step from a header to the next. *)
Lemma nth_step m a nm size n :
  header_at m a nm size → nth_from (S n) a m = nth_from n (a + USTAR_BLOCK * ((size + 511) / USTAR_BLOCK)) m.
Proof.
  intros [(Hpos & H64 & _) Hal [[Hb Hz] [Hne _]] Hs [Hsz Hlim]]. destruct nm as [|c nm]; [done|].
  apply bytes_cons in Hb as [Hc _]. rewrite not_elem_of_cons in Hz. unfold USTAR_BLOCK in *.
  cbn [nth_from]. unfold mbind at 1, M_bind at 1, ld at 1. rewrite Hc. destruct (Z.eqb_spec c 0); [lia|].
  assert (ustar_oct_to_bin (hdr_size a) (12 - 1) m = Ok (size, m)) as Hw.
  { unfold hdr_size. rewrite uwrap_id by (unfold in_u; lia).
    assert (wp (ustar_oct_to_bin (a + 124) (12 - 1)) m (λ r m', m' = m ∧ r = size)) as Hw.
    { eapply wp_mono; [apply (ustar_oct_roundtrip m (a + 124) 11 size); [simpl; lia|done]|]. cbv beta.
      intros r m' [-> ->]. split; [done|]. apply Z.mod_small. lia. }
    apply wp_ok in Hw as (r & m' & -> & -> & ->). done. }
  unfold mbind, M_bind. rewrite Hw. rewrite (uwrap_id 64 (a + size)) by (unfold in_u; lia).
  change USTAR_BLOCK with (2 ^ 9). rewrite ALIGNUP_spec by lia. change (2 ^ 9) with 512. f_equal.
  pose proof (Z.div_mod a 512 ltac:(lia)) as E. rewrite Hal in E. rewrite E at 1.
  replace (512 * (a / 512) + 0 + size + 512 - 1) with (size + 511 + a / 512 * 512) by lia. rewrite Z.div_add by lia. lia.
Qed.

Lemma nth_end m e n : m !! e = Some 0 → nth_from (S n) e m = Ok (NULL, m).
Proof. intros E. simpl. unfold mbind, M_bind, ld. by rewrite E. Qed.

Lemma nth_listing m a l e n :
  listing m a l e → ustar_nth_from_entry a (Z.of_nat n) m = Ok (default NULL ((l.*1 ++ [e]) !! n), m).
Proof.
  unfold ustar_nth_from_entry. rewrite Nat2Z.id. intros Hl. revert n.
  induction Hl as [e _ Hzero|a nm size l e Hh _ IH]; intros [|n]; [done| |done|].
  - by rewrite (nth_end _ _ _ Hzero).
  - by rewrite (nth_step _ _ _ _ _ Hh), IH.
Qed.

(** The next header, or NULL after the last. *)
Lemma nth_next m a l e :
  listing m a l e → ∃ nx, ustar_nth_from_entry a 1 m = Ok (nx, m) ∧
    match l with [] => nx = NULL | _ :: l' => listing m nx l' e end.
Proof.
  intros Hl. destruct Hl as [e _ Hzero|a nm size l e Hh Hl].
  - exists NULL. split; [exact (nth_end _ _ 0 Hzero)|done].
  - eexists. split; [exact (nth_step _ _ _ _ 0 Hh)|exact Hl].
Qed.

Lemma bytes_exist m a n :
  (∀ x, a ≤ x < a + Z.of_nat n → is_Some (m !! x)) → ∃ l, length l = n ∧ bytes m a l.
Proof.
  revert a. induction n as [|n IH]; intros a Hm; [exists []; split; [done|apply bytes_nil]|].
  destruct (Hm a) as [x Hx]; [lia|]. destruct (IH (a + 1)) as (l & Hl & Hb); [intros y Hy; apply Hm; lia|].
  exists (x :: l). simpl. split; [lia|]. by apply bytes_cons.
Qed.

Lemma lex_eqb l1 l2 : length l1 = length l2 → (lex l1 l2 =? 0) = bool_decide (l1 = l2).
Proof. intros Hl. apply eq_bool_prop_intro. rewrite bool_decide_spec, <-(lex_eq l1 l2 Hl). by rewrite Is_true_true, Z.eqb_eq. Qed.

Lemma bytes_app_inv m a l1 l2 : bytes m a l1 → bytes m (a + Z.of_nat (length l1)) l2 → bytes m a (l1 ++ l2).
Proof.
  revert a. induction l1 as [|x l1 IH]; intros a H1 H2; simpl in *; [by rewrite Z.add_0_r in H2|].
  apply bytes_cons in H1 as [Hx H1]. apply bytes_cons. split; [done|]. apply IH; [done|].
  by replace (a + 1 + Z.of_nat (length l1)) with (a + Z.of_nat (S (length l1))) by lia.
Qed.

(** What is read at the place of a name, of which it has no zero, begins the
    name. *)
Lemma bytes_prefix m a q nm :
  bytes m a q → cstring m a nm → 0 ∉ q → q `prefix_of` nm.
Proof.
  intros Hq [Hn _] Hz. revert a nm Hq Hn. induction q as [|x q IH]; intros a nm Hq Hn; [apply prefix_nil|].
  apply bytes_cons in Hq as [Hx Hq]. rewrite not_elem_of_cons in Hz. destruct Hz as [Hx0 Hz].
  destruct nm as [|y nm]; simpl in Hn; apply bytes_cons in Hn as [Hy Hn]; rewrite Hx in Hy; injection Hy as ->; [done|].
  apply prefix_cons. by eapply IH.
Qed.

Lemma prefix_bytes m a q nm : q `prefix_of` nm → cstring m a nm → bytes m a q.
Proof.
  intros [k ->] [Hb _] i x Hi. apply Hb. rewrite <-(assoc_L (++)). by apply lookup_app_l_Some.
Qed.

(** The comparison decides [path_match]. *)
Lemma wp_lookup_match s dn dl np p cur nm (Q : bool → fstate H → Prop) :
  bytes (fmem s) dn dl → bytes (fmem s) np p → 0 ∉ dl → 0 ∉ p → block_at (fmem s) cur → cstring (fmem s) cur nm →
  Z.of_nat (length (dl ++ p)) ≤ USTAR_BLOCK → Q (path_match dl p nm) s →
  wp (lookup_match dn (Z.of_nat (length dl)) np (Z.of_nat (length p)) cur) s Q.
Proof.
  intros Hdn Hnm Hz1 Hz2 (Hc0 & Hc64 & Hmem) Hc Hlen HQ. unfold USTAR_BLOCK in *. unfold lookup_match, path_match in *.
  rewrite length_app in Hlen, HQ. apply wp_bind, wp_on_mem, (wp_strlen _ _ nm); [done|]. rewrite upd_fmem_same.
  rewrite uwrap_id by (unfold in_u; lia).
  destruct (Z.ltb_spec (Z.of_nat (length nm)) (Z.of_nat (length dl))) as [Hs|Hs].
  { simpl. apply wp_ret. rewrite bool_decide_false in HQ; [done|]. intros ?%prefix_length. rewrite length_app in *. lia. }
  destruct (Z.ltb_spec (Z.of_nat (length dl) + Z.of_nat (length p) + 1) (Z.of_nat (length nm))) as [Hl|Hl].
  { simpl. apply wp_ret. replace (_ <=? _)%nat with false in HQ; [by rewrite andb_false_r in HQ|]. symmetry. apply Nat.leb_gt. lia. }
  replace (_ <=? _)%nat with true in HQ; [|symmetry; apply Nat.leb_le; lia]. rewrite andb_true_r in HQ. simpl orb. cbv iota.
  destruct (bytes_exist (fmem s) cur (length dl)) as (l1 & Hl1 & Hb1); [intros x Hx; apply Hmem; lia|].
  apply wp_bind, wp_on_mem, (wp_memcmp _ _ _ dl l1); [done..|]. rewrite upd_fmem_same, lex_eqb by done.
  destruct (decide (dl = l1)) as [<-|E]; [rewrite (bool_decide_true (dl = dl)) by done|rewrite (bool_decide_false (dl = l1)) by done].
  2: { apply wp_ret. rewrite bool_decide_false in HQ; [done|]. intros Hp. apply E.
       assert (bytes (fmem s) cur dl) as Hd by (eapply prefix_bytes; [|done]; by eapply prefix_app_l).
       apply list_eq_same_length with (length dl); [done|done|]. intros i x y _ Hx Hy. apply Hd in Hx. apply Hb1 in Hy. congruence. }
  rewrite uwrap_id by (unfold in_u; lia).
  destruct (bytes_exist (fmem s) (cur + Z.of_nat (length dl)) (length p)) as (l2 & Hl2 & Hb2); [intros x Hx; apply Hmem; lia|].
  apply wp_bind, wp_on_mem, (wp_memcmp _ _ _ p l2); [done..|]. rewrite upd_fmem_same, lex_eqb by done. apply wp_ret.
  enough (bool_decide (p = l2) = bool_decide (dl ++ p `prefix_of` nm)) as -> by done. apply bool_decide_ext. split.
  - intros <-. eapply bytes_prefix; [by apply bytes_app_inv|done|]. by rewrite not_elem_of_app.
  - intros Hp. assert (bytes (fmem s) cur (dl ++ p)) as Hd by (by eapply prefix_bytes).
    apply list_eq_same_length with (length p); [done|done|]. intros i x y _ Hx Hy. apply Hb2 in Hy.
    assert ((dl ++ p) !! (length dl + i)%nat = Some x) as Hx' by (rewrite lookup_app_r by lia; by replace (length dl + i - length dl)%nat with i by lia).
    apply Hd in Hx'. replace (cur + Z.of_nat (length dl) + Z.of_nat i) with (cur + Z.of_nat (length dl + i)) in Hy by lia. congruence.
Qed.

Lemma wp_lookup_loop s dn dl np p a l e fuel (Q : bool → fstate H → Prop) :
  bytes (fmem s) dn dl → bytes (fmem s) np p → 0 ∉ dl → 0 ∉ p → dl ≠ [] → Z.of_nat (length (dl ++ p)) ≤ USTAR_BLOCK →
  listing (fmem s) a l e → (length l + 1 < fuel)%nat → Q (existsb (λ x, path_match dl p x.2) l) s →
  wp (loop fuel (lookup_round dn (Z.of_nat (length dl)) np (Z.of_nat (length p))) a) s Q.
Proof.
  intros Hdn Hnm Hz1 Hz2 Hdl Hlen Hl Hfuel HQ. set (mt := λ x : Z * list Z, path_match dl p x.2) in *.
  apply (wp_loop (λ n cur s', s' = s ∧ match n with
    | O => cur = NULL ∧ existsb mt l = false
    | S n => ∃ l', n = length l' ∧ listing (fmem s) cur l' e ∧ existsb mt l = existsb mt l' end)) with (n := S (length l));
    [|split; [done|by exists l]|lia]. intros n c ? [-> Hn]. unfold lookup_round.
  destruct n as [|n]; [destruct Hn as [-> Hn]; apply wp_ret; by rewrite <-Hn|]. destruct Hn as (l' & -> & Hl' & Eq).
  pose proof (listing_block _ _ _ _ Hl') as Hb. destruct (Z.eqb_spec c NULL) as [->|Hc]; [by destruct Hb; lia|].
  apply wp_bind. eapply (wp_lookup_match s dn dl np p c (from_option snd [] (head l'))); [done..|by eapply listing_name|done|].
  destruct (nth_next _ _ _ _ Hl') as (nx & Hnx & Hrest).
  destruct l' as [|[a' nm] l']; simpl from_option.
  - assert (path_match dl p [] = false) as ->.
    { unfold path_match. rewrite bool_decide_false; [done|]. intros ?%prefix_nil_inv. by destruct dl. }
    apply wp_bind, wp_on_mem. unfold wp. rewrite Hnx, upd_fmem_same, Hrest. exists O. split; [simpl; lia|done].
  - simpl in Eq. fold (mt (a', nm)) in Eq. change (path_match dl p nm) with (mt (a', nm)). destruct (mt (a', nm)).
    + apply wp_ret. simpl in Eq. by rewrite <-Eq.
    + apply wp_bind, wp_on_mem. unfold wp. rewrite Hnx, upd_fmem_same. exists (S (length l')). split; [simpl; lia|].
      split; [done|]. by exists l'.
Qed.

(** C34: The headers of an archive laid out as the kernel reads it are found
    in their order: the nth of them is at the address where it is, then comes
    the block that ends the archive, then NULL.  The search for a path in the
    root directory ends, within one round per header and one more, and tells
    whether the archive has the path below the slash, with up to one character
    after it.  Looking the path up changes nothing and gives no error and no
    inode, also when the search finds it, since what is found is never
    stored.  In that layout the size of a file counts from its header and is
    not zero: one written by tar has the next header a block further on, and
    the headers of empty files never end (ustar_empty_file_stuck). *)
Theorem vfs_lookup_correct s fuel dir i f np p l e :
  inodes s !! dir = Some i → dir ≠ 0 → mode i = I_DIRECTORY →
  i_ops i = initrd_inode_dir_ops lay → i_ops i ≠ NULL →
  i_sb i ≠ 0 → rd_parts s !! i_sb i = Some f → rd_root f = dir →
  cstring (fmem s) (slash lay) [47] → bytes (fmem s) np p → 0 ∉ p → Z.of_nat (length p) < USTAR_BLOCK →
  listing (fmem s) (root_hdr f) l e → (length l + 1 < fuel)%nat →
  (∀ n, ustar_nth_from_entry (root_hdr f) (Z.of_nat n) (fmem s) = Ok (default NULL ((l.*1 ++ [e]) !! n), fmem s)) ∧
  loop fuel (lookup_round (slash lay) 1 np (Z.of_nat (length p))) (root_hdr f) s = Ok (existsb (λ x, path_match [47] p x.2) l, s) ∧
  vfs_lookup lay fuel dir np (Z.of_nat (length p)) s = Ok ((0, NULL), s).
Proof.
  intros Hi Hd Hm Hops Hops0 Hsb0 Hf Hroot Hsl Hnm Hz Hlen Harc Hfuel.
  assert (bytes (fmem s) (slash lay) [47]) as Hsl'.
  { destruct Hsl as [[? _]%bytes_cons _]. apply bytes_cons. split; [done|apply bytes_nil]. }
  assert (loop fuel (lookup_round (slash lay) 1 np (Z.of_nat (length p))) (root_hdr f) s =
    Ok (existsb (λ x, path_match [47] p x.2) l, s)) as Hloop.
  { assert (wp (loop fuel (lookup_round (slash lay) 1 np (Z.of_nat (length p))) (root_hdr f)) s
      (λ b s', b = existsb (λ x, path_match [47] p x.2) l ∧ s' = s)) as Hw.
    { eapply (wp_lookup_loop s (slash lay) [47] np p (root_hdr f) l e);
        [done|done|by rewrite list_elem_of_singleton|done|done|unfold USTAR_BLOCK in *; simpl; lia|done|lia|done]. }
    apply wp_ok in Hw as (? & ? & -> & -> & ->). done. }
  split; [intros n; by apply nth_listing|]. split; [exact Hloop|].
  assert (wp (vfs_lookup lay fuel dir np (Z.of_nat (length p))) s (λ r s', r = (0, NULL) ∧ s' = s)) as Hwp.
  { unfold vfs_lookup. apply wp_bind, (wp_rd_inode _ i); [done..|]. unfold I_ISDIR. rewrite Hm.
    change (negb (I_DIRECTORY =? I_DIRECTORY)) with false. cbv iota.
    destruct (Z.eqb_spec (i_ops i) NULL) as [|_]; [done|]. unfold inode_tables. rewrite Hops, Z.eqb_refl.
    unfold initrd_dir_lookup_inode. eapply (wp_seq _ _ _ (λ _ s', s' = s)).
    { destruct DEBUG; [|by apply wp_ret]. apply wp_bind, wp_kassert; [by destruct (Z.eqb_spec dir NULL)|].
      apply wp_bind, (wp_rd_inode _ i); [done..|]. apply wp_kassert; [|done]. unfold I_ISDIR. rewrite Hm.
      by destruct (Z.eqb_spec (i_sb i) NULL). }
    intros _ ? ->. apply wp_bind, (wp_rd_inode _ i); [done..|]. apply wp_bind, (wp_deref _ _ f); [done..|].
    rewrite Hroot, Z.eqb_refl. apply wp_bind, wp_ret. apply wp_bind, wp_on_mem, (wp_strlen _ _ [47]); [done|].
    rewrite upd_fmem_same. apply wp_bind. change (Z.of_nat (length [47])) with 1. unfold wp at 1. rewrite Hloop.
    by destruct (existsb _ _). }
  apply wp_ok in Hwp as (? & ? & -> & -> & ->). done.
Qed.

(** A file of size zero never ends the chain: the next header is taken to be
    at the end of the contents counted from the header itself, so an aligned
    header with size zero is its own successor. *)
Theorem ustar_empty_file_stuck m cur c n :
  m !! cur = Some c → c ≠ 0 → bytes m (cur + 124) (octal 11 0) →
  0 ≤ cur → cur + 2 * USTAR_BLOCK < 2 ^ 64 → cur mod USTAR_BLOCK = 0 →
  ustar_nth_from_entry cur n m = Ok (cur, m).
Proof.
  intros Hc Hc0 Hb Hcur H64 Hal. unfold ustar_nth_from_entry. unfold USTAR_BLOCK in *. induction (Z.to_nat n) as [|r IH]; [done|].
  simpl. unfold mbind at 1, M_bind at 1, ld at 1. rewrite Hc. destruct (Z.eqb_spec c 0); [done|].
  assert (ustar_oct_to_bin (hdr_size cur) (12 - 1) m = Ok (0, m)) as Hz.
  { unfold hdr_size. rewrite uwrap_id by (unfold in_u; lia).
    assert (wp (ustar_oct_to_bin (cur + 124) (12 - 1)) m (λ r m', r = 0 ∧ m' = m)) as Hw.
    { unfold ustar_oct_to_bin. change (Z.to_nat (12 - 1)) with (length (octal 11 0)). by apply (wp_oct_from _ _ _ 0). }
    apply wp_ok in Hw as (? & ? & -> & -> & ->). done. }
  unfold mbind, M_bind. rewrite Hz. rewrite Z.add_0_r, (uwrap_id 64 cur) by (unfold in_u; lia).
  change USTAR_BLOCK with (2 ^ 9). rewrite ALIGNUP_spec by lia. change (2 ^ 9) with 512.
  replace (512 * ((cur + 512 - 1) / 512)) with cur; [exact IH|].
  pose proof (Z.div_mod cur 512 ltac:(lia)) as E. rewrite Hal in E.
  rewrite E at 2. replace (512 * (cur / 512) + 0 + 512 - 1) with (511 + cur / 512 * 512) by lia.
  rewrite Z.div_add by lia. change (511 / 512) with 0. lia.
Qed.
End Lookup.

(** ** A small machine *)

Module InitrdDemo.
Export Bump.
Definition lay : fs_layout := mk_layout 16 32 48 256 500.
(** The strings "/" and "a", and an archive with the entries "/b" and "/a/". *)
Definition place (a : Z) (l : list Z) : list (Z * Z) := zip (seqZ a (Z.of_nat (length l))) l.
Definition header (nm : list Z) (size : Z) : list Z := take 124 (nm ++ replicate 124 0) ++ octal 11 size ++ replicate 377 0.
Definition mem : bmem :=
  list_to_map (place 500 [47; 0] ++ place 600 [97; 0] ++ place 1024 (header [47; 98] 300) ++
               place 1536 (header [47; 97; 47] 1000) ++ place 2560 (replicate 512 0)).
Definition entries : list (Z * list Z) := [(1024, [47; 98]); (1536, [47; 97; 47])].
(** At boot: one static inode, an empty cache. *)
Definition boot : fstate Z :=
  mk_fstate {[256 := zero_inode]} ∅ ∅ ∅ (replicate (Z.to_nat TAB_SIZE) NULL) 0 mem 4096.
(** With a superblock of device 1 at 300. *)
Definition sb : super_block := mk_super 1 0 48.
Definition mounted_state : fstate Z := upd_supers (λ _, {[300 := sb]}) boot.
(** With the root directory at 700 and an archive at 1024. *)
Definition root_inode : inode := mk_inode 1 I_DIRECTORY 1 300 16 0 0 0.
Definition root_state : fstate Z :=
  upd_rd_parts (λ _, {[300 := mk_rd 1024 700]}) (upd_inodes (λ _, {[700 := root_inode]}) mounted_state).

Lemma boot_ok : boot_state lay boot [].
Proof.
  split; [apply dom_singleton_L|done|done| |].
  - split; [done|split; [done|]]. intros b al' c E%Permutation_nil_l. done.
  - split; [done|]. split; [by intros ?|done].
Qed.

Lemma mounted_inv : initrd_inv (H := Z) mounted_state [].
Proof.
  exists []. split_and!; [apply boot_ok|done|]. intros x. simpl. rewrite dom_singleton, elem_of_singleton.
  intros ->. right. left. by intros ?.
Qed.

(** Bytes and blocks of a memory by computation. *)
Lemma bytes_check (m : bmem) a l : (λ i, m !! (a + Z.of_nat i)) <$> seq 0 (length l) = Some <$> l → bytes m a l.
Proof.
  intros E i x Hx. assert ((Some <$> l) !! i = Some (Some x)) as Hi by (by rewrite list_lookup_fmap, Hx).
  rewrite <-E, list_lookup_fmap, lookup_seq_lt in Hi by (by eapply lookup_lt_Some). by injection Hi.
Qed.

Lemma block_check (m : bmem) a :
  0 < a → a + USTAR_BLOCK < 2 ^ 64 → forallb (λ x, bool_decide (is_Some (m !! x))) (seqZ a USTAR_BLOCK) = true → block_at m a.
Proof.
  intros H1 H2 H3. split_and!; [done..|]. intros x Hx. rewrite forallb_forall in H3.
  specialize (H3 x). rewrite bool_decide_eq_true in H3. apply H3, list_elem_of_In, elem_of_seqZ. lia.
Qed.

Lemma name_check (m : bmem) a l :
  (λ i, m !! (a + Z.of_nat i)) <$> seq 0 (length (l ++ [0])) = Some <$> (l ++ [0]) → bool_decide (0 ∈ l) = false → cstring m a l.
Proof. intros E H0. split; [by apply bytes_check|by apply bool_decide_eq_false in H0]. Qed.

Lemma two_entries : listing mem 1024 entries 2560.
Proof.
  apply (listing_cons mem 1024 [47; 98] 300).
  { split; [by apply block_check; [..|vm_compute]|done| |by apply bytes_check; vm_compute|unfold USTAR_BLOCK; lia].
    split; [by apply name_check; vm_compute|split; [done|simpl; lia]]. }
  apply (listing_cons mem 1536 [47; 97; 47] 1000).
  { split; [by apply block_check; [..|vm_compute]|done| |by apply bytes_check; vm_compute|unfold USTAR_BLOCK; lia].
    split; [by apply name_check; vm_compute|split; [done|simpl; lia]]. }
  apply (listing_end mem 2560); [by apply block_check; [..|vm_compute]|by vm_compute].
Qed.
End InitrdDemo.

Section witnesses.
Import InitrdDemo.
#[local] Existing Instance debug_build.

Lemma ustar_oct_roundtrip_witness :
  wp (ustar_oct_to_bin 100 (Z.of_nat 3)) (<[100 := 49]> (<[101 := 48]> (<[102 := 50]> ∅)))
     (λ r _, r = 66).
Proof.
  eapply wp_mono; [apply (ustar_oct_roundtrip _ 100 3 66)|by intros r ? [_ ->]].
  - done.
  - do 3 (apply bytes_cons; split; [done|]). apply bytes_nil.
Defined.

Lemma inode_get_correct_witness :
  wp (inode_get (super_tables lay) 300 1) mounted_state (λ a s', cache_lock s' = 0 ∧ a ≠ NULL).
Proof.
  eapply wp_mono; [apply (inode_get_correct (super_tables lay) 300 sb (initrd_super_table lay)) with (C := ∅) (ps := []);
    [done|done|done|by apply empty_cache|done|done|exact mounted_inv| |done]|].
  - intros _. split; [done|by left].
  - intros a s' (? & _ & _ & _ & ? & _). done.
Defined.

Lemma inode_put_correct_witness :
  wp (a ← inode_get (super_tables lay) 300 1; inode_put (super_tables lay) a) mounted_state
     (λ _ s', cache_lock s' = 0 ∧ cache_repr s' ∅).
Proof.
  apply wp_bind. eapply wp_mono; [apply (wp_inode_get (super_tables lay) 300 sb (initrd_super_table lay)) with (C := ∅) (ps := []);
    [done|done|done|by apply empty_cache|done|done|exact mounted_inv| |done]|].
  { intros _. split; [done|by left]. }
  intros a s1 (Hl & Hs & _ & _ & Ha & _ & Hc & Hinv & _). pose proof Hc as [[L HL] _].
  destruct (cached_entry _ _ _ (1, 1) a 1 HL) as (He & _ & _); [by rewrite lookup_insert_eq|].
  destruct (entry_inode _ _ _ _ He) as (i & b' & Hi & _ & _ & _ & Hb & _ & _).
  assert (i_sb i = 300) as Hsb. { rewrite Hs in Hb. simpl in Hb. by apply lookup_singleton_Some in Hb as [<- _]. }
  eapply wp_mono; [apply (inode_put_correct (super_tables lay) 300 sb (initrd_super_table lay) ltac:(done) ltac:(done) ltac:(done)
    s1 (<[(1, 1) := (a, 1)]> ∅) [a] (1, 1) a 1 i); [done|done|by rewrite Hs|done|left|apply lookup_insert_eq|done|done]|].
  intros _ s2 (? & _ & _ & Hpost). destruct (decide (1 = 1)); [|done]. destruct Hpost as (Hr & _).
  by rewrite delete_insert_eq, delete_empty in Hr.
Defined.

Lemma vfs_init_correct_witness :
  wp (vfs_init lay) boot (λ _ s', ∃ r, inodes s' !! 256 = Some r ∧ mode r = I_MOUNT).
Proof.
  eapply wp_mono; [apply (vfs_init_correct lay boot [] boot_ok); done|].
  intros _ s' (fs & root & d & r & i & ? & ? & _). by exists r.
Defined.

Lemma vfs_errors_witness : vfs_lookup lay 1 256 600 1 boot = Ok ((ENOTDIR, NULL), boot).
Proof.
  refine (proj1 (proj2 (proj2 (vfs_errors lay boot 1 256 zero_inode 600 1 1 _ _))) _); done.
Defined.

Lemma vfs_lookup_correct_witness :
  ustar_nth_from_entry 1024 1 mem = Ok (1536, mem) ∧
  loop 4 (lookup_round 500 1 600 1) 1024 root_state = Ok (true, root_state) ∧
  vfs_lookup lay 4 700 600 1 root_state = Ok ((0, NULL), root_state).
Proof.
  destruct (vfs_lookup_correct lay root_state 4 700 root_inode (mk_rd 1024 700) 600 [97] entries 2560) as (H1 & H2 & H3).
  - reflexivity.
  - done.
  - done.
  - done.
  - done.
  - done.
  - reflexivity.
  - done.
  - by apply name_check; vm_compute.
  - by apply bytes_check; vm_compute.
  - by rewrite list_elem_of_singleton.
  - done.
  - exact two_entries.
  - simpl. lia.
  - split_and!; [exact (H1 1%nat)|exact H2|exact H3].
Defined.

(** Reading a missing inode stops the kernel: the inode is freed and NULL is
    referenced. *)
Theorem inode_get_missing_faults : inode_get (super_tables lay) 300 0 mounted_state = Fault.
Proof. vm_compute. done. Qed.
End witnesses.
