(* ===== verification/Sync.v ===== *)
(** * Spinlocks on several CPUs

    kernel/smp/spin.asm one instruction at a time, run by any number of CPUs
    in any order, and the reader-writer lock of include/sync.h on top of it.
    The lock word is 64 bits; [xchg] with memory is atomic. *)

From stdpp Require Import base list.
From Stdlib Require Import ZArith Lia Bool.
From S2P Require Import Prelude.
Local Open Scope Z_scope.

Module Spin.

(** The next instruction of a CPU; [Idle] is outside, [Held] between
    acquiring and releasing. *)
Inductive pc :=
| Idle | Held
| Lock_preempt_inc | Lock_mov | Lock_xchg | Lock_test | Lock_jz
| Retry_pause | Retry_bt | Retry_jc | Retry_xchg | Retry_test | Retry_jnz | Lock_ret
| Try_preempt_inc | Try_mov | Try_xchg | Try_test | Try_jz | Try_preempt_dec | Try_fail | Try_fail_ret
| Try_acquired | Try_ret
| Unlock_mov | Unlock_preempt_dec | Unlock_ret.

(** With the two flags the jumps look at. *)
Record cpu := mk_cpu { at_ : pc; rax : Z; zf : bool; cf : bool; preempt_count : Z }.

(** ** One instruction *)

Definition goto (p : pc) (c : cpu) : cpu := mk_cpu p (rax c) (zf c) (cf c) (preempt_count c).
Definition set_rax (v : Z) (c : cpu) : cpu := mk_cpu (at_ c) v (zf c) (cf c) (preempt_count c).

(** [lock inc] and [lock dec] leave the carry flag alone. *)
Definition preempt_add (d : Z) (c : cpu) : cpu :=
  let v := u32 (preempt_count c + d) in mk_cpu (at_ c) (rax c) (v =? 0) (cf c) v.
Definition preempt_inc : cpu → cpu := preempt_add 1.
Definition preempt_dec : cpu → cpu := preempt_add (-1).

(** [xchg [rdi], rax], [test rax, rax] and [bt qword [rdi], 0] *)
Definition xchg (lock : Z) (c : cpu) : Z * cpu := (rax c, set_rax lock c).
Definition test_rax (c : cpu) : cpu := mk_cpu (at_ c) (rax c) (rax c =? 0) false (preempt_count c).
Definition bt0 (lock : Z) (c : cpu) : cpu := mk_cpu (at_ c) (rax c) (zf c) (Z.testbit lock 0) (preempt_count c).

Definition spin_lock (lock : Z) (c : cpu) : Z * cpu :=
  match at_ c with
  | Lock_preempt_inc => (lock, goto Lock_mov (preempt_inc c))
  | Lock_mov => (lock, goto Lock_xchg (set_rax 1 c))
  | Lock_xchg => let '(l, c) := xchg lock c in (l, goto Lock_test c)
  | Lock_test => (lock, goto Lock_jz (test_rax c))
  | Lock_jz => (lock, goto (if zf c then Lock_ret else Retry_pause) c)
  | Retry_pause => (lock, goto Retry_bt c)
  | Retry_bt => (lock, goto Retry_jc (bt0 lock c))
  | Retry_jc => (lock, goto (if cf c then Retry_pause else Retry_xchg) c)
  | Retry_xchg => let '(l, c) := xchg lock c in (l, goto Retry_test c)
  | Retry_test => (lock, goto Retry_jnz (test_rax c))
  | Retry_jnz => (lock, goto (if zf c then Lock_ret else Retry_pause) c)
  | Lock_ret => (lock, goto Held c)
  | _ => (lock, c)
  end.

Definition spin_try_lock (lock : Z) (c : cpu) : Z * cpu :=
  match at_ c with
  | Try_preempt_inc => (lock, goto Try_mov (preempt_inc c))
  | Try_mov => (lock, goto Try_xchg (set_rax 1 c))
  | Try_xchg => let '(l, c) := xchg lock c in (l, goto Try_test c)
  | Try_test => (lock, goto Try_jz (test_rax c))
  | Try_jz => (lock, goto (if zf c then Try_acquired else Try_preempt_dec) c)
  | Try_preempt_dec => (lock, goto Try_fail (preempt_dec c))
  | Try_fail => (lock, goto Try_fail_ret (set_rax 0 c))
  | Try_fail_ret => (lock, goto Idle c)
  | Try_acquired => (lock, goto Try_ret (set_rax 1 c))
  | Try_ret => (lock, goto Held c)
  | _ => (lock, c)
  end.

Definition spin_unlock (lock : Z) (c : cpu) : Z * cpu :=
  match at_ c with
  | Unlock_mov => (0, goto Unlock_preempt_dec c)
  | Unlock_preempt_dec => (lock, goto Unlock_ret (preempt_dec c))
  | Unlock_ret => (lock, goto Idle c)
  | _ => (lock, c)
  end.

Definition exec (lock : Z) (c : cpu) : Z * cpu :=
  match at_ c with
  | Idle | Held => (lock, c)
  | Lock_preempt_inc | Lock_mov | Lock_xchg | Lock_test | Lock_jz
  | Retry_pause | Retry_bt | Retry_jc | Retry_xchg | Retry_test | Retry_jnz | Lock_ret => spin_lock lock c
  | Unlock_mov | Unlock_preempt_dec | Unlock_ret => spin_unlock lock c
  | _ => spin_try_lock lock c
  end.

(** ** The machine *)

Record machine := mk_machine { lock : Z; cpus : list cpu }.

(** A CPU executes an instruction, calls [spin_lock] or [spin_try_lock], or,
    when it has the lock, calls [spin_unlock]. *)
Inductive step : machine → machine → Prop :=
| step_instr m i c :
    cpus m !! i = Some c → at_ c ≠ Idle → at_ c ≠ Held →
    step m (mk_machine (exec (lock m) c).1 (<[i := (exec (lock m) c).2]> (cpus m)))
| step_lock m i c :
    cpus m !! i = Some c → at_ c = Idle →
    step m (mk_machine (lock m) (<[i := goto Lock_preempt_inc c]> (cpus m)))
| step_try m i c :
    cpus m !! i = Some c → at_ c = Idle →
    step m (mk_machine (lock m) (<[i := goto Try_preempt_inc c]> (cpus m)))
| step_unlock m i c :
    cpus m !! i = Some c → at_ c = Held →
    step m (mk_machine (lock m) (<[i := goto Unlock_mov c]> (cpus m))).

(** All CPUs outside, the lock free. *)
Definition start (m : machine) : Prop :=
  lock m = 0 ∧ Forall (λ c, at_ c = Idle ∧ preempt_count c = 0) (cpus m).

Inductive reachable : machine → Prop :=
| reach_start m : start m → reachable m
| reach_step m m' : reachable m → step m m' → reachable m'.

(** ** Invariant *)

(** A CPU that has taken the lock word from 0 to 1 and not yet released it. *)
Definition owner (c : cpu) : bool :=
  match at_ c with
  | Held | Lock_ret | Try_acquired | Try_ret | Unlock_mov => true
  | Lock_test | Lock_jz | Retry_test | Retry_jnz | Try_test | Try_jz => rax c =? 0
  | _ => false
  end.

Abbreviation owners := (tally owner).

(** What is in [rax] and the zero flag where it matters, and the preemption
    count: one more while the CPU is anywhere between its two ends. *)
Definition cpu_ok (c : cpu) : Prop :=
  match at_ c with
  | Lock_xchg | Try_xchg | Retry_pause | Retry_bt | Retry_jc | Retry_xchg => rax c = 1
  | Lock_test | Retry_test | Try_test => rax c = 0 ∨ rax c = 1
  | Lock_jz | Retry_jnz | Try_jz => (rax c = 0 ∧ zf c = true) ∨ (rax c = 1 ∧ zf c = false)
  | _ => True
  end ∧
  preempt_count c = match at_ c with
                    | Idle | Lock_preempt_inc | Try_preempt_inc | Try_fail | Try_fail_ret | Unlock_ret => 0
                    | _ => 1
                    end.

Record inv (m : machine) : Prop := {
  inv_lock : lock m = owners (cpus m);
  inv_bit : lock m = 0 ∨ lock m = 1;
  inv_cpus : Forall cpu_ok (cpus m)
}.

(** One instruction keeps the CPU in order and the word in step with the
    number of owners. *)
Lemma exec_ok l n c :
  cpu_ok c → (l = 0 ∨ l = 1) → l = n + Z.b2z (owner c) → 0 ≤ n →
  let '(l', c') := exec l c in
  cpu_ok c' ∧ (l' = 0 ∨ l' = 1) ∧ l' = n + Z.b2z (owner c').
Proof.
  intros [Hr Hp] Hl Hn H0. destruct c as [p r z k pr].
  unfold cpu_ok, owner, exec, spin_lock, spin_try_lock, spin_unlock, xchg, preempt_inc, preempt_dec, preempt_add, test_rax, bt0 in *.
  simpl in *. destruct p; simpl in *; rewrite ?Hp; unfold uwrap; simpl;
    repeat match goal with
    | H : _ ∧ _ |- _ => destruct H
    | H : r = _ |- _ => rewrite H in *; clear H; simpl in *
    | H : z = _ |- _ => rewrite H in *; clear H; simpl in *
    | H : _ ∨ _ |- _ => destruct H as [H|H]
    | |- context [if ?b then _ else _] => destruct b
    end; simpl in *; try (split_and!; done || lia || auto).
  all: rewrite Hl in *; simpl; lia.
Qed.

Lemma inv_start m : start m → inv m.
Proof.
  intros [Hl Hc]. split; [|by left|].
  - rewrite Hl, tally_zero; [done|]. eapply Forall_impl; [done|].
    intros c [Hi _]. unfold owner. by rewrite Hi.
  - eapply Forall_impl; [done|]. intros c [Hi Hp]. unfold cpu_ok. by rewrite Hi, Hp.
Qed.

(** A step of CPU [i] that keeps the account. *)
Lemma inv_replace m i c l' c' :
  inv m → cpus m !! i = Some c → cpu_ok c' → (l' = 0 ∨ l' = 1) →
  l' = lock m - Z.b2z (owner c) + Z.b2z (owner c') →
  inv (mk_machine l' (<[i := c']> (cpus m))).
Proof.
  intros Hm Hi Hc' Hl' Hacc. split; simpl; [|done|by apply Forall_insert; [apply Hm|]].
  rewrite (tally_insert _ _ _ _ _ Hi), <-(inv_lock _ Hm). done.
Qed.

Lemma inv_step m m' : inv m → step m m' → inv m'.
Proof.
  intros Hm Hs. pose proof (inv_bit _ Hm) as Hb.
  destruct Hs as [m i c Hi Hne1 Hne2|m i c Hi Hat|m i c Hi Hat|m i c Hi Hat];
    pose proof (Forall_lookup_1 _ _ _ _ (inv_cpus _ Hm) Hi) as Hc.
  - pose proof (tally_at owner _ _ _ Hi) as Ho. rewrite <-(inv_lock _ Hm) in Ho.
    pose proof (exec_ok (lock m) (lock m - Z.b2z (owner c)) c Hc Hb ltac:(lia) ltac:(lia)) as Hx.
    destruct (exec (lock m) c) as [l' c'] eqn:E. destruct Hx as (H1 & H2 & H3).
    by eapply inv_replace.
  - eapply inv_replace; [done..| | |];
      unfold cpu_ok, owner, goto in *; simpl; rewrite Hat in *; simpl; [naive_solver|done|lia].
  - eapply inv_replace; [done..| | |];
      unfold cpu_ok, owner, goto in *; simpl; rewrite Hat in *; simpl; [naive_solver|done|lia].
  - eapply inv_replace; [done..| | |];
      unfold cpu_ok, owner, goto in *; simpl; rewrite Hat in *; simpl; [naive_solver|done|lia].
Qed.

Lemma inv_reachable m : reachable m → inv m.
Proof. induction 1; eauto using inv_start, inv_step. Qed.

(** A CPU executes [n] instructions, the others none. *)
Fixpoint exec_n (n : nat) (l : Z) (c : cpu) : Z * cpu :=
  match n with O => (l, c) | S n => let '(l', c') := exec l c in exec_n n l' c' end.

Definition run_alone (n : nat) (i : nat) (m : machine) : machine :=
  match cpus m !! i with
  | Some c => mk_machine (exec_n n (lock m) c).1 (<[i := (exec_n n (lock m) c).2]> (cpus m))
  | None => m
  end.

(** Where a CPU is inside [spin_lock] without the lock. *)
Definition waiting (c : cpu) : bool :=
  match at_ c with
  | Lock_preempt_inc | Lock_mov | Lock_xchg | Retry_pause | Retry_bt | Retry_jc | Retry_xchg => true
  | Lock_test | Lock_jz | Retry_test | Retry_jnz => negb (rax c =? 0)
  | _ => false
  end.

(** How many instructions are left when the lock is free, the [ret] included. *)
Definition to_go (c : cpu) : nat :=
  match at_ c with
  | Lock_preempt_inc => 6 | Lock_mov => 5 | Lock_xchg => 4 | Lock_test => 9 | Lock_jz => 8
  | Retry_pause => 7 | Retry_bt => 6 | Retry_jc => if cf c then 8 else 5 | Retry_xchg => 4
  | Retry_test => 9 | Retry_jnz => 8
  | _ => 0
  end.

(** Runs of one CPU, for evaluation: it is inside one of the functions at
    each of the [n] instructions. *)
Fixpoint busy (n : nat) (l : Z) (c : cpu) : bool :=
  match n with
  | O => true
  | S n => match at_ c with Idle | Held => false | _ => let '(l', c') := exec l c in busy n l' c' end
  end.

Lemma run_alone_reachable n i m c :
  reachable m → cpus m !! i = Some c → busy n (lock m) c = true → reachable (run_alone n i m).
Proof.
  revert m c. induction n as [|n IH]; intros m c Hm Hi Hb; unfold run_alone; rewrite Hi; simpl.
  - rewrite list_insert_id by done. by destruct m.
  - assert (at_ c ≠ Idle ∧ at_ c ≠ Held) as [H1 H2] by (simpl in Hb; by destruct (at_ c)).
    pose proof (reach_step _ _ Hm (step_instr m i c Hi H1 H2)) as Hm1.
    pose proof (lookup_lt_Some _ _ _ Hi) as Hlt.
    specialize (IH _ (exec (lock m) c).2 Hm1 ltac:(simpl; by rewrite list_lookup_insert_eq)).
    unfold run_alone in IH. simpl in IH. rewrite list_lookup_insert_eq, list_insert_insert_eq in IH by done.
    simpl in Hb. destruct (exec (lock m) c) as [l' c'] eqn:E. simpl in *. apply IH. by destruct (at_ c).
Qed.

(** ** Theorems *)

(** C18: on any number of CPUs, whatever the order in which their
    instructions interleave, at most one of them is between acquiring the
    spinlock (by spin_lock or a successful spin_try_lock) and releasing it;
    while one is, the lock word is 1 and that CPU's preemption count is
    raised; and a CPU outside the lock has its count back at 0. *)
Theorem spin_mutual_exclusion m i c :
  reachable m → cpus m !! i = Some c →
  (at_ c = Held → lock m = 1 ∧ preempt_count c = 1 ∧
     ∀ j d, cpus m !! j = Some d → at_ d = Held → j = i) ∧
  (at_ c = Idle → preempt_count c = 0).
Proof.
  intros Hm%inv_reachable Hi.
  pose proof (Forall_lookup_1 _ _ _ _ (inv_cpus _ Hm) Hi) as [_ Hp].
  split; intros Hat; rewrite Hat in Hp; [|done].
  assert (Ho : owner c = true) by (unfold owner; by rewrite Hat).
  pose proof (tally_at owner _ _ _ Hi) as H1. rewrite <-(inv_lock _ Hm), Ho in H1. simpl in H1.
  pose proof (inv_bit _ Hm) as Hb. split; [lia|]. split; [done|].
  intros j d Hj Hd. destruct (decide (j = i)) as [|Hne]; [done|].
  assert (Ho' : owner d = true) by (unfold owner; by rewrite Hd).
  pose proof (tally_two _ _ _ _ _ _ Hne Hj Hi Ho' Ho). rewrite <-(inv_lock _ Hm) in *. lia.
Qed.

(** C20: a CPU that waits in spin_lock while no CPU owns the lock has returned
    from it with the lock after at most nine of its own instructions (the
    number depends on where it is) when no other CPU executes one meanwhile,
    and the lock word then says so. *)
Theorem spin_lock_progress m i c :
  reachable m → cpus m !! i = Some c → waiting c = true → lock m = 0 →
  (to_go c ≤ 9)%nat ∧
    let m' := run_alone (to_go c) i m in
    lock m' = 1 ∧ ∃ c', cpus m' !! i = Some c' ∧ at_ c' = Held.
Proof.
  intros Hm%inv_reachable Hi Hw Hl.
  pose proof (Forall_lookup_1 _ _ _ _ (inv_cpus _ Hm) Hi) as [Hr _].
  assert (Hlen : (i < length (cpus m))%nat) by (by eapply lookup_lt_Some).
  assert ((to_go c ≤ 9)%nat ∧ (exec_n (to_go c) 0 c).1 = 1 ∧ at_ (exec_n (to_go c) 0 c).2 = Held) as (H9 & H1 & Hh).
  { clear Hi. destruct c as [p r z k pr]. unfold waiting, to_go in *. simpl in *.
    destruct p, k; simpl in *; try done; destruct_or?; destruct_and?; subst; simpl in *; try done; (split_and!; [lia|done|done]). }
  split; [done|]. unfold run_alone. rewrite Hi, Hl. simpl. split; [done|].
  eexists. by rewrite list_lookup_insert_eq.
Qed.

(** Two CPUs; the first has the lock and the second waits for it. *)
Definition two_cpus : machine := mk_machine 0 [mk_cpu Idle 0 false false 0; mk_cpu Idle 0 false false 0].

Lemma two_cpus_reachable : reachable two_cpus.
Proof. apply reach_start. split; [done|]. repeat constructor. Qed.

Definition first_called : machine := mk_machine 0 [mk_cpu Lock_preempt_inc 0 false false 0; mk_cpu Idle 0 false false 0].

Lemma first_called_reachable : reachable first_called.
Proof. eapply reach_step; [apply two_cpus_reachable|]. exact (step_lock two_cpus 0 _ eq_refl eq_refl). Qed.

Definition first_holds : machine := mk_machine 1 [mk_cpu Held 0 true false 1; mk_cpu Idle 0 false false 0].

Lemma first_holds_reachable : reachable first_holds.
Proof. by apply (run_alone_reachable 6 0 first_called _ first_called_reachable eq_refl). Qed.

Definition second_waits : machine := mk_machine 1 [mk_cpu Held 0 true false 1; mk_cpu Retry_bt 1 false true 1].

Lemma second_waits_reachable : reachable second_waits.
Proof.
  assert (reachable (mk_machine 1 [mk_cpu Held 0 true false 1; mk_cpu Lock_preempt_inc 0 false false 0])) as Hm.
  { eapply reach_step; [apply first_holds_reachable|]. exact (step_lock first_holds 1 _ eq_refl eq_refl). }
  by apply (run_alone_reachable 9 1 _ _ Hm eq_refl).
Qed.

Lemma spin_mutual_exclusion_witness :
  lock second_waits = 1 ∧ ∀ j d, cpus second_waits !! j = Some d → at_ d = Held → j = 0%nat.
Proof.
  destruct (spin_mutual_exclusion second_waits 0 (mk_cpu Held 0 true false 1) second_waits_reachable eq_refl) as [H _].
  destruct (H eq_refl) as (Hl & _ & Hj). split; [exact Hl|exact Hj].
Defined.

(** The first CPU has released the lock while the second was about to look. *)
Definition released : machine :=
  mk_machine 0 [mk_cpu Unlock_preempt_dec 0 true false 1; mk_cpu Retry_bt 1 false true 1].

Lemma released_reachable : reachable released.
Proof.
  assert (reachable (mk_machine 1 [mk_cpu Unlock_mov 0 true false 1; mk_cpu Retry_bt 1 false true 1])) as Hm.
  { eapply reach_step; [apply second_waits_reachable|]. exact (step_unlock second_waits 0 _ eq_refl eq_refl). }
  by apply (run_alone_reachable 1 0 _ _ Hm eq_refl).
Qed.

Lemma spin_lock_progress_witness : lock (run_alone 6 1 released) = 1.
Proof.
  destruct (spin_lock_progress released 1 _ released_reachable eq_refl eq_refl eq_refl) as (_ & Hl & _). exact Hl.
Defined.
End Spin.

(** ** The reader-writer lock

    Each statement of the four functions of include/sync.h is one step; a
    [spin_lock] of an inner lock is one blocking step that finds the word 0
    and sets it, which the theorems above justify, and counts preemption as
    spin.asm does. *)
Module RwSpin.

Record rwspinlock := mk_rw { readers : Z; rd_lock : Z; wr_lock : Z }.

Inductive pc :=
| Outside | Reading | Writing
| Rd_lock | Rd_inc | Rd_first | Rd_preempt | Rd_unlock           (* read_spin_lock *)
| Ru_lock | Ru_dec | Ru_last | Ru_preempt | Ru_unlock            (* read_spin_unlock *)
| Wr_lock                                                        (* write_spin_lock *)
| Wu_unlock.                                                     (* write_spin_unlock *)

#[global] Instance pc_eq_dec : EqDecision pc.
Proof. solve_decision. Defined.

Record cpu := mk_cpu { at_ : pc; local_readers : Z; preempt_count : Z }.

Definition goto (p : pc) (c : cpu) : cpu := mk_cpu p (local_readers c) (preempt_count c).
Definition preempt (d : Z) (c : cpu) : cpu :=
  mk_cpu (at_ c) (local_readers c) (u32 (preempt_count c + d)).
Definition set_local (n : Z) (c : cpu) : cpu := mk_cpu (at_ c) n (preempt_count c).

Definition set_rd (v : Z) (l : rwspinlock) := mk_rw (readers l) v (wr_lock l).
Definition set_wr (v : Z) (l : rwspinlock) := mk_rw (readers l) (rd_lock l) v.
Definition set_readers (v : Z) (l : rwspinlock) := mk_rw v (rd_lock l) (wr_lock l).

(** [None]: the CPU spins. *)
Definition read_spin_lock (l : rwspinlock) (c : cpu) : option (rwspinlock * cpu) :=
  match at_ c with
  | Rd_lock =>
      if rd_lock l =? 0 then Some (set_rd 1 l, goto Rd_inc (preempt 1 c)) else None
  | Rd_inc =>
      let n := u64 (readers l + 1) in Some (set_readers n l, goto Rd_first (set_local n c))
  | Rd_first =>
      if local_readers c =? 1
      then if wr_lock l =? 0 then Some (set_wr 1 l, goto Rd_preempt (preempt 1 c)) else None
      else Some (l, goto Rd_preempt c)
  | Rd_preempt => Some (l, goto Rd_unlock (preempt 1 c))
  | Rd_unlock => Some (set_rd 0 l, goto Reading (preempt (-1) c))
  | _ => None
  end.

Definition read_spin_unlock (l : rwspinlock) (c : cpu) : option (rwspinlock * cpu) :=
  match at_ c with
  | Ru_lock =>
      if rd_lock l =? 0 then Some (set_rd 1 l, goto Ru_dec (preempt 1 c)) else None
  | Ru_dec =>
      let n := u64 (readers l - 1) in Some (set_readers n l, goto Ru_last (set_local n c))
  | Ru_last =>
      if local_readers c =? 0
      then Some (set_wr 0 l, goto Ru_preempt (preempt (-1) c))
      else Some (l, goto Ru_preempt c)
  | Ru_preempt => Some (l, goto Ru_unlock (preempt (-1) c))
  | Ru_unlock => Some (set_rd 0 l, goto Outside (preempt (-1) c))
  | _ => None
  end.

Definition write_spin_lock (l : rwspinlock) (c : cpu) : option (rwspinlock * cpu) :=
  match at_ c with
  | Wr_lock => if wr_lock l =? 0 then Some (set_wr 1 l, goto Writing (preempt 1 c)) else None
  | _ => None
  end.

Definition write_spin_unlock (l : rwspinlock) (c : cpu) : option (rwspinlock * cpu) :=
  match at_ c with
  | Wu_unlock => Some (set_wr 0 l, goto Outside (preempt (-1) c))
  | _ => None
  end.

Definition exec (l : rwspinlock) (c : cpu) : option (rwspinlock * cpu) :=
  match at_ c with
  | Rd_lock | Rd_inc | Rd_first | Rd_preempt | Rd_unlock => read_spin_lock l c
  | Ru_lock | Ru_dec | Ru_last | Ru_preempt | Ru_unlock => read_spin_unlock l c
  | Wr_lock => write_spin_lock l c
  | Wu_unlock => write_spin_unlock l c
  | Outside | Reading | Writing => None
  end.

(** The calls a CPU may make from where it is. *)
Definition call (p : pc) : list pc :=
  match p with
  | Outside => [Rd_lock; Wr_lock]
  | Reading => [Ru_lock]
  | Writing => [Wu_unlock]
  | _ => []
  end.

Record machine := mk_machine { rw : rwspinlock; cpus : list cpu }.

Inductive step : machine → machine → Prop :=
| step_exec m i c l' c' :
    cpus m !! i = Some c → exec (rw m) c = Some (l', c') →
    step m (mk_machine l' (<[i := c']> (cpus m)))
| step_call m i c p :
    cpus m !! i = Some c → p ∈ call (at_ c) →
    step m (mk_machine (rw m) (<[i := goto p c]> (cpus m))).

Definition start (m : machine) : Prop :=
  rw m = mk_rw 0 0 0 ∧ Forall (λ c, at_ c = Outside ∧ preempt_count c = 0) (cpus m) ∧
  Z.of_nat (length (cpus m)) < 2 ^ 64.

Inductive reachable : machine → Prop :=
| reach_start m : start m → reachable m
| reach_step m m' : reachable m → step m m' → reachable m'.

(** ** Invariant *)

(** Has [rd_lock]; is counted in [readers]; has [wr_lock] as a writer; still
    has to take [wr_lock] for the readers; still has to give it back. *)
Definition inside (c : cpu) : bool :=
  match at_ c with
  | Rd_inc | Rd_first | Rd_preempt | Rd_unlock | Ru_dec | Ru_last | Ru_preempt | Ru_unlock => true
  | _ => false
  end.
Definition counted (c : cpu) : bool :=
  match at_ c with
  | Rd_first | Rd_preempt | Rd_unlock | Reading | Ru_lock | Ru_dec => true
  | _ => false
  end.
Definition writer (c : cpu) : bool :=
  match at_ c with Writing | Wu_unlock => true | _ => false end.
Definition taking (c : cpu) : bool :=
  match at_ c with Rd_first => local_readers c =? 1 | _ => false end.
Definition giving (c : cpu) : bool :=
  match at_ c with Ru_last => local_readers c =? 0 | _ => false end.

(** The readers' share of [wr_lock]. *)
Definition share (m : machine) : Z :=
  Z.b2z (0 <? readers (rw m)) - tally taking (cpus m) + tally giving (cpus m).

(** The local copy of the count is current while it is about to be used. *)
Definition current (l : rwspinlock) (c : cpu) : Prop :=
  match at_ c with Rd_first | Ru_last => local_readers c = readers l | _ => True end.

Record inv (m : machine) : Prop := {
  inv_rd : rd_lock (rw m) = tally inside (cpus m);
  inv_rd_bit : tally inside (cpus m) ≤ 1;
  inv_readers : readers (rw m) = tally counted (cpus m);
  inv_wr : wr_lock (rw m) = tally writer (cpus m) + share m;
  inv_wr_bit : wr_lock (rw m) ≤ 1;
  inv_current : Forall (current (rw m)) (cpus m);
  inv_few : Z.of_nat (length (cpus m)) < 2 ^ 64
}.

Lemma rw_inv_start m : start m → inv m.
Proof.
  intros (Hl & Hc & Hn).
  assert (Hz : ∀ f : cpu → bool, (∀ c, at_ c = Outside → f c = false) → tally f (cpus m) = 0).
  { intros f Hf. apply tally_zero. eapply Forall_impl; [done|]. intros c [? _]. by apply Hf. }
  pose proof (Hz inside ltac:(unfold inside; by intros ? ->)) as H1.
  pose proof (Hz counted ltac:(unfold counted; by intros ? ->)) as H2.
  pose proof (Hz writer ltac:(unfold writer; by intros ? ->)) as H3.
  pose proof (Hz taking ltac:(unfold taking; by intros ? ->)) as H4.
  pose proof (Hz giving ltac:(unfold giving; by intros ? ->)) as H5.
  split; unfold share; rewrite ?H1, ?H2, ?H3, ?H4, ?H5, ?Hl; try done.
  eapply Forall_impl; [done|]. intros c [Hat _]. unfold current. by rewrite Hat.
Qed.

(** Only one CPU has [rd_lock], so whatever implies having it is counted by
    that CPU alone. *)
Lemma tally_alone (f : cpu → bool) m i c :
  inv m → cpus m !! i = Some c → inside c = true → (∀ d, f d = true → inside d = true) →
  tally f (cpus m) = Z.b2z (f c).
Proof.
  intros Hm Hi Hc Hf. pose proof (tally_at f _ _ _ Hi) as Hle.
  pose proof (inv_rd_bit _ Hm) as H1.
  assert (0 < tally f (<[i := goto Outside c]> (cpus m)) → False) as Hno.
  { intros (j & d & Hj & Hd)%tally_pos.
    apply list_lookup_insert_Some in Hj as [(<- & <- & _)|(Hne & Hj)]; [by apply Hf in Hd|].
    pose proof (tally_two inside _ _ _ _ _ Hne Hi Hj Hc (Hf _ Hd)). lia. }
  pose proof (tally_nonneg f (<[i := goto Outside c]> (cpus m))) as Hnn.
  rewrite (tally_insert _ _ _ _ _ Hi) in Hnn, Hno.
  assert (f (goto Outside c) = false) as Hx.
  { destruct (f (goto Outside c)) eqn:E; [|done]. by apply Hf in E. }
  rewrite Hx in Hnn, Hno. simpl in *. lia.
Qed.

Lemma taking_inside d : taking d = true → inside d = true.
Proof. unfold taking, inside. by destruct (at_ d). Qed.
Lemma giving_inside d : giving d = true → inside d = true.
Proof. unfold giving, inside. by destruct (at_ d). Qed.

Lemma share_nonneg m : inv m → 0 ≤ share m.
Proof.
  intros Hm. unfold share. pose proof (tally_nonneg giving (cpus m)).
  destruct (decide (0 < tally taking (cpus m))) as [Hp|]; [|destruct (_ <? _); simpl; lia].
  apply tally_pos in Hp as (i & c & Hi & Hc).
  rewrite (tally_alone taking m i c Hm Hi (taking_inside _ Hc) taking_inside), Hc.
  pose proof (Forall_lookup_1 _ _ _ _ (inv_current _ Hm) Hi) as Hcur.
  unfold current, taking in *. destruct (at_ c); try done. apply Z.eqb_eq in Hc.
  rewrite <-Hcur, Hc. simpl. lia.
Qed.

(** A step of CPU [i] that keeps the accounts. *)
Lemma rw_inv_replace m i c l' c' :
  inv m → cpus m !! i = Some c →
  rd_lock l' = rd_lock (rw m) - Z.b2z (inside c) + Z.b2z (inside c') → rd_lock l' ≤ 1 →
  readers l' = readers (rw m) - Z.b2z (counted c) + Z.b2z (counted c') →
  wr_lock l' = wr_lock (rw m) - Z.b2z (writer c) + Z.b2z (writer c')
    + (Z.b2z (0 <? readers l') - Z.b2z (0 <? readers (rw m)))
    + (Z.b2z (taking c) - Z.b2z (taking c')) - (Z.b2z (giving c) - Z.b2z (giving c')) →
  wr_lock l' ≤ 1 →
  current l' c' → (inside c = true ∨ readers l' = readers (rw m)) →
  inv (mk_machine l' (<[i := c']> (cpus m))).
Proof.
  intros Hm Hi Hrd Hrd1 Hr Hw Hw1 Hcur Hch.
  pose proof (inv_rd _ Hm). pose proof (inv_wr _ Hm) as Hs. unfold share in Hs.
  split; unfold share; simpl; rewrite ?(tally_insert _ _ _ _ _ Hi), ?length_insert; try lia.
  - rewrite <-(inv_readers _ Hm). lia.
  - apply Forall_lookup_2. intros j d Hj.
    apply list_lookup_insert_Some in Hj as [(<- & <- & _)|(Hne & Hj)]; [done|].
    pose proof (Forall_lookup_1 _ _ _ _ (inv_current _ Hm) Hj) as Hd.
    destruct Hch as [Hin|Heq]; [|unfold current in *; by rewrite Heq].
    pose proof (tally_two inside _ _ _ _ _ Hne Hi Hj Hin) as H2. pose proof (inv_rd_bit _ Hm).
    unfold current, inside in *. destruct (at_ d); try done; specialize (H2 eq_refl); lia.
  - apply Hm.
Qed.

(** What the accounts say about the CPU that moves. *)
Lemma inv_facts m i c :
  inv m → cpus m !! i = Some c →
  current (rw m) c ∧ Z.b2z (inside c) ≤ rd_lock (rw m) ≤ 1 ∧
  Z.b2z (counted c) ≤ readers (rw m) ∧ readers (rw m) + 1 - Z.b2z (counted c) < 2 ^ 64 ∧
  Z.b2z (writer c) ≤ wr_lock (rw m) ≤ 1 ∧
  (inside c = true →
   wr_lock (rw m) = tally writer (cpus m) + Z.b2z (0 <? readers (rw m)) - Z.b2z (taking c) + Z.b2z (giving c)
   ∧ 0 ≤ tally writer (cpus m)).
Proof.
  intros Hm Hi. pose proof (share_nonneg _ Hm) as Hsh.
  pose proof (tally_at inside _ _ _ Hi). pose proof (tally_at counted _ _ _ Hi).
  pose proof (tally_at writer _ _ _ Hi).
  pose proof (tally_bound counted (<[i := goto Reading c]> (cpus m))) as Hb.
  rewrite (tally_insert _ _ _ _ _ Hi), length_insert in Hb. simpl in Hb.
  rewrite (inv_rd _ Hm), (inv_readers _ Hm), (inv_wr _ Hm).
  pose proof (inv_few _ Hm). pose proof (inv_rd_bit _ Hm).
  pose proof (inv_wr_bit _ Hm) as Hw1. rewrite (inv_wr _ Hm) in Hw1.
  split; [exact (Forall_lookup_1 _ _ _ _ (inv_current _ Hm) Hi)|].
  split; [lia|]. split; [lia|]. split; [lia|]. split; [lia|]. intros Hin.
  split; [|apply tally_nonneg]. unfold share.
  rewrite (tally_alone taking m i c Hm Hi Hin taking_inside).
  rewrite (tally_alone giving m i c Hm Hi Hin giving_inside), (inv_readers _ Hm). lia.
Qed.

Ltac rw_case :=
  repeat match goal with
  | |- context [?a =? ?b] => destruct (Z.eqb_spec a b)
  | |- context [?a <? ?b] => destruct (Z.ltb_spec a b)
  | H : context [?a =? ?b] |- _ => destruct (Z.eqb_spec a b)
  | H : context [?a <? ?b] |- _ => destruct (Z.ltb_spec a b)
  end; simpl in *; try lia.

Lemma inv_exec m i c l' c' :
  inv m → cpus m !! i = Some c → exec (rw m) c = Some (l', c') →
  inv (mk_machine l' (<[i := c']> (cpus m))).
Proof.
  intros Hm Hi He. destruct (inv_facts _ _ _ Hm Hi) as (Hcur & Hrd & Hr & Hfew & Hw & Hin).
  assert (in_u 64 (readers (rw m))) as Hu.
  { unfold in_u. destruct (counted c); simpl in *; lia. }
  eapply rw_inv_replace; [done..| | | | | | |];
    unfold exec, read_spin_lock, read_spin_unlock, write_spin_lock, write_spin_unlock,
      inside, counted, writer, taking, giving, current in *;
    destruct c as [p r n]; simpl in *; destruct p; simpl in *; try done;
    repeat (case_match; try done); simplify_eq; simpl;
    rewrite ?(uwrap_id 64) by (unfold in_u; lia); try specialize (Hin eq_refl); rw_case; auto.
Qed.

Lemma rw_inv_step m m' : inv m → step m m' → inv m'.
Proof.
  intros Hm Hs. destruct Hs as [m i c l' c' Hi He|m i c q Hi Hq]; [by eapply inv_exec|].
  destruct (inv_facts _ _ _ Hm Hi) as (_ & Hrd & _ & _ & Hw & _).
  destruct c as [p r n]. unfold goto in *.
  eapply rw_inv_replace; [done..| | | | | | |]; simpl; try lia;
    destruct p; simpl in Hq; try (by apply elem_of_nil in Hq);
    repeat (apply elem_of_cons in Hq as [->|Hq]); try (by apply elem_of_nil in Hq);
    unfold inside, counted, writer, taking, giving, current; simpl; try done; try lia; auto.
Qed.

Lemma rw_inv_reachable m : reachable m → inv m.
Proof. induction 1; eauto using rw_inv_start, rw_inv_step. Qed.

(** ** Executable runs: CPU [i] makes a step, or the call given. *)
Definition move (e : nat * option pc) (m : machine) : option machine :=
  c ← cpus m !! e.1;
  match e.2 with
  | None => '(l, c') ← exec (rw m) c; Some (mk_machine l (<[e.1 := c']> (cpus m)))
  | Some p =>
      if bool_decide (p ∈ call (at_ c)) then Some (mk_machine (rw m) (<[e.1 := goto p c]> (cpus m)))
      else None
  end.

Fixpoint run (es : list (nat * option pc)) (m : machine) : option machine :=
  match es with [] => Some m | e :: es => m' ← move e m; run es m' end.

Lemma run_reachable es m m' : reachable m → run es m = Some m' → reachable m'.
Proof.
  revert m. induction es as [|[i e] es IH]; simpl; intros m Hm Hr; [by simplify_eq|].
  apply bind_Some in Hr as (m1 & Hmove & Hr). eapply IH; [|done]. eapply reach_step; [done|].
  unfold move in Hmove. simpl in Hmove. apply bind_Some in Hmove as (c & Hi & Hmove).
  destruct e as [p|].
  - case_bool_decide; simplify_eq. by eapply step_call.
  - apply bind_Some in Hmove as ([l c'] & He & ?). simplify_eq. by eapply step_exec.
Qed.

Lemma writer_alone m i c j d :
  reachable m → cpus m !! i = Some c → at_ c = Writing →
  cpus m !! j = Some d → at_ d = Reading ∨ at_ d = Writing → j = i.
Proof.
  intros Hm%rw_inv_reachable Hi Hc Hj Hd. destruct (decide (j = i)) as [|Hne]; [done|exfalso].
  assert (Hwc : writer c = true) by (unfold writer; by rewrite Hc).
  pose proof (inv_wr_bit _ Hm) as H1. rewrite (inv_wr _ Hm) in H1.
  pose proof (share_nonneg _ Hm) as H0.
  destruct Hd as [Hd|Hd].
  2:{ assert (Hwd : writer d = true) by (unfold writer; by rewrite Hd).
      pose proof (tally_two _ _ _ _ _ _ Hne Hj Hi Hwd Hwc). lia. }
  assert (Hcd : counted d = true) by (unfold counted; by rewrite Hd).
  pose proof (tally_at writer _ _ _ Hi) as Hw. rewrite Hwc in Hw. simpl in Hw.
  pose proof (tally_at counted _ _ _ Hj) as Hr. rewrite Hcd, <-(inv_readers _ Hm) in Hr. simpl in Hr.
  assert (share m ≤ 0) as Hs by lia. unfold share in Hs.
  destruct (Z.ltb_spec 0 (readers (rw m))) as [_|]; [|lia]. simpl in Hs.
  pose proof (tally_nonneg giving (cpus m)).
  assert (0 < tally taking (cpus m)) as (k & e & Hk & He)%tally_pos by lia.
  pose proof (Forall_lookup_1 _ _ _ _ (inv_current _ Hm) Hk) as Hcur.
  unfold current, taking in *. destruct (at_ e) eqn:Eat; try done. apply Z.eqb_eq in He.
  assert (Hce : counted e = true) by (unfold counted; by rewrite Eat).
  assert (k ≠ j) as Hkj by (intros ->; congruence).
  pose proof (tally_two _ _ _ _ _ _ Hkj Hk Hj Hce Hcd) as H2. rewrite <-(inv_readers _ Hm) in H2. lia.
Qed.

(** ** Theorems *)

(** C19: on any number of CPUs (fewer than 2^64) and in any interleaving, the
    reader-writer lock admits one writer at a time and no reader beside it:
    when a CPU is between write_spin_lock and write_spin_unlock, every other
    CPU is outside both critical sections. *)
Theorem rwspin_exclusion m i c j d :
  reachable m → cpus m !! i = Some c → at_ c = Writing →
  cpus m !! j = Some d → j ≠ i → at_ d ≠ Reading ∧ at_ d ≠ Writing.
Proof.
  intros Hm Hi Hc Hj Hne. split; intros Hd; apply Hne; eapply writer_alone; eauto.
Qed.

Definition two_cpus : machine :=
  mk_machine (mk_rw 0 0 0) [mk_cpu Outside 0 0; mk_cpu Outside 0 0].

Lemma rw_two_cpus_reachable : reachable two_cpus.
Proof. apply reach_start. split_and!; [done| |done]. repeat constructor. Qed.

(** CPU [i] goes through the function it calls at [p], [n] statements long. *)
Definition through (i : nat) (p : pc) (n : nat) : list (nat * option pc) :=
  (i, Some p) :: replicate n (i, None).

(** CPU 0 writes; CPU 1 has come as a reader up to the lock the writer has. *)
Definition writer_and_reader : machine :=
  mk_machine (mk_rw 1 1 1) [mk_cpu Writing 0 1; mk_cpu Rd_first 1 1].

Lemma writer_and_reader_reachable : reachable writer_and_reader.
Proof.
  eapply (run_reachable (through 0 Wr_lock 1 ++ through 1 Rd_lock 2) two_cpus); [apply rw_two_cpus_reachable|done].
Qed.

Lemma rwspin_exclusion_witness :
  at_ (mk_cpu Writing 0 1) = Writing ∧
  ∃ d, cpus writer_and_reader !! 1%nat = Some d ∧ at_ d ≠ Reading ∧ at_ d ≠ Writing.
Proof.
  split; [reflexivity|]. exists (mk_cpu Rd_first 1 1). split; [reflexivity|].
  apply (rwspin_exclusion writer_and_reader 0 (mk_cpu Writing 0 1) 1 (mk_cpu Rd_first 1 1) writer_and_reader_reachable);
    [reflexivity|reflexivity|reflexivity|discriminate].
Defined.

(** The preemption counts do not balance.  CPU 0 takes the lock for
    reading, CPU 1 takes it too, CPU 0 releases it, CPU 1 releases it: every
    word of the lock is free again and both CPUs are outside, but the count
    of CPU 0 is still 1 (it never becomes preemptible again) and that of
    CPU 1 has wrapped below 0, because the inner spin_lock of wr_lock raises
    the count of the first reader and its spin_unlock lowers that of the
    last. *)
Theorem rwspin_preempt_unbalanced :
  ∃ m, reachable m ∧ rw m = mk_rw 0 0 0 ∧ at_ <$> cpus m = [Outside; Outside] ∧
       preempt_count <$> cpus m = [1; 2 ^ 32 - 1].
Proof.
  pose (es := through 0 Rd_lock 5 ++ through 1 Rd_lock 5 ++ through 0 Ru_lock 5 ++ through 1 Ru_lock 5).
  exists (default two_cpus (run es two_cpus)).
  split; [|by vm_compute]. eapply (run_reachable es); [apply rw_two_cpus_reachable|by vm_compute].
Qed.
End RwSpin.
