(* ===== verification/Tlb.v ===== *)
(** * TLB shootdown

    [tlb_shootdown] of kernel/mm/tlb.c and [ipi_tlb_shootdown] of
    kernel/smp/ipi.c on any number of CPUs, one statement at a time and in
    any interleaving.  A CPU runs its own code while it is not in the handler;
    the request it sends waits at the other CPU until that one takes the
    interrupt, which it does when its interrupt flag is set.  What then runs is
    what the table of isr.c has at the vector: [ipi_tlb_shootdown] where it is
    installed, nothing where the entry is the zeroed one the kernel starts
    with (the acknowledged request is then lost).  Nothing in the kernel
    installs the handler, so the table is a variable here and both cases are
    followed.  The two spinlocks are taken in one step, as Sync.v justifies.
    The operation [op] lives on the stack of the CPU that runs
    [tlb_shootdown]: a handler that reads it after the function has returned
    sets [wild].

    Translations in a TLB carry the number of the shootdown during which they
    were loaded, so that a stale one is known by a smaller number. *)

From stdpp Require Import base list gmap.
From Stdlib Require Import ZArith Lia Bool.
From S2P Require Import Prelude Addr Cpuset Interrupts.
Local Open Scope Z_scope.

(** The arguments of a call: address space, start and end. *)
Record job := mk_job { j_mmu : Z; j_start : Z; j_end : Z }.

(** Where a CPU is in [tlb_shootdown]. *)
Inductive phase :=
| Idle
| Lock1 (j : job)           (* spin_lock(&shootdown_lock) *)
| Lock2 (j : job)           (* spin_lock(&mmu->cpu_lock) *)
| Publish (j : job)         (* tlb_op_location = &op *)
| Send (j : job) (i : nat)  (* the loop that sends the interrupts *)
| Wait (j : job)            (* while (tlb_remaining_cpus != 0) *)
| Drop1 (j : job)           (* spin_unlock(&mmu->cpu_lock) *)
| Drop2 (j : job).          (* spin_unlock(&shootdown_lock) *)

(** Where it is in [ipi_tlb_shootdown]; [o] is the CPU whose [op] is used. *)
Inductive handler :=
| HNone
| HStart
| HLoop (o : nat) (i : Z)
| HDec
| HEoi.

(** [irq] is the interrupt flag; [dropped] records that a request was
    acknowledged and nothing was run for it. *)
Record cpu := mk_cpu { ph : phase; pend : bool; hnd : handler; tlb : gmap Z nat; irq : bool; dropped : bool }.

Definition set_ph v c := mk_cpu v (pend c) (hnd c) (tlb c) (irq c) (dropped c).
Definition set_pend v c := mk_cpu (ph c) v (hnd c) (tlb c) (irq c) (dropped c).
Definition set_hnd v c := mk_cpu (ph c) (pend c) v (tlb c) (irq c) (dropped c).
Definition set_tlb v c := mk_cpu (ph c) (pend c) (hnd c) v (irq c) (dropped c).
Definition set_irq v c := mk_cpu (ph c) (pend c) (hnd c) (tlb c) v (dropped c).
Definition drop c := mk_cpu (ph c) false (hnd c) (tlb c) (irq c) true.

(** [sd_lock] names the CPU that holds [shootdown_lock]. *)
Record tstate := mk_tstate {
  cpus : list cpu;
  sd_lock : option nat;
  cpu_lock : gmap Z bool;
  cpu_set : gmap Z Z;
  op_location : option nat;
  remaining : Z;
  epoch : nat;
  wild : bool
}.

Definition upd_cpu c p s := mk_tstate (<[c := p]> (cpus s)) (sd_lock s) (cpu_lock s) (cpu_set s) (op_location s) (remaining s) (epoch s) (wild s).
Definition upd_sd v s := mk_tstate (cpus s) v (cpu_lock s) (cpu_set s) (op_location s) (remaining s) (epoch s) (wild s).
Definition upd_cpu_lock m v s := mk_tstate (cpus s) (sd_lock s) (<[m := v]> (cpu_lock s)) (cpu_set s) (op_location s) (remaining s) (epoch s) (wild s).
Definition upd_cpu_set m v s := mk_tstate (cpus s) (sd_lock s) (cpu_lock s) (<[m := v]> (cpu_set s)) (op_location s) (remaining s) (epoch s) (wild s).
Definition upd_op v s := mk_tstate (cpus s) (sd_lock s) (cpu_lock s) (cpu_set s) v (remaining s) (epoch s) (wild s).
Definition upd_remaining v s := mk_tstate (cpus s) (sd_lock s) (cpu_lock s) (cpu_set s) (op_location s) v (epoch s) (wild s).
Definition upd_epoch v s := mk_tstate (cpus s) (sd_lock s) (cpu_lock s) (cpu_set s) (op_location s) (remaining s) v (wild s).
Definition go_wild s := mk_tstate (cpus s) (sd_lock s) (cpu_lock s) (cpu_set s) (op_location s) (remaining s) (epoch s) true.

Section Code.
Context {BC : BuildConfig}.

(** ** The code *)

(** [ipi_send_fixed(i, IRQ_IPI_TLB_SHOOTDOWN)]: the request is pending at CPU
    [i]; a second one before it is taken would be lost. *)
Definition ipi_send_fixed (i : nat) (s : tstate) : tstate :=
  match cpus s !! i with
  | Some q => upd_cpu i (set_pend true q) s
  | None => go_wild s
  end.

(** [cpuset_query_id(&mmu->cpus, i)] *)
Definition queried (m : Z) (i : nat) (s : tstate) : outcome (bool * Z) :=
  cpuset_query_id (Z.of_nat i) (default 0 (cpu_set s !! m)).

(** The next statement of [tlb_shootdown] on CPU [c]; [None] while it spins. *)
Definition tlb_shootdown (c : nat) (p : cpu) (s : tstate) : option tstate :=
  match ph p with
  | Idle => None
  | Lock1 j =>
      match sd_lock s with
      | Some _ => None
      | None => Some (upd_cpu c (set_ph (Lock2 j) p) (upd_sd (Some c) s))
      end
  | Lock2 j =>
      if default false (cpu_lock s !! j_mmu j) then None
      else Some (upd_cpu c (set_ph (Publish j) p) (upd_cpu_lock (j_mmu j) true s))
  | Publish j =>
      Some (upd_cpu c (set_ph (Send j 0) p) (upd_epoch (S (epoch s)) (upd_op (Some c) s)))
  | Send j i =>
      if decide (i < length (cpus s))%nat then
        if decide (i = c) then Some (upd_cpu c (set_ph (Send j (S i)) p) s)
        else
          match queried (j_mmu j) i s with
          | Ok (true, _) =>
              Some (upd_cpu c (set_ph (Send j (S i)) p)
                      (ipi_send_fixed i (upd_remaining (u32 (remaining s + 1)) s)))
          | Ok (false, _) => Some (upd_cpu c (set_ph (Send j (S i)) p) s)
          | _ => Some (go_wild s)
          end
      else Some (upd_cpu c (set_ph (Wait j) p) s)
  | Wait j => if remaining s =? 0 then Some (upd_cpu c (set_ph (Drop1 j) p) s) else None
  | Drop1 j => Some (upd_cpu c (set_ph (Drop2 j) p) (upd_cpu_lock (j_mmu j) false s))
  | Drop2 j => Some (upd_cpu c (set_ph Idle p) (upd_sd None s))
  end.

(** The object [op] points to, while the function that declares it runs. *)
Definition live_op (o : nat) (s : tstate) : option job :=
  match ph <$> cpus s !! o with
  | None | Some Idle => None
  | Some (Lock1 j) | Some (Lock2 j) | Some (Publish j) | Some (Send j _)
  | Some (Wait j) | Some (Drop1 j) | Some (Drop2 j) => Some j
  end.

(** The next statement of [ipi_tlb_shootdown] on CPU [c]. *)
Definition ipi_tlb_shootdown (c : nat) (p : cpu) (s : tstate) : option tstate :=
  match hnd p with
  | HNone => None
  | HStart =>
      match op_location s with
      | Some o =>
          match live_op o s with
          | Some j => Some (upd_cpu c (set_hnd (HLoop o (j_start j)) p) s)
          | None => Some (go_wild s)
          end
      | None => Some (go_wild s)
      end
  | HLoop o i =>
      match live_op o s with
      | Some j =>
          if i <? j_end j
          then Some (upd_cpu c (set_hnd (HLoop o (u64 (i + PAGE_SIZE))) (set_tlb (delete i (tlb p)) p)) s)
          else Some (upd_cpu c (set_hnd HDec p) s)
      | None => Some (go_wild s)
      end
  | HDec => Some (upd_cpu c (set_hnd HEoi p) (upd_remaining (u32 (remaining s - 1)) s))
  | HEoi => Some (upd_cpu c (set_hnd HNone p) s)
  end.
End Code.

(** ** Interleavings *)

Definition range_ok (j : job) : Prop := 0 ≤ j_start j ∧ j_end j + PAGE_SIZE < 2 ^ 64.

(** [table] is the table of handlers, [ipi] the address of
    [ipi_tlb_shootdown].  The function itself leaves the interrupt flag alone. *)
Inductive step `{BuildConfig} (table : list isr_info) (ipi : Z) (s : tstate) : tstate → Prop :=
| step_call c p j : cpus s !! c = Some p → hnd p = HNone → ph p = Idle → range_ok j →
    step table ipi s (upd_cpu c (set_ph (Lock1 j) p) s)
| step_main c p s' : cpus s !! c = Some p → hnd p = HNone → tlb_shootdown c p s = Some s' → step table ipi s s'
| step_deliver c p : cpus s !! c = Some p → pend p = true → hnd p = HNone → irq p = true →
    installed table IRQ_IPI_TLB_SHOOTDOWN ipi = true →
    step table ipi s (upd_cpu c (set_hnd HStart (set_pend false p)) s)
| step_ignore c p : cpus s !! c = Some p → pend p = true → hnd p = HNone → irq p = true →
    table !! Z.to_nat IRQ_IPI_TLB_SHOOTDOWN = Some no_info →
    step table ipi s (upd_cpu c (drop p) s)
| step_irq c p b : cpus s !! c = Some p → hnd p = HNone → ph p = Idle →
    step table ipi s (upd_cpu c (set_irq b p) s)
| step_handler c p s' : cpus s !! c = Some p → ipi_tlb_shootdown c p s = Some s' → step table ipi s s'
| step_fill c p v : cpus s !! c = Some p → step table ipi s (upd_cpu c (set_tlb (<[v := epoch s]> (tlb p)) p) s)
| step_cpuset m w : cpu_lock s !! m ≠ Some true → step table ipi s (upd_cpu_set m w s).

(** Before the first call nothing is pending. *)
Definition start (s : tstate) : Prop :=
  Forall (λ p, ph p = Idle ∧ pend p = false ∧ hnd p = HNone ∧ dropped p = false) (cpus s) ∧
  Z.of_nat (length (cpus s)) ≤ MAX_CORES ∧ sd_lock s = None ∧ remaining s = 0 ∧ wild s = false.

Definition reachable `{BuildConfig} (table : list isr_info) (ipi : Z) (s : tstate) : Prop :=
  ∃ s0, start s0 ∧ rtc (step table ipi) s0 s.

(** ** The invariant *)

(** Asked to flush and not yet reported. *)
Definition busy (p : cpu) : bool :=
  pend p || dropped p || match hnd p with HStart | HLoop _ _ | HDec => true | _ => false end.

Definition targeted (s : tstate) (m : Z) (c : nat) : bool := member (default 0 (cpu_set s !! m)) (Z.of_nat c).

Definition fresh (s : tstate) (p : cpu) (v : Z) : Prop := ∀ e, tlb p !! v = Some e → e = epoch s.

(** No stale translation of a page of [[st, en)] is left. *)
Definition flushed (s : tstate) (p : cpu) (st en : Z) : Prop :=
  ∀ n, 0 ≤ n → st + n * PAGE_SIZE < en → fresh s p (st + n * PAGE_SIZE).

(** A CPU that was sent the request. *)
Definition sent_ok (s : tstate) (o : nat) (j : job) (p : cpu) : Prop :=
  match hnd p with
  | HStart => pend p = false ∧ dropped p = false
  | HLoop o' i => (pend p = false ∧ dropped p = false) ∧ o' = o ∧ (∃ n, 0 ≤ n ∧ i = j_start j + n * PAGE_SIZE) ∧
      flushed s p (j_start j) i
  | HDec => (pend p = false ∧ dropped p = false) ∧ flushed s p (j_start j) (j_end j)
  | HNone | HEoi => pend p = true ∨ dropped p = true ∨ flushed s p (j_start j) (j_end j)
  end.

(** The other CPUs while [o] is in phase [f]. *)
Definition other_ok (s : tstate) (o : nat) (f : phase) (c : nat) (p : cpu) : Prop :=
  match f with
  | Idle | Lock1 _ => False
  | Lock2 _ | Publish _ | Drop2 _ => busy p = false
  | Send j i => if decide (c < i)%nat then if targeted s (j_mmu j) c then sent_ok s o j p else busy p = false
                else busy p = false
  | Wait j => if targeted s (j_mmu j) c then sent_ok s o j p else busy p = false
  | Drop1 j => busy p = false ∧ (targeted s (j_mmu j) c = true → flushed s p (j_start j) (j_end j))
  end.

Definition owner_ok (s : tstate) (o : nat) (f : phase) : Prop :=
  match f with
  | Idle | Lock1 _ => False
  | Lock2 j => range_ok j
  | Publish j => range_ok j ∧ cpu_lock s !! j_mmu j = Some true
  | Send j _ | Wait j => range_ok j ∧ cpu_lock s !! j_mmu j = Some true ∧ op_location s = Some o
  | Drop1 j => range_ok j ∧ cpu_lock s !! j_mmu j = Some true
  | Drop2 _ => True
  end.

Definition outside (p : cpu) : Prop :=
  match ph p with Idle => True | Lock1 j => range_ok j | _ => False end.

Section Invariant.
Context (table : list isr_info) (ipi : Z).

(** What a CPU did with the requests it took is what the table says. *)
Definition by_table (p : cpu) : Prop :=
  (dropped p = true → table !! Z.to_nat IRQ_IPI_TLB_SHOOTDOWN = Some no_info) ∧
  (hnd p ≠ HNone → installed table IRQ_IPI_TLB_SHOOTDOWN ipi = true).

Record tlb_inv (s : tstate) : Prop := {
  ti_wild : wild s = false;
  ti_cores : Z.of_nat (length (cpus s)) ≤ MAX_CORES;
  ti_rem : remaining s = tally busy (cpus s);
  ti_lock : match sd_lock s with
    | None => ∀ c p, cpus s !! c = Some p → outside p ∧ busy p = false
    | Some o => ∃ po, cpus s !! o = Some po ∧ busy po = false ∧ owner_ok s o (ph po) ∧
        ∀ c p, c ≠ o → cpus s !! c = Some p → outside p ∧ other_ok s o (ph po) c p
    end;
  ti_table : Forall by_table (cpus s)
}.

(** ** Preservation *)

Lemma handling_busy p : match hnd p with HStart | HLoop _ _ | HDec => true | _ => false end = true → busy p = true.
Proof. unfold busy. intros ->. apply orb_true_r. Qed.

Lemma sent_flushed s o j p : sent_ok s o j p → busy p = false → flushed s p (j_start j) (j_end j).
Proof. unfold sent_ok, busy. destruct (hnd p), (pend p), (dropped p); naive_solver. Qed.

(** A CPU that owes an answer owes it to the CPU that waits for it. *)
Lemma busy_other s o f c p :
  other_ok s o f c p → busy p = true →
  ∃ j, targeted s (j_mmu j) c = true ∧ sent_ok s o j p ∧ (f = Wait j ∨ ∃ i, f = Send j i ∧ (c < i)%nat).
Proof.
  intros Ho Hb. unfold other_ok in Ho. destruct f as [|?|?|?|j i|j|j|?]; try done; try congruence.
  - destruct (decide (c < i)%nat); [|congruence]. destruct (targeted s (j_mmu j) c) eqn:E; [|congruence]. eauto 10.
  - destruct (targeted s (j_mmu j) c) eqn:E; [|congruence]. eauto 10.
  - destruct Ho. congruence.
Qed.

Lemma busy_live s o f c p po :
  cpus s !! o = Some po → ph po = f → owner_ok s o f → other_ok s o f c p → busy p = true →
  ∃ j, targeted s (j_mmu j) c = true ∧ sent_ok s o j p ∧ range_ok j ∧ op_location s = Some o ∧ live_op o s = Some j ∧
    ∀ p', sent_ok s o j p' → other_ok s o f c p'.
Proof.
  intros Hpo Hf Hown Hoth Hb. destruct (busy_other _ _ _ _ _ Hoth Hb) as (j & Ht & Hs & Hw).
  exists j. destruct Hw as [->|(i & -> & Hi)]; destruct Hown as (? & ? & ?); unfold live_op; rewrite Hpo; simpl; rewrite Hf.
  - split_and!; try done. intros p' Hp'. unfold other_ok. by rewrite Ht.
  - split_and!; try done. intros p' Hp'. unfold other_ok. rewrite Ht. by destruct (decide (c < i)%nat).
Qed.

(** A step of one CPU that leaves the shared state alone but for the count. *)
Lemma inv_local s c p p' r :
  tlb_inv s → cpus s !! c = Some p → ph p' = ph p →
  r = remaining s - Z.b2z (busy p) + Z.b2z (busy p') →
  (busy p = false → busy p' = false) → (by_table p → by_table p') →
  (∀ o po, cpus s !! o = Some po → owner_ok s o (ph po) → other_ok s o (ph po) c p → other_ok s o (ph po) c p') →
  tlb_inv (upd_cpu c p' (upd_remaining r s)).
Proof.
  intros [Hw Hn Hr Hl Ht] Hc Hph -> Hnb Htab Hoth. split; simpl.
  - done.
  - by rewrite length_insert.
  - rewrite (tally_insert _ _ _ p) by done. lia.
  - assert (outside p → outside p') as Hout by (unfold outside; by rewrite Hph).
    destruct (sd_lock s) as [o|].
    + destruct Hl as (po & Hpo & Hb & Hown & Ho). destruct (decide (c = o)) as [->|Hco].
      * rewrite Hpo in Hc. injection Hc as <-. exists p'. rewrite list_lookup_insert_eq by (by eapply lookup_lt_Some).
        rewrite Hph. split_and!; [done|auto|done|]. intros d q Hd. rewrite list_lookup_insert_ne by done. by apply Ho.
      * exists po. rewrite list_lookup_insert_ne by done. split_and!; [done..|].
        intros d q Hd. destruct (decide (c = d)) as [<-|Hcd].
        -- rewrite list_lookup_insert_eq by (by eapply lookup_lt_Some). intros [= <-].
           destruct (Ho c p Hd Hc) as [? Hop]. split; [auto|]. by apply Hoth.
        -- rewrite list_lookup_insert_ne by done. by apply Ho.
    + intros d q. destruct (decide (c = d)) as [<-|Hcd].
      * rewrite list_lookup_insert_eq by (by eapply lookup_lt_Some). intros [= <-]. destruct (Hl c p Hc). auto.
      * rewrite list_lookup_insert_ne by done. by apply Hl.
  - apply Forall_insert; [done|]. apply Htab. by eapply Forall_lookup_1.
Qed.

Lemma upd_remaining_same s : upd_remaining (remaining s) s = s.
Proof. by destruct s. Qed.

Lemma inv_quiet s c p p' :
  tlb_inv s → cpus s !! c = Some p → ph p' = ph p → busy p' = busy p → (by_table p → by_table p') →
  (∀ o po, cpus s !! o = Some po → owner_ok s o (ph po) → other_ok s o (ph po) c p → other_ok s o (ph po) c p') →
  tlb_inv (upd_cpu c p' s).
Proof.
  intros Hinv Hc Hph Hb Htab Hoth. rewrite <-(upd_remaining_same s) at 1.
  eapply inv_local; [done|done|done| |congruence|done|done]. rewrite Hb. lia.
Qed.

(** A CPU changes so that what the others rely on is kept. *)
Lemma other_ok_mono s o f c p p' :
  busy p' = busy p → (∀ j, sent_ok s o j p → sent_ok s o j p') →
  (∀ v, fresh s p v → fresh s p' v) → other_ok s o f c p → other_ok s o f c p'.
Proof.
  intros Hb Hs Hf. unfold other_ok, flushed. rewrite Hb. destruct f as [|?|?|?|j i|j|j|?]; try done.
  - destruct (decide _); [|done]. destruct (targeted _ _ _); auto.
  - destruct (targeted _ _ _); auto.
  - naive_solver.
Qed.

Lemma inv_deliver s c p :
  tlb_inv s → cpus s !! c = Some p → pend p = true → hnd p = HNone →
  installed table IRQ_IPI_TLB_SHOOTDOWN ipi = true →
  tlb_inv (upd_cpu c (set_hnd HStart (set_pend false p)) s).
Proof.
  intros Hinv Hc Hp Hh Hi. pose proof (Forall_lookup_1 _ _ _ _ (ti_table _ Hinv) Hc) as [Hd _].
  assert (busy (set_hnd HStart (set_pend false p)) = busy p) as Hb by (unfold busy; simpl; rewrite Hp; by destruct (dropped p)).
  apply (inv_quiet s c p); [done|done|done|done| |].
  - intros [? _]. by split.
  - intros o po _ _. apply other_ok_mono; [done| |done]. intros j _. split; [done|]. simpl.
    destruct (dropped p); [|done]. unfold installed in Hi. by rewrite Hd in Hi.
Qed.

Lemma inv_ignore s c p :
  tlb_inv s → cpus s !! c = Some p → pend p = true → hnd p = HNone →
  table !! Z.to_nat IRQ_IPI_TLB_SHOOTDOWN = Some no_info → tlb_inv (upd_cpu c (drop p) s).
Proof.
  intros Hinv Hc Hp Hh Hi. assert (busy (drop p) = busy p) as Hb by (unfold busy; simpl; by rewrite Hp).
  apply (inv_quiet s c p); [done|done|done|done| |].
  - intros [_ ?]. by split.
  - intros o po _ _. apply other_ok_mono; [done| |done]. intros j _. unfold sent_ok. simpl. rewrite Hh. auto.
Qed.

Lemma inv_irq s c p b : tlb_inv s → cpus s !! c = Some p → tlb_inv (upd_cpu c (set_irq b p) s).
Proof. intros Hinv Hc. by apply (inv_quiet s c p). Qed.

Lemma inv_fill s c p v :
  tlb_inv s → cpus s !! c = Some p → tlb_inv (upd_cpu c (set_tlb (<[v := epoch s]> (tlb p)) p) s).
Proof.
  intros Hinv Hc. apply (inv_quiet s c p); [done|done|done|done|done|]. intros o po _ _.
  assert (∀ u, fresh s p u → fresh s (set_tlb (<[v := epoch s]> (tlb p)) p) u) as Hf.
  { intros u Hu e. simpl. rewrite lookup_insert_Some. intros [[_ <-]|[_ He]]; [done|by apply Hu]. }
  apply other_ok_mono; [done| |done]. intros j. unfold sent_ok, flushed. simpl. destruct (hnd p); naive_solver.
Qed.

Lemma inv_call s c p j :
  tlb_inv s → cpus s !! c = Some p → ph p = Idle → range_ok j → tlb_inv (upd_cpu c (set_ph (Lock1 j) p) s).
Proof.
  intros [Hw Hn Hr Hl Ht] Hc Hph Hj. split; simpl; [done|by rewrite length_insert| | |].
  - rewrite (tally_insert _ _ _ p) by done. unfold busy at 3. simpl. fold (busy p). lia.
  - destruct (sd_lock s) as [o|].
    + destruct Hl as (po & Hpo & Hb & Hown & Ho). exists po.
      assert (c ≠ o) as Hco. { intros ->. rewrite Hpo in Hc. injection Hc as ->. by rewrite Hph in Hown. }
      rewrite list_lookup_insert_ne by done. split_and!; [done..|]. intros d q Hd.
      rewrite list_lookup_insert_Some. intros [(<- & <- & _)|[_ Hq]]; [|by apply Ho].
      split; [done|]. exact (proj2 (Ho c p Hd Hc)).
    + intros d q. rewrite list_lookup_insert_Some. intros [(<- & <- & _)|[_ Hq]]; [|by eapply Hl].
      split; [done|]. exact (proj2 (Hl c p Hc)).
  - apply Forall_insert; [done|]. exact (Forall_lookup_1 _ _ _ _ Ht Hc).
Qed.

Lemma inv_cpuset s m w : tlb_inv s → cpu_lock s !! m ≠ Some true → tlb_inv (upd_cpu_set m w s).
Proof.
  intros [Hw Hn Hr Hl Hf] Hm. split; simpl; [done..| |done]. destruct (sd_lock s) as [o|]; [|done].
  destruct Hl as (po & Hpo & Hb & Hown & Ho). exists po. split_and!; [done..|].
  intros c p Hco Hc. destruct (Ho c p Hco Hc) as [? Hop]. split; [done|].
  assert (∀ j, cpu_lock s !! j_mmu j = Some true → targeted (upd_cpu_set m w s) (j_mmu j) c = targeted s (j_mmu j) c) as Ht.
  { intros j Hj. unfold targeted. simpl. rewrite lookup_insert_ne; [done|]. intros ->. done. }
  unfold other_ok, owner_ok in *. destruct (ph po) as [|?|?|?|j i|j|j|?]; try done; rewrite Ht; naive_solver.
Qed.

(** Who the answer is owed to, and by when it is complete. *)
Lemma busy_owner s c p :
  tlb_inv s → cpus s !! c = Some p → busy p = true →
  ∃ o po j, cpus s !! o = Some po ∧ owner_ok s o (ph po) ∧ sent_ok s o j p ∧ range_ok j ∧
    op_location s = Some o ∧ live_op o s = Some j ∧
    (∀ o' po' p', cpus s !! o' = Some po' → owner_ok s o' (ph po') → other_ok s o' (ph po') c p →
       sent_ok s o j p' → other_ok s o' (ph po') c p').
Proof.
  intros [Hw Hn Hr Hl _] Hc Hb. destruct (sd_lock s) as [o|]; [|destruct (Hl c p Hc); congruence].
  destruct Hl as (po & Hpo & Hbo & Hown & Ho). assert (c ≠ o) as Hco by congruence. destruct (Ho c p Hco Hc) as [Hout Hoth].
  destruct (busy_live s o _ c p po Hpo eq_refl Hown Hoth Hb) as (j & Ht & Hs & Hj & Hop & Hlive & Hnew).
  exists o, po, j. split_and!; [done..|]. intros o' po' p' Hpo' Hown' _ Hp'.
  destruct (decide (o' = o)) as [->|Hne]; [rewrite Hpo in Hpo'; injection Hpo' as <-; auto|].
  exfalso. destruct (Ho o' po' Hne Hpo') as [Hout' _]. unfold outside, owner_ok in *. by destruct (ph po').
Qed.

Lemma flushed_more s p p' st i :
  flushed s p st i → (∀ v e, tlb p' !! v = Some e → v ≠ i ∧ tlb p !! v = Some e) →
  (∃ n, 0 ≤ n ∧ i = st + n * PAGE_SIZE) → flushed s p' st (i + PAGE_SIZE).
Proof.
  intros Hf Hd (n & Hn & ->) k Hk Hlt e He. apply Hd in He as [Hne He]. unfold PAGE_SIZE in *.
  apply (Hf k); [done|unfold PAGE_SIZE; lia|done].
Qed.

Section Proof.
Context {BC : BuildConfig}.

Lemma inv_handler s c p s' :
  tlb_inv s → cpus s !! c = Some p → ipi_tlb_shootdown c p s = Some s' → tlb_inv s'.
Proof.
  intros Hinv Hc. assert (hnd p ≠ HNone → ∀ h q, dropped q = dropped p → by_table p → by_table (set_hnd h q)) as Htab.
  { intros Hh h q Hq [H1 H2]. split; simpl; [by rewrite Hq|auto]. }
  unfold ipi_tlb_shootdown. destruct (hnd p) as [| |o i| |] eqn:Hh; [done|..].
  - assert (busy p = true) as Hb by (apply handling_busy; by rewrite Hh).
    destruct (busy_owner s c p Hinv Hc Hb) as (o & po & j & Hpo & Hown & Hs & Hj & Hop & Hlive & Hnew).
    rewrite Hop, Hlive. intros [= <-]. unfold sent_ok in Hs. rewrite Hh in Hs. destruct Hs as [Hp Hdr].
    apply (inv_quiet s c p); [done..|unfold busy; simpl; by rewrite Hp, Hdr, Hh|by apply Htab|].
    intros o' po' Hpo' Hown' Hoth. eapply Hnew; [done..|]. unfold sent_ok. simpl.
    split_and!; [done|done|done|exists 0; lia|]. intros n ? ?. unfold PAGE_SIZE in *. lia.
  - assert (busy p = true) as Hb by (apply handling_busy; by rewrite Hh).
    destruct (busy_owner s c p Hinv Hc Hb) as (o' & po & j & Hpo & Hown & Hs & Hj & Hop & Hlive & Hnew).
    pose proof Hs as Hs'. unfold sent_ok in Hs'. rewrite Hh in Hs'. destruct Hs' as ([Hp Hdr] & -> & (n & Hn & Hi) & Hf).
    rewrite Hlive. destruct (Z.ltb_spec i (j_end j)) as [Hlt|Hge]; intros [= <-].
    + apply (inv_quiet s c p); [done..|unfold busy; simpl; by rewrite Hp, Hdr, Hh|by apply Htab|].
      intros o1 po1 Hpo1 Hown1 Hoth. eapply Hnew; [done..|]. unfold sent_ok. simpl. destruct Hj as [Hj1 Hj2].
      assert (i + PAGE_SIZE = u64 (i + PAGE_SIZE)) as <-.
      { symmetry. apply uwrap_id. unfold in_u, PAGE_SIZE in *. lia. }
      split_and!; [done|done|done|exists (n + 1); unfold PAGE_SIZE in *; lia|].
      eapply (flushed_more s p); [done| |by exists n]. intros v e. simpl. rewrite lookup_delete_Some. naive_solver.
    + apply (inv_quiet s c p); [done..|unfold busy; simpl; by rewrite Hp, Hdr, Hh|by apply Htab|].
      intros o1 po1 Hpo1 Hown1 Hoth. eapply Hnew; [done..|]. unfold sent_ok. simpl. split; [done|].
      intros k Hk Hlt. apply Hf; [done|lia].
  - intros [= <-]. assert (busy p = true) as Hb by (apply handling_busy; by rewrite Hh).
    destruct (busy_owner s c p Hinv Hc Hb) as (o' & po & j & Hpo & Hown & Hs & Hj & Hop & Hlive & Hnew).
    pose proof Hs as Hs'. unfold sent_ok in Hs'. rewrite Hh in Hs'. destruct Hs' as [[Hp Hdr] Hf].
    pose proof (tally_at busy _ _ _ Hc) as H1. rewrite Hb in H1. simpl in H1. pose proof (tally_bound busy (cpus s)) as H2.
    pose proof (ti_cores _ Hinv) as H3. pose proof (ti_rem _ Hinv) as H4. unfold MAX_CORES in H3.
    assert (u32 (remaining s - 1) = remaining s - 1) as -> by (apply uwrap_id; unfold in_u; lia).
    apply (inv_local s c p); [done..| | |by apply Htab|].
    + rewrite Hb. unfold busy. simpl. rewrite Hp, Hdr. simpl. lia.
    + by rewrite Hb.
    + intros o1 po1 Hpo1 Hown1 Hoth. eapply Hnew; [done..|]. unfold sent_ok. simpl. by right; right.
  - intros [= <-]. apply (inv_quiet s c p); [done..|unfold busy; simpl; by rewrite Hh|by apply Htab|].
    intros o po _ _. apply other_ok_mono; [unfold busy; simpl; by rewrite Hh| |done].
    intros j. unfold sent_ok. by rewrite Hh.
Qed.

(** The invariant after a step of the CPU that holds the lock. *)
Lemma inv_owner s' l o po f :
  wild s' = false → Z.of_nat (length l) ≤ MAX_CORES → remaining s' = tally busy l →
  sd_lock s' = Some o → l !! o = Some po → busy po = false →
  cpus s' = <[o := set_ph f po]> l → Forall by_table l → owner_ok s' o f →
  (∀ c p, c ≠ o → l !! c = Some p → outside p ∧ other_ok s' o f c p) → tlb_inv s'.
Proof.
  intros Hw Hn Hr Hl Ho Hb Hc Ht Hown Hoth. split; [done|by rewrite Hc, length_insert| | |].
  - rewrite Hc, (tally_insert _ _ _ po) by done. rewrite Hr. unfold busy at 4. simpl. fold (busy po). lia.
  - rewrite Hl. exists (set_ph f po). rewrite Hc, list_lookup_insert_eq by (by eapply lookup_lt_Some).
    split_and!; [done|done|done|]. intros c p Hco. rewrite list_lookup_insert_ne by done. by apply Hoth.
  - rewrite Hc. apply Forall_insert; [done|]. exact (Forall_lookup_1 _ _ _ _ Ht Ho).
Qed.

(** One round of the loop that sends the interrupts. *)
Lemma inv_send s o po j i s' :
  tlb_inv s → sd_lock s = Some o → cpus s !! o = Some po → ph po = Send j i →
  tlb_shootdown o po s = Some s' → tlb_inv s'.
Proof.
  intros [Hw Hn Hr Hl Htb] Hlk Hpo Hph. rewrite Hlk in Hl. destruct Hl as (po' & Hpo' & Hb & Hown & Ho).
  rewrite Hpo in Hpo'. injection Hpo' as <-. rewrite Hph in *. unfold tlb_shootdown. rewrite Hph.
  assert (∀ b, (∀ p, i ≠ o → cpus s !! i = Some p → targeted s (j_mmu j) i = true → b = true) → ∀ c p, c ≠ o → cpus s !! c = Some p →
    (b = true → c ≠ i) → outside p ∧ other_ok s o (Send j (S i)) c p) as Hkeep.
  { intros b Hbt c p Hco Hc Hci. destruct (Ho c p Hco Hc) as [? Hop]. split; [done|]. unfold other_ok in *.
    destruct (decide (c < S i)%nat), (decide (c < i)%nat); [done| |lia|done]. assert (c = i) as -> by lia.
    destruct (targeted s (j_mmu j) i) eqn:E; [|done]. destruct Hci; [|done]. by eapply Hbt. }
  destruct (decide (i < length (cpus s))%nat) as [Hi|Hi].
  2: { intros [= <-]. eapply (inv_owner _ (cpus s) o po (Wait j)); try done. intros c p Hco Hc.
       destruct (Ho c p Hco Hc) as [? Hop]. split; [done|]. unfold other_ok in *. simpl.
       pose proof (lookup_lt_Some _ _ _ Hc). destruct (decide (c < i)%nat); [done|lia]. }
  assert (∀ b, (∀ p, i ≠ o → cpus s !! i = Some p → targeted s (j_mmu j) i = true → b = true) → b = false →
    tlb_inv (upd_cpu o (set_ph (Send j (S i)) po) s)) as Hskip.
  { intros b Hbt ->. eapply (inv_owner _ (cpus s) o po (Send j (S i))); try done. intros c p Hco Hc. by apply (Hkeep false). }
  destruct (decide (i = o)) as [->|Hio]; [intros [= <-]; by apply (Hskip false)|].
  unfold queried. rewrite wp_cpuset_query by (unfold MAX_CORES in *; lia). fold (targeted s (j_mmu j) i).
  destruct (targeted s (j_mmu j) i) eqn:Ht; intros [= <-]; [|by apply (Hskip false)].
  apply lookup_lt_is_Some in Hi as [q Hq]. unfold ipi_send_fixed. simpl. rewrite Hq.
  destruct (Ho i q Hio Hq) as [Hqo Hqb]. unfold other_ok in Hqb. destruct (decide (i < i)%nat); [lia|].
  pose proof (tally_bound busy (cpus s)). pose proof (tally_nonneg busy (cpus s)). unfold MAX_CORES in Hn.
  eapply (inv_owner _ (<[i := set_pend true q]> (cpus s)) o po (Send j (S i))); try done.
  - by rewrite length_insert.
  - simpl. rewrite (tally_insert _ _ _ q), Hqb by done. change (busy (set_pend true q)) with true.
    rewrite uwrap_id by (unfold in_u; lia). simpl. lia.
  - by rewrite list_lookup_insert_ne.
  - apply Forall_insert; [done|]. exact (Forall_lookup_1 _ _ _ _ Htb Hq).
  - intros c p Hco. rewrite list_lookup_insert_Some. intros [(<- & <- & _)|[Hne Hc]].
    + split; [done|]. unfold other_ok. destruct (decide (i < S i)%nat); [|lia]. change (targeted _ _ i) with (targeted s (j_mmu j) i).
      rewrite Ht. unfold sent_ok, busy in *. simpl. apply orb_false_elim in Hqb as [_ Hqb]. destruct (hnd q); try done; by left.
    + apply (Hkeep true); [done..|]. congruence.
Qed.

Lemma inv_main s c p s' :
  tlb_inv s → cpus s !! c = Some p → tlb_shootdown c p s = Some s' → tlb_inv s'.
Proof.
  intros Hinv Hc Hst. pose proof Hinv as [Hw Hn Hr Hl Htb]. destruct (sd_lock s) as [o|] eqn:Hlk.
  - destruct (decide (c = o)) as [->|Hco].
    2: { exfalso. destruct Hl as (po & _ & _ & _ & Ho). destruct (Ho c p Hco Hc) as [Hout _].
         unfold outside, tlb_shootdown in *. rewrite Hlk in Hst. by destruct (ph p). }
    pose proof Hl as (po & Hpo & Hb & Hown & Ho). rewrite Hc in Hpo. injection Hpo as <-.
    destruct (ph p) as [|?|j|j|j i|j|j|j] eqn:Hph; try done; [| |by eapply inv_send|..];
      unfold tlb_shootdown in Hst; rewrite Hph in Hst; simpl in Hown.
    + destruct (default false _); [done|]. injection Hst as <-. eapply (inv_owner _ (cpus s) o p (Publish j)); try done.
      split; [done|]. simpl. by rewrite lookup_insert_eq.
    + injection Hst as <-. destruct Hown. eapply (inv_owner _ (cpus s) o p (Send j 0)); try done.
    + destruct (Z.eqb_spec (remaining s) 0) as [H0|]; [|done]. injection Hst as <-. destruct Hown as (? & ? & ?).
      eapply (inv_owner _ (cpus s) o p (Drop1 j)); try done. intros c q Hco Hq. destruct (Ho c q Hco Hq) as [? Hop]. split; [done|].
      assert (busy q = false) as Hqb.
      { pose proof (tally_at busy _ _ _ Hq). destruct (busy q); [|done]. simpl in *. lia. }
      split; [done|]. intros Ht. unfold other_ok in Hop. change (targeted _ _ c) with (targeted s (j_mmu j) c) in Ht.
      rewrite Ht in Hop. by eapply sent_flushed.
    + injection Hst as <-. eapply (inv_owner _ (cpus s) o p (Drop2 j)); try done. intros c q Hco Hq.
      by destruct (Ho c q Hco Hq) as [? [? _]].
    + injection Hst as <-. split; simpl; [done|by rewrite length_insert| | |].
      * rewrite (tally_insert _ _ _ p) by done. unfold busy at 3. simpl. fold (busy p). lia.
      * intros d q. rewrite list_lookup_insert_Some. intros [(<- & <- & _)|[Hne Hq]]; [done|]. exact (Ho d q (not_eq_sym Hne) Hq).
      * apply Forall_insert; [done|]. exact (Forall_lookup_1 _ _ _ _ Htb Hc).
  - destruct (Hl c p Hc) as [Hout Hb]. unfold outside, tlb_shootdown in *. rewrite Hlk in Hst.
    destruct (ph p) as [|j|?|?|?|?|?|?]; try done. injection Hst as <-.
    eapply (inv_owner _ (cpus s) c p (Lock2 j)); try done. intros d q Hd Hq. exact (Hl d q Hq).
Qed.

Lemma tlb_inv_step s s' : tlb_inv s → step table ipi s s' → tlb_inv s'.
Proof.
  intros Hinv Hs. destruct Hs.
  - by apply inv_call.
  - by eapply inv_main.
  - by apply inv_deliver.
  - by apply inv_ignore.
  - by apply inv_irq.
  - by eapply inv_handler.
  - by apply inv_fill.
  - by apply inv_cpuset.
Qed.

Lemma tlb_inv_start s : start s → tlb_inv s.
Proof.
  intros (Hall & Hn & Hlk & Hr & Hw). split; [done|done| | |].
  - rewrite Hr. symmetry. apply tally_zero. eapply Forall_impl; [exact Hall|]. intros p (_ & Hp & Hh & Hd).
    unfold busy. by rewrite Hp, Hd, Hh.
  - rewrite Hlk. intros c p Hc. destruct (Forall_lookup_1 _ _ _ _ Hall Hc) as (Hph & Hp & Hh & Hd).
    unfold outside, busy. by rewrite Hph, Hp, Hd, Hh.
  - eapply Forall_impl; [exact Hall|]. intros p (_ & _ & Hh & Hd). split; congruence.
Qed.

Lemma inv_tlb_reachable s : reachable table ipi s → tlb_inv s.
Proof.
  intros (s0 & H0 & Hs). apply tlb_inv_start in H0. induction Hs as [|s1 s2 s3 H12 _ IH]; [done|].
  apply IH. by eapply tlb_inv_step.
Qed.

(** C21: when tlb_shootdown has seen the count of CPUs it waits for reach zero,
    no CPU of the address space other than its own has a translation of a
    page of the range that was loaded before the operation began.  The table
    of handlers is any: with the kernel's own, where [ipi_tlb_shootdown] is not
    installed, the count only reaches zero when no other CPU uses the address
    space (C22). *)
Theorem tlb_shootdown_complete s o po j c p n :
  reachable table ipi s → cpus s !! o = Some po → ph po = Drop1 j → c ≠ o → cpus s !! c = Some p →
  targeted s (j_mmu j) c = true → 0 ≤ n → j_start j + n * PAGE_SIZE < j_end j →
  ∀ e, tlb p !! (j_start j + n * PAGE_SIZE) = Some e → e = epoch s.
Proof.
  intros [_ _ _ Hl _]%inv_tlb_reachable Hpo Hph Hco Hc Ht Hn Hlt.
  destruct (sd_lock s) as [o'|]; [|destruct (Hl o po Hpo) as [Hout _]; unfold outside in Hout; by rewrite Hph in Hout].
  destruct Hl as (po' & Hpo' & _ & Hown & Ho). destruct (decide (o = o')) as [<-|Hne].
  - rewrite Hpo in Hpo'. injection Hpo' as <-. destruct (Ho c p Hco Hc) as [_ Hop]. rewrite Hph in Hop.
    destruct Hop as [_ Hf]. by apply Hf.
  - destruct (Ho o po Hne Hpo) as [Hout _]. unfold outside in Hout. by rewrite Hph in Hout.
Qed.

(** A handler only uses the operation of the CPU that is sending requests
    or waiting for the answers, so it never reads a stack frame that is gone;
    that CPU holds the lock, and the count it waits for is the number of CPUs
    that still owe an answer. *)
Theorem tlb_handler_safe s :
  reachable table ipi s → wild s = false ∧ remaining s = tally busy (cpus s) ∧
  ∀ c p, cpus s !! c = Some p → busy p = true →
    ∃ o j, o ≠ c ∧ sd_lock s = Some o ∧ op_location s = Some o ∧ live_op o s = Some j ∧
      targeted s (j_mmu j) c = true ∧ ∀ o' i, hnd p = HLoop o' i → o' = o.
Proof.
  intros Hinv%inv_tlb_reachable. split; [apply Hinv|]. split; [apply Hinv|]. intros c p Hc Hb.
  pose proof (ti_lock _ Hinv) as Hl. destruct (sd_lock s) as [o|]; [|destruct (Hl c p Hc); congruence].
  destruct Hl as (po & Hpo & Hbo & Hown & Ho). assert (c ≠ o) as Hco by congruence. destruct (Ho c p Hco Hc) as [_ Hoth].
  destruct (busy_live s o _ c p po Hpo eq_refl Hown Hoth Hb) as (j & Ht & Hs & _ & Hop & Hlive & _).
  exists o, j. split_and!; [done..|]. intros o' i Hh. unfold sent_ok in Hs. rewrite Hh in Hs. by destruct Hs as (_ & ? & _).
Qed.

(** ** Progress *)

(** From [s] CPU [c] can get to a state in which it owes no answer, without a
    step of any other CPU. *)
Definition answers (s : tstate) (c : nat) : Prop :=
  ∃ s' p', rtc (step table ipi) s s' ∧ cpus s' = <[c := p']> (cpus s) ∧ busy p' = false.

Lemma answers_step s c p1 r :
  (c < length (cpus s))%nat → step table ipi s (upd_cpu c p1 (upd_remaining r s)) →
  busy p1 = false ∨ answers (upd_cpu c p1 (upd_remaining r s)) c → answers s c.
Proof.
  intros Hc Hs [Hb|(s' & p' & Hr & E & Hb)].
  - eexists _, p1. split; [by apply rtc_once|]. done.
  - exists s', p'. split; [by eapply rtc_l|]. split; [|done]. rewrite E. simpl. apply list_insert_insert_eq.
Qed.

Lemma answers_loop k s c p o i j :
  tlb_inv s → cpus s !! c = Some p → hnd p = HLoop o i → live_op o s = Some j →
  (Z.to_nat (j_end j - i) < k)%nat → answers s c.
Proof.
  revert s p i. induction k as [|k IH]; intros s p i Hinv Hc Hh Hlive Hk; [lia|].
  pose proof (lookup_lt_Some _ _ _ Hc) as Hlen.
  assert (busy p = true) as Hb by (apply handling_busy; by rewrite Hh).
  destruct (busy_owner s c p Hinv Hc Hb) as (o' & po & j' & Hpo & _ & Hs & Hj & _ & Hlive' & _).
  unfold sent_ok in Hs. rewrite Hh in Hs. destruct Hs as ([Hp Hdr] & -> & (n & Hn & Hi) & _).
  rewrite Hlive in Hlive'. injection Hlive' as <-.
  assert (c ≠ o') as Hco.
  { intros ->. pose proof (ti_lock _ Hinv) as Hl. destruct (sd_lock s) as [o2|]; [|destruct (Hl o' p Hc); congruence].
    destruct Hl as (po2 & Hpo2 & Hb2 & Hown2 & Ho2). destruct (decide (o' = o2)) as [->|Hne]; [congruence|].
    destruct (Ho2 o' p Hne Hc) as [_ Hoth].
    destruct (busy_live _ _ _ _ _ _ Hpo2 eq_refl Hown2 Hoth Hb) as (? & _ & Hs2 & _).
    unfold sent_ok in Hs2. rewrite Hh in Hs2. by destruct Hs2 as (_ & ? & _). }
  assert (ipi_tlb_shootdown c p s = Some (upd_cpu c (if i <? j_end j
     then set_hnd (HLoop o' (u64 (i + PAGE_SIZE))) (set_tlb (delete i (tlb p)) p) else set_hnd HDec p) (upd_remaining (remaining s) s))) as E.
  { unfold ipi_tlb_shootdown. rewrite Hh, Hlive, upd_remaining_same. by destruct (i <? j_end j). }
  assert (step table ipi s _) as Hstep by (eapply step_handler; [exact Hc|exact E]).
  pose proof (tlb_inv_step _ _ Hinv Hstep) as Hinv'. eapply answers_step; [done|exact Hstep|]. right.
  destruct (Z.ltb_spec i (j_end j)) as [Hlt|Hge].
  - destruct Hj as [Hj1 Hj2]. eapply (IH _ _ (i + PAGE_SIZE)); [exact Hinv'|by apply list_lookup_insert_eq| | |].
    + simpl. rewrite uwrap_id; [done|]. unfold in_u, PAGE_SIZE in *. lia.
    + unfold live_op. simpl. rewrite list_lookup_insert_ne by done. exact Hlive.
    + unfold PAGE_SIZE in *. lia.
  - eapply answers_step with (p1 := set_hnd HEoi (set_hnd HDec p)); [simpl; by rewrite length_insert| |left; unfold busy; simpl; by rewrite Hp, Hdr].
    eapply step_handler; [by apply list_lookup_insert_eq|]. done.
Qed.

Lemma not_dropped s c p :
  installed table IRQ_IPI_TLB_SHOOTDOWN ipi = true → tlb_inv s → cpus s !! c = Some p → dropped p = false.
Proof.
  intros Hi Hinv Hc. destruct (Forall_lookup_1 _ _ _ _ (ti_table _ Hinv) Hc) as [Hd _].
  destruct (dropped p); [|done]. unfold installed in Hi. by rewrite Hd in Hi.
Qed.

(** A CPU that owes an answer gives it, where the handler is installed. *)
Lemma busy_answers s c p :
  installed table IRQ_IPI_TLB_SHOOTDOWN ipi = true → tlb_inv s → cpus s !! c = Some p → busy p = true →
  irq p = true ∨ ph p = Idle → answers s c.
Proof.
  intros Hinst.
  assert (∀ s p, tlb_inv s → cpus s !! c = Some p → hnd p = HStart → answers s c) as Hstart.
  { clear s p. intros s p Hinv Hc Hh. pose proof (lookup_lt_Some _ _ _ Hc) as Hlen.
    assert (busy p = true) as Hb by (apply handling_busy; by rewrite Hh).
    destruct (busy_owner s c p Hinv Hc Hb) as (o & po & j & Hpo & Hown & _ & _ & Hop & Hlive & _).
    assert (step table ipi s (upd_cpu c (set_hnd (HLoop o (j_start j)) p) (upd_remaining (remaining s) s))) as Hstep.
    { eapply step_handler; [exact Hc|]. unfold ipi_tlb_shootdown. by rewrite Hh, Hop, Hlive, upd_remaining_same. }
    pose proof (tlb_inv_step _ _ Hinv Hstep) as Hinv'. eapply answers_step; [done|exact Hstep|]. right.
    eapply answers_loop; [exact Hinv'|by apply list_lookup_insert_eq|done| |apply Nat.lt_succ_diag_r].
    unfold live_op in *. simpl. destruct (decide (c = o)) as [->|Hne]; [|by rewrite list_lookup_insert_ne].
    rewrite list_lookup_insert_eq by done. rewrite Hc in Hlive. exact Hlive. }
  assert (∀ s p, tlb_inv s → cpus s !! c = Some p → hnd p = HNone → pend p = true → irq p = true → answers s c) as Hon.
  { clear s p. intros s p Hinv Hc Hh Hp Hirq. pose proof (lookup_lt_Some _ _ _ Hc) as Hlen.
    assert (step table ipi s (upd_cpu c (set_hnd HStart (set_pend false p)) (upd_remaining (remaining s) s))) as Hstep.
    { rewrite upd_remaining_same. by apply step_deliver. }
    pose proof (tlb_inv_step _ _ Hinv Hstep) as Hinv'. eapply answers_step; [done|exact Hstep|]. right.
    eapply Hstart; [done|by apply list_lookup_insert_eq|done]. }
  assert (∀ s p, tlb_inv s → cpus s !! c = Some p → hnd p = HNone → pend p = true → irq p = true ∨ ph p = Idle → answers s c) as Hpend.
  { clear s p. intros s p Hinv Hc Hh Hp [Hirq|Hph]; [by eapply Hon|]. pose proof (lookup_lt_Some _ _ _ Hc) as Hlen.
    assert (step table ipi s (upd_cpu c (set_irq true p) (upd_remaining (remaining s) s))) as Hstep.
    { rewrite upd_remaining_same. by apply step_irq. }
    pose proof (tlb_inv_step _ _ Hinv Hstep) as Hinv'. eapply answers_step; [done|exact Hstep|]. right.
    eapply Hon; [done|by apply list_lookup_insert_eq|done..]. }
  intros Hinv Hc Hb Hon'. pose proof (not_dropped s c p Hinst Hinv Hc) as Hdr. pose proof (lookup_lt_Some _ _ _ Hc) as Hlen. destruct (hnd p) as [| |o i| |] eqn:Hh.
  - unfold busy in Hb. rewrite Hh, Hdr, !orb_false_r in Hb. by eapply Hpend.
  - by eapply Hstart.
  - destruct (busy_owner s c p Hinv Hc Hb) as (o' & po & j & _ & _ & Hs & _ & _ & Hlive & _).
    unfold sent_ok in Hs. rewrite Hh in Hs. destruct Hs as (_ & -> & _). eapply answers_loop; [done|done|done|done|apply Nat.lt_succ_diag_r].
  - destruct (busy_owner s c p Hinv Hc Hb) as (o' & po & j & _ & _ & Hs & _).
    unfold sent_ok in Hs. rewrite Hh in Hs. destruct Hs as [[Hp _] _].
    eapply answers_step with (p1 := set_hnd HEoi p); [done| |left; unfold busy; simpl; by rewrite Hp, Hdr].
    eapply step_handler; [done|]. unfold ipi_tlb_shootdown. by rewrite Hh.
  - unfold busy in Hb. rewrite Hh, Hdr, !orb_false_r in Hb.
    assert (step table ipi s (upd_cpu c (set_hnd HNone p) (upd_remaining (remaining s) s))) as Hstep.
    { eapply step_handler; [done|]. unfold ipi_tlb_shootdown. by rewrite Hh, upd_remaining_same. }
    pose proof (tlb_inv_step _ _ Hinv Hstep) as Hinv'. eapply answers_step; [done|exact Hstep|]. right.
    eapply Hpend; [done|by apply list_lookup_insert_eq|done..].
Qed.

Lemma inv_steps s s' : tlb_inv s → rtc (step table ipi) s s' → tlb_inv s'.
Proof. intros Hinv Hs. induction Hs as [|s1 s2 s3 H12 _ IH]; [done|]. apply IH. by eapply tlb_inv_step. Qed.

(** The CPU that waits owes no answer itself. *)
Lemma waiting_owner s o po j :
  tlb_inv s → cpus s !! o = Some po → ph po = Wait j → busy po = false ∧ sd_lock s = Some o.
Proof.
  intros [_ _ _ Hl _] Hpo Hph. destruct (sd_lock s) as [o2|].
  - destruct Hl as (po2 & Hpo2 & Hb2 & _ & Ho2). destruct (decide (o = o2)) as [->|Hne].
    + rewrite Hpo in Hpo2. by injection Hpo2 as <-.
    + destruct (Ho2 o po Hne Hpo) as [Hout _]. unfold outside in Hout. by rewrite Hph in Hout.
  - destruct (Hl o po Hpo) as [Hout _]. unfold outside in Hout. by rewrite Hph in Hout.
Qed.

(** Nothing is owed: the loop ends. *)
Lemma wait_ends s o po j :
  tlb_inv s → cpus s !! o = Some po → ph po = Wait j → remaining s = 0 →
  ∃ s' po', rtc (step table ipi) s s' ∧ cpus s' !! o = Some po' ∧ ph po' = Drop1 j.
Proof.
  intros Hinv Hpo Hph H0. pose proof (lookup_lt_Some _ _ _ Hpo) as Hlen.
  assert (∀ s po, cpus s !! o = Some po → ph po = Wait j → remaining s = 0 → hnd po = HNone →
    step table ipi s (upd_cpu o (set_ph (Drop1 j) po) s)) as Hlast.
  { clear. intros s po Hpo Hph H0 Hh. eapply step_main; [done|done|]. unfold tlb_shootdown. by rewrite Hph, H0. }
  destruct (waiting_owner s o po j Hinv Hpo Hph) as [Hb _]. unfold busy in Hb. apply orb_false_elim in Hb as [_ Hb].
  destruct (hnd po) eqn:Hh; try done.
  - eexists _, _. split; [apply rtc_once; by eapply Hlast|]. split; [by apply list_lookup_insert_eq|done].
  - eexists _, _. split; [eapply rtc_l|].
    + eapply step_handler; [exact Hpo|]. unfold ipi_tlb_shootdown. by rewrite Hh.
    + apply rtc_once. eapply Hlast; [by apply list_lookup_insert_eq|done..].
    + split; [apply list_lookup_insert_eq; simpl; by rewrite length_insert|done].
Qed.

(** The answers come where the handler is installed and no CPU that owes one
    keeps its interrupts off. *)
Lemma wait_progress s o po j :
  installed table IRQ_IPI_TLB_SHOOTDOWN ipi = true → tlb_inv s → cpus s !! o = Some po → ph po = Wait j →
  (∀ c p, cpus s !! c = Some p → busy p = true → irq p = true ∨ ph p = Idle) →
  ∃ s' po', rtc (step table ipi) s s' ∧ cpus s' !! o = Some po' ∧ ph po' = Drop1 j.
Proof.
  intros Hi Hinv Hpo Hph. remember (Z.to_nat (remaining s)) as k eqn:Hk.
  revert s Hinv Hpo Hk. induction k as [|k IH]; intros s Hinv Hpo Hk Hon;
    pose proof (ti_rem _ Hinv) as Hr; pose proof (tally_nonneg busy (cpus s)).
  - eapply wait_ends; [done..|lia].
  - destruct (waiting_owner s o po j Hinv Hpo Hph) as [Hbo _].
    destruct (tally_pos busy (cpus s)) as (c & p & Hc & Hb); [lia|]. assert (c ≠ o) as Hco by congruence.
    destruct (busy_answers s c p Hi Hinv Hc Hb) as (s1 & p1 & Hs1 & E1 & Hb1); [eauto|].
    assert (tlb_inv s1) as Hinv1 by (by eapply inv_steps).
    destruct (IH s1) as (s2 & po' & Hs2 & ? & ?); [done|by rewrite E1, list_lookup_insert_ne| | |].
    + rewrite (ti_rem _ Hinv1), E1, (tally_insert _ _ _ p), Hb, Hb1 by done. simpl. lia.
    + intros d q. rewrite E1, list_lookup_insert_Some. intros [(<- & <- & _)|[_ Hq]]; [congruence|eauto].
    + exists s2, po'. split; [by etrans|done].
Qed.

(** A CPU that will not answer: its request was lost or will be, or it waits
    for the lock with its interrupts off. *)
Definition deaf (p : cpu) : Prop :=
  hnd p = HNone ∧
  (dropped p = true ∨ pend p = true ∧
    (installed table IRQ_IPI_TLB_SHOOTDOWN ipi = false ∨ irq p = false ∧ ∃ j, ph p = Lock1 j)).

Lemma deaf_busy p : deaf p → busy p = true.
Proof. intros [_ [H|[H _]]]; unfold busy; rewrite H; by destruct (pend p). Qed.

Definition stuck (s : tstate) (o c : nat) (j : job) : Prop :=
  (∃ po, cpus s !! o = Some po ∧ ph po = Wait j) ∧ ∃ p, cpus s !! c = Some p ∧ deaf p.

Lemma stuck_insert s s' o c j d q q' :
  stuck s o c j → cpus s !! d = Some q → cpus s' = <[d := q']> (cpus s) →
  ph q' = ph q ∨ d ≠ o → (d = c → deaf q → deaf q') → stuck s' o c j.
Proof.
  intros [(po & Hpo & Hph) (p & Hp & Hd)] Hq E Ho Hc. pose proof (lookup_lt_Some _ _ _ Hq) as Hlen. split; rewrite E.
  - destruct (decide (d = o)) as [->|Hne]; [|exists po; by rewrite list_lookup_insert_ne].
    exists q'. rewrite list_lookup_insert_eq by done. split; [done|]. destruct Ho; [congruence|done].
  - destruct (decide (d = c)) as [->|Hne]; [|exists p; by rewrite list_lookup_insert_ne].
    exists q'. rewrite list_lookup_insert_eq by done. split; [done|]. apply Hc; congruence.
Qed.

(** The handler changes neither the phase of its CPU nor another CPU. *)
Lemma handler_cpus c p s s' :
  ipi_tlb_shootdown c p s = Some s' → hnd p ≠ HNone ∧ (cpus s' = cpus s ∨ ∃ p', cpus s' = <[c := p']> (cpus s) ∧ ph p' = ph p).
Proof.
  unfold ipi_tlb_shootdown. destruct (hnd p); intros E; split; try done.
  all: repeat case_match; simplify_eq; simpl; eauto.
Qed.

Lemma stuck_step s s' o c j : tlb_inv s → stuck s o c j → step table ipi s s' → stuck s' o c j.
Proof.
  intros Hinv Hst Hs. pose proof Hst as [(po & Hpo & Hph) (p & Hp & Hd)].
  destruct (waiting_owner s o po j Hinv Hpo Hph) as [Hb Hlk]. pose proof (deaf_busy p Hd) as Hbp.
  pose proof (tally_at busy _ _ _ Hp) as Hrem. rewrite <-(ti_rem _ Hinv), Hbp in Hrem. simpl in Hrem.
  pose proof (ti_lock _ Hinv) as Hl. rewrite Hlk in Hl. destruct Hl as (po' & Hpo' & _ & _ & Ho).
  rewrite Hpo in Hpo'. injection Hpo' as <-.
  destruct Hs as [d q j' Hq Hh Hi Hj|d q s' Hq Hh Hs|d q Hq Hpe Hh Hi Hin|d q Hq Hpe Hh Hi Hin|d q b Hq Hh Hi|d q s' Hq Hs|d q v Hq|m w Hm].
  - eapply stuck_insert; [done|exact Hq|done|right; congruence|]. intros -> [_ Hc]. split; [done|]. simpl. naive_solver congruence.
  - exfalso. unfold tlb_shootdown in Hs. destruct (decide (d = o)) as [->|Hne].
    + rewrite Hpo in Hq. injection Hq as <-. rewrite Hph in Hs. destruct (Z.eqb_spec (remaining s) 0); [lia|done].
    + destruct (Ho d q Hne Hq) as [Hout _]. unfold outside in Hout. rewrite Hlk in Hs. by destruct (ph q).
  - eapply stuck_insert; [done|exact Hq|done|by left|]. intros -> [_ Hc]. exfalso.
    rewrite (not_dropped s c q Hin Hinv Hq) in Hc. naive_solver congruence.
  - eapply stuck_insert; [done|exact Hq|done|by left|]. intros -> _. split; [done|by left].
  - eapply stuck_insert; [done|exact Hq|done|by left|]. intros -> [_ Hc]. split; [done|]. simpl. naive_solver congruence.
  - apply handler_cpus in Hs as [Hh [E|(q' & E & Hph')]].
    + unfold stuck. by rewrite E.
    + eapply stuck_insert; [done|exact Hq|exact E|by left|]. intros _ [Hn _]. done.
  - by eapply stuck_insert; [done|exact Hq|done|left|].
  - exact Hst.
Qed.

Lemma stuck_steps s s' o c j : tlb_inv s → stuck s o c j → rtc (step table ipi) s s' → stuck s' o c j.
Proof.
  intros Hinv Hst Hs. induction Hs as [|s1 s2 s3 H12 _ IH]; [done|].
  apply IH; [by eapply tlb_inv_step|by eapply stuck_step].
Qed.
End Proof.

(** Where the handler is not installed, a request that was sent is never
    answered. *)
Lemma uninstalled_stuck `{BuildConfig} s o po j :
  installed table IRQ_IPI_TLB_SHOOTDOWN ipi = false → tlb_inv s → cpus s !! o = Some po → ph po = Wait j →
  remaining s ≠ 0 → ∃ c, stuck s o c j.
Proof.
  intros Hi Hinv Hpo Hph Hr. pose proof (ti_rem _ Hinv) as E. pose proof (tally_nonneg busy (cpus s)).
  destruct (tally_pos busy (cpus s)) as (c & p & Hc & Hb); [lia|]. exists c. split; [eauto|]. exists p. split; [done|].
  destruct (Forall_lookup_1 _ _ _ _ (ti_table _ Hinv) Hc) as [_ Hh].
  assert (hnd p = HNone) as Hn by (destruct (hnd p); [done|..]; rewrite Hh in Hi; done).
  split; [done|]. unfold busy in Hb. rewrite Hn, orb_false_r in Hb. apply orb_true_iff in Hb as [?|?]; auto.
Qed.
End Invariant.

(** C22: whether tlb_shootdown comes back from its wait depends on the table of
    handlers.  Where [ipi_tlb_shootdown] is installed at the vector and no
    other CPU has called tlb_shootdown with its interrupts off, there are steps
    after which the waiting CPU has left its loop.  With the table the kernel
    sets up, in which the only handlers are those of the exceptions, the timer
    and the keyboard, a CPU that waits for at least one answer stays in the
    loop whatever happens. *)
Theorem tlb_shootdown_progress `{BuildConfig} table ipi s o po j :
  reachable table ipi s → cpus s !! o = Some po → ph po = Wait j →
  (installed table IRQ_IPI_TLB_SHOOTDOWN ipi = true →
   (∀ c p, c ≠ o → cpus s !! c = Some p → ph p ≠ Idle → irq p = true) →
   ∃ s' po', rtc (step table ipi) s s' ∧ cpus s' !! o = Some po' ∧ ph po' = Drop1 j) ∧
  (∀ timer kbd kvec, table = startup_table timer kbd kvec → 0 ≤ kvec → kvec ≠ IRQ_IPI_TLB_SHOOTDOWN → remaining s ≠ 0 →
   ∀ s', rtc (step table ipi) s s' → ∃ po', cpus s' !! o = Some po' ∧ ph po' = Wait j).
Proof.
  intros Hinv%inv_tlb_reachable Hpo Hph. split.
  - intros Hi Hon. eapply wait_progress; [done..|]. intros c p Hc Hb. destruct (decide (c = o)) as [->|Hne].
    + destruct (waiting_owner _ _ s o po j Hinv Hpo Hph). congruence.
    + destruct (ph p) eqn:E; [by right|left; eapply Hon; [done..|congruence]..].
  - intros timer kbd kvec -> Hk Hne Hr s' Hs.
    destruct (uninstalled_stuck (startup_table timer kbd kvec) ipi s o po j) as [c Hst]; [|done..|].
    + apply startup_ipi; [done|rewrite !elem_of_cons; auto|done].
    + exact (proj1 (stuck_steps _ _ _ _ _ _ _ Hinv Hst Hs)).
Qed.

(** A CPU that waits for [shootdown_lock] with its interrupts off never takes
    the request of the CPU that holds it, which never gives the lock back. *)
Theorem tlb_shootdown_deadlock `{BuildConfig} table ipi s o po j c p j' :
  reachable table ipi s → cpus s !! o = Some po → ph po = Wait j →
  cpus s !! c = Some p → ph p = Lock1 j' → hnd p = HNone → irq p = false → pend p = true →
  ∀ s', rtc (step table ipi) s s' → ∃ po', cpus s' !! o = Some po' ∧ ph po' = Wait j.
Proof.
  intros Hinv%inv_tlb_reachable Hpo Hph Hc Hpc Hh Hi Hp s' Hs.
  assert (stuck table ipi s o c j) as Hst.
  { split; [eauto|]. exists p. split; [done|]. split; [done|]. right. split; [done|]. right. eauto. }
  exact (proj1 (stuck_steps _ _ _ _ _ _ _ Hinv Hst Hs)).
Qed.

(** ** Two CPUs *)

Module TlbDemo.
#[local] Existing Instance debug_build.
Definition idle (t : gmap Z nat) : cpu := mk_cpu Idle false HNone t true false.
(** Both use address space 1; the second has page 0x5000 cached. *)
Definition s0 : tstate := mk_tstate [idle ∅; idle {[0x5000 := O]}] None ∅ {[1 := 6]} None 0 0 false.
Definition j : job := mk_job 1 0x5000 0x6000.
(** [ipi_tlb_shootdown] is at 0x7000, the timer's handler at 0x1000 and the
    keyboard's at 0x2000. *)
Definition kernel_table : list isr_info := startup_table 0x1000 0x2000 0x31.
Definition full_table : list isr_info :=
  isr_set_info IRQ_IPI_TLB_SHOOTDOWN (mk_info ISR_IRQ (Some (OtherHandler 0x7000))) kernel_table.

Section Run.
Context (table : list isr_info).

(** The step a CPU takes, in a run given as a list of choices. *)
Inductive choice := Call (c : nat) | Main (c : nat) | Deliver (c : nat) | Handle (c : nat) | Cli (c : nat).
Definition take_step (s : tstate) (x : choice) : option tstate :=
  match x with
  | Call c => match cpus s !! c with Some p => match hnd p, ph p with HNone, Idle => Some (upd_cpu c (set_ph (Lock1 j) p) s) | _, _ => None end | None => None end
  | Main c => match cpus s !! c with Some p => match hnd p with HNone => tlb_shootdown c p s | _ => None end | None => None end
  | Deliver c => match cpus s !! c with
      | Some p => match pend p, hnd p, irq p, installed table IRQ_IPI_TLB_SHOOTDOWN 0x7000 with
          | true, HNone, true, true => Some (upd_cpu c (set_hnd HStart (set_pend false p)) s)
          | _, _, _, _ => None end
      | None => None end
  | Handle c => match cpus s !! c with Some p => ipi_tlb_shootdown c p s | None => None end
  | Cli c => match cpus s !! c with Some p => match hnd p, ph p with HNone, Idle => Some (upd_cpu c (set_irq false p) s) | _, _ => None end | None => None end
  end.
Fixpoint run (s : tstate) (l : list choice) : option tstate :=
  match l with [] => Some s | x :: l => match take_step s x with Some s' => run s' l | None => None end end.

Lemma take_step_sound s x s' : take_step s x = Some s' → step table 0x7000 s s'.
Proof.
  destruct x as [c|c|c|c|c]; simpl; destruct (cpus s !! c) as [p|] eqn:Hc; try done.
  - destruct (hnd p) eqn:Hh, (ph p) eqn:Hp; try done. intros [= <-]. by apply step_call.
  - destruct (hnd p) eqn:Hh; try done. intros Hs. by eapply step_main.
  - destruct (pend p) eqn:Hp, (hnd p) eqn:Hh, (irq p) eqn:Hi, (installed table IRQ_IPI_TLB_SHOOTDOWN 0x7000) eqn:E; try done.
    intros [= <-]. by apply step_deliver.
  - intros Hs. by eapply step_handler.
  - destruct (hnd p) eqn:Hh, (ph p) eqn:Hp; try done. intros [= <-]. by apply step_irq.
Qed.

Lemma tlb_run_reachable l s' : run s0 l = Some s' → reachable table 0x7000 s'.
Proof.
  intros Hr. exists s0. split; [split; [by repeat constructor|done]|]. revert Hr. generalize s0.
  induction l as [|x l IH]; simpl; intros s Hr; [by injection Hr as ->|].
  destruct (take_step s x) as [s1|] eqn:E; [|done]. eapply rtc_l; [by eapply take_step_sound|auto].
Qed.
End Run.

(** The first CPU has sent its request and waits. *)
Definition to_wait : list choice := Call 0 :: replicate 6 (Main 0).
(** The second has answered, and the first has left the loop. *)
Definition to_drop : list choice :=
  to_wait ++ [Deliver 1; Handle 1; Handle 1; Handle 1; Handle 1; Main 0].
Definition waiting (table : list isr_info) : tstate := default s0 (run table s0 to_wait).
Definition done_ : tstate := default s0 (run full_table s0 to_drop).
(** The second calls with its interrupts off while the first waits. *)
Definition deadlocked : tstate := default s0 (run full_table s0 ([Cli 1; Call 1] ++ to_wait)).
End TlbDemo.

Section witnesses.
Import TlbDemo.
#[local] Existing Instance debug_build.

Lemma tlb_shootdown_complete_witness :
  ∃ po p, cpus done_ !! 0%nat = Some po ∧ ph po = Drop1 j ∧ cpus done_ !! 1%nat = Some p ∧
    ∀ e, tlb p !! (0x5000 + 0 * PAGE_SIZE) = Some e → e = epoch done_.
Proof.
  eexists _, _. split; [vm_compute; reflexivity|]. split; [reflexivity|]. split; [vm_compute; reflexivity|].
  eapply (tlb_shootdown_complete full_table 0x7000 done_ 0 _ j 1 _ 0); [apply (tlb_run_reachable full_table to_drop)|..];
    try (vm_compute; reflexivity); try done.
Defined.

Lemma tlb_handler_safe_witness : wild (waiting full_table) = false ∧ remaining (waiting full_table) = tally busy (cpus (waiting full_table)).
Proof.
  destruct (tlb_handler_safe full_table 0x7000 (waiting full_table)) as (? & ? & _); [|done].
  apply (tlb_run_reachable full_table to_wait). vm_compute. reflexivity.
Defined.

(** The first CPU waits for one answer in both: it comes in the one table, not
    in the kernel's. *)
Lemma tlb_shootdown_progress_witness :
  (remaining (waiting full_table) = 1 ∧
   ∃ s' po', rtc (step full_table 0x7000) (waiting full_table) s' ∧ cpus s' !! 0%nat = Some po' ∧ ph po' = Drop1 j) ∧
  (remaining (waiting kernel_table) = 1 ∧
   ∀ s', rtc (step kernel_table 0x7000) (waiting kernel_table) s' → ∃ po', cpus s' !! 0%nat = Some po' ∧ ph po' = Wait j).
Proof.
  split; (split; [vm_compute; reflexivity|]).
  - eapply (tlb_shootdown_progress full_table 0x7000 (waiting full_table) 0);
      [apply (tlb_run_reachable full_table to_wait)|..]; try (vm_compute; reflexivity).
    intros [|[|c]] p Hc Hp Hph; [done| |by destruct c]. vm_compute in Hp. by injection Hp as <-.
  - eapply (proj2 (tlb_shootdown_progress kernel_table 0x7000 (waiting kernel_table) 0 _ _
      ltac:(apply (tlb_run_reachable kernel_table to_wait); vm_compute; reflexivity) ltac:(vm_compute; reflexivity) eq_refl)
      0x1000 0x2000 0x31 eq_refl); vm_compute; done.
Defined.

Lemma tlb_shootdown_deadlock_witness :
  ∀ s', rtc (step full_table 0x7000) deadlocked s' → ∃ po', cpus s' !! 0%nat = Some po' ∧ ph po' = Wait j.
Proof.
  eapply (tlb_shootdown_deadlock full_table 0x7000 deadlocked 0 _ j 1 _ j);
    [apply (tlb_run_reachable full_table ([Cli 1; Call 1] ++ to_wait))|..]; vm_compute; reflexivity.
Defined.
End witnesses.
