(* ===== verification/Area.v ===== *)
(** * Memory areas of an address space

    [area_add] of kernel/mm/area.c on the singly linked list of
    [struct vm_area]s an address space has, with the list macros of
    include/ds/linked.h it uses.  The list is kept sorted by base address. *)

From stdpp Require Import base list gmap fin_maps.
From Stdlib Require Import ZArith Lia Bool Sorted.
From S2P Require Import Prelude.
Local Open Scope Z_scope.

Record vm_area := mk_area { va_next : Z; va_base : Z; va_len : Z; va_type : Z; va_flags : Z }.

Definition VM_AREA_OTHER : Z := 0.
Definition VM_AREA_STACK : Z := 1.
Definition VM_AREA_TEXT : Z := 2.
Definition VM_AREA_BSS : Z := 3.
Definition VM_AREA_WRITABLE : Z := 1.
Definition VM_AREA_EXECUTABLE : Z := 2.

(** The areas in memory and the [areas] field of the address space; [is_kernel]
    tells whether it is [kernel_mmu]. *)
Record astate := mk_astate { areas : gmap Z vm_area; first_area : Z; is_kernel : bool }.

Definition upd_areas f s := mk_astate (f (areas s)) (first_area s) (is_kernel s).
Definition upd_first v s := mk_astate (areas s) v (is_kernel s).

Abbreviation A := (M astate).

Definition rd_area : Z → A vm_area := deref areas.
Definition wr_area : Z → (vm_area → vm_area) → A unit := store areas upd_areas.

Definition set_va_next (v : Z) (a : vm_area) := mk_area v (va_base a) (va_len a) (va_type a) (va_flags a).

Section Code.
Context {BC : BuildConfig}.

(** [slist_set_next(ptr, list, next_entry)] *)
Definition slist_set_next (p next_entry : Z) : A unit := wr_area p (set_va_next next_entry).

(** One round of the search for the place of [area]. *)
Definition area_round (area : Z) (c : Z * Z) : A (Z * Z + option Z) :=
  let '(prev, cur) := c in
  if cur =? NULL then mret (inr (Some prev))
  else
    ca ← rd_area cur; na ← rd_area area;
    kassert_dbg (negb (va_base ca =? va_base na));;
    if va_base na <? va_base ca then
      kassert_dbg (u64 (va_base na + va_len na) <? va_base ca);;
      slist_set_next area cur;;
      (if negb (prev =? NULL) then slist_set_next prev area
       else modify (upd_first area);; slist_set_next area cur);;
      mret (inr None)
    else ca ← rd_area cur; mret (inl (cur, va_next ca)).

(** A list has no more nodes than there are areas. *)
Definition area_add (area : Z) : A unit :=
  s ← get;
  kassert_dbg (negb (is_kernel s));;
  if first_area s =? NULL then modify (upd_first area)
  else
    r ← loop (S (size (areas s))) (area_round area) (NULL, first_area s);
    match r with
    | None => mret tt
    | Some prev =>
        pa ← rd_area prev; na ← rd_area area;
        kassert_dbg (u64 (va_base pa + va_len pa) <? va_base na);;
        slist_set_next prev area
    end.
End Code.

(** ** The list *)

Definition hd_area (l : list Z) : Z := match l with [] => NULL | a :: _ => a end.

Fixpoint chain (m : gmap Z vm_area) (l : list Z) (t : Z) : Prop :=
  match l with
  | [] => True
  | a :: l => (∃ d, m !! a = Some d ∧ va_next d = match l with [] => t | b :: _ => b end) ∧ chain m l t
  end.

(** Base and length of each area. *)
Definition extents (m : gmap Z vm_area) : gmap Z (Z * Z) := (λ d, (va_base d, va_len d)) <$> m.

(** [a] ends before [b] begins, with a gap. *)
Definition before (g : gmap Z (Z * Z)) (a b : Z) : Prop :=
  ∃ d e, g !! a = Some d ∧ g !! b = Some e ∧ d.1 + d.2 < e.1.

Definition area_ok (g : gmap Z (Z * Z)) (a : Z) : Prop :=
  a ≠ NULL ∧ ∃ d, g !! a = Some d ∧ 0 ≤ d.1 ∧ 0 ≤ d.2 ∧ d.1 + d.2 < 2 ^ 64.

(** The list of an address space: linked, sorted, without overlap. *)
Record areas_inv (s : astate) (l : list Z) : Prop := {
  ai_first : first_area s = hd_area l;
  ai_chain : chain (areas s) l NULL;
  ai_ok : Forall (area_ok (extents (areas s))) l;
  ai_sorted : StronglySorted (before (extents (areas s))) l
}.

Lemma chain_app m l1 l2 t :
  chain m (l1 ++ l2) t ↔ chain m l1 (match l2 with [] => t | b :: _ => b end) ∧ chain m l2 t.
Proof.
  induction l1 as [|a l1 IH]; simpl; [tauto|]. rewrite IH. destruct l1 as [|b l1], l2 as [|c l2]; simpl; naive_solver.
Qed.

Lemma chain_ext m m' l t : (∀ a, a ∈ l → m' !! a = m !! a) → chain m l t → chain m' l t.
Proof.
  induction l as [|a l IH]; simpl; [done|]. intros He [(d & Hd & Hn) Hl]. split.
  - exists d. rewrite He by left. done.
  - apply IH; [|done]. intros b Hb. apply He. by right.
Qed.

Lemma before_trans g a b c : area_ok g b → before g a b → before g b c → before g a c.
Proof.
  intros (_ & e & He & ? & ? & _) (d & e' & Hd & He' & ?) (e'' & f & He'' & Hf & ?). exists d, f. split_and!; [done|done|].
  rewrite He in He', He''. injection He' as <-. injection He'' as <-. lia.
Qed.

Lemma before_irrefl g a : area_ok g a → ¬ before g a a.
Proof.
  intros (_ & d & Hd & ? & ? & _) (d' & e & Hd' & He & ?). rewrite Hd in Hd', He. injection Hd' as <-. injection He as <-. lia.
Qed.

Lemma sorted_insert {T} (R : T → T → Prop) l1 a l2 :
  StronglySorted R (l1 ++ l2) → Forall (λ x, R x a) l1 → Forall (R a) l2 → StronglySorted R (l1 ++ a :: l2).
Proof.
  induction l1 as [|x l1 IH]; simpl; intros Hs H1 H2; [by constructor|].
  apply StronglySorted_inv in Hs as [Hs Hx]. apply Forall_cons in H1 as [Hxa H1]. constructor; [auto|].
  apply Forall_app in Hx as [? ?]. apply Forall_app. split; [done|]. by constructor.
Qed.

Lemma sorted_NoDup g l : StronglySorted (before g) l → Forall (area_ok g) l → NoDup l.
Proof.
  induction 1 as [|a l Hs IH Ha]; intros Hok; [constructor|]. apply Forall_cons in Hok as [Hoka Hok].
  constructor; [|auto]. intros Hin. apply (before_irrefl g a Hoka). by apply (proj1 (Forall_forall _ _) Ha).
Qed.

Lemma extents_lookup m a d : m !! a = Some d → extents m !! a = Some (va_base d, va_len d).
Proof. intros Ha. unfold extents. by rewrite lookup_fmap, Ha. Qed.

Lemma area_lookup m a : area_ok (extents m) a →
  a ≠ NULL ∧ ∃ d, m !! a = Some d ∧ 0 ≤ va_base d ∧ 0 ≤ va_len d ∧ va_base d + va_len d < 2 ^ 64.
Proof.
  intros (Ha & e & He & ?). split; [done|]. unfold extents in He. rewrite lookup_fmap, fmap_Some in He.
  destruct He as (d & Hd & ->). eauto.
Qed.

(** ** Correctness *)

Section Proof.
Context {BC : BuildConfig}.
Implicit Types s : astate.

Lemma wp_rd_area a d s (Q : vm_area → astate → Prop) :
  areas s !! a = Some d → a ≠ NULL → Q d s → wp (rd_area a) s Q.
Proof. apply wp_deref. Qed.

Lemma wp_set_next a v s (Q : unit → astate → Prop) :
  is_Some (areas s !! a) → a ≠ NULL → Q tt (upd_areas (alter (set_va_next v) a) s) → wp (slist_set_next a v) s Q.
Proof.
  intros [d Hd] Ha HQ. apply (wp_store _ _ _ _ d); [done..|]. replace (upd_areas <[a:=_]> s) with (upd_areas (alter (set_va_next v) a) s); [done|].
  unfold upd_areas. f_equal. apply map_eq. intros y. destruct (decide (a = y)) as [<-|].
  - by rewrite lookup_alter_eq, lookup_insert_eq, Hd.
  - by rewrite lookup_alter_ne, lookup_insert_ne.
Qed.

(** The areas in memory after [a] has been linked between [l1] and [l2]. *)
Definition linked (m : gmap Z vm_area) (l1 : list Z) (a : Z) (l2 : list Z) : gmap Z vm_area :=
  let m1 := alter (set_va_next (hd_area l2)) a m in
  match last l1 with None => m1 | Some p => alter (set_va_next a) p m1 end.

Lemma linked_extents m l1 a l2 : extents (linked m l1 a l2) = extents m.
Proof.
  assert (∀ m x v, extents (alter (set_va_next v) x m) = extents m) as He.
  { intros m' x v. unfold extents. apply map_eq. intros y. rewrite !lookup_fmap.
    destruct (decide (x = y)) as [<-|]; [rewrite lookup_alter_eq; by destruct (m' !! x)|by rewrite lookup_alter_ne]. }
  unfold linked. destruct (last l1); by rewrite ?He.
Qed.

Lemma linked_chain m l1 a l2 d :
  chain m (l1 ++ l2) NULL → NoDup (l1 ++ l2) → a ∉ l1 ++ l2 → m !! a = Some d →
  chain (linked m l1 a l2) (l1 ++ a :: l2) NULL.
Proof.
  intros [Hc1 Hc2]%chain_app Hnd Ha Hd. rewrite not_elem_of_app in Ha. destruct Ha as [Ha1 Ha2].
  apply NoDup_app in Hnd as (Hnd1 & Hd12 & Hnd2). unfold linked. set (m1 := alter (set_va_next (hd_area l2)) a m).
  assert (∀ x, x ≠ a → m1 !! x = m !! x) as Hm1 by (intros x Hx; by apply lookup_alter_ne).
  assert (chain m1 (a :: l2) NULL) as H2.
  { split; [|eapply chain_ext; [|exact Hc2]; intros x Hx; apply Hm1; by intros ->].
    exists (set_va_next (hd_area l2) d). unfold m1. rewrite lookup_alter_eq, Hd. done. }
  destruct l1 as [|p l0 _] using rev_ind; [done|]. rewrite last_snoc. rewrite <-(assoc_L (++)). simpl.
  assert (p ≠ a ∧ p ∉ l2 ∧ p ∉ l0) as (Hpa & Hp2 & Hp0).
  { split_and!; [intros ->; apply Ha1, elem_of_app; right; left|apply Hd12, elem_of_app; right; left|].
    apply NoDup_app in Hnd1 as (_ & Hd0 & _). intros Hx. apply (Hd0 p Hx). left. }
  apply chain_app in Hc1 as [Hc0 [(e & He & _) _]]. apply chain_app. split; [|split].
  - eapply chain_ext; [|exact Hc0]. intros x Hx. rewrite lookup_alter_ne by (by intros ->). apply Hm1.
    intros ->. apply Ha1, elem_of_app. by left.
  - exists (set_va_next a e). rewrite lookup_alter_eq, Hm1, He by done. done.
  - eapply chain_ext; [|exact H2]. intros x Hx. apply lookup_alter_ne. intros ->. apply elem_of_cons in Hx as [?|?]; done.
Qed.

(** The invariant with [a] at its place. *)
Lemma inv_linked s s' l1 a l2 d :
  areas_inv s (l1 ++ l2) → a ∉ l1 ++ l2 → areas s !! a = Some d → area_ok (extents (areas s)) a →
  Forall (λ b, before (extents (areas s)) b a) l1 → Forall (before (extents (areas s)) a) l2 →
  areas s' = linked (areas s) l1 a l2 → first_area s' = hd_area (l1 ++ a :: l2) → areas_inv s' (l1 ++ a :: l2).
Proof.
  intros [Hf Hc Hok Hs] Ha Hd Hoka H1 H2 Hm Hf'. split; [done|..]; rewrite Hm, ?linked_extents.
  - eapply linked_chain; [done|by eapply sorted_NoDup|done..].
  - apply Forall_app in Hok as [? ?]. apply Forall_app. split; [done|]. by constructor.
  - by apply sorted_insert.
Qed.

(** What the search has established when it stops: [a] is linked in front of
    the first larger area, or all areas are smaller and the last is returned. *)
Definition found (s : astate) (l : list Z) (a : Z) (r : option Z) (s' : astate) : Prop :=
  match r with
  | None => ∃ l1 l2, l = l1 ++ l2 ∧ areas_inv s' (l1 ++ a :: l2) ∧ extents (areas s') = extents (areas s)
  | Some prev => s' = s ∧ Some prev = last l ∧ Forall (λ b, before (extents (areas s)) b a) l
  end.

Lemma wp_area_insert s l1 b l2 a d (Q : Z * Z + option Z → astate → Prop) :
  areas_inv s (l1 ++ b :: l2) → a ∉ l1 ++ b :: l2 → a ≠ NULL → areas s !! a = Some d →
  area_ok (extents (areas s)) a → Forall (λ x, before (extents (areas s)) x a) l1 → before (extents (areas s)) a b →
  (∀ s', found s (l1 ++ b :: l2) a None s' → Q (inr None) s') →
  wp (slist_set_next a b;;
      (if negb (default NULL (last l1) =? NULL) then slist_set_next (default NULL (last l1)) a
       else modify (upd_first a);; slist_set_next a b);;
      mret (inr None)) s Q.
Proof.
  intros Hinv Hal Ha0 Hd Hoka H1 Hab HQ. pose proof Hinv as [Hf Hc Hok Hs].
  assert (Forall (before (extents (areas s)) a) (b :: l2)) as H2.
  { constructor; [done|]. apply Forall_app in Hok as [_ [Hokb _]%Forall_cons].
    assert (StronglySorted (before (extents (areas s))) (b :: l2)) as [_ Hbs]%StronglySorted_inv.
    { clear -Hs. induction l1; [done|]. by apply StronglySorted_inv in Hs as [? _]; auto. }
    eapply Forall_impl; [exact Hbs|]. intros x Hx. by eapply before_trans. }
  apply wp_bind, wp_set_next; [eauto|done|]. apply wp_bind.
  destruct l1 as [|p l0 _] using rev_ind.
  - simpl. apply wp_bind, wp_modify. apply wp_set_next; [simpl; rewrite lookup_alter_eq, Hd; eauto|done|]. apply wp_ret.
    apply HQ. exists [], (b :: l2). split; [done|]. split.
    + eapply (inv_linked s); try done. unfold linked. simpl. apply map_eq. intros y. destruct (decide (a = y)) as [<-|].
      * rewrite !lookup_alter_eq, Hd. done.
      * by rewrite !lookup_alter_ne.
    + simpl. rewrite <-(linked_extents _ [] a (b :: l2)) at 1. unfold linked. simpl. unfold extents. apply map_eq. intros y.
      rewrite !lookup_fmap. destruct (decide (a = y)) as [<-|]; [by rewrite !lookup_alter_eq, Hd|by rewrite !lookup_alter_ne].
  - rewrite last_snoc. simpl default.
    assert (p ∈ (l0 ++ [p]) ++ b :: l2) as Hp. { rewrite !elem_of_app. left. right. left. }
    destruct (area_lookup (areas s) p) as (Hp0 & e & He & _); [by apply (proj1 (Forall_forall _ _) Hok)|].
    destruct (Z.eqb_spec p NULL) as [|_]; [done|]. cbv [negb].
    apply wp_set_next; [simpl; rewrite lookup_alter_ne by (by intros ->); eauto|done|]. apply wp_ret. apply HQ.
    exists (l0 ++ [p]), (b :: l2). split; [done|]. split.
    + eapply (inv_linked s); try done.
      * unfold linked. by rewrite last_snoc.
      * simpl. rewrite Hf. by destruct l0.
    + etrans; [|apply (linked_extents _ (l0 ++ [p]) a (b :: l2))]. unfold linked. by rewrite last_snoc.
Qed.

Lemma wp_area_search s l a d (Q : option Z → astate → Prop) :
  areas_inv s l → l ≠ [] → a ∉ l → a ≠ NULL → areas s !! a = Some d → area_ok (extents (areas s)) a →
  Forall (λ b, before (extents (areas s)) a b ∨ before (extents (areas s)) b a) l →
  (∀ r s', found s l a r s' → Q r s') →
  wp (loop (S (size (areas s))) (area_round a) (NULL, first_area s)) s Q.
Proof.
  intros Hinv Hne Hal Ha0 Hd Hoka Hfit HQ. pose proof Hinv as [Hf Hc Hok Hs].
  eapply (wp_loop (λ n '(prev, cur) s', s' = s ∧ ∃ l1 l2, l = l1 ++ l2 ∧ prev = default NULL (last l1) ∧ cur = hd_area l2 ∧
    n = length l2 ∧ Forall (λ b, before (extents (areas s)) b a) l1)).
  - intros n [prev cur] s' (-> & l1 & l2 & El & -> & -> & -> & H1). unfold area_round. destruct l2 as [|b l2]; simpl hd_area.
    { simpl. apply wp_ret. apply HQ. rewrite app_nil_r in El. subst l1. split; [done|]. split; [|done].
      destruct l as [|? ? _] using rev_ind; [done|]. by rewrite last_snoc. }
    assert (b ∈ l) as Hb. { rewrite El. apply elem_of_app. right. left. }
    destruct (area_lookup (areas s) b) as (Hb0 & e & He & Hoe); [by apply (proj1 (Forall_forall _ _) Hok)|].
    destruct (area_lookup (areas s) a Hoka) as (_ & d' & Hd' & Hod). rewrite Hd in Hd'. injection Hd' as <-.
    destruct (Z.eqb_spec b NULL) as [|_]; [done|].
    apply wp_bind, (wp_rd_area _ e); [done..|]. apply wp_bind, (wp_rd_area _ d); [done..|].
    pose proof (proj1 (Forall_forall _ _) Hfit b Hb) as Hab. unfold before in Hab.
    rewrite !(extents_lookup _ _ _ Hd), !(extents_lookup _ _ _ He) in Hab.
    assert (va_base d + va_len d < va_base e ∨ va_base e + va_len e < va_base d) as Hgap.
    { destruct Hab as [(? & ? & [= <-] & [= <-] & ?)|(? & ? & [= <-] & [= <-] & ?)]; auto. }
    apply wp_bind, wp_kassert_dbg; [destruct (Z.eqb_spec (va_base e) (va_base d)); [lia|done]|].
    destruct (Z.ltb_spec (va_base d) (va_base e)) as [Hlt|Hge].
    + apply wp_bind, wp_kassert_dbg; [apply Z.ltb_lt; rewrite uwrap_id by (unfold in_u; lia); lia|].
      subst l. eapply wp_area_insert; [done..| |by intros s'; apply HQ].
      exists (va_base d, va_len d), (va_base e, va_len e). rewrite (extents_lookup _ _ _ Hd), (extents_lookup _ _ _ He). split_and!; [done..|simpl; lia].
    + apply wp_bind, (wp_rd_area _ e); [done..|]. apply wp_ret. exists (length l2). split; [simpl; lia|]. split; [done|].
      exists (l1 ++ [b]), l2. rewrite <-(assoc_L (++)), last_snoc. split_and!; [done|done| |done|].
      * rewrite El in Hc. apply chain_app in Hc as [_ [(e' & He' & Hn) _]]. rewrite He in He'. by injection He' as <-.
      * apply Forall_app. split; [done|]. constructor; [|done].
        exists (va_base e, va_len e), (va_base d, va_len d). rewrite (extents_lookup _ _ _ Hd), (extents_lookup _ _ _ He). split_and!; [done..|simpl; lia].
  - split; [done|]. by exists [], l.
  - assert (length l ≤ size (areas s))%nat; [|lia].
    rewrite <-(size_list_to_set (C := gset Z) l), <-size_dom by (by eapply sorted_NoDup).
    apply subseteq_size. intros x Hx%elem_of_list_to_set. apply elem_of_dom.
    destruct (area_lookup (areas s) x) as (_ & ? & -> & _); [by apply (proj1 (Forall_forall _ _) Hok)|done].
Qed.

Lemma wp_area_add s l a d :
  areas_inv s l → is_kernel s = false → a ∉ l → areas s !! a = Some d → va_next d = NULL →
  area_ok (extents (areas s)) a →
  Forall (λ b, before (extents (areas s)) a b ∨ before (extents (areas s)) b a) l →
  wp (area_add a) s (λ _ s', ∃ l1 l2, l = l1 ++ l2 ∧ areas_inv s' (l1 ++ a :: l2) ∧
    extents (areas s') = extents (areas s)).
Proof.
  intros Hinv Hk Hal Hd Hnx Hoka Hfit. pose proof Hinv as [Hf Hc Hok Hs]. pose proof Hoka as [Ha0 _].
  unfold area_add. apply wp_bind, wp_get. apply wp_bind, wp_kassert_dbg; [by rewrite Hk|]. rewrite Hf.
  destruct l as [|b l]; simpl hd_area.
  - simpl. apply wp_modify. exists [], []. split; [done|]. split; [|done]. split; simpl; [done| |by constructor|by repeat constructor].
    split; [|done]. by exists d.
  - destruct (Z.eqb_spec b NULL) as [->|Hb]; [by apply Forall_cons in Hok as [[? _] _]|].
    replace b with (first_area s) at 1 by done. apply wp_bind, (wp_area_search s (b :: l) a d); [done..|].
    intros [prev|] s' Hr; [|by apply wp_ret]. destruct Hr as (-> & Hlast & Hbef).
    remember (b :: l) as l' eqn:El. destruct l' as [|p l0 _] using rev_ind; [done|]. rewrite last_snoc in Hlast.
    injection Hlast as <-. assert (prev ∈ l0 ++ [prev]) as Hp by (apply elem_of_app; right; left).
    destruct (area_lookup (areas s) prev) as (Hp0 & e & He & Hoe); [by apply (proj1 (Forall_forall _ _) Hok)|].
    apply wp_bind, (wp_rd_area _ e); [done..|]. apply wp_bind, (wp_rd_area _ d); [done..|].
    destruct (proj1 (Forall_forall _ _) Hbef prev Hp) as (e' & d' & He' & Hd' & Hlt).
    rewrite (extents_lookup _ _ _ He) in He'. rewrite (extents_lookup _ _ _ Hd) in Hd'. injection He' as <-. injection Hd' as <-. simpl in Hlt.
    apply wp_bind, wp_kassert_dbg; [apply Z.ltb_lt; rewrite uwrap_id by (unfold in_u; lia); lia|].
    apply wp_set_next; [eauto|done|]. exists (l0 ++ [prev]), []. rewrite app_nil_r. split; [done|].
    assert (linked (areas s) (l0 ++ [prev]) a [] = alter (set_va_next a) prev (areas s)) as E.
    { unfold linked. rewrite last_snoc. f_equal. apply map_eq. intros y. destruct (decide (a = y)) as [<-|]; [|by rewrite lookup_alter_ne].
      rewrite lookup_alter_eq, Hd. simpl. by rewrite <-Hnx; destruct d. }
    split; [|simpl; by rewrite <-E, linked_extents]. rewrite <-(app_nil_r (l0 ++ [prev])) in Hinv, Hal.
    eapply (inv_linked s _ (l0 ++ [prev]) a []); try done. simpl. rewrite Hf. by destruct l0.
Qed.
(** area_add of an area that lies apart from the areas of the address space
    returns, with the area at its place in the sorted list and every area
    where it was. *)
Theorem area_add_correct s l a d :
  areas_inv s l → is_kernel s = false → a ∉ l → areas s !! a = Some d → va_next d = NULL →
  area_ok (extents (areas s)) a →
  Forall (λ b, before (extents (areas s)) a b ∨ before (extents (areas s)) b a) l →
  wp (area_add a) s (λ _ s', ∃ l1 l2, l = l1 ++ l2 ∧ areas_inv s' (l1 ++ a :: l2) ∧
    extents (areas s') = extents (areas s)).
Proof. apply wp_area_add. Qed.
End Proof.

(** ** The areas of a user task *)

Module AreaDemo.
(** A text area at 0x1000 is on the list; a stack area is to be added. *)
Definition s : astate :=
  mk_astate {[ 64 := mk_area 0 0x1000 0x1000 VM_AREA_TEXT VM_AREA_EXECUTABLE;
               128 := mk_area 0 0x5000 0x2000 VM_AREA_STACK VM_AREA_WRITABLE ]} 64 false.

Lemma demo_inv : areas_inv s [64].
Proof.
  split; [done| | |].
  - split; [|done]. by eexists.
  - constructor; [|done]. split; [done|]. by eexists.
  - by repeat constructor.
Qed.
End AreaDemo.

Lemma area_add_correct_witness :
  wp (area_add (BC := debug_build) 128) AreaDemo.s (λ _ s', areas_inv s' [64; 128]).
Proof.
  eapply wp_mono; [apply (area_add_correct (BC := debug_build) AreaDemo.s [64] 128 (mk_area 0 0x5000 0x2000 VM_AREA_STACK VM_AREA_WRITABLE))|].
  - apply AreaDemo.demo_inv.
  - done.
  - by rewrite list_elem_of_singleton.
  - done.
  - done.
  - split; [done|]. by eexists.
  - constructor; [|done]. right. by eexists _, _.
  - intros _ s' (l1 & l2 & E & Hinv & He). destruct l1 as [|x l1]; [exfalso|].
    + simpl in E. subst l2. destruct Hinv as [_ _ _ Hs]. apply StronglySorted_inv in Hs as [_ [Hb _]%Forall_cons].
      rewrite He in Hb. destruct Hb as (d & e & Hd & He' & Hlt). vm_compute in Hd, He'. by simplify_eq.
    + injection E as <- E. symmetry in E. apply app_eq_nil in E as [-> ->]. done.
Defined.
