(* ===== verification/Sched.v ===== *)
(** * Scheduler: the code

    kernel/proc/runq.c, kernel/proc/sched.c, [task_wakeup] and [task_exit] of
    kernel/proc/task.c, the per-CPU record of include/percpu.h, [switch_to] of
    kernel/proc/switch_to.asm and [mmu_switch] of kernel/mm/mmu.c, as executed by
    one CPU.  Run queues are red-black trees over the [sched.node] members
    embedded in the tasks; all trees share one heap of nodes. *)

From stdpp Require Import base list gmap.
From Stdlib Require Import ZArith Lia Bool.
From S2P Require Import Prelude RbModel RbTree Addr Cpuset.
Local Open Scope Z_scope.

(** ** include/proc.h *)

Definition TASK_KTHREAD : Z := Z.shiftl 1 0.
Definition TASK_RUNNING : Z := Z.shiftl 1 1.
Definition TASK_PREEMPTED : Z := Z.shiftl 1 2.
Definition FORK_KTHREAD : Z := Z.shiftl 1 0.
Definition FORK_UTHREAD : Z := Z.shiftl 1 1.
Definition TID_IDLE : Z := 0.
Definition MAX_SLICES : Z := 5.

Inductive task_state :=
| TASK_S_NOT_STARTED
| TASK_S_RUNNABLE
| TASK_S_WAITING
| TASK_S_SLEEPING
| TASK_S_ZOMBIE
| TASK_S_DEAD.

#[global] Instance task_state_eq_dec : EqDecision task_state.
Proof. solve_decision. Defined.

(** [struct task] with its [struct sched_entity]; the embedded [rb_node] is in
    the heap of nodes, at [node_of] the task's address. *)
Record task := mk_task {
  rsp_top : Z;
  rsp_original : Z;
  t_mmu : Z;
  t_flags : Z;
  t_state : task_state;
  tid : Z;
  tgid : Z;
  affinity : Z;
  vruntime : Z;
  num_slices : Z;
}.

Definition set_rsp_top v t := mk_task v (rsp_original t) (t_mmu t) (t_flags t) (t_state t)
  (tid t) (tgid t) (affinity t) (vruntime t) (num_slices t).
Definition set_flags v t := mk_task (rsp_top t) (rsp_original t) (t_mmu t) v (t_state t)
  (tid t) (tgid t) (affinity t) (vruntime t) (num_slices t).
Definition set_state v t := mk_task (rsp_top t) (rsp_original t) (t_mmu t) (t_flags t) v
  (tid t) (tgid t) (affinity t) (vruntime t) (num_slices t).
Definition set_vruntime v t := mk_task (rsp_top t) (rsp_original t) (t_mmu t) (t_flags t)
  (t_state t) (tid t) (tgid t) (affinity t) v (num_slices t).
Definition set_slices v t := mk_task (rsp_top t) (rsp_original t) (t_mmu t) (t_flags t)
  (t_state t) (tid t) (tgid t) (affinity t) (vruntime t) v.

Record runq := mk_runq {
  rq_lock : Z;
  rq_idle : Z;
  rq_tree : rbtree;
  num_threads : Z;
}.

Definition rq_set_lock v q := mk_runq v (rq_idle q) (rq_tree q) (num_threads q).
Definition rq_set_tree v q := mk_runq (rq_lock q) (rq_idle q) v (num_threads q).
Definition rq_set_num v q := mk_runq (rq_lock q) (rq_idle q) (rq_tree q) v.

(** ** include/percpu.h *)

Record percpu := mk_percpu {
  current_task : Z;
  tss_rsp0 : Z;        (* RSP0 of the TSS that [tss] points to *)
  preempt_count : Z;
  int_depth : Z;
  reschedule : bool;
  cpu_id : Z;
  run_queue : Z;
}.

Definition pc_set_current v p := mk_percpu v (tss_rsp0 p) (preempt_count p) (int_depth p)
  (reschedule p) (cpu_id p) (run_queue p).
Definition pc_set_tss v p := mk_percpu (current_task p) v (preempt_count p) (int_depth p)
  (reschedule p) (cpu_id p) (run_queue p).
Definition pc_set_preempt v p := mk_percpu (current_task p) (tss_rsp0 p) v (int_depth p)
  (reschedule p) (cpu_id p) (run_queue p).
Definition pc_set_depth v p := mk_percpu (current_task p) (tss_rsp0 p) (preempt_count p) v
  (reschedule p) (cpu_id p) (run_queue p).
Definition pc_set_resched v p := mk_percpu (current_task p) (tss_rsp0 p) (preempt_count p)
  (int_depth p) v (cpu_id p) (run_queue p).

(** The fields of [struct mmu_info] that a context switch uses. *)
Record mmu_info := mk_mmu {
  p4 : Z;
  users : Z;
  cpu_lock : Z;
  cpus : Z;
}.
Definition mmu_set_users v m := mk_mmu (p4 m) v (cpu_lock m) (cpus m).
Definition mmu_set_lock v m := mk_mmu (p4 m) (users m) v (cpus m).
Definition mmu_set_cpus v m := mk_mmu (p4 m) (users m) (cpu_lock m) v.

(** What one CPU sees: the shared objects by address, the table of CPUs that
    are ready ([percpu_table], [smp_nr_cpus_ready]), and its own registers. *)
Record kstate := mk_kstate {
  knodes : gmap Z rb_node;
  tasks : gmap Z task;
  runqs : gmap Z runq;
  mmus : gmap Z mmu_info;
  percpu_table : list percpu;
  self : nat;
  cr3 : Z;
  rsp : Z;
}.

Definition upd_tasks f s := mk_kstate (knodes s) (f (tasks s)) (runqs s) (mmus s)
  (percpu_table s) (self s) (cr3 s) (rsp s).
Definition upd_runqs f s := mk_kstate (knodes s) (tasks s) (f (runqs s)) (mmus s)
  (percpu_table s) (self s) (cr3 s) (rsp s).
Definition upd_mmus f s := mk_kstate (knodes s) (tasks s) (runqs s) (f (mmus s))
  (percpu_table s) (self s) (cr3 s) (rsp s).
Definition upd_percpu f s := mk_kstate (knodes s) (tasks s) (runqs s) (mmus s)
  (alter f (self s) (percpu_table s)) (self s) (cr3 s) (rsp s).
Definition upd_cr3 v s := mk_kstate (knodes s) (tasks s) (runqs s) (mmus s)
  (percpu_table s) (self s) v (rsp s).
Definition upd_rsp v s := mk_kstate (knodes s) (tasks s) (runqs s) (mmus s)
  (percpu_table s) (self s) (cr3 s) v.

Abbreviation K := (M kstate).

Definition rd_task : Z → K task := deref tasks.
Definition wr_task : Z → (task → task) → K unit := store tasks upd_tasks.
Definition rd_rq : Z → K runq := deref runqs.
Definition wr_rq : Z → (runq → runq) → K unit := store runqs upd_runqs.
Definition rd_mmu : Z → K mmu_info := deref mmus.
Definition wr_mmu : Z → (mmu_info → mmu_info) → K unit := store mmus upd_mmus.

(** [percpu_get] and [percpu_set]: [gs] holds the executing CPU's record. *)
Definition this_cpu : K percpu := λ s,
  match percpu_table s !! self s with Some p => Ok (p, s) | None => Fault end.
Definition percpu_upd (f : percpu → percpu) : K unit := this_cpu;; modify (upd_percpu f).

(** [percpu_table[i]] *)
Definition percpu_get_id (i : nat) : K percpu := λ s,
  match percpu_table s !! i with Some p => Ok (p, s) | None => Fault end.

Definition current : K Z := p ← this_cpu; mret (current_task p).
Definition smp_cpu_id : K Z := p ← this_cpu; mret (cpu_id p).
Definition smp_nr_cpus : K nat := s ← get; mret (length (percpu_table s)).

(** [lock incl %gs:0x18] and [decl] *)
Definition preempt_inc : K unit :=
  percpu_upd (λ p, pc_set_preempt (low32 (λ v, v + 1) (preempt_count p)) p).
Definition preempt_dec : K unit :=
  percpu_upd (λ p, pc_set_preempt (low32 (λ v, v - 1) (preempt_count p)) p).

(** kernel/smp/spin.asm, seen from one CPU: a free lock is taken; a held one
    is only released by another CPU, so the caller spins. *)
Definition spin_lock (rd : K Z) (wr : Z → K unit) : K unit :=
  preempt_inc;;
  v ← rd;
  if v =? 0 then wr 1 else diverge.
Definition spin_unlock (wr : Z → K unit) : K unit := wr 0;; preempt_dec.

Definition rq_spin_lock (rq : Z) : K unit :=
  spin_lock (q ← rd_rq rq; mret (rq_lock q)) (λ v, wr_rq rq (rq_set_lock v)).
Definition rq_spin_unlock (rq : Z) : K unit :=
  spin_unlock (λ v, wr_rq rq (rq_set_lock v)).

(** ** Trees inside run queues *)

(** [offsetof(struct task, sched)]; [node] is the first member of
    [struct sched_entity]. *)
Definition SCHED_OFFSET : Z := 72.
Definition node_of (t : Z) : Z := t + SCHED_OFFSET.
Definition task_of (n : Z) : Z := n - SCHED_OFFSET.

(** The red-black tree operations on [&rq->tree]. *)
Definition on_tree {A} (rq : Z) (m : M rbstate A) : K A :=
  q ← rd_rq rq;
  zoom (λ s, mk_rbstate (knodes s) (rq_tree q))
    (λ t s, mk_kstate (nodes t) (tasks s) (<[rq := rq_set_tree (tr t) q]> (runqs s)) (mmus s)
              (percpu_table s) (self s) (cr3 s) (rsp s)) m.

(** [rb_entry(n, struct sched_entity, node)->vruntime] *)
Definition entity_vruntime (n : Z) : K Z :=
  if n =? NULL then fault else t ← rd_task (task_of n); mret (vruntime t).

(** ** kernel/proc/runq.c *)

Definition min_vruntime (rq : Z) : K Z :=
  q ← rd_rq rq;
  if most_left (rq_tree q) =? NULL then mret 0
  else entity_vruntime (most_left (rq_tree q)).

(** [node_to_task]: NULL stays NULL through both [container_of]s. *)
Definition node_to_task (node : Z) : Z := if node =? NULL then NULL else task_of node.

(** The descent of [tree_insert]: the link to store to and the node it is in. *)
Definition tree_search (rq vr : Z) : K (rb_link * Z) :=
  fuel ← on_tree rq walk_fuel;
  loop fuel (λ '(link, parent),
    cur ← on_tree rq (link_get link);
    if cur =? NULL then mret (inr (link, parent))
    else
      v ← entity_vruntime cur;
      mret (inl (if vr <? v then LinkLeft cur else LinkRight cur, cur))) (LinkRoot, NULL).

Definition tree_insert (rq t : Z) : K unit :=
  first ← on_tree rq rb_first_cached;
  tk ← rd_task t;
  '(link, parent) ← tree_search rq (vruntime tk);
  on_tree rq (rb_link_node (node_of t) parent link);;
  is_first ← (if first =? NULL then mret true
              else v ← entity_vruntime first; mret (vruntime tk <? v));
  on_tree rq (rb_insert (node_of t) is_first);;
  wr_rq rq (λ q, rq_set_num (u64 (num_threads q + 1)) q).

Definition tree_remove (rq t : Z) : K unit :=
  on_tree rq (rb_erase (node_of t));;
  wr_rq rq (λ q, rq_set_num (u64 (num_threads q - 1)) q).

Definition runq_add (t : Z) : K unit :=
  p ← this_cpu;
  let rq := run_queue p in
  rq_spin_lock rq;;
  tk ← rd_task t;
  (if decide (t_state tk = TASK_S_RUNNABLE) then mret tt
   else v ← min_vruntime rq; wr_task t (set_vruntime v));;
  tree_insert rq t;;
  rq_spin_unlock rq.

Definition runq_next : K Z :=
  p ← this_cpu;
  let rq := run_queue p in
  rq_spin_lock rq;;
  node ← on_tree rq rb_first_cached;
  let next := node_to_task node in
  (if negb (next =? NULL) then tree_remove rq next else mret tt);;
  rq_spin_unlock rq;;
  if next =? NULL then q ← rd_rq rq; mret (rq_idle q) else mret next.

Definition runq_remove (t : Z) : K unit :=
  p ← this_cpu;
  let rq := run_queue p in
  rq_spin_lock rq;;
  tree_remove rq t;;
  rq_spin_unlock rq.

(** One iteration of [runq_balance_pull] for CPU [i]: whether a task was pulled. *)
Definition balance_step (rq : Z) (i : nat) : K bool :=
  id ← smp_cpu_id;
  if Z.of_nat i =? id then mret false
  else
    p ← percpu_get_id i;
    let other := run_queue p in
    let this_lower_id := id <? Z.of_nat i in
    (if this_lower_id then rq_spin_lock rq;; rq_spin_lock other
     else rq_spin_lock other;; rq_spin_lock rq);;
    q ← rd_rq other;
    should_exit ←
      (if 0 <? num_threads q then
         node ← on_tree other rb_first_cached;
         let pulled := node_to_task node in
         tree_remove other pulled;;
         tree_insert rq pulled;;
         mret true
       else mret false);
    (if this_lower_id then rq_spin_unlock other;; rq_spin_unlock rq
     else rq_spin_unlock rq;; rq_spin_unlock other);;
    mret should_exit.

(** The [for] loop over the CPUs that are ready, from [i] on. *)
Fixpoint balance_from (rq : Z) (i n : nat) : K unit :=
  match n with
  | O => mret tt
  | S n => b ← balance_step rq i;
           if b : bool then mret tt else balance_from rq (S i) n
  end.

Definition runq_balance_pull : K unit :=
  p ← this_cpu;
  n ← smp_nr_cpus;
  balance_from (run_queue p) 0 n.

(** ** kernel/mm/mmu.c: switching address spaces *)

Section switching.
Context `{BuildConfig} (kernel_mmu : Z).

Definition mmu_update_cpuset (mmu id : Z) (val : bool) : K unit :=
  if mmu =? kernel_mmu then mret tt
  else
    spin_lock (m ← rd_mmu mmu; mret (cpu_lock m)) (λ v, wr_mmu mmu (mmu_set_lock v));;
    m ← rd_mmu mmu;
    zoom (λ _, cpus m) (λ c s, upd_mmus <[mmu := mmu_set_cpus c m]> s) (cpuset_set_id id val);;
    spin_unlock (λ v, wr_mmu mmu (mmu_set_lock v)).

Definition mmu_switch (next prev : Z) : K unit :=
  kassert_dbg (negb (next =? NULL) && negb (prev =? NULL));;
  if negb (next =? prev) then
    preempt_inc;;
    id ← smp_cpu_id;
    mmu_update_cpuset next id false;;
    mmu_update_cpuset prev id true;;
    preempt_dec;;
    (if DEBUG then n ← rd_mmu next; p ← rd_mmu prev; kassert (negb (p4 n =? p4 p)) else mret tt);;
    n ← rd_mmu next;
    modify (upd_cr3 (virt_to_phys (p4 n)))
  else
    (if DEBUG then n ← rd_mmu next; p ← rd_mmu prev; kassert (p4 n =? p4 p) else mret tt).

(** kernel/proc/switch_to.asm: six callee-saved registers are pushed and
    popped around the exchange of stacks; the stack contents are not modelled. *)
Definition switch_to (next : Z) : K unit :=
  s ← get;
  prev ← current;
  wr_task prev (set_rsp_top (u64 (rsp s - 48)));;
  n ← rd_task next;
  modify (upd_rsp (rsp_top n));;
  percpu_upd (pc_set_current next);;
  percpu_upd (pc_set_tss (rsp_original n));;
  pv ← rd_task prev;
  mmu_switch (t_mmu n) (t_mmu pv);;
  percpu_upd (λ p, pc_set_preempt (u64 (preempt_count p - 1)) p);;
  s ← get;
  modify (upd_rsp (u64 (rsp s + 48))).

(** ** kernel/proc/sched.c *)

Definition schedule : K unit :=
  preempt_inc;;
  percpu_upd (pc_set_resched false);;
  cur ← current;
  wr_task cur (λ t, set_vruntime (u64 (vruntime t + 1)) t);;
  ct ← rd_task cur;
  (if negb (tid ct =? TID_IDLE) then runq_add cur else mret tt);;
  next ← runq_next;
  nt ← rd_task next;
  next ← (if tid nt =? TID_IDLE then runq_balance_pull;; runq_next else mret next);
  nt ← rd_task next;
  kassert_dbg (bool_decide (t_state nt = TASK_S_RUNNABLE));;
  wr_task cur (λ t, set_flags (Z.land (t_flags t) (u64 (Z.lnot TASK_RUNNING))) t);;
  wr_task next (λ t, set_flags (Z.lor (t_flags t) TASK_RUNNING) t);;
  wr_task next (λ t, set_flags (Z.land (t_flags t) (u64 (Z.lnot TASK_PREEMPTED))) t);;
  switch_to next.

Definition sched_add (t : Z) : K unit := runq_add t.

Definition sched_yield : K unit := schedule.

Definition sched_yield_preempt : K unit :=
  preempt_inc;;
  cur ← current;
  wr_task cur (λ t, set_flags (Z.lor (t_flags t) TASK_PREEMPTED) t);;
  preempt_dec;;
  schedule.

(** ** kernel/proc/task.c and kernel/mm/mmu.c: wakeup and exit *)

Definition task_wakeup (t : Z) : K unit :=
  tk ← rd_task t;
  if decide (t_state tk = TASK_S_RUNNABLE) then mret tt
  else wr_task t (set_state TASK_S_RUNNABLE);; sched_add t.

(** [mmu_reap] releases the page tables, which this state does not contain. *)
Context (mmu_reap : Z → K unit).

Definition mmu_free (mmu : Z) : K unit :=
  kassert_dbg (negb (mmu =? kernel_mmu));;
  m ← rd_mmu mmu;
  kassert_dbg (users m =? 0);;
  mmu_reap mmu.

Definition mmu_dec_users (mmu : Z) : K unit :=
  if mmu =? kernel_mmu then mret tt
  else
    wr_mmu mmu (λ m, mmu_set_users (u32 (users m - 1)) m);;
    m ← rd_mmu mmu;
    if users m =? 0 then mmu_free mmu else mret tt.

Definition mmu_inc_users (mmu : Z) : K unit :=
  if mmu =? kernel_mmu then mret tt
  else wr_mmu mmu (λ m, mmu_set_users (u32 (users m + 1)) m).

Definition task_exit (t : Z) : K unit :=
  tk ← rd_task t;
  (if decide (t_state tk = TASK_S_RUNNABLE) then runq_remove t else mret tt);;
  wr_task t (set_state TASK_S_ZOMBIE);;
  mmu_dec_users (t_mmu tk);;
  cur ← current;
  if t =? cur then sched_yield;; panic else mret tt.

(** defs.c; the exit code is not looked at. *)
Definition syscall_sched_yield : K Z := sched_yield;; mret 0.

Definition syscall_exit (code : Z) : K Z :=
  t ← current; task_exit t;; panic.
End switching.
