(* ===== verification/Faults.v ===== *)
(** * Page faults: from the exception to the page tables

    kernel/cpu/exceptions.c: the two handlers that [exceptions_init] installs,
    run by the dispatcher of Interrupts.v on the address space of the current
    task, and the whole way of a fault: from its stub to the copy-on-write code
    of Vmm.v, and back through the pops of isr_common and [iretq]. *)

From stdpp Require Import base list gmap strings.
From Stdlib Require Import ZArith Lia Bool.
From S2P Require Import Prelude Addr Interrupts Pmm PmmInv PmmSpec Mmap Vmm VmmSpec VmmTheorems CowSpec Sched.
Local Open Scope Z_scope.

(** ** State *)

(** What the handlers reach: memory, the tasks, the running task of this CPU,
    the address the processor reports, and the interrupt flag. *)
Record fkernel := mk_fkernel {
  f_vm : vstate;
  f_tasks : gmap Z task;
  f_current : Z;
  f_cr2 : Z;
  f_if : bool
}.
Definition upd_vm v s := mk_fkernel v (f_tasks s) (f_current s) (f_cr2 s) (f_if s).
Definition upd_if b s := mk_fkernel (f_vm s) (f_tasks s) (f_current s) (f_cr2 s) b.

(** What an interrupt takes from the code it interrupts: the registers that
    calls do not preserve, and what the processor pushes. *)
Record interrupted := mk_interrupted {
  i_regs : regs; i_rip : Z; i_cs : Z; i_rflags : Z; i_rsp : Z; i_ss : Z
}.

Abbreviation FK := (M fkernel).
Definition on_vm {A} (m : V A) : FK A := zoom f_vm upd_vm m.
Definition rd_ftask : Z → FK task := deref f_tasks.

(** ** exceptions.c *)

Definition PAGE_FAULT_RW : Z := Z.shiftl 1 1.

Definition exception_messages : list string :=
  ["Division by zero"; "Debug"; "Non-maskable interrupt"; "Breakpoint"; "Overflow"; "Bound range exceeded";
   "Invalid opcode"; "Device not available"; "Double fault"; "(reserved exception 9)"; "Invalid TSS";
   "Segment not present"; "Stack segment fault"; "General protection fault"; "Page fault";
   "(reserved exception 15)"; "x87 floating-point exception"; "Alignment check"; "Machine check";
   "SIMD floating-point exception"; "Virtualization exception"; "(reserved exception 21)";
   "(reserved exception 22)"; "(reserved exception 23)"; "(reserved exception 24)"; "(reserved exception 25)";
   "(reserved exception 26)"; "(reserved exception 27)"; "(reserved exception 28)"; "(reserved exception 29)";
   "(reserved exception 30)"; "(reserved exception 31)"]%string.

Section handlers.
Context `{BuildConfig}.

Definition page_fault_handler (c : isr_ctx) : FK unit :=
  s ← get;
  let faulting_address := f_cr2 s in
  if negb (Z.land faulting_address (Z.shiftl 1 63) =? 0) then panic
  else
    (if negb (Z.land (c_rflags c) 0x200 =? 0) then modify (upd_if true) else mret tt);;
    s ← get;
    done_ ← (if negb (f_current s =? NULL) then
      let aligned_addr := Z.land faulting_address (not64 (PAGE_SIZE - 1)) in
      t ← rd_ftask (f_current s); on_vm (write_spin_lock (t_mmu t));;
      t ← rd_ftask (f_current s);
      pte ← on_vm (vmm_get_pte (t_mmu t) aligned_addr);
      d ← (if negb (Z.land (info c) PAGE_FAULT_RW =? 0) then on_vm (cow_handle_write pte aligned_addr) else mret false);
      t ← rd_ftask (f_current s); on_vm (write_spin_unlock (t_mmu t));;
      mret d
    else mret false);
    if done_ : bool then mret tt else panic.

(** [__builtin_unreachable] is undefined behaviour, as is an index past the
    end of the messages. *)
Definition exception_handler (c : isr_ctx) : FK unit :=
  let int_no := u8 (Z.shiftr (info c) 32) in
  if int_no =? INT_PAGE_FAULT then fault
  else
    let int_no := if int_no =? IRQ_NMI then 2 else int_no in
    match exception_messages !! Z.to_nat int_no with Some _ => panic | None => fault end.

(** ** The way of an exception *)

Context (other : Z → isr_ctx → FK unit) (lapic_eoi : Z → M (icpu fkernel) unit)
        (sched_yield_preempt : M (icpu fkernel) unit).

Definition run_handler (h : handler) (c : isr_ctx) : M (icpu fkernel) unit :=
  zoom rest upd_rest
    (match h with
     | PageFaultHandler => page_fault_handler c
     | ExceptionHandler => exception_handler c
     | OtherHandler a => other a c
     end).

(** [iretq] pops the interrupted code's registers. *)
Definition iretq (r : regs) (stack : list Z) : M (icpu fkernel) interrupted :=
  match stack with
  | rip :: cs :: fl :: rsp :: ss :: _ =>
      zoom rest upd_rest (modify (upd_if (negb (Z.land fl 0x200 =? 0))));; mret (mk_interrupted r rip cs fl rsp ss)
  | _ => fault
  end.

(** The stub of the vector, [isr_common] with its call of the dispatcher, and
    the return; [stack] is what the processor has pushed, and the result is
    what the code that continues finds. *)
Definition take_interrupt (v : Z) (r : regs) (stack : list Z) : M (icpu fkernel) interrupted :=
  match stub_push v stack with
  | Some stk =>
      let saved := isr_save r stk in
      match ctx_at saved with
      | Some c =>
          isr_global_handler run_handler lapic_eoi sched_yield_preempt c;;
          match isr_restore saved with Some (r', frame) => iretq r' frame | None => fault end
      | None => fault
      end
  | None => iretq r stack
  end.
End handlers.

(** ** The context of a page fault *)

Definition fault_ctx (r : regs) (err rip cs fl rsp ss : Z) : isr_ctx :=
  mk_ctx (r_r11 r) (r_r10 r) (r_r9 r) (r_r8 r) (r_rax r) (r_rcx r) (r_rdx r) (r_rsi r) (r_rdi r)
    (set_high INT_PAGE_FAULT err) rip cs fl rsp ss.

(** Error codes below 32 other than 14 have the page fault handler. *)
Definition fault_code (err : Z) : Prop := 0 ≤ err < 32 ∧ err ≠ INT_PAGE_FAULT.

(** The table of handlers as [exceptions_init] leaves it, whatever other
    vectors have been given to drivers since. *)
Definition exceptions_installed (t : list isr_info) : Prop :=
  ∀ v, 0 ≤ v < 32 → t !! Z.to_nat v = exceptions_init (replicate 256 no_info) !! Z.to_nat v.

Lemma set_high_low v err n : 0 ≤ err < 256 → 0 ≤ v → (n = 0xFF → Z.land (set_high v err) n = err).
Proof.
  intros He Hv ->. unfold set_high. change 0xFF with (Z.ones 8). rewrite Z.land_ones by lia.
  rewrite (Z.mod_small err) by lia. replace (v * 2 ^ 32) with (v * 2 ^ 24 * 2 ^ 8) by lia.
  rewrite Z.mod_add by lia. by apply Z.mod_small.
Qed.

Lemma set_high_rw v err : 0 ≤ err < 2 ^ 32 → Z.land (set_high v err) PAGE_FAULT_RW = Z.land err PAGE_FAULT_RW.
Proof.
  intros He. unfold set_high, PAGE_FAULT_RW. rewrite (Z.mod_small err) by lia. rewrite Z.shiftl_1_l.
  apply Z.bits_inj'. intros i Hi. rewrite !Z.land_spec, Z.pow2_bits_eqb by lia.
  destruct (Z.eqb_spec 1 i) as [<-|]; [|by rewrite !andb_false_r]. rewrite !andb_true_r.
  rewrite <-(Z.mod_pow2_bits_low _ 32), Z.mod_add, Z.mod_pow2_bits_low by lia. done.
Qed.

(** ** Handling *)

(** The lock does not matter to what is resolved. *)
Lemma cow_resolved_unlocked f v Zs t i q c n e virt s' e' Zs' :
  cow_resolved (upd_mpts f v) Zs t i q c n e virt s' e' Zs' →
  cow_resolved v Zs t i q c n e virt (upd_mpts (λ _, mpts v) s') e' Zs'.
Proof. intros []. by split. Qed.

Section spec.
Context `{BuildConfig} (other : Z → isr_ctx → FK unit) (lapic_eoi : Z → M (icpu fkernel) unit)
        (yield : M (icpu fkernel) unit).

(** The address space of the running task is in order: [m] describes it, its
    top-level table is in frame [root], and its lock is free. *)
Record running_space (s : fkernel) (tk : task) (m : mmu_pt) (root : Z) (X : Z → Prop) : Prop := {
  rs_current : f_current s ≠ NULL;
  rs_task : f_tasks s !! f_current s = Some tk;
  rs_mmu : mpts (f_vm s) !! t_mmu tk = Some m ∧ t_mmu tk ≠ NULL;
  rs_lock : wr_lock m = 0;
  rs_root : m_p4 m ≠ NULL ∧ tab_phys (m_p4 m) = root;
  rs_tables : tables_ok (pt (f_vm s)) root X
}.

(** The address [va] is mapped copy-on-write in that space: its last table is
    in frame [t], and the frame [q] it is mapped to is not free and has [n]
    mappings. *)
Record cow_mapped (v : vstate) (root va t q c n e : Z) (Zs : list gzone) : Prop := {
  cm_table : follow (pt v) root (path_of va) = Some t;
  cm_entry : cow_entry v t (table_index P1_ADDR_SHIFT va) q c n e;
  cm_pool : pmm_ok (vpm v) Zs ∧ (∀ g, g ∈ Zs → 0 < glo g);
  cm_used : q ∉ pool_free Zs;
  cm_room : 1 < n → pool_free Zs ≠ []
}.

Lemma take_page_fault r err rip cs fl rsp ss stack s :
  exceptions_installed (isr_table s) → fault_code err → Interrupts.reschedule s = false →
  take_interrupt other lapic_eoi yield INT_PAGE_FAULT r (err :: rip :: cs :: fl :: rsp :: ss :: stack) s =
    match page_fault_handler (fault_ctx r err rip cs fl rsp ss) (rest s) with
    | Ok (_, k) => Ok (mk_interrupted r rip cs fl rsp ss, upd_rest (upd_if (negb (Z.land fl 0x200 =? 0)) k) s)
    | Panic => Panic
    | Fault => Fault
    | Diverge => Diverge
    end.
Proof.
  intros Ht [Herr Hne] Hs. set (c := fault_ctx r err rip cs fl rsp ss).
  change (take_interrupt _ _ _ _ _ _ _) with
    ((isr_global_handler (run_handler other) lapic_eoi yield c;;
      iretq (mk_regs (r_rdi r) (r_rsi r) (r_rdx r) (r_rcx r) (r_rax r) (r_r8 r) (r_r9 r) (r_r10 r) (r_r11 r))
        (rip :: cs :: fl :: rsp :: ss :: stack)) s).
  replace (mk_regs _ _ _ _ _ _ _ _ _) with r by by destruct r.
  unfold isr_global_handler. cbv zeta. assert (Z.land (info c) 0xFF = err) as -> by (apply set_high_low; [lia|done|done]).
  assert (isr_table s !! Z.to_nat err = Some (mk_info ISR_EXCEPTION (Some PageFaultHandler))) as Hi.
  { rewrite Ht, exceptions_init_lookup by lia. unfold IRQ_NMI, IRQ_LINT_BASE, IRQ_APIC_SPURIOUS.
    destruct (Z.eqb_spec err (0xFF - 3 - 1)); [lia|]. destruct (Z.ltb_spec err 32); [|lia].
    by rewrite (proj2 (Z.eqb_neq _ _) Hne). }
  unfold rd_info, mbind, M_bind, get, mret, M_ret. simpl. rewrite Hi. simpl. rewrite Hi. simpl. unfold run_handler, zoom. simpl.
  destruct (page_fault_handler c (rest s)) as [[[] k]| | |]; simpl; [|done..]. rewrite Hi. simpl. by rewrite Hs.
Qed.


Lemma wp_page_fault_handler c s tk m root X t q cv n e Zs :
  let va := f_cr2 s in let vm := f_vm s in
  running_space s tk m root X → cow_mapped vm root va t q cv n e Zs →
  0 ≤ va < 2 ^ 47 → Z.land (info c) PAGE_FAULT_RW ≠ 0 →
  wp (page_fault_handler c) s (λ _ s', ∃ e' Zs',
    s' = upd_if (f_if s || negb (Z.land (c_rflags c) 0x200 =? 0)) (upd_vm (f_vm s') s) ∧
    cow_resolved vm Zs t (table_index P1_ADDR_SHIFT va) q cv n e (ALIGNDOWN va PAGE_SIZE) (f_vm s') e' Zs').
Proof.
  intros va vm [Hcur Htk [Hm Hmmu] Hlock [Hp4 Hroot] Htab] [Hf Hce [Hpool Hlo] Hused Hroom] Hva Hrw.
  assert (0 ≤ va < 2 ^ 64) as Hva64 by lia.
  unfold page_fault_handler. apply wp_bind, wp_get. fold va.
  assert (Z.land va (Z.shiftl 1 63) = 0) as ->.
  { rewrite Z.shiftl_1_l. pose proof (land_pow2_testbit va 63 ltac:(lia)) as E. rewrite Z.bits_above_log2 in E; [|lia|].
    - by apply negb_false_iff, Z.eqb_eq in E.
    - destruct (decide (va = 0)) as [->|]; [done|]. apply Z.log2_lt_pow2; lia. }
  simpl negb. cbv iota. set (b := negb (Z.land (c_rflags c) 0x200 =? 0)). apply wp_bind.
  assert (∀ (Q : unit → fkernel → Prop), Q tt (upd_if (f_if s || b) s) → wp (if b then modify (upd_if true) else mret tt) s Q) as Hsti.
  { intros Q HQ. destruct b; [rewrite orb_true_r in HQ; by apply wp_modify|]. rewrite orb_false_r in HQ. apply wp_ret. by destruct s. }
  apply Hsti. apply wp_bind, wp_get. simpl f_current. rewrite (proj2 (Z.eqb_neq _ _) Hcur). simpl negb. cbv iota.
  change (Z.land va (not64 (PAGE_SIZE - 1))) with (ALIGNDOWN va PAGE_SIZE).
  assert (∀ s1 (Q : task → fkernel → Prop), f_tasks s1 = f_tasks s → Q tk s1 → wp (rd_ftask (f_current s)) s1 Q) as Hrd.
  { intros s1 Q E HQ. eapply wp_deref; [by rewrite E|done|done]. }
  apply wp_bind, wp_bind, Hrd; [done|]. apply wp_bind, wp_zoom. eapply wp_locked; [done..|]. set (vl := upd_mpts _ _).
  apply wp_bind, Hrd; [done|]. destruct (path_aligndown va Hva64) as [Ep Ei].
  assert (0 ≤ ALIGNDOWN va PAGE_SIZE) by (apply Z.land_nonneg; left; lia).
  apply wp_bind, wp_zoom. eapply (wp_vmm_get_pte _ _ (mpt_set_wr 1 m)); [apply lookup_insert_eq|done|done|done|exact Htab|done| |].
  { intros E. change (follow (pt vm) root (path_of (ALIGNDOWN va PAGE_SIZE)) = None) in E. by rewrite Ep, Hf in E. }
  intros t' Et' _. change (follow (pt vm) root (path_of (ALIGNDOWN va PAGE_SIZE)) = Some t') in Et'. rewrite Ep, Hf in Et'. injection Et' as <-. rewrite Ei. fold (ptep t (table_index P1_ADDR_SHIFT va)).
  rewrite (proj2 (Z.eqb_neq _ _) Hrw). simpl negb. cbv iota. apply wp_bind, wp_zoom.
  eapply wp_mono; [apply (wp_cow_handle_write vl Zs t (table_index P1_ADDR_SHIFT va) q cv n e); [by destruct Hce; split|done..]|].
  intros ? v' (-> & e' & Zs' & Hres). apply wp_bind, Hrd; [done|]. apply wp_bind, wp_zoom.
  eapply (wp_unlocked vm); [done|done|done|exact (cr_spaces _ _ _ _ _ _ _ _ _ _ _ _ Hres)|].
  apply wp_ret, wp_ret. exists e', Zs'. split; [done|]. by eapply cow_resolved_unlocked.
Qed.

(** C17: A write to a copy-on-write page of the lower half is resolved all the
    way from the processor's exception to the return from it, on a CPU with no
    reschedule pending, with the table of handlers as exceptions_init leaves
    it, and for an error code below 32 other than 14 (the dispatcher looks up
    the low byte of the error code, and these have the page fault handler).
    The stub of vector 14, the dispatcher and page_fault_handler return, and
    the interrupted code continues with the registers that isr_common saves,
    its instruction pointer, stack and flags as they were.  The address is
    then mapped writable and private to a frame with the same contents, a
    fresh one if the old frame was shared, and the old frame keeps its
    contents; every other page translates as before, the lock of the address
    space is released, the address is flushed, and nothing else of the state
    changes but the interrupt flag, which is that of the interrupted code. *)
Theorem page_fault_resolved r err rip cs fl rsp ss stack s tk m root X t q c n e Zs :
  let k := rest s in let va := f_cr2 k in
  exceptions_installed (isr_table s) → fault_code err → Z.land err PAGE_FAULT_RW ≠ 0 → Interrupts.reschedule s = false →
  running_space k tk m root X → cow_mapped (f_vm k) root va t q c n e Zs → 0 ≤ va < 2 ^ 47 →
  wp (take_interrupt other lapic_eoi yield INT_PAGE_FAULT r (err :: rip :: cs :: fl :: rsp :: ss :: stack)) s (λ back s',
    back = mk_interrupted r rip cs fl rsp ss ∧
    let v := f_vm k in let v' := f_vm (rest s') in let e' := pte_of (pt v') root va in
    present e' = present e ∧ Z.land e' PAGE_WRITABLE = PAGE_WRITABLE ∧ Z.land e' PAGE_COW = 0 ∧
    mem v' !! paddr e' = Some c ∧ mem v' !! (q * 4096) = Some c ∧ (1 < n → paddr e' ≠ q * 4096) ∧
    (∀ va', 0 ≤ va' → vpn va' ≠ vpn va → pte_of (pt v') root va' = pte_of (pt v) root va') ∧
    tables_ok (pt v') root X ∧ mpts v' = mpts v ∧ flushed v' = FlushSingle (ALIGNDOWN va PAGE_SIZE) :: flushed v ∧
    s' = upd_rest (upd_if (negb (Z.land fl 0x200 =? 0)) (upd_vm v' k)) s).
Proof.
  intros k va Ht Hc Hrw Hs Hsp Hcow Hva. unfold wp. rewrite take_page_fault by done. destruct Hc as [Herr _].
  assert (Z.land (info (fault_ctx r err rip cs fl rsp ss)) PAGE_FAULT_RW ≠ 0) as Hi.
  { simpl info. by rewrite set_high_rw by lia. }
  pose proof (wp_page_fault_handler (fault_ctx r err rip cs fl rsp ss) k tk m root X t q c n e Zs Hsp Hcow Hva Hi) as Hw.
  unfold wp in Hw. fold k. destruct (page_fault_handler _ k) as [[[] k']| | |]; [|done..].
  destruct Hw as (e' & Zs' & Ek & [Hent Hpr Hnc Hwr Hoth Hco Hsh Hfr _ _ Hfl Hpt Hmp]). simpl rest. fold va in Hpt, Hent.
  destruct Hsp as [_ _ _ _ _ Htab]. destruct Hcow as [Hf _ _ _ _]. pose proof (user_unshared va Hva) as Hun.
  assert (pte_of (pt (f_vm k')) root va = e') as Epte.
  { rewrite Hpt. apply (written_pte (tabs := pt (f_vm k)) Htab); [lia|done|exact Hf]. }
  cbn [rest upd_rest f_vm upd_if]. cbv zeta. rewrite Epte. split_and!; try done.
  - intros Hn. destruct (decide (n = 1)); [lia|]. destruct Hfr as (p & -> & Hne & _). lia.
  - intros va' Hva' Hne. rewrite Hpt. apply (written_pte_other (tabs := pt (f_vm k)) Htab (t := t)); [lia|done|exact Hf|done|done].
  - rewrite Hpt. apply (written_ok Htab); [lia|done|exact Hf].
  - by rewrite Ek.
Qed.

(** The part of the handler that looks at the page tables, when it finds
    nothing to resolve. *)
Lemma page_fault_gives_up c s tk m root X :
  let va := f_cr2 s in
  running_space s tk m root X → 0 ≤ va < 2 ^ 63 →
  Z.land (info c) PAGE_FAULT_RW = 0 ∨ Z.land (pte_of (pt (f_vm s)) root va) PAGE_COW = 0 →
  page_fault_handler c s = Panic.
Proof.
  intros va [Hcur Htk [Hm Hmmu] Hlock [Hp4 Hroot] Htab] Hva Hno. assert (0 ≤ va < 2 ^ 64) as Hva64 by lia.
  unfold page_fault_handler. apply wp_panic, wp_get. fold va.
  destruct (negb (Z.land va (Z.shiftl 1 63) =? 0)); [done|]. apply wp_panic.
  apply (wp_mono _ _ (λ _ s1, f_vm s1 = f_vm s ∧ f_tasks s1 = f_tasks s ∧ f_current s1 = f_current s)).
  { by destruct (negb (Z.land (c_rflags c) 0x200 =? 0)). }
  intros _ s1 (Evm & Etk & Ecur). apply wp_panic, wp_get. rewrite Ecur, (proj2 (Z.eqb_neq _ _) Hcur). simpl negb. cbv iota.
  change (Z.land va (not64 (PAGE_SIZE - 1))) with (ALIGNDOWN va PAGE_SIZE). apply wp_panic.
  assert (∀ s2 (Q : task → fkernel → Prop), f_tasks s2 = f_tasks s → Q tk s2 → wp (rd_ftask (f_current s)) s2 Q) as Hrd.
  { intros s2 Q E HQ. eapply wp_deref; [by rewrite E|done|done]. }
  apply wp_bind, Hrd; [done|]. apply wp_bind, wp_zoom. rewrite Evm. eapply wp_locked; [done..|]. set (vl := upd_mpts _ _).
  apply wp_bind, Hrd; [done|]. destruct (path_aligndown va Hva64) as [Ep Ei].
  assert (0 ≤ ALIGNDOWN va PAGE_SIZE) by (apply Z.land_nonneg; left; lia).
  apply wp_bind, wp_zoom. change (f_vm (upd_vm vl s1)) with vl.
  assert (∀ pte, (pte = NULL ∨ ∃ e, rd_ptep pte vl = Ok (e, vl) ∧ Z.land e PAGE_COW = 0) →
    wp (cow_handle_write pte (ALIGNDOWN va PAGE_SIZE)) vl (λ r s', r = false ∧ s' = vl)) as Hcow.
  { intros pte Hp. unfold cow_handle_write. destruct (Z.eqb_spec pte NULL); [by apply wp_ret|].
    destruct Hp as [?|(e & He & Hz)]; [done|]. apply wp_bind. unfold wp. rewrite He, Hz. done. }
  assert (∀ pte, Z.land (info c) PAGE_FAULT_RW = 0 ∨ (pte = NULL ∨ ∃ e, rd_ptep pte vl = Ok (e, vl) ∧ Z.land e PAGE_COW = 0) →
    wp (d ← (if negb (Z.land (info c) PAGE_FAULT_RW =? 0) then on_vm (cow_handle_write pte (ALIGNDOWN va PAGE_SIZE)) else mret false);
        t ← rd_ftask (f_current s); on_vm (write_spin_unlock (t_mmu t));; mret d) (upd_vm vl (upd_vm vl s1))
      (λ x s', (if x : bool then mret tt else panic) s' = Panic)) as Hrest.
  { intros pte Hp. apply wp_bind. apply (wp_mono _ _ (λ r s2, r = false ∧ s2 = upd_vm vl s1)).
    { destruct (Z.eqb_spec (Z.land (info c) PAGE_FAULT_RW) 0); [by apply wp_ret|]. destruct Hp as [|Hp]; [done|].
      apply wp_zoom. eapply wp_mono; [by apply Hcow|]. by intros r v' [-> ->]. }
    intros ? s2 [-> ->]. apply wp_bind, Hrd; [done|]. apply wp_bind, wp_zoom. by eapply wp_unlocked. }
  eapply (wp_vmm_get_pte _ _ (mpt_set_wr 1 m)); [apply lookup_insert_eq|done|done|done|exact Htab|done| |].
  - intros _. apply Hrest. right. by left.
  - intros t Hf Hfr. apply Hrest. change (follow (pt (f_vm s)) root (path_of (ALIGNDOWN va PAGE_SIZE)) = Some t) in Hf. rewrite Ep in Hf.
    destruct Hno as [|Hno]; [by left|]. right. right. rewrite Ei.
    pose proof (table_index_ok P1_ADDR_SHIFT va ltac:(done) ltac:(lia)) as Hix.
    destruct (tables_entry _ _ _ (path_of va) t _ Htab ltac:(simpl; lia) (path_of_ok va ltac:(lia)) Hf Hix) as [e He].
    exists e. split; [|unfold pte_of in Hno; by rewrite Hf, He in Hno].
    pose proof (wp_rd_ptep t _ Hfr Hix vl e (λ x v, x = e ∧ v = vl) He (conj eq_refl eq_refl)) as Hw.
    unfold wp, ptep in Hw. destruct (rd_ptep _ vl) as [[x v]| | |]; [|done..]. by destruct Hw as [-> ->].
Qed.

(** Every other page fault stops the machine and is never silently
    ignored: one on a kernel address, one while no task runs, one that is not
    a write, and a write to an address that is not mapped copy-on-write. *)
Theorem page_fault_panics r err rip cs fl rsp ss stack s :
  let k := rest s in let va := f_cr2 k in
  exceptions_installed (isr_table s) → fault_code err → Interrupts.reschedule s = false → in_u 64 va →
  2 ^ 63 ≤ va ∨ f_current k = NULL ∨
    (∃ tk m root X, running_space k tk m root X ∧
      (Z.land err PAGE_FAULT_RW = 0 ∨ Z.land (pte_of (pt (f_vm k)) root va) PAGE_COW = 0)) →
  take_interrupt other lapic_eoi yield INT_PAGE_FAULT r (err :: rip :: cs :: fl :: rsp :: ss :: stack) s = Panic.
Proof.
  intros k va Ht Hc Hs Hu Hcase. rewrite take_page_fault by done. fold k. set (c := fault_ctx r err rip cs fl rsp ss).
  enough (page_fault_handler c k = Panic) as -> by done. destruct Hc as [Herr _].
  destruct (decide (2 ^ 63 ≤ va)) as [Hk|Hk].
  { unfold page_fault_handler. apply wp_panic, wp_get. fold va.
    assert (Z.testbit va 63 = true) as Hb.
    { apply Z.testbit_true; [lia|]. unfold in_u in Hu. replace (va / 2 ^ 63) with 1; [done|].
      apply (Z.div_unique _ _ _ (va - 2 ^ 63)); lia. }
    by rewrite Z.shiftl_1_l, land_pow2_testbit, Hb by lia. }
  destruct Hcase as [?|[H0|(tk & m & root & X & Hsp & Hno)]]; [done| |].
  - unfold page_fault_handler. apply wp_panic, wp_get. destruct (negb _); [done|]. apply wp_panic.
    apply (wp_mono _ _ (λ _ s1, f_current s1 = f_current k)); [by destruct (negb _)|]. intros _ s1 E.
    apply wp_panic, wp_get. by rewrite E, H0.
  - eapply page_fault_gives_up; [exact Hsp|unfold in_u in Hu; fold va; lia|]. fold va. simpl info. by rewrite set_high_rw by lia.
Qed.
End spec.

(** The dispatcher looks at the low byte of the error code, so that a
    protection fault on a segment selector is taken for a hardware interrupt
    without a handler: it is acknowledged and the faulting instruction runs
    again. *)
Theorem protection_fault_ignored `{BuildConfig} other yield r err rip cs fl rsp ss stack s :
  0 ≤ err < 256 → Interrupts.isr_table s !! Z.to_nat err = Some no_info →
  0 ≤ Interrupts.int_depth s < 2 ^ 32 - 1 → Interrupts.reschedule s = false →
  let frame := rip :: cs :: fl :: rsp :: ss :: stack in
  take_interrupt other (λ _, mret tt) yield 13 r (err :: frame) s =
    Ok (mk_interrupted r rip cs fl rsp ss, upd_rest (upd_if (negb (Z.land fl 0x200 =? 0)) (rest s)) s).
Proof.
  intros He Hi Hd Hs frame.
  unfold take_interrupt. change (stub_push 13 _) with (Some (set_high 13 err :: frame)). cbv iota.
  unfold isr_save, ctx_at, frame. cbv iota. unfold isr_global_handler. simpl info.
  assert (Z.land (set_high 13 err) 0xFF = err) as -> by (apply set_high_low; [lia|done|done]).
  unfold rd_info, mbind, M_bind, get, mret, M_ret. simpl. rewrite Hi. simpl. rewrite Hi. simpl. rewrite Hi. simpl.
  rewrite (uwrap_id 32 (Interrupts.int_depth s + 1)) by (unfold in_u; lia). replace (Interrupts.int_depth s + 1 - 1) with (Interrupts.int_depth s) by lia.
  rewrite (uwrap_id 32 (Interrupts.int_depth s)) by (unfold in_u; lia). rewrite Hs, andb_false_r. by destruct s, r.
Qed.

(** ** Instances *)

Module FaultDemo.
(** The address 0x5000 is mapped copy-on-write to frame 3, which has two
    mappings, through tables in frames 33, 34 and 35 of a space that has the
    kernel's entries too. *)
Definition tabs : gmap Z (list Z) :=
  <[0x1000 := VmmDemo.with_entries [(511%nat, 0x2000); (256%nat, 0x4000); (0%nat, 0x21000)]]>
    (<[0x21000 := VmmDemo.with_entries [(0%nat, 0x22000)]]> (<[0x22000 := VmmDemo.with_entries [(0%nat, 0x23000)]]>
      (<[0x23000 := CowDemo.table]> VmmDemo.tabs))).
Definition vm : vstate :=
  mk_vstate tabs {[0x3000 := 42]} (vpm CowDemo.state) (vmap VmmDemo.state) {[VmmDemo.mmu := VmmDemo.mmu_state]} 0 [].
Definition cur : Z := 0xFFFF800000040000.
Definition tk : task := mk_task 0 0 VmmDemo.mmu 0 TASK_S_RUNNABLE 1 1 3 0 0.
Definition kern (va : Z) : fkernel := mk_fkernel vm {[cur := tk]} cur va false.
Definition cpu (va : Z) : icpu fkernel := mk_icpu (exceptions_init (replicate 256 no_info)) 0 false (kern va).

Lemma fault_tables : tables_ok (pt vm) 0x1000 VmmDemo.free_frames.
Proof.
  apply tables_by_check; [by vm_compute|]. intros q (f & -> & Hf).
  change ((walk (pt vm) 3 0x1000).*2) with
    [0x1000; 0x21000; 0x22000; 0x23000; 0x4000; 0x5000; 0x6000; 0x2000; 0x5000; 0x6000].
  assert (f ∈ [8; 9; 10; 11]) as Hf' by exact Hf. rewrite !elem_of_cons, elem_of_nil in *. lia.
Qed.

Lemma space va : running_space (kern va) tk VmmDemo.mmu_state 0x1000 VmmDemo.free_frames.
Proof. split; try done. apply fault_tables. Qed.

Lemma mapped : cow_mapped vm 0x1000 0x5678 0x23000 3 42 2 CowDemo.shared [VmmDemo.pool_zone].
Proof.
  split.
  - by vm_compute.
  - split; [split; [by exists 0x23|done]|done|by vm_compute|done|done|done|done|by apply (ce_desc _ _ _ _ _ _ _ CowDemo.entry_ok)|done].
  - split; [exact CowDemo.demo_pool_ok|]. by intros g ->%list_elem_of_singleton.
  - change (3 ∉ [8; 9; 10; 11]). by rewrite !not_elem_of_cons; split_and!; try lia; apply not_elem_of_nil.
  - done.
Qed.
End FaultDemo.

Lemma page_fault_resolved_witness :
  wp (take_interrupt (H := debug_build) (λ _ _, panic) (λ _, mret tt) panic INT_PAGE_FAULT (mk_regs 1 2 3 4 5 6 7 8 9)
        [7; 0x1000; 0x2B; 0x202; 0x5000; 0x23]) (FaultDemo.cpu 0x5678)
    (λ back s', back = mk_interrupted (mk_regs 1 2 3 4 5 6 7 8 9) 0x1000 0x2B 0x202 0x5000 0x23 ∧
       let v' := f_vm (rest s') in mem v' !! paddr (pte_of (pt v') 0x1000 0x5678) = Some 42 ∧
       mem v' !! 0x3000 = Some 42 ∧ paddr (pte_of (pt v') 0x1000 0x5678) ≠ 0x3000).
Proof.
  eapply wp_mono; [apply (page_fault_resolved (H := debug_build) (λ _ _, panic) (λ _, mret tt) panic (mk_regs 1 2 3 4 5 6 7 8 9) 7 0x1000 0x2B 0x202 0x5000 0x23 []
    (FaultDemo.cpu 0x5678) FaultDemo.tk VmmDemo.mmu_state 0x1000 VmmDemo.free_frames 0x23000 3 42 2 CowDemo.shared [VmmDemo.pool_zone])|].
  - done.
  - split; [lia|done].
  - done.
  - done.
  - apply FaultDemo.space.
  - apply FaultDemo.mapped.
  - simpl. lia.
  - intros back s' (Hb & _ & _ & _ & H1 & H2 & H3 & _). split; [exact Hb|]. cbv zeta. split_and!; [exact H1|exact H2|apply H3; lia].
Defined.

Lemma page_fault_panics_witness :
  take_interrupt (H := debug_build) (λ _ _, mret tt) (λ _, mret tt) (mret tt) INT_PAGE_FAULT (mk_regs 1 2 3 4 5 6 7 8 9)
    [6; 0x1000; 0x2B; 0x202; 0x5000; 0x23] (FaultDemo.cpu 0x6000) = Panic.
Proof.
  apply (page_fault_panics (H := debug_build) (λ _ _, mret tt) (λ _, mret tt) (mret tt) (mk_regs 1 2 3 4 5 6 7 8 9) 6 0x1000 0x2B 0x202 0x5000 0x23 []
    (FaultDemo.cpu 0x6000)).
  - done.
  - split; [lia|done].
  - done.
  - unfold in_u. simpl. lia.
  - right. right. exists FaultDemo.tk, VmmDemo.mmu_state, 0x1000, VmmDemo.free_frames. split; [apply FaultDemo.space|]. right. by vm_compute.
Defined.

Lemma protection_fault_ignored_witness :
  take_interrupt (H := debug_build) (λ _ _, panic) (λ _, mret tt) panic 13 (mk_regs 1 2 3 4 5 6 7 8 9)
    [0x28; 0x1000; 0x2B; 0x202; 0x5000; 0x23] (FaultDemo.cpu 0) =
  Ok (mk_interrupted (mk_regs 1 2 3 4 5 6 7 8 9) 0x1000 0x2B 0x202 0x5000 0x23, upd_rest (upd_if true (FaultDemo.kern 0)) (FaultDemo.cpu 0)).
Proof. apply (protection_fault_ignored (H := debug_build)); [lia|reflexivity|simpl; lia|done]. Defined.
