(* ===== verification/Lapic.v ===== *)
(** * The local APIC

    kernel/drivers/apic/lapic.c.  The device is outside the program: the state
    has the accesses to it, the latest first, and [dev h r] is what a read of
    register [r] gives after the accesses [h].  Waiting for the PIT is one of
    the events, because the timer counts while the CPU waits. *)

From stdpp Require Import base list gmap.
From Stdlib Require Import ZArith Lia Bool.
From S2P Require Import Prelude Cpuset Interrupts Sched.
Local Open Scope Z_scope.

Definition APIC_CPUID_BIT : Z := Z.shiftl 1 9.
Definition APIC_DISABLE : Z := 0x10000.
Definition APIC_TIMER_PERIODIC : Z := 0x20000.
Definition LAPIC_REG_ID : Z := 0x20.
Definition LAPIC_REG_VERSION : Z := 0x30.
Definition LAPIC_REG_EOI : Z := 0xB0.
Definition LAPIC_REG_SPURIOUS : Z := 0xF0.
Definition LAPIC_REG_LINT0 : Z := 0x350.
Definition LAPIC_REG_LINT1 : Z := 0x360.
Definition LAPIC_REG_ICR0 : Z := 0x300.
Definition LAPIC_REG_ICR1 : Z := 0x310.
Definition LAPIC_REG_TIMER_LVT : Z := 0x320.
Definition LAPIC_REG_TIMER_INITIAL : Z := 0x380.
Definition LAPIC_REG_TIMER_CURRENT : Z := 0x390.
Definition LAPIC_REG_TIMER_DIVIDE : Z := 0x3E0.
Definition LAPIC_REG_ISR_BASE : Z := 0x100.
Definition IPI_INIT : Z := 0x4500.
Definition IPI_START_UP : Z := 0x4600.
Definition IPI_FIXED : Z := 0x4000.
Definition IPI_BROADCAST : Z := Z.shiftl 3 18.

Inductive event := Write (r v : Z) | Sleep (ms : Z).

(** [struct lapic_info] and an entry of the list of NMIs. *)
Record cpu_lapic := mk_cpu_lapic { cl_id : Z; cl_acpi_id : Z; cl_present : Z; ticks_per_10ms : Z }.
Record nmi := mk_nmi { nmi_acpi_id : Z; nmi_flags : Z; nmi_lint : Z }.

Record lst := mk_lst {
  events : list event;
  base_set : bool;               (* lapic_base != NULL *)
  lapics : list cpu_lapic;
  nmis : list nmi;
  l_preempt : Z;
  l_apic_id : Z;                 (* percpu apic_id *)
  l_slices : Z;                  (* current->sched.num_slices *)
  l_resched : bool;              (* percpu reschedule *)
  timer_handler : bool           (* the callback is in the table of handlers *)
}.
Definition upd_events f s := mk_lst (f (events s)) (base_set s) (lapics s) (nmis s) (l_preempt s) (l_apic_id s) (l_slices s) (l_resched s) (timer_handler s).
Definition upd_lapics_ f s := mk_lst (events s) (base_set s) (f (lapics s)) (nmis s) (l_preempt s) (l_apic_id s) (l_slices s) (l_resched s) (timer_handler s).
Definition upd_lpreempt v s := mk_lst (events s) (base_set s) (lapics s) (nmis s) v (l_apic_id s) (l_slices s) (l_resched s) (timer_handler s).
Definition upd_apic_id v s := mk_lst (events s) (base_set s) (lapics s) (nmis s) (l_preempt s) v (l_slices s) (l_resched s) (timer_handler s).
Definition upd_slices v s := mk_lst (events s) (base_set s) (lapics s) (nmis s) (l_preempt s) (l_apic_id s) v (l_resched s) (timer_handler s).
Definition upd_resched v s := mk_lst (events s) (base_set s) (lapics s) (nmis s) (l_preempt s) (l_apic_id s) (l_slices s) v (timer_handler s).
Definition upd_handler v s := mk_lst (events s) (base_set s) (lapics s) (nmis s) (l_preempt s) (l_apic_id s) (l_slices s) (l_resched s) v.

Section lapic.
Context {BC : BuildConfig} (dev : list event → Z → Z) (cpuid_edx apic_base_msr : Z).

Abbreviation LA := (M lst).

Definition has_lapic : bool := negb (Z.land cpuid_edx APIC_CPUID_BIT =? 0).

(** Both fault while [lapic_base] is NULL. *)
Definition lapic_write (r v : Z) : LA unit :=
  s ← get; if base_set s then modify (upd_events (cons (Write r (u32 v)))) else fault.
Definition lapic_read (r : Z) : LA Z :=
  s ← get; if base_set s then mret (u32 (dev (events s) r)) else fault.

(** The index of the entry, or [None] for NULL. *)
Definition find_lapic (id : Z) : LA (option nat) :=
  s ← get; mret (fst <$> list_find (λ l, cl_id l = id) (lapics s)).

Definition rd_lapic (l : option nat) : LA cpu_lapic :=
  s ← get; match l ≫= (λ i, lapics s !! i) with Some x => mret x | None => fault end.
Definition wr_ticks (l : option nat) (v : Z) : LA unit :=
  x ← rd_lapic l;
  match l with
  | Some i => modify (upd_lapics_ <[i := mk_cpu_lapic (cl_id x) (cl_acpi_id x) (cl_present x) v]>)
  | None => fault
  end.

Definition nmi_entry (vec flags : Z) : Z :=
  let nmi := Z.lor 800 vec in
  let nmi := if negb (Z.land flags 2 =? 0) then Z.lor nmi (Z.shiftl 1 13) else nmi in
  if negb (Z.land flags 8 =? 0) then Z.lor nmi (Z.shiftl 1 15) else nmi.

Definition lapic_set_nmi (vec : Z) (i : nmi) : LA unit :=
  kassert_dbg (vec =? IRQ_NMI);;
  let nmi := nmi_entry vec (nmi_flags i) in
  if nmi_lint i =? 0 then lapic_write LAPIC_REG_LINT0 nmi
  else if nmi_lint i =? 1 then lapic_write LAPIC_REG_LINT1 nmi
  else mret tt.

Definition lapic_id : LA Z := v ← lapic_read LAPIC_REG_ID; mret (u8 (Z.shiftr v 24)).

(** [1 << (vec % 32)] is an [int], which [&] converts to 32 bits. *)
Definition lapic_eoi (vec : Z) : LA unit :=
  kassert_dbg (IRQ_APIC_BASE <=? vec);;
  let reg := LAPIC_REG_ISR_BASE + 0x10 * (vec / 32) in
  v ← lapic_read reg;
  if negb (Z.land v (Z.shiftl 1 (vec mod 32)) =? 0) then lapic_write LAPIC_REG_EOI 0 else mret tt.

Definition lpreempt_inc : LA unit := s ← get; modify (upd_lpreempt (low32 (λ v, v + 1) (l_preempt s))).
Definition lpreempt_dec : LA unit := s ← get; modify (upd_lpreempt (low32 (λ v, v - 1) (l_preempt s))).

Definition lapic_send_ipi (target flags : Z) : LA unit :=
  s ← get;
  if negb (base_set s) then panic
  else
    lpreempt_inc;;
    (if Z.land flags IPI_BROADCAST =? 0 then lapic_write LAPIC_REG_ICR1 (u32 (Z.shiftl target 24)) else mret tt);;
    lapic_write LAPIC_REG_ICR0 flags;;
    lpreempt_dec.

Definition pit_sleep_event (ms : Z) : LA unit := modify (upd_events (cons (Sleep ms))).

Definition lapic_timer_prepare : LA Z :=
  let test_ms := 30 in
  let ticks_initial := 0xFFFFFFFF in
  lapic_write LAPIC_REG_TIMER_DIVIDE 0x3;;
  lapic_write LAPIC_REG_TIMER_INITIAL ticks_initial;;
  pit_sleep_event test_ms;;
  lapic_write LAPIC_REG_TIMER_LVT APIC_DISABLE;;
  cur ← lapic_read LAPIC_REG_TIMER_CURRENT;
  mret (u32 (ticks_initial - cur) / (test_ms / 10)).

Definition lapic_timer_callback : LA unit :=
  s ← get;
  if negb (l_resched s) then
    modify (upd_slices (u32 (l_slices s + 1)));;
    s ← get;
    if MAX_SLICES <=? l_slices s then modify (upd_resched true) else mret tt
  else mret tt.

Definition lapic_timer_enable : LA unit :=
  id ← lapic_id;
  l ← find_lapic id;
  x ← rd_lapic l;
  let period := if DEBUG then u32 (ticks_per_10ms x * 10) else ticks_per_10ms x in
  lapic_write LAPIC_REG_TIMER_DIVIDE 0x3;;
  lapic_write LAPIC_REG_TIMER_LVT (Z.lor IRQ_LINT_TIMER APIC_TIMER_PERIODIC);;
  lapic_write LAPIC_REG_TIMER_INITIAL period.

Fixpoint set_nmis (l : option nat) (ns : list nmi) : LA unit :=
  match ns with
  | [] => mret tt
  | n :: ns =>
      x ← rd_lapic l;
      (if (nmi_acpi_id n =? cl_acpi_id x) || (nmi_acpi_id n =? 0xFF) then lapic_set_nmi IRQ_NMI n else mret tt);;
      set_nmis l ns
  end.

Definition lapic_enable : LA unit :=
  if negb has_lapic then panic
  else
    id ← lapic_id;
    l ← find_lapic id;
    modify (upd_apic_id id);;
    kassert (0 <? Z.land apic_base_msr (Z.shiftl 1 11));;
    s ← get; set_nmis l (nmis s);;
    v ← lapic_read LAPIC_REG_SPURIOUS;
    lapic_write LAPIC_REG_SPURIOUS (Z.lor (Z.lor v (Z.shiftl 1 8)) IRQ_APIC_SPURIOUS);;
    ticks ← lapic_timer_prepare;
    wr_ticks l ticks;;
    (if id =? 0 then modify (upd_handler true) else mret tt);;
    lapic_write LAPIC_REG_EOI 0.
End lapic.
