(* ===== verification/Context.v ===== *)
(** * Contexts: system calls, new tasks and the switch between stacks

    kernel/syscall/syscall.asm and the table util/syscall_gen.py generates,
    [syscall_fork] of kernel/syscall/defs.c, [task_fork] of
    kernel/proc/task.c, kernel/proc/fork.asm and kernel/proc/switch_to.asm,
    on a machine with registers and kernel memory in 64-bit words.  One
    definition is one routine, with an operation per instruction or
    statement.  The fields of tasks and of the per-CPU record that assembly
    reads at fixed offsets are the fields of the records here.

    Addresses the linker chooses, the values a C function leaves in the
    registers it may overwrite, and the status bits an arithmetic instruction
    leaves in RFLAGS are parameters. *)

From stdpp Require Import base list gmap fin_maps.
From Stdlib Require Import ZArith Lia Bool.
From S2P Require Import Prelude Addr Cpuset Sched.
Local Open Scope Z_scope.

(** ** The machine *)

Inductive reg :=
| RAX | RBX | RCX | RDX | RSI | RDI | RBP | RSP
| R8 | R9 | R10 | R11 | R12 | R13 | R14 | R15
| RIP | RFLAGS | CS | SS.

Scheme Equality for reg.

Definition regfile := reg → Z.
Definition setr (r : reg) (v : Z) (f : regfile) : regfile := λ q, if reg_beq q r then v else f q.

(** Registers, kernel memory, the tasks, the fields of the per-CPU record and
    RSP0 of its TSS, [next_tid], the model specific registers, and the part
    of the state that memory management works on. *)
Record mach (St : Type) := mk_mach {
  regs : regfile;
  words : gmap Z Z;
  tasks_ : gmap Z task;
  pc_current : Z;
  pc_scratch : Z;
  pc_rsp0 : Z;
  pc_preempt : Z;
  next_tid : Z;
  msrs : gmap Z Z;
  mm : St
}.
Arguments mk_mach {_} _ _ _ _ _ _ _ _ _ _.
Arguments regs {_} _.
Arguments words {_} _.
Arguments tasks_ {_} _.
Arguments pc_current {_} _.
Arguments pc_scratch {_} _.
Arguments pc_rsp0 {_} _.
Arguments pc_preempt {_} _.
Arguments next_tid {_} _.
Arguments msrs {_} _.
Arguments mm {_} _.

Section updates.
Context {St : Type}.
Implicit Types s : mach St.
Definition upd_regs f s := mk_mach (f (regs s)) (words s) (tasks_ s) (pc_current s) (pc_scratch s) (pc_rsp0 s) (pc_preempt s) (next_tid s) (msrs s) (mm s).
Definition upd_words f s := mk_mach (regs s) (f (words s)) (tasks_ s) (pc_current s) (pc_scratch s) (pc_rsp0 s) (pc_preempt s) (next_tid s) (msrs s) (mm s).
Definition upd_tasks_ f s := mk_mach (regs s) (words s) (f (tasks_ s)) (pc_current s) (pc_scratch s) (pc_rsp0 s) (pc_preempt s) (next_tid s) (msrs s) (mm s).
Definition upd_current v s := mk_mach (regs s) (words s) (tasks_ s) v (pc_scratch s) (pc_rsp0 s) (pc_preempt s) (next_tid s) (msrs s) (mm s).
Definition upd_scratch v s := mk_mach (regs s) (words s) (tasks_ s) (pc_current s) v (pc_rsp0 s) (pc_preempt s) (next_tid s) (msrs s) (mm s).
Definition upd_rsp0 v s := mk_mach (regs s) (words s) (tasks_ s) (pc_current s) (pc_scratch s) v (pc_preempt s) (next_tid s) (msrs s) (mm s).
Definition upd_preempt v s := mk_mach (regs s) (words s) (tasks_ s) (pc_current s) (pc_scratch s) (pc_rsp0 s) v (next_tid s) (msrs s) (mm s).
Definition upd_tid v s := mk_mach (regs s) (words s) (tasks_ s) (pc_current s) (pc_scratch s) (pc_rsp0 s) (pc_preempt s) v (msrs s) (mm s).
Definition upd_msrs f s := mk_mach (regs s) (words s) (tasks_ s) (pc_current s) (pc_scratch s) (pc_rsp0 s) (pc_preempt s) (next_tid s) (f (msrs s)) (mm s).
Definition upd_mm (v : St) s := mk_mach (regs s) (words s) (tasks_ s) (pc_current s) (pc_scratch s) (pc_rsp0 s) (pc_preempt s) (next_tid s) (msrs s) v.
End updates.

Section machine.
Context {St : Type}.
Abbreviation C := (M (mach St)).

Definition rr (r : reg) : C Z := s ← get; mret (regs s r).
Definition wr (r : reg) (v : Z) : C unit := modify (upd_regs (setr r v)).
Definition rdw : Z → C Z := deref words.
Definition wrw (a v : Z) : C unit := store words upd_words a (λ _, v).
Definition rd_tsk : Z → C task := deref tasks_.
Definition wr_tsk : Z → (task → task) → C unit := store tasks_ upd_tasks_.

Definition push (v : Z) : C unit :=
  sp ← rr RSP; wr RSP (u64 (sp - 8));; wrw (u64 (sp - 8)) v.
Definition pop (r : reg) : C unit :=
  sp ← rr RSP; v ← rdw sp; wr RSP (u64 (sp + 8));; wr r v.
Definition push_reg (r : reg) : C unit := v ← rr r; push v.
Definition ret_ : C unit := pop RIP.

(** [iretq] in 64-bit mode: five words, RSP and SS included. *)
Definition iretq : C unit :=
  sp ← rr RSP;
  ip ← rdw sp; cs ← rdw (u64 (sp + 8)); fl ← rdw (u64 (sp + 16)); usp ← rdw (u64 (sp + 24)); ss ← rdw (u64 (sp + 32));
  wr RIP ip;; wr CS cs;; wr RFLAGS fl;; wr RSP usp;; wr SS ss.

(** ** Model specific registers and the [syscall] instruction *)

Definition IA32_STAR : Z := 0xC0000081.
Definition IA32_LSTAR : Z := 0xC0000082.
Definition IA32_FMASK : Z := 0xC0000084.
Definition IA32_EFER : Z := 0xC0000080.

Definition rdmsr : C unit :=
  n ← rr RCX; s ← get;
  let v := default 0 (msrs s !! u32 n) in
  wr RAX (u32 v);; wr RDX (u32 (Z.shiftr v 32)).
Definition wrmsr : C unit :=
  n ← rr RCX; lo ← rr RAX; hi ← rr RDX;
  modify (upd_msrs <[u32 n := Z.lor (u32 lo) (Z.shiftl (u32 hi) 32)]>).

(** The processor saves the return address and the flags, masks the flags and
    loads the kernel's selectors; without EFER.SCE it is an invalid opcode. *)
Definition syscall_insn : C unit :=
  s ← get;
  if negb (Z.testbit (default 0 (msrs s !! IA32_EFER)) 0) then fault
  else
    let star := default 0 (msrs s !! IA32_STAR) in
    let cs := Z.land (Z.shiftr star 32) 0xFFFC in
    ip ← rr RIP; fl ← rr RFLAGS;
    wr RCX ip;; wr R11 fl;;
    wr RIP (default 0 (msrs s !! IA32_LSTAR));;
    wr RFLAGS (Z.land fl (u64 (Z.lnot (default 0 (msrs s !! IA32_FMASK)))));;
    wr CS cs;; wr SS (u16 (cs + 8)).

Definition GDT_USER_DATA : Z := 0x20.
Definition GDT_USER_CODE : Z := 0x28.

Context (syscall_entry_addr : Z) (has_syscall : bool).

(** The message of the other branch is printed, then [abort] stops the CPU. *)
Definition syscall_enable : C unit :=
  if negb has_syscall then panic
  else
    wr RCX IA32_STAR;; rdmsr;; wr RDX 0x00180008;; wrmsr;;
    wr RCX IA32_LSTAR;; rdmsr;; wr RDI syscall_entry_addr;;
    rdi ← rr RDI; wr RAX (u32 rdi);; wr RDI (Z.shiftr rdi 32);; rdi ← rr RDI; wr RDX (u32 rdi);; wrmsr;;
    wr RCX IA32_EFER;; rdmsr;; rax ← rr RAX; wr RAX (u32 (Z.lor rax (Z.shiftl 1 0)));; wrmsr;;
    wr RCX IA32_FMASK;; rdmsr;; rax ← rr RAX; wr RAX (u32 (Z.lor rax (Z.lor (Z.shiftl 1 9) (Z.shiftl 1 10))));; wrmsr.

(** ** Memory management as [task_fork] uses it *)

(** [kmalloc(n, KM_NONE)], [page_to_virt(pmm_alloc_order(order, GFP_NONE))],
    [mmu_alloc], [mmu_clone_cow] and [mmu_inc_users]. *)
Record memory_ops := mk_mops {
  m_kmalloc : Z → M St Z;
  m_pages : Z → M St Z;
  m_mmu_alloc : M St Z;
  m_clone_cow : Z → Z → M St unit;
  m_inc_users : Z → M St unit
}.

Context {BC : BuildConfig} (mo : memory_ops) (kernel_mmu default_regs ret_from_ufork_addr ret_from_kfork_addr : Z).

Definition on_mm {A} (m : M St A) : C A := zoom mm upd_mm m.

(** ** task_fork *)

Definition TASK_KSTACK_ORDER : Z := 1.
Definition TASK_KSTACK_PAGES : Z := Z.shiftl 1 TASK_KSTACK_ORDER.
Definition TASK_KSTACK_SIZE : Z := TASK_KSTACK_PAGES * PAGE_SIZE.
Definition SIZEOF_TASK : Z := 112.

Definition zero_task : task := mk_task 0 0 0 0 TASK_S_NOT_STARTED 0 0 0 0 0.
Definition set_rsp_original v t := mk_task (rsp_top t) v (t_mmu t) (t_flags t) (t_state t) (tid t) (tgid t) (affinity t) (vruntime t) (num_slices t).
Definition set_tmmu v t := mk_task (rsp_top t) (rsp_original t) v (t_flags t) (t_state t) (tid t) (tgid t) (affinity t) (vruntime t) (num_slices t).
Definition set_ids a b t := mk_task (rsp_top t) (rsp_original t) (t_mmu t) (t_flags t) (t_state t) a b (affinity t) (vruntime t) (num_slices t).
Definition set_affinity v t := mk_task (rsp_top t) (rsp_original t) (t_mmu t) (t_flags t) (t_state t) (tid t) (tgid t) v (vruntime t) (num_slices t).

(** The fields of [struct callee_regs], in order. *)
Definition cr_rsp (p : Z) : C Z := rdw p.
Definition cr_rbp (p : Z) : C Z := rdw (p + 8).
Definition cr_rbx (p : Z) : C Z := rdw (p + 16).
Definition cr_r12 (p : Z) : C Z := rdw (p + 24).
Definition cr_r13 (p : Z) : C Z := rdw (p + 32).
Definition cr_r14 (p : Z) : C Z := rdw (p + 40).
Definition cr_r15 (p : Z) : C Z := rdw (p + 48).

(** [*--stack = v]; the result is the new [stack]. *)
Definition push_to (stack v : Z) : C Z := wrw (u64 (stack - 8)) v;; mret (u64 (stack - 8)).

(** [kmalloc] and [memset]: a cleared task enters the table. *)
Definition new_task : C Z :=
  t ← on_mm (m_kmalloc mo SIZEOF_TASK);
  if t =? NULL then fault else modify (upd_tasks_ <[t := zero_task]>);; mret t.

(** The part of the stack below the words that depend on the kind of task. *)
Definition push_callee (stack rp : Z) : C Z :=
  v ← cr_rbx rp; stack ← push_to stack v;
  v ← cr_rbp rp; stack ← push_to stack v;
  v ← cr_r12 rp; stack ← push_to stack v;
  v ← cr_r13 rp; stack ← push_to stack v;
  v ← cr_r14 rp; stack ← push_to stack v;
  v ← cr_r15 rp; push_to stack v.

Definition fork_kthread (t stack entry rp : Z) : C (Z * Z) :=
  let rp := if rp =? NULL then default_regs else rp in
  wr_tsk t (set_tmmu kernel_mmu);;
  wr_tsk t (λ k, set_flags (Z.lor (t_flags k) TASK_KTHREAD) k);;
  stack ← push_to stack entry;
  v ← cr_rbx rp; stack ← push_to stack v;
  stack ← push_to stack ret_from_kfork_addr;
  mret (stack, rp).

Definition fork_user (parent t stack entry clone_flags rp : Z) : C (Z * Z) :=
  kassert_dbg (negb (rp =? NULL));;
  wr_tsk t (λ k, set_flags (Z.land (t_flags k) (u64 (Z.lnot TASK_KTHREAD))) k);;
  (if negb (Z.land clone_flags FORK_UTHREAD =? 0) then
     p ← rd_tsk parent; on_mm (m_inc_users mo (t_mmu p));;
     p ← rd_tsk parent; wr_tsk t (set_tmmu (t_mmu p))
   else
     m ← on_mm (m_mmu_alloc mo); wr_tsk t (set_tmmu m);;
     k ← rd_tsk t; p ← rd_tsk parent; on_mm (m_clone_cow mo (t_mmu k) (t_mmu p)));;
  stack ← push_to stack (Z.lor 0x20 0x3);
  v ← cr_rsp rp; stack ← push_to stack v;
  fl ← rr RFLAGS; stack ← push_to stack (Z.lor fl 0x200);
  stack ← push_to stack (Z.lor 0x28 0x3);
  stack ← push_to stack entry;
  stack ← push_to stack ret_from_ufork_addr;
  mret (stack, rp).

Definition task_fork (parent entry clone_flags rp : Z) : C Z :=
  parent ← (if parent =? NULL then s ← get; mret (pc_current s) else mret parent);
  kassert_dbg (negb (negb (Z.land clone_flags FORK_KTHREAD =? 0) && negb (Z.land clone_flags FORK_UTHREAD =? 0)));;
  t ← new_task;
  p ← rd_tsk parent; wr_tsk t (set_flags (t_flags p));;
  s ← get; let id := u32 (next_tid s + 1) in modify (upd_tid id);;
  wr_tsk t (set_ids (i32 id) (i32 id));;
  page ← on_mm (m_pages mo TASK_KSTACK_ORDER);
  let kstack := u64 (TASK_KSTACK_SIZE + page) in
  wr_tsk t (set_rsp_original kstack);;
  '(stack, rp) ← (if negb (Z.land clone_flags FORK_KTHREAD =? 0) then fork_kthread t kstack entry rp
                  else fork_user parent t kstack entry clone_flags rp);
  stack ← push_callee stack rp;
  wr_tsk t (set_rsp_top stack);;
  p ← rd_tsk parent; wr_tsk t (set_affinity (affinity p));;
  wr_tsk t (set_state TASK_S_NOT_STARTED);;
  mret t.

(** ** Assembly *)

(** A call of a C function: the return address is pushed and popped again, the
    result is in RAX, and the registers a function may overwrite have other
    values afterwards. *)
Context (ret_addr : Z) (junk : regfile) (alu : Z → Z).

Definition scratch_regs : list reg := [RCX; RDX; RSI; RDI; R8; R9; R10; R11].
Definition clobber (f : regfile) : regfile := λ r, if existsb (reg_beq r) scratch_regs then junk r else f r.

(** What comparisons and bitwise operations do to the flags. *)
Definition status : C unit := fl ← rr RFLAGS; wr RFLAGS (alu fl).

Definition call_c (f : C Z) : C unit :=
  push ret_addr;; v ← f; wr RAX v;; modify (upd_regs clobber);; status;; ret_.

(** fork.asm *)
Definition ret_from_ufork : C unit := wr RAX 0;; iretq.

(** Up to the call of the thread's function. *)
Definition ret_from_kfork : C unit :=
  pop RDI;; pop RAX;; rax ← rr RAX; push ret_addr;; wr RIP rax.

Definition ret_from_execve : C unit :=
  fl ← rr RFLAGS; push fl;; pop RAX;;
  rax ← rr RAX; wr RAX (Z.lor rax 0x200);; status;;
  push (Z.lor GDT_USER_DATA 0x3);; push_reg RSI;; push_reg RAX;; push (Z.lor GDT_USER_CODE 0x3);; push_reg RDI;;
  iretq.

(** switch_to.asm; [mmu_switch] works on the memory part of the state. *)
Context (mmu_switch_ : Z → Z → M St unit).

(** The last seven instructions. *)
Definition switch_restore : C unit :=
  pop R15;; pop R14;; pop R13;; pop R12;; pop RBP;; pop RBX;; ret_.

Definition switch_to_asm : C unit :=
  push_reg RBX;; push_reg RBP;; push_reg R12;; push_reg R13;; push_reg R14;; push_reg R15;;
  s ← get; wr RAX (pc_current s);;
  rax ← rr RAX; sp ← rr RSP; wr_tsk rax (set_rsp_top sp);;
  rdi ← rr RDI; n ← rd_tsk rdi; wr RSP (rsp_top n);;
  s ← get; wr RSI (pc_current s);; modify (upd_current rdi);;
  n ← rd_tsk rdi; wr RCX (rsp_original n);; rcx ← rr RCX; modify (upd_rsp0 rcx);;
  n ← rd_tsk rdi; rsi ← rr RSI; p ← rd_tsk rsi; wr RDI (t_mmu n);; wr RSI (t_mmu p);;
  rdi ← rr RDI; rsi ← rr RSI; call_c (on_mm (mmu_switch_ rdi rsi);; mret (junk RAX));;
  s ← get; modify (upd_preempt (u64 (pc_preempt s - 1)));;
  switch_restore.

(** ** System calls *)

(** util/syscall_gen.py: the calls in the order of their numbers. *)
Inductive syscall_name := sys_write | sys_fork | sys_exit | sys_sched_yield.
Definition syscall_list : list syscall_name := [sys_write; sys_fork; sys_exit; sys_sched_yield].
Definition NUM_SYSCALLS : Z := Z.of_nat (length syscall_list).
Definition SYSCALL_FORK : Z := 1.
Definition ENOSYS : Z := 0xFFFFFFFFFFFFFFFF.

(** The other functions of defs.c, and [task_wakeup] and [sched_yield]. *)
Context (syscall_fn : syscall_name → C Z) (wakeup : Z → C unit) (yield : C unit).

Definition syscall_fork (flags rp return_addr : Z) : C Z :=
  if negb (Z.land flags TASK_KTHREAD =? 0) then mret (u64 (-1))
  else
    s ← get;
    child ← task_fork (pc_current s) return_addr flags rp;
    wakeup child;; yield;;
    c ← rd_tsk child; mret (u64 (tid c)).

Definition syscall_done : C unit := wr RCX 0;; status;; wr R11 0;; status;; iretq.

Definition fork_path : C unit :=
  rsi ← rr RSI; status;;
  sp ← rr RSP; user_sp ← rdw (u64 (sp + 24)); (if rsi =? 0 then wr RSI user_sp else mret tt);;
  push_reg R15;; push_reg R14;; push_reg R13;; push_reg R12;; push_reg RBX;; push_reg RBP;; push_reg RSI;;
  sp ← rr RSP; wr RSI sp;; rcx ← rr RCX; wr RDX rcx;;
  rdi ← rr RDI; rsi ← rr RSI; rdx ← rr RDX; call_c (syscall_fork rdi rsi rdx);;
  sp ← rr RSP; wr RSP (u64 (sp + 8));; status;;
  pop RBP;; pop RBX;; pop R12;; pop R13;; pop R14;; pop R15;;
  syscall_done.

Definition syscall_entry : C unit :=
  sp ← rr RSP; modify (upd_scratch sp);;
  s ← get; wr RSP (pc_current s);; sp ← rr RSP; t ← rd_tsk sp; wr RSP (rsp_original t);;
  push (Z.lor GDT_USER_DATA 0x3);; s ← get; push (pc_scratch s);; push_reg R11;; push (Z.lor GDT_USER_CODE 0x3);; push_reg RCX;;
  fl ← rr RFLAGS; wr RFLAGS (Z.lor fl 0x200);;
  rax ← rr RAX; status;;
  if NUM_SYSCALLS <=? rax then wr RAX ENOSYS;; syscall_done
  else
    status;;
    if rax =? SYSCALL_FORK then fork_path
    else
      match syscall_list !! Z.to_nat rax with
      | Some f => call_c (syscall_fn f);; syscall_done
      | None => fault
      end.
End machine.
