(* ===== verification/TaskMemory.v ===== *)
(** * Memory for new tasks

    The operations [task_fork] calls, on the heap of Slob.v and the page
    tables of Vmm.v: [kmalloc], kernel stacks from the buddy allocator,
    [mmu_alloc], [mmu_inc_users] and [mmu_clone_cow].  Heap and page tables
    take their frames from one allocator, which is kept in the heap's part of
    the state. *)

From stdpp Require Import base list gmap.
From Stdlib Require Import ZArith Lia Bool.
From S2P Require Import Prelude Addr Pmm Slob Heap Vmm Context.
Local Open Scope Z_scope.

Record kmemory := mk_kmem { km_heap : slob; km_space : vstate }.

Definition on_heap {A} (m : L A) : M kmemory A := zoom km_heap (λ h s, mk_kmem h (km_space s)) m.
Definition on_space {A} (m : V A) : M kmemory A :=
  zoom (λ s, upd_vpm (spm (km_heap s)) (km_space s)) (λ v s, mk_kmem (upd_spm (vpm v) (km_heap s)) v) m.

Section ops.
Context {BC : BuildConfig} (kernel_mmu : Z).

Definition SIZEOF_MMU_INFO : Z := 72.

Definition inc_users (mmu : Z) : M kmemory unit :=
  if mmu =? kernel_mmu then mret tt else on_space (wr_mpt mmu (λ m, mpt_set_users (u32 (m_users m + 1)) m)).

(** [kmalloc] and [memset]: the object is entered cleared. *)
Definition mmu_alloc : M kmemory Z :=
  rv ← on_heap (kmalloc SIZEOF_MMU_INFO KM_NONE);
  (if rv =? NULL then fault else on_space (modify (upd_mpts <[rv := mk_mpt 0 0 0 0 0]>)));;
  inc_users rv;;
  mret rv.

Definition task_memory : memory_ops (St := kmemory) := {|
  m_kmalloc n := on_heap (kmalloc n KM_NONE);
  m_pages order := p ← on_space (on_pm (pmm_alloc_order order GFP_NONE)); mret (page_to_virt p);
  m_mmu_alloc := mmu_alloc;
  m_clone_cow dest mmu := on_space (mmu_clone_cow kernel_mmu dest mmu);
  m_inc_users := inc_users
|}.
End ops.
