(* ===== verification/ContextSpec.v ===== *)
(** * Contexts: specification

    Stacks as lists of words, and what a task finds when it runs: a system
    call returns to where it was made with the registers it may rely on, a
    switch between tasks restores the one that comes back, and a new task
    starts at its entry point with the registers it was given. *)

From stdpp Require Import base list gmap fin_maps.
From Stdlib Require Import ZArith Lia Bool.
From S2P Require Import Prelude Addr Cpuset Pmm Slob SlobSpec Vmm VmmTheorems Sched Context TaskMemory.
Local Open Scope Z_scope.

(** ** Stacks *)

(** Where the stack pointer is when [l] is on the stack that ends at [top]. *)
Definition sp (top : Z) (l : list Z) : Z := top - 8 * Z.of_nat (length l).
Arguments sp : simpl never.

(** The [n] words below [top] can be written, and the words of [l] are at
    its end, the one pushed last first. *)
Record frame_at (w : gmap Z Z) (top : Z) (n : nat) (l : list Z) : Prop := {
  fr_room : ∀ k, (k < n)%nat → is_Some (w !! (top - 8 * (Z.of_nat k + 1)));
  fr_words : ∀ i x, l !! i = Some x → w !! (sp top l + 8 * Z.of_nat i) = Some x;
  fr_fit : (length l ≤ n)%nat;
  fr_lo : 8 * Z.of_nat n < top;
  fr_hi : top < 2 ^ 64
}.

(** Memory outside the stack is the same. *)
Definition outside (top : Z) (n : nat) (w w' : gmap Z Z) : Prop :=
  ∀ a, a < top - 8 * Z.of_nat n ∨ top ≤ a → w' !! a = w !! a.

Lemma outside_refl top n w : outside top n w w.
Proof. by intros a _. Qed.

Lemma outside_trans top n w1 w2 w3 : outside top n w1 w2 → outside top n w2 w3 → outside top n w1 w3.
Proof. intros H1 H2 a Ha. rewrite (H2 a Ha). by apply H1. Qed.

Lemma sp_cons top v l : sp top (v :: l) = sp top l - 8.
Proof. unfold sp. simpl length. lia. Qed.

Lemma frame_push w top n l v :
  frame_at w top n l → (length l < n)%nat → frame_at (<[sp top (v :: l) := v]> w) top n (v :: l).
Proof.
  intros [Hr Hw Hf Hlo Hhi] Hlt. split; [|..|simpl; lia|done|done].
  - intros k Hk. destruct (decide (sp top (v :: l) = top - 8 * (Z.of_nat k + 1))) as [->|Hne]; [by rewrite lookup_insert_eq|].
    rewrite lookup_insert_ne by done. by apply Hr.
  - intros [|i] x Hx; simpl in Hx.
    + injection Hx as ->. by rewrite Z.add_0_r, lookup_insert_eq.
    + rewrite lookup_insert_ne by (rewrite sp_cons; lia). rewrite <-(Hw i x Hx). f_equal. rewrite sp_cons. lia.
Qed.

Lemma frame_pop w top n v l : frame_at w top n (v :: l) → w !! sp top (v :: l) = Some v ∧ frame_at w top n l.
Proof.
  intros [Hr Hw Hf Hlo Hhi]. split; [rewrite <-(Hw O v eq_refl); f_equal; lia|]. split; [done| |simpl in Hf; lia|done|done].
  intros i x Hx. rewrite <-(Hw (S i) x Hx). f_equal. rewrite sp_cons. lia.
Qed.

Lemma frame_outside w w' top n l top' n' :
  frame_at w top n l → outside top' n' w w' → top ≤ top' - 8 * Z.of_nat n' ∨ top' ≤ top - 8 * Z.of_nat n → frame_at w' top n l.
Proof.
  intros [Hr Hw Hf Hlo Hhi] Ho Hd. split; [| |done|done|done].
  - intros k Hk. rewrite Ho; [by apply Hr|]. lia.
  - intros i x Hx. rewrite Ho; [by apply Hw|]. pose proof (lookup_lt_Some _ _ _ Hx). unfold sp. lia.
Qed.

Lemma push_outside top n l v (w : gmap Z Z) : (length l < n)%nat → outside top n w (<[sp top (v :: l) := v]> w).
Proof. intros Hl a Ha. rewrite lookup_insert_ne; [done|]. unfold sp. simpl length. lia. Qed.

Lemma frame_sp_range w top n l : frame_at w top n l → (0 < n)%nat → 0 ≤ sp top l < 2 ^ 64.
Proof. intros [_ _ Hf Hlo Hhi] Hn. unfold sp. lia. Qed.

(** ** Rules for instructions *)

Tactic Notation "msimpl" := cbn [regs words tasks_ pc_current pc_scratch pc_rsp0 pc_preempt next_tid msrs mm
  upd_regs upd_words upd_tasks_ upd_current upd_scratch upd_rsp0 upd_preempt upd_tid upd_msrs upd_mm setr reg_beq
  clobber existsb scratch_regs orb].
Tactic Notation "msimpl" "in" hyp(H) := cbn [regs words tasks_ pc_current pc_scratch pc_rsp0 pc_preempt next_tid msrs mm
  upd_regs upd_words upd_tasks_ upd_current upd_scratch upd_rsp0 upd_preempt upd_tid upd_msrs upd_mm setr reg_beq
  clobber existsb scratch_regs orb] in H.

Section rules.
Context {St : Type}.
Implicit Types s : mach St.

Lemma wp_rr r s (Q : Z → mach St → Prop) : Q (regs s r) s → wp (rr r) s Q.
Proof. done. Qed.

Lemma wp_wreg r v s (Q : unit → mach St → Prop) : Q tt (upd_regs (setr r v) s) → wp (wr r v) s Q.
Proof. done. Qed.

Lemma wp_push s top n l v (Q : unit → mach St → Prop) :
  regs s RSP = sp top l → frame_at (words s) top n l → (length l < n)%nat →
  (∀ w', frame_at w' top n (v :: l) → outside top n (words s) w' →
     Q tt (upd_words (λ _, w') (upd_regs (setr RSP (sp top (v :: l))) s))) →
  wp (push v) s Q.
Proof.
  intros Hsp Hf Hl HQ. unfold push. apply wp_bind, wp_rr. rewrite Hsp.
  assert (u64 (sp top l - 8) = sp top (v :: l)) as ->.
  { rewrite sp_cons. apply uwrap_id. unfold in_u. destruct Hf. unfold sp. lia. }
  apply wp_bind, wp_wreg. destruct (fr_room _ _ _ _ Hf (length l) Hl) as [x Hx].
  assert (top - 8 * (Z.of_nat (length l) + 1) = sp top (v :: l)) as E by (unfold sp; simpl length; lia). rewrite E in Hx.
  eapply (wp_store _ _ _ _ x); [exact Hx|destruct Hf; unfold sp; simpl length; lia|].
  apply (HQ (<[sp top (v :: l) := v]> (words s))); [by apply frame_push|by apply push_outside].
Qed.

Lemma wp_push_reg s top n l r (Q : unit → mach St → Prop) :
  regs s RSP = sp top l → frame_at (words s) top n l → (length l < n)%nat →
  (∀ w', frame_at w' top n (regs s r :: l) → outside top n (words s) w' →
     Q tt (upd_words (λ _, w') (upd_regs (setr RSP (sp top (regs s r :: l))) s))) →
  wp (push_reg r) s Q.
Proof. intros. unfold push_reg. apply wp_bind, wp_rr. by eapply wp_push. Qed.

Lemma wp_rdw s a v (Q : Z → mach St → Prop) : words s !! a = Some v → a ≠ 0 → Q v s → wp (rdw a) s Q.
Proof. intros Ha H0 HQ. by eapply wp_deref. Qed.

Lemma wp_pop s top n v l r (Q : unit → mach St → Prop) :
  regs s RSP = sp top (v :: l) → frame_at (words s) top n (v :: l) →
  (frame_at (words s) top n l → Q tt (upd_regs (setr r v) (upd_regs (setr RSP (sp top l)) s))) →
  wp (pop r) s Q.
Proof.
  intros Hsp Hf HQ. destruct (frame_pop _ _ _ _ _ Hf) as [Hv Hf']. unfold pop. apply wp_bind, wp_rr. rewrite Hsp.
  apply wp_bind, (wp_rdw _ _ v); [done|destruct Hf; unfold sp; simpl length in *; lia|].
  assert (u64 (sp top (v :: l) + 8) = sp top l) as ->.
  { rewrite sp_cons. rewrite uwrap_id; [lia|]. unfold in_u. destruct Hf'. unfold sp. simpl in *. destruct Hf. unfold sp in *. simpl in *. lia. }
  apply wp_bind, wp_wreg, wp_wreg. by apply HQ.
Qed.

Lemma wp_iretq s top n ip cs fl usp ss l (Q : unit → mach St → Prop) :
  regs s RSP = sp top (ip :: cs :: fl :: usp :: ss :: l) → frame_at (words s) top n (ip :: cs :: fl :: usp :: ss :: l) →
  Q tt (upd_regs (setr SS ss) (upd_regs (setr RSP usp) (upd_regs (setr RFLAGS fl) (upd_regs (setr CS cs) (upd_regs (setr RIP ip) s))))) →
  wp iretq s Q.
Proof.
  intros Hsp Hf HQ. pose proof (fr_words _ _ _ _ Hf) as Hw. pose proof (fr_fit _ _ _ _ Hf). pose proof (fr_lo _ _ _ _ Hf). pose proof (fr_hi _ _ _ _ Hf).
  simpl length in *. set (a := sp top (ip :: cs :: fl :: usp :: ss :: l)) in *.
  assert (0 < a ∧ a + 40 < 2 ^ 64 + 1) as Ha by (unfold a, sp; simpl length; lia).
  unfold iretq. apply wp_bind, wp_rr. rewrite Hsp. rewrite !(uwrap_id 64 (a + _)) by (unfold in_u; lia).
  apply wp_bind, (wp_rdw _ _ ip); [rewrite <-(Hw 0%nat ip eq_refl); f_equal; lia|lia|].
  apply wp_bind, (wp_rdw _ _ cs); [by rewrite <-(Hw 1%nat cs eq_refl)|lia|].
  apply wp_bind, (wp_rdw _ _ fl); [by rewrite <-(Hw 2%nat fl eq_refl)|lia|].
  apply wp_bind, (wp_rdw _ _ usp); [by rewrite <-(Hw 3%nat usp eq_refl)|lia|].
  apply wp_bind, (wp_rdw _ _ ss); [by rewrite <-(Hw 4%nat ss eq_refl)|lia|].
  repeat (apply wp_bind, wp_wreg). by apply wp_wreg.
Qed.
End rules.

(** ** C functions *)

Definition reg_in (r : reg) (l : list reg) : bool := existsb (reg_beq r) l.

(** The registers a C function leaves as they were. *)
Definition saved_regs : list reg := [RSP; RBX; RBP; R12; R13; R14; R15; CS; SS].
Definition saved_same (f f' : regfile) : Prop := ∀ r, reg_in r saved_regs = true → f' r = f r.

(** The calling convention: a function that is called with [l] on the stack
    returns with [l] on the stack and the saved registers as they were. *)
Definition abi {St} (top : Z) (n : nat) (f : M (mach St) Z) (P : Z → Prop) : Prop :=
  ∀ s l, regs s RSP = sp top l → frame_at (words s) top n l →
    wp f s (λ v s', frame_at (words s') top n l ∧ saved_same (regs s) (regs s') ∧ P v).

Section calls.
Context {St : Type} (ret_addr : Z) (junk : regfile) (alu : Z → Z).
Implicit Types s : mach St.

Definition after_call (v : Z) (spv : Z) (s : mach St) : mach St :=
  upd_regs (setr RIP ret_addr) (upd_regs (setr RSP spv)
    (upd_regs (λ f, setr RFLAGS (alu (f RFLAGS)) f) (upd_regs (clobber junk) (upd_regs (setr RAX v) s)))).

Lemma wp_call_c s top n l f (Q : unit → mach St → Prop) :
  regs s RSP = sp top l → frame_at (words s) top n l → (length l < n)%nat →
  (∀ w', frame_at w' top n (ret_addr :: l) → outside top n (words s) w' →
     wp f (upd_words (λ _, w') (upd_regs (setr RSP (sp top (ret_addr :: l))) s)) (λ v s1,
       regs s1 RSP = sp top (ret_addr :: l) ∧ frame_at (words s1) top n (ret_addr :: l) ∧
       (frame_at (words s1) top n l → Q tt (after_call v (sp top l) s1)))) →
  wp (call_c ret_addr junk alu f) s Q.
Proof.
  intros Hsp Hf Hl Hc. unfold call_c. apply wp_bind, (wp_push _ top n l); [done..|]. intros w' Hf' Ho.
  apply wp_bind. eapply wp_mono; [by apply Hc|]. intros v s1 (Hsp1 & Hf1 & HQ).
  apply wp_bind, wp_wreg, wp_bind, wp_modify, wp_bind. unfold status. apply wp_bind, wp_rr, wp_wreg.
  apply (wp_pop _ top n ret_addr l); [msimpl; done|done|exact HQ].
Qed.

Lemma wp_call_abi s top n l f P (Q : unit → mach St → Prop) :
  regs s RSP = sp top l → frame_at (words s) top n l → (length l < n)%nat → abi top n f P →
  (∀ v s1, P v → saved_same (setr RSP (sp top (ret_addr :: l)) (regs s)) (regs s1) → frame_at (words s1) top n l →
     Q tt (after_call v (sp top l) s1)) →
  wp (call_c ret_addr junk alu f) s Q.
Proof.
  intros Hsp Hf Hl Ha HQ. apply (wp_call_c _ top n l); [done..|]. intros w' Hf' _.
  eapply wp_mono; [by eapply Ha|]. intros v s1 (Hf1 & Hs & HP). split_and!; [|done|intros; by eapply HQ].
  by rewrite (Hs RSP).
Qed.
End calls.

(** ** System calls *)

Section syscalls.
Context {St : Type} {BC : BuildConfig} (mo : memory_ops (St := St)).
Context (kernel_mmu default_regs ret_from_ufork_addr ret_from_kfork_addr ret_addr : Z) (junk : regfile) (alu : Z → Z).
Context (syscall_fn : syscall_name → M (mach St) Z) (wakeup : Z → M (mach St) unit) (yield : M (mach St) unit).
Context (syscall_entry_addr : Z).
Implicit Types s : mach St.

Abbreviation entry := (syscall_entry mo kernel_mmu default_regs ret_from_ufork_addr ret_from_kfork_addr ret_addr junk alu
  syscall_fn wakeup yield).

(** What [syscall_enable] sets up. *)
Record enabled (s : mach St) : Prop := {
  en_efer : Z.testbit (default 0 (msrs s !! IA32_EFER)) 0 = true;
  en_cs : Z.land (Z.shiftr (default 0 (msrs s !! IA32_STAR)) 32) 0xFFFC = 8;
  en_lstar : msrs s !! IA32_LSTAR = Some syscall_entry_addr;
  en_if : Z.testbit (default 0 (msrs s !! IA32_FMASK)) 9 = true;
  en_df : Z.testbit (default 0 (msrs s !! IA32_FMASK)) 10 = true
}.

(** The current task has a kernel stack of [n] words that ends at [top]. *)
Record has_stack (s : mach St) (top : Z) (n : nat) : Prop := {
  hs_cur : pc_current s ≠ 0;
  hs_task : ∃ t, tasks_ s !! pc_current s = Some t ∧ rsp_original t = top;
  hs_frame : frame_at (words s) top n []
}.

(** Back in user mode: what a program finds after a system call. *)
Record returned (f f' : regfile) (v : Z) : Prop := {
  rt_rip : f' RIP = f RIP;
  rt_rsp : f' RSP = f RSP;
  rt_flags : f' RFLAGS = f RFLAGS;
  rt_saved : ∀ r, reg_in r [RBX; RBP; R12; R13; R14; R15] = true → f' r = f r;
  rt_cs : f' CS = Z.lor GDT_USER_CODE 3;
  rt_ss : f' SS = Z.lor GDT_USER_DATA 3;
  rt_rax : f' RAX = v;
  rt_cleared : f' RCX = 0 ∧ f' R11 = 0
}.

(** The five words under everything else during a system call. *)
Definition user_frame (f : regfile) : list Z :=
  [f RIP; Z.lor GDT_USER_CODE 3; f RFLAGS; f RSP; Z.lor GDT_USER_DATA 3].

Lemma wp_done s top n l (Q : unit → mach St → Prop) f :
  regs s RSP = sp top (user_frame f ++ l) → frame_at (words s) top n (user_frame f ++ l) →
  (∀ s', words s' = words s → (∀ r, reg_in r [RCX; R11; RIP; CS; RFLAGS; RSP; SS] = false → regs s' r = regs s r) →
     regs s' RIP = f RIP → regs s' CS = Z.lor GDT_USER_CODE 3 → regs s' RFLAGS = f RFLAGS → regs s' RSP = f RSP →
     regs s' SS = Z.lor GDT_USER_DATA 3 → regs s' RCX = 0 → regs s' R11 = 0 → Q tt s') →
  wp (syscall_done alu) s Q.
Proof.
  intros Hsp Hf HQ. unfold syscall_done, status. repeat (apply wp_bind, wp_wreg || apply wp_bind, wp_bind, wp_rr, wp_wreg).
  eapply (wp_iretq _ top n); [msimpl; exact Hsp|exact Hf|]. apply HQ; msimpl; try done.
  intros r Hr. by destruct r.
Qed.

Lemma wp_enter s top n (Q : unit → mach St → Prop) :
  enabled s → has_stack s top n → (5 ≤ n)%nat →
  (∀ s1, regs s1 RSP = sp top (user_frame (regs s)) → frame_at (words s1) top n (user_frame (regs s)) →
     outside top n (words s) (words s1) → regs s1 RCX = regs s RIP → tasks_ s1 = tasks_ s → pc_current s1 = pc_current s →
     next_tid s1 = next_tid s → mm s1 = mm s → msrs s1 = msrs s →
     Z.testbit (regs s1 RFLAGS) 9 = true →
     (∀ r, reg_in r [RCX; R11; RIP; CS; SS; RSP; RFLAGS] = false → regs s1 r = regs s r) →
     wp (rax ← rr RAX; status alu;;
       if NUM_SYSCALLS <=? rax then wr RAX ENOSYS;; syscall_done alu
       else
         status alu;;
         if rax =? SYSCALL_FORK then fork_path mo kernel_mmu default_regs ret_from_ufork_addr ret_from_kfork_addr ret_addr junk alu wakeup yield
         else
           match syscall_list !! Z.to_nat rax with
           | Some f => call_c ret_addr junk alu (syscall_fn f);; syscall_done alu
           | None => fault
           end) s1 Q) →
  wp (syscall_insn;; entry) s Q.
Proof.
  intros He [Hc0 (t & Ht & Htop) Hf] Hn HQ. apply wp_bind. unfold syscall_insn. apply wp_bind, wp_get.
  rewrite (en_efer _ He), (en_cs _ He), (en_lstar _ He). simpl negb. cbv iota.
  do 2 (apply wp_bind, wp_rr). do 5 (apply wp_bind, wp_wreg). apply wp_wreg. unfold syscall_entry.
  apply wp_bind, wp_rr, wp_bind, wp_modify, wp_bind, wp_get, wp_bind, wp_wreg, wp_bind, wp_rr. msimpl.
  apply wp_bind, (wp_deref _ _ t); [msimpl; exact Ht|exact Hc0|]. rewrite Htop. apply wp_bind, wp_wreg.
  apply wp_bind, (wp_push _ top n []); [msimpl; unfold sp; simpl; lia|exact Hf|simpl; lia|]. intros w1 F1 O1.
  apply wp_bind, wp_get. apply wp_bind; eapply (wp_push _ top n); [msimpl; done|exact F1|simpl; lia|]. intros w2 F2 O2.
  apply wp_bind; eapply (wp_push_reg _ top n); [msimpl; done|exact F2|simpl; lia|]. intros w3 F3 O3.
  apply wp_bind; eapply (wp_push _ top n); [msimpl; done|exact F3|simpl; lia|]. intros w4 F4 O4.
  apply wp_bind; eapply (wp_push_reg _ top n); [msimpl; done|exact F4|simpl; lia|]. intros w5 F5 O5.
  apply wp_bind, wp_rr, wp_bind, wp_wreg. msimpl. msimpl in F5. apply HQ; msimpl; try done.
  - eapply outside_trans; [exact O1|]. eapply outside_trans; [exact O2|]. eapply outside_trans; [exact O3|].
    eapply outside_trans; [exact O4|exact O5].
  - rewrite Z.lor_spec. apply orb_true_r.
  - intros r Hr. by destruct r.
Qed.

(** A call other than fork, and a number out of range. *)
Lemma wp_plain_syscall s top n (P : Z → Prop) :
  enabled s → has_stack s top n → (6 ≤ n)%nat → 0 ≤ regs s RAX → regs s RAX ≠ SYSCALL_FORK →
  (∀ f, syscall_list !! Z.to_nat (regs s RAX) = Some f → abi top n (syscall_fn f) P) →
  (NUM_SYSCALLS ≤ regs s RAX → P ENOSYS) →
  wp (syscall_insn;; entry) s (λ _ s', ∃ v, P v ∧ returned (regs s) (regs s') v).
Proof.
  intros He Hs Hn H0 Hnf Habi Hbad. apply (wp_enter s top n); [done..|lia|]. intros s1 Hsp Hf Ho Hrcx Ht Hc _ _ _ _ Hsame.
  assert (regs s1 RAX = regs s RAX) as Erax by (by apply Hsame). apply wp_bind, wp_rr. rewrite Erax.
  unfold status. apply wp_bind, wp_bind, wp_rr, wp_wreg.
  assert (∀ r, reg_in r [RBX; RBP; R12; R13; R14; R15] = true → regs s1 r = regs s r) as Hsv.
  { intros r Hr. apply Hsame. by destruct r. }
  destruct (Z.leb_spec NUM_SYSCALLS (regs s RAX)) as [Hge|Hlt].
  - apply wp_bind, wp_wreg. eapply (wp_done _ top n []); [rewrite app_nil_r; exact Hsp|rewrite app_nil_r; exact Hf|].
    intros s' _ Hr H1 H2 H3 H4 H5 H6 H7. exists ENOSYS. split; [by apply Hbad|]. split; try done; [|by rewrite Hr].
    intros r Hr'. rewrite <-Hsv, Hr by (try done; by destruct r). by destruct r.
  - apply wp_bind, wp_bind, wp_rr, wp_wreg. rewrite (proj2 (Z.eqb_neq _ _) Hnf).
    destruct (lookup_lt_is_Some_2 syscall_list (Z.to_nat (regs s RAX))) as [f Hfn]; [unfold NUM_SYSCALLS in Hlt; lia|].
    rewrite Hfn. apply wp_bind. eapply (wp_call_abi _ _ _ _ top n); [exact Hsp|exact Hf|simpl; lia|by apply Habi|].
    intros v s3 Hv Hs3 Hf3. eapply (wp_done _ top n []); [rewrite app_nil_r; done|rewrite app_nil_r; exact Hf3|].
    intros s' _ Hr H1 H2 H3 H4 H5 H6 H7. exists v. split; [done|]. split; try done; [|by rewrite Hr].
    intros r Hr'. rewrite <-Hsv, Hr by (try done; by destruct r). unfold after_call.
    destruct r; try done; msimpl; by rewrite Hs3.
Qed.

Lemma wp_rdmsr s n (Q : unit → mach St → Prop) :
  regs s RCX = n → in_u 32 n →
  (∀ s', msrs s' = msrs s → regs s' RAX = u32 (default 0 (msrs s !! n)) → in_u 32 (regs s' RDX) → regs s' RCX = n → Q tt s') → wp rdmsr s Q.
Proof.
  intros Hn Hr HQ. unfold rdmsr. apply wp_bind, wp_rr, wp_bind, wp_get, wp_bind, wp_wreg, wp_wreg. rewrite Hn, (uwrap_id 32 n) by done.
  apply HQ; msimpl; try done. by apply uwrap_range.
Qed.

Lemma wp_wrmsr s n lo hi (Q : unit → mach St → Prop) :
  regs s RCX = n → regs s RAX = lo → regs s RDX = hi → in_u 32 n → in_u 32 lo → in_u 32 hi →
  (∀ s', msrs s' = <[n := Z.lor lo (Z.shiftl hi 32)]> (msrs s) → Q tt s') → wp wrmsr s Q.
Proof.
  intros Hn Hlo Hhi Rn Rlo Rhi HQ. unfold wrmsr. do 3 (apply wp_bind, wp_rr). apply wp_modify. apply HQ. msimpl.
  by rewrite Hn, Hlo, Hhi, !uwrap_id.
Qed.

Lemma pair_hi lo hi : in_u 32 lo → Z.shiftr (Z.lor lo (Z.shiftl hi 32)) 32 = hi.
Proof.
  intros Hlo. rewrite Z.shiftr_lor, Z.shiftr_shiftl_l by lia. rewrite Z.sub_diag, Z.shiftl_0_r.
  rewrite (Z.shiftr_div_pow2 lo), Z.div_small by (unfold in_u in Hlo; lia). done.
Qed.

Lemma pair_bit lo hi i : 0 ≤ i < 32 → Z.testbit (Z.lor lo (Z.shiftl hi 32)) i = Z.testbit lo i.
Proof. intros Hi. rewrite Z.lor_spec, Z.shiftl_spec, (Z.testbit_neg_r hi) by lia. apply orb_false_r. Qed.

(** Syscall_enable leaves the processor with the system call instructions
    enabled, entering syscall_entry with the kernel's code segment, interrupts
    off and the direction flag clear. *)
Theorem syscall_enable_correct s :
  in_u 64 syscall_entry_addr → wp (syscall_enable syscall_entry_addr true) s (λ _ s', enabled s').
Proof.
  intros Ha. unfold syscall_enable. simpl negb. cbv iota.
  apply wp_bind, wp_wreg, wp_bind, (wp_rdmsr _ IA32_STAR); [done..|]. intros s1 M1 A1 D1 C1.
  apply wp_bind, wp_wreg, wp_bind. eapply (wp_wrmsr _ IA32_STAR); [exact C1|exact A1|done|done|by apply uwrap_range|done|]. intros s2 M2.
  apply wp_bind, wp_wreg, wp_bind, (wp_rdmsr _ IA32_LSTAR); [done..|]. intros s3 M3 A3 D3 C3.
  apply wp_bind, wp_wreg, wp_bind, wp_rr, wp_bind, wp_wreg, wp_bind, wp_wreg, wp_bind, wp_rr, wp_bind, wp_wreg, wp_bind.
  eapply (wp_wrmsr _ IA32_LSTAR); [exact C3|msimpl; done|msimpl; done|done|by apply uwrap_range|by apply uwrap_range|]. intros s4 M4.
  apply wp_bind, wp_wreg, wp_bind, (wp_rdmsr _ IA32_EFER); [done..|]. intros s5 M5 A5 D5 C5.
  apply wp_bind, wp_rr, wp_bind, wp_wreg, wp_bind.
  eapply (wp_wrmsr _ IA32_EFER); [exact C5|msimpl; done|msimpl; done|done|by apply uwrap_range|exact D5|]. intros s6 M6.
  apply wp_bind, wp_wreg, wp_bind, (wp_rdmsr _ IA32_FMASK); [done..|]. intros s7 M7 A7 D7 C7.
  apply wp_bind, wp_rr, wp_bind, wp_wreg.
  eapply (wp_wrmsr _ IA32_FMASK); [exact C7|msimpl; done|msimpl; done|done|by apply uwrap_range|exact D7|]. intros s8 M8.
  msimpl in M1. msimpl in M2. msimpl in M3. msimpl in M4. msimpl in M5. msimpl in M6. msimpl in M7. msimpl in M8.
  rewrite M7, M6, M5, M4, M3, M2 in M8. clear M1 M2 M3 M4 M5 M6 M7.
  assert (∀ v i, 0 ≤ i < 32 → Z.testbit (u32 v) i = Z.testbit v i) as Hu by (intros; apply Z.mod_pow2_bits_low; lia).
  split; rewrite M8.
  - rewrite (lookup_insert_ne _ IA32_FMASK), lookup_insert_eq by done. simpl default. rewrite pair_bit, Hu, Z.lor_spec by lia. apply orb_true_r.
  - rewrite (lookup_insert_ne _ IA32_FMASK), (lookup_insert_ne _ IA32_EFER), (lookup_insert_ne _ IA32_LSTAR), lookup_insert_eq by done.
    simpl default. by rewrite pair_hi by (by apply uwrap_range).
  - rewrite (lookup_insert_ne _ IA32_FMASK), (lookup_insert_ne _ IA32_EFER), lookup_insert_eq by done. f_equal. by apply u64_halves.
  - rewrite lookup_insert_eq. simpl default. rewrite pair_bit, Hu, !Z.lor_spec by lia. apply orb_true_r.
  - rewrite lookup_insert_eq. simpl default. rewrite pair_bit, Hu, !Z.lor_spec by lia. apply orb_true_r.
Qed.
End syscalls.

(** ** New tasks *)

(** A [struct callee_regs] at [p]. *)
Record callee := mk_callee { c_rsp : Z; c_rbp : Z; c_rbx : Z; c_r12 : Z; c_r13 : Z; c_r14 : Z; c_r15 : Z }.
Definition callee_list (c : callee) : list Z := [c_rsp c; c_rbp c; c_rbx c; c_r12 c; c_r13 c; c_r14 c; c_r15 c].
Definition callee_at (w : gmap Z Z) (p : Z) (c : callee) : Prop :=
  0 < p ∧ ∀ i x, callee_list c !! i = Some x → w !! (p + 8 * Z.of_nat i) = Some x.
(** It does not lie on the stack. *)
Definition off_stack (p top : Z) (n : nat) : Prop := p + 56 ≤ top - 8 * Z.of_nat n ∨ top ≤ p.

Lemma callee_outside w w' p c top n : callee_at w p c → off_stack p top n → outside top n w w' → callee_at w' p c.
Proof.
  intros [H0 Hc] Hoff Ho. split; [done|]. intros i x Hx. rewrite Ho; [by apply Hc|].
  apply lookup_lt_Some in Hx. simpl in Hx. destruct Hoff; lia.
Qed.

Section forks.
Context {St : Type} {BC : BuildConfig} (mo : memory_ops (St := St)).
Context (kernel_mmu default_regs ret_from_ufork_addr ret_from_kfork_addr : Z).
Implicit Types s : mach St.

(** The calls of memory management a fork makes: the task, the pages of its
    stack, its address space. *)
Definition fork_memory (flags pm : Z) : M St (Z * Z * Z) :=
  t ← m_kmalloc mo SIZEOF_TASK;
  page ← m_pages mo TASK_KSTACK_ORDER;
  m ← (if negb (Z.land flags FORK_KTHREAD =? 0) then mret kernel_mmu
       else if negb (Z.land flags FORK_UTHREAD =? 0) then m_inc_users mo pm;; mret pm
       else m ← m_mmu_alloc mo; m_clone_cow mo m pm;; mret m);
  mret (t, page, m).

Lemma wp_push_to s top n l v (Q : Z → mach St → Prop) :
  frame_at (words s) top n l → (length l < n)%nat →
  (∀ w', frame_at w' top n (v :: l) → outside top n (words s) w' → Q (sp top (v :: l)) (upd_words (λ _, w') s)) →
  wp (push_to (sp top l) v) s Q.
Proof.
  intros Hf Hl HQ. unfold push_to.
  assert (u64 (sp top l - 8) = sp top (v :: l)) as ->.
  { rewrite sp_cons. apply uwrap_id. unfold in_u. destruct Hf. unfold sp. lia. }
  destruct (fr_room _ _ _ _ Hf (length l) Hl) as [x Hx].
  assert (top - 8 * (Z.of_nat (length l) + 1) = sp top (v :: l)) as E by (unfold sp; simpl length; lia). rewrite E in Hx.
  apply wp_bind. eapply (wp_store _ _ _ _ x); [exact Hx|destruct Hf; unfold sp; simpl length; lia|]. apply wp_ret.
  apply (HQ (<[sp top (v :: l) := v]> (words s))); [by apply frame_push|by apply push_outside].
Qed.

Lemma wp_field s p c (i : nat) x (Q : Z → mach St → Prop) :
  callee_at (words s) p c → callee_list c !! i = Some x → Q x s → wp (rdw (p + 8 * Z.of_nat i)) s Q.
Proof. intros [H0 Hc] Hx HQ. apply (wp_rdw _ _ x); [by apply Hc|lia|done]. Qed.

(** Reading a field and pushing it. *)
Lemma wp_push_field s p c (i : nat) x top n l {A} (k : Z → M (mach St) A) (Q : A → mach St → Prop) :
  callee_at (words s) p c → callee_list c !! i = Some x → off_stack p top n → frame_at (words s) top n l → (length l < n)%nat →
  (∀ w', callee_at w' p c → frame_at w' top n (x :: l) → outside top n (words s) w' →
     wp (k (sp top (x :: l))) (upd_words (λ _, w') s) Q) →
  wp (v ← rdw (p + 8 * Z.of_nat i); st ← push_to (sp top l) v; k st) s Q.
Proof.
  intros Hc Hx Hoff Hf Hl HQ. apply wp_bind. eapply wp_field; [done..|]. apply wp_bind, (wp_push_to _ top n l); [done..|].
  intros w' Hf' Ho. apply HQ; [|done..]. by eapply callee_outside.
Qed.

Lemma wp_push_callee s p c top n l (Q : Z → mach St → Prop) :
  callee_at (words s) p c → off_stack p top n → frame_at (words s) top n l → (length l + 6 ≤ n)%nat →
  (∀ w' l', l' = c_r15 c :: c_r14 c :: c_r13 c :: c_r12 c :: c_rbp c :: c_rbx c :: l →
     frame_at w' top n l' → outside top n (words s) w' → Q (sp top l') (upd_words (λ _, w') s)) →
  wp (push_callee (sp top l) p) s Q.
Proof.
  intros Hc Hoff Hf Hl HQ. unfold push_callee, cr_rbx, cr_rbp, cr_r12, cr_r13, cr_r14, cr_r15.
  eapply (wp_push_field s p c 2); [done|done|done|done|lia|]. intros w1 C1 F1 O1.
  eapply (wp_push_field _ p c 1); [done|done|done|done|simpl; lia|]. intros w2 C2 F2 O2.
  eapply (wp_push_field _ p c 3); [done|done|done|done|simpl; lia|]. intros w3 C3 F3 O3.
  eapply (wp_push_field _ p c 4); [done|done|done|done|simpl; lia|]. intros w4 C4 F4 O4.
  eapply (wp_push_field _ p c 5); [done|done|done|done|simpl; lia|]. intros w5 C5 F5 O5.
  apply wp_bind. eapply (wp_field _ p c 6); [done|done|]. apply (wp_push_to _ top n); [done|simpl; lia|]. intros w6 F6 O6.
  eapply HQ; [done|done|]. eapply outside_trans; [exact O1|]. eapply outside_trans; [exact O2|]. eapply outside_trans; [exact O3|].
  eapply outside_trans; [exact O4|]. eapply outside_trans; [exact O5|exact O6].
Qed.

(** Tasks: the new one is the last that was entered in the table. *)
Lemma wp_wr_new s t k T f (Q : unit → mach St → Prop) :
  tasks_ s = <[t := k]> T → t ≠ 0 → Q tt (upd_tasks_ (λ _, <[t := f k]> T) s) → wp (wr_tsk t f) s Q.
Proof.
  intros Ht H0 HQ. eapply (wp_store _ _ _ _ k); [by rewrite Ht, lookup_insert_eq|done|].
  unfold upd_tasks_ in *. by rewrite Ht, insert_insert_eq.
Qed.

Lemma wp_rd_old s t k T a p (Q : task → mach St → Prop) :
  tasks_ s = <[t := k]> T → T !! a = Some p → t ≠ a → a ≠ 0 → Q p s → wp (rd_tsk a) s Q.
Proof. intros Ht Ha Hne H0 HQ. apply (wp_deref _ _ p); [by rewrite Ht, lookup_insert_ne|done..]. Qed.

Definition fork_id (s : mach St) : Z := i32 (u32 (next_tid s + 1)).

(** What is on the stack of a new user task, and of a new kernel thread. *)
Definition saved_words (c : callee) : list Z := [c_r15 c; c_r14 c; c_r13 c; c_r12 c; c_rbp c; c_rbx c].
Definition user_stack (entry fl : Z) (c : callee) : list Z :=
  saved_words c ++ [ret_from_ufork_addr; entry; Z.lor 0x28 3; Z.lor fl 0x200; c_rsp c; Z.lor 0x20 3].
Definition kthread_stack (entry : Z) (c : callee) : list Z := saved_words c ++ [ret_from_kfork_addr; c_rbx c; entry].

(** The state after a fork that made the task [t] with address space [m] and
    the stack [l] on the pages at [page]. *)
Record forked (s : mach St) (p : task) (flags : Z) (n : nat) (l : list Z) (t page m : Z) (mm' : St) (s' : mach St) : Prop := {
  fk_tasks : tasks_ s' = <[t := mk_task (sp (TASK_KSTACK_SIZE + page) l) (TASK_KSTACK_SIZE + page) m flags
    TASK_S_NOT_STARTED (fork_id s) (fork_id s) (affinity p) 0 0]> (tasks_ s);
  fk_frame : frame_at (words s') (TASK_KSTACK_SIZE + page) n l;
  fk_words : outside (TASK_KSTACK_SIZE + page) n (words s) (words s');
  fk_regs : regs s' = regs s;
  fk_current : pc_current s' = pc_current s;
  fk_tid : next_tid s' = u32 (next_tid s + 1);
  fk_mm : mm s' = mm'
}.

(** The task, the pages and the address space are what a fork needs: the task
    is new, and the stack has room and lies apart from the registers. *)
Definition fork_room (s : mach St) (rp : Z) (n : nat) (r : Z * Z * Z) : Prop :=
  let '(t, page, m) := r in
  t ≠ 0 ∧ tasks_ s !! t = None ∧ frame_at (words s) (TASK_KSTACK_SIZE + page) n [] ∧ off_stack rp (TASK_KSTACK_SIZE + page) n.

Lemma wp_on_mm {A} (f : M St A) s x st (Q : A → mach St → Prop) :
  f (mm s) = Ok (x, st) → Q x (upd_mm st s) → wp (on_mm f) s Q.
Proof. intros E HQ. apply wp_zoom. unfold wp. by rewrite E. Qed.

(** The first half, the same for all kinds of tasks. *)
Lemma wp_fork_begin s parent p flags rp n t page m st (k : Z → Z → Z → M (mach St) Z) (Q : Z → mach St → Prop) :
  parent ≠ 0 → tasks_ s !! parent = Some p → fork_room s rp n (t, page, m) →
  (Z.land flags FORK_KTHREAD = 0 ∨ Z.land flags FORK_UTHREAD = 0) →
  fork_memory flags (t_mmu p) (mm s) = Ok ((t, page, m), st) →
  (∀ st2,
     (if negb (Z.land flags FORK_KTHREAD =? 0) then mret kernel_mmu
      else if negb (Z.land flags FORK_UTHREAD =? 0) then m_inc_users mo (t_mmu p);; mret (t_mmu p)
      else m ← m_mmu_alloc mo; m_clone_cow mo m (t_mmu p);; mret m) st2 = Ok (m, st) →
     wp (k parent t (TASK_KSTACK_SIZE + page)) (upd_mm st2 (upd_tid (u32 (next_tid s + 1)) (upd_tasks_ (λ _,
       <[t := mk_task 0 (TASK_KSTACK_SIZE + page) 0 (t_flags p) TASK_S_NOT_STARTED (fork_id s) (fork_id s) 0 0 0]> (tasks_ s)) s))) Q) →
  wp (parent ← (if parent =? NULL then s ← get; mret (pc_current s) else mret parent);
      kassert_dbg (negb (negb (Z.land flags FORK_KTHREAD =? 0) && negb (Z.land flags FORK_UTHREAD =? 0)));;
      t ← new_task mo;
      p ← rd_tsk parent; wr_tsk t (set_flags (t_flags p));;
      s ← get; let id := u32 (next_tid s + 1) in modify (upd_tid id);;
      wr_tsk t (set_ids (i32 id) (i32 id));;
      page ← on_mm (m_pages mo TASK_KSTACK_ORDER);
      let kstack := u64 (TASK_KSTACK_SIZE + page) in
      wr_tsk t (set_rsp_original kstack);;
      k parent t kstack) s Q.
Proof.
  intros Hp0 Hp (Ht0 & Htn & Hf & _) Hor Hm HQ. unfold fork_memory in Hm.
  apply bind_ok in Hm as (t' & st1 & H1 & Hm). apply bind_ok in Hm as (page' & st2 & H2 & Hm).
  apply bind_ok in Hm as (m' & st3 & H3 & [= -> -> -> ->]). specialize (HQ st2 H3).
  assert (t ≠ parent) as Hne by congruence.
  rewrite (proj2 (Z.eqb_neq parent NULL) Hp0). apply wp_bind, wp_ret, wp_bind, wp_kassert_dbg.
  { by destruct Hor as [-> | ->]; [|rewrite andb_comm]. }
  apply wp_bind. unfold new_task. apply wp_bind. eapply wp_on_mm; [exact H1|]. rewrite (proj2 (Z.eqb_neq t NULL) Ht0).
  apply wp_bind, wp_modify, wp_ret. apply wp_bind. eapply (wp_rd_old _ t zero_task); [done|exact Hp|done|done|].
  apply wp_bind. eapply (wp_wr_new _ t); [done|done|]. apply wp_bind, wp_get, wp_bind, wp_modify.
  apply wp_bind. eapply (wp_wr_new _ t); [done|done|]. apply wp_bind. eapply wp_on_mm; [exact H2|].
  rewrite (uwrap_id 64) by (destruct Hf; unfold in_u; lia). apply wp_bind. eapply (wp_wr_new _ t); [done|done|]. exact HQ.
Qed.

(** The second half. *)
Definition fork_end (parent t stack rp : Z) : M (mach St) Z :=
  stack ← push_callee stack rp;
  wr_tsk t (set_rsp_top stack);;
  p ← rd_tsk parent; wr_tsk t (set_affinity (affinity p));;
  wr_tsk t (set_state TASK_S_NOT_STARTED);;
  mret t.

Lemma wp_fork_end s parent p t k T rp c top n l (Q : Z → mach St → Prop) :
  tasks_ s = <[t := k]> T → T !! parent = Some p → t ≠ 0 → parent ≠ 0 → t ≠ parent →
  callee_at (words s) rp c → off_stack rp top n → frame_at (words s) top n l → (length l + 6 ≤ n)%nat →
  (∀ w', frame_at w' top n (saved_words c ++ l) → outside top n (words s) w' →
     Q t (upd_tasks_ (λ _, <[t := set_state TASK_S_NOT_STARTED (set_affinity (affinity p) (set_rsp_top (sp top (saved_words c ++ l)) k))]> T)
       (upd_words (λ _, w') s))) →
  wp (fork_end parent t (sp top l) rp) s Q.
Proof.
  intros Ht Hp Ht0 Hp0 Hne Hc Hoff Hf Hl HQ. unfold fork_end. apply wp_bind.
  apply (wp_push_callee s rp c top n l); [done..|]. intros w' l' -> Hf' Ho.
  apply wp_bind. eapply (wp_wr_new _ t); [msimpl; exact Ht|done|]. apply wp_bind. eapply (wp_rd_old _ t); [msimpl; done|exact Hp|done|done|].
  apply wp_bind. eapply (wp_wr_new _ t); [msimpl; done|done|].
  apply wp_bind. eapply (wp_wr_new _ t); [msimpl; done|done|]. apply wp_ret. by apply (HQ w').
Qed.

(** The address space: shared with the parent or copied from it. *)
Lemma wp_fork_space s parent p t k T flags m st (Q : unit → mach St → Prop) :
  tasks_ s = <[t := k]> T → T !! parent = Some p → t ≠ 0 → parent ≠ 0 → t ≠ parent →
  (if negb (Z.land flags FORK_UTHREAD =? 0) then m_inc_users mo (t_mmu p);; mret (t_mmu p)
   else m ← m_mmu_alloc mo; m_clone_cow mo m (t_mmu p);; mret m) (mm s) = Ok (m, st) →
  Q tt (upd_tasks_ (λ _, <[t := set_tmmu m k]> T) (upd_mm st s)) →
  wp (if negb (Z.land flags FORK_UTHREAD =? 0) then
        p ← rd_tsk parent; on_mm (m_inc_users mo (t_mmu p));;
        p ← rd_tsk parent; wr_tsk t (set_tmmu (t_mmu p))
      else
        m ← on_mm (m_mmu_alloc mo); wr_tsk t (set_tmmu m);;
        k ← rd_tsk t; p ← rd_tsk parent; on_mm (m_clone_cow mo (t_mmu k) (t_mmu p))) s Q.
Proof.
  intros Ht Hp Ht0 Hp0 Hne Hm HQ. destruct (negb (Z.land flags FORK_UTHREAD =? 0)).
  - apply bind_ok in Hm as ([] & st1 & H1 & [= <- <-]). apply wp_bind. eapply (wp_rd_old _ t); [done..|].
    apply wp_bind. eapply wp_on_mm; [exact H1|]. apply wp_bind. eapply (wp_rd_old _ t); [msimpl; exact Ht|done..|].
    eapply (wp_wr_new _ t); [msimpl; exact Ht|done|]. exact HQ.
  - apply bind_ok in Hm as (m' & st1 & H1 & Hm). apply bind_ok in Hm as ([] & st2 & H2 & [= <- <-]).
    apply wp_bind. eapply wp_on_mm; [exact H1|]. apply wp_bind. eapply (wp_wr_new _ t); [msimpl; exact Ht|done|].
    apply wp_bind. eapply (wp_deref _ _ (set_tmmu m' k)); [msimpl; apply lookup_insert_eq|done|].
    apply wp_bind. eapply (wp_rd_old _ t); [msimpl; done|done..|]. eapply wp_on_mm; [exact H2|]. exact HQ.
Qed.

Lemma wp_task_fork_user s parent p entry flags rp c n t page m st :
  parent ≠ 0 → tasks_ s !! parent = Some p → Z.land flags FORK_KTHREAD = 0 → callee_at (words s) rp c → (12 ≤ n)%nat →
  fork_memory flags (t_mmu p) (mm s) = Ok ((t, page, m), st) → fork_room s rp n (t, page, m) →
  wp (task_fork mo kernel_mmu default_regs ret_from_ufork_addr ret_from_kfork_addr parent entry flags rp) s (λ t' s', t' = t ∧
    forked s p (Z.land (t_flags p) (u64 (Z.lnot TASK_KTHREAD))) n (user_stack entry (regs s RFLAGS) c) t page m st s').
Proof.
  intros Hp0 Hp Hfl Hc Hn Hm Hroom. unfold task_fork. eapply (wp_fork_begin s parent p flags rp n t page m st
    (λ parent t kstack, '(stack, rp) ← (if negb (Z.land flags FORK_KTHREAD =? 0) then fork_kthread kernel_mmu default_regs ret_from_kfork_addr t kstack entry rp
                  else fork_user mo ret_from_ufork_addr parent t kstack entry flags rp); fork_end parent t stack rp)); [done..|by left|done|].
  destruct Hroom as (Ht0 & Htn & Hf & Hoff). assert (t ≠ parent) as Hne by congruence.
  intros st2 Hm2. rewrite Hfl in *. simpl negb in *. cbv iota in *. apply wp_bind. unfold fork_user.
  apply wp_bind, wp_kassert_dbg; [destruct Hc as [? _]; apply negb_true_iff, Z.eqb_neq; lia|].
  apply wp_bind. eapply (wp_wr_new _ t); [msimpl; done|done|]. msimpl. apply wp_bind.
  eapply (wp_fork_space _ parent p t); [msimpl; done|done|done|done|done|exact Hm2|]. msimpl.
  set (top := TASK_KSTACK_SIZE + page) in *. assert (top = sp top []) as Etop by (unfold sp; simpl; lia). rewrite Etop at 1.
  apply wp_bind. eapply (wp_push_to _ top n); [exact Hf|simpl; lia|]. intros w1 F1 O1.
  unfold cr_rsp. replace rp with (rp + 8 * Z.of_nat 0) at 1 by lia.
  eapply (wp_push_field _ rp c 0); [by eapply callee_outside|done|done|exact F1|simpl; lia|]. intros w2 C2 F2 O2.
  apply wp_bind, wp_rr. msimpl.
  apply wp_bind. eapply (wp_push_to _ top n); [exact F2|simpl; lia|]. intros w3 F3 O3.
  apply wp_bind. eapply (wp_push_to _ top n); [exact F3|simpl; lia|]. intros w4 F4 O4.
  apply wp_bind. eapply (wp_push_to _ top n); [exact F4|simpl; lia|]. intros w5 F5 O5.
  apply wp_bind. eapply (wp_push_to _ top n); [exact F5|simpl; lia|]. intros w6 F6 O6. apply wp_ret.
  assert (outside top n (words s) w6) as O.
  { eapply outside_trans; [exact O1|]. eapply outside_trans; [exact O2|]. eapply outside_trans; [exact O3|].
    eapply outside_trans; [exact O4|]. eapply outside_trans; [exact O5|exact O6]. }
  eapply (wp_fork_end _ parent p t); [msimpl; done|done|done|done|done|eapply (callee_outside _ _ _ c); [exact Hc|exact Hoff|exact O]|done|exact F6|simpl; lia|].
  intros w' F' O'. split; [done|]. split; msimpl; try done. by eapply outside_trans.
Qed.

Lemma wp_task_fork_kthread s parent p entry flags rp c n t page m st :
  let rp' := if rp =? NULL then default_regs else rp in
  parent ≠ 0 → tasks_ s !! parent = Some p → Z.land flags FORK_KTHREAD ≠ 0 → Z.land flags FORK_UTHREAD = 0 →
  callee_at (words s) rp' c → (9 ≤ n)%nat →
  fork_memory flags (t_mmu p) (mm s) = Ok ((t, page, m), st) → fork_room s rp' n (t, page, m) →
  wp (task_fork mo kernel_mmu default_regs ret_from_ufork_addr ret_from_kfork_addr parent entry flags rp) s (λ t' s', t' = t ∧
    forked s p (Z.lor (t_flags p) TASK_KTHREAD) n (kthread_stack entry c) t page kernel_mmu st s').
Proof.
  intros rp' Hp0 Hp Hfl Hfu Hc Hn Hm Hroom. unfold task_fork. eapply (wp_fork_begin s parent p flags rp' n t page m st
    (λ parent t kstack, '(stack, rp) ← (if negb (Z.land flags FORK_KTHREAD =? 0) then fork_kthread kernel_mmu default_regs ret_from_kfork_addr t kstack entry rp
                  else fork_user mo ret_from_ufork_addr parent t kstack entry flags rp); fork_end parent t stack rp)); [done..|by right|done|].
  destruct Hroom as (Ht0 & Htn & Hf & Hoff). assert (t ≠ parent) as Hne by congruence.
  intros st2 Hm2. rewrite (proj2 (Z.eqb_neq _ _) Hfl) in *. simpl negb in *. cbv iota in *. injection Hm2 as <- ->.
  apply wp_bind. unfold fork_kthread. fold rp'.
  apply wp_bind. eapply (wp_wr_new _ t); [msimpl; done|done|]. apply wp_bind. eapply (wp_wr_new _ t); [msimpl; done|done|]. msimpl.
  set (top := TASK_KSTACK_SIZE + page) in *. assert (top = sp top []) as Etop by (unfold sp; simpl; lia). rewrite Etop at 1.
  apply wp_bind. eapply (wp_push_to _ top n); [exact Hf|simpl; lia|]. intros w1 F1 O1. unfold cr_rbx.
  eapply (wp_push_field _ rp' c 2); [eapply (callee_outside _ _ _ c); [exact Hc|exact Hoff|exact O1]|done|done|exact F1|simpl; lia|].
  intros w2 C2 F2 O2. apply wp_bind. eapply (wp_push_to _ top n); [exact F2|simpl; lia|]. intros w3 F3 O3. apply wp_ret.
  assert (outside top n (words s) w3) as O.
  { eapply outside_trans; [exact O1|]. eapply outside_trans; [exact O2|exact O3]. }
  eapply (wp_fork_end _ parent p t);
    [msimpl; done|done|done|done|done|eapply (callee_outside _ _ _ c); [exact Hc|exact Hoff|exact O]|done|exact F3|simpl; lia|].
  intros w' F' O'. split; [done|]. split; msimpl; try done. by eapply outside_trans.
Qed.
End forks.

(** ** Switching *)

(** The words [switch_to] pushes, and the registers it restores from them. *)
Definition reg_words (f : regfile) : list Z := [f R15; f R14; f R13; f R12; f RBP; f RBX].
Definition apart_stacks (top0 : Z) (n0 : nat) (top1 : Z) (n1 : nat) : Prop :=
  top0 ≤ top1 - 8 * Z.of_nat n1 ∨ top1 ≤ top0 - 8 * Z.of_nat n0.

Section switch.
Context {St : Type} {BC : BuildConfig} (ret_addr : Z) (junk : regfile) (alu : Z → Z) (mmu_switch_ : Z → Z → M St unit).
Implicit Types s : mach St.

Abbreviation switch_ := (switch_to_asm ret_addr junk alu mmu_switch_).

Lemma wp_switch_restore s top n v15 v14 v13 v12 vbp vbx ra l (Q : unit → mach St → Prop) :
  regs s RSP = sp top (v15 :: v14 :: v13 :: v12 :: vbp :: vbx :: ra :: l) →
  frame_at (words s) top n (v15 :: v14 :: v13 :: v12 :: vbp :: vbx :: ra :: l) →
  (∀ f', reg_words f' = [v15; v14; v13; v12; vbp; vbx] → f' RIP = ra → f' RSP = sp top l →
     (∀ r, reg_in r [R15; R14; R13; R12; RBP; RBX; RIP; RSP] = false → f' r = regs s r) → frame_at (words s) top n l →
     Q tt (upd_regs (λ _, f') s)) →
  wp switch_restore s Q.
Proof.
  intros Hsp Hf HQ. unfold switch_restore, ret_.
  apply wp_bind. eapply (wp_pop _ top n); [exact Hsp|exact Hf|]. intros F1.
  do 5 (apply wp_bind; eapply (wp_pop _ top n); [msimpl; done|eassumption|]; clear F1; intros F1).
  eapply (wp_pop _ top n); [msimpl; done|eassumption|]. clear F1. intros F1.
  refine (HQ (setr RIP ra _) _ _ _ _ F1); try done. intros r Hr. by destruct r.
Qed.

(** Everything a switch from the current task to [t] needs: the two tasks,
    their stacks, and a return of [mmu_switch]. *)
Record can_switch (s : mach St) (t : Z) (nt ct : task) (top0 : Z) (n0 : nat) (l0 : list Z) (top1 : Z) (n1 : nat) (l1 : list Z) (st : St) : Prop := {
  cs_new : tasks_ s !! t = Some nt;
  cs_old : tasks_ s !! pc_current s = Some ct;
  cs_null : t ≠ 0 ∧ pc_current s ≠ 0 ∧ t ≠ pc_current s;
  cs_rdi : regs s RDI = t;
  cs_rsp : regs s RSP = sp top0 l0;
  cs_stack0 : frame_at (words s) top0 n0 l0;
  cs_room0 : (length l0 + 6 ≤ n0)%nat;
  cs_top : rsp_top nt = sp top1 l1;
  cs_stack1 : frame_at (words s) top1 n1 l1;
  cs_room1 : (length l1 < n1)%nat;
  cs_apart : apart_stacks top0 n0 top1 n1;
  cs_mmu : mmu_switch_ (t_mmu nt) (t_mmu ct) (mm s) = Ok (tt, st)
}.

Lemma wp_switch_asm s t nt ct top0 n0 l0 top1 n1 v15 v14 v13 v12 vbp vbx ra l1 st :
  can_switch s t nt ct top0 n0 l0 top1 n1 (v15 :: v14 :: v13 :: v12 :: vbp :: vbx :: ra :: l1) st →
  wp switch_ s (λ _ s',
    (reg_words (regs s') = [v15; v14; v13; v12; vbp; vbx] ∧ regs s' RIP = ra ∧ regs s' RSP = sp top1 l1) ∧
    frame_at (words s') top0 n0 (reg_words (regs s) ++ l0) ∧ frame_at (words s') top1 n1 l1 ∧
    tasks_ s' = <[pc_current s := set_rsp_top (sp top0 (reg_words (regs s) ++ l0)) ct]> (tasks_ s) ∧
    pc_current s' = t ∧ pc_rsp0 s' = rsp_original nt ∧ mm s' = st).
Proof.
  intros [Hn Ho (Ht0 & Hc0 & Hne) Hrdi Hsp Hf0 Hl0 Htop Hf1 Hl1 Hap Hm]. unfold switch_to_asm.
  apply wp_bind. eapply (wp_push_reg _ top0 n0); [exact Hsp|exact Hf0|simpl; lia|]. intros w1 F1 O1.
  apply wp_bind. eapply (wp_push_reg _ top0 n0); [msimpl; done|exact F1|simpl; lia|]. intros w2 F2 O2.
  apply wp_bind. eapply (wp_push_reg _ top0 n0); [msimpl; done|exact F2|simpl; lia|]. intros w3 F3 O3.
  apply wp_bind. eapply (wp_push_reg _ top0 n0); [msimpl; done|exact F3|simpl; lia|]. intros w4 F4 O4.
  apply wp_bind. eapply (wp_push_reg _ top0 n0); [msimpl; done|exact F4|simpl; lia|]. intros w5 F5 O5.
  apply wp_bind. eapply (wp_push_reg _ top0 n0); [msimpl; done|exact F5|simpl; lia|]. intros w6 F6 O6.
  msimpl in F6. change (frame_at w6 top0 n0 (reg_words (regs s) ++ l0)) in F6.
  assert (frame_at w6 top1 n1 (v15 :: v14 :: v13 :: v12 :: vbp :: vbx :: ra :: l1)) as G.
  { eapply (frame_outside _ _ _ _ _ top0 n0); [exact Hf1| |destruct Hap; [by right|by left]].
    eapply outside_trans; [exact O1|]. eapply outside_trans; [exact O2|]. eapply outside_trans; [exact O3|].
    eapply outside_trans; [exact O4|]. eapply outside_trans; [exact O5|exact O6]. }
  clear O1 O2 O3 O4 O5 O6 F1 F2 F3 F4 F5.
  apply wp_bind, wp_get, wp_bind, wp_wreg, wp_bind, wp_rr, wp_bind, wp_rr. msimpl.
  apply wp_bind. eapply (wp_store _ _ _ _ ct); [msimpl; exact Ho|exact Hc0|].
  set (ct' := set_rsp_top _ ct). assert (∀ T, <[pc_current s := ct']> (tasks_ s) = T → T !! t = Some nt) as Hnt by (intros T <-; by rewrite lookup_insert_ne).
  apply wp_bind, wp_rr. msimpl. rewrite Hrdi.
  apply wp_bind, (wp_deref _ _ nt); [by apply Hnt|done|]. apply wp_bind, wp_wreg, wp_bind, wp_get, wp_bind, wp_wreg, wp_bind, wp_modify.
  apply wp_bind, (wp_deref _ _ nt); [by apply Hnt|done|]. apply wp_bind, wp_wreg, wp_bind, wp_rr, wp_bind, wp_modify.
  apply wp_bind, (wp_deref _ _ nt); [by apply Hnt|done|]. apply wp_bind, wp_rr. msimpl.
  apply wp_bind, (wp_deref _ _ ct'); [msimpl; apply lookup_insert_eq|done|]. apply wp_bind, wp_wreg, wp_bind, wp_wreg, wp_bind, wp_rr, wp_bind, wp_rr.
  msimpl. apply wp_bind. eapply (wp_call_c _ _ _ _ top1 n1); [msimpl; exact Htop|exact G|exact Hl1|]. intros w7 F7 O7.
  apply wp_bind. eapply wp_on_mm; [exact Hm|]. apply wp_ret. msimpl. split; [done|]. split; [exact F7|]. intros F8.
  apply wp_bind, wp_get, wp_bind, wp_modify. unfold after_call.
  eapply (wp_switch_restore _ top1 n1); [msimpl; done|exact F8|]. intros f' H1 H2 H3 _ F9. msimpl. split_and!; try done.
  eapply (frame_outside _ _ _ _ _ top1 n1); [exact F6|exact O7|]. destruct Hap; [by left|by right].
Qed.

(** C14: A task that switches away comes back as it left.  After its switch to
    another task, a later switch to it, in any state that has its task record
    and its stack as they were left, returns to the caller of the first switch
    with the saved registers and the stack pointer of that call. *)
Theorem switch_roundtrip s t nt ct top0 n0 ra0 l0 top1 n1 v15 v14 v13 v12 vbp vbx ra l1 st :
  can_switch s t nt ct top0 n0 (ra0 :: l0) top1 n1 (v15 :: v14 :: v13 :: v12 :: vbp :: vbx :: ra :: l1) st →
  (length l0 + 8 ≤ n0)%nat →
  wp switch_ s (λ _ s1, ∀ s2 bt topb nb lb st2,
    tasks_ s2 !! pc_current s = tasks_ s1 !! pc_current s →
    (∀ a, top0 - 8 * Z.of_nat n0 ≤ a < top0 → words s2 !! a = words s1 !! a) →
    tasks_ s2 !! pc_current s2 = Some bt → pc_current s2 ≠ 0 → pc_current s ≠ pc_current s2 →
    regs s2 RDI = pc_current s → regs s2 RSP = sp topb lb → frame_at (words s2) topb nb lb → (length lb + 6 ≤ nb)%nat →
    apart_stacks topb nb top0 n0 → mmu_switch_ (t_mmu ct) (t_mmu bt) (mm s2) = Ok (tt, st2) →
    wp switch_ s2 (λ _ s3,
      reg_words (regs s3) = reg_words (regs s) ∧ regs s3 RIP = ra0 ∧ regs s3 RSP = sp top0 l0 ∧
      frame_at (words s3) top0 n0 l0 ∧ pc_current s3 = pc_current s ∧ pc_rsp0 s3 = rsp_original ct)).
Proof.
  intros Hcs Hroom. pose proof (cs_null _ _ _ _ _ _ _ _ _ _ _ Hcs) as (_ & Hc0 & _).
  eapply wp_mono; [by eapply wp_switch_asm|]. intros _ s1 (_ & Hf & _ & Ht & _).
  intros s2 bt topb nb lb st2 Ht2 Hw2 Hb Hb0 Hne Hrdi Hsp Hfb Hlb Hap Hm. rewrite Ht, lookup_insert_eq in Ht2.
  eapply wp_mono.
  - eapply wp_switch_asm. split; [exact Ht2|exact Hb|done|exact Hrdi|exact Hsp|exact Hfb|exact Hlb|reflexivity| | |exact Hap|exact Hm].
    + destruct Hf as [Hr Hwd Hfit Hlo Hhi]. split; [| |done|done|done].
      * intros k Hk. rewrite Hw2 by lia. by apply Hr.
      * intros i x Hx. rewrite Hw2; [by apply Hwd|]. apply lookup_lt_Some in Hx. unfold sp. simpl length in *. lia.
    + simpl. lia.
  - intros _ s3 ((H1 & H2 & H3) & _ & H4 & _ & H5 & H6 & _). split_and!; done.
Qed.
End switch.

Section starts.
Context {St : Type} {BC : BuildConfig} (mo : memory_ops (St := St)).
Context (kernel_mmu default_regs ret_from_ufork_addr ret_from_kfork_addr ret_addr : Z) (junk : regfile) (alu : Z → Z).
Context (mmu_switch_ : Z → Z → M St unit).
Implicit Types s : mach St.

(** A switch to a new task goes on at one of the two ends of fork.asm. *)
Definition start_new : M (mach St) unit :=
  ip ← rr RIP;
  if ip =? ret_from_ufork_addr then ret_from_ufork
  else if ip =? ret_from_kfork_addr then ret_from_kfork ret_addr else mret tt.

(** Forking a task and switching to it. *)
Definition fork_and_run (parent entry flags rp : Z) : M (mach St) unit :=
  t ← task_fork mo kernel_mmu default_regs ret_from_ufork_addr ret_from_kfork_addr parent entry flags rp;
  wr RDI t;; switch_to_asm ret_addr junk alu mmu_switch_;; start_new.

(** A fork by the running task can be carried out, with the task [t] and the
    stack on the pages at [page] as its result. *)
Record can_fork (s : mach St) (parent : Z) (p ct : task) (flags rp : Z) (c : callee) (top0 : Z) (n0 : nat) (l0 : list Z)
    (n t page m : Z) (st st' : St) : Prop := {
  cf_parent : parent ≠ 0 ∧ tasks_ s !! parent = Some p;
  cf_current : pc_current s ≠ 0 ∧ tasks_ s !! pc_current s = Some ct;
  cf_regs : callee_at (words s) rp c;
  cf_room : fork_room s rp (Z.to_nat n) (t, page, m);
  cf_memory : fork_memory mo kernel_mmu flags (t_mmu p) (mm s) = Ok ((t, page, m), st);
  cf_stack : regs s RSP = sp top0 l0 ∧ frame_at (words s) top0 n0 l0 ∧ (length l0 + 6 ≤ n0)%nat;
  cf_apart : apart_stacks top0 n0 (TASK_KSTACK_SIZE + page) (Z.to_nat n);
  cf_size : 16 ≤ n;
  cf_mmu : mmu_switch_ m (t_mmu ct) st = Ok (tt, st')
}.

(** After the fork the machine can switch to the new task. *)
Lemma forked_can_switch s p ct flags n t page m st st' l top0 n0 l0 s' :
  forked s p flags n l t page m st s' → t ≠ 0 → tasks_ s !! t = None →
  pc_current s ≠ 0 → tasks_ s !! pc_current s = Some ct → regs s RSP = sp top0 l0 → frame_at (words s) top0 n0 l0 →
  (length l0 + 6 ≤ n0)%nat → apart_stacks top0 n0 (TASK_KSTACK_SIZE + page) n → (length l < n)%nat →
  mmu_switch_ m (t_mmu ct) st = Ok (tt, st') →
  can_switch mmu_switch_ (upd_regs (setr RDI t) s') t
    (mk_task (sp (TASK_KSTACK_SIZE + page) l) (TASK_KSTACK_SIZE + page) m flags TASK_S_NOT_STARTED (fork_id s) (fork_id s) (affinity p) 0 0)
    ct top0 n0 l0 (TASK_KSTACK_SIZE + page) n l st'.
Proof.
  intros [Ht Hf Hw Hr Hc _ Hm] Ht0 Htn Hc0 Hct Hsp Hf0 Hl0 Hap Hl Hmm. assert (t ≠ pc_current s) as Hne by congruence.
  split; msimpl; rewrite ?Ht, ?Hc, ?Hr, ?Hm; try done.
  - apply lookup_insert_eq.
  - by rewrite lookup_insert_ne.
  - eapply frame_outside; [exact Hf0|exact Hw|]. destruct Hap; [by left|by right].
Qed.

(** C15: Fork, seen from the child: a forked user task that is switched to is
    in user mode at the address it was given, with the saved registers and
    stack pointer of its parent, zero in RAX and interrupts enabled, and the
    CPU enters the kernel on its stack. *)
Theorem fork_child_starts s parent p ct entry flags rp c top0 n0 l0 n t page m st st' :
  can_fork s parent p ct flags rp c top0 n0 l0 n t page m st st' → Z.land flags FORK_KTHREAD = 0 →
  wp (fork_and_run parent entry flags rp) s (λ _ s',
    regs s' RIP = entry ∧ regs s' RSP = c_rsp c ∧ regs s' RAX = 0 ∧ reg_words (regs s') = saved_words c ∧
    regs s' CS = Z.lor GDT_USER_CODE 3 ∧ regs s' SS = Z.lor GDT_USER_DATA 3 ∧ Z.testbit (regs s' RFLAGS) 9 = true ∧
    pc_current s' = t ∧ pc_rsp0 s' = TASK_KSTACK_SIZE + page).
Proof.
  intros [(Hp0 & Hp) (Hc0 & Hct) Hrg Hroom Hm (Hsp & Hf0 & Hl0) Hap Hn Hmm] Hfl. pose proof Hroom as (Ht0 & Htn & _).
  unfold fork_and_run. apply wp_bind. eapply wp_mono.
  { eapply (wp_task_fork_user mo kernel_mmu default_regs ret_from_ufork_addr ret_from_kfork_addr s); [done|done|done|exact Hrg| |exact Hm|exact Hroom]. lia. }
  intros t' s1 [-> Hk]. apply wp_bind, wp_wreg, wp_bind. eapply wp_mono.
  { eapply wp_switch_asm, forked_can_switch; [exact Hk|done|done|done|exact Hct|exact Hsp|exact Hf0|done|exact Hap| |exact Hmm]. simpl. lia. }
  intros _ s2 ((H1 & H2 & H3) & _ & F & _ & Hcur & Hr0 & _). unfold start_new. apply wp_bind, wp_rr. rewrite H2, Z.eqb_refl.
  unfold ret_from_ufork. apply wp_bind, wp_wreg. eapply (wp_iretq _ (TASK_KSTACK_SIZE + page) (Z.to_nat n)); [msimpl; exact H3|exact F|].
  msimpl. split_and!; try done. rewrite Z.lor_spec. apply orb_true_r.
Qed.

(** A new kernel thread that is switched to calls its function with the
    argument it was created with, on its own stack and with the saved
    registers it was given. *)
Theorem kthread_starts s parent p ct entry flags rp c top0 n0 l0 n t page m st st' :
  can_fork s parent p ct flags rp c top0 n0 l0 n t page m st st' → rp ≠ 0 →
  Z.land flags FORK_KTHREAD ≠ 0 → Z.land flags FORK_UTHREAD = 0 → ret_from_kfork_addr ≠ ret_from_ufork_addr →
  wp (fork_and_run parent entry flags rp) s (λ _ s',
    regs s' RIP = entry ∧ regs s' RDI = c_rbx c ∧ reg_words (regs s') = saved_words c ∧
    regs s' RSP = sp (TASK_KSTACK_SIZE + page) [ret_addr] ∧ frame_at (words s') (TASK_KSTACK_SIZE + page) (Z.to_nat n) [ret_addr] ∧
    pc_current s' = t ∧ pc_rsp0 s' = TASK_KSTACK_SIZE + page).
Proof.
  intros [(Hp0 & Hp) (Hc0 & Hct) Hrg Hroom Hm (Hsp & Hf0 & Hl0) Hap Hn Hmm] Hrp Hfl Hfu Hadr. pose proof Hroom as (Ht0 & Htn & _).
  assert (m = kernel_mmu) as ->.
  { unfold fork_memory in Hm. rewrite (proj2 (Z.eqb_neq _ _) Hfl) in Hm. simpl negb in Hm. cbv iota in Hm.
    apply bind_ok in Hm as (? & ? & _ & Hm). apply bind_ok in Hm as (? & ? & _ & Hm). by injection Hm. }
  unfold fork_and_run. apply wp_bind. eapply wp_mono.
  { eapply (wp_task_fork_kthread mo kernel_mmu default_regs ret_from_ufork_addr ret_from_kfork_addr s parent p entry flags rp c (Z.to_nat n)); [done|done|done|done| | |exact Hm|];
      rewrite ?(proj2 (Z.eqb_neq rp NULL) Hrp); [exact Hrg|lia|exact Hroom]. }
  intros t' s1 [-> Hk]. apply wp_bind, wp_wreg, wp_bind. eapply wp_mono.
  { eapply wp_switch_asm, forked_can_switch; [exact Hk|done|done|done|exact Hct|exact Hsp|exact Hf0|done|exact Hap| |exact Hmm]. simpl. lia. }
  intros _ s2 ((H1 & H2 & H3) & _ & F & _ & Hcur & Hr0 & _). unfold start_new. apply wp_bind, wp_rr. rewrite H2.
  rewrite (proj2 (Z.eqb_neq _ _) Hadr), Z.eqb_refl. unfold ret_from_kfork. set (top := TASK_KSTACK_SIZE + page) in *.
  apply wp_bind. eapply (wp_pop _ top); [exact H3|exact F|]. intros F1.
  apply wp_bind. eapply (wp_pop _ top); [msimpl; done|exact F1|]. intros F2. apply wp_bind, wp_rr. msimpl.
  apply wp_bind. eapply (wp_push _ top); [msimpl; done|exact F2|simpl; lia|]. intros w' F3 _. apply wp_wreg. msimpl. by split_and!.
Qed.
End starts.

(** ** The fork system call *)

Lemma callee_frame w top n x c l : frame_at w top n (x :: callee_list c ++ l) → callee_at w (sp top (callee_list c ++ l)) c.
Proof.
  intros [_ Hw Hf Hlo _]. split; [unfold sp; simpl length in *; lia|]. intros i y Hy.
  assert ((x :: callee_list c ++ l) !! S i = Some y) as Hy' by exact (lookup_app_l_Some _ l _ _ Hy).
  rewrite <-(Hw _ _ Hy'). f_equal. rewrite sp_cons. lia.
Qed.

Lemma callee_off top n c l ctop cn :
  (length (callee_list c ++ l) ≤ n)%nat → apart_stacks top n ctop cn → off_stack (sp top (callee_list c ++ l)) ctop cn.
Proof. intros Hl [H|H]; unfold off_stack, sp; simpl length in *; [left|right]; lia. Qed.

Section fork_call.
Context {St : Type} {BC : BuildConfig} (mo : memory_ops (St := St)).
Context (kernel_mmu default_regs ret_from_ufork_addr ret_from_kfork_addr ret_addr : Z) (junk : regfile) (alu : Z → Z).
Context (syscall_fn : syscall_name → M (mach St) Z) (wakeup : Z → M (mach St) unit) (yield : M (mach St) unit).
Context (syscall_entry_addr : Z).
Implicit Types s : mach St.

(** The registers the child gets: those of the parent, with the stack the
    program passed in RSI if it passed one. *)
Definition child_regs (f : regfile) : callee :=
  mk_callee (if f RSI =? 0 then f RSP else f RSI) (f RBP) (f RBX) (f R12) (f R13) (f R14) (f R15).

Lemma wp_status s (Q : unit → mach St → Prop) : (∀ v, Q tt (upd_regs (setr RFLAGS v) s)) → wp (status alu) s Q.
Proof. intros HQ. unfold status. apply wp_bind, wp_rr, wp_wreg. apply HQ. Qed.

(** Waking the child [t], whose stack returns to user code as in [f], and
    yielding keep the stack, the saved registers and the child's number. *)
Definition wakes (top : Z) (n : nat) (f : regfile) (t page : Z) (cn : nat) : Prop :=
  let l' fl := user_stack ret_from_ufork_addr (f RIP) fl (child_regs f) in
  ∀ s1 l fl k, tasks_ s1 !! t = Some k → rsp_top k = sp (TASK_KSTACK_SIZE + page) (l' fl) →
    frame_at (words s1) (TASK_KSTACK_SIZE + page) cn (l' fl) → regs s1 RSP = sp top l → frame_at (words s1) top n l →
    wp (wakeup t;; yield) s1 (λ _ s2, frame_at (words s2) top n l ∧ saved_same (regs s1) (regs s2) ∧
      ∃ k', tasks_ s2 !! t = Some k' ∧ tid k' = tid k).

Abbreviation sys_fork := (syscall_fork mo kernel_mmu default_regs ret_from_ufork_addr ret_from_kfork_addr wakeup yield).

(** What the fork system call of a program with registers [f] relies on, and
    its result [v]: it refuses to make a kernel thread; otherwise the child's
    memory can be had, on a stack apart from this one. *)
Definition forks (s : mach St) (f : regfile) (top : Z) (n : nat) (v : Z) : Prop :=
  if Z.land (f RDI) FORK_KTHREAD =? 0 then
    v = u64 (fork_id s) ∧ ∃ p cn t page m st,
      (12 ≤ cn)%nat ∧ tasks_ s !! pc_current s = Some p ∧
      fork_memory mo kernel_mmu (f RDI) (t_mmu p) (mm s) = Ok ((t, page, m), st) ∧ t ≠ 0 ∧ tasks_ s !! t = None ∧
      frame_at (words s) (TASK_KSTACK_SIZE + page) cn [] ∧ apart_stacks top n (TASK_KSTACK_SIZE + page) cn ∧
      wakes top n f t page cn
  else v = u64 (-1).

(** Running on the stack does not change this. *)
Lemma forks_outside s s' f top n v :
  forks s f top n v → outside top n (words s) (words s') → tasks_ s' = tasks_ s → pc_current s' = pc_current s →
  next_tid s' = next_tid s → mm s' = mm s → forks s' f top n v.
Proof.
  unfold forks. intros Hf Ho Et Ec En Em. destruct (_ =? 0); [|done].
  destruct Hf as (Hv & p & cn & t & page & m & st & Hcn & Hp & Hm & Ht0 & Htn & Hcf & Hap & Hw).
  split; [unfold fork_id in *; by rewrite En|]. exists p, cn, t, page, m, st. rewrite Et, Ec, Em. split_and!; try done.
  eapply frame_outside; [exact Hcf|exact Ho|]. destruct Hap; [by right|by left].
Qed.

(** [syscall_fork], called with the registers on the kernel stack. *)
Lemma wp_syscall_fork s top n f x l v :
  pc_current s ≠ 0 → forks s f top n v →
  regs s RSP = sp top (x :: callee_list (child_regs f) ++ l) → frame_at (words s) top n (x :: callee_list (child_regs f) ++ l) →
  wp (sys_fork (f RDI) (sp top (callee_list (child_regs f) ++ l)) (f RIP)) s (λ v' s',
    v' = v ∧ saved_same (regs s) (regs s') ∧ frame_at (words s') top n (x :: callee_list (child_regs f) ++ l)).
Proof.
  unfold forks, syscall_fork. change TASK_KTHREAD with FORK_KTHREAD. intros Hc0 Hfk Hsp Hf.
  destruct (Z.eqb_spec (Z.land (f RDI) FORK_KTHREAD) 0) as [Hfl|]; [|by apply wp_ret; rewrite Hfk].
  destruct Hfk as (-> & p & cn & t & page & m & st & Hcn & Hp & Hm & Ht0 & Htn & Hcf & Hap & Hw).
  simpl negb. cbv iota. apply wp_bind, wp_get, wp_bind. eapply wp_mono.
  { eapply (wp_task_fork_user mo kernel_mmu default_regs ret_from_ufork_addr ret_from_kfork_addr s (pc_current s) p (f RIP) (f RDI) _ (child_regs f) cn);
      [done|done|done|by eapply callee_frame|done|exact Hm|]. split_and!; [done..|]. apply (callee_off top n); [|done].
    pose proof (fr_fit _ _ _ _ Hf). simpl length in *. lia. }
  intros t' s1 [-> [Hk Hkf Hkw Hkr _ _]]. apply wp_bind_assoc.
  eapply wp_seq.
  { eapply Hw; [by rewrite Hk, lookup_insert_eq|done|exact Hkf|rewrite Hkr; exact Hsp|].
    eapply frame_outside; [exact Hf|exact Hkw|]. destruct Hap; [by left|by right]. }
  intros _ s2 (Hf2 & Hs2 & k' & Hk' & Htid). apply wp_bind, (wp_deref _ _ k'); [done|done|]. apply wp_ret.
  rewrite Hkr in Hs2. rewrite Htid. done.
Qed.

(** The path from the saved registers to the return to user mode. *)
Lemma wp_fork_tail s f top n v :
  pc_current s ≠ 0 → forks s f top n v → (14 ≤ n)%nat →
  regs s RSP = sp top (user_frame f) → frame_at (words s) top n (user_frame f) →
  regs s RCX = f RIP → regs s RSI = c_rsp (child_regs f) → regs s RDI = f RDI →
  (∀ r, reg_in r [RBX; RBP; R12; R13; R14; R15] = true → regs s r = f r) →
  wp (push_reg R15;; push_reg R14;; push_reg R13;; push_reg R12;; push_reg RBX;; push_reg RBP;; push_reg RSI;;
      sp ← rr RSP; wr RSI sp;; rcx ← rr RCX; wr RDX rcx;;
      rdi ← rr RDI; rsi ← rr RSI; rdx ← rr RDX; call_c ret_addr junk alu (sys_fork rdi rsi rdx);;
      sp ← rr RSP; wr RSP (u64 (sp + 8));; status alu;;
      pop RBP;; pop RBX;; pop R12;; pop R13;; pop R14;; pop R15;;
      syscall_done alu) s (λ _ s', returned f (regs s') v).
Proof.
  intros Hc0 Hfk Hn Hsp Hf Hrcx Hrsi Hrdi Hsv.
  apply wp_bind. eapply (wp_push_reg _ top n); [exact Hsp|exact Hf|simpl; lia|]. intros w1 F1 O1.
  apply wp_bind. eapply (wp_push_reg _ top n); [msimpl; done|exact F1|simpl; lia|]. intros w2 F2 O2.
  apply wp_bind. eapply (wp_push_reg _ top n); [msimpl; done|exact F2|simpl; lia|]. intros w3 F3 O3.
  apply wp_bind. eapply (wp_push_reg _ top n); [msimpl; done|exact F3|simpl; lia|]. intros w4 F4 O4.
  apply wp_bind. eapply (wp_push_reg _ top n); [msimpl; done|exact F4|simpl; lia|]. intros w5 F5 O5.
  apply wp_bind. eapply (wp_push_reg _ top n); [msimpl; done|exact F5|simpl; lia|]. intros w6 F6 O6.
  apply wp_bind. eapply (wp_push_reg _ top n); [msimpl; done|exact F6|simpl; lia|]. intros w7 F7 O7.
  msimpl in F7. rewrite Hrsi, !Hsv in F7 by done. change (frame_at w7 top n (callee_list (child_regs f) ++ user_frame f)) in F7.
  assert (outside top n (words s) w7) as O.
  { eapply outside_trans; [exact O1|]. eapply outside_trans; [exact O2|]. eapply outside_trans; [exact O3|].
    eapply outside_trans; [exact O4|]. eapply outside_trans; [exact O5|]. eapply outside_trans; [exact O6|exact O7]. }
  clear F1 F2 F3 F4 F5 F6 O1 O2 O3 O4 O5 O6 O7.
  apply wp_bind, wp_rr, wp_bind, wp_wreg, wp_bind, wp_rr, wp_bind, wp_wreg, wp_bind, wp_rr, wp_bind, wp_rr, wp_bind, wp_rr. msimpl.
  rewrite Hrcx, Hrdi. set (L := callee_list (child_regs f) ++ user_frame f) in F7.
  apply wp_bind. apply (wp_call_c _ _ _ _ top n L); [msimpl; done|exact F7|simpl; lia|]. intros w8 F8 O8.
  eapply wp_mono.
  { eapply (wp_syscall_fork _ top n f ret_addr (user_frame f) v); try done.
    eapply forks_outside; [exact Hfk|eapply outside_trans; [exact O|exact O8]|done..]. }
  intros ? s2 (-> & Hs2 & Hf2). split; [rewrite (Hs2 RSP eq_refl); done|]. split; [exact Hf2|]. intros Hf3. unfold after_call.
  apply wp_bind, wp_rr, wp_bind, wp_wreg. msimpl. destruct (frame_pop _ _ _ _ _ Hf3) as [_ F9].
  assert (u64 (sp top L + 8) = sp top (tail L)) as ->.
  { pose proof (fr_hi _ _ _ _ Hf3). pose proof (fr_lo _ _ _ _ Hf3). unfold sp, L. simpl length. rewrite uwrap_id; unfold in_u; lia. }
  apply wp_bind, wp_status. intros v4.
  do 6 (apply wp_bind; eapply (wp_pop _ top n); [msimpl; done|exact F9|]; clear F9; intros F9).
  eapply (wp_done _ _ top n []); [msimpl; rewrite app_nil_r; done|rewrite app_nil_r; exact F9|].
  intros s' _ Hr H1 H2 H3 H4 H5 H6 H7. split; try done; [intros r Hr'; rewrite Hr by (by destruct r); by destruct r|].
  by rewrite Hr by done.
Qed.

Abbreviation entry := (syscall_entry mo kernel_mmu default_regs ret_from_ufork_addr ret_from_kfork_addr ret_addr junk alu syscall_fn wakeup yield).

(** Fork, seen from the parent. *)
Lemma wp_fork_call s top n v :
  enabled syscall_entry_addr s → has_stack s top n → (14 ≤ n)%nat → regs s RAX = SYSCALL_FORK → forks s (regs s) top n v →
  wp (syscall_insn;; entry) s (λ _ s', returned (regs s) (regs s') v).
Proof.
  intros He Hs Hn Hrax Hfk.
  apply (wp_enter mo kernel_mmu default_regs ret_from_ufork_addr ret_from_kfork_addr ret_addr junk alu syscall_fn wakeup yield syscall_entry_addr s top n); [done..|lia|].
  intros s1 Hsp Hf Ho Hrcx Ht1 Hc1 Hid Hmm1 _ _ Hsame. apply wp_bind, wp_rr. rewrite (Hsame RAX eq_refl), Hrax.
  apply wp_bind, wp_status. intros v1. simpl Z.leb. cbv iota. apply wp_bind, wp_status. intros v2. rewrite Z.eqb_refl.
  unfold fork_path. apply wp_bind, wp_rr, wp_bind, wp_status. intros v3. apply wp_bind, wp_rr. msimpl.
  assert (0 ≤ sp top (user_frame (regs s)) ∧ sp top (user_frame (regs s)) + 40 < 2 ^ 64 + 1) as Hr.
  { pose proof (fr_lo _ _ _ _ Hf). pose proof (fr_hi _ _ _ _ Hf). unfold sp. simpl length. lia. }
  apply wp_bind. apply (wp_rdw _ _ (regs s RSP)).
  { msimpl. rewrite Hsp, uwrap_id by (unfold in_u; lia). exact (fr_words _ _ _ _ Hf 3 _ eq_refl). }
  { rewrite Hsp, uwrap_id by (unfold in_u; lia). lia. }
  pose proof (forks_outside _ s1 _ _ _ _ Hfk Ho Ht1 Hc1 Hid Hmm1) as Hfk1.
  rewrite (Hsame RSI eq_refl). destruct (regs s RSI =? 0) eqn:E.
  - apply wp_bind, wp_wreg. eapply (wp_fork_tail _ (regs s) top n v); msimpl; rewrite ?Hc1; try done.
    1: apply Hs. 1: unfold child_regs; by rewrite E. 1: by apply Hsame. intros r Hr'. destruct r; try done; by apply Hsame.
  - apply wp_bind, wp_ret. eapply (wp_fork_tail _ (regs s) top n v); msimpl; rewrite ?Hc1; try done.
    1: apply Hs. 1: unfold child_regs; rewrite E; by apply Hsame. 1: by apply Hsame. intros r Hr'. destruct r; try done; by apply Hsame.
Qed.

(** What a system call relies on and may return: fork is as above, the
    function of any other number keeps to the calling convention, and an
    unknown number gives ENOSYS. *)
Definition serves (s : mach St) (top : Z) (n : nat) (v : Z → Prop) : Prop :=
  if decide (regs s RAX = SYSCALL_FORK) then ∃ x, v x ∧ forks s (regs s) top n x
  else (∀ f, syscall_list !! Z.to_nat (regs s RAX) = Some f → abi top n (syscall_fn f) v) ∧
       (NUM_SYSCALLS ≤ regs s RAX → v ENOSYS).

(** C16: A system call, fork included, made with the processor set up by
    syscall_enable on a task with fourteen free words of kernel stack,
    returns to the instruction after it with the program's stack pointer,
    flags and saved registers, in user mode, with the result of the function
    of its number, and a number out of range gives ENOSYS.  Fork gives the
    child's number, and -1 if it is asked for a kernel thread; the child it
    wakes has a stack that returns to the same instruction with the same
    saved registers, and waking it and yielding are relied on to keep this
    task's stack and saved registers.  The other functions are relied on to
    return, with the registers and the stack the calling convention preserves
    as they were, so that exit is not covered. *)
Theorem syscall_roundtrip s top n P :
  enabled syscall_entry_addr s → has_stack s top n → (14 ≤ n)%nat → 0 ≤ regs s RAX → serves s top n P →
  wp (syscall_insn;; entry) s (λ _ s', ∃ v, P v ∧ returned (regs s) (regs s') v).
Proof.
  unfold serves. intros He Hs Hn H0 Hv. destruct (decide _) as [Hk|Hk].
  - destruct Hv as (x & Hx & Hf). eapply wp_mono; [by apply (wp_fork_call s top n x)|]. intros ? s' Hr. by exists x.
  - apply (wp_plain_syscall mo _ _ _ _ _ _ _ _ _ _ syscall_entry_addr s top n); [done|done|lia|done|done|apply Hv..].
Qed.
End fork_call.

(** ** A machine *)

Definition frame_b (w : gmap Z Z) (top : Z) (n : nat) (l : list Z) : bool :=
  forallb (λ k, match w !! (top - 8 * (Z.of_nat k + 1)) with Some _ => true | None => false end) (seq 0 n) &&
  forallb (λ i, match w !! (sp top l + 8 * Z.of_nat i), l !! i with Some x, Some y => x =? y | _, _ => false end) (seq 0 (length l)) &&
  (length l <=? n)%nat && (8 * Z.of_nat n <? top) && (top <? 2 ^ 64).

Lemma frame_b_sound w top n l : frame_b w top n l = true → frame_at w top n l.
Proof.
  unfold frame_b. rewrite !andb_true_iff, !forallb_forall, Nat.leb_le, !Z.ltb_lt. intros ((((Hr & Hw) & Hf) & Hlo) & Hhi). split; [| |done..].
  - intros k Hk. specialize (Hr k). rewrite in_seq in Hr. specialize (Hr ltac:(lia)). by destruct (w !! _).
  - intros i x Hx. specialize (Hw i). rewrite in_seq, Hx in Hw. specialize (Hw ltac:(apply lookup_lt_Some in Hx; lia)).
    destruct (w !! _) as [y|]; [|done]. apply Z.eqb_eq in Hw. by subst y.
Qed.

Module ContextDemo.
(** The running task has a kernel stack; the memory of SlobDemo and VmmDemo
    has room for a task and two pages; a block of registers is in memory. *)
Definition top0 : Z := 0xFFFF800000020000.
Definition rp : Z := 0xFFFF800000030000.
Definition kernel_mmu : Z := 0xFFFFFFFF80100000.
Definition cur : Z := 0xFFFF800000040000.
Definition t : Z := 18446603336221208624.
Definition kpages : Z := 0xFFFF800000008000.
Definition top1 : Z := TASK_KSTACK_SIZE + kpages.
Definition c : callee := mk_callee 0x5000 1 2 3 4 5 6.
Definition stack_words (top : Z) (n : nat) : list (Z * Z) := (λ k, (top - 8 * (Z.of_nat k + 1), 0)) <$> seq 0 n.
Definition w : gmap Z Z :=
  list_to_map (imap (λ i x, (rp + 8 * Z.of_nat i, x)) (callee_list c) ++ stack_words top0 32 ++ stack_words top1 16).
Definition ct : task := mk_task 0 top0 VmmDemo.mmu 0 TASK_S_RUNNABLE 7 7 3 0 0.
Definition memory : kmemory := mk_kmem SlobDemo.state VmmDemo.state.
Definition ops := task_memory (BC := debug_build) kernel_mmu.
(** A user program at 0x1000 that makes the system call [n]. *)
Definition user (n : Z) : regfile := λ r,
  match r with RAX => n | RIP => 0x1000 | RSP => 0x4FF0 | RFLAGS => 0x202 | RBX => 11 | RBP => 12 | R12 => 13 | _ => 0 end.
Definition kernel : regfile := λ r, match r with RSP => top0 - 64 | RFLAGS => 0x202 | CS => 8 | SS => 16 | _ => 0 end.
Definition state (f : regfile) : mach kmemory := mk_mach f w {[cur := ct]} cur 0 0 1 7 ∅ memory.
Definition flags (kthread : bool) : Z := if kthread then FORK_KTHREAD else FORK_UTHREAD.
Definition space (kthread : bool) : Z := if kthread then kernel_mmu else VmmDemo.mmu.
Definition after (kthread : bool) : kmemory :=
  match fork_memory ops kernel_mmu (flags kthread) VmmDemo.mmu memory with Ok (_, st) => st | _ => memory end.
Definition switch : Z → Z → M kmemory unit := λ _ _, mret tt.

Lemma c_at : callee_at w rp c.
Proof.
  split; [done|]. intros i x Hx. do 7 (destruct i as [|i]; [by injection Hx as <-|]). done.
Qed.

Definition served_b (kthread : bool) : bool :=
  match fork_memory ops kernel_mmu (flags kthread) VmmDemo.mmu memory with
  | Ok ((t', page', m'), _) => (t' =? t) && (page' =? kpages) && (m' =? space kthread)
  | _ => false
  end.

Lemma memory_served kthread :
  fork_memory ops kernel_mmu (flags kthread) VmmDemo.mmu memory = Ok ((t, kpages, space kthread), after kthread).
Proof.
  assert (served_b kthread = true) as Hb by (destruct kthread; vm_compute; reflexivity).
  unfold served_b in Hb. unfold after. destruct (fork_memory _ _ _ _ _) as [[[[t' page'] m'] st]| | |]; [|done..].
  apply andb_true_iff in Hb as [[->%Z.eqb_eq ->%Z.eqb_eq]%andb_true_iff ->%Z.eqb_eq]. done.
Qed.

#[local] Opaque ops memory.

Lemma can_run kthread : can_fork ops kernel_mmu switch (state kernel) cur ct ct (flags kthread) rp c top0 32 (replicate 8 0) 16 t kpages (space kthread) (after kthread) (after kthread).
Proof.
  split.
  - done.
  - done.
  - exact c_at.
  - split; [done|]. split; [done|]. split; [by apply frame_b_sound; vm_compute|by right].
  - apply memory_served.
  - split; [done|]. split; [by apply frame_b_sound; vm_compute|simpl; lia].
  - right. done.
  - done.
  - done.
Qed.

(** A second task, switched out with seven words on its stack. *)
Definition l1 : list Z := [6; 5; 4; 3; 1; 2; 0x77].
Definition nt : task := mk_task (sp top1 l1) top1 kernel_mmu 0 TASK_S_RUNNABLE 8 8 3 0 0.
Definition two : mach kmemory :=
  mk_mach (setr RDI t kernel) (list_to_map (imap (λ i x, (sp top1 l1 + 8 * Z.of_nat i, x)) l1 ++ stack_words top0 32 ++ stack_words top1 16))
    {[cur := ct; t := nt]} cur 0 0 1 7 ∅ memory.

Lemma two_switch : can_switch switch two t nt ct top0 32 (replicate 8 0) top1 16 l1 memory.
Proof. split; try done; try (by apply frame_b_sound; vm_compute); [simpl; lia|simpl; lia|by right]. Qed.

(** The state after the switch, with the first task in RDI again. *)
Definition go : M (mach kmemory) unit := switch_to_asm 300 (λ _, 0) (λ x, x) switch.
Definition switched : mach kmemory := match go two with Ok (_, s) => s | _ => two end.
Definition back : mach kmemory := upd_regs (setr RDI cur) switched.

Lemma go_two : go two = Ok (tt, switched).
Proof.
  assert (match go two with Ok _ => true | _ => false end = true) as Hb by (by vm_compute).
  unfold switched. destruct (go two) as [[[] s]| | |]; done.
Qed.

Lemma back_same a : tasks_ back !! a = tasks_ switched !! a ∧ words back !! a = words switched !! a.
Proof. unfold back. by generalize switched. Qed.

Lemma switch_any a b m : switch a b m = Ok (tt, m).
Proof. done. Qed.

Lemma back_facts :
  tasks_ back !! pc_current back = Some nt ∧ pc_current back ≠ 0 ∧ pc_current two ≠ pc_current back ∧
  regs back RDI = pc_current two ∧ regs back RSP = sp top1 [] ∧ frame_at (words back) top1 16 [].
Proof. split_and!; [by vm_compute..|apply frame_b_sound; by vm_compute]. Qed.

(** In user mode, with the registers [syscall_enable] sets. *)
Definition in_user (n : Z) : mach kmemory :=
  mk_mach (user n) w {[cur := ct]} cur 0 0 1 7
    {[IA32_EFER := 1; IA32_STAR := 0x0018000800000000; IA32_LSTAR := 500; IA32_FMASK := 0x600]} memory.

Lemma user_enabled n : enabled 500 (in_user n).
Proof. by split. Qed.

Lemma user_stack_ok n : has_stack (in_user n) top0 32.
Proof. split; [done|by exists ct|by apply frame_b_sound; vm_compute]. Qed.
End ContextDemo.

Lemma fork_child_starts_witness :
  wp (fork_and_run (BC := debug_build) ContextDemo.ops ContextDemo.kernel_mmu 0 100 200 300 (λ _, 0) (λ x, x) ContextDemo.switch
        ContextDemo.cur 0x1234 FORK_UTHREAD ContextDemo.rp) (ContextDemo.state ContextDemo.kernel)
    (λ _ s', regs s' RIP = 0x1234 ∧ regs s' RAX = 0 ∧ regs s' RBX = 2).
Proof.
  eapply wp_mono; [apply (fork_child_starts (BC := debug_build) _ _ 0 100 200 300 (λ _, 0) (λ x, x) _ _ _ _ _ 0x1234 _ _ _ _ _ _ _ _ _ _ _ _ (ContextDemo.can_run false)); done|].
  intros ? s' (H1 & _ & H2 & H3 & _). by injection H3.
Defined.

Lemma kthread_starts_witness :
  wp (fork_and_run (BC := debug_build) ContextDemo.ops ContextDemo.kernel_mmu 0 100 200 300 (λ _, 0) (λ x, x) ContextDemo.switch
        ContextDemo.cur 0x1234 FORK_KTHREAD ContextDemo.rp) (ContextDemo.state ContextDemo.kernel)
    (λ _ s', regs s' RIP = 0x1234 ∧ regs s' RDI = 2).
Proof.
  eapply wp_mono; [apply (kthread_starts (BC := debug_build) _ _ 0 100 200 300 (λ _, 0) (λ x, x) _ _ _ _ _ 0x1234 _ _ _ _ _ _ _ _ _ _ _ _ (ContextDemo.can_run true)); done|].
  by intros ? s' (H1 & H2 & _).
Defined.

Lemma switch_roundtrip_witness :
  wp ContextDemo.go ContextDemo.back (λ _ s3,
    reg_words (regs s3) = reg_words (regs ContextDemo.two) ∧ regs s3 RSP = sp ContextDemo.top0 (replicate 7 0) ∧
    pc_current s3 = ContextDemo.cur).
Proof.
  pose proof (switch_roundtrip 300 (λ _, 0) (λ x, x) ContextDemo.switch _ _ _ _ _ _ _ (replicate 7 0) _ _ _ _ _ _ _ _ _ [] _
    ContextDemo.two_switch ltac:(simpl; lia)) as H. fold ContextDemo.go in H.
  apply (wp_ok_elim _ _ _ _ _ ContextDemo.go_two) in H.
  eapply wp_mono; [apply (H ContextDemo.back ContextDemo.nt ContextDemo.top1 16%nat [] (mm ContextDemo.back))|].
  - apply ContextDemo.back_same.
  - intros a _. apply ContextDemo.back_same.
  - apply ContextDemo.back_facts.
  - apply ContextDemo.back_facts.
  - apply ContextDemo.back_facts.
  - apply ContextDemo.back_facts.
  - apply ContextDemo.back_facts.
  - apply ContextDemo.back_facts.
  - simpl. lia.
  - by left.
  - apply ContextDemo.switch_any.
  - intros ? s3 (H1 & _ & H2 & _ & H3 & _). exact (conj H1 (conj H2 H3)).
Defined.

Lemma syscall_enable_correct_witness :
  wp (syscall_enable 500 true) (ContextDemo.state ContextDemo.kernel) (λ _ s', enabled 500 s').
Proof. by apply (syscall_enable_correct 500). Defined.

Lemma syscall_roundtrip_witness :
  let call := syscall_insn;; syscall_entry (BC := debug_build) ContextDemo.ops ContextDemo.kernel_mmu 0 100 200 300 (λ _, 0) (λ x, x)
        (λ _, mret 42) (λ _, mret tt) (mret tt) in
  wp call (ContextDemo.in_user 3) (λ _ s', regs s' RAX = 42 ∧ regs s' RIP = 0x1000 ∧ regs s' RSP = 0x4FF0) ∧
  wp call (upd_regs (setr RDI FORK_UTHREAD) (ContextDemo.in_user 1)) (λ _ s', regs s' RAX = 8 ∧ regs s' RIP = 0x1000).
Proof.
  pose proof (syscall_roundtrip (BC := debug_build) ContextDemo.ops ContextDemo.kernel_mmu 0 100 200 300 (λ _, 0) (λ x, x)
    (λ _, mret 42) (λ _, mret tt) (mret tt) 500) as Hcall. split.
  - eapply wp_mono; [apply (Hcall (ContextDemo.in_user 3) ContextDemo.top0 32%nat (λ v, v = 42))|].
    + apply ContextDemo.user_enabled.
    + apply ContextDemo.user_stack_ok.
    + lia.
    + done.
    + split; [|done]. intros f _ s l Hsp Hf. apply wp_ret. by split_and!.
    + intros ? s' (v & -> & [H1 H2 _ _ _ _ H3 _]). by rewrite H1, H2, H3.
  - eapply wp_mono; [apply (Hcall (upd_regs (setr RDI FORK_UTHREAD) (ContextDemo.in_user 1)) ContextDemo.top0 32%nat (λ v, v = 8))|].
    + by split.
    + split; [done|by exists ContextDemo.ct|by apply frame_b_sound; vm_compute].
    + lia.
    + done.
    + exists 8. split; [done|]. split; [done|].
      exists ContextDemo.ct, 16%nat, ContextDemo.t, ContextDemo.kpages, (ContextDemo.space false), (ContextDemo.after false).
      split_and!; [lia|done|apply (ContextDemo.memory_served false)|done|done|by apply frame_b_sound; vm_compute|by right|].
      intros s1 l fl k Hk _ _ Hsp Hf. apply wp_bind, wp_ret, wp_ret. split_and!; [done|done|by exists k].
    + intros ? s' (v & -> & [H1 _ _ _ _ _ H2 _]). by rewrite H1, H2.
Defined.
