(* ===== verification/Entry.v ===== *)
(** * The entry of the kernel

    kernel/cpu/entry.asm, kernel/cpu/simd.asm, kernel/crt, kernel/proc/idle.asm
    and kernel/kmain.c on the machine of Context.v: what is called, in which
    order, with which stack and arguments.  The functions called are
    parameters that keep the calling convention; most of them are modelled in
    files of their own.  A call is recorded with its function, the stack
    pointer and RDI before it, and whether interrupts were on. *)

From stdpp Require Import base list gmap.
From Stdlib Require Import ZArith Lia Bool.
From S2P Require Import Prelude Addr Cpuset Sched Context ContextSpec.
Local Open Scope Z_scope.

(** The functions [long_mode_entry] and [kmain] call. *)
Inductive callee :=
| vga_tmode_init | percpu_init_bsp | sched_init | interrupts_init | simd_init_ | syscall_enable_ | init_ | kmain_
| vmm_init | mmap_init | vmm_map_all | mmap_dump_info | acpi_init | smbios_init | apic_init | pmm_init
| lapic_enable | ioapic_init | ps2_init | pit_init | smp_init | sched_run_bsp.

#[export] Instance callee_eq_dec : EqDecision callee.
Proof. solve_decision. Defined.

(** A decidable statement about constants. *)
Local Ltac by_decision := apply (bool_decide_unpack _); by vm_compute.

Record call := mk_call { c_fn : callee; c_rsp : Z; c_rdi : Z; c_irq : bool }.

(** The part of the processor only this code uses, and the calls so far. *)
Record est := mk_est { e_cr4 : Z; e_xcr0 : Z; e_data : Z; e_tr : Z; e_calls : list call; e_mboot : Z }.
Definition set_cr4 v e := mk_est v (e_xcr0 e) (e_data e) (e_tr e) (e_calls e) (e_mboot e).
Definition set_xcr0 v e := mk_est (e_cr4 e) v (e_data e) (e_tr e) (e_calls e) (e_mboot e).
Definition set_data v e := mk_est (e_cr4 e) (e_xcr0 e) v (e_tr e) (e_calls e) (e_mboot e).
Definition set_tr v e := mk_est (e_cr4 e) (e_xcr0 e) (e_data e) v (e_calls e) (e_mboot e).
Definition add_call c e := mk_est (e_cr4 e) (e_xcr0 e) (e_data e) (e_tr e) (e_calls e ++ [c]) (e_mboot e).
Definition set_mboot v e := mk_est (e_cr4 e) (e_xcr0 e) (e_data e) (e_tr e) (e_calls e) v.

Definition CR4_OSXSAVE : Z := 18.
Definition IF : Z := 9.

(** EAX, EBX, ECX and EDX of [cpuid]. *)
Record cpuid_regs := mk_cpuid { q_eax : Z; q_ebx : Z; q_ecx : Z; q_edx : Z }.

Section entry.
Context (fn : callee → M (mach est) unit) (ctors : M (mach est) unit) (cpuid_ : Z → Z → cpuid_regs) (ret_addr kmain_addr : Z).

Abbreviation E := (M (mach est)).

Definition upd_e (f : est → est) : E unit := modify (λ s, upd_mm (f (mm s)) s).

(** ** simd.asm *)

Definition cpuid : E unit :=
  a ← rr RAX; c ← rr RCX;
  let q := cpuid_ (u32 a) (u32 c) in
  wr RAX (u32 (q_eax q));; wr RBX (u32 (q_ebx q));; wr RCX (u32 (q_ecx q));; wr RDX (u32 (q_edx q)).

(** Without CR4.OSXSAVE both are invalid opcodes; x87 state cannot be turned
    off, and AVX needs SSE. *)
Definition xgetbv : E unit :=
  s ← get;
  if Z.testbit (e_cr4 (mm s)) CR4_OSXSAVE then
    c ← rr RCX;
    if u32 c =? 0 then wr RAX (u32 (e_xcr0 (mm s)));; wr RDX (u32 (Z.shiftr (e_xcr0 (mm s)) 32)) else fault
  else fault.
Definition xsetbv : E unit :=
  s ← get;
  if Z.testbit (e_cr4 (mm s)) CR4_OSXSAVE then
    c ← rr RCX; a ← rr RAX; d ← rr RDX;
    let v := Z.lor (u32 a) (Z.shiftl (u32 d) 32) in
    if (u32 c =? 0) && Z.testbit v 0 && (Z.testbit v 1 || negb (Z.testbit v 2)) then upd_e (set_xcr0 v) else fault
  else fault.

Definition XSAVE_AVX : Z := Z.lor (Z.shiftl 1 26) (Z.shiftl 1 28).

Definition simd_init : E unit :=
  push_reg RAX;; push_reg RBX;; push_reg RCX;; push_reg RDX;;
  wr RAX 1;; wr RCX 0;;
  cpuid;;
  c ← rr RCX; wr RCX (Z.land (u32 c) XSAVE_AVX);;
  c ← rr RCX;
  (if c =? XSAVE_AVX then
     s ← get; wr RAX (e_cr4 (mm s));; a ← rr RAX; wr RAX (u32 (Z.lor a (Z.shiftl 1 18)));; a ← rr RAX; upd_e (set_cr4 a);;
     wr RCX 0;; xgetbv;;
     a ← rr RAX; wr RAX (u32 (Z.lor a (Z.lor (Z.shiftl 1 1) (Z.shiftl 1 2))));;
     wr RCX 0;; xsetbv
   else mret tt);;
  pop RDX;; pop RCX;; pop RBX;; pop RAX;;
  ret_.

(** ** crti.asm and crtn.asm *)

(** [_init]: between the two halves the linker puts the calls of the global
    constructors. *)
Definition init : E unit := push_reg RBP;; sp ← rr RSP; wr RBP sp;; ctors;; pop RBP;; ret_.

(** ** entry.asm *)

Definition record_call (c : callee) : E unit :=
  sp ← rr RSP; di ← rr RDI; fl ← rr RFLAGS; upd_e (add_call (mk_call c sp di (Z.testbit fl IF))).

(** [call] of a function written in assembly, which returns itself, and of a C
    function. *)
Definition call_asm (c : callee) (f : E unit) : E unit := record_call c;; push ret_addr;; f.
Definition call_fn (c : callee) : E unit := call_asm c (fn c;; ret_).

Definition GDT_TSS : Z := 0x30.

Definition long_mode_entry : E unit :=
  a ← rr RAX; wr RAX (Z.ldiff a 0xFFFF);; a ← rr RAX; wr SS (u16 a);; upd_e (set_data (u16 a));;
  sp ← rr RSP; wr RSP (Z.ldiff sp 0xF);;
  push_reg RBX;;
  sp ← rr RSP; wr RSP (u64 (sp - 8));;
  call_fn vga_tmode_init;;
  call_fn percpu_init_bsp;;
  call_fn sched_init;;
  call_fn interrupts_init;;
  a ← rr RAX; wr RAX (Z.lor (Z.ldiff a 0xFFFF) GDT_TSS);; a ← rr RAX; upd_e (set_tr (u16 a));;
  call_asm simd_init_ simd_init;;
  call_fn syscall_enable_;;
  call_asm init_ init;;
  sp ← rr RSP; wr RSP (u64 (sp + 8));;
  pop RDI;;
  record_call kmain_;; push ret_addr;; wr RIP kmain_addr.

(** What follows if [kmain] returned: interrupts on and halt; [idle_task] is the
    same loop.  [wakes] interrupts wake it up. *)
Fixpoint idle_task (wakes : nat) : E unit :=
  fl ← rr RFLAGS; wr RFLAGS (Z.setbit fl IF);;
  match wakes with O => mret tt | S wakes => idle_task wakes end.

(** ** kmain.c *)

(** The C functions are called through the compiler's code, which is not
    modelled: only their order and the interrupt flag are. *)
Definition run (c : callee) : E unit := record_call c;; fn c.

Definition kmain (mboot_info_phys : Z) : E unit :=
  upd_e (set_mboot (phys_to_kern mboot_info_phys));;
  run percpu_init_bsp;;
  run vmm_init;;
  run mmap_init;;
  run vmm_map_all;;
  run mmap_dump_info;;
  run acpi_init;;
  run smbios_init;;
  run apic_init;;
  run pmm_init;;
  run lapic_enable;;
  run ioapic_init;;
  run ps2_init;;
  run pit_init;;
  fl ← rr RFLAGS; wr RFLAGS (Z.setbit fl IF);;
  run smp_init;;
  run sched_run_bsp.

(** From the jump of the boot code on: [call kmain] has to have arrived there. *)
Definition start_kernel : E unit :=
  long_mode_entry;; ip ← rr RIP; if ip =? kmain_addr then di ← rr RDI; kmain di else fault.
End entry.

(** ** Calls *)

Section spec.
Context (top : Z) (n room : nat).
Implicit Types s : mach est.

(** RBX and RBP are preserved, and interrupts that are off stay off. *)
Record kept (s s' : mach est) : Prop := {
  kp_rbx : regs s' RBX = regs s RBX;
  kp_rbp : regs s' RBP = regs s RBP;
  kp_if : Z.testbit (regs s RFLAGS) IF = false → Z.testbit (regs s' RFLAGS) IF = false
}.

Lemma kept_refl s : kept s s.
Proof using Type. by split. Qed.

(** A function that is entered with [ret_addr :: l] on the stack and leaves with
    [l], having done [k] to a processor with [P]. *)
Definition returns (ret_addr : Z) (f : M (mach est) unit) (P : est → Prop) (k : est → est) : Prop :=
  ∀ s l, P (mm s) → regs s RSP = sp top (ret_addr :: l) → frame_at (words s) top n (ret_addr :: l) → (S (S (length l)) + room ≤ n)%nat →
    wp f s (λ _ s', regs s' RSP = sp top l ∧ frame_at (words s') top n l ∧ kept s s' ∧ mm s' = k (mm s)).

(** The calling convention, for the body of a function. *)
Definition keeps (f : M (mach est) unit) : Prop :=
  ∀ s l, regs s RSP = sp top l → frame_at (words s) top n l → (length l + room ≤ n)%nat →
    wp f s (λ _ s', regs s' RSP = sp top l ∧ frame_at (words s') top n l ∧ kept s s' ∧ mm s' = mm s).

Lemma keeps_returns ret_addr f : keeps f → returns ret_addr (f;; ret_) (λ _, True) (λ e, e).
Proof using Type.
  intros Hf s l _ Hsp Hfr Hr. eapply wp_seq; [apply Hf; [done|done|simpl; lia]|]. intros _ s1 (Hsp1 & Hf1 & [K1 K2 K3] & E1).
  apply (wp_pop _ top n ret_addr l); [done|done|]. intros Hf2. msimpl. split_and!; [done..|by split|done].
Qed.

Definition recorded (c : callee) (s : mach est) : call :=
  mk_call c (regs s RSP) (regs s RDI) (Z.testbit (regs s RFLAGS) IF).

Lemma wp_record c s (Q : unit → mach est → Prop) :
  Q tt (upd_mm (add_call (recorded c s) (mm s)) s) → wp (record_call c) s Q.
Proof using Type. done. Qed.

Lemma wp_call_asm ret_addr c f (P : est → Prop) k s l (Q : unit → mach est → Prop) :
  returns ret_addr f P k → P (add_call (recorded c s) (mm s)) →
  regs s RSP = sp top l → frame_at (words s) top n l → (S (S (length l)) + room ≤ n)%nat →
  (∀ s', regs s' RSP = sp top l → frame_at (words s') top n l → kept s s' → mm s' = k (add_call (recorded c s) (mm s)) → Q tt s') →
  wp (call_asm ret_addr c f) s Q.
Proof using Type.
  intros Hf HP Hsp Hfr Hr HQ. unfold call_asm. apply wp_bind, wp_record. apply wp_bind.
  eapply (wp_push _ top n l); [exact Hsp|exact Hfr|lia|]. intros w' Hf' _.
  eapply wp_mono; [eapply (Hf _ l); [exact HP|done|exact Hf'|done]|]. intros [] s1 (H1 & H2 & [K1 K2 K3] & E). apply HQ; [done|done| |done].
  split; [exact K1|exact K2|exact K3].
Qed.

(** A word below the last one counts as pushed. *)
Lemma frame_reserve w l : frame_at w top n l → (length l < n)%nat → ∃ x, frame_at w top n (x :: l).
Proof using Type.
  intros [Hr Hw Hf Hlo Hhi] Hl. destruct (Hr (length l) Hl) as [x Hx]. exists x. split; [done| |simpl; lia|done|done].
  intros [|i] y Hy; simpl in Hy.
  - injection Hy as <-. rewrite <-Hx. f_equal. unfold sp. simpl length. lia.
  - rewrite <-(Hw i y Hy). f_equal. rewrite sp_cons. lia.
Qed.
End spec.

(** ** SIMD *)

Section simd.
Context (cpuid_ : Z → Z → cpuid_regs) (top : Z) (n room : nat).

Definition has_avx : bool := Z.land (u32 (q_ecx (cpuid_ 1 0))) XSAVE_AVX =? XSAVE_AVX.

(** SSE and AVX state are turned on if the processor has them. *)
Definition simd_effect (e : est) : est :=
  if has_avx then set_xcr0 (Z.lor (e_xcr0 e) 6) (set_cr4 (Z.setbit (e_cr4 e) CR4_OSXSAVE) e) else e.

Definition simd_ready (e : est) : Prop := in_u 32 (e_cr4 e) ∧ in_u 64 (e_xcr0 e) ∧ Z.testbit (e_xcr0 e) 0 = true.

Lemma xcr0_value x : in_u 64 x → Z.lor (u32 (u32 (Z.lor (u32 x) 6))) (Z.shiftl (u32 (u32 (Z.shiftr x 32))) 32) = Z.lor x 6.
Proof using Type.
  intros Hx. rewrite (uwrap_id 32 (u32 (Z.lor _ _))), (uwrap_id 32 (u32 (Z.shiftr _ _))) by by apply uwrap_range.
  assert (u32 (Z.lor (u32 x) 6) = Z.lor (u32 x) 6) as ->.
  { apply Z.bits_inj'. intros i Hi. unfold uwrap. destruct (Z.lt_ge_cases i 32).
    - by rewrite Z.mod_pow2_bits_low by lia.
    - rewrite Z.mod_pow2_bits_high, Z.lor_spec, Z.mod_pow2_bits_high by lia. by rewrite (Z.bits_above_log2 6 i) by (simpl; lia). }
  rewrite (Z.lor_comm (u32 x) 6), <-Z.lor_assoc, u64_halves by done. apply Z.lor_comm.
Qed.
Lemma cr4_value x : in_u 32 x → u32 (Z.lor x (Z.shiftl 1 18)) = Z.setbit x CR4_OSXSAVE.
Proof using Type.
  intros Hx. unfold Z.setbit, CR4_OSXSAVE. apply Z.bits_inj'. intros i Hi. unfold uwrap. destruct (Z.lt_ge_cases i 32).
  - by rewrite Z.mod_pow2_bits_low by lia.
  - rewrite Z.mod_pow2_bits_high, Z.lor_spec by lia. rewrite <-(Z.mod_small x (2 ^ 32)) by exact Hx.
    rewrite Z.mod_pow2_bits_high by lia. rewrite (Z.bits_above_log2 (Z.shiftl 1 18) i); [done|done|].
    change (Z.log2 (Z.shiftl 1 18)) with 18. lia.
Qed.

Hypothesis room4 : (4 ≤ room)%nat.

(** Four pushes and their pops. *)
Lemma simd_returns ret_addr : returns top n room ret_addr (simd_init cpuid_) simd_ready simd_effect.
Proof using room4.
  intros s l (Hc & Hx & H0) Hsp Hf Hr. unfold simd_init.
  apply wp_bind. eapply (wp_push_reg _ top n); [exact Hsp|exact Hf|simpl; lia|]. intros w1 F1 _.
  apply wp_bind. eapply (wp_push_reg _ top n); [done|exact F1|simpl; lia|]. intros w2 F2 _.
  apply wp_bind. eapply (wp_push_reg _ top n); [done|exact F2|simpl; lia|]. intros w3 F3 _.
  apply wp_bind. eapply (wp_push_reg _ top n); [done|exact F3|simpl; lia|]. intros w4 F4 _. msimpl in F4.
  unfold cpuid. do 2 (apply wp_bind, wp_wreg). apply wp_bind. do 2 (apply wp_bind, wp_rr). msimpl. change (u32 1) with 1. change (u32 0) with 0.
  do 3 (apply wp_bind, wp_wreg). apply wp_wreg. apply wp_bind, wp_rr, wp_bind, wp_wreg, wp_bind, wp_rr. msimpl.
  rewrite (uwrap_id 32 (u32 _)) by by apply uwrap_range.
  fold has_avx. unfold simd_effect.
  apply (wp_seq _ _ _ (λ _ s', words s' = w4 ∧ regs s' RSP = sp top (regs s RDX :: regs s RCX :: regs s RBX :: regs s RAX :: ret_addr :: l) ∧
     regs s' RBP = regs s RBP ∧ regs s' RFLAGS = regs s RFLAGS ∧
     mm s' = if has_avx then set_xcr0 (Z.lor (e_xcr0 (mm s)) 6) (set_cr4 (Z.setbit (e_cr4 (mm s)) CR4_OSXSAVE) (mm s)) else mm s)).
  - destruct has_avx; [|by apply wp_ret]. unfold xgetbv, xsetbv, upd_e. wp_steps. unfold rr, wr. wp_steps. msimpl. cbn [e_cr4 e_xcr0 set_cr4].
    rewrite cr4_value by done. rewrite Z.setbit_eq by done. wp_steps. msimpl. change (u32 0 =? 0) with true. cbv iota. wp_steps. msimpl.
    cbn [e_cr4 e_xcr0 set_cr4]. rewrite Z.setbit_eq by done. wp_steps. msimpl. change (u32 0 =? 0) with true.
    rewrite xcr0_value by done. rewrite !Z.lor_spec, H0. cbn [andb orb]. rewrite orb_true_r. cbn [andb orb]. wp_steps. done.
  - intros _ s' (Ew & Esp & Ebp & Efl & Emm). rewrite <-Ew in F4.
    apply wp_bind. eapply (wp_pop _ top n); [exact Esp|exact F4|]. intros G1.
    apply wp_bind. eapply (wp_pop _ top n); [done|exact G1|]. intros G2.
    apply wp_bind. eapply (wp_pop _ top n); [done|exact G2|]. intros G3.
    apply wp_bind. eapply (wp_pop _ top n); [done|exact G3|]. intros G4.
    eapply (wp_pop _ top n); [done|exact G4|]. intros G5. msimpl. split_and!; [done|exact G5| |exact Emm].
    split; msimpl; [done|done|by rewrite Efl].
Qed.
End simd.

(** ** Theorems *)

(** The C functions that long_mode_entry calls and that return to it. *)
Definition entry_functions : list callee := [vga_tmode_init; percpu_init_bsp; sched_init; interrupts_init; syscall_enable_].

Section theorems.
Context (fn : callee → M (mach est) unit) (ctors : M (mach est) unit) (cpuid_ : Z → Z → cpuid_regs) (ret_addr kmain_addr top : Z) (n room : nat).
Hypothesis fn_keeps : ∀ c, c ∈ entry_functions → keeps top n room (fn c).
Hypothesis ctors_keep : keeps top n room ctors.
Hypothesis room4 : (4 ≤ room)%nat.

Lemma init_returns : returns top n room ret_addr (init ctors) (λ _, True) (λ e, e).
Proof using ctors_keep room4.
  intros s l _ Hsp Hf Hr. unfold init. apply wp_bind. eapply (wp_push_reg _ top n); [exact Hsp|exact Hf|simpl; lia|]. intros w1 F1 _.
  apply wp_bind, wp_rr, wp_bind, wp_wreg, wp_bind.
  eapply wp_mono; [eapply (ctors_keep _ (regs s RBP :: ret_addr :: l)); [done|exact F1|simpl; lia]|].
  intros [] s1 (H1 & H2 & [K1 K2 K3] & E1). apply wp_bind. eapply (wp_pop _ top n); [exact H1|exact H2|]. intros G1.
  eapply (wp_pop _ top n); [done|exact G1|]. intros G2. msimpl. split_and!; [done|done| |exact E1].
  split; msimpl; [exact K1|done|exact K3].
Qed.

(** One of the C functions. *)
Lemma wp_call_fn c s l (Q : unit → mach est → Prop) :
  c ∈ entry_functions → regs s RSP = sp top l → frame_at (words s) top n l → (S (S (length l)) + room ≤ n)%nat →
  (∀ s', regs s' RSP = sp top l → frame_at (words s') top n l → kept s s' → mm s' = add_call (recorded c s) (mm s) → Q tt s') →
  wp (call_fn fn ret_addr c) s Q.
Proof using fn_keeps.
  intros Hc Hsp Hf Hr HQ. eapply (wp_call_asm top n room _ _ _ (λ _, True) (λ e, e)); [by apply keeps_returns, fn_keeps|done..].
Qed.

Definition entry_calls : list callee :=
  [vga_tmode_init; percpu_init_bsp; sched_init; interrupts_init; simd_init_; syscall_enable_; init_; kmain_].

(** What is known along the way: the words on the stack, the saved address, and
    the calls so far. *)
Record along (s0 : mach est) (x tr : Z) (cs : list callee) (s : mach est) : Prop := {
  al_tr : e_tr (mm s) = tr;
  al_sp : regs s RSP = sp top [x; regs s0 RBX];
  al_frame : frame_at (words s) top n [x; regs s0 RBX];
  al_if : Z.testbit (regs s RFLAGS) IF = false;
  al_calls : ∃ l, e_calls (mm s) = e_calls (mm s0) ++ l ∧ c_fn <$> l = cs ∧
    Forall (λ c, c_rsp c mod 16 = 0 ∧ c_irq c = false) l
}.

Hypothesis top_aligned : top mod 16 = 0.
Hypothesis enough : (4 + room ≤ n)%nat.

Lemma along_call s0 x tr cs s c s' (k : est → est) :
  along s0 x tr cs s → (∀ e, e_calls (k e) = e_calls e ∧ e_tr (k e) = e_tr e) →
  regs s' RSP = sp top [x; regs s0 RBX] → frame_at (words s') top n [x; regs s0 RBX] → kept s s' →
  mm s' = k (add_call (recorded c s) (mm s)) → along s0 x tr (cs ++ [c]) s'.
Proof using room4 top_aligned enough.
  intros [A0 A1 A2 A3 (l & A4 & A5 & A6)] Hk H1 H2 [_ _ K3] E. destruct (Hk (add_call (recorded c s) (mm s))) as [Hk1 Hk2].
  split; [by rewrite E, Hk2|done|done|by apply K3|]. exists (l ++ [recorded c s]). rewrite E, Hk1. cbn [add_call e_calls].
  split_and!; [by rewrite A4, (assoc_L (++))|by rewrite fmap_app, A5|]. apply Forall_app. split; [done|]. apply Forall_singleton.
  split; [|done]. cbn [c_rsp recorded]. rewrite A1. unfold sp. simpl length.
  replace (top - 8 * Z.of_nat 2) with (top + (-1) * 16) by lia. by rewrite Z.mod_add by lia.
Qed.

Lemma along_fn s0 x tr cs s c (Q : unit → mach est → Prop) :
  c ∈ entry_functions → along s0 x tr cs s → (∀ s', along s0 x tr (cs ++ [c]) s' → (simd_ready (mm s) → simd_ready (mm s')) → Q tt s') → wp (call_fn fn ret_addr c) s Q.
Proof using fn_keeps room4 top_aligned enough.
  intros Hc Ha HQ. pose proof Ha as [_ A1 A2 _ _]. eapply wp_call_fn; [exact Hc|exact A1|exact A2|simpl; lia|]. intros s' H1 H2 K E.
  apply HQ; [by apply (along_call s0 x tr cs s c s' (λ e, e))|]. rewrite E. done.
Qed.

Lemma along_asm s0 x tr cs s c f (P : est → Prop) k (Q : unit → mach est → Prop) :
  returns top n room ret_addr f P k → (∀ e, e_calls (k e) = e_calls e ∧ e_tr (k e) = e_tr e) → (∀ c, P (add_call c (mm s))) →
  along s0 x tr cs s → (∀ s', along s0 x tr (cs ++ [c]) s' → Q tt s') → wp (call_asm ret_addr c f) s Q.
Proof using room4 top_aligned enough.
  intros Hf Hk HP Ha HQ. pose proof Ha as [_ A1 A2 _ _]. eapply (wp_call_asm top n room); [exact Hf|apply HP|exact A1|exact A2|simpl; lia|].
  intros s' H1 H2 K E. apply HQ. by apply (along_call s0 x tr cs s c s' k).
Qed.

Lemma simd_effect_calls e : e_calls (simd_effect cpuid_ e) = e_calls e ∧ e_tr (simd_effect cpuid_ e) = e_tr e.
Proof using Type. unfold simd_effect. by destruct (has_avx cpuid_). Qed.

(** Loading the task register. *)
Lemma along_ltr s0 x tr cs s f t :
  along s0 x tr cs s → f (regs s) RSP = regs s RSP → f (regs s) RFLAGS = regs s RFLAGS →
  along s0 x t cs (upd_mm (set_tr t (mm s)) (upd_regs f s)).
Proof using Type. intros [A0 A1 A2 A3 A4] E1 E2. split; msimpl; rewrite ?E1, ?E2; done. Qed.

(** From the boot code, with the address of the loader's information in RBX. *)
Lemma wp_long_mode_entry s :
  top = Z.ldiff (regs s RSP) 0xF → frame_at (words s) top n [] → simd_ready (mm s) → Z.testbit (regs s RFLAGS) IF = false →
  wp (long_mode_entry fn ctors cpuid_ ret_addr kmain_addr) s (λ _ s',
    regs s' RIP = kmain_addr ∧ regs s' RDI = regs s RBX ∧ Z.testbit (regs s' RFLAGS) IF = false ∧ e_tr (mm s') = GDT_TSS ∧
    ∃ cs, e_calls (mm s') = e_calls (mm s) ++ cs ∧ c_fn <$> cs = entry_calls ∧
      Forall (λ c, c_rsp c mod 16 = 0 ∧ c_irq c = false) cs).
Proof using fn_keeps ctors_keep room4 top_aligned enough.
  intros Etop Hf Hsimd Hif. unfold long_mode_entry, upd_e.
  apply wp_bind, wp_rr, wp_bind, wp_wreg, wp_bind, wp_rr, wp_bind, wp_wreg, wp_bind, wp_modify, wp_bind, wp_rr, wp_bind, wp_wreg. msimpl.
  apply wp_bind. eapply (wp_push_reg _ top n []); [msimpl; unfold sp; simpl; lia|exact Hf|simpl; lia|]. intros w1 F1 _. msimpl in F1.
  destruct (frame_reserve top n w1 [regs s RBX] F1 ltac:(simpl; lia)) as [x F2].
  apply wp_bind, wp_rr, wp_bind, wp_wreg. msimpl.
  assert (u64 (sp top [regs s RBX] - 8) = sp top [x; regs s RBX]) as ->.
  { rewrite (sp_cons top x). apply uwrap_id. destruct F1 as [_ _ _ Hlo Hhi]. unfold in_u, sp. simpl length. lia. }
  match goal with |- wp _ ?s1 _ => assert (along s x (e_tr (mm s)) [] s1) as A0; [|assert (simd_ready (mm s1)) as R0 by exact Hsimd; revert A0 R0; generalize s1] end.
  { split; msimpl; cbn [set_data e_calls]; [done|done|exact F2|exact Hif|]. exists []. by rewrite app_nil_r. }
  clear F1 F2 Hf. intros s1 A0 R0.
  apply wp_bind; eapply (along_fn s x); [by_decision|exact A0|]. intros s2 A2 R2. specialize (R2 R0).
  apply wp_bind; eapply (along_fn s x); [by_decision|exact A2|]. intros s3 A3 R3. specialize (R3 R2).
  apply wp_bind; eapply (along_fn s x); [by_decision|exact A3|]. intros s4 A4 R4. specialize (R4 R3).
  apply wp_bind; eapply (along_fn s x); [by_decision|exact A4|]. intros s5 A5 R5. specialize (R5 R4).
  apply wp_bind, wp_rr, wp_bind, wp_wreg, wp_bind, wp_rr, wp_bind, wp_modify. msimpl.
  assert (∀ a, u16 (Z.lor (Z.ldiff a 0xFFFF) GDT_TSS) = GDT_TSS) as Htr.
  { intros a. unfold uwrap. rewrite <-Z.land_ones by done. rewrite Z.land_lor_distr_l. change 0xFFFF with (Z.ones 16).
    rewrite Z.ldiff_land, <-Z.land_assoc, (Z.land_comm (Z.lnot _)), Z.land_lnot_diag, Z.land_0_r. done. }
  rewrite Htr. match goal with |- wp _ ?s1 _ => assert (along s x GDT_TSS _ s1) as A6 by (by apply (along_ltr _ _ _ _ _ _ _ A5)) end.
  revert A6. match goal with |- along _ _ _ _ ?s1 → _ => assert (simd_ready (mm s1)) as R6 by exact R5; revert R6; generalize s1 end. clear - fn_keeps ctors_keep room4 top_aligned enough.
  intros s6 R6 A6. apply wp_bind.
  eapply (along_asm s x _ _ _ _ _ _ _ _ (simd_returns cpuid_ top n room room4 ret_addr) simd_effect_calls (λ _, R6) A6). intros s7 A7.
  apply wp_bind; eapply (along_fn s x); [by_decision|exact A7|]. intros s8 A8 _.
  apply wp_bind, (along_asm s x _ _ _ _ _ _ _ _ init_returns (λ _, conj eq_refl eq_refl) (λ _, I) A8). intros s9 [B0 B1 B2 B3 (l & B4 & B5 & B6)].
  destruct (frame_pop _ _ _ _ _ B2) as [_ B2']. apply wp_bind, wp_rr, wp_bind, wp_wreg.
  assert (u64 (regs s9 RSP + 8) = sp top [regs s RBX]) as ->.
  { rewrite B1, (sp_cons top x). rewrite uwrap_id; [lia|]. destruct B2 as [_ _ _ Hlo Hhi]. unfold in_u, sp. simpl length. lia. }
  apply wp_bind, (wp_pop _ top n (regs s RBX) []); [done|exact B2'|]. intros B2''. msimpl.
  apply wp_bind, wp_record, wp_bind, (wp_push _ top n []); [done|exact B2''|simpl; lia|]. intros w' _ _. apply wp_wreg. msimpl.
  split_and!; [done|done|exact B3|exact B0|]. cbn [add_call e_calls]. rewrite B4, <-(assoc_L (++)). eexists. split; [reflexivity|].
  split; [by rewrite fmap_app, B5|].
  apply Forall_app. split; [done|]. apply Forall_singleton. split; [|exact B3]. cbn [c_rsp recorded]. msimpl. unfold sp. simpl. by rewrite Z.sub_0_r.
Qed.
End theorems.

(** ** kmain *)

Definition kmain_early : list callee :=
  [percpu_init_bsp; vmm_init; mmap_init; vmm_map_all; mmap_dump_info; acpi_init; smbios_init; apic_init; pmm_init;
   lapic_enable; ioapic_init; ps2_init; pit_init].

(** A function that leaves interrupts off if they are. *)
Definition stays_off (f : M (mach est) unit) : Prop :=
  ∀ s, wp f s (λ _ s', (Z.testbit (regs s RFLAGS) IF = false → Z.testbit (regs s' RFLAGS) IF = false) ∧ mm s' = mm s).

Section kmain_spec.
Context (fn : callee → M (mach est) unit).
Hypothesis fn_off : ∀ c, c ∈ kmain_early ++ [smp_init] → stays_off (fn c).

Lemma wp_run c s (Q : unit → mach est → Prop) :
  c ∈ kmain_early ++ [smp_init] →
  (∀ s', (Z.testbit (regs s RFLAGS) IF = false → Z.testbit (regs s' RFLAGS) IF = false) → mm s' = add_call (recorded c s) (mm s) → Q tt s') →
  wp (run fn c) s Q.
Proof using fn_off.
  intros Hc HQ. unfold run. apply wp_bind, wp_record. eapply wp_mono; [by apply fn_off|]. intros [] s' [H1 H2]. by apply HQ.
Qed.

(** The calls so far, all made with interrupts off. *)
Definition made (l : list callee) (e e' : est) : Prop :=
  ∃ cs, e_calls e' = e_calls e ++ cs ∧ c_fn <$> cs = l ∧ Forall (λ c, c_irq c = false) cs ∧ e_mboot e' = e_mboot e ∧ e_tr e' = e_tr e.

Lemma made_nil e : made [] e e.
Proof using Type. exists []. by rewrite app_nil_r. Qed.

Lemma made_call l e s c : made l e (mm s) → Z.testbit (regs s RFLAGS) IF = false → made (l ++ [c]) e (add_call (recorded c s) (mm s)).
Proof using Type.
  intros (cs & E1 & E2 & E3 & E4 & E5) Hb. exists (cs ++ [recorded c s]). cbn [add_call e_calls e_mboot e_tr].
  split_and!; [by rewrite E1, (assoc_L (++))|by rewrite fmap_app, E2| |done|done]. apply Forall_app. split; [done|]. by apply Forall_singleton.
Qed.

Lemma wp_run_step l e s c {A} (k : M (mach est) A) (Q : A → mach est → Prop) :
  c ∈ kmain_early ++ [smp_init] → made l e (mm s) → Z.testbit (regs s RFLAGS) IF = false →
  (∀ s', made (l ++ [c]) e (mm s') → Z.testbit (regs s' RFLAGS) IF = false → wp k s' Q) → wp (run fn c;; k) s Q.
Proof using fn_off.
  intros Hc Hm Hb HQ. apply wp_bind, wp_run; [done|]. intros s1 Hb1 E1. apply HQ; [rewrite E1; by apply made_call|by apply Hb1].
Qed.

(** Everything up to the timer is called with interrupts off, the start of
    the other processors with interrupts on, and then the scheduler, which
    does not return. *)
Lemma wp_kmain s mboot_info_phys (Q : unit → mach est → Prop) :
  Z.testbit (regs s RFLAGS) IF = false →
  (∀ s' e c1 c2, made kmain_early (set_mboot (phys_to_kern mboot_info_phys) (mm s)) e →
     mm s' = add_call c2 (add_call c1 e) → c_fn c1 = smp_init → c_irq c1 = true → c_fn c2 = sched_run_bsp →
     wp (fn sched_run_bsp) s' Q) →
  wp (kmain fn mboot_info_phys) s Q.
Proof using fn_off.
  intros Hi HQ. unfold kmain, upd_e. apply wp_bind, wp_modify.
  match goal with |- wp _ ?s1 _ => assert (made [] (set_mboot (phys_to_kern mboot_info_phys) (mm s)) (mm s1)) as Hm by apply made_nil;
    assert (Z.testbit (regs s1 RFLAGS) IF = false) as Hb by exact Hi; revert Hm Hb; generalize s1 end. intros s1 Hm Hb.
  do 13 (eapply wp_run_step; [by_decision|exact Hm|exact Hb|]; clear dependent s1; intros s1 Hm Hb).
  apply wp_bind, wp_rr, wp_bind, wp_wreg, wp_bind, wp_run; [by_decision|]. intros s2 _ E2.
  unfold run. apply wp_bind, wp_record. eapply HQ; [exact Hm|msimpl; by rewrite E2|done|msimpl; by apply Z.setbit_eq|done].
Qed.
End kmain_spec.

(** ** The start of the kernel *)

(** What holds when the scheduler is entered, after a start in [s]. *)
Record at_scheduler (s s' : mach est) : Prop := {
  as_tr : e_tr (mm s') = GDT_TSS;
  as_mboot : e_mboot (mm s') = phys_to_kern (regs s RBX);
  as_calls : ∃ l k c1 c2, e_calls (mm s') = e_calls (mm s) ++ l ++ k ++ [c1; c2] ∧
    c_fn <$> l = entry_calls ∧ Forall (λ c, c_rsp c mod 16 = 0 ∧ c_irq c = false) l ∧
    c_fn <$> k = kmain_early ∧ Forall (λ c, c_irq c = false) k ∧
    c_fn c1 = smp_init ∧ c_irq c1 = true ∧ c_fn c2 = sched_run_bsp
}.

(** C28: From the jump of the boot code, with interrupts off, the kernel gets
    to the scheduler: the call of [kmain] is reached with the task register
    holding the TSS and the address of the loader's information, which the
    boot code left in RBX, as its argument; the stack is aligned to sixteen
    bytes at every call of [long_mode_entry], as the calling convention asks;
    interrupts are off at every call up to the one that starts the other
    processors, where they are on.  The functions that are called before
    [sched_run_bsp] are relied on to return, those called by
    [long_mode_entry] with the stack, RBX and RBP as they were, and never to
    turn on interrupts that are off; [sched_run_bsp] may do anything, [Q]. *)
Theorem entry_correct fn ctors cpuid_ ret_addr kmain_addr top n room s Q :
  (∀ c, c ∈ entry_functions → keeps top n room (fn c)) → keeps top n room ctors →
  (∀ c, c ∈ kmain_early ++ [smp_init] → stays_off (fn c)) → (4 ≤ room)%nat → (4 + room ≤ n)%nat →
  top = Z.ldiff (regs s RSP) 0xF → frame_at (words s) top n [] → simd_ready (mm s) → Z.testbit (regs s RFLAGS) IF = false →
  (∀ s', at_scheduler s s' → wp (fn sched_run_bsp) s' Q) →
  wp (start_kernel fn ctors cpuid_ ret_addr kmain_addr) s Q.
Proof.
  intros Hfn Hct Hoff H4 Hn Etop Hf Hs Hif HQ. unfold start_kernel.
  eapply wp_seq; [apply (wp_long_mode_entry _ _ _ _ _ top n room); try done|].
  { rewrite Etop. change 0xF with (Z.ones 4). rewrite Z.ldiff_ones_r, Z.shiftl_mul_pow2 by lia. change (2 ^ 4) with 16. by rewrite Z.mod_mul by lia. }
  intros _ s1 (Hip & Hdi & Hif1 & Htr & l & E1 & El & Hl). apply wp_bind, wp_rr. rewrite Hip, Z.eqb_refl. apply wp_bind, wp_rr.
  apply wp_kmain; [done..|]. intros s' e c1 c2 (k & Ek & Hk & Hirq & Emb & Et) Es' H1 H2 H3. apply HQ.
  split; rewrite Es'; cbn [add_call e_tr e_mboot e_calls]; [by rewrite Et|by rewrite Emb, Hdi|]. exists l, k, c1, c2. split; [|done].
  rewrite Ek. cbn [set_mboot e_calls]. rewrite E1. by rewrite <-!(assoc_L (++)).
Qed.

(** The idle task has interrupts on whenever it halts. *)
Theorem idle_task_irqs s wakes : wp (idle_task wakes) s (λ _ s', Z.testbit (regs s' RFLAGS) IF = true).
Proof.
  revert s. induction wakes as [|w IH]; intros s; cbn [idle_task]; (apply wp_bind, wp_rr, wp_bind, wp_wreg); [|apply IH].
  apply wp_ret. msimpl. by apply Z.setbit_eq.
Qed.

(** ** Examples *)

Module EntryDemo.
Definition nothing : M (mach est) unit := mret tt.
Definition regs0 : regfile := λ r, match r with RSP => 0x10004 | RBX => 0x9000 | _ => 0 end.
Definition stack : gmap Z Z := list_to_map ((λ k, (0x10000 - 8 * (Z.of_nat k + 1), 0)) <$> seq 0 8).
Definition start : mach est := mk_mach regs0 stack ∅ 0 0 0 0 0 ∅ (mk_est 0x620 1 0 0 [] 0).

Lemma nothing_keeps : keeps 0x10000 8 4 nothing.
Proof. intros s l H1 H2 H3. apply wp_ret. split_and!; [done..|by split|done]. Qed.

(** [interrupts_init] turns interrupts off; the scheduler is a last step that
    records where the kernel is. *)
Definition fns (c : callee) : M (mach est) unit :=
  match c with
  | interrupts_init => fl ← rr RFLAGS; wr RFLAGS (Z.clearbit fl IF)
  | sched_run_bsp => wr RIP 0x7777
  | _ => nothing
  end.

Lemma off_keeps : keeps 0x10000 8 4 (fns interrupts_init).
Proof. intros s l H1 H2 H3. apply wp_bind, wp_rr, wp_wreg. msimpl. split_and!; [done..| |done]. split; msimpl; [done..|]. intros _. by apply Z.clearbit_eq. Qed.

Lemma fns_keep c : c ∈ entry_functions → keeps 0x10000 8 4 (fns c).
Proof.
  intros Hc. unfold entry_functions in Hc. rewrite !elem_of_cons, elem_of_nil in Hc.
  destruct Hc as [->|[->|[->|[->|[->|[]]]]]]; [apply nothing_keeps..|apply off_keeps|apply nothing_keeps].
Qed.

Lemma fns_off c : c ∈ kmain_early ++ [smp_init] → stays_off (fns c).
Proof.
  intros Hc s. destruct (decide (c = sched_run_bsp)) as [->|]; [exfalso|].
  2: { destruct c; try done; try (by apply wp_ret). apply wp_bind, wp_rr, wp_wreg. msimpl. split; [|done]. intros _. by apply Z.clearbit_eq. }
  revert Hc; change (¬ sched_run_bsp ∈ kmain_early ++ [smp_init]); by_decision.
Qed.

Lemma room : frame_at stack 0x10000 8 [].
Proof.
  split; [|by intros i x|simpl; lia|simpl; lia|lia].
  intros k Hk. do 8 (destruct k as [|k]; [by eexists; vm_compute|]). lia.
Qed.
End EntryDemo.

Lemma entry_correct_witness :
  wp (start_kernel EntryDemo.fns EntryDemo.nothing (λ _ _, mk_cpuid 0 0 0x14000000 0) 0 0x4000) EntryDemo.start
    (λ _ s', regs s' RIP = 0x7777 ∧ at_scheduler EntryDemo.start s').
Proof.
  apply (entry_correct EntryDemo.fns EntryDemo.nothing (λ _ _, mk_cpuid 0 0 0x14000000 0) 0 0x4000 0x10000 8 4 EntryDemo.start).
  - exact EntryDemo.fns_keep.
  - exact EntryDemo.nothing_keeps.
  - exact EntryDemo.fns_off.
  - lia.
  - lia.
  - reflexivity.
  - exact EntryDemo.room.
  - split_and!; by vm_compute.
  - reflexivity.
  - intros s' [H1 H2 H3]. apply wp_wreg. split; [done|]. by split.
Defined.
