(* ===== verification/SchedInv.v ===== *)
(** * Scheduler: run queues as ordered lists

    A run queue stands for a list of tasks ordered by virtual runtime, with no
    task on two queues.  The operations of kernel/proc/runq.c are shown to
    implement the obvious operations on those lists. *)

From stdpp Require Import base list gmap.
From Stdlib Require Import ZArith Lia Bool Sorting.Sorted.
From S2P Require Import Prelude RbModel RbTree RbRepr RbRotate RbInsert RbWalk RbErase RbDelete RbSpec.
From S2P Require Import Addr Cpuset Sched.
Local Open Scope Z_scope.

(** ** The abstract queue *)

(** Before the first task with a larger key: first come, first served among
    equals. *)
Fixpoint enqueue (key : Z → Z) (t : Z) (D : list Z) : list Z :=
  match D with
  | [] => [t]
  | a :: D' => if key t <? key a then t :: D else a :: enqueue key t D'
  end.

Definition ordered (key : Z → Z) : list Z → Prop := StronglySorted (λ a b, key a ≤ key b).

Lemma enqueue_split key t pre post :
  Forall (λ a, key a ≤ key t) pre → Forall (λ a, key t < key a) post →
  enqueue key t (pre ++ post) = pre ++ t :: post.
Proof.
  intros Hpre Hpost. induction Hpre as [|a pre Ha Hpre IH]; simpl.
  - destruct Hpost as [|b post Hb _]; simpl; [done|]. by apply Z.ltb_lt in Hb as ->.
  - apply Z.ltb_ge in Ha as ->. by rewrite IH.
Qed.

Lemma enqueue_perm key t D : enqueue key t D ≡ₚ t :: D.
Proof.
  induction D as [|a D IH]; simpl; [done|]. destruct (_ <? _); [done|]. rewrite IH. constructor.
Qed.

Lemma enqueue_ordered key t D : ordered key D → ordered key (enqueue key t D).
Proof.
  induction 1 as [|a D HD IH Ha]; simpl; [repeat constructor|].
  destruct (Z.ltb_spec (key t) (key a)).
  - constructor; [by constructor|]. constructor; [lia|].
    eapply Forall_impl; [exact Ha|]. simpl. lia.
  - constructor; [done|]. rewrite enqueue_perm. by constructor.
Qed.

Lemma ordered_ext key key' D :
  (∀ a, a ∈ D → key' a = key a) → ordered key D → ordered key' D.
Proof.
  intros He. induction 1 as [|a D HD IH Ha]; [constructor|].
  constructor; [apply IH; set_solver|]. rewrite Forall_forall in Ha |- *. intros b Hb.
  rewrite !He by set_solver. by apply Ha.
Qed.

Lemma enqueue_ext key key' t D :
  key' t = key t → (∀ a, a ∈ D → key' a = key a) → enqueue key' t D = enqueue key t D.
Proof.
  intros Ht. induction D as [|a D IH]; simpl; intros He; [done|].
  rewrite Ht, (He a) by set_solver. destruct (_ <? _); [done|]. rewrite IH by set_solver. done.
Qed.

Lemma ordered_app_inv key l1 a l2 :
  ordered key (l1 ++ a :: l2) →
  Forall (λ b, key b ≤ key a) l1 ∧ Forall (λ b, key a ≤ key b) l2.
Proof.
  induction l1 as [|b l1 IH]; simpl; inversion 1 as [|? ? Hs Hb]; subst.
  - by split.
  - destruct (IH Hs) as [H1 H2]. split; [|done]. constructor; [|done].
    rewrite Forall_forall in Hb. apply Hb. set_solver.
Qed.

Lemma ordered_delete key l1 a l2 : ordered key (l1 ++ a :: l2) → ordered key (l1 ++ l2).
Proof.
  induction l1 as [|b l1 IH]; simpl; inversion 1 as [|? ? Hs Hb]; subst; [done|].
  constructor; [by apply IH|]. rewrite Forall_app, Forall_cons in Hb. rewrite Forall_app. tauto.
Qed.

(** Addresses are finite in number. *)
Lemma addresses_bound (l : list Z) :
  NoDup l → Forall valid l → Z.of_nat (length l) < 2 ^ 64.
Proof.
  intros Hnd Hl.
  assert (l ⊆+ seqZ 1 (2 ^ 64 - 1)) as Hsub%submseteq_length.
  { apply NoDup_submseteq; [done|]. intros a Ha. rewrite Forall_forall in Hl.
    apply elem_of_seqZ. destruct (Hl _ Ha) as [? _]. lia. }
  rewrite length_seqZ in Hsub. lia.
Qed.

(** ** Run queues in memory *)

Definition vr_of (ts : gmap Z task) (t : Z) : Z :=
  match ts !! t with Some tk => vruntime tk | None => 0 end.

Definition tree_of (kn : gmap Z rb_node) (q : runq) : rbstate := mk_rbstate kn (rq_tree q).

(** [q] holds exactly the tasks [D], in order of virtual runtime. *)
Record rq_holds (kn : gmap Z rb_node) (ts : gmap Z task) (q : runq) (D : list Z) : Prop := {
  rqh_tree : rbtree_is (tree_of kn q) (node_of <$> D);
  rqh_num : num_threads q = Z.of_nat (length D);
  rqh_ord : ordered (vr_of ts) D;
  rqh_tasks : Forall (λ t, t ≠ NULL ∧ is_Some (ts !! t)) D;
}.

(** Every run queue holds its list, and no task is on two of them. *)
Record queues (s : kstate) (Qs : gmap Z (list Z)) : Prop := {
  qs_dom : ∀ rq D, Qs !! rq = Some D → rq ≠ NULL ∧
    ∃ q, runqs s !! rq = Some q ∧ rq_holds (knodes s) (tasks s) q D;
  qs_disj : ∀ rq rq' D D', Qs !! rq = Some D → Qs !! rq' = Some D' → rq ≠ rq' →
    ∀ t, t ∈ D → t ∉ D';
}.

#[global] Instance node_of_inj : Inj (=) (=) node_of.
Proof. intros x y. unfold node_of. lia. Qed.

Lemma task_of_node_of t : task_of (node_of t) = t.
Proof. unfold task_of, node_of. lia. Qed.

Lemma rq_holds_nodup kn ts q D : rq_holds kn ts q D → NoDup D ∧ Forall (λ t, valid (node_of t)) D.
Proof.
  intros [Ht _ _ _]. destruct (rbtree_is_nodup _ _ Ht) as [Hn Hv]. split.
  - by apply NoDup_fmap_1 in Hn.
  - by rewrite Forall_fmap in Hv.
Qed.

Lemma elem_node_of t (D : list Z) : node_of t ∈ node_of <$> D ↔ t ∈ D.
Proof.
  rewrite list_elem_of_fmap. split; [|eauto]. by intros (u & ->%(inj _) & ?).
Qed.

(** Heaps and task tables that agree on the queue. *)
Lemma rq_holds_frame kn kn' ts ts' q q' D :
  rq_holds kn ts q D → rq_tree q' = rq_tree q → num_threads q' = num_threads q →
  (∀ t, t ∈ D → kn' !! node_of t = kn !! node_of t) →
  (∀ t, t ∈ D → is_Some (ts' !! t) ∧ vr_of ts' t = vr_of ts t) →
  rq_holds kn' ts' q' D.
Proof.
  intros [Ht Hn Ho Hp] Htr Hnum Hk Hts. split.
  - eapply rbtree_is_frame; [exact Ht| |done]. intros a (t & -> & Hin)%list_elem_of_fmap. by apply Hk.
  - by rewrite Hnum.
  - eapply ordered_ext; [|exact Ho]. intros a Ha. by apply Hts.
  - rewrite Forall_forall in Hp |- *. intros a Ha. split; [by apply Hp|by apply Hts].
Qed.

(** ** Run queue trees *)

Definition put_tree (rq : Z) (q : runq) (t : rbstate) (s : kstate) : kstate :=
  mk_kstate (nodes t) (tasks s) (<[rq := rq_set_tree (tr t) q]> (runqs s)) (mmus s)
    (percpu_table s) (self s) (cr3 s) (rsp s).

Lemma wp_on_tree {A} s rq q (m : M rbstate A) (Q : A → kstate → Prop) :
  runqs s !! rq = Some q → rq ≠ NULL →
  wp m (tree_of (knodes s) q) (λ x t, Q x (put_tree rq q t s)) → wp (on_tree rq m) s Q.
Proof.
  intros Hq Hne Hm. unfold on_tree. apply wp_bind. eapply wp_deref; [done..|]. by apply wp_zoom.
Qed.

Lemma put_tree_id s rq q : runqs s !! rq = Some q → put_tree rq q (tree_of (knodes s) q) s = s.
Proof.
  intros Hq. unfold put_tree, rq_set_tree. simpl. destruct s, q. simpl in *. by rewrite insert_id.
Qed.

(** Reading operations leave the state alone. *)
Lemma wp_on_tree_read {A} s rq q (m : M rbstate A) (Q : A → kstate → Prop) :
  runqs s !! rq = Some q → rq ≠ NULL →
  wp m (tree_of (knodes s) q) (λ x t, t = tree_of (knodes s) q ∧ Q x s) → wp (on_tree rq m) s Q.
Proof.
  intros Hq Hne Hm. eapply wp_on_tree; [done..|]. eapply wp_mono; [exact Hm|].
  intros x t [-> HQ]. by rewrite put_tree_id.
Qed.

Lemma wp_entity_vruntime s t tk (Q : Z → kstate → Prop) :
  tasks s !! t = Some tk → t ≠ NULL → node_of t ≠ NULL → Q (vruntime tk) s →
  wp (entity_vruntime (node_of t)) s Q.
Proof.
  intros Ht Hne Hn HQ. unfold entity_vruntime. apply Z.eqb_neq in Hn as ->.
  rewrite task_of_node_of. apply wp_bind. eapply wp_deref; [done..|]. by apply wp_ret.
Qed.

(** ** The descent of [tree_insert] *)

Section search.
Context (s : kstate) (rq : Z) (q : runq) (T : tree) (v : Z).
Context (Hq : runqs s !! rq = Some q) (Hrq : rq ≠ NULL).
Context (HT : tree_is (tree_of (knodes s) q) T).

(** Virtual runtime of the task around a node. *)
Definition nkey (n : Z) : Z := vr_of (tasks s) (task_of n).

Context (Hord : ordered nkey (inorder T)).
Context (Htasks : Forall (λ n, task_of n ≠ NULL ∧ is_Some (tasks s !! task_of n)) (inorder T)).

Lemma wp_nkey n (Q : Z → kstate → Prop) :
  n ∈ inorder T → Q (nkey n) s → wp (entity_vruntime n) s Q.
Proof using HT Htasks.
  intros Hn HQ. rewrite Forall_forall in Htasks. destruct (Htasks _ Hn) as [Hne [tk Htk]].
  assert (node_of (task_of n) = n) as En by (unfold node_of, task_of; lia).
  rewrite <-En. eapply wp_entity_vruntime; [done..| |].
  - rewrite En. destruct HT as [[_ _ Hv _] _ _]. rewrite Forall_forall in Hv. by apply valid_ne, Hv.
  - unfold nkey, vr_of in HQ. by rewrite Htk in HQ.
Qed.

(** [*link] for the hole of a context. *)
Lemma wp_link_get k t (Q : Z → rbstate → Prop) :
  T = plug k t → Q (root t) (tree_of (knodes s) q) →
  wp (link_get (ctx_link k)) (tree_of (knodes s) q) Q.
Proof using HT.
  intros Et HQ. pose proof (is_repr _ _ HT) as HT'. rewrite Et in HT'.
  pose proof (holds_start _ _ HT') as Hh. destruct k as [|f k]; simpl.
  - unfold get_root. apply wp_bind, wp_get, wp_ret.
    by rewrite (repr_root _ _ HT').
  - destruct f as [a c o|a c o]; simpl; apply wp_bind;
      [apply (wp_rd_frame _ _ _ (FL a c o) k t _ Hh)|apply (wp_rd_frame _ _ _ (FR a c o) k t _ Hh)];
      by apply wp_ret.
Qed.

Lemma wp_tree_search (Q : rb_link * Z → kstate → Prop) :
  (∀ k, T = plug k Leaf → Forall (λ a, nkey a ≤ v) (cbefore k) →
        Forall (λ a, v < nkey a) (cafter k) → Q (ctx_link k, cparent k) s) →
  wp (tree_search rq v) s Q.
Proof using All.
  intros HQ. unfold tree_search. apply wp_bind.
  eapply wp_on_tree_read; [done..|]. unfold walk_fuel. apply wp_bind, wp_get, wp_ret. split; [done|].
  eapply (wp_loop (λ n '(link, parent) s', s' = s ∧ ∃ k t, T = plug k t ∧
    link = ctx_link k ∧ parent = cparent k ∧ n = tsize t ∧
    Forall (λ a, nkey a ≤ v) (cbefore k) ∧ Forall (λ a, v < nkey a) (cafter k))).
  - intros n [link parent] s' (-> & k & t & Et & -> & -> & -> & Hb & Ha).
    apply wp_bind. eapply wp_on_tree_read; [done..|]. eapply wp_link_get; [done|]. split; [done|].
    destruct t as [|a c l r]; simpl; [apply wp_ret; by apply HQ|].
    assert (a ∈ inorder T) as Hin by (rewrite Et; apply elem_inorder_plug; set_solver).
    destruct (Z.eqb_spec a NULL) as [->|].
    { destruct HT as [[_ _ Hv _] _ _]. rewrite Forall_forall in Hv. by destruct (valid_ne _ (Hv _ Hin)). }
    apply wp_bind, wp_nkey; [done|]. apply wp_ret.
    pose proof Hord as Hs. rewrite Et, inorder_plug in Hs. simpl in Hs.
    rewrite <-!(assoc_L (++)), (assoc_L (++)) in Hs. simpl in Hs.
    apply ordered_app_inv in Hs as [Hs1 Hs2]. rewrite Forall_app in Hs1, Hs2.
    destruct (Z.ltb_spec v (nkey a)).
    + exists (tsize l). split; [lia|]. split; [done|]. exists (FL a c r :: k), l.
      split_and!; try done. simpl. constructor; [done|]. apply Forall_app. split; [|done].
      eapply Forall_impl; [apply Hs2|]. simpl. lia.
    + exists (tsize r). split; [lia|]. split; [done|]. exists (FR a c l :: k), r.
      split_and!; try done. simpl. rewrite !Forall_app. split_and!; [done| |repeat constructor; lia].
      eapply Forall_impl; [apply Hs1|]. simpl. lia.
  - split; [done|]. exists [], T. by split_and!.
  - eapply (holds_tsize _ _ _ []), holds_start, HT.
Qed.
End search.

(** ** [tree_insert] and [tree_remove] *)

(** The heap of nodes and one run queue replaced. *)
Definition set_rq (rq : Z) (q : runq) (kn : gmap Z rb_node) (s : kstate) : kstate :=
  mk_kstate kn (tasks s) (<[rq := q]> (runqs s)) (mmus s) (percpu_table s) (self s) (cr3 s) (rsp s).

Lemma put_tree_set_rq rq q t s : put_tree rq q t s = set_rq rq (rq_set_tree (tr t) q) (nodes t) s.
Proof. done. Qed.

Lemma set_rq_set_rq rq q q' kn kn' s : set_rq rq q' kn' (set_rq rq q kn s) = set_rq rq q' kn' s.
Proof. unfold set_rq. simpl. by rewrite insert_insert_eq. Qed.

Lemma ordered_nkey s D : ordered (vr_of (tasks s)) D → ordered (nkey s) (node_of <$> D).
Proof.
  induction 1 as [|a D HD IH Ha]; simpl; constructor; [done|].
  rewrite Forall_fmap. eapply Forall_impl; [exact Ha|]. intros b. unfold nkey. simpl.
  by rewrite !task_of_node_of.
Qed.

(** The flag that [tree_insert] passes: the new task comes first. *)
Lemma wp_is_first s s1 q T k v (Q : bool → kstate → Prop) :
  tasks s1 = tasks s → tree_is (tree_of (knodes s) q) T →
  Forall (λ n, task_of n ≠ NULL ∧ is_Some (tasks s !! task_of n)) (inorder T) →
  T = plug k Leaf → Forall (λ a, nkey s a ≤ v) (cbefore k) → Forall (λ a, v < nkey s a) (cafter k) →
  (∀ b, (b = true ↔ cbefore k = []) → Q b s1) →
  wp (if most_left (rq_tree q) =? NULL then mret true
      else x ← entity_vruntime (most_left (rq_tree q)); mret (v <? x)) s1 Q.
Proof.
  intros Hts1 HT Hts Et Hb Ha HQ. pose proof (is_left _ _ HT) as Hml. simpl in Hml.
  assert (inorder T = cbefore k ++ cafter k) as Hin by by rewrite Et, inorder_plug.
  destruct (cbefore k ++ cafter k) as [|z zs] eqn:Ez.
  - rewrite Hml, Hin. simpl. apply wp_ret, HQ. apply app_nil in Ez as [-> _]. done.
  - assert (z ∈ inorder T) as Hz by (rewrite Hin; set_solver).
    pose proof (repr_valid _ _ (is_repr _ _ HT)) as Hv. rewrite Forall_forall in Hv.
    pose proof (valid_ne _ (Hv _ Hz)) as Hne. rewrite Hml, Hin. simpl.
    apply Z.eqb_neq in Hne as Hne'. rewrite Hne'. apply wp_bind. rewrite Forall_forall in Hts.
    destruct (Hts _ Hz) as [Hz0 [tk Htk]].
    assert (node_of (task_of z) = z) as Enz by (unfold node_of, task_of; lia).
    rewrite <-Enz. eapply wp_entity_vruntime; [by rewrite Hts1|done|by rewrite Enz|].
    assert (nkey s z = vruntime tk) as <- by (unfold nkey, vr_of; by rewrite Htk).
    apply wp_ret, HQ. rewrite Z.ltb_lt. destruct (cbefore k) as [|b bs]; simpl in Ez.
    + rewrite Ez in Ha. inversion Ha; subst. done.
    + injection Ez as -> _. inversion Hb; subst. split; [lia|done].
Qed.

Lemma bool_decide_ext_bool (P : Prop) `{Decision P} (b : bool) : (b = true ↔ P) → bool_decide P = b.
Proof.
  intros [H1 H2]. destruct b; [by apply bool_decide_eq_true, H1|].
  apply bool_decide_eq_false. intros HP. discriminate (H2 HP).
Qed.

(** Linking and inserting through the run queue. *)
Lemma wp_queue_link s rq q T k t tk n0 (Q : unit → kstate → Prop) :
  runqs s !! rq = Some q → rq ≠ NULL → tree_is (tree_of (knodes s) q) T →
  Forall (λ n, task_of n ≠ NULL ∧ is_Some (tasks s !! task_of n)) (inorder T) →
  T = plug k Leaf → Forall (λ a, nkey s a ≤ vruntime tk) (cbefore k) →
  Forall (λ a, vruntime tk < nkey s a) (cafter k) →
  valid (node_of t) → knodes s !! node_of t = Some n0 → node_of t ∉ inorder T →
  (∀ kn' q', rbtree_is (tree_of kn' q') (cbefore k ++ node_of t :: cafter k) →
     rq_lock q' = rq_lock q → rq_idle q' = rq_idle q → num_threads q' = u64 (num_threads q + 1) →
     (∀ a, a ∉ cbefore k ++ node_of t :: cafter k → kn' !! a = knodes s !! a) →
     Q tt (set_rq rq q' kn' s)) →
  wp (on_tree rq (rb_link_node (node_of t) (cparent k) (ctx_link k));;
      is_first ← (if most_left (rq_tree q) =? NULL then mret true
              else v ← entity_vruntime (most_left (rq_tree q)); mret (vruntime tk <? v));
      on_tree rq (rb_insert (node_of t) is_first);;
      wr_rq rq (λ q, rq_set_num (u64 (num_threads q + 1)) q)) s Q.
Proof.
  intros Hq Hrq HT Hts -> Hb Ha Hv Hn0 Hnin HQ.
  pose proof (wp_link_insert (tree_of (knodes s) q) k (node_of t) n0 (bool_decide (cbefore k = []))
    HT Hn0 Hv Hnin (bool_decide_eq_true _)) as Hli. apply wp_bind_inv in Hli.
  apply wp_bind. eapply wp_on_tree; [done..|]. eapply wp_mono; [exact Hli|].
  intros [] t1 Hins. apply wp_bind. eapply (wp_is_first s _ q _ k); [done|exact HT|done..|].
  intros b Hb'. assert (b = bool_decide (cbefore k = [])) as ->.
  { symmetry. apply bool_decide_ext_bool, Hb'. }
  apply wp_bind. eapply wp_on_tree; [apply lookup_insert_eq|done|].
  destruct t1 as [n1 r1]. eapply wp_mono; [exact Hins|]. intros [] t2 (T2 & HT2 & Hin2 & Hf2).
  eapply wp_store; [apply lookup_insert_eq|done|].
  assert (∀ u, upd_runqs (<[rq := u]>) (put_tree rq (rq_set_tree r1 q) t2 (put_tree rq q (mk_rbstate n1 r1) s))
    = set_rq rq u (nodes t2) s) as Hst.
  { intros u. unfold upd_runqs, put_tree, set_rq. simpl. by rewrite !insert_insert_eq. }
  rewrite Hst. apply HQ; simpl; try done.
  - exists T2. split; [by destruct t2|done].
  - rewrite <-Hin2. exact Hf2.
Qed.

Lemma wp_tree_insert s rq q D t tk (Q : unit → kstate → Prop) :
  runqs s !! rq = Some q → rq ≠ NULL → rq_holds (knodes s) (tasks s) q D →
  tasks s !! t = Some tk → t ≠ NULL → valid (node_of t) → is_Some (knodes s !! node_of t) → t ∉ D →
  (∀ kn' q', rq_holds kn' (tasks s) q' (enqueue (vr_of (tasks s)) t D) →
     rq_lock q' = rq_lock q → rq_idle q' = rq_idle q →
     (∀ a, a ∉ node_of <$> t :: D → kn' !! a = knodes s !! a) →
     Q tt (set_rq rq q' kn' s)) →
  wp (tree_insert rq t) s Q.
Proof.
  intros Hq Hrq HD Ht Hne Hv [n0 Hn0] HtD HQ. pose proof HD as [(T & HT & HinT) Hnum Hord Hts].
  assert (ordered (nkey s) (inorder T)) as Hord' by (rewrite HinT; by apply ordered_nkey).
  assert (Forall (λ n, task_of n ≠ NULL ∧ is_Some (tasks s !! task_of n)) (inorder T)) as Hts'.
  { rewrite HinT, Forall_fmap. eapply Forall_impl; [exact Hts|]. intros u. simpl.
    by rewrite task_of_node_of. }
  unfold tree_insert. apply wp_bind. eapply wp_on_tree_read; [done..|].
  unfold rb_first_cached, get_most_left. apply wp_bind, wp_get, wp_ret. split; [done|].
  apply wp_bind. eapply wp_deref; [done..|]. apply wp_bind.
  eapply (wp_tree_search s rq q T (vruntime tk)); [done..|]. intros k Ek Hb Ha.
  eapply wp_queue_link; try done; [by rewrite HinT, elem_node_of|].
  intros kn' q' Hrb Hlk Hid Hn' Hf'.
  assert (node_of <$> D = cbefore k ++ cafter k) as HDk by by rewrite <-HinT, Ek, inorder_plug.
  destruct (fmap_app_inv _ _ _ _ HDk) as (pre & post & Hpre & Hpost & ->).
  assert (vr_of (tasks s) t = vruntime tk) as Hkt by (unfold vr_of; by rewrite Ht).
  assert (enqueue (vr_of (tasks s)) t (pre ++ post) = pre ++ t :: post) as Henq.
  { apply enqueue_split; rewrite Hkt.
    - rewrite Hpre, Forall_fmap in Hb. eapply Forall_impl; [exact Hb|]. intros a. unfold nkey. simpl.
      by rewrite task_of_node_of.
    - rewrite Hpost, Forall_fmap in Ha. eapply Forall_impl; [exact Ha|]. intros a. unfold nkey. simpl.
      by rewrite task_of_node_of. }
  assert (cbefore k ++ node_of t :: cafter k = node_of <$> (pre ++ t :: post)) as Heq
    by by rewrite Hpre, Hpost, fmap_app, fmap_cons.
  rewrite Heq in Hrb, Hf'. apply HQ; [|done..|].
  - split; rewrite ?Henq; [done| |by rewrite <-Henq; apply enqueue_ordered|].
    + rewrite Hn', Hnum. destruct (rbtree_is_nodup _ _ Hrb) as [Hnd Hvd].
      pose proof (addresses_bound _ Hnd Hvd) as Hlen. rewrite length_fmap in Hlen.
      rewrite !length_app in *. simpl in *. rewrite uwrap_id; unfold in_u; lia.
    + rewrite Forall_app in Hts |- *. rewrite Forall_cons. naive_solver.
  - intros a Ha'. apply Hf'. rewrite fmap_app, fmap_cons, elem_of_app, elem_of_cons.
    rewrite fmap_cons, fmap_app, elem_of_cons, elem_of_app in Ha'. tauto.
Qed.

Lemma wp_tree_remove s rq q pre t post (Q : unit → kstate → Prop) :
  runqs s !! rq = Some q → rq ≠ NULL → rq_holds (knodes s) (tasks s) q (pre ++ t :: post) →
  (∀ kn' q', rq_holds kn' (tasks s) q' (pre ++ post) →
     rq_lock q' = rq_lock q → rq_idle q' = rq_idle q → is_Some (kn' !! node_of t) →
     (∀ a, a ∉ node_of <$> pre ++ t :: post → kn' !! a = knodes s !! a) →
     Q tt (set_rq rq q' kn' s)) →
  wp (tree_remove rq t) s Q.
Proof.
  intros Hq Hrq [Hrb Hnum Hord Hts] HQ. unfold tree_remove. apply wp_bind.
  rewrite fmap_app, fmap_cons in Hrb. eapply wp_on_tree; [done..|].
  eapply wp_mono; [by apply wp_erase|]. intros _ t1 (Hrb1 & (n & Hn & _) & Hf).
  eapply wp_store; [apply lookup_insert_eq|done|].
  assert (∀ u, upd_runqs (<[rq := u]>) (put_tree rq q t1 s) = set_rq rq u (nodes t1) s) as Hst.
  { intros u. unfold upd_runqs, put_tree, set_rq. simpl. by rewrite !insert_insert_eq. }
  rewrite Hst. apply HQ; [|done|done|by eexists|].
  - split; simpl.
    + rewrite fmap_app. by destruct t1.
    + rewrite Hnum. destruct (rbtree_is_nodup _ _ Hrb) as [Hnd Hvd].
      pose proof (addresses_bound _ Hnd Hvd) as Hlen. rewrite length_app in Hlen. simpl in Hlen.
      rewrite !length_fmap in Hlen. rewrite !length_app in *. simpl in *. rewrite uwrap_id; unfold in_u; lia.
    + by eapply ordered_delete.
    + rewrite Forall_app, Forall_cons in Hts. rewrite Forall_app. tauto.
  - intros a Ha. apply Hf. by rewrite fmap_app, fmap_cons in Ha.
Qed.
