(* ===== verification/RunQueue.v ===== *)
(** * Scheduler: the run queue operations

    [runq_add], [runq_next], [runq_remove] and [runq_balance_pull] of
    kernel/proc/runq.c refine enqueueing, popping and moving tasks between the
    ordered lists of [SchedInv]. *)

From stdpp Require Import base list gmap.
From Stdlib Require Import ZArith Lia Bool Sorting.Sorted.
From S2P Require Import Prelude RbModel RbTree RbRepr RbSpec Addr Cpuset Sched SchedInv.
Local Open Scope Z_scope.

(** ** Locks and the preemption counter *)

Definition pinc (p : percpu) : percpu := pc_set_preempt (low32 (λ v, v + 1) (preempt_count p)) p.
Definition pdec (p : percpu) : percpu := pc_set_preempt (low32 (λ v, v - 1) (preempt_count p)) p.

(** The executing CPU's record. *)
Record on_cpu (s : kstate) (p : percpu) : Prop := {
  oc_lookup : percpu_table s !! self s = Some p;
  oc_range : in_u 64 (preempt_count p);
}.

Lemma on_cpu_pinc s p : on_cpu s p → on_cpu (upd_percpu pinc s) (pinc p).
Proof.
  intros [Hl Hr]. split; simpl.
  - by rewrite list_lookup_alter_eq, Hl.
  - by apply low32_range.
Qed.

Lemma upd_percpu_dec_inc s p : on_cpu s p → upd_percpu pdec (upd_percpu pinc s) = s.
Proof.
  intros [Hl Hr]. unfold upd_percpu. simpl. destruct s as [kn ts rqs ms pt sf c3 r]. simpl in *. f_equal.
  apply list_eq. intros i. destruct (decide (i = sf)) as [->|].
  - rewrite !list_lookup_alter_eq, Hl. simpl. f_equal. destruct p. unfold pdec, pinc, pc_set_preempt. simpl in *.
    by rewrite low32_inc_dec.
  - by rewrite !list_lookup_alter_ne.
Qed.

Lemma wp_this_cpu s p (Q : percpu → kstate → Prop) : on_cpu s p → Q p s → wp this_cpu s Q.
Proof. intros [Hl _] HQ. unfold wp, this_cpu. by rewrite Hl. Qed.

Lemma wp_percpu_upd s p f (Q : unit → kstate → Prop) :
  on_cpu s p → Q tt (upd_percpu f s) → wp (percpu_upd f) s Q.
Proof. intros Hp HQ. unfold percpu_upd. apply wp_bind. eapply wp_this_cpu; [done|]. by apply wp_modify. Qed.

Lemma on_cpu_set_rq s p rq q kn : on_cpu s p → on_cpu (set_rq rq q kn s) p.
Proof. by intros []. Qed.

Lemma set_rq_same s rq q : runqs s !! rq = Some q → set_rq rq q (knodes s) s = s.
Proof. intros Hq. unfold set_rq. destruct s. simpl in *. by rewrite insert_id. Qed.

Lemma set_rq_comm s rq rq' q q' kn kn' :
  rq ≠ rq' → set_rq rq q kn' (set_rq rq' q' kn s) = set_rq rq' q' kn' (set_rq rq q kn s).
Proof. intros Hne. unfold set_rq. simpl. by rewrite insert_insert_ne. Qed.

Lemma wp_rq_spin_lock s p rq q (Q : unit → kstate → Prop) :
  on_cpu s p → runqs s !! rq = Some q → rq ≠ NULL → rq_lock q = 0 →
  Q tt (upd_percpu pinc (set_rq rq (rq_set_lock 1 q) (knodes s) s)) →
  wp (rq_spin_lock rq) s Q.
Proof.
  intros Hp Hq Hne Hl HQ. unfold rq_spin_lock, spin_lock, preempt_inc. apply wp_bind.
  eapply wp_percpu_upd; [done|]. apply wp_bind, wp_bind. eapply wp_deref; [done..|]. apply wp_ret.
  rewrite Hl. simpl. eapply wp_store; done.
Qed.

Lemma wp_rq_spin_unlock s p rq q (Q : unit → kstate → Prop) :
  on_cpu s p → runqs s !! rq = Some q → rq ≠ NULL →
  Q tt (set_rq rq (rq_set_lock 0 q) (knodes s) s) →
  wp (rq_spin_unlock rq) (upd_percpu pinc s) Q.
Proof.
  intros Hp Hq Hne HQ. unfold rq_spin_unlock, spin_unlock, preempt_dec. apply wp_bind.
  eapply wp_store; [done..|].
  change (upd_runqs _ (upd_percpu pinc s))
    with (upd_percpu pinc (set_rq rq (rq_set_lock 0 q) (knodes s) s)).
  assert (on_cpu (set_rq rq (rq_set_lock 0 q) (knodes s) s) p) as Hp' by by apply on_cpu_set_rq.
  eapply wp_percpu_upd; [by apply on_cpu_pinc|].
  pose proof (upd_percpu_dec_inc _ _ Hp') as E. unfold pdec in E. by rewrite E.
Qed.

(** ** Lists of tasks *)

Definition rq_meta (q : runq) : Z * Z := (rq_lock q, rq_idle q).

(** What the run queue operations leave alone. *)
Record env_kept (s s' : kstate) : Prop := {
  ek_mmus : mmus s' = mmus s;
  ek_percpu : percpu_table s' = percpu_table s;
  ek_self : self s' = self s;
  ek_cr3 : cr3 s' = cr3 s;
  ek_rsp : rsp s' = rsp s;
  ek_meta : ∀ rq, rq_meta <$> runqs s' !! rq = rq_meta <$> runqs s !! rq;
  ek_nodes : ∀ a, is_Some (knodes s !! a) → is_Some (knodes s' !! a);
}.

Lemma env_kept_refl s : env_kept s s.
Proof. by split. Qed.

Lemma env_kept_trans s1 s2 s3 : env_kept s1 s2 → env_kept s2 s3 → env_kept s1 s3.
Proof. intros [] []. split; try congruence; auto. Qed.

Lemma env_kept_on_cpu s s' p : env_kept s s' → on_cpu s p → on_cpu s' p.
Proof. intros [_ Hp Hs _ _ _ _] []. split; [by rewrite Hp, Hs|done]. Qed.

Lemma env_kept_set_rq s rq q q' kn' :
  runqs s !! rq = Some q → rq_meta q' = rq_meta q →
  (∀ a, is_Some (knodes s !! a) → is_Some (kn' !! a)) → env_kept s (set_rq rq q' kn' s).
Proof.
  intros Hq Hm Hn. split; simpl; try done. intros rq'. destruct (decide (rq = rq')) as [<-|].
  - rewrite lookup_insert_eq, Hq. simpl. by rewrite Hm.
  - by rewrite lookup_insert_ne.
Qed.

Lemma rq_holds_present kn ts q D u : rq_holds kn ts q D → u ∈ D → is_Some (kn !! node_of u).
Proof.
  intros [(T & [[Hrep _ _ _] _ _] & HT) _ _ _] Hu. eapply rep_dom; [exact Hrep|].
  rewrite HT. by apply elem_node_of.
Qed.

(** One run queue changes; the others keep their lists. *)
Lemma queues_set_rq s Qs rq q' kn' D' :
  queues s Qs → rq ≠ NULL → rq_holds kn' (tasks s) q' D' →
  (∀ rq2 D2, rq2 ≠ rq → Qs !! rq2 = Some D2 → ∀ u, u ∈ D2 →
     (u ∉ D') ∧ kn' !! node_of u = knodes s !! node_of u) →
  queues (set_rq rq q' kn' s) (<[rq := D']> Qs).
Proof.
  intros [Hdom Hdisj] Hne HD' Hoth. split.
  - intros rq2 D2 H2. destruct (decide (rq = rq2)) as [<-|Hr].
    + rewrite lookup_insert_eq in H2. injection H2 as <-. split; [done|].
      exists q'. simpl. by rewrite lookup_insert_eq.
    + rewrite lookup_insert_ne in H2 by done. destruct (Hdom _ _ H2) as (? & q2 & Hq2 & Hh2).
      split; [done|]. exists q2. simpl. rewrite lookup_insert_ne by done. split; [done|].
      eapply rq_holds_frame; [exact Hh2|done..| |].
      * intros u Hu. by eapply Hoth.
      * intros u Hu. split; [|done]. destruct Hh2 as [_ _ _ Hp]. rewrite Forall_forall in Hp.
        by apply Hp.
  - intros rq1 rq2 D1 D2 H1 H2 Hr u Hu1 Hu2.
    destruct (decide (rq = rq1)) as [<-|]; [|destruct (decide (rq = rq2)) as [<-|]].
    + rewrite lookup_insert_eq in H1. injection H1 as <-. rewrite lookup_insert_ne in H2 by done.
      by destruct (Hoth _ _ (not_eq_sym Hr) H2 u Hu2).
    + rewrite lookup_insert_eq in H2. injection H2 as <-. rewrite lookup_insert_ne in H1 by done.
      by destruct (Hoth _ _ Hr H1 u Hu1).
    + rewrite !lookup_insert_ne in H1, H2 by done. by eapply (Hdisj rq1 rq2).
Qed.

(** Tasks that are on no queue may change. *)
Definition queued (Qs : gmap Z (list Z)) (t : Z) : Prop := ∃ rq D, Qs !! rq = Some D ∧ t ∈ D.

Lemma queues_upd_task s Qs t tk :
  queues s Qs → ¬ queued Qs t → queues (upd_tasks <[t := tk]> s) Qs.
Proof.
  intros [Hdom Hdisj] Hnq. split; [|done]. intros rq D HD. destruct (Hdom _ _ HD) as (Hne & q & Hq & Hh).
  split; [done|]. exists q. split; [done|]. eapply rq_holds_frame; [exact Hh|done..|].
  intros u Hu. assert (u ≠ t) by (intros ->; apply Hnq; by exists rq, D). simpl.
  unfold vr_of. rewrite lookup_insert_ne by done. split; [|done].
  destruct Hh as [_ _ _ Hp]. rewrite Forall_forall in Hp. by apply Hp.
Qed.

(** A task that can be enqueued. *)
Record ready (s : kstate) (t : Z) (tk : task) : Prop := {
  rd_lookup : tasks s !! t = Some tk;
  rd_ne : t ≠ NULL;
  rd_valid : valid (node_of t);
  rd_node : is_Some (knodes s !! node_of t);
}.

Section ops.
Context (s : kstate) (Qs : gmap Z (list Z)) (p : percpu) (rq : Z) (D : list Z) (q : runq).
Context (HQs : queues s Qs) (Hp : on_cpu s p).
Context (Hrq : run_queue p = rq) (HD : Qs !! rq = Some D).
Context (Hq : runqs s !! rq = Some q) (Hlock : rq_lock q = 0).

Lemma rq_nonnull : rq ≠ NULL.
Proof using HQs HD. by destruct HQs as [Hd _]; destruct (Hd _ _ HD). Qed.

Lemma rq_list : rq_holds (knodes s) (tasks s) q D.
Proof using HQs HD Hq.
  destruct HQs as [Hd _]. destruct (Hd _ _ HD) as (_ & q' & Hq' & Hh). congruence.
Qed.

Lemma rq_relock v : rq_holds (knodes s) (tasks s) (rq_set_lock v q) D.
Proof using HQs HD Hq. by eapply rq_holds_frame; [apply rq_list|..|done|]; try done;
  intros u Hu; (split; [|done]); destruct rq_list as [_ _ _ Ht]; rewrite Forall_forall in Ht; apply Ht. Qed.

(** The tasks of the other queues are not on this one. *)
Lemma other_disjoint rq2 D2 u : rq2 ≠ rq → Qs !! rq2 = Some D2 → u ∈ D2 → u ∉ D.
Proof using HQs HD. intros Hne H2 Hu Hu'. by eapply (qs_disj _ _ HQs rq2 rq). Qed.

(** The state inside the critical section. *)
Definition locked : kstate := upd_percpu pinc (set_rq rq (rq_set_lock 1 q) (knodes s) s).

Lemma wp_lock (Q : unit → kstate → Prop) : Q tt locked → wp (rq_spin_lock rq) s Q.
Proof using HQs Hp HD Hq Hlock. eapply wp_rq_spin_lock; [done..|by apply rq_nonnull|done]. Qed.

(** Leaving the critical section with the queue replaced. *)
Lemma wp_unlock q' kn' (Q : unit → kstate → Prop) :
  Q tt (set_rq rq (rq_set_lock 0 q') kn' s) →
  wp (rq_spin_unlock rq) (set_rq rq q' kn' locked) Q.
Proof using HQs Hp HD Hq.
  intros HQ.
  replace (set_rq rq q' kn' locked) with (upd_percpu pinc (set_rq rq q' kn' s)); last first.
  { unfold locked, set_rq, upd_percpu. simpl. by rewrite insert_insert_eq. }
  eapply wp_rq_spin_unlock; [by apply on_cpu_set_rq|apply lookup_insert_eq|by apply rq_nonnull|].
  by rewrite set_rq_set_rq.
Qed.

Lemma locked_queue : runqs locked !! rq = Some (rq_set_lock 1 q).
Proof. apply lookup_insert_eq. Qed.

(** The end of [runq_add]. *)
Lemma wp_add_tail t tk (Q : unit → kstate → Prop) :
  ready s t tk → ¬ queued Qs t →
  (∀ s', queues s' (<[rq := enqueue (vr_of (tasks s)) t D]> Qs) → tasks s' = tasks s →
         env_kept s s' → Q tt s') →
  wp (tree_insert rq t;; rq_spin_unlock rq) locked Q.
Proof using All.
  intros [Ht Hne Hv Hn] Hnq HQ.
  assert (t ∉ D) as HtD by (intros Hin; apply Hnq; by exists rq, D).
  apply wp_bind. eapply (wp_tree_insert locked rq _ D t tk);
    [apply locked_queue|by apply rq_nonnull|by apply (rq_relock 1)|done..|].
  intros kn' q' Hh' Hl Hi Hf. apply wp_unlock.
  change (tasks locked) with (tasks s) in *. change (knodes locked) with (knodes s) in *.
  assert (∀ u, is_Some (knodes s !! u) → is_Some (kn' !! u)) as Hpres.
  { intros u Hu. destruct (decide (u ∈ node_of <$> t :: D)) as [Hin|]; [|by rewrite Hf].
    apply list_elem_of_fmap in Hin as (x & -> & Hx). eapply rq_holds_present; [exact Hh'|].
    by rewrite enqueue_perm. }
  apply HQ; [|done|].
  - apply queues_set_rq; [done|by apply rq_nonnull|eapply rq_holds_frame; [exact Hh'|done..|]|].
    + intros u Hu. split; [|done]. destruct Hh' as [_ _ _ Hp']. rewrite Forall_forall in Hp'. by apply Hp'.
    + intros rq2 D2 Hr2 H2 u Hu. pose proof (other_disjoint _ _ _ Hr2 H2 Hu) as HuD.
      assert (u ≠ t) by (intros ->; apply Hnq; by exists rq2, D2). split.
      * rewrite enqueue_perm, elem_of_cons. tauto.
      * apply Hf. rewrite elem_node_of, elem_of_cons. tauto.
  - eapply env_kept_set_rq; [exact Hq| |done]. unfold rq_meta. simpl. by rewrite Hlock, Hi.
Qed.

(** [min_vruntime] *)
Definition min_vr (ts : gmap Z task) : Z :=
  match D with [] => 0 | h :: _ => vr_of ts h end.

Lemma wp_min_vruntime (Q : Z → kstate → Prop) :
  Q (min_vr (tasks s)) locked → wp (min_vruntime rq) locked Q.
Proof using All.
  intros HQ. unfold min_vruntime. apply wp_bind.
  eapply wp_deref; [apply locked_queue|by apply rq_nonnull|]. simpl.
  destruct rq_list as [(T & [Hrep _ Hml] & HT) _ _ Hts]. simpl in Hml. rewrite Hml, HT.
  unfold min_vr in HQ. destruct D as [|h D'] eqn:ED; simpl.
  - by apply wp_ret.
  - rewrite Forall_cons in Hts. destruct Hts as [[Hh0 [hk Hhk]] _].
    pose proof (repr_valid _ _ Hrep) as Hv. rewrite HT, Forall_forall in Hv.
    assert (node_of h ≠ NULL) as Hne by (apply valid_ne, Hv; simpl; set_solver).
    apply Z.eqb_neq in Hne as Hne'. rewrite Hne'. eapply wp_entity_vruntime; [done..|].
    unfold vr_of in HQ. by rewrite Hhk in HQ.
Qed.
End ops.

(** [runq_add] enqueues the task on this CPU's queue; a task that was not
    runnable first gets the smallest runtime on the queue. *)
Definition add_tasks (ts : gmap Z task) (D : list Z) (t : Z) (tk : task) : gmap Z task :=
  if decide (t_state tk = TASK_S_RUNNABLE) then ts
  else <[t := set_vruntime (min_vr D ts) tk]> ts.

Lemma wp_runq_add s Qs p D q t tk (Q : unit → kstate → Prop) :
  queues s Qs → on_cpu s p → Qs !! run_queue p = Some D →
  runqs s !! run_queue p = Some q → rq_lock q = 0 → ready s t tk → ¬ queued Qs t →
  (∀ s', queues s' (<[run_queue p := enqueue (vr_of (add_tasks (tasks s) D t tk)) t D]> Qs) →
         tasks s' = add_tasks (tasks s) D t tk → env_kept s s' → Q tt s') →
  wp (runq_add t) s Q.
Proof.
  intros HQs Hp HD Hq Hl Hr Hnq HQ. unfold runq_add. apply wp_bind. eapply wp_this_cpu; [done|].
  apply wp_bind. eapply wp_lock; [done..|]. apply wp_bind. destruct (Hr) as [Ht Hne Hv Hn].
  eapply wp_deref; [done..|]. unfold add_tasks in HQ.
  destruct (decide (t_state tk = TASK_S_RUNNABLE)).
  - apply wp_bind, wp_ret. by eapply wp_add_tail.
  - apply wp_bind, wp_bind. eapply wp_min_vruntime; [done..|]. eapply wp_store; [done..|].
    set (s1 := upd_tasks <[t := set_vruntime (min_vr D (tasks s)) tk]> s).
    change (upd_tasks _ (locked s (run_queue p) q)) with (locked s1 (run_queue p) q).
    eapply (wp_add_tail s1 Qs p (run_queue p) D q); [by apply queues_upd_task|by destruct Hp|done..| |done|].
    + split; [apply lookup_insert_eq|done..].
    + intros s' HQ' Hts' [? ? ? ? ? ? ?]. apply HQ; [done..|by split].
Qed.

Lemma rq_unlock_id q : rq_lock q = 0 → rq_set_lock 0 (rq_set_lock 1 q) = q.
Proof. intros Hl. destruct q. simpl in *. by subst. Qed.

Lemma set_rq_unlock_id s rq q :
  runqs s !! rq = Some q → rq_lock q = 0 →
  set_rq rq (rq_set_lock 0 (rq_set_lock 1 q)) (knodes s) s = s.
Proof. intros Hq Hl. rewrite rq_unlock_id by done. by apply set_rq_same. Qed.

(** Removing a task keeps the other queues. *)
Lemma queues_remove s Qs rq pre t post q' kn' :
  queues s Qs → Qs !! rq = Some (pre ++ t :: post) →
  rq_holds kn' (tasks s) q' (pre ++ post) →
  (∀ a, a ∉ node_of <$> pre ++ t :: post → kn' !! a = knodes s !! a) →
  queues (set_rq rq q' kn' s) (<[rq := pre ++ post]> Qs).
Proof.
  intros HQs HD Hh' Hf. apply queues_set_rq; [done|by destruct (qs_dom _ _ HQs _ _ HD)|done|].
  intros rq2 D2 Hr2 H2 u Hu. assert (u ∉ pre ++ t :: post) as HuD.
  { intros Hu'. by eapply (qs_disj _ _ HQs rq2 rq). }
  split; [set_solver|]. apply Hf. by rewrite elem_node_of.
Qed.

Lemma remove_present kn ts q pre t post kn' q' (kn0 : gmap Z rb_node) :
  rq_holds kn ts q (pre ++ t :: post) → rq_holds kn' ts q' (pre ++ post) → is_Some (kn' !! node_of t) →
  (∀ a, a ∉ node_of <$> pre ++ t :: post → kn' !! a = kn0 !! a) →
  ∀ a, is_Some (kn0 !! a) → is_Some (kn' !! a).
Proof.
  intros Hh Hh' Ht Hf a Ha. destruct (decide (a ∈ node_of <$> pre ++ t :: post)) as [Hin|]; [|by rewrite Hf].
  apply list_elem_of_fmap in Hin as (u & -> & Hu). apply elem_of_app in Hu as [Hu|[->|Hu]%elem_of_cons].
  - eapply rq_holds_present; [exact Hh'|set_solver].
  - done.
  - eapply rq_holds_present; [exact Hh'|set_solver].
Qed.

(** The critical section of [runq_next] and [runq_remove]. *)
Lemma wp_remove_tail s Qs p q pre t post (Q : unit → kstate → Prop) :
  queues s Qs → on_cpu s p → Qs !! run_queue p = Some (pre ++ t :: post) →
  runqs s !! run_queue p = Some q → rq_lock q = 0 →
  (∀ s', queues s' (<[run_queue p := pre ++ post]> Qs) → tasks s' = tasks s → env_kept s s' → Q tt s') →
  wp (tree_remove (run_queue p) t;; rq_spin_unlock (run_queue p)) (locked s (run_queue p) q) Q.
Proof.
  intros HQs Hp HD Hq Hl HQ. set (rq := run_queue p) in *.
  pose proof (rq_nonnull _ _ _ _ HQs HD) as Hne.
  pose proof (rq_list _ _ _ _ _ HQs HD Hq) as Hh.
  apply wp_bind. eapply wp_tree_remove; [apply locked_queue|done|by eapply (rq_relock s Qs)|].
  intros kn' q' Hh' Hlk Hid Hn' Hf. eapply wp_unlock; [done..|].
  change (tasks (locked s rq q)) with (tasks s) in *. change (knodes (locked s rq q)) with (knodes s) in *.
  assert (rq_holds kn' (tasks s) (rq_set_lock 0 q') (pre ++ post)) as Hh''.
  { eapply rq_holds_frame; [exact Hh'|done..|]. intros u Hu. split; [|done].
    destruct Hh' as [_ _ _ Hp']. rewrite Forall_forall in Hp'. by apply Hp'. }
  apply HQ; [by eapply queues_remove|done|].
  eapply env_kept_set_rq; [exact Hq| |by eapply remove_present].
  unfold rq_meta. simpl. by rewrite Hl, Hid.
Qed.

Lemma wp_first_cached s rq q D (Q : Z → kstate → Prop) :
  runqs s !! rq = Some q → rq ≠ NULL → rq_holds (knodes s) (tasks s) q D →
  Q (default NULL (node_of <$> head D)) s → wp (on_tree rq rb_first_cached) s Q.
Proof.
  intros Hq Hne [(T & [_ _ Hml] & HT) _ _ _] HQ. eapply wp_on_tree_read; [done..|].
  unfold rb_first_cached, get_most_left. apply wp_bind, wp_get, wp_ret. split; [done|].
  rewrite Hml, HT. by destruct D.
Qed.

Lemma node_to_task_head kn ts q t D :
  rq_holds kn ts q (t :: D) → node_to_task (node_of t) = t ∧ t ≠ NULL.
Proof.
  intros Hh. pose proof (rq_holds_nodup _ _ _ _ Hh) as [_ Hv]. rewrite Forall_cons in Hv.
  destruct Hv as [Hv%valid_ne _]. destruct Hh as [_ _ _ Ht]. rewrite Forall_cons in Ht.
  destruct Ht as [[? _] _].
  unfold node_to_task. apply Z.eqb_neq in Hv as ->. by rewrite task_of_node_of.
Qed.

(** [runq_next] pops the first task of this CPU's queue, or gives its idle task. *)
Lemma wp_runq_next s Qs p D q (Q : Z → kstate → Prop) :
  queues s Qs → on_cpu s p → Qs !! run_queue p = Some D →
  runqs s !! run_queue p = Some q → rq_lock q = 0 →
  match D with
  | [] => Q (rq_idle q) s
  | t :: D' => ∀ s', queues s' (<[run_queue p := D']> Qs) → tasks s' = tasks s → env_kept s s' → Q t s'
  end →
  wp runq_next s Q.
Proof.
  intros HQs Hp HD Hq Hl HQ. pose proof (rq_nonnull _ _ _ _ HQs HD) as Hne.
  pose proof (rq_list _ _ _ _ _ HQs HD Hq) as Hh.
  unfold runq_next. apply wp_bind. eapply wp_this_cpu; [done|].
  apply wp_bind. eapply wp_lock; [done..|]. apply wp_bind.
  eapply wp_first_cached; [apply locked_queue|done|by eapply (rq_relock s Qs)|].
  destruct D as [|t D']; simpl.
  - apply wp_bind, wp_ret, wp_bind.
    rewrite <-(set_rq_same (locked s (run_queue p) q) (run_queue p) (rq_set_lock 1 q))
      by apply lookup_insert_eq.
    eapply wp_unlock; [done..|]. simpl knodes. rewrite set_rq_unlock_id by done.
    apply wp_bind. eapply wp_deref; [done..|]. by apply wp_ret.
  - destruct (node_to_task_head _ _ _ _ _ Hh) as [-> Ht]. apply Z.eqb_neq in Ht as Ht'.
    rewrite Ht'. cbn [negb]. apply wp_bind.
    eapply wp_mono; [eapply wp_bind_inv, (wp_remove_tail s Qs p q [] t D' (λ _ s', Q t s')); try done|].
    intros [] s1 H1. apply wp_bind. exact H1.
Qed.

(** [runq_remove] of a task on this CPU's queue. *)
Lemma wp_runq_remove s Qs p pre t post q (Q : unit → kstate → Prop) :
  queues s Qs → on_cpu s p → Qs !! run_queue p = Some (pre ++ t :: post) →
  runqs s !! run_queue p = Some q → rq_lock q = 0 →
  (∀ s', queues s' (<[run_queue p := pre ++ post]> Qs) → tasks s' = tasks s → env_kept s s' → Q tt s') →
  wp (runq_remove t) s Q.
Proof.
  intros HQs Hp HD Hq Hl HQ. unfold runq_remove. apply wp_bind. eapply wp_this_cpu; [done|].
  apply wp_bind. eapply wp_lock; [done..|]. by eapply wp_remove_tail.
Qed.

(** ** Balancing *)

Section balance.
Context (s : kstate) (Qs : gmap Z (list Z)) (p : percpu) (q qo : runq) (other : Z) (D Do : list Z).
Context (HQs : queues s Qs) (Hp : on_cpu s p) (Hne : other ≠ run_queue p).
Context (HD : Qs !! run_queue p = Some D) (Hq : runqs s !! run_queue p = Some q) (Hl : rq_lock q = 0).
Context (HDo : Qs !! other = Some Do) (Hqo : runqs s !! other = Some qo) (Hlo : rq_lock qo = 0).

Let rq := run_queue p.

(** Both locks held. *)
Definition locked2 : kstate :=
  upd_percpu pinc (upd_percpu pinc
    (set_rq rq (rq_set_lock 1 q) (knodes s) (set_rq other (rq_set_lock 1 qo) (knodes s) s))).

Lemma wp_lock2 (b : bool) (Q : unit → kstate → Prop) :
  Q tt locked2 →
  wp (if b then rq_spin_lock rq;; rq_spin_lock other else rq_spin_lock other;; rq_spin_lock rq) s Q.
Proof using All.
  intros HQ. pose proof (rq_nonnull _ _ _ _ HQs HD) as H0. pose proof (rq_nonnull _ _ _ _ HQs HDo) as H0'.
  destruct b; apply wp_bind.
  - eapply wp_rq_spin_lock; [done..|].
    eapply (wp_rq_spin_lock _ _ other qo); [by apply on_cpu_pinc, on_cpu_set_rq| |done..|].
    + simpl. by rewrite lookup_insert_ne.
    + assert (locked2 = upd_percpu pinc (set_rq other (rq_set_lock 1 qo) (knodes s)
        (upd_percpu pinc (set_rq rq (rq_set_lock 1 q) (knodes s) s)))) as E.
      { unfold locked2. by rewrite set_rq_comm. }
      by rewrite E in HQ.
  - eapply wp_rq_spin_lock; [done..|].
    eapply (wp_rq_spin_lock _ _ rq q); [by apply on_cpu_pinc, on_cpu_set_rq| |done..].
    simpl. by rewrite lookup_insert_ne by done.
Qed.

Lemma wp_unlock2 (b : bool) s1 q1 qo1 (Q : unit → kstate → Prop) :
  on_cpu s1 p → runqs s1 !! rq = Some q1 → runqs s1 !! other = Some qo1 →
  Q tt (set_rq rq (rq_set_lock 0 q1) (knodes s1) (set_rq other (rq_set_lock 0 qo1) (knodes s1) s1)) →
  wp (if b then rq_spin_unlock other;; rq_spin_unlock rq
      else rq_spin_unlock rq;; rq_spin_unlock other) (upd_percpu pinc (upd_percpu pinc s1)) Q.
Proof using All.
  intros Hp1 Hq1 Hqo1 HQ.
  pose proof (rq_nonnull _ _ _ _ HQs HD) as H0. pose proof (rq_nonnull _ _ _ _ HQs HDo) as H0'.
  destruct b; apply wp_bind.
  - eapply wp_rq_spin_unlock; [by apply on_cpu_pinc|done..|].
    eapply (wp_rq_spin_unlock (set_rq other (rq_set_lock 0 qo1) (knodes s1) s1));
      [by apply on_cpu_set_rq| |done|done]. simpl. by rewrite lookup_insert_ne.
  - eapply wp_rq_spin_unlock; [by apply on_cpu_pinc|done..|].
    eapply (wp_rq_spin_unlock (set_rq rq (rq_set_lock 0 q1) (knodes s1) s1));
      [by apply on_cpu_set_rq| |done|]; [simpl; by rewrite lookup_insert_ne by done|].
    by rewrite set_rq_comm.
Qed.

Lemma relock_frame kn ts v q0 D0 : rq_holds kn ts q0 D0 → rq_holds kn ts (rq_set_lock v q0) D0.
Proof.
  intros Hh. eapply rq_holds_frame; [exact Hh|done..|]. intros u Hu. split; [|done].
  destruct Hh as [_ _ _ Ht]. rewrite Forall_forall in Ht. by apply Ht.
Qed.

Lemma pull_disjoint t Do' u : Do = t :: Do' → u ∈ D → u ∉ t :: Do'.
Proof using HQs HD HDo Hne.
  intros EDo Hu Hu'. eapply (qs_disj _ _ HQs rq other D); [exact HD|exact HDo|done|exact Hu|by rewrite EDo].
Qed.

(** The queues after [t] has moved from [other] to [rq]. *)
Lemma queues_pull t Do' kn1 qo1 kn2 q2 :
  Do = t :: Do' →
  rq_holds kn1 (tasks s) qo1 Do' → rq_holds kn2 (tasks s) q2 (enqueue (vr_of (tasks s)) t D) →
  (∀ a, a ∉ node_of <$> t :: Do' → kn1 !! a = knodes s !! a) →
  (∀ a, a ∉ node_of <$> t :: D → kn2 !! a = kn1 !! a) →
  queues (set_rq rq q2 kn2 (set_rq other qo1 kn1 s))
    (<[rq := enqueue (vr_of (tasks s)) t D]> (<[other := Do']> Qs)).
Proof using All.
  intros EDo Hho1 Hh2 Hf1 Hf2.
  pose proof (rq_list _ _ _ _ _ HQs HDo Hqo) as Hho. rewrite EDo in Hho.
  eapply queues_set_rq; [|by eapply rq_nonnull|done|].
  { eapply (queues_remove s Qs other [] t Do'); [done|by rewrite <-EDo|done|exact Hf1]. }
  intros rq2 D2 Hr2 HD2 u Hu. assert (u ∉ t :: D) as Hut.
  { rewrite not_elem_of_cons. destruct (decide (rq2 = other)) as [->|].
    - rewrite lookup_insert_eq in HD2. injection HD2 as <-.
      destruct (rq_holds_nodup _ _ _ _ Hho) as [Hnd _]. apply NoDup_cons in Hnd as [Hnd _].
      split; [by intros ->|]. intros Hin. apply (pull_disjoint _ _ _ EDo Hin). set_solver.
    - rewrite lookup_insert_ne in HD2 by done. split.
      + intros ->. eapply (qs_disj _ _ HQs rq2 other); [done..|]. rewrite EDo. set_solver.
      + by eapply (qs_disj _ _ HQs rq2 rq). }
  rewrite enqueue_perm. split; [done|]. apply Hf2. by rewrite elem_node_of.
Qed.

Lemma env_kept_pull t Do' kn1 qo1 kn2 q2 :
  Do = t :: Do' →
  rq_holds kn1 (tasks s) qo1 Do' → rq_holds kn2 (tasks s) q2 (enqueue (vr_of (tasks s)) t D) →
  is_Some (kn1 !! node_of t) →
  (∀ a, a ∉ node_of <$> t :: Do' → kn1 !! a = knodes s !! a) →
  (∀ a, a ∉ node_of <$> t :: D → kn2 !! a = kn1 !! a) →
  rq_meta q2 = rq_meta q → rq_meta qo1 = rq_meta qo →
  env_kept s (set_rq rq q2 kn2 (set_rq other qo1 kn1 s)).
Proof using All.
  intros EDo Hho1 Hh2 Hn1 Hf1 Hf2 Hm Hmo.
  pose proof (rq_list _ _ _ _ _ HQs HDo Hqo) as Hho. rewrite EDo in Hho.
  eapply env_kept_trans; [eapply (env_kept_set_rq _ other); [exact Hqo|done|]|].
  - by eapply (remove_present _ _ _ [] t Do').
  - eapply (env_kept_set_rq _ rq q); [simpl; by rewrite lookup_insert_ne|done|].
    intros a Ha. simpl in Ha. destruct (decide (a ∈ node_of <$> t :: D)) as [Hin|]; [|by rewrite Hf2].
    apply list_elem_of_fmap in Hin as (u & -> & Hu). eapply rq_holds_present; [exact Hh2|].
    by rewrite enqueue_perm.
Qed.

Lemma set_rq_relock_twice q2 qo1 kn2 kn1 v w :
  set_rq rq v kn2 (set_rq other w kn2 (set_rq rq q2 kn2 (set_rq other qo1 kn1
    (set_rq rq (rq_set_lock 1 q) (knodes s) (set_rq other (rq_set_lock 1 qo) (knodes s) s)))))
  = set_rq rq v kn2 (set_rq other w kn1 s).
Proof using Hne.
  unfold set_rq. simpl. f_equal. rewrite (insert_insert_ne _ other rq), insert_insert_eq by done.
  rewrite (insert_insert_eq _ other). rewrite (insert_insert_ne _ other rq), !insert_insert_eq by done.
  done.
Qed.

(** Moving the first task of [other] to this queue, between the locks. *)
Lemma wp_pull t Do' (b : bool) (Q : unit → kstate → Prop) :
  Do = t :: Do' →
  (∀ s', queues s' (<[rq := enqueue (vr_of (tasks s)) t D]> (<[other := Do']> Qs)) →
         tasks s' = tasks s → env_kept s s' → Q tt s') →
  wp (tree_remove other t;; tree_insert rq t;;
      if b then rq_spin_unlock other;; rq_spin_unlock rq
      else rq_spin_unlock rq;; rq_spin_unlock other) locked2 Q.
Proof using All.
  intros EDo HQ.
  pose proof (rq_nonnull _ _ _ _ HQs HD) as H0. pose proof (rq_nonnull _ _ _ _ HQs HDo) as H0'.
  pose proof (rq_list _ _ _ _ _ HQs HD Hq) as Hh. pose proof (rq_list _ _ _ _ _ HQs HDo Hqo) as Hho.
  rewrite EDo in Hho. destruct (rq_holds_nodup _ _ _ _ Hho) as [_ Hvo].
  assert (tasks locked2 = tasks s ∧ knodes locked2 = knodes s) as [Ets Ekn] by done.
  apply wp_bind. eapply (wp_tree_remove locked2 other (rq_set_lock 1 qo) [] t Do');
    [simpl; rewrite lookup_insert_ne by done; apply lookup_insert_eq|done|by apply relock_frame|].
  intros kn1 qo1 Hho1 Hlo1 Hio1 Hn1 Hf1.
  rewrite Ets in Hho1. rewrite Ekn in Hf1. cbn [app] in Hf1, Hho1.
  pose proof (rqh_tasks _ _ _ _ Hho) as Hts. rewrite Forall_cons in Hts, Hvo.
  destruct Hts as [[Ht0 [tk Htk]] _].
  apply wp_bind. eapply (wp_tree_insert (set_rq other qo1 kn1 locked2) rq (rq_set_lock 1 q) D t tk);
    [simpl; rewrite lookup_insert_ne by done; apply lookup_insert_eq|done| |done|done|apply Hvo|done| |].
  { eapply rq_holds_frame; [exact Hh|done..| |].
    - intros u Hu. apply Hf1. rewrite elem_node_of. by apply pull_disjoint.
    - intros u Hu. split; [|done]. destruct Hh as [_ _ _ Hx]. rewrite Forall_forall in Hx. by apply Hx. }
  { intros Hin. apply (pull_disjoint _ _ _ EDo Hin). set_solver. }
  intros kn2 q2 Hh2 Hl2 Hi2 Hf2. cbn [tasks knodes set_rq] in Hh2, Hf2. rewrite Ets in Hh2.
  eapply (wp_unlock2 b (set_rq rq q2 kn2 (set_rq other qo1 kn1 (set_rq rq (rq_set_lock 1 q) (knodes s)
    (set_rq other (rq_set_lock 1 qo) (knodes s) s))))); [by repeat apply on_cpu_set_rq|apply lookup_insert_eq| |].
  { simpl. rewrite lookup_insert_ne by done. apply lookup_insert_eq. }
  cbn [knodes set_rq]. rewrite set_rq_relock_twice.
  apply HQ; [eapply queues_pull|done|eapply env_kept_pull]; try done; try by apply relock_frame.
  - unfold rq_meta. simpl. by rewrite Hl, Hi2.
  - unfold rq_meta. simpl. by rewrite Hlo, Hio1.
Qed.

(** Nothing to pull: both queues are as before. *)
Lemma wp_no_pull (b : bool) (Q : unit → kstate → Prop) :
  Q tt s →
  wp (if b then rq_spin_unlock other;; rq_spin_unlock rq
      else rq_spin_unlock rq;; rq_spin_unlock other) locked2 Q.
Proof using All.
  intros HQ. eapply (wp_unlock2 b (set_rq rq (rq_set_lock 1 q) (knodes s)
    (set_rq other (rq_set_lock 1 qo) (knodes s) s))); [by repeat apply on_cpu_set_rq|apply lookup_insert_eq| |].
  { simpl. rewrite lookup_insert_ne by done. apply lookup_insert_eq. }
  cbn [knodes set_rq]. rewrite (set_rq_comm _ other rq), set_rq_set_rq, set_rq_set_rq by done.
  rewrite (rq_unlock_id qo), (rq_unlock_id q) by done. rewrite (set_rq_same s other qo) by done.
  by rewrite (set_rq_same s rq q).
Qed.
End balance.

(** ** All CPUs *)

(** Each ready CPU has its own run queue, unlocked between operations. *)
Record cpus_ok (s : kstate) (Qs : gmap Z (list Z)) : Prop := {
  co_id : ∀ i pi, percpu_table s !! i = Some pi → cpu_id pi = Z.of_nat i;
  co_rq : ∀ i pi, percpu_table s !! i = Some pi → ∃ D q,
    Qs !! run_queue pi = Some D ∧ runqs s !! run_queue pi = Some q ∧ rq_lock q = 0;
  co_inj : ∀ i j pi pj, percpu_table s !! i = Some pi → percpu_table s !! j = Some pj →
    i ≠ j → run_queue pi ≠ run_queue pj;
}.

Lemma cpus_ok_kept s s' Qs Qs' :
  cpus_ok s Qs → env_kept s s' → (∀ rq, is_Some (Qs !! rq) → is_Some (Qs' !! rq)) → cpus_ok s' Qs'.
Proof.
  intros [H1 H2 H3] [_ Hp _ _ _ Hm _] HQ. split.
  - rewrite Hp. exact H1.
  - rewrite Hp. intros i pi Hi. destruct (H2 _ _ Hi) as (D & q & HD & Hq & Hl).
    destruct (HQ (run_queue pi)) as [D' HD']; [by eexists|].
    specialize (Hm (run_queue pi)). rewrite Hq in Hm. simpl in Hm.
    destruct (runqs s' !! run_queue pi) as [q'|]; [|done]. injection Hm as Hl' _.
    exists D', q'. split_and!; [done..|congruence].
  - rewrite Hp. exact H3.
Qed.

Section pull.
Context (s : kstate) (Qs : gmap Z (list Z)) (p : percpu) (D : list Z).
Context (HQs : queues s Qs) (Hc : cpus_ok s Qs) (Hp : on_cpu s p) (HD : Qs !! run_queue p = Some D).

(** The queues and memory after pulling [t] from CPU [i]. *)
Definition pulled (i : nat) (t : Z) (s' : kstate) : Prop :=
  ∃ pi Do', percpu_table s !! i = Some pi ∧ i ≠ self s ∧ Qs !! run_queue pi = Some (t :: Do') ∧
    queues s' (<[run_queue p := enqueue (vr_of (tasks s)) t D]> (<[run_queue pi := Do']> Qs)) ∧
    tasks s' = tasks s ∧ env_kept s s'.

Definition nothing_at (i : nat) : Prop :=
  i = self s ∨ ∃ pi, percpu_table s !! i = Some pi ∧ Qs !! run_queue pi = Some [].

Lemma wp_balance_step i pi (Q : bool → kstate → Prop) :
  percpu_table s !! i = Some pi →
  (nothing_at i → Q false s) → (∀ t s', pulled i t s' → Q true s') →
  wp (balance_step (run_queue p) i) s Q.
Proof using All.
  intros Hi Hnone Hpull. unfold balance_step, smp_cpu_id. apply wp_bind, wp_bind.
  eapply wp_this_cpu; [done|]. apply wp_ret. destruct Hp as [Hself Hrange] eqn:EHp.
  rewrite (co_id _ _ Hc _ _ Hself). destruct (Z.eqb_spec (Z.of_nat i) (Z.of_nat (self s))) as [E|Hne].
  { apply wp_ret, Hnone. left. lia. }
  assert (i ≠ self s) as Hne' by congruence.
  pose proof (co_inj _ _ Hc _ _ _ _ Hi Hself Hne') as Hrq.
  destruct (co_rq _ _ Hc _ _ Hi) as (Do & qo & HDo & Hqo & Hlo).
  destruct (co_rq _ _ Hc _ _ Hself) as (D0 & q & HD0 & Hq & Hl).
  pose proof (rq_nonnull _ _ _ _ HQs HDo) as H0'.
  pose proof (rq_list _ _ _ _ _ HQs HDo Hqo) as Hho.
  apply wp_bind. unfold wp at 1, percpu_get_id. rewrite Hi.
  set (b := Z.of_nat (self s) <? Z.of_nat i). apply wp_bind. eapply (wp_lock2 s Qs p q qo); [done..|].
  apply wp_bind. eapply wp_deref; [simpl; rewrite lookup_insert_ne by done; apply lookup_insert_eq|done|].
  simpl num_threads. rewrite (rqh_num _ _ _ _ Hho).
  destruct Do as [|t Do']; cbn [length].
  - apply wp_bind, wp_ret, wp_bind. eapply (wp_no_pull s Qs p q qo); [done..|].
    apply wp_ret, Hnone. right. by exists pi.
  - destruct (node_to_task_head _ _ _ _ _ Hho) as [Etask _]. change (0 <? Z.of_nat (S (length Do'))) with true.
    assert (D0 = D) as -> by congruence.
    apply wp_bind, wp_bind.
    eapply (wp_first_cached _ _ (rq_set_lock 1 qo) (t :: Do'));
      [simpl; rewrite lookup_insert_ne by done; apply lookup_insert_eq|done|by apply relock_frame|].
    simpl default. rewrite Etask. apply wp_bind.
    eapply wp_mono; [eapply wp_bind_inv, (wp_pull s Qs p q qo _ D (t :: Do') HQs Hp Hrq HD Hq Hl HDo Hqo Hlo
      t Do' b (λ _ s', Q true s') eq_refl)|].
    + intros s' HQ' Hts' Hek. eapply (Hpull t). exists pi, Do'. by split_and!.
    + intros [] s1 H1. apply wp_bind_inv in H1. apply wp_bind. eapply wp_mono; [exact H1|].
      intros [] s2 H2. apply wp_ret, wp_bind. eapply wp_mono; [exact H2|]. intros [] s3 H3. by apply wp_ret.
Qed.

(** The loop stops at the first other CPU, from [i] on, with something to do. *)
Lemma wp_balance_from n i (Q : unit → kstate → Prop) :
  (i + n = length (percpu_table s))%nat →
  ((∀ j, (i ≤ j < i + n)%nat → nothing_at j) → Q tt s) →
  (∀ j t s', (i ≤ j < i + n)%nat → (∀ j', (i ≤ j' < j)%nat → nothing_at j') → pulled j t s' → Q tt s') →
  wp (balance_from (run_queue p) i n) s Q.
Proof using All.
  revert i. induction n as [|n IH]; intros i Hlen Hnone Hpull; simpl.
  { apply wp_ret, Hnone. lia. }
  destruct (lookup_lt_is_Some_2 (percpu_table s) i) as [pi Hpi]; [lia|].
  apply wp_bind. eapply wp_balance_step; [exact Hpi|..].
  - intros Hi. apply IH; [lia|..].
    + intros Hrest. apply Hnone. intros j Hj. destruct (decide (j = i)) as [->|]; [done|].
      apply Hrest. lia.
    + intros j t s' Hj Hbefore Hs'. eapply (Hpull j t s'); [lia| |exact Hs'].
      intros j' Hj'. destruct (decide (j' = i)) as [->|]; [done|]. apply Hbefore. lia.
  - intros t s' Hs'. apply wp_ret. eapply (Hpull i); [lia| |exact Hs']. lia.
Qed.

Lemma wp_runq_balance_pull (Q : unit → kstate → Prop) :
  ((∀ j, (j < length (percpu_table s))%nat → nothing_at j) → Q tt s) →
  (∀ j t s', (j < length (percpu_table s))%nat → (∀ j', (j' < j)%nat → nothing_at j') →
             pulled j t s' → Q tt s') →
  wp runq_balance_pull s Q.
Proof using All.
  intros Hnone Hpull. unfold runq_balance_pull, smp_nr_cpus. apply wp_bind. eapply wp_this_cpu; [done|].
  apply wp_bind, wp_bind, wp_get, wp_ret. eapply (wp_balance_from _ 0); [done|..].
  - intros H. apply Hnone. intros j Hj. apply H. lia.
  - intros j t s' Hj Hb Hs'. eapply (Hpull j t s'); [lia| |exact Hs']. intros j' Hj'. apply Hb. lia.
Qed.
End pull.
