(* ===== verification/Execve.v ===== *)
(** * Starting a program

    [task_execve] of kernel/proc/task.c with the parts of kernel/mm/mmu.c it
    uses, on the heap, the page tables and the areas of the other files: a new
    address space with two pages of code and two of stack, and the jump to
    user mode. *)

From stdpp Require Import base list gmap.
From Stdlib Require Import ZArith Lia Bool.
From S2P Require Import Prelude Addr Cpuset Pmm PmmInv PmmSpec Slob SlobSpec Heap Mmap Vmm VmmSpec VmmTheorems CowSpec Area Sched Context TaskMemory ContextSpec RunQueue.
Local Open Scope Z_scope.

(** ** State *)

(** The fields of [struct mmu_info] that paging does not use; [area_lock] is
    never taken. *)
Record info := mk_info { i_areas : Z; i_cpu_lock : Z; i_cpus : Z }.
Definition set_i_areas v i := mk_info v (i_cpu_lock i) (i_cpus i).
Definition set_i_lock v i := mk_info (i_areas i) v (i_cpus i).
Definition set_i_cpus v i := mk_info (i_areas i) (i_cpu_lock i) v.

Record exec_mem := mk_exec { e_km : kmemory; e_areas : gmap Z vm_area; e_info : gmap Z info }.
Definition upd_e_areas f s := mk_exec (e_km s) (f (e_areas s)) (e_info s).
Definition upd_e_info f s := mk_exec (e_km s) (e_areas s) (f (e_info s)).

Abbreviation E := (M exec_mem).
Definition on_km {A} (m : M kmemory A) : E A := zoom e_km (λ k s, mk_exec k (e_areas s) (e_info s)) m.
Definition on_vm {A} (m : V A) : E A := on_km (on_space m).
Definition rd_info : Z → E info := deref e_info.
Definition wr_info : Z → (info → info) → E unit := store e_info upd_e_info.

(** [struct vm_area] *)
Definition SIZEOF_VM_AREA : Z := 32.
Definition rd_varea : Z → E vm_area := deref e_areas.
Definition wr_varea : Z → (vm_area → vm_area) → E unit := store e_areas upd_e_areas.
Definition set_va_base v a := mk_area (va_next a) v (va_len a) (va_type a) (va_flags a).
Definition set_va_len v a := mk_area (va_next a) (va_base a) v (va_type a) (va_flags a).
Definition set_va_type v a := mk_area (va_next a) (va_base a) (va_len a) v (va_flags a).
Definition set_va_flags v a := mk_area (va_next a) (va_base a) (va_len a) (va_type a) v.

Definition UTASK_ENTRY : Z := 0x1000.
Definition UTASK_STACK_BOTTOM : Z := 0x3000.
Definition UTASK_STACK_TOP : Z := 0x5000.

Section execve.
Context {BC : BuildConfig} (kernel_mmu kernel_end_phys nr_cpus : Z) (tlb_shootdown : Z → Z → Z → V unit).
(** The number of this CPU. *)
Context (id : Z).

(** ** kernel/mm/mmu.c *)

(** [memset] clears the whole object. *)
Definition exec_mmu_alloc : E Z :=
  rv ← on_km (mmu_alloc kernel_mmu);
  modify (upd_e_info <[rv := mk_info NULL 0 0]>);;
  mret rv.

Definition exec_mmu_init (mmu : Z) : E unit :=
  i ← rd_info mmu;
  zoom (λ _, i_cpus i) (λ c s, upd_e_info <[mmu := set_i_cpus c i]> s) cpuset_clear;;
  on_vm (mmu_init kernel_mmu mmu).

Definition exec_mmu_free (mmu : Z) : V unit :=
  kassert_dbg (negb (mmu =? kernel_mmu));;
  m ← rd_mpt mmu;
  kassert_dbg (m_users m =? 0);;
  mmu_reap kernel_end_phys kernel_mmu mmu.

Definition exec_dec_users (mmu : Z) : V unit :=
  if mmu =? kernel_mmu then mret tt
  else
    wr_mpt mmu (λ m, mpt_set_users (u32 (m_users m - 1)) m);;
    m ← rd_mpt mmu;
    if m_users m =? 0 then exec_mmu_free mmu else mret tt.

(** The lock as one CPU sees it. *)
Definition exec_update_cpuset (mmu : Z) (val : bool) : E unit :=
  if mmu =? kernel_mmu then mret tt
  else
    i ← rd_info mmu;
    (if i_cpu_lock i =? 0 then wr_info mmu (set_i_lock 1) else diverge);;
    i ← rd_info mmu;
    zoom (λ _, i_cpus i) (λ c s, upd_e_info <[mmu := set_i_cpus c i]> s) (cpuset_set_id id val);;
    wr_info mmu (set_i_lock 0).

Definition on_areas {A} (mmu : Z) (m : M astate A) : E A :=
  i ← rd_info mmu;
  zoom (λ s, mk_astate (e_areas s) (i_areas i) (mmu =? kernel_mmu))
       (λ a s, mk_exec (e_km s) (areas a) (<[mmu := set_i_areas (first_area a) i]> (e_info s))) m.

(** ** kernel/proc/task.c *)

Definition map_user (mmu phys virt flags : Z) : E unit := on_vm (vmm_map_page nr_cpus tlb_shootdown mmu phys virt flags).

(** The two pages from the one [function] is in. *)
Definition exec_code (mmu function : Z) : E Z :=
  let entry := UTASK_ENTRY in
  map_user mmu (kern_to_phys function) entry (Z.lor PAGE_EXECUTABLE PAGE_USER_ACCESSIBLE);;
  map_user mmu (u64 (kern_to_phys function + PAGE_SIZE)) (u64 (entry + PAGE_SIZE)) (Z.lor PAGE_EXECUTABLE PAGE_USER_ACCESSIBLE);;
  mret (u64 (entry + Z.land function 0xFFF)).

Definition exec_stack_page (mmu off : Z) : E unit :=
  p ← on_vm (on_pm (pmm_alloc_order 0 GFP_NONE));
  let page := page_to_virt p in
  map_user mmu (virt_to_phys page) (u64 (UTASK_STACK_BOTTOM + off)) (Z.lor PAGE_WRITABLE PAGE_USER_ACCESSIBLE).

Definition exec_stack (mmu : Z) : E unit :=
  exec_stack_page mmu (0 * PAGE_SIZE);; exec_stack_page mmu (1 * PAGE_SIZE).

(** [kmalloc], [memset] and the four assignments. *)
Definition new_area (base len type flags : Z) : E Z :=
  p ← on_km (on_heap (kmalloc SIZEOF_VM_AREA KM_NONE));
  (if p =? NULL then fault else modify (upd_e_areas <[p := mk_area 0 0 0 0 0]>));;
  wr_varea p (set_va_base base);;
  wr_varea p (set_va_len len);;
  wr_varea p (set_va_type type);;
  wr_varea p (set_va_flags flags);;
  mret p.

(** The areas that are logged. *)
Definition log_areas (mmu : Z) : E unit :=
  i ← rd_info mmu; s ← get;
  loop (S (size (e_areas s))) (λ cur, if cur =? NULL then mret (inr tt) else a ← rd_varea cur; mret (inl (va_next a))) (i_areas i).

Definition exec_areas (mmu : Z) : E unit :=
  code ← new_area UTASK_ENTRY (2 * PAGE_SIZE) VM_AREA_TEXT VM_AREA_EXECUTABLE;
  on_areas mmu (area_add code);;
  stack ← new_area UTASK_STACK_TOP (UTASK_STACK_TOP - UTASK_STACK_BOTTOM) VM_AREA_STACK VM_AREA_WRITABLE;
  on_areas mmu (area_add stack);;
  log_areas mmu.

Context (ret_addr : Z) (alu : Z → Z).

Abbreviation C := (M (mach exec_mem)).

Definition task_execve (function : Z) : C unit :=
  s ← get; let self := pc_current s in
  t ← rd_tsk self;
  (if t_mmu t =? kernel_mmu then m ← on_mm exec_mmu_alloc; wr_tsk self (set_tmmu m)
   else on_mm (on_vm (exec_dec_users (t_mmu t))));;
  t ← rd_tsk self; let mmu := t_mmu t in
  on_mm (exec_mmu_init mmu);;
  entry ← on_mm (exec_code mmu function);
  on_mm (exec_stack mmu);;
  on_mm (exec_areas mmu);;
  s ← get; modify (upd_preempt (low32 (λ v, v + 1) (pc_preempt s)));;
  on_mm (exec_update_cpuset mmu true);;
  m ← on_mm (on_vm (rd_mpt mmu));
  on_mm (on_vm (write_cr3 (virt_to_phys (m_p4 m))));;
  s ← get; modify (upd_preempt (low32 (λ v, v - 1) (pc_preempt s)));;
  wr RDI entry;; wr RSI UTASK_STACK_TOP;; push ret_addr;;
  ret_from_execve alu.
End execve.

(** ** Views of the state *)

(** The heap, and paging with the allocator they share. *)
Definition heap (s : exec_mem) : slob := km_heap (e_km s).
Definition space (s : exec_mem) : vstate := upd_vpm (spm (heap s)) (km_space (e_km s)).
Definition with_space (v : vstate) (s : exec_mem) : exec_mem :=
  mk_exec (mk_kmem (upd_spm (vpm v) (heap s)) v) (e_areas s) (e_info s).
Definition with_heap (h : slob) (s : exec_mem) : exec_mem := mk_exec (mk_kmem h (km_space (e_km s))) (e_areas s) (e_info s).

Lemma space_with v s : space (with_space v s) = v.
Proof. by destruct v. Qed.

Lemma wp_on_vm {A} (m : V A) s (Q : A → exec_mem → Prop) :
  wp m (space s) (λ x v, Q x (with_space v s)) → wp (on_vm m) s Q.
Proof. intros Hw. apply wp_zoom, wp_zoom. exact Hw. Qed.

Lemma wp_on_kheap {A} (m : L A) s (Q : A → exec_mem → Prop) :
  wp m (heap s) (λ x h, Q x (with_heap h s)) → wp (on_km (on_heap m)) s Q.
Proof. intros Hw. apply wp_zoom, wp_zoom. exact Hw. Qed.

(** The free frames, as physical addresses. *)
Definition free_frames (Zs : list gzone) (q : Z) : Prop := ∃ f, q = f * 4096 ∧ f ∈ pool_free Zs.

(** What holds while an address space is built: the heap is in order, at least
    [k] frames are free, the tables from [root] on are in order, and compared
    with the start, when the frames in [X0] were free, only such frames have
    changed.  The tables for the low two megabytes are among them. *)
Record building (s0 s : exec_mem) (X0 : Z → Prop) (root : Z) (fs al : list sblock) (Zs : list gzone) (k : nat) : Prop := {
  b_heap : slob_inv (heap s) fs al Zs;
  b_lock : slob_lock (heap s) = 0;
  b_frames : (k ≤ length (pool_free Zs))%nat;
  b_tables : tables_ok (pt (space s)) root (free_frames Zs);
  b_free : ∀ q, free_frames Zs q → X0 q;
  b_changed : ∀ x, pt (space s) !! x ≠ pt (space s0) !! x → X0 x;
  b_path : ∀ p x, p `prefix_of` [0; 0; 0] → follow (pt (space s)) root p = Some x → X0 x
}.

(** ** A copy of the top table *)

Section copy.
Context (tabs : gmap Z (list Z)) (kroot n : Z) (l : list Z) (X : Z → Prop).
Hypothesis Hok : tables_ok tabs kroot X.
Hypothesis Hl : tabs !! kroot = Some l.
Hypothesis Hn : X n.

Lemma copy_entry t i : t ≠ n → entry (<[n := l]> tabs) t i = entry tabs t i.
Proof using Type. intros Hne. unfold entry. by rewrite lookup_insert_ne. Qed.

Lemma copy_entry_root i : entry (<[n := l]> tabs) n i = entry tabs kroot i.
Proof using Hl. unfold entry. by rewrite lookup_insert_eq, Hl. Qed.

(** Tables below the top are the same. *)
Lemma copy_follow_below q : ∀ p t, (length p + length q ≤ 3)%nat → Forall idx_ok p → Forall idx_ok q →
  follow tabs kroot p = Some t → follow (<[n := l]> tabs) t q = follow tabs t q.
Proof using Hok Hn.
  induction q as [|i q IH]; intros p t Hpq Hp Hq Ht; [done|]. simpl in Hpq. apply Forall_cons in Hq as [Hi Hq]. cbn [follow].
  assert (t ≠ n) as Hne by (intros ->; by eapply (to_used _ _ _ Hok p); [lia|..]). rewrite copy_entry by done.
  destruct (entry tabs t i) as [e|] eqn:Ee; [|done]. destruct (present e) eqn:Epr; [|done].
  apply (IH (p ++ [i])); [rewrite length_app; simpl; lia|apply Forall_app; split; [done|by constructor]|done|].
  rewrite follow_app, Ht. simpl. by rewrite Ee, Epr.
Qed.

Lemma copy_follow i q : (length q ≤ 2)%nat → Forall idx_ok (i :: q) →
  follow (<[n := l]> tabs) n (i :: q) = follow tabs kroot (i :: q).
Proof using All.
  intros Hq [Hi Hqi]%Forall_cons. cbn [follow]. rewrite copy_entry_root.
  destruct (entry tabs kroot i) as [e|] eqn:Ee; [|done]. destruct (present e) eqn:Epr; [|done].
  apply (copy_follow_below q [i]); [simpl; lia|by constructor|done|]. simpl. by rewrite Ee, Epr.
Qed.

Lemma copy_ok (X' : Z → Prop) : length l = 512%nat → (∀ q, X' q → X q) → ¬ X' n → tables_ok (<[n := l]> tabs) n X'.
Proof using All.
  intros Hlen Hsub HnX.
  assert (∀ p t, (length p ≤ 3)%nat → Forall idx_ok p → follow (<[n := l]> tabs) n p = Some t →
    p = [] ∧ t = n ∨ (p ≠ [] ∧ follow tabs kroot p = Some t ∧ t ≠ n)) as Hcase.
  { intros [|i p] t Hp Hpi Hf; [left; by injection Hf|right]. rewrite copy_follow in Hf by (simpl in Hp; lia || done).
    split_and!; [done|done|]. intros ->. by eapply (to_used _ _ _ Hok (i :: p)). }
  split.
  - intros p t Hp Hpi Hf. destruct (Hcase p t Hp Hpi Hf) as [[-> ->]|(_ & Ht & Hne)]; [rewrite lookup_insert_eq; eauto|].
    rewrite lookup_insert_ne by done. by eapply (to_table _ _ _ Hok p).
  - intros p t Hp Hpi Hf. destruct (Hcase p t ltac:(lia) Hpi Hf) as [[-> _]|(_ & Ht & _)]; [simpl in Hp; lia|].
    by eapply (to_frame _ _ _ Hok p).
  - intros p q t Hpu Hp Hq Hpi Hqi Hfp Hfq.
    destruct (Hcase p t Hp Hpi Hfp) as [[-> ->]|(_ & Htp & Hne)], (Hcase q _ Hq Hqi Hfq) as [[-> ?]|(_ & Htq & ?)]; try done.
    by eapply (to_inj _ _ _ Hok).
  - intros p t Hp Hpi Hf HX. destruct (Hcase p t Hp Hpi Hf) as [[-> ->]|(_ & Ht & _)]; [done|].
    by eapply (to_used _ _ _ Hok p); [..|apply Hsub].
Qed.

Lemma copy_pte va : 0 ≤ va → pte_of (<[n := l]> tabs) n va = pte_of tabs kroot va.
Proof using All.
  intros Hva. unfold pte_of. pose proof (path_of_ok va Hva) as Hp. unfold path_of in *. rewrite copy_follow by (simpl; lia || done).
  destruct (follow tabs kroot _) as [t|] eqn:Ht; [|done]. rewrite copy_entry; [done|].
  intros ->. eapply (to_used _ _ _ Hok _ n); [|exact Hp|exact Ht|done]. simpl. lia.
Qed.
End copy.

(** Where no table of an address space changes, nothing changes in it. *)
Lemma unchanged_follow tabs tabs' root X p :
  tables_ok tabs root X → (∀ x, tabs' !! x ≠ tabs !! x → X x) → (length p ≤ 3)%nat → Forall idx_ok p →
  follow tabs' root p = follow tabs root p.
Proof.
  intros Hok HX. induction p as [|i p IH] using rev_ind; intros Hp Hpi; [done|]. rewrite length_app in Hp. simpl in Hp.
  apply Forall_app in Hpi as [Hpi Hi]. rewrite !follow_app, IH by (lia || done).
  destruct (follow tabs root p) as [t|] eqn:Ht; [|done]. simpl.
  assert (entry tabs' t i = entry tabs t i) as ->; [|done]. unfold entry.
  destruct (decide (tabs' !! t = tabs !! t)) as [->|Hne]; [done|]. by destruct (to_used _ _ _ Hok p t ltac:(lia) Hpi Ht (HX t Hne)).
Qed.

Lemma unchanged_pte tabs tabs' root X va :
  tables_ok tabs root X → (∀ x, tabs' !! x ≠ tabs !! x → X x) → 0 ≤ va → pte_of tabs' root va = pte_of tabs root va.
Proof.
  intros Hok HX Hva. unfold pte_of. pose proof (path_of_ok va Hva) as Hp.
  rewrite (unchanged_follow tabs tabs' root X) by (done || simpl; lia).
  destruct (follow tabs root (path_of va)) as [t|] eqn:Ht; [|done]. unfold entry.
  destruct (decide (tabs' !! t = tabs !! t)) as [->|Hne]; [done|].
  by destruct (to_used _ _ _ Hok (path_of va) t ltac:(simpl; lia) Hp Ht (HX t Hne)).
Qed.

(** What an entry allows a user program. *)
Record user_page (e frame : Z) (writable executable : bool) : Prop := {
  up_present : Z.testbit e 0 = true;
  up_user : Z.testbit e 2 = true;
  up_write : Z.testbit e 1 = writable;
  up_exec : Z.testbit e 63 = negb executable;
  up_frame : paddr e = frame
}.

Lemma mapped_user phys flags w x :
  0 ≤ phys → Z.lxor flags PAGE_EXECUTABLE = 4 + (if w : bool then 2 else 0) + (if x : bool then 0 else 2 ^ 63) →
  user_page (mapped_pte phys flags) (Z.land phys PTE_ADDR_MASK) w x.
Proof.
  intros Hp Hfl. unfold mapped_pte. rewrite Hfl. set (g := Z.land _ (not64 VMM_ALLOC_MMAP)).
  assert (g = 4 + (if w then 2 else 0) + (if x then 0 else 2 ^ 63)) as -> by (unfold g; by destruct w, x).
  set (a := Z.land phys PTE_ADDR_MASK). assert (∀ i, 0 ≤ i → Z.testbit a i = Z.testbit phys i && ((12 <=? i) && (i <? 52))) as Ha.
  { intros i Hi. unfold a. by rewrite Z.land_spec, mask_bit. }
  split; rewrite ?Z.lor_spec, ?Ha, ?andb_false_r by lia; try (by destruct w, x).
  unfold paddr. apply Z.bits_inj'. intros i Hi. rewrite Z.land_spec, !Z.lor_spec, mask_bit, Ha by done.
  destruct (Z.leb_spec 12 i); simpl; [|by rewrite !andb_false_r]. destruct (Z.ltb_spec i 52); [|by rewrite !andb_false_r].
  rewrite !andb_true_r. assert (Z.testbit PAGE_PRESENT i = false) as ->.
  { unfold PAGE_PRESENT. rewrite Z.shiftl_spec by done. rewrite Z.sub_0_r. apply (Z.bits_above_log2 1); [lia|simpl; lia]. }
  rewrite orb_false_r. assert (Z.testbit (4 + (if w then 2 else 0) + (if x then 0 else 2 ^ 63)) i = false) as ->; [|by rewrite orb_false_r].
  rewrite <-(Z.mod_pow2_bits_low _ 52) by lia.
  assert ((4 + (if w then 2 else 0) + (if x then 0 else 2 ^ 63)) mod 2 ^ 52 = 4 + (if w then 2 else 0)) as -> by by destruct w, x.
  apply Z.bits_above_log2; [destruct w; lia|]. assert (Z.log2 (4 + (if w then 2 else 0)) = 2) as -> by by destruct w. lia.
Qed.

Section proof.
Context {BC : BuildConfig} (kernel_mmu kernel_end_phys nr_cpus : Z) (tlb_shootdown : Z → Z → Z → V unit) (id : Z).
Hypothesis Hquiet : DEBUG = false ∨ nr_cpus ≤ 1.

(** A page of the low two megabytes. *)
Definition low_page (virt : Z) : Prop := 0 ≤ virt < 2 ^ 21.

Lemma low_path virt : low_page virt → path_of virt = [0; 0; 0].
Proof using Type.
  intros Hv. unfold path_of, low_page in *. rewrite !table_index_div by (done || lia).
  unfold P4_ADDR_SHIFT, P3_ADDR_SHIFT, P2_ADDR_SHIFT. by rewrite !(Z.div_small virt) by lia.
Qed.

Lemma low_unshared : unshared [0; 0; 0].
Proof using Type. split; by intros [l [=]]. Qed.

Lemma low_prefix p : p `prefix_of` [0; 0; 0] → (length p ≤ 3)%nat ∧ Forall idx_ok p.
Proof using Type.
  intros Hp. split; [by apply prefix_length in Hp|]. destruct Hp as [q Hq].
  assert (Forall idx_ok [0; 0; 0]) as H0 by (repeat constructor; unfold idx_ok; lia). rewrite Hq in H0. by apply Forall_app in H0 as [? _].
Qed.

(** A frame that is neither free nor a table. *)
Definition private (s : exec_mem) (root : Z) (Zs : list gzone) (q : Z) : Prop :=
  ¬ free_frames Zs q ∧ ∀ p, (length p ≤ 3)%nat → Forall idx_ok p → follow (pt (space s)) root p ≠ Some q.

(** What stays when the pages at [vas] are mapped. *)
Record kept (root : Z) (s s' : exec_mem) (Zs Zs' : list gzone) (vas : list Z) : Prop := {
  k_mpts : mpts (space s') = mpts (space s);
  k_areas : e_areas s' = e_areas s;
  k_info : e_info s' = e_info s;
  k_other : ∀ va, 0 ≤ va → Forall (λ v, vpn va ≠ vpn v) vas → pte_of (pt (space s')) root va = pte_of (pt (space s)) root va;
  k_private : ∀ q, private s root Zs q → private s' root Zs' q
}.

Lemma kept_trans root s1 s2 s3 Zs1 Zs2 Zs3 vas vas' :
  kept root s1 s2 Zs1 Zs2 vas → kept root s2 s3 Zs2 Zs3 vas' → kept root s1 s3 Zs1 Zs3 (vas ++ vas').
Proof using Type.
  intros [H1 H2 H3 H4 H5] [K1 K2 K3 K4 K5]. split; try congruence; [|by auto].
  intros va Hva [Hv Hv']%Forall_app. by rewrite K4, H4.
Qed.

Lemma wp_map_user s0 s X0 root fs al Zs k mmu m phys virt flags (Q : unit → exec_mem → Prop) :
  building s0 s X0 root fs al Zs (3 + k) → mpts (space s) !! mmu = Some m → mmu ≠ NULL → wr_lock m = 0 → m_p4 m ≠ NULL →
  tab_phys (m_p4 m) = root → low_page virt → Z.land flags VMM_UNMAP = 0 → Z.land (pgtab_flags virt flags) VMM_ALLOC_MMAP = 0 →
  (∀ s' Zs', building s0 s' X0 root fs al Zs' k → kept root s s' Zs Zs' [virt] →
     pte_of (pt (space s')) root virt = mapped_pte phys flags → Q tt s') →
  wp (map_user nr_cpus tlb_shootdown mmu phys virt flags) s Q.
Proof using Hquiet.
  intros [Hh Hl Hk Ht Hfr Hch Hpa] Hm Hmmu Hwl Hp4 Hroot Hv Hun Hfl HQ. apply wp_on_vm.
  eapply (wp_vmm_map_page nr_cpus tlb_shootdown Hquiet (space s) mmu m root (free_frames Zs) Hm Hmmu Hwl Hp4 Hroot Ht
            phys virt flags (FrameSource0 := pmm_source _ Hfl) k); [|done|unfold low_page in Hv; lia|by rewrite low_path; [apply low_unshared|]|].
  { exists Zs. split; [apply Hh|]. split; [done|]. split; [apply Hh|done]. }
  intros v X' [Htk (Zs' & Hok & Hk' & Hlo & HX') Hmp _ Hcr _ Hpte Hoth [Hxf Hxc Hxr] _].
  assert (∀ f, f ∈ pool_free Zs' → f ∈ pool_free Zs) as Hsub.
  { intros f Hf. destruct (Hxf (f * 4096)) as (g & E & Hg); [apply HX'; by exists f|]. by replace f with g by lia. }
  assert (∀ q, free_frames Zs' q ↔ X' q) as Hiff by (intros q; symmetry; apply HX').
  apply (HQ _ Zs'); rewrite ?space_with; try done.
  - split; rewrite ?space_with; try done.
    + by eapply slob_inv_pool.
    + by eapply tables_ok_free; [exact Htk|intros q ?%Hiff].
    + intros q (f & -> & Hf). apply Hfr. exists f. split; [done|by apply Hsub].
    + intros x Hx. destruct (decide (pt v !! x = pt (space s) !! x)) as [E|E]; [apply Hch; by rewrite <-E|].
      destruct (Hxc x E) as [Hx'|(p & Hp & Hf)]; [by apply Hfr|]. rewrite low_path in Hp by done. by eapply Hpa.
    + intros p x Hp Hf. destruct (low_prefix p Hp) as [Hpl Hpi].
      destruct (Hxr p x Hpl Hpi Hf) as [Hx|Hx]; [by apply Hfr|by eapply Hpa].
  - split; rewrite ?space_with; try done; [intros va Hva [Hne _]%Forall_cons; by apply Hoth|].
    intros q [Hnf Hnt]. split; [intros (f & -> & Hf); apply Hnf; exists f; by split; [|apply Hsub]|].
    intros p Hp Hpi Hf. rewrite space_with in Hf. destruct (Hxr p q Hp Hpi Hf) as [?|?]; [done|by eapply Hnt].
Qed.

(** The kernel's address space, with nothing mapped in the low half. *)
Record kernel_space (s : exec_mem) (km : mmu_pt) (kroot : Z) (Zs : list gzone) : Prop := {
  ks_mpt : mpts (space s) !! kernel_mmu = Some km;
  ks_ne : kernel_mmu ≠ NULL;
  ks_root : tab_phys (m_p4 km) = kroot;
  ks_tables : tables_ok (pt (space s)) kroot (free_frames Zs);
  ks_low : follow (pt (space s)) kroot [0] = None
}.

(** A frame is taken from the allocator. *)
Lemma wp_vm_frame h v fs al Zs (Q : Z → vstate → Prop) :
  slob_inv h fs al Zs → vpm v = spm h → pool_free Zs ≠ [] →
  (∀ f pm' Zs', pool_free Zs ≡ₚ f :: pool_free Zs' → f ∉ pool_free Zs' → pfn_ok f → 0 < f →
     slob_inv (upd_spm pm' h) fs al Zs' → Q (ptr f) (upd_vpm pm' v)) →
  wp (on_pm (pmm_alloc_order 0 GFP_NONE)) v Q.
Proof using Type.
  intros Hh Hv Hne HQ. apply wp_zoom. rewrite Hv. eapply (wp_single_frame _ Zs); [apply Hh|done|].
  intros f pm' Zs' Hpa Hok Hf _ Hin Hnin Hperm. destruct (pool_free_range _ _ _ (si_pm _ _ _ _ Hh) Hin) as (g & Hg & Hr & _).
  pose proof (si_low _ _ _ _ Hh g Hg). apply (HQ f pm' Zs'); [done|done|done|lia|].
  eapply slob_inv_pool; [done|done|intros x Hx; rewrite Hperm; by right|by eapply pool_alloc_low; [|apply Hh]].
Qed.

Lemma frame_virt f : pfn_ok f → 0 < f → page_to_virt (ptr f) = phys_to_virt (f * 4096) ∧ frame_ok (f * 4096).
Proof using Type.
  intros Hf H0. unfold page_to_virt, ptr. rewrite page_to_phys_pfn by done. split; [done|].
  split; [by exists f|]. unfold pfn_ok in Hf. lia.
Qed.

Lemma phys_virt_phys q : frame_ok q → virt_to_phys (phys_to_virt q) = q.
Proof using Type. intros [_ Hq]. rewrite phys_to_virt_ok by lia. apply virt_to_phys_ok. lia. Qed.

Lemma wp_exec_mmu_init s fs al Zs k km kroot mmu m i (Q : unit → exec_mem → Prop) :
  slob_inv (heap s) fs al Zs → slob_lock (heap s) = 0 → (S k ≤ length (pool_free Zs))%nat → kernel_space s km kroot Zs →
  mpts (space s) !! mmu = Some m → mmu ≠ NULL → mmu ≠ kernel_mmu → e_info s !! mmu = Some i →
  (∀ root s' Zs', building s s' (free_frames Zs) root fs al Zs' k → free_frames Zs root → frame_ok root →
     mpts (space s') = <[mmu := mpt_set_p4 (phys_to_virt root) m]> (mpts (space s)) →
     e_areas s' = e_areas s → e_info s' = <[mmu := set_i_cpus 0 i]> (e_info s) →
     (∀ va, 0 ≤ va → pte_of (pt (space s')) root va = pte_of (pt (space s)) kroot va) → Q tt s') →
  wp (exec_mmu_init kernel_mmu mmu) s Q.
Proof using Type.
  intros Hh Hl Hk [Hkm Hkn Hkr Hkt Hlow] Hm Hmmu Hne Hi HQ. unfold exec_mmu_init. apply wp_bind, (wp_deref _ _ i); [done..|].
  apply wp_bind, wp_zoom, wp_put. apply wp_on_vm. unfold mmu_init. apply wp_bind.
  eapply (wp_vm_frame (heap s) _ fs al Zs); [done|done|by intros E; rewrite E in Hk; simpl in Hk; lia|].
  intros f pm' Zs' Hperm Hnin Hf H0 Hh'. destruct (frame_virt f Hf H0) as [-> Hfo]. set (root := f * 4096) in *.
  destruct (tab_phys_virt root Hfo) as [Etr _].
  apply wp_bind. eapply wp_store; [exact Hm|done|]. apply wp_bind. eapply (wp_deref mpts); [apply lookup_insert_eq|done|].
  unfold copy_kernel_mappings. apply wp_bind. eapply (wp_deref mpts); [simpl; rewrite lookup_insert_ne by done; exact Hkm|done|].
  apply wp_bind, wp_get. simpl. rewrite Hkr, Etr.
  destruct (to_table _ _ _ Hkt [] kroot ltac:(simpl; lia) ltac:(constructor) eq_refl) as (l & Hlk & Hlen).
  change (pt (space s)) with (pt (km_space (e_km s))) in Hlk. rewrite Hlk. apply wp_modify.
  assert (free_frames Zs root) as Hfr by (exists f; split; [done|rewrite Hperm; left]).
  assert (∀ q, free_frames Zs' q → free_frames Zs q) as Hsub.
  { intros q (g & -> & Hg). exists g. split; [done|]. rewrite Hperm. by right. }
  apply (HQ root _ Zs'); rewrite ?space_with; try done.
  2: { intros va Hva. by apply (copy_pte _ kroot root l (free_frames Zs)). }
  split; rewrite ?space_with; try done.
  - rewrite Hperm in Hk. simpl in Hk. lia.
  - eapply (copy_ok _ kroot root l (free_frames Zs)); [done..|]. intros (g & E & Hg). unfold root in E. by replace f with g in Hnin by lia.
  - intros x Hx. simpl in Hx. destruct (decide (x = root)) as [->|]; [done|]. by rewrite lookup_insert_ne in Hx.
  - intros p x Hp Hfx. simpl in Hfx. destruct p as [|j p]; [by injection Hfx as <-|].
    destruct (low_prefix _ Hp) as [Hpl Hpi]. destruct Hp as [? [= <- _]].
    rewrite (copy_follow _ kroot root l (free_frames Zs)) in Hfx by (simpl in *; lia || done).
    rewrite (follow_app _ _ [0] p) in Hfx. change (pt (km_space (e_km s))) with (pt (space s)) in Hfx.
    by rewrite Hlow in Hfx.
Qed.

(** The address space with top table [root] belongs to [mmu]. *)
Record owns (s : exec_mem) (mmu : Z) (m : mmu_pt) (root : Z) : Prop := {
  ow_mpt : mpts (space s) !! mmu = Some m;
  ow_ne : mmu ≠ NULL;
  ow_lock : wr_lock m = 0;
  ow_p4 : m_p4 m = phys_to_virt root;
  ow_frame : frame_ok root
}.

Lemma owns_kept s s' mmu m root Zs Zs' vas : owns s mmu m root → kept root s s' Zs Zs' vas → owns s' mmu m root.
Proof using Type. intros [] []. split; try done. congruence. Qed.

Definition CODE_FLAGS : Z := Z.lor PAGE_EXECUTABLE PAGE_USER_ACCESSIBLE.
Definition STACK_FLAGS : Z := Z.lor PAGE_WRITABLE PAGE_USER_ACCESSIBLE.

Lemma wp_map_owned s0 s X0 root fs al Zs k mmu m phys virt flags (Q : unit → exec_mem → Prop) :
  building s0 s X0 root fs al Zs (3 + k) → owns s mmu m root → low_page virt → flags = CODE_FLAGS ∨ flags = STACK_FLAGS →
  (∀ s' Zs', building s0 s' X0 root fs al Zs' k → kept root s s' Zs Zs' [virt] →
     pte_of (pt (space s')) root virt = mapped_pte phys flags → Q tt s') →
  wp (map_user nr_cpus tlb_shootdown mmu phys virt flags) s Q.
Proof using Hquiet.
  intros Hb [Hm Hne Hl Hp Hf] Hv Hfl. destruct (tab_phys_virt root Hf) as [Et Hn]. eapply wp_map_user; try done.
  - by rewrite Hp.
  - by rewrite Hp.
  - by destruct Hfl as [-> | ->].
  - unfold pgtab_flags. destruct (Z.ltb_spec virt KERNEL_LOGICAL_BASE); [|unfold low_page, KERNEL_LOGICAL_BASE in *; lia].
    by destruct Hfl as [-> | ->].
Qed.

Lemma wp_exec_code s0 s X0 root fs al Zs k mmu m function (Q : Z → exec_mem → Prop) :
  building s0 s X0 root fs al Zs (6 + k) → owns s mmu m root →
  (∀ s' Zs', building s0 s' X0 root fs al Zs' k → kept root s s' Zs Zs' [0x1000; 0x2000] →
     pte_of (pt (space s')) root 0x1000 = mapped_pte (kern_to_phys function) CODE_FLAGS →
     pte_of (pt (space s')) root 0x2000 = mapped_pte (u64 (kern_to_phys function + PAGE_SIZE)) CODE_FLAGS →
     Q (0x1000 + Z.land function 0xFFF) s') →
  wp (exec_code nr_cpus tlb_shootdown mmu function) s Q.
Proof using Hquiet.
  intros Hb Ho HQ. unfold exec_code. apply wp_bind.
  eapply (wp_map_owned _ _ _ _ _ _ _ (3 + k)); [exact Hb|done|unfold low_page, UTASK_ENTRY; lia|by left|]. intros s1 Zs1 Hb1 Hk1 Hp1.
  apply wp_bind. eapply wp_map_owned; [exact Hb1|by eapply owns_kept|unfold low_page; by vm_compute|by left|].
  intros s2 Zs2 Hb2 Hk2 Hp2. apply wp_ret. rewrite uwrap_id.
  2: { change 0xFFF with (Z.ones 12). rewrite Z.land_ones by lia. pose proof (Z.mod_pos_bound function (2 ^ 12) ltac:(lia)). unfold in_u, UTASK_ENTRY. lia. }
  apply (HQ _ Zs2); [done|by eapply (kept_trans _ _ s1 _ _ Zs1 _ [0x1000] [0x2000])| |done].
  rewrite (k_other _ _ _ _ _ _ Hk2); [done|lia|]. by constructor.
Qed.

Lemma wp_exec_stack_page s0 s X0 root fs al Zs k mmu m off (Q : unit → exec_mem → Prop) :
  building s0 s X0 root fs al Zs (4 + k) → owns s mmu m root → 0 ≤ off < 2 ^ 20 →
  (∀ s' Zs' q, building s0 s' X0 root fs al Zs' k → kept root s s' Zs Zs' [0x3000 + off] →
     frame_ok q → free_frames Zs q → private s' root Zs' q →
     pte_of (pt (space s')) root (0x3000 + off) = mapped_pte q STACK_FLAGS → Q tt s') →
  wp (exec_stack_page nr_cpus tlb_shootdown mmu off) s Q.
Proof using Hquiet.
  intros [Hh Hl Hk Ht Hfr Hch Hpa] Ho Hoff HQ. unfold exec_stack_page. apply wp_bind, wp_on_vm.
  eapply (wp_vm_frame (heap s) _ fs al Zs); [done|done|by intros E; rewrite E in Hk; simpl in Hk; lia|].
  intros f pm' Zs1 Hperm Hnin Hf H0 Hh'. destruct (frame_virt f Hf H0) as [-> Hfo]. set (q := f * 4096) in *.
  set (s1 := with_space _ s). assert (∀ x, free_frames Zs1 x → free_frames Zs x) as Hsub.
  { intros x (g & -> & Hg). exists g. split; [done|]. rewrite Hperm. by right. }
  assert (free_frames Zs q) as Hq by (exists f; split; [done|rewrite Hperm; left]).
  assert (¬ free_frames Zs1 q) as Hq1 by (intros (g & E & Hg); unfold q in E; by replace f with g in Hnin by lia).
  assert (building s0 s1 X0 root fs al Zs1 (3 + k)) as Hb1.
  { split; try done; [rewrite Hperm in Hk; simpl in Hk; lia|by eapply tables_ok_free|by auto]. }
  assert (private s1 root Zs1 q) as Hpriv.
  { split; [done|]. intros p Hp Hpi Hfp. by eapply (to_used _ _ _ Ht p q). }
  assert (kept root s s1 Zs Zs1 []) as Hk1.
  { split; try done. intros x [Hx Hxt]. split; [intros ?%Hsub; done|done]. }
  rewrite phys_virt_phys by done. rewrite uwrap_id by (unfold in_u, UTASK_STACK_BOTTOM; lia).
  eapply wp_map_owned; [exact Hb1|by eapply owns_kept|unfold low_page, UTASK_STACK_BOTTOM; lia|by right|].
  intros s2 Zs2 Hb2 Hk2 Hp2. apply (HQ _ Zs2 q); [done|by eapply (kept_trans _ _ s1 _ _ Zs1 _ [])|done|done| |done].
  by apply (k_private _ _ _ _ _ _ Hk2).
Qed.

(** ** Objects on the heap *)

Lemma wp_exec_kmalloc s a u post al Zs n (Q : Z → exec_mem → Prop) :
  let k := (n + 15) / 16 in
  slob_inv (heap s) ((a, u) :: post) al Zs → slob_lock (heap s) = 0 → 0 ≤ n ≤ 4064 → k < u →
  (∀ h, slob_inv h ((a + UNIT * (k + 1), u - k - 1) :: post) ((a, k) :: al) Zs → slob_lock h = 0 → Q (a + UNIT) (with_heap h s)) →
  wp (on_km (on_heap (kmalloc n KM_NONE))) s Q.
Proof using Type. intros k Hh Hl Hn Hk HQ. apply wp_on_kheap. by eapply wp_kmalloc_cut. Qed.

Lemma building_heap s0 s X0 root fs al Zs k h fs' al' :
  building s0 s X0 root fs al Zs k → slob_inv h fs' al' Zs → slob_lock h = 0 →
  building s0 (with_heap h s) X0 root fs' al' Zs k.
Proof using Type. intros [] Hh Hl. by split. Qed.

Lemma kept_heap root s h Zs : kept root s (with_heap h s) Zs Zs [].
Proof using Type. by split. Qed.

Lemma heap_addr h a u post al Zs : slob_inv h ((a, u) :: post) al Zs → 0 < a ∧ a + UNIT * (u + 1) ≤ KERNEL_TEXT_BASE.
Proof using Type.
  intros Hh. pose proof (si_pages _ _ _ _ Hh) as [[Hp _]%Forall_cons _]%Forall_app. simpl in Hp.
  destruct Hp as (f & i & Hf & Hf0 & E & Hi & Hu & Hiu). simpl in *.
  unfold base, UNIT, PAGE_SIZE, KERNEL_LOGICAL_BASE, KERNEL_TEXT_BASE, pfn_ok in *. lia.
Qed.

(** The fields of an area that was just filled in. *)
Lemma wp_new_area s a u post al Zs base len type flags (Q : Z → exec_mem → Prop) :
  slob_inv (heap s) ((a, u) :: post) al Zs → slob_lock (heap s) = 0 → 2 < u →
  (∀ h, slob_inv h ((a + UNIT * 3, u - 3) :: post) ((a, 2) :: al) Zs → slob_lock h = 0 →
     Q (a + UNIT) (upd_e_areas <[a + UNIT := mk_area 0 base len type flags]> (with_heap h s))) →
  wp (new_area base len type flags) s Q.
Proof using Type.
  intros Hh Hl Hu HQ. destruct (heap_addr _ _ _ _ _ _ Hh) as [Ha _]. unfold new_area. apply wp_bind.
  eapply wp_exec_kmalloc; [done|done|unfold SIZEOF_VM_AREA; lia|done|]. intros h Hh' Hl'.
  assert (a + UNIT ≠ NULL) as Hne by (unfold UNIT; lia). destruct (Z.eqb_spec (a + UNIT) NULL); [done|].
  apply wp_bind, wp_modify.
  do 4 (apply wp_bind; eapply (wp_store e_areas); [apply lookup_insert_eq|done|]). apply wp_ret.
  unfold upd_e_areas. simpl. rewrite !insert_insert_eq. apply HQ; [|done].
  replace (u - 3) with (u - 2 - 1) by lia. exact Hh'.
Qed.

(** ** The areas *)

Definition code_area (next : Z) : vm_area := mk_area next 0x1000 0x2000 VM_AREA_TEXT VM_AREA_EXECUTABLE.
Definition stack_area : vm_area := mk_area 0 0x5000 0x2000 VM_AREA_STACK VM_AREA_WRITABLE.

Lemma size_two {A} (m : gmap Z A) c d x y : m !! c = Some x → m !! d = Some y → c ≠ d → ∃ k, size m = S (S k).
Proof using Type.
  intros Hc Hd Hne. rewrite <-(insert_delete_id m c x Hc), map_size_insert_None by apply lookup_delete_eq.
  rewrite <-(insert_delete_id (delete c m) d y), map_size_insert_None by (apply lookup_delete_eq || by rewrite lookup_delete_ne).
  by eexists.
Qed.

(** The stack's area goes behind the code's. *)
Lemma wp_area_add_stack m c d (Q : unit → astate → Prop) :
  m !! c = Some (code_area 0) → m !! d = Some stack_area → c ≠ d → c ≠ NULL → d ≠ NULL →
  Q tt (mk_astate (<[c := code_area d]> m) c false) → wp (area_add d) (mk_astate m c false) Q.
Proof using Type.
  intros Hc Hd Hne Hc0 Hd0 HQ. unfold area_add. apply wp_bind, wp_get. apply wp_bind, wp_kassert_dbg; [done|]. simpl first_area.
  destruct (Z.eqb_spec c NULL); [done|]. apply wp_bind. destruct (size_two m c d _ _ Hc Hd Hne) as [k Hk]. simpl areas. rewrite Hk.
  cbn [loop]. apply wp_bind. unfold area_round at 1. destruct (Z.eqb_spec c NULL); [done|].
  apply wp_bind, (wp_rd_area _ (code_area 0)); [done..|]. apply wp_bind, (wp_rd_area _ stack_area); [done..|].
  apply wp_bind, wp_kassert_dbg; [done|]. simpl. apply wp_bind, (wp_rd_area _ (code_area 0)); [done..|]. apply wp_ret. simpl va_next.
  apply wp_bind. unfold area_round at 1. simpl. apply wp_ret, wp_ret.
  apply wp_bind, (wp_rd_area _ (code_area 0)); [done..|]. apply wp_bind, (wp_rd_area _ stack_area); [done..|].
  apply wp_bind, wp_kassert_dbg; [done|]. eapply (wp_store areas); [exact Hc|done|]. exact HQ.
Qed.

Lemma wp_log_areas s mmu i c d (Q : unit → exec_mem → Prop) :
  e_info s !! mmu = Some i → mmu ≠ NULL → i_areas i = c → c ≠ d → c ≠ NULL → d ≠ NULL →
  e_areas s !! c = Some (code_area d) → e_areas s !! d = Some stack_area → Q tt s → wp (log_areas mmu) s Q.
Proof using Type.
  intros Hi Hmmu <- Hne Hc0 Hd0 Hc Hd HQ. unfold log_areas. apply wp_bind, (wp_deref _ _ i); [done..|]. apply wp_bind, wp_get.
  destruct (size_two _ _ d _ _ Hc Hd Hne) as [k Hk]. rewrite Hk. cbn [loop].
  apply wp_bind. destruct (Z.eqb_spec (i_areas i) NULL); [done|]. apply wp_bind, (wp_deref _ _ (code_area d)); [done..|]. apply wp_ret.
  simpl va_next. apply wp_bind. destruct (Z.eqb_spec d NULL); [done|]. apply wp_bind, (wp_deref _ _ stack_area); [done..|]. apply wp_ret.
  by apply wp_bind.
Qed.

Lemma wp_exec_areas s a u post al Zs mmu i (Q : unit → exec_mem → Prop) :
  let c := a + UNIT in let d := a + UNIT * 3 + UNIT in
  slob_inv (heap s) ((a, u) :: post) al Zs → slob_lock (heap s) = 0 → 5 < u →
  e_info s !! mmu = Some i → i_areas i = NULL → mmu ≠ NULL → mmu ≠ kernel_mmu →
  (∀ h, slob_inv h ((a + UNIT * 6, u - 6) :: post) ((a + UNIT * 3, 2) :: (a, 2) :: al) Zs → slob_lock h = 0 →
     Q tt (mk_exec (mk_kmem h (km_space (e_km s))) (<[c := code_area d]> (<[d := stack_area]> (e_areas s))) (<[mmu := set_i_areas c i]> (e_info s)))) →
  wp (exec_areas kernel_mmu mmu) s Q.
Proof using Type.
  intros c d Hh Hl Hu Hi Hi0 Hmmu Hkm HQ. destruct (heap_addr _ _ _ _ _ _ Hh) as [Ha _].
  assert (c ≠ d ∧ c ≠ NULL ∧ d ≠ NULL) as (Hcd & Hc0 & Hd0) by (unfold c, d, UNIT; lia).
  assert (mmu =? kernel_mmu = false) as Ek by by apply Z.eqb_neq.
  unfold exec_areas. apply wp_bind. eapply wp_new_area; [exact Hh|done|lia|]. intros h1 Hh1 Hl1. fold c.
  apply wp_bind. unfold on_areas. apply wp_bind, (wp_deref _ _ i); [done..|]. apply wp_zoom. rewrite Ek, Hi0.
  unfold area_add. apply wp_bind, wp_get. apply wp_bind, wp_kassert_dbg; [done|]. apply wp_modify. simpl.
  apply wp_bind. eapply wp_new_area; [exact Hh1|exact Hl1|lia|]. intros h2 Hh2 Hl2. fold d.
  apply wp_bind, wp_bind, (wp_deref _ _ (set_i_areas c i)); [apply lookup_insert_eq|done|]. apply wp_zoom. simpl.
  apply wp_area_add_stack; [rewrite lookup_insert_ne by done; apply lookup_insert_eq|apply lookup_insert_eq|done..|].
  eapply (wp_log_areas _ mmu (set_i_areas c i) c d); [apply lookup_insert_eq|done|done|done|done|done|apply lookup_insert_eq| |].
  { simpl. rewrite lookup_insert_ne by done. apply lookup_insert_eq. }
  simpl. rewrite !insert_insert_eq. unfold with_heap, upd_e_areas. simpl.
  rewrite (insert_insert_ne _ d c) by done. rewrite insert_insert_eq. apply HQ; [|done].
  replace (a + UNIT * 6) with (a + UNIT * 3 + UNIT * 3) by lia. by replace (u - 6) with (u - 3 - 3) by lia.
Qed.

(** ** The rest of the way *)

Lemma wp_exec_mmu_alloc s a u post al Zs (Q : Z → exec_mem → Prop) :
  slob_inv (heap s) ((a, u) :: post) al Zs → slob_lock (heap s) = 0 → 5 < u → KERNEL_TEXT_BASE ≤ kernel_mmu →
  (∀ s1, slob_inv (heap s1) ((a + UNIT * 6, u - 6) :: post) ((a, 5) :: al) Zs → slob_lock (heap s1) = 0 →
     pt (space s1) = pt (space s) → mpts (space s1) = <[a + UNIT := mk_mpt 0 1 0 0 0]> (mpts (space s)) →
     e_areas s1 = e_areas s → e_info s1 = <[a + UNIT := mk_info NULL 0 0]> (e_info s) → Q (a + UNIT) s1) →
  wp (exec_mmu_alloc kernel_mmu) s Q.
Proof using Type.
  intros Hh Hl Hu Hkm HQ. destruct (heap_addr _ _ _ _ _ _ Hh) as [Ha Hhi]. unfold UNIT in Hhi.
  unfold exec_mmu_alloc, mmu_alloc. apply wp_bind, wp_zoom, wp_bind, wp_zoom.
  eapply wp_kmalloc_cut; [exact Hh|done|unfold SIZEOF_MMU_INFO; lia|done|]. intros h Hh' Hl'.
  assert (a + UNIT ≠ NULL) as Hne by (unfold UNIT; lia). destruct (Z.eqb_spec (a + UNIT) NULL); [done|].
  apply wp_bind, wp_zoom, wp_modify. unfold inc_users. destruct (Z.eqb_spec (a + UNIT) kernel_mmu); [unfold UNIT in *; lia|].
  apply wp_bind, wp_zoom. eapply (wp_store mpts); [apply lookup_insert_eq|done|]. apply wp_ret, wp_bind, wp_modify, wp_ret.
  apply HQ; simpl; try done; [|by rewrite insert_insert_eq].
  replace (u - 6) with (u - 5 - 1) by lia. by destruct h.
Qed.

Lemma wp_exec_cpuset s mmu i (Q : unit → exec_mem → Prop) :
  e_info s !! mmu = Some i → mmu ≠ NULL → mmu ≠ kernel_mmu → i_cpu_lock i = 0 → i_cpus i = 0 → 0 ≤ id < MAX_CORES →
  Q tt (upd_e_info <[mmu := set_i_cpus (2 ^ (id + 1)) i]> s) → wp (exec_update_cpuset kernel_mmu id mmu true) s Q.
Proof using Type.
  intros Hi Hmmu Hne Hl Hc Hid HQ. unfold exec_update_cpuset. destruct (Z.eqb_spec mmu kernel_mmu); [done|].
  apply wp_bind, (wp_deref _ _ i); [done..|]. rewrite Hl. apply wp_bind, (wp_store _ _ _ _ i); [done..|].
  apply wp_bind. eapply (wp_deref e_info); [apply lookup_insert_eq|done|]. apply wp_bind, wp_zoom. simpl i_cpus. rewrite Hc.
  unfold cpuset_set_id. apply wp_bind, wp_kassert_dbg; [apply Z.ltb_lt; lia|].
  apply wp_bind. unfold wp. rewrite id_bit_ok by done. apply wp_modify.
  eapply (wp_store e_info); [apply lookup_insert_eq|done|]. unfold upd_e_info in *. simpl in *. rewrite !insert_insert_eq.
  destruct i as [ia il ic]. simpl in Hl. subst il. exact HQ.
Qed.

(** The words [iretq] loads, whatever the flags are. *)
Lemma wp_ret_from_execve {St} alu (s : mach St) top n l (Q : unit → mach St → Prop) :
  regs s RSP = sp top l → frame_at (words s) top n l → (length l + 5 ≤ n)%nat →
  (∀ s', regs s' RIP = regs s RDI → regs s' RSP = regs s RSI → regs s' RFLAGS = Z.lor (regs s RFLAGS) 0x200 →
     regs s' CS = Z.lor GDT_USER_CODE 0x3 → regs s' SS = Z.lor GDT_USER_DATA 0x3 →
     tasks_ s' = tasks_ s → pc_current s' = pc_current s → pc_preempt s' = pc_preempt s → mm s' = mm s → Q tt s') →
  wp (ret_from_execve alu) s Q.
Proof using Type.
  intros Hsp Hf Hn HQ. unfold ret_from_execve. apply wp_bind, wp_rr. apply wp_bind.
  eapply wp_push; [done|done|lia|]. intros w1 Hf1 _. apply wp_bind. eapply wp_pop; [done|done|]. intros Hf2.
  apply wp_bind, wp_rr, wp_bind, wp_wreg, wp_bind, wp_bind, wp_rr, wp_wreg. msimpl.
  apply wp_bind. eapply (wp_push _ top n l); [done|done|lia|]. intros w3 Hf3 _. msimpl.
  apply wp_bind. eapply wp_push_reg; [done|exact Hf3|simpl; lia|]. intros w4 Hf4 _. msimpl. msimpl in Hf4.
  apply wp_bind. eapply wp_push_reg; [done|exact Hf4|simpl; lia|]. intros w5 Hf5 _. msimpl. msimpl in Hf5.
  apply wp_bind. eapply wp_push; [done|exact Hf5|simpl; lia|]. intros w6 Hf6 _. msimpl.
  apply wp_bind. eapply wp_push_reg; [done|exact Hf6|simpl; lia|]. intros w7 Hf7 _. msimpl. msimpl in Hf7.
  eapply wp_iretq; [done|exact Hf7|]. by apply HQ.
Qed.

(** Two new frames become the stack. *)
Lemma wp_exec_stack s0 s X0 root fs al Zs k mmu m (Q : unit → exec_mem → Prop) :
  building s0 s X0 root fs al Zs (8 + k) → owns s mmu m root →
  (∀ s' Zs' f1 f2, building s0 s' X0 root fs al Zs' k → kept root s s' Zs Zs' [0x3000; 0x4000] →
     frame_ok f1 → frame_ok f2 → f1 ≠ f2 → X0 f1 → X0 f2 → private s' root Zs' f1 → private s' root Zs' f2 →
     pte_of (pt (space s')) root 0x3000 = mapped_pte f1 STACK_FLAGS →
     pte_of (pt (space s')) root 0x4000 = mapped_pte f2 STACK_FLAGS → Q tt s') →
  wp (exec_stack nr_cpus tlb_shootdown mmu) s Q.
Proof using Hquiet.
  intros Hb Ho HQ. unfold exec_stack. apply wp_bind.
  eapply (wp_exec_stack_page _ _ _ _ _ _ _ (4 + k)); [exact Hb|done|by vm_compute|]. intros s1 Zs1 f1 Hb1 Hk1 Hf1 Hfr1 Hp1 He1.
  eapply wp_exec_stack_page; [exact Hb1|by eapply owns_kept|by vm_compute|]. intros s2 Zs2 f2 Hb2 Hk2 Hf2 Hfr2 Hp2 He2.
  apply (HQ _ Zs2 f1 f2); [done|by eapply (kept_trans _ _ s1 _ _ Zs1 _ [_] [_])|done|done| | | | |done| |done].
  - intros ->. by destruct Hp1.
  - by apply (b_free _ _ _ _ _ _ _ _ Hb).
  - by apply (b_free _ _ _ _ _ _ _ _ Hb1).
  - by apply (k_private _ _ _ _ _ _ Hk2).
  - rewrite (k_other _ _ _ _ _ _ Hk2); [done|lia|]. by constructor.
Qed.

Lemma exec_areas_inv (m : gmap Z vm_area) c d :
  c ≠ NULL → d ≠ NULL → m !! c = Some (code_area d) → m !! d = Some stack_area → areas_inv (mk_astate m c false) [c; d].
Proof using Type.
  intros Hc0 Hd0 Hc Hd. pose proof (extents_lookup _ _ _ Hc) as Ec. pose proof (extents_lookup _ _ _ Hd) as Ed. simpl in Ec, Ed.
  split; simpl.
  - done.
  - split; [by exists (code_area d)|]. split; [by exists stack_area|done].
  - repeat constructor; simpl; [done|exists (0x1000, 0x2000); split_and!; simpl; (done || lia)|done|
                                exists (0x5000, 0x2000); split_and!; simpl; (done || lia)].
  - constructor; [by repeat constructor|]. constructor; [|done]. exists (0x1000, 0x2000), (0x5000, 0x2000). split_and!; simpl; (done || lia).
Qed.

(** The program in memory. *)
Record program (s s' : exec_mem) (X0 : Z → Prop) (kroot mmu root function : Z) : Prop := {
  pr_mmu : ∃ m, mpts (space s') !! mmu = Some m ∧ m_p4 m = phys_to_virt root ∧ m_users m = 1 ∧ wr_lock m = 0;
  pr_cr3 : vcr3 (space s') = root;
  pr_code : user_page (pte_of (pt (space s')) root 0x1000) (4096 * ((function - KERNEL_TEXT_BASE) / 4096)) false true;
  pr_code2 : user_page (pte_of (pt (space s')) root 0x2000) (4096 * ((function - KERNEL_TEXT_BASE) / 4096 + 1)) false true;
  pr_stack : ∃ f1 f2, f1 ≠ f2 ∧ Forall X0 [f1; f2] ∧
    user_page (pte_of (pt (space s')) root 0x3000) f1 true false ∧
    user_page (pte_of (pt (space s')) root 0x4000) f2 true false ∧
    ∀ p f, f ∈ [f1; f2] → (length p ≤ 3)%nat → Forall idx_ok p → follow (pt (space s')) root p ≠ Some f;
  pr_other : ∀ va, 0 ≤ va → Forall (λ v, vpn va ≠ vpn v) [0x1000; 0x2000; 0x3000; 0x4000] →
    pte_of (pt (space s')) root va = pte_of (pt (space s)) kroot va;
  pr_kernel : ∀ va, 0 ≤ va → pte_of (pt (space s')) kroot va = pte_of (pt (space s)) kroot va;
  pr_areas : ∃ c d, e_info s' !! mmu = Some (mk_info c 0 (2 ^ (id + 1))) ∧ areas_inv (mk_astate (e_areas s') c false) [c; d] ∧
    e_areas s' !! c = Some (code_area d) ∧ e_areas s' !! d = Some stack_area;
  pr_heap : ∃ fs al Zs', slob_inv (heap s') fs al Zs' ∧ slob_lock (heap s') = 0
}.

(** The frames of the code. *)
Lemma code_frame function j :
  KERNEL_TEXT_BASE ≤ function < 2 ^ 64 - 4096 → 0 ≤ j ≤ 1 →
  Z.land (u64 (kern_to_phys function + 4096 * j)) PTE_ADDR_MASK = 4096 * ((function - KERNEL_TEXT_BASE) / 4096 + j).
Proof using Type.
  intros Hf Hj. unfold KERNEL_TEXT_BASE in *. unfold kern_to_phys. destruct (Z.eqb_spec function NULL); [lia|]. unfold KERNEL_TEXT_BASE.
  rewrite (uwrap_id 64 (function - _)), uwrap_id by (unfold in_u; lia). set (x := function - _). rewrite land_mask by lia.
  replace (x + 4096 * j) with (x + j * 4096) by lia. rewrite Z.div_add by lia.
  assert (0 ≤ x / 4096 < 2 ^ 19). { split; [apply Z.div_pos; lia|]. apply Z.div_lt_upper_bound; lia. }
  rewrite Z.mod_small by lia. lia.
Qed.

Lemma kern_to_phys_nonneg function : 0 ≤ kern_to_phys function < 2 ^ 64.
Proof using Type. unfold kern_to_phys. destruct (Z.eqb_spec function NULL); [done|]. apply uwrap_range. lia. Qed.

Lemma code_page function :
  KERNEL_TEXT_BASE ≤ function < 2 ^ 64 - 4096 →
  user_page (mapped_pte (kern_to_phys function) CODE_FLAGS) (4096 * ((function - KERNEL_TEXT_BASE) / 4096)) false true.
Proof using Type.
  intros Hf. pose proof (kern_to_phys_nonneg function). pose proof (code_frame function 0 Hf ltac:(lia)) as E.
  rewrite Z.mul_0_r, !Z.add_0_r, uwrap_id in E by (unfold in_u; lia). rewrite <-E. apply mapped_user; [lia|done].
Qed.

Lemma code_page2 function :
  KERNEL_TEXT_BASE ≤ function < 2 ^ 64 - 4096 →
  user_page (mapped_pte (u64 (kern_to_phys function + PAGE_SIZE)) CODE_FLAGS) (4096 * ((function - KERNEL_TEXT_BASE) / 4096 + 1)) false true.
Proof using Type.
  intros Hf. rewrite <-(code_frame function 1) by (done || lia). apply mapped_user; [apply uwrap_range; lia|done].
Qed.

Lemma stack_user_page f : frame_ok f → user_page (mapped_pte f STACK_FLAGS) f true false.
Proof using Type.
  intros Hf. assert (f = Z.land f PTE_ADDR_MASK) as E; [|rewrite E at 2; apply mapped_user; [destruct Hf; lia|done]].
  destruct Hf as [[j ->] Hf]. rewrite land_mask, Z.div_mul by lia. rewrite Z.mod_small; lia.
Qed.

(** A kernel thread about to start a program: the heap has room in its first
    block for the three objects, fifteen frames are free, and the kernel stack
    has room for seven words. *)
Record can_exec (s : mach exec_mem) (tk : task) (km : mmu_pt) (kroot a u : Z) (post al : list sblock) (Zs : list gzone)
    (top : Z) (n : nat) (l : list Z) : Prop := {
  ce_task : tasks_ s !! pc_current s = Some tk;
  ce_current : pc_current s ≠ NULL;
  ce_mmu : t_mmu tk = kernel_mmu;
  ce_kernel : kernel_space (mm s) km kroot Zs;
  ce_text : KERNEL_TEXT_BASE ≤ kernel_mmu;
  ce_heap : slob_inv (heap (mm s)) ((a, u) :: post) al Zs;
  ce_lock : slob_lock (heap (mm s)) = 0;
  ce_room : 11 < u;
  ce_frames : (15 ≤ length (pool_free Zs))%nat;
  ce_rsp : regs s RSP = sp top l;
  ce_stack : frame_at (words s) top n l;
  ce_depth : (length l + 6 ≤ n)%nat;
  ce_preempt : in_u 64 (pc_preempt s);
  ce_id : 0 ≤ id < MAX_CORES
}.

(** Building the image in a new address space. *)
Definition image (mmu function : Z) : M exec_mem Z :=
  exec_mmu_init kernel_mmu mmu;;
  entry ← exec_code nr_cpus tlb_shootdown mmu function;
  exec_stack nr_cpus tlb_shootdown mmu;;
  exec_areas kernel_mmu mmu;;
  exec_update_cpuset kernel_mmu id mmu true;;
  m ← on_vm (rd_mpt mmu);
  on_vm (write_cr3 (virt_to_phys (m_p4 m)));;
  mret entry.

Lemma wp_image s km kroot a u post al Zs mmu function :
  slob_inv (heap s) ((a, u) :: post) al Zs → slob_lock (heap s) = 0 → 5 < u → (15 ≤ length (pool_free Zs))%nat →
  kernel_space s km kroot Zs → mpts (space s) !! mmu = Some (mk_mpt 0 1 0 0 0) → e_info s !! mmu = Some (mk_info NULL 0 0) →
  mmu ≠ NULL → mmu ≠ kernel_mmu → KERNEL_TEXT_BASE ≤ function < 2 ^ 64 - 4096 → 0 ≤ id < MAX_CORES →
  wp (image mmu function) s (λ entry s', entry = 0x1000 + Z.land function 0xFFF ∧
    ∃ root, free_frames Zs root ∧ program s s' (free_frames Zs) kroot mmu root function).
Proof using Hquiet.
  intros Hh Hl Hu Hfr Hks Hm Hi Hmmu Hne Hfun Hid. unfold image. apply wp_bind.
  eapply (wp_exec_mmu_init s _ _ _ 14); [done..|]. intros root s1 Zs1 Hb1 Hrf Hfo Hm1 Ha1 Hi1 Hp1.
  assert (owns s1 mmu (mk_mpt (phys_to_virt root) 1 0 0 0) root) as Ho1.
  { split; try done. rewrite Hm1. apply lookup_insert_eq. }
  apply wp_bind. eapply (wp_exec_code _ _ _ _ _ _ _ 8); [exact Hb1|done|]. intros s2 Zs2 Hb2 Hk2 Hc1 Hc2.
  apply wp_bind. eapply (wp_exec_stack _ _ _ _ _ _ _ 0); [exact Hb2|by eapply owns_kept|].
  intros s3 Zs3 f1 f2 Hb3 Hk3 Hf1 Hf2 Hff Hx1 Hx2 Hv1 Hv2 He1 He2.
  pose proof (owns_kept _ _ _ _ _ _ _ _ (owns_kept _ _ _ _ _ _ _ _ Ho1 Hk2) Hk3) as Ho3.
  assert (e_info s3 !! mmu = Some (mk_info NULL 0 0)) as Hi3.
  { rewrite (k_info _ _ _ _ _ _ Hk3), (k_info _ _ _ _ _ _ Hk2), Hi1. apply lookup_insert_eq. }
  apply wp_bind. eapply (wp_exec_areas s3); [apply Hb3|apply Hb3|done|exact Hi3|done|done|done|]. intros h Hh' Hl'.
  apply wp_bind. eapply (wp_exec_cpuset _ mmu); [apply lookup_insert_eq|done|done|done|done|done|].
  apply wp_bind, wp_on_vm. eapply (wp_deref mpts); [apply Ho3|done|]. apply wp_bind, wp_on_vm. unfold write_cr3.
  apply wp_bind, wp_modify, wp_modify, wp_ret. split; [done|]. exists root. split; [done|].
  destruct (heap_addr _ _ _ _ _ _ Hh) as [Ha _]. set (c := a + UNIT) in *. set (d := a + UNIT * 3 + UNIT) in *.
  assert (c ≠ d ∧ c ≠ NULL ∧ d ≠ NULL) as (Hcd & Hc0 & Hd0) by (unfold c, d, UNIT; lia).
  set (s' := with_space _ _). assert (pt (space s') = pt (space s3)) as Ept by done.
  split; rewrite ?Ept.
  - eexists. split; [apply Ho3|done].
  - by apply phys_virt_phys.
  - rewrite (k_other _ _ _ _ _ _ Hk3 0x1000), Hc1 by (lia || by repeat constructor). by apply code_page.
  - rewrite (k_other _ _ _ _ _ _ Hk3 0x2000), Hc2 by (lia || by repeat constructor). by apply code_page2.
  - exists f1, f2. rewrite He1, He2. split_and!; [done|by repeat constructor|by apply stack_user_page|by apply stack_user_page|].
    intros p f Hf. by apply elem_of_cons in Hf as [->|[->|Hf%elem_of_nil]%elem_of_cons]; [apply Hv1|apply Hv2|].
  - intros va Hva [Hva1 [Hva2 Hva3]%Forall_cons]%Forall_cons.
    rewrite (k_other _ _ _ _ _ _ Hk3), (k_other _ _ _ _ _ _ Hk2) by (done || by repeat constructor). by apply Hp1.
  - intros va Hva. by eapply unchanged_pte; [apply Hks|apply Hb3|].
  - exists c, d. assert (e_areas s' !! c = Some (code_area d)) as Hc by apply lookup_insert_eq.
    assert (e_areas s' !! d = Some stack_area) as Hd by (simpl; rewrite lookup_insert_ne by done; apply lookup_insert_eq).
    split_and!; [apply lookup_insert_eq|by apply exec_areas_inv|done|done].
  - eexists _, _, _. split; [|exact Hl']. simpl. destruct h. exact Hh'.
Qed.

(** The next part of the image, as the machine's step. *)
Ltac next_part H :=
  apply wp_bind_inv in H; apply wp_bind, wp_zoom; eapply wp_mono; [exact H|]; clear H; cbv beta.

Lemma wp_task_execve ret_addr alu s tk km kroot a u post al Zs top n l function :
  can_exec s tk km kroot a u post al Zs top n l → KERNEL_TEXT_BASE ≤ function < 2 ^ 64 - 4096 →
  wp (task_execve kernel_mmu kernel_end_phys nr_cpus tlb_shootdown id ret_addr alu function) s (λ _ s', ∃ mmu root,
    regs s' RIP = 0x1000 + Z.land function 0xFFF ∧ regs s' RSP = 0x5000 ∧ regs s' RFLAGS = Z.lor (regs s RFLAGS) 0x200 ∧
    regs s' CS = 0x2B ∧ regs s' SS = 0x23 ∧
    tasks_ s' = <[pc_current s := set_tmmu mmu tk]> (tasks_ s) ∧ pc_current s' = pc_current s ∧ pc_preempt s' = pc_preempt s ∧
    free_frames Zs root ∧ program (mm s) (mm s') (free_frames Zs) kroot mmu root function).
Proof using Hquiet.
  intros [Htk Hcur Hmmu Hks Htext Hh Hl Hu Hfr Hrsp Hst Hdep Hpre Hid] Hfun. unfold task_execve. apply wp_bind, wp_get.
  apply wp_bind. eapply (wp_deref tasks_); [done|done|]. rewrite Hmmu, Z.eqb_refl. apply wp_bind, wp_bind, wp_zoom.
  eapply wp_exec_mmu_alloc; [exact Hh|done|lia|done|]. intros st1 Hh1 Hl1 Ep1 Em1 Ea1 Ei1. set (mmu := a + UNIT) in *.
  destruct (heap_addr _ _ _ _ _ _ Hh) as [Ha Hahi]. assert (mmu ≠ NULL ∧ mmu ≠ kernel_mmu) as [Hm0 Hmk] by (unfold mmu, UNIT in *; lia).
  eapply (wp_store tasks_); [done|done|]. apply wp_bind. eapply (wp_deref tasks_); [apply lookup_insert_eq|done|]. simpl t_mmu.
  assert (kernel_space st1 km kroot Zs) as Hks1.
  { destruct Hks as [K1 K2 K3 K4 K5]. split; rewrite ?Ep1; try done. by rewrite Em1, lookup_insert_ne. }
  pose proof (wp_image st1 km kroot (a + UNIT * 6) (u - 6) post ((a, 5) :: al) Zs mmu function Hh1 Hl1 ltac:(lia) Hfr Hks1
    ltac:(rewrite Em1; apply lookup_insert_eq) ltac:(rewrite Ei1; apply lookup_insert_eq) Hm0 Hmk Hfun Hid) as Hw.
  unfold image in Hw. next_part Hw. intros _ st2 Hw. next_part Hw. intros entry st3 Hw. next_part Hw. intros _ st4 Hw.
  next_part Hw. intros _ st5 Hw. apply wp_bind, wp_get, wp_bind, wp_modify. next_part Hw. intros _ st6 Hw.
  next_part Hw. intros m st7 Hw. next_part Hw. intros _ st8 (-> & root & Hrf & Hprog).
  apply wp_bind, wp_get, wp_bind, wp_modify, wp_bind, wp_wreg, wp_bind, wp_wreg. msimpl. apply wp_bind.
  eapply (wp_push _ top n l); [done|done|lia|]. intros w Hfw _.
  eapply wp_ret_from_execve; [done|exact Hfw|simpl; lia|]. intros s' H1 H2 H3 H4 H5 H6 H7 H8 H9.
  exists mmu, root. rewrite H1, H2, H3, H4, H5, H6, H7, H8, H9. msimpl. rewrite low32_inc_dec by done.
  split_and!; try done. destruct Hprog. split; try done; by rewrite <-Ep1.
Qed.

(** C13: A kernel thread's task_execve returns to user mode, from a kernel whose
    heap has a block of more than eleven units in front and whose allocator
    has fifteen frames; in the debug build there is one CPU ([Hquiet]), since
    with more of them mapping a page calls tlb_shootdown.  The processor is at
    the function's offset in the page at 0x1000 with the stack pointer at
    0x5000, interrupts on and user selectors; the task has a new address
    space, which is loaded.  The code's two pages are mapped there for the
    user, readable and executable but not writable, the stack's two pages
    writable but not executable, on two frames that were free and that are
    not page tables; every other address translates as in the kernel's space,
    and the kernel's own space has not changed.  The two areas are on the
    list, this CPU is the only member of the CPU set, and the heap and its
    lock are in order. *)
Theorem task_execve_correct ret_addr alu s tk km kroot a u post al Zs top n l function :
  can_exec s tk km kroot a u post al Zs top n l → KERNEL_TEXT_BASE ≤ function < 2 ^ 64 - 4096 →
  wp (task_execve kernel_mmu kernel_end_phys nr_cpus tlb_shootdown id ret_addr alu function) s (λ _ s', ∃ mmu root,
    regs s' RIP = 0x1000 + Z.land function 0xFFF ∧ regs s' RSP = 0x5000 ∧ regs s' RFLAGS = Z.lor (regs s RFLAGS) 0x200 ∧
    regs s' CS = 0x2B ∧ regs s' SS = 0x23 ∧
    tasks_ s' = <[pc_current s := set_tmmu mmu tk]> (tasks_ s) ∧ pc_current s' = pc_current s ∧ pc_preempt s' = pc_preempt s ∧
    free_frames Zs root ∧ program (mm s) (mm s') (free_frames Zs) kroot mmu root function).
Proof using Hquiet. apply wp_task_execve. Qed.

(** The area of the stack starts where the stack ends: the new program's areas
    cover no byte of its stack. *)
Theorem execve_stack_not_covered ret_addr alu s tk km kroot a u post al Zs top n l function va :
  can_exec s tk km kroot a u post al Zs top n l → KERNEL_TEXT_BASE ≤ function < 2 ^ 64 - 4096 → 0x3000 ≤ va < 0x5000 →
  wp (task_execve kernel_mmu kernel_end_phys nr_cpus tlb_shootdown id ret_addr alu function) s (λ _ s', ∃ mmu root i xs,
    vcr3 (space (mm s')) = root ∧ Z.testbit (pte_of (pt (space (mm s'))) root (va - va mod 4096)) 1 = true ∧
    e_info (mm s') !! mmu = Some i ∧ areas_inv (mk_astate (e_areas (mm s')) (i_areas i) false) xs ∧
    ∀ x r, x ∈ xs → e_areas (mm s') !! x = Some r → ¬ (va_base r ≤ va < va_base r + va_len r)).
Proof using Hquiet.
  intros Hc Hfun Hva. eapply wp_mono; [by eapply wp_task_execve|].
  intros ? s' (mmu & root & _ & _ & _ & _ & _ & _ & _ & _ & _ & [_ Hcr _ _ (f1 & f2 & _ & _ & Hp1 & Hp2 & _) _ _ (c & d & Hi & Hinv & Hcx & Hdx) _]).
  exists mmu, root, (mk_info c 0 (2 ^ (id + 1))), [c; d]. split_and!; [done| |done|done|].
  - assert (va - va mod 4096 = 0x3000 ∨ va - va mod 4096 = 0x4000) as [-> | ->]; [|apply Hp1|apply Hp2].
    pose proof (Z.div_mod va 4096 ltac:(lia)). pose proof (Z.mod_pos_bound va 4096 ltac:(lia)). lia.
  - intros y r [->|[->|Hx%elem_of_nil]%elem_of_cons]%elem_of_cons Hr; [..|done].
    + rewrite Hcx in Hr. injection Hr as <-. simpl. lia.
    + rewrite Hdx in Hr. injection Hr as <-. simpl. lia.
Qed.
End proof.

(** ** A machine that starts a program *)

Module ExecDemo.
(** Frames 16 to 31 are one free block, frame 3 is a page of the heap, frame 1
    holds the kernel's top table, and the kernel's tables are those of boot.asm. *)
Definition pages : gmap Z page :=
  <[ptr 16 := mk_page NULL NULL 4 0 0]> (list_to_map ((λ f, (ptr f, page_zero)) <$> seqZ 0 33)).
Definition zaddr : Z := phys_to_virt (15 * PAGE_SIZE).
Definition pool : pstate :=
  mk_pstate pages {[zaddr := mk_zone NULL (16 * PAGE_SIZE) (16 * PAGE_SIZE) (NULL :: NULL :: NULL :: NULL :: ptr 16 :: replicate 7 NULL)]} zaddr 0.
Definition free_zone : gzone := mk_gzone zaddr 16 32 (<[4%nat := [16]]> (replicate 12 [])) [].

Lemma in_range (P : Z → Prop) lo n : Forall P (seqZ lo n) → ∀ f, lo ≤ f < lo + n → P f.
Proof. intros HP f Hf. rewrite Forall_forall in HP. apply HP, elem_of_seqZ. lia. Qed.

Lemma exec_pool_ok : pmm_ok pool [free_zone].
Proof.
  split; try done.
  - split; [|done]. split; [|done|by intros b ?%elem_of_nil]. split; try done.
    + intros b Hb. change (fblocks (gF free_zone)) with [(16, 4%nat)] in Hb. apply list_elem_of_singleton in Hb as ->.
      split; [by exists 1|done].
    + apply (bool_decide_unpack _). by vm_compute.
    + intros o L HL. destruct (decide (o = 4%nat)) as [->|].
      * injection HL as <-. split; [|done]. eexists. done.
      * change (gF free_zone) with (<[4%nat := [16]]> (replicate 12 ([] : list Z))) in HL.
        rewrite list_lookup_insert_ne in HL by done. by apply lookup_replicate in HL as [-> _].
    + intros f Hf. change (16 ≤ f < 16 + 16) in Hf. revert f Hf. apply in_range. repeat constructor; eexists; done.
  - apply NoDup_singleton.
  - intros i j b b' Hi Hj Hij. apply lookup_lt_Some in Hi, Hj. simpl in *. lia.
  - intros f b Hf ->%list_elem_of_singleton Hr Hno. simpl in Hr.
    assert (¬ (16 ≤ f < 32)) by (apply (Hno (16, 32)); left).
    assert (0 ≤ f < 0 + 16 ∨ f = 32) as [Hf'| ->] by lia; [|by eexists].
    revert f Hf' Hf Hr Hno H. intros f Hf' _ _ _ _. revert f Hf'. apply in_range. repeat constructor; eexists; done.
Qed.

Definition frames : list Z := 3 :: seqZ 16 16.
Definition blank_cells : gmap Z slob_header := list_to_map ((λ c, (c, mk_hdr 0 0)) <$> spans (page_block <$> frames)).
Definition kheap : slob :=
  mk_slob (<[SlobSpec.base 3 := mk_hdr 0 1]> (<[SlobSpec.base 3 + 32 := mk_hdr 0 253]> blank_cells)) (SlobSpec.base 3 + 32) 0 pool.

Lemma exec_blank_some f j : f ∈ frames → 0 ≤ j < 256 → is_Some (blank_cells !! (SlobSpec.base f + UNIT * j)).
Proof.
  intros Hf Hj. destruct (blank_cells !! (SlobSpec.base f + UNIT * j)) as [h|] eqn:Eh; [by exists h|]. exfalso.
  apply not_elem_of_list_to_map in Eh. apply Eh. rewrite <-list_fmap_compose. apply list_elem_of_fmap.
  eexists. split; [reflexivity|]. apply elem_spans. exists (page_block f). split; [by apply list_elem_of_fmap_2|].
  apply page_span. by exists j.
Qed.

#[local] Opaque blank_cells.

Lemma heap_ok : slob_inv kheap SlobDemo.fs SlobDemo.al [free_zone].
Proof.
  assert (pool_free [free_zone] = seqZ 16 16) as Hpool by (by vm_compute).
  destruct SlobDemo.heap_inv as [_ _ _ Hpg _ Hnd _ _ _].
  split; [done| | |done| |done|apply exec_pool_ok|by intros g ->%list_elem_of_singleton|].
  - split; [|done]. unfold kheap. simpl cells. rewrite lookup_insert_ne by (unfold SlobSpec.base; lia). by rewrite lookup_insert_eq.
  - apply Forall_cons. split; [|done]. exists 0. unfold kheap. simpl cells. by rewrite lookup_insert_eq.
  - intros c Hc. assert (is_Some (blank_cells !! c)) as Hs.
    { destruct Hc as [(j & Hj & ->)%SlobDemo.heap_units|(f & j & Hf & Hj & ->)]; apply exec_blank_some; try done.
      - left.
      - rewrite Hpool in Hf. by right. }
    unfold kheap. simpl cells. rewrite !lookup_insert_is_Some'. auto.
  - intros c (j & Hj & ->)%SlobDemo.heap_units (f & i & Hf & Hi & Ef). apply unit_frame in Ef as [<- _]; [|done..].
    rewrite Hpool in Hf. apply elem_of_seqZ in Hf. lia.
Qed.

Definition kmmu : Z := 0xFFFFFFFF80100000.
Definition kspace : vstate :=
  mk_vstate VmmDemo.tabs ∅ pool (mk_mmap 0 (mk_mtype 0 []) (mk_mtype 0 [])) {[kmmu := mk_mpt (phys_to_virt 0x1000) 0 0 0 0]} 0x1000 [].
Definition memory : exec_mem := mk_exec (mk_kmem kheap kspace) ∅ ∅.
Definition self : Z := 0xFFFF800000040000.
Definition thread : task := mk_task 0 ContextDemo.top0 kmmu TASK_KTHREAD TASK_S_RUNNABLE 2 2 3 0 0.
Definition machine : mach exec_mem :=
  mk_mach ContextDemo.kernel (list_to_map (ContextDemo.stack_words ContextDemo.top0 32)) {[self := thread]} self 0 0 1 7 ∅ memory.
Definition function : Z := 0xFFFFFFFF80102345.

Lemma kernel_ok : kernel_space kmmu memory (mk_mpt (phys_to_virt 0x1000) 0 0 0 0) 0x1000 [free_zone].
Proof.
  split; [done|done|done| |by vm_compute]. apply VmmDemo.boot_tables. intros q (f & -> & Hf).
  assert (pool_free [free_zone] = seqZ 16 16) as Hpool by (by vm_compute). rewrite Hpool in Hf. apply elem_of_seqZ in Hf.
  rewrite !elem_of_cons, elem_of_nil. lia.
Qed.

Lemma can_start : can_exec kmmu 0 machine thread (mk_mpt (phys_to_virt 0x1000) 0 0 0 0) 0x1000 (SlobSpec.base 3 + 32) 253 []
  SlobDemo.al [free_zone] ContextDemo.top0 32 (replicate 8 0).
Proof.
  split; [done|done|done|exact kernel_ok|done|exact heap_ok|done|done|by vm_compute; lia|done| |simpl; lia|done|done].
  by apply frame_b_sound; vm_compute.
Qed.
End ExecDemo.

Lemma task_execve_correct_witness :
  wp (task_execve (BC := debug_build) ExecDemo.kmmu 0 1 (λ _ _ _, mret tt) 0 0 (λ x, x) ExecDemo.function) ExecDemo.machine
    (λ _ s', regs s' RIP = 0x1345).
Proof.
  eapply wp_mono.
  - apply (task_execve_correct (BC := debug_build) ExecDemo.kmmu 0 1 (λ _ _ _, mret tt) 0 (or_intror (Z.le_refl 1)) 0 (λ x, x)
             ExecDemo.machine _ _ _ _ _ _ _ _ _ _ _ ExecDemo.function ExecDemo.can_start). by vm_compute.
  - by intros ? s' (mmu & root & -> & _).
Defined.

Lemma execve_stack_not_covered_witness :
  wp (task_execve (BC := debug_build) ExecDemo.kmmu 0 1 (λ _ _ _, mret tt) 0 0 (λ x, x) ExecDemo.function) ExecDemo.machine
    (λ _ s', ∃ mmu i, e_info (mm s') !! mmu = Some i).
Proof.
  eapply wp_mono.
  - apply (execve_stack_not_covered (BC := debug_build) ExecDemo.kmmu 0 1 (λ _ _ _, mret tt) 0 (or_intror (Z.le_refl 1)) 0 (λ x, x)
             ExecDemo.machine _ _ _ _ _ _ _ _ _ _ _ ExecDemo.function 0x4ff8 ExecDemo.can_start); by vm_compute.
  - intros ? s' (mmu & _ & i & _ & _ & _ & Hi & _). by exists mmu, i.
Defined.

Module ExecTwice.
Definition kernel_end : Z := 0x400000.
Definition exec (debug : bool) : M (mach exec_mem) unit :=
  task_execve (BC := {| DEBUG := debug |}) ExecDemo.kmmu kernel_end 1 (λ _ _ _, mret tt) 0 0 (λ x, x) ExecDemo.function.
(** A program that is back in the kernel starts another. *)
Definition twice (debug : bool) : M (mach exec_mem) unit :=
  exec debug;; modify (upd_regs (λ _, ContextDemo.kernel));; exec debug.
Definition users_after (debug : bool) : option Z :=
  match twice debug ExecDemo.machine with
  | Ok (_, s) => t ← tasks_ s !! ExecDemo.self; m ← mpts (space (mm s)) !! t_mmu t; Some (m_users m)
  | _ => None
  end.
End ExecTwice.

(** The areas of the old program stay on the list and the number of users is
    not set again: started a second time by the same task, a debug build stops
    on an assertion, and in a release build the address space in use has no
    users. *)
Theorem execve_twice :
  ExecTwice.twice true ExecDemo.machine = Panic ∧ ExecTwice.users_after false = Some 0.
Proof. split; vm_compute; reflexivity. Qed.
