(* ===== verification/LapicSpec.v ===== *)
(** * The local APIC: specification

    Which accesses to the device each operation makes, in which order, and
    when the timer asks for another task. *)

From stdpp Require Import base list gmap.
From Stdlib Require Import ZArith Lia Bool.
From S2P Require Import Prelude Cpuset Interrupts Sched RunQueue Lapic.
Local Open Scope Z_scope.

Section spec.
Context {BC : BuildConfig} (dev : list event → Z → Z) (cpuid_edx apic_base_msr : Z).
Implicit Types s : lst.

Lemma wp_lapic_write s r v (Q : unit → lst → Prop) :
  base_set s = true → in_u 32 v → Q tt (upd_events (cons (Write r v)) s) → wp (lapic_write r v) s Q.
Proof. intros Hb Hv HQ. unfold lapic_write. apply wp_bind, wp_get. rewrite Hb, uwrap_id by done. by apply wp_modify. Qed.

Lemma wp_lapic_read s r (Q : Z → lst → Prop) :
  base_set s = true → Q (u32 (dev (events s) r)) s → wp (lapic_read dev r) s Q.
Proof. intros Hb HQ. unfold lapic_read. apply wp_bind, wp_get. by rewrite Hb. Qed.

(** Lapic_eoi signals the end of an interrupt exactly when the in-service
    bit of its vector is set, and writes nothing otherwise. *)
Theorem lapic_eoi_correct s vec :
  base_set s = true → IRQ_APIC_BASE ≤ vec < 256 →
  wp (lapic_eoi dev vec) s (λ _ s', s' =
    if Z.testbit (dev (events s) (LAPIC_REG_ISR_BASE + 0x10 * (vec / 32))) (vec mod 32)
    then upd_events (cons (Write LAPIC_REG_EOI 0)) s else s).
Proof.
  intros Hb Hv. pose proof (Z.mod_pos_bound vec 32 ltac:(lia)). unfold lapic_eoi. apply wp_bind, wp_kassert_dbg; [apply Z.leb_le; lia|].
  apply wp_bind, wp_lapic_read; [done|]. rewrite Z.shiftl_1_l, land_pow2_testbit by lia. unfold uwrap.
  rewrite Z.mod_pow2_bits_low by lia. destruct (Z.testbit _ _); [|by apply wp_ret]. by apply wp_lapic_write.
Qed.

(** Lapic_send_ipi writes the target before the command that sends, or the
    command alone for a broadcast, with preemption off in between and as it
    was afterwards; before the local APIC is known it panics. *)
Theorem lapic_send_ipi_correct s target flags :
  in_u 8 target → in_u 32 flags → in_u 64 (l_preempt s) →
  if base_set s then
    wp (lapic_send_ipi target flags) s (λ _ s', s' =
      upd_events (λ h, Write LAPIC_REG_ICR0 flags ::
        (if Z.land flags IPI_BROADCAST =? 0 then [Write LAPIC_REG_ICR1 (Z.shiftl target 24)] else []) ++ h) s)
  else lapic_send_ipi target flags s = Panic.
Proof.
  intros Ht Hf Hp. destruct (base_set s) eqn:Hb; [|unfold lapic_send_ipi, get, mbind, M_bind; by rewrite Hb].
  assert (in_u 32 (Z.shiftl target 24)) as Hs by (rewrite Z.shiftl_mul_pow2 by lia; unfold in_u in *; lia).
  unfold lapic_send_ipi. apply wp_bind, wp_get. rewrite Hb. simpl negb. cbv iota. unfold lpreempt_inc. apply wp_bind, wp_bind, wp_get, wp_modify.
  apply wp_bind. rewrite (uwrap_id 32) by done. destruct (Z.land flags IPI_BROADCAST =? 0).
  - apply wp_lapic_write; [done|done|]. apply wp_bind, wp_lapic_write; [done|done|]. unfold lpreempt_dec. apply wp_bind, wp_get, wp_modify.
    simpl l_preempt. rewrite low32_inc_dec by done. by destruct s.
  - apply wp_ret. apply wp_bind, wp_lapic_write; [done|done|]. unfold lpreempt_dec. apply wp_bind, wp_get, wp_modify.
    simpl l_preempt. rewrite low32_inc_dec by done. by destruct s.
Qed.

Fixpoint ticks (k : nat) : M lst unit := match k with O => mret tt | S k => lapic_timer_callback;; ticks k end.

Lemma wp_ticks s k n :
  l_resched s = (MAX_SLICES <=? n) → l_slices s = n → 0 ≤ n ≤ MAX_SLICES →
  wp (ticks k) s (λ _ s', s' = upd_resched (MAX_SLICES <=? Z.min MAX_SLICES (n + Z.of_nat k)) (upd_slices (Z.min MAX_SLICES (n + Z.of_nat k)) s)).
Proof.
  unfold MAX_SLICES. revert s n. induction k as [|k IH]; intros s n Hr Hs Hn.
  - apply wp_ret. rewrite Z.add_0_r, Z.min_r by lia. rewrite <-Hr, <-Hs. by destruct s.
  - simpl ticks. apply wp_bind. unfold lapic_timer_callback, MAX_SLICES. apply wp_bind, wp_get. rewrite Hr.
    destruct (Z.leb_spec 5 n) as [Hge|Hlt]; simpl negb; cbv iota.
    + apply wp_ret. eapply wp_mono; [apply (IH s n); [rewrite Hr; symmetry; by apply Z.leb_le|exact Hs|exact Hn]|]. intros _ s' ->. by rewrite !Z.min_l by lia.
    + rewrite Hs, (uwrap_id 32) by (unfold in_u; lia). apply wp_bind, wp_modify, wp_bind, wp_get. simpl l_slices.
      destruct (Z.leb_spec 5 (n + 1)) as [Hge'|Hlt'].
      * apply wp_modify. replace (n + Z.of_nat (S k)) with (n + 1 + Z.of_nat k) by lia.
        eapply wp_mono; [apply (IH _ (n + 1)); [simpl; symmetry; by apply Z.leb_le|done|lia]|]. by intros _ s' ->.
      * apply wp_ret. replace (n + Z.of_nat (S k)) with (n + 1 + Z.of_nat k) by lia.
        eapply wp_mono; [apply (IH _ (n + 1)); [simpl; rewrite Hr; symmetry; apply Z.leb_gt; lia|done|lia]|]. by intros _ s' ->.
Qed.

(** A task that runs is asked to give up the CPU after exactly MAX_SLICES
    ticks of the timer, and further ticks change nothing. *)
Theorem lapic_timer_preempts s k :
  l_resched s = false → l_slices s = 0 →
  wp (ticks k) s (λ _ s', l_resched s' = (MAX_SLICES <=? Z.of_nat k) ∧ l_slices s' = Z.min MAX_SLICES (Z.of_nat k) ∧ events s' = events s).
Proof.
  intros Hr Hs. eapply wp_mono; [apply (wp_ticks s k 0); [done|done|unfold MAX_SLICES; lia]|]. intros _ s' ->. simpl. unfold MAX_SLICES.
  split_and!; [|done|done]. destruct (Z.leb_spec 5 (Z.of_nat k)); [rewrite Z.min_l by lia; done|rewrite Z.min_r by lia; by apply Z.leb_gt].
Qed.

(** ** Enabling *)

Definition nmi_write (n : nmi) : list event :=
  if nmi_lint n =? 0 then [Write LAPIC_REG_LINT0 (nmi_entry IRQ_NMI (nmi_flags n))]
  else if nmi_lint n =? 1 then [Write LAPIC_REG_LINT1 (nmi_entry IRQ_NMI (nmi_flags n))] else [].
Definition nmi_for (acpi : Z) (n : nmi) : bool := (nmi_acpi_id n =? acpi) || (nmi_acpi_id n =? 0xFF).
(** The writes for the NMIs of a CPU, the latest first. *)
Definition nmi_writes (acpi : Z) (ns : list nmi) : list event :=
  concat (reverse (nmi_write <$> filter (λ n, nmi_for acpi n = true) ns)).

Lemma nmi_entry_range flags : in_u 32 (nmi_entry IRQ_NMI flags).
Proof. unfold nmi_entry. by destruct (negb (Z.land flags 2 =? 0)), (negb (Z.land flags 8 =? 0)). Qed.

Lemma wp_set_nmi s n (Q : unit → lst → Prop) :
  base_set s = true → Q tt (upd_events (λ h, nmi_write n ++ h) s) → wp (lapic_set_nmi IRQ_NMI n) s Q.
Proof.
  intros Hb HQ. unfold lapic_set_nmi. apply wp_bind, wp_kassert_dbg; [done|]. unfold nmi_write in HQ.
  destruct (nmi_lint n =? 0); [|destruct (nmi_lint n =? 1)].
  1,2: apply wp_lapic_write; [done|apply nmi_entry_range|done].
  apply wp_ret. by destruct s.
Qed.

Lemma wp_set_nmis s i x ns (Q : unit → lst → Prop) :
  base_set s = true → lapics s !! i = Some x →
  Q tt (upd_events (λ h, nmi_writes (cl_acpi_id x) ns ++ h) s) → wp (set_nmis (Some i) ns) s Q.
Proof.
  intros Hb Hx. revert s Hb Hx. induction ns as [|n ns IH]; intros s Hb Hx HQ.
  - apply wp_ret. by destruct s.
  - simpl set_nmis. apply wp_bind. unfold rd_lapic at 1. apply wp_bind, wp_get. simpl. rewrite Hx. apply wp_ret.
    unfold nmi_writes in HQ. rewrite filter_cons in HQ. fold (nmi_for (cl_acpi_id x) n). destruct (nmi_for (cl_acpi_id x) n) eqn:E.
    + rewrite decide_True in HQ by done. rewrite fmap_cons, reverse_cons, concat_app in HQ. simpl concat in HQ. rewrite app_nil_r in HQ.
      apply wp_bind, wp_set_nmi; [done|]. apply IH; [done|done|]. unfold upd_events in *. simpl. by rewrite (assoc_L (++)).
    + rewrite decide_False in HQ by congruence. apply wp_bind, wp_ret. by apply IH.
Qed.

Lemma wp_wr_ticks s i x v (Q : unit → lst → Prop) :
  lapics s !! i = Some x → Q tt (upd_lapics_ <[i := mk_cpu_lapic (cl_id x) (cl_acpi_id x) (cl_present x) v]> s) → wp (wr_ticks (Some i) v) s Q.
Proof. intros Hi HQ. unfold wr_ticks, rd_lapic. apply wp_bind, wp_bind, wp_get. simpl. rewrite Hi. by apply wp_ret, wp_modify. Qed.

(** lapic_enable on a CPU the MADT lists returns: it sets the pins the
    NMIs of this CPU arrive on, enables the APIC through the spurious vector
    register keeping its other bits, calibrates the timer against 30
    milliseconds, and stores the ticks of a third of them for this CPU only. *)
Theorem lapic_enable_correct s i x :
  let id := u8 (Z.shiftr (u32 (dev (events s) LAPIC_REG_ID)) 24) in
  base_set s = true → has_lapic cpuid_edx = true → Z.testbit apic_base_msr 11 = true →
  list_find (λ l, cl_id l = id) (lapics s) = Some (i, x) →
  wp (lapic_enable dev cpuid_edx apic_base_msr) s (λ _ s',
    ∃ spur ticks, let h := nmi_writes (cl_acpi_id x) (nmis s) ++ events s in
    spur = Z.lor (Z.lor (u32 (dev h LAPIC_REG_SPURIOUS)) 256) IRQ_APIC_SPURIOUS ∧
    (let hw := Write LAPIC_REG_TIMER_LVT APIC_DISABLE :: Sleep 30 :: Write LAPIC_REG_TIMER_INITIAL 0xFFFFFFFF ::
       Write LAPIC_REG_TIMER_DIVIDE 3 :: Write LAPIC_REG_SPURIOUS spur :: h in
     events s' = Write LAPIC_REG_EOI 0 :: hw ∧
     ticks = (0xFFFFFFFF - u32 (dev hw LAPIC_REG_TIMER_CURRENT)) / 3) ∧
    lapics s' = <[i := mk_cpu_lapic (cl_id x) (cl_acpi_id x) (cl_present x) ticks]> (lapics s) ∧
    l_apic_id s' = id ∧ timer_handler s' = (id =? 0) || timer_handler s).
Proof.
  intros id Hb Hc Hmsr Hx. pose proof Hx as (Hi & _)%list_find_Some. unfold lapic_enable. rewrite Hc. simpl negb. cbv iota.
  unfold lapic_id. apply wp_bind, wp_bind, wp_lapic_read; [done|]. apply wp_ret. fold id.
  apply wp_bind. unfold find_lapic. apply wp_bind, wp_get, wp_ret. rewrite Hx. simpl fst. apply wp_bind, wp_modify.
  apply wp_bind, wp_kassert.
  { pose proof (land_pow2_testbit apic_base_msr 11 ltac:(lia)) as E. rewrite Hmsr in E. apply negb_true_iff, Z.eqb_neq in E.
    rewrite Z.shiftl_1_l. apply Z.ltb_lt. pose proof (Z.land_nonneg apic_base_msr (2 ^ 11)). lia. }
  apply wp_bind, wp_get, wp_bind. eapply (wp_set_nmis _ i x); [done|done|]. cbv beta.
  apply wp_bind, wp_lapic_read; [done|]. apply wp_bind, wp_lapic_write; [done| |].
  { apply in_u_bits; [done| |]; [apply Z.lor_nonneg; split; [apply Z.lor_nonneg; split; [|done]|done]; apply (uwrap_range 32); lia|].
    intros j Hj. rewrite !Z.lor_spec. unfold uwrap. rewrite Z.mod_pow2_bits_high, (u32_range_bits (Z.shiftl 1 8)), (u32_range_bits IRQ_APIC_SPURIOUS) by (try lia; done). done. }
  unfold lapic_timer_prepare. apply wp_bind, wp_bind, wp_lapic_write; [done..|]. apply wp_bind, wp_lapic_write; [done..|].
  apply wp_bind, wp_modify. apply wp_bind, wp_lapic_write; [done..|]. apply wp_bind, wp_lapic_read; [done|]. apply wp_ret.
  apply wp_bind, (wp_wr_ticks _ i x); [done|]. apply wp_bind.
  set (spur := Z.lor _ _). set (tk := _ / _). assert (∀ b (Q : unit → lst → Prop) s1, Q tt (upd_handler (b || timer_handler s1) s1) →
    wp (if b : bool then modify (upd_handler true) else mret tt) s1 Q) as Hif by (intros [] Q []; done).
  apply Hif. apply wp_lapic_write; [done|done|]. exists spur, tk. split_and!; try done.
  unfold tk. f_equal. apply uwrap_id. pose proof (uwrap_range 32 (dev (Write LAPIC_REG_TIMER_LVT APIC_DISABLE :: Sleep 30 :: Write LAPIC_REG_TIMER_INITIAL 0xFFFFFFFF ::
       Write LAPIC_REG_TIMER_DIVIDE 3 :: Write LAPIC_REG_SPURIOUS spur :: nmi_writes (cl_acpi_id x) (nmis s) ++ events s) LAPIC_REG_TIMER_CURRENT) ltac:(lia)).
  unfold in_u in *. lia.
Qed.
End spec.

(** Nothing sets the count back: once it is at its limit, a single tick asks
    for the next preemption. *)
Theorem timer_preempts_every_tick s :
  l_resched s = false → MAX_SLICES ≤ l_slices s → l_slices s + 1 < 2 ^ 32 →
  wp lapic_timer_callback s (λ _ s', l_resched s' = true ∧ l_slices s' = l_slices s + 1).
Proof.
  intros Hr Hn Hw. unfold lapic_timer_callback, MAX_SLICES in *. apply wp_bind, wp_get. rewrite Hr. simpl negb. cbv iota.
  apply wp_bind, wp_modify, wp_bind, wp_get. simpl l_slices.
  rewrite (uwrap_id 32) by (unfold in_u; lia). destruct (Z.leb_spec 5 (l_slices s + 1)); [|lia]. by apply wp_modify.
Qed.

(** The delivery mode written for NMIs is 3, which is reserved, and not 4:
    the constant 800 is decimal. *)
Theorem nmi_delivery_mode flags : Z.land (nmi_entry IRQ_NMI flags) 0x700 = 0x300.
Proof. unfold nmi_entry. by destruct (negb (Z.land flags 2 =? 0)), (negb (Z.land flags 8 =? 0)). Qed.

(** ** Widths *)

(** The operations other parts of the kernel call. *)
Inductive lapic_op := OpEnable | OpTimerEnable | OpTick | OpEoi (vec : Z) | OpIpi (target flags : Z) | OpId.

Section typing.
Context {BC : BuildConfig} (dev : list event → Z → Z) (cpuid_edx apic_base_msr : Z).

Definition run_op (o : lapic_op) : M lst unit :=
  match o with
  | OpEnable => lapic_enable dev cpuid_edx apic_base_msr
  | OpTimerEnable => lapic_timer_enable dev
  | OpTick => lapic_timer_callback
  | OpEoi vec => lapic_eoi dev vec
  | OpIpi target flags => lapic_send_ipi target flags
  | OpId => lapic_id dev;; mret tt
  end.
Fixpoint run_ops (os : list lapic_op) : M lst unit :=
  match os with [] => mret tt | o :: os => run_op o;; run_ops os end.

(** A device access: 32 bits to a register on a 16-byte boundary. *)
Definition event_ok (e : event) : Prop :=
  match e with Write r v => (16 | r) ∧ 0 ≤ r < 0x400 ∧ in_u 32 v | Sleep ms => in_u 32 ms end.
Definition lapic_ok (l : cpu_lapic) : Prop := in_u 8 (cl_id l) ∧ in_u 8 (cl_acpi_id l) ∧ in_u 32 (ticks_per_10ms l).

Record lst_ok (s : lst) : Prop := {
  ty_events : Forall event_ok (events s);
  ty_lapics : Forall lapic_ok (lapics s);
  ty_preempt : in_u 64 (l_preempt s);
  ty_apic_id : in_u 8 (l_apic_id s);
  ty_slices : in_u 32 (l_slices s)
}.

Lemma typed_lapic_write r v : (16 | r) → 0 ≤ r < 0x400 → typed lst_ok (λ _, True) (lapic_write r v).
Proof using Type.
  intros Hr Hb. unfold lapic_write. typing. apply typed_modify. intros t []. split; try done.
  constructor; [|done]. split_and!; [done|lia|lia|by apply uwrap_range].
Qed.

Lemma typed_lapic_read r : typed lst_ok (in_u 32) (lapic_read dev r).
Proof using Type. unfold lapic_read. typing. by apply uwrap_range. Qed.

Lemma typed_lapic_id : typed lst_ok (in_u 8) (lapic_id dev).
Proof using Type. unfold lapic_id. eapply typed_bind; [apply typed_lapic_read|]. intros v _. apply typed_ret. by apply uwrap_range. Qed.

Lemma typed_find_lapic id : typed lst_ok (λ _, True) (find_lapic id).
Proof using Type. unfold find_lapic. by typing. Qed.

Lemma typed_rd_lapic l : typed lst_ok lapic_ok (rd_lapic l).
Proof using Type.
  unfold rd_lapic. apply typed_get_bind. intros s Hs. destruct (l ≫= _) as [x|] eqn:E; [|apply typed_fault]. apply typed_ret.
  destruct l as [i|]; [|done]. simpl in E. by eapply (Forall_lookup_1 lapic_ok); [apply Hs|].
Qed.

Lemma typed_wr_ticks l v : in_u 32 v → typed lst_ok (λ _, True) (wr_ticks l v).
Proof using Type.
  intros Hv. unfold wr_ticks. eapply typed_bind; [apply typed_rd_lapic|]. intros x (? & ? & _). destruct l as [i|]; [|apply typed_fault].
  apply typed_modify. intros t []. split; try done. simpl. by apply Forall_insert.
Qed.

Lemma typed_preempt (m : M lst unit) : m = lpreempt_inc ∨ m = lpreempt_dec → typed lst_ok (λ _, True) m.
Proof using Type. intros [-> | ->]; (apply typed_get_bind; intros s Hs; apply typed_modify; intros t []; split; try done; apply low32_range, Hs). Qed.

Lemma typed_sleep ms : in_u 32 ms → typed lst_ok (λ _, True) (pit_sleep_event ms).
Proof using Type. intros Hms. apply typed_modify. intros t []. split; try done. by constructor. Qed.

(** A write to one of the registers by name. *)
Local Ltac reg := apply typed_lapic_write; [by apply (Z.mod_divide _ 16)|done].
Local Ltac steps := repeat (typing; (eapply typed_bind; [first [reg|solve [apply typed_preempt; auto]|apply typed_sleep; done]|intros ? ?])); typing; try reg.

#[local] Hint Resolve typed_lapic_read typed_lapic_id typed_find_lapic typed_rd_lapic : typing.

Lemma typed_timer_prepare : typed lst_ok (in_u 32) (lapic_timer_prepare dev).
Proof using Type.
  unfold lapic_timer_prepare. steps. pose proof (uwrap_range 32 (0xFFFFFFFF - x3) ltac:(lia)) as Hr. unfold in_u in *.
  split; [apply Z.div_pos; [lia|done]|]. apply Z.div_lt_upper_bound; [done|]. change (30 / 10) with 3. lia.
Qed.

Lemma typed_set_nmi n : typed lst_ok (λ _, True) (lapic_set_nmi IRQ_NMI n).
Proof using Type. unfold lapic_set_nmi. steps. Qed.

Lemma typed_set_nmis l ns : typed lst_ok (λ _, True) (set_nmis l ns).
Proof using Type.
  induction ns as [|n ns IH]; simpl; [by apply typed_ret|]. typing. eapply typed_bind; [|intros ? _; exact IH].
  apply typed_if; [apply typed_set_nmi|by apply typed_ret].
Qed.

Lemma typed_tick : typed lst_ok (λ _, True) lapic_timer_callback.
Proof using Type.
  unfold lapic_timer_callback. apply typed_get_bind. intros s Hs. apply typed_if; [|by apply typed_ret].
  eapply typed_bind; [apply typed_modify|intros ? _].
  - intros t []. split; try done. by apply uwrap_range.
  - apply typed_get_bind. intros t Ht. apply typed_if; [|by apply typed_ret]. apply typed_modify. intros t' []. by split.
Qed.

Lemma typed_enable : typed lst_ok (λ _, True) (lapic_enable dev cpuid_edx apic_base_msr).
Proof using Type.
  unfold lapic_enable. apply typed_if; [apply typed_panic|]. eapply typed_bind; [apply typed_lapic_id|intros id Hid]. typing.
  eapply typed_bind; [apply typed_modify; intros t []; by split|intros ? _]. typing.
  eapply typed_bind; [apply typed_set_nmis|intros ? _]. typing. eapply typed_bind; [reg|intros ? _].
  eapply typed_bind; [apply typed_timer_prepare|intros tk Htk]. eapply typed_bind; [by apply typed_wr_ticks|intros ? _].
  eapply typed_bind; [apply typed_if; [apply typed_modify; intros t []; by split|by apply typed_ret]|intros ? _]. reg.
Qed.

Lemma typed_run_op o : typed lst_ok (λ _, True) (run_op o).
Proof using Type.
  destruct o; simpl; [apply typed_enable| |apply typed_tick| | |].
  - unfold lapic_timer_enable. steps.
  - unfold lapic_eoi. steps.
  - unfold lapic_send_ipi. steps. eapply typed_bind; [apply typed_if; [reg|by apply typed_ret]|intros ? ?]. steps. apply typed_preempt. auto.
  - eapply typed_bind; [apply typed_lapic_id|intros ? _]. by apply typed_ret.
Qed.

(** Whatever sequence of operations runs on a local APIC, whatever the device
    answers and also after a tick count that wrapped: every access was a
    32-bit value to a register on a 16-byte boundary of the device's page,
    and the identifiers, tick counts, slice counts and the preemption counter
    are within the widths of their fields. *)
Theorem lapic_ops_typed os s s' : lst_ok s → run_ops os s = Ok (tt, s') → lst_ok s'.
Proof using Type.
  revert s. induction os as [|o os IH]; intros s Hs; simpl; [by intros [= <-]|].
  intros (x & s1 & H1 & H2)%bind_ok. eapply IH; [|exact H2]. by eapply (typed_run_op o).
Qed.
End typing.

Module LapicDemo.
(** CPU 3, whose timer has counted 3000 ticks, with vector 0x31 in service. *)
Definition dev (h : list event) (r : Z) : Z :=
  if r =? LAPIC_REG_ID then 0x3000000
  else if r =? LAPIC_REG_ISR_BASE + 0x10 then 0x20000
  else if r =? LAPIC_REG_TIMER_CURRENT then 0xFFFFFFFF - 3000 else 0.
Definition s : lst := mk_lst [] true [mk_cpu_lapic 0 0 1 0; mk_cpu_lapic 3 1 1 0] [mk_nmi 255 0 1; mk_nmi 0 0 0] 1 0 0 false false.
End LapicDemo.

Lemma lapic_eoi_correct_witness :
  wp (lapic_eoi (BC := debug_build) LapicDemo.dev 0x31) LapicDemo.s (λ _ s', events s' = [Write LAPIC_REG_EOI 0]).
Proof.
  eapply wp_mono; [apply (lapic_eoi_correct (BC := debug_build) LapicDemo.dev LapicDemo.s 0x31); [done|unfold IRQ_APIC_BASE; lia]|].
  by intros _ s' ->.
Defined.

Lemma lapic_send_ipi_correct_witness :
  wp (lapic_send_ipi 3 IPI_INIT) LapicDemo.s (λ _ s', events s' = [Write LAPIC_REG_ICR0 0x4500; Write LAPIC_REG_ICR1 0x3000000]).
Proof. eapply wp_mono; [by apply (lapic_send_ipi_correct LapicDemo.s 3 IPI_INIT)|]. by intros ? s' ->. Defined.

Lemma lapic_timer_preempts_witness : wp (ticks 7) LapicDemo.s (λ _ s', l_resched s' = true ∧ l_slices s' = 5).
Proof. eapply wp_mono; [by apply (lapic_timer_preempts LapicDemo.s 7)|]. by intros _ s' (-> & -> & _). Defined.

Lemma lapic_enable_correct_witness :
  wp (lapic_enable (BC := debug_build) LapicDemo.dev 0x200 0x800) LapicDemo.s (λ _ s', lapics s' = [mk_cpu_lapic 0 0 1 0; mk_cpu_lapic 3 1 1 1000]).
Proof.
  eapply wp_mono; [by apply (lapic_enable_correct (BC := debug_build) LapicDemo.dev 0x200 0x800 LapicDemo.s 1 (mk_cpu_lapic 3 1 1 0))|].
  intros ? s' (spur & tk & _ & (_ & ->) & -> & _). reflexivity.
Defined.

Lemma lapic_ops_typed_witness :
  ∃ s', run_ops (BC := debug_build) LapicDemo.dev 0x200 0x800 [OpEnable; OpTimerEnable; OpTick; OpEoi 0x31; OpIpi 3 IPI_INIT] LapicDemo.s = Ok (tt, s') ∧
    length (events s') = 13%nat ∧ lst_ok s'.
Proof.
  eexists. split; [vm_compute; reflexivity|]. split; [reflexivity|].
  apply (lapic_ops_typed (BC := debug_build) LapicDemo.dev 0x200 0x800 [OpEnable; OpTimerEnable; OpTick; OpEoi 0x31; OpIpi 3 IPI_INIT] LapicDemo.s).
  - split; simpl; [done|repeat constructor|done|done|done]; done.
  - vm_compute. reflexivity.
Defined.
