(* ===== verification/Panic.v ===== *)
(** * Panics

    [panic], [kassert] and [klog] of include/libk.h, libk/abort.c, libk/ssp.c
    and libk/ubsan.c on one CPU, over the printer of Printf.v and the local
    APIC of Lapic.v.  A function that does not return is followed up to the
    halts it ends in: [wakes] is the number of times something that cannot be
    masked wakes the CPU out of them. *)

From stdpp Require Import base list strings.
From Stdlib Require Import ZArith Lia Bool Ascii.
From S2P Require Import Prelude Console Printf Interrupts Sched Lapic.
Local Open Scope Z_scope.

Definition codes (s : string) : list Z := (λ c, Z.of_N (N_of_ascii c)) <$> String.list_ascii_of_string s.

(** Where a macro is expanded: [__FILE__], [__func__] and [__LINE__]. *)
Record site := mk_site { s_file : list Z; s_func : list Z; s_line : Z }.

(** One CPU: its console, its local APIC, [percpu->id] and the number of times
    it has executed [hlt]. *)
Record mach (S : Type) := mk_mach { prn : printer S; lap : lst; cpu_id : Z; halts : nat }.
Arguments mk_mach {S} _ _ _ _.
Arguments prn {S} _.
Arguments lap {S} _.
Arguments cpu_id {S} _.
Arguments halts {S} _.

Definition panic_format : list Z :=
  [10; 27] ++ codes "[0m--------------------------------------------------------------------------------"
  ++ [27] ++ codes "[0m" ++ [27] ++ codes "[1;41;37mpanic at %s:%s:%u CPU %d" ++ [27] ++ codes "[0m" ++ [10].

Definition kassert_format : list Z := codes "kassert condition failed at %s:%u: %s" ++ [10].
Definition ubsan_format : list Z := codes "ubsan fatal error: %s at %s:%d" ++ [10].

(** ** The code *)

Section panic.
Context {BC : BuildConfig} {S : Type} {CS : CharSink S} (wakes : nat).

Abbreviation PM := (M (mach S)).

Definition upd_prn (f : printer S → printer S) (m : mach S) : mach S := mk_mach (f (prn m)) (lap m) (cpu_id m) (halts m).
Definition upd_lap (f : lst → lst) (m : mach S) : mach S := mk_mach (prn m) (f (lap m)) (cpu_id m) (halts m).

(** [irq_disable] is [cli] too. *)
Definition cli : PM unit := modify (upd_prn (set_irq false)).
Definition hlt : PM unit := modify (λ m, mk_mach (prn m) (lap m) (cpu_id m) (Datatypes.S (halts m))).

(** A panic inside the printer happens with the lock held. *)
Definition on_printer (again : PM unit) {A} (d : A) (k : M (printer S) A) : PM A := λ m,
  match zoom prn (λ p, upd_prn (λ _, p)) k m with
  | Panic => (again;; mret d) (upd_prn (set_lock 1) m)
  | o => o
  end.
Definition on_lapic (again : PM unit) (k : M lst unit) : PM unit := λ m,
  match zoom lap (λ l, upd_lap (λ _, l)) k m with
  | Panic => again m
  | o => o
  end.

(** The loop of [abort_self]. *)
Fixpoint halt_loop (n : nat) : PM unit :=
  cli;; hlt;; match n with O => mret tt | Datatypes.S n => halt_loop n end.
Definition abort_self : PM unit := halt_loop wakes.

Definition abort (again : PM unit) : PM unit :=
  on_lapic again (lapic_send_ipi 0 (Z.lor (Z.lor IPI_BROADCAST IPI_FIXED) IRQ_IPI_ABORT));;
  abort_self.

Definition panic_nolock (again : PM unit) (at_ : site) (fmt : list Z) (args : list arg) : PM unit :=
  cli;; cli;;
  m ← get;
  on_printer again 0 (kprintf_nolock panic_format
    [Str (Some (s_file at_)); Str (Some (s_func at_)); Num (s_line at_); Num (cpu_id m)]);;
  on_printer again 0 (kprintf_nolock fmt args);;
  abort again.

(** [spin_lock(&kprintf_lock)]: on one CPU, waiting for a lock that is held
    does not end. *)
Definition lock_kprintf : PM unit :=
  modify (upd_lap (λ l, upd_lpreempt (low32 (λ v, v + 1) (l_preempt l)) l));;
  m ← get;
  if kprintf_lock (prn m) =? 0 then modify (upd_prn (set_lock 1)) else diverge.

(** What it calls can panic in turn; [depth] bounds the nesting, and the
    second level already waits for the lock of the first. *)
Fixpoint panic (depth : nat) (at_ : site) (fmt : list Z) (args : list arg) : PM unit :=
  match depth with
  | O => diverge
  | Datatypes.S depth =>
      lock_kprintf;;
      panic_nolock (panic depth (mk_site (codes "kernel/drivers/apic/lapic.c") (codes "lapic_send_ipi") 90)
                      (codes "Tried to send IPI before LAPIC was initialized") []) at_ fmt args
  end.

Definition panic_depth : nat := 2.

Definition kassert (at_ : site) (text : list Z) (condition : bool) : PM unit :=
  if negb condition
  then panic panic_depth at_ kassert_format [Str (Some (s_file at_)); Num (s_line at_); Str (Some text)]
  else mret tt.

(** The time of a message is always zero, so it is left out. *)
Definition klog (mod_ msg : list Z) (args : list arg) : M (printer S) unit :=
  let time := 0 in
  (if negb (time =? 0) then kprintf (codes "[%lu] ") [Num time];; mret tt else mret tt);;
  kprintf (mod_ ++ codes ": " ++ msg) args;; mret tt.

Definition klog_warn (mod_ msg : list Z) (args : list arg) : M (printer S) unit :=
  klog mod_ ([27] ++ codes "[33m**WARN**" ++ [27] ++ codes "[0m " ++ msg) args.

(** ** libk/ssp.c *)

Definition stack_chk_fail : PM unit :=
  panic panic_depth (mk_site (codes "libk/ssp.c") (codes "__stack_chk_fail") 9) (codes "Stack smashing detected") [].
End panic.

(** ** libk/ubsan.c *)

(** [filename] may be NULL. *)
Record source_location := mk_loc { filename : option (list Z); line : Z; column : Z }.
Record type_descriptor := mk_type { kind : Z; info : Z; name : list Z }.
Record type_mismatch_info := mk_mismatch { tm_location : source_location; tm_type : Z; alignment : Z; type_check_kind : Z }.
Record overflow_data := mk_overflow { ov_location : source_location; ov_type : Z }.
Record out_of_bounds_data := mk_bounds { oob_location : source_location; array_type : Z; index_type : Z }.
Record unreachable_data := mk_unreachable { un_location : source_location }.
Record invalid_value_data := mk_invalid { iv_location : source_location; iv_type : Z }.

Definition unknown_location : source_location := mk_loc (Some (codes "<unknown file>")) 0 0.

Section ubsan.
Context {BC : BuildConfig} {S : Type} {CS : CharSink S} (wakes : nat).

Abbreviation PM := (M (mach S)).

Definition report_location (location : option source_location) : source_location :=
  match location with
  | Some l => match filename l with Some _ => l | None => unknown_location end
  | None => unknown_location
  end.

Definition ubsan_abort (location : option source_location) (message : list Z) : PM unit :=
  let location := report_location location in
  panic wakes panic_depth (mk_site (codes "libk/ubsan.c") (codes "ubsan_abort") 55) ubsan_format
    [Str (Some message); Str (filename location); Num (line location)].

(** The location is the first field, so its address is NULL when the pointer
    to the data is; reading the alignment then faults. *)
Definition ubsan_handle_type_mismatch (type_mismatch : option type_mismatch_info) (pointer : Z) : PM unit :=
  message ←
    (if pointer =? 0 then mret (codes "null pointer access")
     else match type_mismatch with
          | None => fault
          | Some d =>
              if negb (alignment d =? 0) && negb (Z.land pointer (u64 (alignment d - 1)) =? 0)
              then mret (codes "unaligned memory access")
              else mret (codes "type mismatch")
          end);
  ubsan_abort (tm_location <$> type_mismatch) message.

Definition ubsan_handle_add_overflow (data : option overflow_data) (lhs rhs : Z) : PM unit :=
  ubsan_abort (ov_location <$> data) (codes "addition overflow").
Definition ubsan_handle_sub_overflow (data : option overflow_data) (lhs rhs : Z) : PM unit :=
  ubsan_abort (ov_location <$> data) (codes "subtraction overflow").
Definition ubsan_handle_negate_overflow (data : option overflow_data) (old_value : Z) : PM unit :=
  ubsan_abort (ov_location <$> data) (codes "negation overflow").
Definition ubsan_handle_divrem_overflow (data : option overflow_data) (lhs rhs : Z) : PM unit :=
  ubsan_abort (ov_location <$> data) (codes "division remainder overflow").
Definition ubsan_handle_out_of_bounds (data : option out_of_bounds_data) (index : Z) : PM unit :=
  ubsan_abort (oob_location <$> data) (codes "out of bounds").
Definition ubsan_handle_builtin_unreachable (data : option unreachable_data) : PM unit :=
  ubsan_abort (un_location <$> data) (codes "reached builtin_unreachable").
Definition ubsan_handle_mul_overflow (data : option overflow_data) (lhs rhs : Z) : PM unit :=
  ubsan_abort (ov_location <$> data) (codes "multiplication overflow").
Definition ubsan_handle_shift_out_of_bounds (data : option out_of_bounds_data) (lhs rhs : Z) : PM unit :=
  ubsan_abort (oob_location <$> data) (codes "shift out of bounds").
Definition ubsan_handle_load_invalid_value (data : option invalid_value_data) (value : Z) : PM unit :=
  ubsan_abort (iv_location <$> data) (codes "invalid value load").
End ubsan.

(** ** The text of a panic *)

(** The pieces of the formats, with the arguments they take. *)
Definition lits (l : list Z) : list piece := PLit <$> l.
Definition header_pieces (at_ : site) (id : Z) : list piece :=
  lits ([10; 27] ++ codes "[0m--------------------------------------------------------------------------------"
        ++ [27] ++ codes "[0m" ++ [27] ++ codes "[1;41;37mpanic at ")
  ++ [PStr (Some (s_file at_)); PLit 58; PStr (Some (s_func at_)); PLit 58; PUns W32 (s_line at_)]
  ++ lits (codes " CPU ") ++ [PInt W32 id] ++ lits ([27] ++ codes "[0m" ++ [10]).
Definition kassert_pieces (at_ : site) (text : list Z) : list piece :=
  lits (codes "kassert condition failed at ") ++ [PStr (Some (s_file at_)); PLit 58; PUns W32 (s_line at_)]
  ++ lits (codes ": ") ++ [PStr (Some text); PLit 10].
Definition ubsan_pieces (message : list Z) (l : source_location) : list piece :=
  lits (codes "ubsan fatal error: ") ++ [PStr (Some message)] ++ lits (codes " at ")
  ++ [PStr (filename l); PLit 58; PInt W32 (line l); PLit 10].

Definition site_ok (at_ : site) : Prop := Forall is_char (s_file at_) ∧ Forall is_char (s_func at_).

Lemma i32_not_least v : i64 (u64 (i32 v)) ≠ - 2 ^ 63.
Proof.
  assert (- 2 ^ 31 ≤ i32 v < 2 ^ 31) as Hr.
  { unfold swrap. pose proof (Z.mod_pos_bound v (2 ^ 32) ltac:(lia)).
    destruct (Z.ltb_spec (v mod 2 ^ 32) (2 ^ (32 - 1))); simpl in *; lia. }
  revert Hr. generalize (i32 v). intros x Hr. unfold swrap, uwrap. rewrite Z.mod_mod by lia.
  destruct (decide (0 ≤ x)).
  - rewrite Z.mod_small by lia. case_match; simpl in *; lia.
  - replace (x mod 2 ^ 64) with (x + 2 ^ 64) by (apply Z.mod_unique_pos with (-1); lia).
    case_match; simpl in *; lia.
Qed.

Lemma codes_char s : Forall is_char (codes s).
Proof.
  unfold codes. apply Forall_fmap, Forall_true. intros c. unfold is_char. simpl.
  pose proof (N_ascii_bounded c). lia.
Qed.

Lemma lits_ok l : Forall is_char l → 37 ∉ l → Forall piece_ok (lits l).
Proof.
  intros Hl Hn. apply Forall_fmap. apply Forall_forall. intros c Hc. simpl.
  split; [by eapply Forall_forall in Hc|]. intros ->. done.
Qed.

(** A closed text has only characters and no percent sign. *)
Ltac closed_lits := apply lits_ok; [by repeat constructor|by apply (bool_decide_unpack _); vm_compute].

Lemma header_pieces_ok at_ id : site_ok at_ → Forall piece_ok (header_pieces at_ id).
Proof.
  intros [Hf Hg]. unfold header_pieces. rewrite !Forall_app. split_and!; try closed_lits.
  - repeat (apply Forall_cons; split; [done || by split|]). by constructor.
  - apply Forall_cons. split; [apply i32_not_least|done].
Qed.

Lemma kassert_pieces_ok at_ text : site_ok at_ → Forall is_char text → Forall piece_ok (kassert_pieces at_ text).
Proof.
  intros [Hf _] Ht. unfold kassert_pieces. rewrite !Forall_app. split_and!; try closed_lits;
    repeat (apply Forall_cons; split; [done|]); by constructor.
Qed.

Definition location_ok (l : source_location) : Prop := Forall is_char (default null_text (filename l)).

Lemma ubsan_pieces_ok message l : Forall is_char message → location_ok l → Forall piece_ok (ubsan_pieces message l).
Proof.
  intros Hm Hl. unfold ubsan_pieces. rewrite !Forall_app. split_and!; try closed_lits.
  - by repeat constructor.
  - repeat (apply Forall_cons; split; [done || apply i32_not_least|]). by constructor.
Qed.

(** ** What a panic does *)

Section spec.
Context {BC : BuildConfig} {S : Type} {CS : CharSink S} {CL : CharSinkLaws S} (wakes : nat).
Implicit Types m : mach S.

(** The request that stops the other CPUs. *)
Definition ABORT_ALL : Z := Z.lor (Z.lor IPI_BROADCAST IPI_FIXED) IRQ_IPI_ABORT.

(** The end of a panic at [at_] with a message of pieces [ps], begun in [m]. *)
Record stopped (at_ : site) (ps : list piece) (m m' : mach S) : Prop := {
  st_irq : irq_on (prn m') = false;
  st_lock : kprintf_lock (prn m') ≠ 0;
  st_halts : halts m' = (halts m + Datatypes.S wakes)%nat;
  st_ipi : events (lap m') = Write LAPIC_REG_ICR0 ABORT_ALL :: events (lap m);
  st_text : ∃ th tm, format_text (header_pieces at_ (cpu_id m)) th ∧ format_text ps tm ∧
              wrote (th ++ tm) (sink (prn m)) (sink (prn m'))
}.

Lemma wp_on_printer {A} again (d : A) (k : M (printer S) A) m Q :
  wp k (prn m) (λ x p, Q x (upd_prn (λ _, p) m)) → wp (on_printer again d k) m Q.
Proof.
  unfold wp, on_printer, zoom. by destruct (k (prn m)) as [[x p]| | |].
Qed.

Lemma wp_on_lapic again (k : M lst unit) m Q :
  wp k (lap m) (λ x l, Q x (upd_lap (λ _, l) m)) → wp (on_lapic again k) m Q.
Proof. unfold wp, on_lapic, zoom. by destruct (k (lap m)) as [[x p]| | |]. Qed.

(** With the lock held, the printer writes and keeps it. *)
Lemma wp_kprintf_locked ps (p : printer S) (Q : Z → printer S → Prop) :
  sink_ok (sink p) → Forall piece_ok ps → kprintf_lock p ≠ 0 →
  (∀ k t s', format_text ps t → wrote t (sink p) s' → Q k (mk_printer s' 1 (irq_on p))) →
  wp (kprintf_nolock (concat (piece_fmt <$> ps)) (concat (piece_args <$> ps))) p Q.
Proof using CL.
  intros Hs Hps Hl HQ. unfold kprintf_nolock, on_sink. apply wp_bind, wp_get.
  rewrite (proj2 (Z.eqb_neq _ _) Hl). cbv zeta iota. wp_steps. apply (wp_zoom sink).
  apply wp_kvprintf; [done..|]. intros k t s' Ht W. wp_steps. by eapply HQ.
Qed.

Lemma wp_halt_loop n m (Q : unit → mach S → Prop) :
  (Q tt (mk_mach (set_irq false (prn m)) (lap m) (cpu_id m) (halts m + Datatypes.S n)%nat)) →
  wp (halt_loop n) m Q.
Proof using Type.
  revert m. induction n as [|n IH]; intros m HQ; simpl; unfold cli, hlt; wp_steps.
  - by rewrite Nat.add_1_r in HQ.
  - apply IH. simpl. by rewrite Nat.add_succ_r in HQ.
Qed.

Lemma wp_abort again m (Q : unit → mach S → Prop) :
  base_set (lap m) = true →
  (∀ l, events l = Write LAPIC_REG_ICR0 ABORT_ALL :: events (lap m) →
     Q tt (mk_mach (set_irq false (prn m)) l (cpu_id m) (halts m + Datatypes.S wakes)%nat)) →
  wp (abort wakes again) m Q.
Proof using Type.
  intros Hb HQ. unfold abort. apply wp_bind, wp_on_lapic. unfold lapic_send_ipi, lapic_write, lpreempt_inc, lpreempt_dec.
  wp_steps. rewrite Hb. simpl. wp_steps. change (Z.land _ IPI_BROADCAST =? 0) with false. cbv iota. wp_steps.
  simpl. rewrite Hb. wp_steps. apply wp_halt_loop. by apply HQ.
Qed.

Lemma wp_panic_pieces depth at_ ps m (Q : unit → mach S → Prop) :
  sink_ok (sink (prn m)) → kprintf_lock (prn m) = 0 → base_set (lap m) = true →
  site_ok at_ → Forall piece_ok ps → (∀ m', stopped at_ ps m m' → Q tt m') →
  wp (panic wakes (Datatypes.S depth) at_ (concat (piece_fmt <$> ps)) (concat (piece_args <$> ps))) m Q.
Proof using CL.
  intros Hs Hl Hb Hat Hps HQ. cbn [panic]. unfold lock_kprintf, panic_nolock, cli. wp_steps. simpl. rewrite Hl.
  change (0 =? 0) with true. cbv iota. wp_steps. simpl. apply wp_on_printer.
  refine (wp_kprintf_locked (header_pieces at_ (cpu_id m)) _ _ _ (header_pieces_ok _ _ Hat) _ _); [done|done|].
  intros _ th s1 Hth W1. apply wp_bind, wp_on_printer.
  refine (wp_kprintf_locked ps _ _ _ Hps _ _); [apply W1|done|]. intros _ tm s2 Htm W2.
  apply wp_abort; [done|]. intros l El. apply HQ. split; try done. exists th, tm.
  split_and!; [done|done|]. exact (wrote_trans _ _ _ _ _ W1 W2).
Qed.
End spec.

(** ** Theorems *)

(** A panic on a CPU that has its local APIC and finds the console free
    prints the line that says where it happened and on which CPU, then its
    message, with nothing in between; it asks every other CPU to stop, and
    ends with interrupts off in a halt it does not leave, however often it is
    woken, keeping the console's lock so that nobody prints after it. *)
Theorem panic_correct {BC : BuildConfig} uart patience wakes at_ ps (m : mach console)
    (Hu : uart_drains uart patience) :
  console_ok (sink (prn m)) → kprintf_lock (prn m) = 0 → base_set (lap m) = true →
  site_ok at_ → Forall piece_ok ps →
  wp (panic (CS := console_sink uart patience) wakes panic_depth at_
        (concat (piece_fmt <$> ps)) (concat (piece_args <$> ps))) m
     (λ _ m', stopped (CL := console_laws uart patience Hu) wakes at_ ps m m').
Proof. intros. by apply (wp_panic_pieces (CL := console_laws uart patience Hu)). Qed.

(** A failed assertion is such a panic, with the file, line and text of the
    condition; one that holds does nothing. *)
Theorem kassert_correct {BC : BuildConfig} {S : Type} {CS : CharSink S} {CL : CharSinkLaws S} wakes at_ text condition
    (m : mach S) :
  sink_ok (sink (prn m)) → kprintf_lock (prn m) = 0 → base_set (lap m) = true → site_ok at_ → Forall is_char text →
  wp (kassert wakes at_ text condition) m
     (λ _ m', if condition then m' = m else stopped wakes at_ (kassert_pieces at_ text) m m').
Proof.
  intros Hs Hl Hb Hat Ht. unfold kassert. destruct condition; simpl; [by apply wp_ret|].
  by apply (wp_panic_pieces _ 1 at_ (kassert_pieces at_ text)); [| | | |apply kassert_pieces_ok|].
Qed.

(** The calls the compiler inserts, with the message each one stands for. *)
Inductive ubsan_call :=
| TypeMismatch (d : option type_mismatch_info) (pointer : Z)
| AddOverflow (d : option overflow_data) (lhs rhs : Z)
| SubOverflow (d : option overflow_data) (lhs rhs : Z)
| NegateOverflow (d : option overflow_data) (old_value : Z)
| DivremOverflow (d : option overflow_data) (lhs rhs : Z)
| OutOfBounds (d : option out_of_bounds_data) (index : Z)
| Unreachable (d : option unreachable_data)
| MulOverflow (d : option overflow_data) (lhs rhs : Z)
| ShiftOutOfBounds (d : option out_of_bounds_data) (lhs rhs : Z)
| InvalidValue (d : option invalid_value_data) (value : Z).

Definition ubsan_run {BC : BuildConfig} {S : Type} {CS : CharSink S} (wakes : nat) (c : ubsan_call) : M (mach S) unit :=
  match c with
  | TypeMismatch d p => ubsan_handle_type_mismatch wakes d p
  | AddOverflow d l r => ubsan_handle_add_overflow wakes d l r
  | SubOverflow d l r => ubsan_handle_sub_overflow wakes d l r
  | NegateOverflow d v => ubsan_handle_negate_overflow wakes d v
  | DivremOverflow d l r => ubsan_handle_divrem_overflow wakes d l r
  | OutOfBounds d i => ubsan_handle_out_of_bounds wakes d i
  | Unreachable d => ubsan_handle_builtin_unreachable wakes d
  | MulOverflow d l r => ubsan_handle_mul_overflow wakes d l r
  | ShiftOutOfBounds d l r => ubsan_handle_shift_out_of_bounds wakes d l r
  | InvalidValue d v => ubsan_handle_load_invalid_value wakes d v
  end.

Definition call_location (c : ubsan_call) : option source_location :=
  match c with
  | TypeMismatch d _ => tm_location <$> d
  | AddOverflow d _ _ | SubOverflow d _ _ | NegateOverflow d _ | DivremOverflow d _ _ | MulOverflow d _ _ => ov_location <$> d
  | OutOfBounds d _ | ShiftOutOfBounds d _ _ => oob_location <$> d
  | Unreachable d => un_location <$> d
  | InvalidValue d _ => iv_location <$> d
  end.

(** A misaligned pointer is one that is no multiple of the alignment. *)
Definition mismatch_message (d : option type_mismatch_info) (pointer : Z) (t : string) : Prop :=
  if decide (pointer = 0) then t = "null pointer access"%string
  else match d with
       | None => False
       | Some d => if decide (pointer mod alignment d = 0) then t = "type mismatch"%string
                   else t = "unaligned memory access"%string
       end.

Definition call_message (c : ubsan_call) (t : string) : Prop :=
  match c with
  | TypeMismatch d p => mismatch_message d p t
  | AddOverflow _ _ _ => t = "addition overflow"%string
  | SubOverflow _ _ _ => t = "subtraction overflow"%string
  | NegateOverflow _ _ => t = "negation overflow"%string
  | DivremOverflow _ _ _ => t = "division remainder overflow"%string
  | OutOfBounds _ _ => t = "out of bounds"%string
  | Unreachable _ => t = "reached builtin_unreachable"%string
  | MulOverflow _ _ _ => t = "multiplication overflow"%string
  | ShiftOutOfBounds _ _ _ => t = "shift out of bounds"%string
  | InvalidValue _ _ => t = "invalid value load"%string
  end.

(** The compiler passes a description of the place, and the alignment of a
    type is a power of two. *)
Definition call_ok (c : ubsan_call) : Prop :=
  match c with
  | TypeMismatch d p => ∃ i k, d = Some i ∧ 0 ≤ k < 64 ∧ alignment i = 2 ^ k
  | _ => True
  end.

Definition ubsan_site : site := mk_site (codes "libk/ubsan.c") (codes "ubsan_abort") 55.

Section ubsan_spec.
Context {BC : BuildConfig} {S : Type} {CS : CharSink S} {CL : CharSinkLaws S} (wakes : nat).
Implicit Types m : mach S.

Definition can_report (m : mach S) : Prop :=
  sink_ok (sink (prn m)) ∧ kprintf_lock (prn m) = 0 ∧ base_set (lap m) = true.

Lemma report_location_ok l : (∀ x, l = Some x → location_ok x) → location_ok (report_location l).
Proof using Type.
  intros Hl. unfold report_location. destruct l as [[[f|] n c]|]; try by apply codes_char. by eapply Hl.
Qed.

Lemma wp_ubsan_abort l message m (Q : unit → mach S → Prop) :
  can_report m → Forall is_char message → (∀ x, l = Some x → location_ok x) →
  (∀ m', stopped wakes ubsan_site (ubsan_pieces message (report_location l)) m m' → Q tt m') →
  wp (ubsan_abort wakes l message) m Q.
Proof using CL.
  intros (Hs & Hk & Hb) Hm Hl HQ. unfold ubsan_abort.
  apply (wp_panic_pieces _ 1 ubsan_site (ubsan_pieces message (report_location l))); try done.
  - split; apply codes_char.
  - apply ubsan_pieces_ok; [done|by apply report_location_ok].
Qed.

Lemma land_alignment p k : 0 ≤ k < 64 → Z.land p (u64 (2 ^ k - 1)) = p mod 2 ^ k.
Proof using Type.
  intros Hk. pose proof (Z.pow_pos_nonneg 2 k ltac:(lia) ltac:(lia)).
  pose proof (Z.pow_le_mono_r 2 k 63 ltac:(lia) ltac:(lia)).
  rewrite uwrap_id by (unfold in_u; simpl in *; lia). replace (2 ^ k - 1) with (Z.ones k) by (rewrite Z.ones_equiv; lia).
  by rewrite Z.land_ones by lia.
Qed.

Lemma wp_ubsan_run c m :
  can_report m → call_ok c → (∀ x, call_location c = Some x → location_ok x) →
  wp (ubsan_run wakes c) m (λ _ m', ∃ t, call_message c t ∧
    stopped wakes ubsan_site (ubsan_pieces (codes t) (report_location (call_location c))) m m').
Proof using CL.
  intros Hm Hc Hl. destruct c; simpl in Hl |- *; try (apply wp_ubsan_abort; [done|apply codes_char|done|by eauto]).
  destruct Hc as (i & k & -> & Hk & Ha). unfold ubsan_handle_type_mismatch, mismatch_message.
  destruct (Z.eqb_spec pointer 0) as [->|H0].
  { wp_steps. apply wp_ubsan_abort; [done|apply codes_char|done|]. intros m' Hm'. by exists "null pointer access"%string. }
  rewrite Ha, land_alignment by done.
  pose proof (Z.pow_pos_nonneg 2 k ltac:(lia) ltac:(lia)). rewrite (proj2 (Z.eqb_neq _ 0)) by lia. simpl negb.
  destruct (Z.eqb_spec (pointer mod 2 ^ k) 0) as [Hd|Hd]; simpl; wp_steps; (apply wp_ubsan_abort; [done|apply codes_char|done|]);
    intros m' Hm'; eexists; (split; [|exact Hm']); rewrite decide_False by done; by first [rewrite decide_True by done|rewrite decide_False by done].
Qed.
End ubsan_spec.

(** Every call the compiler inserts where it finds undefined behaviour
    ends in a panic whose message is the kind of the fault and the place the
    compiler passed (or the unknown place, if there is none); a pointer is
    called misaligned when it is no multiple of the alignment. *)
Theorem ubsan_correct {BC : BuildConfig} uart patience wakes c (m : mach console) (Hu : uart_drains uart patience) :
  console_ok (sink (prn m)) → kprintf_lock (prn m) = 0 → base_set (lap m) = true →
  call_ok c → (∀ x, call_location c = Some x → location_ok x) →
  wp (ubsan_run (CS := console_sink uart patience) wakes c) m (λ _ m', ∃ t, call_message c t ∧
    stopped (CL := console_laws uart patience Hu) wakes ubsan_site
      (ubsan_pieces (codes t) (report_location (call_location c))) m m').
Proof. intros. by apply (wp_ubsan_run (CL := console_laws uart patience Hu)). Qed.

(** The lock is not free inside the printer: an unknown letter in the format
    of [kprintf] never gets to print its panic, which waits for the lock that
    [kprintf] holds. *)
Theorem panic_in_kprintf_hangs {BC : BuildConfig} {S : Type} {CS : CharSink S} wakes at_ fmt args (m : mach S) :
  kprintf_nolock fmt args (prn m) = Panic →
  (on_printer (panic wakes panic_depth at_ fmt args) 0 (kprintf_nolock fmt args)) m = Diverge.
Proof. intros E. unfold on_printer, zoom. by rewrite E. Qed.

(** Before the local APIC is known, a panic prints its message and then spins
    on the lock it holds itself instead of halting: the request to the other
    CPUs panics in turn. *)
Theorem panic_before_lapic {BC : BuildConfig} {S : Type} {CS : CharSink S} wakes (m : mach S) :
  kprintf_lock (prn m) ≠ 0 → base_set (lap m) = false →
  abort wakes (panic wakes 1 (mk_site (codes "kernel/drivers/apic/lapic.c") (codes "lapic_send_ipi") 90)
                 (codes "Tried to send IPI before LAPIC was initialized") []) m = Diverge.
Proof.
  intros Hl Hb. unfold abort, on_lapic, zoom, lapic_send_ipi. cbv [mbind M_bind get]. rewrite Hb. simpl.
  cbv [lock_kprintf mbind M_bind modify get]. simpl. by rewrite (proj2 (Z.eqb_neq _ _) Hl).
Qed.

Module PanicDemo.
Definition lapic : lst := mk_lst [] true [] [] 0 0 0 false false.
Definition cpu : mach console := mk_mach (mk_printer ConsoleDemo.fresh 0 true) lapic 3 0.
Definition here : site := mk_site (codes "kernel/mm/pmm.c") (codes "pmm_alloc_order") 188.

(** The whole text, on a sink that keeps it. *)
Lemma text :
  match panic (BC := debug_build) (CS := log_sink) 1 panic_depth here (codes "PMM out of memory at %u") [Num 7]
          (mk_mach (mk_printer [] 0 true) lapic 3 0) with
  | Ok (_, m) => drop 85 (sink (prn m)) = [27] ++ codes "[0m" ++ [27] ++
      codes "[1;41;37mpanic at kernel/mm/pmm.c:pmm_alloc_order:188 CPU 3" ++ [27] ++ codes "[0m" ++ [10] ++
      codes "PMM out of memory at 7" ∧ halts m = 2%nat
  | _ => False
  end.
Proof. by vm_compute. Qed.
End PanicDemo.

Lemma panic_correct_witness :
  wp (panic (BC := debug_build) (CS := console_sink (λ _, 0x60) 0) 0 panic_depth PanicDemo.here
        (codes "PMM") []) PanicDemo.cpu (λ _ m', irq_on (prn m') = false).
Proof.
  eapply wp_mono; [refine (panic_correct (BC := debug_build) (λ _, 0x60) 0 0 PanicDemo.here (lits (codes "PMM")) PanicDemo.cpu
    ConsoleDemo.always_ready ConsoleDemo.fresh_ok eq_refl eq_refl _ _)|].
  - split; apply codes_char.
  - closed_lits.
  - by intros ? ? [? _ _ _ _].
Defined.

Lemma ubsan_correct_witness :
  wp (ubsan_run (BC := debug_build) (CS := console_sink (λ _, 0x60) 0) 0
        (TypeMismatch (Some (mk_mismatch (mk_loc None 7 1) 0 8 0)) 12)) PanicDemo.cpu
     (λ _ m', irq_on (prn m') = false).
Proof.
  eapply wp_mono; [refine (ubsan_correct (BC := debug_build) (λ _, 0x60) 0 0
    (TypeMismatch (Some (mk_mismatch (mk_loc None 7 1) 0 8 0)) 12) PanicDemo.cpu
    ConsoleDemo.always_ready ConsoleDemo.fresh_ok eq_refl eq_refl _ _)|].
  - exists (mk_mismatch (mk_loc None 7 1) 0 8 0), 3. split_and!; [done|lia|lia|done].
  - intros x [= <-]. apply (codes_char "(null)").
  - by intros ? ? (? & _ & [? _ _ _ _]).
Defined.
