(* ===== verification/PanicSmp.v ===== *)
(** * Panics on several CPUs

    The console's lock, [kprintf] (libk/kprintf.c), [panic] (include/libk.h)
    and [ipi_abort] (kernel/smp/ipi.c) on any number of CPUs, one statement at
    a time and in any interleaving.  [Run] is all other code, which may call
    either and turn interrupts on and off; an interrupt suspends what a CPU
    does and runs a handler, which is other code too.  What a CPU does with the
    request to stop is what the table of isr.c has at its vector: [ipi_abort]
    where it is installed, nothing where the entry is the zeroed one the kernel
    starts with.  Nothing in the kernel installs [ipi_abort], so the table is a
    variable here and both cases are followed.  The lock is taken in one step,
    as Sync.v justifies.  The texts are those of Panic.v and
    Printf.v: here they are lists of characters. *)

From stdpp Require Import base list relations.
From Stdlib Require Import ZArith Lia Bool.
From S2P Require Import Prelude Interrupts.
Local Open Scope Z_scope.

(** What a CPU is about to do. *)
Inductive act :=
| Run
| KWait (saved : bool) (t : list Z)    (* kprintf: spin_lock, interrupts off *)
| KPrint (saved : bool) (t : list Z)   (* kprintf: the rest of the text *)
| PWait (t : list Z)                   (* panic: spin_lock(&kprintf_lock) *)
| PHeld (t : list Z)                   (* panic: irq_disable() *)
| PPrint (t : list Z)                  (* panic: the rest of the text *)
| PHalt                                (* abort_self at the end of panic *)
| Aborted.                             (* abort_self of ipi_abort *)

#[export] Instance act_eq_dec : EqDecision act.
Proof. solve_decision. Defined.

(** [below] are the suspended contexts, [pend] says that the request to stop
    has arrived and was not taken, [asked] that it was sent. *)
Record cpu := mk_cpu { now : act; irq : bool; pend : bool; below : list act; asked : bool }.

Record state := mk_state { cpus : list cpu; holder : option nat; output : list (nat * Z) }.

Definition go (a : act) (p : cpu) : cpu := mk_cpu a (irq p) (pend p) (below p) (asked p).
Definition set_irq (b : bool) (p : cpu) : cpu := mk_cpu (now p) b (pend p) (below p) (asked p).
Definition requested (p : cpu) : cpu := mk_cpu (now p) (irq p) true (below p) true.
(** The request is acknowledged and nothing is run for it. *)
Definition ignore (p : cpu) : cpu := mk_cpu (now p) (irq p) false (below p) (asked p).
Definition upd (c : nat) (p : cpu) (s : state) : state := mk_state (<[c := p]> (cpus s)) (holder s) (output s).
Definition upd_holder (h : option nat) (s : state) : state := mk_state (cpus s) h (output s).
Definition emit (c : nat) (x : Z) (s : state) : state := mk_state (cpus s) (holder s) (output s ++ [(c, x)]).

(** The broadcast reaches every CPU but the sender. *)
Definition broadcast (c : nat) (s : state) : state :=
  mk_state (imap (λ i p, if decide (i = c) then p else requested p) (cpus s)) (holder s) (output s).

(** ** The code *)

Definition kprintf_step (c : nat) (p : cpu) (s : state) : option state :=
  match now p with
  | KWait saved t =>
      match holder s with Some _ => None | None => Some (upd_holder (Some c) (upd c (go (KPrint saved t) p) s)) end
  | KPrint saved (x :: t) => Some (emit c x (upd c (go (KPrint saved t) p) s))
  | KPrint saved [] => Some (upd_holder None (upd c (set_irq saved (go Run p)) s))
  | _ => None
  end.

Definition panic_step (c : nat) (p : cpu) (s : state) : option state :=
  match now p with
  | PWait t =>
      match holder s with Some _ => None | None => Some (upd_holder (Some c) (upd c (go (PHeld t) p) s)) end
  | PHeld t => Some (upd c (set_irq false (go (PPrint t) p)) s)
  | PPrint (x :: t) => Some (emit c x (upd c (go (PPrint t) p) s))
  | PPrint [] => Some (broadcast c (upd c (go PHalt p) s))
  | _ => None
  end.

(** [ipi_abort]: the CPU that takes the request stops where it is. *)
Definition ipi_abort (c : nat) (p : cpu) (s : state) : state := upd c (set_irq false (go Aborted p)) s.

Section Table.
(** The table of handlers, and the address of [ipi_abort]. *)
Context (table : list isr_info) (ipi : Z).

(** A step of CPU [c].  A request that has arrived is taken before the next
    instruction once interrupts are on. *)
Inductive step (c : nat) (p : cpu) (s : state) : state → Prop :=
| step_abort : irq p = true → pend p = true → installed table IRQ_IPI_ABORT ipi = true → step c p s (ipi_abort c p s)
| step_ignore : irq p = true → pend p = true → table !! Z.to_nat IRQ_IPI_ABORT = Some no_info → step c p s (upd c (ignore p) s)
| step_kprintf s' : irq p && pend p = false → kprintf_step c p s = Some s' → step c p s s'
| step_panic s' : irq p && pend p = false → panic_step c p s = Some s' → step c p s s'
| step_call t : irq p && pend p = false → now p = Run → step c p s (upd c (set_irq false (go (KWait (irq p) t) p)) s)
| step_fail t : irq p && pend p = false → now p = Run → step c p s (upd c (go (PWait t) p) s)
| step_irq b : irq p && pend p = false → now p = Run → step c p s (upd c (set_irq b p) s)
| step_interrupt : irq p = true → pend p = false →
    step c p s (upd c (mk_cpu Run false (pend p) (now p :: below p) (asked p)) s)
| step_return a bs : irq p && pend p = false → now p = Run → below p = a :: bs →
    step c p s (upd c (mk_cpu a true (pend p) bs (asked p)) s).

(** A run is the sequence of the CPUs that made the steps. *)
Inductive steps : list nat → state → state → Prop :=
| steps_nil s : steps [] s s
| steps_cons c p cs s s' s'' : cpus s !! c = Some p → step c p s s' → steps cs s' s'' → steps (c :: cs) s s''.

Definition start (n : nat) : state := mk_state (replicate n (mk_cpu Run true false [] false)) None [].
Definition reachable (n : nat) (s : state) : Prop := ∃ cs, steps cs (start n) s.

(** ** The invariant *)

(** Contexts between taking the lock and giving it back. *)
Definition owns (a : act) : bool :=
  match a with KPrint _ _ | PHeld _ | PPrint _ | PHalt => true | _ => false end.
Definition owned (p : cpu) : Z := tally owns (now p :: below p).

(** Contexts that run with interrupts off. *)
Definition masked (a : act) : bool :=
  match a with KWait _ _ | KPrint _ _ | PPrint _ | PHalt | Aborted => true | _ => false end.

Record cpu_ok (s : state) (c : nat) (p : cpu) : Prop := {
  co_now : masked (now p) = true → irq p = false;
  co_below : Forall (λ a, masked a = false) (below p);
  co_one : owned p ≤ 1;
  co_owner : now p ≠ Aborted → 0 < owned p → holder s = Some c;
  co_table : now p = Aborted → installed table IRQ_IPI_ABORT ipi = true;
  co_pend : pend p = true ∨ now p = Aborted → ∃ h q, holder s = Some h ∧ cpus s !! h = Some q ∧ now q = PHalt
}.
Record inv (s : state) : Prop := {
  in_cpus : ∀ c p, cpus s !! c = Some p → cpu_ok s c p;
  in_holder : ∀ h, holder s = Some h → ∃ p, cpus s !! h = Some p ∧ 0 < owned p ∧ now p ≠ Aborted
}.

Lemma owned_go a p : owned (go a p) = Z.b2z (owns a) + tally owns (below p).
Proof. done. Qed.
Lemma owned_split p : owned p = Z.b2z (owns (now p)) + tally owns (below p).
Proof. done. Qed.

Lemma panic_inv_start n : inv (start n).
Proof.
  split; [|done]. intros c p [-> _]%lookup_replicate. split; simpl; try done. by intros [|].
Qed.

(** One step of CPU [c], whose state is [p]. *)
Section step.
Context {s : state} {c : nat} {p : cpu}.
Hypotheses (Hs : inv s) (Hp : cpus s !! c = Some p).

Lemma holder_unique q d : cpus s !! d = Some q → now q = PHalt → holder s = Some d.
Proof using Hs.
  intros Hq E. destruct (in_cpus _ Hs _ _ Hq) as [_ _ _ Ho _ _]. apply Ho; [by rewrite E|].
  rewrite owned_split, E. simpl. pose proof (tally_nonneg owns (below q)). lia.
Qed.

(** The lock stays as it is. *)
Lemma inv_upd p' o :
  (masked (now p') = true → irq p' = false) → Forall (λ a, masked a = false) (below p') →
  owned p' = owned p → (pend p' = true → pend p = true) → now p' ≠ Aborted → now p ≠ Aborted → now p ≠ PHalt →
  inv (mk_state (<[c := p']> (cpus s)) (holder s) o).
Proof using Hs Hp.
  intros Hm Hb Ho Hpe Ha' Ha Hh. destruct (in_cpus _ Hs _ _ Hp) as [_ _ H1 H2 _ H3].
  assert (∀ h q, holder s = Some h → cpus s !! h = Some q → now q = PHalt → <[c:=p']> (cpus s) !! h = Some q) as Hk.
  { intros h q _ Hq E. rewrite list_lookup_insert_ne; [done|]. intros ->. congruence. }
  split; simpl.
  - intros d q [(-> & <- & _)|[Hne Hq]]%list_lookup_insert_Some.
    + split; simpl; [done|done|by rewrite Ho|rewrite Ho; auto|done|].
      intros [E|E]; [|done]. destruct H3 as (h & q & ? & ? & ?); [left; auto|]. exists h, q. eauto.
    + destruct (in_cpus _ Hs _ _ Hq) as [G1 G2 G3 G4 G5' G5]. split; simpl; [done..|].
      intros E. destruct (G5 E) as (h & r & ? & ? & ?). exists h, r. eauto.
  - intros h Eh. destruct (in_holder _ Hs _ Eh) as (q & Hq & Hq1 & Hq2).
    destruct (decide (h = c)) as [->|Hne].
    + exists p'. rewrite list_lookup_insert_eq by by eapply lookup_lt_Some. simplify_eq. by rewrite Ho.
    + exists q. by rewrite list_lookup_insert_ne.
Qed.

(** While the lock is free nobody has been asked to stop. *)
Lemma inv_acquire p' o :
  holder s = None → (masked (now p') = true → irq p' = false) → below p' = below p →
  owned p' = owned p + 1 → pend p' = pend p → now p' ≠ Aborted → now p ≠ Aborted →
  inv (mk_state (<[c := p']> (cpus s)) (Some c) o).
Proof using Hs Hp.
  intros Hf Hm Hb Ho Hpe Ha' Ha. destruct (in_cpus _ Hs _ _ Hp) as [_ Hbl _ H2 _ H3].
  assert (owned p = 0) as H0.
  { destruct (decide (0 < owned p)) as [Hlt|]; [by rewrite (H2 Ha Hlt) in Hf|].
    pose proof (tally_nonneg owns (now p :: below p)). unfold owned in *. lia. }
  split; simpl.
  - intros d q [(-> & <- & _)|[Hne Hq]]%list_lookup_insert_Some.
    + split; simpl; [done|by rewrite Hb|lia|done|done|]. rewrite Hpe.
      intros [E|E]; [|done]. destruct H3 as (h & q & ? & ? & ?); [by left|congruence].
    + destruct (in_cpus _ Hs _ _ Hq) as [G1 G2 G3 G4 G5' G5]. split; simpl; [done..| |done|].
      * intros Hqa Hqo. rewrite (G4 Hqa Hqo) in Hf. done.
      * intros E. destruct (G5 E) as (h & r & ? & ? & ?). congruence.
  - intros h [= <-]. exists p'. rewrite list_lookup_insert_eq by by eapply lookup_lt_Some. split_and!; [done|lia|done].
Qed.

Lemma inv_release p' o :
  holder s = Some c → masked (now p') = false → below p' = below p →
  owned p' = owned p - 1 → pend p' = pend p → now p' ≠ Aborted → now p ≠ PHalt →
  inv (mk_state (<[c := p']> (cpus s)) None o).
Proof using Hs Hp.
  intros Hf Hm Hb Ho Hpe Ha' Hh. destruct (in_cpus _ Hs _ _ Hp) as [_ Hbl H1 _ _ H3].
  assert (∀ h q, holder s = Some h → cpus s !! h = Some q → now q = PHalt → False) as Hno by naive_solver.
  split; simpl; [|done].
  intros d q [(-> & <- & _)|[Hne Hq]]%list_lookup_insert_Some.
  - split; simpl; [congruence|by rewrite Hb|lia|lia|done|]. rewrite Hpe.
    intros [E|E]; [|done]. destruct H3 as (h & q & ? & ? & ?); [by left|naive_solver].
  - destruct (in_cpus _ Hs _ _ Hq) as [G1 G2 G3 G4 G5' G5]. split; simpl; [done..| |done|].
    + intros Hqa Hqo. rewrite (G4 Hqa Hqo) in Hf. congruence.
    + intros E. destruct (G5 E) as (h & r & ? & ? & ?). naive_solver.
Qed.

Lemma inv_abort : irq p = true → pend p = true → installed table IRQ_IPI_ABORT ipi = true → inv (ipi_abort c p s).
Proof using Hs Hp.
  intros Hi Hpe Hin. destruct (in_cpus _ Hs _ _ Hp) as [H0 Hbl H1 _ _ H3].
  destruct H3 as (h & q & Eh & Hq & E); [by left|]. assert (h ≠ c) as Hne.
  { intros ->. assert (irq p = false); [|congruence]. apply H0. simplify_eq. by rewrite E. }
  unfold ipi_abort, upd. split; simpl.
  - intros d r [(-> & <- & _)|[Hned Hr]]%list_lookup_insert_Some.
    + split; simpl; [done|done| |done|done|].
      * unfold owned in *. simpl in *. pose proof (tally_nonneg owns (below p)). destruct (owns (now p)); simpl in *; lia.
      * intros _. exists h, q. by rewrite list_lookup_insert_ne.
    + destruct (in_cpus _ Hs _ _ Hr) as [G1 G2 G3 G4 G5' G5]. split; simpl; [done..|].
      intros _. exists h, q. by rewrite list_lookup_insert_ne.
  - intros h' Eh'. simplify_eq. exists q. rewrite list_lookup_insert_ne by done. split_and!; [done| |by rewrite E].
    rewrite owned_split, E. simpl. pose proof (tally_nonneg owns (below q)). lia.
Qed.

Lemma inv_broadcast : now p = PPrint [] → inv (broadcast c (upd c (go PHalt p) s)).
Proof using Hs Hp.
  intros E. destruct (in_cpus _ Hs _ _ Hp) as [H0 Hbl H1 H2 _ H3].
  assert (holder s = Some c) as Eh.
  { apply H2; [by rewrite E|]. rewrite owned_split, E. simpl. pose proof (tally_nonneg owns (below p)). lia. }
  assert (owned (go PHalt p) = owned p) as Eo by (by rewrite owned_go, owned_split, E).
  unfold broadcast, upd. simpl.
  assert (imap (λ i p, if decide (i = c) then p else requested p) (<[c := go PHalt p]> (cpus s)) !! c = Some (go PHalt p)) as Hc.
  { rewrite list_lookup_imap, list_lookup_insert_eq by by eapply lookup_lt_Some. simpl. by rewrite decide_True. }
  split; simpl.
  - intros d r Hr. destruct (decide (d = c)) as [->|Hne].
    + rewrite Hc in Hr. injection Hr as <-. split; simpl; [intros _; apply H0; by rewrite E|done|lia|done|done|]. intros _. eauto.
    + rewrite list_lookup_imap, list_lookup_insert_ne in Hr by done. destruct (cpus s !! d) as [q|] eqn:Hq; [|done].
      cbn [fmap option_fmap option_map] in Hr. rewrite decide_False in Hr by done. injection Hr as <-.
      destruct (in_cpus _ Hs _ _ Hq) as [G1 G2 G3 G4 G5' G5]. split; simpl; [done..|]. intros _. eauto.
  - intros h Eh'. assert (h = c) as -> by congruence. exists (go PHalt p). split_and!; [done| |done].
    rewrite Eo, owned_split, E. simpl. pose proof (tally_nonneg owns (below p)). lia.
Qed.

End step.

Lemma panic_inv_step s c p s' : inv s → cpus s !! c = Some p → step c p s s' → inv s'.
Proof.
  intros Hs Hp.  pose proof (in_cpus _ Hs _ _ Hp) as [H0 Hbl H1 H2 _ _]. destruct p as [a i pe bl ak]. simpl in *.
  destruct 1 as [Hi Hpe Hin|Hi Hpe Hin|s' Hg Hk|s' Hg Hk|t Hg E|t Hg E|b Hg E|Hi Hpe|a' bs Hg E Eb]; simpl in *.
  - by apply (inv_abort Hs Hp).
  - apply (inv_upd Hs Hp); simpl; try done; auto; intros ->; naive_solver.
  - unfold kprintf_step in Hk. simpl in Hk. destruct a as [|sv t|sv [|x t]|t|t|t| |]; simplify_eq/=.
    + destruct (holder s) eqn:Eh; simplify_eq/=. apply (inv_acquire Hs Hp); simpl; try done; auto. rewrite !owned_split. simpl. lia.
    + apply (inv_release Hs Hp); simpl; try done; auto. apply H2; [done|]. rewrite owned_split. simpl. pose proof (tally_nonneg owns bl). lia.
      rewrite !owned_split. simpl. lia.
    + apply (inv_upd Hs Hp); simpl; try done; auto.
  - unfold panic_step in Hk. simpl in Hk. destruct a as [|sv t|sv t|t|t|[|x t]| |]; simplify_eq/=.
    + destruct (holder s) eqn:Eh; simplify_eq/=. apply (inv_acquire Hs Hp); simpl; try done; auto. rewrite !owned_split. simpl. lia.
    + apply (inv_upd Hs Hp); simpl; try done; auto.
    + by apply (inv_broadcast Hs Hp).
    + apply (inv_upd Hs Hp); simpl; try done; auto.
  - subst a. apply (inv_upd Hs Hp); simpl; try done; auto.
  - subst a. apply (inv_upd Hs Hp); simpl; try done; auto.
  - subst a. apply (inv_upd Hs Hp); simpl; try done; auto.
  - apply (inv_upd Hs Hp); simpl; try done; auto.
    + apply Forall_cons. split; [|done]. destruct (masked a); [|done]. naive_solver.
    + intros ->. naive_solver.
    + intros ->. naive_solver.
  - subst. apply Forall_cons in Hbl as [Ha Hbl]. apply (inv_upd Hs Hp); simpl; try done; [by rewrite Ha|by intros ->].
Qed.

Lemma panic_inv_steps cs s s' : steps cs s s' → inv s → inv s'.
Proof. induction 1 as [|c p cs s s' s'' Hp Hst _ IH]; [done|]. intros Hs. by eapply IH, panic_inv_step. Qed.

Lemma reachable_inv n s : reachable n s → inv s.
Proof. intros [cs H]. eapply panic_inv_steps; [done|]. apply panic_inv_start. Qed.

(** ** A panic that has turned interrupts off *)

Definition panicking (a : act) : Prop := a = PHalt ∨ ∃ t, a = PPrint t.

Lemma panicking_holds s c p : inv s → cpus s !! c = Some p → panicking (now p) → holder s = Some c ∧ irq p = false.
Proof.
  intros Hs Hp Ha. destruct (in_cpus _ Hs _ _ Hp) as [H0 _ _ H2 _ _].
  split; [apply H2|apply H0]; destruct Ha as [E|[t E]]; rewrite ?owned_split, E; try done; simpl;
    pose proof (tally_nonneg owns (below p)); lia.
Qed.

(** A step of a CPU that does not hold the lock prints nothing and changes no
    other CPU. *)
Lemma step_outside s c d q s' :
  inv s → holder s = Some c → d ≠ c → cpus s !! d = Some q → step d q s s' →
  ∃ q', s' = upd d q' s ∧ asked q' = asked q ∧ (installed table IRQ_IPI_ABORT ipi = true → pend q' = pend q) ∧ now q' ≠ PHalt.
Proof.
  intros Hs Hc Hne Hq. pose proof (in_cpus _ Hs _ _ Hq) as [H0 Hbl _ H2 _ _].
  assert (now q = Aborted ∨ owns (now q) = false) as Ho.
  { destruct (decide (now q = Aborted)) as [|Ha]; [by left|right]. destruct (owns (now q)) eqn:E; [|done].
    destruct Hne. assert (holder s = Some d); [|congruence]. apply H2; [done|].
    rewrite owned_split, E. pose proof (tally_nonneg owns (below q)). simpl. lia. }
  destruct q as [a i pe bl ak]. simpl in *.
  destruct 1 as [Hi Hpe Hin|Hi Hpe Hin|s' Hg Hk|s' Hg Hk|t Hg E|t Hg E|b Hg E|Hi Hpe|a' bs Hg E Eb]; simpl in *; subst; try by eauto.
  - eexists. split; [done|]. split; [done|]. split; [|simpl; intros ->; naive_solver].
    unfold installed. by rewrite Hin.
  - unfold kprintf_step in Hk. simpl in Hk. rewrite Hc in Hk. destruct a as [|?|? []|?|?|?| |]; naive_solver.
  - unfold panic_step in Hk. simpl in Hk. rewrite Hc in Hk. destruct a as [|?|?|?|?|[]| |]; naive_solver.
  - apply Forall_cons in Hbl as [Ha _]. eexists. split; [done|]. split; [done|]. split; [done|]. simpl. by intros ->.
Qed.

(** Steps of the CPU itself. *)
Lemma step_printing s c p x t s' :
  irq p = false → now p = PPrint (x :: t) → step c p s s' → s' = emit c x (upd c (go (PPrint t) p) s).
Proof.
  intros Hi E Hst. inversion Hst as [| |? ? Hk|? ? Hk| | | | |]; try congruence.
  - unfold kprintf_step in Hk. by rewrite E in Hk.
  - unfold panic_step in Hk. rewrite E in Hk. congruence.
Qed.
Lemma step_printed s c p s' :
  irq p = false → now p = PPrint [] → step c p s s' → s' = broadcast c (upd c (go PHalt p) s).
Proof.
  intros Hi E Hst. inversion Hst as [| |? ? Hk|? ? Hk| | | | |]; try congruence.
  - unfold kprintf_step in Hk. by rewrite E in Hk.
  - unfold panic_step in Hk. rewrite E in Hk. congruence.
Qed.
Lemma step_halted s c p s' : irq p = false → now p = PHalt → ¬ step c p s s'.
Proof.
  intros Hi E Hst. inversion Hst as [| |? ? Hk|? ? Hk| | | | |]; try congruence.
  - unfold kprintf_step in Hk. by rewrite E in Hk.
  - unfold panic_step in Hk. by rewrite E in Hk.
Qed.

(** After the panic has halted. *)
Lemma halted_steps cs s s' : steps cs s s' → inv s →
  ∀ c p, cpus s !! c = Some p → now p = PHalt → cpus s' !! c = Some p ∧ output s' = output s ∧ c ∉ cs.
Proof.
  induction 1 as [|d q cs s s' s'' Hq Hst _ IH]; intros Hs c p Hp E; [split_and!; [done..|apply not_elem_of_nil]|].
  destruct (panicking_holds s c p Hs Hp (or_introl E)) as [Hh Hi].
  destruct (decide (d = c)) as [->|Hne]; [by simplify_eq; destruct (step_halted _ _ _ _ Hi E Hst)|].
  destruct (step_outside s c d q s' Hs Hh Hne Hq Hst) as (q' & -> & _).
  destruct (IH (panic_inv_step _ _ _ _ Hs Hq Hst) c p) as (? & Ho & Hc); [simpl; by rewrite list_lookup_insert_ne|done|].
  split_and!; [done|done|]. apply not_elem_of_cons. by split.
Qed.

(** The number of steps a CPU has made. *)
Definition turns (c : nat) (cs : list nat) : nat := length (filter (λ d, d = c) cs).

Lemma printing_steps cs s s' : steps cs s s' → inv s →
  ∀ c p t, cpus s !! c = Some p → now p = PPrint t →
  ∃ done rest p', t = done ++ rest ∧ output s' = output s ++ (pair c <$> done) ∧ cpus s' !! c = Some p' ∧
    (now p' = PPrint rest ∧ (turns c cs ≤ length t)%nat ∨ now p' = PHalt ∧ rest = []).
Proof.
  induction 1 as [|d q cs s s' s'' Hq Hst Hsts IH]; intros Hs c p t Hp E.
  { exists [], t, p. split_and!; [done|simpl; by rewrite app_nil_r|done|]. left. split; [done|]. unfold turns. simpl. lia. }
  destruct (panicking_holds s c p Hs Hp) as [Hh Hi]; [right; eauto|].
  pose proof (panic_inv_step _ _ _ _ Hs Hq Hst) as Hs'. destruct (decide (d = c)) as [->|Hne].
  - assert (q = p) as -> by congruence. destruct t as [|x t].
    + rewrite (step_printed _ _ _ _ Hi E Hst) in *. pose proof (lookup_lt_Some _ _ _ Hq).
      destruct (halted_steps _ _ _ Hsts Hs' c (go PHalt p)) as (Hp' & Ho & _); [|done|].
      { unfold broadcast, upd. simpl. rewrite list_lookup_imap, list_lookup_insert_eq by done. simpl.
        by destruct (decide (c = c)). }
      exists [], [], (go PHalt p). split_and!; [done| |done|by right]. simpl. by rewrite app_nil_r.
    + rewrite (step_printing _ _ _ _ _ _ Hi E Hst) in *. pose proof (lookup_lt_Some _ _ _ Hq).
      destruct (IH Hs' c (go (PPrint t) p) t) as (dn & rest & p' & -> & Ho & Hp' & Hc); [|done|].
      { simpl. by rewrite list_lookup_insert_eq. }
      exists (x :: dn), rest, p'. split_and!; [done| |done|].
      * rewrite Ho. simpl. by rewrite <-(assoc_L (++)).
      * destruct Hc as [[? ?]|?]; [left|by right]. split; [done|]. unfold turns in *. rewrite filter_cons_True by done. simpl. lia.
  - destruct (step_outside s c d q s' Hs Hh Hne Hq Hst) as (q' & -> & _).
    destruct (IH Hs' c p t) as (dn & rest & p' & ? & Ho & Hp' & Hc); [simpl; by rewrite list_lookup_insert_ne|done|].
    exists dn, rest, p'. split_and!; [done..|]. unfold turns in *. by rewrite filter_cons_False by done.
Qed.

(** ** The other CPUs *)

Definition all_requested (s : state) : Prop :=
  ∀ c p d q, cpus s !! c = Some p → now p = PHalt → d ≠ c → cpus s !! d = Some q →
    asked q = true ∧ (installed table IRQ_IPI_ABORT ipi = true → pend q = true).

(** A CPU gets to the end of a panic only by sending the request. *)
Lemma step_to_halt s d q s' c p' :
  inv s → cpus s !! d = Some q → step d q s s' → cpus s' !! c = Some p' → now p' = PHalt →
  (∃ p, cpus s !! c = Some p ∧ now p = PHalt) ∨ d = c ∧ s' = broadcast c (upd c (go PHalt q) s).
Proof.
  intros Hs Hq Hst Hp' E. pose proof (in_cpus _ Hs _ _ Hq) as [H0 Hbl _ _ _ _].
  assert (∀ r h o, cpus s' = <[d := r]> (cpus s) → holder s' = h → output s' = o → now r ≠ PHalt →
            ∃ p, cpus s !! c = Some p ∧ now p = PHalt) as Hupd.
  { intros r h o Er _ _ Hr. rewrite Er in Hp'. apply list_lookup_insert_Some in Hp' as [(-> & <- & _)|[_ ?]]; [done|eauto]. }
  destruct q as [a i pe bl ak]. simpl in *.
  destruct Hst as [Hi Hpe Hin|Hi Hpe Hin|s' Hg Hk|s' Hg Hk|t Hg Er|t Hg Er|b Hg Er|Hi Hpe|a' bs Hg Er Eb]; simpl in *; subst;
    try (left; by eapply Hupd).
  - left. eapply Hupd; [done..|]. simpl. intros ->. naive_solver.
  - left. unfold kprintf_step in Hk. destruct a as [|sv t|sv [|x t]|?|?|?| |]; simplify_eq/=; try (by eapply Hupd).
    destruct (holder s); simplify_eq/=. by eapply Hupd.
  - unfold panic_step in Hk. destruct a as [|?|?|t|t|[|x t]| |]; simplify_eq/=; try (left; by eapply Hupd).
    + destruct (holder s); simplify_eq/=. left. by eapply Hupd.
    + unfold broadcast, upd in Hp'. simpl in Hp'. rewrite list_lookup_imap in Hp'.
      destruct (decide (d = c)) as [->|Hne]; [by right|left]. rewrite list_lookup_insert_ne in Hp' by done.
      destruct (cpus s !! c) as [p|] eqn:Hp; [|done]. exists p. split; [done|].
      cbn [fmap option_fmap option_map] in Hp'. rewrite decide_False in Hp' by done. by injection Hp' as <-.
  - left. apply Forall_cons in Hbl as [Ha _]. eapply Hupd; [done..|]. simpl. by intros ->.
Qed.

Lemma all_requested_step s d q s' :
  inv s → all_requested s → cpus s !! d = Some q → step d q s s' → all_requested s'.
Proof.
  intros Hs Hr Hq Hst c p e r Hp E Hne Hr'.
  destruct (step_to_halt s d q s' c p Hs Hq Hst Hp E) as [(p0 & Hp0 & E0)|[-> ->]].
  - destruct (panicking_holds s c p0 Hs Hp0 (or_introl E0)) as [Hh Hi].
    destruct (decide (d = c)) as [->|Hdc]; [by simplify_eq; destruct (step_halted _ _ _ _ Hi E0 Hst)|].
    destruct (step_outside s c d q s' Hs Hh Hdc Hq Hst) as (q' & -> & Has & Hpe & _).
    simpl in Hr'. apply list_lookup_insert_Some in Hr' as [(-> & <- & _)|[_ Hr']]; [|exact (Hr c p0 e r Hp0 E0 Hne Hr')].
    destruct (Hr c p0 _ q Hp0 E0 Hne Hq) as [H1 H2]. split; [congruence|]. intros Hin. rewrite Hpe by done. auto.
  - unfold broadcast, upd in Hr'. simpl in Hr'. rewrite list_lookup_imap, list_lookup_insert_ne in Hr' by done.
    destruct (cpus s !! e); [|done]. cbn [fmap option_fmap option_map] in Hr'. rewrite decide_False in Hr' by done.
    by injection Hr' as <-.
Qed.

Lemma reachable_requested n s : reachable n s → all_requested s.
Proof.
  intros [cs H]. assert (all_requested (start n)) as H0.
  { intros c p d q [-> _]%lookup_replicate. done. }
  pose proof (panic_inv_start n) as Hi. revert H0 Hi. induction H as [|c p cs s s' s'' Hp Hst _ IH]; [done|].
  intros H0 Hi. apply IH; [by eapply all_requested_step|by eapply panic_inv_step].
Qed.

(** With interrupts on, a CPU at which the request waits does nothing else. *)
Lemma requested_stops s d q s' :
  pend q = true → irq q = true → step d q s s' →
  installed table IRQ_IPI_ABORT ipi = true ∧ s' = ipi_abort d q s ∨
  table !! Z.to_nat IRQ_IPI_ABORT = Some no_info ∧ s' = upd d (ignore q) s.
Proof. intros Hp Hi Hst. inversion Hst; try (rewrite ?Hp, ?Hi in *; done); auto. Qed.

(** A CPU that has waited for a lock it holds itself. *)
Definition waits_for_itself (s : state) (c : nat) : Prop :=
  ∃ p saved t, cpus s !! c = Some p ∧ now p = KWait saved t ∧ irq p = false ∧ holder s = Some c.

Lemma waits_forever cs s s' c : steps cs s s' → inv s → waits_for_itself s c → output s' = output s ∧ waits_for_itself s' c.
Proof.
  induction 1 as [|d q cs s s' s'' Hq Hst _ IH]; [done|]. intros Hs (p & sv & t & Hp & E & Hi & Hh).
  destruct (decide (d = c)) as [->|Hne].
  - assert (q = p) as -> by congruence. exfalso. inversion Hst as [| |? ? Hk|? ? Hk| | | | |]; try congruence.
    + unfold kprintf_step in Hk. by rewrite E, Hh in Hk.
    + unfold panic_step in Hk. by rewrite E in Hk.
  - pose proof (panic_inv_step _ _ _ _ Hs Hq Hst) as Hs'. destruct (step_outside s c d q s' Hs Hh Hne Hq Hst) as (q' & -> & _).
    apply (IH Hs'). exists p, sv, t. simpl. by rewrite list_lookup_insert_ne.
Qed.

Lemma reachable_steps n cs s s' : reachable n s → steps cs s s' → reachable n s'.
Proof. intros [cs0 H0] Hsts. exists (cs0 ++ cs). induction H0; [done|]. simpl. by econstructor; eauto. Qed.

(** One CPU has halted at the end of its panic: the others. *)
Lemma halted_others n s c p d q :
  reachable n s → cpus s !! c = Some p → now p = PHalt → d ≠ c → cpus s !! d = Some q →
  asked q = true ∧ now q ≠ PHalt ∧ (now q = Aborted → installed table IRQ_IPI_ABORT ipi = true) ∧
  (installed table IRQ_IPI_ABORT ipi = true → pend q = true).
Proof.
  intros Hr Hp E Hne Hq. pose proof (reachable_requested _ _ Hr c p d q Hp E Hne Hq) as [Ha Hpe].
  pose proof (reachable_inv _ _ Hr) as Hs. split_and!; [done| |exact (co_table _ _ _ (in_cpus _ Hs _ _ Hq))|done]. intros Eq.
  destruct (panicking_holds _ _ _ Hs Hp (or_introl E)) as [? _].
  destruct (panicking_holds _ _ _ Hs Hq (or_introl Eq)) as [? _]. congruence.
Qed.
End Table.

(** ** Theorems *)

(** C23: On any number of CPUs that print, panic and interrupt each other in
    any order, once a panicking CPU has turned its interrupts off, its text
    [t] comes out whole: what is printed from then on is a prefix of [t] and
    nothing of anyone else, and after at most one more step of its own than
    [t] has characters it has sent the others the request to stop and halted;
    from then on the console is silent.  What the others do with the request
    depends on the table of handlers: where [ipi_abort] is installed the
    request stays with each of them until it has interrupts on, and the next
    thing it then does is to stop; with the table the kernel sets up, which
    has no handler at that vector, no CPU is stopped: each acknowledges the
    request and goes on with what it did. *)
Theorem panic_takes_over table ipi n s c p t cs s' :
  reachable table ipi n s → cpus s !! c = Some p → now p = PPrint t → steps table ipi cs s s' →
  (∃ done rest, t = done ++ rest ∧ output s' = output s ++ (pair c <$> done)) ∧
  ((length t < turns c cs)%nat → ∃ p', cpus s' !! c = Some p' ∧ now p' = PHalt ∧ output s' = output s ++ (pair c <$> t)) ∧
  (∀ p' d q, cpus s' !! c = Some p' → now p' = PHalt → d ≠ c → cpus s' !! d = Some q →
     asked q = true ∧ now q ≠ PHalt ∧
     (installed table IRQ_IPI_ABORT ipi = true →
        pend q = true ∧ (irq q = true → ∀ s'', step table ipi d q s' s'' → s'' = ipi_abort d q s')) ∧
     (∀ timer kbd kvec, table = startup_table timer kbd kvec → 0 ≤ kvec → kvec ≠ IRQ_IPI_ABORT →
        now q ≠ Aborted ∧
        (pend q = true → irq q = true → ∀ s'', step table ipi d q s' s'' ↔ s'' = upd d (ignore q) s'))).
Proof.
  intros Hr Hp E Hsts. pose proof (reachable_inv _ _ _ _ Hr) as Hs.
  destruct (printing_steps _ _ _ _ _ Hsts Hs c p t Hp E) as (dn & rest & p' & -> & Ho & Hp' & Hc).
  pose proof (reachable_steps _ _ _ _ _ _ Hr Hsts) as Hr'. split; [by exists dn, rest|]. split.
  - intros Hlt. exists p'. destruct Hc as [[_ ?]|[E' ->]]; [lia|]. rewrite app_nil_r. done.
  - intros p1 d q Hp1 E1 Hne Hq. destruct (halted_others _ _ _ _ _ _ _ _ Hr' Hp1 E1 Hne Hq) as (Ha & Hn & Hab & Hpe).
    split_and!; [done|done| |].
    + intros Hin. split; [auto|]. intros Hi s'' Hst.
      destruct (requested_stops _ _ _ _ _ _ (Hpe Hin) Hi Hst) as [[_ ->]|[Hno _]]; [done|].
      unfold installed in Hin. by rewrite Hno in Hin.
    + intros timer kbd kvec -> Hk Hv. destruct (startup_ipi timer kbd kvec IRQ_IPI_ABORT ipi Hk) as [Ht Hin]; [left|done|].
      split; [intros Eq; apply Hab in Eq; congruence|]. intros Hpq Hi s''. split.
      * intros [[? _]|[_ ->]]%requested_stops; [congruence|done..].
      * intros ->. by apply step_ignore.
Qed.

(** ** A panic that is lost

    An interrupt between taking the lock and turning interrupts off loses the
    panic: a handler that prints waits for the lock its own CPU holds, and
    nobody ever prints again. *)

Module PanicSmpDemo.
(** CPU 0 panics with the text "!"; an interrupt arrives before [cli], and its
    handler prints. *)
Definition kernel_table : list isr_info := startup_table 0x1000 0x2000 0x31.
Definition p1 : cpu := mk_cpu Run true false [] false.
Definition s1 : state := upd 0 (go (PWait [33]) p1) (start 2).
Definition s2 : state := upd_holder (Some 0%nat) (upd 0 (go (PHeld [33]) p1) s1).
Definition s3 : state := upd 0 (mk_cpu Run false false [PHeld [33]] false) s2.
Definition s4 : state := upd 0 (mk_cpu (KWait false [46]) false false [PHeld [33]] false) s3.
Definition t3 : state := upd 0 (set_irq false (go (PPrint [33]) p1)) s2.
Definition t4 : state := emit 0 33 (upd 0 (set_irq false (go (PPrint []) p1)) t3).
Definition t5 : state := broadcast 0 (upd 0 (set_irq false (go PHalt p1)) t4).

Section Runs.
Context (table : list isr_info) (ipi : Z).

Lemma lost : steps table ipi [0%nat; 0%nat; 0%nat; 0%nat] (start 2) s4.
Proof.
  eapply (steps_cons _ _ _ p1 _ _ s1); [done|by apply step_fail|].
  eapply (steps_cons _ _ _ (go (PWait [33]) p1) _ _ s2); [done|by apply step_panic|].
  eapply (steps_cons _ _ _ (go (PHeld [33]) p1) _ _ s3); [done|by apply step_interrupt|].
  eapply (steps_cons _ _ _ (mk_cpu Run false false [PHeld [33]] false) _ _ s4);
    [done|by apply (step_call _ _ 0 (mk_cpu Run false false [PHeld [33]] false) s3 [46])|]. constructor.
Qed.

Lemma printing : reachable table ipi 2 t3.
Proof.
  exists [0%nat; 0%nat; 0%nat]. eapply (steps_cons _ _ _ p1 _ _ s1); [done|by apply step_fail|].
  eapply (steps_cons _ _ _ (go (PWait [33]) p1) _ _ s2); [done|by apply step_panic|].
  eapply (steps_cons _ _ _ (go (PHeld [33]) p1) _ _ t3); [done|by apply step_panic|]. constructor.
Qed.

Lemma takes_over : steps table ipi [0%nat; 0%nat] t3 t5.
Proof.
  eapply (steps_cons _ _ _ (set_irq false (go (PPrint [33]) p1)) _ _ t4); [done|by apply step_panic|].
  eapply (steps_cons _ _ _ (set_irq false (go (PPrint []) p1)) _ _ t5); [done|by apply step_panic|]. constructor.
Qed.
End Runs.
End PanicSmpDemo.

(** A panic can be lost: there is a run after which the text of the panic is
    never printed, whatever happens. *)
Theorem panic_can_be_lost table ipi :
  ∃ s, reachable table ipi 2 s ∧ below <$> cpus s !! 0%nat = Some [PHeld [33]] ∧ ∀ cs s', steps table ipi cs s s' → output s' = [].
Proof.
  exists PanicSmpDemo.s4. assert (reachable table ipi 2 PanicSmpDemo.s4) as Hr by (eexists; apply PanicSmpDemo.lost).
  split; [done|]. split; [done|]. intros cs s' Hs.
  destruct (waits_forever _ _ cs _ _ 0 Hs (reachable_inv _ _ _ _ Hr)) as [-> _]; [|done].
  by exists (mk_cpu (KWait false [46]) false false [PHeld [33]] false), false, [46].
Qed.

(** With the kernel's table the second CPU goes on. *)
Lemma panic_takes_over_witness :
  output PanicSmpDemo.t5 = [(0%nat, 33)] ∧
  ∃ q, cpus PanicSmpDemo.t5 !! 1%nat = Some q ∧ asked q = true ∧
    ∀ s'', step PanicSmpDemo.kernel_table 0x7000 1 q PanicSmpDemo.t5 s'' ↔ s'' = upd 1 (ignore q) PanicSmpDemo.t5.
Proof.
  destruct (panic_takes_over PanicSmpDemo.kernel_table 0x7000 2 PanicSmpDemo.t3 0 (set_irq false (go (PPrint [33]) PanicSmpDemo.p1)) [33]
    [0%nat; 0%nat] PanicSmpDemo.t5 (PanicSmpDemo.printing _ _) eq_refl eq_refl (PanicSmpDemo.takes_over _ _)) as (_ & H & Hothers).
  split; [destruct H as (p' & _ & _ & ->); [by vm_compute; lia|done]|].
  eexists. split; [reflexivity|]. destruct (Hothers _ 1%nat _ eq_refl eq_refl ltac:(done) eq_refl) as (Ha & _ & _ & Hk).
  split; [exact Ha|]. apply (Hk 0x1000 0x2000 0x31); vm_compute; done.
Defined.
