(* ===== verification/Dump.v ===== *)
(** * Diagnostic output

    The functions that print what the kernel has found: [vmm_dump_tables] of
    kernel/mm/vmm.c, [mmap_dump_info] of kernel/mm/mmap.c and [print_table] of
    kernel/drivers/acpi/acpi.c, over the page tables of Vmm.v, the memory map
    of Mmap.v and the printer of Printf.v.  [VERBOSE] is the build option. *)

From stdpp Require Import base list gmap strings.
From Stdlib Require Import ZArith Lia Bool.
From S2P Require Import Percpu Addr Strings Acpi AcpiSpec Pmm Mmap Vmm Console Printf Panic Prelude.
Local Open Scope Z_scope.

Record dst (S : Type) := mk_dst { d_vm : vstate; d_prn : printer S }.
Arguments mk_dst {S} _ _.
Arguments d_vm {S} _.
Arguments d_prn {S} _.

(** The formats. *)
Definition p3_format : list Z := codes "P3: %lx" ++ [10].
Definition p2_format : list Z := [9] ++ codes "P2: %lx" ++ [10].
Definition p1_format : list Z := [9; 9] ++ codes "P1: %p -> %p, %lx" ++ [10].
Definition p0_format : list Z := [9; 9; 9] ++ codes "Page: %p -> %p, %lx" ++ [10].

Section dump.
Context {BC : BuildConfig} {S : Type} {CS : CharSink S} (VERBOSE : bool).

Abbreviation D := (M (dst S)).

Definition on_vm {A} (m : M vstate A) : D A := zoom d_vm (λ v s, mk_dst v (d_prn s)) m.
Definition on_prn {A} (m : M (printer S) A) : D A := zoom d_prn (λ p s, mk_dst (d_vm s) p) m.
Definition say (fmt : list Z) (args : list arg) : D unit := on_prn (kprintf fmt args);; mret tt.

(** A loop over the entries of a table. *)
Fixpoint rounds (l : list Z) (body : Z → D unit) : D unit :=
  match l with [] => mret tt | i :: l => body i;; rounds l body end.

Definition dump_page_tables_p0 (p0 addr_bits : Z) : D unit :=
  rounds (seqZ 0 512) (λ i,
    e ← on_vm (rd_pte p0 i);
    if Z.land e PTE_ADDR_MASK =? 0 then mret tt
    else say p0_format [Num (Z.lor addr_bits (Z.shiftl i 12)); Num (Z.land e PTE_ADDR_MASK); Num (Z.land e (not64 PTE_ADDR_MASK))]).

Definition dump_page_tables_p1 (p2 addr_bits : Z) : D unit :=
  rounds (seqZ 0 512) (λ i,
    pgtab ← on_vm (pgtab_extract_virt_addr p2 i);
    if pgtab =? NULL then mret tt
    else
      let first_virt := Z.lor addr_bits (Z.shiftl i 21) in
      e0 ← on_vm (rd_pte pgtab 0);
      let first_phys := Z.land e0 PTE_ADDR_MASK in
      e ← on_vm (rd_pte p2 i);
      say p1_format [Num first_virt; Num first_phys; Num (Z.land e (not64 PTE_ADDR_MASK))]).

Definition dump_page_tables_p2 (p3 addr_bits : Z) : D unit :=
  rounds (seqZ 0 512) (λ i,
    pgtab ← on_vm (pgtab_extract_virt_addr p3 i);
    if pgtab =? NULL then mret tt
    else
      e ← on_vm (rd_pte p3 i);
      say p2_format [Num (Z.land e (not64 PTE_ADDR_MASK))];;
      dump_page_tables_p1 pgtab (Z.lor addr_bits (Z.shiftl i 30))).

Definition DUMP_PREFIX : Z := 0xFFFF000000000000.

Definition vmm_dump_tables (mmu : Z) : D unit :=
  on_vm (read_spin_lock mmu);;
  rounds (seqZ 0 (Z.shiftl 1 7)) (λ i,
    m ← on_vm (rd_mpt mmu);
    pgtab ← on_vm (pgtab_extract_virt_addr (m_p4 m) i);
    if pgtab =? NULL then mret tt
    else
      m ← on_vm (rd_mpt mmu);
      e ← on_vm (rd_pte (m_p4 m) i);
      say p3_format [Num (Z.land e (not64 PTE_ADDR_MASK))];;
      dump_page_tables_p2 pgtab (Z.lor DUMP_PREFIX (Z.shiftl i 39)));;
  on_vm (read_spin_unlock mmu).

(** ** mmap.c *)

Fixpoint dump_regions (l : list mmap_region) : M (printer S) unit :=
  match l with
  | [] => mret tt
  | r :: l => klog (codes "mmap") (codes "  Region base %p, len %zu" ++ [10]) [Num (base r); Num (len r)];; dump_regions l
  end.

Definition mmap_dump_info (m : mmap) : M (printer S) unit :=
  klog (codes "mmap") (codes "Highest mapped physical page is %p" ++ [10]) [Num (highest_mapped m)];;
  if VERBOSE then
    klog (codes "mmap") (codes "Available:" ++ [10]) [];;
    dump_regions (take (Z.to_nat (mcount (available m))) (regions (available m)));;
    klog (codes "mmap") (codes "Reserved:" ++ [10]) [];;
    dump_regions (take (Z.to_nat (mcount (reserved m))) (regions (reserved m)))
  else mret tt.

(** ** acpi.c *)

(** The fields of [struct acpi_header] as they lie in memory. *)
Record acpi_header := mk_acpi_header {
  h_signature : list Z; h_length : Z; h_revision : Z; h_oem_id : list Z; h_oem_table_id : list Z; h_oem_revision : Z;
  h_creator_id : list Z; h_creator_revision : Z
}.

Definition read_header (hd : Z) : B acpi_header :=
  sig ← ld_all 4 hd; len ← ld32 (hd + 4); rev ← ld (hd + 8); oem ← ld_all 6 (hd + 10); tab ← ld_all 8 (hd + 16);
  oem_rev ← ld32 (hd + 24); creator ← ld_all 4 (hd + 28); creator_rev ← ld32 (hd + 32);
  mret (mk_acpi_header sig len rev oem tab oem_rev creator creator_rev).

Definition klog_verbose (mod_ msg : list Z) (args : list arg) : M (printer S) unit :=
  if VERBOSE then klog mod_ msg args else mret tt.

Definition print_table (hd : Z) (h : acpi_header) : M (printer S) unit :=
  klog (codes "acpi") (codes "%c%c%c%c at %p, OEM %c%c%c%c%c%c" ++ [10])
    ((Num <$> h_signature h) ++ [Num (virt_to_phys hd)] ++ (Num <$> h_oem_id h));;
  klog_verbose (codes "acpi") (codes "  Length: %u" ++ [10]) [Num (h_length h)];;
  klog_verbose (codes "acpi") (codes "  Revision: %u" ++ [10]) [Num (h_revision h)];;
  klog_verbose (codes "acpi") (codes "  OEM Table ID: %c%c%c%c%c%c%c%c" ++ [10]) (Num <$> h_oem_table_id h);;
  klog_verbose (codes "acpi") (codes "  OEM Revision: %u" ++ [10]) [Num (h_oem_revision h)];;
  klog_verbose (codes "acpi") (codes "  Creator ID: %c%c%c%c" ++ [10]) (Num <$> h_creator_id h);;
  klog_verbose (codes "acpi") (codes "  Creator Revision: %u" ++ [10]) [Num (h_creator_revision h)].
End dump.

(** ** What is printed *)

Lemma format_text_app ps qs t u : format_text ps t → format_text qs u → format_text (ps ++ qs) (t ++ u).
Proof.
  revert t. induction ps as [|p ps IH]; intros t; simpl; [by intros ->|]. intros (t1 & t2 & -> & H1 & H2) Hq.
  exists t1, (t2 ++ u). rewrite (assoc_L (++)). auto.
Qed.

Section spec.
Context {BC : BuildConfig} {S : Type} {CS : CharSink S} {CL : CharSinkLaws S}.
Implicit Types s : dst S.

(** The console is free. *)
Definition ready (p : printer S) : Prop := sink_ok (sink p) ∧ kprintf_lock p = 0.

(** The pieces [ps] came out between two states of the printer. *)
Definition printed (ps : list piece) (p p' : printer S) : Prop :=
  ready p' ∧ irq_on p' = irq_on p ∧ ∃ t, format_text ps t ∧ wrote t (sink p) (sink p').

Lemma printed_nil p : ready p → printed [] p p.
Proof using Type. intros H. split; [done|]. split; [done|]. exists []. split; [done|]. apply wrote_nil, H. Qed.

Lemma printed_app ps qs p p' p'' : printed ps p p' → printed qs p' p'' → printed (ps ++ qs) p p''.
Proof using Type.
  intros (_ & E1 & t & Ht & W1) (R & E2 & u & Hu & W2). split; [done|]. split; [by rewrite E2|]. exists (t ++ u).
  split; [by apply format_text_app|by eapply wrote_trans].
Qed.

(** An operation that prints [ps] and leaves the memory [v] alone. *)
Definition prints (v : vstate) (m : M (dst S) unit) (ps : list piece) : Prop :=
  ∀ s, d_vm s = v → ready (d_prn s) → wp m s (λ _ s', d_vm s' = v ∧ printed ps (d_prn s) (d_prn s')).

Lemma prints_ret v : prints v (mret tt) [].
Proof using Type. intros s <- Hr. apply wp_ret. split; [done|by apply printed_nil]. Qed.

Lemma prints_seq v m k ps qs : prints v m ps → prints v k qs → prints v (m;; k) (ps ++ qs).
Proof using Type.
  intros Hm Hk s Hs Hr. eapply wp_seq; [by apply Hm|]. intros _ s1 [E1 P1].
  eapply wp_mono; [apply Hk; [done|apply P1]|]. intros _ s2 [E2 P2]. split; [done|by eapply printed_app].
Qed.

Lemma prints_say v ps : Forall piece_ok ps → prints v (say (concat (piece_fmt <$> ps)) (concat (piece_args <$> ps))) ps.
Proof using CL.
  intros Hps s <- [Hk Hl]. unfold say, on_prn. apply wp_bind, (wp_zoom d_prn), wp_kprintf; [done..|].
  intros k t p' Ht W. apply wp_ret. split; [done|]. split; [split; [apply W|done]|]. split; [done|]. by exists t.
Qed.

(** A value read from the memory. *)
Lemma prints_read {A} v (m : M vstate A) x k ps :
  m v = Ok (x, v) → prints v (k x) ps → prints v (y ← on_vm m; k y) ps.
Proof using Type.
  intros E Hk s Hs Hr. unfold on_vm. apply wp_bind. unfold wp, zoom. rewrite Hs, E.
  replace (mk_dst v (d_prn s)) with s by (destruct s; simpl in *; by subst). by apply Hk.
Qed.

Lemma prints_rounds v l body (f : Z → list piece) :
  (∀ i, i ∈ l → prints v (body i) (f i)) → prints v (rounds l body) (concat (f <$> l)).
Proof using Type.
  induction l as [|i l IH]; intros H; [apply prints_ret|]. simpl. apply prints_seq; [apply H; left|]. apply IH. intros; apply H. by right.
Qed.

(** ** The tables *)

Section tables.
Context (v : vstate).

Definition entry (tab i : Z) : Z := default 0 (pt v !! tab_phys tab ≫= (λ l, l !! Z.to_nat i)).
Definition below (tab i : Z) : Z :=
  if Z.land (entry tab i) PAGE_PRESENT =? 0 then NULL else phys_to_virt (Z.land (entry tab i) PTE_ADDR_MASK).
Definition flags_of (e : Z) : Z := Z.land e (not64 PTE_ADDR_MASK).

(** A table of the level: the tables its present entries lead to are tables of
    the next level. *)
Fixpoint table_ok (level : nat) (tab : Z) : Prop :=
  tab ≠ NULL ∧ (∃ l, pt v !! tab_phys tab = Some l ∧ length l = 512%nat) ∧
  match level with
  | O => True
  | Datatypes.S level => ∀ i, 0 ≤ i < 512 → below tab i ≠ NULL → table_ok level (below tab i)
  end.

Definition line (indent : list Z) (label : list Z) (ps : list piece) : list piece := lits (indent ++ label) ++ ps ++ [PLit 10].

Definition p1_line (addr i tab e : Z) : list piece :=
  line [9; 9] (codes "P1: ") ([PPtr (Z.lor addr (Z.shiftl i 21))] ++ lits (codes " -> ") ++ [PPtr (Z.land (entry tab 0) PTE_ADDR_MASK)]
    ++ lits (codes ", ") ++ [PHex WL (flags_of e)]).
Definition p1_pieces (p2 addr : Z) : list piece :=
  concat ((λ i, if below p2 i =? NULL then [] else p1_line addr i (below p2 i) (entry p2 i)) <$> seqZ 0 512).
Definition p2_pieces (p3 addr : Z) : list piece :=
  concat ((λ i, if below p3 i =? NULL then []
                else line [9] (codes "P2: ") [PHex WL (flags_of (entry p3 i))] ++ p1_pieces (below p3 i) (Z.lor addr (Z.shiftl i 30)))
          <$> seqZ 0 512).
Definition p3_pieces (p4 : Z) : list piece :=
  concat ((λ i, if below p4 i =? NULL then []
                else line [] (codes "P3: ") [PHex WL (flags_of (entry p4 i))] ++ p2_pieces (below p4 i) (Z.lor DUMP_PREFIX (Z.shiftl i 39)))
          <$> seqZ 0 128).

Lemma rd_entry level tab i : table_ok level tab → 0 ≤ i < 512 → rd_pte tab i v = Ok (entry tab i, v).
Proof using Type.
  intros Ht Hi. assert (tab ≠ NULL ∧ ∃ l, pt v !! tab_phys tab = Some l ∧ length l = 512%nat) as (H0 & l & Hl & Hlen) by by destruct level; naive_solver.
  unfold rd_pte, entry. cbv [mbind M_bind get]. rewrite (proj2 (Z.eqb_neq _ _) H0), Hl. simpl.
  destruct (lookup_lt_is_Some_2 l (Z.to_nat i)) as [e He]; [lia|]. by rewrite He.
Qed.

Lemma extract_below level tab i : table_ok level tab → 0 ≤ i < 512 → pgtab_extract_virt_addr tab i v = Ok (below tab i, v).
Proof using Type.
  intros Ht Hi. unfold pgtab_extract_virt_addr, below. cbv [mbind M_bind]. by rewrite (rd_entry level).
Qed.

Lemma pieces_hex x : piece_ok (PHex WL x).
Proof using Type. done. Qed.

Lemma p1_prints p2 addr : table_ok 1 p2 → prints v (dump_page_tables_p1 p2 addr) (p1_pieces p2 addr).
Proof using CL.
  intros Ht. apply prints_rounds. intros i Hi%elem_of_seqZ.
  apply (prints_read v _ (below p2 i)); [by apply (extract_below 1); [|lia]|].
  destruct (Z.eqb_spec (below p2 i) NULL) as [|Hb]; [apply prints_ret|]. cbv zeta.
  apply (prints_read v _ (entry (below p2 i) 0)).
  { apply (rd_entry 0); [|lia]. destruct Ht as (_ & _ & Hn). by apply Hn; [lia|]. }
  apply (prints_read v _ (entry p2 i)); [by apply (rd_entry 1); [|lia]|].
  apply (prints_say v (p1_line addr i (below p2 i) (entry p2 i))).
  unfold p1_line, line. rewrite !Forall_app. split_and!; try closed_lits; by repeat constructor.
Qed.

Lemma p2_prints p3 addr : table_ok 2 p3 → prints v (dump_page_tables_p2 p3 addr) (p2_pieces p3 addr).
Proof using CL.
  intros Ht. apply prints_rounds. intros i Hi%elem_of_seqZ.
  apply (prints_read v _ (below p3 i)); [by apply (extract_below 2); [|lia]|].
  destruct (Z.eqb_spec (below p3 i) NULL) as [|Hb]; [apply prints_ret|].
  apply (prints_read v _ (entry p3 i)); [by apply (rd_entry 2); [|lia]|]. apply prints_seq.
  - apply (prints_say v (line [9] (codes "P2: ") [PHex WL (flags_of (entry p3 i))])).
    unfold line. rewrite !Forall_app. split_and!; try closed_lits; by repeat constructor.
  - apply p1_prints. destruct Ht as (_ & _ & Hn). by apply Hn; [lia|].
Qed.
End tables.

(** Only the tables matter. *)
Lemma p3_pieces_ext v v' p4 : pt v' = pt v → p3_pieces v p4 = p3_pieces v' p4.
Proof using Type. intros E. unfold p3_pieces, p2_pieces, p1_pieces, p1_line, below, entry. by rewrite E. Qed.

(** The loop of [vmm_dump_tables], with the lock held. *)
Lemma p4_prints v mmu m :
  mpts v !! mmu = Some m → mmu ≠ NULL → table_ok v 3 (m_p4 m) →
  prints v (rounds (seqZ 0 (Z.shiftl 1 7)) (λ i,
    m ← on_vm (rd_mpt mmu);
    pgtab ← on_vm (pgtab_extract_virt_addr (m_p4 m) i);
    if pgtab =? NULL then mret tt
    else
      m ← on_vm (rd_mpt mmu);
      e ← on_vm (rd_pte (m_p4 m) i);
      say p3_format [Num (Z.land e (not64 PTE_ADDR_MASK))];;
      dump_page_tables_p2 pgtab (Z.lor DUMP_PREFIX (Z.shiftl i 39)))) (p3_pieces v (m_p4 m)).
Proof using CL.
  intros Hm H0 Ht. assert (rd_mpt mmu v = Ok (m, v)) as Hrd.
  { unfold rd_mpt, deref. by rewrite (proj2 (Z.eqb_neq _ _) H0), Hm. }
  apply prints_rounds. intros i Hi%elem_of_seqZ. change (Z.shiftl 1 7) with 128 in Hi.
  apply (prints_read v _ m); [done|]. apply (prints_read v _ (below v (m_p4 m) i)); [by apply (extract_below v 3); [|lia]|].
  destruct (Z.eqb_spec (below v (m_p4 m) i) NULL) as [|Hb]; [apply prints_ret|].
  apply (prints_read v _ m); [done|]. apply (prints_read v _ (entry v (m_p4 m) i)); [by apply (rd_entry v 3); [|lia]|]. apply prints_seq.
  - apply (prints_say v (line [] (codes "P3: ") [PHex WL (flags_of (entry v (m_p4 m) i))])).
    unfold line. rewrite !Forall_app. split_and!; try closed_lits; by repeat constructor.
  - apply p2_prints. destruct Ht as (_ & _ & Hn). by apply Hn; [lia|].
Qed.

(** With the locks of the address space free, vmm_dump_tables prints a line for
    each of the first 128 entries of the top table that is present and for
    every table below it, in order, and leaves memory, tables and locks as they
    were. *)
Theorem vmm_dump_tables_correct s mmu m :
  mpts (d_vm s) !! mmu = Some m → mmu ≠ NULL → readers m = 0 → rd_lock m = 0 → wr_lock m = 0 →
  table_ok (d_vm s) 3 (m_p4 m) → ready (d_prn s) →
  wp (vmm_dump_tables mmu) s (λ _ s', d_vm s' = d_vm s ∧ printed (p3_pieces (d_vm s) (m_p4 m)) (d_prn s) (d_prn s')).
Proof using CL.
  intros Hm H0 Hr Hrd Hwr Ht Hp. destruct s as [v p]. simpl in *. destruct m as [p4 us rd rl wl]. simpl in *. subst rd rl wl.
  set (m1 := mk_mpt p4 us 1 0 1). set (v1 := upd_mpts <[mmu := m1]> v).
  assert (read_spin_lock mmu v = Ok (tt, v1)) as Hlock.
  { unfold read_spin_lock, lock_rd, write_spin_lock, rd_mpt, wr_mpt, store, deref, modify. cbv [mbind M_bind].
    repeat (simpl; rewrite ?(proj2 (Z.eqb_neq _ _) H0), ?Hm, ?lookup_insert_eq). simpl. unfold v1, upd_mpts. simpl.
    by rewrite !insert_insert_eq. }
  assert (read_spin_unlock mmu v1 = Ok (tt, v)) as Hunlock.
  { unfold read_spin_unlock, lock_rd, write_spin_unlock, rd_mpt, wr_mpt, store, deref, modify. cbv [mbind M_bind].
    repeat (simpl; rewrite ?(proj2 (Z.eqb_neq _ _) H0), ?lookup_insert_eq). simpl. unfold v1, upd_mpts. simpl.
    rewrite !insert_insert_eq. rewrite insert_id by done. by destruct v. }
  unfold vmm_dump_tables. unfold on_vm at 1. apply wp_bind, (wp_zoom d_vm). unfold wp at 1. cbn [d_vm]. rewrite Hlock.
  eapply wp_seq; [apply (p4_prints v1 mmu m1); [simpl; by rewrite lookup_insert_eq|done|exact Ht|done|exact Hp]|].
  intros _ [v2 p2] [E P]. simpl in E, P. subst v2. apply (wp_zoom d_vm). unfold wp. cbn [d_vm]. rewrite Hunlock.
  split; [done|]. cbn [d_prn]. by rewrite (p3_pieces_ext v v1).
Qed.

(** ** Messages *)

(** The same for operations on the printer alone. *)
Definition logs (m : M (printer S) unit) (ps : list piece) : Prop := ∀ p, ready p → wp m p (λ _ p', printed ps p p').

Lemma logs_seq m k ps qs : logs m ps → logs k qs → logs (m;; k) (ps ++ qs).
Proof using Type.
  intros Hm Hk p Hr. eapply wp_seq; [exact (Hm p Hr)|]. intros [] p1 P1. eapply wp_mono; [apply Hk, P1|]. intros [] p2 P2. by eapply printed_app.
Qed.
Lemma logs_ret : logs (mret tt) [].
Proof using Type. intros p Hr. by apply wp_ret, printed_nil. Qed.

(** A message: [mod: ] and the text. *)
Lemma logs_klog mod_ ps :
  Forall piece_ok (lits mod_) → Forall piece_ok ps →
  logs (klog mod_ (concat (piece_fmt <$> ps)) (concat (piece_args <$> ps))) (lits (mod_ ++ codes ": ") ++ ps).
Proof using CL.
  intros Hm Hps p [Hs Hl]. unfold klog. wp_steps.
  assert (∀ l, concat (piece_fmt <$> lits l) = l ∧ concat (piece_args <$> lits l) = []) as Hlits.
  { induction l as [|c l [IH1 IH2]]; [done|]. unfold lits in *. rewrite !fmap_cons. split; [|exact IH2].
    change (c :: concat (piece_fmt <$> (PLit <$> l)) = c :: l). by rewrite IH1. }
  destruct (Hlits (mod_ ++ codes ": ")) as [E1 E2].
  replace (mod_ ++ codes ": " ++ concat (piece_fmt <$> ps)) with (concat (piece_fmt <$> lits (mod_ ++ codes ": ") ++ ps))
    by (by rewrite fmap_app, concat_app, E1, <-(assoc_L (++))).
  replace (concat (piece_args <$> ps)) with (concat (piece_args <$> lits (mod_ ++ codes ": ") ++ ps))
    by (by rewrite fmap_app, concat_app, E2).
  apply wp_bind, wp_kprintf; [done..| |].
  { unfold lits. rewrite fmap_app, !Forall_app. split_and!; [done|by repeat constructor|done]. }
  intros k t s' Ht W. apply wp_ret. split; [split; [apply W|done]|]. split; [done|]. by exists t.
Qed.

Definition message (ps : list piece) : list piece := lits (codes "mmap: ") ++ ps.
Definition region_pieces (r : mmap_region) : list piece :=
  message (lits (codes "  Region base ") ++ [PPtr (base r)] ++ lits (codes ", len ") ++ [PUns WZ (len r); PLit 10]).
Definition map_pieces (VERBOSE : bool) (m : mmap) : list piece :=
  message (lits (codes "Highest mapped physical page is ") ++ [PPtr (highest_mapped m); PLit 10]) ++
  (if VERBOSE then
     message (lits (codes "Available:") ++ [PLit 10]) ++ concat (region_pieces <$> take (Z.to_nat (mcount (available m))) (regions (available m))) ++
     message (lits (codes "Reserved:") ++ [PLit 10]) ++ concat (region_pieces <$> take (Z.to_nat (mcount (reserved m))) (regions (reserved m)))
   else []).

Lemma mmap_mod : Forall piece_ok (lits (codes "mmap")).
Proof using Type. closed_lits. Qed.

Lemma logs_regions l : logs (dump_regions l) (concat (region_pieces <$> l)).
Proof using CL.
  induction l as [|r l IH]; [apply logs_ret|]. rewrite fmap_cons. cbn [dump_regions concat]. apply (logs_seq _ _ (region_pieces r)); [|done].
  apply (logs_klog (codes "mmap") (lits (codes "  Region base ") ++ [PPtr (base r)] ++ lits (codes ", len ") ++ [PUns WZ (len r); PLit 10])); [apply mmap_mod|].
  rewrite !Forall_app. split_and!; try closed_lits; by repeat constructor.
Qed.

(** mmap_dump_info prints the highest mapped page and, in a verbose build, every
    region of both arrays in order. *)
Theorem mmap_dump_info_correct VERBOSE m p :
  ready p → wp (mmap_dump_info VERBOSE m) p (λ _ p', printed (map_pieces VERBOSE m) p p').
Proof using CL.
  revert p. change (logs (mmap_dump_info VERBOSE m) (map_pieces VERBOSE m)). unfold map_pieces, mmap_dump_info. apply logs_seq.
  - apply (logs_klog (codes "mmap") (lits (codes "Highest mapped physical page is ") ++ [PPtr (highest_mapped m); PLit 10])); [apply mmap_mod|].
    rewrite !Forall_app. split; [closed_lits|by repeat constructor].
  - destruct VERBOSE; [|apply logs_ret]. apply logs_seq; [|apply logs_seq; [apply logs_regions|apply logs_seq; [|apply logs_regions]]].
    + apply (logs_klog (codes "mmap") (lits (codes "Available:") ++ [PLit 10])); [apply mmap_mod|].
      rewrite Forall_app. split; [closed_lits|by repeat constructor].
    + apply (logs_klog (codes "mmap") (lits (codes "Reserved:") ++ [PLit 10])); [apply mmap_mod|].
      rewrite Forall_app. split; [closed_lits|by repeat constructor].
Qed.
End spec.
