(* ===== verification/Schedule.v ===== *)
(** * Scheduler: [schedule]

    An invariant of the whole system (queues, currents, idle tasks, address
    spaces) that [schedule] of kernel/proc/sched.c preserves, and what it picks. *)

From stdpp Require Import base list gmap.
From Stdlib Require Import ZArith Lia Bool Sorting.Sorted.
From S2P Require Import Prelude RbModel RbTree RbRepr RbSpec Addr Cpuset Sched SchedInv RunQueue.
Local Open Scope Z_scope.

(** ** The invariant *)

Record task_ok (s : kstate) (t : Z) (tk : task) : Prop := {
  tk_ne : t ≠ NULL;
  tk_valid : valid (node_of t);
  tk_node : is_Some (knodes s !! node_of t);
  tk_mmu : is_Some (mmus s !! t_mmu tk);
}.

Record sys_inv (s : kstate) (Qs : gmap Z (list Z)) : Prop := {
  si_queues : queues s Qs;
  si_cpus : cpus_ok s Qs;
  si_tasks : ∀ t tk, tasks s !! t = Some tk → task_ok s t tk;
  si_queued : ∀ t, queued Qs t → ∃ tk, tasks s !! t = Some tk ∧
    tid tk ≠ TID_IDLE ∧ t_state tk = TASK_S_RUNNABLE;
  si_current : ∀ i pi, percpu_table s !! i = Some pi → ∃ tk, tasks s !! current_task pi = Some tk ∧
    (¬ queued Qs (current_task pi)) ∧ (tid tk ≠ TID_IDLE → t_state tk = TASK_S_RUNNABLE);
  si_distinct : ∀ i j pi pj tk, percpu_table s !! i = Some pi → percpu_table s !! j = Some pj → i ≠ j →
    current_task pi = current_task pj → tasks s !! current_task pi = Some tk → tid tk = TID_IDLE;
  si_idle : ∀ i pi q, percpu_table s !! i = Some pi → runqs s !! run_queue pi = Some q → ∃ tk,
    tasks s !! rq_idle q = Some tk ∧ tid tk = TID_IDLE ∧ t_state tk = TASK_S_RUNNABLE;
  si_cores : Z.of_nat (length (percpu_table s)) ≤ MAX_CORES;
  si_mmus : ∀ m mm, mmus s !! m = Some mm → m ≠ NULL ∧ cpu_lock mm = 0;
  si_p4 : ∀ m m' mm mm', mmus s !! m = Some mm → mmus s !! m' = Some mm' → p4 mm = p4 mm' → m = m';
}.

(** ** Changes that do not concern the queues *)

Lemma queues_ext s s' Qs :
  queues s Qs → knodes s' = knodes s → tasks s' = tasks s → runqs s' = runqs s → queues s' Qs.
Proof. intros [H1 H2] Hn Ht Hr. split; [|done]. by rewrite Hn, Ht, Hr. Qed.

(** A task changes in fields other than its runtime. *)
Lemma queues_upd_fields s Qs t tk tk' :
  queues s Qs → tasks s !! t = Some tk → vruntime tk' = vruntime tk →
  queues (upd_tasks <[t := tk']> s) Qs.
Proof.
  intros [Hdom Hdisj] Ht Hv. split; [|done]. intros rq D HD.
  destruct (Hdom _ _ HD) as (Hne & q & Hq & Hh). split; [done|]. exists q. split; [done|].
  eapply rq_holds_frame; [exact Hh|done..|]. intros u Hu. simpl. unfold vr_of.
  destruct (decide (t = u)) as [->|].
  - rewrite lookup_insert_eq, Ht. by split; [eexists|].
  - rewrite lookup_insert_ne by done. split; [|done]. destruct Hh as [_ _ _ Hp].
    rewrite Forall_forall in Hp. by apply Hp.
Qed.

(** [pc_set_*] of the executing CPU that keep its id and queue. *)
Lemma cpus_ok_upd_percpu s Qs f :
  cpus_ok s Qs → (∀ p, cpu_id (f p) = cpu_id p ∧ run_queue (f p) = run_queue p) →
  cpus_ok (upd_percpu f s) Qs.
Proof.
  intros [H1 H2 H3] Hf.
  assert (∀ i pi, percpu_table (upd_percpu f s) !! i = Some pi →
    ∃ pi0, percpu_table s !! i = Some pi0 ∧ cpu_id pi = cpu_id pi0 ∧ run_queue pi = run_queue pi0) as Hback.
  { simpl. intros i pi. destruct (decide (self s = i)) as [<-|].
    - rewrite list_lookup_alter_eq. destruct (percpu_table s !! self s) as [p0|]; simpl; [|done].
      intros [= <-]. exists p0. by destruct (Hf p0).
    - rewrite list_lookup_alter_ne by done. eauto. }
  split.
  - intros i pi Hi. destruct (Hback _ _ Hi) as (p0 & Hp0 & -> & _). by apply H1.
  - intros i pi Hi. destruct (Hback _ _ Hi) as (p0 & Hp0 & _ & ->). by eapply H2.
  - intros i j pi pj Hi Hj Hne. destruct (Hback _ _ Hi) as (pi0 & Hpi & _ & ->).
    destruct (Hback _ _ Hj) as (pj0 & Hpj & _ & ->). by eapply H3.
Qed.

Lemma insert_keeps {V} (m : gmap Z V) i j x : is_Some (m !! j) → is_Some (<[i := x]> m !! j).
Proof. intros H. destruct (decide (i = j)) as [->|]; [by rewrite lookup_insert_eq|by rewrite lookup_insert_ne]. Qed.

(** ** Picking the next task *)

(** The queue [D] once the current task is back on it; idle tasks are never
    queued. *)
Definition requeued (s : kstate) (D : list Z) (cur : Z) (ck : task) : list Z :=
  if tid ck =? TID_IDLE then D else enqueue (vr_of (tasks s)) cur D.

(** The task that runs next on the CPU with queue [rq], and the queues that
    remain. *)
Inductive pick (s : kstate) (Qs : gmap Z (list Z)) (rq : Z) (D : list Z) (cur : Z) (ck : task) :
    Z → gmap Z (list Z) → Prop :=
| pick_first t D' :
    requeued s D cur ck = t :: D' → pick s Qs rq D cur ck t (<[rq := D']> Qs)
| pick_pulled i pi t Do' :
    requeued s D cur ck = [] → i ≠ self s → percpu_table s !! i = Some pi →
    (∀ j, (j < i)%nat → nothing_at s Qs j) →
    Qs !! run_queue pi = Some (t :: Do') →
    pick s Qs rq D cur ck t (<[rq := []]> (<[run_queue pi := Do']> Qs))
| pick_idle q :
    requeued s D cur ck = [] → (∀ j, (j < length (percpu_table s))%nat → nothing_at s Qs j) →
    runqs s !! rq = Some q → pick s Qs rq D cur ck (rq_idle q) Qs.

Section pick.
Context (s : kstate) (Qs : gmap Z (list Z)) (p : percpu) (D : list Z) (cur : Z) (ck : task).
Context (HQs : queues s Qs) (Hc : cpus_ok s Qs) (Hp : on_cpu s p).
Context (HD : Qs !! run_queue p = Some D).
Context (Hcur : tid ck ≠ TID_IDLE → ready s cur ck ∧ t_state ck = TASK_S_RUNNABLE).
Context (Hnq : ¬ queued Qs cur).
Context (Hqd : ∀ t, queued Qs t → ∃ tk, tasks s !! t = Some tk ∧ tid tk ≠ TID_IDLE).
Context (Hidle : ∀ q, runqs s !! run_queue p = Some q → rq_idle q ≠ NULL ∧
  ∃ tk, tasks s !! rq_idle q = Some tk ∧ tid tk = TID_IDLE).

Lemma requeued_nil : requeued s D cur ck = [] → D = [] ∧ tid ck = TID_IDLE.
Proof.
  unfold requeued. destruct (Z.eqb_spec (tid ck) TID_IDLE); [done|].
  intros E. pose proof (enqueue_perm (vr_of (tasks s)) cur D) as Hpm. rewrite E in Hpm.
  by apply Permutation_nil_cons in Hpm.
Qed.

Lemma requeued_tid t D' : requeued s D cur ck = t :: D' →
  t ≠ NULL ∧ ∃ tk, tasks s !! t = Some tk ∧ tid tk ≠ TID_IDLE.
Proof using All.
  intros E. assert (t ∈ requeued s D cur ck) as Ht by (rewrite E; set_solver). revert Ht. unfold requeued.
  assert (t ∈ D → t ≠ NULL ∧ ∃ tk, tasks s !! t = Some tk ∧ tid tk ≠ TID_IDLE) as HtD.
  { intros Hin. split; [|apply Hqd; by exists (run_queue p), D].
    destruct (qs_dom _ _ HQs _ _ HD) as (_ & q & _ & [_ _ _ Hts]). rewrite Forall_forall in Hts. by apply Hts. }
  destruct (Z.eqb_spec (tid ck) TID_IDLE) as [|Hid]; [done|].
  rewrite enqueue_perm, elem_of_cons. intros [->|Hin]; [|auto].
  destruct (Hcur Hid) as [[] _]. eauto.
Qed.

(** The current task goes back on the queue unless it is an idle task. *)
Lemma wp_requeue (Q : unit → kstate → Prop) :
  (∀ s1, queues s1 (<[run_queue p := requeued s D cur ck]> Qs) → tasks s1 = tasks s → env_kept s s1 → Q tt s1) →
  wp (if negb (tid ck =? TID_IDLE) then runq_add cur else mret tt) s Q.
Proof using All.
  intros HQ.
  destruct (co_rq _ _ Hc _ _ (oc_lookup _ _ Hp)) as (D0 & q & HD0 & Hq & Hl).
  assert (D0 = D) as -> by congruence. unfold requeued in HQ.
  destruct (Z.eqb_spec (tid ck) TID_IDLE) as [|Hid]; simpl.
  - apply wp_ret. apply HQ; [|done|apply env_kept_refl]. by rewrite insert_id.
  - destruct (Hcur Hid) as [Hr Hst]. eapply wp_runq_add; [done..|].
    unfold add_tasks. rewrite decide_True by done. intros s' H1 H2 H3. by apply HQ.
Qed.

(** Nothing is queued here: pull from another CPU, or stay idle. *)
Lemma wp_pick_idle q (Q : Z → kstate → Prop) :
  requeued s D cur ck = [] → runqs s !! run_queue p = Some q →
  (∀ next s' Qs', pick s Qs (run_queue p) D cur ck next Qs' → queues s' Qs' → tasks s' = tasks s → env_kept s s' → Q next s') →
  wp (runq_balance_pull;; runq_next) s Q.
Proof using All.
  intros Hnil Hq HQ. destruct (requeued_nil Hnil) as [ED _]. rewrite ED in HD.
  destruct (co_rq _ _ Hc _ _ (oc_lookup _ _ Hp)) as (D0 & q0 & HD0 & Hq0 & Hl).
  assert (q0 = q) as -> by congruence.
  apply wp_bind. eapply (wp_runq_balance_pull s Qs p []); [done..| |].
  - intros Hnone. eapply (wp_runq_next s Qs p []); [done..|]. eapply HQ; [by eapply pick_idle|done..|].
    apply env_kept_refl.
  - intros j t s' Hj Hbefore (pi & Do' & Hpi & Hne & HQj & HQs' & Hts' & Hek).
    destruct (co_rq s' (<[run_queue p := [t]]> (<[run_queue pi := Do']> Qs))
      ltac:(eapply cpus_ok_kept; [exact Hc|exact Hek|]; intros rq ?; by do 2 apply insert_keeps)
      (self s') p ltac:(by apply (env_kept_on_cpu _ _ _ Hek))) as (D1 & q1 & HD1 & Hq1 & Hl1).
    rewrite lookup_insert_eq in HD1. injection HD1 as <-.
    eapply (wp_runq_next s' _ p [t]); [exact HQs'|by eapply env_kept_on_cpu|apply lookup_insert_eq|done..|].
    intros s2 HQs2 Hts2 Hek2. rewrite insert_insert_eq in HQs2.
    eapply HQ; [by eapply pick_pulled|exact HQs2|congruence|by eapply env_kept_trans].
Qed.

(** The whole selection in [schedule]. *)
Lemma wp_pick {A} (K : Z → K A) (Q : A → kstate → Prop) :
  (∀ next s' Qs', pick s Qs (run_queue p) D cur ck next Qs' → queues s' Qs' → tasks s' = tasks s → env_kept s s' → wp (K next) s' Q) →
  wp ((if negb (tid ck =? TID_IDLE) then runq_add cur else mret tt);;
      next ← runq_next;
      nt ← rd_task next;
      next ← (if tid nt =? TID_IDLE then runq_balance_pull;; runq_next else mret next);
      K next) s Q.
Proof using All.
  intros HK. destruct (co_rq _ _ Hc _ _ (oc_lookup _ _ Hp)) as (D0 & q & HD0 & Hq & Hl).
  destruct (requeued s D cur ck) as [|t D'] eqn:Er.
  - destruct (requeued_nil Er) as [ED Eck]. rewrite Eck. simpl. apply wp_bind, wp_ret.
    apply wp_bind. eapply (wp_runq_next s Qs p []); [done|done|by rewrite <-ED|done|done|].
    destruct (Hidle _ Hq) as (Hi0 & ik & Hik & Hikt).
    apply wp_bind. eapply wp_deref; [done..|]. rewrite Hikt. simpl. apply wp_bind.
    eapply wp_pick_idle; [done..|]. intros. by eapply HK.
  - apply wp_bind, wp_requeue. intros s1 HQs1 Hts1 Hek1. rewrite Er in HQs1.
    pose proof (env_kept_on_cpu _ _ _ Hek1 Hp) as Hp1.
    assert (cpus_ok s1 (<[run_queue p := t :: D']> Qs)) as Hc1.
    { eapply cpus_ok_kept; [exact Hc|exact Hek1|]. intros rq. apply insert_keeps. }
    destruct (co_rq _ _ Hc1 _ _ (oc_lookup _ _ Hp1)) as (D1 & q1 & HD1 & Hq1 & Hl1).
    apply wp_bind. eapply wp_runq_next; [exact HQs1|exact Hp1|apply lookup_insert_eq|exact Hq1|done|].
    intros s2 HQs2 Hts2 Hek2. rewrite insert_insert_eq in HQs2.
    destruct (requeued_tid _ _ Er) as (Ht0 & tk & Htk & Htid).
    apply wp_bind. eapply wp_deref; [by rewrite Hts2, Hts1|done|].
    apply Z.eqb_neq in Htid as ->. apply wp_bind, wp_ret.
    eapply HK; [by apply pick_first|exact HQs2|congruence|by eapply env_kept_trans].
Qed.
End pick.

(** ** What a pick says about the queues *)

Section pick_facts.
Context (s : kstate) (Qs : gmap Z (list Z)) (p : percpu) (D : list Z) (cur : Z) (ck : task).
Context (HQs : queues s Qs) (HD : Qs !! run_queue p = Some D) (Hnq : ¬ queued Qs cur).

Lemma queues_nodup rq D0 : Qs !! rq = Some D0 → NoDup D0.
Proof using HQs.
  intros H0. destruct (qs_dom _ _ HQs _ _ H0) as (_ & q & _ & Hh). by apply rq_holds_nodup in Hh as [? _].
Qed.

Lemma requeued_elem t :
  t ∈ requeued s D cur ck → t ∈ D ∨ (t = cur ∧ tid ck ≠ TID_IDLE).
Proof.
  unfold requeued. destruct (Z.eqb_spec (tid ck) TID_IDLE); [auto|].
  rewrite enqueue_perm, elem_of_cons. tauto.
Qed.

Lemma requeued_nodup : NoDup (requeued s D cur ck).
Proof using HQs HD Hnq.
  unfold requeued. pose proof (queues_nodup _ _ HD) as Hnd. destruct (_ =? _); [done|].
  rewrite enqueue_perm. apply NoDup_cons. split; [|done]. intros Hin. apply Hnq. by eexists _, _.
Qed.

Lemma queued_insert rq D0 t : queued (<[rq := D0]> Qs) t → t ∈ D0 ∨ (∃ rq' D', rq' ≠ rq ∧ Qs !! rq' = Some D' ∧ t ∈ D').
Proof.
  intros (rq' & D' & HD' & Ht). destruct (decide (rq = rq')) as [<-|].
  - rewrite lookup_insert_eq in HD'. injection HD' as <-. by left.
  - rewrite lookup_insert_ne in HD' by done. right. by exists rq', D'.
Qed.

Lemma pick_queued next Qs' t :
  pick s Qs (run_queue p) D cur ck next Qs' → queued Qs' t → queued Qs t ∨ (t = cur ∧ tid ck ≠ TID_IDLE).
Proof using All.
  destruct 1 as [t0 D' E|i pi t0 Do' E Hi Hpi Hb HDo|q E Hno Hq]; [| |by left].
  - intros [Ht|(rq' & D2 & _ & H2 & Ht)]%queued_insert; [|left; by exists rq', D2].
    assert (t ∈ requeued s D cur ck) as [?|?]%requeued_elem by (rewrite E; set_solver); [left|by right].
    by exists (run_queue p), D.
  - intros (rq' & D2 & H2 & Ht). left. destruct (decide (run_queue p = rq')) as [<-|].
    { rewrite lookup_insert_eq in H2. injection H2 as <-. by apply elem_of_nil in Ht. }
    rewrite lookup_insert_ne in H2 by done. destruct (decide (run_queue pi = rq')) as [<-|].
    + rewrite lookup_insert_eq in H2. injection H2 as <-. exists (run_queue pi), (t0 :: Do'). set_solver.
    + rewrite lookup_insert_ne in H2 by done. by exists rq', D2.
Qed.

(** The picked task is a queued one, the current one, or idle. *)
Lemma pick_from next Qs' :
  pick s Qs (run_queue p) D cur ck next Qs' →
  queued Qs next ∨ (next = cur ∧ tid ck ≠ TID_IDLE) ∨
  (∃ q, runqs s !! run_queue p = Some q ∧ next = rq_idle q).
Proof using All.
  destruct 1 as [t0 D' E|i pi t0 Do' E Hi Hpi Hb HDo|q E Hno Hq].
  - assert (t0 ∈ requeued s D cur ck) as [?|?]%requeued_elem by (rewrite E; set_solver); [left|auto].
    by exists (run_queue p), D.
  - left. exists (run_queue pi), (t0 :: Do'). split; [done|set_solver].
  - right. right. by exists q.
Qed.

(** It leaves the queues. *)
Lemma pick_removed next Qs' :
  pick s Qs (run_queue p) D cur ck next Qs' →
  (∀ q, runqs s !! run_queue p = Some q → ¬ queued Qs (rq_idle q)) → ¬ queued Qs' next.
Proof using HQs HD Hnq.
  destruct 1 as [t0 D' E|i pi t0 Do' E Hi Hpi Hb HDo|q E Hno Hq]; intros Hidle; [| |by apply Hidle].
  - pose proof requeued_nodup as Hnd. rewrite E in Hnd. apply NoDup_cons in Hnd as [Hnd _].
    intros [Ht|(rq' & D2 & Hne & H2 & Ht)]%queued_insert; [done|].
    assert (t0 ∈ requeued s D cur ck) as [Hin|[-> _]]%requeued_elem by (rewrite E; set_solver).
    + by eapply (qs_disj _ _ HQs rq' (run_queue p)).
    + apply Hnq. by exists rq', D2.
  - pose proof (queues_nodup _ _ HDo) as Hnd. apply NoDup_cons in Hnd as [Hnd _].
    intros (rq' & D2 & H2 & Ht). destruct (decide (run_queue p = rq')) as [<-|].
    { rewrite lookup_insert_eq in H2. injection H2 as <-. by apply elem_of_nil in Ht. }
    rewrite lookup_insert_ne in H2 by done. destruct (decide (run_queue pi = rq')) as [<-|].
    + rewrite lookup_insert_eq in H2. by injection H2 as <-.
    + rewrite lookup_insert_ne in H2 by done.
      eapply (qs_disj _ _ HQs rq' (run_queue pi)); [done..|]. set_solver.
Qed.

Lemma pick_dom next Qs' rq :
  pick s Qs (run_queue p) D cur ck next Qs' → is_Some (Qs !! rq) → is_Some (Qs' !! rq).
Proof. destruct 1; auto using insert_keeps. Qed.
End pick_facts.

(** ** Switching *)

Section switching.
Context `{BuildConfig} (kernel_mmu : Z).

(** The CPU set word after [cpuset_set_id]. *)
Definition set_bit (id : Z) (val : bool) (c : Z) : Z :=
  if val then Z.lor c (2 ^ (id + 1)) else Z.land c (u32 (Z.lnot (2 ^ (id + 1)))).

Definition upd_set (m id : Z) (val : bool) (ms : gmap Z mmu_info) : gmap Z mmu_info :=
  if m =? kernel_mmu then ms else alter (λ mm, mmu_set_cpus (set_bit id val (cpus mm)) mm) m ms.

Lemma wp_mmu_update_cpuset s p m mm id val (Q : unit → kstate → Prop) :
  on_cpu s p → mmus s !! m = Some mm → m ≠ NULL → cpu_lock mm = 0 → 0 ≤ id < MAX_CORES →
  Q tt (upd_mmus (upd_set m id val) s) →
  wp (mmu_update_cpuset kernel_mmu m id val) s Q.
Proof.
  intros Hp Hm Hne Hl Hid HQ. unfold mmu_update_cpuset. unfold upd_set in HQ.
  destruct (m =? kernel_mmu).
  { apply wp_ret. by destruct s. }
  apply wp_bind. unfold spin_lock, preempt_inc. apply wp_bind.
  eapply wp_percpu_upd; [done|]. apply wp_bind, wp_bind. eapply wp_deref; [done..|]. apply wp_ret.
  rewrite Hl. simpl. eapply wp_store; [done..|].
  apply wp_bind. eapply wp_deref; [apply lookup_insert_eq|done|]. apply wp_bind, wp_zoom.
  unfold wp at 1. rewrite wp_cpuset_set by done. simpl.
  unfold spin_unlock, preempt_dec. apply wp_bind. eapply wp_store; [apply lookup_insert_eq|done|].
  match goal with |- wp _ ?st _ => assert (st = upd_percpu pinc (upd_mmus
    (alter (λ mm, mmu_set_cpus (set_bit id val (cpus mm)) mm) m) s)) as -> end.
  { unfold upd_mmus, upd_percpu. simpl. f_equal. rewrite !insert_insert_eq. apply map_eq. intros i.
    destruct (decide (m = i)) as [<-|].
    - rewrite lookup_insert_eq, lookup_alter_eq, Hm. simpl. unfold mmu_set_cpus, mmu_set_lock. simpl.
      by rewrite Hl.
    - by rewrite lookup_insert_ne, lookup_alter_ne. }
  eapply wp_percpu_upd; [apply on_cpu_pinc; by destruct Hp|].
  change (λ p0, pc_set_preempt (low32 (λ v, v - 1) (preempt_count p0)) p0) with pdec.
  rewrite (upd_percpu_dec_inc _ p); [done|by destruct Hp].
Qed.

Definition switched (id next prev : Z) (ms : gmap Z mmu_info) : gmap Z mmu_info :=
  if next =? prev then ms else upd_set prev id true (upd_set next id false ms).

Definition mmu_ok (ms : gmap Z mmu_info) : Prop :=
  (∀ m mm, ms !! m = Some mm → m ≠ NULL ∧ cpu_lock mm = 0) ∧
  (∀ m m' mm mm', ms !! m = Some mm → ms !! m' = Some mm' → p4 mm = p4 mm' → m = m').

Lemma upd_set_lookup m id val ms k mm :
  upd_set m id val ms !! k = Some mm →
  ∃ mm0, ms !! k = Some mm0 ∧ p4 mm = p4 mm0 ∧ cpu_lock mm = cpu_lock mm0 ∧ users mm = users mm0.
Proof.
  unfold upd_set. destruct (m =? kernel_mmu); [eauto|].
  destruct (decide (m = k)) as [<-|].
  - rewrite lookup_alter_eq. destruct (ms !! m) as [mm0|]; simpl; [|done]. intros [= <-].
    by exists mm0.
  - rewrite lookup_alter_ne by done. eauto.
Qed.

Lemma upd_set_is_Some m id val ms k : is_Some (upd_set m id val ms !! k) ↔ is_Some (ms !! k).
Proof.
  unfold upd_set. destruct (m =? kernel_mmu); [done|]. destruct (decide (m = k)) as [<-|].
  - rewrite lookup_alter_eq. by rewrite fmap_is_Some.
  - by rewrite lookup_alter_ne.
Qed.

Lemma mmu_ok_upd_set m id val ms : mmu_ok ms → mmu_ok (upd_set m id val ms).
Proof.
  intros [H1 H2]. split.
  - intros k mm (mm0 & Hk & _ & Hl & _)%upd_set_lookup. rewrite Hl. by eapply H1.
  - intros k k' mm mm' (m0 & Hk & -> & _)%upd_set_lookup (m1 & Hk' & -> & _)%upd_set_lookup.
    by eapply H2.
Qed.

Lemma wp_mmu_switch s p next prev n v (Q : unit → kstate → Prop) :
  on_cpu s p → mmu_ok (mmus s) → 0 ≤ cpu_id p < MAX_CORES →
  mmus s !! next = Some n → mmus s !! prev = Some v →
  Q tt (upd_cr3 (if next =? prev then cr3 s else virt_to_phys (p4 n))
         (upd_mmus (switched (cpu_id p) next prev) s)) →
  wp (mmu_switch kernel_mmu next prev) s Q.
Proof.
  intros Hp Hok Hid Hn Hv HQ. unfold mmu_switch, switched in *. destruct (Hok) as [Hok1 Hok2].
  destruct (Hok1 _ _ Hn) as [Hn0 Hnl]. destruct (Hok1 _ _ Hv) as [Hv0 Hvl].
  apply wp_bind, wp_kassert_dbg.
  { by destruct (Z.eqb_spec next 0), (Z.eqb_spec prev 0). }
  destruct (Z.eqb_spec next prev) as [->|Hne]; simpl.
  { assert (n = v) as -> by congruence. assert (Q tt s) as HQ' by by destruct s.
    destruct DEBUG; [|done]. apply wp_bind. eapply wp_deref; [done..|].
    apply wp_bind. eapply wp_deref; [done..|]. apply wp_kassert; [apply Z.eqb_refl|done]. }
  apply wp_bind. eapply wp_percpu_upd; [done|]. pose proof (on_cpu_pinc _ _ Hp) as Hp1.
  apply wp_bind. unfold smp_cpu_id. apply wp_bind. eapply wp_this_cpu; [exact Hp1|]. apply wp_ret.
  apply wp_bind. eapply wp_mmu_update_cpuset; [exact Hp1|done..|].
  destruct (upd_set_is_Some next (cpu_id p) false (mmus s) prev) as [_ [v1 Hv1]]; [by eexists|].
  pose proof (mmu_ok_upd_set next (cpu_id p) false _ Hok) as [Hok1' Hok2'].
  apply wp_bind. eapply wp_mmu_update_cpuset; [by destruct Hp1|done|done|by eapply Hok1'|done|].
  apply wp_bind. eapply wp_percpu_upd; [by destruct Hp1|].
  set (ms := upd_set prev (cpu_id p) true (upd_set next (cpu_id p) false (mmus s))) in *.
  match goal with |- wp _ ?st _ => assert (st = upd_mmus (λ _, ms) s) as -> end.
  { pose proof (upd_percpu_dec_inc (upd_mmus (λ _, ms) s) p ltac:(by destruct Hp)) as E. exact E. }
  pose proof (mmu_ok_upd_set prev (cpu_id p) true _ (conj Hok1' Hok2')) as [_ Hok2''].
  destruct (upd_set_is_Some prev (cpu_id p) true (upd_set next (cpu_id p) false (mmus s)) next)
    as [_ [n2 Hn2]]; [apply upd_set_is_Some; by eexists|].
  destruct (upd_set_is_Some prev (cpu_id p) true (upd_set next (cpu_id p) false (mmus s)) prev)
    as [_ [v2 Hv2]]; [by eexists|].
  assert (p4 n2 = p4 n) as Ep.
  { apply upd_set_lookup in Hn2 as (x & Hx & -> & _). apply upd_set_lookup in Hx as (x' & Hx' & -> & _).
    congruence. }
  apply wp_bind. apply (wp_mono _ _ (λ _ s', s' = upd_mmus (λ _, ms) s)).
  { destruct DEBUG; [|done]. apply wp_bind. eapply wp_deref; [done..|].
    apply wp_bind. eapply wp_deref; [done..|]. apply wp_kassert; [|done].
    apply negb_true_iff, Z.eqb_neq. intros Hp4. by apply Hne, (Hok2'' _ _ _ _ Hn2 Hv2). }
  intros _ s' ->. apply wp_bind. eapply wp_deref; [done..|]. apply wp_modify. by rewrite Ep.
Qed.

(** The executing CPU's record after [switch_to]. *)
Definition switch_percpu (next : Z) (n : task) (p : percpu) : percpu :=
  pc_set_preempt (u64 (preempt_count p - 1)) (pc_set_tss (rsp_original n) (pc_set_current next p)).

Lemma upd_percpu_compose f g s : upd_percpu f (upd_percpu g s) = upd_percpu (λ p, f (g p)) s.
Proof.
  unfold upd_percpu. simpl. f_equal. apply list_eq. intros i. destruct (decide (self s = i)) as [<-|].
  - rewrite !list_lookup_alter_eq. by destruct (percpu_table s !! self s).
  - by rewrite !list_lookup_alter_ne.
Qed.

Lemma wp_switch_to s p next n pv mn mv (Q : unit → kstate → Prop) :
  on_cpu s p → mmu_ok (mmus s) → 0 ≤ cpu_id p < MAX_CORES →
  tasks s !! next = Some n → next ≠ NULL → tasks s !! current_task p = Some pv → current_task p ≠ NULL →
  mmus s !! t_mmu n = Some mn → mmus s !! t_mmu pv = Some mv →
  (∀ s', knodes s' = knodes s → runqs s' = runqs s → self s' = self s →
     tasks s' = <[current_task p := set_rsp_top (u64 (rsp s - 48)) pv]> (tasks s) →
     mmus s' = switched (cpu_id p) (t_mmu n) (t_mmu pv) (mmus s) →
     percpu_table s' = alter (switch_percpu next n) (self s) (percpu_table s) →
     (current_task p ≠ next → rsp s' = u64 (rsp_top n + 48)) → Q tt s') →
  wp (switch_to kernel_mmu next) s Q.
Proof.
  intros Hp Hok Hid Hn Hn0 Hpv Hpv0 Hmn Hmv HQ. unfold switch_to, current.
  apply wp_bind, wp_get, wp_bind, wp_bind. eapply wp_this_cpu; [done|]. apply wp_ret.
  apply wp_bind. eapply wp_store; [done..|].
  set (ts := <[current_task p := set_rsp_top (u64 (rsp s - 48)) pv]> (tasks s)).
  assert (∃ n', ts !! next = Some n' ∧ t_mmu n' = t_mmu n ∧ rsp_original n' = rsp_original n ∧
    (current_task p ≠ next → n' = n)) as (n' & Hn' & Em & Eo & En).
  { subst ts. destruct (decide (current_task p = next)) as [<-|].
    - rewrite lookup_insert_eq. eexists. split; [done|]. by simplify_eq.
    - rewrite lookup_insert_ne by done. eauto. }
  apply wp_bind. eapply wp_deref; [exact Hn'|done|].
  apply wp_bind, wp_modify, wp_bind.
  eapply wp_percpu_upd; [by destruct Hp|]. apply wp_bind.
  eapply (wp_percpu_upd _ (pc_set_current next p)); [split; simpl; [by rewrite list_lookup_alter_eq, (oc_lookup _ _ Hp)|apply Hp]|].
  apply wp_bind. eapply wp_deref; [apply lookup_insert_eq|done|].
  rewrite upd_percpu_compose. set (f := λ p0, pc_set_tss (rsp_original n') (pc_set_current next p0)).
  apply wp_bind. eapply (wp_mmu_switch _ (f p)).
  { split; simpl; [by rewrite list_lookup_alter_eq, (oc_lookup _ _ Hp)|apply Hp]. }
  { done. }
  { done. }
  { rewrite Em. exact Hmn. }
  { exact Hmv. }
  apply wp_bind. eapply (wp_percpu_upd _ (f p)).
  { split; simpl; [by rewrite list_lookup_alter_eq, (oc_lookup _ _ Hp)|apply Hp]. }
  apply wp_bind, wp_get, wp_modify. apply HQ; try done.
  - simpl. by rewrite Em.
  - simpl. apply list_eq. intros i. destruct (decide (self s = i)) as [<-|].
    + rewrite !list_lookup_alter_eq. destruct (percpu_table s !! self s); [|done].
      unfold switch_percpu. simpl. by rewrite <-Eo.
    + by rewrite !list_lookup_alter_ne.
  - intros Hne. by rewrite <-(En Hne).
Qed.
End switching.

(** ** The invariant is preserved *)

(** Tasks keep what the invariant says about them. *)
Definition tasks_sim (ts ts' : gmap Z task) : Prop :=
  ∀ t, match ts !! t with
  | Some tk => ∃ tk', ts' !! t = Some tk' ∧ tid tk' = tid tk ∧ t_state tk' = t_state tk ∧ t_mmu tk' = t_mmu tk
  | None => ts' !! t = None
  end.

Lemma tasks_sim_refl ts : tasks_sim ts ts.
Proof. intros t. destruct (ts !! t); eauto. Qed.

Lemma tasks_sim_some ts ts' t tk : tasks_sim ts ts' → ts !! t = Some tk →
  ∃ tk', ts' !! t = Some tk' ∧ tid tk' = tid tk ∧ t_state tk' = t_state tk ∧ t_mmu tk' = t_mmu tk.
Proof. intros Hs Ht. specialize (Hs t). by rewrite Ht in Hs. Qed.

Lemma tasks_sim_back ts ts' t tk' : tasks_sim ts ts' → ts' !! t = Some tk' →
  ∃ tk, ts !! t = Some tk ∧ tid tk' = tid tk ∧ t_state tk' = t_state tk ∧ t_mmu tk' = t_mmu tk.
Proof.
  intros Hs Ht. specialize (Hs t). destruct (ts !! t) as [tk|]; [|congruence].
  destruct Hs as (x & Hx & ?). assert (x = tk') as -> by congruence. eauto.
Qed.

Lemma tasks_sim_insert ts ts' t tk0 tk' :
  tasks_sim ts ts' → ts' !! t = Some tk0 → tid tk' = tid tk0 → t_state tk' = t_state tk0 →
  t_mmu tk' = t_mmu tk0 → tasks_sim ts (<[t := tk']> ts').
Proof.
  intros Hs Ht H1 H2 H3 u. specialize (Hs u). destruct (decide (t = u)) as [<-|].
  - rewrite lookup_insert_eq. destruct (ts !! t) as [tk|]; [|congruence].
    destruct Hs as (x & Hx & ? & ? & ?). assert (x = tk0) as -> by congruence.
    eexists. split; [done|]. by rewrite H1, H2, H3.
  - by rewrite lookup_insert_ne.
Qed.

Section rebuild.
Context (s s' sA : kstate) (Qs Qs' : gmap Z (list Z)) (p : percpu) (D : list Z) (ck ck' : task).
Context (next : Z) (g : percpu → percpu).
Context (Hinv : sys_inv s Qs) (Hself : percpu_table s !! self s = Some p).
Context (Hck : tasks s !! current_task p = Some ck) (Hckt : tid ck' = tid ck).
Context (HD : Qs !! run_queue p = Some D).
Context (HQA : queues sA Qs) (HrA : runqs sA = runqs s).
Context (Hpick : pick sA Qs (run_queue p) D (current_task p) ck' next Qs').
Context (HQs' : queues s' Qs') (Hts : tasks_sim (tasks s) (tasks s')).
Context (Hkn : ∀ a, is_Some (knodes s !! a) → is_Some (knodes s' !! a)).
Context (Hmeta : ∀ rq, rq_meta <$> runqs s' !! rq = rq_meta <$> runqs s !! rq).
Context (Hselfs : self s' = self s) (Hpt : percpu_table s' = alter g (self s) (percpu_table s)).
Context (Hg : cpu_id (g p) = cpu_id p ∧ run_queue (g p) = run_queue p ∧ current_task (g p) = next).
Context (Hmok : mmu_ok (mmus s')) (Hms : ∀ m, is_Some (mmus s !! m) → is_Some (mmus s' !! m)).

Lemma not_queued_cur : ¬ queued Qs (current_task p).
Proof using Hinv Hself. by destruct (si_current _ _ Hinv _ _ Hself) as (_ & _ & ? & _). Qed.

Lemma back_percpu i pi : percpu_table s' !! i = Some pi →
  ∃ pi0, percpu_table s !! i = Some pi0 ∧ cpu_id pi = cpu_id pi0 ∧ run_queue pi = run_queue pi0 ∧
    (i ≠ self s → pi = pi0) ∧ (i = self s → current_task pi = next).
Proof using All.
  rewrite Hpt. destruct (decide (self s = i)) as [<-|].
  - rewrite list_lookup_alter_eq, Hself. simpl. intros [= <-]. exists p. naive_solver.
  - rewrite list_lookup_alter_ne by done. intros Hi. exists pi. naive_solver.
Qed.

(** The next task exists and, unless idle, was runnable and ran nowhere. *)
Lemma next_facts : ∃ nk, tasks s !! next = Some nk ∧ t_state nk = TASK_S_RUNNABLE ∧
  (tid nk ≠ TID_IDLE → ∀ j pj, j ≠ self s → percpu_table s !! j = Some pj → current_task pj ≠ next).
Proof using Hinv Hself Hck Hckt HD HQA HrA Hpick.
  destruct (pick_from sA Qs p D _ ck' HQA HD not_queued_cur _ _ Hpick) as [Hq|[[E Hid]|(q & Hq & E)]].
  - destruct (si_queued _ _ Hinv _ Hq) as (nk & Hnk & _ & Hst). exists nk. split_and!; [done..|].
    intros _ j pj Hj Hpj E. rewrite <-E in Hq. by destruct (si_current _ _ Hinv _ _ Hpj) as (_ & _ & ? & _).
  - rewrite E. exists ck. destruct (si_current _ _ Hinv _ _ Hself) as (ck0 & Hck0 & _ & Hst).
    assert (ck0 = ck) as -> by congruence. rewrite Hckt in Hid. split_and!; [done|by apply Hst|].
    intros _ j pj Hj Hpj He. by apply Hid, (si_distinct _ _ Hinv _ _ _ _ ck Hself Hpj (not_eq_sym Hj)).
  - rewrite HrA in Hq. destruct (si_idle _ _ Hinv _ _ _ Hself Hq) as (ik & Hik & Hti & Hst).
    rewrite E. exists ik. by split_and!.
Qed.

Lemma next_not_queued : ¬ queued Qs' next.
Proof using All.
  eapply (pick_removed sA Qs p D); [done|done|apply not_queued_cur|exact Hpick|].
  intros q Hq Hqd. rewrite HrA in Hq. destruct (si_idle _ _ Hinv _ _ _ Hself Hq) as (ik & Hik & Hti & _).
  destruct (si_queued _ _ Hinv _ Hqd) as (x & Hx & Hxt & _). congruence.
Qed.

Lemma other_not_queued j pj : j ≠ self s → percpu_table s !! j = Some pj → ¬ queued Qs' (current_task pj).
Proof using All.
  intros Hj Hpj Hqd. destruct (si_current _ _ Hinv _ _ Hpj) as (_ & _ & Hnq & _).
  destruct (pick_queued sA Qs p D _ ck' HQA HD not_queued_cur _ _ _ Hpick Hqd) as [?|[E Hid]]; [done|].
  rewrite Hckt in Hid. apply Hid. eapply (si_distinct _ _ Hinv); [exact Hself|exact Hpj|done|done|done].
Qed.

Lemma rebuild_cpus : cpus_ok s' Qs'.
Proof using All.
  destruct (si_cpus _ _ Hinv) as [H1 H2 H3]. split.
  - intros i pi (p0 & Hp0 & -> & _)%back_percpu. by apply H1.
  - intros i pi (p0 & Hp0 & _ & -> & _)%back_percpu. destruct (H2 _ _ Hp0) as (D0 & q0 & HD0 & Hq0 & Hl0).
    destruct (pick_dom sA Qs p D _ ck' _ _ (run_queue p0) Hpick) as [D1 HD1]; [by eexists|].
    specialize (Hmeta (run_queue p0)). rewrite Hq0 in Hmeta. simpl in Hmeta.
    destruct (runqs s' !! run_queue p0) as [q1|] eqn:Hq1; [|done]. injection Hmeta as Hl1 _.
    exists D1, q1. split_and!; [done..|congruence].
  - intros i j pi pj (pi0 & Hpi0 & _ & -> & _)%back_percpu (pj0 & Hpj0 & _ & -> & _)%back_percpu.
    by eapply H3.
Qed.

Lemma rebuild_current i pi : percpu_table s' !! i = Some pi → ∃ tk, tasks s' !! current_task pi = Some tk ∧
  (¬ queued Qs' (current_task pi)) ∧ (tid tk ≠ TID_IDLE → t_state tk = TASK_S_RUNNABLE).
Proof using All.
  intros (p0 & Hp0 & _ & _ & Hoth & Hme)%back_percpu. destruct (decide (i = self s)) as [Hi|Hi].
  - rewrite (Hme Hi). destruct next_facts as (nk & Hnk & Hst & _).
    destruct (tasks_sim_some _ _ _ _ Hts Hnk) as (nk' & Hnk' & _ & Hst' & _).
    exists nk'. split_and!; [done|apply next_not_queued|congruence].
  - rewrite (Hoth Hi). destruct (si_current _ _ Hinv _ _ Hp0) as (tk & Htk & _ & Hst).
    destruct (tasks_sim_some _ _ _ _ Hts Htk) as (tk' & Htk' & Htid & Hst' & _).
    exists tk'. split_and!; [done|by eapply other_not_queued|rewrite Htid, Hst'; done].
Qed.

Lemma rebuild_distinct i j pi pj tk :
  percpu_table s' !! i = Some pi → percpu_table s' !! j = Some pj → i ≠ j →
  current_task pi = current_task pj → tasks s' !! current_task pi = Some tk → tid tk = TID_IDLE.
Proof using All.
  intros (pi0 & Hpi0 & _ & _ & Hio & Him)%back_percpu (pj0 & Hpj0 & _ & _ & Hjo & Hjm)%back_percpu Hne He Htk.
  destruct next_facts as (nk & Hnk & _ & Hnd).
  destruct (tasks_sim_back _ _ _ _ Hts Htk) as (tk0 & Htk0 & Htid & _). rewrite Htid.
  destruct (decide (tid tk0 = TID_IDLE)) as [|Hid]; [done|exfalso].
  destruct (decide (i = self s)) as [Hi|Hi]; [|destruct (decide (j = self s)) as [Hj|Hj]].
  - rewrite (Him Hi) in *. assert (j ≠ self s) as Hj by congruence.
    assert (nk = tk0) as -> by congruence. apply (Hnd Hid j pj0 Hj Hpj0). by rewrite <-(Hjo Hj).
  - rewrite (Hjm Hj), <-He in *. assert (nk = tk0) as -> by congruence.
    apply (Hnd Hid i pi0 Hi Hpi0). rewrite <-(Hio Hi). done.
  - apply Hid. rewrite (Hio Hi), (Hjo Hj) in *. by eapply (si_distinct _ _ Hinv i j).
Qed.

Lemma sys_inv_rebuild : sys_inv s' Qs'.
Proof using All.
  split; try done.
  - apply rebuild_cpus.
  - intros t tk' (tk & Htk & _ & _ & Hm)%(tasks_sim_back _ _ _ _ Hts).
    destruct (si_tasks _ _ Hinv _ _ Htk) as [? ? ? ?]. split; [done..|by apply Hkn|].
    rewrite Hm. by apply Hms.
  - intros t Hq.
    assert (∃ tk, tasks s !! t = Some tk ∧ tid tk ≠ TID_IDLE ∧ t_state tk = TASK_S_RUNNABLE) as
      (tk & Htk & Hid & Hst).
    { destruct (pick_queued sA Qs p D _ ck' HQA HD not_queued_cur _ _ _ Hpick Hq) as [Hqo|[-> Hid]].
      - by apply (si_queued _ _ Hinv).
      - destruct (si_current _ _ Hinv _ _ Hself) as (x & Hx & _ & Hst).
        assert (x = ck) as -> by congruence. rewrite Hckt in Hid. eauto. }
    destruct (tasks_sim_some _ _ _ _ Hts Htk) as (tk' & Htk' & Ht1 & Ht2 & _).
    exists tk'. by rewrite Ht1, Ht2.
  - apply rebuild_current.
  - apply rebuild_distinct.
  - intros i pi q' (p0 & Hp0 & _ & -> & _)%back_percpu Hq'.
    specialize (Hmeta (run_queue p0)). rewrite Hq' in Hmeta.
    destruct (runqs s !! run_queue p0) as [q0|] eqn:Hq0; [|done]. injection Hmeta as _ Hid.
    destruct (si_idle _ _ Hinv _ _ _ Hp0 Hq0) as (ik & Hik & Ht & Hst).
    destruct (tasks_sim_some _ _ _ _ Hts Hik) as (ik' & Hik' & Ht' & Hst' & _).
    exists ik'. rewrite Hid, Ht', Hst'. done.
  - rewrite Hpt, length_alter. apply (si_cores _ _ Hinv).
  - apply Hmok.
  - apply Hmok.
Qed.
End rebuild.

(** ** [schedule] *)

(** Task updates between the pick and the switch. *)
Record mid (sB : kstate) (Qs : gmap Z (list Z)) (ts0 : gmap Z task) (st : kstate) : Prop := {
  md_state : st = upd_tasks (λ _, tasks st) sB;
  md_queues : queues st Qs;
  md_sim : tasks_sim ts0 (tasks st);
}.

Lemma wp_mid_wr sB Qs ts0 st t tk f (Q : unit → kstate → Prop) :
  mid sB Qs ts0 st → tasks st !! t = Some tk → t ≠ NULL →
  tid (f tk) = tid tk → t_state (f tk) = t_state tk → t_mmu (f tk) = t_mmu tk → vruntime (f tk) = vruntime tk →
  (∀ st', mid sB Qs ts0 st' → tasks st' = <[t := f tk]> (tasks st) → Q tt st') →
  wp (wr_task t f) st Q.
Proof.
  intros [H1 H2 H3] Ht Hne E1 E2 E3 E4 HQ. eapply wp_store; [done..|]. apply HQ; [|done].
  split; simpl; [by rewrite H1 at 1|by eapply queues_upd_fields|by eapply tasks_sim_insert].
Qed.

Section schedule.
Context `{BuildConfig} (kernel_mmu : Z).

Definition ticked (ck : task) : task := set_vruntime (u64 (vruntime ck + 1)) ck.

(** What holds after a [schedule] that picked [next]. *)
Record scheduled (s : kstate) (p : percpu) (next : Z) (s' : kstate) : Prop := {
  sd_cpu : ∃ p', percpu_table s' !! self s' = Some p' ∧ current_task p' = next ∧
    reschedule p' = false ∧ preempt_count p' = preempt_count p;
  sd_flags : ∃ nk, tasks s' !! next = Some nk ∧
    Z.testbit (t_flags nk) 1 = true ∧ Z.testbit (t_flags nk) 2 = false;
  sd_others : ∀ i, i ≠ self s → percpu_table s' !! i = percpu_table s !! i;
  sd_tasks : tasks_sim (tasks s) (tasks s');
  sd_rsp : current_task p ≠ next → ∃ nk, tasks s !! next = Some nk ∧ rsp s' = u64 (rsp_top nk + 48);
}.

Lemma running_bits fl :
  Z.testbit (Z.land (Z.lor fl TASK_RUNNING) (u64 (Z.lnot TASK_PREEMPTED))) 1 = true ∧
  Z.testbit (Z.land (Z.lor fl TASK_RUNNING) (u64 (Z.lnot TASK_PREEMPTED))) 2 = false.
Proof.
  rewrite !Z.land_spec, !Z.lor_spec. split; [|by rewrite andb_false_r].
  change (Z.testbit TASK_RUNNING 1) with true.
  change (Z.testbit (u64 (Z.lnot TASK_PREEMPTED)) 1) with true. by rewrite orb_true_r.
Qed.

(** The end of [schedule]: flags and the switch. *)
Lemma wp_schedule_end sB Qs ts0 p cur next ck nk (Q : unit → kstate → Prop) :
  on_cpu sB p → current_task p = cur → mmu_ok (mmus sB) → 0 ≤ cpu_id p < MAX_CORES →
  mid sB Qs ts0 sB → tasks sB !! cur = Some ck → cur ≠ NULL → tasks sB !! next = Some nk → next ≠ NULL →
  t_state nk = TASK_S_RUNNABLE → is_Some (mmus sB !! t_mmu ck) → is_Some (mmus sB !! t_mmu nk) →
  (∀ s' n, knodes s' = knodes sB → runqs s' = runqs sB → self s' = self sB →
     queues s' Qs → tasks_sim ts0 (tasks s') → mmu_ok (mmus s') →
     (∀ m, is_Some (mmus sB !! m) → is_Some (mmus s' !! m)) →
     percpu_table s' = alter (switch_percpu next n) (self sB) (percpu_table sB) →
     (∃ nk', tasks s' !! next = Some nk' ∧ Z.testbit (t_flags nk') 1 = true ∧ Z.testbit (t_flags nk') 2 = false) →
     (cur ≠ next → rsp s' = u64 (rsp_top nk + 48)) → Q tt s') →
  wp (nt ← rd_task next;
      kassert_dbg (bool_decide (t_state nt = TASK_S_RUNNABLE));;
      wr_task cur (λ t, set_flags (Z.land (t_flags t) (u64 (Z.lnot TASK_RUNNING))) t);;
      wr_task next (λ t, set_flags (Z.lor (t_flags t) TASK_RUNNING) t);;
      wr_task next (λ t, set_flags (Z.land (t_flags t) (u64 (Z.lnot TASK_PREEMPTED))) t);;
      switch_to kernel_mmu next) sB Q.
Proof.
  intros Hp Hcur Hok Hid Hmid Hck Hck0 Hnk Hnk0 Hst [mc Hmc] [mn Hmn] HQ.
  apply wp_bind. eapply wp_deref; [done..|]. apply wp_bind, wp_kassert_dbg; [by apply bool_decide_eq_true|].
  apply wp_bind. eapply wp_mid_wr; [exact Hmid|exact Hck|done..|]. intros s1 Hm1 Ht1.
  assert (∃ nk1, tasks s1 !! next = Some nk1 ∧ t_mmu nk1 = t_mmu nk ∧ rsp_top nk1 = rsp_top nk) as (nk1 & Hnk1 & Em1 & Er1).
  { rewrite Ht1. destruct (decide (cur = next)) as [->|].
    - rewrite lookup_insert_eq. eexists. split; [done|]. by simplify_eq.
    - rewrite lookup_insert_ne by done. eauto. }
  apply wp_bind. eapply wp_mid_wr; [exact Hm1|exact Hnk1|done..|]. intros s2 Hm2 Ht2.
  apply wp_bind. eapply wp_mid_wr; [exact Hm2|rewrite Ht2; apply lookup_insert_eq|done..|]. intros s3 Hm3 Ht3.
  set (nk3 := set_flags _ _) in Ht3.
  assert (∃ ck3, tasks s3 !! cur = Some ck3 ∧ t_mmu ck3 = t_mmu ck) as (ck3 & Hck3 & Ec3).
  { rewrite Ht3, Ht2. destruct (decide (next = cur)) as [->|].
    - rewrite lookup_insert_eq. eexists. split; [done|]. simpl. congruence.
    - rewrite !lookup_insert_ne by done. rewrite Ht1, lookup_insert_eq. eauto. }
  destruct Hm3 as [Es3 HQ3 Hsim3].
  assert (tasks s3 !! next = Some nk3) as Hnk3 by (rewrite Ht3; apply lookup_insert_eq).
  assert (mmus s3 = mmus sB ∧ knodes s3 = knodes sB ∧ runqs s3 = runqs sB ∧ self s3 = self sB ∧
    percpu_table s3 = percpu_table sB) as (Em & Ekn & Er & Ese & Ept) by by rewrite Es3.
  eapply (wp_switch_to kernel_mmu s3 p next nk3 ck3 mn mc);
    [split; [by rewrite Ept, Ese; apply Hp|apply Hp]|by rewrite Em|done|done|done|by rewrite Hcur|by rewrite Hcur
    |rewrite Em; simpl; by rewrite Em1|rewrite Em, Ec3; done|].
  rewrite Hcur. intros s' Hkn' Hr' Hse' Hts' Hms' Hpt' Hrsp'. apply (HQ s' nk3); try congruence.
  - eapply (queues_ext (upd_tasks <[cur := set_rsp_top (u64 (rsp s3 - 48)) ck3]> s3)); [|done..].
    by eapply queues_upd_fields.
  - rewrite Hts'. by eapply tasks_sim_insert.
  - rewrite Hms', Em. unfold switched. destruct (_ =? _); [done|]. by repeat apply mmu_ok_upd_set.
  - intros m Hm. rewrite Hms', Em. unfold switched. destruct (_ =? _); [done|].
    by rewrite !upd_set_is_Some.
  - pose proof (running_bits (t_flags nk1)) as Hbits. rewrite Hts'. destruct (decide (cur = next)) as [E|].
    + rewrite E, lookup_insert_eq in *. eexists. split; [done|]. simpl.
      assert (ck3 = nk3) as -> by congruence. exact Hbits.
    + rewrite lookup_insert_ne by done. exists nk3. split; [done|exact Hbits].
  - intros Hne. rewrite Hrsp' by done. unfold nk3. simpl. by rewrite Er1.
Qed.

Lemma low32_inc v : in_u 64 v → u32 v < 2 ^ 32 - 1 → low32 (λ v, v + 1) v = v + 1.
Proof.
  intros [H0 H1] Hlt. unfold low32. pose proof (uwrap_range 32 v ltac:(lia)) as [Hr _].
  rewrite (uwrap_id 32 (u32 v + 1)) by (unfold in_u; lia).
  rewrite Z.shiftl_mul_pow2, Z.shiftr_div_pow2 by lia. unfold uwrap in *.
  pose proof (Z.div_mod v (2 ^ 32)). lia.
Qed.

Definition enter (p : percpu) : percpu := pc_set_resched false (pinc p).

(** The state in which the next task is picked. *)
Definition picking (s : kstate) (cur : Z) (ck : task) : kstate :=
  upd_tasks <[cur := ticked ck]> (upd_percpu enter s).

Lemma picking_cpu s p cur ck : on_cpu s p → on_cpu (picking s cur ck) (enter p).
Proof.
  intros Hp. split; simpl.
  - by rewrite list_lookup_alter_eq, (oc_lookup _ _ Hp).
  - apply low32_range, Hp.
Qed.

Lemma picking_queues s Qs cur ck :
  queues s Qs → ¬ queued Qs cur → queues (picking s cur ck) Qs.
Proof. intros HQ Hnq. apply queues_upd_task; [by eapply queues_ext|done]. Qed.

Lemma picking_sim s cur ck : tasks s !! cur = Some ck → tasks_sim (tasks s) (tasks (picking s cur ck)).
Proof. intros Hc. eapply tasks_sim_insert; [apply tasks_sim_refl|exact Hc|done..]. Qed.

Lemma wp_schedule s Qs p D ck (Q : unit → kstate → Prop) :
  sys_inv s Qs → on_cpu s p → Qs !! run_queue p = Some D → tasks s !! current_task p = Some ck →
  u32 (preempt_count p) < 2 ^ 32 - 1 →
  (∀ next Qs' s', pick (picking s (current_task p) ck) Qs (run_queue p) D (current_task p) (ticked ck) next Qs' →
     sys_inv s' Qs' → scheduled s p next s' → Q tt s') →
  wp (schedule kernel_mmu) s Q.
Proof.
  intros Hinv Hp HD Hck Hpre HQ. set (cur := current_task p) in *. set (sA := picking s cur ck).
  destruct (si_current _ _ Hinv _ _ (oc_lookup _ _ Hp)) as (x & Hx & Hnq & Hrun).
  assert (x = ck) as -> by (unfold cur in *; congruence).
  pose proof (picking_queues _ _ cur ck (si_queues _ _ Hinv) Hnq) as HQA.
  pose proof (picking_cpu _ _ cur ck Hp) as HpA. pose proof (picking_sim _ _ _ Hck) as HsimA.
  destruct (si_tasks _ _ Hinv _ _ Hck) as [Hc0 Hcv Hcn Hcm].
  unfold schedule, current. apply wp_bind. eapply wp_percpu_upd; [done|].
  apply wp_bind. eapply wp_percpu_upd; [by apply on_cpu_pinc|].
  rewrite upd_percpu_compose. change (λ p0, pc_set_resched false _) with enter.
  apply wp_bind, wp_bind. eapply (wp_this_cpu _ (enter p)); [by destruct HpA|]. apply wp_ret.
  change (current_task (enter p)) with cur.
  apply wp_bind. eapply wp_store; [done..|]. change (upd_tasks _ (upd_percpu enter s)) with sA.
  apply wp_bind. eapply wp_deref; [apply lookup_insert_eq|done|].
  eapply (wp_pick sA Qs (enter p) D cur (ticked ck)); try done.
  { apply cpus_ok_kept with (s := upd_percpu enter s) (Qs := Qs); [|by split|done].
    by apply cpus_ok_upd_percpu; [apply Hinv|]. }
  { intros Hid. split; [split; [apply lookup_insert_eq|done..]|]. by apply Hrun. }
  { intros t Ht. destruct (si_queued _ _ Hinv _ Ht) as (tk & Htk & Hid & _).
    destruct (tasks_sim_some _ _ _ _ HsimA Htk) as (tk' & Htk' & Et & _). exists tk'. by rewrite Et. }
  { intros q Hq. destruct (si_idle _ _ Hinv _ _ q (oc_lookup _ _ Hp) Hq) as (ik & Hik & Hit & _).
    split; [by eapply si_tasks|]. destruct (tasks_sim_some _ _ _ _ HsimA Hik) as (ik' & Hik' & Et & _).
    exists ik'. by rewrite Et. }
  intros next sB Qs' Hpick HQB HtsB HekB.
  pose proof (oc_lookup _ _ Hp) as Hself.
  destruct (next_facts s sA Qs Qs' p D ck (ticked ck) next Hinv Hself Hck eq_refl HD HQA eq_refl Hpick)
    as (nk & Hnk & Hnst & _).
  destruct (tasks_sim_some _ _ _ _ HsimA Hnk) as (nkB & HnkB & _ & HstB & HmB).
  destruct (si_tasks _ _ Hinv _ _ Hnk) as [Hn0 _ _ Hnm]. destruct HekB as [Ems Ept Ese Ec3 Ersp Emeta Ekn].
  eapply (wp_schedule_end sB Qs' (tasks s) (enter p) cur next (ticked ck) nkB); try done.
  { split; [rewrite Ept, Ese|]; apply HpA. }
  { rewrite Ems. split; apply Hinv. }
  { pose proof (lookup_lt_Some _ _ _ Hself). pose proof (si_cores _ _ Hinv).
    pose proof (co_id _ _ (si_cpus _ _ Hinv) _ _ Hself) as E. simpl. lia. }
  { split; [by destruct sB|done|by rewrite HtsB]. }
  { rewrite HtsB. apply lookup_insert_eq. }
  { by rewrite HtsB. }
  { by rewrite HstB. }
  { by rewrite Ems. }
  { by rewrite Ems, HmB. }
  intros s' n Hkn' Hr' Hse' HQ' Hsim' Hmok' Hms' Hpt' Hfl' Hrsp'.
  assert (percpu_table s' = alter (λ p, switch_percpu next n (enter p)) (self s) (percpu_table s)) as Hpt2.
  { rewrite Hpt', Ept, Ese. simpl. apply list_eq. intros i. destruct (decide (self s = i)) as [<-|].
    - rewrite !list_lookup_alter_eq. by destruct (percpu_table s !! self s).
    - by rewrite !list_lookup_alter_ne. }
  apply (HQ next Qs' s'); [exact Hpick| |].
  - eapply (sys_inv_rebuild s s' sA Qs Qs' p D ck (ticked ck) next (λ p, switch_percpu next n (enter p)));
      try done.
    + rewrite Hkn'. exact Ekn.
    + intros rq. rewrite Hr'. apply Emeta.
    + by rewrite Hse', Ese.
    + by rewrite Ems in Hms'.
  - split; [|done| |done|].
    + rewrite Hpt2, Hse', Ese. simpl. rewrite list_lookup_alter_eq, Hself. eexists. split; [done|].
      split_and!; [done..|]. simpl. rewrite low32_inc by (apply Hp || done). rewrite Z.add_simpl_r.
      apply uwrap_id, Hp.
    + intros i Hi. by rewrite Hpt2, list_lookup_alter_ne.
    + intros Hne. exists nk. split; [done|]. rewrite Hrsp' by done. simpl in HnkB. rewrite lookup_insert_ne in HnkB by done. congruence.
Qed.
End schedule.

(** ** Waking a task up *)

Lemma wp_task_wakeup s Qs p D q t tk (Q : unit → kstate → Prop) :
  queues s Qs → on_cpu s p → Qs !! run_queue p = Some D →
  runqs s !! run_queue p = Some q → rq_lock q = 0 → ready s t tk → ¬ queued Qs t → t_state tk ≠ TASK_S_RUNNABLE →
  (∀ s', queues s' (<[run_queue p := enqueue (vr_of (tasks s)) t D]> Qs) →
     tasks s' = <[t := set_state TASK_S_RUNNABLE tk]> (tasks s) → env_kept s s' → Q tt s') →
  wp (task_wakeup t) s Q.
Proof.
  intros HQ Hp HD Hq Hl [Ht Hne Hv Hn] Hnq Hst HQ'. set (tk' := set_state TASK_S_RUNNABLE tk).
  set (s1 := upd_tasks <[t := tk']> s).
  unfold task_wakeup, sched_add. apply wp_bind. eapply wp_deref; [done..|]. rewrite decide_False by done.
  apply wp_bind. eapply wp_store; [done..|]. fold tk'. fold s1.
  eapply (wp_runq_add s1 Qs p D q t tk'); [by apply queues_upd_task|by destruct Hp|done..| |done|].
  - split; [apply lookup_insert_eq|done..].
  - unfold add_tasks. rewrite decide_True by done. intros s' H1 H2 H3. apply HQ'; [|done|by destruct H3; split].
    rewrite (enqueue_ext (vr_of (tasks s))) in H1; [done| |].
    + unfold vr_of. simpl. by rewrite lookup_insert_eq, Ht.
    + intros a Ha. unfold vr_of. simpl. rewrite lookup_insert_ne; [done|]. intros ->. apply Hnq. by eexists _, _.
Qed.
