(* ===== verification/SchedStart.v ===== *)
(** * Starting the schedulers

    [sched_init], [sched_run_bsp] and [sched_run_ap] of kernel/proc/sched.c and
    [runq_init] of kernel/proc/runq.c: how the state that [schedule] works on
    comes about.  The parts of the kernel that meet here are the scheduler
    (Sched.v), [task_fork] on the machine (Context.v), the allocators behind
    it, and the local APIC's timer (Lapic.v); they share the table of tasks.

    The other processors run the same code.  Their allocations are under the
    allocators' locks and the rest is their own, so that what they do is a
    sequence of whole start-ups in any order.  The barrier itself is shown to
    hold in Smp.v. *)

From stdpp Require Import base list gmap.
From Stdlib Require Import ZArith Lia Bool.
From S2P Require Import Prelude RbModel RbTree RbRepr RbSpec Addr Cpuset Heap Interrupts Sched SchedInv RunQueue Schedule.
From S2P Require Import Lapic Context ContextSpec.
Local Open Scope Z_scope.

(** ** The code *)

(** The scheduler's state, the machine [task_fork] runs on, the local APIC of
    the executing CPU and [schedulers_waiting].  The tasks are those of [ks]. *)
Record start (St : Type) := mk_start { ks : kstate; ms : mach St; lp : lst; schedulers_waiting : Z }.
Arguments mk_start {_} _ _ _ _.
Arguments ks {_} _.
Arguments ms {_} _.
Arguments lp {_} _.
Arguments schedulers_waiting {_} _.

Definition SIZEOF_RUNQ : Z := 40.
Definition zero_node : rb_node := mk_node 0 0 0.
Definition pc_set_rq v p := mk_percpu (current_task p) (tss_rsp0 p) (preempt_count p) (int_depth p) (reschedule p) (cpu_id p) v.
Definition rq_set_idle v q := mk_runq (rq_lock q) v (rq_tree q) (num_threads q).
Definition set_tid v t := mk_task (rsp_top t) (rsp_original t) (t_mmu t) (t_flags t) (t_state t) v (tgid t) (affinity t) (vruntime t) (num_slices t).
Definition upd_knodes f s := mk_kstate (f (knodes s)) (tasks s) (runqs s) (mmus s) (percpu_table s) (self s) (cr3 s) (rsp s).
Definition set_self i s := mk_kstate (knodes s) (tasks s) (runqs s) (mmus s) (percpu_table s) i (cr3 s) (rsp s).

Section code.
Context {St : Type} {BC : BuildConfig} (mo : memory_ops (St := St)).
Context (kernel_mmu dummy default_regs ret_from_ufork_addr ret_from_kfork_addr idle_task init_kernel : Z).
Context (dev : list event → Z → Z).

Abbreviation R := (M (start St)).

Definition upd_ks f (s : start St) := mk_start (f (ks s)) (ms s) (lp s) (schedulers_waiting s).

Definition on_sched {A} (m : K A) : R A := zoom ks (λ k, upd_ks (λ _, k)) m.
Definition on_mach {A} (m : M (mach St) A) : R A :=
  zoom (λ s, upd_tasks_ (λ _, tasks (ks s)) (ms s))
    (λ c s, mk_start (upd_tasks (λ _, tasks_ c) (ks s)) c (lp s) (schedulers_waiting s)) m.
Definition on_lapic {A} (m : M lst A) : R A := zoom lp (λ l s, mk_start (ks s) (ms s) l (schedulers_waiting s)) m.

(** [task_fork(parent, entry, flags, NULL)].  Its [memset] also clears the
    node inside the task. *)
Definition fork_task (parent entry flags : Z) : R Z :=
  t ← on_mach (task_fork mo kernel_mmu default_regs ret_from_ufork_addr ret_from_kfork_addr parent entry flags NULL);
  on_sched (modify (upd_knodes <[node_of t := zero_node]>));;
  mret t.

(** [kmalloc] and [memset] of a run queue. *)
Definition rq_alloc : R Z :=
  rq ← on_mach (on_mm (m_kmalloc mo SIZEOF_RUNQ));
  if rq =? NULL then fault
  else on_sched (modify (upd_runqs <[rq := mk_runq 0 NULL (mk_tree NULL NULL) 0]>));; mret rq.

(** An operation on [&t->affinity]. *)
Definition on_affinity (t : Z) (m : M Z unit) : K unit :=
  tk ← rd_task t;
  zoom (λ _, affinity tk) (λ c, upd_tasks <[t := set_affinity c tk]>) m.

Definition runq_init (initial_parent : Z) : R unit :=
  rq ← rq_alloc;
  on_sched (percpu_upd (pc_set_rq rq));;
  idle ← fork_task initial_parent idle_task TASK_KTHREAD;
  on_sched (
    on_affinity idle cpuset_clear;;
    id ← smp_cpu_id;
    on_affinity idle (cpuset_set_id id true);;
    on_affinity idle cpuset_pin;;
    wr_task idle (set_state TASK_S_RUNNABLE);;
    wr_task idle (set_tid TID_IDLE);;
    wr_rq rq (rq_set_idle idle)).

Definition sched_init : K unit :=
  modify (upd_tasks <[dummy := zero_task]>);;
  modify (upd_knodes <[node_of dummy := zero_node]>);;
  wr_task dummy (set_tmmu kernel_mmu);;
  wr_task dummy (set_tid TID_IDLE);;
  percpu_upd (pc_set_current dummy).

(** The count is raised and read until it has reached the number of CPUs;
    [meanwhile] is what the other CPUs do until then. *)
Definition wait_for_schedulers (meanwhile : R unit) : R unit :=
  modify (λ s, mk_start (ks s) (ms s) (lp s) (u32 (schedulers_waiting s + 1)));;
  meanwhile;;
  s ← get;
  n ← on_sched smp_nr_cpus;
  if schedulers_waiting s <? Z.of_nat n then diverge else mret tt.

(** Both functions up to the barrier. *)
Definition bsp_prepare : R unit :=
  runq_init dummy;;
  t ← fork_task dummy init_kernel FORK_KTHREAD;
  on_sched (task_wakeup t).
Definition ap_prepare : R unit :=
  on_sched (percpu_upd (pc_set_current dummy));;
  runq_init dummy.

Definition sched_run_bsp (meanwhile : R unit) : R unit :=
  bsp_prepare;;
  wait_for_schedulers meanwhile;;
  on_lapic (lapic_timer_enable dev);;
  on_sched (sched_yield kernel_mmu).

Definition sched_run_ap (meanwhile : R unit) : R unit :=
  ap_prepare;;
  wait_for_schedulers meanwhile;;
  on_lapic (lapic_timer_enable dev);;
  on_sched (sched_yield kernel_mmu).

(** What another CPU [i] does up to the barrier, its count included. *)
Definition cpu_prepare (i : nat) : R unit :=
  s ← get;
  on_sched (modify (set_self i));;
  (if decide (i = O) then bsp_prepare else ap_prepare);;
  modify (λ s, mk_start (ks s) (ms s) (lp s) (u32 (schedulers_waiting s + 1)));;
  on_sched (modify (set_self (self (ks s)))).

Fixpoint cpus_prepare (l : list nat) : R unit :=
  match l with [] => mret tt | i :: l => cpu_prepare i;; cpus_prepare l end.
End code.

(** ** What the allocators promise *)

(** [sm_ok st al n]: the allocators are in order, [al] are the extents they
    have handed out, and [n] more requests of a task's or a queue's size or
    of a stack are served. *)
Class StartMemory {St : Type} (mo : memory_ops (St := St)) := {
  sm_ok : St → list extent → nat → Prop;
  sm_region : Z → Prop;
  sm_kmalloc st al n sz :
    sm_ok st al (S n) → (sz = SIZEOF_TASK ∨ sz = SIZEOF_RUNQ) →
    wp (m_kmalloc mo sz) st (λ p st', sm_ok st' ((p, sz) :: al) n ∧
      0 < p ∧ p + sz < 2 ^ 64 ∧ (16 | p) ∧ ∀ x, p ≤ x < p + sz → sm_region x);
  sm_pages st al n :
    sm_ok st al (S n) →
    wp (m_pages mo TASK_KSTACK_ORDER) st (λ p st', sm_ok st' ((p, TASK_KSTACK_SIZE) :: al) n ∧
      0 < p ∧ p + TASK_KSTACK_SIZE < 2 ^ 64 ∧ (16 | p) ∧ ∀ x, p ≤ x < p + TASK_KSTACK_SIZE → sm_region x);
  sm_apart st b al n c : sm_ok st (b :: al) n → c ∈ al → apart b c
}.

Section memory.
Context {St : Type} {BC : BuildConfig} (mo : memory_ops (St := St)) {SM : StartMemory mo}.
Context (kernel_mmu dummy default_regs ret_from_ufork_addr ret_from_kfork_addr idle_task init_kernel : Z).
Implicit Types m : mach St.

(** The machine can fork kernel threads: memory that is handed out can be
    written, the default registers are there, identifiers are left. *)
Record mem_ready m (al : list extent) (n : nat) : Prop := {
  mr_ok : sm_ok (mm m) al n;
  mr_words : ∀ x, sm_region x → (8 | x) → is_Some (words m !! x);
  mr_regs : ∃ c, callee_at (words m) default_regs c;
  mr_static : ∀ x, default_regs ≤ x < default_regs + 56 → ¬ sm_region x;
  mr_tid : 0 ≤ next_tid m ∧ next_tid m + Z.of_nat n < 2 ^ 31
}.

Definition stack_words : nat := 1024.

(** New pages are a stack that a fork can use. *)
Lemma stack_room m al n page :
  mem_ready m al n → 0 < page → page + TASK_KSTACK_SIZE < 2 ^ 64 → (16 | page) →
  (∀ x, page ≤ x < page + TASK_KSTACK_SIZE → sm_region x) →
  frame_at (words m) (TASK_KSTACK_SIZE + page) stack_words [] ∧ off_stack default_regs (TASK_KSTACK_SIZE + page) stack_words.
Proof using Type.
  intros [_ Hw _ Hst _] H0 H1 [k Hk] Hreg. change TASK_KSTACK_SIZE with 8192 in *. unfold stack_words, off_stack. split.
  - split; [|done|simpl; lia..]. intros j Hj. apply Hw; [apply Hreg; lia|]. exists (1024 + 2 * k - (Z.of_nat j + 1)). lia.
  - destruct (decide (default_regs + 56 ≤ page)); [left; lia|]. destruct (decide (8192 + page ≤ default_regs)); [by right|].
    exfalso. destruct (decide (default_regs ≤ page)); [apply (Hst page); [lia|]|apply (Hst default_regs); [lia|]]; apply Hreg; lia.
Qed.

(** A stack that was written to is still all there. *)
Lemma words_kept m top w' l :
  (∀ x, sm_region x → (8 | x) → is_Some (words m !! x)) → (8 | top) → frame_at w' top stack_words l → outside top stack_words (words m) w' →
  ∀ x, sm_region x → (8 | x) → is_Some (w' !! x).
Proof using Type.
  intros Hw [k Hk] Hf Ho x Hx [j Hj]. destruct (decide (x < top - 8 * Z.of_nat stack_words ∨ top ≤ x)) as [Hout|Hin].
  - rewrite Ho by done. apply Hw; [done|by exists j].
  - replace x with (top - 8 * (Z.of_nat (Z.to_nat (k - j - 1)) + 1)) by lia. apply (fr_room _ _ _ _ Hf). lia.
Qed.

(** A stack is not changed by what happens on another one. *)
Lemma stack_kept w w' page page' l :
  frame_at w (TASK_KSTACK_SIZE + page) stack_words l → outside (TASK_KSTACK_SIZE + page') stack_words w w' →
  apart (page', TASK_KSTACK_SIZE) (page, TASK_KSTACK_SIZE) → frame_at w' (TASK_KSTACK_SIZE + page) stack_words l.
Proof using Type.
  intros Hf Ho Ha. eapply frame_outside; [exact Hf|exact Ho|].
  unfold apart, stack_words in *. change TASK_KSTACK_SIZE with 8192 in *. simpl in Ha. lia.
Qed.

(** The record of a kernel thread forked from a task with flags [fl] and affinity [aff]. *)
Definition kthread (rsp page fl id aff : Z) : task :=
  mk_task rsp (TASK_KSTACK_SIZE + page) kernel_mmu (Z.lor fl TASK_KTHREAD) TASK_S_NOT_STARTED id id aff 0 0.

(** A new object's address is none of the old objects'. *)
Lemma fresh_address st p sz q sz' al n :
  sm_ok st ((p, sz) :: al) n → (q, sz') ∈ al → 0 < sz → 0 < sz' → p ≠ q.
Proof using Type. intros Hok Hin Hs Hs' ->. destruct (sm_apart _ _ _ _ _ Hok Hin); simpl in *; lia. Qed.

Lemma wp_fork_task (s : start St) parent p entry al n (Q : Z → start St → Prop) :
  mem_ready (ms s) al (S (S n)) → parent ≠ 0 → tasks (ks s) !! parent = Some p → ¬ sm_region dummy →
  (∀ t, is_Some (tasks (ks s) !! t) → t = dummy ∨ (t, SIZEOF_TASK) ∈ al) →
  (∀ t page rsp m', mem_ready m' ((page, TASK_KSTACK_SIZE) :: (t, SIZEOF_TASK) :: al) n →
     0 < t → t + SIZEOF_TASK < 2 ^ 64 → (16 | t) → tasks (ks s) !! t = None →
     outside (TASK_KSTACK_SIZE + page) stack_words (words (ms s)) (words m') →
     (∃ c, rsp = sp (TASK_KSTACK_SIZE + page) (kthread_stack ret_from_kfork_addr entry c) ∧
        frame_at (words m') (TASK_KSTACK_SIZE + page) stack_words (kthread_stack ret_from_kfork_addr entry c)) →
     Q t (mk_start (upd_knodes <[node_of t := zero_node]> (upd_tasks <[t := kthread rsp page (t_flags p) (next_tid (ms s) + 1) (affinity p)]> (ks s)))
            m' (lp s) (schedulers_waiting s))) →
  wp (fork_task mo kernel_mmu default_regs ret_from_ufork_addr ret_from_kfork_addr parent entry FORK_KTHREAD) s Q.
Proof using Type.
  intros Hm Hp0 Hp Hd Hal HQ. pose proof Hm as [Hok Hw [c Hc] Hst Htid].
  destruct (proj1 (wp_ok _ _ _) (sm_kmalloc _ _ _ _ Hok (or_introl eq_refl))) as (t & st1 & E1 & Hok1 & Ht0 & Ht1 & Ht16 & Htr).
  destruct (proj1 (wp_ok _ _ _) (sm_pages _ _ _ Hok1)) as (page & st2 & E2 & Hok2 & Hg0 & Hg1 & Hg16 & Hgr).
  assert (tasks (ks s) !! t = None) as Hnone.
  { apply eq_None_not_Some. intros [-> | Hin]%Hal; [apply Hd, Htr; unfold SIZEOF_TASK; lia|]. by eapply (fresh_address st1 t SIZEOF_TASK). }
  destruct (stack_room _ _ _ page Hm Hg0 Hg1 Hg16 Hgr) as [Hfr Hoff].
  unfold fork_task. apply wp_bind, wp_zoom. eapply wp_mono.
  { eapply (wp_task_fork_kthread mo kernel_mmu default_regs ret_from_ufork_addr ret_from_kfork_addr _ parent p entry FORK_KTHREAD NULL c stack_words t page kernel_mmu st2);
      [done|exact Hp|done|done|exact Hc|unfold stack_words; lia| |].
    - unfold fork_memory. simpl. unfold mbind, M_bind. rewrite E1. simpl. by rewrite E2.
    - split_and!; [lia|exact Hnone|exact Hfr|exact Hoff]. }
  intros t' m' [-> [Hts Hf Ho Hr Hcur Hid Hmm]]. wp_steps. simpl in Hts, Hid, Ho, Hf.
  assert (fork_id (upd_tasks_ (λ _, tasks (ks s)) (ms s)) = next_tid (ms s) + 1) as Eid.
  { unfold fork_id. simpl. rewrite (uwrap_id 32) by (unfold in_u; lia). unfold swrap. rewrite Z.mod_small by lia.
    destruct (Z.ltb_spec (next_tid (ms s) + 1) (2 ^ (32 - 1))); lia. }
  unfold upd_ks, upd_tasks, upd_knodes. simpl. rewrite Hts, Eid. apply (HQ t page _ m'); [|lia|lia|done|done|exact Ho|by exists c].
  split.
  - by rewrite Hmm.
  - eapply (words_kept (ms s)); [exact Hw| |exact Hf|exact Ho]. destruct Hg16 as [k ->]. exists (1024 + 2 * k). change TASK_KSTACK_SIZE with 8192. lia.
  - exists c. eapply callee_outside; [exact Hc|exact Hoff|exact Ho].
  - exact Hst.
  - rewrite Hid, (uwrap_id 32) by (unfold in_u; lia). lia.
Qed.
End memory.

(** ** On the way to the invariant *)

Section starting.
Context (kernel_mmu dummy : Z).

(** The affinity of the idle task of CPU [i]: pinned, and that CPU only. *)
Definition idle_affinity (i : nat) : Z := Z.lor (2 ^ (Z.of_nat i + 1)) 1.

(** The CPUs in [P] have a queue and an idle task and run the dummy task; the
    rest of the system is in order, and its objects are among the extents
    [al]. *)
Record starting (k : kstate) (al : list extent) (Qs : gmap Z (list Z)) (P : list nat) : Prop := {
  sg_queues : queues k Qs;
  sg_dummy : ∃ tk, tasks k !! dummy = Some tk ∧ tid tk = TID_IDLE;
  sg_tasks_al : ∀ t, is_Some (tasks k !! t) → t = dummy ∨ (t, SIZEOF_TASK) ∈ al;
  sg_runqs_al : ∀ q, is_Some (runqs k !! q) → (q, SIZEOF_RUNQ) ∈ al;
  sg_tasks : ∀ t tk, tasks k !! t = Some tk → task_ok k t tk;
  sg_queued : ∀ t, queued Qs t → ∃ tk, tasks k !! t = Some tk ∧ tid tk ≠ TID_IDLE ∧ t_state tk = TASK_S_RUNNABLE;
  sg_ids : ∀ i pi, percpu_table k !! i = Some pi → cpu_id pi = Z.of_nat i ∧ in_u 64 (preempt_count pi);
  sg_current : ∀ i pi, i = O ∨ i ∈ P → percpu_table k !! i = Some pi → current_task pi = dummy;
  sg_cpu : ∀ i pi, i ∈ P → percpu_table k !! i = Some pi → ∃ D q ik,
    Qs !! run_queue pi = Some D ∧ runqs k !! run_queue pi = Some q ∧ rq_lock q = 0 ∧
    tasks k !! rq_idle q = Some ik ∧ tid ik = TID_IDLE ∧ t_state ik = TASK_S_RUNNABLE ∧ affinity ik = idle_affinity i;
  sg_inj : ∀ i j pi pj, i ∈ P → j ∈ P → percpu_table k !! i = Some pi → percpu_table k !! j = Some pj → i ≠ j →
    run_queue pi ≠ run_queue pj;
  sg_cores : Z.of_nat (length (percpu_table k)) ≤ MAX_CORES;
  sg_mmus : ∀ m mm, mmus k !! m = Some mm → m ≠ NULL ∧ cpu_lock mm = 0;
  sg_p4 : ∀ m m' mm mm', mmus k !! m = Some mm → mmus k !! m' = Some mm' → p4 mm = p4 mm' → m = m';
  sg_kernel : is_Some (mmus k !! kernel_mmu)
}.

(** When every CPU has come that far, the system's invariant holds. *)
Lemma starting_sys_inv k al Qs P :
  starting k al Qs P → (∀ i, (i < length (percpu_table k))%nat → i ∈ P) → sys_inv k Qs.
Proof using Type.
  intros [HQ (dk & Hd & Hdt) _ _ Ht Hqd Hid Hcur Hcpu Hinj Hc Hm Hp4 _] Hall.
  assert (∀ i pi, percpu_table k !! i = Some pi → i ∈ P) as HP by (intros i pi Hi; by eapply Hall, lookup_lt_Some).
  split; try done.
  - split; [by intros; apply Hid|..].
    + intros i pi Hi. destruct (Hcpu i pi (HP _ _ Hi) Hi) as (D & q & _ & ? & ? & ? & _). eauto.
    + intros i j pi pj Hi Hj. by apply (Hinj i j pi pj (HP _ _ Hi) (HP _ _ Hj)).
  - intros i pi Hi. rewrite (Hcur i pi (or_intror (HP _ _ Hi)) Hi). exists dk. split_and!; [done| |done].
    intros (tk & E & Hne & _)%Hqd. congruence.
  - intros i j pi pj tk Hi Hj _ _. rewrite (Hcur i pi (or_intror (HP _ _ Hi)) Hi). congruence.
  - intros i pi q Hi Hq. destruct (Hcpu i pi (HP _ _ Hi) Hi) as (D & q' & ik & _ & Hq' & _ & ? & ? & ? & _).
    assert (q' = q) as -> by congruence. eauto.
Qed.

(** Changing which CPU executes. *)
Lemma starting_self k al Qs P i : starting k al Qs P → starting (set_self i k) al Qs P.
Proof using Type.
  intros []. split; try done.
  - by eapply queues_ext.
  - intros t tk Ht. destruct (sg_tasks0 t tk Ht). by split.
Qed.

(** More extents are handed out. *)
Lemma starting_more k al al' Qs P : starting k al Qs P → al ⊆ al' → starting k al' Qs P.
Proof using Type.
  intros [] Hal. split; try done.
  - intros t Ht. destruct (sg_tasks_al0 t Ht); [by left|right; by apply Hal].
  - intros q Hq. by apply Hal, sg_runqs_al0.
Qed.

(** The executing CPU, which is not prepared yet, gets its current task. *)
Lemma starting_set_current k al Qs P :
  starting k al Qs P → self k ∉ P → starting (upd_percpu (pc_set_current dummy) k) al Qs P.
Proof using Type.
  intros [] Hself.
  assert (∀ i pi, percpu_table (upd_percpu (pc_set_current dummy) k) !! i = Some pi → ∃ p0, percpu_table k !! i = Some p0 ∧
    cpu_id pi = cpu_id p0 ∧ preempt_count pi = preempt_count p0 ∧ run_queue pi = run_queue p0 ∧
    (current_task pi = current_task p0 ∨ current_task pi = dummy)) as Hback.
  { simpl. intros i pi. destruct (decide (self k = i)) as [<-|].
    - rewrite list_lookup_alter_eq. intros (p0 & Hp & ->)%fmap_Some. exists p0. split_and!; try done. by right.
    - rewrite list_lookup_alter_ne by done. exists pi. split_and!; try done. by left. }
  split; try done.
  - by eapply queues_ext.
  - intros t tk Ht. destruct (sg_tasks0 t tk Ht). by split.
  - intros i pi (p0 & Hp & E1 & E2 & _)%Hback. rewrite E1, E2. by apply sg_ids0.
  - intros i pi Hi (p0 & Hp & _ & _ & _ & [-> | E])%Hback; [|done]. by eapply sg_current0.
  - intros i pi Hi (p0 & Hp & _ & _ & E & _)%Hback. rewrite E. by apply sg_cpu0.
  - intros i j pi pj Hi Hj (p0 & Hp & _ & _ & E & _)%Hback (p1 & Hp1 & _ & _ & E1 & _)%Hback. rewrite E, E1. by apply sg_inj0.
  - simpl. by rewrite length_alter.
Qed.

(** A new object's node. *)
Lemma new_node t : 0 < t → t + SIZEOF_TASK < 2 ^ 64 → (16 | t) → valid (node_of t).
Proof using Type.
  intros H0 H1 [k ->]. unfold valid, node_of, SCHED_OFFSET, SIZEOF_TASK in *. split; [lia|].
  rewrite Z.bit0_odd. replace (k * 16 + 72) with (2 * (k * 8 + 36)) by lia. by rewrite Z.odd_mul.
Qed.

Lemma vr_of_insert_ne ts t tk u : u ≠ t → vr_of (<[t := tk]> ts) u = vr_of ts u.
Proof using Type. intros. unfold vr_of. by rewrite lookup_insert_ne. Qed.

(** The queues do not see a new task. *)
Lemma queues_new_task k Qs t tk :
  queues k Qs → tasks k !! t = None → queues (upd_knodes <[node_of t := zero_node]> (upd_tasks <[t := tk]> k)) Qs.
Proof using Type.
  intros [Hdom Hdisj] Hn. split; [|done]. intros rq D HD. destruct (Hdom _ _ HD) as (Hne & q & Hq & Hh).
  split; [done|]. exists q. split; [done|]. pose proof (rqh_tasks _ _ _ _ Hh) as Hts. rewrite Forall_forall in Hts.
  assert (∀ u, u ∈ D → u ≠ t) as Hut by (intros u Hu ->; destruct (Hts t Hu) as [_ []]; congruence).
  eapply rq_holds_frame; [exact Hh|done..| |]; simpl.
  - intros u Hu. rewrite lookup_insert_ne; [done|]. intros E%(inj _). by apply (Hut u).
  - intros u Hu. specialize (Hut u Hu). split; [|by apply vr_of_insert_ne]. rewrite lookup_insert_ne by done. by apply Hts.
Qed.

Lemma starting_new_task k al Qs P t tk :
  starting k al Qs P → tasks k !! t = None → 0 < t → t + SIZEOF_TASK < 2 ^ 64 → (16 | t) →
  t_mmu tk = kernel_mmu → (t, SIZEOF_TASK) ∈ al →
  starting (upd_knodes <[node_of t := zero_node]> (upd_tasks <[t := tk]> k)) al Qs P.
Proof using Type.
  intros [] Hn H0 H1 H16 Hm Hal.
  assert (∀ u uk, tasks k !! u = Some uk → <[t := tk]> (tasks k) !! u = Some uk) as Hold.
  { intros u uk Hu. rewrite lookup_insert_ne; [done|]. intros ->. congruence. }
  split; try done; simpl.
  - by apply queues_new_task.
  - destruct sg_dummy0 as (dk & ? & ?). exists dk. split; [by apply Hold|done].
  - intros u. destruct (decide (t = u)) as [->|]; [by right|]. rewrite lookup_insert_ne by done. apply sg_tasks_al0.
  - intros u uk Hu. destruct (decide (t = u)) as [->|].
    + rewrite lookup_insert_eq in Hu. injection Hu as <-. split; [lia|by apply new_node|simpl; by rewrite lookup_insert_eq|by rewrite Hm].
    + rewrite lookup_insert_ne in Hu by done. destruct (sg_tasks0 u uk Hu). split; try done. simpl. by apply insert_keeps.
  - intros u Hu. destruct (sg_queued0 u Hu) as (uk & ? & ?). exists uk. split; [by apply Hold|done].
  - intros i pi Hi Hpi. destruct (sg_cpu0 i pi Hi Hpi) as (D & q & ik & ? & ? & ? & ? & ? & ? & ?).
    exists D, q, ik. split_and!; try done. by apply Hold.
Qed.
End starting.

(** ** runq_init *)

Section prepare.
Context {St : Type} {BC : BuildConfig} (mo : memory_ops (St := St)) {SM : StartMemory mo}.
Context (kernel_mmu dummy default_regs ret_from_ufork_addr ret_from_kfork_addr idle_task init_kernel : Z).
Context (Hdummy : dummy ≠ 0) (Hstatic : ¬ sm_region dummy).

(** A CPU gets the queue [rq] and the idle task [t]. *)
Definition prepared (k : kstate) (rq t : Z) (ik : task) : kstate :=
  mk_kstate (<[node_of t := zero_node]> (knodes k)) (<[t := ik]> (tasks k))
    (<[rq := mk_runq 0 t (mk_tree NULL NULL) 0]> (runqs k)) (mmus k)
    (alter (pc_set_rq rq) (self k) (percpu_table k)) (self k) (cr3 k) (rsp k).

(** The assignments to the idle task. *)
Lemma wp_idle_fields k p rq q t tk (Q : unit → kstate → Prop) :
  percpu_table k !! self k = Some p → cpu_id p = Z.of_nat (self k) → Z.of_nat (self k) < MAX_CORES →
  tasks k !! t = Some tk → t ≠ 0 → runqs k !! rq = Some q → rq ≠ 0 →
  Q tt (upd_runqs <[rq := rq_set_idle t q]> (upd_tasks <[t := set_tid TID_IDLE (set_state TASK_S_RUNNABLE (set_affinity (idle_affinity (self k)) tk))]> k)) →
  wp (on_affinity t cpuset_clear;;
      id ← smp_cpu_id;
      on_affinity t (cpuset_set_id id true);;
      on_affinity t cpuset_pin;;
      wr_task t (set_state TASK_S_RUNNABLE);;
      wr_task t (set_tid TID_IDLE);;
      wr_rq rq (rq_set_idle t)) k Q.
Proof using Type.
  intros Hp Hid Hc Ht Ht0 Hq Hq0 HQ. unfold on_affinity, smp_cpu_id.
  apply wp_bind, wp_bind. eapply wp_deref; [exact Ht|done|]. apply wp_zoom. apply (wp_put 0 _). cbn beta.
  apply wp_bind, wp_bind. unfold wp at 1, this_cpu. simpl percpu_table. simpl self. rewrite Hp. apply wp_ret. rewrite Hid.
  apply wp_bind, wp_bind. eapply wp_deref; [apply lookup_insert_eq|done|]. apply wp_zoom. unfold wp at 1. simpl affinity.
  rewrite wp_cpuset_set by lia. cbn iota beta.
  apply wp_bind, wp_bind. eapply wp_deref; [apply lookup_insert_eq|done|]. apply wp_zoom, wp_modify. cbn beta.
  apply wp_bind. eapply wp_store; [apply lookup_insert_eq|done|]. apply wp_bind. eapply wp_store; [apply lookup_insert_eq|done|].
  eapply wp_store; [exact Hq|done|].
  unfold upd_tasks, upd_runqs in *. simpl. rewrite !insert_insert_eq. exact HQ.
Qed.

Lemma wp_runq_init (s : start St) al n dk p (Q : unit → start St → Prop) :
  mem_ready mo default_regs (ms s) al (3 + n) → tasks (ks s) !! dummy = Some dk →
  (∀ t, is_Some (tasks (ks s) !! t) → t = dummy ∨ (t, SIZEOF_TASK) ∈ al) →
  percpu_table (ks s) !! self (ks s) = Some p → cpu_id p = Z.of_nat (self (ks s)) → Z.of_nat (self (ks s)) < MAX_CORES →
  (∀ rq t page ik m', let al' := (page, TASK_KSTACK_SIZE) :: (t, SIZEOF_TASK) :: (rq, SIZEOF_RUNQ) :: al in
     mem_ready mo default_regs m' al' n → 0 < rq → (∀ q, (q, SIZEOF_RUNQ) ∈ al → rq ≠ q) →
     0 < t → t + SIZEOF_TASK < 2 ^ 64 → (16 | t) → tasks (ks s) !! t = None →
     outside (TASK_KSTACK_SIZE + page) stack_words (words (ms s)) (words m') →
     t_mmu ik = kernel_mmu → tid ik = TID_IDLE → t_state ik = TASK_S_RUNNABLE → affinity ik = idle_affinity (self (ks s)) →
     Q tt (mk_start (prepared (ks s) rq t ik) m' (lp s) (schedulers_waiting s))) →
  wp (runq_init mo kernel_mmu default_regs ret_from_ufork_addr ret_from_kfork_addr idle_task dummy) s Q.
Proof using Hdummy Hstatic.
  intros Hm Hd Hal Hp Hid Hcore HQ. destruct Hm as [Hok Hw Hc Hst Htid].
  destruct (proj1 (wp_ok _ _ _) (sm_kmalloc _ _ _ _ Hok (or_intror eq_refl))) as (rq & st1 & E1 & Hok1 & Hr0 & Hr1 & _ & _).
  unfold runq_init, rq_alloc. apply wp_bind, wp_bind, wp_zoom. eapply wp_on_mm; [exact E1|].
  rewrite (proj2 (Z.eqb_neq rq NULL)) by lia. apply wp_bind, wp_zoom, wp_modify, wp_ret. cbn beta.
  apply wp_bind, wp_zoom. unfold percpu_upd. apply wp_bind. unfold wp at 1, this_cpu. simpl. rewrite Hp. apply wp_modify.
  set (s1 := upd_ks _ _). apply wp_bind.
  eapply (wp_fork_task mo kernel_mmu dummy default_regs ret_from_ufork_addr ret_from_kfork_addr s1 dummy dk _ ((rq, SIZEOF_RUNQ) :: al) n);
    [|done|exact Hd|done| |].
  - split; [exact Hok1|exact Hw|exact Hc|exact Hst|]. simpl. lia.
  - intros t Ht. destruct (Hal t Ht); [by left|right; by constructor].
  - intros t page rsp m' Hm' Ht0 Ht1 Ht16 Htn Hout _. apply wp_zoom. simpl ks.
    eapply wp_idle_fields; [simpl; by rewrite list_lookup_alter_eq, Hp|done|done|apply lookup_insert_eq|lia|apply lookup_insert_eq|lia|].
    unfold upd_ks, upd_tasks, upd_runqs, upd_knodes. simpl. rewrite !insert_insert_eq.
    eapply (HQ rq t page); try done. intros q Hq. by eapply (fresh_address mo st1 rq SIZEOF_RUNQ).
Qed.

Lemma elem_of_tail {A} (x a : A) l : x ∈ a :: l → x ≠ a → x ∈ l.
Proof using Type. intros [-> | ?]%elem_of_cons ?; done. Qed.

Lemma prepared_back k rq t ik i pi :
  percpu_table (prepared k rq t ik) !! i = Some pi → ∃ p0, percpu_table k !! i = Some p0 ∧
    cpu_id pi = cpu_id p0 ∧ preempt_count pi = preempt_count p0 ∧ current_task pi = current_task p0 ∧
    (i = self k ∧ run_queue pi = rq ∨ i ≠ self k ∧ run_queue pi = run_queue p0).
Proof using Type.
  simpl. destruct (decide (self k = i)) as [<-|].
  - rewrite list_lookup_alter_eq. intros (p0 & Hp & ->)%fmap_Some. exists p0. split_and!; try done. by left.
  - rewrite list_lookup_alter_ne by done. intros Hp. exists pi. split_and!; try done. right. done.
Qed.

(** The queues with one more, which is empty. *)
Lemma queues_prepared k Qs rq t ik :
  queues k Qs → tasks k !! t = None → 0 < rq → runqs k !! rq = None → queues (prepared k rq t ik) (<[rq := []]> Qs).
Proof using Type.
  intros HQ Hn H0 Hr. destruct (queues_new_task k Qs t ik HQ Hn) as [Hdom Hdisj]. split.
  - intros r D. destruct (decide (rq = r)) as [<-|].
    + rewrite lookup_insert_eq. intros [= <-]. split; [lia|]. eexists. simpl. rewrite lookup_insert_eq. split; [done|].
      split; [by apply rbtree_is_nil|done|constructor|done].
    + rewrite lookup_insert_ne by done. intros HD. destruct (Hdom _ _ HD) as (Hne & q & Hq & Hh). split; [done|].
      exists q. simpl. rewrite lookup_insert_ne by done. done.
  - intros r r' D D' H1 H2 Hne u Hu Hu'. destruct (decide (rq = r)) as [<-|].
    { rewrite lookup_insert_eq in H1. injection H1 as <-. by apply not_elem_of_nil in Hu. }
    destruct (decide (rq = r')) as [<-|].
    { rewrite lookup_insert_eq in H2. injection H2 as <-. by apply not_elem_of_nil in Hu'. }
    rewrite lookup_insert_ne in H1, H2 by done. by eapply (Hdisj r r').
Qed.

Lemma starting_prepared k al Qs P rq t ik p :
  starting kernel_mmu dummy k al Qs P → self k ∉ P → percpu_table k !! self k = Some p → current_task p = dummy →
  0 < rq → runqs k !! rq = None → (rq, SIZEOF_RUNQ) ∈ al →
  tasks k !! t = None → 0 < t → t + SIZEOF_TASK < 2 ^ 64 → (16 | t) → (t, SIZEOF_TASK) ∈ al →
  t_mmu ik = kernel_mmu → tid ik = TID_IDLE → t_state ik = TASK_S_RUNNABLE → affinity ik = idle_affinity (self k) →
  starting kernel_mmu dummy (prepared k rq t ik) al (<[rq := []]> Qs) (self k :: P).
Proof using Type.
  intros Hs Hself Hp Hcur Hr0 Hr Hral Ht Ht0 Ht1 Ht16 Htal Hm Hid Hst Haff. pose proof Hs as [HQ _ _ Hrqs _ _ Hids Hc Hcpu Hinj Hcores Hmm Hp4 Hk].
  destruct (starting_new_task kernel_mmu dummy k al Qs P t ik Hs Ht Ht0 Ht1 Ht16 Hm Htal) as [_ Hd Htsal _ Htsk Hqd _ _ Hcpu' _ _ _ _ _].
  assert (∀ r D, Qs !! r = Some D → r ≠ rq) as HQne.
  { intros r D HD ->. destruct (qs_dom _ _ HQ _ _ HD) as (_ & q & Hq & _). congruence. }
  assert (∀ u, queued (<[rq := []]> Qs) u → queued Qs u) as Hback.
  { intros u (r & D & HD & Hu). destruct (decide (rq = r)) as [<-|]; [|rewrite lookup_insert_ne in HD by done; by exists r, D].
    rewrite lookup_insert_eq in HD. injection HD as <-. by apply not_elem_of_nil in Hu. }
  split; try done.
  - by apply queues_prepared.
  - intros q. simpl. destruct (decide (rq = q)) as [->|]; [done|]. rewrite lookup_insert_ne by done. apply Hrqs.
  - intros u uk Hu. destruct (Htsk u uk Hu). by split.
  - intros u Hu. by apply Hqd, Hback.
  - intros i pi (p0 & Hp0 & E1 & E2 & _)%prepared_back. rewrite E1, E2. by apply Hids.
  - intros i pi Hi (p0 & Hp0 & _ & _ & E & _)%prepared_back. rewrite E. destruct (decide (i = self k)) as [->|]; [congruence|].
    apply (Hc i p0); [|done]. destruct Hi as [?|Hi]; [by left|right; by apply (elem_of_tail _ (self k))].
  - intros i pi Hi (p0 & Hp0 & _ & _ & _ & Hrq)%prepared_back. destruct Hrq as [[-> ->]|[Hne ->]].
    + exists [], (mk_runq 0 t (mk_tree NULL NULL) 0), ik. simpl. rewrite !lookup_insert_eq. by split_and!.
    + destruct (Hcpu' i p0) as (D & q & jk & HD & Hq & ? & Hjk & ?); [by apply (elem_of_tail _ (self k))|done|]. exists D, q, jk.
      pose proof (HQne _ _ HD). simpl in *. rewrite !lookup_insert_ne by done. done.
  - intros i j pi pj Hi Hj (p0 & Hp0 & _ & _ & _ & Hi')%prepared_back (p1 & Hp1 & _ & _ & _ & Hj')%prepared_back Hne.
    assert (∀ x px, x ∈ self k :: P → x ≠ self k → percpu_table k !! x = Some px → run_queue px ≠ rq) as Hold.
    { intros x px Hx Hxs Hpx. destruct (Hcpu x px) as (D & _ & _ & HD & _); [by apply (elem_of_tail _ (self k))|done|]. by eapply HQne. }
    destruct Hi' as [[-> ->]|[Hni ->]], Hj' as [[-> ->]|[Hnj ->]]; try done.
    + intros E. by apply (Hold j p1).
    + by apply (Hold i p0).
    + apply (Hinj i j); [by apply (elem_of_tail _ (self k))..|done|done|done].
  - simpl. by rewrite length_alter.
Qed.

(** CPU 0's queue holds the first thread, the others are empty. *)
Record init_queued (k : kstate) (Qs : gmap Z (list Z)) (P : list nat) (t : Z) : Prop := {
  iq_cpu : ∀ i pi, i ∈ P → percpu_table k !! i = Some pi → Qs !! run_queue pi = Some (if decide (i = O) then [t] else []);
  iq_only : ∀ r D u, Qs !! r = Some D → u ∈ D → u = t ∧ O ∈ P ∧ ∃ p0, percpu_table k !! O = Some p0 ∧ r = run_queue p0
}.

(** Once CPU 0 is prepared, the stack of the first thread is the one on which
    [ret_from_kfork] calls [init_kernel]. *)
Definition init_stack (s : start St) (al : list extent) (P : list nat) (t : Z) : Prop :=
  O ∈ P → ∃ page tk c, (page, TASK_KSTACK_SIZE) ∈ al ∧ tasks (ks s) !! t = Some tk ∧
    rsp_top tk = sp (TASK_KSTACK_SIZE + page) (kthread_stack ret_from_kfork_addr init_kernel c) ∧
    frame_at (words (ms s)) (TASK_KSTACK_SIZE + page) stack_words (kthread_stack ret_from_kfork_addr init_kernel c).

(** The CPUs in [P] are prepared and [n] requests are served. *)
Definition at_start (s : start St) (P : list nat) (n : nat) (t : Z) : Prop :=
  ∃ al Qs, mem_ready mo default_regs (ms s) al n ∧ starting kernel_mmu dummy (ks s) al Qs P ∧ init_queued (ks s) Qs P t ∧
    init_stack s al P t.

Lemma init_stack_kept s s' al al' P t page' n :
  init_stack s al P t → outside (TASK_KSTACK_SIZE + page') stack_words (words (ms s)) (words (ms s')) →
  sm_ok (mm (ms s')) ((page', TASK_KSTACK_SIZE) :: al') n → al ⊆ al' →
  (∀ tk, tasks (ks s) !! t = Some tk → tasks (ks s') !! t = Some tk) →
  init_stack s' ((page', TASK_KSTACK_SIZE) :: al') P t.
Proof using Type.
  intros Hi Ho Hok Hal Ht HP. destruct (Hi HP) as (page & tk & c & Hpage & Htk & Hrsp & Hf). exists page, tk, c.
  split_and!; [by apply elem_of_cons; right; apply Hal|by apply Ht|done|].
  eapply stack_kept; [exact Hf|exact Ho|]. eapply sm_apart; [exact Hok|by apply Hal].
Qed.

(** What preparing one CPU leaves alone. *)
Record start_kept (s s' : start St) : Prop := {
  sk_self : self (ks s') = self (ks s);
  sk_cpus : preempt_count <$> percpu_table (ks s') = preempt_count <$> percpu_table (ks s);
  sk_lapic : lp s' = lp s;
  sk_waiting : schedulers_waiting s' = schedulers_waiting s
}.

Abbreviation runq_init_ := (runq_init mo kernel_mmu default_regs ret_from_ufork_addr ret_from_kfork_addr idle_task dummy).
Abbreviation ap_prepare_ := (ap_prepare mo kernel_mmu dummy default_regs ret_from_ufork_addr ret_from_kfork_addr idle_task).
Abbreviation bsp_prepare_ := (bsp_prepare mo kernel_mmu dummy default_regs ret_from_ufork_addr ret_from_kfork_addr idle_task init_kernel).

Lemma wp_runq_init_start s P n t p :
  at_start s P (3 + n) t → self (ks s) ∉ P → percpu_table (ks s) !! self (ks s) = Some p → current_task p = dummy →
  wp runq_init_ s (λ _ s', start_kept s s' ∧ ∃ al Qs p', mem_ready mo default_regs (ms s') al n ∧
    starting kernel_mmu dummy (ks s') al Qs (self (ks s) :: P) ∧ init_queued (ks s') Qs P t ∧ init_stack s' al P t ∧
    percpu_table (ks s') !! self (ks s) = Some p' ∧ Qs !! run_queue p' = Some []).
Proof using Hdummy Hstatic.
  intros (al & Qs & Hm & Hs & Hi & Hstk) Hself Hp Hcur. pose proof (sg_dummy _ _ _ _ _ _ Hs) as (dk & Hd & _).
  destruct (sg_ids _ _ _ _ _ _ Hs _ _ Hp) as [Hid _]. pose proof (lookup_lt_Some _ _ _ Hp). pose proof (sg_cores _ _ _ _ _ _ Hs).
  eapply (wp_runq_init s al n dk p); [exact Hm|exact Hd|apply Hs|exact Hp|exact Hid|lia|].
  intros rq u page ik m' al' Hm' Hr0 Hrn Hu0 Hu1 Hu16 Hun Hout Hkm Htid Hst Haff.
  assert (runqs (ks s) !! rq = None) as Hrnone.
  { apply eq_None_not_Some. intros Hq%(sg_runqs_al _ _ _ _ _ _ Hs). by apply (Hrn rq). }
  assert (starting kernel_mmu dummy (prepared (ks s) rq u ik) al' (<[rq := []]> Qs) (self (ks s) :: P)) as Hs'.
  { eapply starting_prepared; try done; [|unfold al'; by repeat constructor..].
    eapply starting_more; [exact Hs|]. intros x Hx. unfold al'. by do 3 constructor. }
  split; [split; try done|].
  - simpl. apply list_eq. intros i. rewrite !list_lookup_fmap. destruct (decide (self (ks s) = i)) as [<-|].
    + by rewrite list_lookup_alter_eq, Hp.
    + by rewrite list_lookup_alter_ne.
  - exists al', (<[rq := []]> Qs), (pc_set_rq rq p). split; [exact Hm'|]. split; [exact Hs'|].
    split; [|split; [|simpl; by rewrite list_lookup_alter_eq, Hp, lookup_insert_eq]].
    2: { eapply (init_stack_kept s _ al); [exact Hstk|exact Hout|apply Hm'|intros x Hx; by do 2 constructor|].
         intros tk Htk. simpl. rewrite lookup_insert_ne; [done|]. intros ->. congruence. }
    destruct Hi as [Hi Ho]. split.
    + intros i pi Hin (p0 & Hp0 & _ & _ & _ & Hq)%prepared_back. destruct Hq as [[-> _]|[Hne ->]]; [done|].
      specialize (Hi i p0 Hin Hp0). rewrite lookup_insert_ne; [exact Hi|]. intros ->.
      destruct (qs_dom _ _ (sg_queues _ _ _ _ _ _ Hs) _ _ Hi) as (_ & q & Hq & _). congruence.
    + intros r D v HD Hv. destruct (decide (rq = r)) as [<-|]; [rewrite lookup_insert_eq in HD; injection HD as <-; by apply not_elem_of_nil in Hv|].
      rewrite lookup_insert_ne in HD by done. destruct (Ho r D v HD Hv) as (-> & HOP & p0 & Hp0 & ->). split_and!; [done..|].
      exists p0. simpl. rewrite list_lookup_alter_ne; [done|]. intros E. by rewrite E in Hself.
Qed.

Lemma wp_ap_prepare s P n t :
  at_start s P (3 + n) t → self (ks s) ∉ P → self (ks s) ≠ O → (self (ks s) < length (percpu_table (ks s)))%nat →
  wp ap_prepare_ s (λ _ s', start_kept s s' ∧ at_start s' (self (ks s) :: P) n t).
Proof using Hdummy Hstatic.
  intros (al & Qs & Hm & Hs & Hi & Hstk) Hself H0 [p Hp]%lookup_lt_is_Some_2. unfold ap_prepare.
  apply wp_bind, wp_zoom. unfold percpu_upd. apply wp_bind. unfold wp at 1, this_cpu. rewrite Hp. apply wp_modify.
  set (s1 := upd_ks _ s).
  assert (percpu_table (ks s1) !! self (ks s1) = Some (pc_set_current dummy p)) as Hp1 by (simpl; by rewrite list_lookup_alter_eq, Hp).
  assert (at_start s1 P (3 + n) t) as Hat.
  { exists al, Qs. split; [exact Hm|]. split; [by apply starting_set_current|]. split; [|exact Hstk]. destruct Hi as [Hi Ho]. split.
    - intros i pi Hin. simpl. rewrite list_lookup_alter_ne by (by intros <-). by apply Hi.
    - intros r D v HD Hv. destruct (Ho r D v HD Hv) as (-> & HOP & p0 & Hp0 & ->). split_and!; [done..|].
      exists p0. simpl. by rewrite list_lookup_alter_ne. }
  eapply wp_mono; [by eapply (wp_runq_init_start s1 P n t)|]. intros _ s' [[K1 K2 K3 K4] (al' & Qs' & p' & Hm' & Hs' & Hi' & Hstk' & Hp' & Hq')].
  split; [split; try done|].
  - rewrite K2. simpl. apply list_eq. intros i. rewrite !list_lookup_fmap. destruct (decide (self (ks s) = i)) as [<-|].
    + by rewrite list_lookup_alter_eq, Hp.
    + by rewrite list_lookup_alter_ne.
  - exists al', Qs'. split; [done|]. split; [done|]. split; [|intros [E|HO]%elem_of_cons; [congruence|by apply Hstk']].
    destruct Hi' as [Hi' Ho']. split.
    + intros i pi Hin Hpi. destruct (decide (i = self (ks s))) as [->|].
      * rewrite decide_False by done. simpl in Hp'. by assert (pi = p') as -> by congruence.
      * apply Hi'; [by apply (elem_of_tail _ (self (ks s)))|done].
    + intros r D v HD Hv. destruct (Ho' r D v HD Hv) as (-> & HOP & ?). split_and!; [done|by constructor|done].
Qed.

(** A thread that was just made is woken up on a CPU with an empty queue. *)
Lemma starting_woken k k' al Qs P t tk rq :
  starting kernel_mmu dummy k al Qs P → tasks k !! t = Some tk → tid tk ≠ TID_IDLE → Qs !! rq = Some [] →
  queues k' (<[rq := [t]]> Qs) → tasks k' = <[t := set_state TASK_S_RUNNABLE tk]> (tasks k) → env_kept k k' →
  starting kernel_mmu dummy k' al (<[rq := [t]]> Qs) P.
Proof using Type.
  intros [] Ht Hid Hrq HQ' Hts [Em Ep Es _ _ Emeta En].
  assert (∀ u uk, tasks k !! u = Some uk → ∃ uk', tasks k' !! u = Some uk' ∧ tid uk' = tid uk ∧ t_mmu uk' = t_mmu uk ∧ affinity uk' = affinity uk ∧
    (t_state uk' = t_state uk ∨ t_state uk' = TASK_S_RUNNABLE)) as Hfwd.
  { intros u uk Hu. rewrite Hts. destruct (decide (t = u)) as [<-|].
    - rewrite lookup_insert_eq. eexists. split; [done|]. assert (tk = uk) as -> by congruence. split_and!; try done. by right.
    - rewrite lookup_insert_ne by done. exists uk. split_and!; try done. by left. }
  assert (∀ u, is_Some (tasks k' !! u) → is_Some (tasks k !! u)) as Hbk.
  { intros u. rewrite Hts. destruct (decide (t = u)) as [<-|]; [by rewrite Ht|by rewrite lookup_insert_ne]. }
  assert (∀ q x, runqs k' !! q = Some x → ∃ y, runqs k !! q = Some y ∧ rq_meta x = rq_meta y) as Hrk.
  { intros q x Hx. specialize (Emeta q). rewrite Hx in Emeta. destruct (runqs k !! q) as [y|]; [|done]. injection Emeta as E1 E2. exists y. split; [done|].
    unfold rq_meta. by rewrite E1, E2. }
  split; rewrite ?Ep, ?Em; try done.
  - destruct sg_dummy0 as (dk & Hd & Hdt). destruct (Hfwd _ _ Hd) as (dk' & ? & ? & _). exists dk'. split; congruence.
  - intros u Hu. by apply sg_tasks_al0, Hbk.
  - intros q [x Hx]. destruct (Hrk _ _ Hx) as (y & Hy & _). apply sg_runqs_al0. by exists y.
  - intros u uk' Hu. destruct (Hbk u ltac:(by exists uk')) as [uk Huk]. destruct (Hfwd _ _ Huk) as (x & Hx & _ & Emm & _).
    assert (x = uk') as -> by congruence. destruct (sg_tasks0 u uk Huk). split; [done|done|by apply En|by rewrite Em, Emm].
  - intros u (r & D & HD & Hu). destruct (decide (rq = r)) as [<-|].
    + rewrite lookup_insert_eq in HD. injection HD as <-. apply list_elem_of_singleton in Hu as ->. rewrite Hts, lookup_insert_eq. by eexists.
    + rewrite lookup_insert_ne in HD by done. destruct (sg_queued0 u) as (uk & Huk & Hn & Hst); [by exists r, D|].
      destruct (Hfwd _ _ Huk) as (uk' & ? & Et & _ & _ & Es'). exists uk'. split; [done|]. split; [congruence|]. destruct Es'; congruence.
  - intros i pi Hi Hpi. destruct (sg_cpu0 i pi Hi Hpi) as (D & q & ik & HD & Hq & Hl & Hik & Hit & Hist & Haff).
    assert (∃ q', runqs k' !! run_queue pi = Some q' ∧ rq_meta q' = rq_meta q) as (q' & Hq' & Eq').
    { specialize (Emeta (run_queue pi)). rewrite Hq in Emeta. destruct (runqs k' !! run_queue pi) as [q'|]; [|done]. injection Emeta as E1 E2.
      exists q'. split; [done|]. unfold rq_meta. by rewrite E1, E2. }
    injection Eq' as El Ei. destruct (Hfwd _ _ Hik) as (ik' & Hik' & Et & _ & Ea & Es').
    assert (is_Some (<[rq := [t]]> Qs !! run_queue pi)) as [D' HD'] by (apply insert_keeps; by exists D).
    exists D', q', ik'. rewrite Ei. split_and!; [done|done|congruence|done|congruence|destruct Es'; congruence|congruence].
Qed.

Lemma wp_bsp_prepare s P n t0 :
  at_start s P (5 + n) t0 → self (ks s) = O → O ∉ P → (0 < length (percpu_table (ks s)))%nat →
  wp bsp_prepare_ s (λ _ s', start_kept s s' ∧ ∃ t, at_start s' (O :: P) n t).
Proof using Hdummy Hstatic.
  intros Hat H0 HP [p Hp]%lookup_lt_is_Some_2. unfold bsp_prepare. apply wp_bind.
  assert (current_task p = dummy) as Hcur.
  { destruct Hat as (al & Qs & _ & Hs & _ & _). apply (sg_current _ _ _ _ _ _ Hs O); [by left|done]. }
  eapply wp_mono; [eapply (wp_runq_init_start s P (2 + n) t0 p); [exact Hat|by rewrite H0|by rewrite H0|done]|].
  intros _ s1 [[K1 K2 K3 K4] (al & Qs & p1 & Hm & Hs & Hi & _ & Hp1 & Hq1)]. rewrite H0 in *.
  destruct (sg_dummy _ _ _ _ _ _ Hs) as (dk & Hd & _). apply wp_bind.
  eapply (wp_fork_task mo kernel_mmu dummy _ _ _ s1 dummy dk init_kernel al n); [exact Hm|done|exact Hd|done|apply Hs|].
  intros t page rsp m' Hm' Ht0 Ht1 Ht16 Htn _ (c & Hrsp & Hfr). set (tk := kthread _ _ _ _ _ _). set (k2 := upd_knodes _ _). apply wp_zoom. simpl ks.
  assert (starting kernel_mmu dummy k2 ((page, TASK_KSTACK_SIZE) :: (t, SIZEOF_TASK) :: al) Qs (O :: P)) as Hs2.
  { apply starting_new_task; try done; [|by repeat constructor]. eapply starting_more; [exact Hs|]. intros x Hx. by do 2 constructor. }
  assert (tasks k2 !! t = Some tk) as Htk by apply lookup_insert_eq.
  destruct (sg_cpu _ _ _ _ _ _ Hs2 O p1 ltac:(constructor) Hp1) as (D & q & ik & HD & Hq & Hl & _).
  assert (D = []) as -> by congruence.
  eapply (wp_task_wakeup k2 Qs p1 [] q t tk); [apply Hs2| |exact HD|exact Hq|exact Hl| | |done|].
  - split; [simpl; by rewrite K1|]. by apply (sg_ids _ _ _ _ _ _ Hs2 O).
  - split; [done|lia|by apply new_node|simpl; by rewrite lookup_insert_eq].
  - intros (u & Hu & ?)%(sg_queued _ _ _ _ _ _ Hs). congruence.
  - intros k3 HQ3 Hts3 Hek. split; [split; simpl|].
    + rewrite (ek_self _ _ Hek). simpl. congruence.
    + by rewrite (ek_percpu _ _ Hek).
    + done.
    + done.
    + exists t. eexists _, _. split; [exact Hm'|]. split.
      * apply (starting_woken k2 k3 _ Qs (O :: P) t tk (run_queue p1)); try done. simpl. destruct (mr_tid _ _ _ _ _ Hm). unfold TID_IDLE. lia.
      * split.
        2: { intros _. exists page, (set_state TASK_S_RUNNABLE tk), c. split_and!; [constructor| |exact Hrsp|exact Hfr].
             simpl. by rewrite Hts3, lookup_insert_eq. }
        destruct Hi as [Hi Ho]. split; simpl; rewrite (ek_percpu _ _ Hek).
        -- intros i pi Hin Hpi. destruct (decide (i = O)) as [->|].
           { simpl in Hpi. assert (pi = p1) as -> by congruence. by rewrite lookup_insert_eq. }
           assert (i ∈ P) as HiP by by apply (elem_of_tail _ O). rewrite lookup_insert_ne.
           ++ specialize (Hi i pi HiP Hpi). by rewrite decide_False in Hi.
           ++ by apply (sg_inj _ _ _ _ _ _ Hs2 O i p1 pi); [constructor|constructor|..].
        -- intros r E v HE Hv. destruct (decide (run_queue p1 = r)) as [<-|].
           ++ rewrite lookup_insert_eq in HE. injection HE as <-. apply list_elem_of_singleton in Hv as ->. split_and!; [done|constructor|by exists p1].
           ++ rewrite lookup_insert_ne in HE by done. by destruct (Ho r E v HE Hv) as (_ & ? & _).
Qed.

Abbreviation cpu_prepare_ := (cpu_prepare mo kernel_mmu dummy default_regs ret_from_ufork_addr ret_from_kfork_addr idle_task init_kernel).
Abbreviation cpus_prepare_ := (cpus_prepare mo kernel_mmu dummy default_regs ret_from_ufork_addr ret_from_kfork_addr idle_task init_kernel).

(** Requests that preparing a CPU makes. *)
Definition cpu_cost (i : nat) : nat := if decide (i = O) then 5 else 3.

Lemma init_queued_self k Qs P t i : init_queued k Qs P t → init_queued (set_self i k) Qs P t.
Proof using Type. intros []. by split. Qed.

Lemma at_start_self s P n t i :
  at_start s P n t → at_start (upd_ks (set_self i) s) P n t.
Proof using Type. intros (al & Qs & ? & ? & ? & ?). exists al, Qs. split; [done|]. split; [by apply starting_self|]. split; [by apply init_queued_self|done]. Qed.

(** One CPU, whichever executes it. *)
Lemma wp_prepare_one s P n t0 :
  at_start s P (cpu_cost (self (ks s)) + n) t0 → self (ks s) ∉ P → (self (ks s) < length (percpu_table (ks s)))%nat →
  wp (if decide (self (ks s) = O) then bsp_prepare_ else ap_prepare_) s (λ _ s', start_kept s s' ∧ ∃ t, at_start s' (self (ks s) :: P) n t).
Proof using Hdummy Hstatic.
  unfold cpu_cost. intros Hat HP Hlen. destruct (decide (self (ks s) = O)) as [E|Hne].
  - rewrite E in *. by eapply wp_bsp_prepare.
  - eapply wp_mono; [by eapply wp_ap_prepare|]. intros _ s' [? ?]. eauto.
Qed.

Lemma wp_cpus_prepare l : ∀ s P n t0,
  at_start s P (sum_list (cpu_cost <$> l) + n) t0 → NoDup l → (∀ i, i ∈ l → i ∉ P ∧ (i < length (percpu_table (ks s)))%nat) →
  0 ≤ schedulers_waiting s → schedulers_waiting s + Z.of_nat (length l) < 2 ^ 32 →
  wp (cpus_prepare_ l) s (λ _ s', self (ks s') = self (ks s) ∧ preempt_count <$> percpu_table (ks s') = preempt_count <$> percpu_table (ks s) ∧
    lp s' = lp s ∧ schedulers_waiting s' = schedulers_waiting s + Z.of_nat (length l) ∧ ∃ t, at_start s' (reverse l ++ P) n t).
Proof using Hdummy Hstatic.
  induction l as [|i l IH]; intros s P n t0 Hat Hnd Hl Hw0 Hw; simpl.
  { apply wp_ret. split_and!; try done; [lia|eauto]. }
  apply NoDup_cons in Hnd as [Hil Hnd]. destruct (Hl i ltac:(constructor)) as [HiP Hilen].
  apply wp_bind. unfold cpu_prepare. apply wp_bind, wp_get, wp_bind, wp_zoom, wp_modify. cbn beta. set (s1 := upd_ks _ s).
  apply wp_bind. eapply wp_mono; [apply (wp_prepare_one s1 P (sum_list (cpu_cost <$> l) + n) t0); [|done|done]|].
  { change (self (ks s1)) with i. rewrite Nat.add_assoc. by apply (at_start_self s). }
  intros _ s2 [[K1 K2 K3 K4] [t Hat2]]. apply wp_bind, wp_modify, wp_zoom, wp_modify. cbn beta. simpl in K1, K2, K3, K4.
  set (s3 := upd_ks _ _).
  assert (length (percpu_table (ks s3)) = length (percpu_table (ks s))) as Elen.
  { apply (f_equal length) in K2. rewrite !length_fmap in K2. exact K2. }
  assert (schedulers_waiting s3 = schedulers_waiting s + 1) as Ew3.
  { simpl. rewrite K4. apply uwrap_id. unfold in_u. simpl in Hw. lia. }
  eapply wp_mono; [apply (IH s3 (i :: P) n t)|].
  - destruct Hat2 as (al & Qs & ? & ? & ? & ?). exists al, Qs. split; [done|]. split; [by apply starting_self|]. split; [by apply init_queued_self|done].
  - done.
  - intros j Hj. rewrite Elen. destruct (Hl j ltac:(by constructor)) as [HjP ?]. split; [|done].
    intros [-> | ?]%elem_of_cons; done.
  - rewrite Ew3. lia.
  - rewrite Ew3. simpl in Hw. lia.
  - intros _ s' (E1 & E2 & E3 & E4 & t' & Hat'). rewrite E4, Ew3. split_and!; [done|by rewrite E2|by rewrite E3|simpl; lia|].
    exists t'. rewrite reverse_cons, <-app_assoc. exact Hat'.
Qed.

(** ** From the first instruction of the schedulers to the first thread *)

Context (dev : list event → Z → Z).

Lemma wp_timer_enable l j x (Q : unit → lst → Prop) :
  base_set l = true → list_find (λ y, cl_id y = u8 (Z.shiftr (u32 (dev (events l) LAPIC_REG_ID)) 24)) (lapics l) = Some (j, x) →
  (∀ period, Q tt (upd_events (λ e, Write LAPIC_REG_TIMER_INITIAL period :: Write LAPIC_REG_TIMER_LVT (Z.lor IRQ_LINT_TIMER APIC_TIMER_PERIODIC) ::
     Write LAPIC_REG_TIMER_DIVIDE 3 :: e) l)) →
  wp (lapic_timer_enable dev) l Q.
Proof using Type.
  intros Hb Hf HQ. unfold lapic_timer_enable, lapic_id, lapic_read, find_lapic, rd_lapic, lapic_write.
  apply wp_bind, wp_bind, wp_bind, wp_get. rewrite Hb. apply wp_ret, wp_ret. apply wp_bind, wp_bind, wp_get, wp_ret.
  rewrite Hf. apply wp_bind, wp_bind, wp_get. simpl. apply list_find_Some in Hf as (-> & _). apply wp_ret.
  apply wp_bind, wp_bind, wp_get. rewrite Hb. apply wp_modify. apply wp_bind, wp_bind, wp_get. simpl base_set. rewrite Hb. apply wp_modify.
  apply wp_bind, wp_get. simpl base_set. rewrite Hb. apply wp_modify. apply HQ.
Qed.

Definition sched_run (i : nat) (meanwhile : M (start St) unit) : M (start St) unit :=
  if decide (i = O) then sched_run_bsp mo kernel_mmu dummy default_regs ret_from_ufork_addr ret_from_kfork_addr idle_task init_kernel dev meanwhile
  else sched_run_ap mo kernel_mmu dummy default_regs ret_from_ufork_addr ret_from_kfork_addr idle_task dev meanwhile.

Lemma sched_run_prepare i meanwhile s Q :
  wp ((if decide (i = O) then bsp_prepare_ else ap_prepare_);; wait_for_schedulers meanwhile;;
      on_lapic (lapic_timer_enable dev);; on_sched (sched_yield kernel_mmu)) s Q → wp (sched_run i meanwhile) s Q.
Proof using Type. unfold sched_run. by destruct (decide (i = O)). Qed.

(** Where only CPU 0 has a thread, any CPU that schedules picks that one. *)
Lemma pick_init k k1 Qs P t p D ck next Qs' :
  init_queued k Qs P t → (∀ i, (i < length (percpu_table k))%nat → i ∈ P) → percpu_table k !! self k = Some p →
  percpu_table k !! O ≠ None → self k1 = self k → percpu_table k1 = alter enter (self k) (percpu_table k) →
  Qs !! run_queue p = Some D → tid ck = TID_IDLE → pick k1 Qs (run_queue p) D dummy ck next Qs' →
  next = t ∧ ∀ u, ¬ queued Qs' u.
Proof using Type.
  intros [Hi Ho] Hall Hp [p0 Hp0]%not_eq_None_Some Es Ept HD Hck Hpick.
  assert (∀ i pi, percpu_table k !! i = Some pi → Qs !! run_queue pi = Some (if decide (i = O) then [t] else [])) as HQ.
  { intros i pi Hpi. apply Hi; [|done]. by eapply Hall, lookup_lt_Some. }
  assert (∀ i pi, percpu_table k1 !! i = Some pi → ∃ p1, percpu_table k !! i = Some p1 ∧ run_queue pi = run_queue p1) as Hback.
  { intros i pi. rewrite Ept. destruct (decide (self k = i)) as [<-|]; [|rewrite list_lookup_alter_ne by done; eauto].
    rewrite list_lookup_alter_eq. intros (p1 & ? & ->)%fmap_Some. by exists p1. }
  assert (requeued k1 D dummy ck = D) as Erq by (unfold requeued; by rewrite Hck).
  pose proof (HQ _ _ Hp) as HDp. rewrite HD in HDp. injection HDp as ->.
  destruct Hpick as [u D' E|i pi u Do' E Hne Hpi Hbefore Hq|q E Hnone Hq].
  - rewrite Erq in E. destruct (decide (self k = O)) as [E0|]; [|done]. injection E as <- <-. split; [done|].
    intros v (r & V & HV & Hv). destruct (decide (run_queue p = r)) as [<-|].
    { rewrite lookup_insert_eq in HV. injection HV as <-. by apply not_elem_of_nil in Hv. }
    rewrite lookup_insert_ne in HV by done. destruct (Ho r V v HV Hv) as (_ & _ & p' & Hp' & ->). rewrite <-E0, Hp in Hp'. congruence.
  - rewrite Erq in E. destruct (decide (self k = O)) as [|Hs0]; [done|]. destruct (Hback _ _ Hpi) as (p1 & Hp1 & Erun).
    rewrite Erun, (HQ _ _ Hp1) in Hq. destruct (decide (i = O)) as [->|]; [|done]. injection Hq as <- <-. split; [done|].
    intros v (r & V & HV & Hv). destruct (decide (run_queue p = r)) as [<-|].
    { rewrite lookup_insert_eq in HV. injection HV as <-. by apply not_elem_of_nil in Hv. }
    rewrite lookup_insert_ne, Erun in HV by done. destruct (decide (run_queue p1 = r)) as [<-|].
    { rewrite lookup_insert_eq in HV. injection HV as <-. by apply not_elem_of_nil in Hv. }
    rewrite lookup_insert_ne in HV by done. destruct (Ho r V v HV Hv) as (_ & _ & p' & Hp' & ->). congruence.
  - exfalso. rewrite Erq in E. destruct (decide (self k = O)) as [|Hs0]; [done|].
    destruct (Hnone O) as [?|(pi & Hpi & Hq0)]; [rewrite Ept, length_alter; by eapply lookup_lt_Some|congruence|].
    destruct (Hback _ _ Hpi) as (p1 & Hp1 & Erun). rewrite Erun, (HQ _ _ Hp1) in Hq0. done.
Qed.

(** What the CPU executes after the switch: the [ret] at the end of [switch_to]
    and what it returns to in fork.asm.  [rsp] is its stack pointer. *)
Definition resume (ret_addr : Z) : M (mach St) unit := ret_;; start_new ret_from_ufork_addr ret_from_kfork_addr ret_addr.
Definition resumed (s : start St) : mach St := upd_regs (setr RSP (rsp (ks s))) (ms s).

Context (Hends : ret_from_kfork_addr ≠ ret_from_ufork_addr).

Lemma wp_resume (m : mach St) top arg entry ret_addr :
  regs m RSP = sp top [ret_from_kfork_addr; arg; entry] → frame_at (words m) top stack_words [ret_from_kfork_addr; arg; entry] →
  wp (resume ret_addr) m (λ _ m', regs m' RIP = entry ∧ regs m' RDI = arg).
Proof using Hends.
  intros Hsp Hf. unfold resume, ret_, start_new. apply wp_bind. eapply (wp_pop _ top); [exact Hsp|exact Hf|]. intros F1.
  apply wp_bind, wp_rr. msimpl. rewrite (proj2 (Z.eqb_neq _ _) Hends), Z.eqb_refl. unfold ret_from_kfork.
  apply wp_bind. eapply (wp_pop _ top); [msimpl; done|exact F1|]. intros F2.
  apply wp_bind. eapply (wp_pop _ top); [msimpl; done|exact F2|]. intros F3. apply wp_bind, wp_rr. msimpl.
  apply wp_bind. eapply (wp_push _ top); [msimpl; done|exact F3|simpl; unfold stack_words; lia|]. intros w' F4 _. apply wp_wreg. by msimpl.
Qed.

(** The stack of the first thread, with its saved registers taken off. *)
Lemma init_stack_resumes s' al P t s nk ret_addr :
  init_stack s al P t → O ∈ P → tasks (ks s) !! t = Some nk → rsp (ks s') = u64 (rsp_top nk + 48) →
  words (ms s') = words (ms s) →
  wp (resume ret_addr) (resumed s') (λ _ m', regs m' RIP = init_kernel).
Proof using Hends.
  intros Hi HP Hnk Hrsp Hw. destruct (Hi HP) as (page & tk & c & _ & Htk & Etop & Hf). assert (tk = nk) as -> by congruence.
  assert (frame_at (words (ms s)) (TASK_KSTACK_SIZE + page) stack_words [ret_from_kfork_addr; c_rbx c; init_kernel]) as Hf'.
  { unfold kthread_stack, saved_words in Hf. simpl in Hf. do 6 apply frame_pop in Hf as [_ Hf]. exact Hf. }
  eapply wp_mono; [apply (wp_resume _ (TASK_KSTACK_SIZE + page) (c_rbx c) init_kernel)|by intros _ m' [? _]].
  - unfold resumed. msimpl. rewrite Hrsp, Etop. unfold kthread_stack, saved_words, sp. simpl length. destruct Hf' as [_ _ _ Hlo Hhi].
    unfold stack_words in Hlo. rewrite uwrap_id; [lia|]. unfold in_u. lia.
  - unfold resumed. msimpl. by rewrite Hw.
Qed.

(** The last two steps, on a CPU that has passed the barrier. *)
Lemma wp_first_schedule s P n t j x p :
  at_start s P n t → (∀ i, (i < length (percpu_table (ks s)))%nat → i ∈ P) → percpu_table (ks s) !! self (ks s) = Some p →
  u32 (preempt_count p) < 2 ^ 32 - 1 → base_set (lp s) = true →
  list_find (λ y, cl_id y = u8 (Z.shiftr (u32 (dev (events (lp s)) LAPIC_REG_ID)) 24)) (lapics (lp s)) = Some (j, x) →
  wp (on_lapic (lapic_timer_enable dev);; on_sched (sched_yield kernel_mmu)) s (λ _ s', ∃ Qs tk p',
    sys_inv (ks s') Qs ∧ (∀ u, ¬ queued Qs u) ∧
    percpu_table (ks s') !! self (ks s') = Some p' ∧ current_task p' = t ∧ tasks (ks s') !! t = Some tk ∧ tid tk ≠ TID_IDLE ∧
    Z.testbit (t_flags tk) 1 = true ∧ schedulers_waiting s' = schedulers_waiting s ∧
    ∀ ret_addr, wp (resume ret_addr) (resumed s') (λ _ m', regs m' RIP = init_kernel)).
Proof using Hdummy Hstatic Hends.
  intros (al & Qs & Hm & Hs & Hi & Hstk) Hall Hp Hpre Hb Hf. apply wp_bind, wp_zoom. eapply wp_timer_enable; [done|exact Hf|]. intros period.
  apply wp_zoom. simpl ks. pose proof (starting_sys_inv _ _ _ _ _ _ Hs Hall) as Hinv.
  destruct (sg_ids _ _ _ _ _ _ Hs _ _ Hp) as [_ Hrange]. destruct (sg_dummy _ _ _ _ _ _ Hs) as (dk & Hd & Hdt).
  assert (self (ks s) ∈ P) as HsP by (by eapply Hall, lookup_lt_Some).
  pose proof (sg_current _ _ _ _ _ _ Hs _ _ (or_intror HsP) Hp) as Hcur.
  destruct (sg_cpu _ _ _ _ _ _ Hs _ _ HsP Hp) as (D & _ & _ & HD & _).
  assert (percpu_table (ks s) !! O ≠ None) as H0.
  { apply not_eq_None_Some, lookup_lt_is_Some_2. apply lookup_lt_Some in Hp. lia. }
  unfold sched_yield. eapply (wp_schedule kernel_mmu (ks s) Qs p D dk); [done|by split|done|by rewrite Hcur|done|].
  intros next Qs' k' Hpick Hinv' [(p' & Hp' & Hc' & _) (nk & Hnk & Hrun & _) _ Hsim Hrsp]. rewrite Hcur in Hpick, Hrsp.
  destruct (pick_init (ks s) (picking (ks s) dummy dk) Qs P t p D (ticked dk) next Qs') as [-> Hempty]; try done.
  assert (queued Qs t) as (tk & Htk & Hid & _)%(sg_queued _ _ _ _ _ _ Hs).
  { apply not_eq_None_Some in H0 as [p0 Hp0]. exists (run_queue p0), [t]. split; [|by apply list_elem_of_singleton].
    apply (iq_cpu _ _ _ _ Hi O p0); [by eapply Hall, lookup_lt_Some|done]. }
  destruct (tasks_sim_some _ _ _ _ Hsim Htk) as (tk' & Htk' & Et & _). assert (tk' = nk) as -> by congruence.
  exists Qs', nk, p'. split_and!; try done; [congruence|]. intros ret_addr.
  destruct Hrsp as (nk0 & Hnk0 & Hrsp); [intros ->; congruence|].
  eapply (init_stack_resumes _ al P t s nk0); [exact Hstk| |exact Hnk0|exact Hrsp|done].
  eapply Hall. apply lookup_lt_Some in Hp. lia.
Qed.

(** C4: Starting the schedulers.  Let the system be as [sched_init] leaves it,
    with memory for a queue, an idle task and its stack per CPU and for the
    first thread, and let one CPU run [sched_run_bsp] or [sched_run_ap] while
    the others, in any order, come to the barrier.  The CPU passes the
    barrier and schedules; then the invariant of the scheduler holds for all
    CPUs, all queues are empty, the current task is a thread that is marked as
    running and is not an idle task, and what the CPU executes next, the [ret]
    of switch_to and the code of fork.asm it leads to, enters [init_kernel]
    (whichever CPU it is: another than CPU 0 pulls the thread).  The other
    CPUs' ways to the barrier are taken one after the other, in any order:
    steps of two CPUs within them are not interleaved. *)
Theorem sched_run_correct (s : start St) (i : nat) (others : list nat) (n j : nat) (x : cpu_lapic) (t0 : Z) :
  i :: others ≡ₚ seq 0 (length (percpu_table (ks s))) → self (ks s) = i →
  at_start s [] (sum_list (cpu_cost <$> i :: others) + n) t0 → schedulers_waiting s = 0 →
  (∀ p, percpu_table (ks s) !! i = Some p → u32 (preempt_count p) < 2 ^ 32 - 1) → base_set (lp s) = true →
  list_find (λ y, cl_id y = u8 (Z.shiftr (u32 (dev (events (lp s)) LAPIC_REG_ID)) 24)) (lapics (lp s)) = Some (j, x) →
  wp (sched_run i (cpus_prepare_ others)) s (λ _ s', ∃ Qs t tk p',
    sys_inv (ks s') Qs ∧ (∀ u, ¬ queued Qs u) ∧
    percpu_table (ks s') !! self (ks s') = Some p' ∧ current_task p' = t ∧ tasks (ks s') !! t = Some tk ∧ tid tk ≠ TID_IDLE ∧
    Z.testbit (t_flags tk) 1 = true ∧ schedulers_waiting s' = Z.of_nat (length (percpu_table (ks s))) ∧
    ∀ ret_addr, wp (resume ret_addr) (resumed s') (λ _ m', regs m' RIP = init_kernel)).
Proof using Hdummy Hstatic Hends.
  intros Hperm Hself Hat Hw Hpre Hb Hf. apply sched_run_prepare. rewrite <-Hself.
  assert (NoDup (i :: others)) as [Hio Hnd]%NoDup_cons by (rewrite Hperm; apply NoDup_seq).
  assert (∀ k, k ∈ i :: others ↔ (k < length (percpu_table (ks s)))%nat) as Hmem.
  { intros k. rewrite Hperm, elem_of_seq. lia. }
  assert (length others < length (percpu_table (ks s)))%nat as Hlen.
  { apply Permutation_length in Hperm. rewrite length_seq in Hperm. simpl in Hperm. lia. }
  assert (Z.of_nat (length (percpu_table (ks s))) ≤ 20) as Hcores by (destruct Hat as (al & Qs & _ & Hs & _); apply Hs).
  apply wp_bind. eapply wp_mono; [apply (wp_prepare_one s [] (sum_list (cpu_cost <$> others) + n) t0)|].
  { rewrite Hself, Nat.add_assoc. exact Hat. }
  { apply not_elem_of_nil. }
  { rewrite Hself. apply Hmem. constructor. }
  intros _ s1 [[K1 K2 K3 K4] [t1 Hat1]]. rewrite Hself in *.
  assert (length (percpu_table (ks s1)) = length (percpu_table (ks s))) as El1.
  { apply (f_equal length) in K2. by rewrite !length_fmap in K2. }
  apply wp_bind. unfold wait_for_schedulers. apply wp_bind, wp_modify, wp_bind.
  rewrite K4, Hw. change (u32 (0 + 1)) with 1. set (s2 := mk_start _ _ _ _).
  eapply wp_mono; [apply (wp_cpus_prepare others s2 [i] n t1); [exact Hat1|done| |done|simpl; lia]|].
  { intros k Hk. simpl ks. rewrite El1, <-Hmem. split; [|by constructor]. intros ->%list_elem_of_singleton. done. }
  intros _ s3 (E1 & E2 & E3 & E4 & t & Hat3). simpl in E1, E2, E3, E4.
  assert (length (percpu_table (ks s3)) = length (percpu_table (ks s))) as El3.
  { apply (f_equal length) in E2. rewrite !length_fmap in E2. congruence. }
  assert (Z.of_nat (length others) + 1 = Z.of_nat (length (percpu_table (ks s)))) as Elo.
  { apply Permutation_length in Hperm. rewrite length_seq in Hperm. simpl in Hperm. lia. }
  apply wp_bind, wp_get, wp_bind, wp_zoom. apply wp_bind, wp_get, wp_ret. rewrite E4, El3.
  destruct (Z.ltb_spec (1 + Z.of_nat (length others)) (Z.of_nat (length (percpu_table (ks s))))); [lia|]. apply wp_ret.
  change (upd_ks (λ _, ks s3) s3) with (mk_start (ks s3) (ms s3) (lp s3) (schedulers_waiting s3)).
  destruct (lookup_lt_is_Some_2 (percpu_table (ks s3)) i) as [p3 Hp3]; [rewrite El3; apply Hmem; constructor|].
  assert (∃ p, percpu_table (ks s) !! i = Some p ∧ preempt_count p3 = preempt_count p) as (p & Hp & Epc).
  { rewrite K2 in E2. apply (f_equal (λ l, l !! i)) in E2. rewrite !list_lookup_fmap, Hp3 in E2.
    destruct (percpu_table (ks s) !! i) as [p|]; [|done]. injection E2 as E2. by exists p. }
  eapply wp_mono; [eapply (wp_first_schedule _ (reverse others ++ [i]) n t j x p3)|].
  - exact Hat3.
  - intros k. simpl. rewrite El3, <-Hmem. rewrite elem_of_app, elem_of_reverse, elem_of_cons, list_elem_of_singleton. tauto.
  - simpl. by rewrite E1, K1.
  - rewrite Epc. by apply Hpre.
  - simpl. by rewrite E3, K3.
  - simpl. rewrite E3, K3. exact Hf.
  - intros _ s' (Qs & tk & p' & Hinv & Hem & Hp' & Hc' & Htk & Hid & Hfl & Hwait & Hnext). exists Qs, t, tk, p'. split_and!; try done.
    rewrite Hwait. simpl. rewrite E4. lia.
Qed.
End prepare.

(** ** The beginning *)

(** Before [sched_init] there are no tasks and no queues. *)
Record before_start (kernel_mmu dummy : Z) (k : kstate) : Prop := {
  bs_tasks : tasks k = ∅;
  bs_runqs : runqs k = ∅;
  bs_self : self k = O;
  bs_ids : ∀ i pi, percpu_table k !! i = Some pi → cpu_id pi = Z.of_nat i ∧ in_u 64 (preempt_count pi);
  bs_some : (0 < length (percpu_table k))%nat;
  bs_cores : Z.of_nat (length (percpu_table k)) ≤ MAX_CORES;
  bs_mmus : ∀ m mm, mmus k !! m = Some mm → m ≠ NULL ∧ cpu_lock mm = 0;
  bs_p4 : ∀ m m' mm mm', mmus k !! m = Some mm → mmus k !! m' = Some mm' → p4 mm = p4 mm' → m = m';
  bs_kernel : is_Some (mmus k !! kernel_mmu);
  bs_dummy : dummy ≠ NULL ∧ valid (node_of dummy)
}.

(** [sched_init] makes the dummy task the current task of CPU 0 and leaves a
    state from which the schedulers can be started. *)
Theorem sched_init_correct kernel_mmu dummy al t k :
  before_start kernel_mmu dummy k →
  wp (sched_init kernel_mmu dummy) k (λ _ k', starting kernel_mmu dummy k' al ∅ [] ∧ init_queued k' ∅ [] t ∧
    self k' = self k ∧ preempt_count <$> percpu_table k' = preempt_count <$> percpu_table k).
Proof.
  intros [Hts Hrq Hself Hid [p Hp]%lookup_lt_is_Some_2 Hc Hm Hp4 Hk [Hd0 Hdv]]. rewrite <-Hself in Hp. unfold sched_init.
  apply wp_bind, wp_modify, wp_bind, wp_modify. apply wp_bind. eapply wp_store; [apply lookup_insert_eq|done|].
  apply wp_bind. eapply wp_store; [apply lookup_insert_eq|done|]. unfold percpu_upd. apply wp_bind. unfold wp at 1, this_cpu. simpl. rewrite Hp.
  apply wp_modify. unfold upd_tasks, upd_percpu, upd_knodes. simpl. rewrite Hts, !insert_insert_eq. set (dk := set_tid _ _).
  assert (∀ i pi, alter (pc_set_current dummy) (self k) (percpu_table k) !! i = Some pi → ∃ p0, percpu_table k !! i = Some p0 ∧
    cpu_id pi = cpu_id p0 ∧ preempt_count pi = preempt_count p0 ∧ (i = O → current_task pi = dummy)) as Hback.
  { intros i pi. destruct (decide (self k = i)) as [<-|].
    - rewrite list_lookup_alter_eq. intros (p0 & ? & ->)%fmap_Some. by exists p0.
    - rewrite list_lookup_alter_ne by done. exists pi. split_and!; try done. congruence. }
  split_and!.
  - split; simpl; try done.
    + exists dk. by rewrite lookup_insert_eq.
    + intros u [uk [[<- _]|[_ ?%lookup_empty_Some]]%lookup_insert_Some]; [by left|done].
    + rewrite Hrq. by intros q [x ?].
    + intros u uk [[<- <-]|[_ ?%lookup_empty_Some]]%lookup_insert_Some; [|done]. by split; [..|simpl; rewrite lookup_insert_eq|].
    + by intros u (r & D & ? & _).
    + intros i pi (p0 & Hp0 & -> & -> & _)%Hback. by apply Hid.
    + intros i pi Hi (p0 & _ & _ & _ & E)%Hback. apply E. destruct Hi as [?|?%not_elem_of_nil]; done.
    + by intros i pi ?%not_elem_of_nil.
    + by intros i j pi pj ?%not_elem_of_nil.
    + by rewrite length_alter.
  - split; [by intros i pi ?%not_elem_of_nil|by intros r D v ?].
  - done.
  - simpl. apply list_eq. intros i. rewrite !list_lookup_fmap. destruct (decide (self k = i)) as [<-|].
    + by rewrite list_lookup_alter_eq, Hp.
    + by rewrite list_lookup_alter_ne.
Qed.
