(* ===== verification/StartMemory.v ===== *)
(** * Memory for the first tasks

    The promises of SchedStart.v's interface [StartMemory], kept by the heap of
    Slob.v and the frames of Pmm.v together as [task_fork] uses them
    (TaskMemory.v): queues and tasks come from the heap, stacks are pairs of
    page frames, and none overlaps another.  An allocator that counts upwards
    is a second instance, for the example at the end. *)

From stdpp Require Import base list gmap.
From Stdlib Require Import ZArith Lia Bool.
From S2P Require Import Prelude RbModel RbTree RbRepr Addr Cpuset Pmm PmmInv PmmSpec Slob SlobSpec Heap Vmm VmmSpec.
From S2P Require Import Interrupts Sched SchedInv RunQueue Schedule Lapic Context ContextSpec TaskMemory SchedStart.
Local Open Scope Z_scope.

Section real.
Context {BC : BuildConfig} (kernel_mmu : Z).

(** The two frames of a stack belong neither to the pool nor to the heap. *)
Definition stack_frame (fs bs : list sblock) (Zs : list gzone) (g : Z) : Prop :=
  pfn_ok g ∧ 0 < g ∧ g ∉ pool_free Zs ∧ ∀ j, 0 ≤ j < 256 → SlobSpec.base g + UNIT * j ∉ spans (fs ++ bs).

Inductive owned (fs bs : list sblock) (Zs : list gzone) : extent → Prop :=
| owned_block e b : b ∈ bs → inside e b → owned fs bs Zs e
| owned_stack f : stack_frame fs bs Zs f → stack_frame fs bs Zs (f + 1) → owned fs bs Zs (SlobSpec.base f, TASK_KSTACK_SIZE).

(** A frame and a pair of frames are left, and the first free block does not
    fit a task or a queue exactly; the same after each request. *)
Fixpoint km_serves (s : kmemory) (n : nat) : Prop :=
  match n with
  | O => True
  | S n =>
      (∀ Zs, pmm_ok (spm (km_heap s)) Zs → pool_free Zs ≠ [] ∧ ¬ exhausted Zs 1) ∧
      (∀ h sz, cells (km_heap s) !! head (km_heap s) = Some h → sz = SIZEOF_TASK ∨ sz = SIZEOF_RUNQ → h_units h ≠ (sz + 15) / 16) ∧
      (∀ sz p s', sz = SIZEOF_TASK ∨ sz = SIZEOF_RUNQ → m_kmalloc (task_memory kernel_mmu) sz s = Ok (p, s') → km_serves s' n) ∧
      (∀ p s', m_pages (task_memory kernel_mmu) TASK_KSTACK_ORDER s = Ok (p, s') → km_serves s' n)
  end.

Definition km_ok (s : kmemory) (al : list extent) (n : nat) : Prop :=
  slob_lock (km_heap s) = 0 ∧ km_serves s n ∧ ForallOrdPairs Heap.apart al ∧
  ∃ fs bs Zs, slob_inv (km_heap s) fs bs Zs ∧ Forall (owned fs bs Zs) al.

(** Blocks of the heap lie outside the frames of stacks. *)
Lemma block_apart_frame fs bs Zs b g x :
  stack_frame fs bs Zs g → in_page b → (∀ c, c ∈ span b → c ∈ spans (fs ++ bs)) →
  b.1 ≤ x < b.1 + UNIT * (b.2 + 1) → ¬ SlobSpec.base g ≤ x < SlobSpec.base g + PAGE_SIZE.
Proof using Type.
  intros (_ & _ & _ & Hg) (f & i & Hf & Hf0 & E & Hi & Hb & Hib) Hsub Hx Hin.
  assert (f = g) as ->.
  { rewrite E in Hx. unfold SlobSpec.base, UNIT, PAGE_SIZE in *. lia. }
  apply (Hg i); [lia|]. rewrite <-E. apply Hsub. destruct b. by apply span_head.
Qed.

(** The frames of a stack and a block of the heap. *)
Lemma frame_apart_block fs bs Zs b f e :
  in_page b → b ∈ bs → stack_frame fs bs Zs f → stack_frame fs bs Zs (f + 1) → inside e b →
  Heap.apart (SlobSpec.base f, TASK_KSTACK_SIZE) e.
Proof using Type.
  intros Hb Hin Hf Hf1 [E1 E2].
  assert (∀ c, c ∈ span b → c ∈ spans (fs ++ bs)) as Hsub.
  { intros c Hc. rewrite spans_app, elem_of_app. right. apply elem_spans. by exists b. }
  pose proof (block_apart_frame _ _ _ _ _ e.1 Hf Hb Hsub) as A0. pose proof (block_apart_frame _ _ _ _ _ e.1 Hf1 Hb Hsub) as A1.
  pose proof (block_apart_frame _ _ _ _ _ (SlobSpec.base f) Hf Hb Hsub) as A2. unfold Heap.apart. simpl. change TASK_KSTACK_SIZE with 8192.
  unfold SlobSpec.base, UNIT, PAGE_SIZE in *. lia.
Qed.

(** A new block of the heap has no byte in common with what was handed out. *)
Lemma block_apart fs bs Zs b sz e s :
  slob_inv s fs (b :: bs) Zs → 0 < sz ≤ UNIT * b.2 →
  (∃ c, c ∈ bs ∧ inside e c) ∨ (∃ f, e = (SlobSpec.base f, TASK_KSTACK_SIZE) ∧ stack_frame fs (b :: bs) Zs f ∧ stack_frame fs (b :: bs) Zs (f + 1)) →
  Heap.apart (b.1 + UNIT, sz) e.
Proof using Type.
  intros Hs Hsz He. pose proof (si_pages _ _ _ _ Hs) as [_ [Hb Hbs]%Forall_cons]%Forall_app.
  assert (∀ c, c ∈ span b → c ∈ spans (fs ++ b :: bs)) as Hsub.
  { intros c Hc. rewrite spans_app, spans_cons, !elem_of_app. auto. }
  destruct He as [(c & Hc & He)|(f & -> & Hf & Hf1)].
  - pose proof (si_nodup _ _ _ _ Hs) as Hnd. rewrite spans_app, spans_cons in Hnd.
    apply NoDup_app in Hnd as (_ & _ & (_ & Hnd & _)%NoDup_app).
    eapply (disjoint_apart b c); [done|by eapply (proj1 (Forall_forall _ _)) in Hbs| |done|done].
    intros x Hx Hxc. apply (Hnd x Hx). apply elem_spans. by exists c.
  - pose proof (block_apart_frame _ _ _ _ _ (b.1 + UNIT) Hf Hb Hsub) as A0. pose proof (block_apart_frame _ _ _ _ _ (b.1 + UNIT) Hf1 Hb Hsub) as A1.
    pose proof (block_apart_frame _ _ _ _ _ (SlobSpec.base f) Hf Hb Hsub) as A2. unfold Heap.apart. simpl. change TASK_KSTACK_SIZE with 8192.
    unfold SlobSpec.base, UNIT, PAGE_SIZE in *. lia.
Qed.

(** What was handed out stays so when the heap takes a block. *)
Lemma stack_frame_kmalloc fs bs Zs fs0 fs' Zs' a k g :
  (fs0 = fs ∧ Zs' = Zs) ∨ (∃ f, pool_free Zs ≡ₚ f :: pool_free Zs' ∧ fs0 = page_block f :: fs) → took fs0 fs' a k →
  stack_frame fs bs Zs g → stack_frame fs' ((a, k) :: bs) Zs' g.
Proof using Type.
  intros H0 Htk (Hg & Hg0 & Hgp & Hgs). split_and!; [done|done| |].
  - intros Hin. destruct H0 as [[_ ->]|(f & Hp & _)]; [done|]. apply Hgp. rewrite Hp. by right.
  - intros j Hj Hin. rewrite spans_app, spans_cons, !elem_of_app in Hin.
    assert (SlobSpec.base g + UNIT * j ∈ spans fs0 ∨ SlobSpec.base g + UNIT * j ∈ spans bs) as Hin'.
    { unfold took in Htk. rewrite Htk, elem_of_app. tauto. }
    apply (Hgs j Hj). rewrite spans_app, elem_of_app. destruct Hin' as [Hin'|]; [|by right]. left.
    destruct H0 as [[-> _]|(f & Hp & ->)]; [done|]. rewrite spans_cons, elem_of_app in Hin'. destruct Hin' as [(i & Hi & E)%page_span|]; [|done].
    apply unit_frame in E as [-> _]; [|done|done]. exfalso. apply Hgp. rewrite Hp. left.
Qed.

Lemma km_kmalloc s al n sz :
  km_ok s al (S n) → sz = SIZEOF_TASK ∨ sz = SIZEOF_RUNQ →
  wp (m_kmalloc (task_memory kernel_mmu) sz) s (λ p s', km_ok s' ((p, sz) :: al) n ∧
    0 < p ∧ p + sz < 2 ^ 64 ∧ (16 | p) ∧ ∀ x, p ≤ x < p + sz → logical_memory x).
Proof using Type.
  intros (Hl & (Hpool & Hhd & Hnext & _) & Hap & fs & bs & Zs & Hs & Hal) Hsz.
  assert (0 < sz ≤ 4064) as Hsz' by (destruct Hsz as [-> | ->]; unfold SIZEOF_TASK, SIZEOF_RUNQ; lia).
  destruct (proj1 (wp_ok _ _ _) (wp_kmalloc (km_heap s) fs bs Zs sz KM_NONE Hs Hl (proj1 (Hpool _ (si_pm _ _ _ _ Hs))) ltac:(lia)
    ltac:(intros a u fs' ->; apply (Hhd (mk_hdr (hd_addr fs' NULL) u)); [rewrite (si_head _ _ _ _ Hs); apply (si_seg _ _ _ _ Hs)|done])))
    as (p & h' & E & a & fs' & fs0 & Zs' & -> & H0 & Htk & Hs' & Hl').
  assert (m_kmalloc (task_memory kernel_mmu) sz s = Ok (a + UNIT, mk_kmem h' (km_space s))) as Ek.
  { simpl. unfold on_heap, zoom. by rewrite E. }
  unfold wp. rewrite Ek. pose proof (si_pages _ _ _ _ Hs') as [_ [Hp _]%Forall_cons]%Forall_app.
  destruct (in_page_facts _ Hp) as (Ha & H64 & _). simpl in Ha, H64. set (k := (sz + 15) / 16) in *.
  assert (sz ≤ UNIT * k) as Hk.
  { unfold k, UNIT. pose proof (Z.div_mod (sz + 15) 16 ltac:(lia)). pose proof (Z.mod_pos_bound (sz + 15) 16 ltac:(lia)). lia. }
  assert (Forall (owned fs' ((a, k) :: bs) Zs') al) as Hal'.
  { eapply Forall_impl; [exact Hal|]. intros e [e' b Hb He|f Hf Hf1]; [eapply owned_block; [by right|done]|].
    apply owned_stack; by eapply stack_frame_kmalloc. }
  split_and!.
  - split; [done|]. split; [by eapply Hnext|]. split.
    + constructor; [|done]. apply Forall_forall. intros e He. apply (block_apart fs' bs Zs' (a, k) sz e h'); [done|simpl; lia|].
      pose proof (proj1 (Forall_forall _ _) Hal e He) as [e' b Hb Hi|f Hf Hf1]; [left; by exists b|right; exists f].
      split_and!; [done|by eapply stack_frame_kmalloc..].
    + exists fs', ((a, k) :: bs), Zs'. split; [done|]. constructor; [|done]. eapply owned_block; [by left|]. split; [done|simpl; lia].
  - unfold UNIT. lia.
  - unfold UNIT in *. lia.
  - destruct Hp as (f & i & _ & _ & Ea & _). simpl in Ea. rewrite Ea. unfold SlobSpec.base, PAGE_SIZE, UNIT, KERNEL_LOGICAL_BASE. 
    exists (f * 256 + 0xFFFF800000000000 / 16 + i + 1). change (0xFFFF800000000000 / 16) with 0xFFFF80000000000. lia.
  - intros x Hx. eapply in_page_logical; [exact Hp|]. simpl. unfold UNIT in *. lia.
Qed.

(** A pair of frames from the pool. *)
Lemma wp_pair_of_frames v Zs (Q : Z → pstate → Prop) :
  pmm_ok v Zs → ¬ exhausted Zs 1 →
  (∀ f v' Zs', pool_alloc Zs Zs' f 1 → pmm_ok v' Zs' → pfn_ok f → Q (ptr f) v') →
  wp (pmm_alloc_order TASK_KSTACK_ORDER GFP_NONE) v Q.
Proof using Type.
  intros Hok Hne HQ. unfold pmm_alloc_order.
  apply wp_bind, wp_kassert; [done|]. apply wp_bind, wp_zl_lock; [apply Hok|].
  apply wp_bind. apply (wp_alloc_search _ Zs 1); [done|lia|done|]. intros f s1 Zs1 Hpa Hok1 _ Hf _.
  apply wp_bind. unfold zl_unlock. apply wp_modify, wp_ret. by eapply HQ.
Qed.

Lemma km_pages s al n :
  km_ok s al (S n) →
  wp (m_pages (task_memory kernel_mmu) TASK_KSTACK_ORDER) s (λ p s', km_ok s' ((p, TASK_KSTACK_SIZE) :: al) n ∧
    0 < p ∧ p + TASK_KSTACK_SIZE < 2 ^ 64 ∧ (16 | p) ∧ ∀ x, p ≤ x < p + TASK_KSTACK_SIZE → logical_memory x).
Proof using Type.
  intros (Hl & (Hpool & _ & _ & Hnext) & Hap & fs & bs & Zs & Hs & Hal).
  assert (wp (m_pages (task_memory kernel_mmu) TASK_KSTACK_ORDER) s (λ p s', ∃ f pm' Zs', p = SlobSpec.base f ∧
    s' = mk_kmem (upd_spm pm' (km_heap s)) (upd_vpm pm' (km_space s)) ∧ pool_alloc Zs Zs' f 1 ∧ pmm_ok pm' Zs' ∧ pfn_ok f ∧ 0 < f)) as Hw.
  { simpl. unfold on_space, on_pm. apply wp_bind, wp_zoom, wp_zoom.
    apply (wp_pair_of_frames _ Zs); [apply Hs|apply (Hpool _ (si_pm _ _ _ _ Hs))|]. intros f pm' Zs' Hpa Hok Hf.
    assert (f ∈ pool_free Zs) as Hin by (rewrite (pa_free _ _ _ _ Hpa); apply elem_of_app; left; by left).
    destruct (pool_free_range _ _ _ (si_pm _ _ _ _ Hs) Hin) as (g & Hg & Hr & _). pose proof (si_low _ _ _ _ Hs g Hg).
    apply wp_ret. exists f, pm', Zs'. split_and!; try done; [|lia].
    unfold page_to_virt, ptr. rewrite page_to_phys_pfn by done. unfold SlobSpec.base, pfn_ok, PAGE_SIZE in *. rewrite phys_to_virt_ok by lia. done. }
  apply wp_ok in Hw as (p & s' & E & f & pm' & Zs' & -> & -> & Hpa & Hok & Hf & Hf0). unfold wp. rewrite E.
  pose proof (pa_free _ _ _ _ Hpa) as Hfree.
  assert (bpages (f, 1%nat) = [f; f + 1]) as Ebp by (change (bpages (f, 1%nat)) with [0 + f; 1 + f]; by rewrite (Z.add_comm 1 f)). rewrite Ebp in Hfree.
  assert (NoDup (pool_free Zs)) as Hnd by (pose proof (pmm_pool_nodup _ _ (si_pm _ _ _ _ Hs)) as Hn; by apply NoDup_app in Hn as (_ & _ & ?)).
  rewrite Hfree in Hnd. apply NoDup_app in Hnd as (_ & Hnd & _).
  assert (∀ g, g = f ∨ g = f + 1 → g ∈ pool_free Zs ∧ g ∉ pool_free Zs') as Hg.
  { intros g Hg. assert (g ∈ [f; f + 1]) as Hin by (rewrite !elem_of_cons; tauto). split; [rewrite Hfree; apply elem_of_app; by left|by apply Hnd]. }
  assert (∀ g, g ∈ pool_free Zs' → g ∈ pool_free Zs) as Hsub by (intros g ?; rewrite Hfree; apply elem_of_app; by right).
  assert (pfn_ok (f + 1)) as Hf1 by (by destruct (pool_free_range _ _ _ (si_pm _ _ _ _ Hs) (proj1 (Hg (f + 1) (or_intror eq_refl)))) as (g & _ & _ & ?)).
  assert (∀ g, g = f ∨ g = f + 1 → stack_frame fs bs Zs' g) as Hst.
  { intros g Hgf. destruct (Hg g Hgf) as [Hin Hnin]. split_and!; [by destruct Hgf as [-> | ->]|lia|done|].
    intros j Hj Hc. apply (si_apart _ _ _ _ Hs _ Hc). by exists g, j. }
  split_and!.
  - split; [done|]. split; [by eapply Hnext|]. split.
    + constructor; [|done]. apply Forall_forall. intros e He.
      pose proof (proj1 (Forall_forall _ _) Hal e He) as [e' b Hb Hi|h (_ & _ & Hh & _) (_ & _ & Hh1 & _)].
      * apply (frame_apart_block fs bs Zs' b f e'); [|done|apply Hst; by left|apply Hst; by right|done].
        pose proof (si_pages _ _ _ _ Hs) as [_ Hp]%Forall_app. by eapply (proj1 (Forall_forall _ _)) in Hp.
      * assert (h ≠ f ∧ h ≠ f + 1 ∧ h + 1 ≠ f) as (? & ? & ?).
        { split_and!; intros E'; [apply Hh|apply Hh|apply Hh1]; rewrite E'; apply Hg; auto. }
        unfold Heap.apart. simpl. change TASK_KSTACK_SIZE with 8192. unfold SlobSpec.base, PAGE_SIZE. lia.
    + exists fs, bs, Zs'. split; [eapply slob_inv_pool; [done|done|done|by eapply pool_alloc_low; [|apply Hs]]|].
      constructor; [apply owned_stack; apply Hst; auto|]. eapply Forall_impl; [exact Hal|].
      intros e [e' b Hb He|h (? & ? & ? & ?) (? & ? & ? & ?)]; [by eapply owned_block|]. apply owned_stack; split_and!; auto.
  - unfold SlobSpec.base, PAGE_SIZE, KERNEL_LOGICAL_BASE. lia.
  - change TASK_KSTACK_SIZE with 8192. unfold SlobSpec.base, PAGE_SIZE, KERNEL_LOGICAL_BASE, pfn_ok in *. lia.
  - unfold SlobSpec.base, PAGE_SIZE, KERNEL_LOGICAL_BASE. exists (f * 256 + 0xFFFF80000000000). lia.
  - intros x. change TASK_KSTACK_SIZE with 8192. unfold logical_memory, SlobSpec.base, PAGE_SIZE, KERNEL_LOGICAL_BASE, KERNEL_TEXT_BASE, pfn_ok in *. lia.
Qed.

(** The heap and the frames of the kernel keep the promises. *)
#[export] Instance task_memory_start : StartMemory (task_memory kernel_mmu).
Proof.
  refine {| sm_ok := km_ok; sm_region := logical_memory |}.
  - exact km_kmalloc.
  - exact km_pages.
  - intros s b al n c (_ & _ & Hap & _) Hc. inversion Hap as [|? ? Hb]. by eapply (proj1 (Forall_forall _ _)) in Hb.
Defined.
End real.

(** ** An example: two CPUs *)

Module StartDemo.
(** Every request takes 8 KiB from the memory between [lo] and [hi]. *)
Definition lo : Z := 0x100000.
Definition hi : Z := 0x110000.
Definition take : M Z Z := λ h, if h + 8192 <=? hi then Ok (h, h + 8192) else Panic.
Definition mo : memory_ops (St := Z) :=
  {| m_kmalloc _ := take; m_pages _ := take; m_mmu_alloc := fault; m_clone_cow _ _ := fault; m_inc_users _ := fault |}.

Definition take_ok (h : Z) (al : list extent) (n : nat) : Prop :=
  (16 | h) ∧ lo ≤ h ∧ h + 8192 * Z.of_nat n ≤ hi ∧ Forall (λ e, e.1 + e.2 ≤ h) al ∧ ForallOrdPairs Heap.apart al.

Lemma wp_take_page h al n sz :
  take_ok h al (S n) → 0 < sz ≤ 8192 →
  wp take h (λ p h', take_ok h' ((p, sz) :: al) n ∧ 0 < p ∧ p + sz < 2 ^ 64 ∧ (16 | p) ∧ ∀ x, p ≤ x < p + sz → lo ≤ x < hi).
Proof.
  intros ([k Hk] & Hlo & Hhi & Hal & Hap) Hsz. unfold wp, take, lo, hi in *. destruct (Z.leb_spec (h + 8192) 0x110000); [|lia].
  split_and!; [|lia|lia|by exists k|lia]. split_and!; [exists (k + 512); lia|unfold lo; lia|unfold hi; lia| |].
  - constructor; [simpl; lia|]. eapply Forall_impl; [exact Hal|]. simpl. intros. lia.
  - constructor; [|done]. eapply Forall_impl; [exact Hal|]. simpl. intros e He. right. simpl. lia.
Qed.

#[export] Instance start_memory : StartMemory mo.
Proof.
  refine {| sm_ok := take_ok; sm_region := λ x, lo ≤ x < hi |}.
  - intros h al n sz Hok Hsz. apply wp_take_page; [done|]. destruct Hsz as [-> | ->]; done.
  - intros h al n Hok. by apply wp_take_page.
  - intros h b al n c (_ & _ & _ & _ & Hap) Hc. inversion Hap as [|? ? Hb]. by eapply (proj1 (Forall_forall _ _)) in Hb.
Defined.

Definition kmmu : Z := 0x3000.
Definition dummy : Z := 0x2000.
Definition dregs : Z := 0x1000.
Definition memory : gmap Z Z := list_to_map ((λ j, (dregs + 8 * j, 0)) <$> seqZ 0 7) ∪ list_to_map ((λ j, (lo + 8 * j, 0)) <$> seqZ 0 8192).

Lemma region_lookup (b n x : Z) : b ≤ x < b + 8 * n → (8 | x - b) → (list_to_map ((λ j, (b + 8 * j, 0)) <$> seqZ 0 n) : gmap Z Z) !! x = Some 0.
Proof.
  intros Hx [k Hk]. apply elem_of_list_to_map_1.
  - rewrite <-list_fmap_compose. apply NoDup_fmap_2; [|apply NoDup_seqZ]. intros i j. simpl. lia.
  - apply list_elem_of_fmap. exists k. split; [f_equal; lia|]. apply elem_of_seqZ. lia.
Qed.

Definition cpu (i : Z) : percpu := mk_percpu 0 0 0 0 false i 0.
Definition boot : kstate := mk_kstate ∅ ∅ ∅ {[ kmmu := mk_mmu 0xFFFF800000001000 0 0 0 ]} [cpu 0; cpu 1] 0 0 0.
Definition machine : mach Z := mk_mach (λ _, 0) memory ∅ 0 0 0 0 0 ∅ lo.
Definition lapic : lst := mk_lst [] true [mk_cpu_lapic 0 0 1 1000; mk_cpu_lapic 3 1 1 1000] [] 0 3 0 false true.
Definition dev (h : list event) (r : Z) : Z := if r =? LAPIC_REG_ID then 0x3000000 else 0.

Lemma boot_before : before_start kmmu dummy boot.
Proof.
  split; try done.
  - intros i pi Hi. destruct i as [|[|i]]; [by injection Hi as <-|by injection Hi as <-|done].
  - simpl. lia.
  - simpl. intros m mm [<- <-]%lookup_singleton_Some. done.
  - simpl. by intros m m' mm mm' [<- <-]%lookup_singleton_Some [<- <-]%lookup_singleton_Some.
Qed.

(** CPU 1 after [sched_init] has run on CPU 0. *)
Definition begun (k : kstate) : start Z := mk_start (set_self 1 k) machine lapic 0.

Lemma begun_at_start k t :
  starting kmmu dummy k [] ∅ [] → init_queued k ∅ [] t → at_start mo kmmu dummy dregs 0x4010 0x4030 (begun k) [] 8 t.
Proof.
  intros Hs Hi. exists [], ∅. split; [|split; [by apply starting_self|split; [by apply init_queued_self|by intros ?%not_elem_of_nil]]]. split; simpl.
  - split_and!; [by exists 0x10000|done|done|done|constructor].
  - intros x Hx [k' Hk]. unfold memory. rewrite lookup_union_r.
    + rewrite region_lookup; [done|unfold lo, hi in *; lia|]. exists (k' - 0x20000). unfold lo. lia.
    + apply not_elem_of_list_to_map_1. intros (y & -> & (j & -> & Hj%elem_of_seqZ)%list_elem_of_fmap)%list_elem_of_fmap.
      simpl in Hx. unfold lo, dregs in Hx. lia.
  - exists (mk_callee 0 0 0 0 0 0 0). split; [done|]. intros i x Hx.
    assert (x = 0 ∧ (i < 7)%nat) as [-> Hi7].
    { pose proof (lookup_lt_Some _ _ _ Hx). split; [|done]. do 7 (destruct i as [|i]; [by injection Hx|]). done. }
    unfold memory. apply lookup_union_Some_l, region_lookup; [lia|]. exists (Z.of_nat i). lia.
  - intros x Hx. unfold dregs, lo in *. lia.
  - lia.
Qed.
End StartDemo.

Lemma sched_run_correct_witness : ∃ k, sched_init StartDemo.kmmu StartDemo.dummy StartDemo.boot = Ok (tt, k) ∧
  wp (sched_run (BC := debug_build) StartDemo.mo StartDemo.kmmu StartDemo.dummy StartDemo.dregs 0x4000 0x4010 0x4020 0x4030 StartDemo.dev 1
        (cpus_prepare (BC := debug_build) StartDemo.mo StartDemo.kmmu StartDemo.dummy StartDemo.dregs 0x4000 0x4010 0x4020 0x4030 [0%nat])) (StartDemo.begun k)
     (λ _ s', (∃ Qs, sys_inv (ks s') Qs) ∧ schedulers_waiting s' = 2 ∧
       wp (resume 0x4000 0x4010 0x4040) (resumed s') (λ _ m', regs m' RIP = 0x4030)).
Proof.
  destruct (proj1 (wp_ok _ _ _) (sched_init_correct StartDemo.kmmu StartDemo.dummy [] 0 _ StartDemo.boot_before)) as ([] & k & E & Hs & Hi & _ & Hpc).
  exists k. split; [exact E|]. pose proof (f_equal length Hpc) as Hlen. rewrite !length_fmap in Hlen.
  assert (StartDemo.dummy ≠ 0) as H0 by done.
  assert (¬ sm_region (StartMemory := StartDemo.start_memory) StartDemo.dummy) as H1 by (simpl; unfold StartDemo.dummy, StartDemo.lo; lia).
  eapply wp_mono; [apply (sched_run_correct (BC := debug_build) StartDemo.mo (SM := StartDemo.start_memory) StartDemo.kmmu StartDemo.dummy StartDemo.dregs 0x4000 0x4010 0x4020 0x4030
    H0 H1 StartDemo.dev ltac:(done) (StartDemo.begun k) 1 [0%nat] 0 1 (mk_cpu_lapic 3 1 1 1000) 0)|].
  - simpl. rewrite Hlen. apply perm_swap.
  - done.
  - by apply StartDemo.begun_at_start.
  - done.
  - intros p Hp. simpl in Hp. apply (f_equal (λ l, l !! 1%nat)) in Hpc. rewrite list_lookup_fmap, Hp in Hpc. injection Hpc as ->. done.
  - done.
  - reflexivity.
  - intros _ s' (Qs & t & tk & p' & Hinv & _ & _ & _ & _ & _ & _ & Hw & Hnext). split_and!; [by exists Qs| |apply Hnext].
    rewrite Hw. simpl. by rewrite Hlen.
Defined.
