(* ===== verification/SchedTheorems.v ===== *)
(** * Scheduler: the theorems

    The run queue operations refine their list specifications, [schedule]
    preserves the system invariant and runs the task with the least virtual
    runtime, and three places where the code does not do what it means to. *)

From stdpp Require Import base list gmap.
From Stdlib Require Import ZArith Lia Bool Sorting.Sorted.
From S2P Require Import Prelude RbModel RbTree RbRepr RbDelete RbSpec Addr Cpuset Sched SchedInv RunQueue Schedule.
Local Open Scope Z_scope.

(** ** A small system for the witnesses: one CPU running task A with B queued *)

Module Demo.
Definition A : Z := 0x1000.
Definition B : Z := 0x2000.
Definition I : Z := 0x3000.
Definition kmmu : Z := 0x500.
Definition rq : Z := 0x100.

Definition mk (i vr : Z) (st : task_state) : task := mk_task 0 0 kmmu 0 st i i 0 vr 0.
Definition st : kstate := mk_kstate
  (<[node_of A := mk_node 0 0 0]> (<[node_of B := mk_node 1 0 0]> (<[node_of I := mk_node 0 0 0]> ∅)))
  (<[A := mk 1 5 TASK_S_RUNNABLE]> (<[B := mk 2 7 TASK_S_RUNNABLE]> (<[I := mk 0 0 TASK_S_RUNNABLE]> ∅)))
  {[rq := mk_runq 0 I (mk_tree (node_of B) (node_of B)) 1]}
  {[kmmu := mk_mmu 0xFFFF800000001000 0 0 0]}
  [mk_percpu A 0 0 0 false 0 rq] 0 0 0.
Definition Qs : gmap Z (list Z) := {[rq := [B]]}.
Definition cpu : percpu := mk_percpu A 0 0 0 false 0 rq.

Lemma Qs_lookup r D : Qs !! r = Some D → r = rq ∧ D = [B].
Proof. unfold Qs. rewrite lookup_singleton_Some. naive_solver. Qed.

Lemma mmus_lookup m mm : mmus st !! m = Some mm → m = kmmu ∧ mm = mk_mmu 0xFFFF800000001000 0 0 0.
Proof. simpl. rewrite lookup_singleton_Some. naive_solver. Qed.

Ltac map_cases H :=
  repeat (apply lookup_insert_Some in H as [[? ?]|[? H]]; [simplify_eq|]); try (by rewrite lookup_empty in H).

Lemma on : on_cpu st cpu.
Proof. split; [reflexivity|]. unfold in_u. simpl. lia. Qed.

Lemma tree_B : rq_holds (knodes st) (tasks st) (mk_runq 0 I (mk_tree (node_of B) (node_of B)) 1) [B].
Proof.
  split.
  - exists (Node (node_of B) Black Leaf Leaf). split; [|reflexivity].
    apply tree_is_b_ok. vm_compute. reflexivity.
  - reflexivity.
  - repeat constructor.
  - constructor; [|constructor]. split; [discriminate|]. by eexists.
Qed.

Lemma lists : queues st Qs.
Proof.
  split.
  - intros r D HD. apply Qs_lookup in HD as [-> ->]. split; [discriminate|].
    eexists. split; [reflexivity|]. exact tree_B.
  - intros r r' D D' [-> _]%Qs_lookup [-> _]%Qs_lookup. done.
Qed.

Lemma cpus_fine : cpus_ok st Qs.
Proof.
  split.
  - intros [|i] pi Hi; [|done]. by injection Hi as <-.
  - intros [|i] pi Hi; [|done]. injection Hi as <-. by eexists _, _.
  - intros [|i] [|j] pi pj Hi Hj Hne; done.
Qed.

Lemma queued_B t : queued Qs t → t = B.
Proof.
  intros (r & D & [_ ->]%Qs_lookup & Ht).
  by apply list_elem_of_singleton in Ht.
Qed.

Lemma inv : sys_inv st Qs.
Proof.
  split.
  - exact lists.
  - exact cpus_fine.
  - intros t tk Ht. simpl in Ht. map_cases Ht; (split; [discriminate|split; [unfold node_of; vm_compute; auto|reflexivity]|by eexists|by eexists]).
  - intros t ->%queued_B. by eexists.
  - intros [|i] pi Hi; [|done]. injection Hi as <-. eexists. split; [reflexivity|].
    split; [by intros ?%queued_B|done].
  - intros [|i] [|j] pi pj tk Hi Hj Hne; done.
  - intros [|i] pi q Hi Hq; [|done]. injection Hi as <-. injection Hq as <-. by eexists.
  - vm_compute. discriminate.
  - by intros m mm [-> ->]%mmus_lookup.
  - by intros m m' mm mm' [-> _]%mmus_lookup [-> _]%mmus_lookup.
Qed.

Lemma ready_A : ready st A (mk 1 5 TASK_S_RUNNABLE).
Proof. split; [reflexivity|discriminate|split; [vm_compute; auto|reflexivity]|by eexists]. Qed.

Lemma not_queued_A : ¬ queued Qs A.
Proof. by intros ?%queued_B. Qed.
End Demo.

(** ** Run queues *)

(** C5: [runq_add] of a task that is on no queue returns with the task
    inserted into this CPU's queue by virtual runtime, after all tasks with
    the same one; a task that was not runnable first gets the least runtime
    on the queue.  Locks, other queues and other objects are as before. *)
Theorem runq_add_refines (s : kstate) (Qs : gmap Z (list Z)) (p : percpu) (D : list Z) (q : runq) (t : Z) (tk : task) :
  queues s Qs → on_cpu s p → Qs !! run_queue p = Some D →
  runqs s !! run_queue p = Some q → rq_lock q = 0 → ready s t tk → ¬ queued Qs t →
  ∃ s', runq_add t s = Ok (tt, s') ∧ env_kept s s' ∧
    tasks s' = add_tasks (tasks s) D t tk ∧
    queues s' (<[run_queue p := enqueue (vr_of (tasks s')) t D]> Qs).
Proof.
  intros HQ Hp HD Hq Hl Hr Hnq.
  assert (wp (runq_add t) s (λ _ s', env_kept s s' ∧ tasks s' = add_tasks (tasks s) D t tk ∧
    queues s' (<[run_queue p := enqueue (vr_of (tasks s')) t D]> Qs))) as Hwp.
  { eapply wp_runq_add; [done..|]. intros s' H1 H2 H3. rewrite H2. auto. }
  apply wp_ok in Hwp as ([] & s' & Hrun & Hpost). by exists s'.
Qed.

Lemma runq_add_refines_witness :
  ∃ s', runq_add Demo.A Demo.st = Ok (tt, s') ∧ queues s' (<[Demo.rq := [Demo.A; Demo.B]]> Demo.Qs).
Proof.
  destruct (runq_add_refines Demo.st Demo.Qs Demo.cpu [Demo.B] _ Demo.A _ Demo.lists Demo.on eq_refl eq_refl
    eq_refl Demo.ready_A Demo.not_queued_A) as (s' & H1 & _ & H2 & H3).
  exists s'. split; [exact H1|]. rewrite H2 in H3. exact H3.
Defined.

(** C6: [runq_next] returns the first task of this CPU's queue, which no
    longer is on it, and whose virtual runtime no queued task undercuts; with
    an empty queue it returns the idle task and changes nothing. *)
Theorem runq_next_refines (s : kstate) (Qs : gmap Z (list Z)) (p : percpu) (D : list Z) (q : runq) :
  queues s Qs → on_cpu s p → Qs !! run_queue p = Some D →
  runqs s !! run_queue p = Some q → rq_lock q = 0 →
  match D with
  | [] => runq_next s = Ok (rq_idle q, s)
  | t :: D' => ∃ s', runq_next s = Ok (t, s') ∧ queues s' (<[run_queue p := D']> Qs) ∧
      tasks s' = tasks s ∧ env_kept s s' ∧
      (∀ u, u ∈ D' → vr_of (tasks s) t ≤ vr_of (tasks s) u)
  end.
Proof.
  intros HQ Hp HD Hq Hl. destruct D as [|t D'].
  - assert (wp runq_next s (λ x s', x = rq_idle q ∧ s' = s)) as Hwp
      by by eapply (wp_runq_next _ _ _ []).
    by apply wp_ok in Hwp as (? & ? & Hrun & -> & ->).
  - assert (wp runq_next s (λ x s', x = t ∧ queues s' (<[run_queue p := D']> Qs) ∧
      tasks s' = tasks s ∧ env_kept s s')) as Hwp by by eapply (wp_runq_next _ _ _ (t :: D')).
    apply wp_ok in Hwp as (? & s' & Hrun & -> & H1 & H2 & H3). exists s'. split_and!; try done.
    destruct (qs_dom _ _ HQ _ _ HD) as (_ & q' & _ & [_ _ Ho _]).
    inversion Ho as [|? ? _ Hall]; subst. by rewrite Forall_forall in Hall.
Qed.

Lemma runq_next_refines_witness :
  ∃ s', runq_next Demo.st = Ok (Demo.B, s') ∧ queues s' (<[Demo.rq := []]> Demo.Qs).
Proof.
  destruct (runq_next_refines Demo.st Demo.Qs Demo.cpu [Demo.B] _ Demo.lists Demo.on eq_refl eq_refl eq_refl)
    as (s' & H1 & H2 & _).
  exists s'. split; [exact H1|exact H2].
Defined.

(** C7: [runq_balance_pull] moves the first task of the lowest-numbered other
    CPU that has one to this CPU's queue, or changes nothing when no other CPU
    has any. *)
Theorem runq_balance_pull_refines (s : kstate) (Qs : gmap Z (list Z)) (p : percpu) (D : list Z) :
  queues s Qs → cpus_ok s Qs → on_cpu s p → Qs !! run_queue p = Some D →
  ∃ s', runq_balance_pull s = Ok (tt, s') ∧
    (((∀ j, (j < length (percpu_table s))%nat → nothing_at s Qs j) ∧ s' = s) ∨
     (∃ j t, (∀ j', (j' < j)%nat → nothing_at s Qs j') ∧ pulled s Qs p D j t s')).
Proof.
  intros HQ Hc Hp HD.
  assert (wp runq_balance_pull s (λ _ s',
    ((∀ j, (j < length (percpu_table s))%nat → nothing_at s Qs j) ∧ s' = s) ∨
     (∃ j t, (∀ j', (j' < j)%nat → nothing_at s Qs j') ∧ pulled s Qs p D j t s'))) as Hwp.
  { eapply (wp_runq_balance_pull s Qs p D); [done..|by left|]. intros j t s' _ Hb Hs'. right. eauto. }
  apply wp_ok in Hwp as ([] & s' & Hrun & Hpost). by exists s'.
Qed.

Lemma runq_balance_pull_refines_witness : ∃ s', runq_balance_pull Demo.st = Ok (tt, s').
Proof.
  destruct (runq_balance_pull_refines Demo.st Demo.Qs Demo.cpu [Demo.B] Demo.lists Demo.cpus_fine Demo.on eq_refl)
    as (s' & H1 & _).
  exists s'. exact H1.
Defined.

(** ** Scheduling *)

(** The picked task has the least virtual runtime of those queued here. *)
Lemma pick_least s Qs rq D cur ck next Qs' :
  ordered (vr_of (tasks s)) D → pick s Qs rq D cur ck next Qs' →
  ∀ u, u ∈ requeued s D cur ck → vr_of (tasks s) next ≤ vr_of (tasks s) u.
Proof.
  intros Ho Hp u Hu. destruct Hp as [t D' E|i pi t Do' E|q E]; rewrite E in Hu; [|by apply elem_of_nil in Hu..].
  assert (ordered (vr_of (tasks s)) (t :: D')) as Ho'.
  { rewrite <-E. unfold requeued. destruct (_ =? _); [done|by apply enqueue_ordered]. }
  inversion Ho' as [|? ? _ Hall]; subst. apply elem_of_cons in Hu as [->|Hu]; [lia|].
  rewrite Forall_forall in Hall. by apply Hall.
Qed.

(** C3: from every state that satisfies the system invariant, [schedule]
    returns (no assertion fails, no lock is left held), the invariant holds
    again, the current task (its runtime advanced by one) is back on its
    queue unless idle, the CPU now runs the task with the least virtual
    runtime of that queue (or one pulled from another CPU, or its idle task),
    and the preemption counter is balanced. *)
Theorem schedule_correct (bc : BuildConfig) (kernel_mmu : Z) (s : kstate) (Qs : gmap Z (list Z))
    (p : percpu) (D : list Z) (ck : task) :
  sys_inv s Qs → on_cpu s p → Qs !! run_queue p = Some D → tasks s !! current_task p = Some ck →
  u32 (preempt_count p) < 2 ^ 32 - 1 →
  ∃ s' next Qs', schedule kernel_mmu s = Ok (tt, s') ∧ sys_inv s' Qs' ∧ scheduled s p next s' ∧
    (let s1 := picking s (current_task p) ck in
     pick s1 Qs (run_queue p) D (current_task p) (ticked ck) next Qs' ∧
     (∀ u, u ∈ requeued s1 D (current_task p) (ticked ck) → vr_of (tasks s1) next ≤ vr_of (tasks s1) u)).
Proof.
  intros Hinv Hp HD Hck Hpre.
  assert (wp (schedule kernel_mmu) s (λ _ s', ∃ next Qs',
    pick (picking s (current_task p) ck) Qs (run_queue p) D (current_task p) (ticked ck) next Qs' ∧
    sys_inv s' Qs' ∧ scheduled s p next s')) as Hwp.
  { eapply wp_schedule; [done..|]. intros next Qs' s' H1 H2 H3. eauto. }
  apply wp_ok in Hwp as ([] & s' & Hrun & next & Qs' & Hpick & H2 & H3).
  exists s', next, Qs'. split; [done|]. split; [done|]. split; [done|]. split; [done|].
  intros u Hu. eapply pick_least; [|exact Hpick|exact Hu].
  destruct (si_current _ _ Hinv _ _ (oc_lookup _ _ Hp)) as (_ & _ & Hnq & _).
  destruct (qs_dom _ _ (picking_queues _ _ _ ck (si_queues _ _ Hinv) Hnq) _ _ HD) as (_ & q & _ & [_ _ Ho _]).
  exact Ho.
Qed.

Lemma schedule_correct_witness :
  ∃ s' Qs', schedule (H := debug_build) Demo.kmmu Demo.st = Ok (tt, s') ∧ sys_inv s' Qs'.
Proof.
  destruct (schedule_correct debug_build Demo.kmmu Demo.st Demo.Qs Demo.cpu [Demo.B] _ Demo.inv Demo.on
    eq_refl eq_refl eq_refl) as (s' & next & Qs' & H1 & H2 & _).
  exists s', Qs'. split; [exact H1|exact H2].
Defined.

(** A task that yields by the system call gets zero back when it runs again;
    meanwhile it waits on its queue, the invariant holds, and the CPU runs the
    task [schedule] picks. *)
Theorem syscall_sched_yield_correct (bc : BuildConfig) (kernel_mmu : Z) (s : kstate) (Qs : gmap Z (list Z))
    (p : percpu) (D : list Z) (ck : task) :
  sys_inv s Qs → on_cpu s p → Qs !! run_queue p = Some D → tasks s !! current_task p = Some ck →
  u32 (preempt_count p) < 2 ^ 32 - 1 →
  wp (syscall_sched_yield kernel_mmu) s (λ r s', r = 0 ∧ ∃ next Qs', sys_inv s' Qs' ∧ scheduled s p next s' ∧
    pick (picking s (current_task p) ck) Qs (run_queue p) D (current_task p) (ticked ck) next Qs').
Proof.
  intros Hinv Hp HD Hck Hpre. unfold syscall_sched_yield. apply wp_bind.
  eapply wp_schedule; [done..|]. intros next Qs' s' H1 H2 H3. apply wp_ret. eauto 6.
Qed.

Lemma syscall_sched_yield_correct_witness :
  wp (syscall_sched_yield (H := debug_build) Demo.kmmu) Demo.st (λ r s', r = 0 ∧ ∃ Qs', sys_inv s' Qs').
Proof.
  eapply wp_mono;
    [exact (syscall_sched_yield_correct debug_build Demo.kmmu Demo.st Demo.Qs Demo.cpu [Demo.B] _ Demo.inv Demo.on eq_refl eq_refl eq_refl)|].
  intros r s' [-> (next & Qs' & H & _)]. split; [reflexivity|]. exists Qs'. exact H.
Defined.

(** ** Where the code falls short *)

(** [task_wakeup] sets the task runnable before [sched_add], so the
    branch of [runq_add] that would give it the queue's least runtime is never
    taken: the task is enqueued with whatever runtime it had (0 for a new
    one). *)
Theorem task_wakeup_keeps_vruntime (s : kstate) (Qs : gmap Z (list Z)) (p : percpu) (D : list Z) (q : runq)
    (t : Z) (tk : task) :
  queues s Qs → on_cpu s p → Qs !! run_queue p = Some D →
  runqs s !! run_queue p = Some q → rq_lock q = 0 → ready s t tk → ¬ queued Qs t →
  t_state tk ≠ TASK_S_RUNNABLE →
  ∃ s', task_wakeup t s = Ok (tt, s') ∧
    tasks s' = <[t := set_state TASK_S_RUNNABLE tk]> (tasks s) ∧
    queues s' (<[run_queue p := enqueue (vr_of (tasks s)) t D]> Qs).
Proof.
  intros HQ Hp HD Hq Hl Hr Hnq Hst.
  assert (wp (task_wakeup t) s (λ _ s', tasks s' = <[t := set_state TASK_S_RUNNABLE tk]> (tasks s) ∧
    queues s' (<[run_queue p := enqueue (vr_of (tasks s)) t D]> Qs))) as Hwp.
  { by eapply wp_task_wakeup; [done..|]. }
  apply wp_ok in Hwp as ([] & s' & Hrun & H1 & H2). by exists s'.
Qed.

Lemma task_wakeup_keeps_vruntime_witness :
  let s0 := upd_tasks <[Demo.A := Demo.mk 1 5 TASK_S_WAITING]> Demo.st in
  ∃ s', task_wakeup Demo.A s0 = Ok (tt, s') ∧ vr_of (tasks s') Demo.A = 5.
Proof.
  intros s0.
  destruct (task_wakeup_keeps_vruntime s0 Demo.Qs Demo.cpu [Demo.B] _ Demo.A (Demo.mk 1 5 TASK_S_WAITING)
    (queues_upd_task _ _ _ _ Demo.lists Demo.not_queued_A) ltac:(split; [reflexivity|apply Demo.on])
    eq_refl eq_refl eq_refl ltac:(destruct Demo.ready_A; split; [reflexivity|assumption..])
    Demo.not_queued_A ltac:(discriminate)) as (s' & H1 & H2 & _).
  exists s'. split; [exact H1|]. rewrite H2. reflexivity.
Defined.

(** Erasing a node that is in no tree. *)
Lemma wp_rb_erase_foreign s node n (Q : unit → rbstate → Prop) :
  nodes s !! node = Some n → valid node → rb_mask_parent (parent_color n) = NULL →
  left n = NULL → right n = NULL → node ≠ most_left (tr s) →
  (∀ s', tr s' = mk_tree NULL (most_left (tr s)) → Q tt s') →
  wp (rb_erase node) s Q.
Proof.
  intros Hn Hv Hpar Hl Hr Hml HQ. pose proof (valid_ne _ Hv) as Hne. apply Z.eqb_neq in Hne as Hne'.
  unfold rb_erase. rewrite Hne'. unfold get_most_left. apply wp_bind, wp_bind, wp_get, wp_ret.
  apply Z.eqb_neq in Hml. rewrite Hml. apply wp_bind, wp_ret.
  unfold erase_victim. apply wp_bind, wp_bind. eapply wp_rd; [done..|]. rewrite Hl, Hr. simpl. apply wp_ret.
  unfold erase_splice. apply wp_bind, wp_bind. eapply wp_rd; [done..|]. rewrite Hl, Hr. simpl.
  apply wp_bind. eapply wp_rb_parent_raw; [done..|]. apply wp_bind. eapply wp_rb_parent_raw; [done..|].
  rewrite Hpar. simpl. apply wp_bind, wp_modify, wp_ret. apply wp_bind.
  unfold rb_color. rewrite Hne'. apply wp_bind. eapply wp_rd; [done..|]. apply wp_ret.
  rewrite Z.eqb_refl. simpl. apply wp_bind, wp_ret, wp_bind.
  apply (wp_mono _ _ (λ _ s', s' = upd_root NULL s)).
  { destruct (rb_mask_color (parent_color n) =? RB_BLACK); [|done]. unfold erase_rebalance, walk_fuel. apply wp_bind, wp_bind, wp_get, wp_ret.
    apply wp_bind. simpl. done. }
  intros _ s' ->. eapply (wp_clear _ node n); [done..|]. intros s' _ Htr _. by apply HQ.
Qed.

(** [task_exit] calls [runq_remove] on the running task, which is on no
    queue; [rb_erase] then takes it for the root, and the root pointer of the
    run queue becomes NULL: every task still in the tree is cut off, and the
    thread count is one too low. *)
Theorem runq_remove_running_task (s : kstate) (Qs : gmap Z (list Z)) (p : percpu) (D : list Z) (q : runq)
    (t : Z) :
  queues s Qs → on_cpu s p → Qs !! run_queue p = Some D →
  runqs s !! run_queue p = Some q → rq_lock q = 0 → t ∉ D →
  cleared (mk_rbstate (knodes s) (rq_tree q)) (node_of t) → valid (node_of t) →
  ∃ s' q', runq_remove t s = Ok (tt, s') ∧ runqs s' !! run_queue p = Some q' ∧
    tree_root (rq_tree q') = NULL ∧ num_threads q' = u64 (Z.of_nat (length D) - 1).
Proof.
  intros HQ Hp HD Hq Hl HtD (n & Hn & Hpar & Hnl & Hnr) Hv. pose proof (rq_nonnull _ _ _ _ HQ HD) as Hne.
  pose proof (rq_list _ _ _ _ _ HQ HD Hq) as [(T & [Hrep _ Hml] & HT) Hnum _ _].
  assert (wp (runq_remove t) s (λ _ s', ∃ q', runqs s' !! run_queue p = Some q' ∧
    tree_root (rq_tree q') = NULL ∧ num_threads q' = u64 (Z.of_nat (length D) - 1))) as Hwp.
  { unfold runq_remove, tree_remove. apply wp_bind. eapply wp_this_cpu; [done|].
    apply wp_bind. eapply wp_lock; [done..|]. apply wp_bind, wp_bind.
    eapply wp_on_tree; [apply locked_queue|done|].
    eapply wp_rb_erase_foreign; [exact Hn|done..| |].
    - simpl. simpl in Hml. rewrite Hml, HT. destruct D as [|h D']; simpl; [by apply valid_ne|].
      intros E%(inj node_of). subst. set_solver.
    - intros t1 Ht1. rewrite put_tree_set_rq. eapply wp_store; [apply lookup_insert_eq|done|].
      match goal with |- wp _ (upd_runqs (<[_ := ?u]>) _) _ => set (q1 := u) end.
      change (upd_runqs _ _) with (set_rq (run_queue p) q1 (nodes t1)
        (set_rq (run_queue p) (rq_set_tree (tr t1) (rq_set_lock 1 q)) (nodes t1) (locked s (run_queue p) q))).
      rewrite set_rq_set_rq. eapply wp_unlock; [done..|]. eexists. split; [apply lookup_insert_eq|].
      simpl. rewrite Ht1, Hnum. done. }
  apply wp_ok in Hwp as ([] & s' & Hrun & q' & Hpost). exists s', q'. auto.
Qed.

Lemma runq_remove_running_task_witness :
  ∃ s' q', runq_remove Demo.A Demo.st = Ok (tt, s') ∧ runqs s' !! Demo.rq = Some q' ∧
    tree_root (rq_tree q') = NULL.
Proof.
  destruct (runq_remove_running_task Demo.st Demo.Qs Demo.cpu [Demo.B] _ Demo.A Demo.lists Demo.on eq_refl
    eq_refl eq_refl) as (s' & q' & H1 & H2 & H3 & _).
  - rewrite list_elem_of_singleton. discriminate.
  - eexists. split; [reflexivity|]. split; [reflexivity|]. split; reflexivity.
  - apply Demo.ready_A.
  - exists s', q'. split; [exact H1|]. split; [exact H2|exact H3].
Defined.

(** [mmu_switch] records the CPU in the set of the address space it
    leaves and removes it from the set of the one it enters, the reverse of
    what the comment above it needs for TLB shootdowns. *)
Theorem mmu_switch_cpusets_reversed (bc : BuildConfig) (kernel_mmu : Z) (s : kstate) (p : percpu)
    (next prev : Z) (n v : mmu_info) :
  on_cpu s p → mmu_ok (mmus s) → 0 ≤ cpu_id p < MAX_CORES →
  mmus s !! next = Some n → mmus s !! prev = Some v → next ≠ prev →
  next ≠ kernel_mmu → prev ≠ kernel_mmu → in_u 32 (cpus n) → in_u 32 (cpus v) →
  ∃ s' n' v', mmu_switch kernel_mmu next prev s = Ok (tt, s') ∧ cr3 s' = virt_to_phys (p4 n) ∧
    mmus s' !! next = Some n' ∧ member (cpus n') (cpu_id p) = false ∧
    mmus s' !! prev = Some v' ∧ member (cpus v') (cpu_id p) = true.
Proof.
  intros Hp Hok Hid Hn Hv Hne Hnk Hpk Hcn Hcv.
  assert (wp (mmu_switch kernel_mmu next prev) s (λ _ s', cr3 s' = virt_to_phys (p4 n) ∧
    mmus s' = switched kernel_mmu (cpu_id p) next prev (mmus s))) as Hwp.
  { eapply wp_mmu_switch; [done..|]. simpl. apply Z.eqb_neq in Hne as ->. done. }
  apply wp_ok in Hwp as ([] & s' & Hrun & Hc & Hms). unfold switched, upd_set in Hms.
  apply Z.eqb_neq in Hne as E1. apply Z.eqb_neq in Hnk as E2. apply Z.eqb_neq in Hpk as E3.
  rewrite E1, E2, E3 in Hms.
  exists s', (mmu_set_cpus (set_bit (cpu_id p) false (cpus n)) n), (mmu_set_cpus (set_bit (cpu_id p) true (cpus v)) v).
  assert (∀ b c, in_u 32 c → member (set_bit (cpu_id p) b c) (cpu_id p) = b) as Hbit.
  { intros b c Hcr. unfold member, set_bit. rewrite set_id_testbit by (done || lia).
    destruct (decide _); [done|lia]. }
  rewrite Hms. split; [done|]. split; [done|].
  split; [by rewrite lookup_alter_ne, lookup_alter_eq, Hn by done|]. split; [by apply Hbit|].
  split; [by rewrite lookup_alter_eq, lookup_alter_ne, Hv by done|]. by apply Hbit.
Qed.

(** Two user address spaces. *)
Definition two_mmus : kstate :=
  upd_mmus (λ _, <[0x600 := mk_mmu 0xFFFF800000002000 1 0 0]> {[0x700 := mk_mmu 0xFFFF800000003000 1 0 2]}) Demo.st.

Lemma two_mmus_lookup m mm : mmus two_mmus !! m = Some mm →
  (m = 0x600 ∧ p4 mm = 0xFFFF800000002000 ∨ m = 0x700 ∧ p4 mm = 0xFFFF800000003000) ∧ cpu_lock mm = 0.
Proof.
  unfold two_mmus. simpl. rewrite lookup_insert_Some, lookup_singleton_Some.
  by intros [[<- <-]|(_ & <- & <-)]; auto.
Qed.

Lemma two_mmus_ok : mmu_ok (mmus two_mmus).
Proof.
  split.
  - intros m mm [Hm Hl]%two_mmus_lookup. split; [|done]. destruct Hm as [[-> _]|[-> _]]; done.
  - intros m m' mm mm' [Hm _]%two_mmus_lookup [Hm' _]%two_mmus_lookup He.
    destruct Hm as [[-> E]|[-> E]], Hm' as [[-> E']|[-> E']]; done || congruence.
Qed.

Lemma mmu_switch_cpusets_reversed_witness :
  ∃ s', mmu_switch (H := debug_build) Demo.kmmu 0x600 0x700 two_mmus = Ok (tt, s').
Proof.
  destruct (mmu_switch_cpusets_reversed debug_build Demo.kmmu two_mmus Demo.cpu 0x600 0x700 _ _
    ltac:(split; [reflexivity|apply Demo.on]) two_mmus_ok ltac:(vm_compute; split; [discriminate|reflexivity])
    eq_refl eq_refl) as (s' & n' & v' & H1 & _); [discriminate..|unfold in_u; simpl; lia|unfold in_u; simpl; lia|].
  exists s'. exact H1.
Defined.
